(* ===== verification/_CoqProject ===== *)
-Q . S2P
Prelude.v
Bitmap.v
KList.v
ListSpec.v
KListProof.v
KListOps.v
KListSort.v
KListRefine.v
Arith64.v
Cstring.v
CstringProof.v
Stdlibc.v
HeapSort.v
Kernel.v
Synch.v
SchedInv.v
SchedProof.v
LockInv.v
SchedProps.v
Hash.v
HashProof.v
Vaddr.v
Palloc.v
Malloc.v
MallocProof.v
Pagedir.v
PagedirProof.v
Paging.v
Segments.v
Cache.v
CacheProof.v
Inode.v
Random.v
InodeView.v
InodeOps.v
InodeIO.v
InodeGrow.v
InodeExpand.v
InodeProof.v
Directory.v
FsCheck.v
FileProps.v
DirProof.v
Stdio.v
StdioProof.v
Console.v
CommandLine.v
CommandProof.v
Args.v
ArgsProof.v
Loader.v
LoaderProof.v
Swap.v
Vm.v
VmProof.v
VmRun.v
VmExit.v
Mmap.v
Input.v
InputProof.v
Serial.v
SerialProof.v
Vga.v
Procs.v
ProcsProof.v
Syscall.v
FsFrame.v
SyscallProof.v
Descriptors.v
Disk.v
Ata.v
DiskProof.v
DiskInit.v
DiskRun.v
DiskProps.v
Interrupts.v
InterruptsProof.v
InterruptsRun.v
Fsutil.v
SyscallRun.v
