(* ===== verification/Prelude.v ===== *)
(** * Pintos in Rocq

    A model of the Pintos kernel under [src/pintos/src] and the theorems that make its
    parts correct.  Definitions keep the names of the C functions they translate; a C
    integer is a [Z] whose wrap-around is written out, a failed assertion is the outcome
    [Panic], an access outside an object (or a signed overflow) is [Ub], and a loop that
    ran out of its bound, or a call that waits for ever, is [NoFuel].  A theorem that a
    call returns is stated as such ([exists s', call = Ret s' /\ ...]).

    ** The parts of the kernel and the files that model them

    - [Prelude] (this file): machine integers, the outcome monad, loops and arrays.
    - Library code, [lib/]: [Bitmap] (kernel/bitmap.c), [KList] (kernel/list.c over a
      heap of elements with next and prev pointers), [Arith64] (arithmetic.c),
      [Cstring] (string.c over a byte-addressed memory), [Stdlibc] (stdlib.c), [Hash]
      (kernel/hash.c).  [ListSpec] holds the functions on sequences that the list code
      is compared with; [KListProof], [KListOps], [KListSort], [KListRefine],
      [CstringProof], [HeapSort] and [HashProof] hold the proofs.
    - Threads, [threads/]: [Kernel] (thread.c, interrupt.c, timer.c: thread states, ready
      list, switching, sleeping, priorities) and [Synch] (synch.c: semaphores, locks with
      priority donation, condition variables).  A thread that blocks inside a call leaves
      the rest of the call as a frame on its stack, so that calls of different threads
      interleave; the step relation and the initial state are there too.  [SchedInv],
      [SchedProof], [LockInv] and [SchedProps] hold invariants and properties.
    - Memory, [threads/] and [userprog/]: [Vaddr] (vaddr.h, round.h), [Palloc]
      (palloc.c over bytes of memory and two bitmaps), [Malloc] (malloc.c: descriptors,
      arenas, big blocks), [Pagedir] (pagedir.c and pte.h over the words of memory, and
      install_page of process.c), with [MallocProof] and [PagedirProof]; [Paging]
      (paging_init of init.c) builds the kernel's own tables with them.
    - Interrupts, [threads/interrupt.c] and [userprog/]: [Segments] (gdt.c, tss.c: the
      words of the descriptors and what the processor reads in them) and [Interrupts]
      (the gates, the two interrupt controllers, registration and dispatch, the set-up
      calls of exception.c, syscall.c, timer.c and kbd.c, kill), with [InterruptsProof]
      and [InterruptsRun].
    - Start-up, [threads/init.c]: [CommandLine] (read_command_line, parse_options,
      run_actions and their actions), with [CommandProof]; [Fsutil] (filesys/fsutil.c) is
      the actions on files, among them the copies from and to a scratch disk.
    - Devices, [devices/]: [Disk] (disk.c: channels, reset, identification, transfers,
      the interrupt handler) over a bus of ports; [Ata] is what the ATA specification
      says of such a bus; [DiskProof], [DiskInit], [DiskRun] and [DiskProps] hold the
      proofs.  [Serial] (serial.c) with [SerialProof], and [Vga] (vga.c).
    - File system, [filesys/]: [Cache] (cache.c over a map from sectors to bytes),
      [Inode] (inode.c, free-map.c, file.c) and [Directory] (directory.c, filesys.c).
      [CacheProof], [InodeView] (the layout of a file), [InodeOps], [InodeIO] (reading
      and writing inside a file), [InodeGrow] (the invariant of the file system and the
      allocation of sectors), [InodeExpand] (growth, block by block), [InodeProof],
      [FileProps] and [DirProof] build on each other; [FsCheck] decides the invariant on
      a concrete, formatted disk.
    - Output, [lib/]: [Stdio] (stdio.c: formats over any function that takes characters,
      vsnprintf) and [Console] (kernel/console.c, printf and hex_dump), with [StdioProof].
    - Programs and their memory, [userprog/] and [vm/]: [Args] (setup_stack of process.c:
      the arguments of a new process), [Loader] (load, validate_segment and load_segment
      of process.c, the supplemental page table of page.c) and [Swap] (swap.c), with
      [ArgsProof] and [LoaderProof]; [Vm] (frame.c, the page faults of exception.c, the
      release of page.c) is demand paging for all processes, [VmProof] relates it to flat
      memories, [VmRun] runs user accesses on it, [VmExit] ends a process, and [Mmap] has the
      system calls that map files, the unmapping on the linked list of mapped pages.
    - Processes, [userprog/process.c], [userprog/syscall.c], [threads/thread.c]: [Procs] is
      the protocol of process_execute, start_process, process_wait and exit_process as
      steps of processes that run interleaved, with [ProcsProof].
    - System calls, [userprog/syscall.c]: [Syscall] is the handler with its cases on the user
      memory of a process and the file system; [FsFrame] says what the file system leaves
      alone, [SyscallProof] has the invariant of the open files and the loops on their linked
      list, [Descriptors] the specification of the descriptors and the simulation of the
      calls that return, [SyscallRun] runs of calls to their end.
    - Input and random numbers: [Input] (devices/intq.c, input.c, kbd.c) with [InputProof],
      and [Random] (lib/random.c).

    The file system calls the bitmap of the library for its free map and the cache for
    every sector; the block allocator calls the page allocator, which calls the bitmap;
    the page tables take their pages from the page allocator; the loader fills the table
    that tells which bytes of a file a page gets, the swap disk calls the bitmap for its
    slots, and the arguments are taken apart with the functions of string.c; page faults use
    the loader's table, the frames, the swap disk and the files; a system call uses the files
    and directories, and the pages a process has.  The cache reads and writes sectors through the disk
    driver, which waits for the interrupts that interrupt.c dispatches; the console writes to
    the serial port and to the display, and the serial port and the keyboard fill the input
    queue.  What one of these parts promises to the next is an invariant with a lemma per
    operation ([Bitmap.updated], [CacheProof.stored], [InodeOps.moves], [InodeGrow.inv], [Palloc.pages_wf],
    [MallocProof.heap_inv], [VmProof.paged]) or a class with an instance per operation
    ([FsFrame.Keeps], [SyscallProof.Triple], [Descriptors.Quiet]); what the file system needs of memory is the class
    [InodeOps.good_memory], and what paging does in a system call and leaves alone are the
    classes [Syscall.Pager] and [SyscallProof.PagerOk].  A device is a class of port operations and a class of what its
    documentation promises of them ([Disk.Bus] and [Ata.AtaBus], [Interrupts.PicBus] and
    [InterruptsProof.Pic], [Serial.UartBus] and [SerialProof.Uart], [Vga.CrtcBus] and
    [Vga.Crtc]), each with a simulated device as an instance; [DiskProps.SectorStore] is what
    the cache takes a disk to be, with the driver as an instance.

    ** What the theorems show

    - Refinement: a series of list calls acts on a sequence, of hash table calls on a
      set, of page table calls on a map from pages to frames, of cache calls on a plain
      disk, of directory calls on a map from names to inodes, of swap calls on a map from
      slots to pages, of accesses under demand paging on flat memories (as long as the oldest
      frame can be evicted), of system calls that return on a map from descriptors to open
      files; of disk driver calls, command by command over
      the ports of the channel, on a map from sectors to bytes; of writes to the display
      on a terminal of lines; the loops that go on from list elements they have removed do
      what they do on sequences; the random numbers are those of RC4.
    - Invariants and safety: in every reachable state of the scheduler exactly one thread
      runs and the queues hold the others; a lock has one holder; pages and blocks are
      handed out once; a write to a file leaves no sector with two uses, every sector in
      use marked, the free map on the disk current and every other file unchanged; a system
      call that returns keeps the open files and gives the file lock back; [process_execute] and
      [process_wait] report what the child did, and no wake-up is lost; keys are read once
      and in order, and bytes leave the serial port in the order they were written; user
      code enters the kernel through the system call gate and the exceptions open to it only,
      and every registered external interrupt is served, acknowledged at its controllers
      and followed by the next.
    - Functional correctness: sorting (stable merge sort of lists, heap sort of arrays),
      binary search, tokens, string copies, 64-bit division, first-fit allocation,
      scheduling order, wake-up, priority donation, copies of files to a scratch disk, reads and writes of files, the stack
      of a new process, the pages of a segment, mapped files and their release, the end of a
      process; no executable file within the bounds on its size makes the loader fail; the kernel's page tables map all of
      RAM, with the kernel's code read-only; the descriptors and the task state the processor
      is given.
    - Round trips: the actions of a command line are performed as written, what a process
      writes to a file it reads back, printed numbers read back, bitmaps on files, page table entries, the
      position of a file; formatted output ends; bounds: the buffer of vsnprintf, 64-bit overflow cases,
      sizes of string copies and allocations.
    - Defects of the code, each as a theorem about the code as it is: interrupts that
      panic the kernel, lost priority donations, overflows in the allocator, background
      threads of the cache that keep their locks, reads beyond the end of a file, the
      last close of a removed file, names that start with a slash, clean stack pages that are
      evicted, descriptors that are not open, races between [process_wait] and
      [exit_process], two readers of the keyboard, a writer whose wake-up is lost in a queue, a
      command line with too many words.

    ** Bounds

    Loops have as many rounds as their data allows: list loops the number of elements,
    [Directory.dir_rounds] the entries of the largest file, [Inode.write_levels] four
    levels of calls from a write to the free map's own write, which is one more than the
    lock of an inode admits.  The disk driver's waits have the rounds of the code, up to 3000
    for a drive that stays busy; a word of the command line is one of at most 65
    ([CommandLine.argv_len]); the serial port is polled as often as the device may need
    ([SerialProof.max_polls]), and a queue of 64 bytes is emptied in at most 65 rounds;
    [Fsutil.cat_rounds] is one more than the pages of the largest file.  The
    theorems show that these bounds are not reached.

    ** Not modelled

    The assembly (boot loader, interrupt stubs, thread switch) and the user programs have
    no model: what the processor does with the tables it is given is written out in
    [Interrupts] and [Segments], and a thread switch is a step.  Of init.c the detection of
    memory, the help text, the power-off and the statistics, of timer.c the calibration
    against real time, and lib/debug.c with its walk over stack frames, are not modelled:
    their results depend on memory outside any object or on time.  Inside the file system a call runs to its end
    before the next one starts, and the background threads of the cache are steps of their
    own; the console is seen by one thread at a time, and so is the handler of system calls,
    whose calls that start and await processes are given their results and whose calls on
    mapped files are given what they do to the pages; what another thread does when a
    wake-up in a queue yields to it is a parameter ([preempted]), and the order of the bytes
    at the serial port is proved for wake-ups that do not.  Of demand paging the page tables, the page
    allocator and the files are what their own components promise. *)

From Stdlib Require Export ZArith Lia.
From stdpp Require Export base list numbers gmap fin_maps.

#[global] Open Scope Z_scope.

(** ** Machine integers

    A C integer is a [Z]; every operation that can leave the range of its type
    is followed by one of these normalisations, so wrap-around is visible in
    the definitions. *)
Module Word.

Definition u8 (x : Z) : Z := x mod 2 ^ 8.
Definition u16 (x : Z) : Z := x mod 2 ^ 16.
Definition u32 (x : Z) : Z := x mod 2 ^ 32.
Definition u64 (x : Z) : Z := x mod 2 ^ 64.
Definition s32 (x : Z) : Z := (x + 2 ^ 31) mod 2 ^ 32 - 2 ^ 31.
Definition s64 (x : Z) : Z := (x + 2 ^ 63) mod 2 ^ 64 - 2 ^ 63.

Definition is_u8 (x : Z) : Prop := 0 <= x < 2 ^ 8.
Definition is_u32 (x : Z) : Prop := 0 <= x < 2 ^ 32.
Definition is_u64 (x : Z) : Prop := 0 <= x < 2 ^ 64.
Definition is_s32 (x : Z) : Prop := - 2 ^ 31 <= x < 2 ^ 31.
Definition is_s64 (x : Z) : Prop := - 2 ^ 63 <= x < 2 ^ 63.

Lemma u8_small x : 0 <= x < 2 ^ 8 -> u8 x = x.
Proof. apply Z.mod_small. Qed.
Lemma u32_small x : 0 <= x < 2 ^ 32 -> u32 x = x.
Proof. apply Z.mod_small. Qed.
Lemma u64_small x : 0 <= x < 2 ^ 64 -> u64 x = x.
Proof. apply Z.mod_small. Qed.
Lemma s32_small x : - 2 ^ 31 <= x < 2 ^ 31 -> s32 x = x.
Proof. intros; unfold s32; rewrite Z.mod_small; lia. Qed.
Lemma s32_u32 x : s32 (u32 x) = s32 x.
Proof. unfold s32, u32. by rewrite Zplus_mod_idemp_l. Qed.
Lemma s64_small x : - 2 ^ 63 <= x < 2 ^ 63 -> s64 x = x.
Proof. intros; unfold s64; rewrite Z.mod_small; lia. Qed.

Lemma u8_range x : 0 <= u8 x < 2 ^ 8.
Proof. apply Z.mod_pos_bound; lia. Qed.
Lemma u32_range x : 0 <= u32 x < 2 ^ 32.
Proof. apply Z.mod_pos_bound; lia. Qed.
Lemma u64_range x : 0 <= u64 x < 2 ^ 64.
Proof. apply Z.mod_pos_bound; lia. Qed.
Lemma s32_range x : - 2 ^ 31 <= s32 x < 2 ^ 31.
Proof. unfold s32. pose proof (Z.mod_pos_bound (x + 2 ^ 31) (2 ^ 32)). lia. Qed.
Lemma s64_range x : - 2 ^ 63 <= s64 x < 2 ^ 63.
Proof. unfold s64. pose proof (Z.mod_pos_bound (x + 2 ^ 63) (2 ^ 64)). lia. Qed.

(** A word is below [2 ^ 32] exactly when it has no bit at or above 32. *)
Lemma is_u32_bits w : is_u32 w <-> 0 <= w /\ forall k, 32 <= k -> Z.testbit w k = false.
Proof.
  unfold is_u32. split.
  - intros Hw; split; [lia|]. intros k Hk.
    rewrite <- (Z.mod_small w (2 ^ 32)) by lia. apply Z.mod_pow2_bits_high; lia.
  - intros [H0 Hb]. split; [lia|]. destruct (Z_lt_ge_dec w (2 ^ 32)) as [|Hge]; [done|].
    exfalso. assert (0 < w) by lia. pose proof (Z.bit_log2 w) as Hl.
    rewrite Hb in Hl; [|apply Z.log2_le_pow2; lia]. by discriminate Hl.
Qed.

Lemma lor_u32 a b : is_u32 a -> is_u32 b -> is_u32 (Z.lor a b).
Proof.
  rewrite !is_u32_bits. intros [? Ha] [? Hb]. split; [by apply Z.lor_nonneg|].
  intros k Hk. by rewrite Z.lor_spec, Ha, Hb.
Qed.
Lemma land_u32 a b : is_u32 a -> is_u32 b -> is_u32 (Z.land a b).
Proof.
  rewrite !is_u32_bits. intros [? Ha] [? Hb]. split; [apply Z.land_nonneg; auto|].
  intros k Hk. by rewrite Z.land_spec, Ha, Hb.
Qed.
Lemma lxor_u32 a b : is_u32 a -> is_u32 b -> is_u32 (Z.lxor a b).
Proof.
  rewrite !is_u32_bits. intros [? Ha] [? Hb]. split; [apply Z.lxor_nonneg; tauto|].
  intros k Hk. by rewrite Z.lxor_spec, Ha, Hb.
Qed.

(** ** Fields of words *)

(** Bits [lo] to [lo + n - 1] of a word. *)
Definition bitfield (d lo n : Z) : Z := Z.land (Z.shiftr d lo) (Z.ones n).

Lemma lor_shift_add x y n : 0 <= n -> 0 <= x < 2 ^ n -> Z.lor x (Z.shiftl y n) = x + 2 ^ n * y.
Proof.
  intros Hn Hx. rewrite <- Z.lxor_lor, <- Z.add_nocarry_lxor; [rewrite Z.shiftl_mul_pow2 by lia; lia|..];
    (apply Z.bits_inj'; intros k Hk; rewrite Z.land_spec, Z.bits_0, Z.shiftl_spec by lia;
     destruct (decide (k < n)); [rewrite (Z.testbit_neg_r y) by lia; apply andb_false_r|];
     rewrite <- (Z.mod_small x (2 ^ n)), Z.mod_pow2_bits_high by lia; done).
Qed.

Lemma bitfield_divmod d lo n : 0 <= lo -> 0 <= n -> bitfield d lo n = (d / 2 ^ lo) mod 2 ^ n.
Proof. intros. unfold bitfield. by rewrite Z.land_ones, Z.shiftr_div_pow2. Qed.

Lemma bitfield_skip a h k lo n : 0 <= k <= lo -> 0 <= n -> 0 <= a < 2 ^ k -> bitfield (a + 2 ^ k * h) lo n = bitfield h (lo - k) n.
Proof.
  intros Hk Hn Ha. rewrite !bitfield_divmod by lia. f_equal. replace lo with (k + (lo - k)) at 1 by lia.
  assert (2 ^ k <> 0) by lia. rewrite Z.pow_add_r, <- Z.div_div by lia.
  by rewrite (Z.mul_comm (2 ^ k)), Z.div_add, (Z.div_small a), Z.add_0_l by lia.
Qed.

Lemma bitfield_here f h n : 0 <= n -> 0 <= f < 2 ^ n -> bitfield (f + 2 ^ n * h) 0 n = f.
Proof.
  intros Hn Hf. rewrite bitfield_divmod, Z.div_1_r by lia. assert (2 ^ n <> 0) by lia.
  by rewrite (Z.mul_comm (2 ^ n)), Z.mod_add, Z.mod_small by lia.
Qed.

Lemma bitfield_small f n : 0 <= n -> 0 <= f < 2 ^ n -> bitfield f 0 n = f.
Proof. intros Hn Hf. rewrite <- (bitfield_here f 0 n) at 2 by done. f_equal. lia. Qed.

(** Reads fields of a word written as a sum [f0 + 2 ^ n0 * (f1 + 2 ^ n1 * ...)]. *)
Ltac bitfields :=
  repeat first
    [ match goal with
      | |- context [bitfield ?h (?a - ?b) ?n] => let e := eval compute in (a - b) in change (bitfield h (a - b) n) with (bitfield h e n)
      end
    | rewrite bitfield_skip by lia | rewrite bitfield_here by lia | rewrite bitfield_small by lia ].

Lemma land_bitfield x lo n : 0 <= lo -> 0 <= n -> Z.land x (Z.shiftl (Z.ones n) lo) = Z.shiftl (bitfield x lo n) lo.
Proof.
  intros Hlo Hn. unfold bitfield. apply Z.bits_inj'. intros k Hk. rewrite Z.land_spec, !Z.shiftl_spec by lia.
  destruct (decide (k < lo)); [rewrite !(Z.testbit_neg_r _ (k - lo)) by lia; apply andb_false_r|].
  rewrite Z.land_spec, Z.shiftr_spec by lia. by replace (k - lo + lo) with k by lia.
Qed.

End Word.
Export Word.

(** ** Outcomes

    [Panic] is a failed [ASSERT], a [PANIC] or a [NOT_REACHED]; [Ub] is an
    access outside the object the pointer designates; [NoFuel] is a loop whose
    bound was too small, which the theorems rule out. *)
Inductive res (A : Type) : Type :=
| Ret (a : A)
| Panic
| Ub
| NoFuel.
Arguments Ret {A} a.
Arguments Panic {A}.
Arguments Ub {A}.
Arguments NoFuel {A}.

Definition rbind {A B : Type} (m : res A) (k : A -> res B) : res B :=
  match m with
  | Ret a => k a
  | Panic => Panic
  | Ub => Ub
  | NoFuel => NoFuel
  end.

Definition assert_ (b : bool) : res unit := if b then Ret tt else Panic.
Definition of_opt {A : Type} (o : option A) : res A :=
  match o with Some a => Ret a | None => Ub end.

Declare Scope c_scope.
Delimit Scope c_scope with c.
#[global] Open Scope c_scope.
Notation "'let!' x := m 'in' k" := (rbind m (fun x => k))
  (at level 10, x name, m at level 100, k at level 200) : c_scope.
Notation "'let!' ' p := m 'in' k" := (rbind m (fun x => let 'p := x in k))
  (at level 10, p pattern, m at level 100, k at level 200) : c_scope.
Notation "'ASSERT' b ; k" := (rbind (assert_ b) (fun _ => k))
  (at level 10, b at level 100, k at level 200) : c_scope.

Lemma rbind_Ret {A B} (m : res A) (k : A -> res B) b :
  rbind m k = Ret b <-> exists a, m = Ret a /\ k a = Ret b.
Proof. destruct m; simpl; naive_solver. Qed.

Lemma rbind_assoc {A B C} (m : res A) (f : A -> res B) (g : B -> res C) :
  rbind (rbind m f) g = rbind m (fun a => rbind (f a) g).
Proof. by destruct m. Qed.

(** Inverts a successful run of a monadic definition, step by step. *)
Ltac rinv :=
  repeat match goal with
  | H : rbind _ _ = Ret _ |- _ => apply rbind_Ret in H as (? & ? & ?)
  | H : assert_ ?b = Ret _ |- _ => unfold assert_ in H; destruct b eqn:?; [|discriminate H]
  | H : of_opt ?o = Ret _ |- _ => unfold of_opt in H; destruct o eqn:?; [|discriminate H]
  | H : Ret _ = Ret _ |- _ => injection H as H
  | H : Panic = Ret _ |- _ => discriminate H
  | H : Ub = Ret _ |- _ => discriminate H
  | H : NoFuel = Ret _ |- _ => discriminate H
  end.

(** ** Loops

    [for_up n i f s] is [for (k = i; k < i + n; k++) s = f (k, s)];
    [find_up] is the same loop with an early [return];
    [iter] is a loop whose body says whether to continue ([inl]) or to leave
    ([inr]), run for at most [fuel] rounds. *)
Section Loops.
Context {S R : Type}.

Fixpoint for_up (n : nat) (i : Z) (f : Z -> S -> res S) (s : S) : res S :=
  match n with
  | O => Ret s
  | Datatypes.S n' => let! s' := f i s in for_up n' (i + 1) f s'
  end.

Fixpoint find_up (n : nat) (i : Z) (f : Z -> res (option R)) : res (option R) :=
  match n with
  | O => Ret None
  | Datatypes.S n' =>
      let! o := f i in
      match o with
      | Some r => Ret (Some r)
      | None => find_up n' (i + 1) f
      end
  end.

Fixpoint iter (fuel : nat) (f : S -> res (S + R)) (s : S) : res R :=
  match fuel with
  | O => NoFuel
  | Datatypes.S fuel' =>
      let! o := f s in
      match o with
      | inl s' => iter fuel' f s'
      | inr r => Ret r
      end
  end.

(** Total correctness of [iter]: an invariant, a measure below the fuel. *)
Lemma iter_total (I : S -> Prop) (m : S -> nat) (Q : R -> Prop) (f : S -> res (S + R)) :
  (forall s, I s ->
     (exists s', f s = Ret (inl s') /\ I s' /\ (m s' < m s)%nat) \/
     (exists r, f s = Ret (inr r) /\ Q r)) ->
  forall fuel s, I s -> (m s < fuel)%nat -> exists r, iter fuel f s = Ret r /\ Q r.
Proof.
  intros Hstep fuel; induction fuel as [|fuel IH]; intros s Hs Hm; [lia|].
  simpl. destruct (Hstep s Hs) as [(s' & -> & Hs' & Hlt)|(r & -> & Hr)]; simpl.
  - apply IH; [done|lia].
  - eauto.
Qed.

(** Total correctness of [for_up] with an invariant indexed by the counter. *)
Lemma for_up_total (I : Z -> S -> Prop) (f : Z -> S -> res S) :
  forall n i s, I i s ->
  (forall k s', i <= k < i + Z.of_nat n -> I k s' ->
     exists s'', f k s' = Ret s'' /\ I (k + 1) s'') ->
  exists s', for_up n i f s = Ret s' /\ I (i + Z.of_nat n) s'.
Proof.
  induction n as [|n IH]; intros i s Hs Hf.
  - exists s; split; [done|]. by rewrite Z.add_0_r.
  - simpl. destruct (Hf i s) as (s' & -> & Hs'); [lia|done|]. simpl.
    destruct (IH (i + 1) s' Hs') as (s'' & -> & Hs'').
    { intros k t Hk. apply Hf. lia. }
    exists s''; split; [done|]. by replace (i + Z.of_nat (Datatypes.S n)) with (i + 1 + Z.of_nat n) by lia.
Qed.

Lemma for_up_app n m i (f : Z -> S -> res S) s :
  for_up (n + m) i f s = let! s' := for_up n i f s in for_up m (i + Z.of_nat n) f s'.
Proof.
  revert i s; induction n as [|n IH]; intros i s; simpl.
  - by rewrite Z.add_0_r.
  - rewrite rbind_assoc. destruct (f i s); simpl; [|done..]. rewrite IH.
    by replace (i + 1 + Z.of_nat n) with (i + Z.of_nat (Datatypes.S n)) by lia.
Qed.

(** [find_up] stops at the first index where the body returns something. *)
Lemma find_up_first (g : Z -> option R) (f : Z -> res (option R)) : forall n i,
  (forall k, i <= k < i + Z.of_nat n -> f k = Ret (g k)) ->
  (find_up n i f = Ret None /\ forall k, i <= k < i + Z.of_nat n -> g k = None) \/
  (exists k r, i <= k < i + Z.of_nat n /\ g k = Some r /\
     (forall j, i <= j < k -> g j = None) /\ find_up n i f = Ret (Some r)).
Proof.
  induction n as [|n IH]; intros i Hf; [left; split; [done|lia]|].
  simpl. rewrite Hf by lia. simpl. destruct (g i) as [r|] eqn:E.
  - right. exists i, r. repeat split; auto; lia.
  - destruct (IH (i + 1)) as [[-> Hn]|(k & r & Hk & Hr & Hj & ->)].
    + intros k Hk. apply Hf. lia.
    + left. split; [done|]. intros k Hk. destruct (decide (k = i)) as [->|]; [done|]. apply Hn. lia.
    + right. exists k, r. repeat split; auto; [lia..|].
      intros j Hj'. destruct (decide (j = i)) as [->|]; [done|]. apply Hj. lia.
Qed.
End Loops.

(** ** Arrays

    [aget]/[aset] read and write an element of a C array: out of range is
    undefined behaviour. *)
Section Arrays.
Context {A : Type}.

Definition aget (l : list A) (i : Z) : res A :=
  if decide (0 <= i) then of_opt (l !! Z.to_nat i) else Ub.

Definition aset (l : list A) (i : Z) (x : A) : res (list A) :=
  if decide (0 <= i < Z.of_nat (length l)) then Ret (<[Z.to_nat i := x]> l) else Ub.

Lemma aget_Ret l i x : aget l i = Ret x <-> 0 <= i /\ l !! Z.to_nat i = Some x.
Proof.
  unfold aget, of_opt. case_decide; [|naive_solver].
  destruct (l !! Z.to_nat i); naive_solver.
Qed.

Lemma aget_in_range l i :
  0 <= i < Z.of_nat (length l) -> exists x, aget l i = Ret x /\ l !! Z.to_nat i = Some x.
Proof.
  intros Hi. destruct (lookup_lt_is_Some_2 l (Z.to_nat i)) as [x Hx]; [lia|].
  exists x. rewrite aget_Ret. naive_solver lia.
Qed.

Lemma aset_in_range l i x :
  0 <= i < Z.of_nat (length l) -> aset l i x = Ret (<[Z.to_nat i := x]> l).
Proof. intros. unfold aset. by rewrite decide_True. Qed.
End Arrays.

(** ** Filters *)
Lemma filter_all_eq {A} (P : A -> Prop) `{!forall x, Decision (P x)} (l : list A) :
  (forall x, x ∈ l -> P x) -> filter P l = l.
Proof.
  induction l as [|x l IH]; intros Hall; [done|]. rewrite filter_cons, decide_True by (apply Hall; set_solver).
  f_equal. apply IH. intros y Hy. apply Hall. set_solver.
Qed.

Lemma filter_none_eq {A} (P : A -> Prop) `{!forall x, Decision (P x)} (l : list A) :
  (forall x, x ∈ l -> ~ P x) -> filter P l = [].
Proof.
  induction l as [|x l IH]; intros Hall; [done|]. rewrite filter_cons, decide_False by (apply Hall; set_solver).
  apply IH. intros y Hy. apply Hall. set_solver.
Qed.

(** ** Tactics and hints *)
Create HintDb pintos discriminated.
#[export] Hint Resolve lor_u32 land_u32 lxor_u32 : pintos.
#[export] Hint Resolve u8_range u32_range u64_range s32_range s64_range : pintos.

Ltac zify_nat := repeat first [rewrite Z2Nat.id by lia | rewrite Nat2Z.id].
