(* ===== verification/Bitmap.v ===== *)
(** * lib/kernel/bitmap.c: arrays of bits packed in 32-bit words *)

From S2P Require Import Prelude.

(** ** Data and operations *)

(** [elem_type] is [unsigned long], 32 bits wide on the i386 target. *)
Definition ELEM_BITS : Z := 32.
Definition SIZEOF_ELEM : Z := 4.
Definition SIZEOF_BITMAP : Z := 8.
Definition BITMAP_ERROR : Z := 2 ^ 32 - 1.

Record bitmap := Bitmap { bit_cnt : Z; bits : list Z }.

Definition elem_idx (bit_idx : Z) : Z := bit_idx / ELEM_BITS.

Definition bit_mask (bit_idx : Z) : Z := u32 (Z.shiftl 1 (bit_idx mod ELEM_BITS)).

Definition elem_cnt (bit_cnt : Z) : Z := u32 (bit_cnt + ELEM_BITS - 1) / ELEM_BITS.

Definition byte_cnt (bit_cnt : Z) : Z := u32 (SIZEOF_ELEM * elem_cnt bit_cnt).

Definition last_mask (b : bitmap) : Z :=
  let last_bits := bit_cnt b mod ELEM_BITS in
  if bool_decide (last_bits <> 0) then u32 (u32 (Z.shiftl 1 last_bits) - 1) else u32 (-1).

Definition bitmap_buf_size (bit_cnt : Z) : Z := u32 (SIZEOF_BITMAP + byte_cnt bit_cnt).

Definition bitmap_size (b : bitmap) : Z := bit_cnt b.

(** [b->bits[idx] = v], the store the three [asm] statements make. *)
Definition with_bits (b : bitmap) (l : list Z) : bitmap := Bitmap (bit_cnt b) l.

Definition bitmap_mark (b : bitmap) (bit_idx : Z) : res bitmap :=
  let idx := elem_idx bit_idx in
  let mask := bit_mask bit_idx in
  let! w := aget (bits b) idx in
  let! l := aset (bits b) idx (Z.lor w mask) in
  Ret (with_bits b l).

Definition bitmap_reset (b : bitmap) (bit_idx : Z) : res bitmap :=
  let idx := elem_idx bit_idx in
  let mask := bit_mask bit_idx in
  let! w := aget (bits b) idx in
  let! l := aset (bits b) idx (Z.land w (u32 (Z.lnot mask))) in
  Ret (with_bits b l).

Definition bitmap_flip (b : bitmap) (bit_idx : Z) : res bitmap :=
  let idx := elem_idx bit_idx in
  let mask := bit_mask bit_idx in
  let! w := aget (bits b) idx in
  let! l := aset (bits b) idx (Z.lxor w mask) in
  Ret (with_bits b l).

Definition bitmap_set (b : bitmap) (idx : Z) (value : bool) : res bitmap :=
  ASSERT bool_decide (idx < bit_cnt b);
  if value then bitmap_mark b idx else bitmap_reset b idx.

Definition bitmap_test (b : bitmap) (idx : Z) : res bool :=
  ASSERT bool_decide (idx < bit_cnt b);
  let! w := aget (bits b) (elem_idx idx) in
  Ret (negb (Z.land w (bit_mask idx) =? 0)).

(** The two range assertions every multi-bit operation makes; [start + cnt] is
    a [size_t] sum and wraps. *)
Definition range_ok (b : bitmap) (start cnt : Z) : bool :=
  bool_decide (start <= bit_cnt b) && bool_decide (u32 (start + cnt) <= bit_cnt b).

Definition bitmap_set_multiple (b : bitmap) (start cnt : Z) (value : bool) : res bitmap :=
  ASSERT range_ok b start cnt;
  for_up (Z.to_nat cnt) 0 (fun i b' => bitmap_set b' (u32 (start + i)) value) b.

Definition bitmap_set_all (b : bitmap) (value : bool) : res bitmap :=
  bitmap_set_multiple b 0 (bitmap_size b) value.

Definition bitmap_count (b : bitmap) (start cnt : Z) (value : bool) : res Z :=
  ASSERT range_ok b start cnt;
  for_up (Z.to_nat cnt) 0
    (fun i value_cnt =>
       let! t := bitmap_test b (u32 (start + i)) in
       Ret (if eqb t value then u32 (value_cnt + 1) else value_cnt)) 0.

Definition bitmap_contains (b : bitmap) (start cnt : Z) (value : bool) : res bool :=
  ASSERT range_ok b start cnt;
  let! o := find_up (Z.to_nat cnt) 0
    (fun i => let! t := bitmap_test b (u32 (start + i)) in
              Ret (if eqb t value then Some true else None)) in
  Ret (match o with Some r => r | None => false end).

Definition bitmap_any (b : bitmap) (start cnt : Z) : res bool :=
  bitmap_contains b start cnt true.

Definition bitmap_none (b : bitmap) (start cnt : Z) : res bool :=
  let! r := bitmap_contains b start cnt true in Ret (negb r).

Definition bitmap_all (b : bitmap) (start cnt : Z) : res bool :=
  let! r := bitmap_contains b start cnt false in Ret (negb r).

Definition bitmap_scan (b : bitmap) (start cnt : Z) (value : bool) : res Z :=
  ASSERT bool_decide (start <= bit_cnt b);
  if bool_decide (cnt <= bit_cnt b) then
    let last := bit_cnt b - cnt in
    let! o := find_up (Z.to_nat (last + 1 - start)) start
      (fun i => let! c := bitmap_contains b i cnt (negb value) in
                Ret (if negb c then Some i else None)) in
    Ret (match o with Some i => i | None => BITMAP_ERROR end)
  else Ret BITMAP_ERROR.

Definition bitmap_scan_and_flip (b : bitmap) (start cnt : Z) (value : bool)
    : res (Z * bitmap) :=
  let! idx := bitmap_scan b start cnt value in
  if bool_decide (idx <> BITMAP_ERROR) then
    let! b' := bitmap_set_multiple b idx cnt (negb value) in Ret (idx, b')
  else Ret (idx, b).

(** [bitmap_create]: the outcomes of its two [malloc] calls are arguments; the
    array it obtains has arbitrary contents.  [None] is a null pointer. *)
Definition bitmap_create (malloc_b : bool) (malloc_bits : option (list Z)) (bit_cnt : Z)
    : res (option bitmap) :=
  if malloc_b then
    match malloc_bits with
    | Some l => let! b := bitmap_set_all (Bitmap bit_cnt l) false in Ret (Some b)
    | None => if bool_decide (bit_cnt = 0)
              then let! b := bitmap_set_all (Bitmap bit_cnt []) false in Ret (Some b)
              else Ret None
    end
  else Ret None.

(** [bitmap_create_in_buf]: the words of the block after the header are the
    bit array. *)
Definition bitmap_create_in_buf (bit_cnt : Z) (block : list Z) (block_size : Z) : res bitmap :=
  ASSERT bool_decide (block_size >= bitmap_buf_size bit_cnt);
  bitmap_set_all (Bitmap bit_cnt block) false.

Definition bitmap_file_size (b : bitmap) : Z := byte_cnt (bit_cnt b).

(** [bitmap_read]: [file_read_at buf size] is the buffer after the read and the
    number of bytes read; the bits past [bit_cnt] in the last word are cleared. *)
Definition bitmap_read (b : bitmap) (file_read_at : list Z -> Z -> list Z * Z)
    : res (bool * bitmap) :=
  if bool_decide (bit_cnt b > 0) then
    let size := byte_cnt (bit_cnt b) in
    let '(data, n) := file_read_at (bits b) size in
    let k := elem_cnt (bit_cnt b) - 1 in
    let! w := aget data k in
    let! l := aset data k (Z.land w (last_mask b)) in
    Ret (bool_decide (n = size), with_bits b l)
  else Ret (true, b).

Definition bitmap_write (b : bitmap) (file_write_at : list Z -> Z -> Z) : bool :=
  let size := byte_cnt (bit_cnt b) in
  let write_size := file_write_at (bits b) size in
  bool_decide (size = write_size).

(** ** Abstraction: a bitmap is a function from indices to booleans *)

Definition bit (b : bitmap) (i : Z) : bool :=
  Z.testbit (bits b !!! Z.to_nat (i / 32)) (i mod 32).

(** Representation invariant: the array has a word for every bit. The bound on
    [bit_cnt] is what keeps [elem_cnt] from wrapping. *)
Record wf (b : bitmap) : Prop := Wf {
  wf_cnt : 0 <= bit_cnt b <= 2 ^ 32 - 32;
  wf_len : (bit_cnt b + 31) / 32 <= Z.of_nat (length (bits b));
  wf_words : Forall is_u32 (bits b)
}.

(** [b'] is [b] with its bits given by [g]. *)
Record updated (b b' : bitmap) (g : Z -> bool) : Prop := Updated {
  upd_wf : wf b';
  upd_cnt : bit_cnt b' = bit_cnt b;
  upd_len : length (bits b') = length (bits b);
  upd_bit : forall j, 0 <= j -> bit b' j = g j
}.

Lemma elem_cnt_exact n : 0 <= n <= 2 ^ 32 - 32 -> elem_cnt n = (n + 31) / 32.
Proof.
  intros. unfold elem_cnt, ELEM_BITS. rewrite u32_small by lia.
  by replace (n + 32 - 1) with (n + 31) by lia.
Qed.

Lemma mask_testbit i k : 0 <= k < 32 -> Z.testbit (bit_mask i) k = (k =? i mod 32).
Proof.
  intros Hk. unfold bit_mask, u32, ELEM_BITS.
  rewrite Z.mod_pow2_bits_low by lia.
  rewrite Z.shiftl_1_l, Z.pow2_bits_eqb by (apply Z.mod_pos_bound; lia).
  apply Bool.eq_iff_eq_true; rewrite !Z.eqb_eq; lia.
Qed.

Lemma notmask_testbit i k :
  0 <= k < 32 -> Z.testbit (u32 (Z.lnot (bit_mask i))) k = negb (k =? i mod 32).
Proof.
  intros Hk. unfold u32. rewrite Z.mod_pow2_bits_low by lia.
  by rewrite Z.lnot_spec, mask_testbit by lia.
Qed.

Lemma mask_u32 i : is_u32 (bit_mask i).
Proof. apply u32_range. Qed.

#[export] Hint Resolve mask_u32 : pintos.

Lemma word_index b i : wf b -> 0 <= i < bit_cnt b -> 0 <= i / 32 < Z.of_nat (length (bits b)).
Proof.
  intros [Hc Hl _] Hi. Z.div_mod_to_equations. lia.
Qed.

Lemma split_index i j : 0 <= i -> 0 <= j -> i / 32 = j / 32 -> i mod 32 = j mod 32 -> i = j.
Proof. intros. rewrite (Z.div_mod i 32), (Z.div_mod j 32) by lia. lia. Qed.

(** Every single-bit operation replaces the word of the bit by [f w]; this lemma
    turns what [f] does to the 32 bits of a word into what the operation does
    to the bitmap. *)
Lemma word_update b i (f : Z -> Z) (h : bool -> bool) :
  wf b -> 0 <= i < bit_cnt b ->
  (forall w, is_u32 w -> is_u32 (f w)) ->
  (forall w k, 0 <= k < 32 ->
     Z.testbit (f w) k = if k =? i mod 32 then h (Z.testbit w k) else Z.testbit w k) ->
  exists b',
    (let! w := aget (bits b) (elem_idx i) in
     let! l := aset (bits b) (elem_idx i) (f w) in
     Ret (with_bits b l)) = Ret b' /\
    updated b b' (fun j => if j =? i then h (bit b i) else bit b j).
Proof.
  intros Hwf Hi Hu Hf. pose proof (word_index b i Hwf Hi) as Hw.
  unfold elem_idx, ELEM_BITS.
  destruct (aget_in_range (bits b) (i / 32) Hw) as (w & -> & Hlook). simpl.
  rewrite aset_in_range by done. simpl.
  eexists; split; [done|].
  assert (Hwu : is_u32 w) by (by eapply Forall_lookup_1; [apply (wf_words _ Hwf)|]).
  destruct Hwf as [Hc Hl Hall].
  split; simpl; [split; simpl; [done|by rewrite length_insert|by apply Forall_insert; auto]
                |done|by rewrite length_insert|].
  intros j Hj. unfold bit; simpl.
  destruct (decide (j / 32 = i / 32)) as [Heq|Hne].
  - rewrite Heq, list_lookup_total_insert_eq by lia.
    rewrite Hf by (apply Z.mod_pos_bound; lia).
    rewrite (list_lookup_total_correct _ _ _ Hlook).
    destruct (Z.eqb_spec (j mod 32) (i mod 32)) as [Hm|Hm].
    + assert (j = i) as -> by (apply split_index; lia). by rewrite Z.eqb_refl.
    + destruct (Z.eqb_spec j i); [congruence|done].
  - rewrite list_lookup_total_insert_ne; [by destruct (Z.eqb_spec j i); [congruence|]|].
    intros E. apply Hne. apply (f_equal Z.of_nat) in E.
    pose proof (Z.div_pos j 32). lia.
Qed.

(** ** Single-bit operations *)

Lemma bitmap_mark_ok b i :
  wf b -> 0 <= i < bit_cnt b ->
  exists b', bitmap_mark b i = Ret b' /\ updated b b' (fun j => if j =? i then true else bit b j).
Proof.
  intros Hwf Hi. apply (word_update b i (fun w => Z.lor w (bit_mask i)) (fun _ => true)); auto.
  - auto with pintos.
  - intros w k Hk. rewrite Z.lor_spec, mask_testbit by done.
    destruct (k =? i mod 32); [apply Bool.orb_true_r|apply Bool.orb_false_r].
Qed.

Lemma bitmap_reset_ok b i :
  wf b -> 0 <= i < bit_cnt b ->
  exists b', bitmap_reset b i = Ret b' /\ updated b b' (fun j => if j =? i then false else bit b j).
Proof.
  intros Hwf Hi.
  apply (word_update b i (fun w => Z.land w (u32 (Z.lnot (bit_mask i)))) (fun _ => false)); auto.
  - intros. apply land_u32; [done|]. apply u32_range.
  - intros w k Hk. rewrite Z.land_spec, notmask_testbit by done.
    destruct (k =? i mod 32); [apply Bool.andb_false_r|apply Bool.andb_true_r].
Qed.

Lemma bitmap_flip_ok b i :
  wf b -> 0 <= i < bit_cnt b ->
  exists b', bitmap_flip b i = Ret b' /\
             updated b b' (fun j => if j =? i then negb (bit b i) else bit b j).
Proof.
  intros Hwf Hi. apply (word_update b i (fun w => Z.lxor w (bit_mask i)) negb); auto.
  - auto with pintos.
  - intros w k Hk. rewrite Z.lxor_spec, mask_testbit by done.
    destruct (k =? i mod 32); [apply Bool.xorb_true_r|apply Bool.xorb_false_r].
Qed.

Lemma bitmap_set_ok b i v :
  wf b -> 0 <= i < bit_cnt b ->
  exists b', bitmap_set b i v = Ret b' /\ updated b b' (fun j => if j =? i then v else bit b j).
Proof.
  intros Hwf Hi. unfold bitmap_set. rewrite bool_decide_eq_true_2 by lia. simpl.
  destruct v; [by apply bitmap_mark_ok|by apply bitmap_reset_ok].
Qed.

Lemma bitmap_test_ok b i :
  wf b -> 0 <= i < bit_cnt b -> bitmap_test b i = Ret (bit b i).
Proof.
  intros Hwf Hi. unfold bitmap_test. rewrite bool_decide_eq_true_2 by lia. simpl.
  pose proof (word_index b i Hwf Hi) as Hw.
  destruct (aget_in_range (bits b) (i / 32) Hw) as (w & Hg & Hlook).
  unfold elem_idx, ELEM_BITS. rewrite Hg; simpl. f_equal.
  unfold bit. rewrite (list_lookup_total_correct _ _ _ Hlook).
  pose proof (Z.mod_pos_bound i 32 ltac:(lia)) as Hm.
  destruct (Z.eqb_spec (Z.land w (bit_mask i)) 0) as [E|E]; simpl.
  - apply (f_equal (fun z => Z.testbit z (i mod 32))) in E.
    rewrite Z.land_spec, mask_testbit, Z.eqb_refl, Bool.andb_true_r, Z.bits_0 in E by done.
    done.
  - symmetry. apply Bool.not_false_iff_true. intros Hf. apply E. apply Z.bits_inj'. intros k Hk.
    rewrite Z.land_spec, Z.bits_0. destruct (Z_lt_ge_dec k 32) as [Hlt|Hge].
    + rewrite mask_testbit by lia. destruct (Z.eqb_spec k (i mod 32)); [by subst; rewrite Hf|].
      apply Bool.andb_false_r.
    + pose proof (mask_u32 i) as Hmu. rewrite is_u32_bits in Hmu.
      destruct Hmu as [_ Hmu]. rewrite Hmu by lia. apply Bool.andb_false_r.
Qed.

Lemma updated_refl b : wf b -> updated b b (bit b).
Proof. by split. Qed.

Lemma updated_trans b1 b2 b3 g h :
  updated b1 b2 g -> updated b2 b3 h -> updated b1 b3 h.
Proof. intros [] []; split; auto; congruence. Qed.

Lemma updated_ext b b' g h :
  updated b b' g -> (forall j, 0 <= j -> g j = h j) -> updated b b' h.
Proof. intros [? ? ? Hb] Hgh. split; auto. intros j Hj. by rewrite Hb, Hgh. Qed.

(** ** Ranges *)

Definition in_range (start cnt j : Z) : bool := (start <=? j) && (j <? start + cnt).

Lemma in_range_spec s c j : in_range s c j = true <-> s <= j < s + c.
Proof. unfold in_range. rewrite andb_true_iff, Z.leb_le, Z.ltb_lt. done. Qed.

Lemma range_ok_true b s c :
  wf b -> 0 <= s -> 0 <= c -> s + c <= bit_cnt b -> range_ok b s c = true.
Proof.
  intros [Hc _ _] ? ? ?. unfold range_ok.
  rewrite u32_small by lia. rewrite !bool_decide_eq_true_2 by lia. done.
Qed.

Lemma bitmap_set_multiple_ok b s c v :
  wf b -> 0 <= s -> 0 <= c -> s + c <= bit_cnt b ->
  exists b', bitmap_set_multiple b s c v = Ret b' /\
             updated b b' (fun j => if in_range s c j then v else bit b j).
Proof.
  intros Hwf Hs Hc Hle. unfold bitmap_set_multiple.
  rewrite range_ok_true by done. simpl.
  destruct (for_up_total
    (fun i b' => updated b b' (fun j => if in_range s i j then v else bit b j))
    (fun i b' => bitmap_set b' (u32 (s + i)) v) (Z.to_nat c) 0 b) as (b' & E & HI).
  - apply (updated_ext _ _ (bit b)); [by apply updated_refl|].
    intros j _. destruct (in_range s 0 j) eqn:E; [|done]. apply in_range_spec in E. lia.
  - intros i b1 Hi Hb1. destruct Hwf as [Hn _ _].
    rewrite u32_small by lia.
    destruct (bitmap_set_ok b1 (s + i) v) as (b2 & -> & Hb2).
    + apply Hb1.
    + rewrite (upd_cnt _ _ _ Hb1). lia.
    + exists b2; split; [done|].
      eapply updated_ext; [by eapply updated_trans|].
      intros j Hj; simpl. rewrite (upd_bit _ _ _ Hb1) by done.
      destruct (Z.eqb_spec j (s + i)) as [->|Hne].
      * destruct (in_range s (i + 1) (s + i)) eqn:E; [done|].
        exfalso. apply Bool.not_true_iff_false in E. apply E, in_range_spec. lia.
      * replace (in_range s (i + 1) j) with (in_range s i j); [done|].
        apply Bool.eq_iff_eq_true. rewrite !in_range_spec. lia.
  - exists b'; split; [done|]. by replace (0 + Z.of_nat (Z.to_nat c)) with c in HI by lia.
Qed.

(** [bitmap_set_multiple] on arbitrary [size_t] arguments: the range is written
    when it fits, and the kernel panics when it does not, also when
    [start + cnt] wraps past [2 ^ 32] and so passes the range assertion. *)
Lemma bitmap_set_multiple_panics b s c v :
  wf b -> is_u32 s -> is_u32 c -> bit_cnt b < s + c ->
  bitmap_set_multiple b s c v = Panic.
Proof.
  intros Hwf [Hs0 Hs] [Hc0 Hc] Hlt. unfold bitmap_set_multiple.
  destruct (range_ok b s c) eqn:Hr; [|done]. simpl.
  unfold range_ok in Hr. apply andb_true_iff in Hr as [Hr1%bool_decide_eq_true _].
  destruct Hwf as [Hn ? ?].
  replace (Z.to_nat c) with (Z.to_nat (bit_cnt b - s) + (1 + Z.to_nat (c - (bit_cnt b - s) - 1)))%nat by lia.
  rewrite for_up_app.
  destruct (bitmap_set_multiple_ok b s (bit_cnt b - s) v) as (b' & E & Hb'); [done|lia..|].
  unfold bitmap_set_multiple in E. rewrite range_ok_true in E by (done || lia). simpl in E.
  rewrite E. simpl. unfold bitmap_set.
  rewrite (upd_cnt _ _ _ Hb'), u32_small by lia.
  rewrite bool_decide_eq_false_2 by lia. done.
Qed.

(** ** Queries over ranges *)

Lemma test_in_range b s c i :
  wf b -> 0 <= s -> 0 <= c -> s + c <= bit_cnt b -> 0 <= i < c ->
  bitmap_test b (u32 (s + i)) = Ret (bit b (s + i)).
Proof.
  intros Hwf ? ? ? ?. destruct (wf_cnt _ Hwf). rewrite u32_small by lia.
  apply bitmap_test_ok; [done|lia].
Qed.

Definition count_bits (b : bitmap) (s c : Z) (v : bool) : Z :=
  Z.of_nat (length (filter (fun j => bit b j = v) (seqZ s c))).

Lemma count_bits_S b s c v :
  0 <= c -> count_bits b s (c + 1) v = count_bits b s c v + (if eqb (bit b (s + c)) v then 1 else 0).
Proof.
  intros Hc. unfold count_bits. rewrite seqZ_app by lia.
  rewrite filter_app, length_app. simpl.
  rewrite (seqZ_cons (s + c) 1) by lia. change (Z.pred 1) with 0. simpl.
  rewrite filter_cons. destruct (eqb (bit b (s + c)) v) eqn:E.
  - apply Bool.eqb_prop in E. rewrite decide_True by done. simpl. lia.
  - apply Bool.eqb_false_iff in E. rewrite decide_False by done. simpl. lia.
Qed.

Lemma count_bits_bound b s c v : 0 <= c -> 0 <= count_bits b s c v <= c.
Proof.
  intros Hc. unfold count_bits.
  pose proof (length_filter (fun j => bit b j = v) (seqZ s c)) as Hl.
  rewrite length_seqZ in Hl. lia.
Qed.

Lemma bitmap_count_ok b s c v :
  wf b -> 0 <= s -> 0 <= c -> s + c <= bit_cnt b ->
  bitmap_count b s c v = Ret (count_bits b s c v).
Proof.
  intros Hwf Hs Hc Hle. unfold bitmap_count. rewrite range_ok_true by done. simpl.
  destruct (for_up_total (fun i n => n = count_bits b s i v)
    (fun i n => let! t := bitmap_test b (u32 (s + i)) in
                Ret (if eqb t v then u32 (n + 1) else n)) (Z.to_nat c) 0 0) as (n & -> & Hn).
  - done.
  - intros i n Hi ->. eexists. rewrite (test_in_range _ _ c) by (done || lia). simpl.
    split; [done|]. rewrite count_bits_S by lia.
    pose proof (count_bits_bound b s i v). destruct Hwf.
    destruct (eqb _ v); [apply u32_small; lia|lia].
  - f_equal. rewrite Hn. f_equal. lia.
Qed.

Lemma bitmap_contains_ok b s c v :
  wf b -> 0 <= s -> 0 <= c -> s + c <= bit_cnt b ->
  exists r, bitmap_contains b s c v = Ret r /\
            (r = true <-> exists j, s <= j < s + c /\ bit b j = v).
Proof.
  intros Hwf Hs Hc Hle. unfold bitmap_contains. rewrite range_ok_true by done. simpl.
  destruct (find_up_first (fun i => if eqb (bit b (s + i)) v then Some true else None)
    (fun i => let! t := bitmap_test b (u32 (s + i)) in
              Ret (if eqb t v then Some true else None)) (Z.to_nat c) 0)
    as [[-> Hn]|(k & r & Hk & Hr & _ & ->)].
  - intros k Hk. by rewrite (test_in_range _ _ c) by (done || lia).
  - eexists; split; [done|]. split; [done|]. intros (j & Hj & Hb).
    specialize (Hn (j - s) ltac:(lia)). replace (s + (j - s)) with j in Hn by lia.
    rewrite Hb, Bool.eqb_reflx in Hn. done.
  - eexists; split; [done|]. destruct (eqb (bit b (s + k)) v) eqn:E; [|done].
    simplify_eq/=. split; [|done]. intros _. exists (s + k). split; [lia|].
    by apply Bool.eqb_prop.
Qed.

(** A group of [cnt] bits equal to [value] starting at [i]. *)
Definition group (b : bitmap) (i cnt : Z) (value : bool) : Prop :=
  forall j, i <= j < i + cnt -> bit b j = value.

Lemma contains_negb b s c v :
  wf b -> 0 <= s -> 0 <= c -> s + c <= bit_cnt b ->
  exists r, bitmap_contains b s c (negb v) = Ret r /\ (r = false <-> group b s c v).
Proof.
  intros Hwf Hs Hc Hle. destruct (bitmap_contains_ok b s c (negb v)) as (r & Hr & Hiff); auto.
  exists r; split; [done|]. rewrite <- Bool.not_true_iff_false, Hiff. split.
  - intros Hn j Hj. destruct (bit b j) eqn:E, v; try done; exfalso; apply Hn; eauto.
  - intros Hg (j & Hj & Hb). rewrite (Hg j Hj) in Hb. by destruct v.
Qed.

Lemma bitmap_scan_ok b s c v :
  wf b -> 0 <= s <= bit_cnt b -> 0 <= c ->
  (bitmap_scan b s c v = Ret BITMAP_ERROR /\
     forall k, s <= k -> k + c <= bit_cnt b -> ~ group b k c v) \/
  (exists i, bitmap_scan b s c v = Ret i /\ i <> BITMAP_ERROR /\
     s <= i /\ i + c <= bit_cnt b /\ group b i c v /\
     forall k, s <= k < i -> ~ group b k c v).
Proof.
  intros Hwf Hs Hc. pose proof (wf_cnt _ Hwf) as Hn.
  unfold bitmap_scan. rewrite bool_decide_eq_true_2 by lia. simpl.
  case_bool_decide as Hcb; [|left; split; [done|lia]].
  set (f := fun i => let! r := bitmap_contains b i c (negb v) in
                     Ret (if negb r then Some i else None)).
  set (g := fun i => if bool_decide (Forall (fun j => bit b j = v) (seqZ i c)) then Some i else None).
  assert (Hg : forall i, bool_decide (Forall (fun j => bit b j = v) (seqZ i c)) = true <-> group b i c v).
  { intros i. rewrite bool_decide_eq_true, Forall_forall. unfold group.
    setoid_rewrite elem_of_seqZ. done. }
  destruct (find_up_first g f (Z.to_nat (bit_cnt b - c + 1 - s)) s)
    as [[-> Hnone]|(k & r & Hk & Hr & Hfirst & ->)].
  - intros k Hk. unfold f, g. destruct (contains_negb b k c v) as (r & -> & Hiff); [done|lia..|].
    simpl. f_equal. rewrite <- Hg in Hiff.
    destruct r, (bool_decide _); try done; exfalso; naive_solver.
  - left; split; [done|]. intros k Hk1 Hk2 Hgk. specialize (Hnone k ltac:(lia)).
    unfold g in Hnone. by rewrite (proj2 (Hg k) Hgk) in Hnone.
  - right. unfold g in Hr. destruct (bool_decide _) eqn:E; [|done]. simplify_eq.
    exists r; split; [done|]. unfold BITMAP_ERROR. repeat split; [lia..|by apply Hg|].
    intros j Hj Hgj. specialize (Hfirst j Hj). unfold g in Hfirst.
    by rewrite (proj2 (Hg j) Hgj) in Hfirst.
Qed.

Lemma bitmap_all_ok b s c :
  wf b -> 0 <= s -> 0 <= c -> s + c <= bit_cnt b ->
  exists r, bitmap_all b s c = Ret r /\ (r = true <-> group b s c true).
Proof.
  intros. unfold bitmap_all. destruct (contains_negb b s c true) as (r & E & Hr); auto.
  simpl in E. rewrite E. simpl. eexists; split; [done|]. rewrite <- Hr. by destruct r.
Qed.

Lemma bitmap_scan_and_flip_ok b s c v :
  wf b -> 0 <= s <= bit_cnt b -> 0 <= c ->
  (bitmap_scan_and_flip b s c v = Ret (BITMAP_ERROR, b) /\
     forall k, s <= k -> k + c <= bit_cnt b -> ~ group b k c v) \/
  (exists i b', bitmap_scan_and_flip b s c v = Ret (i, b') /\ i <> BITMAP_ERROR /\
     s <= i /\ i + c <= bit_cnt b /\ group b i c v /\
     (forall k, s <= k < i -> ~ group b k c v) /\
     updated b b' (fun j => if in_range i c j then negb v else bit b j)).
Proof.
  intros Hwf Hs Hc. unfold bitmap_scan_and_flip.
  destruct (bitmap_scan_ok b s c v Hwf Hs Hc) as [[-> Hn]|(i & -> & Hne & H1 & H2 & H3 & H4)]; simpl.
  - by left.
  - right. rewrite bool_decide_eq_true_2 by done.
    destruct (bitmap_set_multiple_ok b i c (negb v)) as (b' & -> & Hb'); [done|lia..|].
    simpl. eauto 10.
Qed.

Lemma bitmap_set_all_ok b v :
  wf b -> exists b', bitmap_set_all b v = Ret b' /\
                     updated b b' (fun j => if j <? bit_cnt b then v else bit b j).
Proof.
  intros Hwf. pose proof (wf_cnt _ Hwf).
  destruct (bitmap_set_multiple_ok b 0 (bit_cnt b) v) as (b' & E & Hb'); [done|lia..|].
  exists b'; split; [done|]. eapply updated_ext; [done|]. intros j Hj; simpl.
  unfold in_range. rewrite (proj2 (Z.leb_le 0 j)) by lia. done.
Qed.

Lemma bitmap_create_in_buf_ok n block size :
  0 <= n <= 2 ^ 32 - 32 -> (n + 31) / 32 <= Z.of_nat (length block) -> Forall is_u32 block ->
  bitmap_buf_size n <= size ->
  exists b, bitmap_create_in_buf n block size = Ret b /\ wf b /\ bit_cnt b = n /\
            length (bits b) = length block /\ forall j, 0 <= j < n -> bit b j = false.
Proof.
  intros Hn Hl Hf Hs. unfold bitmap_create_in_buf. rewrite bool_decide_eq_true_2 by lia. simpl.
  destruct (bitmap_set_all_ok (Bitmap n block) false) as (b & -> & [Hw Hc Hlen Hb]); [by split|].
  exists b. repeat split; auto; try apply Hw. intros j Hj. rewrite Hb by lia. simpl.
  by rewrite (proj2 (Z.ltb_lt j n)) by lia.
Qed.

(** ** The file format *)

Lemma last_mask_testbit b k :
  0 <= k < 32 ->
  Z.testbit (last_mask b) k = (bit_cnt b mod 32 =? 0) || (k <? bit_cnt b mod 32).
Proof.
  intros Hk. unfold last_mask, ELEM_BITS.
  pose proof (Z.mod_pos_bound (bit_cnt b) 32 ltac:(lia)) as Hm.
  set (m := bit_cnt b mod 32) in *. case_bool_decide as Hz.
  - rewrite (proj2 (Z.eqb_neq m 0)) by done. simpl.
    rewrite Z.shiftl_1_l. rewrite (u32_small (2 ^ m)).
    2:{ split; [lia|]. apply Z.pow_lt_mono_r; lia. }
    assert (0 < 2 ^ m < 2 ^ 32) by (split; [lia|apply Z.pow_lt_mono_r; lia]).
    rewrite u32_small by lia. rewrite <- Z.ones_equiv || replace (2 ^ m - 1) with (Z.ones m) by (rewrite Z.ones_equiv; lia).
    rewrite Z.testbit_ones_nonneg by lia. done.
  - assert (m = 0) as -> by lia. simpl. unfold u32. rewrite Z.mod_pow2_bits_low by lia.
    apply Z.bits_m1. lia.
Qed.

Lemma last_mask_u32 b : is_u32 (last_mask b).
Proof. unfold last_mask. case_bool_decide; apply u32_range. Qed.

(** What [bitmap_read] leaves in memory when the file delivers [data]. *)
Lemma bitmap_read_ok b data n :
  wf (Bitmap (bit_cnt b) data) -> 0 < bit_cnt b ->
  exists b', bitmap_read b (fun _ _ => (data, n))
             = Ret (bool_decide (n = byte_cnt (bit_cnt b)), b') /\
    wf b' /\ bit_cnt b' = bit_cnt b /\
    (forall j, 0 <= j < bit_cnt b -> bit b' j = bit (Bitmap (bit_cnt b) data) j) /\
    (forall j, bit_cnt b <= j < 32 * elem_cnt (bit_cnt b) -> bit b' j = false).
Proof.
  intros Hwf Hpos. destruct Hwf as [Hc Hl Hall]; simpl in *.
  unfold bitmap_read. rewrite bool_decide_eq_true_2 by lia.
  rewrite elem_cnt_exact by lia. set (k := (bit_cnt b + 31) / 32 - 1).
  assert (Hk : 0 <= k < Z.of_nat (length data)) by (unfold k; Z.div_mod_to_equations; lia).
  destruct (aget_in_range data k Hk) as (w & -> & Hw). simpl.
  rewrite aset_in_range by done. simpl. eexists; split; [done|].
  assert (Hwu : is_u32 w) by (by eapply Forall_lookup_1).
  assert (Hnth : forall j, 0 <= j < 32 * ((bit_cnt b + 31) / 32) ->
    bit (with_bits b (<[Z.to_nat k:=Z.land w (last_mask b)]> data)) j =
    if j / 32 =? k then Z.testbit w (j mod 32) && Z.testbit (last_mask b) (j mod 32)
    else bit (Bitmap (bit_cnt b) data) j).
  { intros j Hj. unfold bit; simpl. destruct (Z.eqb_spec (j / 32) k) as [->|Hne].
    - rewrite list_lookup_total_insert_eq by lia. apply Z.land_spec.
    - rewrite list_lookup_total_insert_ne; [done|]. pose proof (Z.div_pos j 32). lia. }
  split; [|split; [done|split]].
  - split; simpl; [done|by rewrite length_insert|].
    apply Forall_insert; [done|]. apply land_u32; [done|apply last_mask_u32].
  - intros j Hj. rewrite Hnth by (Z.div_mod_to_equations; lia).
    destruct (Z.eqb_spec (j / 32) k) as [E|]; [|done].
    rewrite last_mask_testbit by (apply Z.mod_pos_bound; lia).
    replace (_ || _) with true; [rewrite Bool.andb_true_r|].
    + unfold bit; simpl. by rewrite E, (list_lookup_total_correct _ _ _ Hw).
    + symmetry. apply Bool.orb_true_iff. rewrite Z.eqb_eq, Z.ltb_lt.
      unfold k in E. Z.div_mod_to_equations. lia.
  - intros j Hj. rewrite Hnth by lia.
    assert (j / 32 = k) as E by (unfold k; Z.div_mod_to_equations; lia).
    rewrite (proj2 (Z.eqb_eq _ _) E), last_mask_testbit by (apply Z.mod_pos_bound; lia).
    replace (_ || _) with false; [apply Bool.andb_false_r|].
    symmetry. apply Bool.orb_false_iff. rewrite Z.eqb_neq, Z.ltb_ge.
    unfold k in E. Z.div_mod_to_equations. lia.
Qed.

(** ** Properties *)

(** C32. [bitmap_scan_and_flip] is first-fit allocation: it returns the lowest
    index at or after [start] of a group of [cnt] bits equal to [value], flips
    exactly that group and nothing else, and keeps the bitmap well formed; it
    returns [BITMAP_ERROR] and leaves the bitmap alone exactly when no such
    group exists.  It never fails an assertion and never touches memory outside
    the word array. *)
Theorem bitmap_scan_and_flip_first_fit (b : bitmap) (start cnt : Z) (value : bool) :
  wf b -> 0 <= start <= bit_cnt b -> is_u32 cnt ->
  (bitmap_scan_and_flip b start cnt value = Ret (BITMAP_ERROR, b) /\
     forall k, start <= k -> k + cnt <= bit_cnt b -> ~ group b k cnt value) \/
  (exists i b', bitmap_scan_and_flip b start cnt value = Ret (i, b') /\
     i <> BITMAP_ERROR /\ start <= i /\ i + cnt <= bit_cnt b /\ group b i cnt value /\
     (forall k, start <= k < i -> ~ group b k cnt value) /\
     wf b' /\ bit_cnt b' = bit_cnt b /\
     forall j, 0 <= j -> bit b' j = if in_range i cnt j then negb value else bit b j).
Proof.
  intros Hwf Hs [Hc _].
  destruct (bitmap_scan_and_flip_ok b start cnt value Hwf Hs Hc)
    as [H|(i & b' & E & H1 & H2 & H3 & H4 & H5 & [? ? ? ?])]; [by left|].
  right. exists i, b'. repeat split; auto; apply upd_wf0.
Qed.

Definition bm16 : bitmap := Bitmap 16 [Z.of_N 23].

Lemma bm16_wf : wf bm16.
Proof. split; [simpl; lia|simpl; reflexivity || (simpl; lia)|]. repeat constructor; simpl; lia. Qed.

Lemma bitmap_scan_and_flip_first_fit_witness :
  wf bm16 /\ bitmap_scan_and_flip bm16 0 2 false = Ret (5, Bitmap 16 [119]) /\
  exists i b', bitmap_scan_and_flip bm16 0 2 false = Ret (i, b') /\ wf b'.
Proof.
  split; [apply bm16_wf|]. split; [reflexivity|].
  destruct (bitmap_scan_and_flip_first_fit bm16 0 2 false) as [[E _]|(i & b' & E & H)].
  - apply bm16_wf.
  - simpl; lia.
  - unfold is_u32; lia.
  - exfalso. vm_compute in E. discriminate E.
  - exists i, b'. split; [exact E|]. apply H.
Defined.

(** The multi-bit writer is safe for every pair of [size_t] arguments: it
    sets exactly the bits of the range when the range lies inside the bitmap,
    and otherwise the kernel panics - also when [start + cnt] overflows and
    passes the range assertion - so it never writes outside the word array. *)
Theorem bitmap_set_multiple_total (b : bitmap) (start cnt : Z) (value : bool) :
  wf b -> is_u32 start -> is_u32 cnt ->
  (start + cnt <= bit_cnt b /\ exists b', bitmap_set_multiple b start cnt value = Ret b' /\
     wf b' /\ bit_cnt b' = bit_cnt b /\
     forall j, 0 <= j -> bit b' j = if in_range start cnt j then value else bit b j) \/
  (bit_cnt b < start + cnt /\ bitmap_set_multiple b start cnt value = Panic).
Proof.
  intros Hwf Hs Hc. destruct (Z_le_gt_dec (start + cnt) (bit_cnt b)) as [Hle|Hgt].
  - left. split; [done|].
    destruct (bitmap_set_multiple_ok b start cnt value) as (b' & E & [? ? ? ?]);
      [done|apply Hs|apply Hc|done|]. eauto 10.
  - right. split; [lia|]. apply bitmap_set_multiple_panics; [done..|lia].
Qed.

Lemma bitmap_set_multiple_total_witness :
  bitmap_set_multiple bm16 12 (2 ^ 32 - 1) true = Panic \/
  exists b', bitmap_set_multiple bm16 12 (2 ^ 32 - 1) true = Ret b'.
Proof.
  destruct (bitmap_set_multiple_total bm16 12 (2 ^ 32 - 1) true) as [(_ & b' & E & _)|[_ E]].
  - apply bm16_wf.
  - unfold is_u32; lia.
  - unfold is_u32; lia.
  - right; exists b'; exact E.
  - left; exact E.
Defined.

(** A bitmap survives the disk: what [bitmap_write] stores is what
    [bitmap_read] loads, for any previous contents [b0] of a bitmap of the same
    size; the loaded bitmap agrees with the stored one on all its bits and its
    padding bits are cleared. *)
Theorem bitmap_read_write (b b0 : bitmap) (disk : list Z) :
  wf b -> 0 < bit_cnt b -> bit_cnt b0 = bit_cnt b ->
  bitmap_write b (fun buf size => if bool_decide (buf = disk) then size else 0) = true ->
  exists b', bitmap_read b0 (fun _ size => (disk, size)) = Ret (true, b') /\ wf b' /\
    bit_cnt b' = bit_cnt b /\
    (forall j, 0 <= j < bit_cnt b -> bit b' j = bit b j) /\
    (forall j, bit_cnt b <= j < 32 * elem_cnt (bit_cnt b) -> bit b' j = false).
Proof.
  intros Hwf Hpos Hc0 Hw. pose proof (wf_cnt _ Hwf).
  assert (disk = bits b) as ->.
  { unfold bitmap_write in Hw. apply bool_decide_eq_true in Hw.
    case_bool_decide as E; [done|]. unfold byte_cnt, SIZEOF_ELEM in Hw.
    rewrite elem_cnt_exact in Hw by lia. rewrite u32_small in Hw; Z.div_mod_to_equations; lia. }
  destruct (bitmap_read_ok b0 (bits b) (byte_cnt (bit_cnt b0))) as (b' & E & H1 & H2 & H3 & H4).
  - rewrite Hc0. by destruct b.
  - lia.
  - rewrite bool_decide_eq_true_2 in E by done. unfold bitmap_read in *. rewrite Hc0 in *.
    exists b'. destruct b; simpl in *. repeat split; auto; apply H1.
Qed.

Lemma bitmap_read_write_witness :
  exists b', bitmap_read (Bitmap 16 [0]) (fun _ size => ([119], size)) = Ret (true, b') /\
             forall j, 0 <= j < 16 -> bit b' j = bit (Bitmap 16 [119]) j.
Proof.
  destruct (bitmap_read_write (Bitmap 16 [119]) (Bitmap 16 [0]) [119]) as (b' & E & _ & _ & H & _).
  - split; simpl; [lia|reflexivity || lia|repeat constructor; simpl; lia].
  - simpl; lia.
  - reflexivity.
  - vm_compute; reflexivity.
  - exists b'; split; [exact E|exact H].
Defined.

(** With a count of zero the scan returns [start], not 0. *)
Lemma bitmap_scan_and_flip_zero b start v :
  wf b -> 0 <= start <= bit_cnt b -> bitmap_scan_and_flip b start 0 v = Ret (start, b).
Proof.
  intros Hwf Hs. pose proof (wf_cnt _ Hwf) as Hc.
  assert (bitmap_scan b start 0 v = Ret start) as E.
  { unfold bitmap_scan. rewrite !bool_decide_eq_true_2 by lia. simpl.
    replace (Z.to_nat (bit_cnt b - 0 + 1 - start)) with (S (Z.to_nat (bit_cnt b - start))) by lia.
    simpl. unfold bitmap_contains. rewrite range_ok_true by (done || lia). done. }
  unfold bitmap_scan_and_flip. rewrite E. simpl.
  rewrite bool_decide_eq_true_2 by (unfold BITMAP_ERROR; lia).
  unfold bitmap_set_multiple. rewrite range_ok_true by (done || lia). done.
Qed.
