(* ===== verification/KList.v ===== *)
(** * lib/kernel/list.c: doubly linked lists with head and tail sentinels

    The operations of list.c over an explicit heap of [struct list_elem].  An
    address is a [Z], [NULL] is 0; a [struct list] at address [l] is the head
    element at [l] followed by the tail element at [l + 8]. *)

From S2P Require Import Prelude.

Definition NULL : Z := 0.

Record list_elem := Elem { prev : Z; next : Z }.

#[export] Instance list_elem_eq_dec : EqDecision list_elem.
Proof. solve_decision. Defined.

Abbreviation heap := (gmap Z list_elem).

Definition SIZEOF_LIST_ELEM : Z := 8.

(** [&list->head] and [&list->tail]. *)
Definition head_of (l : Z) : Z := l.
Definition tail_of (l : Z) : Z := l + SIZEOF_LIST_ELEM.

(** [list_less_func]: the [aux] argument is part of the closure. *)
Definition list_less_func := Z -> Z -> bool.

(** ** Fields *)
Inductive field := Fprev | Fnext.

Definition sel (f : field) (n : list_elem) : Z :=
  match f with Fprev => prev n | Fnext => next n end.
Definition upd (f : field) (v : Z) (n : list_elem) : list_elem :=
  match f with Fprev => Elem v (next n) | Fnext => Elem (prev n) v end.

Definition getf (h : heap) (e : Z) (f : field) : res Z :=
  let! n := of_opt (h !! e) in Ret (sel f n).
Definition setf (h : heap) (e : Z) (f : field) (v : Z) : res heap :=
  let! n := of_opt (h !! e) in Ret (<[e := upd f v n]> h).

(** ** Element classes *)
Definition is_head (h : heap) (elem : Z) : res bool :=
  if elem =? NULL then Ret false else
  let! p := getf h elem Fprev in
  let! n := getf h elem Fnext in
  Ret ((p =? NULL) && negb (n =? NULL)).

Definition is_interior (h : heap) (elem : Z) : res bool :=
  if elem =? NULL then Ret false else
  let! p := getf h elem Fprev in
  let! n := getf h elem Fnext in
  Ret (negb (p =? NULL) && negb (n =? NULL)).

Definition is_tail (h : heap) (elem : Z) : res bool :=
  if elem =? NULL then Ret false else
  let! p := getf h elem Fprev in
  let! n := getf h elem Fnext in
  Ret (negb (p =? NULL) && (n =? NULL)).

(** [ASSERT (is_A (elem) || is_B (elem))] *)
Definition assert_or (m1 m2 : res bool) : res unit :=
  let! b1 := m1 in
  if b1 then Ret tt else let! b2 := m2 in assert_ b2.

(** ** Traversal *)
Definition list_init (h : heap) (list : Z) : res heap :=
  ASSERT negb (list =? NULL);
  let! h := setf h (head_of list) Fprev NULL in
  let! h := setf h (head_of list) Fnext (tail_of list) in
  let! h := setf h (tail_of list) Fprev (head_of list) in
  setf h (tail_of list) Fnext NULL.

Definition list_begin (h : heap) (list : Z) : res Z :=
  ASSERT negb (list =? NULL);
  getf h (head_of list) Fnext.

Definition list_next (h : heap) (elem : Z) : res Z :=
  let! _ := assert_or (is_head h elem) (is_interior h elem) in
  getf h elem Fnext.

Definition list_end (list : Z) : res Z :=
  ASSERT negb (list =? NULL);
  Ret (tail_of list).

Definition list_rbegin (h : heap) (list : Z) : res Z :=
  ASSERT negb (list =? NULL);
  getf h (tail_of list) Fprev.

Definition list_prev (h : heap) (elem : Z) : res Z :=
  let! _ := assert_or (is_interior h elem) (is_tail h elem) in
  getf h elem Fprev.

Definition list_rend (list : Z) : res Z :=
  ASSERT negb (list =? NULL);
  Ret (head_of list).

Definition list_head (list : Z) : res Z :=
  ASSERT negb (list =? NULL);
  Ret (head_of list).

Definition list_tail (list : Z) : res Z :=
  ASSERT negb (list =? NULL);
  Ret (tail_of list).

(** ** Insertion and removal *)
Definition list_insert (h : heap) (before elem : Z) : res heap :=
  let! _ := assert_or (is_interior h before) (is_tail h before) in
  ASSERT negb (elem =? NULL);
  let! bp := getf h before Fprev in
  let! h := setf h elem Fprev bp in
  let! h := setf h elem Fnext before in
  let! bp := getf h before Fprev in
  let! h := setf h bp Fnext elem in
  setf h before Fprev elem.

Definition list_splice (h : heap) (before first last : Z) : res heap :=
  let! _ := assert_or (is_interior h before) (is_tail h before) in
  if first =? last then Ret h else
  let! last := list_prev h last in
  let! b := is_interior h first in ASSERT b;
  let! b := is_interior h last in ASSERT b;
  (* cleanly remove FIRST...LAST from its current list *)
  let! fp := getf h first Fprev in
  let! ln := getf h last Fnext in
  let! h := setf h fp Fnext ln in
  let! ln := getf h last Fnext in
  let! fp := getf h first Fprev in
  let! h := setf h ln Fprev fp in
  (* splice FIRST...LAST into new list *)
  let! bp := getf h before Fprev in
  let! h := setf h first Fprev bp in
  let! h := setf h last Fnext before in
  let! bp := getf h before Fprev in
  let! h := setf h bp Fnext first in
  setf h before Fprev last.

Definition list_push_front (h : heap) (list elem : Z) : res heap :=
  let! b := list_begin h list in list_insert h b elem.

Definition list_push_back (h : heap) (list elem : Z) : res heap :=
  let! e := list_end list in list_insert h e elem.

Definition list_remove (h : heap) (elem : Z) : res (Z * heap) :=
  let! b := is_interior h elem in ASSERT b;
  let! p := getf h elem Fprev in
  let! n := getf h elem Fnext in
  let! h := setf h p Fnext n in
  let! n := getf h elem Fnext in
  let! p := getf h elem Fprev in
  let! h := setf h n Fprev p in
  let! n := getf h elem Fnext in
  Ret (n, h).

Definition list_empty (h : heap) (list : Z) : res bool :=
  let! b := list_begin h list in
  let! e := list_end list in
  Ret (b =? e).

Definition list_front (h : heap) (list : Z) : res Z :=
  let! b := list_empty h list in
  ASSERT negb b;
  getf h (head_of list) Fnext.

Definition list_back (h : heap) (list : Z) : res Z :=
  let! b := list_empty h list in
  ASSERT negb b;
  getf h (tail_of list) Fprev.

Definition list_pop_front (h : heap) (list : Z) : res (Z * heap) :=
  let! front := list_front h list in
  let! '(_, h) := list_remove h front in
  Ret (front, h).

Definition list_pop_back (h : heap) (list : Z) : res (Z * heap) :=
  let! back := list_back h list in
  let! '(_, h) := list_remove h back in
  Ret (back, h).

(** ** Whole-list operations; [fuel] bounds the number of loop rounds *)
Definition list_size (fuel : nat) (h : heap) (list : Z) : res Z :=
  let! e := list_begin h list in
  iter fuel (fun '(e, cnt) =>
    let! t := list_end list in
    if e =? t then Ret (inr cnt)
    else let! e' := list_next h e in Ret (inl (e', u32 (cnt + 1)))) (e, 0).

(** [swap (&a->fa, &b->fb)] *)
Definition swap (h : heap) (a : Z) (fa : field) (b : Z) (fb : field) : res heap :=
  let! t := getf h a fa in
  let! v := getf h b fb in
  let! h := setf h a fa v in
  setf h b fb t.

Definition list_reverse (fuel : nat) (h : heap) (list : Z) : res heap :=
  let! emp := list_empty h list in
  if emp then Ret h else
  let! e := list_begin h list in
  let! h := iter fuel (fun '(e, h) =>
    let! t := list_end list in
    if e =? t then Ret (inr h)
    else let! h := swap h e Fprev e Fnext in
         let! e' := getf h e Fprev in Ret (inl (e', h))) (e, h) in
  let! h := swap h (head_of list) Fnext (tail_of list) Fprev in
  let! a := getf h (head_of list) Fnext in
  let! b := getf h (tail_of list) Fprev in
  swap h a Fprev b Fnext.

Section Ordered.
Context (less : list_less_func).

Definition is_sorted (fuel : nat) (h : heap) (a b : Z) : res bool :=
  if a =? b then Ret true else
  iter fuel (fun a =>
    let! a := list_next h a in
    if a =? b then Ret (inr true) else
    let! p := list_prev h a in
    if less a p then Ret (inr false) else Ret (inl a)) a.

Definition find_end_of_run (fuel : nat) (h : heap) (a b : Z) : res Z :=
  ASSERT negb (a =? NULL);
  ASSERT negb (b =? NULL);
  ASSERT negb (a =? b);
  iter fuel (fun a =>
    let! a := list_next h a in
    if a =? b then Ret (inr a) else
    let! p := list_prev h a in
    if negb (less a p) then Ret (inl a) else Ret (inr a)) a.

Definition inplace_merge (fuel : nat) (h : heap) (a0 a1b0 b1 : Z) : res heap :=
  ASSERT negb (a0 =? NULL);
  ASSERT negb (a1b0 =? NULL);
  ASSERT negb (b1 =? NULL);
  let! s := is_sorted fuel h a0 a1b0 in ASSERT s;
  let! s := is_sorted fuel h a1b0 b1 in ASSERT s;
  iter fuel (fun '(a0, a1b0, h) =>
    if negb (a0 =? a1b0) && negb (a1b0 =? b1) then
      if negb (less a1b0 a0) then
        let! a0 := list_next h a0 in Ret (inl (a0, a1b0, h))
      else
        let! a1b0 := list_next h a1b0 in
        let! p := list_prev h a1b0 in
        let! h := list_splice h a0 p a1b0 in
        Ret (inl (a0, a1b0, h))
    else Ret (inr h)) (a0, a1b0, h).

(** One round of the [do] loop of [list_sort]: the number of runs it output. *)
Definition sort_pass (fuel : nat) (h : heap) (list : Z) : res (Z * heap) :=
  let! a0 := list_begin h list in
  iter fuel (fun '(a0, output_run_cnt, h) =>
    let! e := list_end list in
    if a0 =? e then Ret (inr (output_run_cnt, h)) else
    let output_run_cnt := u32 (output_run_cnt + 1) in
    let! a1b0 := find_end_of_run fuel h a0 e in
    if a1b0 =? e then Ret (inr (output_run_cnt, h)) else
    let! b1 := find_end_of_run fuel h a1b0 e in
    let! h := inplace_merge fuel h a0 a1b0 b1 in
    Ret (inl (b1, output_run_cnt, h))) (a0, 0, h).

Definition list_sort (fuel : nat) (h : heap) (list : Z) : res heap :=
  ASSERT negb (list =? NULL);
  let! h := iter fuel (fun h =>
    let! '(output_run_cnt, h) := sort_pass fuel h list in
    if bool_decide (output_run_cnt > 1) then Ret (inl h) else Ret (inr h)) h in
  let! b := list_begin h list in
  let! e := list_end list in
  let! s := is_sorted fuel h b e in ASSERT s;
  Ret h.

Definition list_insert_ordered (fuel : nat) (h : heap) (list elem : Z) : res heap :=
  ASSERT negb (list =? NULL);
  ASSERT negb (elem =? NULL);
  let! e := list_begin h list in
  let! e := iter fuel (fun e =>
    let! t := list_end list in
    if e =? t then Ret (inr e)
    else if less elem e then Ret (inr e)
    else let! e' := list_next h e in Ret (inl e')) e in
  list_insert h e elem.

(** [duplicates] is [None] for a null pointer. *)
Definition list_unique (fuel : nat) (h : heap) (list : Z) (duplicates : option Z) : res heap :=
  ASSERT negb (list =? NULL);
  let! emp := list_empty h list in
  if emp then Ret h else
  let! elem := list_begin h list in
  iter fuel (fun '(elem, h) =>
    let! next := list_next h elem in
    let! e := list_end list in
    if next =? e then Ret (inr h)
    else if negb (less elem next) && negb (less next elem) then
      let! '(_, h) := list_remove h next in
      match duplicates with
      | Some d => let! h := list_push_back h d next in Ret (inl (elem, h))
      | None => Ret (inl (elem, h))
      end
    else Ret (inl (next, h))) (elem, h).

Definition list_max (fuel : nat) (h : heap) (list : Z) : res Z :=
  let! max := list_begin h list in
  let! e := list_end list in
  if max =? e then Ret max else
  let! e := list_next h max in
  iter fuel (fun '(e, max) =>
    let! t := list_end list in
    if e =? t then Ret (inr max)
    else let max := if less max e then e else max in
         let! e' := list_next h e in Ret (inl (e', max))) (e, max).

Definition list_min (fuel : nat) (h : heap) (list : Z) : res Z :=
  let! min := list_begin h list in
  let! e := list_end list in
  if min =? e then Ret min else
  let! e := list_next h min in
  iter fuel (fun '(e, min) =>
    let! t := list_end list in
    if e =? t then Ret (inr min)
    else let min := if less e min then e else min in
         let! e' := list_next h e in Ret (inl (e', min))) (e, min).
End Ordered.

#[global] Arguments getf : simpl never.
#[global] Arguments setf : simpl never.
#[global] Arguments swap : simpl never.
#[global] Arguments list_begin : simpl never.
#[global] Arguments list_end : simpl never.
#[global] Arguments list_next : simpl never.
#[global] Arguments list_prev : simpl never.
#[global] Arguments list_insert : simpl never.
#[global] Arguments list_remove : simpl never.
#[global] Arguments list_splice : simpl never.
#[global] Arguments list_empty : simpl never.
#[global] Arguments list_push_back : simpl never.
#[global] Arguments is_sorted : simpl never.
#[global] Arguments find_end_of_run : simpl never.
#[global] Arguments inplace_merge : simpl never.
#[global] Arguments sort_pass : simpl never.
