(* ===== verification/ListSpec.v ===== *)
(** * The abstract contract of lib/kernel/list.c: operations on sequences

    What a client of list.c relies on.  A list is the sequence of its elements;
    [KListProof] and [KListSort] show that the pointer operations of [KList]
    compute these functions. *)

From Stdlib Require Export Sorting.Sorted Sorting.Permutation.
From S2P Require Import Prelude.

Section Spec.
Context {A : Type} (less : A -> A -> bool).

(** [x] may stand before [y]. *)
Definition le (x y : A) : Prop := less y x = false.

(** [list_insert_ordered]: after every element that is not greater. *)
Fixpoint insert_ordered (e : A) (xs : list A) : list A :=
  match xs with
  | [] => [e]
  | x :: xs' => if less e x then e :: xs else x :: insert_ordered e xs'
  end.

(** Insertion before the first element that is not less, the step of the
    reference sort. *)
Fixpoint insert_left (e : A) (xs : list A) : list A :=
  match xs with
  | [] => [e]
  | x :: xs' => if less x e then x :: insert_left e xs' else e :: xs
  end.

(** Stable insertion sort: the reference for [list_sort]. *)
Definition sort (xs : list A) : list A := foldr insert_left [] xs.

(** Merging two sequences, the left one first among equals. *)
Fixpoint merge (xs : list A) : list A -> list A :=
  match xs with
  | [] => fun ys => ys
  | x :: xs' =>
      fix merge_x (ys : list A) : list A :=
        match ys with
        | [] => xs
        | y :: ys' => if less y x then y :: merge_x ys' else x :: merge xs' ys
        end
  end.

(** The longest prefix of [x :: xs] without a descent, and the rest. *)
Fixpoint split_run (x : A) (xs : list A) : list A * list A :=
  match xs with
  | [] => ([x], [])
  | y :: ys => if less y x then ([x], xs)
               else let '(r, rest) := split_run y ys in (x :: r, rest)
  end.

(** One pass of the natural merge sort: the new sequence and the number of
    output runs; [fuel] bounds the number of runs. *)
Fixpoint merge_pass (fuel : nat) (xs : list A) : list A * nat :=
  match fuel, xs with
  | O, _ | _, [] => (xs, 0%nat)
  | S fuel', x :: xs' =>
      match split_run x xs' with
      | (r1, []) => (r1, 1%nat)
      | (r1, y :: ys) =>
          let '(r2, rest) := split_run y ys in
          let '(zs, n) := merge_pass fuel' rest in
          (merge r1 r2 ++ zs, S n)
      end
  end.

(** Number of maximal runs. *)
Fixpoint descents (x : A) (xs : list A) : nat :=
  match xs with
  | [] => 0
  | y :: ys => (if less y x then 1 else 0) + descents y ys
  end.
Definition runs (xs : list A) : nat :=
  match xs with [] => 0%nat | x :: xs' => S (descents x xs') end.

(** [list_unique] without its [duplicates] list, and the elements it drops. *)
Fixpoint unique_from (x : A) (xs : list A) : list A * list A :=
  match xs with
  | [] => ([x], [])
  | y :: ys => if negb (less x y) && negb (less y x)
               then let '(k, d) := unique_from x ys in (k, y :: d)
               else let '(k, d) := unique_from y ys in (x :: k, d)
  end.
Definition unique (xs : list A) : list A * list A :=
  match xs with [] => ([], []) | x :: xs' => unique_from x xs' end.

(** [list_max] and [list_min] of a non-empty sequence. *)
Definition max_from (m : A) (xs : list A) : A :=
  foldl (fun m e => if less m e then e else m) m xs.
Definition min_from (m : A) (xs : list A) : A :=
  foldl (fun m e => if less e m then e else m) m xs.

(** ** Facts that need no order *)

Lemma insert_ordered_perm e xs : Permutation (insert_ordered e xs) (e :: xs).
Proof.
  induction xs as [|x xs IH]; simpl; [done|]. destruct (less e x); [done|].
  rewrite IH. apply perm_swap.
Qed.

Lemma insert_left_perm e xs : Permutation (insert_left e xs) (e :: xs).
Proof.
  induction xs as [|x xs IH]; simpl; [done|]. destruct (less x e); [|done].
  rewrite IH. apply perm_swap.
Qed.

Lemma sort_perm xs : Permutation (sort xs) xs.
Proof.
  induction xs as [|x xs IH]; simpl; [done|]. by rewrite insert_left_perm, IH.
Qed.

Lemma merge_perm xs : forall ys, Permutation (merge xs ys) (xs ++ ys).
Proof.
  induction xs as [|x xs IHx]; intros ys; [done|].
  induction ys as [|y ys IHy]; simpl; [by rewrite app_nil_r|]. destruct (less y x).
  - rewrite <- (Permutation_middle (x :: xs) ys y). simpl. apply perm_skip, IHy.
  - apply perm_skip, IHx.
Qed.

Lemma split_run_app x xs r rest : split_run x xs = (r, rest) -> r ++ rest = x :: xs.
Proof.
  revert x r rest; induction xs as [|y ys IH]; intros x r rest; simpl; [naive_solver|].
  destruct (less y x); [naive_solver|].
  destruct (split_run y ys) as [r' rest'] eqn:E. intros; simplify_eq/=. f_equal. eauto.
Qed.

Lemma split_run_cons x xs r rest : split_run x xs = (r, rest) -> exists r', r = x :: r'.
Proof.
  destruct xs as [|y ys]; simpl; [naive_solver|]. destruct (less y x); [naive_solver|].
  destruct (split_run y ys). naive_solver.
Qed.

Lemma split_run_sorted x xs r rest : split_run x xs = (r, rest) -> Sorted le r.
Proof.
  revert x r rest; induction xs as [|y ys IH]; intros x r rest; simpl; [naive_solver|].
  destruct (less y x) eqn:Eyx; [naive_solver|].
  destruct (split_run y ys) as [r' rest'] eqn:E. intros; simplify_eq.
  destruct (split_run_cons _ _ _ _ E) as (r'' & ->).
  constructor; [by eapply IH|]. by constructor.
Qed.

Lemma merge_pass_perm fuel : forall xs, Permutation (fst (merge_pass fuel xs)) xs.
Proof.
  induction fuel as [|fuel IH]; intros [|x xs]; simpl; try done.
  destruct (split_run x xs) as [r1 [|y ys]] eqn:E1; apply split_run_app in E1.
  - by rewrite <- E1, app_nil_r.
  - destruct (split_run y ys) as [r2 rest] eqn:E2. apply split_run_app in E2.
    specialize (IH rest). destruct (merge_pass fuel rest) as [zs n]. simpl in *.
    by rewrite <- E1, <- E2, merge_perm, IH, app_assoc.
Qed.

(** Runs of the sequence: one for the prefix, the others in the rest. *)
Lemma split_run_runs x xs r rest :
  split_run x xs = (r, rest) -> runs (x :: xs) = S (runs rest).
Proof.
  revert x r rest; induction xs as [|y ys IH]; intros x r rest; simpl; [naive_solver|].
  destruct (less y x) eqn:Eyx; [naive_solver|].
  destruct (split_run y ys) as [r' rest'] eqn:E. intros; simplify_eq. by apply IH in E.
Qed.

Lemma Sorted_descents x xs : Sorted le (x :: xs) <-> descents x xs = 0%nat.
Proof.
  revert x; induction xs as [|y ys IH]; intros x; simpl; [naive_solver|]. split.
  - intros Hs. apply Sorted_inv in Hs as [Hs Hh]. apply HdRel_inv in Hh. unfold le in Hh.
    rewrite Hh. by apply IH.
  - intros Hd. destruct (less y x) eqn:E; [lia|]. constructor; [by apply IH|]. by constructor.
Qed.

Lemma runs_le_1_sorted xs : (runs xs <= 1)%nat -> Sorted le xs.
Proof. destruct xs as [|x xs]; simpl; [done|]. intros. apply Sorted_descents. lia. Qed.

Lemma runs_sorted_app xs ys : Sorted le xs -> (runs (xs ++ ys) <= S (runs ys))%nat.
Proof.
  destruct xs as [|x xs]; [simpl; lia|]. rewrite Sorted_descents.
  revert x; induction xs as [|y xs IH]; intros x; simpl.
  - intros _. destruct ys; simpl; [lia|]. destruct (less a x); lia.
  - intros Hd. specialize (IH y ltac:(lia)). simpl in IH. lia.
Qed.
End Spec.

(** ** Facts about a strict weak order

    The contract of [list_less_func] (list.h): [less] is a comparison of
    values, so it is asymmetric and "not less" is transitive. *)
Class StrictWeak {A : Type} (less : A -> A -> bool) : Prop := {
  sw_asym : forall x y, less x y = true -> less y x = false;
  sw_trans : forall x y z, less y x = false -> less z y = false -> less z x = false
}.

Section Weak.
Context {A : Type} (less : A -> A -> bool) `{!StrictWeak less}.
Local Abbreviation le := (le less).
Local Abbreviation merge := (merge less).
Local Abbreviation sort := (sort less).
Local Abbreviation insert_left := (insert_left less).

#[local] Instance le_trans : Transitive le.
Proof. intros x y z. apply sw_trans. Qed.

Lemma le_refl x : le x x.
Proof. unfold ListSpec.le. destruct (less x x) eqn:E; [|done]. by rewrite (sw_asym _ _ E) in E. Qed.

Lemma less_le x y : less x y = true -> le x y.
Proof. apply sw_asym. Qed.

(** [y < x] and [x <= z] give [y < z]. *)
Lemma less_le_less y x z : less y x = true -> le x z -> less y z = true.
Proof.
  unfold ListSpec.le. intros Hyx Hxz. destruct (less y z) eqn:E; [done|].
  by rewrite (sw_trans _ _ _ Hxz E) in Hyx.
Qed.

Lemma Sorted_strong xs : Sorted le xs -> StronglySorted le xs.
Proof. apply Sorted_StronglySorted. intros x y z. apply sw_trans. Qed.

Lemma insert_ordered_sorted e xs : Sorted le xs -> Sorted le (insert_ordered less e xs).
Proof.
  induction xs as [|x xs IH]; simpl; [by repeat constructor|]. intros Hs.
  destruct (less e x) eqn:E.
  - constructor; [done|]. constructor. by apply less_le.
  - apply Sorted_inv in Hs as [Hs Hh]. constructor; [auto|].
    destruct xs as [|y ys]; simpl; [by constructor|].
    destruct (less e y); constructor; [done|]. by apply HdRel_inv in Hh.
Qed.

(** [e] is behind every element that is not greater: first come, first served
    among equals. *)
Lemma insert_ordered_split e xs : Sorted le xs ->
  exists a b, insert_ordered less e xs = a ++ e :: b /\ xs = a ++ b /\
              Forall (fun x => le x e) a /\ Forall (fun x => less e x = true) b.
Proof.
  intros Hs%Sorted_strong. induction Hs as [|x xs Hs IH Hx]; simpl.
  - by exists [], [].
  - destruct (less e x) eqn:E.
    + exists [], (x :: xs). repeat split; auto. constructor; [done|].
      eapply Forall_impl; [exact Hx|]. intros y Hy. by eapply less_le_less.
    + destruct IH as (a & b & -> & -> & Ha & Hb). exists (x :: a), b. repeat split; auto.
Qed.

Lemma insert_left_sorted e xs : Sorted le xs -> Sorted le (insert_left e xs).
Proof.
  induction xs as [|x xs IH]; simpl; [by repeat constructor|]. intros Hs.
  destruct (less x e) eqn:E.
  - apply Sorted_inv in Hs as [Hs Hh]. constructor; [auto|].
    destruct xs as [|y ys]; simpl; [by constructor; apply less_le|].
    destruct (less y e); constructor; [by apply HdRel_inv in Hh|by apply less_le].
  - constructor; [done|]. by constructor.
Qed.

Lemma sort_sorted xs : Sorted le (sort xs).
Proof. induction xs; simpl; [done|]. by apply insert_left_sorted. Qed.

Lemma sort_id xs : Sorted le xs -> sort xs = xs.
Proof.
  intros Hs. induction Hs as [|x xs Hs IH Hh]; simpl; [done|]. rewrite IH.
  destruct Hh as [|y ys Hxy]; simpl; [done|]. unfold ListSpec.le in Hxy. by rewrite Hxy.
Qed.

Lemma merge_nil_r xs : merge xs [] = xs.
Proof. by destruct xs. Qed.

Lemma merge_cons x xs y ys :
  merge (x :: xs) (y :: ys) = if less y x then y :: merge (x :: xs) ys else x :: merge xs (y :: ys).
Proof. done. Qed.

(** An element below all of [xs] and strictly below... is put first. *)
Lemma merge_below y xs ys :
  Forall (fun x => less y x = true) xs -> merge xs (y :: ys) = y :: merge xs ys.
Proof.
  destruct xs as [|x xs]; [done|]. intros Hf. apply Forall_inv in Hf. by rewrite merge_cons, Hf.
Qed.

Lemma merge_cons_insert x xs ys :
  StronglySorted le (x :: xs) -> Sorted le ys -> merge (x :: xs) ys = insert_left x (merge xs ys).
Proof.
  intros Hx. pose proof (StronglySorted_inv Hx) as [Hs Hall].
  induction ys as [|y ys IH]; intros Hy.
  - rewrite !merge_nil_r. destruct xs as [|z zs]; simpl; [done|].
    apply Forall_inv in Hall. unfold ListSpec.le in Hall. by rewrite Hall.
  - rewrite merge_cons. apply Sorted_inv in Hy as [Hy _]. destruct (less y x) eqn:E.
    + rewrite merge_below.
      2:{ eapply Forall_impl; [exact Hall|]. intros z Hz. by eapply less_le_less. }
      simpl. rewrite E. f_equal. by apply IH.
    + destruct xs as [|z zs]; [simpl; by rewrite E|].
      rewrite merge_cons. apply Forall_inv in Hall. unfold ListSpec.le in Hall.
      destruct (less y z); simpl; [by rewrite E|by rewrite Hall].
Qed.

Lemma merge_foldr xs ys :
  Sorted le xs -> Sorted le ys -> merge xs ys = foldr insert_left ys xs.
Proof.
  intros Hx%Sorted_strong Hy. induction Hx as [|x xs Hx IH Hall]; [done|].
  simpl foldr. rewrite <- IH. apply merge_cons_insert; [by constructor|done].
Qed.

Lemma foldr_insert_sorted xs acc : Sorted le acc -> Sorted le (foldr insert_left acc xs).
Proof. induction xs; simpl; [done|]. intros. apply insert_left_sorted. auto. Qed.

Lemma merge_sorted xs ys : Sorted le xs -> Sorted le ys -> Sorted le (merge xs ys).
Proof. intros. rewrite merge_foldr by done. by apply foldr_insert_sorted. Qed.

Lemma merge_sort xs ys : Sorted le xs -> Sorted le ys -> merge xs ys = sort (xs ++ ys).
Proof.
  intros. unfold ListSpec.sort. rewrite merge_foldr, foldr_app by done. f_equal.
  symmetry. by apply sort_id.
Qed.

(** Inserting commutes with folding the insertions of a sorted prefix. *)
Lemma insert_foldr x s acc :
  Sorted le s -> Sorted le acc ->
  foldr insert_left acc (insert_left x s) = insert_left x (foldr insert_left acc s).
Proof.
  intros Hs%Sorted_strong Hacc. induction Hs as [|y ys Hys IH Hall]; simpl; [done|].
  destruct (less y x) eqn:E; simpl; [|done]. rewrite IH.
  (* insert_left y (insert_left x M) = insert_left x (insert_left y M) when y < x *)
  generalize (foldr insert_left acc ys). intros M. induction M as [|m M IHM]; simpl.
  - by rewrite E, (sw_asym _ _ E).
  - destruct (less m x) eqn:Emx, (less m y) eqn:Emy; simpl;
      rewrite ?Emx, ?Emy, ?E, ?(sw_asym _ _ E); simpl; rewrite ?Emx, ?Emy; try done.
    + by rewrite IHM.
    + exfalso. assert (less m x = true) as Hc; [|by rewrite Hc in Emx].
      eapply less_le_less; [exact Emy|]. by apply less_le.
Qed.

Lemma foldr_insert_sort xs acc :
  Sorted le acc -> foldr insert_left acc (sort xs) = foldr insert_left acc xs.
Proof.
  intros Hacc. induction xs as [|x xs IH]; simpl; [done|].
  rewrite insert_foldr by (done || apply sort_sorted). by rewrite IH.
Qed.

(** Sorting a block in the middle does not change the sorted result. *)
Lemma sort_block xs ys zs : sort (xs ++ sort ys ++ zs) = sort (xs ++ ys ++ zs).
Proof.
  unfold ListSpec.sort at 1 3. rewrite !foldr_app. f_equal.
  apply foldr_insert_sort. apply sort_sorted.
Qed.

(** ** Stability *)
Definition eqv (p x : A) : bool := negb (less p x) && negb (less x p).

Lemma insert_left_stable p e xs :
  List.filter (eqv p) (insert_left e xs) = List.filter (eqv p) (e :: xs).
Proof.
  induction xs as [|x xs IH]; simpl; [done|]. destruct (less x e) eqn:E; [|done].
  simpl. rewrite IH. simpl. destruct (eqv p x) eqn:Ex, (eqv p e) eqn:Ee; try done.
  exfalso. unfold eqv in *. apply andb_true_iff in Ex as [Ex1 Ex2], Ee as [Ee1 Ee2].
  apply negb_true_iff in Ex1, Ex2, Ee1, Ee2.
  (* p <= x < e contradicts e <= p *)
  by rewrite (less_le_less x e p E Ee1) in Ex2.
Qed.

(** Equivalent elements keep their relative order. *)
Lemma sort_stable p xs : List.filter (eqv p) (sort xs) = List.filter (eqv p) xs.
Proof.
  induction xs as [|x xs IH]; [done|].
  change (sort (x :: xs)) with (insert_left x (sort xs)).
  rewrite insert_left_stable. simpl. by rewrite IH.
Qed.

(** ** The natural merge pass *)
Lemma merge_pass_spec fuel : forall xs, (length xs <= fuel)%nat ->
  let '(ys, n) := merge_pass less fuel xs in
  sort ys = sort xs /\ (runs less ys <= n)%nat /\ (2 * n <= runs less xs + 1)%nat /\
  (xs <> [] -> (1 <= n)%nat).
Proof.
  induction fuel as [|fuel IH]; intros [|x xs] Hl; simpl in Hl; try lia; [simpl; naive_solver lia..|].
  cbn [merge_pass]. destruct (split_run less x xs) as [r1 rest1] eqn:E1.
  pose proof (split_run_app _ _ _ _ _ E1) as Happ1.
  pose proof (split_run_sorted _ _ _ _ _ E1) as Hs1.
  pose proof (split_run_runs _ _ _ _ _ E1) as Hr1.
  destruct rest1 as [|y ys].
  { rewrite app_nil_r in Happ1. subst r1. rewrite Hr1. simpl. naive_solver lia. }
  destruct (split_run less y ys) as [r2 rest2] eqn:E2.
  pose proof (split_run_app _ _ _ _ _ E2) as Happ2.
  pose proof (split_run_sorted _ _ _ _ _ E2) as Hs2.
  pose proof (split_run_runs _ _ _ _ _ E2) as Hr2.
  destruct (split_run_cons _ _ _ _ _ E1) as (r1' & Hr1c).
  destruct (split_run_cons _ _ _ _ _ E2) as (r2' & Hr2c).
  apply (f_equal length) in Happ1 as Hlen1. apply (f_equal length) in Happ2 as Hlen2.
  rewrite length_app in Hlen1, Hlen2. subst r1 r2. simpl in Hlen1, Hlen2.
  specialize (IH rest2 ltac:(lia)).
  destruct (merge_pass less fuel rest2) as [zs n].
  destruct IH as (Hsort & Hrz & Hn & _).
  rewrite Hr1, Hr2.
  repeat split; [|pose proof (runs_sorted_app less _ zs (merge_sorted _ _ Hs1 Hs2)); lia|lia|lia].
  rewrite merge_sort by done. rewrite <- Happ1, <- Happ2, app_assoc.
  rewrite <- (app_nil_l (sort _ ++ zs)), sort_block. simpl.
  unfold ListSpec.sort in *. by rewrite !foldr_app, Hsort.
Qed.
End Weak.
