(* ===== verification/KListProof.v ===== *)
(** * list.c implements sequences: insertion, removal, traversal, splicing *)

From S2P Require Import Prelude KList.

(** ** Linked segments

    [seg h p xs q]: the elements [xs] are chained in [h], the first one has
    [prev = p] and the last one [next = q]. *)
Fixpoint seg (h : heap) (p : Z) (xs : list Z) (q : Z) : Prop :=
  match xs with
  | [] => True
  | x :: xs' => h !! x = Some (Elem p (default q (head xs'))) /\ seg h x xs' q
  end.

(** A complete chain: the two sentinels and what is between them. *)
Record linked (h : heap) (ns : list Z) : Prop := Linked {
  lk_seg : seg h NULL ns NULL;
  lk_nodup : NoDup ns;
  lk_null : NULL ∉ ns
}.

(** The list at address [l] holds the elements [xs]. *)
Definition dll (h : heap) (l : Z) (xs : list Z) : Prop :=
  linked h (head_of l :: xs ++ [tail_of l]).

(** [h'] differs from [h] at most at the addresses [xs]. *)
Definition same_off (xs : list Z) (h h' : heap) : Prop := forall y, y ∉ xs -> h' !! y = h !! y.

Lemma same_off_refl xs h : same_off xs h h.
Proof. done. Qed.
Lemma same_off_trans xs h1 h2 h3 : same_off xs h1 h2 -> same_off xs h2 h3 -> same_off xs h1 h3.
Proof. intros H1 H2 y Hy. by rewrite H2, H1. Qed.
Lemma same_off_weaken xs ys h h' : same_off xs h h' -> xs ⊆ ys -> same_off ys h h'.
Proof. intros H Hs y Hy. apply H. set_solver. Qed.

Lemma seg_app h p xs ys q :
  seg h p (xs ++ ys) q <->
  seg h p xs (default q (head ys)) /\ seg h (default p (last xs)) ys q.
Proof.
  revert p; induction xs as [|x xs IH]; intros p; simpl; [naive_solver|].
  rewrite IH. replace (default p (last (x :: xs))) with (default x (last xs)).
  - replace (head (xs ++ ys)) with (match head xs with Some z => Some z | None => head ys end)
      by (by destruct xs).
    destruct (head xs); naive_solver.
  - rewrite last_cons. by destruct (last xs).
Qed.

Lemma seg_frame h h' p xs q :
  seg h p xs q -> (forall y, y ∈ xs -> h' !! y = h !! y) -> seg h' p xs q.
Proof.
  revert p; induction xs as [|x xs IH]; intros p; simpl; [done|].
  intros [Hx Hs] Hf. split; [by rewrite Hf by set_solver|]. apply IH; [done|]. set_solver.
Qed.

Lemma seg_same_off S h h' p xs q :
  seg h p xs q -> same_off S h h' -> xs ## S -> seg h' p xs q.
Proof. intros Hs Ho Hd. eapply seg_frame; [done|]. intros y Hy. apply Ho. set_solver. Qed.

Lemma seg_mid h p xs x ys q :
  seg h p (xs ++ x :: ys) q ->
  h !! x = Some (Elem (default p (last xs)) (default q (head ys))).
Proof. rewrite seg_app. simpl. naive_solver. Qed.

(** The two field writes, as updates of the ends of a segment. *)
Lemma setf_next h p xs x q v :
  seg h p (xs ++ [x]) q -> x ∉ xs ->
  exists h', setf h x Fnext v = Ret h' /\ seg h' p (xs ++ [x]) v /\ same_off [x] h h'.
Proof.
  intros Hs Hx. pose proof (seg_mid _ _ _ _ _ _ Hs) as Hl.
  rewrite seg_app in Hs. destruct Hs as [Hs1 Hs2]. simpl in *.
  eexists. unfold setf. rewrite Hl. simpl. split; [done|].
  assert (Ho : same_off [x] h (<[x:=Elem (default p (last xs)) v]> h)).
  { intros y Hy. rewrite lookup_insert_ne; [done|set_solver]. }
  split; [|done]. rewrite seg_app. split.
  - eapply seg_same_off; [done..|set_solver].
  - simpl. split; [|done]. by rewrite lookup_insert_eq.
Qed.

Lemma setf_prev h p x xs q v :
  seg h p (x :: xs) q -> x ∉ xs ->
  exists h', setf h x Fprev v = Ret h' /\ seg h' v (x :: xs) q /\ same_off [x] h h'.
Proof.
  intros [Hl Hs] Hx. eexists. unfold setf. rewrite Hl. simpl. split; [done|].
  assert (Ho : same_off [x] h (<[x:=Elem v (default q (head xs))]> h)).
  { intros y Hy. rewrite lookup_insert_ne; [done|set_solver]. }
  split; [|done]. split; [by rewrite lookup_insert_eq|].
  eapply seg_same_off; [done..|set_solver].
Qed.

Lemma getf_lookup h x n f : h !! x = Some n -> getf h x f = Ret (sel f n).
Proof. intros H. unfold getf. by rewrite H. Qed.

(** ** Reading a chain *)
Lemma linked_mid h xs x ys : linked h (xs ++ x :: ys) ->
  h !! x = Some (Elem (default NULL (last xs)) (default NULL (head ys))) /\ x <> NULL.
Proof.
  intros [Hs _ Hn]. split; [by apply seg_mid in Hs|]. set_solver.
Qed.

Lemma linked_pair h xs x y ys : linked h (xs ++ x :: y :: ys) ->
  h !! x = Some (Elem (default NULL (last xs)) y) /\
  h !! y = Some (Elem x (default NULL (head ys))) /\ x <> NULL /\ y <> NULL.
Proof.
  intros Hl. destruct (linked_mid _ _ _ _ Hl) as [Hx Hnx]. simpl in Hx.
  replace (xs ++ x :: y :: ys) with ((xs ++ [x]) ++ y :: ys) in Hl by by rewrite <- app_assoc.
  destruct (linked_mid _ _ _ _ Hl) as [Hy Hny]. rewrite last_snoc in Hy. auto.
Qed.

Ltac ptr_simpl :=
  repeat (match goal with
  | H : ?x <> NULL |- context [?x =? NULL] => rewrite (proj2 (Z.eqb_neq x NULL) H)
  | |- context [NULL =? NULL] => change (NULL =? NULL) with true
  | |- context [?x =? ?x] => rewrite (Z.eqb_refl x)
  | H : ?h !! ?x = Some ?n |- context [getf ?h ?x ?f] => rewrite (getf_lookup h x n f H)
  end; cbn [rbind sel prev next negb andb orb assert_]).

Lemma linked_next h xs x y ys : linked h (xs ++ x :: y :: ys) -> list_next h x = Ret y.
Proof.
  intros Hl. destruct (linked_pair _ _ _ _ _ Hl) as (Hx & Hy & Hnx & Hny).
  unfold list_next, assert_or, is_head, is_interior. ptr_simpl.
  destruct (default NULL (last xs) =? NULL); done.
Qed.

Lemma linked_prev h xs x y ys : linked h (xs ++ x :: y :: ys) -> list_prev h y = Ret x.
Proof.
  intros Hl. destruct (linked_pair _ _ _ _ _ Hl) as (Hx & Hy & Hnx & Hny).
  unfold list_prev, assert_or, is_interior, is_tail. ptr_simpl.
  destruct (default NULL (head ys) =? NULL); done.
Qed.

Lemma linked_before_ok h xs x y ys : linked h (xs ++ x :: y :: ys) ->
  assert_or (is_interior h y) (is_tail h y) = Ret tt.
Proof.
  intros Hl. destruct (linked_pair _ _ _ _ _ Hl) as (Hx & Hy & Hnx & Hny).
  unfold assert_or, is_interior, is_tail. ptr_simpl.
  destruct (default NULL (head ys) =? NULL); done.
Qed.

Lemma linked_interior h xs x y z ys : linked h (xs ++ x :: y :: z :: ys) ->
  is_interior h y = Ret true.
Proof.
  intros Hl. destruct (linked_pair _ _ _ _ _ Hl) as (Hx & Hy & Hnx & Hny).
  replace (xs ++ x :: y :: z :: ys) with ((xs ++ [x]) ++ y :: z :: ys) in Hl by by rewrite <- app_assoc.
  destruct (linked_pair _ _ _ _ _ Hl) as (_ & _ & _ & Hnz).
  unfold is_interior. simpl in Hy. by ptr_simpl.
Qed.

(** ** Insertion and removal *)
Ltac split_nodup H :=
  repeat first [ rewrite NoDup_app in H | rewrite NoDup_cons in H ].

Lemma list_insert_linked h A a b B e :
  linked h (A ++ a :: b :: B) -> e ∉ A ++ a :: b :: B -> e <> NULL -> is_Some (h !! e) ->
  exists h', list_insert h b e = Ret h' /\ linked h' (A ++ a :: e :: b :: B) /\
             same_off [e; a; b] h h'.
Proof.
  intros Hl He Hne [n Hn]. pose proof (linked_before_ok _ _ _ _ _ Hl) as Hok.
  destruct (linked_pair _ _ _ _ _ Hl) as (Ha & Hb & Hna & Hnb).
  destruct Hl as [Hs Hnd Hnull].
  replace (A ++ a :: b :: B) with ((A ++ [a]) ++ b :: B) in Hs by by rewrite <- app_assoc.
  rewrite seg_app, last_snoc in Hs. destruct Hs as [Hs1 Hs2]. simpl default in *.
  assert (Hnd2 := Hnd). split_nodup Hnd2.
  unfold list_insert. rewrite Hok. ptr_simpl.
  set (h1 := <[e:=upd Fprev a n]> h).
  assert (E1 : setf h e Fprev a = Ret h1) by (unfold setf; by rewrite Hn).
  rewrite E1. simpl.
  set (h2 := <[e:=Elem a b]> h).
  assert (E2 : setf h1 e Fnext b = Ret h2).
  { unfold setf, h1, h2. rewrite lookup_insert_eq. simpl. by rewrite insert_insert_eq. }
  rewrite E2. simpl.
  assert (Ho2 : same_off [e] h h2) by (intros y Hy; unfold h2; rewrite lookup_insert_ne; set_solver).
  assert (Hs1' : seg h2 NULL (A ++ [a]) b) by (eapply seg_same_off; [done..|set_solver]).
  assert (Hs2' : seg h2 a (b :: B) NULL) by (eapply seg_same_off; [done..|set_solver]).
  rewrite (getf_lookup h2 b (Elem a (default NULL (head B)))) by (apply Hs2'). simpl.
  destruct (setf_next h2 NULL A a b e Hs1') as (h3 & -> & Hs1'' & Ho3); [set_solver|]. simpl.
  assert (Hs2'' : seg h3 a (b :: B) NULL) by (eapply seg_same_off; [done..|set_solver]).
  destruct (setf_prev h3 a b B NULL e Hs2'') as (h4 & -> & Hs2''' & Ho4); [set_solver|].
  exists h4. split; [done|]. split; [|].
  - split.
    + replace (A ++ a :: e :: b :: B) with ((A ++ [a]) ++ [e] ++ b :: B) by by rewrite <- app_assoc.
      rewrite seg_app, last_snoc. simpl. split; [|split; [|done]].
      * eapply seg_same_off; [done..|set_solver].
      * rewrite (Ho4 e), (Ho3 e) by set_solver. unfold h2. by rewrite lookup_insert_eq.
    + rewrite NoDup_app, !NoDup_cons. set_solver.
    + set_solver.
  - intros y Hy. rewrite (Ho4 y), (Ho3 y), (Ho2 y) by set_solver. done.
Qed.

Lemma list_remove_linked h A a e b B :
  linked h (A ++ a :: e :: b :: B) ->
  exists h', list_remove h e = Ret (b, h') /\ linked h' (A ++ a :: b :: B) /\
             same_off [a; b] h h'.
Proof.
  intros Hl. pose proof (linked_interior _ _ _ _ _ _ Hl) as Hint.
  destruct (linked_pair _ _ _ _ _ Hl) as (Ha & He & Hna & Hne). simpl in He.
  destruct Hl as [Hs Hnd Hnull].
  replace (A ++ a :: e :: b :: B) with ((A ++ [a]) ++ [e] ++ b :: B) in Hs by by rewrite <- app_assoc.
  rewrite seg_app, last_snoc in Hs. destruct Hs as (Hs1 & Hse & Hs2). simpl in Hs1, Hs2.
  assert (Hnd2 := Hnd). split_nodup Hnd2.
  unfold list_remove. rewrite Hint. simpl. ptr_simpl.
  destruct (setf_next h NULL A a e b Hs1) as (h1 & -> & Hs1' & Ho1); [set_solver|]. simpl.
  assert (He1 : h1 !! e = Some (Elem a b)) by (by rewrite (Ho1 e) by set_solver). ptr_simpl.
  assert (Hs2' : seg h1 e (b :: B) NULL) by (eapply seg_same_off; [exact Hs2|done|set_solver]).
  destruct (setf_prev h1 e b B NULL a Hs2') as (h2 & -> & Hs2'' & Ho2); [set_solver|]. simpl.
  assert (He2 : h2 !! e = Some (Elem a b)) by (by rewrite (Ho2 e) by set_solver). ptr_simpl.
  exists h2. split; [done|]. split.
  - split.
    + replace (A ++ a :: b :: B) with ((A ++ [a]) ++ b :: B) by by rewrite <- app_assoc.
      rewrite seg_app, last_snoc. simpl head. simpl default. split; [|done].
      eapply seg_same_off; [done..|set_solver].
    + rewrite NoDup_app, !NoDup_cons. set_solver.
    + set_solver.
  - intros y Hy. rewrite (Ho2 y), (Ho1 y) by set_solver. done.
Qed.

(** ** Splicing

    The ends of a segment by [head] and [last], so that one segment can be
    written at both ends. *)
Lemma head_cons_inv (xs : list Z) x : head xs = Some x -> exists xs', xs = x :: xs'.
Proof. destruct xs; naive_solver. Qed.

Lemma last_snoc_inv (xs : list Z) x : last xs = Some x -> exists xs', xs = xs' ++ [x].
Proof. apply last_Some. Qed.

Lemma setf_first h p xs q v x :
  seg h p xs q -> head xs = Some x -> NoDup xs ->
  exists h', setf h x Fprev v = Ret h' /\ seg h' v xs q /\ same_off [x] h h'.
Proof.
  intros Hs (xs' & ->)%head_cons_inv Hnd%NoDup_cons. eapply setf_prev; [done|]. apply Hnd.
Qed.

Lemma setf_last h p xs q v x :
  seg h p xs q -> last xs = Some x -> NoDup xs ->
  exists h', setf h x Fnext v = Ret h' /\ seg h' p xs v /\ same_off [x] h h'.
Proof.
  intros Hs (xs' & ->)%last_snoc_inv Hnd%NoDup_app. eapply setf_next; [done|]. set_solver.
Qed.

Lemma getf_first h p xs q x : seg h p xs q -> head xs = Some x -> getf h x Fprev = Ret p.
Proof. intros Hs (xs' & ->)%head_cons_inv. destruct Hs as [Hs _]. by rewrite (getf_lookup _ _ _ _ Hs). Qed.

Lemma getf_last h p xs q x : seg h p xs q -> last xs = Some x -> getf h x Fnext = Ret q.
Proof.
  intros Hs (xs' & ->)%last_snoc_inv. apply seg_mid in Hs. by rewrite (getf_lookup _ _ _ _ Hs).
Qed.

Lemma head_in (xs : list Z) x : head xs = Some x -> x ∈ xs.
Proof. intros (? & ->)%head_cons_inv. set_solver. Qed.
Lemma last_in (xs : list Z) x : last xs = Some x -> x ∈ xs.
Proof. intros (? & ->)%last_snoc_inv. set_solver. Qed.

Lemma seg_app_some h p xs ys q x y :
  last xs = Some x -> head ys = Some y ->
  seg h p (xs ++ ys) q <-> seg h p xs y /\ seg h x ys q.
Proof. intros Hx Hy. rewrite seg_app, Hx, Hy. done. Qed.

(** Elements [x] and [y] next to each other across a boundary. *)
Lemma linked_boundary h xs ys x y :
  linked h (xs ++ ys) -> last xs = Some x -> head ys = Some y ->
  exists xs' ys', xs ++ ys = xs' ++ x :: y :: ys'.
Proof.
  intros _ (xs' & ->)%last_snoc_inv (ys' & ->)%head_cons_inv.
  exists xs', ys'. by rewrite <- app_assoc.
Qed.

Lemma interior_of_ends h x p n :
  x <> NULL -> p <> NULL -> n <> NULL ->
  getf h x Fprev = Ret p -> getf h x Fnext = Ret n -> is_interior h x = Ret true.
Proof.
  intros Hx Hp Hn H1 H2. unfold is_interior.
  rewrite (proj2 (Z.eqb_neq x NULL) Hx), H1, H2. simpl.
  by rewrite (proj2 (Z.eqb_neq p NULL) Hp), (proj2 (Z.eqb_neq n NULL) Hn).
Qed.

Lemma seg_off1 x h h' p xs q :
  seg h p xs q -> same_off [x] h h' -> x ∉ xs -> seg h' p xs q.
Proof. intros Hs Ho Hx. eapply seg_same_off; [done..|]. set_solver. Qed.

Lemma nodup4 (A N F T : list Z) : NoDup (A ++ N ++ F ++ T) ->
  (NoDup A /\ NoDup N /\ NoDup F /\ NoDup T) /\
  (forall x, x ∈ A -> (x ∉ N) /\ (x ∉ F) /\ (x ∉ T)) /\
  (forall x, x ∈ N -> (x ∉ A) /\ (x ∉ F) /\ (x ∉ T)) /\
  (forall x, x ∈ F -> (x ∉ A) /\ (x ∉ N) /\ (x ∉ T)) /\
  (forall x, x ∈ T -> (x ∉ A) /\ (x ∉ N) /\ (x ∉ F)).
Proof. rewrite !NoDup_app. set_solver. Qed.

Lemma nodup4_swap (A N F T : list Z) : NoDup (A ++ N ++ F ++ T) -> NoDup (A ++ F ++ N ++ T).
Proof. rewrite !NoDup_app. set_solver. Qed.

Lemma notin_ne (x y : Z) (xs : list Z) : x ∈ xs -> y ∉ xs -> x <> y.
Proof. by intros ?? ->. Qed.

(** The neighbours a segment's own ends point to are not null. *)
Lemma seg_first_next h p xs q x :
  seg h p xs q -> head xs = Some x -> q <> NULL -> NULL ∉ xs ->
  exists n, getf h x Fnext = Ret n /\ n <> NULL.
Proof.
  intros Hs (xs' & ->)%head_cons_inv Hq Hn. destruct Hs as [E _].
  rewrite (getf_lookup _ _ _ _ E). eexists; split; [done|]. destruct xs'; set_solver.
Qed.

Lemma seg_last_prev h p xs q x :
  seg h p xs q -> last xs = Some x -> p <> NULL -> NULL ∉ xs ->
  exists n, getf h x Fprev = Ret n /\ n <> NULL.
Proof.
  intros Hs (xs' & ->)%last_snoc_inv Hp Hn. apply seg_mid in Hs.
  rewrite (getf_lookup _ _ _ _ Hs). eexists; split; [done|]. simpl.
  destruct (last xs') eqn:E; simpl; [|done]. apply last_in in E. set_solver.
Qed.

Ltac off := eapply seg_off1; [eassumption|eassumption|assumption].

Lemma splice_left_reads h A N F T a b l t :
  last A = Some a -> head N = Some b -> last F = Some l -> head T = Some t ->
  linked h (A ++ N ++ F ++ T) ->
  assert_or (is_interior h b) (is_tail h b) = Ret tt /\ list_prev h t = Ret l.
Proof.
  intros HA HNb HFl HT Hl. split.
  - destruct (linked_boundary h A (N ++ F ++ T) a b) as (xs & ys & E); [done..| |].
    + destruct (head_cons_inv _ _ HNb) as (? & ->). done.
    + rewrite E in Hl. by eapply linked_before_ok.
  - destruct (linked_boundary h (A ++ N ++ F) T l t) as (xs & ys & E).
    + by rewrite <- !app_assoc.
    + by rewrite !last_app, HFl.
    + done.
    + rewrite <- !app_assoc in E. rewrite E in Hl. by eapply linked_prev.
Qed.

(** Moving the elements [F] (first [f], last [l], followed by [t]) to the left,
    in front of [b]: the case [inplace_merge] uses. *)
Lemma list_splice_left h A N F T a b m f l t :
  linked h (A ++ N ++ F ++ T) ->
  last A = Some a -> head N = Some b -> last N = Some m ->
  head F = Some f -> last F = Some l -> head T = Some t ->
  exists h', list_splice h b f t = Ret h' /\ linked h' (A ++ F ++ N ++ T) /\
             same_off (A ++ N ++ F ++ T) h h'.
Proof.
  intros Hl HA HNb HNm HFf HFl HT.
  destruct (splice_left_reads h A N F T a b l t HA HNb HFl HT Hl) as [Hok Hprev].
  destruct Hl as [Hs Hnd Hnull].
  destruct (nodup4 _ _ _ _ Hnd) as ((HndA & HndN & HndF & HndT) & DA & DN & DF & DT).
  rewrite !not_elem_of_app in Hnull. destruct Hnull as (HnA & HnN & HnF & HnT).
  pose proof (head_in _ _ HNb) as Hb. pose proof (last_in _ _ HA) as Ha.
  pose proof (last_in _ _ HNm) as Hm. pose proof (head_in _ _ HFf) as Hf.
  pose proof (last_in _ _ HFl) as Hll. pose proof (head_in _ _ HT) as Ht.
  destruct (DA _ Ha) as (?&?&?). destruct (DN _ Hb) as (?&?&?). destruct (DN _ Hm) as (?&?&?).
  destruct (DF _ Hf) as (?&?&?). destruct (DF _ Hll) as (?&?&?). destruct (DT _ Ht) as (?&?&?).
  apply (seg_app_some _ _ _ _ _ a b HA) in Hs as [HsA Hs];
    [|by destruct (head_cons_inv _ _ HNb) as (? & ->)].
  apply (seg_app_some _ _ _ _ _ m f HNm) in Hs as [HsN Hs];
    [|by destruct (head_cons_inv _ _ HFf) as (? & ->)].
  apply (seg_app_some _ _ _ _ _ l t HFl) in Hs as [HsF HsT]; [|done].
  assert (f <> NULL /\ l <> NULL /\ m <> NULL /\ t <> NULL) as (Hf0 & Hl0 & Hm0 & Ht0)
    by (repeat split; eapply notin_ne; eassumption).
  unfold list_splice. rewrite Hok, Hprev. cbn [rbind].
  rewrite (proj2 (Z.eqb_neq f t)) by (eapply notin_ne; eassumption).
  destruct (seg_first_next _ _ _ _ _ HsF HFf Ht0 HnF) as (fn & Hfn & Hfn0).
  destruct (seg_last_prev _ _ _ _ _ HsF HFl Hm0 HnF) as (lp & Hlp & Hlp0).
  rewrite (interior_of_ends h f m fn Hf0 Hm0 Hfn0 (getf_first _ _ _ _ _ HsF HFf) Hfn).
  rewrite (interior_of_ends h l lp t Hl0 Hlp0 Ht0 Hlp (getf_last _ _ _ _ _ HsF HFl)).
  cbn [rbind assert_].
  rewrite (getf_first _ _ _ _ _ HsF HFf), (getf_last _ _ _ _ _ HsF HFl). cbn [rbind].
  (* m->next = t *)
  destruct (setf_last _ _ _ _ t _ HsN HNm HndN) as (h1 & -> & HsN1 & O1). cbn [rbind].
  assert (HsF1 : seg h1 m F t) by off. assert (HsA1 : seg h1 NULL A b) by off.
  assert (HsT1 : seg h1 l T NULL) by off.
  rewrite (getf_first _ _ _ _ _ HsF1 HFf), (getf_last _ _ _ _ _ HsF1 HFl). cbn [rbind].
  (* t->prev = m *)
  destruct (setf_first _ _ _ _ m _ HsT1 HT HndT) as (h2 & -> & HsT2 & O2). cbn [rbind].
  assert (HsF2 : seg h2 m F t) by off. assert (HsA2 : seg h2 NULL A b) by off.
  assert (HsN2 : seg h2 a N t) by off.
  rewrite (getf_first _ _ _ _ _ HsN2 HNb). cbn [rbind].
  (* f->prev = a; l->next = b *)
  destruct (setf_first _ _ _ _ a _ HsF2 HFf HndF) as (h3 & -> & HsF3 & O3). cbn [rbind].
  assert (HsA3 : seg h3 NULL A b) by off. assert (HsN3 : seg h3 a N t) by off.
  assert (HsT3 : seg h3 m T NULL) by off.
  destruct (setf_last _ _ _ _ b _ HsF3 HFl HndF) as (h4 & -> & HsF4 & O4). cbn [rbind].
  assert (HsA4 : seg h4 NULL A b) by off. assert (HsN4 : seg h4 a N t) by off.
  assert (HsT4 : seg h4 m T NULL) by off.
  rewrite (getf_first _ _ _ _ _ HsN4 HNb). cbn [rbind].
  (* a->next = f; b->prev = l *)
  destruct (setf_last _ _ _ _ f _ HsA4 HA HndA) as (h5 & -> & HsA5 & O5). cbn [rbind].
  assert (HsN5 : seg h5 a N t) by off. assert (HsT5 : seg h5 m T NULL) by off.
  assert (HsF5 : seg h5 a F b) by off.
  destruct (setf_first _ _ _ _ l _ HsN5 HNb HndN) as (h6 & -> & HsN6 & O6).
  assert (HsA6 : seg h6 NULL A f) by off. assert (HsT6 : seg h6 m T NULL) by off.
  assert (HsF6 : seg h6 a F b) by off.
  exists h6. split; [done|]. split; [split|].
  - apply (seg_app_some _ _ _ _ _ a f); [done|by destruct (head_cons_inv _ _ HFf) as (? & ->)|].
    split; [done|].
    apply (seg_app_some _ _ _ _ _ l b); [done|by destruct (head_cons_inv _ _ HNb) as (? & ->)|].
    split; [done|]. by apply (seg_app_some _ _ _ _ _ m t).
  - by apply nodup4_swap.
  - rewrite !not_elem_of_app. done.
  - intros y Hy. rewrite !not_elem_of_app in Hy. destruct Hy as (?&?&?&?).
    rewrite (O6 y), (O5 y), (O4 y), (O3 y), (O2 y), (O1 y); [done|..];
      rewrite list_elem_of_singleton; intros ->; contradiction.
Qed.

(** ** Operations on a whole list *)

Definition nodes (l : Z) (xs : list Z) : list Z := head_of l :: xs ++ [tail_of l].

(** The element at the start of [xs], or the tail. *)
Definition hd_or (t : Z) (xs : list Z) : Z := default t (head xs).

Lemma dll_nonnull h l xs : dll h l xs -> (l =? NULL) = false.
Proof.
  intros [_ _ Hn]. apply Z.eqb_neq. intros ->. apply Hn. set_solver.
Qed.

Lemma dll_end h l xs : dll h l xs -> list_end l = Ret (tail_of l).
Proof. intros Hd. unfold list_end. by rewrite (dll_nonnull _ _ _ Hd). Qed.

Lemma dll_begin h l xs : dll h l xs -> list_begin h l = Ret (hd_or (tail_of l) xs).
Proof.
  intros Hd. unfold list_begin. rewrite (dll_nonnull _ _ _ Hd). simpl.
  destruct Hd as [[E _] _ _]. rewrite (getf_lookup _ _ _ _ E). simpl. f_equal.
  by destruct xs.
Qed.

Lemma nodes_app l A B : exists C c D, nodes l (A ++ B) = C ++ c :: hd_or (tail_of l) B :: D /\
  C ++ [c] = head_of l :: A /\ hd_or (tail_of l) B :: D = B ++ [tail_of l].
Proof.
  destruct (last (head_of l :: A)) as [c|] eqn:E; [|by apply last_None in E].
  destruct (last_snoc_inv _ _ E) as (C & HC).
  exists C, c. unfold nodes, hd_or. destruct B as [|b B]; simpl.
  - exists []. rewrite app_nil_r, HC. split; [|done].
    rewrite (app_comm_cons A [tail_of l] (head_of l)), HC. by rewrite <- app_assoc.
  - exists (B ++ [tail_of l]). split; [|done].
    rewrite <- app_assoc, (app_comm_cons A _ (head_of l)), HC. by rewrite <- app_assoc.
Qed.

Lemma dll_next h l A x B : dll h l (A ++ x :: B) -> list_next h x = Ret (hd_or (tail_of l) B).
Proof.
  unfold dll. intros Hd. apply (linked_next h (head_of l :: A) x _ (match B with [] => [] | _ :: B' => B' ++ [tail_of l] end)).
  destruct B as [|b B]; simpl in *; by rewrite <- app_assoc in Hd.
Qed.

Lemma dll_insert h l A B e :
  dll h l (A ++ B) -> e ∉ nodes l (A ++ B) -> e <> NULL -> is_Some (h !! e) ->
  exists h', list_insert h (hd_or (tail_of l) B) e = Ret h' /\ dll h' l (A ++ e :: B) /\
             same_off (e :: nodes l (A ++ B)) h h'.
Proof.
  intros Hd He Hne Hs. destruct (nodes_app l A B) as (C & c & D & E & HC & HD).
  unfold dll in *. fold (nodes l (A ++ B)) in Hd. rewrite E in Hd, He.
  destruct (list_insert_linked _ _ _ _ _ _ Hd He Hne Hs) as (h' & -> & Hd' & Ho).
  exists h'. split; [done|]. split.
  - replace (head_of l :: (A ++ e :: B) ++ [tail_of l])
      with (C ++ c :: e :: hd_or (tail_of l) B :: D); [done|].
    rewrite HD. change (c :: e :: B ++ [tail_of l]) with ([c] ++ e :: B ++ [tail_of l]).
    rewrite app_assoc, HC. simpl. by rewrite <- app_assoc.
  - rewrite E. eapply same_off_weaken; [done|]. clear. set_solver.
Qed.

Lemma dll_remove h l A e B :
  dll h l (A ++ e :: B) ->
  exists h', list_remove h e = Ret (hd_or (tail_of l) B, h') /\ dll h' l (A ++ B) /\
             same_off (nodes l (A ++ B)) h h'.
Proof.
  intros Hd. destruct (nodes_app l A B) as (C & c & D & E & HC & HD).
  unfold dll in *.
  replace (head_of l :: (A ++ e :: B) ++ [tail_of l])
      with (C ++ c :: e :: hd_or (tail_of l) B :: D) in Hd.
  - destruct (list_remove_linked _ _ _ _ _ _ Hd) as (h' & -> & Hd' & Ho).
    exists h'. fold (nodes l (A ++ B)). rewrite E. repeat split; try apply Hd'.
    eapply same_off_weaken; [done|]. clear. set_solver.
  - rewrite HD. change (c :: e :: B ++ [tail_of l]) with ([c] ++ e :: B ++ [tail_of l]).
    rewrite app_assoc, HC. simpl. by rewrite <- app_assoc.
Qed.

Lemma dll_same_off S h h' l xs :
  dll h l xs -> same_off S h h' -> nodes l xs ## S -> dll h' l xs.
Proof. intros [Hs Hnd Hn] Ho Hd. split; [|done..]. by eapply seg_same_off. Qed.

Lemma tail_notin h l xs : dll h l xs -> tail_of l ∉ xs.
Proof. intros [_ Hnd _]. rewrite NoDup_cons, NoDup_app in Hnd. set_solver. Qed.

Lemma hd_or_tail h l A B :
  dll h l (A ++ B) -> (hd_or (tail_of l) B =? tail_of l) = bool_decide (B = []).
Proof.
  intros Hd. pose proof (tail_notin _ _ _ Hd) as Ht. destruct B as [|b B]; simpl.
  - by rewrite Z.eqb_refl.
  - apply Z.eqb_neq. set_solver.
Qed.

Lemma dll_empty h l xs : dll h l xs -> list_empty h l = Ret (bool_decide (xs = [])).
Proof.
  intros Hd. unfold list_empty. rewrite (dll_begin _ _ _ Hd), (dll_end _ _ _ Hd). simpl.
  by rewrite (hd_or_tail h l [] xs Hd).
Qed.

Lemma dll_front h l x xs : dll h l (x :: xs) -> list_front h l = Ret x.
Proof.
  intros Hd. unfold list_front. rewrite (dll_empty _ _ _ Hd). simpl.
  destruct Hd as [[E _] _ _]. by rewrite (getf_lookup _ _ _ _ E).
Qed.

Lemma dll_back h l xs x : dll h l (xs ++ [x]) -> list_back h l = Ret x.
Proof.
  intros Hd. unfold list_back. rewrite (dll_empty _ _ _ Hd).
  rewrite bool_decide_eq_false_2 by (by destruct xs). simpl.
  destruct Hd as [Hs _ _].
  replace (head_of l :: (xs ++ [x]) ++ [tail_of l]) with ((head_of l :: xs ++ [x]) ++ [tail_of l]) in Hs by done.
  apply seg_mid in Hs. rewrite (getf_lookup _ _ _ _ Hs). simpl. f_equal.
  rewrite (app_comm_cons xs [x] (head_of l)), last_snoc. done.
Qed.

Section Traversals.
Context (h : heap) (l : Z).

(** A forward loop from the middle of the list: one rule for [list_size],
    [list_max], [list_min] and the search of [list_insert_ordered]. *)
Lemma list_size_loop fuel : forall B A cnt, dll h l (A ++ B) -> (length B < fuel)%nat -> is_u32 cnt ->
  iter fuel (fun '(e, cnt) =>
    if e =? tail_of l then Ret (inr cnt)
    else let! e' := list_next h e in Ret (inl (e', u32 (cnt + 1)))) (hd_or (tail_of l) B, cnt)
  = Ret (u32 (cnt + Z.of_nat (length B))).
Proof.
  induction fuel as [|fuel IH]; intros B A cnt Hd Hf Hc; [lia|].
  cbn [iter]. rewrite (hd_or_tail _ _ _ _ Hd).
  destruct B as [|b B]; simpl in *.
  - rewrite u32_small by (unfold is_u32 in Hc; lia). f_equal. lia.
  - change (hd_or (tail_of l) (b :: B)) with b. rewrite (dll_next _ _ _ _ _ Hd). simpl.
    rewrite (IH B (A ++ [b])); [|by rewrite <- app_assoc|lia|apply u32_range].
    f_equal. unfold u32. rewrite Z.add_mod_idemp_l by lia. f_equal. lia.
Qed.

Lemma list_extreme_loop (pick : Z -> Z -> Z) fuel : forall B A m, dll h l (A ++ B) -> (length B < fuel)%nat ->
  iter fuel (fun '(e, m) =>
    if e =? tail_of l then Ret (inr m)
    else let m := pick m e in
         let! e' := list_next h e in Ret (inl (e', m))) (hd_or (tail_of l) B, m)
  = Ret (foldl pick m B).
Proof.
  induction fuel as [|fuel IH]; intros B A m Hd Hf; [lia|].
  cbn [iter]. rewrite (hd_or_tail _ _ _ _ Hd).
  destruct B as [|b B]; simpl in *; [done|].
  change (hd_or (tail_of l) (b :: B)) with b. rewrite (dll_next _ _ _ _ _ Hd). simpl.
  rewrite (IH B (A ++ [b])); [done|by rewrite <- app_assoc|lia].
Qed.
End Traversals.

(** [list_reverse]: the loop that swaps the two links of every element. *)
Lemma reverse_loop l fuel : forall B h p, seg h p B (tail_of l) -> NoDup B -> tail_of l ∉ B ->
  (length B < fuel)%nat ->
  exists h', iter fuel (fun '(e, h) =>
    if e =? tail_of l then Ret (inr h)
    else let! h := swap h e Fprev e Fnext in
         let! e' := getf h e Fprev in Ret (inl (e', h))) (hd_or (tail_of l) B, h) = Ret h' /\
    seg h' (tail_of l) (rev B) p /\ same_off B h h'.
Proof.
  induction fuel as [|fuel IH]; intros B h p Hs Hnd Ht Hf; [lia|].
  cbn [iter]. destruct B as [|b B]; simpl in *.
  - unfold hd_or; simpl. rewrite Z.eqb_refl. exists h. auto using same_off_refl.
  - change (hd_or (tail_of l) (b :: B)) with b. rewrite (proj2 (Z.eqb_neq b (tail_of l))) by set_solver.
    destruct Hs as [Hb Hs]. apply NoDup_cons in Hnd as [Hnb Hnd].
    set (q := default (tail_of l) (head B)).
    set (h1 := <[b := Elem q p]> h).
    assert (E : swap h b Fprev b Fnext = Ret h1).
    { unfold swap, getf, setf. rewrite !Hb. simpl. rewrite lookup_insert_eq. simpl.
      by rewrite insert_insert_eq. }
    assert (Hb1 : h1 !! b = Some (Elem q p)) by apply lookup_insert_eq.
    assert (O1 : same_off [b] h h1).
    { intros y Hy. unfold h1. rewrite lookup_insert_ne; set_solver. }
    rewrite E. simpl. rewrite (getf_lookup _ _ _ _ Hb1). simpl.
    change q with (hd_or (tail_of l) B).
    destruct (IH B h1 b) as (h' & -> & Hs' & Ho'); [by eapply seg_off1|done|set_solver|lia|].
    exists h'. split; [done|]. split.
    + rewrite seg_app. simpl. split; [done|]. split; [|done].
      rewrite (Ho' b) by done. rewrite Hb1. f_equal. f_equal.
      unfold q. by destruct B as [|b' B]; simpl; rewrite ?last_snoc.
    + intros y Hy. rewrite (Ho' y), (O1 y) by set_solver. done.
Qed.
