(* ===== verification/KListOps.v ===== *)
(** * list.c implements sequences: whole-list operations and the list interface *)

From S2P Require Import Prelude ListSpec KList KListProof.

(** An element that is allocated and in no list that matters. *)
Definition fresh_elem (h : heap) (l : Z) (xs : list Z) (e : Z) : Prop :=
  e <> NULL /\ is_Some (h !! e) /\ e ∉ nodes l xs.

Lemma list_init_ok h l :
  l <> NULL -> tail_of l <> NULL -> is_Some (h !! head_of l) -> is_Some (h !! tail_of l) ->
  exists h', list_init h l = Ret h' /\ dll h' l [] /\ same_off (nodes l []) h h'.
Proof.
  intros Hl Ht [n1 H1] [n2 H2]. unfold list_init.
  rewrite (proj2 (Z.eqb_neq l NULL) Hl). simpl.
  assert (Hne : head_of l <> tail_of l) by (unfold head_of, tail_of, SIZEOF_LIST_ELEM; lia).
  unfold setf. rewrite H1. simpl. rewrite lookup_insert_eq. simpl.
  rewrite !(lookup_insert_ne _ (head_of l) (tail_of l)) by done. rewrite H2. simpl.
  rewrite lookup_insert_eq. simpl. eexists. split; [done|].
  rewrite !insert_insert_eq. split.
  - split.
    + simpl. rewrite !(lookup_insert_ne _ (tail_of l) (head_of l)) by done.
      by rewrite !lookup_insert_eq.
    + apply NoDup_cons. split; [set_solver|]. apply NoDup_singleton.
    + unfold head_of in *. set_solver.
  - intros y Hy. rewrite !lookup_insert_ne; set_solver.
Qed.

Lemma list_push_front_ok h l xs e :
  dll h l xs -> fresh_elem h l xs e ->
  exists h', list_push_front h l e = Ret h' /\ dll h' l (e :: xs) /\ same_off (e :: nodes l xs) h h'.
Proof.
  intros Hd (Hn & Hs & Hi). unfold list_push_front. rewrite (dll_begin _ _ _ Hd). simpl.
  exact (dll_insert h l [] xs e Hd Hi Hn Hs).
Qed.

Lemma list_push_back_ok h l xs e :
  dll h l xs -> fresh_elem h l xs e ->
  exists h', list_push_back h l e = Ret h' /\ dll h' l (xs ++ [e]) /\ same_off (e :: nodes l xs) h h'.
Proof.
  intros Hd (Hn & Hs & Hi). unfold list_push_back. rewrite (dll_end _ _ _ Hd). simpl.
  pose proof (dll_insert h l xs [] e) as H. rewrite !app_nil_r in H. by apply H.
Qed.

Lemma list_remove_ok h l A e B :
  dll h l (A ++ e :: B) ->
  exists h', list_remove h e = Ret (hd_or (tail_of l) B, h') /\ dll h' l (A ++ B) /\
             same_off (nodes l (A ++ B)) h h'.
Proof. apply dll_remove. Qed.

Lemma list_pop_front_ok h l x xs :
  dll h l (x :: xs) ->
  exists h', list_pop_front h l = Ret (x, h') /\ dll h' l xs /\ same_off (nodes l xs) h h'.
Proof.
  intros Hd. unfold list_pop_front. rewrite (dll_front _ _ _ _ Hd). simpl.
  destruct (dll_remove h l [] x xs Hd) as (h' & -> & Hd' & Ho). simpl. eauto.
Qed.

Lemma list_pop_back_ok h l xs x :
  dll h l (xs ++ [x]) ->
  exists h', list_pop_back h l = Ret (x, h') /\ dll h' l xs /\ same_off (nodes l xs) h h'.
Proof.
  intros Hd. unfold list_pop_back. rewrite (dll_back _ _ _ _ Hd). simpl.
  destruct (dll_remove h l xs x [] Hd) as (h' & -> & Hd' & Ho). simpl.
  rewrite app_nil_r in *. eauto.
Qed.

Lemma list_size_ok fuel h l xs :
  dll h l xs -> (length xs < fuel)%nat -> list_size fuel h l = Ret (u32 (Z.of_nat (length xs))).
Proof.
  intros Hd Hf. unfold list_size. rewrite (dll_begin _ _ _ Hd), (dll_end _ _ _ Hd). simpl.
  rewrite (list_size_loop h l fuel xs [] 0 Hd Hf); [done|unfold is_u32; lia].
Qed.

(** The last two swaps of [list_reverse]: the sentinels change ends, then the
    outermost elements point to the right sentinels. *)
Lemma reverse_sentinels h l R x z :
  seg h (tail_of l) R (head_of l) -> head R = Some z -> last R = Some x -> NoDup R ->
  head_of l ∉ R -> tail_of l ∉ R -> head_of l <> tail_of l ->
  h !! head_of l = Some (Elem NULL x) -> h !! tail_of l = Some (Elem z NULL) ->
  exists h', (let! h := swap h (head_of l) Fnext (tail_of l) Fprev in
              let! a := getf h (head_of l) Fnext in
              let! b := getf h (tail_of l) Fprev in
              swap h a Fprev b Fnext) = Ret h' /\
    seg h' NULL (head_of l :: R ++ [tail_of l]) NULL /\
    same_off (head_of l :: tail_of l :: R) h h'.
Proof.
  intros Hs Hz Hx Hnd Hh Ht Hht Hsh Hst.
  set (h2 := <[tail_of l := Elem x NULL]> (<[head_of l := Elem NULL z]> h)).
  assert (E2 : swap h (head_of l) Fnext (tail_of l) Fprev = Ret h2).
  { unfold swap, getf, setf. rewrite Hsh, Hst. simpl.
    rewrite lookup_insert_ne, Hst by done. done. }
  rewrite E2. cbn [rbind].
  assert (H2h : h2 !! head_of l = Some (Elem NULL z)).
  { unfold h2. rewrite lookup_insert_ne by done. apply lookup_insert_eq. }
  assert (H2t : h2 !! tail_of l = Some (Elem x NULL)) by apply lookup_insert_eq.
  rewrite (getf_lookup _ _ _ _ H2h), (getf_lookup _ _ _ _ H2t). cbn [rbind sel prev next].
  assert (O2 : same_off [head_of l; tail_of l] h h2).
  { intros y Hy. unfold h2. rewrite !lookup_insert_ne; set_solver. }
  assert (Hs2 : seg h2 (tail_of l) R (head_of l)) by (eapply seg_same_off; [done..|set_solver]).
  unfold swap. rewrite (getf_first _ _ _ _ _ Hs2 Hz), (getf_last _ _ _ _ _ Hs2 Hx). cbn [rbind].
  destruct (setf_first _ _ _ _ (head_of l) _ Hs2 Hz Hnd) as (h3 & -> & Hs3 & O3). cbn [rbind].
  destruct (setf_last _ _ _ _ (tail_of l) _ Hs3 Hx Hnd) as (h4 & -> & Hs4 & O4).
  assert (O24 : same_off R h2 h4).
  { intros y Hy. rewrite (O4 y), (O3 y); [done|rewrite list_elem_of_singleton; intros ->..];
      apply Hy; first [by apply last_in|by apply head_in]. }
  exists h4. split; [done|]. split.
  - change (head_of l :: R ++ [tail_of l]) with ([head_of l] ++ R ++ [tail_of l]).
    rewrite (seg_app_some _ _ [head_of l] _ _ (head_of l) z)
      by (done || by destruct (head_cons_inv _ _ Hz) as (? & ->)).
    rewrite (seg_app_some _ _ R _ _ x (tail_of l)) by done.
    simpl. by rewrite (O24 _ Hh), (O24 _ Ht), H2h, H2t.
  - intros y Hy. rewrite (O24 y), (O2 y) by set_solver. done.
Qed.

Lemma elem_of_rev (y : Z) xs : y ∈ rev xs <-> y ∈ xs.
Proof. rewrite !list_elem_of_In. symmetry. apply in_rev. Qed.

Lemma dll_parts h l xs : dll h l xs ->
  seg h (head_of l) xs (tail_of l) /\ NoDup xs /\ (head_of l ∉ xs) /\ (tail_of l ∉ xs) /\
  head_of l <> tail_of l /\
  h !! head_of l = Some (Elem NULL (hd_or (tail_of l) xs)) /\
  h !! tail_of l = Some (Elem (default (head_of l) (last xs)) NULL).
Proof.
  intros [Hs Hnd _].
  change (head_of l :: xs ++ [tail_of l]) with ([head_of l] ++ xs ++ [tail_of l]) in Hs, Hnd.
  rewrite !NoDup_app in Hnd. rewrite seg_app in Hs. destruct Hs as [[Hh _] Hs].
  rewrite seg_app in Hs. destruct Hs as [Hx [Ht _]]. simpl in Hh, Ht.
  replace (default NULL (head (xs ++ [tail_of l]))) with (hd_or (tail_of l) xs) in Hh by by destruct xs.
  repeat split; auto; set_solver.
Qed.

Lemma list_reverse_ok fuel h l xs :
  dll h l xs -> (length xs < fuel)%nat ->
  exists h', list_reverse fuel h l = Ret h' /\ dll h' l (rev xs) /\ same_off (nodes l xs) h h'.
Proof.
  intros Hd Hf. unfold list_reverse. rewrite (dll_empty _ _ _ Hd). cbn [rbind].
  destruct xs as [|x xs]; [exists h; auto using same_off_refl|].
  rewrite bool_decide_eq_false_2 by done.
  rewrite (dll_begin _ _ _ Hd), (dll_end _ _ _ Hd). cbn [rbind].
  destruct (dll_parts _ _ _ Hd) as (Hs & Hnd & Hh & Ht & Hht & Hsh & Hst).
  destruct (reverse_loop l fuel (x :: xs) h (head_of l) Hs Hnd Ht Hf) as (h1 & -> & Hs1 & O1).
  cbn [rbind].
  destruct (last (x :: xs)) as [z|] eqn:Hz; [|by apply last_None in Hz]. simpl in Hst.
  destruct (reverse_sentinels h1 l (rev (x :: xs)) x z) as (h2 & -> & Hs2 & O2).
  - done.
  - destruct (last_snoc_inv _ _ Hz) as (ys & ->). by rewrite rev_app_distr.
  - simpl. by rewrite last_snoc.
  - rewrite NoDup_ListNoDup in Hnd |- *. by apply NoDup_rev.
  - by rewrite elem_of_rev.
  - by rewrite elem_of_rev.
  - done.
  - by rewrite (O1 _ Hh).
  - by rewrite (O1 _ Ht).
  - exists h2. split; [done|].
    assert (Hperm : nodes l (rev (x :: xs)) ≡ₚ nodes l (x :: xs)).
    { unfold nodes. by rewrite <- Permutation_rev. }
    split; [split; [exact Hs2| |]|].
    + fold (nodes l (rev (x :: xs))). rewrite Hperm. apply Hd.
    + fold (nodes l (rev (x :: xs))). rewrite Hperm. apply Hd.
    + intros y Hy. unfold nodes in Hy. rewrite (O2 y), (O1 y); [done|set_solver|].
      rewrite !elem_of_cons, elem_of_rev. set_solver.
Qed.

Section Ordered.
Context (less : list_less_func).

Lemma insert_ordered_loop h l elem fuel : forall B A, dll h l (A ++ B) -> (length B < fuel)%nat ->
  exists B1 B2, B = B1 ++ B2 /\ insert_ordered less elem B = B1 ++ elem :: B2 /\
  iter fuel (fun e =>
    if e =? tail_of l then Ret (inr e)
    else if less elem e then Ret (inr e)
    else let! e' := list_next h e in Ret (inl e')) (hd_or (tail_of l) B)
  = Ret (hd_or (tail_of l) B2).
Proof.
  induction fuel as [|fuel IH]; intros B A Hd Hf; [lia|]. cbn [iter].
  rewrite (hd_or_tail _ _ _ _ Hd). destruct B as [|b B]; simpl in *.
  - exists [], []. done.
  - change (hd_or (tail_of l) (b :: B)) with b. destruct (less elem b) eqn:E.
    + exists [], (b :: B). done.
    + rewrite (dll_next _ _ _ _ _ Hd). simpl.
      destruct (IH B (A ++ [b])) as (B1 & B2 & -> & -> & ->); [by rewrite <- app_assoc|lia|].
      exists (b :: B1), B2. done.
Qed.

Lemma list_insert_ordered_ok fuel h l xs e :
  dll h l xs -> fresh_elem h l xs e -> (length xs < fuel)%nat ->
  exists h', list_insert_ordered less fuel h l e = Ret h' /\
    dll h' l (insert_ordered less e xs) /\ same_off (e :: nodes l xs) h h'.
Proof.
  intros Hd (Hn & Hs & Hi) Hf. unfold list_insert_ordered.
  rewrite (dll_nonnull _ _ _ Hd), (proj2 (Z.eqb_neq e NULL) Hn).
  rewrite (dll_begin _ _ _ Hd), (dll_end _ _ _ Hd). cbn [rbind assert_ negb].
  destruct (insert_ordered_loop h l e fuel xs [] Hd Hf) as (B1 & B2 & -> & -> & ->). cbn [rbind].
  by apply dll_insert.
Qed.

Lemma list_max_ok fuel h l x xs :
  dll h l (x :: xs) -> (length xs < fuel)%nat ->
  list_max less fuel h l = Ret (max_from less x xs).
Proof.
  intros Hd Hf. unfold list_max. rewrite (dll_begin _ _ _ Hd), (dll_end _ _ _ Hd). cbn [rbind].
  rewrite (hd_or_tail h l [] (x :: xs) Hd). simpl bool_decide. cbv iota.
  change (hd_or (tail_of l) (x :: xs)) with x. rewrite (dll_next h l [] x xs Hd). cbn [rbind].
  by apply (list_extreme_loop h l (fun m e => if less m e then e else m) fuel xs [x]).
Qed.

Lemma list_min_ok fuel h l x xs :
  dll h l (x :: xs) -> (length xs < fuel)%nat ->
  list_min less fuel h l = Ret (min_from less x xs).
Proof.
  intros Hd Hf. unfold list_min. rewrite (dll_begin _ _ _ Hd), (dll_end _ _ _ Hd). cbn [rbind].
  rewrite (hd_or_tail h l [] (x :: xs) Hd). simpl bool_decide. cbv iota.
  change (hd_or (tail_of l) (x :: xs)) with x. rewrite (dll_next h l [] x xs Hd). cbn [rbind].
  by apply (list_extreme_loop h l (fun m e => if less e m then e else m) fuel xs [x]).
Qed.

(** What [list_unique] leaves: the kept elements in the list, the dropped ones
    appended to [duplicates]. *)
Definition unique_post (h' : heap) (l : Z) (dup : option (Z * list Z)) (kept dropped : list Z) : Prop :=
  dll h' l kept /\
  match dup with Some (d, ds) => dll h' d (ds ++ dropped) | None => True end.

Definition dup_ok (h : heap) (l : Z) (xs : list Z) (dup : option (Z * list Z)) : Prop :=
  match dup with
  | Some (d, ds) => dll h d ds /\ nodes l xs ## nodes d ds
  | None => True
  end.

Lemma unique_step h l A x y B dup :
  dll h l (A ++ x :: y :: B) -> dup_ok h l (A ++ x :: y :: B) dup ->
  exists h', (let! '(_, h) := list_remove h y in
              match fst <$> dup with
              | Some d => let! h := list_push_back h d y in Ret h
              | None => Ret h
              end) = Ret h' /\
    dll h' l (A ++ x :: B) /\ dup_ok h' l (A ++ x :: B) (prod_map id (fun ds => ds ++ [y]) <$> dup).
Proof.
  intros Hd Hdup. replace (A ++ x :: y :: B) with ((A ++ [x]) ++ y :: B) in Hd by by rewrite <- app_assoc.
  destruct (dll_remove h l (A ++ [x]) y B Hd) as (h1 & -> & Hd1 & O1). cbn [rbind].
  replace ((A ++ [x]) ++ B) with (A ++ x :: B) in * by by rewrite <- app_assoc.
  destruct dup as [[d ds]|]; cbn [fmap option_fmap option_map fst]; [|exists h1; done].
  destruct Hdup as [Hdd Hdis].
  assert (Hy : y ∈ nodes l (A ++ x :: y :: B)) by (unfold nodes; set_solver).
  assert (Hsub : forall z, z ∈ nodes l (A ++ x :: B) -> z ∈ nodes l (A ++ x :: y :: B)).
  { intros z. unfold nodes. set_solver. }
  assert (Hyn : y ∉ nodes l (A ++ x :: B)).
  { destruct Hd as [_ Hnd _]. unfold nodes.
    rewrite <- app_assoc, <- app_assoc in Hnd. simpl in Hnd.
    rewrite <- app_assoc. simpl. rewrite NoDup_cons, NoDup_app, !NoDup_cons in Hnd. set_solver. }
  assert (Hdd1 : dll h1 d ds).
  { eapply dll_same_off; [exact Hdd|exact O1|]. intros z Hz1 Hz2. exact (Hdis z (Hsub z Hz2) Hz1). }
  destruct (list_push_back_ok h1 d ds y) as (h2 & -> & Hd2 & O2); [done| |].
  - split; [|split].
    + destruct Hd as [_ _ Hnull]. intros ->. apply Hnull. set_solver.
    + rewrite (O1 y Hyn). destruct Hd as [Hs _ _].
      replace (head_of l :: ((A ++ [x]) ++ y :: B) ++ [tail_of l])
        with ((head_of l :: A ++ [x]) ++ y :: B ++ [tail_of l]) in Hs
        by (simpl; by rewrite <- !app_assoc).
      apply seg_mid in Hs. eauto.
    + intros Hz. exact (Hdis y Hy Hz).
  - cbn [rbind]. exists h2. split; [done|].
    assert (Hz : forall z, z ∈ nodes l (A ++ x :: B) -> z ∉ y :: nodes d ds).
    { intros z Hz. rewrite elem_of_cons. intros [->|Hz']; [done|]. exact (Hdis z (Hsub z Hz) Hz'). }
    split; [eapply dll_same_off; [exact Hd1|exact O2|exact Hz]|].
    simpl. split; [done|]. intros z Hz1 Hz2. apply (Hz z Hz1). clear -Hz2.
    unfold nodes in *. set_solver.
Qed.

Lemma unique_loop l fuel : forall B A x h dup,
  dll h l (A ++ x :: B) -> dup_ok h l (A ++ x :: B) dup -> (length B < fuel)%nat ->
  exists h', iter fuel (fun '(elem, h) =>
    let! next := list_next h elem in
    if next =? tail_of l then Ret (inr h)
    else if negb (less elem next) && negb (less next elem) then
      let! '(_, h) := list_remove h next in
      match fst <$> dup with
      | Some d => let! h := list_push_back h d next in Ret (inl (elem, h))
      | None => Ret (inl (elem, h))
      end
    else Ret (inl (next, h))) (x, h) = Ret h' /\
    unique_post h' l dup (A ++ fst (unique_from less x B)) (snd (unique_from less x B)).
Proof.
  induction fuel as [|fuel IH]; intros B A x h dup Hd Hdup Hf; [lia|]. cbn [iter].
  rewrite (dll_next _ _ _ _ _ Hd). cbn [rbind].
  replace (A ++ x :: B) with ((A ++ [x]) ++ B) in Hd by by rewrite <- app_assoc.
  rewrite (hd_or_tail _ _ _ _ Hd). destruct B as [|y B]; simpl in *.
  - exists h. split; [done|]. split; simpl; [by rewrite app_nil_r in Hd|].
    destruct dup as [[d ds]|]; [|done]. rewrite app_nil_r. apply Hdup.
  - change (hd_or (tail_of l) (y :: B)) with y.
    destruct (negb (less x y) && negb (less y x)) eqn:E; cbn [rbind].
    + rewrite <- app_assoc in Hd. simpl in Hd.
      destruct (unique_step h l A x y B dup Hd Hdup) as (h1 & E1 & Hd1 & Hdup1).
      destruct (IH B A x h1 _ Hd1 Hdup1) as (h2 & E2 & Hp); [lia|].
      exists h2. split.
      * destruct (list_remove h y) as [[n h0]| | |]; [|done..]. cbn [rbind] in E1 |- *.
        destruct dup as [[d ds]|]; cbn [fmap option_fmap option_map fst prod_map id] in *.
        -- destruct (list_push_back h0 d y); [|done..]. cbn [rbind] in E1 |- *. by simplify_eq.
        -- by simplify_eq.
      * destruct (unique_from less x B) as [k ds'] eqn:Eu. simpl in *.
        destruct Hp as [Hp1 Hp2]. split; [done|].
        destruct dup as [[d ds]|]; simpl in *; [|done]. by rewrite <- app_assoc in Hp2.
    + destruct (IH B (A ++ [x]) y h dup) as (h2 & -> & Hp); [done|by rewrite <- app_assoc|lia|].
      exists h2. split; [done|]. destruct (unique_from less y B) as [k ds'] eqn:Eu.
      simpl in *. by rewrite <- app_assoc in Hp.
Qed.

Lemma list_unique_ok fuel h l xs dup :
  dll h l xs -> dup_ok h l xs dup -> (length xs <= fuel)%nat ->
  exists h', list_unique less fuel h l (fst <$> dup) = Ret h' /\
             unique_post h' l dup (fst (unique less xs)) (snd (unique less xs)).
Proof.
  intros Hd Hdup Hf. unfold list_unique. rewrite (dll_nonnull _ _ _ Hd), (dll_empty _ _ _ Hd).
  cbn [rbind assert_ negb]. destruct xs as [|x xs].
  - exists h. split; [done|]. split; [done|]. destruct dup as [[d ds]|]; [|done].
    simpl. rewrite app_nil_r. apply Hdup.
  - rewrite bool_decide_eq_false_2 by done.
    rewrite (dll_begin _ _ _ Hd), (dll_end _ _ _ Hd). cbn [rbind].
    by apply (unique_loop l fuel xs [] x h dup).
Qed.
End Ordered.

(** ** Elements that were removed

    [list_remove] does not write the links of the element it removes.  Until the element is
    inserted again [list_next] of it still gives the element after it, and a second
    [list_remove] writes the links that are there; list.c calls both undefined. *)

Lemma removed_links h l A e B n h' : dll h l (A ++ e :: B) -> list_remove h e = Ret (n, h') -> h' !! e = h !! e.
Proof.
  intros Hd Hr. destruct (dll_remove h l A e B Hd) as (h1 & E & _ & Ho). rewrite Hr in E. injection E as _ ->. apply Ho.
  destruct Hd as [_ Hnd _]. unfold nodes. rewrite <- app_assoc in Hnd. simpl in Hnd.
  rewrite NoDup_cons, NoDup_app, NoDup_cons in Hnd. set_solver.
Qed.

Lemma next_of_removed h l A e B n h' : dll h l (A ++ e :: B) -> list_remove h e = Ret (n, h') ->
  list_next h' e = Ret (hd_or (tail_of l) B).
Proof.
  intros Hd Hr. rewrite <- (dll_next _ _ _ _ _ Hd). pose proof (removed_links _ _ _ _ _ _ _ Hd Hr) as Hk.
  unfold list_next, is_head, is_interior, getf. by rewrite Hk.
Qed.

Lemma remove_twice h l A e B n h' : dll h l (A ++ e :: B) -> list_remove h e = Ret (n, h') -> list_remove h' e = Ret (n, h').
Proof.
  intros Hd Hr. pose proof (removed_links _ _ _ _ _ _ _ Hd Hr) as Hk.
  destruct (dll_remove h l A e B Hd) as (h1 & E & Hd' & _). rewrite Hr in E. injection E as -> <-.
  destruct (nodes_app l A B) as (C & c & D & En & HC & HD). unfold dll in Hd'. fold (nodes l (A ++ B)) in Hd'. rewrite En in Hd'.
  unfold dll in Hd. replace (head_of l :: (A ++ e :: B) ++ [tail_of l]) with (C ++ c :: e :: hd_or (tail_of l) B :: D) in Hd.
  2:{ rewrite HD. change (c :: e :: B ++ [tail_of l]) with ([c] ++ e :: B ++ [tail_of l]). rewrite app_assoc, HC. simpl. by rewrite <- app_assoc. }
  set (b := hd_or (tail_of l) B) in *. destruct (linked_pair _ _ _ _ _ Hd') as (Hc & Hb & Nc & Nb).
  replace (C ++ c :: e :: b :: D) with ((C ++ [c]) ++ e :: b :: D) in Hd by by rewrite <- app_assoc.
  destruct (linked_mid _ _ _ _ Hd) as [He Ne]. rewrite last_snoc in He. simpl in He, Hb. rewrite He in Hk.
  unfold list_remove, is_interior. ptr_simpl. cbn [negb andb assert_ rbind].
  unfold setf. rewrite Hc. cbn [of_opt rbind upd prev]. rewrite (insert_id h') by done. ptr_simpl.
  rewrite Hb. cbn [of_opt rbind upd next]. rewrite (insert_id h') by done. by ptr_simpl.
Qed.

(** A loop over a list, whose body may remove the element it is given. *)
Section Walk.
Context {St : Type} (body : Z -> heap -> St -> res (heap * St)) (work : Z -> St -> res (bool * St)).

Definition walk (fuel : nat) (l e : Z) (h : heap) (s : St) : res (heap * St) :=
  iter fuel (fun '(e, h, s) =>
    let! t := list_end l in
    if e =? t then Ret (inr (h, s))
    else
      let! '(h, s) := body e h s in
      let! e := list_next h e in
      Ret (inl (e, h, s))) (e, h, s).

(** The same on the sequence of the elements: what the loop does to the state, and the
    elements that stay. *)
Fixpoint visit (xs : list Z) (s : St) : res (list Z * St) :=
  match xs with
  | [] => Ret ([], s)
  | x :: xs =>
      let! '(rm, s) := work x s in
      let! '(ys, s) := visit xs s in
      Ret ((if (rm : bool) then ys else x :: ys), s)
  end.

(** Both return, or fail in the same way. *)
Definition same_end {A B} (R : A -> B -> Prop) (m : res A) (m' : res B) : Prop :=
  match m, m' with
  | Ret a, Ret b => R a b
  | Panic, Panic | Ub, Ub | NoFuel, NoFuel => True
  | _, _ => False
  end.

Definition walk_step (e : Z) (h : heap) (s : St) : res (heap * St) :=
  let! '(rm, s) := work e s in
  if (rm : bool) then let! '(_, h) := list_remove h e in Ret (h, s) else Ret (h, s).

Lemma walk_visit l (Hbody : forall h A e B s, dll h l (A ++ e :: B) -> body e h s = walk_step e h s) :
  forall B A h s fuel, dll h l (A ++ B) -> (length B < fuel)%nat ->
  same_end (fun '(h', s') '(ys, s'') => dll h' l (A ++ ys) /\ s' = s'') (walk fuel l (hd_or (tail_of l) B) h s) (visit B s).
Proof.
  induction B as [|e B IH]; intros A h s [|fuel] Hd Hf; simpl in Hf; try lia; unfold walk; cbn [iter visit];
    rewrite (dll_end _ _ _ Hd); cbn [rbind]; rewrite (hd_or_tail _ _ _ _ Hd).
  - rewrite bool_decide_eq_true_2 by done. done.
  - rewrite bool_decide_eq_false_2 by done. change (hd_or (tail_of l) (e :: B)) with e.
    rewrite (Hbody _ _ _ _ _ Hd). unfold walk_step. destruct (work e s) as [[[|] s1]| | |]; cbn [rbind]; try done.
    + destruct (list_remove_ok h l A e B Hd) as (h1 & Er & Hd1 & _). rewrite Er. cbn [rbind].
      rewrite (next_of_removed _ _ _ _ _ _ _ Hd Er). cbn [rbind]. specialize (IH A h1 s1 fuel Hd1 ltac:(lia)). unfold walk in IH.
      rewrite (dll_end _ _ _ Hd) in IH. cbn [rbind] in IH.
      destruct (visit B s1) as [[ys s2]| | |]; exact IH.
    + rewrite (dll_next _ _ _ _ _ Hd). cbn [rbind]. specialize (IH (A ++ [e]) h s1 fuel ltac:(by rewrite <- app_assoc) ltac:(lia)). unfold walk in IH.
      rewrite (dll_end _ _ _ Hd) in IH. cbn [rbind] in IH.
      destruct (visit B s1) as [[ys s2]| | |]; cbn [rbind]; try exact IH. unfold same_end in *. case_match; [|done..]. case_match.
      by rewrite <- app_assoc in IH.
Qed.

(** The loop [for (e = list_begin (l); e != list_end (l); e = list_next (e))], also when
    [list_next] is called on the elements it removed. *)
Lemma walk_list l h xs s fuel : (forall h A e B s, dll h l (A ++ e :: B) -> body e h s = walk_step e h s) ->
  dll h l xs -> (length xs < fuel)%nat ->
  same_end (fun '(h', s') '(ys, s'') => dll h' l ys /\ s' = s'') (let! e := list_begin h l in walk fuel l e h s) (visit xs s).
Proof. intros Hb Hd Hf. rewrite (dll_begin _ _ _ Hd). cbn [rbind]. by apply (walk_visit l Hb xs [] h s fuel). Qed.
End Walk.
