(* ===== verification/KListSort.v ===== *)
(** * list_sort: the in-place natural merge sort computes the stable sort *)

From S2P Require Import Prelude ListSpec KList KListProof KListOps.

Section Sort.
Context (less : list_less_func).

(** ** Ranges

    A range [R] of a chain [P ++ R ++ b :: Q] starts at [hd_or b R] and ends
    (exclusively) at [b]; [P] is not empty because it holds the list head. *)

Lemma range_next h P x R b Q :
  linked h (P ++ (x :: R) ++ b :: Q) -> list_next h x = Ret (hd_or b R).
Proof.
  intros Hl. destruct R as [|y R]; simpl in Hl; by eapply linked_next.
Qed.

Lemma range_end h P R b Q :
  linked h (P ++ R ++ b :: Q) -> (hd_or b R =? b) = bool_decide (R = []).
Proof.
  intros [_ Hnd _]. destruct R as [|x R]; simpl.
  - by rewrite Z.eqb_refl.
  - apply Z.eqb_neq. rewrite NoDup_app in Hnd. destruct Hnd as (_ & _ & Hnd). simpl in Hnd.
    rewrite NoDup_cons in Hnd. set_solver.
Qed.

Lemma shift_range (P R S : list Z) x : P ++ (x :: R) ++ S = (P ++ [x]) ++ R ++ S.
Proof. by rewrite <- app_assoc. Qed.

Lemma is_sorted_loop h b Q fuel : forall R P x, linked h (P ++ (x :: R) ++ b :: Q) ->
  (length R < fuel)%nat ->
  iter fuel (fun a =>
    let! a := list_next h a in
    if a =? b then Ret (inr true) else
    let! p := list_prev h a in
    if less a p then Ret (inr false) else Ret (inl a)) x
  = Ret (bool_decide (descents less x R = 0%nat)).
Proof.
  induction fuel as [|fuel IH]; intros R P x Hl Hf; [lia|]. cbn [iter].
  rewrite (range_next _ _ _ _ _ _ Hl). cbn [rbind].
  rewrite shift_range in Hl. rewrite (range_end _ _ _ _ _ Hl).
  destruct R as [|y R]; [done|]. rewrite bool_decide_eq_false_2 by done.
  change (hd_or b (y :: R)) with y. simpl in Hf.
  assert (list_prev h y = Ret x) as ->.
  { rewrite <- app_assoc in Hl. simpl in Hl. by eapply linked_prev. }
  cbn [rbind descents]. destruct (less y x); [done|]. cbn [rbind].
  rewrite (IH R (P ++ [x]) y Hl) by lia. done.
Qed.

Lemma is_sorted_ok fuel h P R b Q :
  linked h (P ++ R ++ b :: Q) -> (length R <= fuel)%nat ->
  is_sorted less fuel h (hd_or b R) b = Ret (bool_decide (runs less R <= 1)%nat).
Proof.
  intros Hl Hf. unfold is_sorted. rewrite (range_end _ _ _ _ _ Hl).
  destruct R as [|x R]; [done|]. rewrite bool_decide_eq_false_2 by done.
  change (hd_or b (x :: R)) with x. simpl in Hf.
  rewrite (is_sorted_loop h b Q fuel R P x Hl) by lia. f_equal.
  simpl. apply bool_decide_ext. lia.
Qed.

Lemma find_end_loop h b Q fuel : forall R P x, linked h (P ++ (x :: R) ++ b :: Q) ->
  (length R < fuel)%nat ->
  iter fuel (fun a =>
    let! a := list_next h a in
    if a =? b then Ret (inr a) else
    let! p := list_prev h a in
    if negb (less a p) then Ret (inl a) else Ret (inr a)) x
  = Ret (hd_or b (snd (split_run less x R))).
Proof.
  induction fuel as [|fuel IH]; intros R P x Hl Hf; [lia|]. cbn [iter].
  rewrite (range_next _ _ _ _ _ _ Hl). cbn [rbind].
  rewrite shift_range in Hl. rewrite (range_end _ _ _ _ _ Hl).
  destruct R as [|y R]; [done|]. rewrite bool_decide_eq_false_2 by done.
  change (hd_or b (y :: R)) with y. simpl in Hf.
  assert (list_prev h y = Ret x) as ->.
  { rewrite <- app_assoc in Hl. simpl in Hl. by eapply linked_prev. }
  cbn [rbind split_run]. destruct (less y x); [done|]. cbn [rbind negb].
  rewrite (IH R (P ++ [x]) y Hl) by lia. by destruct (split_run less y R).
Qed.

Lemma range_nonnull h P R b Q :
  linked h (P ++ R ++ b :: Q) -> (hd_or b R =? NULL) = false /\ (b =? NULL) = false.
Proof.
  intros [_ _ Hn]. rewrite !not_elem_of_app in Hn. destruct Hn as (_ & HR & Hb).
  split; apply Z.eqb_neq; [|set_solver]. destruct R; set_solver.
Qed.

Lemma find_end_of_run_ok fuel h P x R b Q :
  linked h (P ++ (x :: R) ++ b :: Q) -> (length R < fuel)%nat ->
  find_end_of_run less fuel h x b = Ret (hd_or b (snd (split_run less x R))).
Proof.
  intros Hl Hf. unfold find_end_of_run.
  destruct (range_nonnull _ _ _ _ _ Hl) as [Hx Hb].
  pose proof (range_end _ _ _ _ _ Hl) as He. change (hd_or b (x :: R)) with x in Hx, He.
  rewrite Hx, Hb, He. rewrite bool_decide_eq_false_2 by done. cbn [rbind assert_ negb].
  by eapply find_end_loop.
Qed.

(** ** Merging two adjacent ranges in place *)
Lemma merge_loop b1 Q fuel : forall A B P h,
  linked h (P ++ A ++ B ++ b1 :: Q) -> P <> [] -> (length A + length B < fuel)%nat ->
  exists h', iter fuel (fun '(a0, a1b0, h) =>
    if negb (a0 =? a1b0) && negb (a1b0 =? b1) then
      if negb (less a1b0 a0) then
        let! a0 := list_next h a0 in Ret (inl (a0, a1b0, h))
      else
        let! a1b0 := list_next h a1b0 in
        let! p := list_prev h a1b0 in
        let! h := list_splice h a0 p a1b0 in
        Ret (inl (a0, a1b0, h))
    else Ret (inr h)) (hd_or (hd_or b1 B) A, hd_or b1 B, h) = Ret h' /\
    linked h' (P ++ merge less A B ++ b1 :: Q) /\ same_off (P ++ A ++ B ++ b1 :: Q) h h'.
Proof.
  induction fuel as [|fuel IH]; intros A B P h Hl HP Hf; [lia|]. cbn [iter].
  assert (HB : (hd_or b1 B =? b1) = bool_decide (B = [])).
  { rewrite app_assoc in Hl. exact (range_end _ _ _ _ _ Hl). }
  assert (HA : (hd_or (hd_or b1 B) A =? hd_or b1 B) = bool_decide (A = [])).
  { destruct B as [|b B]; simpl in Hl; exact (range_end _ _ _ _ _ Hl). }
  rewrite HA, HB. destruct A as [|a A].
  { exists h. auto using same_off_refl. }
  destruct B as [|b B].
  { exists h. simpl in *. auto using same_off_refl. }
  rewrite !bool_decide_eq_false_2 by done. cbn [negb andb].
  change (hd_or (hd_or b1 (b :: B)) (a :: A)) with a. change (hd_or b1 (b :: B)) with b.
  rewrite merge_cons. destruct (less b a) eqn:E; cbn [negb].
  - assert (list_next h b = Ret (hd_or b1 B)) as ->.
    { apply (range_next h (P ++ a :: A) b B b1 Q). by rewrite <- app_assoc. }
    cbn [rbind].
    assert (list_prev h (hd_or b1 B) = Ret b) as ->.
    { destruct B as [|b2 B];
        [apply (linked_prev h (P ++ a :: A) b b1 Q)|apply (linked_prev h (P ++ a :: A) b b2 (B ++ b1 :: Q))];
        by rewrite <- app_assoc. }
    cbn [rbind].
    destruct (last P) as [p|] eqn:HPl; [|by apply last_None in HPl].
    destruct (last (a :: A)) as [m|] eqn:HAl; [|by apply last_None in HAl].
    destruct (list_splice_left h P (a :: A) [b] (B ++ b1 :: Q) p a m b b (hd_or b1 B))
      as (h1 & -> & Hl1 & O1); [done..|by destruct B|]. cbn [rbind].
    replace (P ++ [b] ++ (a :: A) ++ B ++ b1 :: Q) with ((P ++ [b]) ++ (a :: A) ++ B ++ b1 :: Q)
      in Hl1 by by rewrite <- app_assoc.
    destruct (IH (a :: A) B (P ++ [b]) h1 Hl1) as (h' & E' & Hl' & O'); [by destruct P|simpl in *; lia|].
    exists h'. split; [exact E'|]. split; [by rewrite <- app_assoc in Hl'|].
    eapply same_off_trans; [exact O1|]. eapply same_off_weaken; [exact O'|]. clear. set_solver.
  - rewrite (range_next h P a A b (B ++ b1 :: Q) Hl). cbn [rbind].
    rewrite shift_range in Hl.
    destruct (IH A (b :: B) (P ++ [a]) h Hl) as (h' & E' & Hl' & O'); [by destruct P|simpl in *; lia|].
    exists h'. split; [exact E'|]. split; rewrite shift_range; [exact Hl'|exact O'].
Qed.

Lemma inplace_merge_ok fuel h P A B b1 Q :
  linked h (P ++ A ++ B ++ b1 :: Q) -> P <> [] -> (length A + length B < fuel)%nat ->
  (runs less A <= 1)%nat -> (runs less B <= 1)%nat ->
  exists h', inplace_merge less fuel h (hd_or (hd_or b1 B) A) (hd_or b1 B) b1 = Ret h' /\
    linked h' (P ++ merge less A B ++ b1 :: Q) /\ same_off (P ++ A ++ B ++ b1 :: Q) h h'.
Proof.
  intros Hl HP Hf HA HB. unfold inplace_merge.
  assert (HlB : linked h ((P ++ A) ++ B ++ b1 :: Q)) by by rewrite <- app_assoc.
  assert (HlA : exists Q', B ++ b1 :: Q = hd_or b1 B :: Q') by (destruct B; simpl; eauto).
  destruct HlA as (Q' & EQ). assert (HlA := Hl). rewrite EQ in HlA.
  destruct (range_nonnull _ _ _ _ _ HlA) as [-> _].
  destruct (range_nonnull _ _ _ _ _ HlB) as [-> ->].
  rewrite (is_sorted_ok _ _ _ _ _ _ HlA) by lia. rewrite (is_sorted_ok _ _ _ _ _ _ HlB) by lia.
  rewrite !bool_decide_eq_true_2 by done. cbn [rbind assert_ negb].
  by apply merge_loop.
Qed.

Lemma nodes_range l D X : nodes l (D ++ X) = (head_of l :: D) ++ X ++ tail_of l :: [].
Proof. unfold nodes. simpl. by rewrite <- app_assoc. Qed.

Lemma dll_range h l D X : dll h l (D ++ X) <-> linked h ((head_of l :: D) ++ X ++ tail_of l :: []).
Proof. unfold dll. fold (nodes l (D ++ X)). by rewrite nodes_range. Qed.

(** ** One pass *)
Lemma sort_pass_loop l F k : forall X D c h,
  dll h l (D ++ X) -> (length X < k)%nat -> (length X < F)%nat ->
  is_u32 c -> c + Z.of_nat (length X) < 2 ^ 32 ->
  exists h', iter k (fun '(a0, output_run_cnt, h) =>
    if a0 =? tail_of l then Ret (inr (output_run_cnt, h)) else
    let output_run_cnt := u32 (output_run_cnt + 1) in
    let! a1b0 := find_end_of_run less F h a0 (tail_of l) in
    if a1b0 =? tail_of l then Ret (inr (output_run_cnt, h)) else
    let! b1 := find_end_of_run less F h a1b0 (tail_of l) in
    let! h := inplace_merge less F h a0 a1b0 b1 in
    Ret (inl (b1, output_run_cnt, h))) (hd_or (tail_of l) X, c, h)
   = Ret (c + Z.of_nat (snd (merge_pass less k X)), h') /\
   dll h' l (D ++ fst (merge_pass less k X)) /\ same_off (nodes l (D ++ X)) h h'.
Proof.
  induction k as [|k IH]; intros X D c h Hd Hk HF Hc Hb; [lia|]. cbn [iter].
  rewrite dll_range in Hd.
  rewrite (range_end _ _ _ _ _ Hd). destruct X as [|x X]; simpl in Hk, HF, Hb.
  { exists h. rewrite Z.add_0_r. split; [done|]. split; [|apply same_off_refl].
    by apply dll_range. }
  rewrite bool_decide_eq_false_2 by done. change (hd_or (tail_of l) (x :: X)) with x.
  unfold is_u32 in Hc. rewrite (u32_small (c + 1)) by lia. cbv zeta.
  rewrite (find_end_of_run_ok F h _ x X _ _ Hd) by lia. cbn [rbind merge_pass].
  destruct (split_run less x X) as [r1 rest1] eqn:E1. cbn [snd].
  pose proof (split_run_app _ _ _ _ _ E1) as Happ1. rewrite <- Happ1, <- app_assoc in Hd.
  assert (Hd1 := Hd). rewrite app_assoc in Hd1. rewrite (range_end _ _ _ _ _ Hd1).
  destruct rest1 as [|y ys].
  { exists h. split; [done|]. split; [|apply same_off_refl]. by apply dll_range. }
  rewrite bool_decide_eq_false_2 by done. change (hd_or (tail_of l) (y :: ys)) with y.
  apply (f_equal length) in Happ1 as Hlen1. rewrite length_app in Hlen1. simpl in Hlen1.
  rewrite (find_end_of_run_ok F h _ y ys _ _ Hd1) by lia. cbn [rbind].
  destruct (split_run less y ys) as [r2 rest2] eqn:E2. cbn [snd].
  pose proof (split_run_app _ _ _ _ _ E2) as Happ2. rewrite <- Happ2, <- app_assoc in Hd.
  apply (f_equal length) in Happ2 as Hlen2. rewrite length_app in Hlen2. simpl in Hlen2.
  assert (exists Q, rest2 ++ [tail_of l] = hd_or (tail_of l) rest2 :: Q) as (Q & EQ)
    by (destruct rest2; simpl; eauto).
  rewrite EQ in Hd. destruct (split_run_cons _ _ _ _ _ E1) as (r1' & ->).
  destruct (split_run_cons _ _ _ _ _ E2) as (r2' & ->).
  destruct (inplace_merge_ok F h _ _ _ _ _ Hd) as (h1 & Em & Hl1 & O1);
    [done|lia|pose proof (split_run_sorted _ _ _ _ _ E1) as Hs; simpl; apply Sorted_descents in Hs; lia
    |pose proof (split_run_sorted _ _ _ _ _ E2) as Hs; simpl; apply Sorted_descents in Hs; lia|].
  change (hd_or (hd_or (hd_or (tail_of l) rest2) (y :: r2')) (x :: r1')) with x in Em.
  change (hd_or (hd_or (tail_of l) rest2) (y :: r2')) with y in Em.
  rewrite Em. cbn [rbind]. rewrite <- EQ in Hl1.
  destruct (IH rest2 (D ++ merge less (x :: r1') (y :: r2')) (c + 1) h1)
    as (h' & E' & Hd' & O'); [|simpl in *; lia|simpl in *; lia|unfold is_u32; simpl in *; lia|simpl in *; lia|].
  { apply dll_range. rewrite (app_comm_cons D _ (head_of l)), <- app_assoc. exact Hl1. }
  exists h'. destruct (merge_pass less k rest2) as [zs n]. cbn [fst snd] in *.
  split; [rewrite E'; f_equal; f_equal; lia|]. split; [by rewrite <- app_assoc in Hd'|].
  assert (Hp : nodes l ((D ++ merge less (x :: r1') (y :: r2')) ++ rest2) ≡ₚ nodes l (D ++ x :: X)).
  { unfold nodes. rewrite merge_perm, <- Happ1, <- Happ2. by rewrite <- !app_assoc. }
  eapply same_off_trans; [|intros z Hz; apply O'; by rewrite Hp].
  intros z Hz. apply O1. rewrite <- EQ.
  rewrite nodes_range, <- Happ1, <- Happ2, <- !app_assoc in Hz. exact Hz.
Qed.

Lemma sort_pass_ok F h l xs :
  dll h l xs -> (length xs < F)%nat -> Z.of_nat (length xs) < 2 ^ 32 ->
  exists h', sort_pass less F h l = Ret (Z.of_nat (snd (merge_pass less F xs)), h') /\
    dll h' l (fst (merge_pass less F xs)) /\ same_off (nodes l xs) h h'.
Proof.
  intros Hd HF Hb. unfold sort_pass.
  rewrite (dll_begin _ _ _ Hd), (dll_end _ _ _ Hd). cbn [rbind].
  by apply (sort_pass_loop l F F xs [] 0 h).
Qed.

(** ** The whole sort *)
Context `{!StrictWeak less}.

Lemma sort_loop l F k : forall h xs,
  dll h l xs -> (length xs < F)%nat -> Z.of_nat (length xs) < 2 ^ 32 -> (runs less xs < k)%nat ->
  exists h', iter k (fun h =>
    let! '(output_run_cnt, h) := sort_pass less F h l in
    if bool_decide (output_run_cnt > 1) then Ret (inl h) else Ret (inr h)) h = Ret h' /\
    dll h' l (sort less xs) /\ same_off (nodes l xs) h h'.
Proof.
  induction k as [|k IH]; intros h xs Hd HF Hb Hk; [lia|]. cbn [iter].
  destruct (sort_pass_ok F h l xs Hd HF Hb) as (h1 & -> & Hd1 & O1). cbn [rbind].
  pose proof (merge_pass_spec less F xs ltac:(lia)) as Hspec.
  pose proof (merge_pass_perm less F xs) as Hperm.
  destruct (merge_pass less F xs) as [ys n]. cbn [fst snd] in *.
  destruct Hspec as (Hsort & Hr & Hn & _).
  pose proof (Permutation_length Hperm) as Hlen.
  assert (Hp : nodes l ys ≡ₚ nodes l xs) by (unfold nodes; by rewrite Hperm).
  case_bool_decide as Hgt; cbn [rbind].
  - destruct (IH h1 ys Hd1) as (h' & -> & Hd' & O'); [lia..|].
    exists h'. rewrite <- Hsort. split; [done|]. split; [done|].
    eapply same_off_trans; [exact O1|]. intros z Hz. apply O'. by rewrite Hp.
  - exists h1. split; [done|]. rewrite <- Hsort, sort_id; [done|].
    apply runs_le_1_sorted. lia.
Qed.

Lemma runs_le_length xs : (runs less xs <= length xs)%nat.
Proof.
  destruct xs as [|x xs]; simpl; [lia|]. apply le_n_S.
  revert x; induction xs as [|y ys IH]; intros x; simpl; [lia|]. specialize (IH y).
  destruct (less y x); lia.
Qed.

Lemma list_sort_ok fuel h l xs :
  dll h l xs -> (length xs < fuel)%nat -> Z.of_nat (length xs) < 2 ^ 32 ->
  exists h', list_sort less fuel h l = Ret h' /\ dll h' l (sort less xs) /\
             same_off (nodes l xs) h h'.
Proof.
  intros Hd Hf Hb. unfold list_sort. rewrite (dll_nonnull _ _ _ Hd). cbn [rbind assert_ negb].
  pose proof (runs_le_length xs).
  destruct (sort_loop l fuel fuel h xs Hd Hf Hb) as (h' & -> & Hd' & O'); [lia|]. cbn [rbind].
  rewrite (dll_begin _ _ _ Hd'), (dll_end _ _ _ Hd'). cbn [rbind].
  assert (Hl := proj1 (dll_range h' l [] (sort less xs)) Hd').
  rewrite (is_sorted_ok fuel h' _ _ _ _ Hl) by (rewrite (Permutation_length (sort_perm less xs)); lia).
  rewrite bool_decide_eq_true_2; [exists h'; done|].
  pose proof (sort_sorted less xs) as Hs. destruct (sort less xs) as [|x ys]; simpl; [lia|].
  apply Sorted_descents in Hs. lia.
Qed.
End Sort.
