(* ===== verification/KListRefine.v ===== *)
(** * list.c refines the abstract list: a simulation over sequences of calls *)

From S2P Require Import Prelude ListSpec KList KListProof KListOps KListSort.

(** ** The interface: the calls a client makes on one list *)
Inductive op :=
| PushFront (e : Z)
| PushBack (e : Z)
| InsertOrdered (e : Z)
| Remove (e : Z)
| PopFront
| PopBack
| Reverse
| Sort
| Size.

Section Refine.
Context (less : list_less_func) `{!StrictWeak less} (fuel : nat) (l : Z).

(** The call on the heap: its result (0 for [void]) and the new heap. *)
Definition impl_step (h : heap) (o : op) : res (Z * heap) :=
  match o with
  | PushFront e => let! h := list_push_front h l e in Ret (0, h)
  | PushBack e => let! h := list_push_back h l e in Ret (0, h)
  | InsertOrdered e => let! h := list_insert_ordered less fuel h l e in Ret (0, h)
  | Remove e => list_remove h e
  | PopFront => list_pop_front h l
  | PopBack => list_pop_back h l
  | Reverse => let! h := list_reverse fuel h l in Ret (0, h)
  | Sort => let! h := list_sort less fuel h l in Ret (0, h)
  | Size => let! n := list_size fuel h l in Ret (n, h)
  end.

(** The call on the sequence; [None] when the documented precondition fails
    (inserting an element twice, removing one that is not there). *)
Definition spec_step (xs : list Z) (o : op) : option (Z * list Z) :=
  match o with
  | PushFront e => if decide (e ∈ xs) then None else Some (0, e :: xs)
  | PushBack e => if decide (e ∈ xs) then None else Some (0, xs ++ [e])
  | InsertOrdered e => if decide (e ∈ xs) then None else Some (0, insert_ordered less e xs)
  | Remove e => '(i, _) ← list_find (eq e) xs; Some (hd_or (tail_of l) (drop (S i) xs), delete i xs)
  | PopFront => match xs with [] => None | x :: xs' => Some (x, xs') end
  | PopBack => x ← last xs; Some (x, take (pred (length xs)) xs)
  | Reverse => Some (0, rev xs)
  | Sort => Some (0, sort less xs)
  | Size => Some (Z.of_nat (length xs), xs)
  end.

Fixpoint impl_run (h : heap) (os : list op) : res (list Z * heap) :=
  match os with
  | [] => Ret ([], h)
  | o :: os' =>
      let! '(r, h) := impl_step h o in
      let! '(rs, h) := impl_run h os' in
      Ret (r :: rs, h)
  end.

Fixpoint spec_run (xs : list Z) (os : list op) : option (list Z * list Z) :=
  match os with
  | [] => Some ([], xs)
  | o :: os' =>
      '(r, xs) ← spec_step xs o;
      '(rs, xs) ← spec_run xs os';
      Some (r :: rs, xs)
  end.

(** The element a call inserts. *)
Definition inserted (o : op) : list Z :=
  match o with PushFront e | PushBack e | InsertOrdered e => [e] | _ => [] end.

(** ** The simulation relation: the chain represents the sequence, and the
    elements the client may still insert are allocated. *)
Record sim (U : list Z) (h : heap) (xs : list Z) : Prop := Sim {
  sim_dll : dll h l xs;
  sim_alloc : forall e, e ∈ U -> e <> NULL /\ is_Some (h !! e) /\ e <> head_of l /\ e <> tail_of l;
  sim_len : (length xs < fuel)%nat /\ Z.of_nat (length xs) < 2 ^ 32
}.

Lemma seg_alloc h p xs q y : seg h p xs q -> y ∈ xs -> is_Some (h !! y).
Proof.
  revert p; induction xs as [|x xs IH]; intros p; [set_solver|].
  intros [Hx Hs] [->|Hy]%elem_of_cons; eauto.
Qed.

(** A call that touches only nodes of the resulting list keeps [U] allocated. *)
Lemma alloc_preserved h h' S xs y :
  is_Some (h !! y) -> same_off S h h' -> dll h' l xs -> (forall z, z ∈ S -> z ∈ nodes l xs) ->
  is_Some (h' !! y).
Proof.
  intros Hy Ho Hd HS. destruct (decide (y ∈ S)) as [Hin|Hin]; [|by rewrite Ho].
  destruct Hd as [Hs _ _]. eapply seg_alloc; [done|]. by apply HS.
Qed.

Lemma fresh_of_sim U h xs e :
  sim U h xs -> e ∈ U -> e ∉ xs -> fresh_elem h l xs e.
Proof.
  intros [_ Ha _] He Hx. destruct (Ha e He) as (? & ? & ? & ?).
  split; [done|]. split; [done|]. unfold nodes. set_solver.
Qed.

Lemma sim_intro U h h' S xs ys :
  sim U h xs -> dll h' l ys -> same_off S h h' -> (forall z, z ∈ S -> z ∈ nodes l ys) ->
  (length ys < fuel)%nat /\ Z.of_nat (length ys) < 2 ^ 32 -> sim U h' ys.
Proof.
  intros [_ Ha _] Hd Ho HS Hl. split; [done| |done].
  intros e He. destruct (Ha e He) as (? & ? & ? & ?). repeat split; auto.
  by eapply alloc_preserved.
Qed.

Lemma nodes_perm xs ys : xs ≡ₚ ys -> forall z, z ∈ nodes l xs -> z ∈ nodes l ys.
Proof. intros Hp z. unfold nodes. by rewrite Hp. Qed.

Lemma insert_step_sim U h xs ys e h' :
  sim U h xs -> dll h' l ys -> same_off (e :: nodes l xs) h h' -> ys ≡ₚ e :: xs ->
  (S (length xs) < fuel)%nat /\ Z.of_nat (S (length xs)) < 2 ^ 32 -> sim U h' ys.
Proof.
  intros Hsim Hd Ho Hp Hl. eapply sim_intro; [done..| |].
  - intros z Hz. apply (nodes_perm (e :: xs)); [done|]. unfold nodes in *. set_solver.
  - by rewrite (Permutation_length Hp).
Qed.

(** One call. *)
Lemma step_refines U h xs o r ys :
  sim U h xs -> (forall e, e ∈ inserted o -> e ∈ U) ->
  (S (length xs) < fuel)%nat /\ Z.of_nat (S (length xs)) < 2 ^ 32 ->
  spec_step xs o = Some (r, ys) ->
  exists h', impl_step h o = Ret (r, h') /\ sim U h' ys.
Proof.
  intros Hsim HU Hlen Hspec. assert (Hd := sim_dll _ _ _ Hsim). destruct (sim_len _ _ _ Hsim) as [Hf Hb].
  destruct o as [e|e|e|e| | | | |]; simpl in *.
  - case_decide as Hin; simplify_eq.
    destruct (list_push_front_ok h l xs e Hd) as (h' & -> & Hd' & Ho);
      [eapply fresh_of_sim; [done|set_solver|done]|]. exists h'. split; [done|].
    by eapply insert_step_sim.
  - case_decide as Hin; simplify_eq.
    destruct (list_push_back_ok h l xs e Hd) as (h' & -> & Hd' & Ho);
      [eapply fresh_of_sim; [done|set_solver|done]|]. exists h'. split; [done|].
    eapply insert_step_sim; [done..| |done]. by rewrite Permutation_app_comm.
  - case_decide as Hin; simplify_eq.
    destruct (list_insert_ordered_ok less fuel h l xs e Hd) as (h' & -> & Hd' & Ho);
      [eapply fresh_of_sim; [done|set_solver|done]|done|]. exists h'. split; [done|].
    eapply insert_step_sim; [done..| |done]. apply insert_ordered_perm.
  - destruct (list_find (eq e) xs) as [[i x]|] eqn:E; simplify_eq/=.
    apply list_find_Some in E as (Hi & -> & _).
    pose proof (take_drop_middle _ _ _ Hi) as Hx. rewrite <- Hx in Hd.
    destruct (list_remove_ok h l _ _ _ Hd) as (h' & -> & Hd' & Ho).
    rewrite delete_take_drop. exists h'. split; [done|].
    eapply sim_intro; [done..| |]; [auto|].
    apply (f_equal length) in Hx. rewrite length_app in Hx. simpl in Hx. rewrite length_app. lia.
  - destruct xs as [|x xs]; simplify_eq/=.
    destruct (list_pop_front_ok h l _ _ Hd) as (h' & -> & Hd' & Ho). exists h'. split; [done|].
    eapply sim_intro; [done..| |lia]. auto.
  - destruct (last xs) as [x|] eqn:E; simplify_eq/=.
    apply last_snoc_inv in E as (zs & ->). rewrite length_app, Nat.add_comm in *. simpl in *.
    rewrite take_app_length. destruct (list_pop_back_ok h l _ _ Hd) as (h' & -> & Hd' & Ho).
    exists h'. split; [done|]. eapply sim_intro; [done..| |lia]. auto.
  - simplify_eq. destruct (list_reverse_ok fuel h l xs Hd Hf) as (h' & -> & Hd' & Ho).
    exists h'. split; [done|]. eapply sim_intro; [done..| |by rewrite length_rev].
    apply nodes_perm. apply Permutation_rev.
  - simplify_eq. destruct (list_sort_ok less fuel h l xs Hd Hf Hb) as (h' & -> & Hd' & Ho).
    exists h'. split; [done|].
    eapply sim_intro; [done..| |by rewrite (Permutation_length (sort_perm less xs))].
    apply nodes_perm. symmetry. apply sort_perm.
  - simplify_eq. rewrite (list_size_ok fuel h l _ Hd Hf). simpl.
    rewrite u32_small by lia. eauto.
Qed.

Lemma spec_step_length xs o r ys :
  spec_step xs o = Some (r, ys) -> (length ys <= S (length xs))%nat.
Proof.
  destruct o as [e|e|e|e| | | | |]; simpl; intros Hs.
  - case_decide; simplify_eq. done.
  - case_decide; simplify_eq. rewrite length_app. simpl. lia.
  - case_decide; simplify_eq. by rewrite (Permutation_length (insert_ordered_perm less e xs)).
  - destruct (list_find (eq e) xs) as [[i x]|] eqn:E; simplify_eq/=.
    rewrite delete_take_drop, length_app, length_take, length_drop. lia.
  - destruct xs; simplify_eq/=. lia.
  - destruct (last xs); simplify_eq/=. rewrite length_take. lia.
  - simplify_eq. rewrite length_rev. lia.
  - simplify_eq. rewrite (Permutation_length (sort_perm less xs)). lia.
  - simplify_eq. lia.
Qed.

Lemma run_refines U os : forall h xs rs ys,
  sim U h xs -> (forall e, e ∈ mjoin (inserted <$> os) -> e ∈ U) ->
  (length xs + length os < fuel)%nat /\ Z.of_nat (length xs + length os) < 2 ^ 32 ->
  spec_run xs os = Some (rs, ys) ->
  exists h', impl_run h os = Ret (rs, h') /\ sim U h' ys.
Proof.
  induction os as [|o os IH]; intros h xs rs ys Hsim HU Hlen Hspec; simpl in *; [naive_solver|].
  destruct (spec_step xs o) as [[r zs]|] eqn:E1; simplify_eq/=.
  destruct (spec_run zs os) as [[rs' ys']|] eqn:E2; simplify_eq/=.
  pose proof (spec_step_length _ _ _ _ E1) as Hl.
  destruct (step_refines U h xs o r zs) as (h1 & -> & Hs1); [done|set_solver|lia|done|]. simpl.
  destruct (IH h1 zs rs' ys) as (h2 & -> & Hs2); [done|set_solver|lia|done|]. simpl. eauto.
Qed.
End Refine.

(** ** Deciding the representation on concrete heaps *)
#[export] Instance seg_dec h p xs q : Decision (seg h p xs q).
Proof. revert p; induction xs; intros p; simpl; solve_decision. Defined.

#[export] Instance linked_dec h ns : Decision (linked h ns).
Proof.
  refine (cast_if (decide (seg h NULL ns NULL /\ NoDup ns /\ (NULL ∉ ns))));
    [abstract (destruct_and!; by split)|abstract (intros []; naive_solver)].
Defined.

#[export] Instance dll_dec h l xs : Decision (dll h l xs).
Proof. unfold dll. apply _. Defined.

(** ** Properties *)

(** C31. [list_sort] terminates without failing any of its assertions and leaves
    in the list a stable sort of its elements: the same elements, in an order
    where no element is less than its predecessor, and with equivalent elements
    in their original order.  It writes no list element outside the list.
    [fuel] bounds every loop by the number of elements. *)
Theorem list_sort_stable_sort (less : list_less_func) (fuel : nat) (h : heap) (l : Z) (xs : list Z) :
  StrictWeak less -> dll h l xs -> (length xs < fuel)%nat -> Z.of_nat (length xs) < 2 ^ 32 ->
  exists h' ys, list_sort less fuel h l = Ret h' /\ dll h' l ys /\
    Permutation ys xs /\ Sorted (le less) ys /\
    (forall p, List.filter (eqv less p) ys = List.filter (eqv less p) xs) /\
    (forall a, a ∉ nodes l xs -> h' !! a = h !! a).
Proof.
  intros Hw Hd Hf Hb. destruct (list_sort_ok less fuel h l xs Hd Hf Hb) as (h' & E & Hd' & Ho).
  exists h', (sort less xs). repeat split; try done; try apply Hd'.
  - apply sort_perm.
  - by apply sort_sorted.
  - intros p. by apply sort_stable.
Qed.

(** A list at address 1000 with the elements 1..4 (address 1008 is its tail). *)
Definition demo_heap : heap := list_to_map
  [(1000, Elem 0 3); (3, Elem 1000 1); (1, Elem 3 4); (4, Elem 1 2); (2, Elem 4 1008);
   (1008, Elem 2 0); (7, Elem 0 0)].
(** Comparison by the first bit only, so that stability shows. *)
Definition demo_less : list_less_func := fun a b => (a mod 2 <? b mod 2).

#[export] Instance demo_less_weak : StrictWeak demo_less.
Proof. unfold demo_less. split; intros *; rewrite ?Z.ltb_lt, ?Z.ltb_ge; lia. Qed.

Lemma list_sort_stable_sort_witness :
  dll demo_heap 1000 [3; 1; 4; 2] /\
  exists h' ys, list_sort demo_less 5 demo_heap 1000 = Ret h' /\ dll h' 1000 ys /\
    Permutation ys [3; 1; 4; 2] /\ Sorted (le demo_less) ys.
Proof.
  assert (Hd : dll demo_heap 1000 [3; 1; 4; 2]) by (apply (bool_decide_eq_true_1 _); vm_compute; reflexivity).
  split; [exact Hd|].
  destruct (list_sort_stable_sort demo_less 5 demo_heap 1000 [3; 1; 4; 2]) as (h' & ys & H1 & H2 & H3 & H4 & _).
  - apply demo_less_weak.
  - exact Hd.
  - simpl; lia.
  - simpl; lia.
  - exists h', ys. repeat split; try assumption; apply H2.
Defined.

(** C29. The pointer implementation refines sequences: for every client - any
    series of insertions, removals, pops, reversals, sorts and size queries
    whose documented preconditions hold on the abstract sequence - the calls on
    the heap all succeed, return what the calls on the sequence return, and the
    chain represents the final sequence. *)
Theorem klist_refines_sequence (less : list_less_func) (fuel : nat) (l : Z) (U : list Z)
    (os : list op) (h : heap) (xs rs ys : list Z) :
  StrictWeak less -> dll h l xs ->
  (forall e, e ∈ U -> e <> NULL /\ is_Some (h !! e) /\ e <> head_of l /\ e <> tail_of l) ->
  (forall e, e ∈ mjoin (inserted <$> os) -> e ∈ U) ->
  (length xs + length os < fuel)%nat -> Z.of_nat fuel < 2 ^ 32 ->
  spec_run less l xs os = Some (rs, ys) ->
  exists h', impl_run less fuel l h os = Ret (rs, h') /\ dll h' l ys.
Proof.
  intros Hw Hd Ha HU Hl Hb Hs.
  destruct (run_refines less fuel l U os h xs rs ys) as (h' & E & Hsim).
  - split; [done..|]. lia.
  - done.
  - lia.
  - done.
  - exists h'. split; [done|]. apply Hsim.
Qed.

Lemma klist_refines_sequence_witness :
  exists h', impl_run demo_less 10 1000 demo_heap [PopFront; PushBack 7; Sort; Reverse; Size]
             = Ret ([3; 0; 0; 0; 4], h') /\ dll h' 1000 [7; 1; 2; 4].
Proof.
  apply (klist_refines_sequence demo_less 10 1000 [7] _ demo_heap [3; 1; 4; 2]).
  - apply demo_less_weak.
  - apply (bool_decide_eq_true_1 _); vm_compute; reflexivity.
  - intros e He. apply list_elem_of_singleton in He. subst e.
    split; [discriminate|]. split; [vm_compute; eexists; reflexivity|]. split; discriminate.
  - intros e He. exact He.
  - simpl; lia.
  - simpl; lia.
  - vm_compute; reflexivity.
Defined.

(** [list_insert_ordered] keeps a sorted list sorted and is first come,
    first served: the new element stands behind every element that is not
    greater and before every greater one. *)
Theorem list_insert_ordered_fifo (less : list_less_func) (fuel : nat) (h : heap) (l e : Z) (xs : list Z) :
  StrictWeak less -> dll h l xs -> fresh_elem h l xs e -> (length xs < fuel)%nat ->
  Sorted (le less) xs ->
  exists h' a b, list_insert_ordered less fuel h l e = Ret h' /\ dll h' l (a ++ e :: b) /\
    xs = a ++ b /\ Sorted (le less) (a ++ e :: b) /\
    Forall (fun x => less e x = false) a /\ Forall (fun x => less e x = true) b.
Proof.
  intros Hw Hd Hfr Hf Hs.
  destruct (list_insert_ordered_ok less fuel h l xs e Hd Hfr Hf) as (h' & E & Hd' & _).
  pose proof (insert_ordered_sorted less e xs Hs) as Hs'.
  destruct (insert_ordered_split less e xs Hs) as (a & b & Ei & Ex & Ha & Hb).
  rewrite Ei in *. exists h', a, b. repeat split; try done; apply Hd'.
Qed.

Definition demo_sorted : heap := list_to_map
  [(1000, Elem 0 2); (2, Elem 1000 3); (3, Elem 2 1008); (1008, Elem 3 0); (7, Elem 0 0); (6, Elem 0 0)].

Lemma list_insert_ordered_fifo_witness :
  exists h' a b, list_insert_ordered demo_less 9 demo_sorted 1000 6 = Ret h' /\
    dll h' 1000 (a ++ 6 :: b) /\ [2; 3] = a ++ b /\ Sorted (le demo_less) (a ++ 6 :: b).
Proof.
  destruct (list_insert_ordered_fifo demo_less 9 demo_sorted 1000 6 [2; 3])
    as (h' & a & b & H1 & H2 & H3 & H4 & _).
  - apply demo_less_weak.
  - apply (bool_decide_eq_true_1 _); vm_compute; reflexivity.
  - split; [discriminate|]. split; [vm_compute; eexists; reflexivity|].
    apply (bool_decide_eq_true_1 _); vm_compute; reflexivity.
  - simpl; lia.
  - repeat constructor; vm_compute; reflexivity.
  - exists h', a, b. split; [exact H1|]. split; [exact H2|]. split; [exact H3|exact H4].
Defined.
