(* ===== verification/Arith64.v ===== *)
(** * lib/arithmetic.c: 64-bit division on a 32-bit machine *)

From S2P Require Import Prelude.

(** ** Operations *)

(** The [DIVL] instruction on the 64-bit dividend [n1:n0]; [Panic] is the
    divide error (#DE) of a zero divisor or of a quotient over 32 bits. *)
Definition divl (n d : Z) : res Z :=
  let n1 := u32 (Z.shiftr n 32) in
  let n0 := u32 n in
  let dividend := n1 * 2 ^ 32 + n0 in
  if bool_decide (d = 0) then Panic
  else let q := dividend / d in
       if bool_decide (q < 2 ^ 32) then Ret q else Panic.

Definition nlz (x : Z) : Z :=
  let n := 0 in
  let '(n, x) := if x <=? 0x0000FFFF then (n + 16, u32 (Z.shiftl x 16)) else (n, x) in
  let '(n, x) := if x <=? 0x00FFFFFF then (n + 8, u32 (Z.shiftl x 8)) else (n, x) in
  let '(n, x) := if x <=? 0x0FFFFFFF then (n + 4, u32 (Z.shiftl x 4)) else (n, x) in
  let '(n, x) := if x <=? 0x3FFFFFFF then (n + 2, u32 (Z.shiftl x 2)) else (n, x) in
  if x <=? 0x7FFFFFFF then n + 1 else n.

Definition udiv64 (n d : Z) : res Z :=
  if bool_decide (Z.shiftr d 32 = 0) then
    let b := 2 ^ 32 in
    let n1 := u32 (Z.shiftr n 32) in
    let n0 := u32 n in
    let d0 := u32 d in
    if bool_decide (d0 = 0) then Panic (* n1 % d0 traps *)
    else
      let! q := divl (u64 (u64 (b * (n1 mod d0)) + n0)) d0 in
      Ret (u64 (q + u64 (b * (n1 / d0))))
  else if bool_decide (n < d) then Ret 0
  else
    let d1 := u32 (Z.shiftr d 32) in
    let s := nlz d1 in
    let! q := divl (Z.shiftr n 1) (u32 (Z.shiftr (u64 (Z.shiftl d s)) 32)) in
    let q := Z.shiftr q (31 - s) in
    Ret (if bool_decide (u64 (n - u64 (u64 (q - 1) * d)) < d) then u64 (q - 1) else q).

(** The result type is [uint32_t]. *)
Definition umod64 (n d : Z) : res Z :=
  let! q := udiv64 n d in
  Ret (u32 (u64 (n - u64 (d * q)))).

Definition sdiv64 (n d : Z) : res Z :=
  let n_abs := if bool_decide (n >= 0) then u64 n else u64 (- u64 n) in
  let d_abs := if bool_decide (d >= 0) then u64 d else u64 (- u64 d) in
  let! q_abs := udiv64 n_abs d_abs in
  Ret (if eqb (bool_decide (n < 0)) (bool_decide (d < 0)) then s64 q_abs else s64 (- s64 q_abs)).

(** The result type is [int32_t]. *)
Definition smod64 (n d : Z) : res Z :=
  let! q := sdiv64 n d in
  Ret (s32 (s64 (n - s64 (d * q)))).

Definition __divdi3 (n d : Z) : res Z := sdiv64 n d.
Definition __moddi3 (n d : Z) : res Z := smod64 n d.
Definition __udivdi3 (n d : Z) : res Z := udiv64 n d.
Definition __umoddi3 (n d : Z) : res Z := umod64 n d.

(** ** nlz *)

(** [nlz] normalises: shifting by the result puts the top bit at position 31. *)
Lemma nlz_spec x : 0 < x < 2 ^ 32 -> 0 <= nlz x <= 31 /\ 2 ^ 31 <= x * 2 ^ nlz x < 2 ^ 32.
Proof.
  intros Hx. pose proof (Z.log2_spec x ltac:(lia)) as Hl.
  assert (0 <= Z.log2 x < 32).
  { split; [apply Z.log2_nonneg|]. apply Z.log2_lt_pow2; lia. }
  assert (nlz x = 31 - Z.log2 x) as ->.
  { revert Hl. generalize dependent (Z.log2 x). intros k Hk Hl.
    unfold nlz. assert (Hb : exists j : nat, k = Z.of_nat j /\ (j < 32)%nat) by (exists (Z.to_nat k); lia).
    destruct Hb as (j & -> & Hj).
    do 32 (destruct j as [|j]; [clear Hk Hj; simpl Z.of_nat in *;
      repeat (match goal with
      | |- context [?a <=? ?b] => destruct (Z.leb_spec a b); try lia
      end;
      rewrite ?Z.shiftl_mul_pow2, ?u32_small by lia); lia|]). lia. }
  split; [lia|].
  replace (2 ^ 31) with (2 ^ Z.log2 x * 2 ^ (31 - Z.log2 x)) by (rewrite <- Z.pow_add_r by lia; f_equal; lia).
  replace (2 ^ 32) with (2 ^ Z.succ (Z.log2 x) * 2 ^ (31 - Z.log2 x)) by (rewrite <- Z.pow_add_r by lia; f_equal; lia).
  split; [apply Z.mul_le_mono_nonneg_r; lia|apply Z.mul_lt_mono_pos_r; lia].
Qed.

(** ** Unsigned division *)

Lemma divl_ok n d : is_u64 n -> 0 < d -> n / d < 2 ^ 32 -> divl n d = Ret (n / d).
Proof.
  intros [Hn0 Hn] Hd Hq. unfold divl. rewrite bool_decide_eq_false_2 by lia.
  assert (u32 (Z.shiftr n 32) * 2 ^ 32 + u32 n = n) as ->.
  { rewrite Z.shiftr_div_pow2 by lia. rewrite u32_small.
    - unfold u32. pose proof (Z.div_mod n (2 ^ 32) ltac:(lia)). lia.
    - split; [apply Z.div_pos; lia|apply Z.div_lt_upper_bound; lia]. }
  by rewrite bool_decide_eq_true_2 by done.
Qed.

(** The short case: a divisor of at most 32 bits. *)
Lemma udiv64_short n d : is_u64 n -> 0 < d < 2 ^ 32 -> udiv64 n d = Ret (n / d).
Proof.
  intros [Hn0 Hn] Hd. unfold udiv64.
  rewrite bool_decide_eq_true_2 by (rewrite Z.shiftr_div_pow2 by lia; apply Z.div_small; lia).
  rewrite Z.shiftr_div_pow2 by lia. cbv zeta.
  assert (0 <= n / 2 ^ 32 < 2 ^ 32) by (split; [apply Z.div_pos; lia|apply Z.div_lt_upper_bound; lia]).
  rewrite (u32_small (n / 2 ^ 32)) by lia. rewrite (u32_small d) by lia.
  rewrite bool_decide_eq_false_2 by lia.
  set (n1 := n / 2 ^ 32) in *. set (n0 := u32 n).
  assert (Hn01 : n = 2 ^ 32 * n1 + n0) by (apply Z.div_mod; lia).
  pose proof (u32_range n) as Hn0r. fold n0 in Hn0r.
  pose proof (Z.mod_pos_bound n1 d ltac:(lia)) as Hm.
  pose proof (Z.div_mod n1 d ltac:(lia)) as Hdm.
  assert (Hnum : 0 <= 2 ^ 32 * (n1 mod d) + n0 < 2 ^ 32 * d) by nia.
  rewrite (u64_small (2 ^ 32 * (n1 mod d))) by nia. rewrite u64_small by nia.
  rewrite divl_ok; [|split; nia|lia|apply Z.div_lt_upper_bound; nia]. cbn [rbind]. f_equal.
  assert (Hq : n / d = (2 ^ 32 * (n1 mod d) + n0) / d + 2 ^ 32 * (n1 / d)).
  { rewrite Hn01 at 1. rewrite Hdm at 1.
    replace (2 ^ 32 * (d * (n1 / d) + n1 mod d) + n0)
      with (2 ^ 32 * (n1 mod d) + n0 + (2 ^ 32 * (n1 / d)) * d) by ring.
    apply Z.div_add. lia. }
  pose proof (Z.div_le_upper_bound n1 d n1 ltac:(lia) ltac:(nia)).
  pose proof (Z.div_pos n1 d ltac:(lia) ltac:(lia)).
  rewrite (u64_small (2 ^ 32 * (n1 / d))) by nia. rewrite <- Hq.
  apply u64_small. split; [apply Z.div_pos; lia|].
  apply Z.div_lt_upper_bound; nia.
Qed.

(** The estimate of the long case: [D] is [d] with its low bits cleared, and the
    quotient by [D] is the true quotient or one more. *)
Lemma quotient_estimate n d D e m :
  0 <= n -> 0 < D -> d = D + e -> 0 <= e -> n < m * d -> m * e <= D ->
  n / d <= n / D <= n / d + 1.
Proof.
  intros Hn HD -> He Hm HmD. split; [apply Z.div_le_compat_l; lia|].
  enough (n / D < n / (D + e) + 2) by lia. apply Z.div_lt_upper_bound; [done|].
  pose proof (Z.div_mod n (D + e) ltac:(lia)) as Hdm.
  pose proof (Z.mod_pos_bound n (D + e) ltac:(lia)) as Hr.
  pose proof (Z.div_pos n (D + e) ltac:(lia) ltac:(lia)) as Hq.
  assert (n / (D + e) < m) by (apply Z.div_lt_upper_bound; nia).
  assert ((n / (D + e) + 1) * e <= D) by nia. nia.
Qed.

Section Long.
Context (n d : Z).
Hypothesis Hn : is_u64 n.
Hypothesis Hd : 2 ^ 32 <= d < 2 ^ 64.

Let s := nlz (d / 2 ^ 32).
Let v1 := d * 2 ^ s / 2 ^ 32.

Lemma long_shift : 0 <= s <= 31 /\ 2 ^ 31 <= v1 < 2 ^ 32 /\ d * 2 ^ s < 2 ^ 64 /\ 2 ^ 63 <= d * 2 ^ s.
Proof.
  assert (Hd1 : 0 < d / 2 ^ 32 < 2 ^ 32).
  { split; [apply Z.div_str_pos; lia|apply Z.div_lt_upper_bound; lia]. }
  destruct (nlz_spec _ Hd1) as [Hs Hb]. fold s in Hs, Hb.
  pose proof (Z.div_mod d (2 ^ 32) ltac:(lia)) as Hdm.
  pose proof (Z.mod_pos_bound d (2 ^ 32) ltac:(lia)) as Hm.
  assert (H1 : 0 < 2 ^ s) by lia.
  assert (2 ^ 63 <= d * 2 ^ s) by nia.
  assert (d * 2 ^ s < 2 ^ 64).
  { assert (Hp : 2 ^ 32 = 2 ^ s * 2 ^ (32 - s)) by (rewrite <- Z.pow_add_r by lia; f_equal; lia).
    assert (d / 2 ^ 32 < 2 ^ (32 - s)) by (apply (Z.mul_lt_mono_pos_r (2 ^ s)); lia).
    assert (Hd2 : d < 2 ^ 32 * 2 ^ (32 - s)) by lia.
    apply (Z.mul_lt_mono_pos_r (2 ^ s)) in Hd2; [|done].
    replace (2 ^ 64) with (2 ^ 32 * (2 ^ s * 2 ^ (32 - s))) by (rewrite <- Hp; done). lia. }
  unfold v1. repeat split; try lia.
  - apply Z.div_le_lower_bound; lia.
  - apply Z.div_lt_upper_bound; lia.
Qed.

Lemma long_estimate :
  n / d <= n / (v1 * 2 ^ (32 - s)) <= n / d + 1.
Proof.
  destruct long_shift as (Hs & Hv & Hlt & Hge). destruct Hn as [Hn0 Hn1].
  assert (Hp : 2 ^ 32 = 2 ^ s * 2 ^ (32 - s)) by (rewrite <- Z.pow_add_r by lia; f_equal; lia).
  assert (Hps : 0 < 2 ^ s) by lia. assert (Hpt : 2 <= 2 ^ (32 - s)).
  { replace 2 with (2 ^ 1) at 1 by done. apply Z.pow_le_mono_r; lia. }
  assert (Hv1 : v1 = d / 2 ^ (32 - s)).
  { unfold v1. rewrite Hp, (Z.mul_comm d). apply Z.div_mul_cancel_l; lia. }
  pose proof (Z.div_mod d (2 ^ (32 - s)) ltac:(lia)) as Hdm.
  pose proof (Z.mod_pos_bound d (2 ^ (32 - s)) ltac:(lia)) as Hm.
  rewrite <- Hv1 in Hdm.
  assert (He : 2 ^ s * (d mod 2 ^ (32 - s)) <= 2 ^ s * (2 ^ (32 - s) - 1)).
  { apply Z.mul_le_mono_nonneg_l; lia. }
  assert (HD : 2 ^ 31 * 2 ^ (32 - s) <= v1 * 2 ^ (32 - s)).
  { apply Z.mul_le_mono_nonneg_r; lia. }
  apply (quotient_estimate n d _ (d mod 2 ^ (32 - s)) (2 * 2 ^ s)); [lia..|].
  destruct (decide (s = 31)) as [Hs31|].
  { rewrite Hs31 in *. change (2 ^ (32 - 31)) with 2 in *. lia. }
  assert (2 ^ 2 <= 2 ^ (32 - s)) by (apply Z.pow_le_mono_r; lia).
  lia.
Qed.
End Long.

Lemma udiv64_long n d : is_u64 n -> 2 ^ 32 <= d < 2 ^ 64 -> udiv64 n d = Ret (n / d).
Proof.
  intros Hn Hd. destruct Hn as [Hn0 Hn1]. unfold udiv64.
  rewrite bool_decide_eq_false_2.
  2:{ rewrite Z.shiftr_div_pow2 by lia. pose proof (Z.div_str_pos d (2 ^ 32)). lia. }
  case_bool_decide as Hlt; [by rewrite Z.div_small by lia|].
  assert (Hnu : is_u64 n) by done.
  destruct (long_shift d Hd) as (Hs & Hv & Hlt2 & Hge).
  pose proof (long_estimate n d Hnu Hd) as Hest.
  rewrite (Z.shiftr_div_pow2 d 32) by lia.
  rewrite (u32_small (d / 2 ^ 32)) by (split; [apply Z.div_pos; lia|apply Z.div_lt_upper_bound; lia]).
  cbv zeta. set (s := nlz (d / 2 ^ 32)) in *. set (v1 := d * 2 ^ s / 2 ^ 32) in *.
  rewrite Z.shiftl_mul_pow2, (u64_small (d * 2 ^ s)), (Z.shiftr_div_pow2 (d * 2 ^ s)) by lia.
  fold v1. rewrite (u32_small v1) by lia. rewrite (Z.shiftr_div_pow2 n 1) by lia. change (2 ^ 1) with 2.
  assert (Hn2 : 0 <= n / 2 < 2 ^ 63) by (split; [apply Z.div_pos; lia|apply Z.div_lt_upper_bound; lia]).
  rewrite divl_ok; [|split; lia|lia|apply Z.div_lt_upper_bound; nia]. cbn [rbind]. f_equal.
  rewrite Z.shiftr_div_pow2 by lia.
  rewrite !Z.div_div by (lia || nia).
  replace (2 * (v1 * 2 ^ (31 - s))) with (v1 * 2 ^ (32 - s)).
  2:{ replace (32 - s) with (1 + (31 - s)) by lia. rewrite Z.pow_add_r by lia. ring. }
  set (q := n / (v1 * 2 ^ (32 - s))) in *.
  pose proof (Z.div_mod n d ltac:(lia)) as Hdm. pose proof (Z.mod_pos_bound n d ltac:(lia)) as Hm.
  assert (HQ : 1 <= n / d) by (apply Z.div_le_lower_bound; lia).
  assert (HQ2 : n / d < 2 ^ 32) by (apply Z.div_lt_upper_bound; nia).
  rewrite (u64_small (q - 1)) by lia.
  assert (Hqd : (q - 1) * d <= n / d * d) by (apply Z.mul_le_mono_nonneg_r; lia).
  assert (0 <= (q - 1) * d) by (apply Z.mul_nonneg_nonneg; lia).
  rewrite (u64_small ((q - 1) * d)), u64_small by lia.
  assert (Hq : q = n / d \/ q = n / d + 1) by lia.
  destruct Hq as [Hq|Hq]; rewrite Hq; case_bool_decide; lia.
Qed.

Lemma udiv64_ok n d : is_u64 n -> is_u64 d -> d <> 0 -> udiv64 n d = Ret (n / d).
Proof.
  intros Hn [Hd0 Hd1] Hne. destruct (Z_lt_ge_dec d (2 ^ 32)).
  - apply udiv64_short; [done|lia].
  - apply udiv64_long; [done|lia].
Qed.

Lemma umod64_ok n d : is_u64 n -> is_u64 d -> d <> 0 -> umod64 n d = Ret (u32 (n mod d)).
Proof.
  intros Hn Hd Hne. unfold umod64. rewrite udiv64_ok by done. cbn [rbind]. f_equal. f_equal.
  destruct Hn as [Hn0 Hn1], Hd as [Hd0 Hd1].
  pose proof (Z.div_mod n d ltac:(lia)) as Hdm. pose proof (Z.mod_pos_bound n d ltac:(lia)).
  pose proof (Z.div_pos n d ltac:(lia) ltac:(lia)).
  rewrite (u64_small (d * (n / d))) by nia. rewrite u64_small by nia. lia.
Qed.

(** ** Signed division *)
Lemma abs_u64 n : is_s64 n -> (if bool_decide (n >= 0) then u64 n else u64 (- u64 n)) = Z.abs n.
Proof.
  intros [H1 H2]. case_bool_decide.
  - rewrite u64_small; lia.
  - unfold u64. assert ((n mod 2 ^ 64) = n + 2 ^ 64) as ->.
    { symmetry. apply (Z.mod_unique_pos _ _ (-1)); lia. }
    rewrite <- (Z.mod_add (- (n + 2 ^ 64)) 1) by lia. rewrite Z.mod_small; lia.
Qed.

Lemma sdiv64_ok n d : is_s64 n -> is_s64 d -> d <> 0 -> sdiv64 n d = Ret (s64 (Z.quot n d)).
Proof.
  intros Hn Hd Hne. unfold sdiv64. rewrite !abs_u64 by done.
  destruct Hn as [Hn1 Hn2], Hd as [Hd1 Hd2].
  rewrite udiv64_ok by (unfold is_u64; lia). cbn [rbind]. f_equal.
  rewrite <- Z.quot_div_nonneg by lia.
  assert (Hq : Z.abs n ÷ Z.abs d = Z.abs (n ÷ d)) by (by rewrite Z.quot_abs).
  assert (Hle : 0 <= Z.abs n ÷ Z.abs d <= 2 ^ 63).
  { rewrite Z.quot_div_nonneg by lia. split; [apply Z.div_pos; lia|apply Z.div_le_upper_bound; nia]. }
  assert (Hsgn : n ÷ d = if eqb (bool_decide (n < 0)) (bool_decide (d < 0))
                         then Z.abs n ÷ Z.abs d else - (Z.abs n ÷ Z.abs d)).
  { repeat case_bool_decide; simpl;
      rewrite ?(Z.abs_neq n), ?(Z.abs_neq d), ?(Z.abs_eq n), ?(Z.abs_eq d) by lia;
      rewrite ?Z.quot_opp_opp, ?Z.quot_opp_l, ?Z.quot_opp_r by lia; lia. }
  rewrite Hsgn. destruct (eqb _ _); [done|].
  destruct (decide (Z.abs n ÷ Z.abs d = 2 ^ 63)) as [->|]; [done|].
  f_equal. rewrite s64_small by lia. done.
Qed.

Lemma smod64_ok n d : is_s64 n -> is_s64 d -> d <> 0 -> smod64 n d = Ret (s32 (Z.rem n d)).
Proof.
  intros Hn Hd Hne. unfold smod64. rewrite sdiv64_ok by done. cbn [rbind]. do 2 f_equal.
  destruct Hn as [Hn1 Hn2], Hd as [Hd1 Hd2].
  assert (Hwrap : forall a b, s64 (a + b * 2 ^ 64) = s64 a).
  { intros a b. unfold s64. replace (a + b * 2 ^ 64 + 2 ^ 63) with (a + 2 ^ 63 + b * 2 ^ 64) by ring.
    by rewrite Z.mod_add by lia. }
  assert (Hs : forall x, exists b, s64 x = x + b * 2 ^ 64).
  { intros x. exists (- ((x + 2 ^ 63) / 2 ^ 64)). unfold s64.
    pose proof (Z.div_mod (x + 2 ^ 63) (2 ^ 64) ltac:(lia)). lia. }
  destruct (Hs (n ÷ d)) as [b1 ->].
  destruct (Hs (d * (n ÷ d + b1 * 2 ^ 64))) as [b2 ->].
  replace (n - (d * (n ÷ d + b1 * 2 ^ 64) + b2 * 2 ^ 64))
    with (Z.rem n d + (- d * b1 - b2) * 2 ^ 64)
    by (pose proof (Z.quot_rem' n d); nia).
  rewrite Hwrap. apply s64_small.
  pose proof (Z.rem_bound_abs n d Hne). lia.
Qed.

Lemma udiv64_zero n : is_u64 n -> udiv64 n 0 = Panic.
Proof. reflexivity. Qed.

(** ** Properties *)

(** C33. Unsigned 64-bit division, built from the 32-bit DIVL instruction:
    [__udivdi3] computes the quotient for every dividend and non-zero divisor,
    without a divide error (DIVL's quotient never overflows) and with the
    off-by-one estimate of the long case always corrected; a zero divisor
    traps. *)
Theorem udivdi3_correct n d :
  is_u64 n -> is_u64 d -> __udivdi3 n d = if bool_decide (d = 0) then Panic else Ret (n / d).
Proof.
  intros Hn Hd. unfold __udivdi3. case_bool_decide as E.
  - by rewrite E, udiv64_zero.
  - by apply udiv64_ok.
Qed.

Lemma udivdi3_correct_witness :
  __udivdi3 (2 ^ 64 - 1) (2 ^ 63 + 2 ^ 32 + 1) = Ret 1 /\ __udivdi3 5 0 = Panic.
Proof.
  split.
  - exact (udivdi3_correct (2 ^ 64 - 1) (2 ^ 63 + 2 ^ 32 + 1) ltac:(unfold is_u64; lia) ltac:(unfold is_u64; lia)).
  - exact (udivdi3_correct 5 0 ltac:(unfold is_u64; lia) ltac:(unfold is_u64; lia)).
Defined.

(** Signed 64-bit division: [__divdi3] truncates towards zero as C requires,
    for every pair of operands; the one quotient outside the type,
    [INT64_MIN / -1], wraps to [INT64_MIN]. *)
Theorem divdi3_correct n d :
  is_s64 n -> is_s64 d -> d <> 0 ->
  __divdi3 n d = Ret (if bool_decide (n = - 2 ^ 63 /\ d = -1) then - 2 ^ 63 else Z.quot n d).
Proof.
  intros Hn Hd Hne. unfold __divdi3. rewrite sdiv64_ok by done. f_equal.
  case_bool_decide as E; [by destruct E as [-> ->]|]. apply s64_small.
  destruct Hn as [Hn1 Hn2], Hd as [Hd1 Hd2].
  destruct (decide (d = -1)) as [->|]; [|destruct (decide (d = 1)) as [->|]].
  - change (-1) with (- (1)) in *. rewrite (Z.quot_opp_r n 1), Z.quot_1_r by lia. lia.
  - rewrite Z.quot_1_r. lia.
  - assert (Z.abs (n ÷ d) < 2 ^ 63); [|lia].
    rewrite <- Z.quot_abs, Z.quot_div_nonneg by lia. apply Z.div_lt_upper_bound; lia.
Qed.

Lemma divdi3_correct_witness : __divdi3 (-7) 2 = Ret (-3).
Proof. exact (divdi3_correct (-7) 2 ltac:(unfold is_s64; lia) ltac:(unfold is_s64; lia) ltac:(lia)). Defined.

(** The 64-bit remainders are truncated to 32 bits by the result types of
    [umod64] and [smod64]: the results are the remainder reduced modulo 2^32,
    so they are right exactly when the remainder fits in 32 bits. *)
Theorem moddi3_truncated n d :
  is_u64 n -> is_u64 d -> d <> 0 ->
  __umoddi3 n d = Ret (u32 (n mod d)) /\
  (__umoddi3 n d = Ret (n mod d) <-> n mod d < 2 ^ 32) /\
  (forall m e, is_s64 m -> is_s64 e -> e <> 0 -> __moddi3 m e = Ret (s32 (Z.rem m e))).
Proof.
  intros Hn Hd Hne. unfold __umoddi3, __moddi3. rewrite umod64_ok by done. destruct Hd as [Hd0 Hd1].
  pose proof (Z.mod_pos_bound n d ltac:(lia)). repeat split.
  - intros [= E]. rewrite <- E. apply u32_range.
  - intros Hlt. f_equal. apply u32_small. lia.
  - intros m e Hm He Hne'. by apply smod64_ok.
Qed.

Lemma moddi3_truncated_witness :
  __umoddi3 (2 ^ 32) (2 ^ 33) = Ret 0 /\ (2 ^ 32) mod (2 ^ 33) = 2 ^ 32.
Proof.
  split; [|reflexivity].
  exact (proj1 (moddi3_truncated (2 ^ 32) (2 ^ 33) ltac:(unfold is_u64; lia) ltac:(unfold is_u64; lia) ltac:(lia))).
Defined.
