(* ===== verification/Cstring.v ===== *)
(** * lib/string.c: byte blocks and C strings

    Memory is a finite map from addresses to bytes; reading or writing an
    address that is not mapped is undefined behaviour ([Ub]).  A loop that runs
    up to a null terminator visits a new mapped address in every round, so the
    number of mapped bytes bounds it: that is the fuel. *)

From S2P Require Import Prelude.

Abbreviation mem := (gmap Z Z).

Definition NULL : Z := 0.
Definition load (m : mem) (p : Z) : res Z := of_opt (m !! p).
Definition store (m : mem) (p v : Z) : res mem :=
  if bool_decide (is_Some (m !! p)) then Ret (<[p := v]> m) else Ub.
Definition fuel_of (m : mem) : nat := S (S (size m)).

(** ** Operations *)

Definition memcpy (m : mem) (dst src size : Z) : res (mem * Z) :=
  ASSERT (bool_decide (dst <> NULL) || bool_decide (size = 0));
  ASSERT (bool_decide (src <> NULL) || bool_decide (size = 0));
  let! m := for_up (Z.to_nat size) 0
              (fun i m => let! c := load m (src + i) in store m (dst + i) c) m in
  Ret (m, dst).

(** The second component is the returned pointer: the forward branch has
    advanced [dst] past the block, the backward one has moved it back. *)
Definition memmove (m : mem) (dst src size : Z) : res (mem * Z) :=
  ASSERT (bool_decide (dst <> NULL) || bool_decide (size = 0));
  ASSERT (bool_decide (src <> NULL) || bool_decide (size = 0));
  if bool_decide (dst < src) then
    let! m := for_up (Z.to_nat size) 0
                (fun i m => let! c := load m (src + i) in store m (dst + i) c) m in
    Ret (m, dst + size)
  else
    let! m := for_up (Z.to_nat size) 0
                (fun i m => let! c := load m (src + size - 1 - i) in
                            store m (dst + size - 1 - i) c) m in
    Ret (m, dst).

Definition memcmp (m : mem) (a b size : Z) : res Z :=
  ASSERT (bool_decide (a <> NULL) || bool_decide (size = 0));
  ASSERT (bool_decide (b <> NULL) || bool_decide (size = 0));
  let! o := find_up (Z.to_nat size) 0
              (fun i => let! x := load m (a + i) in
                        let! y := load m (b + i) in
                        Ret (if bool_decide (x <> y)
                             then Some (if bool_decide (x > y) then 1 else -1) else None)) in
  Ret (default 0 o).

Definition strcmp (m : mem) (a b : Z) : res Z :=
  ASSERT (bool_decide (a <> NULL));
  ASSERT (bool_decide (b <> NULL));
  iter (fuel_of m)
    (fun i =>
       let! x := load m (a + i) in
       if bool_decide (x = 0) then
         let! y := load m (b + i) in
         Ret (inr (if bool_decide (x < y) then -1 else if bool_decide (x > y) then 1 else 0))
       else
         let! y := load m (b + i) in
         if bool_decide (x = y) then Ret (inl (i + 1))
         else Ret (inr (if bool_decide (x < y) then -1 else if bool_decide (x > y) then 1 else 0)))
    0.

Definition memchr (m : mem) (block ch_ size : Z) : res Z :=
  let ch := u8 ch_ in
  ASSERT (bool_decide (block <> NULL) || bool_decide (size = 0));
  let! o := find_up (Z.to_nat size) block
              (fun p => let! x := load m p in Ret (if bool_decide (x = ch) then Some p else None)) in
  Ret (default NULL o).

Definition strchr (m : mem) (string c_ : Z) : res Z :=
  let c := u8 c_ in
  ASSERT (bool_decide (string <> NULL));
  iter (fuel_of m)
    (fun p =>
       let! x := load m p in
       if bool_decide (x = c) then Ret (inr p)
       else if bool_decide (x = 0) then Ret (inr NULL)
       else Ret (inl (p + 1)))
    string.

Definition strcspn (m : mem) (string stop : Z) : res Z :=
  iter (fuel_of m)
    (fun length =>
       let! x := load m (string + length) in
       if bool_decide (x = 0) then Ret (inr length)
       else let! r := strchr m stop x in
            if bool_decide (r <> NULL) then Ret (inr length) else Ret (inl (length + 1)))
    0.

Definition strpbrk (m : mem) (string stop : Z) : res Z :=
  iter (fuel_of m)
    (fun p =>
       let! x := load m p in
       if bool_decide (x = 0) then Ret (inr NULL)
       else let! r := strchr m stop x in
            if bool_decide (r <> NULL) then Ret (inr p) else Ret (inl (p + 1)))
    string.

Definition strrchr (m : mem) (string c_ : Z) : res Z :=
  let c := u8 c_ in
  iter (fuel_of m)
    (fun '(string, p) =>
       let! x := load m string in
       if bool_decide (x = 0) then Ret (inr p)
       else Ret (inl (string + 1, if bool_decide (x = c) then string else p)))
    (string, NULL).

Definition strspn (m : mem) (string skip : Z) : res Z :=
  iter (fuel_of m)
    (fun length =>
       let! x := load m (string + length) in
       if bool_decide (x = 0) then Ret (inr length)
       else let! r := strchr m skip x in
            if bool_decide (r = NULL) then Ret (inr length) else Ret (inl (length + 1)))
    0.

Definition strlen (m : mem) (string : Z) : res Z :=
  ASSERT (bool_decide (string <> NULL));
  let! p := iter (fuel_of m)
              (fun p => let! x := load m p in
                        if bool_decide (x = 0) then Ret (inr p) else Ret (inl (p + 1)))
              string in
  Ret (p - string).

Definition strstr (m : mem) (haystack needle : Z) : res Z :=
  let! haystack_len := strlen m haystack in
  let! needle_len := strlen m needle in
  if bool_decide (haystack_len >= needle_len) then
    let! o := find_up (Z.to_nat (haystack_len - needle_len + 1)) 0
                (fun i => let! r := memcmp m (haystack + i) needle needle_len in
                          Ret (if bool_decide (r = 0) then Some (haystack + i) else None)) in
    Ret (default NULL o)
  else Ret NULL.

(** The state threaded through is the memory and [*save_ptr]; the third
    component is the returned token. *)
Definition strtok_r (m : mem) (s delimiters save_ptr : Z) : res (mem * Z * Z) :=
  ASSERT (bool_decide (delimiters <> NULL));
  let s := if bool_decide (s = NULL) then save_ptr else s in
  ASSERT (bool_decide (s <> NULL));
  let! '(s, done) := iter (fuel_of m)
         (fun s =>
            let! c := load m s in
            let! r := strchr m delimiters c in
            if bool_decide (r <> NULL) then
              if bool_decide (c = 0) then Ret (inr (s, true)) else Ret (inl (s + 1))
            else Ret (inr (s, false)))
         s in
  if (done : bool) then Ret (m, s, NULL)
  else
    let token := s in
    let! s := iter (fuel_of m)
                (fun s =>
                   let! c := load m s in
                   let! r := strchr m delimiters c in
                   if bool_decide (r = NULL) then Ret (inl (s + 1)) else Ret (inr s))
                s in
    let! c := load m s in
    if bool_decide (c <> 0) then
      let! m := store m s 0 in
      Ret (m, s + 1, token)
    else Ret (m, s, token).

Definition memset (m : mem) (dst value size : Z) : res (mem * Z) :=
  ASSERT (bool_decide (dst <> NULL) || bool_decide (size = 0));
  let! m := for_up (Z.to_nat size) 0 (fun i m => store m (dst + i) (u8 value)) m in
  Ret (m, dst).

Definition strnlen (m : mem) (string maxlen : Z) : res Z :=
  iter (fuel_of m)
    (fun length =>
       let! x := load m (string + length) in
       if bool_decide (x <> 0) && bool_decide (length < maxlen) then Ret (inl (length + 1))
       else Ret (inr length))
    0.

Definition strlcpy (m : mem) (dst src size : Z) : res (mem * Z) :=
  ASSERT (bool_decide (dst <> NULL));
  ASSERT (bool_decide (src <> NULL));
  let! src_len := strlen m src in
  if bool_decide (size > 0) then
    let dst_len := size - 1 in
    let dst_len := if bool_decide (src_len < dst_len) then src_len else dst_len in
    let! '(m, _) := memcpy m dst src dst_len in
    let! m := store m (dst + dst_len) 0 in
    Ret (m, src_len)
  else Ret (m, src_len).

Definition strlcat (m : mem) (dst src size : Z) : res (mem * Z) :=
  ASSERT (bool_decide (dst <> NULL));
  ASSERT (bool_decide (src <> NULL));
  let! src_len := strlen m src in
  let! dst_len := strlen m dst in
  if bool_decide (size > 0) && bool_decide (dst_len < size) then
    let copy_cnt := size - dst_len - 1 in
    let copy_cnt := if bool_decide (src_len < copy_cnt) then src_len else copy_cnt in
    let! '(m, _) := memcpy m (dst + dst_len) src copy_cnt in
    let! m := store m (dst + dst_len + copy_cnt) 0 in
    Ret (m, src_len + dst_len)
  else Ret (m, src_len + dst_len).

(** The tokenizing loop of the documentation of strtok_r: the first call gets
    the string, the later ones a null pointer, until no token is left. *)
Fixpoint tokenize (fuel : nat) (m : mem) (s delimiters save_ptr : Z) : res (mem * list Z) :=
  match fuel with
  | O => NoFuel
  | S fuel =>
      let! '(m, save_ptr, token) := strtok_r m s delimiters save_ptr in
      if bool_decide (token = NULL) then Ret (m, [])
      else let! '(m, l) := tokenize fuel m NULL delimiters save_ptr in
           Ret (m, token :: l)
  end.

(** ** Contents of memory *)

Definition bytes (m : mem) (p : Z) (l : list Z) : Prop :=
  forall i x, l !! i = Some x -> m !! (p + Z.of_nat i) = Some x.

(** [s] is the string at [p], terminator excluded. *)
Definition cstr (m : mem) (p : Z) (s : list Z) : Prop :=
  bytes m p (s ++ [0]) /\ Forall (fun c => 0 < c < 256) s /\ 0 < p.

(** [m'] differs from [m] only in [p, p + n). *)
Definition same_outside (p n : Z) (m m' : mem) : Prop :=
  (forall q, ~ p <= q < p + n -> m' !! q = m !! q) /\ dom m' = dom m.

(** Reference functions on lists of bytes. *)
Fixpoint span_len (P : Z -> bool) (s : list Z) : nat :=
  match s with
  | [] => 0
  | c :: s => if P c then S (span_len P s) else 0
  end.

Definition isin (d : list Z) (c : Z) : bool := bool_decide (c ∈ d).

Fixpoint tokens_go (P : Z -> bool) (cur s : list Z) : list (list Z) :=
  match s with
  | [] => if decide (cur = []) then [] else [cur]
  | c :: s =>
      if P c then (if decide (cur = []) then [] else [cur]) ++ tokens_go P [] s
      else tokens_go P (cur ++ [c]) s
  end.

Definition tokens (P : Z -> bool) (s : list Z) : list (list Z) := tokens_go P [] s.
