(* ===== verification/CstringProof.v ===== *)
(** * Correctness of lib/string.c *)

From S2P Require Import Prelude Cstring.

(** ** Memory contents *)

Lemma bytes_nil m p : bytes m p [].
Proof. intros i x; by rewrite lookup_nil. Qed.

Lemma bytes_cons m p c l : bytes m p (c :: l) <-> m !! p = Some c /\ bytes m (p + 1) l.
Proof.
  split.
  - intros H; split.
    + specialize (H 0%nat c eq_refl). by rewrite Z.add_0_r in H.
    + intros i x Hi. specialize (H (S i) x Hi).
      by replace (p + 1 + Z.of_nat i) with (p + Z.of_nat (S i)) by lia.
  - intros [H0 H] [|i] x Hi; simpl in Hi.
    + rewrite Z.add_0_r. congruence.
    + specialize (H i x Hi). by replace (p + Z.of_nat (S i)) with (p + 1 + Z.of_nat i) by lia.
Qed.

Lemma bytes_app m p l1 l2 :
  bytes m p (l1 ++ l2) <-> bytes m p l1 /\ bytes m (p + Z.of_nat (length l1)) l2.
Proof.
  revert p; induction l1 as [|c l1 IH]; intros p; simpl.
  - rewrite Z.add_0_r. split; [|tauto]. split; [apply bytes_nil|done].
  - rewrite !bytes_cons, IH.
    replace (p + 1 + Z.of_nat (length l1)) with (p + Z.of_nat (S (length l1))) by lia. tauto.
Qed.

Lemma bytes_drop m p l n : bytes m p l -> (n <= length l)%nat -> bytes m (p + Z.of_nat n) (drop n l).
Proof.
  intros H Hn. rewrite <- (take_drop n l), bytes_app in H.
  rewrite length_take_le in H by done. apply H.
Qed.

Lemma bytes_take m p l n : bytes m p l -> bytes m p (take n l).
Proof. rewrite <- (take_drop n l) at 1. rewrite bytes_app. tauto. Qed.

Lemma bytes_load m p l i x : bytes m p l -> l !! i = Some x -> load m (p + Z.of_nat i) = Ret x.
Proof. intros H Hi. unfold load. by rewrite (H i x Hi). Qed.

Lemma bytes_load0 m p c l : bytes m p (c :: l) -> load m p = Ret c.
Proof. rewrite bytes_cons. intros [H _]. unfold load. by rewrite H. Qed.

(** Mapped bytes bound the length of what is stored there. *)
Lemma bytes_size m p l : bytes m p l -> (length l <= size m)%nat.
Proof.
  revert m p; induction l as [|c l IH]; intros m p H; simpl; [lia|].
  rewrite bytes_cons in H. destruct H as [H0 H].
  pose proof (map_size_delete_Some _ _ (mk_is_Some _ _ H0)) as Hs.
  enough (length l <= size (delete p m))%nat by (pose proof (map_size_ne_0_lookup_2 m p (mk_is_Some _ _ H0)); lia).
  apply (IH _ (p + 1)). intros i x Hi. rewrite lookup_delete_ne by lia. auto.
Qed.

Lemma bytes_agree m m' p l :
  bytes m p l -> (forall q, p <= q < p + Z.of_nat (length l) -> m' !! q = m !! q) -> bytes m' p l.
Proof.
  intros H Hq i x Hi. rewrite Hq; [by apply H|]. apply lookup_lt_Some in Hi. lia.
Qed.

Lemma bytes_insert_ne m p l q v :
  bytes m p l -> ~ p <= q < p + Z.of_nat (length l) -> bytes (<[q := v]> m) p l.
Proof. intros H Hq. eapply bytes_agree; [done|]. intros. apply lookup_insert_ne. lia. Qed.

Lemma cstr_cons m p c s : cstr m p (c :: s) -> m !! p = Some c /\ 0 < c < 256 /\ cstr m (p + 1) s.
Proof.
  intros (H & Hc & Hp). simpl in H. rewrite bytes_cons in H. inversion Hc; subst.
  split_and!; try tauto; try lia. split_and!; [tauto|done|lia].
Qed.

Lemma cstr_drop m p s n : cstr m p s -> (n <= length s)%nat -> cstr m (p + Z.of_nat n) (drop n s).
Proof.
  intros (H & Hc & Hp) Hn. split_and!; [|by apply Forall_drop|lia].
  rewrite <- (drop_app_le s [0] n) by done. apply bytes_drop; [done|]. rewrite length_app; simpl; lia.
Qed.

Lemma cstr_size m p s : cstr m p s -> (length s < size m)%nat.
Proof. intros (H & _). apply bytes_size in H. rewrite length_app in H. simpl in H. lia. Qed.

Lemma cstr_load m p s i x : cstr m p s -> s !! i = Some x -> load m (p + Z.of_nat i) = Ret x.
Proof. intros (H & _) Hi. eapply bytes_load; [done|]. by apply lookup_app_l_Some. Qed.

Lemma cstr_load_end m p s : cstr m p s -> load m (p + Z.of_nat (length s)) = Ret 0.
Proof. intros (H & _). eapply bytes_load; [done|]. by rewrite list_lookup_middle. Qed.

Lemma cstr_lookup_pos m p s i x : cstr m p s -> s !! i = Some x -> 0 < x < 256.
Proof. intros (_ & H & _) Hi. exact (Forall_lookup_1 _ _ _ _ H Hi). Qed.

Lemma cstr_agree m m' p s :
  cstr m p s -> (forall q, p <= q < p + Z.of_nat (length s) + 1 -> m' !! q = m !! q) -> cstr m' p s.
Proof.
  intros (H & Hc & Hp) Hq. split_and!; [|done..]. eapply bytes_agree; [done|].
  intros q Hr. rewrite length_app in Hr. simpl in Hr. apply Hq. lia.
Qed.

Lemma same_outside_refl p n m : same_outside p n m m.
Proof. done. Qed.

Lemma same_outside_trans p n m1 m2 m3 :
  same_outside p n m1 m2 -> same_outside p n m2 m3 -> same_outside p n m1 m3.
Proof.
  intros [H1 H1'] [H2 H2']. split; [|congruence]. intros q Hq. by rewrite H2, H1.
Qed.

Lemma same_outside_weaken p n p' n' m m' :
  same_outside p n m m' -> p' <= p -> p + n <= p' + n' -> same_outside p' n' m m'.
Proof. intros [H Hd] H1 H2. split; [|done]. intros q Hq. apply H. lia. Qed.

Lemma same_outside_insert p n m q v :
  p <= q < p + n -> is_Some (m !! q) -> same_outside p n m (<[q := v]> m).
Proof.
  intros Hq Hs. split.
  - intros q' Hq'. apply lookup_insert_ne. lia.
  - rewrite dom_insert_L. apply elem_of_dom in Hs. set_solver.
Qed.

Lemma store_ok m q v : is_Some (m !! q) -> store m q v = Ret (<[q := v]> m).
Proof. intros H. unfold store. by rewrite bool_decide_eq_true_2. Qed.

(** ** Leading spans *)

Lemma span_len_le P s : (span_len P s <= length s)%nat.
Proof. induction s as [|c s IH]; simpl; [lia|]. destruct (P c); lia. Qed.

Lemma span_len_before P s i x : (i < span_len P s)%nat -> s !! i = Some x -> P x = true.
Proof.
  revert i; induction s as [|c s IH]; intros i Hi Hx; simpl in *; [done|].
  destruct (P c) eqn:E; [|lia]. destruct i; simpl in *; [congruence|]. apply (IH i); [lia|done].
Qed.

Lemma span_len_at P s : (span_len P s < length s)%nat ->
  exists x, s !! span_len P s = Some x /\ P x = false.
Proof.
  induction s as [|c s IH]; simpl; [lia|]. destruct (P c) eqn:E; simpl; [|eauto].
  intros. apply IH. lia.
Qed.

(** A scan that leaves at the first position [k] where its condition holds. *)
Lemma scan_ok {R} (f : Z -> res (Z + R)) (p : Z) (k fuel : nat) (r : R) :
  (forall i, (i < k)%nat -> f (p + Z.of_nat i) = Ret (inl (p + Z.of_nat i + 1))) ->
  f (p + Z.of_nat k) = Ret (inr r) -> (k < fuel)%nat -> iter fuel f p = Ret r.
Proof.
  revert p fuel; induction k as [|k IH]; intros p fuel Hb He Hf; (destruct fuel; [lia|]); simpl.
  - rewrite Z.add_0_r in He. by rewrite He.
  - pose proof (Hb 0%nat ltac:(lia)) as H0. rewrite Z.add_0_r in H0. rewrite H0. simpl.
    apply IH; [|by replace (p + 1 + Z.of_nat k) with (p + Z.of_nat (S k)) by lia|lia].
    intros i Hi. replace (p + 1 + Z.of_nat i) with (p + Z.of_nat (S i)) by lia. apply Hb. lia.
Qed.

(** ** Block operations *)

Definition mapped (m : mem) (p n : Z) : Prop := forall q, p <= q < p + n -> is_Some (m !! q).

(** [m'] is [m] with [n] bytes of [m] at [src] copied to [dst]. *)
Definition copied (m : mem) (dst src n : Z) (m' : mem) : Prop :=
  forall q, m' !! q = if decide (dst <= q < dst + n) then m !! (q - dst + src) else m !! q.

Lemma copied_dom m dst src n m' :
  copied m dst src n m' -> mapped m dst n -> mapped m src n -> dom m' = dom m.
Proof.
  intros H Hd Hs. apply set_eq. intros q. rewrite !elem_of_dom, H. case_decide; [|done].
  split; intros _; [by apply Hd|apply Hs; lia].
Qed.

Lemma copied_bytes m dst src n m' l :
  copied m dst src n m' -> bytes m src l -> n = Z.of_nat (length l) -> bytes m' dst l.
Proof.
  intros H Hb -> i x Hi. rewrite H. apply lookup_lt_Some in Hi as Hl.
  rewrite decide_True by lia. replace (dst + Z.of_nat i - dst + src) with (src + Z.of_nat i) by lia. auto.
Qed.

Lemma copied_same_outside m dst src n m' :
  copied m dst src n m' -> mapped m dst n -> mapped m src n -> same_outside dst n m m'.
Proof.
  intros H Hd Hs. split; [|by eapply copied_dom]. intros q Hq. rewrite H. by rewrite decide_False.
Qed.

Lemma bytes_mapped m p l : bytes m p l -> mapped m p (Z.of_nat (length l)).
Proof.
  intros H q Hq. destruct (lookup_lt_is_Some_2 l (Z.to_nat (q - p))) as [x Hx]; [lia|].
  exists x. replace q with (p + Z.of_nat (Z.to_nat (q - p))) by lia. by apply H.
Qed.

Section Copy.
Context (m : mem) (dst src size : Z).
Hypothesis Hsize : 0 <= size.
Hypothesis Hdst : mapped m dst size.
Hypothesis Hsrc : mapped m src size.

(** Copying upwards is right unless the destination starts inside the source. *)
Lemma copy_up_ok : dst <= src \/ src + size <= dst ->
  exists m', for_up (Z.to_nat size) 0
               (fun i m => let! c := load m (src + i) in store m (dst + i) c) m = Ret m' /\
             copied m dst src size m'.
Proof.
  intros Hov.
  destruct (for_up_total (fun i m' => copied m dst src i m')
    (fun i m => let! c := load m (src + i) in store m (dst + i) c) (Z.to_nat size) 0 m)
    as (m' & -> & H); [| |exists m'; split; [done|by replace size with (0 + Z.of_nat (Z.to_nat size)) by lia]].
  - intros q. by rewrite decide_False by lia.
  - intros k m' Hk Hc. destruct (Hsrc (src + k)) as [c Hc']; [lia|].
    unfold load. rewrite Hc, decide_False, Hc' by lia. cbn [of_opt rbind].
    rewrite store_ok by (rewrite Hc; case_decide; [apply Hsrc|apply Hdst]; lia).
    eexists; split; [done|]. intros q. destruct (decide (q = dst + k)) as [->|].
    + rewrite lookup_insert_eq, decide_True by lia. by replace (dst + k - dst + src) with (src + k) by lia.
    + rewrite lookup_insert_ne, Hc by done. by repeat case_decide; try lia.
Qed.

(** Copying downwards is right unless the source starts inside the destination. *)
Lemma copy_down_ok : src <= dst \/ dst + size <= src ->
  exists m', for_up (Z.to_nat size) 0
               (fun i m => let! c := load m (src + size - 1 - i) in store m (dst + size - 1 - i) c) m
             = Ret m' /\ copied m dst src size m'.
Proof.
  intros Hov.
  destruct (for_up_total (fun i m' => copied m (dst + size - i) (src + size - i) i m')
    (fun i m => let! c := load m (src + size - 1 - i) in store m (dst + size - 1 - i) c)
    (Z.to_nat size) 0 m) as (m' & -> & H).
  - intros q. by rewrite decide_False by lia.
  - intros k m' Hk Hc. destruct (Hsrc (src + size - 1 - k)) as [c Hc']; [lia|].
    unfold load. rewrite Hc, decide_False, Hc' by lia. cbn [of_opt rbind].
    rewrite store_ok by (rewrite Hc, decide_False by lia; apply Hdst; lia).
    eexists; split; [done|]. intros q. destruct (decide (q = dst + size - 1 - k)) as [->|].
    + rewrite lookup_insert_eq, decide_True by lia.
      by replace (dst + size - 1 - k - (dst + size - (k + 1)) + (src + size - (k + 1)))
        with (src + size - 1 - k) by lia.
    + rewrite lookup_insert_ne, Hc by done. repeat case_decide; try lia; [|done]. f_equal. lia.
  - exists m'; split; [done|]. replace (0 + Z.of_nat (Z.to_nat size)) with size in H by lia.
    by replace (dst + size - size) with dst in H by lia; replace (src + size - size) with src in H by lia.
Qed.

Lemma memcpy_ok : 0 < dst -> 0 < src -> dst <= src \/ src + size <= dst ->
  exists m', memcpy m dst src size = Ret (m', dst) /\ copied m dst src size m'.
Proof.
  intros H1 H2 Hov. unfold memcpy, NULL. rewrite !(bool_decide_eq_true_2 (_ <> _)) by lia. cbn [orb rbind assert_].
  destruct (copy_up_ok Hov) as (m' & -> & Hc). simpl. eauto.
Qed.

Lemma memmove_ok : 0 < dst -> 0 < src ->
  exists m', memmove m dst src size = Ret (m', if bool_decide (dst < src) then dst + size else dst) /\
             copied m dst src size m'.
Proof.
  intros H1 H2. unfold memmove, NULL. rewrite !(bool_decide_eq_true_2 (_ <> _)) by lia. cbn [orb rbind assert_].
  case_bool_decide.
  - destruct copy_up_ok as (m' & -> & Hc); [lia|]. simpl. eauto.
  - destruct copy_down_ok as (m' & -> & Hc); [lia|]. simpl. eauto.
Qed.

Lemma memset_ok value : 0 < dst ->
  exists m', memset m dst value size = Ret (m', dst) /\
    forall q, m' !! q = if decide (dst <= q < dst + size) then Some (u8 value) else m !! q.
Proof.
  intros H1. unfold memset, NULL. rewrite bool_decide_eq_true_2 by lia. cbn [orb rbind assert_].
  destruct (for_up_total
    (fun i m' => forall q, m' !! q = if decide (dst <= q < dst + i) then Some (u8 value) else m !! q)
    (fun i m => store m (dst + i) (u8 value)) (Z.to_nat size) 0 m) as (m' & -> & H).
  - intros q. by rewrite decide_False by lia.
  - intros k m' Hk Hc. rewrite store_ok by (rewrite Hc; case_decide; [eauto|apply Hdst; lia]).
    eexists; split; [done|]. intros q. destruct (decide (q = dst + k)) as [->|].
    + by rewrite lookup_insert_eq, decide_True by lia.
    + rewrite lookup_insert_ne, Hc by done. by repeat case_decide; try lia.
  - cbn [rbind]. eexists; split; [done|]. by replace (0 + Z.of_nat (Z.to_nat size)) with size in H by lia.
Qed.
End Copy.

(** ** Comparisons and searches *)

(** The comparison both [memcmp] and [strcmp] compute: lexicographic on bytes. *)
Fixpoint cmp_bytes (a b : list Z) : Z :=
  match a, b with
  | x :: a, y :: b => if bool_decide (x = y) then cmp_bytes a b else if bool_decide (x > y) then 1 else -1
  | [], [] => 0
  | [], _ :: _ => -1
  | _ :: _, [] => 1
  end.

Lemma cmp_bytes_eq a b : cmp_bytes a b = 0 <-> a = b.
Proof.
  revert b; induction a as [|x a IH]; intros [|y b]; simpl; try done.
  case_bool_decide as E; [|case_bool_decide; naive_solver].
  rewrite IH. naive_solver.
Qed.

Lemma memcmp_find m a b la lb k :
  bytes m (a + k) la -> bytes m (b + k) lb -> length la = length lb ->
  find_up (length la) k
    (fun i => let! x := load m (a + i) in
              let! y := load m (b + i) in
              Ret (if bool_decide (x <> y)
                   then Some (if bool_decide (x > y) then 1 else -1) else None)) =
  Ret (if bool_decide (la = lb) then None else Some (cmp_bytes la lb)).
Proof.
  revert lb k; induction la as [|x la IH]; intros [|y lb] k Ha Hb Hl; simpl in *; try done.
  rewrite bytes_cons in Ha, Hb. destruct Ha as [Ha0 Ha], Hb as [Hb0 Hb].
  unfold load at 1 2. rewrite Ha0, Hb0. cbn [of_opt rbind].
  case_bool_decide as E.
  - rewrite (bool_decide_eq_false_2 (x :: la = y :: lb)) by congruence.
    by rewrite (bool_decide_eq_false_2 (x = y)).
  - subst x. rewrite <- !Z.add_assoc in Ha, Hb. rewrite (IH lb (k + 1)) by (done || lia).
    rewrite (bool_decide_eq_true_2 (y = y)) by done. by rewrite (bool_decide_ext (y :: la = y :: lb) (la = lb)) by naive_solver.
Qed.

Lemma memcmp_ok m a b la lb :
  bytes m a la -> bytes m b lb -> length la = length lb -> 0 < a -> 0 < b ->
  memcmp m a b (Z.of_nat (length la)) = Ret (cmp_bytes la lb).
Proof.
  intros Ha Hb Hl Hpa Hpb. unfold memcmp, NULL. rewrite !(bool_decide_eq_true_2 (_ <> 0)) by lia.
  cbn [orb rbind assert_]. rewrite Nat2Z.id.
  rewrite (memcmp_find m a b la lb 0) by (rewrite ?Z.add_0_r; done). cbn [rbind]. f_equal.
  case_bool_decide as E; simpl; [|done]. symmetry. by apply cmp_bytes_eq.
Qed.

Lemma cstr_nil_load m p : cstr m p [] -> m !! p = Some 0.
Proof. intros (H & _). simpl in H. rewrite bytes_cons in H. tauto. Qed.

Lemma strcmp_ok m a b sa sb :
  cstr m a sa -> cstr m b sb -> strcmp m a b = Ret (cmp_bytes sa sb).
Proof.
  intros Ha Hb. unfold strcmp, NULL.
  rewrite !(bool_decide_eq_true_2 (_ <> 0)) by (destruct Ha as (_ & _ & ?), Hb as (_ & _ & ?); lia).
  cbn [rbind assert_]. assert (Hf : (length sa < fuel_of m)%nat).
  { pose proof (cstr_size _ _ _ Ha). unfold fuel_of. lia. }
  match goal with |- iter _ ?f _ = _ => set (F := f) end.
  enough (HF : forall sa sb fuel k, cstr m (a + k) sa -> cstr m (b + k) sb -> (length sa < fuel)%nat ->
            iter fuel F k = Ret (cmp_bytes sa sb)) by (apply HF; by rewrite ?Z.add_0_r).
  clear. intros sa; subst F.
  induction sa as [|x sa IH]; intros sb fuel k Ha Hb Hf; (destruct fuel as [|fuel]; [simpl in Hf; lia|]);
    cbn [iter]; unfold load at 1.
  - rewrite (cstr_nil_load _ _ Ha). cbn [of_opt rbind]. rewrite bool_decide_eq_true_2 by done.
    unfold load. destruct sb as [|y sb].
    + by rewrite (cstr_nil_load _ _ Hb).
    + apply cstr_cons in Hb as (-> & Hy & _). cbn [of_opt rbind]. by rewrite bool_decide_eq_true_2 by lia.
  - apply cstr_cons in Ha as (-> & Hx & Ha). cbn [of_opt rbind]. rewrite bool_decide_eq_false_2 by lia.
    unfold load at 1. destruct sb as [|y sb].
    + rewrite (cstr_nil_load _ _ Hb). cbn [of_opt rbind].
      rewrite !bool_decide_eq_false_2 by lia. by rewrite bool_decide_eq_true_2 by lia.
    + apply cstr_cons in Hb as (-> & Hy & Hb). cbn [of_opt rbind cmp_bytes]. case_bool_decide.
      * cbn [rbind]. apply IH; [by rewrite ?Z.add_assoc..|simpl in Hf; lia].
      * cbn [rbind]. repeat case_bool_decide; try done; lia.
Qed.

Lemma strlen_ok m p s : cstr m p s -> strlen m p = Ret (Z.of_nat (length s)).
Proof.
  intros H. unfold strlen, NULL. rewrite bool_decide_eq_true_2 by (destruct H as (_ & _ & ?); lia).
  cbn [rbind assert_]. rewrite (scan_ok _ p (length s) _ (p + Z.of_nat (length s))); [cbn [rbind]; f_equal; lia| | |].
  - intros i Hi. destruct (lookup_lt_is_Some_2 s i Hi) as [x Hx].
    rewrite (cstr_load _ _ _ _ _ H Hx). cbn [rbind].
    by rewrite bool_decide_eq_false_2 by (pose proof (cstr_lookup_pos _ _ _ _ _ H Hx); lia).
  - by rewrite (cstr_load_end _ _ _ H).
  - pose proof (cstr_size _ _ _ H). unfold fuel_of. lia.
Qed.

Lemma strnlen_ok m p s n : cstr m p s -> 0 <= n ->
  strnlen m p n = Ret (Z.min (Z.of_nat (length s)) n).
Proof.
  intros H Hn. pose proof (cstr_size _ _ _ H) as Hsz. unfold strnlen.
  set (k := Z.min (Z.of_nat (length s)) n).
  apply (scan_ok _ 0 (Z.to_nat k)); [| |unfold fuel_of; lia].
  - intros i Hi. rewrite !Z.add_0_l. destruct (lookup_lt_is_Some_2 s i) as [x Hx]; [lia|].
    rewrite (cstr_load _ _ _ _ _ H Hx). cbn [rbind].
    pose proof (cstr_lookup_pos _ _ _ _ _ H Hx). by rewrite !bool_decide_eq_true_2 by lia.
  - rewrite Z.add_0_l. destruct (decide (Z.of_nat (length s) <= n)).
    + replace (Z.to_nat k) with (length s) by lia. rewrite (cstr_load_end _ _ _ H). cbn [rbind].
      rewrite (bool_decide_eq_false_2 (0 <> 0)) by lia. simpl. do 2 f_equal. lia.
    + destruct (lookup_lt_is_Some_2 s (Z.to_nat k)) as [x Hx]; [lia|].
      rewrite (cstr_load _ _ _ _ _ H Hx). cbn [rbind].
      rewrite (bool_decide_eq_false_2 (_ < n)) by lia. rewrite andb_false_r. do 2 f_equal. lia.
Qed.

(** [strchr] finds the first occurrence, the terminator counting as part of the string. *)
Lemma strchr_ok m p s c : cstr m p s -> 0 <= c < 256 ->
  strchr m p c = Ret (if isin (s ++ [0]) c
                      then p + Z.of_nat (span_len (fun x => negb (bool_decide (x = c))) (s ++ [0]))
                      else NULL).
Proof.
  intros H Hc. unfold strchr. rewrite u8_small by lia.
  rewrite bool_decide_eq_true_2 by (unfold NULL; destruct H as (_ & _ & ?); lia).
  cbn [rbind assert_]. pose proof (cstr_size _ _ _ H) as Hsz.
  set (P := fun x => negb (bool_decide (x = c))). set (k := span_len P (s ++ [0])).
  assert (Hkl : (k <= length s + 1)%nat).
  { pose proof (span_len_le P (s ++ [0])) as Hle. rewrite length_app in Hle. simpl in Hle. fold k in Hle. lia. }
  assert (Hb : forall i x, (i < k)%nat -> (s ++ [0]) !! i = Some x -> x <> c).
  { intros i x Hi Hx E. pose proof (span_len_before P _ i x Hi Hx) as HP. unfold P in HP.
    by rewrite bool_decide_eq_true_2 in HP. }
  assert (Hbody : forall i, (i < k)%nat -> (i < length s)%nat ->
            (let! x := load m (p + Z.of_nat i) in
             if bool_decide (x = c) then Ret (inr (p + Z.of_nat i))
             else if bool_decide (x = 0) then Ret (inr NULL) else Ret (inl (p + Z.of_nat i + 1)))
            = Ret (inl (p + Z.of_nat i + 1))).
  { intros i Hi Hil. destruct (lookup_lt_is_Some_2 s i) as [x Hx]; [lia|].
    rewrite (cstr_load _ _ _ _ _ H Hx). cbn [rbind].
    rewrite (bool_decide_eq_false_2 (x = c)) by (apply (Hb i); [done|by apply lookup_app_l_Some]).
    rewrite bool_decide_eq_false_2; [done|]. pose proof (cstr_lookup_pos _ _ _ _ _ H Hx). lia. }
  destruct (decide (k < length s + 1)%nat) as [Hk|Hk].
  - destruct (span_len_at P (s ++ [0])) as (x & Hx & HP); [rewrite length_app; simpl; fold k; lia|].
    fold k in Hx. apply negb_false_iff, bool_decide_eq_true_1 in HP. subst x.
    unfold isin. rewrite bool_decide_eq_true_2 by (by eapply list_elem_of_lookup_2).
    apply (scan_ok _ p k); [| |unfold fuel_of; lia].
    + intros i Hi. apply Hbody; lia.
    + destruct H as (H & _). rewrite (bytes_load _ _ _ _ _ H Hx). cbn [rbind].
      by rewrite bool_decide_eq_true_2.
  - assert (Hn : c ∉ s ++ [0]).
    { intros Hin. apply list_elem_of_lookup_1 in Hin as [i Hi].
      eapply (Hb i c); [|done..]. apply lookup_lt_Some in Hi. rewrite length_app in Hi. simpl in Hi. lia. }
    unfold isin. rewrite bool_decide_eq_false_2 by done.
    apply (scan_ok _ p (length s)); [| |unfold fuel_of; lia].
    + intros i Hi. apply Hbody; lia.
    + rewrite (cstr_load_end _ _ _ H). cbn [rbind]. rewrite bool_decide_eq_false_2; [done|].
      intros <-. apply Hn. set_solver.
Qed.

Lemma strchr_null m p s c : cstr m p s -> 0 <= c < 256 ->
  exists r, strchr m p c = Ret r /\ bool_decide (r = NULL) = negb (isin (s ++ [0]) c).
Proof.
  intros H Hc. rewrite (strchr_ok m p s c) by done. eexists; split; [done|].
  destruct (isin (s ++ [0]) c); simpl; [|done].
  apply bool_decide_eq_false_2. destruct H as (_ & _ & ?). unfold NULL. lia.
Qed.

(** The spans: [strspn] and [strcspn] return the length of the longest prefix of
    characters in, or not in, the set. *)
Lemma span_loop_ok m p s d ds (want : bool) (f : Z -> res (Z + Z)) :
  cstr m p s -> cstr m d ds ->
  (forall i, f i = let! x := load m (p + i) in
       if bool_decide (x = 0) then Ret (inr i)
       else let! r := strchr m d x in
            if Bool.eqb (bool_decide (r = NULL)) want then Ret (inl (i + 1)) else Ret (inr i)) ->
  iter (fuel_of m) f 0 = Ret (Z.of_nat (span_len (fun x => Bool.eqb (negb (isin ds x)) want) s)).
Proof.
  intros H Hd Hf. pose proof (cstr_size _ _ _ H) as Hsz.
  set (P := fun x => Bool.eqb (negb (isin ds x)) want). set (k := span_len P s).
  pose proof (span_len_le P s) as Hle. fold k in Hle.
  assert (Hstep : forall i x, s !! i = Some x ->
            f (Z.of_nat i) = if P x then Ret (inl (Z.of_nat i + 1)) else Ret (inr (Z.of_nat i))).
  { intros i x Hx. rewrite Hf, (cstr_load _ _ _ _ _ H Hx). cbn [rbind].
    pose proof (cstr_lookup_pos _ _ _ _ _ H Hx) as Hpos. rewrite bool_decide_eq_false_2 by lia.
    destruct (strchr_null m d ds x Hd ltac:(lia)) as (r & -> & Hr). cbn [rbind]. rewrite Hr. unfold P.
    assert (isin (ds ++ [0]) x = isin ds x) as ->; [|by destruct (Bool.eqb _ want)].
    apply bool_decide_ext. rewrite elem_of_app, list_elem_of_singleton. naive_solver lia. }
  apply (scan_ok _ 0 k); [| |unfold fuel_of; lia].
  - intros i Hi. rewrite !Z.add_0_l. destruct (lookup_lt_is_Some_2 s i) as [x Hx]; [lia|].
    rewrite (Hstep i x Hx). by rewrite (span_len_before P s i x Hi Hx).
  - rewrite Z.add_0_l. destruct (decide (k < length s)%nat) as [Hk|].
    + destruct (span_len_at P s Hk) as (x & Hx & HP). by rewrite (Hstep k x Hx), HP.
    + replace k with (length s) by lia. rewrite Hf, (cstr_load_end _ _ _ H). by cbn [rbind].
Qed.

Lemma span_len_ext P Q s : (forall x, P x = Q x) -> span_len P s = span_len Q s.
Proof. intros H. induction s as [|c s IH]; simpl; [done|]. by rewrite H, IH. Qed.

Lemma strspn_ok m p s d ds : cstr m p s -> cstr m d ds ->
  strspn m p d = Ret (Z.of_nat (span_len (isin ds) s)).
Proof.
  intros H Hd. unfold strspn. rewrite (span_loop_ok m p s d ds false); [|done..|].
  - do 2 f_equal. apply span_len_ext. intros x. by destruct (isin ds x).
  - intros i. destruct (load m (p + i)); cbn [rbind]; [|done..]. case_bool_decide; [done|].
    destruct (strchr m d a); cbn [rbind]; [|done..]. by case_bool_decide.
Qed.

Lemma strcspn_ok m p s d ds : cstr m p s -> cstr m d ds ->
  strcspn m p d = Ret (Z.of_nat (span_len (fun x => negb (isin ds x)) s)).
Proof.
  intros H Hd. unfold strcspn. rewrite (span_loop_ok m p s d ds true); [|done..|].
  - do 2 f_equal. apply span_len_ext. intros x. by destruct (isin ds x).
  - intros i. destruct (load m (p + i)); cbn [rbind]; [|done..]. case_bool_decide; [done|].
    destruct (strchr m d a); cbn [rbind]; [|done..]. by repeat case_bool_decide.
Qed.

(** ** Substring search *)

Definition occurs_at (needle hay : list Z) (i : Z) : Prop :=
  0 <= i /\ take (length needle) (drop (Z.to_nat i) hay) = needle.

#[export] Instance occurs_at_dec needle hay i : Decision (occurs_at needle hay i).
Proof. unfold occurs_at. apply _. Defined.

Lemma strstr_ok m h n hs ns : cstr m h hs -> cstr m n ns ->
  (exists i, strstr m h n = Ret (h + i) /\ occurs_at ns hs i /\
             forall j, 0 <= j < i -> ~ occurs_at ns hs j) \/
  (strstr m h n = Ret NULL /\ forall j, ~ occurs_at ns hs j).
Proof.
  intros Hh Hn. unfold strstr. rewrite (strlen_ok _ _ _ Hh), (strlen_ok _ _ _ Hn). cbn [rbind].
  assert (Hlen : forall j, occurs_at ns hs j -> (Z.to_nat j + length ns <= length hs \/ length ns = 0)%nat).
  { intros j [Hj E]. assert (length ns <= length hs - Z.to_nat j)%nat; [|lia].
    rewrite <- E at 1. rewrite length_take, length_drop. lia. }
  case_bool_decide as Hge.
  - destruct (find_up_first (fun i => if decide (occurs_at ns hs i) then Some (h + i) else None)
      (fun i => let! r := memcmp m (h + i) n (Z.of_nat (length ns)) in
                Ret (if bool_decide (r = 0) then Some (h + i) else None))
      (Z.to_nat (Z.of_nat (length hs) - Z.of_nat (length ns) + 1)) 0) as [[-> H]|(k & r & Hk & Hr & Hj & ->)].
    + intros k Hk. destruct Hh as (Hh & _ & Hph), Hn as (Hn & _ & Hpn).
      assert (Hsub : bytes m (h + k) (take (length ns) (drop (Z.to_nat k) hs))).
      { apply bytes_take. replace (h + k) with (h + Z.of_nat (Z.to_nat k)) by lia.
        apply bytes_drop; [|lia]. rewrite bytes_app in Hh. tauto. }
      assert (Hl : length (take (length ns) (drop (Z.to_nat k) hs)) = length ns)
        by (rewrite length_take, length_drop; lia).
      rewrite <- Hl at 1. rewrite bytes_app in Hn. destruct Hn as [Hn _].
      rewrite (memcmp_ok _ _ _ _ _ Hsub Hn Hl) by lia. cbn [rbind]. f_equal.
      rewrite (bool_decide_ext _ _ (cmp_bytes_eq _ _)). unfold occurs_at.
      repeat case_decide; case_bool_decide; naive_solver lia.
    + right. split; [done|]. intros j Hj. destruct (Hlen j Hj) as [Hl|Hl].
      * pose proof (proj1 Hj). specialize (H j ltac:(lia)). by rewrite decide_True in H.
      * specialize (H 0 ltac:(lia)). rewrite decide_True in H; [done|]. by destruct ns.
    + left. case_decide as Ho; [|done]. injection Hr as <-. exists k. split_and!; [done..|].
      intros j Hjk Hoj. specialize (Hj j Hjk). by rewrite decide_True in Hj.
  - right. split; [done|]. intros j Hj. destruct (Hlen j Hj); lia.
Qed.

(** ** Bounded copies *)

(** The common step of [strlcpy] and [strlcat]: [n] characters of [s] and a
    terminator written behind the prefix [d]. *)
Lemma append_ok m dst d src s (n : nat) :
  bytes m dst d -> cstr m src s -> (n <= length s)%nat -> 0 < dst ->
  let q := dst + Z.of_nat (length d) in
  mapped m q (Z.of_nat n + 1) ->
  q + Z.of_nat n + 1 <= src \/ src + Z.of_nat (length s) + 1 <= q ->
  exists m', memcpy m q src (Z.of_nat n) = Ret (m', q) /\
    exists m'', store m' (q + Z.of_nat n) 0 = Ret m'' /\
      bytes m'' dst (d ++ take n s ++ [0]) /\ same_outside q (Z.of_nat n + 1) m m''.
Proof.
  intros Hd Hs Hn Hp q Hmap Hdis. destruct Hs as (Hs & _ & Hsp).
  rewrite bytes_app in Hs. destruct Hs as [Hs _].
  assert (Hsm : mapped m src (Z.of_nat n)).
  { intros x Hx. apply (bytes_mapped _ _ _ Hs). lia. }
  destruct (memcpy_ok m q src (Z.of_nat n)) as (m' & Hcp & Hc);
    [lia|intros x Hx; apply Hmap; lia|done|lia|done|lia|].
  exists m'. split; [done|].
  assert (Hdom : dom m' = dom m).
  { eapply copied_dom; [done|intros x Hx; apply Hmap; lia|done]. }
  assert (Hend : is_Some (m' !! (q + Z.of_nat n))).
  { apply elem_of_dom. rewrite Hdom. apply elem_of_dom, Hmap. lia. }
  rewrite (store_ok m' _ 0 Hend). eexists; split; [done|].
  assert (Hlt : length (take n s) = n) by (rewrite length_take; lia).
  split; [rewrite !bytes_app, Hlt; split_and!|].
  - apply bytes_insert_ne; [|lia]. eapply bytes_agree; [done|]. intros x Hx.
    rewrite Hc. by rewrite decide_False by lia.
  - apply bytes_insert_ne; [|rewrite Hlt; lia]. eapply copied_bytes; [done|by apply bytes_take|by rewrite Hlt].
  - rewrite bytes_cons. split; [apply lookup_insert_eq|apply bytes_nil].
  - split.
    + intros x Hx. rewrite lookup_insert_ne, Hc by lia. by rewrite decide_False by lia.
    + rewrite dom_insert_L, Hdom. rewrite <- Hdom. apply elem_of_dom in Hend. set_solver.
Qed.

Lemma strlcpy_ok m dst src s size :
  cstr m src s -> 0 < dst -> 0 < size -> mapped m dst size ->
  dst + size <= src \/ src + Z.of_nat (length s) + 1 <= dst ->
  exists m', strlcpy m dst src size = Ret (m', Z.of_nat (length s)) /\
    cstr m' dst (take (Z.to_nat (size - 1)) s) /\ same_outside dst size m m'.
Proof.
  intros Hs Hd Hsz Hmap Hdis. unfold strlcpy, NULL.
  rewrite !(bool_decide_eq_true_2 (_ <> 0)) by (destruct Hs as (_ & _ & ?); lia). cbn [rbind assert_].
  rewrite (strlen_ok _ _ _ Hs). cbn [rbind]. rewrite (bool_decide_eq_true_2 (size > 0)) by lia.
  set (n := if bool_decide _ then _ else _).
  assert (Hn : n = Z.min (Z.of_nat (length s)) (size - 1)) by (unfold n; case_bool_decide; lia).
  destruct (append_ok m dst [] src s (Z.to_nat n) (bytes_nil _ _) Hs) as (m1 & H1 & m2 & H2 & Hb & Ho);
    [lia|done|intros x Hx; apply Hmap; simpl in Hx; lia|simpl; lia|].
  simpl in H1, H2, Ho. rewrite !Z.add_0_r in *. rewrite Z2Nat.id in * by lia.
  rewrite H1. cbn [rbind]. rewrite H2. cbn [rbind]. eexists; split; [done|]. split.
  - split_and!; [|apply Forall_take, Hs|done].
    replace (take (Z.to_nat (size - 1)) s) with (take (Z.to_nat n) s); [done|].
    destruct (decide (Z.of_nat (length s) <= size - 1)).
    + rewrite !take_ge by lia. done.
    + f_equal. lia.
  - eapply same_outside_weaken; [done|lia..].
Qed.

Lemma strlcat_ok m dst d src s size :
  cstr m dst d -> cstr m src s -> Z.of_nat (length d) < size -> mapped m dst size ->
  dst + size <= src \/ src + Z.of_nat (length s) + 1 <= dst ->
  exists m', strlcat m dst src size = Ret (m', Z.of_nat (length s) + Z.of_nat (length d)) /\
    cstr m' dst (take (Z.to_nat (size - 1)) (d ++ s)) /\ same_outside dst size m m'.
Proof.
  intros Hd Hs Hsz Hmap Hdis. unfold strlcat, NULL.
  rewrite !(bool_decide_eq_true_2 (_ <> 0)) by (destruct Hs as (_ & _ & ?), Hd as (_ & _ & ?); lia).
  cbn [rbind assert_]. rewrite (strlen_ok _ _ _ Hs), (strlen_ok _ _ _ Hd). cbn [rbind].
  rewrite (bool_decide_eq_true_2 (size > 0)), (bool_decide_eq_true_2 (_ < size)) by lia. cbn [andb].
  set (n := if bool_decide _ then _ else _).
  assert (Hn : n = Z.min (Z.of_nat (length s)) (size - Z.of_nat (length d) - 1))
    by (unfold n; case_bool_decide; lia).
  destruct Hd as (Hd & Hdc & Hdp). rewrite bytes_app in Hd. destruct Hd as [Hd _].
  destruct (append_ok m dst d src s (Z.to_nat n) Hd Hs) as (m1 & H1 & m2 & H2 & Hb & Ho);
    [lia|done|intros x Hx; apply Hmap; simpl in Hx; lia|simpl; lia|].
  rewrite Z2Nat.id in * by lia.
  rewrite H1. cbn [rbind]. rewrite H2. cbn [rbind]. eexists; split; [done|]. split.
  - split_and!; [|apply Forall_take, Forall_app; split; [done|apply Hs]|done].
    replace (take (Z.to_nat (size - 1)) (d ++ s)) with (d ++ take (Z.to_nat n) s);
      [by rewrite <- app_assoc|].
    rewrite take_app_ge by lia. f_equal.
    destruct (decide (Z.of_nat (length s) <= size - Z.of_nat (length d) - 1)).
    + rewrite !take_ge by lia. done.
    + f_equal. lia.
  - eapply same_outside_weaken; [done|lia..].
Qed.

(** ** Tokens *)

Lemma tokens_skip P s : tokens P s = tokens P (drop (span_len P s) s).
Proof. induction s as [|c s IH]; simpl; [done|]. unfold tokens in *. simpl. destruct (P c) eqn:E; [done|]. simpl. by rewrite E. Qed.

Lemma tokens_go_run P cur s : cur <> [] ->
  tokens_go P cur s =
  let j := span_len (fun c => negb (P c)) s in (cur ++ take j s) :: tokens P (drop (S j) s).
Proof.
  revert cur; induction s as [|c s IH]; intros cur Hc; simpl.
  - rewrite decide_False by done. by rewrite app_nil_r.
  - destruct (P c); simpl.
    + rewrite decide_False by done. by rewrite app_nil_r.
    + rewrite IH by (by destruct cur). simpl. by rewrite <- app_assoc.
Qed.

Lemma tokens_next P s : s <> [] -> span_len P s = 0%nat ->
  tokens P s = let j := span_len (fun c => negb (P c)) s in take j s :: tokens P (drop (S j) s).
Proof.
  destruct s as [|c s]; [done|]. intros _. simpl. destruct (P c) eqn:E; [done|]. intros _. simpl.
  unfold tokens at 1. simpl. rewrite E. simpl. by rewrite tokens_go_run by done.
Qed.

Lemma span_len_drop P s : span_len P (drop (span_len P s) s) = 0%nat.
Proof. induction s as [|c s IH]; simpl; [done|]. destruct (P c) eqn:E; [done|]. simpl. by rewrite E. Qed.

Section Strtok.
Context (d : Z) (ds : list Z).
Local Abbreviation D := (isin ds).

(** What one character of the string makes the two scans do. *)
Lemma strchr_delim m s str i x : cstr m d ds -> cstr m s str -> str !! i = Some x ->
  exists r, strchr m d x = Ret r /\ bool_decide (r = NULL) = negb (D x).
Proof.
  intros Hd Hs Hx. pose proof (cstr_lookup_pos _ _ _ _ _ Hs Hx) as Hpos.
  destruct (strchr_null m d ds x Hd ltac:(lia)) as (r & -> & Hr). exists r. split; [done|].
  rewrite Hr. f_equal. apply bool_decide_ext. rewrite elem_of_app, list_elem_of_singleton. naive_solver lia.
Qed.

Lemma strchr_delim_end m : cstr m d ds ->
  exists r, strchr m d 0 = Ret r /\ bool_decide (r = NULL) = false.
Proof.
  intros Hd. destruct (strchr_null m d ds 0 Hd ltac:(lia)) as (r & -> & Hr). exists r. split; [done|].
  rewrite Hr. unfold isin. rewrite bool_decide_eq_true_2; [done|set_solver].
Qed.

Lemma bool_decide_ne (r n : Z) : bool_decide (r <> n) = negb (bool_decide (r = n)).
Proof. by repeat case_bool_decide. Qed.

Lemma skip_loop_ok m s str : cstr m d ds -> cstr m s str ->
  let k := span_len D str in
  iter (fuel_of m)
    (fun s => let! c := load m s in
              let! r := strchr m d c in
              if bool_decide (r <> NULL) then
                if bool_decide (c = 0) then Ret (inr (s, true)) else Ret (inl (s + 1))
              else Ret (inr (s, false))) s
  = Ret (s + Z.of_nat k, bool_decide (drop k str = [])).
Proof.
  intros Hd Hs k. pose proof (cstr_size _ _ _ Hs) as Hsz. pose proof (span_len_le D str) as Hle. fold k in Hle.
  apply (scan_ok _ s k); [| |unfold fuel_of; lia].
  - intros i Hi. destruct (lookup_lt_is_Some_2 str i) as [x Hx]; [lia|].
    rewrite (cstr_load _ _ _ _ _ Hs Hx). cbn [rbind].
    destruct (strchr_delim m s str i x) as (r & -> & Hr); [done..|]. cbn [rbind].
    rewrite bool_decide_ne, Hr, (span_len_before D str i x Hi Hx). simpl.
    rewrite bool_decide_eq_false_2; [done|]. pose proof (cstr_lookup_pos _ _ _ _ _ Hs Hx). lia.
  - destruct (decide (k < length str)%nat) as [Hk|Hk].
    + destruct (span_len_at D str Hk) as (x & Hx & HD). fold k in Hx.
      rewrite (cstr_load _ _ _ _ _ Hs Hx). cbn [rbind].
      destruct (strchr_delim m s str k x) as (r & -> & Hr); [done..|]. cbn [rbind].
      rewrite bool_decide_ne, Hr, HD. simpl. rewrite bool_decide_eq_false_2; [done|].
      intros E. apply (f_equal length) in E. rewrite length_drop in E. simpl in E. lia.
    + replace k with (length str) by lia. rewrite (cstr_load_end _ _ _ Hs). cbn [rbind].
      destruct (strchr_delim_end m Hd) as (r & -> & Hr). cbn [rbind]. rewrite bool_decide_ne, Hr. simpl.
      rewrite bool_decide_eq_true_2; [done|]. by rewrite drop_ge.
Qed.

Lemma token_loop_ok m s str : cstr m d ds -> cstr m s str ->
  iter (fuel_of m)
    (fun s => let! c := load m s in
              let! r := strchr m d c in
              if bool_decide (r = NULL) then Ret (inl (s + 1)) else Ret (inr s)) s
  = Ret (s + Z.of_nat (span_len (fun c => negb (D c)) str)).
Proof.
  intros Hd Hs. set (k := span_len _ str). pose proof (cstr_size _ _ _ Hs) as Hsz.
  pose proof (span_len_le (fun c => negb (D c)) str) as Hle. fold k in Hle.
  apply (scan_ok _ s k); [| |unfold fuel_of; lia].
  - intros i Hi. destruct (lookup_lt_is_Some_2 str i) as [x Hx]; [lia|].
    rewrite (cstr_load _ _ _ _ _ Hs Hx). cbn [rbind].
    destruct (strchr_delim m s str i x) as (r & -> & Hr); [done..|]. cbn [rbind].
    by rewrite Hr, (span_len_before _ str i x Hi Hx).
  - destruct (decide (k < length str)%nat) as [Hk|Hk].
    + destruct (span_len_at _ str Hk) as (x & Hx & HD). fold k in Hx.
      rewrite (cstr_load _ _ _ _ _ Hs Hx). cbn [rbind].
      destruct (strchr_delim m s str k x) as (r & -> & Hr); [done..|]. cbn [rbind].
      by rewrite Hr, HD.
    + replace k with (length str) by lia. rewrite (cstr_load_end _ _ _ Hs). cbn [rbind].
      destruct (strchr_delim_end m Hd) as (r & -> & Hr). cbn [rbind]. by rewrite Hr.
Qed.

(** Cutting a string at position [j]: the prefix becomes a string of its own. *)
Lemma cut_ok m p str (j : nat) : cstr m p str -> (j < length str)%nat ->
  let m' := <[p + Z.of_nat j := 0]> m in
  store m (p + Z.of_nat j) 0 = Ret m' /\ cstr m' p (take j str) /\
  cstr m' (p + Z.of_nat j + 1) (drop (S j) str) /\ same_outside (p + Z.of_nat j) 1 m m'.
Proof.
  intros Hs Hj m'. destruct (lookup_lt_is_Some_2 str j Hj) as [x Hx].
  assert (Hm : is_Some (m !! (p + Z.of_nat j))).
  { destruct Hs as (Hs & _). exists x. apply Hs. by apply lookup_app_l_Some. }
  assert (Hl : length (take j str) = j) by (rewrite length_take; lia).
  split_and!.
  - by apply store_ok.
  - destruct Hs as (Hs & Hc & Hp). split_and!; [|by apply Forall_take|done].
    rewrite bytes_app, Hl. split; [|rewrite bytes_cons; split; [apply lookup_insert_eq|apply bytes_nil]].
    apply bytes_insert_ne; [|rewrite Hl; lia]. apply bytes_take. rewrite bytes_app in Hs. tauto.
  - replace (p + Z.of_nat j + 1) with (p + Z.of_nat (S j)) by lia.
    eapply cstr_agree; [apply cstr_drop; [exact Hs|lia]|]. intros q Hq. apply lookup_insert_ne. lia.
  - apply same_outside_insert; [lia|done].
Qed.

Lemma strtok_r_start m s save : cstr m d ds -> 0 < (if bool_decide (s = NULL) then save else s) ->
  strtok_r m s d save = strtok_r m (if bool_decide (s = NULL) then save else s) d save.
Proof.
  intros Hd. set (p := if bool_decide (s = NULL) then save else s). intros Hp.
  assert (E : (if bool_decide (p = NULL) then save else p) = p).
  { rewrite bool_decide_eq_false_2; [done|unfold NULL; lia]. }
  unfold strtok_r. fold p. by rewrite E.
Qed.

Lemma strtok_r_none m s str save : cstr m d ds -> cstr m s str ->
  drop (span_len D str) str = [] ->
  strtok_r m s d save = Ret (m, s + Z.of_nat (span_len D str), NULL).
Proof.
  intros Hd Hs E. assert (0 < s) by apply Hs. assert (0 < d) by apply Hd. unfold strtok_r.
  rewrite (bool_decide_eq_true_2 (d <> NULL)), (bool_decide_eq_false_2 (s = NULL)),
    (bool_decide_eq_true_2 (s <> NULL)) by (unfold NULL; lia). cbn [rbind assert_].
  rewrite (skip_loop_ok m s str Hd Hs). cbn [rbind]. by rewrite bool_decide_eq_true_2.
Qed.

Lemma strtok_r_some m s str save : cstr m d ds -> cstr m s str ->
  let k := span_len D str in let str1 := drop k str in
  let j := span_len (fun c => negb (D c)) str1 in
  str1 <> [] ->
  exists m' save', strtok_r m s d save = Ret (m', save', s + Z.of_nat k) /\
    cstr m' (s + Z.of_nat k) (take j str1) /\ cstr m' save' (drop (S j) str1) /\
    same_outside s (Z.of_nat (length str)) m m' /\
    (s + Z.of_nat k + Z.of_nat j + 1 <= save' \/ drop (S j) str1 = []) /\
    save' + Z.of_nat (length (drop (S j) str1)) = s + Z.of_nat (length str).
Proof.
  intros Hd Hs k str1 j E. assert (0 < s) by apply Hs. assert (0 < d) by apply Hd. unfold strtok_r.
  rewrite (bool_decide_eq_true_2 (d <> NULL)), (bool_decide_eq_false_2 (s = NULL)),
    (bool_decide_eq_true_2 (s <> NULL)) by (unfold NULL; lia). cbn [rbind assert_].
  rewrite (skip_loop_ok m s str Hd Hs). fold k str1. cbn [rbind].
  rewrite (bool_decide_eq_false_2 (str1 = [])) by done.
  pose proof (span_len_le D str) as Hk. fold k in Hk.
  assert (Hl1 : length str1 = (length str - k)%nat) by (unfold str1; by rewrite length_drop).
  assert (Hs1 : cstr m (s + Z.of_nat k) str1) by (by apply cstr_drop).
  rewrite (token_loop_ok m _ str1 Hd Hs1). fold j. cbn [rbind].
  pose proof (span_len_le (fun c => negb (D c)) str1) as Hj. fold j in Hj.
  destruct (decide (j < length str1)%nat) as [Hlt|Hge].
  - destruct (lookup_lt_is_Some_2 str1 j Hlt) as [x Hx]. rewrite (cstr_load _ _ _ _ _ Hs1 Hx). cbn [rbind].
    pose proof (cstr_lookup_pos _ _ _ _ _ Hs1 Hx). rewrite bool_decide_eq_true_2 by lia.
    destruct (cut_ok m _ str1 j Hs1 Hlt) as (-> & Ht & Hr & Ho). cbn [rbind].
    eexists _, _. split_and!; [done|done|done| | |].
    + eapply same_outside_weaken; [done|lia..].
    + lia.
    + rewrite length_drop. lia.
  - assert (Hjl : j = length str1) by lia. rewrite Hjl, (cstr_load_end _ _ _ Hs1). cbn [rbind].
    assert (Hdr : drop (S (length str1)) str1 = []) by (apply drop_ge; lia).
    rewrite Hdr, firstn_all. eexists _, _. split_and!; [done|done| | | |].
    + rewrite <- (drop_all str1). by apply cstr_drop.
    + apply same_outside_refl.
    + by right.
    + simpl. lia.
Qed.

(** The whole loop: the pointers it collects address the tokens of the string. *)
Lemma tokenize_ok fuel m s save str :
  let p := if bool_decide (s = NULL) then save else s in
  cstr m d ds -> cstr m p str ->
  d + Z.of_nat (length ds) + 1 <= p \/ p + Z.of_nat (length str) + 1 <= d ->
  (length str < fuel)%nat ->
  exists m' ptrs, tokenize fuel m s d save = Ret (m', ptrs) /\
    Forall2 (cstr m') ptrs (tokens D str) /\ same_outside p (Z.of_nat (length str)) m m'.
Proof.
  revert m s save str; induction fuel as [|fuel IH]; intros m s save str p Hd Hs Hdis Hf; [lia|].
  cbn [tokenize]. rewrite strtok_r_start by (done || apply Hs). fold p.
  rewrite tokens_skip. destruct (decide (drop (span_len D str) str = [])) as [E|E].
  - rewrite (strtok_r_none m p str save Hd Hs E). cbn [rbind]. rewrite bool_decide_eq_true_2 by done.
    rewrite E. eexists _, _. split_and!; [done| |apply same_outside_refl]. constructor.
  - destruct (strtok_r_some m p str save Hd Hs E) as (m1 & save1 & -> & Ht & Hr & Ho & Hsv & Hend).
    rewrite (tokens_next _ _ E (span_len_drop _ _)). cbv zeta. cbn [rbind].
    set (k := span_len D str) in *. set (str1 := drop k str) in *.
    set (j := span_len (fun c => negb (D c)) str1) in *.
    assert (0 < p) by apply Hs. rewrite bool_decide_eq_false_2 by (unfold NULL; lia).
    assert (Hlr : (length (drop (S j) str1) < length str)%nat).
    { destruct str1 eqn:E1; [done|]. unfold str1 in E1. apply (f_equal length) in E1.
      rewrite length_drop in *. simpl in *. lia. }
    assert (Hd1 : cstr m1 d ds).
    { eapply cstr_agree; [done|]. intros q Hq. apply Ho. lia. }
    destruct (IH m1 NULL save1 (drop (S j) str1)) as (m2 & ptrs & -> & Hall & Ho2); simpl;
      [done|done|lia|lia|].
    simpl in Ho2. eexists _, _. split_and!; [done| |].
    + constructor; [|done]. eapply cstr_agree; [exact Ht|]. intros q Hq. apply Ho2.
      assert (Hjl : (length (take j str1) <= j)%nat) by (rewrite length_take; lia).
      destruct Hsv as [Hsv|Hsv]; [lia|rewrite Hsv; simpl; lia].
    + eapply same_outside_trans; [done|]. eapply same_outside_weaken; [done| |]; [|lia]. lia.
Qed.
End Strtok.

(** ** Properties *)

(** A memory that holds the given bytes from address [p] on. *)
Definition mem_at (p : Z) (l : list Z) : mem :=
  list_to_map (imap (fun i c => (p + Z.of_nat i, c)) l).

(** The tokenizing loop over [strtok_r] (the string first, null pointers
    after) terminates without failing an assertion or leaving the string, the
    pointers it yields address exactly the maximal delimiter-free substrings of
    the string, in order and each null-terminated, and nothing outside the
    string is written. *)
Theorem strtok_r_tokens m d ds s str :
  cstr m d ds -> cstr m s str ->
  d + Z.of_nat (length ds) + 1 <= s \/ s + Z.of_nat (length str) + 1 <= d ->
  exists m' ptrs,
    tokenize (S (length str)) m s d NULL = Ret (m', ptrs) /\
    Forall2 (cstr m') ptrs (tokens (isin ds) str) /\
    same_outside s (Z.of_nat (length str)) m m'.
Proof.
  intros Hd Hs Hdis. assert (0 < s) by apply Hs.
  pose proof (tokenize_ok d ds (S (length str)) m s NULL str) as H'. cbv zeta in H'.
  rewrite (bool_decide_eq_false_2 (s = NULL)) in H' by (unfold NULL; lia).
  apply H'; [done..|lia].
Qed.

(** ["/"] at 100 and ["/a//bc"] at 200. *)
Definition demo_mem : mem := mem_at 100 [47; 0] ∪ mem_at 200 [47; 97; 47; 47; 98; 99; 0].

Lemma bytes_dec_ok m p l :
  forallb (fun '(i, x) => bool_decide (m !! (p + Z.of_nat i) = Some x)) (imap pair l) = true ->
  bytes m p l.
Proof.
  intros H i x Hi. rewrite forallb_forall in H.
  specialize (H (i, x)). apply (bool_decide_eq_true_1 _). apply H.
  apply list_elem_of_In. apply elem_of_lookup_imap. eauto.
Qed.

Lemma cstr_dec_ok m p s :
  forallb (fun '(i, x) => bool_decide (m !! (p + Z.of_nat i) = Some x)) (imap pair (s ++ [0])) = true ->
  bool_decide (Forall (fun c => 0 < c < 256) s) = true -> 0 < p -> cstr m p s.
Proof. intros H1 H2 H3. split_and!; [by apply bytes_dec_ok|by apply (bool_decide_eq_true_1 _)|done]. Qed.

Lemma strtok_r_tokens_witness :
  exists m' ptrs, tokenize 7 demo_mem 200 100 NULL = Ret (m', ptrs) /\
    Forall2 (cstr m') ptrs [[97]; [98; 99]] /\ same_outside 200 6 demo_mem m'.
Proof.
  apply (strtok_r_tokens demo_mem 100 [47] 200 [47; 97; 47; 47; 98; 99]).
  - apply cstr_dec_ok; [vm_compute; reflexivity..|lia].
  - apply cstr_dec_ok; [vm_compute; reflexivity..|lia].
  - simpl; lia.
Defined.

(** [memmove] copies correctly for every overlap of the two blocks: each
    byte of the destination is the original byte of the source, every other byte
    is untouched, no byte outside the blocks is accessed.  It returns the end of
    the destination block, not its start, when the destination is below the
    source. *)
Theorem memmove_overlap m dst src size :
  0 < dst -> 0 < src -> 0 <= size -> mapped m dst size -> mapped m src size ->
  exists m', memmove m dst src size = Ret (m', if bool_decide (dst < src) then dst + size else dst) /\
    (forall q, dst <= q < dst + size -> m' !! q = m !! (q - dst + src)) /\
    same_outside dst size m m'.
Proof.
  intros H1 H2 H3 H4 H5. destruct (memmove_ok m dst src size H3 H4 H5 H1 H2) as (m' & Hr & Hc).
  exists m'. split; [done|]. split.
  - intros q Hq. rewrite Hc. by rewrite decide_True.
  - by eapply copied_same_outside.
Qed.

Lemma mapped_dec_ok m p (n : nat) :
  forallb (fun i => bool_decide (is_Some (m !! (p + Z.of_nat i)))) (seq 0 n) = true ->
  mapped m p (Z.of_nat n).
Proof.
  intros H q Hq. rewrite forallb_forall in H. specialize (H (Z.to_nat (q - p))).
  replace (p + Z.of_nat (Z.to_nat (q - p))) with q in H by lia.
  apply (bool_decide_eq_true_1 _), H, in_seq. lia.
Qed.

Lemma memmove_overlap_witness :
  exists m', memmove demo_mem 200 201 4 = Ret (m', 204) /\
    (forall q, 200 <= q < 204 -> m' !! q = demo_mem !! (q - 200 + 201)) /\
    same_outside 200 4 demo_mem m'.
Proof.
  apply (memmove_overlap demo_mem 200 201 4); try lia; apply (mapped_dec_ok _ _ 4); vm_compute; reflexivity.
Defined.

(** [strlcpy] and [strlcat] never write outside the [size] bytes of the
    destination, always leave it null-terminated with the longest prefix of the
    intended string that fits, and return the length of the intended string, so
    a result of [size] or more tells the caller about truncation. *)
Theorem strlcpy_strlcat_bounded m dst d src s size :
  cstr m dst d -> cstr m src s -> Z.of_nat (length d) < size -> mapped m dst size ->
  dst + size <= src \/ src + Z.of_nat (length s) + 1 <= dst ->
  (exists m', strlcpy m dst src size = Ret (m', Z.of_nat (length s)) /\
     cstr m' dst (take (Z.to_nat (size - 1)) s) /\ same_outside dst size m m') /\
  (exists m', strlcat m dst src size = Ret (m', Z.of_nat (length s) + Z.of_nat (length d)) /\
     cstr m' dst (take (Z.to_nat (size - 1)) (d ++ s)) /\ same_outside dst size m m').
Proof.
  intros Hd Hs Hsz Hmap Hdis. split.
  - apply strlcpy_ok; [done|apply Hd|lia|done..].
  - by apply strlcat_ok.
Qed.

Lemma strlcpy_strlcat_bounded_witness :
  exists m', strlcat demo_mem 203 100 4 = Ret (m', 4) /\
     cstr m' 203 [47; 98; 99] /\ same_outside 203 4 demo_mem m'.
Proof.
  apply (strlcpy_strlcat_bounded demo_mem 203 [47; 98; 99] 100 [47] 4).
  - apply cstr_dec_ok; [vm_compute; reflexivity..|lia].
  - apply cstr_dec_ok; [vm_compute; reflexivity..|lia].
  - simpl; lia.
  - apply (mapped_dec_ok _ _ 4); vm_compute; reflexivity.
  - simpl; lia.
Defined.

(** [strstr] returns a pointer to the first occurrence of the needle, or a
    null pointer exactly when there is none. *)
Theorem strstr_first m h n hs ns : cstr m h hs -> cstr m n ns ->
  (exists i, strstr m h n = Ret (h + i) /\ occurs_at ns hs i /\
             forall j, 0 <= j < i -> ~ occurs_at ns hs j) \/
  (strstr m h n = Ret NULL /\ forall j, ~ occurs_at ns hs j).
Proof. apply strstr_ok. Qed.

Lemma strstr_first_witness :
  (exists i, strstr demo_mem 201 100 = Ret (201 + i) /\ occurs_at [47] [97; 47; 47; 98; 99] i /\
             forall j, 0 <= j < i -> ~ occurs_at [47] [97; 47; 47; 98; 99] j) \/
  (strstr demo_mem 201 100 = Ret NULL /\ forall j, ~ occurs_at [47] [97; 47; 47; 98; 99] j).
Proof.
  apply (strstr_first demo_mem 201 100); (apply cstr_dec_ok; [vm_compute; reflexivity..|lia]).
Defined.
