(* ===== verification/Stdlibc.v ===== *)
(** * lib/stdlib.c: heap sort, binary search, number parsing

    The array is its bytes: an element is a block of [size] bytes, addressed by
    the 1-based indexes of the code, and the comparison function sees the two
    blocks.  A comparison function is a parameter; [Comparison] says what the
    comments ask of it. *)

From S2P Require Import Prelude Cstring CstringProof.

(** ** Operations *)

Section Sort.
Context (compare : list Z -> list Z -> Z).

(** The block of [size] bytes at byte offset [off]. *)
Definition block (array : list Z) (off size : Z) : res (list Z) :=
  if bool_decide (0 <= off /\ off + size <= Z.of_nat (length array))
  then Ret (take (Z.to_nat size) (drop (Z.to_nat off) array)) else Ub.

Definition do_swap (array : list Z) (a_idx b_idx size : Z) : res (list Z) :=
  let a := (a_idx - 1) * size in
  let b := (b_idx - 1) * size in
  for_up (Z.to_nat size) 0
    (fun i array =>
       let! t := aget array (a + i) in
       let! u := aget array (b + i) in
       let! array := aset array (a + i) u in
       aset array (b + i) t)
    array.

Definition do_compare (array : list Z) (a_idx b_idx size : Z) : res Z :=
  let! x := block array ((a_idx - 1) * size) size in
  let! y := block array ((b_idx - 1) * size) size in
  Ret (compare x y).

Definition heapify (array : list Z) (i cnt size : Z) : res (list Z) :=
  iter (S (Z.to_nat cnt))
    (fun '(array, i) =>
       let left := u32 (2 * i) in
       let right := u32 (2 * i + 1) in
       let max := i in
       let! max := (if bool_decide (left <= cnt)
                    then let! c := do_compare array left max size in
                         Ret (if bool_decide (c > 0) then left else max)
                    else Ret max) in
       let! max := (if bool_decide (right <= cnt)
                    then let! c := do_compare array right max size in
                         Ret (if bool_decide (c > 0) then right else max)
                    else Ret max) in
       if bool_decide (max = i) then Ret (inr array)
       else let! array := do_swap array i max size in
            Ret (inl (array, max)))
    (array, i).

(** [array] is not a null pointer here and [compare] is a function. *)
Definition sort (array : list Z) (cnt size : Z) : res (list Z) :=
  ASSERT (bool_decide (size > 0));
  let! array := for_up (Z.to_nat (cnt / 2)) 0
                  (fun k array => heapify array (cnt / 2 - k) cnt size) array in
  for_up (Z.to_nat (cnt - 1)) 0
    (fun k array =>
       let i := cnt - k in
       let! array := do_swap array 1 i size in
       heapify array 1 (i - 1) size)
    array.

Definition qsort (array : list Z) (cnt size : Z) : res (list Z) := sort array cnt size.

(** The result is the byte offset of the match, [None] the null pointer; [key]
    is the block compared with the elements. *)
Definition binary_search (key array : list Z) (cnt size : Z) : res (option Z) :=
  iter (S (Z.to_nat cnt))
    (fun '(first, last) =>
       if bool_decide (first < last) then
         let range := (last - first) / size in
         let middle := first + range / 2 * size in
         let! x := block array middle size in
         let cmp := compare key x in
         if bool_decide (cmp < 0) then Ret (inl (first, middle))
         else if bool_decide (cmp > 0) then Ret (inl (middle + size, last))
         else Ret (inr (Some middle))
       else Ret (inr None))
    (0, size * cnt).

Definition bsearch (key array : list Z) (cnt size : Z) : res (option Z) :=
  binary_search key array cnt size.
End Sort.

Definition isspace (c : Z) : bool :=
  bool_decide (c = 32) || bool_decide (c = 12) || bool_decide (c = 10) ||
  bool_decide (c = 13) || bool_decide (c = 9) || bool_decide (c = 11).
Definition isdigit (c : Z) : bool := bool_decide (48 <= c) && bool_decide (c <= 57).

(** A signed operation whose result leaves [int] is undefined behaviour. *)
Definition int_op (x : Z) : res Z :=
  if bool_decide (- 2 ^ 31 <= x < 2 ^ 31) then Ret x else Ub.

Lemma int_op_small x : - 2 ^ 31 <= x < 2 ^ 31 -> int_op x = Ret x.
Proof. intros. unfold int_op. by rewrite bool_decide_true. Qed.
Lemma int_op_inv x n : int_op x = Ret n -> n = x.
Proof. unfold int_op. case_bool_decide; intros; by simplify_eq. Qed.

Definition atoi (m : mem) (s : Z) : res Z :=
  ASSERT (bool_decide (s <> NULL));
  let! s := iter (fuel_of m)
              (fun s => let! c := load m s in
                        if isspace c then Ret (inl (s + 1)) else Ret (inr s)) s in
  let! c := load m s in
  let '(negative, s) :=
    if bool_decide (c = 43) then (false, s + 1)
    else if bool_decide (c = 45) then (true, s + 1) else (false, s) in
  let! value := iter (fuel_of m)
              (fun '(value, s) =>
                 let! c := load m s in
                 if isdigit c then
                   let! v10 := int_op (value * 10) in
                   let! value := int_op (v10 - (c - 48)) in
                   Ret (inl (value, s + 1))
                 else Ret (inr value)) (0, s) in
  if (negative : bool) then Ret value else int_op (- value).
