(* ===== verification/HeapSort.v ===== *)
(** * Correctness of heap sort and binary search (lib/stdlib.c) *)

From Stdlib Require Import Sorted.
From S2P Require Import Prelude Cstring CstringProof Stdlibc.

(** ** Arrays of blocks *)

Section Blocks.
Context (size : nat).
Implicit Types (els : list (list Z)) (x y : list Z).

Definition blocks els : Prop := Forall (fun x => length x = size) els.

Lemma blocks_insert els n x : blocks els -> length x = size -> blocks (<[n := x]> els).
Proof. intros. by apply Forall_insert. Qed.

Lemma concat_length els : blocks els -> length (concat els) = (length els * size)%nat.
Proof. induction 1 as [|x els Hx _ IH]; simpl; [done|]. rewrite length_app. lia. Qed.

Lemma concat_split els n x : els !! n = Some x ->
  concat els = concat (take n els) ++ x ++ concat (drop (S n) els).
Proof.
  intros H. rewrite <- (take_drop_middle els n x H) at 1. by rewrite concat_app.
Qed.

Lemma prefix_length els n x : blocks els -> els !! n = Some x ->
  length (concat (take n els)) = (n * size)%nat.
Proof.
  intros Hb Hx. rewrite concat_length by (by apply Forall_take).
  apply lookup_lt_Some in Hx. rewrite length_take. f_equal. lia.
Qed.

Lemma concat_lookup els n x i : blocks els -> els !! n = Some x -> (i < size)%nat ->
  concat els !! (n * size + i)%nat = x !! i.
Proof.
  intros Hb Hx Hi. assert (Hl : length x = size) by exact (Forall_lookup_1 _ _ _ _ Hb Hx).
  rewrite (concat_split els n x Hx), lookup_app_r by (rewrite (prefix_length _ _ _ Hb Hx); lia).
  rewrite (prefix_length _ _ _ Hb Hx). rewrite lookup_app_l by lia. f_equal. lia.
Qed.

Lemma concat_insert els n x i v : blocks els -> els !! n = Some x -> (i < size)%nat ->
  <[(n * size + i)%nat := v]> (concat els) = concat (<[n := <[i := v]> x]> els).
Proof.
  intros Hb Hx Hi. assert (Hl : length x = size) by exact (Forall_lookup_1 _ _ _ _ Hb Hx).
  assert (Hn : (n < length els)%nat) by (by apply lookup_lt_Some in Hx).
  rewrite (concat_split els n x Hx), insert_app_r_alt by (rewrite (prefix_length _ _ _ Hb Hx); lia).
  rewrite (prefix_length _ _ _ Hb Hx), insert_app_l by lia.
  replace (n * size + i - n * size)%nat with i by lia.
  rewrite (concat_split (<[n := <[i := v]> x]> els) n (<[i := v]> x)) by (by apply list_lookup_insert_eq).
  by rewrite take_insert_ge, drop_insert_lt by lia.
Qed.

Lemma offset_nat (k i : Z) : 1 <= k -> 0 <= i ->
  Z.to_nat ((k - 1) * Z.of_nat size + i) = (Z.to_nat (k - 1) * size + Z.to_nat i)%nat.
Proof.
  intros Hk Hi. rewrite Z2Nat.inj_add, Z2Nat.inj_mul, Nat2Z.id by (try apply Z.mul_nonneg_nonneg; lia). done.
Qed.

Lemma block_ok els (k : Z) x : blocks els -> 1 <= k -> els !! Z.to_nat (k - 1) = Some x ->
  block (concat els) ((k - 1) * Z.of_nat size) (Z.of_nat size) = Ret x.
Proof.
  intros Hb Hk Hx. pose proof (lookup_lt_Some _ _ _ Hx) as Hlt.
  assert (Hl : length x = size) by exact (Forall_lookup_1 _ _ _ _ Hb Hx).
  unfold block. rewrite bool_decide_eq_true_2.
  2:{ rewrite concat_length by done. split; [apply Z.mul_nonneg_nonneg; lia|].
      rewrite Nat2Z.inj_mul. assert (k <= Z.of_nat (length els)) by lia. nia. }
  f_equal. rewrite Nat2Z.id. rewrite <- (Z.add_0_r ((k - 1) * _)), offset_nat, Nat.add_0_r by lia.
  rewrite (concat_split els _ x Hx), drop_app_ge by (rewrite (prefix_length _ _ _ Hb Hx); lia).
  rewrite (prefix_length _ _ _ Hb Hx), Nat.sub_diag, drop_0.
  by rewrite take_app_le, take_ge by lia.
Qed.

(** Exchange of two elements. *)
Definition exchange els (i j : nat) x y : list (list Z) := <[i := y]> (<[j := x]> els).

Lemma overlay_insert (i : nat) x y v : length x = length y -> y !! i = Some v ->
  <[i := v]> (take i y ++ drop i x) = take (S i) y ++ drop (S i) x.
Proof.
  intros Hl Hv. pose proof (lookup_lt_Some _ _ _ Hv).
  rewrite (take_S_r y i v Hv), insert_app_r_alt by (rewrite length_take; lia).
  rewrite length_take. replace (i - i `min` length y)%nat with 0%nat by lia.
  destruct (lookup_lt_is_Some_2 x i) as [w Hw]; [lia|].
  rewrite (drop_S x w i Hw). simpl. by rewrite <- app_assoc.
Qed.

Lemma overlay_lookup (i : nat) x y v : length x = length y -> x !! i = Some v ->
  (take i y ++ drop i x) !! i = Some v.
Proof.
  intros Hl Hv. pose proof (lookup_lt_Some _ _ _ Hv).
  rewrite lookup_app_r, length_take by (rewrite length_take; lia).
  rewrite lookup_drop. rewrite <- Hv. f_equal. lia.
Qed.

Lemma offset_range els (k i : Z) : 1 <= k -> (Z.to_nat (k - 1) < length els)%nat -> 0 <= i < Z.of_nat size ->
  0 <= (k - 1) * Z.of_nat size + i < Z.of_nat (length els * size).
Proof.
  intros Hk Hl Hi. rewrite Nat2Z.inj_mul.
  assert ((k - 1 + 1) * Z.of_nat size <= Z.of_nat (length els) * Z.of_nat size)
    by (apply Z.mul_le_mono_nonneg_r; lia).
  assert (0 <= (k - 1) * Z.of_nat size) by (apply Z.mul_nonneg_nonneg; lia). lia.
Qed.

(** One round of the byte loop. *)
Lemma swap_byte els (a b k : Z) x y t u : blocks els -> 1 <= a -> 1 <= b -> a <> b ->
  let i := Z.to_nat (a - 1) in let j := Z.to_nat (b - 1) in let q := Z.to_nat k in
  0 <= k < Z.of_nat size -> els !! i = Some x -> els !! j = Some y ->
  x !! q = Some t -> y !! q = Some u ->
  (let! t := aget (concat els) ((a - 1) * Z.of_nat size + k) in
   let! u := aget (concat els) ((b - 1) * Z.of_nat size + k) in
   let! array := aset (concat els) ((a - 1) * Z.of_nat size + k) u in
   aset array ((b - 1) * Z.of_nat size + k) t) =
  Ret (concat (exchange els i j (<[q := t]> y) (<[q := u]> x))).
Proof.
  intros Hb Ha Hb1 Hne i j q Hk Hx Hy Ht Hu.
  pose proof (lookup_lt_Some _ _ _ Hx) as Hi. pose proof (lookup_lt_Some _ _ _ Hy) as Hj.
  pose proof (offset_range els a k Ha Hi Hk) as Hra. pose proof (offset_range els b k Hb1 Hj Hk) as Hrb.
  pose proof (offset_nat a k Ha ltac:(lia)) as Hai. pose proof (offset_nat b k Hb1 ltac:(lia)) as Hbj.
  fold i q in Hai. fold j q in Hbj. assert (Hq : (q < size)%nat) by lia. assert (Hij : i <> j) by lia.
  rewrite <- (concat_length els Hb) in Hra, Hrb.
  rewrite (proj2 (aget_Ret _ _ t)) by (split; [lia|]; by rewrite Hai, (concat_lookup _ _ _ _ Hb Hx Hq)).
  cbn [rbind].
  rewrite (proj2 (aget_Ret _ _ u)) by (split; [lia|]; by rewrite Hbj, (concat_lookup _ _ _ _ Hb Hy Hq)).
  cbn [rbind]. rewrite aset_in_range by lia. cbn [rbind].
  rewrite aset_in_range by (by rewrite length_insert). f_equal.
  rewrite Hai, Hbj, (concat_insert _ i x) by done.
  rewrite (concat_insert _ j y); [|apply blocks_insert; [done|]| |done].
  - unfold exchange. by rewrite list_insert_insert_ne by done.
  - rewrite length_insert. exact (Forall_lookup_1 _ _ _ _ Hb Hx).
  - by rewrite list_lookup_insert_ne by done.
Qed.

Lemma do_swap_ok els (a b : Z) x y : blocks els -> 1 <= a -> 1 <= b -> a <> b ->
  els !! Z.to_nat (a - 1) = Some x -> els !! Z.to_nat (b - 1) = Some y ->
  do_swap (concat els) a b (Z.of_nat size) =
  Ret (concat (exchange els (Z.to_nat (a - 1)) (Z.to_nat (b - 1)) x y)).
Proof.
  intros Hb Ha Hb1 Hne Hx Hy.
  set (i := Z.to_nat (a - 1)) in *. set (j := Z.to_nat (b - 1)) in *.
  assert (Hlx : length x = size) by exact (Forall_lookup_1 _ _ _ _ Hb Hx).
  assert (Hly : length y = size) by exact (Forall_lookup_1 _ _ _ _ Hb Hy).
  pose proof (lookup_lt_Some _ _ _ Hx). pose proof (lookup_lt_Some _ _ _ Hy).
  assert (Hij : i <> j) by lia. unfold do_swap.
  destruct (for_up_total
    (fun k arr => arr = concat (exchange els i j (take (Z.to_nat k) x ++ drop (Z.to_nat k) y)
                                               (take (Z.to_nat k) y ++ drop (Z.to_nat k) x)))
    (fun k array =>
       let! t := aget array ((a - 1) * Z.of_nat size + k) in
       let! u := aget array ((b - 1) * Z.of_nat size + k) in
       let! array := aset array ((a - 1) * Z.of_nat size + k) u in
       aset array ((b - 1) * Z.of_nat size + k) t)
    (Z.to_nat (Z.of_nat size)) 0 (concat els)) as (arr & -> & ->).
  - simpl. unfold exchange. by rewrite !drop_0, (list_insert_id els j y Hy), (list_insert_id els i x Hx).
  - intros k arr Hk ->. set (q := Z.to_nat k).
    destruct (lookup_lt_is_Some_2 x q) as [t Ht]; [lia|].
    destruct (lookup_lt_is_Some_2 y q) as [u Hu]; [lia|].
    assert (Hlo : forall v w : list Z, length v = size -> length w = size ->
              length (take q v ++ drop q w) = size)
      by (intros; rewrite length_app, length_take, length_drop; lia).
    rewrite (swap_byte _ a b k (take q y ++ drop q x) (take q x ++ drop q y) t u); [| |lia|lia|done|lia|..].
    + eexists; split; [done|]. fold i j q. rewrite (overlay_insert q x y u), (overlay_insert q y x t) by (done || lia).
      replace (Z.to_nat (k + 1)) with (S q) by lia. unfold exchange.
      rewrite (list_insert_insert_ne _ i j) by done. rewrite list_insert_insert_eq.
      by rewrite (list_insert_insert_ne _ j i), list_insert_insert_eq by done.
    + by repeat apply blocks_insert; auto.
    + apply list_lookup_insert_eq. by rewrite length_insert.
    + unfold exchange. fold i j. rewrite list_lookup_insert_ne by done. by apply list_lookup_insert_eq.
    + apply overlay_lookup; [lia|done].
    + apply overlay_lookup; [lia|done].
  - f_equal. replace (Z.to_nat (0 + Z.of_nat (Z.to_nat (Z.of_nat size)))) with size by lia.
    by rewrite !take_ge, !drop_ge, !app_nil_r by lia.
Qed.
End Blocks.

(** ** Comparison functions *)

(** What the comments ask of [compare]: a strcmp()-type total preorder. *)
Class Comparison (compare : list Z -> list Z -> Z) : Prop := {
  compare_flip : forall x y, compare x y > 0 <-> compare y x < 0;
  compare_trans : forall x y z, compare x y <= 0 -> compare y z <= 0 -> compare x z <= 0;
}.

Lemma cmp_bytes_range a b : cmp_bytes a b = 0 \/ cmp_bytes a b = 1 \/ cmp_bytes a b = -1.
Proof.
  revert b; induction a as [|x a IH]; intros [|y b]; simpl; auto.
  repeat case_bool_decide; auto.
Qed.

Lemma cmp_bytes_flip a b : cmp_bytes b a = - cmp_bytes a b.
Proof.
  revert b; induction a as [|x a IH]; intros [|y b]; simpl; auto.
  repeat case_bool_decide; subst; auto; lia.
Qed.

#[export] Instance cmp_bytes_comparison : Comparison cmp_bytes.
Proof.
  split.
  - intros x y. rewrite (cmp_bytes_flip x y). lia.
  - induction x as [|x xs IH]; intros [|y ys] [|z zs]; simpl; try lia.
    repeat case_bool_decide; subst; try lia. apply IH.
Qed.

Section Heap.
Context (compare : list Z -> list Z -> Z) `{!Comparison compare} (size : nat).
Hypothesis Hsize : (0 < size)%nat.
Implicit Types (els : list (list Z)) (x y : list Z).

Definition le x y : Prop := compare x y <= 0.

#[local] Instance le_refl : Reflexive le.
Proof. intros x. unfold le. pose proof (compare_flip x x). lia. Qed.
#[local] Instance le_trans : Transitive le.
Proof. intros x y z. apply compare_trans. Qed.
Lemma le_total x y : le x y \/ le y x.
Proof. unfold le. pose proof (compare_flip x y). lia. Qed.
Lemma gt_le x y : compare x y > 0 -> le y x.
Proof. unfold le. rewrite compare_flip. lia. Qed.

Definition el els (k : Z) : option (list Z) := if decide (1 <= k) then els !! Z.to_nat (k - 1) else None.

Definition child (i c : Z) : Prop := c = 2 * i \/ c = 2 * i + 1.

(** [el c <= el p], when both exist. *)
Definition below els (c p : Z) : Prop := forall x y, el els p = Some x -> el els c = Some y -> le y x.

Definition heap_at els n j : Prop := forall c, child j c -> c <= n -> below els c j.

Lemma el_some els k : 1 <= k <= Z.of_nat (length els) -> exists x, el els k = Some x.
Proof.
  intros Hk. unfold el. rewrite decide_True by lia. apply lookup_lt_is_Some_2. lia.
Qed.

Lemma el_range els k x : el els k = Some x -> 1 <= k <= Z.of_nat (length els).
Proof. unfold el. case_decide; [|done]. intros Hx. apply lookup_lt_Some in Hx. lia. Qed.

Lemma el_nat els k x : el els k = Some x -> els !! Z.to_nat (k - 1) = Some x.
Proof. unfold el. by case_decide. Qed.

Lemma do_compare_ok els a b x y : blocks size els -> el els a = Some x -> el els b = Some y ->
  do_compare compare (concat els) a b (Z.of_nat size) = Ret (compare x y).
Proof.
  intros Hb Hx Hy. pose proof (el_range _ _ _ Hx). pose proof (el_range _ _ _ Hy).
  apply el_nat in Hx, Hy. unfold do_compare.
  rewrite (block_ok size els a x), (block_ok size els b y) by (done || lia). done.
Qed.

Definition swap_els els (a b : Z) x y := exchange els (Z.to_nat (a - 1)) (Z.to_nat (b - 1)) x y.

Lemma el_swap els a b x y k : el els a = Some x -> el els b = Some y -> a <> b ->
  el (swap_els els a b x y) k = if decide (k = a) then Some y else if decide (k = b) then Some x else el els k.
Proof.
  intros Hx Hy Hne. pose proof (el_range _ _ _ Hx). pose proof (el_range _ _ _ Hy).
  unfold el, swap_els, exchange. repeat case_decide; subst; try lia; try done.
  - apply list_lookup_insert_eq. rewrite length_insert. lia.
  - rewrite list_lookup_insert_ne by lia. apply list_lookup_insert_eq. lia.
  - by rewrite !list_lookup_insert_ne by lia.
Qed.

Lemma swap_perm els i j x y : els !! i = Some x -> els !! j = Some y -> i <> j ->
  exchange els i j x y ≡ₚ els.
Proof.
  intros Hx Hy Hne. unfold exchange. pose proof (lookup_lt_Some _ _ _ Hx). pose proof (lookup_lt_Some _ _ _ Hy).
  set (l1 := <[j := x]> els).
  assert (Hi : l1 !! i = Some x) by (unfold l1; by rewrite list_lookup_insert_ne).
  assert (Hj : l1 !! j = Some x) by (apply list_lookup_insert_eq; lia).
  assert (Hd : forall l k (v : list Z), (k < length l)%nat -> delete k (<[k := v]> l) = delete k l).
  { intros l; induction l as [|w l IH]; intros [|k] v Hk; simpl in *; try done; try lia. f_equal. apply IH. lia. }
  rewrite (delete_Permutation (<[i := y]> l1) i y) by (apply list_lookup_insert_eq; unfold l1; rewrite length_insert; lia).
  rewrite Hd by (unfold l1; rewrite length_insert; lia).
  rewrite (delete_Permutation els j y Hy). f_equiv.
  apply (Permutation_cons_inv (a := x)). rewrite <- (delete_Permutation l1 i x Hi).
  rewrite (delete_Permutation l1 j x Hj). unfold l1. by rewrite Hd.
Qed.

(** Only the first [n] elements are rearranged. *)
Definition rearranged els els' (n : Z) : Prop :=
  take (Z.to_nat n) els' ≡ₚ take (Z.to_nat n) els /\ drop (Z.to_nat n) els' = drop (Z.to_nat n) els /\
  length els' = length els /\ blocks size els'.

Lemma rearranged_refl els n : blocks size els -> rearranged els els n.
Proof. done. Qed.

Lemma rearranged_trans els1 els2 els3 n : rearranged els1 els2 n -> rearranged els2 els3 n -> rearranged els1 els3 n.
Proof. intros (? & ? & ? & ?) (? & ? & ? & ?). split_and!; [by etrans|congruence..|done]. Qed.

Lemma rearranged_swap els n a b x y : blocks size els -> el els a = Some x -> el els b = Some y -> a <> b ->
  a <= n -> b <= n -> rearranged els (swap_els els a b x y) n.
Proof.
  intros Hb Hx Hy Hne Ha Hbn. pose proof (el_range _ _ _ Hx). pose proof (el_range _ _ _ Hy).
  apply el_nat in Hx, Hy. unfold swap_els. split_and!.
  - unfold exchange. rewrite !take_insert_lt by lia.
    apply swap_perm; [rewrite lookup_take_lt by lia; done..|lia].
  - unfold exchange. by rewrite !drop_insert_lt by lia.
  - unfold exchange. by rewrite !length_insert.
  - repeat apply blocks_insert; [done|..]; [exact (Forall_lookup_1 _ _ _ _ Hb Hx)|exact (Forall_lookup_1 _ _ _ _ Hb Hy)].
Qed.

(** ** Sifting down *)

Local Abbreviation body cnt :=
  (fun '(array, i) =>
     let left := u32 (2 * i) in
     let right := u32 (2 * i + 1) in
     let max := i in
     let! max := (if bool_decide (left <= cnt)
                  then let! c := do_compare compare array left max (Z.of_nat size) in
                       Ret (if bool_decide (c > 0) then left else max)
                  else Ret max) in
     let! max := (if bool_decide (right <= cnt)
                  then let! c := do_compare compare array right max (Z.of_nat size) in
                       Ret (if bool_decide (c > 0) then right else max)
                  else Ret max) in
     if bool_decide (max = i) then Ret (inr array)
     else let! array := do_swap array i max (Z.of_nat size) in
          Ret (inl (array, max))).

(** One of the two comparisons of a round. *)
Lemma pick_ok els n c max x : blocks size els -> n <= Z.of_nat (length els) ->
  el els max = Some x -> 1 <= c ->
  exists max' x', (if bool_decide (c <= n)
     then let! r := do_compare compare (concat els) c max (Z.of_nat size) in
          Ret (if bool_decide (r > 0) then c else max)
     else Ret max) = Ret max' /\ el els max' = Some x' /\ le x x' /\
    (max' = max \/ (max' = c /\ c <= n)) /\ (c <= n -> forall y, el els c = Some y -> le y x').
Proof.
  intros Hb Hn Hx Hc. case_bool_decide as Hcn.
  - destruct (el_some els c) as [y Hy]; [lia|]. rewrite (do_compare_ok els c max y x) by done. cbn [rbind].
    case_bool_decide as Hgt.
    + exists c, y. split_and!; [done|done|by apply gt_le|auto|intros _ y' Hy'; by simplify_eq].
    + exists max, x. split_and!; [done..|auto|]. intros _ y' Hy'. simplify_eq. unfold le. lia.
  - exists max, x. split_and!; [done..|auto|lia].
Qed.

(** A round either finds the heap property at [i], or exchanges [i] with its
    larger child [m], which is at least as large as the other child. *)
Lemma round_ok els n i : blocks size els -> 1 <= i <= n -> n <= Z.of_nat (length els) -> n < 2 ^ 31 ->
  (body n (concat els, i) = Ret (inr (concat els)) /\ heap_at els n i) \/
  (exists m x y, child i m /\ m <= n /\ el els i = Some x /\ el els m = Some y /\ le x y /\
     (forall c, child i c -> c <= n -> below els c m) /\
     body n (concat els, i) = Ret (inl (concat (swap_els els i m x y), m))).
Proof.
  intros Hb Hi Hn Hn31. destruct (el_some els i) as [x Hx]; [lia|]. cbv zeta.
  rewrite !u32_small by lia.
  destruct (pick_ok els n (2 * i) i x) as (m1 & x1 & -> & Hx1 & Hle1 & Hm1 & Hc1); [done..|lia|]. cbn [rbind].
  destruct (pick_ok els n (2 * i + 1) m1 x1) as (m2 & x2 & -> & Hx2 & Hle2 & Hm2 & Hc2); [done..|lia|]. cbn [rbind].
  assert (Hmax : forall c, child i c -> c <= n -> forall z, el els c = Some z -> le z x2).
  { intros c [->| ->] Hc z Hz; [etrans; [by apply Hc1|done]|by apply Hc2]. }
  case_bool_decide as E.
  - left. subst m2. split; [done|]. intros c Hch Hc z y Hz Hy. simplify_eq. by apply (Hmax c).
  - right. exists m2, x, x2. rewrite (do_swap_ok size els i m2 x x2) by
      (try (by apply el_nat); try done; try lia; apply el_range in Hx2; lia).
    split_and!; [unfold child; lia|lia|done|done|by etrans| |done].
    intros c Hch Hc z y Hz Hy. simplify_eq. by apply (Hmax c).
Qed.

(** The state while the element at [i] is floating down from [i0]: only [i] may
    be smaller than its children, and its parent dominates those. *)
Definition sifting els n i0 i : Prop :=
  (forall j, i0 <= j -> j <> i -> heap_at els n j) /\
  (forall p c, i0 <= p -> child p i -> child i c -> c <= n -> below els c p).

Lemma sifting_swap els n i0 i m x y : 1 <= i0 <= i -> sifting els n i0 i ->
  child i m -> m <= n -> el els i = Some x -> el els m = Some y -> le x y ->
  (forall c, child i c -> c <= n -> below els c m) ->
  sifting (swap_els els i m x y) n i0 m.
Proof.
  intros Hi [Hh Hp] Hm Hmn Hx Hy Hxy Hmax.
  assert (Hne : i <> m) by (unfold child in Hm; lia).
  split.
  - intros j Hj Hjm c Hc Hcn z w. rewrite !(el_swap els i m x y) by done.
    destruct (decide (j = i)) as [->|Hji].
    + intros [= <-].
      rewrite (decide_False (P := c = i)) by (unfold child in Hc; lia). case_decide.
      * intros [= <-]. done.
      * intros Hw. by apply (Hmax c).
    + rewrite (decide_False (P := j = m)) by done. intros Hz.
      case_decide as Eci; [subst c; intros [= <-]|].
      * by apply (Hp j m).
      * rewrite (decide_False (P := c = m)) by (unfold child in *; lia). intros Hw. by apply (Hh j Hj Hji c).
  - intros p c Hpi Hpm Hc Hcn z w. rewrite !(el_swap els i m x y) by done.
    assert (p = i) as -> by (unfold child in *; lia). rewrite (decide_True (P := i = i)) by done.
    rewrite (decide_False (P := c = i)), (decide_False (P := c = m)) by (unfold child in *; lia).
    intros [= <-] Hw. exact (Hh m ltac:(unfold child in Hm; lia) ltac:(done) c Hc Hcn y w Hy Hw).
Qed.

Lemma heapify_ok els i n : blocks size els -> 1 <= i <= n -> n <= Z.of_nat (length els) -> n < 2 ^ 31 ->
  (forall j, i < j -> heap_at els n j) ->
  exists els', heapify compare (concat els) i n (Z.of_nat size) = Ret (concat els') /\
    rearranged els els' n /\ forall j, i <= j -> heap_at els' n j.
Proof.
  intros Hb Hi Hn Hn31 Hh. unfold heapify.
  destruct (iter_total
    (fun '(arr, k) => exists e, arr = concat e /\ rearranged els e n /\ i <= k <= n /\ sifting e n i k)
    (fun '(arr, k) => Z.to_nat (n - k))
    (fun arr => exists e, arr = concat e /\ rearranged els e n /\ forall j, i <= j -> heap_at e n j)
    (body n)) with (fuel := S (Z.to_nat n)) (s := (concat els, i)) as (arr & Hrun & e & -> & He).
  - intros [arr k] (e & -> & Hr & Hk & Hs). pose proof Hr as (_ & _ & Hl & Hbe).
    destruct (round_ok e n k) as [[Hb1 Hd]|(m & x & y & Hm & Hmn & Hx & Hy & Hxy & Hmax & Hb1)];
      [done|lia|lia|done| |].
    + right. eexists; split; [exact Hb1|]. exists e. split_and!; [done..|].
      intros j Hj. destruct (decide (j = k)) as [->|]; [done|by apply Hs].
    + left. eexists; split; [exact Hb1|]. assert (k <> m) by (unfold child in Hm; lia).
      split; [|unfold child in Hm; lia]. eexists; split_and!; [done| |unfold child in Hm; lia..|].
      * eapply rearranged_trans; [done|]. apply rearranged_swap; try done; lia.
      * apply sifting_swap; try done; lia.
  - exists els. split_and!; [done..|lia|lia|]. split.
    + intros j Hj Hne. apply Hh. lia.
    + intros p c Hp Hpc. unfold child in Hpc. lia.
  - lia.
  - exists e. split; [exact Hrun|done].
Qed.

(** The root of a heap dominates every element. *)
Lemma heap_root els n : (forall j, 1 <= j -> heap_at els n j) -> n <= Z.of_nat (length els) ->
  forall k, 1 <= k <= n -> below els k 1.
Proof.
  intros Hh Hn k. induction (Z.lt_wf 0 k) as [k _ IH]. intros Hk.
  destruct (decide (k = 1)) as [->|Hk1].
  - intros x y Hx Hy. simplify_eq. done.
  - intros x y Hx Hy. set (p := k / 2).
    assert (Hp : 1 <= p < k /\ child p k).
    { pose proof (Z.div_mod k 2 ltac:(lia)). pose proof (Z.mod_pos_bound k 2 ltac:(lia)).
      unfold child, p in *. lia. }
    destruct (el_some els p) as [z Hz]; [lia|].
    transitivity z.
    + apply (Hh p ltac:(lia) k); [tauto|lia|done..].
    + apply (IH p); [lia|lia|done..].
Qed.

(** ** Sorting *)

Lemma rearranged_mono els els' n n' : rearranged els els' n -> 0 <= n <= n' -> rearranged els els' n'.
Proof.
  intros (Hp & Hd & Hl & Hb) Hn.
  assert (E : forall l : list (list Z), l = take (Z.to_nat n) l ++ drop (Z.to_nat n) l) by (intros; by rewrite take_drop).
  split_and!; [| |done..].
  - rewrite (E els'), (E els), !take_app, Hd, !length_take, Hl. f_equiv.
    rewrite !take_take. replace (Z.to_nat n' `min` Z.to_nat n)%nat with (Z.to_nat n) by lia. done.
  - replace (Z.to_nat n') with (Z.to_nat n + (Z.to_nat n' - Z.to_nat n))%nat by lia.
    by rewrite <- !drop_drop, Hd.
Qed.

Lemma rearranged_above els els' n k : rearranged els els' n -> 0 <= n < k -> el els' k = el els k.
Proof.
  intros (_ & Hd & _) Hk. unfold el. case_decide; [|done].
  replace (Z.to_nat (k - 1)) with (Z.to_nat n + (Z.to_nat (k - 1) - Z.to_nat n))%nat by lia.
  by rewrite <- !lookup_drop, Hd.
Qed.

Lemma rearranged_within els els' n k x : rearranged els els' n -> k <= n -> el els' k = Some x ->
  exists k', 1 <= k' <= n /\ el els k' = Some x.
Proof.
  intros (Hp & _) Hk Hx. pose proof (el_range _ _ _ Hx). apply el_nat in Hx.
  assert (Hin : x ∈ take (Z.to_nat n) els).
  { rewrite <- Hp. apply (list_elem_of_lookup_2 _ (Z.to_nat (k - 1))). by rewrite lookup_take_lt by lia. }
  apply list_elem_of_lookup_1 in Hin as [i Hi]. apply lookup_take_Some in Hi as [Hi Hlt].
  exists (Z.of_nat i + 1). split; [lia|]. unfold el. rewrite decide_True by lia.
  by replace (Z.to_nat (Z.of_nat i + 1 - 1)) with i by lia.
Qed.

Definition ordered_above els i : Prop := forall a b x y,
  a < b -> i < b -> el els a = Some x -> el els b = Some y -> le x y.

Lemma build_ok els n : blocks size els -> n = Z.of_nat (length els) -> n < 2 ^ 31 ->
  exists els', for_up (Z.to_nat (n / 2)) 0
      (fun k array => heapify compare array (n / 2 - k) n (Z.of_nat size)) (concat els)
    = Ret (concat els') /\ rearranged els els' n /\ forall j, 1 <= j -> heap_at els' n j.
Proof.
  intros Hb Hn Hn31. pose proof (Z.div_mod n 2 ltac:(lia)) as Hdm. pose proof (Z.mod_pos_bound n 2 ltac:(lia)).
  destruct (for_up_total (fun k arr => exists e, arr = concat e /\ rearranged els e n /\
                                       forall j, n / 2 - k < j -> heap_at e n j)
    (fun k array => heapify compare array (n / 2 - k) n (Z.of_nat size)) (Z.to_nat (n / 2)) 0 (concat els))
    as (arr & -> & e & -> & Hr & Hh).
  - exists els. split_and!; [done..|]. intros j Hj c Hc Hcn. unfold child in Hc. lia.
  - intros k arr Hk (e & -> & Hr & Hh). pose proof Hr as (_ & _ & Hl & Hbe).
    destruct (heapify_ok e (n / 2 - k) n) as (e' & -> & Hr' & Hh'); [done|lia|lia|done|done|].
    eexists; split; [done|]. exists e'. split_and!; [done|by eapply rearranged_trans|].
    intros j Hj. apply Hh'. lia.
  - exists e. split_and!; [done..|]. intros j Hj. apply Hh. lia.
Qed.

(** One extraction: the maximum moves behind the shrinking heap. *)
Lemma extract_ok e i : blocks size e -> 2 <= i <= Z.of_nat (length e) -> i < 2 ^ 31 ->
  (forall j, 1 <= j -> heap_at e i j) -> ordered_above e i ->
  exists e', (let! array := do_swap (concat e) 1 i (Z.of_nat size) in
              heapify compare array 1 (i - 1) (Z.of_nat size)) = Ret (concat e') /\
    rearranged e e' i /\ (forall j, 1 <= j -> heap_at e' (i - 1) j) /\ ordered_above e' (i - 1).
Proof.
  intros Hb Hi Hi31 Hh Ho.
  destruct (el_some e 1) as [x Hx]; [lia|]. destruct (el_some e i) as [y Hy]; [lia|].
  rewrite (do_swap_ok size e 1 i x y) by (try (by apply el_nat); done || lia). cbn [rbind].
  change (exchange e (Z.to_nat (1 - 1)) (Z.to_nat (i - 1)) x y) with (swap_els e 1 i x y).
  assert (Hr1 : rearranged e (swap_els e 1 i x y) i) by (apply rearranged_swap; done || lia).
  pose proof Hr1 as (_ & _ & Hl1 & Hb1).
  assert (Hel : forall k, el (swap_els e 1 i x y) k =
            if decide (k = 1) then Some y else if decide (k = i) then Some x else el e k).
  { intros k. apply el_swap; [done..|lia]. }
  destruct (heapify_ok (swap_els e 1 i x y) 1 (i - 1)) as (e2 & -> & Hr2 & Hh2); [done|lia|lia|lia| |].
  { intros j Hj c Hc Hcn z w. rewrite !Hel. unfold child in Hc.
    rewrite !decide_False by lia. apply (Hh j ltac:(lia) c); [done|lia]. }
  exists e2. split_and!; [done| |done|].
  - eapply rearranged_trans; [done|]. eapply rearranged_mono; [done|lia].
  - intros a b z w Hab Hib Hz Hw. pose proof (el_range _ _ _ Hz) as Ha.
    rewrite (rearranged_above _ _ _ b Hr2), Hel in Hw by lia. rewrite decide_False in Hw by lia.
    assert (Hz' : exists a', 1 <= a' /\ (a' = a \/ a' < i) /\ el (swap_els e 1 i x y) a' = Some z).
    { destruct (decide (a <= i - 1)).
      - destruct (rearranged_within _ _ _ a z Hr2) as (a' & Ha' & He'); [lia|done|]. exists a'. auto with lia.
      - exists a. rewrite (rearranged_above _ _ _ a Hr2) in Hz by lia. auto with lia. }
    destruct Hz' as (a' & Ha1 & Hai & Hz'). rewrite Hel in Hz'.
    destruct (decide (b = i)) as [->|Hbi].
    + injection Hw as <-. rewrite (decide_False (P := a' = i)) in Hz' by lia.
      destruct (decide (a' = 1)) as [->|]; [injection Hz' as <-|].
      * by apply (heap_root e i Hh ltac:(lia) i ltac:(lia)).
      * by apply (heap_root e i Hh ltac:(lia) a' ltac:(lia)).
    + destruct (decide (a' = 1)) as [->|]; [injection Hz' as <-; by apply (Ho i b); lia || done|].
      destruct (decide (a' = i)) as [->|]; [injection Hz' as <-; apply (Ho 1 b); lia || done|].
      apply (Ho a' b); lia || done.
Qed.

Lemma sort_ok els : blocks size els -> Z.of_nat (length els) < 2 ^ 31 ->
  exists els', sort compare (concat els) (Z.of_nat (length els)) (Z.of_nat size) = Ret (concat els') /\
    els' ≡ₚ els /\ length els' = length els /\ blocks size els' /\ ordered_above els' 1.
Proof.
  intros Hb Hn31. unfold sort. rewrite bool_decide_eq_true_2 by lia. cbn [rbind assert_].
  set (n := Z.of_nat (length els)).
  destruct (build_ok els n) as (e0 & -> & Hr0 & Hh0); [done..|]. cbn [rbind].
  destruct (for_up_total (fun k arr => exists e, arr = concat e /\ rearranged els e n /\
        (forall j, 1 <= j -> heap_at e (n - k) j) /\ ordered_above e (n - k))
    (fun k array => let! array := do_swap array 1 (n - k) (Z.of_nat size) in
       heapify compare array 1 (n - k - 1) (Z.of_nat size)) (Z.to_nat (n - 1)) 0 (concat e0))
    as (arr & -> & e & -> & Hr & _ & Ho).
  - exists e0. rewrite Z.sub_0_r. split_and!; [done..|]. intros a b x y Hab Hlt _ Hy.
    apply el_range in Hy. destruct Hr0 as (_ & _ & Hl & _). lia.
  - intros k arr Hk (e & -> & Hr & Hh & Ho). pose proof Hr as (_ & _ & Hl & Hbe).
    destruct (extract_ok e (n - k)) as (e' & -> & Hr' & Hh' & Ho'); [done|lia|lia|done|done|].
    eexists; split; [done|]. exists e'. rewrite Z.sub_add_distr. split_and!; [done| |done|done].
    eapply rearranged_trans; [done|]. eapply rearranged_mono; [done|lia].
  - exists e. destruct Hr as (Hp & _ & Hl & Hbe).
    rewrite !take_ge in Hp by lia. split_and!; [done..|].
    intros a b x y Hab H1b Hx Hy. pose proof (el_range _ _ _ Hy). apply (Ho a b); [done|lia|done..].
Qed.

Lemma ordered_above_sorted e : ordered_above e 1 -> StronglySorted le e.
Proof.
  induction e as [|x e IH]; intros Ho; constructor.
  - apply IH. intros a b u v Hab H1 Hu Hv. pose proof (el_range _ _ _ Hu). pose proof (el_range _ _ _ Hv).
    assert (Hs : forall k w, el e k = Some w -> el (x :: e) (k + 1) = Some w).
    { intros k w Hw. pose proof (el_range _ _ _ Hw). apply el_nat in Hw. unfold el. rewrite decide_True by lia.
      by replace (Z.to_nat (k + 1 - 1)) with (S (Z.to_nat (k - 1))) by lia. }
    apply (Ho (a + 1) (b + 1)); [lia|lia|auto..].
  - apply Forall_forall. intros y Hy. apply list_elem_of_lookup_1 in Hy as [i Hi].
    apply (Ho 1 (Z.of_nat i + 2)); [lia|lia|done|].
    unfold el. rewrite decide_True by lia. by replace (Z.to_nat (Z.of_nat i + 2 - 1)) with (S i) by lia.
Qed.

(** ** Binary search *)

Lemma sorted_lookup e i j x y : StronglySorted le e -> (i <= j)%nat ->
  e !! i = Some x -> e !! j = Some y -> le x y.
Proof.
  intros Hs; revert i j; induction Hs as [|z e Hs IH Hall]; intros [|i] [|j] Hij Hx Hy; simpl in *; try done; try lia.
  - by simplify_eq.
  - simplify_eq. rewrite Forall_forall in Hall. apply Hall. by eapply list_elem_of_lookup_2.
  - apply (IH i j); [lia|done..].
Qed.

Lemma below_key key x y : compare key x < 0 -> le x y -> compare key y < 0.
Proof.
  intros Hx Hxy. destruct (decide (compare key y < 0)) as [|Hn]; [done|].
  assert (Hyk : le y key) by (unfold le; pose proof (compare_flip y key); lia).
  pose proof (compare_trans x y key Hxy Hyk). pose proof (compare_flip x key). lia.
Qed.

Lemma above_key key x y : compare key y > 0 -> le x y -> compare key x > 0.
Proof.
  intros Hy Hxy. apply compare_flip in Hy. apply compare_flip.
  destruct (decide (compare x key < 0)) as [|Hn]; [done|].
  assert (Hkx : le key x) by (unfold le; pose proof (compare_flip key x); lia).
  pose proof (compare_trans key x y Hkx Hxy). pose proof (compare_flip key y). lia.
Qed.

(** The element with 0-based index [i] compares equal to the key. *)
Definition matches els key (i : nat) : Prop := exists x, els !! i = Some x /\ compare key x = 0.

Local Abbreviation search_body key array :=
  (fun '(first, last) =>
     if bool_decide (first < last) then
       let range := (last - first) / Z.of_nat size in
       let middle := first + range / 2 * Z.of_nat size in
       let! x := block array middle (Z.of_nat size) in
       let cmp := compare key x in
       if bool_decide (cmp < 0) then Ret (inl (first, middle))
       else if bool_decide (cmp > 0) then Ret (inl (middle + Z.of_nat size, last))
       else Ret (inr (Some middle))
     else Ret (inr None)).

(** A round, in element indexes. *)
Lemma search_round els key f l : blocks size els -> 0 <= f < l -> l <= Z.of_nat (length els) ->
  exists mid x, f <= mid < l /\ els !! Z.to_nat mid = Some x /\
    search_body key (concat els) (f * Z.of_nat size, l * Z.of_nat size) =
    Ret (if bool_decide (compare key x < 0) then inl (f * Z.of_nat size, mid * Z.of_nat size)
         else if bool_decide (compare key x > 0) then inl ((mid + 1) * Z.of_nat size, l * Z.of_nat size)
         else inr (Some (mid * Z.of_nat size))).
Proof.
  intros Hb Hfl Hl. set (mid := f + (l - f) / 2).
  assert (Hmid : f <= mid < l).
  { pose proof (Z.div_pos (l - f) 2 ltac:(lia) ltac:(lia)). pose proof (Z.div_lt (l - f) 2 ltac:(lia) ltac:(lia)). lia. }
  destruct (lookup_lt_is_Some_2 els (Z.to_nat mid)) as [x Hx]; [lia|].
  exists mid, x. split_and!; [lia|lia|done|]. cbv zeta.
  rewrite bool_decide_eq_true_2 by (apply Z.mul_lt_mono_pos_r; lia).
  replace (l * Z.of_nat size - f * Z.of_nat size) with ((l - f) * Z.of_nat size) by ring.
  rewrite Z.div_mul by lia.
  replace (f * Z.of_nat size + (l - f) / 2 * Z.of_nat size) with (mid * Z.of_nat size) by (unfold mid; ring).
  pose proof (block_ok size els (mid + 1) x Hb ltac:(lia)) as Hblk.
  replace (mid + 1 - 1) with mid in Hblk by lia. rewrite Hblk by done. cbn [rbind].
  replace (mid * Z.of_nat size + Z.of_nat size) with ((mid + 1) * Z.of_nat size) by ring.
  by repeat case_bool_decide.
Qed.

Lemma binary_search_ok els key : blocks size els -> StronglySorted le els ->
  (exists i, binary_search compare key (concat els) (Z.of_nat (length els)) (Z.of_nat size)
             = Ret (Some (Z.of_nat i * Z.of_nat size)) /\ matches els key i) \/
  (binary_search compare key (concat els) (Z.of_nat (length els)) (Z.of_nat size) = Ret None /\
   forall i, ~ matches els key i).
Proof.
  intros Hb Hs.
  destruct (iter_total
    (fun '(first, last) => exists f l, first = f * Z.of_nat size /\ last = l * Z.of_nat size /\
       0 <= f <= l /\ l <= Z.of_nat (length els) /\
       forall i x, els !! i = Some x ->
         (Z.of_nat i < f -> compare key x > 0) /\ (l <= Z.of_nat i -> compare key x < 0))
    (fun '(first, last) => Z.to_nat ((last - first) / Z.of_nat size))
    (fun r => match r with
              | Some off => exists i, off = Z.of_nat i * Z.of_nat size /\ matches els key i
              | None => forall i, ~ matches els key i
              end)
    (search_body key (concat els)) ) with (fuel := S (length els))
    (s := (0, Z.of_nat size * Z.of_nat (length els))) as (r & Hrun & Hr).
  - intros [first last] (f & l & -> & -> & Hfl & Hl & Hinv).
    destruct (decide (f < l)) as [Hlt|Hge].
    + destruct (search_round els key f l) as (mid & x & Hmid & Hx & Hbd); [done|lia|done|].
      assert (Hmeas : forall u v, (v * Z.of_nat size - u * Z.of_nat size) / Z.of_nat size = v - u).
      { intros u v. rewrite <- Z.mul_sub_distr_r. apply Z.div_mul. lia. }
      destruct (bool_decide_reflect (compare key x < 0)) as [Hc|Hc];
        [|destruct (bool_decide_reflect (compare key x > 0)) as [Hc'|Hc']].
      * left. eexists; split; [exact Hbd|]. split; [|rewrite !Hmeas; lia].
        exists f, mid. split_and!; [done|done|lia|lia|lia|]. intros i y Hy. split; [apply (Hinv i y Hy)|].
        intros Hi. apply (below_key key x y); [done|]. eapply (sorted_lookup els); [done| |done|done]. lia.
      * left. eexists; split; [exact Hbd|]. split; [|rewrite !Hmeas; lia].
        exists (mid + 1), l. split_and!; [done|done|lia|lia|lia|]. intros i y Hy. split; [|apply (Hinv i y Hy)].
        intros Hi. apply (above_key key y x); [done|]. eapply (sorted_lookup els); [done| |done|done]. lia.
      * right. eexists; split; [exact Hbd|]. exists (Z.to_nat mid). split; [f_equal; lia|]. exists x. split; [done|lia].
    + right. eexists; split.
      { rewrite (bool_decide_eq_false_2 (f * _ < l * _)); [reflexivity|].
        rewrite <- Z.mul_lt_mono_pos_r by lia. lia. }
      intros i (x & Hx & Hm). destruct (Hinv i x Hx) as [H1 H2].
      destruct (decide (Z.of_nat i < f)); [specialize (H1 ltac:(lia))|specialize (H2 ltac:(lia))]; lia.
  - exists 0, (Z.of_nat (length els)). split_and!; [lia|lia|lia|lia|lia|].
    intros i x Hx. apply lookup_lt_Some in Hx. lia.
  - rewrite Z.sub_0_r, Z.mul_comm, Z.div_mul by lia. lia.
  - unfold binary_search. rewrite Nat2Z.id. destruct r as [off|].
    + left. destruct Hr as (i & -> & Hi). exists i. split; [exact Hrun|done].
    + right. split; [exact Hrun|done].
Qed.
End Heap.

(** ** Properties *)

(** C34. [sort] (heap sort over raw bytes) terminates without an access outside
    the array and leaves a permutation of the original elements, in ascending
    order of the comparison function, for every array of fewer than 2^31
    elements of any size and every comparison that is a total preorder. *)
Theorem sort_correct compare `{!Comparison compare} size els :
  (0 < size)%nat -> blocks size els -> Z.of_nat (length els) < 2 ^ 31 ->
  exists els', sort compare (concat els) (Z.of_nat (length els)) (Z.of_nat size) = Ret (concat els') /\
    els' ≡ₚ els /\ blocks size els' /\ StronglySorted (fun x y => compare x y <= 0) els'.
Proof.
  intros Hsz Hb Hn. destruct (sort_ok compare size Hsz els Hb Hn) as (e & He & Hp & _ & Hbe & Ho).
  exists e. split_and!; [done..|]. by apply (ordered_above_sorted compare size Hsz).
Qed.

Lemma sort_correct_witness :
  exists els', sort cmp_bytes (concat [[3; 1]; [2; 9]; [3; 0]]) 3 2 = Ret (concat els') /\
    els' ≡ₚ [[3; 1]; [2; 9]; [3; 0]] /\ blocks 2 els' /\
    StronglySorted (fun x y => cmp_bytes x y <= 0) els'.
Proof. apply (sort_correct cmp_bytes 2 [[3; 1]; [2; 9]; [3; 0]]); [lia|by repeat constructor|simpl; lia]. Defined.

(** [binary_search] on a sorted array terminates within its bounds; it
    returns the address of an element equal to the key when there is one, and a
    null pointer exactly when there is none. *)
Theorem binary_search_correct compare `{!Comparison compare} size els key :
  (0 < size)%nat -> blocks size els -> StronglySorted (fun x y => compare x y <= 0) els ->
  (exists i x, binary_search compare key (concat els) (Z.of_nat (length els)) (Z.of_nat size)
             = Ret (Some (Z.of_nat i * Z.of_nat size)) /\ els !! i = Some x /\ compare key x = 0) \/
  (binary_search compare key (concat els) (Z.of_nat (length els)) (Z.of_nat size) = Ret None /\
   forall x, x ∈ els -> compare key x <> 0).
Proof.
  intros Hsz Hb Hs. destruct (binary_search_ok compare size Hsz els key Hb Hs) as [(i & Hi & x & Hx)|[Hn Hm]].
  - left. exists i, x. naive_solver.
  - right. split; [done|]. intros x Hx E. apply list_elem_of_lookup_1 in Hx as [i Hi]. apply (Hm i). by exists x.
Qed.

Lemma binary_search_correct_witness :
  (exists i x, binary_search cmp_bytes [5] (concat [[1]; [5]; [7]]) 3 1 = Ret (Some (Z.of_nat i * 1)) /\
     [[1]; [5]; [7]] !! i = Some x /\ cmp_bytes [5] x = 0) \/
  (binary_search cmp_bytes [5] (concat [[1]; [5]; [7]]) 3 1 = Ret None /\
   forall x, x ∈ [[1]; [5]; [7]] -> cmp_bytes [5] x <> 0).
Proof.
  apply (binary_search_correct cmp_bytes 1 [[1]; [5]; [7]] [5]); [lia|by repeat constructor|].
  repeat constructor; vm_compute; discriminate.
Defined.
