(* ===== verification/Kernel.v ===== *)
(** * threads/thread.c: thread state and the scheduler

    The state of the threading system is one record.  A thread is named by the
    address of its page; its kernel stack is represented by the calls that
    still have to be completed when it runs again ([frame], innermost first), so
    that switching threads inside a function is an ordinary state change.  The
    kernel lists are their abstract sequences. *)

From S2P Require Import Prelude ListSpec.

Inductive thread_status := THREAD_RUNNING | THREAD_READY | THREAD_BLOCKED | THREAD_DYING.
Inductive intr_level := INTR_OFF | INTR_ON.

#[export] Instance thread_status_eq_dec : EqDecision thread_status.
Proof. solve_decision. Defined.
#[export] Instance intr_level_eq_dec : EqDecision intr_level.
Proof. solve_decision. Defined.

Definition NULL : Z := 0.
Definition TID_ERROR : Z := -1.
Definition PRI_MIN : Z := 0.
Definition PRI_DEFAULT : Z := 31.
Definition PRI_MAX : Z := 63.
Definition TIME_SLICE : Z := 4.

(** The semaphores of the system: free-standing ones, the one inside a lock,
    and the one inside a [semaphore_elem] on the stack of [cond_wait]. *)
Inductive sema_ref := Sema (s : Z) | LockSema (l : Z) | WaiterSema (w : Z).

#[export] Instance sema_ref_eq_dec : EqDecision sema_ref.
Proof. solve_decision. Defined.
#[export] Instance sema_ref_countable : Countable sema_ref.
Proof.
  refine (inj_countable' (fun r => match r with Sema s => inl (inl s) | LockSema l => inl (inr l) | WaiterSema w => inr w end)
            (fun x => match x with inl (inl s) => Sema s | inl (inr l) => LockSema l | inr w => WaiterSema w end) _).
  by intros [].
Defined.

(** What is left to do in a function when control comes back to its thread. *)
Inductive frame :=
| FSetLevel (l : intr_level)                  (* intr_set_level (l) *)
| FKernelThread                               (* first activation: kernel_thread () *)
| FSemaLoop (s : sema_ref) (old : intr_level) (* the loop of sema_down () *)
| FLockLoop (l : Z) (old pre : intr_level)    (* the loop of the sema_down () in lock_acquire () *)
| FLockRelease (l : Z)                        (* lock_release () after lock->holder = NULL *)
| FSemaDown (s : sema_ref)                    (* a call of sema_down () *)
| FLockAcquire (l : Z)                        (* a call of lock_acquire () *)
| FBroadcast (c l : Z)                        (* the loop of cond_broadcast () *)
| FDropWaiter (w : Z)                         (* return from cond_wait (): its local is gone *)
| FTid (t : Z)                                (* allocate_tid () with tid_lock held *)
| FCreate (t priority : Z)                    (* thread_create () after allocate_tid () *)
| FCreateTail (priority : Z)                  (* thread_create () after thread_unblock () *)
| FIdleStart (s : sema_ref)                   (* idle () from its start *)
| FIdle                                       (* the loop of idle () *)
| FHlt.                                       (* "sti; hlt" of idle () *)

Record child := mkChild { pid : Z; is_wait : bool; child_status : Z }.

Record thread := mkThread {
  tid : Z;
  status : thread_status;
  priority : Z;
  morning_tick : Z;
  origin_priority : Z;
  potential_donator : list Z;
  waiting_lock : Z;
  child_list : list child;
  parent_process : Z;
  exit_code : Z;
  pagedir : Z;
  frames : list frame
}.

Record semaphore := mkSema { value : Z; waiters : list Z }.

Record kernel := mkKernel {
  threads : gmap Z thread;
  ready_list : list Z;
  sleeping_list : list Z;
  running_thread : Z;
  idle_thread : Z;
  initial_thread : Z;
  next_tid : Z;
  ticks : Z;
  thread_ticks : Z;
  idle_ticks : Z;
  kernel_ticks : Z;
  user_ticks : Z;
  level : intr_level;
  in_external_intr : bool;
  yield_on_return : bool;
  semas : gmap sema_ref semaphore;
  locks : gmap Z Z;          (* lock->holder *)
  conds : gmap Z (list Z)    (* cond->waiters *)
}.

(** Assignments to one member. *)
Definition set_threads (x : gmap Z thread) (k : kernel) : kernel :=
  mkKernel x (ready_list k) (sleeping_list k) (running_thread k) (idle_thread k) (initial_thread k)
    (next_tid k) (ticks k) (thread_ticks k) (idle_ticks k) (kernel_ticks k) (user_ticks k) (level k)
    (in_external_intr k) (yield_on_return k) (semas k) (locks k) (conds k).
Definition set_ready_list (x : list Z) (k : kernel) : kernel :=
  mkKernel (threads k) x (sleeping_list k) (running_thread k) (idle_thread k) (initial_thread k)
    (next_tid k) (ticks k) (thread_ticks k) (idle_ticks k) (kernel_ticks k) (user_ticks k) (level k)
    (in_external_intr k) (yield_on_return k) (semas k) (locks k) (conds k).
Definition set_sleeping_list (x : list Z) (k : kernel) : kernel :=
  mkKernel (threads k) (ready_list k) x (running_thread k) (idle_thread k) (initial_thread k)
    (next_tid k) (ticks k) (thread_ticks k) (idle_ticks k) (kernel_ticks k) (user_ticks k) (level k)
    (in_external_intr k) (yield_on_return k) (semas k) (locks k) (conds k).
Definition set_running (x : Z) (k : kernel) : kernel :=
  mkKernel (threads k) (ready_list k) (sleeping_list k) x (idle_thread k) (initial_thread k)
    (next_tid k) (ticks k) (thread_ticks k) (idle_ticks k) (kernel_ticks k) (user_ticks k) (level k)
    (in_external_intr k) (yield_on_return k) (semas k) (locks k) (conds k).
Definition set_idle_thread (x : Z) (k : kernel) : kernel :=
  mkKernel (threads k) (ready_list k) (sleeping_list k) (running_thread k) x (initial_thread k)
    (next_tid k) (ticks k) (thread_ticks k) (idle_ticks k) (kernel_ticks k) (user_ticks k) (level k)
    (in_external_intr k) (yield_on_return k) (semas k) (locks k) (conds k).
Definition set_next_tid (x : Z) (k : kernel) : kernel :=
  mkKernel (threads k) (ready_list k) (sleeping_list k) (running_thread k) (idle_thread k) (initial_thread k)
    x (ticks k) (thread_ticks k) (idle_ticks k) (kernel_ticks k) (user_ticks k) (level k)
    (in_external_intr k) (yield_on_return k) (semas k) (locks k) (conds k).
Definition set_clock (tk tt it kt ut : Z) (k : kernel) : kernel :=
  mkKernel (threads k) (ready_list k) (sleeping_list k) (running_thread k) (idle_thread k) (initial_thread k)
    (next_tid k) tk tt it kt ut (level k)
    (in_external_intr k) (yield_on_return k) (semas k) (locks k) (conds k).
Definition set_intr (l : intr_level) (ext yield : bool) (k : kernel) : kernel :=
  mkKernel (threads k) (ready_list k) (sleeping_list k) (running_thread k) (idle_thread k) (initial_thread k)
    (next_tid k) (ticks k) (thread_ticks k) (idle_ticks k) (kernel_ticks k) (user_ticks k) l
    ext yield (semas k) (locks k) (conds k).
Definition set_semas (x : gmap sema_ref semaphore) (k : kernel) : kernel :=
  mkKernel (threads k) (ready_list k) (sleeping_list k) (running_thread k) (idle_thread k) (initial_thread k)
    (next_tid k) (ticks k) (thread_ticks k) (idle_ticks k) (kernel_ticks k) (user_ticks k) (level k)
    (in_external_intr k) (yield_on_return k) x (locks k) (conds k).
Definition set_locks (x : gmap Z Z) (k : kernel) : kernel :=
  mkKernel (threads k) (ready_list k) (sleeping_list k) (running_thread k) (idle_thread k) (initial_thread k)
    (next_tid k) (ticks k) (thread_ticks k) (idle_ticks k) (kernel_ticks k) (user_ticks k) (level k)
    (in_external_intr k) (yield_on_return k) (semas k) x (conds k).
Definition set_conds (x : gmap Z (list Z)) (k : kernel) : kernel :=
  mkKernel (threads k) (ready_list k) (sleeping_list k) (running_thread k) (idle_thread k) (initial_thread k)
    (next_tid k) (ticks k) (thread_ticks k) (idle_ticks k) (kernel_ticks k) (user_ticks k) (level k)
    (in_external_intr k) (yield_on_return k) (semas k) (locks k) x.

Definition set_status (x : thread_status) (t : thread) : thread :=
  mkThread (tid t) x (priority t) (morning_tick t) (origin_priority t) (potential_donator t)
    (waiting_lock t) (child_list t) (parent_process t) (exit_code t) (pagedir t) (frames t).
Definition set_tid (x : Z) (t : thread) : thread :=
  mkThread x (status t) (priority t) (morning_tick t) (origin_priority t) (potential_donator t)
    (waiting_lock t) (child_list t) (parent_process t) (exit_code t) (pagedir t) (frames t).
Definition set_priorities (p o : Z) (t : thread) : thread :=
  mkThread (tid t) (status t) p (morning_tick t) o (potential_donator t)
    (waiting_lock t) (child_list t) (parent_process t) (exit_code t) (pagedir t) (frames t).
Definition set_morning_tick (x : Z) (t : thread) : thread :=
  mkThread (tid t) (status t) (priority t) x (origin_priority t) (potential_donator t)
    (waiting_lock t) (child_list t) (parent_process t) (exit_code t) (pagedir t) (frames t).
Definition set_donators (x : list Z) (t : thread) : thread :=
  mkThread (tid t) (status t) (priority t) (morning_tick t) (origin_priority t) x
    (waiting_lock t) (child_list t) (parent_process t) (exit_code t) (pagedir t) (frames t).
Definition set_waiting_lock (x : Z) (t : thread) : thread :=
  mkThread (tid t) (status t) (priority t) (morning_tick t) (origin_priority t) (potential_donator t)
    x (child_list t) (parent_process t) (exit_code t) (pagedir t) (frames t).
Definition set_child_list (x : list child) (t : thread) : thread :=
  mkThread (tid t) (status t) (priority t) (morning_tick t) (origin_priority t) (potential_donator t)
    (waiting_lock t) x (parent_process t) (exit_code t) (pagedir t) (frames t).
Definition set_frames (x : list frame) (t : thread) : thread :=
  mkThread (tid t) (status t) (priority t) (morning_tick t) (origin_priority t) (potential_donator t)
    (waiting_lock t) (child_list t) (parent_process t) (exit_code t) (pagedir t) x.

(** Access through a [struct thread *]. *)
Definition get_thread (p : Z) (k : kernel) : res thread := of_opt (threads k !! p).
Definition upd_thread (p : Z) (f : thread -> thread) (k : kernel) : res kernel :=
  let! t := get_thread p k in Ret (set_threads (<[p := f t]> (threads k)) k).

(** The running thread has [f] left to do after what it does now. *)
Definition push (f : frame) (k : kernel) : res kernel :=
  upd_thread (running_thread k) (fun t => set_frames (f :: frames t) t) k.

(** ** Interrupts (threads/interrupt.c) *)

Definition intr_context (k : kernel) : bool := in_external_intr k.
Definition intr_get_level (k : kernel) : intr_level := level k.
Definition intr_enable (k : kernel) : res kernel :=
  ASSERT (negb (intr_context k));
  Ret (set_intr INTR_ON (in_external_intr k) (yield_on_return k) k).
Definition intr_disable (k : kernel) : kernel :=
  set_intr INTR_OFF (in_external_intr k) (yield_on_return k) k.
Definition intr_set_level (l : intr_level) (k : kernel) : res kernel :=
  match l with INTR_ON => intr_enable k | INTR_OFF => Ret (intr_disable k) end.

(** ** thread.c *)

Definition is_thread (t : Z) (k : kernel) : bool :=
  bool_decide (t <> NULL) && bool_decide (is_Some (threads k !! t)).

Definition thread_current (k : kernel) : res thread :=
  ASSERT (is_thread (running_thread k) k);
  let! t := get_thread (running_thread k) k in
  ASSERT (bool_decide (status t = THREAD_RUNNING));
  Ret t.

(** The priority read through a list element. *)
Definition prio_of (k : kernel) (p : Z) : Z := from_option priority 0 (threads k !! p).

Definition priority_compare_two_thread (k : kernel) (a b : Z) : bool :=
  bool_decide (prio_of k a > prio_of k b).

Definition compare_tick (k : kernel) (a b : Z) : bool :=
  bool_decide (from_option morning_tick 0 (threads k !! a) < from_option morning_tick 0 (threads k !! b)).

(** [list_insert_ordered (&ready_list, ...)]. *)
Definition ready_insert (p : Z) (k : kernel) : kernel :=
  set_ready_list (insert_ordered (priority_compare_two_thread k) p (ready_list k)) k.

Definition next_thread_to_run (k : kernel) : Z * kernel :=
  match ready_list k with
  | [] => (idle_thread k, k)
  | p :: rest => (p, set_ready_list rest k)
  end.

(** [prev] is [NULL] when there was no switch.  Activating the address space has
    no effect on this state. *)
Definition schedule_tail (prev : Z) (k : kernel) : res kernel :=
  ASSERT (bool_decide (intr_get_level k = INTR_OFF));
  let! k := upd_thread (running_thread k) (set_status THREAD_RUNNING) k in
  let k := set_clock (ticks k) 0 (idle_ticks k) (kernel_ticks k) (user_ticks k) k in
  if bool_decide (prev <> NULL) then
    let! t := get_thread prev k in
    if bool_decide (status t = THREAD_DYING) && bool_decide (prev <> initial_thread k) then
      ASSERT (bool_decide (prev <> running_thread k));
      Ret (set_threads (delete prev (threads k)) k)
    else Ret k
  else Ret k.

Definition schedule (k : kernel) : res kernel :=
  let curr := running_thread k in
  let '(next, k) := next_thread_to_run k in
  ASSERT (bool_decide (intr_get_level k = INTR_OFF));
  let! t := get_thread curr k in
  ASSERT (bool_decide (status t <> THREAD_RUNNING));
  ASSERT (is_thread next k);
  if bool_decide (curr <> next) then schedule_tail curr (set_running next k)
  else schedule_tail NULL k.

Definition thread_block (k : kernel) : res kernel :=
  ASSERT (negb (intr_context k));
  ASSERT (bool_decide (intr_get_level k = INTR_OFF));
  let! _ := thread_current k in
  let! k := upd_thread (running_thread k) (set_status THREAD_BLOCKED) k in
  schedule k.

Definition thread_yield (k : kernel) : res kernel :=
  let! _ := thread_current k in
  let curr := running_thread k in
  ASSERT (negb (intr_context k));
  let old_level := intr_get_level k in
  let k := intr_disable k in
  let k := if bool_decide (curr <> idle_thread k) then ready_insert curr k else k in
  let! k := upd_thread curr (set_status THREAD_READY) k in
  let! k := push (FSetLevel old_level) k in
  schedule k.

Definition thread_unblock (t : Z) (k : kernel) : res kernel :=
  ASSERT (is_thread t k);
  let old_level := intr_get_level k in
  let k := intr_disable k in
  let! th := get_thread t k in
  ASSERT (bool_decide (status th = THREAD_BLOCKED));
  let k := ready_insert t k in
  let! k := upd_thread t (set_status THREAD_READY) k in
  let! cur := thread_current k in
  if bool_decide (running_thread k <> idle_thread k) && bool_decide (priority th > priority cur)
  then let! k := push (FSetLevel old_level) k in thread_yield k
  else intr_set_level old_level k.

(** [body] is what the thread function has to do when it is known (that of the
    idle thread); for other threads it is empty: they do any calls they like. *)
Definition init_thread (t prio : Z) (body : list frame) (k : kernel) : res kernel :=
  ASSERT (bool_decide (t <> NULL));
  ASSERT (bool_decide (PRI_MIN <= prio) && bool_decide (prio <= PRI_MAX));
  Ret (set_threads (<[t := mkThread 0 THREAD_BLOCKED prio 0 prio [] NULL [] (running_thread k) (-2) NULL
                            (FKernelThread :: body)]> (threads k)) k).

Definition thread_set_priority (new_priority : Z) (k : kernel) : res kernel :=
  let! curr := thread_current k in
  let pre_level := intr_get_level k in
  let k := intr_disable k in
  if bool_decide (priority curr <> origin_priority curr) then
    let! k := upd_thread (running_thread k) (set_priorities (priority curr) new_priority) k in
    intr_set_level pre_level k
  else
    let! k := upd_thread (running_thread k) (set_priorities new_priority new_priority) k in
    let! k := push (FSetLevel pre_level) k in
    match ready_list k with
    | [] => Ret k
    | front :: _ =>
        if bool_decide (new_priority < prio_of k front) then thread_yield k else Ret k
    end.

Definition thread_get_priority (k : kernel) : res Z :=
  let! t := thread_current k in Ret (priority t).
Definition thread_tid (k : kernel) : res Z :=
  let! t := thread_current k in Ret (tid t).

(** [thread_exit], from the release of the child records on. *)
Definition thread_exit (k : kernel) : res kernel :=
  ASSERT (negb (intr_context k));
  let! _ := thread_current k in
  let! k := upd_thread (running_thread k) (set_child_list []) k in
  let k := intr_disable k in
  let! k := upd_thread (running_thread k) (set_status THREAD_DYING) k in
  schedule k.

Definition intr_yield_on_return (k : kernel) : res kernel :=
  ASSERT (intr_context k);
  Ret (set_intr (level k) (in_external_intr k) true k).

Definition thread_tick (k : kernel) : res kernel :=
  let! t := thread_current k in
  let tt := u32 (thread_ticks k + 1) in
  let k := if bool_decide (running_thread k = idle_thread k)
           then set_clock (ticks k) tt (idle_ticks k + 1) (kernel_ticks k) (user_ticks k) k
           else if bool_decide (pagedir t <> NULL)
           then set_clock (ticks k) tt (idle_ticks k) (kernel_ticks k) (user_ticks k + 1) k
           else set_clock (ticks k) tt (idle_ticks k) (kernel_ticks k + 1) (user_ticks k) k in
  if bool_decide (thread_ticks k >= TIME_SLICE) then intr_yield_on_return k else Ret k.
