(* ===== verification/Synch.v ===== *)
(** * threads/synch.c and devices/timer.c: semaphores, locks, condition variables, sleep

    A function that waits is cut at the points where another thread can run: the
    part after such a point is a [frame] pushed on the stack of the thread.
    [step] interleaves the threads and the timer interrupt. *)

From S2P Require Import Prelude ListSpec Kernel.

Definition get_sema (s : sema_ref) (k : kernel) : res semaphore := of_opt (semas k !! s).
Definition put_sema (s : sema_ref) (sm : semaphore) (k : kernel) : kernel :=
  set_semas (<[s := sm]> (semas k)) k.
Definition get_holder (l : Z) (k : kernel) : res Z := of_opt (locks k !! l).
Definition set_holder (l h : Z) (k : kernel) : kernel := set_locks (<[l := h]> (locks k)) k.

(** ** Priority donation *)

(** [compare_priority] on elements of a wait list. *)
Definition compare_priority (k : kernel) (a b : Z) : bool := priority_compare_two_thread k a b.

(** [compare_priority] on the [donation_elem]s of a donor list.  The function
    always takes its argument for the [elem] member: relative to [donation_elem]
    the four bytes it reads as [priority] are those of [waiting_lock]. *)
Definition compare_priority_donor (k : kernel) (a b : Z) : bool :=
  bool_decide (s32 (from_option waiting_lock 0 (threads k !! a)) >
               s32 (from_option waiting_lock 0 (threads k !! b))).

(** The loop of [donate_priority], [depth] rounds left. *)
Fixpoint donate_loop (depth : nat) (curr : Z) (k : kernel) : res kernel :=
  match depth with
  | O => Ret k
  | S depth =>
      let! t := get_thread curr k in
      if bool_decide (waiting_lock t = NULL) then Ret k
      else
        let! holder := get_holder (waiting_lock t) k in
        if bool_decide (holder <> NULL) then
          let! h := get_thread holder k in
          if bool_decide (priority t > priority h) then
            let! k := upd_thread holder (fun h => set_priorities (priority t) (origin_priority h) h) k in
            donate_loop depth holder k
          else Ret k
        else Ret k
  end.

Definition donate_priority (k : kernel) : res kernel :=
  let! _ := thread_current k in
  donate_loop 8 (running_thread k) k.

Definition restore_priority (lock : Z) (k : kernel) : res kernel :=
  let! curr := thread_current k in
  let donors := sort (compare_priority_donor k) (potential_donator curr) in
  let donors := filter (fun p => from_option waiting_lock 0 (threads k !! p) <> lock) donors in
  let donors := sort (compare_priority_donor k) donors in
  let prio := match donors with
              | [] => origin_priority curr
              | front :: _ => if bool_decide (prio_of k front > origin_priority curr)
                              then prio_of k front else origin_priority curr
              end in
  upd_thread (running_thread k) (fun t => set_priorities prio (origin_priority t) (set_donators donors t)) k.

(** ** Semaphores *)

Definition sema_init (s : sema_ref) (v : Z) (k : kernel) : kernel := put_sema s (mkSema v []) k.

(** The loop of [sema_down] and, when it is left, the rest [ret] of the caller;
    [again] is the frame that resumes the loop. *)
Definition sema_loop (s : sema_ref) (again : frame) (ret : kernel -> res kernel) (k : kernel) : res kernel :=
  let! sm := get_sema s k in
  if bool_decide (value sm = 0) then
    let! k := donate_priority k in
    let! _ := thread_current k in
    let k := put_sema s (mkSema 0 (waiters sm ++ [running_thread k])) k in
    let! k := push again k in
    thread_block k
  else ret (put_sema s (mkSema (value sm - 1) (waiters sm)) k).

Definition sema_down (s : sema_ref) (k : kernel) : res kernel :=
  let! _ := thread_current k in
  ASSERT (negb (intr_context k));
  let old_level := intr_get_level k in
  let k := intr_disable k in
  sema_loop s (FSemaLoop s old_level) (intr_set_level old_level) k.

Definition sema_try_down (s : sema_ref) (k : kernel) : res (kernel * bool) :=
  let old_level := intr_get_level k in
  let k := intr_disable k in
  let! sm := get_sema s k in
  let '(k, success) :=
    if bool_decide (value sm > 0) then (put_sema s (mkSema (value sm - 1) (waiters sm)) k, true)
    else (k, false) in
  let! k := intr_set_level old_level k in
  Ret (k, success).

Definition sema_up (s : sema_ref) (k : kernel) : res kernel :=
  let old_level := intr_get_level k in
  let k := intr_disable k in
  let! sm := get_sema s k in
  let! k := push (FSetLevel old_level) k in
  match sort (compare_priority k) (waiters sm) with
  | [] => Ret (put_sema s (mkSema (u32 (value sm + 1)) []) k)
  | most_priority :: rest =>
      thread_unblock most_priority (put_sema s (mkSema (u32 (value sm + 1)) rest) k)
  end.

(** ** Locks *)

Definition lock_init (l : Z) (k : kernel) : kernel := sema_init (LockSema l) 1 (set_holder l NULL k).

Definition lock_held_by_current_thread (l : Z) (k : kernel) : res bool :=
  ASSERT (bool_decide (l <> NULL));
  let! h := get_holder l k in
  let! _ := thread_current k in
  Ret (bool_decide (h = running_thread k)).

(** The end of [sema_down] and then of [lock_acquire]. *)
Definition lock_take (l : Z) (old_level pre_level : intr_level) (k : kernel) : res kernel :=
  let! k := intr_set_level old_level k in
  let! _ := thread_current k in
  intr_set_level pre_level (set_holder l (running_thread k) k).

Definition lock_acquire (l : Z) (k : kernel) : res kernel :=
  ASSERT (bool_decide (l <> NULL));
  ASSERT (negb (intr_context k));
  let! held := lock_held_by_current_thread l k in
  ASSERT (negb held);
  let! _ := thread_current k in
  let pre_level := intr_get_level k in
  let k := intr_disable k in
  let! holder := get_holder l k in
  let! k := (if bool_decide (holder <> NULL) then
               let! k := upd_thread (running_thread k) (set_waiting_lock l) k in
               upd_thread holder
                 (fun h => set_donators
                    (insert_ordered (compare_priority_donor k) (running_thread k) (potential_donator h)) h) k
             else Ret k) in
  let old_level := intr_get_level k in
  let k := intr_disable k in
  sema_loop (LockSema l) (FLockLoop l old_level pre_level) (lock_take l old_level pre_level) k.

Definition lock_try_acquire (l : Z) (k : kernel) : res (kernel * bool) :=
  ASSERT (bool_decide (l <> NULL));
  let! held := lock_held_by_current_thread l k in
  ASSERT (negb held);
  let! _ := thread_current k in
  let pre_level := intr_get_level k in
  let k := intr_disable k in
  let! '(k, success) := sema_try_down (LockSema l) k in
  let! k := (if (success : bool) then
               let! k := upd_thread (running_thread k) (set_waiting_lock NULL) k in
               Ret (set_holder l (running_thread k) k)
             else Ret k) in
  let! k := intr_set_level pre_level k in
  Ret (k, success).

(** [lock_release] clears the holder before it disables interrupts. *)
Definition lock_release (l : Z) (k : kernel) : res kernel :=
  ASSERT (bool_decide (l <> NULL));
  let! held := lock_held_by_current_thread l k in
  ASSERT held;
  push (FLockRelease l) (set_holder l NULL k).

Definition lock_release_tail (l : Z) (k : kernel) : res kernel :=
  let pre_level := intr_get_level k in
  let k := intr_disable k in
  let! k := restore_priority l k in
  let! k := push (FSetLevel pre_level) k in
  sema_up (LockSema l) k.

(** ** Condition variables *)

Definition cond_init (c : Z) (k : kernel) : kernel := set_conds (<[c := []]> (conds k)) k.

(** [w] is the address of the local [waiter]. *)
Definition cond_wait (c l w : Z) (k : kernel) : res kernel :=
  ASSERT (bool_decide (c <> NULL));
  ASSERT (bool_decide (l <> NULL));
  ASSERT (negb (intr_context k));
  let! held := lock_held_by_current_thread l k in
  ASSERT held;
  let k := sema_init (WaiterSema w) 0 k in
  let! ws := of_opt (conds k !! c) in
  let k := set_conds (<[c := ws ++ [w]]> (conds k)) k in
  let! k := push (FDropWaiter w) k in
  let! k := push (FLockAcquire l) k in
  let! k := push (FSemaDown (WaiterSema w)) k in
  lock_release l k.

Definition sema_front (k : kernel) (w : Z) : option Z :=
  match semas k !! WaiterSema w with
  | Some (mkSema _ (p :: _)) => Some p
  | _ => None
  end.

Definition compare_sema_priority (k : kernel) (a b : Z) : bool :=
  bool_decide (from_option (prio_of k) 0 (sema_front k a) > from_option (prio_of k) 0 (sema_front k b)).

(** Sorting two waiters or more compares each of them, and [list_front] asserts
    that its list is not empty. *)
Definition cond_signal (c l : Z) (k : kernel) : res kernel :=
  ASSERT (bool_decide (c <> NULL));
  ASSERT (bool_decide (l <> NULL));
  ASSERT (negb (intr_context k));
  let! held := lock_held_by_current_thread l k in
  ASSERT held;
  let! ws := of_opt (conds k !! c) in
  ASSERT (bool_decide (length ws <= 1)%nat || forallb (fun w => bool_decide (is_Some (sema_front k w))) ws);
  match sort (compare_sema_priority k) ws with
  | [] => Ret k
  | w :: rest => sema_up (WaiterSema w) (set_conds (<[c := rest]> (conds k)) k)
  end.

Definition cond_broadcast (c l : Z) (k : kernel) : res kernel :=
  ASSERT (bool_decide (c <> NULL));
  ASSERT (bool_decide (l <> NULL));
  let! ws := of_opt (conds k !! c) in
  match ws with
  | [] => Ret k
  | _ => let! k := push (FBroadcast c l) k in cond_signal c l k
  end.

(** ** Thread creation and the idle thread (thread.c) *)

(** The address of [tid_lock]. *)
Definition tid_lock : Z := 4.

(** [page] is what [palloc_get_page] returned. *)
Definition thread_create (page : option Z) (prio : Z) (body : list frame) (k : kernel) : res kernel :=
  match page with
  | None => Ret k
  | Some t =>
      let! k := init_thread t prio body k in
      let! k := push (FCreate t prio) k in
      let! k := push (FTid t) k in
      lock_acquire tid_lock k
  end.

Definition allocate_tid_tail (t : Z) (k : kernel) : res kernel :=
  let! k := upd_thread t (set_tid (next_tid k)) k in
  lock_release tid_lock (set_next_tid (s32 (next_tid k + 1)) k).

Definition thread_create_tail (t prio : Z) (k : kernel) : res kernel :=
  let! th := get_thread t k in
  let! k := upd_thread (running_thread k)
              (fun c => set_child_list (child_list c ++ [mkChild (tid th) false (exit_code th)]) c) k in
  let! k := push (FCreateTail prio) k in
  thread_unblock t k.

Definition idle_start (s : sema_ref) (k : kernel) : res kernel :=
  let! _ := thread_current k in
  let! k := push FIdle (set_idle_thread (running_thread k) k) in
  sema_up s k.

(** ** Timer (devices/timer.c) *)

Definition timer_ticks (k : kernel) : Z := ticks k.

Definition thread_to_sleep (when_to_wakeup : Z) (k : kernel) : res kernel :=
  let pre_level := intr_get_level k in
  let k := intr_disable k in
  let! _ := thread_current k in
  let! k := upd_thread (running_thread k) (set_morning_tick when_to_wakeup) k in
  let k := set_sleeping_list (insert_ordered (compare_tick k) (running_thread k) (sleeping_list k)) k in
  let! k := push (FSetLevel pre_level) k in
  thread_block k.

Definition timer_sleep (n : Z) (k : kernel) : res kernel :=
  let start := timer_ticks k in
  ASSERT (bool_decide (intr_get_level k = INTR_ON));
  thread_to_sleep (s64 (start + n)) k.

Fixpoint wakeup_loop (fuel : nat) (current_tick : Z) (k : kernel) : res kernel :=
  match fuel with
  | O => NoFuel
  | S fuel =>
      match sleeping_list k with
      | [] => Ret k
      | p :: rest =>
          let! t := get_thread p k in
          if bool_decide (current_tick >= morning_tick t) then
            let! k := thread_unblock p (set_sleeping_list rest k) in
            wakeup_loop fuel current_tick k
          else Ret k
      end
  end.

Definition thread_to_wakeup (current_tick : Z) (k : kernel) : res kernel :=
  wakeup_loop (S (length (sleeping_list k))) current_tick k.

Definition timer_interrupt (k : kernel) : res kernel :=
  let k := set_clock (s64 (ticks k + 1)) (thread_ticks k) (idle_ticks k) (kernel_ticks k) (user_ticks k) k in
  let! k := thread_tick k in
  thread_to_wakeup (ticks k) k.

(** [intr_handler] for the timer: the gate turns interrupts off, the return from
    the interrupt turns them on again. *)
Definition intr_handler (k : kernel) : res kernel :=
  let k := intr_disable k in
  ASSERT (negb (intr_context k));
  let k := set_intr INTR_OFF true false k in
  let! k := timer_interrupt k in
  ASSERT (bool_decide (intr_get_level k = INTR_OFF));
  ASSERT (intr_context k);
  let k := set_intr (level k) false (yield_on_return k) k in
  let! k := push (FSetLevel INTR_ON) k in
  if yield_on_return k then thread_yield k else Ret k.

(** ** The machine *)

(** Execution of the innermost pending call of the running thread. *)
Definition exec (f : frame) (k : kernel) : res kernel :=
  match f with
  | FSetLevel l => intr_set_level l k
  | FKernelThread => intr_enable k
  | FSemaLoop s old => sema_loop s (FSemaLoop s old) (intr_set_level old) k
  | FLockLoop l old pre => sema_loop (LockSema l) (FLockLoop l old pre) (lock_take l old pre) k
  | FLockRelease l => lock_release_tail l k
  | FSemaDown s => sema_down s k
  | FLockAcquire l => lock_acquire l k
  | FBroadcast c l => cond_broadcast c l k
  | FDropWaiter w => Ret (set_semas (delete (WaiterSema w) (semas k)) k)
  | FTid t => allocate_tid_tail t k
  | FCreate t prio => thread_create_tail t prio k
  | FCreateTail prio =>
      let! cur := thread_current k in
      if bool_decide (priority cur < prio) then thread_yield k else Ret k
  | FIdleStart s => idle_start s k
  | FIdle => let! k := push FHlt (intr_disable k) in thread_block k
  | FHlt => let! k := push FIdle k in intr_enable k
  end.

(** What thread code can call. *)
Inductive op :=
| OSemaInit (s v : Z) | OSemaDown (s : Z) | OSemaTryDown (s : Z) | OSemaUp (s : Z)
| OLockInit (l : Z) | OLockAcquire (l : Z) | OLockTryAcquire (l : Z) | OLockRelease (l : Z)
| OCondInit (c : Z) | OCondWait (c l w : Z) | OCondSignal (c l : Z) | OCondBroadcast (c l : Z)
| OYield | OSetPriority (p : Z) | OSleep (n : Z) | OCreate (page : option Z) (p : Z) | OExit.

Definition call (o : op) (k : kernel) : res kernel :=
  match o with
  | OSemaInit s v => Ret (sema_init (Sema s) v k)
  | OSemaDown s => sema_down (Sema s) k
  | OSemaTryDown s => let! '(k, _) := sema_try_down (Sema s) k in Ret k
  | OSemaUp s => sema_up (Sema s) k
  | OLockInit l => Ret (lock_init l k)
  | OLockAcquire l => lock_acquire l k
  | OLockTryAcquire l => let! '(k, _) := lock_try_acquire l k in Ret k
  | OLockRelease l => lock_release l k
  | OCondInit c => Ret (cond_init c k)
  | OCondWait c l w => cond_wait c l w k
  | OCondSignal c l => cond_signal c l k
  | OCondBroadcast c l => cond_broadcast c l k
  | OYield => thread_yield k
  | OSetPriority p => thread_set_priority p k
  | OSleep n => timer_sleep n k
  | OCreate page p => thread_create page p [] k
  | OExit => thread_exit k
  end.

(** Objects are initialised once; memory handed out by the page allocator, or a
    new local variable, is not in use. *)
Definition call_ok (o : op) (k : kernel) : Prop :=
  match o with
  | OSemaInit s v => semas k !! Sema s = None /\ 0 <= v < 2 ^ 32
  | OLockInit l => l <> NULL /\ semas k !! LockSema l = None /\ locks k !! l = None
  | OCondInit c => conds k !! c = None
  | OCondWait _ _ w => semas k !! WaiterSema w = None
  | OCreate (Some t) _ => threads k !! t = None
  | _ => True
  end.

Definition pop (k : kernel) : res (frame * kernel) :=
  let! t := get_thread (running_thread k) k in
  match frames t with
  | [] => Ub
  | f :: fs => Ret (f, set_threads (<[running_thread k := set_frames fs t]> (threads k)) k)
  end.

(** Steps of the system after boot: the running thread goes on with a pending
    call, or the code of a thread other than the idle thread makes a call, or
    the timer interrupts. *)
Inductive step : kernel -> kernel -> Prop :=
| step_frame k f k1 k2 : pop k = Ret (f, k1) -> exec f k1 = Ret k2 -> step k k2
| step_call k t o k2 : threads k !! running_thread k = Some t -> frames t = [] ->
    running_thread k <> idle_thread k -> call_ok o k -> call o k = Ret k2 -> step k k2
| step_intr k k2 : level k = INTR_ON -> intr_handler k = Ret k2 -> step k k2.

(** The system when [thread_init] is done: the initial thread at page [main]. *)
Definition thread_init (main : Z) : kernel :=
  let k := mkKernel ∅ [] [] main NULL main 1 0 0 0 0 0 INTR_OFF false false ∅ ∅ ∅ in
  let k := lock_init tid_lock k in
  set_next_tid 2
    (set_threads {[ main := mkThread 1 THREAD_RUNNING PRI_DEFAULT 0 PRI_DEFAULT [] NULL [] main (-2) NULL [] ]} k).

(** [thread_start]: [idle] is the page of the idle thread, [s] the local
    semaphore.  The creating call completes before interrupts go on. *)
Definition thread_start (idle : Z) (k : kernel) : res kernel :=
  let k := sema_init (Sema 0) 0 k in
  let! k := push (FSemaDown (Sema 0)) k in
  let! k := push FKernelThread k in
  thread_create (Some idle) PRI_MIN [FIdleStart (Sema 0)] k.

(** Runs pending calls of whichever thread is running, without interrupts, until
    a thread is back in its own code. *)
Fixpoint run (fuel : nat) (k : kernel) : res kernel :=
  match fuel with
  | O => NoFuel
  | S fuel =>
      let! t := get_thread (running_thread k) k in
      match frames t with
      | [] => Ret k
      | _ => let! '(f, k) := pop k in let! k := exec f k in run fuel k
      end
  end.

(** The state in which [thread_start] returns to [main]. *)
Definition booted (main idle : Z) : res kernel :=
  let! k := thread_start idle (thread_init main) in run 100 k.

(** ** Runs

    A run is a list of actions; [sim] executes it, and what it computes is
    reachable by [step].  [boot] is the state in which [thread_start] returns. *)

#[export] Instance call_ok_dec o k : Decision (call_ok o k).
Proof. destruct o; simpl; try apply _. destruct page; apply _. Defined.

Inductive action := ARun | ACall (o : op) | AIntr.

Definition act (a : action) (k : kernel) : res kernel :=
  match a with
  | ARun => let! '(f, k) := pop k in exec f k
  | ACall o =>
      let! t := get_thread (running_thread k) k in
      ASSERT (match frames t with [] => true | _ => false end);
      ASSERT (bool_decide (running_thread k <> idle_thread k) && bool_decide (call_ok o k));
      call o k
  | AIntr => ASSERT (bool_decide (level k = INTR_ON)); intr_handler k
  end.

Fixpoint sim (l : list action) (k : kernel) : res kernel :=
  match l with
  | [] => Ret k
  | a :: l => let! k := act a k in sim l k
  end.

Lemma act_step a k k' : act a k = Ret k' -> step k k'.
Proof.
  destruct a; unfold act, get_thread; intros H; rinv.
  - destruct x as [f k1]. eapply step_frame; eassumption.
  - simplify_eq. match goal with H : match frames ?t with _ => _ end = true |- _ =>
      destruct (frames t) eqn:Ef; [|discriminate H] end.
    match goal with H : andb _ _ = true |- _ => apply andb_prop in H as [Hid Hok] end.
    apply bool_decide_eq_true_1 in Hid, Hok. eapply step_call; eassumption.
  - apply bool_decide_eq_true_1 in Heqb. by apply step_intr.
Qed.

Lemma sim_steps l k k' : sim l k = Ret k' -> rtc step k k'.
Proof.
  revert k; induction l as [|a l IH]; intros k H; simpl in H; [by simplify_eq|].
  rinv. eapply rtc_l; [by eapply act_step|by apply IH].
Qed.

(** The state at the end of a run that succeeds. *)
Definition end_of (l : list action) (k : kernel) : kernel :=
  match sim l k with Ret k' => k' | _ => k end.

Lemma end_of_steps l k : match sim l k with Ret _ => true | _ => false end = true -> rtc step k (end_of l k).
Proof. unfold end_of. destruct (sim l k) eqn:E; [|done..]. intros _. by eapply sim_steps. Qed.

(** [thread_create] on a free page, run to its end as far as the current thread
    keeps the CPU: the call, [allocate_tid] with the release of its lock, and the
    part that makes the new thread ready. *)
Definition create (page prio : Z) : list action :=
  ACall (OCreate (Some page) prio) :: [ARun; ARun; ARun; ARun; ARun].

(** The same, and the creating thread gets the CPU back to finish the call after
    the new thread, of higher priority, has run [l] and blocked. *)
Definition create_run (page prio : Z) (l : list action) : list action :=
  create page prio ++ ARun :: l ++ [ARun; ARun; ARun; ARun].

(** Addresses of the first two thread pages: that of the loader's stack, and the
    first page handed out. *)
Definition main_page : Z := 0xC000E000.
Definition idle_page : Z := 0xC0100000.

Definition boot_threads : gmap Z thread :=
  <[idle_page := mkThread 2 THREAD_BLOCKED 0 0 0 [] NULL [] main_page (-2) NULL [FHlt]]>
  {[ main_page := mkThread 1 THREAD_RUNNING 31 0 31 [] NULL [mkChild 2 false (-2)] main_page (-2) NULL [] ]}.

Definition boot : kernel :=
  mkKernel boot_threads [] [] main_page idle_page main_page 3 0 0 0 0 0 INTR_ON false false
    {[ LockSema tid_lock := mkSema 1 []; Sema 0 := mkSema 0 [] ]} {[ tid_lock := NULL ]} ∅.

Lemma boot_booted : booted main_page idle_page = Ret boot.
Proof. vm_compute. reflexivity. Qed.

