(* ===== verification/SchedInv.v ===== *)
(** * The scheduler invariant

    The part of the kernel state that decides who runs, as a [view]: the status of
    each thread, the ready list, the wait queues.  The invariant is stated and
    shown on views; each kernel operation is a change of views. *)

From S2P Require Import Prelude ListSpec Kernel Synch.

(** ** Views *)

(** [None] is the sleeping list, [Some s] the waiters of a semaphore. *)
Definition queue_id : Type := option sema_ref.

Record view := mkView {
  vst : Z -> option thread_status;
  vcr : Z -> list (option Z);   (* threads under creation by a thread; [None] the idle thread *)
  vready : list Z;
  vrun : Z;
  vidle : Z;
  vq : queue_id -> list Z;
  vok : bool                    (* the idle thread has only calls of its own loop pending *)
}.

Definition creations (fs : list frame) : list (option Z) :=
  omap (fun f => match f with FCreate t _ => Some (Some t) | FIdleStart _ => Some None | _ => None end) fs.

Definition is_idle_frame (f : frame) : bool :=
  match f with FSetLevel _ | FIdle | FHlt => true | _ => false end.

Definition view_of (k : kernel) : view :=
  mkView (fun p => status <$> threads k !! p)
         (fun p => from_option (fun t => creations (frames t)) [] (threads k !! p))
         (ready_list k) (running_thread k) (idle_thread k)
         (fun q => match q with None => sleeping_list k | Some s => from_option waiters [] (semas k !! s) end)
         (from_option (fun t => forallb is_idle_frame (frames t)) true (threads k !! idle_thread k)).

Definition veq (v w : view) : Prop :=
  (forall p, vst v p = vst w p) /\ (forall p, vcr v p = vcr w p) /\ vready v = vready w /\
  vrun v = vrun w /\ vidle v = vidle w /\ (forall q, vq v q = vq w q) /\ vok v = vok w.

#[export] Instance veq_equivalence : Equivalence veq.
Proof.
  split.
  - by intros v.
  - intros v w (? & ? & ? & ? & ? & ? & ?). by repeat split.
  - intros u v w (H1 & H2 & H3 & H4 & H5 & H6 & H7) (J1 & J2 & J3 & J4 & J5 & J6 & J7).
    repeat split; intros; etrans; eauto.
Qed.

(** Every thread is where its status says, and in one place only. *)
Record Wf (v : view) : Prop := {
  wf_ready_nodup : NoDup (vready v);
  wf_ready : forall p, p ∈ vready v <-> vst v p = Some THREAD_READY /\ p <> vidle v;
  wf_queue_nodup : forall q, NoDup (vq v q);
  wf_queue_disjoint : forall q q' p, p ∈ vq v q -> p ∈ vq v q' -> q = q';
  wf_queue_blocked : forall q p, p ∈ vq v q -> vst v p = Some THREAD_BLOCKED /\ p <> vidle v;
  wf_create : forall p t, Some t ∈ vcr v p ->
    vst v t = Some THREAD_BLOCKED /\ t <> vidle v /\ forall q, t ∉ vq v q;
  wf_create_nodup : forall p, NoDup (vcr v p);
  wf_create_unique : forall p p' t, Some t ∈ vcr v p -> Some t ∈ vcr v p' -> p = p';
  wf_create_idle : forall p, None ∉ vcr v p;
  wf_ok : vok v = true;
  wf_idle : exists s, vst v (vidle v) = Some s /\ s <> THREAD_DYING
}.

(** Between two calls: exactly the running thread has status RUNNING. *)
Definition Inv (v : view) : Prop :=
  Wf v /\ forall p, vst v p = Some THREAD_RUNNING <-> p = vrun v.

(** At the entry of [schedule]: nobody has. *)
Definition Pre (v : view) : Prop := Wf v /\ forall p, vst v p <> Some THREAD_RUNNING.

#[export] Instance Wf_proper : Proper (veq ==> iff) Wf.
Proof.
  enough (H : forall v w, veq v w -> Wf v -> Wf w) by (intros v w E; split; apply H; [done|by symmetry]).
  intros [st cr rd rn id q ok] [st' cr' rd' rn' id' q' ok'] (E1 & E2 & E3 & E4 & E5 & E6 & E7) []; simpl in *; subst.
  split; simpl; intros *; rewrite <- ?E1, <- ?E2, <- ?E6; eauto.
  - intros H. destruct (wf_create0 _ _ H) as (? & ? & Hq). split_and!; auto. intros q0. by rewrite <- E6.
Qed.
#[export] Instance Inv_proper : Proper (veq ==> iff) Inv.
Proof.
  intros v w E. unfold Inv. rewrite (Wf_proper _ _ E). destruct E as (E1 & _ & _ & -> & _).
  split; intros [? H]; (split; [done|]); intros p; [rewrite <- E1|rewrite E1]; apply H.
Qed.
#[export] Instance Pre_proper : Proper (veq ==> iff) Pre.
Proof.
  intros v w E. unfold Pre. rewrite (Wf_proper _ _ E). destruct E as (E1 & _).
  split; intros [? H]; (split; [done|]); intros p; [rewrite <- E1|rewrite E1]; apply H.
Qed.

Definition inv (k : kernel) : Prop := Inv (view_of k).

(** Functional update at one point. *)
Definition upd {A B} `{EqDecision A} (f : A -> B) (a : A) (b : B) : A -> B :=
  fun x => if decide (x = a) then b else f x.

Lemma upd_eq {A B} `{EqDecision A} (f : A -> B) a b : upd f a b a = b.
Proof. unfold upd. by rewrite decide_True. Qed.
Lemma upd_ne {A B} `{EqDecision A} (f : A -> B) a b x : x <> a -> upd f a b x = f x.
Proof. intros. unfold upd. by rewrite decide_False. Qed.

(** ** Changes of views *)

Section ViewLemmas.
Implicit Types (v : view) (p t : Z).

Definition v_st p s v := mkView (upd (vst v) p s) (vcr v) (vready v) (vrun v) (vidle v) (vq v) (vok v).
Definition v_ready l v := mkView (vst v) (vcr v) l (vrun v) (vidle v) (vq v) (vok v).
Definition v_run p v := mkView (vst v) (vcr v) (vready v) p (vidle v) (vq v) (vok v).
Definition v_q q l v := mkView (vst v) (vcr v) (vready v) (vrun v) (vidle v) (upd (vq v) q l) (vok v).
Definition v_cr p l v := mkView (vst v) (upd (vcr v) p l) (vready v) (vrun v) (vidle v) (vq v) (vok v).

(** The next thread, taken from the ready list or the idle thread, starts running. *)
Lemma Pre_dispatch v p rest : Pre v -> vready v = p :: rest ->
  Inv (v_run p (v_st p (Some THREAD_RUNNING) (v_ready rest v))).
Proof.
  intros [[] Hno] E. destruct v as [st cr rd rn id q ok]; simpl in *; subst rd.
  apply NoDup_cons in wf_ready_nodup0 as [Hp Hnd].
  assert (Hst : st p = Some THREAD_READY /\ p <> id) by (apply wf_ready0; set_solver).
  destruct Hst as [Hst Hid].
  split; [split|]; simpl; auto.
  - intros x. unfold upd. case_decide as D.
    + subst x. split; [done|naive_solver].
    + rewrite <- wf_ready0. set_solver.
  - intros qq x Hx. destruct (wf_queue_blocked0 qq x Hx). unfold upd. case_decide; [congruence|done].
  - intros x t Ht. destruct (wf_create0 x t Ht) as (? & ? & ?). unfold upd. case_decide; [congruence|done].
  - unfold upd. case_decide; [|done]. congruence.
  - intros x. unfold upd. case_decide; [naive_solver|]. specialize (Hno x). naive_solver.
Qed.

Lemma Pre_idle v : Pre v -> vready v = [] ->
  Inv (v_run (vidle v) (v_st (vidle v) (Some THREAD_RUNNING) v)).
Proof.
  intros [[] Hno] E. destruct v as [st cr rd rn id q ok]; simpl in *; subst rd.
  split; [split|]; simpl; auto.
  - intros x. unfold upd. case_decide; [|done]. split; [set_solver|naive_solver].
  - intros qq x Hx. destruct (wf_queue_blocked0 qq x Hx). by rewrite upd_ne.
  - intros x t Ht. destruct (wf_create0 x t Ht) as (? & ? & ?). by rewrite upd_ne.
  - rewrite upd_eq. eauto.
  - intros x. unfold upd. case_decide; [naive_solver|]. specialize (Hno x). naive_solver.
Qed.

(** A dead thread is freed. *)
Lemma Inv_free v p : Inv v -> vst v p = Some THREAD_DYING -> Inv (v_cr p [] (v_st p None v)).
Proof.
  intros [[] Hrun] Hd. destruct v as [st cr rd rn id q ok]; simpl in *.
  assert (Hcr : forall (x : Z) (o : option Z), o ∈ upd cr p [] x -> o ∈ cr x).
  { intros x o. unfold upd. case_decide; set_solver. }
  split; [split|]; simpl; auto.
  - intros x. rewrite wf_ready0. unfold upd. case_decide; naive_solver.
  - intros qq x Hx. destruct (wf_queue_blocked0 qq x Hx). rewrite upd_ne; [done|congruence].
  - intros x t Ht%Hcr. destruct (wf_create0 x t Ht) as (? & ? & ?). rewrite upd_ne; [done|congruence].
  - intros x. unfold upd. case_decide; [constructor|done].
  - intros x x' t H1%Hcr H2%Hcr. eauto.
  - intros x Hx%Hcr. by apply (wf_create_idle0 x).
  - destruct wf_idle0 as (s & Hs & Hne). rewrite upd_ne; [eauto|]. congruence.
  - intros x. rewrite <- Hrun. unfold upd. case_decide; naive_solver.
Qed.

(** The running thread leaves: to a wait queue, to the ready list, for good. *)
Lemma Inv_block v q l : Inv v -> vrun v <> vidle v -> l ≡ₚ vrun v :: vq v q ->
  Pre (v_q q l (v_st (vrun v) (Some THREAD_BLOCKED) v)).
Proof.
  intros [[] Hrun] Hid Hl. destruct v as [st cr rd rn id qs ok]; simpl in *.
  assert (Hst : st rn = Some THREAD_RUNNING) by (by apply Hrun).
  assert (Hin : forall q' x, x ∈ upd qs q l q' -> (q' = q /\ x = rn) \/ x ∈ qs q').
  { intros q' x. unfold upd. case_decide; [subst; rewrite Hl; set_solver|auto]. }
  assert (Hrn : forall q', rn ∉ qs q') by (intros q' [Hb _]%wf_queue_blocked0; congruence).
  split; [split|]; simpl; auto.
  - intros x. rewrite wf_ready0. unfold upd. case_decide; naive_solver.
  - intros q'. unfold upd. case_decide; [|done]. rewrite Hl. apply NoDup_cons. auto.
  - intros q1 q2 x [[-> ->]|H1]%Hin [[-> E]|H2]%Hin; subst; try done.
    + by apply Hrn in H2.
    + by apply Hrn in H1.
    + eauto.
  - intros q' x [[-> ->]|Hx]%Hin; [by rewrite upd_eq|]. destruct (wf_queue_blocked0 _ _ Hx).
    split; [|done]. unfold upd. by case_decide.
  - intros x t Ht. destruct (wf_create0 x t Ht) as (Hb & ? & ?). split_and!; [|done|].
    + unfold upd. by case_decide.
    + intros q' [[-> ->]|Hq]%Hin; [congruence|set_solver].
  - unfold upd. case_decide; [eauto|done].
  - intros x. unfold upd. case_decide; [done|]. naive_solver.
Qed.

Lemma Inv_idle_leaves v s : Inv v -> vrun v = vidle v -> s = THREAD_BLOCKED \/ s = THREAD_READY ->
  Pre (v_st (vrun v) (Some s) v).
Proof.
  intros [[] Hrun] Hid Hs. destruct v as [st cr rd rn id qs ok]; simpl in *; subst rn.
  split; [split|]; simpl; auto.
  - intros x. rewrite wf_ready0. unfold upd. case_decide; naive_solver.
  - intros q x Hx. destruct (wf_queue_blocked0 q x Hx). by rewrite upd_ne.
  - intros x t Ht. destruct (wf_create0 x t Ht) as (? & ? & ?). by rewrite upd_ne.
  - rewrite upd_eq. naive_solver.
  - intros x. unfold upd. case_decide; naive_solver.
Qed.

Lemma Inv_yield v l : Inv v -> vrun v <> vidle v -> l ≡ₚ vrun v :: vready v ->
  Pre (v_st (vrun v) (Some THREAD_READY) (v_ready l v)).
Proof.
  intros [[] Hrun] Hid Hl. destruct v as [st cr rd rn id qs ok]; simpl in *.
  assert (Hst : st rn = Some THREAD_RUNNING) by (by apply Hrun).
  split; [split|]; simpl; auto.
  - rewrite Hl. apply NoDup_cons. split; [|done]. rewrite wf_ready0. naive_solver congruence.
  - intros x. rewrite Hl, elem_of_cons, wf_ready0. unfold upd. case_decide; naive_solver.
  - intros q x Hx. destruct (wf_queue_blocked0 q x Hx). rewrite upd_ne; [done|congruence].
  - intros x t Ht. destruct (wf_create0 x t Ht) as (? & ? & ?). rewrite upd_ne; [done|congruence].
  - rewrite upd_ne; [done|congruence].
  - intros x. unfold upd. case_decide; naive_solver.
Qed.

Lemma Inv_leaves v s : Inv v -> vrun v <> vidle v -> s = THREAD_DYING \/ s = THREAD_BLOCKED ->
  Pre (v_st (vrun v) (Some s) v).
Proof.
  intros [[] Hrun] Hid Hs. destruct v as [st cr rd rn id qs ok]; simpl in *.
  assert (Hst : st rn = Some THREAD_RUNNING) by (by apply Hrun).
  split; [split|]; simpl; auto.
  - intros x. rewrite wf_ready0. unfold upd. case_decide; naive_solver.
  - intros q x Hx. destruct (wf_queue_blocked0 q x Hx). rewrite upd_ne; [done|congruence].
  - intros x t Ht. destruct (wf_create0 x t Ht) as (? & ? & ?). rewrite upd_ne; [done|congruence].
  - rewrite upd_ne; [done|congruence].
  - intros x. unfold upd. case_decide; naive_solver.
Qed.

(** A queue loses elements or is reordered. *)
Lemma Inv_shrink v q l : Inv v -> NoDup l -> (forall p, p ∈ l -> p ∈ vq v q) -> Inv (v_q q l v).
Proof.
  intros [[] Hrun] Hnd Hl. destruct v as [st cr rd rn id qs ok]; simpl in *.
  assert (Hin : forall q' x, x ∈ upd qs q l q' -> x ∈ qs q').
  { intros q' x. unfold upd. case_decide; [subst; auto|done]. }
  split; [split|]; simpl; auto.
  - intros q'. unfold upd. by case_decide.
  - intros q1 q2 x H1%Hin H2%Hin. eauto.
  - intros q' x Hx%Hin. eauto.
  - intros x t Ht. destruct (wf_create0 x t Ht) as (? & ? & Hq). split_and!; [done..|].
    intros q' Hx%Hin. by apply (Hq q').
Qed.

(** A blocked thread that is in no queue becomes ready. *)
Lemma Inv_unblock v p l : Inv v -> vst v p = Some THREAD_BLOCKED -> p <> vidle v ->
  (forall q, p ∉ vq v q) -> (forall x, Some p ∉ vcr v x) -> l ≡ₚ p :: vready v ->
  Inv (v_st p (Some THREAD_READY) (v_ready l v)).
Proof.
  intros [[] Hrun] Hst Hid Hq Hcr Hl. destruct v as [st cr rd rn id qs ok]; simpl in *.
  split; [split|]; simpl; auto.
  - rewrite Hl. apply NoDup_cons. split; [|done]. rewrite wf_ready0. naive_solver congruence.
  - intros x. rewrite Hl, elem_of_cons, wf_ready0. unfold upd. case_decide; naive_solver.
  - intros q x Hx. destruct (wf_queue_blocked0 q x Hx). rewrite upd_ne; [done|]. intros ->. by apply (Hq q).
  - intros x t Ht. destruct (wf_create0 x t Ht) as (? & ? & ?). rewrite upd_ne; [done|]. intros ->. by apply (Hcr x).
  - unfold upd. case_decide; [eauto|done].
  - intros x. rewrite <- Hrun. unfold upd. case_decide; naive_solver.
Qed.

(** Creation of a thread on a fresh page, and its end. *)
Lemma Inv_create v t : Inv v -> vst v t = None ->
  Inv (v_cr (vrun v) (Some t :: vcr v (vrun v)) (v_cr t [] (v_st t (Some THREAD_BLOCKED) v))).
Proof.
  intros [[] Hrun] Hst. destruct v as [st cr rd rn id qs ok]; simpl in *.
  assert (Hrn : st rn = Some THREAD_RUNNING) by (by apply Hrun).
  assert (Hne : t <> rn) by congruence.
  assert (Hq : forall q, t ∉ qs q) by (intros q [Hb _]%wf_queue_blocked0; congruence).
  assert (Hold : forall x, Some t ∉ cr x) by (intros x (Hb & _)%wf_create0; congruence).
  assert (Hidn : t <> id) by (destruct wf_idle0 as (s & Hs & _); congruence).
  set (cr' := upd (upd cr t []) rn (Some t :: cr rn)).
  assert (Hcr : forall x o, o ∈ cr' x -> (x = rn /\ o = Some t) \/ o ∈ cr x).
  { intros x o. unfold cr', upd. repeat case_decide; subst; set_solver. }
  split; [split|]; simpl; auto.
  - intros x. rewrite wf_ready0. unfold upd. case_decide; naive_solver.
  - intros q x Hx. destruct (wf_queue_blocked0 q x Hx). rewrite upd_ne; [done|congruence].
  - intros x u [[-> [= ->]]|Hu]%Hcr; [by rewrite upd_eq|].
    destruct (wf_create0 x u Hu) as (? & ? & ?). rewrite upd_ne; [done|congruence].
  - intros x. fold cr'. unfold cr', upd. repeat case_decide; subst; [|constructor|done].
    apply NoDup_cons. split; [apply Hold|done].
  - intros x x' u [[-> E1]|H1]%Hcr [[-> E2]|H2]%Hcr; simplify_eq; try done.
    + by apply Hold in H2.
    + by apply Hold in H1.
    + eauto.
  - intros x [[_ ?]|Hx]%Hcr; [done|]. by apply (wf_create_idle0 x).
  - rewrite upd_ne; [done|congruence].
  - intros x. rewrite <- Hrun. unfold upd. case_decide; naive_solver.
Qed.

Lemma Inv_created v p o l : Inv v -> vcr v p = o :: l -> Inv (v_cr p l v) /\
  exists t, o = Some t /\ vst v t = Some THREAD_BLOCKED /\ t <> vidle v /\ (forall q, t ∉ vq v q) /\
            forall x, Some t ∉ vcr (v_cr p l v) x.
Proof.
  intros [[] Hrun] E. destruct v as [st cr rd rn id qs ok]; simpl in *.
  assert (Hcr : forall x o, o ∈ upd cr p l x -> o ∈ cr x).
  { intros x o'. unfold upd. case_decide; subst; rewrite ?E; set_solver. }
  destruct o as [t|]; [|destruct (wf_create_idle0 p); rewrite E; set_solver].
  assert (Ht : Some t ∈ cr p) by (rewrite E; set_solver).
  pose proof (wf_create_nodup0 p) as Hnd. rewrite E in Hnd. apply NoDup_cons in Hnd as [Hnt Hnd].
  split.
  - split; [split|]; simpl; auto.
    + intros x u Hu%Hcr. eauto.
    + intros x. unfold upd. by case_decide.
    + intros x x' u H1%Hcr H2%Hcr. eauto.
    + intros x Hx%Hcr. by apply (wf_create_idle0 x).
  - destruct (wf_create0 p t Ht) as (? & ? & ?). exists t. split_and!; [done..|].
    intros x Hx. pose proof (wf_create_unique0 x p t (Hcr _ _ Hx) Ht). subst x. by rewrite upd_eq in Hx.
Qed.
End ViewLemmas.
