(* ===== verification/SchedProof.v ===== *)
(** * Every step preserves the scheduler invariant *)

From S2P Require Import Prelude ListSpec Kernel Synch SchedInv.

(** ** Kernel operations as changes of views *)

Lemma upd_thread_inv p f k k' : upd_thread p f k = Ret k' ->
  exists t, threads k !! p = Some t /\ k' = set_threads (<[p := f t]> (threads k)) k.
Proof.
  unfold upd_thread, get_thread. intros H. rinv. simplify_eq. eauto.
Qed.

(** Replacing a thread record. *)
Lemma view_insert k p t : 
  veq (view_of (set_threads (<[p := t]> (threads k)) k))
      (mkView (upd (vst (view_of k)) p (Some (status t))) (upd (vcr (view_of k)) p (creations (frames t)))
         (ready_list k) (running_thread k) (idle_thread k) (vq (view_of k))
         (if decide (p = idle_thread k) then forallb is_idle_frame (frames t) else vok (view_of k))).
Proof.
  split_and!; try done; simpl.
  - intros q. unfold upd. case_decide; subst; simplify_map_eq; done.
  - intros q. unfold upd. case_decide; subst; simplify_map_eq; done.
  - case_decide; subst; simplify_map_eq; done.
Qed.

Lemma veq_id_insert k p t t0 : threads k !! p = Some t0 -> status t = status t0 ->
  creations (frames t) = creations (frames t0) ->
  (p = idle_thread k -> forallb is_idle_frame (frames t) = forallb is_idle_frame (frames t0)) ->
  veq (view_of (set_threads (<[p := t]> (threads k)) k)) (view_of k).
Proof.
  intros Ht Hs Hc Hi. rewrite view_insert. split_and!; try done; simpl.
  - intros q. unfold upd. case_decide; [subst; by rewrite Ht, Hs|done].
  - intros q. unfold upd. case_decide; [subst; by rewrite Ht, Hc|done].
  - case_decide; [|done]. rewrite Hi by done. subst p. by rewrite Ht.
Qed.

(** Updates that the scheduler does not see. *)
Lemma upd_thread_keep p f k k' : upd_thread p f k = Ret k' ->
  (forall t, status (f t) = status t) -> (forall t, frames (f t) = frames t) ->
  veq (view_of k') (view_of k).
Proof.
  intros (t & Ht & ->)%upd_thread_inv Hs Hf. apply (veq_id_insert _ _ _ t); rewrite ?Hs, ?Hf; done.
Qed.

Lemma upd_thread_status p s k k' : upd_thread p (set_status s) k = Ret k' ->
  veq (view_of k') (v_st p (Some s) (view_of k)).
Proof.
  intros (t & Ht & ->)%upd_thread_inv. rewrite view_insert. split_and!; try done; simpl.
  - intros q. unfold upd. case_decide; [subst; by rewrite Ht|done].
  - case_decide; [subst; by rewrite Ht|done].
Qed.

Lemma push_keep f k k' : push f k = Ret k' -> creations [f] = [] ->
  running_thread k <> idle_thread k \/ is_idle_frame f = true ->
  veq (view_of k') (view_of k).
Proof.
  unfold push. intros (t & Ht & ->)%upd_thread_inv Hc Hi. apply (veq_id_insert _ _ _ t); [done|done|..].
  - simpl. unfold creations in *. simpl in *. by destruct f.
  - simpl. intros E. destruct Hi as [?| ->]; done.
Qed.

Lemma put_sema_view s sm k : veq (view_of (put_sema s sm k)) (v_q (Some s) (waiters sm) (view_of k)).
Proof.
  split_and!; try done. intros [s'|]; simpl; unfold upd; case_decide as E; simplify_eq; try done.
  - by rewrite lookup_insert_eq.
  - by rewrite lookup_insert_ne by congruence.
Qed.

Lemma set_sleeping_view l k : veq (view_of (set_sleeping_list l k)) (v_q None l (view_of k)).
Proof. split_and!; try done. intros [s'|]; simpl; unfold upd; by case_decide. Qed.

Lemma intr_set_level_keep l k k' : intr_set_level l k = Ret k' -> view_of k' = view_of k.
Proof. destruct l; simpl; unfold intr_enable; intros; rinv; by subst. Qed.

Lemma thread_current_ok k t : thread_current k = Ret t ->
  threads k !! running_thread k = Some t /\ status t = THREAD_RUNNING.
Proof.
  unfold thread_current, get_thread. intros H. rinv. simplify_eq.
  split; [done|]. by apply (bool_decide_eq_true_1 _).
Qed.

Lemma ready_insert_perm p k : ready_list (ready_insert p k) ≡ₚ p :: ready_list k.
Proof. apply insert_ordered_perm. Qed.

Lemma donate_loop_keep n c k k' : donate_loop n c k = Ret k' -> veq (view_of k') (view_of k).
Proof.
  revert c k; induction n as [|n IH]; intros c k H; simpl in H; [by simplify_eq|].
  rinv. repeat (case_bool_decide; rinv; try by subst).
  etrans; [eapply IH; eassumption|]. eapply upd_thread_keep; [done|done|done].
Qed.

Lemma restore_priority_keep l k k' : restore_priority l k = Ret k' -> veq (view_of k') (view_of k).
Proof. unfold restore_priority. intros H. rinv. eapply upd_thread_keep; [done|done|done]. Qed.

(** ** The scheduler *)

Lemma schedule_tail_inv prev k k' : schedule_tail prev k = Ret k' ->
  Inv (v_st (running_thread k) (Some THREAD_RUNNING) (view_of k)) -> inv k'.
Proof.
  unfold schedule_tail, get_thread. intros H Hinv. rinv.
  match goal with H1 : upd_thread _ _ _ = Ret ?x |- _ => pose proof (upd_thread_status _ _ _ _ H1) as Hv; rename x into k1 end.
  rewrite <- Hv in Hinv. clear Hv.
  set (k2 := set_clock _ _ _ _ _ k1) in *. assert (Hinv2 : inv k2) by exact Hinv.
  case_bool_decide; [|by rinv; subst]. rinv. case_bool_decide as Hd; simpl in *; [|by rinv; subst].
  case_bool_decide; [|by rinv; subst]. rinv. subst k'.
  simplify_eq. rename Heqo into Ht. rename x0 into t.
  pose proof (Inv_free (view_of k2) prev Hinv2) as Hf. simpl in Hf.
  rewrite Ht in Hf. simpl in Hf. rewrite Hd in Hf. specialize (Hf eq_refl).
  unfold inv. eapply Inv_proper; [|exact Hf].
  assert (Hni : prev <> idle_thread k2).
  { intros E. destruct Hinv2 as [[_ _ _ _ _ _ _ _ _ _ (s & Hs & Hne)] _]. simpl in Hs.
    change (idle_thread k2) with (idle_thread k1) in *. rewrite <- E, Ht in Hs. simpl in Hs. congruence. }
  split_and!; try done; simpl.
  - intros p. unfold upd. destruct (decide (p = prev)) as [->|]; [by rewrite lookup_delete_eq|by rewrite lookup_delete_ne].
  - intros p. unfold upd. destruct (decide (p = prev)) as [->|]; [by rewrite lookup_delete_eq|by rewrite lookup_delete_ne].
  - by rewrite lookup_delete_ne.
Qed.

Lemma schedule_inv k k' : schedule k = Ret k' -> Pre (view_of k) -> inv k'.
Proof.
  unfold schedule, next_thread_to_run. intros H Hpre. destruct (ready_list k) as [|p rest] eqn:E; rinv.
  - pose proof (Pre_idle _ Hpre E) as Hi. simpl in Hi.
    case_bool_decide as Hne; (eapply schedule_tail_inv; [eassumption|]); [exact Hi|].
    eapply Inv_proper; [|exact Hi]. by rewrite Hne.
  - pose proof (Pre_dispatch _ _ _ Hpre E) as Hi. simpl in Hi.
    case_bool_decide as Hne; (eapply schedule_tail_inv; [eassumption|]); [exact Hi|].
    eapply Inv_proper; [|exact Hi]. simpl. by rewrite Hne.
Qed.

(** ** thread.c *)

Lemma thread_block_inv k k' : thread_block k = Ret k' ->
  Pre (v_st (running_thread k) (Some THREAD_BLOCKED) (view_of k)) -> inv k'.
Proof.
  unfold thread_block. intros H Hpre. rinv. eapply schedule_inv; [eassumption|].
  eapply Pre_proper; [by eapply upd_thread_status|done].
Qed.

Lemma thread_yield_inv k k' : thread_yield k = Ret k' -> inv k -> inv k'.
Proof.
  unfold thread_yield. intros H Hi. rinv. eapply schedule_inv; [eassumption|].
  match goal with H1 : push _ ?k1 = Ret ?k2, H2 : upd_thread _ _ ?k0 = Ret ?k1 |- _ =>
    pose proof (upd_thread_status _ _ _ _ H2) as Hv; rename H1 into Hpush; set (k0' := k0) in * end.
  eapply Pre_proper; [eapply push_keep; [exact Hpush|done|by right]|].
  rewrite Hv. unfold k0'. case_bool_decide as Hid.
  - exact (Inv_yield (view_of k) _ Hi Hid (insert_ordered_perm _ _ _)).
  - eapply (Inv_idle_leaves (view_of k)); [done|done|by right].
Qed.

Lemma thread_unblock_blocked t k k' : thread_unblock t k = Ret k' ->
  vst (view_of k) t = Some THREAD_BLOCKED.
Proof.
  unfold thread_unblock, get_thread. intros H. rinv. simpl in *. simplify_eq.
  rewrite Heqo. simpl. f_equal. by apply (bool_decide_eq_true_1 _).
Qed.

Lemma thread_unblock_inv t k k' : thread_unblock t k = Ret k' -> inv k -> t <> idle_thread k ->
  (forall q, t ∉ vq (view_of k) q) -> (forall p, Some t ∉ vcr (view_of k) p) -> inv k'.
Proof.
  intros H Hi Hid Hq Hcr. pose proof (thread_unblock_blocked _ _ _ H) as Hst.
  unfold thread_unblock, get_thread in H. rinv.
  match goal with H1 : upd_thread _ _ _ = Ret ?x |- _ =>
    pose proof (upd_thread_status _ _ _ _ H1) as Hv; rename x into k1 end.
  assert (Hi1 : inv k1).
  { unfold inv. rewrite Hv. exact (Inv_unblock (view_of k) t _ Hi Hst Hid Hq Hcr (insert_ordered_perm _ _ _)). }
  destruct (bool_decide (running_thread k1 <> idle_thread k1)) eqn:E1; simpl in *;
    [apply bool_decide_eq_true_1 in E1; case_bool_decide; simpl in *|].
  - rinv. eapply thread_yield_inv; [eassumption|].
    unfold inv. eapply Inv_proper; [eapply push_keep; [eassumption|done|by left]|done].
  - unfold inv. by erewrite intr_set_level_keep.
  - unfold inv. by erewrite intr_set_level_keep.
Qed.

Lemma inv_veq k k' : veq (view_of k') (view_of k) -> inv k -> inv k'.
Proof. intros E H. unfold inv. by rewrite E. Qed.

#[export] Instance v_st_proper p s : Proper (veq ==> veq) (v_st p s).
Proof.
  intros v w (H1 & H2 & H3 & H4 & H5 & H6 & H7). split_and!; simpl; auto.
  intros q. unfold upd. by case_decide.
Qed.
#[export] Instance v_q_proper q l : Proper (veq ==> veq) (v_q q l).
Proof.
  intros v w (H1 & H2 & H3 & H4 & H5 & H6 & H7). split_and!; simpl; auto.
  intros p. unfold upd. by case_decide.
Qed.

Lemma thread_set_priority_inv n k k' : thread_set_priority n k = Ret k' -> inv k -> inv k'.
Proof.
  unfold thread_set_priority. intros H Hi. rinv. case_bool_decide; rinv.
  - unfold inv. erewrite intr_set_level_keep by eassumption.
    eapply inv_veq; [eapply upd_thread_keep; [eassumption|done..]|exact Hi].
  - match goal with H1 : push _ _ = Ret ?x |- _ => assert (Hi2 : inv x) end.
    { eapply inv_veq; [eapply push_keep; [eassumption|done|by right]|].
      eapply inv_veq; [eapply upd_thread_keep; [eassumption|done..]|exact Hi]. }
    destruct (ready_list x1); rinv; [by subst|]. case_bool_decide; [|by rinv; subst].
    by eapply thread_yield_inv.
Qed.

Lemma thread_exit_inv k k' : thread_exit k = Ret k' -> inv k -> running_thread k <> idle_thread k -> inv k'.
Proof.
  unfold thread_exit. intros H Hi Hid. rinv. eapply schedule_inv; [eassumption|].
  match goal with H1 : upd_thread _ (set_child_list _) _ = Ret ?x, H2 : upd_thread _ (set_status _) _ = Ret _ |- _ =>
    pose proof (upd_thread_status _ _ _ _ H2) as Hv; assert (He : veq (view_of x) (view_of k))
      by (eapply upd_thread_keep; [exact H1|done..]) end.
  rewrite Hv. simpl. change (view_of (intr_disable ?z)) with (view_of z). rewrite He.
  destruct He as (_ & _ & _ & Hr & _). simpl in Hr. rewrite Hr. apply (Inv_leaves (view_of k)); [done|done|by left].
Qed.

(** ** synch.c *)

Lemma sema_up_inv s k k' : sema_up s k = Ret k' -> inv k -> inv k'.
Proof.
  unfold sema_up, get_sema. intros H Hi. rinv. simpl in *. simplify_eq.
  match goal with H1 : push _ _ = Ret ?y, H2 : semas k !! s = Some ?sm0 |- _ =>
    assert (He : veq (view_of y) (view_of k)) by exact (push_keep _ _ _ H1 eq_refl (or_intror eq_refl));
    rename y into k1; rename sm0 into sm; rename H2 into Hs end.
  assert (Hi1 : inv k1) by (by eapply inv_veq).
  assert (Hw : vq (view_of k1) (Some s) = waiters sm) by (destruct He as (_ & _ & _ & _ & _ & Hq & _); rewrite Hq; simpl; by rewrite Hs).
  pose proof (sort_perm (compare_priority k1) (waiters sm)) as Hp.
  pose proof Hi1 as [[_ _ Hnd Hdj Hbl Hcr _ _ _ _] _].
  assert (Hi2 : forall l n, NoDup l -> (forall p, p ∈ l -> p ∈ waiters sm) -> inv (put_sema s (mkSema n l) k1)).
  { intros l n Hl Hsub. unfold inv. rewrite put_sema_view. apply Inv_shrink; [exact Hi1|done|]. by rewrite Hw. }
  destruct (sort (compare_priority k1) (waiters sm)) as [|p rest] eqn:E; rinv.
  - subst. apply Hi2; [constructor|set_solver].
  - assert (Hin : p ∈ waiters sm) by (rewrite <- Hp; set_solver).
    specialize (Hnd (Some s)) as Hnds. rewrite Hw, <- Hp in Hnds. apply NoDup_cons in Hnds as [Hnp Hndr].
    rewrite <- Hw in Hin. destruct (Hbl _ _ Hin) as [_ Hpid].
    eapply thread_unblock_inv; [eassumption| |done| |].
    + apply Hi2; [done|]. intros x Hx. rewrite <- Hp. set_solver.
    + intros q Hq. destruct (put_sema_view s (mkSema (u32 (value sm + 1)) rest) k1) as (_ & _ & _ & _ & _ & Hv & _).
      rewrite Hv in Hq. simpl in Hq. unfold upd in Hq. case_decide as D; [by subst q|].
      apply D. by apply (Hdj q (Some s) p).
    + intros x Hx. destruct (Hcr x p Hx) as (_ & _ & Hn). by apply (Hn (Some s)).
Qed.

Lemma sema_loop_inv s again ret k k' : sema_loop s again ret k = Ret k' -> inv k ->
  running_thread k <> idle_thread k -> creations [again] = [] ->
  (forall k1, veq (view_of k1) (view_of k) -> ret k1 = Ret k' -> inv k') -> inv k'.
Proof.
  unfold sema_loop, get_sema. intros H Hi Hid Ha Hret. rinv. simplify_eq.
  match goal with H1 : semas k !! s = Some ?x |- _ => rename x into sm; rename H1 into Hs end.
  case_bool_decide; rinv.
  - eapply thread_block_inv; [eassumption|].
    match goal with H1 : push _ _ = Ret ?y, H2 : donate_priority k = Ret ?x |- _ =>
      rename y into k2; rename x into k1; rename H1 into Hpush; rename H2 into Hdon end.
    unfold donate_priority in Hdon. rinv.
    assert (He1 : veq (view_of k1) (view_of k)) by (by eapply donate_loop_keep).
    pose proof He1 as (_ & _ & _ & Hr1 & Hi1 & _). simpl in Hr1, Hi1.
    assert (He2 : veq (view_of k2) (v_q (Some s) (waiters sm ++ [running_thread k]) (view_of k))).
    { etrans; [eapply push_keep; [exact Hpush|done|left; simpl; congruence]|].
      rewrite put_sema_view. simpl. by rewrite Hr1, He1. }
    pose proof He2 as (_ & _ & _ & Hr2 & _). simpl in Hr2. rewrite Hr2, He2.
    eapply Pre_proper; [|apply (Inv_block (view_of k) (Some s) (waiters sm ++ [running_thread k])); [exact Hi|exact Hid|]].
    + by split_and!.
    + simpl. rewrite Hs. simpl. by rewrite Permutation_app_comm.
  - eapply Hret; [|eassumption]. rewrite put_sema_view. split_and!; try done.
    intros q. simpl. unfold upd. case_decide; [subst; by rewrite Hs|done].
Qed.

Lemma sema_down_inv s k k' : sema_down s k = Ret k' -> inv k -> running_thread k <> idle_thread k -> inv k'.
Proof.
  unfold sema_down. intros H Hi Hid. rinv. eapply sema_loop_inv; [eassumption|exact Hi|exact Hid|done|].
  intros k1 He Hk. unfold inv. erewrite intr_set_level_keep by eassumption. by rewrite He.
Qed.

Lemma lock_take_inv l old pre k k' : lock_take l old pre k = Ret k' -> inv k -> inv k'.
Proof.
  unfold lock_take. intros H Hi. rinv. unfold inv. erewrite intr_set_level_keep by eassumption.
  change (view_of (set_holder ?a ?b ?c)) with (view_of c). by erewrite intr_set_level_keep by eassumption.
Qed.

Lemma lock_acquire_inv l k k' : lock_acquire l k = Ret k' -> inv k -> running_thread k <> idle_thread k -> inv k'.
Proof.
  unfold lock_acquire. intros H Hi Hid. rinv.
  match goal with H1 : (if bool_decide _ then _ else Ret _) = Ret ?x |- _ =>
    assert (He : veq (view_of x) (view_of k)); [clear - H1|rename x into k1] end.
  { case_bool_decide; rinv; [|by subst]. etrans; [eapply upd_thread_keep; [eassumption|done..]|].
    eapply (upd_thread_keep _ _ (intr_disable k)); [eassumption|done..]. }
  pose proof He as (_ & _ & _ & Hr & Hd & _). simpl in Hr, Hd.
  eapply sema_loop_inv; [eassumption|by apply (inv_veq k)|simpl; congruence|done|].
  intros k2 He2 Hk. eapply lock_take_inv; [eassumption|]. unfold inv. rewrite He2. exact (inv_veq _ _ He Hi).
Qed.

Lemma sema_try_down_inv s k r : sema_try_down s k = Ret r -> inv k -> inv r.1.
Proof.
  unfold sema_try_down, get_sema. intros H Hi. rinv. simpl in *. simplify_eq.
  case_bool_decide; rinv; subst; simpl; unfold inv; erewrite intr_set_level_keep by eassumption; [|exact Hi].
  rewrite put_sema_view. apply Inv_shrink; [exact Hi| |]; simpl.
  - destruct Hi as [[_ _ Hnd _ _ _ _ _ _ _] _]. specialize (Hnd (Some s)). simpl in Hnd. by rewrite Heqo in Hnd.
  - by rewrite Heqo.
Qed.

Lemma lock_try_acquire_inv l k r : lock_try_acquire l k = Ret r -> inv k -> inv r.1.
Proof.
  unfold lock_try_acquire. intros H Hi. rinv.
  match goal with H1 : sema_try_down _ _ = Ret ?x |- _ => pose proof (sema_try_down_inv _ _ _ H1 Hi) as Hi1; destruct x as [k1 b] end.
  simpl in *. rinv. subst r. simpl. unfold inv. erewrite intr_set_level_keep by eassumption.
  destruct b; rinv; simplify_eq; [|done].
  change (view_of (set_holder ?a ?b ?c)) with (view_of c).
  eapply inv_veq; [eapply upd_thread_keep; [eassumption|done..]|done].
Qed.

Lemma lock_release_inv l k k' : lock_release l k = Ret k' -> inv k -> running_thread k <> idle_thread k -> inv k'.
Proof.
  unfold lock_release. intros H Hi Hid. rinv.
  eapply (inv_veq (set_holder l NULL k)); [|exact Hi]. eapply push_keep; [eassumption|done|by left].
Qed.

Lemma lock_release_tail_inv l k k' : lock_release_tail l k = Ret k' -> inv k -> inv k'.
Proof.
  unfold lock_release_tail. intros H Hi. rinv. eapply sema_up_inv; [eassumption|].
  eapply inv_veq; [eapply push_keep; [eassumption|done|by right]|].
  eapply (inv_veq (intr_disable k)); [by eapply restore_priority_keep|exact Hi].
Qed.

Lemma put_empty_sema_inv s n k : inv k -> inv (put_sema s (mkSema n []) k).
Proof. intros Hi. unfold inv. rewrite put_sema_view. apply Inv_shrink; [exact Hi|constructor|set_solver]. Qed.

Lemma push_inv f k k' : push f k = Ret k' -> inv k -> creations [f] = [] ->
  running_thread k <> idle_thread k \/ is_idle_frame f = true ->
  inv k' /\ running_thread k' = running_thread k /\ idle_thread k' = idle_thread k.
Proof.
  intros H Hi Hc Hf. pose proof (push_keep _ _ _ H Hc Hf) as He.
  split; [by eapply inv_veq|]. destruct He as (_ & _ & _ & ? & ? & _). done.
Qed.

Lemma cond_wait_inv c l w k k' : cond_wait c l w k = Ret k' -> inv k -> running_thread k <> idle_thread k -> inv k'.
Proof.
  unfold cond_wait. intros H Hi Hid. rinv.
  match goal with Ha : push (FDropWaiter _) _ = Ret _, Hb : push (FLockAcquire _) _ = Ret _,
                  Hc : push (FSemaDown _) _ = Ret _ |- _ =>
    destruct (push_inv _ _ _ Ha (put_empty_sema_inv (WaiterSema w) 0 k Hi) eq_refl) as (Hi1 & Hr1 & Hd1); [by left|];
    destruct (push_inv _ _ _ Hb Hi1 eq_refl) as (Hi2 & Hr2 & Hd2); [left; simpl in *; congruence|];
    destruct (push_inv _ _ _ Hc Hi2 eq_refl) as (Hi3 & Hr3 & Hd3); [left; simpl in *; congruence|] end.
  eapply lock_release_inv; [eassumption|done|]. simpl in *. congruence.
Qed.

Lemma cond_signal_inv c l k k' : cond_signal c l k = Ret k' -> inv k -> inv k'.
Proof.
  unfold cond_signal. intros H Hi. rinv. destruct (sort _ _); rinv; [by subst|].
  by eapply sema_up_inv; [eassumption|].
Qed.

Lemma cond_broadcast_inv c l k k' : cond_broadcast c l k = Ret k' -> inv k -> running_thread k <> idle_thread k -> inv k'.
Proof.
  unfold cond_broadcast. intros H Hi Hid. rinv. destruct x1; rinv; [by subst|].
  eapply cond_signal_inv; [eassumption|]. eapply push_inv; [eassumption|done|done|by left].
Qed.

(** ** Thread creation *)

Lemma init_push_inv t prio body k k1 k2 : init_thread t prio body k = Ret k1 -> push (FCreate t prio) k1 = Ret k2 ->
  inv k -> threads k !! t = None -> creations body = [] -> running_thread k <> idle_thread k ->
  inv k2 /\ running_thread k2 = running_thread k /\ idle_thread k2 = idle_thread k.
Proof.
  unfold init_thread, push. intros H1 H2 Hi Ht Hb Hid. rinv. subst k1.
  apply upd_thread_inv in H2 as (c & Hc & ->). simpl in *. split; [|done].
  set (th := mkThread _ _ _ _ _ _ _ _ _ _ _ _) in *.
  assert (Hst : vst (view_of k) t = None) by (simpl; by rewrite Ht).
  assert (Htr : t <> running_thread k).
  { intros ->. destruct Hi as [_ Hr]. specialize (Hr (running_thread k)). simpl in *. rewrite Hst in Hr. naive_solver. }
  assert (Hti : t <> idle_thread k).
  { intros ->. destruct Hi as [[_ _ _ _ _ _ _ _ _ _ (s & Hs & _)] _]. simpl in *. congruence. }
  rewrite lookup_insert_ne in Hc by done.
  unfold inv. eapply Inv_proper; [|exact (Inv_create (view_of k) t Hi Hst)].
  etrans; [exact (view_insert (set_threads (<[t := th]> (threads k)) k) (running_thread k) _)|].
  split_and!; try done; simpl.
  - intros p. unfold upd. destruct (decide (p = running_thread k)) as [->|].
    + rewrite decide_False by done. by rewrite Hc.
    + destruct (decide (p = t)) as [->|]; [by rewrite lookup_insert_eq|by rewrite lookup_insert_ne].
  - intros p. unfold upd. destruct (decide (p = running_thread k)) as [->|]; [by rewrite Hc|].
    destruct (decide (p = t)) as [->|]; [rewrite lookup_insert_eq; simpl; by rewrite Hb|by rewrite lookup_insert_ne].
  - rewrite decide_False by done. by rewrite lookup_insert_ne.
Qed.

Lemma thread_create_inv t prio body k k' : thread_create (Some t) prio body k = Ret k' -> inv k ->
  threads k !! t = None -> creations body = [] -> running_thread k <> idle_thread k -> inv k'.
Proof.
  unfold thread_create. intros H Hi Ht Hb Hid. rinv.
  match goal with H1 : init_thread _ _ _ _ = Ret _, H2 : push (FCreate _ _) _ = Ret _, H3 : push (FTid _) _ = Ret _ |- _ =>
    destruct (init_push_inv _ _ _ _ _ _ H1 H2 Hi Ht Hb Hid) as (Hi2 & Hr2 & Hd2);
    destruct (push_inv _ _ _ H3 Hi2 eq_refl) as (Hi3 & Hr3 & Hd3); [left; congruence|] end.
  eapply lock_acquire_inv; [eassumption|done|congruence].
Qed.

Lemma allocate_tid_tail_inv t k k' : allocate_tid_tail t k = Ret k' -> inv k ->
  running_thread k <> idle_thread k -> inv k'.
Proof.
  unfold allocate_tid_tail. intros H Hi Hid. rinv.
  match goal with H1 : upd_thread _ _ _ = Ret _ |- _ =>
    pose proof (upd_thread_keep _ _ _ _ H1 (fun _ => eq_refl) (fun _ => eq_refl)) as He end.
  eapply lock_release_inv; [eassumption|exact (inv_veq _ _ He Hi)|].
  destruct He as (_ & _ & _ & ? & ? & _). simpl in *. congruence.
Qed.

Lemma thread_create_tail_inv t prio k k' : thread_create_tail t prio k = Ret k' -> inv k ->
  running_thread k <> idle_thread k -> t <> idle_thread k ->
  (forall q, t ∉ vq (view_of k) q) -> (forall p, Some t ∉ vcr (view_of k) p) -> inv k'.
Proof.
  unfold thread_create_tail. intros H Hi Hid Hti Hq Hcr. rinv.
  match goal with H1 : upd_thread _ _ _ = Ret ?x1, H2 : push _ ?x1 = Ret ?x2 |- _ =>
    pose proof (upd_thread_keep _ _ _ _ H1 (fun _ => eq_refl) (fun _ => eq_refl)) as He1;
    assert (He : veq (view_of x2) (view_of k)) end.
  { pose proof He1 as (_ & _ & _ & ? & ? & _). etrans; [|exact He1].
    eapply push_keep; [eassumption|done|left; simpl in *; congruence]. }
  pose proof He as (_ & E2 & _ & _ & E5 & E6 & _).
  eapply thread_unblock_inv; [eassumption|by apply (inv_veq k)| | |].
  - simpl in E5. congruence.
  - intros q. by rewrite E6.
  - intros p. by rewrite E2.
Qed.

(** ** Timer *)

Lemma thread_to_sleep_inv n k k' : thread_to_sleep n k = Ret k' -> inv k -> running_thread k <> idle_thread k -> inv k'.
Proof.
  unfold thread_to_sleep. intros H Hi Hid. rinv. eapply thread_block_inv; [eassumption|].
  match goal with H1 : upd_thread _ _ _ = Ret ?x1, H2 : push _ ?x2 = Ret ?x3 |- _ =>
    pose proof (upd_thread_keep _ _ _ _ H1 (fun _ => eq_refl) (fun _ => eq_refl)) as He1;
    pose proof (push_keep _ _ _ H2 eq_refl (or_intror eq_refl)) as He2; rename x1 into k1; rename x3 into k3 end.
  change (view_of (intr_disable k)) with (view_of k) in He1.
  pose proof He1 as (_ & _ & _ & Hr1 & _ & Hq1 & _). simpl in Hr1.
  pose proof (Hq1 None) as Hs1. simpl in Hs1.
  rewrite set_sleeping_view in He2. set (l := insert_ordered _ _ _) in *.
  assert (Hl : l ≡ₚ running_thread k :: sleeping_list k).
  { unfold l. rewrite insert_ordered_perm, Hr1, Hs1. done. }
  clearbody l. rewrite He1 in He2. pose proof He2 as (_ & _ & _ & Hr2 & _). simpl in Hr2. rewrite Hr2, He2.
  eapply Pre_proper; [|apply (Inv_block (view_of k) None l); [exact Hi|exact Hid|exact Hl]].
  by split_and!.
Qed.

Lemma wake_one_inv p rest k k' : sleeping_list k = p :: rest ->
  thread_unblock p (set_sleeping_list rest k) = Ret k' -> inv k -> inv k'.
Proof.
  intros E H Hi. pose proof Hi as [[_ _ Hnd Hdj Hbl Hcr _ _ _ _] _].
  pose proof (Hnd None) as Hn. simpl in Hn. rewrite E in Hn. apply NoDup_cons in Hn as [Hnp Hnr].
  assert (Hin : p ∈ vq (view_of k) None) by (simpl; rewrite E; set_solver).
  destruct (Hbl _ _ Hin) as [_ Hid].
  eapply thread_unblock_inv; [exact H| |exact Hid| |].
  - unfold inv. rewrite set_sleeping_view. apply Inv_shrink; [exact Hi|done|]. simpl. rewrite E. set_solver.
  - intros q Hq. destruct (set_sleeping_view rest k) as (_ & _ & _ & _ & _ & Hv & _). rewrite Hv in Hq.
    simpl in Hq. unfold upd in Hq. case_decide as D; [by subst q|]. apply D. by apply (Hdj q None p).
  - intros z Hz. destruct (Hcr z p Hz) as (_ & _ & Hn). by apply (Hn None).
Qed.

Lemma wakeup_loop_inv n tick k k' : wakeup_loop n tick k = Ret k' -> inv k -> inv k'.
Proof.
  revert k; induction n as [|n IH]; intros k H Hi; simpl in H; [done|].
  destruct (sleeping_list k) as [|p rest] eqn:E; rinv; [by subst|]. case_bool_decide; rinv; [|by subst].
  eapply IH; [eassumption|]. eapply wake_one_inv; eassumption.
Qed.

Lemma thread_tick_keep k k' : thread_tick k = Ret k' -> view_of k' = view_of k.
Proof.
  unfold thread_tick, intr_yield_on_return. intros H. apply rbind_Ret in H as (t & _ & H). cbv zeta in H.
  set (k1 := if bool_decide (running_thread k = idle_thread k) then _ else _) in H.
  assert (Hv : view_of k1 = view_of k) by (unfold k1; by repeat case_bool_decide).
  destruct (bool_decide (thread_ticks k1 >= TIME_SLICE)); rinv; by subst.
Qed.

Lemma intr_handler_inv k k' : intr_handler k = Ret k' -> inv k -> inv k'.
Proof.
  unfold intr_handler, timer_interrupt, thread_to_wakeup. intros H Hi. rinv.
  match goal with H1 : thread_tick _ = Ret ?x |- _ => pose proof (thread_tick_keep _ _ H1) as Hv end.
  match goal with H1 : wakeup_loop _ _ _ = Ret ?x |- _ => assert (Hi2 : inv x) end.
  { eapply wakeup_loop_inv; [eassumption|]. unfold inv. by rewrite Hv. }
  match goal with H1 : push _ _ = Ret _ |- _ =>
    destruct (push_inv _ _ _ H1 Hi2 eq_refl (or_intror eq_refl)) as (Hi3 & _ & _) end.
  match goal with H1 : (if yield_on_return ?z then _ else _) = _ |- _ => destruct (yield_on_return z) end;
    rinv; [by eapply thread_yield_inv|by subst].
Qed.

(** ** Steps *)

Lemma pop_inv k f k1 : pop k = Ret (f, k1) -> inv k ->
  inv k1 /\ running_thread k1 = running_thread k /\ idle_thread k1 = idle_thread k /\
  (running_thread k = idle_thread k -> is_idle_frame f = true) /\
  match f with
  | FCreate t _ => t <> idle_thread k1 /\ (forall q, t ∉ vq (view_of k1) q) /\ forall p, Some t ∉ vcr (view_of k1) p
  | FIdleStart _ => False
  | _ => True
  end.
Proof.
  unfold pop, get_thread. intros H Hi. rinv. simplify_eq.
  rename Heqo into Ht. rename x into t.
  destruct (frames t) as [|f' fs] eqn:Ef; [done|]. rinv. simplify_eq.
  pose proof (view_insert k (running_thread k) (set_frames fs t)) as Hv. simpl in Hv.
  assert (Hok : running_thread k = idle_thread k -> is_idle_frame f = true /\ forallb is_idle_frame fs = true).
  { intros E. destruct Hi as [[_ _ _ _ _ _ _ _ _ Hok _] _]. simpl in Hok. rewrite <- E, Ht in Hok. simpl in Hok.
    rewrite Ef in Hok. simpl in Hok. by apply andb_prop in Hok. }
  assert (Hv' : veq (view_of (set_threads (<[running_thread k:=set_frames fs t]> (threads k)) k))
                    (v_cr (running_thread k) (creations fs) (view_of k))).
  { rewrite Hv. split_and!; try done; simpl.
    - intros p. unfold upd. destruct (decide (p = running_thread k)) as [->|]; [by rewrite Ht|done].
    - case_decide as E; [|done]. rewrite <- E, Ht. simpl. rewrite Ef. simpl. by destruct (Hok E) as [-> ->]. }
  assert (Hcr : vcr (view_of k) (running_thread k) = creations (f :: fs)) by (cbn [view_of vcr]; rewrite Ht; cbn [from_option]; by rewrite Ef).
  destruct (creations [f]) as [|o l] eqn:Ec.
  - assert (E : creations (f :: fs) = creations fs) by (by destruct f).
    split_and!; [|done|done|by intros E'; apply Hok|by destruct f].
    eapply inv_veq; [|exact Hi]. etrans; [exact Hv'|]. split_and!; try done; simpl.
    intros p. unfold upd. destruct (decide (p = running_thread k)) as [->|]; [|done].
    change (creations fs = vcr (view_of k) (running_thread k)). by rewrite Hcr, E.
  - assert (Hcr2 : vcr (view_of k) (running_thread k) = o :: creations fs) by (rewrite Hcr; destruct f; cbn in Ec; simplify_eq; done).
    destruct (Inv_created _ _ _ _ Hi Hcr2) as (Hi1 & u & -> & Hub & Hui & Huq & Huc).
    split_and!; [unfold inv; by rewrite Hv'|done|done|by intros E'; apply Hok|].
    destruct f; cbn in Ec; try done. simplify_eq. pose proof Hv' as (_ & E2 & _ & _ & _ & E6 & _).
    split_and!; [done| |].
    + intros q. rewrite E6. apply Huq.
    + intros p. rewrite E2. apply Huc.
Qed.

Lemma exec_inv f k k' : exec f k = Ret k' -> inv k ->
  (running_thread k = idle_thread k -> is_idle_frame f = true) ->
  match f with
  | FCreate t _ => t <> idle_thread k /\ (forall q, t ∉ vq (view_of k) q) /\ forall p, Some t ∉ vcr (view_of k) p
  | FIdleStart _ => False
  | _ => True
  end -> inv k'.
Proof.
  intros H Hi Hid Hf.
  assert (Hnid : is_idle_frame f = false -> running_thread k <> idle_thread k) by (intros E E'; specialize (Hid E'); congruence).
  destruct f; simpl in H, Hid, Hnid; try specialize (Hnid eq_refl).
  - unfold inv. by erewrite intr_set_level_keep.
  - unfold intr_enable in H. rinv. by subst.
  - eapply sema_loop_inv; [eassumption|done|done|done|]. intros k1 He Hk. unfold inv.
    erewrite intr_set_level_keep by eassumption. by rewrite He.
  - eapply sema_loop_inv; [eassumption|done|done|done|]. intros k1 He Hk.
    eapply lock_take_inv; [eassumption|]. unfold inv. by rewrite He.
  - by eapply lock_release_tail_inv.
  - by eapply sema_down_inv.
  - by eapply lock_acquire_inv.
  - by eapply cond_broadcast_inv.
  - rinv. subst k'. eapply (inv_veq (put_sema (WaiterSema w) (mkSema 0 []) k)); [|by apply put_empty_sema_inv].
    split_and!; try done. intros [s|]; simpl; [|done].
    destruct (decide (s = WaiterSema w)) as [->|]; [by rewrite lookup_delete_eq, lookup_insert_eq|].
    by rewrite lookup_delete_ne, lookup_insert_ne.
  - by eapply allocate_tid_tail_inv.
  - destruct Hf as (? & ? & ?). by eapply thread_create_tail_inv.
  - rinv. case_bool_decide; [by eapply thread_yield_inv|rinv; by subst].
  - done.
  - rinv. eapply thread_block_inv; [eassumption|].
    match goal with H1 : push _ _ = Ret ?x |- _ =>
      pose proof (push_keep _ _ _ H1 eq_refl (or_intror eq_refl)) as He; rename x into k1 end.
    change (view_of (intr_disable k)) with (view_of k) in He.
    pose proof He as (_ & _ & _ & Hr & _). simpl in Hr. rewrite Hr, He.
    destruct (decide (running_thread k = idle_thread k)) as [E|E].
    + apply (Inv_idle_leaves (view_of k)); [done|done|by left].
    + apply (Inv_leaves (view_of k)); [done|done|by right].
  - rinv. match goal with H1 : push _ _ = Ret _ |- _ =>
      destruct (push_inv _ _ _ H1 Hi eq_refl (or_intror eq_refl)) as (Hi3 & _ & _) end.
    unfold intr_enable in *. rinv. by subst.
Qed.

Lemma call_inv o k k' : call o k = Ret k' -> call_ok o k -> running_thread k <> idle_thread k -> inv k -> inv k'.
Proof.
  intros H Hok Hid Hi. destruct o; simpl in H; rinv.
  - subst. by apply put_empty_sema_inv.
  - by eapply sema_down_inv.
  - match goal with H1 : sema_try_down _ _ = Ret ?x |- _ => pose proof (sema_try_down_inv _ _ _ H1 Hi); destruct x end. by simplify_eq.
  - by eapply sema_up_inv.
  - subst. by apply (put_empty_sema_inv (LockSema l) 1 (set_holder l NULL k)).
  - by eapply lock_acquire_inv.
  - match goal with H1 : lock_try_acquire _ _ = Ret ?x |- _ => pose proof (lock_try_acquire_inv _ _ _ H1 Hi); destruct x end. by simplify_eq.
  - by eapply lock_release_inv.
  - by subst.
  - by eapply cond_wait_inv.
  - by eapply cond_signal_inv.
  - by eapply cond_broadcast_inv.
  - by eapply thread_yield_inv.
  - by eapply thread_set_priority_inv.
  - unfold timer_sleep in H. rinv. by eapply thread_to_sleep_inv.
  - destruct page as [t|]; [by eapply thread_create_inv|]. simpl in H. by simplify_eq.
  - by eapply thread_exit_inv.
Qed.

Lemma step_inv k k' : step k k' -> inv k -> inv k'.
Proof.
  intros [k0 f k1 k2 Hp He|k0 t o k2 Ht Hf Hid Hok Hc|k0 k2 Hl Hh] Hi.
  - destruct (pop_inv _ _ _ Hp Hi) as (Hi1 & Hr & Hd & Hf & Hc).
    eapply exec_inv; [exact He|done|by rewrite Hr, Hd|done].
  - by eapply call_inv.
  - by eapply intr_handler_inv.
Qed.

(** ** Boot *)

Lemma boot_lookup p t : threads boot !! p = Some t ->
  (p = idle_page /\ status t = THREAD_BLOCKED /\ frames t = [FHlt]) \/
  (p = main_page /\ status t = THREAD_RUNNING /\ frames t = []).
Proof.
  simpl. unfold boot_threads. intros [[<- <-]|[_ [<- <-]%lookup_singleton_Some]]%lookup_insert_Some; auto.
Qed.

Lemma boot_queue q : vq (view_of boot) q = [].
Proof.
  destruct q as [s|]; [|done]. simpl. destruct (_ !! s) as [sm|] eqn:E; [|done].
  by apply lookup_insert_Some in E as [[<- <-]|[_ [<- <-]%lookup_singleton_Some]].
Qed.

Lemma boot_creations p : vcr (view_of boot) p = [].
Proof.
  cbn [view_of vcr]. destruct (threads boot !! p) as [t|] eqn:E; [|done].
  apply boot_lookup in E as [(-> & _ & Hf)|(-> & _ & Hf)]; simpl; by rewrite Hf.
Qed.

Lemma boot_inv : inv boot.
Proof.
  assert (Hq : forall q p, p ∉ vq (view_of boot) q) by (intros q p; rewrite boot_queue; apply not_elem_of_nil).
  assert (Hc : forall p o, o ∉ vcr (view_of boot) p) by (intros p o; rewrite boot_creations; apply not_elem_of_nil).
  assert (Hst : forall p s, vst (view_of boot) p = Some s -> s = THREAD_BLOCKED \/ s = THREAD_RUNNING /\ p = main_page).
  { intros p s H. apply fmap_Some in H as (t & Ht & ->). apply boot_lookup in Ht as [(-> & -> & _)|(-> & -> & _)]; auto. }
  split; [split|].
  - constructor.
  - intros p. split; [by intros ?%elem_of_nil|]. by intros [[|[? _]]%Hst _].
  - intros q. rewrite boot_queue. constructor.
  - by intros q q' p ?%Hq.
  - by intros q p ?%Hq.
  - by intros p t ?%Hc.
  - intros p. rewrite boot_creations. constructor.
  - by intros p p' t ?%Hc.
  - intros p. apply Hc.
  - reflexivity.
  - by exists THREAD_BLOCKED.
  - intros p. split; [|by intros ->]. by intros [|[_ ->]]%Hst.
Qed.

Lemma reachable_inv k : rtc step boot k -> inv k.
Proof.
  intros H. pose proof boot_inv as Hb. induction H as [|x y z Hs _ IH]; [done|]. apply IH. by eapply step_inv.
Qed.

(** ** Properties *)

(** C7. Scheduler invariant.  In every state the system can reach after boot, by
    any interleaving of thread code calling semaphores, locks, condition
    variables, sleep, yield, priority changes, creation and exit, and timer
    interrupts: exactly one thread has status RUNNING and it is the one on the
    CPU; the ready list holds exactly the READY threads, each once and without the
    idle thread; every thread in a wait list or the sleeping list is BLOCKED (so
    the assertion of thread_unblock cannot fail for it), listed once, and in no
    other list, as the single [elem] member of struct thread demands. *)
Theorem scheduler_invariant k : rtc step boot k ->
  (forall p, (exists t, threads k !! p = Some t /\ status t = THREAD_RUNNING) <-> p = running_thread k) /\
  NoDup (ready_list k) /\
  (forall p, p ∈ ready_list k <->
     (exists t, threads k !! p = Some t /\ status t = THREAD_READY) /\ p <> idle_thread k) /\
  (forall s sm, semas k !! s = Some sm -> NoDup (waiters sm) /\ (forall p, p ∈ waiters sm ->
     (exists t, threads k !! p = Some t /\ status t = THREAD_BLOCKED) /\ (p ∉ sleeping_list k) /\
     (forall s' sm', semas k !! s' = Some sm' -> p ∈ waiters sm' -> s' = s))) /\
  NoDup (sleeping_list k) /\
  (forall p, p ∈ sleeping_list k -> (exists t, threads k !! p = Some t /\ status t = THREAD_BLOCKED)).
Proof.
  intros Hr. destruct (reachable_inv k Hr) as [[Hnd Hrd Hqn Hqd Hqb _ _ _ _ _ _] Hrun].
  assert (Hst : forall p s, vst (view_of k) p = Some s <-> exists t, threads k !! p = Some t /\ status t = s).
  { intros p s. simpl. rewrite fmap_Some. naive_solver. }
  assert (Hw : forall s sm, semas k !! s = Some sm -> vq (view_of k) (Some s) = waiters sm).
  { intros s sm H. simpl. by rewrite H. }
  split_and!.
  - intros p. rewrite <- Hst. apply Hrun.
  - apply Hnd.
  - intros p. rewrite <- Hst. apply Hrd.
  - intros s sm Hs. rewrite <- (Hw s sm Hs). split; [apply Hqn|]. intros p Hp. split_and!.
    + apply Hst. by eapply Hqb.
    + intros Hsl. by pose proof (Hqd (Some s) None p Hp Hsl).
    + intros s' sm' Hs' Hp'. rewrite <- (Hw s' sm' Hs') in Hp'. pose proof (Hqd _ _ _ Hp' Hp). congruence.
  - apply (Hqn None).
  - intros p Hp. apply Hst. by apply (Hqb None).
Qed.

(** A run in which a thread sleeps, one waits and one holds a lock. *)
Definition demo_run : list action :=
  [ACall (OLockInit 100); ACall (OLockAcquire 100)] ++ create 0xC0101000 32 ++
  [ARun; ACall (OLockAcquire 100)] ++ ARun :: ARun :: ARun :: create 0xC0102000 40 ++ [ARun; ACall (OSleep 5)].

Definition demo_state : kernel := end_of demo_run boot.

Lemma scheduler_invariant_witness :
  sleeping_list demo_state = [0xC0102000] /\
  (exists sm, semas demo_state !! LockSema 100 = Some sm /\ waiters sm = [0xC0101000]) /\
  NoDup (ready_list demo_state).
Proof.
  assert (Hreach : rtc step boot demo_state) by (apply end_of_steps; vm_compute; reflexivity).
  split; [vm_compute; reflexivity|]. split; [|exact (proj1 (proj2 (scheduler_invariant demo_state Hreach)))].
  exists (mkSema 0 [0xC0101000]). split; [vm_compute; reflexivity|reflexivity].
Defined.
