(* ===== verification/LockInv.v ===== *)
(** * Mutual exclusion of locks *)

From S2P Require Import Prelude ListSpec Kernel Synch SchedInv SchedProof.

(** ** The state of a lock *)

(** Pending second halves of [lock_release (l)]. *)
Fixpoint releases (l : Z) (fs : list frame) : nat :=
  match fs with
  | [] => 0
  | FLockRelease l' :: fs => (if decide (l' = l) then 1 else 0) + releases l fs
  | _ :: fs => releases l fs
  end.

Definition rel (k : kernel) (l p : Z) : nat := from_option (fun t => releases l (frames t)) 0%nat (threads k !! p).
Definition val (k : kernel) (l : Z) : option Z := value <$> semas k !! LockSema l.

(** Free, held, or being released (the holder is cleared, the semaphore not yet up). *)
Inductive lock_state (v h : Z) (r : Z -> nat) : Prop :=
| lock_free : v = 1 -> h = NULL -> (forall p, r p = 0%nat) -> lock_state v h r
| lock_held : v = 0 -> h <> NULL -> (forall p, r p = 0%nat) -> lock_state v h r
| lock_releasing p0 : v = 0 -> h = NULL -> (r p0 <= 1)%nat -> (forall p, p <> p0 -> r p = 0%nat) -> lock_state v h r.

Record linv (k : kernel) : Prop := {
  linv_lock : forall l h, locks k !! l = Some h -> exists v, val k l = Some v /\ lock_state v h (rel k l);
  linv_none : forall l, locks k !! l = None -> val k l = None /\ forall p, rel k l p = 0%nat
}.

(** [k'] is [k] as far as locks are concerned, except that threads may have gone. *)
Definition lle (k k' : kernel) : Prop :=
  locks k' = locks k /\ (forall l, val k' l = val k l) /\ (forall l p, (rel k' l p <= rel k l p)%nat).

#[export] Instance lle_preorder : PreOrder lle.
Proof.
  split.
  - done.
  - intros k1 k2 k3 (H1 & H2 & H3) (J1 & J2 & J3). split_and!; [congruence|congruence|].
    intros l p. specialize (H3 l p). specialize (J3 l p). lia.
Qed.

Lemma lock_state_mono v h r r' : lock_state v h r -> (forall p, (r' p <= r p)%nat) -> lock_state v h r'.
Proof.
  intros [? ? H|? ? H|p0 ? ? H1 H2] Hle.
  - apply lock_free; auto. intros p. specialize (H p). specialize (Hle p). lia.
  - apply lock_held; auto. intros p. specialize (H p). specialize (Hle p). lia.
  - apply (lock_releasing _ _ _ p0); auto; [specialize (Hle p0); lia|].
    intros p Hp. specialize (H2 p Hp). specialize (Hle p). lia.
Qed.

Lemma linv_lle k k' : lle k k' -> linv k -> linv k'.
Proof.
  intros (H1 & H2 & H3) [Hl Hn]. split; intros l; rewrite H1, H2.
  - intros h Hh. destruct (Hl l h Hh) as (v & Hv & Hs). exists v. split; [done|]. by eapply lock_state_mono.
  - intros Hh. destruct (Hn l Hh) as [Hv Hr]. split; [done|]. intros p. specialize (H3 l p). rewrite Hr in H3. lia.
Qed.

(** ** Operations that do not touch locks *)

Lemma releases_push l f fs : (forall l', f <> FLockRelease l') -> releases l (f :: fs) = releases l fs.
Proof. intros H. destruct f; try done. by destruct (H l0). Qed.

Lemma lle_insert k p t t0 : threads k !! p = Some t0 -> (forall l, releases l (frames t) <= releases l (frames t0))%nat ->
  lle k (set_threads (<[p := t]> (threads k)) k).
Proof.
  intros Ht H. split_and!; [done|done|]. intros l q. unfold rel. simpl.
  destruct (decide (q = p)) as [->|]; [rewrite lookup_insert_eq, Ht; apply H|by rewrite lookup_insert_ne].
Qed.

Lemma upd_thread_lle p f k k' : upd_thread p f k = Ret k' -> (forall t, frames (f t) = frames t) -> lle k k'.
Proof. intros (t & Ht & ->)%upd_thread_inv Hf. apply (lle_insert _ _ _ t Ht). intros l. by rewrite Hf. Qed.

Lemma push_lle f k k' : push f k = Ret k' -> (forall l, f <> FLockRelease l) -> lle k k'.
Proof.
  unfold push. intros (t & Ht & ->)%upd_thread_inv Hf. apply (lle_insert _ _ _ t Ht).
  intros l. simpl frames. by rewrite releases_push.
Qed.

Lemma intr_set_level_lle l k k' : intr_set_level l k = Ret k' -> lle k k'.
Proof. destruct l; simpl; unfold intr_enable; intros; rinv; by subst. Qed.

Ltac lle_tac := repeat match goal with
  | H : upd_thread _ _ ?a = Ret ?b |- lle _ ?b => etrans; [|apply (upd_thread_lle _ _ _ _ H); done]
  | H : push _ ?a = Ret ?b |- lle _ ?b => etrans; [|apply (push_lle _ _ _ H); done]
  end.

Lemma schedule_lle k k' : schedule k = Ret k' -> lle k k'.
Proof.
  assert (Ht : forall prev k1 k2, schedule_tail prev k1 = Ret k2 -> lle k1 k2).
  { intros prev k1 k2. unfold schedule_tail, get_thread. intros H. rinv.
    match goal with H1 : upd_thread _ _ _ = Ret ?x |- _ => pose proof (upd_thread_lle _ _ _ _ H1 (fun _ => eq_refl)) as Hle;
      rename x into k3 end.
    etrans; [exact Hle|]. clear Hle. case_bool_decide; rinv; [|by subst].
    destruct (bool_decide _ && _); rinv; subst; [|done].
    split_and!; [done|done|]. intros l p. unfold rel. simpl.
    destruct (decide (p = prev)) as [->|]; [rewrite lookup_delete_eq; simpl; lia|by rewrite lookup_delete_ne]. }
  unfold schedule, next_thread_to_run. intros H. destruct (ready_list k); rinv; case_bool_decide;
    match goal with H1 : schedule_tail _ _ = Ret _ |- _ => exact (Ht _ _ _ H1) end.
Qed.

Lemma thread_block_lle k k' : thread_block k = Ret k' -> lle k k'.
Proof. unfold thread_block. intros H. rinv. etrans; [|by eapply schedule_lle]. by lle_tac. Qed.

Lemma thread_yield_lle k k' : thread_yield k = Ret k' -> lle k k'.
Proof.
  unfold thread_yield. intros H. rinv. etrans; [|by eapply schedule_lle]. lle_tac. by case_bool_decide.
Qed.

Lemma thread_unblock_lle t k k' : thread_unblock t k = Ret k' -> lle k k'.
Proof.
  unfold thread_unblock. intros H. rinv. destruct (bool_decide _ && _); rinv.
  - etrans; [|by eapply thread_yield_lle]. by lle_tac.
  - etrans; [|by eapply intr_set_level_lle]. by lle_tac.
Qed.

Lemma thread_set_priority_lle n k k' : thread_set_priority n k = Ret k' -> lle k k'.
Proof.
  unfold thread_set_priority. intros H. rinv. case_bool_decide; rinv.
  - etrans; [|by eapply intr_set_level_lle]. by lle_tac.
  - destruct (ready_list _) as [|p l]; rinv; [subst; by lle_tac|]. case_bool_decide; rinv; [|subst; by lle_tac].
    etrans; [|by eapply thread_yield_lle]. by lle_tac.
Qed.

Lemma thread_exit_lle k k' : thread_exit k = Ret k' -> lle k k'.
Proof.
  unfold thread_exit. intros H. rinv. etrans; [|by eapply schedule_lle]. lle_tac.
  match goal with H1 : upd_thread _ (set_child_list _) _ = Ret _ |- _ => exact (upd_thread_lle _ _ _ _ H1 (fun _ => eq_refl)) end.
Qed.

Lemma donate_loop_lle n c k k' : donate_loop n c k = Ret k' -> lle k k'.
Proof.
  revert c k; induction n as [|n IH]; intros c k H; simpl in H; [by simplify_eq|].
  rinv. repeat (case_bool_decide; rinv; try by subst). etrans; [|eapply IH; eassumption]. by lle_tac.
Qed.

Lemma restore_priority_lle l k k' : restore_priority l k = Ret k' -> lle k k'.
Proof. unfold restore_priority. intros H. rinv. by lle_tac. Qed.

Lemma wakeup_loop_lle n tick k k' : wakeup_loop n tick k = Ret k' -> lle k k'.
Proof.
  revert k; induction n as [|n IH]; intros k H; simpl in H; [done|].
  destruct (sleeping_list k); rinv; [by subst|]. case_bool_decide; rinv; [|by subst].
  etrans; [|by eapply IH]. match goal with H1 : thread_unblock _ _ = Ret _ |- _ => exact (thread_unblock_lle _ _ _ H1) end.
Qed.

Lemma thread_to_sleep_lle n k k' : thread_to_sleep n k = Ret k' -> lle k k'.
Proof.
  unfold thread_to_sleep. intros H. rinv. etrans; [|by eapply thread_block_lle]. lle_tac.
  match goal with H1 : upd_thread _ _ _ = Ret _ |- _ => exact (upd_thread_lle _ _ _ _ H1 (fun _ => eq_refl)) end.
Qed.

Lemma thread_tick_lle k k' : thread_tick k = Ret k' -> lle k k'.
Proof.
  unfold thread_tick, intr_yield_on_return. intros H. apply rbind_Ret in H as (t & _ & H). cbv zeta in H.
  set (k1 := if bool_decide (running_thread k = idle_thread k) then _ else _) in H.
  assert (Hv : lle k k1) by (unfold k1; by repeat case_bool_decide).
  destruct (bool_decide (thread_ticks k1 >= TIME_SLICE)); rinv; by subst.
Qed.

Lemma intr_handler_lle k k' : intr_handler k = Ret k' -> lle k k'.
Proof.
  unfold intr_handler, timer_interrupt, thread_to_wakeup. intros H. rinv.
  match goal with H1 : thread_tick _ = Ret ?x |- _ => assert (Hv : lle k x) by exact (thread_tick_lle _ _ H1) end.
  match goal with H1 : (if yield_on_return ?z then _ else _) = _ |- _ => assert (Hz : lle k z) end.
  { etrans; [exact Hv|]. etrans; [by eapply wakeup_loop_lle|].
    match goal with H1 : push _ _ = Ret _ |- _ => exact (push_lle _ _ _ H1 ltac:(done)) end. }
  match goal with H1 : (if yield_on_return ?z then _ else _) = _ |- _ => destruct (yield_on_return z) end;
    rinv; [etrans; [exact Hz|by eapply thread_yield_lle]|by subst].
Qed.

(** ** Operations on locks *)

(** The effect of a step in which thread [r] runs: a holder is only cleared by the
    holder itself, and only a free lock is taken, by the running thread. *)
Definition holders_move (r : Z) (k k' : kernel) : Prop :=
  forall l h, locks k !! l = Some h -> exists h', locks k' !! l = Some h' /\
    (h' = h \/ (h = r /\ h' = NULL) \/ (h = NULL /\ h' = r)).

Definition good (r : Z) (k k' : kernel) : Prop := linv k' /\ holders_move r k k'.

Lemma good_lle r k k' : lle k k' -> linv k -> good r k k'.
Proof.
  intros H Hi. split; [by eapply linv_lle|]. intros l h Hl. exists h. destruct H as (-> & _). auto.
Qed.

Lemma good_lle_l r k k1 k' : lle k k1 -> good r k1 k' -> good r k k'.
Proof. intros (H & _) [Hi Hm]. split; [done|]. intros l h Hl. apply Hm. by rewrite H. Qed.

Lemma good_lle_r r k k1 k' : good r k k1 -> lle k1 k' -> good r k k'.
Proof.
  intros [Hi Hm] H. split; [by eapply linv_lle|]. intros l h Hl. destruct H as (-> & _). by apply Hm.
Qed.

Lemma put_sema_lle s sm k sm0 : semas k !! s = Some sm0 -> value sm = value sm0 -> lle k (put_sema s sm k).
Proof.
  intros Hs Hv. split_and!; [done| |done]. intros l. unfold val. simpl.
  destruct (decide (s = LockSema l)) as [->|]; [rewrite lookup_insert_eq, Hs; simpl; congruence|].
  by rewrite lookup_insert_ne.
Qed.

Definition is_lock_sema (s : sema_ref) : Prop := match s with LockSema _ => True | _ => False end.

Lemma put_other_lle s sm k : ~ is_lock_sema s -> lle k (put_sema s sm k).
Proof.
  intros Hs. split_and!; [done| |done]. intros l. unfold val. simpl. rewrite lookup_insert_ne; [done|].
  intros ->. by apply Hs.
Qed.

Lemma sema_loop_cases s again ret k k' : sema_loop s again ret k = Ret k' -> (forall l, again <> FLockRelease l) ->
  lle k k' \/
  exists sm, semas k !! s = Some sm /\ value sm <> 0 /\
             ret (put_sema s (mkSema (value sm - 1) (waiters sm)) k) = Ret k'.
Proof.
  unfold sema_loop, get_sema, donate_priority. intros H Ha. rinv. simplify_eq.
  case_bool_decide as Hv; rinv; [left|right; eauto].
  match goal with H1 : donate_loop _ _ k = Ret ?x |- _ => pose proof (donate_loop_lle _ _ _ _ H1) as Hd; rename x into k1 end.
  etrans; [exact Hd|]. etrans; [|by eapply thread_block_lle]. etrans; [|by eapply push_lle].
  split_and!; [done| |done]. intros l. unfold val. simpl.
  destruct (decide (s = LockSema l)) as [->|]; [|by rewrite lookup_insert_ne].
  rewrite lookup_insert_eq. destruct Hd as (_ & Hd & _). specialize (Hd l). unfold val in Hd. rewrite Hd.
  match goal with H1 : semas k !! LockSema l = Some _ |- _ => rewrite H1 end. simpl. by rewrite Hv.
Qed.

Lemma sema_down_lle s k k' : sema_down s k = Ret k' -> ~ is_lock_sema s -> lle k k'.
Proof.
  unfold sema_down. intros H Hs. rinv.
  match goal with H1 : sema_loop _ _ _ _ = Ret _ |- _ => destruct (sema_loop_cases _ _ _ _ _ H1 ltac:(done)) as [Hle|(sm & Hsm & _ & Hr)] end.
  - exact Hle.
  - etrans; [|by eapply intr_set_level_lle]. exact (put_other_lle s _ (intr_disable k) Hs).
Qed.

Lemma sema_try_down_lle s k r : sema_try_down s k = Ret r -> ~ is_lock_sema s -> lle k r.1.
Proof.
  unfold sema_try_down. intros H Hs. rinv. case_bool_decide; rinv; subst; simpl;
    (etrans; [|by eapply intr_set_level_lle]); [exact (put_other_lle s _ (intr_disable k) Hs)|done].
Qed.

Lemma sema_up_cases s k k' : sema_up s k = Ret k' -> exists sm ws,
  semas k !! s = Some sm /\ lle (put_sema s (mkSema (u32 (value sm + 1)) ws) k) k'.
Proof.
  unfold sema_up, get_sema. intros H. rinv. simplify_eq.
  match goal with H1 : push _ _ = Ret ?x, H2 : semas _ !! s = Some ?y |- _ =>
    pose proof (push_lle _ _ _ H1 ltac:(done)) as Hp; exists y; rename x into k1; rename y into sm end.
  assert (Hput : forall ws, lle (put_sema s (mkSema (u32 (value sm + 1)) ws) k)
                                (put_sema s (mkSema (u32 (value sm + 1)) ws) k1)).
  { intros ws. destruct Hp as (H1' & H2' & H3'). split_and!; [done| |done]. intros l. unfold val. simpl.
    destruct (decide (s = LockSema l)) as [->|]; [by rewrite !lookup_insert_eq|].
    rewrite !lookup_insert_ne by done. apply H2'. }
  destruct (sort _ _) as [|p rest]; rinv.
  - subst. exists []. split; [done|]. apply Hput.
  - exists rest. split; [done|]. etrans; [apply Hput|by eapply thread_unblock_lle].
Qed.

Lemma sema_up_lle s k k' : sema_up s k = Ret k' -> ~ is_lock_sema s -> lle k k'.
Proof.
  intros H Hs. destruct (sema_up_cases _ _ _ H) as (sm & ws & _ & Hle). etrans; [|exact Hle]. by apply put_other_lle.
Qed.

(** Changing one lock. *)
Lemma linv_update k k' l h v : linv k -> (forall l', l' <> l -> locks k' !! l' = locks k !! l' /\ val k' l' = val k l' /\
    forall p, (rel k' l' p <= rel k l' p)%nat) ->
  locks k' !! l = Some h -> val k' l = Some v -> lock_state v h (rel k' l) -> linv k'.
Proof.
  intros [Hl Hn] Ho Hh Hv Hs. split; intros l'; (destruct (decide (l' = l)) as [->|Hne]; [|destruct (Ho l' Hne) as (E1 & E2 & E3)]).
  - intros h' Hh'. exists v. split; [done|]. congruence.
  - rewrite E1, E2. intros h' Hh'. destruct (Hl l' h' Hh') as (v' & Hv' & Hs'). exists v'. split; [done|].
    by eapply lock_state_mono.
  - congruence.
  - rewrite E1, E2. intros Hno. destruct (Hn l' Hno) as [E Hr]. split; [done|]. intros p. specialize (E3 p).
    rewrite Hr in E3. lia.
Qed.

Lemma val_put k l v ws l' : val (put_sema (LockSema l) (mkSema v ws) k) l' = if decide (l' = l) then Some v else val k l'.
Proof.
  unfold val. simpl. case_decide; [subst; by rewrite lookup_insert_eq|]. rewrite lookup_insert_ne; [done|congruence].
Qed.

(** A lock whose semaphore is not zero is free. *)
Lemma nonzero_free k l sm : linv k -> semas k !! LockSema l = Some sm -> value sm <> 0 ->
  value sm = 1 /\ locks k !! l = Some NULL /\ forall p, rel k l p = 0%nat.
Proof.
  intros [Hl Hn] Hs Hv. assert (Hval : val k l = Some (value sm)) by (unfold val; by rewrite Hs).
  destruct (locks k !! l) as [h|] eqn:E; [|destruct (Hn l E); congruence].
  destruct (Hl l h E) as (v & Hv' & Hst). assert (v = value sm) as -> by congruence.
  destruct Hst as [? ? ?|? ? ?|? ? ? ? ?]; naive_solver.
Qed.

Lemma lock_take_good l old pre k k' sm r : semas k !! LockSema l = Some sm -> value sm <> 0 -> linv k ->
  running_thread k = r ->
  lock_take l old pre (put_sema (LockSema l) (mkSema (value sm - 1) (waiters sm)) k) = Ret k' -> good r k k'.
Proof.
  intros Hs Hv Hi Hr H. destruct (nonzero_free _ _ _ Hi Hs Hv) as (Hv1 & Hh & Hrel).
  unfold lock_take in H. rinv.
  match goal with H1 : intr_set_level old _ = Ret ?x |- _ => assert (Hk : lle (put_sema (LockSema l) (mkSema (value sm - 1) (waiters sm)) k) x
     /\ running_thread x = r /\ threads x = threads k); [|rename x into k1; clear H1] end.
  { split; [by eapply intr_set_level_lle|]. destruct old; simpl in *; unfold intr_enable in *; rinv; by subst. }
  destruct Hk as (Hle & Hr1 & Hth).
  match goal with H1 : thread_current k1 = Ret _ |- _ => unfold thread_current, is_thread in H1 end. rinv.
  match goal with H1 : andb _ _ = true |- _ => apply andb_prop in H1 as [Hnn%bool_decide_eq_true_1 _] end.
  eapply good_lle_r; [|by eapply intr_set_level_lle]. rewrite Hr1 in *.
  destruct Hle as (E1 & E2 & E3). split.
  - apply (linv_update k _ l r 0 Hi); simpl.
    + intros l' Hne. rewrite E1. simpl. rewrite lookup_insert_ne by done. split_and!; [done| |].
      * change (val (set_holder l r k1) l') with (val k1 l'). rewrite E2, val_put. by rewrite decide_False.
      * intros p. apply (E3 l' p).
    + apply lookup_insert_eq.
    + change (val (set_holder l r k1) l) with (val k1 l). rewrite E2, val_put, decide_True by done. by rewrite Hv1.
    + apply lock_held; [done|done|]. intros p. specialize (E3 l p). change (rel (put_sema _ _ k) l p) with (rel k l p) in E3.
      rewrite Hrel in E3. change (rel (set_holder l r k1) l p) with (rel k1 l p). lia.
  - intros l' h' Hl'. simpl. rewrite E1. simpl. destruct (decide (l' = l)) as [->|Hne].
    + exists r. rewrite lookup_insert_eq. split; [done|]. right; right. split; [congruence|done].
    + exists h'. rewrite lookup_insert_ne by done. auto.
Qed.

Lemma lock_acquire_good l k k' : lock_acquire l k = Ret k' -> linv k -> good (running_thread k) k k'.
Proof.
  unfold lock_acquire. intros H Hi. rinv.
  match goal with H1 : (if bool_decide _ then _ else Ret _) = Ret ?x |- _ =>
    assert (Hk : lle k x /\ running_thread x = running_thread k); [clear - H1|rename x into k1] end.
  { case_bool_decide; rinv; [|by subst].
    match goal with H1 : upd_thread _ (set_waiting_lock _) _ = Ret ?b, H2 : upd_thread _ _ ?b = Ret _ |- _ =>
      pose proof (upd_thread_lle _ _ _ _ H1 (fun _ => eq_refl)) as L1; pose proof (upd_thread_lle _ _ _ _ H2 (fun _ => eq_refl)) as L2;
      apply upd_thread_inv in H1 as (? & _ & ->); apply upd_thread_inv in H2 as (? & _ & ->) end.
    split; [etrans; [exact L1|exact L2]|done]. }
  destruct Hk as [Hle Hr].
  match goal with H1 : sema_loop _ _ _ _ = Ret _ |- _ =>
    destruct (sema_loop_cases _ _ _ _ _ H1 ltac:(done)) as [Hl2|(sm & Hsm & Hv & Hret)] end.
  - apply good_lle; [|done]. etrans; [exact Hle|exact Hl2].
  - eapply good_lle_l; [exact Hle|].
    eapply (lock_take_good l _ _ (intr_disable k1)); [exact Hsm|exact Hv|by apply (linv_lle k)|done|exact Hret].
Qed.

Lemma intr_set_level_same l k k' : intr_set_level l k = Ret k' ->
  threads k' = threads k /\ running_thread k' = running_thread k /\ semas k' = semas k /\ locks k' = locks k.
Proof. destruct l; simpl; unfold intr_enable; intros H; rinv; by subst. Qed.

Lemma sema_try_down_cases s k r : sema_try_down s k = Ret r -> exists sm, semas k !! s = Some sm /\
  running_thread r.1 = running_thread k /\ threads r.1 = threads k /\ locks r.1 = locks k /\
  ((value sm > 0 /\ r.2 = true /\ semas r.1 = <[s := mkSema (value sm - 1) (waiters sm)]> (semas k)) \/
   (r.2 = false /\ semas r.1 = semas k)).
Proof.
  unfold sema_try_down, get_sema. intros H. rinv. simpl in *. simplify_eq.
  destruct (bool_decide_reflect (value x > 0)) as [Hpos|Hpos]; rinv; subst r; simpl;
    match goal with H1 : intr_set_level _ _ = Ret _ |- _ => apply intr_set_level_same in H1 as (-> & -> & -> & ->) end;
    exists x; split_and!; try done; [left|right]; done.
Qed.

Lemma lock_try_acquire_good l k r : lock_try_acquire l k = Ret r -> linv k -> good (running_thread k) k r.1.
Proof.
  unfold lock_try_acquire. intros H Hi. rinv.
  match goal with H1 : sema_try_down _ _ = Ret ?y |- _ =>
    destruct (sema_try_down_cases _ _ _ H1) as (sm & Hs & Hr1 & Ht1 & Hl1 & Hcase); destruct y as [k1 b] end.
  match goal with H1 : thread_current k = Ret _ |- _ => unfold thread_current, is_thread in H1 end. rinv.
  match goal with H1 : andb _ _ = true |- _ => apply andb_prop in H1 as [Hnn%bool_decide_eq_true_1 _] end.
  cbn in Hr1, Ht1, Hl1, Hcase. simpl in *. rinv. subst r. simpl.
  eapply good_lle_r; [|by eapply intr_set_level_lle].
  destruct Hcase as [(Hpos & -> & Hsem)|(-> & Hsem)]; rinv; simplify_eq.
  - destruct (nonzero_free k l sm Hi Hs ltac:(lia)) as (Hv1 & Hh & Hrel).
    match goal with H1 : upd_thread _ _ k1 = Ret ?y |- _ =>
      pose proof (upd_thread_lle _ _ _ _ H1 (fun _ => eq_refl)) as Hle; apply upd_thread_inv in H1 as (t & Ht & ->) end.
    destruct Hle as (E1 & E2 & E3). simpl in *. rewrite Hr1 in E2, E3 |- *.
    assert (Hval : forall l', val k1 l' = if decide (l' = l) then Some 0 else val k l').
    { intros l'. rewrite <- (val_put k l 0 (waiters sm)). unfold val. rewrite Hsem. simpl. by rewrite Hv1. }
    assert (Hrl : forall l' p, rel k1 l' p = rel k l' p) by (intros; unfold rel; by rewrite Ht1).
    split.
    + apply (linv_update k _ l (running_thread k) 0 Hi); simpl.
      * intros l' Hne. rewrite Hl1, lookup_insert_ne by done. split_and!; [done| |].
        -- etrans; [apply (E2 l')|]. rewrite Hval. by rewrite decide_False.
        -- intros p. rewrite <- Hrl. apply (E3 l' p).
      * apply lookup_insert_eq.
      * etrans; [apply (E2 l)|]. rewrite Hval. by rewrite decide_True.
      * apply lock_held; [done|done|]. intros p. specialize (E3 l p). rewrite Hrl, Hrel in E3.
        unfold rel in *. simpl in *. lia.
    + intros l' h' Hl'. simpl. rewrite Hl1. destruct (decide (l' = l)) as [->|Hne].
      * eexists. rewrite lookup_insert_eq. split; [done|]. right; right. split; [congruence|done].
      * exists h'. rewrite lookup_insert_ne by done. auto.
  - apply good_lle; [|done]. split_and!; [done| |].
    + intros l'. unfold val. by rewrite Hsem.
    + intros l' p. unfold rel. by rewrite Ht1.
Qed.

Lemma lock_release_good l k k' : lock_release l k = Ret k' -> linv k -> good (running_thread k) k k'.
Proof.
  unfold lock_release, lock_held_by_current_thread, get_holder. intros H Hi. rinv. simplify_eq.
  match goal with H1 : bool_decide (_ = running_thread k) = true |- _ => apply bool_decide_eq_true_1 in H1; subst end.
  match goal with H1 : thread_current k = Ret _ |- _ => unfold thread_current, is_thread in H1 end. rinv.
  match goal with H1 : andb _ _ = true |- _ => apply andb_prop in H1 as [Hnn%bool_decide_eq_true_1 _] end.
  match goal with H1 : locks k !! l = Some _ |- _ => rename H1 into Hl end.
  match goal with H1 : push _ _ = Ret _ |- _ => unfold push in H1; apply upd_thread_inv in H1 as (t & Ht & ->) end.
  simpl in *. destruct (linv_lock _ Hi l _ Hl) as (v & Hv & Hst).
  destruct Hst as [? E ?|Hv0 _ Hrel|? ? E ? ?]; [done| |done]. subst v.
  assert (Hrel' : forall l' p, rel (set_threads (<[running_thread k := set_frames (FLockRelease l :: frames t) t]> (threads k))
            (set_holder l NULL k)) l' p = ((if decide (p = running_thread k /\ l' = l) then 1 else 0) + rel k l' p)%nat).
  { intros l' p. unfold rel. simpl. destruct (decide (p = running_thread k)) as [->|].
    - rewrite lookup_insert_eq, Ht. simpl. repeat case_decide; try done; naive_solver.
    - rewrite lookup_insert_ne by done. rewrite decide_False by naive_solver. done. }
  split.
  - apply (linv_update k _ l NULL 0 Hi); simpl.
    + intros l' Hne. rewrite lookup_insert_ne by done. split_and!; [done|done|].
      intros p. rewrite Hrel'. rewrite decide_False by naive_solver. done.
    + apply lookup_insert_eq.
    + exact Hv.
    + apply (lock_releasing _ _ _ (running_thread k)); [done|done| |].
      * rewrite Hrel', Hrel. destruct (decide _); lia.
      * intros p Hp. rewrite Hrel', Hrel. rewrite decide_False by naive_solver. done.
  - intros l' h' Hl'. simpl. destruct (decide (l' = l)) as [->|Hne].
    + exists NULL. rewrite lookup_insert_eq. split; [done|]. right; left. split; [congruence|done].
    + exists h'. rewrite lookup_insert_ne by done. auto.
Qed.

(** Popping the pending half of a release proves that the lock is being released. *)
Lemma pop_lle k f k1 : pop k = Ret (f, k1) -> lle k k1 /\ running_thread k1 = running_thread k /\
  forall l, rel k l (running_thread k) = (rel k1 l (running_thread k) + releases l [f])%nat.
Proof.
  unfold pop, get_thread. intros H. rinv. simplify_eq.
  match goal with H1 : threads k !! _ = Some ?y |- _ => rename H1 into Ht; destruct (frames y) as [|f' fs] eqn:Ef; [done|] end.
  rinv. simplify_eq.
  assert (Hrl : forall l, releases l (f :: fs) = (releases l fs + releases l [f])%nat) by (intros l; destruct f; simpl; lia).
  split_and!.
  - apply (lle_insert _ _ _ _ Ht). intros l. rewrite Ef, Hrl. simpl frames. lia.
  - done.
  - intros l. unfold rel. simpl threads. rewrite Ht, lookup_insert_eq. simpl from_option. rewrite Ef. apply Hrl.
Qed.

Lemma pop_release k l k1 : pop k = Ret (FLockRelease l, k1) -> linv k ->
  locks k1 !! l = Some NULL /\ val k1 l = Some 0 /\ forall p, rel k1 l p = 0%nat.
Proof.
  intros Hp Hi. destruct (pop_lle _ _ _ Hp) as (Hle & _ & Hr). destruct Hle as (E1 & E2 & E3).
  specialize (Hr l). simpl in Hr. rewrite decide_True in Hr by done.
  destruct (locks k !! l) as [h|] eqn:E.
  - destruct (linv_lock _ Hi l h E) as (v & Hv & Hst). rewrite E1, E2.
    destruct Hst as [? ? Hz|? ? Hz|p0 -> -> H1 H2]; [rewrite Hz in Hr; lia..|].
    split_and!; [done|done|]. intros p. destruct (decide (p = p0)) as [->|Hne].
    + destruct (decide (p0 = running_thread k)) as [->|Hne]; [lia|]. rewrite (H2 (running_thread k)) in Hr by done. lia.
    + specialize (E3 l p). rewrite (H2 p Hne) in E3. lia.
  - destruct (linv_none _ Hi l E) as [_ Hz]. rewrite Hz in Hr. lia.
Qed.

Lemma lock_release_tail_good l k k' r : lock_release_tail l k = Ret k' -> linv k ->
  locks k !! l = Some NULL -> val k l = Some 0 -> (forall p, rel k l p = 0%nat) -> good r k k'.
Proof.
  unfold lock_release_tail. intros H Hi Hh Hv Hrel. rinv.
  match goal with H1 : restore_priority _ _ = Ret ?x1, H2 : push _ ?x1 = Ret ?x2 |- _ => assert (Hle : lle k x2) end.
  { etrans; [|by eapply push_lle]. match goal with H1 : restore_priority _ _ = Ret _ |- _ => exact (restore_priority_lle _ _ _ H1) end. }
  eapply good_lle_l; [exact Hle|].
  match goal with H1 : sema_up _ ?y = Ret _ |- _ => destruct (sema_up_cases _ _ _ H1) as (sm & ws & Hs & Hle2); rename y into k2 end.
  destruct Hle as (E1 & E2 & E3). pose proof (E2 l) as Ev. unfold val in Ev at 1. rewrite Hs, Hv in Ev. simpl in Ev.
  injection Ev as Ev. rewrite Ev in Hle2. change (u32 (0 + 1)) with 1 in Hle2.
  eapply good_lle_r; [|exact Hle2]. split.
  - eapply (linv_update k2 _ l NULL 1).
    + eapply (linv_lle k); [|done]. by split_and!.
    + intros l' Hne. split_and!; [done| |done]. rewrite val_put. by rewrite decide_False.
    + simpl. by rewrite E1.
    + rewrite val_put. by rewrite decide_True.
    + apply lock_free; [done|done|]. intros p. specialize (E3 l p). rewrite Hrel in E3.
      change (rel (put_sema _ _ k2) l p) with (rel k2 l p). lia.
  - intros l' h' Hl'. exists h'. auto.
Qed.

(** ** Steps *)

Lemma cond_signal_lle c l k k' : cond_signal c l k = Ret k' -> lle k k'.
Proof.
  unfold cond_signal. intros H. rinv. destruct (sort _ _); rinv; [by subst|].
  match goal with H1 : sema_up _ _ = Ret _ |- _ => exact (sema_up_lle _ _ _ H1 ltac:(simpl; tauto)) end.
Qed.

Lemma cond_broadcast_lle c l k k' : cond_broadcast c l k = Ret k' -> lle k k'.
Proof.
  unfold cond_broadcast. intros H. rinv. destruct x1; rinv; [by subst|].
  etrans; [by eapply push_lle|by eapply cond_signal_lle].
Qed.

Lemma cond_wait_good c l w k k' : cond_wait c l w k = Ret k' -> linv k -> good (running_thread k) k k'.
Proof.
  unfold cond_wait. intros H Hi. rinv.
  match goal with Ha : push (FDropWaiter _) _ = Ret _, Hb : push (FLockAcquire _) _ = Ret _,
                  Hc : push (FSemaDown _) _ = Ret ?x |- _ =>
    assert (Hk : lle k x /\ running_thread x = running_thread k);
    [pose proof (push_lle _ _ _ Ha ltac:(done)) as La; pose proof (push_lle _ _ _ Hb ltac:(done)) as Lb;
     pose proof (push_lle _ _ _ Hc ltac:(done)) as Lc;
     apply upd_thread_inv in Ha as (? & _ & ->); apply upd_thread_inv in Hb as (? & _ & ->);
     apply upd_thread_inv in Hc as (? & _ & ->) |] end.
  { split; [|done]. etrans; [apply (put_other_lle (WaiterSema w) (mkSema 0 []) k); simpl; tauto|].
    etrans; [exact La|]. etrans; [exact Lb|exact Lc]. }
  destruct Hk as [Hle Hr]. eapply good_lle_l; [exact Hle|]. rewrite <- Hr.
  eapply lock_release_good; [eassumption|by eapply linv_lle].
Qed.

Lemma thread_create_good page prio k k' : thread_create page prio [] k = Ret k' -> linv k ->
  (forall t, page = Some t -> threads k !! t = None) -> good (running_thread k) k k'.
Proof.
  unfold thread_create, init_thread. intros H Hi Hfresh. destruct page as [t|]; [|simplify_eq; by apply good_lle].
  specialize (Hfresh t eq_refl). rinv. subst.
  match goal with Hb : push (FCreate _ _) _ = Ret _, Hc : push (FTid _) _ = Ret ?x |- _ =>
    assert (Hk : lle k x /\ running_thread x = running_thread k);
    [pose proof (push_lle _ _ _ Hb ltac:(done)) as Lb; pose proof (push_lle _ _ _ Hc ltac:(done)) as Lc;
     apply upd_thread_inv in Hb as (? & _ & ->); apply upd_thread_inv in Hc as (? & _ & ->) |] end.
  { split; [|done]. etrans; [|etrans; [exact Lb|exact Lc]]. split_and!; [done|done|].
    intros l p. unfold rel. simpl. destruct (decide (p = t)) as [->|]; [rewrite lookup_insert_eq; simpl; lia|].
    by rewrite lookup_insert_ne. }
  destruct Hk as [Hle Hr]. eapply good_lle_l; [exact Hle|]. rewrite <- Hr.
  eapply lock_acquire_good; [eassumption|by eapply linv_lle].
Qed.

Lemma sema_take_good r s sm k : semas k !! s = Some sm -> value sm <> 0 -> linv k ->
  good r k (put_sema s (mkSema (value sm - 1) (waiters sm)) k).
Proof.
  intros Hs Hv Hi. destruct s as [a|l|w]; [apply good_lle; [by apply put_other_lle; simpl; tauto|done]| |
    apply good_lle; [by apply put_other_lle; simpl; tauto|done]].
  destruct (nonzero_free _ _ _ Hi Hs Hv) as (Hv1 & Hh & Hrel). split; [|intros l' h' Hl'; exists h'; auto].
  apply (linv_update k _ l NULL 0 Hi); [|done| |].
  - intros l' Hne. split_and!; [done| |done]. rewrite val_put. by rewrite decide_False.
  - rewrite val_put, decide_True by done. by rewrite Hv1.
  - apply (lock_releasing _ _ _ 0); [done|done| |].
    + etrans; [apply Nat.eq_le_incl, (Hrel 0)|lia].
    + intros p _. apply Hrel.
Qed.

Lemma sema_loop_good s old k k' again : sema_loop s again (intr_set_level old) k = Ret k' ->
  (forall l, again <> FLockRelease l) -> linv k -> good (running_thread k) k k'.
Proof.
  intros H Ha Hi. destruct (sema_loop_cases _ _ _ _ _ H Ha) as [Hl|(sm & Hsm & Hv & Hr)]; [by apply good_lle|].
  eapply good_lle_r; [|by eapply intr_set_level_lle]. by apply sema_take_good.
Qed.

Lemma exec_good f k k' : exec f k = Ret k' -> linv k ->
  (forall l, f = FLockRelease l -> locks k !! l = Some NULL /\ val k l = Some 0 /\ forall p, rel k l p = 0%nat) ->
  (forall s, f <> FIdleStart s) ->
  good (running_thread k) k k'.
Proof.
  intros H Hi Hrel Hsem. destruct f; simpl in H.
  - apply good_lle; [by eapply intr_set_level_lle|done].
  - apply good_lle; [by apply (intr_set_level_lle INTR_ON)|done].
  - by eapply sema_loop_good.
  - destruct (sema_loop_cases _ _ _ _ _ H ltac:(done)) as [Hl|(sm & Hsm & Hv & Hr)]; [by apply good_lle|].
    by eapply lock_take_good.
  - destruct (Hrel l eq_refl) as (? & ? & ?). by eapply lock_release_tail_good.
  - unfold sema_down in H. rinv.
    match goal with H1 : sema_loop _ _ _ _ = Ret _ |- _ => assert (Hd : linv (intr_disable k)) by (apply (linv_lle k); done);
      exact (sema_loop_good _ _ _ _ _ H1 ltac:(done) Hd) end.
  - by eapply lock_acquire_good.
  - apply good_lle; [by eapply cond_broadcast_lle|done].
  - rinv. subst k'. apply good_lle; [|done]. split_and!; [done| |done]. intros l. unfold val. simpl.
    by rewrite lookup_delete_ne.
  - unfold allocate_tid_tail in H. rinv.
    match goal with H1 : upd_thread _ _ _ = Ret ?x |- _ => pose proof (upd_thread_lle _ _ _ _ H1 (fun _ => eq_refl)) as Hle;
      apply upd_thread_inv in H1 as (? & _ & ->) end.
    match goal with H1 : lock_release _ ?y = Ret _ |- _ => assert (Hle' : lle k y) by exact Hle;
      exact (good_lle_l _ _ _ _ Hle' (lock_release_good _ _ _ H1 (linv_lle _ _ Hle' Hi))) end.
  - unfold thread_create_tail in H. rinv. apply good_lle; [|done]. etrans; [|by eapply thread_unblock_lle]. by lle_tac.
  - rinv. apply good_lle; [|done]. case_bool_decide; [by eapply thread_yield_lle|rinv; by subst].
  - by destruct (Hsem s).
  - rinv. apply good_lle; [|done]. etrans; [|by eapply thread_block_lle].
    match goal with H1 : push _ _ = Ret _ |- _ => exact (push_lle _ _ _ H1 ltac:(done)) end.
  - rinv. apply good_lle; [|done]. etrans; [by eapply push_lle|]. by apply (intr_set_level_lle INTR_ON).
Qed.

Lemma call_good o k k' : call o k = Ret k' -> call_ok o k -> linv k -> good (running_thread k) k k'.
Proof.
  intros H Hok Hi. destruct o; simpl in H, Hok; rinv.
  - subst. apply good_lle; [|done]. apply put_other_lle. simpl. tauto.
  - apply good_lle; [|done]. eapply sema_down_lle; [done|simpl; tauto].
  - destruct x. rinv. subst. apply good_lle; [|done].
    match goal with H1 : sema_try_down _ _ = Ret _ |- _ => exact (sema_try_down_lle _ _ _ H1 ltac:(simpl; tauto)) end.
  - apply good_lle; [|done]. eapply sema_up_lle; [done|simpl; tauto].
  - subst. destruct Hok as (Hnn & Hs & Hl). destruct (linv_none _ Hi l Hl) as [_ Hrel]. split.
    + apply (linv_update k _ l NULL 1 Hi).
      * intros l' Hne. simpl. rewrite lookup_insert_ne by done. split_and!; [done| |done].
        unfold lock_init, sema_init. rewrite val_put. by rewrite decide_False.
      * simpl. apply lookup_insert_eq.
      * unfold lock_init, sema_init. rewrite val_put. by rewrite decide_True.
      * by apply lock_free.
    + intros l' h Hl'. exists h. simpl. rewrite lookup_insert_ne by congruence. auto.
  - by eapply lock_acquire_good.
  - destruct x. rinv. subst.
    match goal with H1 : lock_try_acquire _ _ = Ret _ |- _ => exact (lock_try_acquire_good _ _ _ H1 Hi) end.
  - by eapply lock_release_good.
  - subst. by apply good_lle.
  - by eapply cond_wait_good.
  - apply good_lle; [by eapply cond_signal_lle|done].
  - apply good_lle; [by eapply cond_broadcast_lle|done].
  - apply good_lle; [by eapply thread_yield_lle|done].
  - apply good_lle; [by eapply thread_set_priority_lle|done].
  - unfold timer_sleep in H. rinv. apply good_lle; [by eapply thread_to_sleep_lle|done].
  - eapply thread_create_good; [done|done|]. intros t ->. done.
  - apply good_lle; [by eapply thread_exit_lle|done].
Qed.

Lemma step_good k k' : step k k' -> inv k -> linv k -> good (running_thread k) k k'.
Proof.
  intros [k0 f k1 k2 Hp He|k0 t o k2 Ht Hf Hid Hok Hc|k0 k2 Hl Hh] Hi Hl'.
  - destruct (pop_lle _ _ _ Hp) as (Hle & Hr & _). destruct (pop_inv _ _ _ Hp Hi) as (_ & _ & _ & _ & Hfi).
    eapply good_lle_l; [exact Hle|]. rewrite <- Hr. apply (exec_good f); [done|by eapply linv_lle| |].
    + intros l ->. by apply (pop_release k0).
    + intros s ->. done.
  - by eapply call_good.
  - apply good_lle; [by apply intr_handler_lle|done].
Qed.

Lemma boot_linv : linv boot.
Proof.
  assert (Hrel : forall l p, rel boot l p = 0%nat).
  { intros l p. unfold rel. destruct (threads boot !! p) as [t|] eqn:E; [|done].
    apply boot_lookup in E as [(_ & _ & Hf)|(_ & _ & Hf)]; simpl; by rewrite Hf. }
  assert (Hl : forall l h, locks boot !! l = Some h -> l = tid_lock /\ h = NULL).
  { intros l h H. cbn [boot locks] in H. by apply lookup_singleton_Some in H as [<- <-]. }
  split.
  - intros l h [-> ->]%Hl. exists 1. split; [done|]. by apply lock_free.
  - intros l H. split; [|done]. unfold val.
    destruct (semas boot !! LockSema l) as [sm|] eqn:E; [|done]. cbn [boot semas] in E.
    apply lookup_insert_Some in E as [[[= <-] _]|[_ [[=] _]%lookup_singleton_Some]]. done.
Qed.

Lemma reachable_linv k : rtc step boot k -> inv k /\ linv k.
Proof.
  intros H. pose proof boot_inv as Hb. pose proof boot_linv as Hl.
  induction H as [|x y z Hs _ IH]; [done|]. apply IH; [by eapply step_inv|].
  by destruct (step_good _ _ Hs Hb Hl).
Qed.

(** ** Properties *)

(** C8. Mutual exclusion.  In every reachable state, a lock's semaphore is 1 only
    when the lock has no holder, and one step changes the holder of a lock in two
    ways only: the holder itself releases it, or the running thread takes it when
    it was free.  So no thread enters a section guarded by a lock while another
    one is inside, for locks acquired by waiting, by trying or on the return from
    cond_wait, and under every interleaving. *)
Theorem lock_mutual_exclusion k k' l h : rtc step boot k -> step k k' -> locks k !! l = Some h ->
  (exists sm, semas k !! LockSema l = Some sm /\ 0 <= value sm <= 1 /\ (value sm = 1 -> h = NULL)) /\
  (exists h', locks k' !! l = Some h' /\
     (h' = h \/ (h = running_thread k /\ h' = NULL) \/ (h = NULL /\ h' = running_thread k))).
Proof.
  intros Hr Hs Hl. destruct (reachable_linv k Hr) as [Hi Hli]. split.
  - destruct (linv_lock _ Hli l h Hl) as (v & Hv & Hst). unfold val in Hv.
    apply fmap_Some in Hv as (sm & Hsm & ->). exists sm. split; [done|].
    destruct Hst as [-> ? _ | -> ? _ | ? -> ? _ _]; (split; [lia|done]).
  - by apply (step_good _ _ Hs Hi Hli).
Qed.

(** The demonstration run up to a state where thread 0xC0101000 waits for the lock. *)
Definition lock_run : list action :=
  [ACall (OLockInit 100); ACall (OLockAcquire 100)] ++ create 0xC0101000 32 ++ [ARun; ACall (OLockAcquire 100)].

Definition lock_demo : kernel := end_of lock_run boot.

Lemma lock_mutual_exclusion_witness :
  exists k', act ARun lock_demo = Ret k' /\ locks lock_demo !! 100 = Some main_page /\
    exists h', locks k' !! 100 = Some h' /\
      (h' = main_page \/ (main_page = running_thread lock_demo /\ h' = NULL) \/
       (main_page = NULL /\ h' = running_thread lock_demo)).
Proof.
  assert (Hreach : rtc step boot lock_demo) by (apply end_of_steps; vm_compute; reflexivity).
  assert (Hl : locks lock_demo !! 100 = Some main_page) by (vm_compute; reflexivity).
  assert (Ha : exists k', act ARun lock_demo = Ret k').
  { exists (match act ARun lock_demo with Ret k' => k' | _ => boot end). vm_compute; reflexivity. }
  destruct Ha as (k' & Ha). exists k'. split; [exact Ha|]. split; [exact Hl|].
  exact (proj2 (lock_mutual_exclusion lock_demo k' 100 main_page Hreach (act_step _ _ _ Ha) Hl)).
Defined.
