(* ===== verification/SchedProps.v ===== *)
(** * Priority scheduling, donation and sleep *)

From S2P Require Import Prelude ListSpec Kernel Synch SchedInv SchedProof.

(** ** Orders *)

#[export] Instance priority_compare_weak k : StrictWeak (priority_compare_two_thread k).
Proof.
  split; unfold priority_compare_two_thread; intros *; rewrite ?bool_decide_eq_true, ?bool_decide_eq_false; lia.
Qed.

#[export] Instance compare_tick_weak k : StrictWeak (compare_tick k).
Proof.
  split; unfold compare_tick; intros *; rewrite ?bool_decide_eq_true, ?bool_decide_eq_false; lia.
Qed.

(** The head of a stable sort: greater than all before it in the original list, at
    least as great as all behind it. *)
Lemma sort_head {A} (less : A -> A -> bool) `{!StrictWeak less} (xs : list A) p rest :
  sort less xs = p :: rest ->
  exists w1 w2, xs = w1 ++ p :: w2 /\ Forall (fun x => less p x = true) w1 /\ Forall (fun x => less x p = false) w2.
Proof.
  revert p rest; induction xs as [|x xs IH]; intros p rest H; [done|].
  change (sort less (x :: xs)) with (insert_left less x (sort less xs)) in H.
  destruct (sort less xs) as [|y ys] eqn:E; simpl in H.
  - simplify_eq. exists [], xs. split_and!; [done|constructor|].
    pose proof (sort_perm less xs) as Hp. rewrite E in Hp. apply Permutation_nil in Hp. by subst.
  - destruct (less y x) eqn:Eyx; simplify_eq.
    + destruct (IH _ _ eq_refl) as (w1 & w2 & -> & H1 & H2). exists (x :: w1), w2. split_and!; [done|by constructor|done].
    + exists [], xs. split_and!; [done|constructor|]. destruct (IH _ _ eq_refl) as (w1 & w2 & -> & H1 & H2).
      apply Forall_app; split; [|constructor; [done|]].
      * eapply Forall_impl; [exact H1|]. intros z Hz. apply (sw_trans _ _ _ Eyx). by apply sw_asym.
      * eapply Forall_impl; [exact H2|]. intros z Hz. by apply (sw_trans _ _ _ Eyx).
Qed.

(** ** Who runs next *)

Lemma schedule_front k k' p rest : schedule k = Ret k' -> ready_list k = p :: rest ->
  running_thread k' = p /\ ready_list k' = rest.
Proof.
  assert (Ht : forall prev k1 k2, schedule_tail prev k1 = Ret k2 ->
            running_thread k2 = running_thread k1 /\ ready_list k2 = ready_list k1).
  { intros prev k1 k2. unfold schedule_tail. intros H. rinv.
    match goal with H1 : upd_thread _ _ _ = Ret _ |- _ => apply upd_thread_inv in H1 as (t & Ht & ->) end.
    case_bool_decide; rinv; [|by subst]. destruct (bool_decide _ && _); rinv; by subst. }
  unfold schedule, next_thread_to_run. intros H E. rewrite E in H. rinv.
  case_bool_decide; match goal with H1 : schedule_tail _ _ = Ret _ |- _ => apply Ht in H1 as [-> ->] end; simpl; auto.
Qed.

(** Priority scheduling with round robin: when the ready list is in order of
    priority, the thread that runs after thread_yield has the highest priority
    of all runnable threads, the yielding one included; the yielding thread runs
    on only if its priority is higher than that of every ready thread; and the
    ready list stays in order. *)
Theorem thread_yield_highest k k' : rtc step boot k -> thread_yield k = Ret k' -> running_thread k <> idle_thread k ->
  Sorted (le (priority_compare_two_thread k)) (ready_list k) ->
  (forall p, p ∈ running_thread k :: ready_list k -> prio_of k p <= prio_of k (running_thread k')) /\
  (running_thread k' = running_thread k ->
     forall p, p ∈ ready_list k -> prio_of k p < prio_of k (running_thread k)) /\
  running_thread k' :: ready_list k' ≡ₚ running_thread k :: ready_list k /\
  Sorted (le (priority_compare_two_thread k)) (ready_list k').
Proof.
  unfold thread_yield. intros Hreach H Hid Hs. rinv. simpl in *.
  assert (Hcr : running_thread k ∉ ready_list k).
  { intros Hin. destruct (reachable_inv k Hreach) as [[_ Hrd _ _ _ _ _ _ _ _ _] Hrun].
    apply Hrd in Hin as [Hin _]. pose proof (proj2 (Hrun (running_thread k)) eq_refl). congruence. }
  rewrite bool_decide_eq_true_2 in * by done.
  match goal with H1 : upd_thread _ _ _ = Ret _, H2 : push _ _ = Ret ?x |- _ =>
    apply upd_thread_inv in H1 as (t & Ht & ->); apply upd_thread_inv in H2 as (t2 & Ht2 & ->) end.
  set (less := priority_compare_two_thread k) in *. set (c := running_thread k) in *.
  assert (Hweak : StrictWeak less) by (unfold less; apply _).
  destruct (insert_ordered_split less c (ready_list k) Hs) as (a & b & E & Ea & Ha & Hb).
  assert (Hnew : Sorted (le less) (insert_ordered less c (ready_list k))) by (by apply insert_ordered_sorted).
  assert (Hperm := insert_ordered_perm less c (ready_list k)).
  assert (Hle : forall x y, le less x y <-> prio_of k y <= prio_of k x).
  { intros u v. unfold le, less, priority_compare_two_thread. rewrite bool_decide_eq_false. lia. }
  assert (Hready : exists p rest, insert_ordered less c (ready_list k) = p :: rest) by (rewrite E; destruct a; simpl; eauto).
  destruct Hready as (p & rest & Ep).
  match goal with H1 : schedule _ = Ret _ |- _ => destruct (schedule_front _ _ p rest H1) as [-> ->]; [exact Ep|] end.
  rewrite Ep in *. apply Sorted_StronglySorted in Hnew; [|intros ? ? ?; rewrite !Hle; lia].
  inversion_clear Hnew as [|? ? Hrest Hall]. rewrite Forall_forall in Hall. split_and!.
  - intros u Hu. rewrite <- Hperm in Hu. apply elem_of_cons in Hu as [->|Hu]; [lia|]. apply Hle. auto.
  - intros -> u Hu. destruct a as [|y a].
    + simpl in Ea. subst b. rewrite Forall_forall in Hb. specialize (Hb u Hu).
      unfold less, priority_compare_two_thread in Hb. apply bool_decide_eq_true_1 in Hb. lia.
    + simpl in E. injection E as E _. destruct Hcr. rewrite Ea, E. set_solver.
  - exact Hperm.
  - by apply StronglySorted_Sorted.
Qed.

(** Two more ready threads, of priorities 31 and 20. *)
Definition ready_run : list action := create 0xC0101000 31 ++ ARun :: create 0xC0102000 20 ++ [ARun].
Definition ready_state : kernel := end_of ready_run boot.

Lemma thread_yield_highest_witness :
  exists k', thread_yield ready_state = Ret k' /\ running_thread k' = 0xC0101000 /\
    forall p, p ∈ running_thread ready_state :: ready_list ready_state ->
      prio_of ready_state p <= prio_of ready_state (running_thread k').
Proof.
  assert (Hreach : rtc step boot ready_state) by (apply end_of_steps; vm_compute; reflexivity).
  assert (Hy : exists k', thread_yield ready_state = Ret k' /\ running_thread k' = 0xC0101000).
  { exists (match thread_yield ready_state with Ret k' => k' | _ => boot end). split; vm_compute; reflexivity. }
  assert (Hid : running_thread ready_state <> idle_thread ready_state) by (vm_compute; discriminate).
  assert (Hs : Sorted (le (priority_compare_two_thread ready_state)) (ready_list ready_state)).
  { replace (ready_list ready_state) with [0xC0101000; 0xC0102000] by (vm_compute; reflexivity).
    repeat constructor; vm_compute; reflexivity. }
  destruct Hy as (k' & Hy & Hr). exists k'. split; [exact Hy|]. split; [exact Hr|].
  exact (proj1 (thread_yield_highest ready_state k' Hreach Hy Hid Hs)).
Defined.

Lemma push_ok f k t : threads k !! running_thread k = Some t ->
  push f k = Ret (set_threads (<[running_thread k := set_frames (f :: frames t) t]> (threads k)) k).
Proof. intros Ht. unfold push, upd_thread, get_thread. by rewrite Ht. Qed.

(** sema_up wakes the right thread: when threads wait, it increments the
    value, removes exactly one waiter and unblocks it, namely the first in
    arrival order among those of the highest priority. *)
Theorem sema_up_wakes_highest s k sm : semas k !! s = Some sm -> waiters sm <> [] ->
  is_Some (threads k !! running_thread k) ->
  exists w1 p w2 rest k1, waiters sm = w1 ++ p :: w2 /\
    Forall (fun x => prio_of k x < prio_of k p) w1 /\ Forall (fun x => prio_of k x <= prio_of k p) w2 /\
    rest ≡ₚ w1 ++ w2 /\ push (FSetLevel (level k)) (intr_disable k) = Ret k1 /\
    sema_up s k = thread_unblock p (put_sema s (mkSema (u32 (value sm + 1)) rest) k1).
Proof.
  intros Hs Hne [t Ht]. unfold sema_up, get_sema. simpl. rewrite Hs. cbn [of_opt rbind].
  rewrite (push_ok _ (intr_disable k) t Ht). cbn [rbind]. set (k1 := set_threads _ _).
  assert (Hprio : forall x, prio_of k1 x = prio_of k x).
  { intros x. unfold prio_of, k1. simpl. destruct (decide (x = running_thread k)) as [->|].
    - by rewrite lookup_insert_eq, Ht.
    - by rewrite lookup_insert_ne. }
  destruct (sort (compare_priority k1) (waiters sm)) as [|p rest] eqn:E.
  - pose proof (sort_perm (compare_priority k1) (waiters sm)) as Hp. rewrite E in Hp.
    by apply Permutation_nil in Hp.
  - destruct (sort_head (priority_compare_two_thread k1) _ _ _ E) as (w1 & w2 & Hw & H1 & H2).
    exists w1, p, w2, rest, k1. split_and!; [done| | | |done|].
    4:{ change (intr_get_level k) with (level k). rewrite (push_ok _ (intr_disable k) t Ht). cbn [rbind]. fold k1. by rewrite E. }
    + eapply Forall_impl; [exact H1|]. unfold priority_compare_two_thread. intros x Hx%bool_decide_eq_true_1.
      rewrite !Hprio in Hx. lia.
    + eapply Forall_impl; [exact H2|]. unfold priority_compare_two_thread. intros x Hx%bool_decide_eq_false_1.
      rewrite !Hprio in Hx. lia.
    + apply (Permutation_cons_inv (a := p)). pose proof (sort_perm (compare_priority k1) (waiters sm)) as Hp.
      rewrite E, Hw in Hp. rewrite Hp. by rewrite Permutation_middle.
Qed.

(** Three threads waiting on a semaphore, of priorities 33, 35 and 35. *)
Definition waiting_run : list action :=
  ACall (OSemaInit 50 0) :: create_run 0xC0101000 33 [ACall (OSemaDown 50)] ++
  create_run 0xC0102000 35 [ACall (OSemaDown 50)] ++ create_run 0xC0103000 35 [ACall (OSemaDown 50)].
Definition waiting_state : kernel := end_of waiting_run boot.

Lemma sema_up_wakes_highest_witness :
  exists w1 p w2 rest k1, [0xC0101000; 0xC0102000; 0xC0103000] = w1 ++ p :: w2 /\
    Forall (fun x => prio_of waiting_state x < prio_of waiting_state p) w1 /\
    Forall (fun x => prio_of waiting_state x <= prio_of waiting_state p) w2 /\
    rest ≡ₚ w1 ++ w2 /\ push (FSetLevel (level waiting_state)) (intr_disable waiting_state) = Ret k1 /\
    sema_up (Sema 50) waiting_state = thread_unblock p (put_sema (Sema 50) (mkSema 1 rest) k1).
Proof.
  apply (sema_up_wakes_highest (Sema 50) waiting_state (mkSema 0 [0xC0101000; 0xC0102000; 0xC0103000])).
  - vm_compute; reflexivity.
  - discriminate.
  - eexists. vm_compute; reflexivity.
Defined.

(** ** Priority donation *)

(** The holders a waiting thread depends on: the holder of the lock it waits for,
    the holder of the lock that one waits for, and so on, up to a thread that waits for
    none or for a lock that is free. *)
Inductive chain (k : kernel) : Z -> list Z -> Prop :=
| chain_end p t : threads k !! p = Some t -> waiting_lock t = NULL -> chain k p []
| chain_free p t : threads k !! p = Some t -> waiting_lock t <> NULL -> locks k !! waiting_lock t = Some NULL -> chain k p []
| chain_cons p t h hs : threads k !! p = Some t -> waiting_lock t <> NULL ->
    locks k !! waiting_lock t = Some h -> h <> NULL -> chain k h hs -> chain k p (h :: hs).

(** The kernel with the priority of [h] raised to [x]. *)
Definition raise (h x : Z) (k : kernel) : kernel :=
  set_threads (alter (fun t => set_priorities x (origin_priority t) t) h (threads k)) k.

Lemma chain_exists k p hs : chain k p hs -> is_Some (threads k !! p).
Proof. destruct 1; eauto. Qed.

Lemma prio_of_raise h x k q : is_Some (threads k !! h) ->
  prio_of (raise h x k) q = if decide (q = h) then x else prio_of k q.
Proof.
  intros [t Ht]. unfold prio_of, raise. simpl. case_decide as E.
  - subst. by rewrite lookup_alter_eq, Ht.
  - by rewrite lookup_alter_ne.
Qed.

Lemma chain_raise h x k p hs : chain k p hs -> chain (raise h x k) p hs.
Proof.
  induction 1 as [p t Ht Hw|p t Ht Hw Hl|p t h' hs Ht Hw Hl Hn _ IH].
  - destruct (decide (p = h)) as [->|].
    + eapply chain_end; [unfold raise; simpl; by rewrite lookup_alter_eq, Ht|done].
    + eapply chain_end; [unfold raise; simpl; by rewrite lookup_alter_ne|done].
  - destruct (decide (p = h)) as [->|].
    + eapply chain_free; [unfold raise; simpl; by rewrite lookup_alter_eq, Ht|done..].
    + eapply chain_free; [unfold raise; simpl; by rewrite lookup_alter_ne|done..].
  - destruct (decide (p = h)) as [->|].
    + eapply chain_cons; [unfold raise; simpl; by rewrite lookup_alter_eq, Ht|done..].
    + eapply chain_cons; [unfold raise; simpl; by rewrite lookup_alter_ne|done..].
Qed.

Lemma StronglySorted_ext_in {A} (R R' : A -> A -> Prop) (l : list A) :
  (forall a b, a ∈ l -> b ∈ l -> R a b -> R' a b) -> StronglySorted R l -> StronglySorted R' l.
Proof.
  induction l as [|x l IH]; intros Hext Hs; constructor; inversion_clear Hs as [|? ? Hs' Hall].
  - apply IH; [|done]. intros a b Ha Hb. apply Hext; set_solver.
  - rewrite Forall_forall in *. intros b Hb. apply Hext; [set_solver|set_solver|auto].
Qed.

Lemma chain_unique k p hs hs' : chain k p hs -> chain k p hs' -> hs = hs'.
Proof.
  intros H. revert hs'. induction H as [p t Ht Hw|p t Ht Hw Hl|p t h hs Ht Hw Hl Hn _ IH]; intros hs' H';
    inversion H' as [? t' Ht' Hw'|? t' Ht' Hw' Hl'|? t' h' ? Ht' Hw' Hl' Hn' Hc']; subst; try congruence.
  - assert (t' = t) as -> by congruence. assert (h' = h) as -> by congruence. f_equal. by apply IH.
Qed.

Lemma chain_suffix k p hs q : chain k p hs -> q ∈ hs -> exists hs', chain k q hs' /\ (length hs' < length hs)%nat.
Proof.
  induction 1 as [| |p t h hs Ht Hw Hl Hn Hc IH]; intros Hq; [by apply elem_of_nil in Hq..|]. apply elem_of_cons in Hq as [->|Hq].
  - exists hs. split; [done|simpl; lia].
  - destruct (IH Hq) as (hs' & H' & Hlt). exists hs'. split; [done|simpl; lia].
Qed.

(** A chain that ends has no thread twice. *)
Lemma chain_nodup k p hs : chain k p hs -> p ∉ hs.
Proof.
  intros Hc Hp. destruct (chain_suffix k p hs p Hc Hp) as (hs' & Hc' & Hlt). rewrite (chain_unique k p hs hs' Hc Hc') in Hlt. lia.
Qed.

(** The holders that get the priority [x]: those up to the first that has as much. *)
Fixpoint donees (x : Z) (k : kernel) (hs : list Z) : list Z :=
  match hs with
  | [] => []
  | h :: hs => if decide (prio_of k h < x) then h :: donees x k hs else []
  end.

Lemma donees_ext x k k' hs : (forall q, q ∈ hs -> prio_of k' q = prio_of k q) -> donees x k' hs = donees x k hs.
Proof.
  induction hs as [|h hs IH]; intros H; simpl; [done|]. rewrite H by by left. case_decide; [|done]. f_equal. apply IH. intros q Hq. apply H. by right.
Qed.

(** The threads after a donation of [x] to [ds]. *)
Definition donated (x : Z) (ds : list Z) (k k' : kernel) : Prop :=
  k' = set_threads (threads k') k /\
  forall q, threads k' !! q = (fun th => if decide (q ∈ ds) then set_priorities x (origin_priority th) th else th) <$> threads k !! q.

Lemma donated_none x k : donated x [] k k.
Proof.
  split; [by destruct k|]. intros q. by destruct (threads k !! q) as [th|].
Qed.

Lemma donate_loop_ok hs : forall n k p, chain k p hs ->
  exists k', donate_loop n p k = Ret k' /\ donated (prio_of k p) (donees (prio_of k p) k (take n hs)) k k'.
Proof.
  induction hs as [|h hs IH]; intros n k p Hc.
  - exists k. rewrite take_nil. split; [|apply donated_none].
    destruct n as [|n]; [done|]. inversion Hc as [? t Ht Hw|? t Ht Hw Hl|]; subst; simpl; unfold get_thread; rewrite Ht; cbn [of_opt rbind].
    + by rewrite bool_decide_eq_true_2.
    + rewrite bool_decide_eq_false_2 by done. unfold get_holder. rewrite Hl. cbn [of_opt rbind]. by rewrite bool_decide_eq_false_2 by (intros E; by apply E).
  - destruct n as [|n]; [exists k; split; [done|apply donated_none]|]. inversion Hc as [| |? t ? ? Ht Hw Hl Hnn Hch]; subst.
    destruct (chain_exists _ _ _ Hch) as [th Hth]. pose proof (chain_nodup _ _ _ Hch) as Hh.
    assert (Hpp : prio_of k p = priority t) by (unfold prio_of; by rewrite Ht).
    assert (Hph : prio_of k h = priority th) by (unfold prio_of; by rewrite Hth).
    cbn [take donees donate_loop]. unfold get_thread, get_holder. rewrite Ht. cbn [of_opt rbind]. rewrite bool_decide_eq_false_2 by done.
    rewrite Hl. cbn [of_opt rbind]. rewrite (bool_decide_eq_true_2 (h <> NULL)) by done. rewrite Hth. cbn [of_opt rbind]. rewrite Hpp, Hph.
    case_bool_decide as Hgt; [|rewrite decide_False by lia; exists k; split; [done|apply donated_none]]. rewrite decide_True by lia.
    unfold upd_thread, get_thread. rewrite Hth. cbn [of_opt rbind].
    assert (Hraise : set_threads (<[h := set_priorities (priority t) (origin_priority th) th]> (threads k)) k = raise h (priority t) k).
    { unfold raise. f_equal. apply map_eq. intros i. destruct (decide (i = h)) as [->|].
      - by rewrite lookup_insert_eq, lookup_alter_eq, Hth.
      - by rewrite lookup_insert_ne, lookup_alter_ne. }
    rewrite Hraise. set (k1 := raise h (priority t) k).
    assert (Hpr : forall q, prio_of k1 q = if decide (q = h) then priority t else prio_of k q) by (intros q; apply prio_of_raise; eauto).
    destruct (IH n k1 h) as (k' & -> & Hk' & Hq); [by apply chain_raise|]. exists k'. split; [done|].
    rewrite Hpr, decide_True in Hq by done. rewrite (donees_ext _ k k1) in Hq.
    2: { intros q Hqin. rewrite Hpr, decide_False; [done|]. intros ->. by apply Hh, (subseteq_take n hs). }
    split; [rewrite Hk'; done|]. intros q. rewrite Hq. unfold k1, raise. simpl. destruct (decide (q = h)) as [->|Hqh].
    + rewrite lookup_alter_eq, Hth. simpl. rewrite (decide_True (P := h ∈ h :: _)) by by left. by case_decide.
    + rewrite lookup_alter_ne by done. destruct (threads k !! q) as [y|]; simpl; [|done]. do 2 case_decide; try done; set_solver.
Qed.

(** C35. Nested priority donation: when the running thread waits for a lock whose holder
    waits for a lock, and so on, [donate_priority] follows this chain for eight holders at
    most and gives each the priority of the running thread, up to the first holder that
    has as much, where it stops; nothing else changes, neither the original priorities nor
    any other part of a thread or of the kernel. *)
Theorem donate_priority_chain k t hs : thread_current k = Ret t -> chain k (running_thread k) hs ->
  exists k', donate_priority k = Ret k' /\ donated (priority t) (donees (priority t) k (take 8 hs)) k k'.
Proof.
  intros Ht Hc. unfold donate_priority. rewrite Ht. cbn [rbind].
  destruct (donate_loop_ok hs 8 k (running_thread k) Hc) as (k' & -> & Hd). exists k'. split; [done|].
  apply thread_current_ok in Ht as [Ht _]. unfold prio_of in Hd at 1 2. by rewrite Ht in Hd.
Qed.

(** Main (31) holds lock 100; 0xC0101000 (33) holds lock 200 and waits for 100;
    0xC0102000 (35) is about to wait for 200. *)
Definition donate_run : list action :=
  [ACall (OLockInit 100); ACall (OLockInit 200); ACall (OLockAcquire 100)] ++
  create 0xC0101000 33 ++ [ARun; ACall (OLockAcquire 200); ACall (OLockAcquire 100); ARun; ARun; ARun].
Definition donate_state : kernel :=
  let k := end_of (donate_run ++ create 0xC0102000 35 ++ [ARun]) boot in
  match upd_thread 0xC0102000 (set_waiting_lock 200) k with Ret k => k | _ => k end.

Lemma donate_priority_chain_witness :
  exists k', donate_priority donate_state = Ret k' /\ donated 35 [0xC0101000; main_page] donate_state k'.
Proof.
  assert (Ht : exists t, thread_current donate_state = Ret t /\ priority t = 35).
  { exists (match thread_current donate_state with Ret t => t | _ => mkThread 0 THREAD_BLOCKED 0 0 0 [] 0 [] 0 0 0 [] end).
    split; vm_compute; reflexivity. }
  destruct Ht as (t & Ht & Hp).
  assert (Hrun : running_thread donate_state = 0xC0102000) by (vm_compute; reflexivity).
  destruct (donate_priority_chain donate_state t [0xC0101000; main_page] Ht) as (k' & E & Hd).
  - rewrite Hrun. eapply chain_cons; [vm_compute; reflexivity|vm_compute; discriminate|vm_compute; reflexivity|discriminate|].
    eapply chain_cons; [vm_compute; reflexivity|vm_compute; discriminate|vm_compute; reflexivity|discriminate|].
    eapply chain_end; vm_compute; reflexivity.
  - exists k'. split; [exact E|]. rewrite Hp in Hd.
    assert (Hds : donees 35 donate_state (take 8 [0xC0101000; main_page]) = [0xC0101000; main_page]) by (vm_compute; reflexivity).
    rewrite Hds in Hd. exact Hd.
Defined.

(** ** Sleep *)

Definition tick_of (k : kernel) (p : Z) : Z := from_option morning_tick 0 (threads k !! p).

(** Unblocking a thread that does not preempt the running one. *)
Lemma unblock_quiet t th cur k : threads k !! t = Some th -> status th = THREAD_BLOCKED -> t <> NULL ->
  threads k !! running_thread k = Some cur -> status cur = THREAD_RUNNING -> running_thread k <> NULL ->
  level k = INTR_OFF ->
  running_thread k = idle_thread k \/ priority th <= priority cur ->
  thread_unblock t k =
  Ret (intr_disable (set_threads (<[t := set_status THREAD_READY th]> (threads k)) (ready_insert t (intr_disable k)))).
Proof.
  intros Ht Hst Hn Hc Hcs Hrn Hl Hq. unfold thread_unblock, is_thread.
  rewrite bool_decide_eq_true_2, (bool_decide_eq_true_2 (is_Some _)) by (done || eauto). cbn [andb assert_ rbind].
  unfold get_thread at 1. simpl. rewrite Ht. cbn [of_opt rbind]. rewrite bool_decide_eq_true_2 by done. cbn [assert_ rbind].
  unfold upd_thread, get_thread at 1. simpl. rewrite Ht. cbn [of_opt rbind].
  assert (Hne : running_thread k <> t) by congruence.
  unfold thread_current, is_thread, get_thread. simpl. rewrite lookup_insert_ne, Hc by done.
  rewrite bool_decide_eq_true_2, (bool_decide_eq_true_2 (is_Some _)) by (done || eauto). cbn [andb assert_ rbind of_opt].
  rewrite bool_decide_eq_true_2 by done. cbn [assert_ rbind].
  unfold intr_get_level. rewrite Hl. destruct Hq as [Hq|Hq].
  - rewrite bool_decide_eq_false_2 by (intros E; by apply E). done.
  - rewrite (bool_decide_eq_false_2 (priority th > _)) by lia. by rewrite andb_false_r.
Qed.

Lemma filter_all (P : Z -> Prop) `{!forall x, Decision (P x)} (l : list Z) :
  (forall x, x ∈ l -> P x) -> filter P l = l.
Proof.
  induction l as [|x l IH]; intros Hx; [done|]. rewrite filter_cons_True by (apply Hx; set_solver).
  f_equal. apply IH. intros y Hy. apply Hx. set_solver.
Qed.

Lemma filter_none (P : Z -> Prop) `{!forall x, Decision (P x)} (l : list Z) :
  (forall x, x ∈ l -> ~ P x) -> filter P l = [].
Proof.
  induction l as [|x l IH]; intros Hx; [done|]. rewrite filter_cons_False by (apply Hx; set_solver).
  apply IH. intros y Hy. apply Hx. set_solver.
Qed.

Lemma wakeup_loop_ok n : forall k now cur, inv k -> threads k !! running_thread k = Some cur ->
  running_thread k <> NULL -> level k = INTR_OFF -> (length (sleeping_list k) < n)%nat ->
  StronglySorted (fun a b => tick_of k a <= tick_of k b) (sleeping_list k) ->
  (forall p, p ∈ sleeping_list k -> p <> NULL /\ (tick_of k p <= now ->
     running_thread k = idle_thread k \/ prio_of k p <= priority cur)) ->
  exists k', wakeup_loop n now k = Ret k' /\ running_thread k' = running_thread k /\
    sleeping_list k' = filter (fun p => now < tick_of k p) (sleeping_list k) /\
    ready_list k' ≡ₚ filter (fun p => tick_of k p <= now) (sleeping_list k) ++ ready_list k.
Proof.
  induction n as [|n IH]; intros k now cur Hi Hc Hrn Hl Hn Hs Hq; [lia|]. simpl.
  destruct (sleeping_list k) as [|p rest] eqn:E.
  { exists k. split_and!; done. }
  inversion_clear Hs as [|? ? Hs' Hall]. destruct (Hq p ltac:(set_solver)) as [Hpn Hpq].
  pose proof Hi as [[_ _ Hnd _ Hbl _ _ _ _ _ _] Hrun].
  assert (Hin : p ∈ vq (view_of k) None) by (simpl; rewrite E; set_solver).
  destruct (Hbl _ _ Hin) as [Hst Hpid]. simpl in Hst. apply fmap_Some in Hst as (th & Hth & Hst).
  pose proof (Hnd None) as Hnp. simpl in Hnp. rewrite E in Hnp. apply NoDup_cons in Hnp as [Hnp _].
  assert (Hcs : status cur = THREAD_RUNNING).
  { pose proof (proj2 (Hrun (running_thread k)) eq_refl) as Hr. simpl in Hr. rewrite Hc in Hr. by injection Hr as Hr. }
  assert (Htp : tick_of k p = morning_tick th) by (unfold tick_of; by rewrite Hth).
  unfold get_thread. rewrite Hth. cbn [of_opt rbind]. case_bool_decide as Hdue.
  - assert (Hub := unblock_quiet p th cur (set_sleeping_list rest k) Hth (eq_sym Hst) Hpn Hc Hcs Hrn Hl).
    specialize (Hpq ltac:(lia)). unfold prio_of in Hpq. rewrite Hth in Hpq. specialize (Hub Hpq).
    pose proof (wake_one_inv _ _ _ _ E Hub Hi) as Hi1. rewrite Hub. cbn [rbind]. clear Hub.
    set (k1 := intr_disable _) in *.
    assert (Htk : forall q, tick_of k1 q = tick_of k q).
    { intros q. unfold tick_of, k1. simpl. destruct (decide (q = p)) as [->|];
        [by rewrite lookup_insert_eq, Hth|by rewrite lookup_insert_ne]. }
    assert (Hpk : forall q, prio_of k1 q = prio_of k q).
    { intros q. unfold prio_of, k1. simpl. destruct (decide (q = p)) as [->|];
        [by rewrite lookup_insert_eq, Hth|by rewrite lookup_insert_ne]. }
    assert (Hrp : running_thread k <> p) by congruence.
    destruct (IH k1 now cur) as (k' & -> & Hr' & Hsl & Hrd).
    + done.
    + unfold k1. simpl. by rewrite lookup_insert_ne.
    + done.
    + done.
    + unfold k1. simpl. simpl in Hn. lia.
    + unfold k1. simpl. eapply StronglySorted_ext_in; [|exact Hs']. intros a b _ _. fold k1. by rewrite !Htk.
    + unfold k1. simpl. fold k1. intros q Hqr. rewrite Htk, Hpk. apply Hq. set_solver.
    + exists k'. split_and!; [done|by rewrite Hr'| |].
      * rewrite Hsl. unfold k1. simpl. fold k1. rewrite filter_cons_False by lia.
        apply list_filter_iff. intros q. by rewrite Htk.
      * assert (Hf : filter (fun q => tick_of k1 q <= now) rest = filter (fun q => tick_of k q <= now) rest).
        { apply list_filter_iff. intros q. by rewrite Htk. }
        rewrite Hrd. change (sleeping_list k1) with rest. rewrite Hf, filter_cons_True by lia.
        unfold k1. cbn [intr_disable set_intr set_threads ready_insert set_ready_list ready_list].
        rewrite insert_ordered_perm. simpl. by rewrite Permutation_middle.
  - exists k. rewrite Forall_forall in Hall.
    assert (Hlate : forall q, q ∈ p :: rest -> now < tick_of k q).
    { intros q [->|Hq']%elem_of_cons; [lia|]. specialize (Hall q Hq'). lia. }
    split_and!; [done|done| |].
    + rewrite E. symmetry. by apply filter_all.
    + rewrite (filter_none _ (p :: rest)); [done|]. intros q Hq'. specialize (Hlate q Hq'). lia.
Qed.

(** The timer interrupt wakes sleepers on time: from a reachable state with
    the sleeping list in order of wake-up time, thread_to_wakeup makes ready
    exactly the threads whose time has come, none earlier, and keeps the others
    in order, as long as none of the woken threads has a higher priority than the
    interrupted one. *)
Theorem wakeup_exact k now cur : rtc step boot k -> threads k !! running_thread k = Some cur ->
  running_thread k <> NULL ->
  StronglySorted (fun a b => tick_of k a <= tick_of k b) (sleeping_list k) ->
  (forall p, p ∈ sleeping_list k -> p <> NULL /\ (tick_of k p <= now ->
     running_thread k = idle_thread k \/ prio_of k p <= priority cur)) ->
  exists k', thread_to_wakeup now (intr_disable k) = Ret k' /\ running_thread k' = running_thread k /\
    sleeping_list k' = filter (fun p => now < tick_of k p) (sleeping_list k) /\
    ready_list k' ≡ₚ filter (fun p => tick_of k p <= now) (sleeping_list k) ++ ready_list k.
Proof.
  intros Hr Hc Hn Hs Hq. unfold thread_to_wakeup.
  apply (wakeup_loop_ok _ (intr_disable k) now cur); try done.
  - exact (reachable_inv k Hr).
  - simpl. lia.
Qed.

(** Two sleepers of the default priority, to be woken at ticks 2 and 7. *)
Definition sleep_run : list action :=
  create 0xC0101000 31 ++ ARun :: create 0xC0102000 31 ++ ARun :: [ACall OYield; ARun; ACall (OSleep 7); ARun; ACall (OSleep 2)].
Definition sleep_state : kernel := end_of sleep_run boot.

Lemma wakeup_exact_witness :
  exists k', thread_to_wakeup 3 (intr_disable sleep_state) = Ret k' /\ running_thread k' = running_thread sleep_state /\
    sleeping_list k' = [0xC0101000] /\ ready_list k' ≡ₚ [0xC0102000].
Proof.
  assert (Hreach : rtc step boot sleep_state) by (apply end_of_steps; vm_compute; reflexivity).
  assert (Hsl : sleeping_list sleep_state = [0xC0102000; 0xC0101000]) by (vm_compute; reflexivity).
  assert (Hc : exists c, threads sleep_state !! running_thread sleep_state = Some c /\ priority c = 31).
  { eexists; split; vm_compute; reflexivity. }
  destruct Hc as (c & Hc & Hp).
  destruct (wakeup_exact sleep_state 3 c Hreach Hc) as (k' & Hk & Hr & Hs & Hrd).
  - vm_compute; discriminate.
  - rewrite Hsl. repeat constructor; vm_compute; discriminate.
  - rewrite Hsl, Hp. intros p Hin. apply elem_of_cons in Hin as [->|Hin]; [|apply list_elem_of_singleton in Hin as ->];
      (split; [discriminate|intros _; right; vm_compute; discriminate]).
  - exists k'. split; [exact Hk|]. split; [exact Hr|]. rewrite Hsl in Hs, Hrd. split; [rewrite Hs|rewrite Hrd];
      vm_compute; reflexivity.
Defined.

(** ** Failures of the synchronization code *)

(** A thread of priority 40 sleeps for one tick while main (31) runs. *)
Definition preempt_run : list action := create_run 0xC0101000 40 [ACall (OSleep 1)].

(** The timer interrupt can bring the kernel down: thread_unblock yields to a
    woken thread of higher priority, and thread_yield asserts that it is not
    called in interrupt context.  In a reachable state with interrupts on, the next
    tick fails that assertion. *)
Theorem timer_wakeup_panics : exists k, rtc step boot k /\ level k = INTR_ON /\ intr_handler k = Panic.
Proof.
  exists (end_of preempt_run boot). split; [apply end_of_steps; vm_compute; reflexivity|].
  split; vm_compute; reflexivity.
Qed.

(** Main holds locks 100, 200 and 300; priority 33 waits for 300, priority 40 for
    100; main releases 200. *)
Definition inversion_run : list action :=
  [ACall (OLockInit 100); ACall (OLockInit 200); ACall (OLockInit 300);
   ACall (OLockAcquire 100); ACall (OLockAcquire 200); ACall (OLockAcquire 300)] ++
  create 0xC0101000 33 ++ [ARun; ACall (OLockAcquire 300); ARun; ARun; ARun] ++
  create 0xC0102000 40 ++ [ARun; ACall (OLockAcquire 100); ARun; ARun; ARun] ++
  [ACall (OLockRelease 200); ARun; ARun; ARun].

(** Releasing one of several locks can lose a donation: restore_priority keeps
    the priority of the donor whose lock has the highest address, not of the one
    with the highest priority.  In a reachable state a thread of priority 40 waits
    for a lock whose holder, running its own code, has priority 33. *)
Theorem restore_priority_loses_donation : exists k t sm, rtc step boot k /\
  threads k !! running_thread k = Some t /\ frames t = [] /\ priority t = 33 /\
  locks k !! 100 = Some (running_thread k) /\
  semas k !! LockSema 100 = Some sm /\ waiters sm = [0xC0102000] /\ prio_of k 0xC0102000 = 40.
Proof.
  exists (end_of inversion_run boot).
  eexists _, _. split; [apply end_of_steps; vm_compute; reflexivity|].
  repeat (split; [vm_compute; reflexivity|]). vm_compute; reflexivity.
Qed.

(** Signalling a condition variable can bring the kernel down: a thread is put
    on the list of waiters before it waits on its semaphore, and sorting the list
    takes the front of every waiter's semaphore.  In a reachable state whose running
    thread holds the lock, cond_signal fails the assertion of list_front. *)
Theorem cond_signal_panics : exists k t, rtc step boot k /\
  threads k !! running_thread k = Some t /\ frames t = [] /\
  locks k !! 100 = Some (running_thread k) /\ cond_signal 300 100 k = Panic.
Proof.
  exists (end_of (ACall (OLockInit 100) :: ACall (OCondInit 300) :: ACall (OSetPriority 50) :: ARun ::
    create 0xC0101000 33 ++ ARun :: create 0xC0102000 33 ++ ARun :: create 0xC0103000 33 ++ ARun ::
    ACall (OSleep 100) ::
    ARun :: ACall (OLockAcquire 100) :: ACall (OCondWait 300 100 1) :: ARun :: ARun :: ARun :: ARun ::
    ARun :: ACall (OLockAcquire 100) :: ACall (OCondWait 300 100 2) :: ARun :: ARun :: ARun ::
    AIntr :: ARun :: AIntr :: ARun :: AIntr :: ARun :: AIntr :: ARun :: [ACall (OLockAcquire 100)]) boot).
  eexists. split; [apply end_of_steps; vm_compute; reflexivity|].
  repeat (split; [vm_compute; reflexivity|]). vm_compute; reflexivity.
Qed.
