(* ===== verification/Hash.v ===== *)
(** * lib/kernel/hash.c: chained hash tables

    A table is its bucket array, each bucket the sequence of its elements; an
    element is the address of its [hash_elem].  The functions [hash] and [less] of
    the table and the outcome of [malloc] are parameters. *)

From S2P Require Import Prelude ListSpec.

(** ** Operations *)

Definition FNV_32_PRIME : Z := 16777619.
Definition FNV_32_BASIS : Z := 2166136261.

Definition hash_bytes (buf : list Z) : Z :=
  foldl (fun hash b => Z.lxor (u32 (hash * FNV_32_PRIME)) b) FNV_32_BASIS buf.

(** [s] is the string without its terminator. *)
Definition hash_string (s : list Z) : Z :=
  foldl (fun hash b => Z.lxor (u32 (hash * FNV_32_PRIME)) b) FNV_32_BASIS s.

(** The four bytes of an [int], lowest first. *)
Definition hash_int (i : Z) : Z :=
  hash_bytes [u8 i; u8 (Z.shiftr i 8); u8 (Z.shiftr i 16); u8 (Z.shiftr i 24)].

Definition turn_off_least_1bit (x : Z) : Z := Z.land x (u32 (x - 1)).
Definition is_power_of_2 (x : Z) : bool :=
  bool_decide (x <> 0) && bool_decide (turn_off_least_1bit x = 0).

Definition MIN_ELEMS_PER_BUCKET : Z := 1.
Definition BEST_ELEMS_PER_BUCKET : Z := 2.
Definition MAX_ELEMS_PER_BUCKET : Z := 4.

Record hash_table := mkHash { elem_cnt : Z; bucket_cnt : Z; buckets : list (list Z) }.

Section Hash.
Context (hash : Z -> Z) (less : Z -> Z -> bool).

Definition hash_clear (h : hash_table) : hash_table :=
  mkHash 0 (bucket_cnt h) (replicate (Z.to_nat (bucket_cnt h)) []).

(** The elements in the order in which a destructor sees them. *)
Definition hash_clear_order (h : hash_table) : list Z := concat (buckets h).

(** [None] when [malloc] fails. *)
Definition hash_init (malloc_ok : bool) : option hash_table :=
  if malloc_ok then Some (hash_clear (mkHash 0 4 (replicate 4 []))) else None.

(** The index of the bucket. *)
Definition find_bucket (h : hash_table) (e : Z) : Z := Z.land (hash e) (u32 (bucket_cnt h - 1)).

Fixpoint find_elem (bucket : list Z) (e : Z) : option Z :=
  match bucket with
  | [] => None
  | hi :: rest => if negb (less hi e) && negb (less e hi) then Some hi else find_elem rest e
  end.

Definition insert_elem (h : hash_table) (i e : Z) : res hash_table :=
  let! b := aget (buckets h) i in
  let! bs := aset (buckets h) i (e :: b) in
  Ret (mkHash (u32 (elem_cnt h + 1)) (bucket_cnt h) bs).

(** [list_remove] finds the element by its own links; it is in bucket [i]. *)
Definition remove_elem (h : hash_table) (i e : Z) : res hash_table :=
  let! b := aget (buckets h) i in
  let! bs := aset (buckets h) i (filter (fun x => x <> e) b) in
  Ret (mkHash (u32 (elem_cnt h - 1)) (bucket_cnt h) bs).

Definition new_bucket_cnt (cnt : Z) : res Z :=
  let n := cnt / BEST_ELEMS_PER_BUCKET in
  let n := if bool_decide (n < 4) then 4 else n in
  iter 33 (fun n => if is_power_of_2 n then Ret (inr n) else Ret (inl (turn_off_least_1bit n))) n.

(** Moving one element into the new array. *)
Definition move_elem (h : hash_table) (bs : list (list Z)) (e : Z) : res (list (list Z)) :=
  let i := find_bucket h e in
  let! b := aget bs i in
  aset bs i (e :: b).

Fixpoint move_elems (h : hash_table) (l : list Z) (bs : list (list Z)) : res (list (list Z)) :=
  match l with
  | [] => Ret bs
  | e :: l => let! bs := move_elem h bs e in move_elems h l bs
  end.

Definition rehash (malloc_ok : bool) (h : hash_table) : res hash_table :=
  let! n := new_bucket_cnt (elem_cnt h) in
  if bool_decide (n = bucket_cnt h) then Ret h
  else if negb malloc_ok then Ret h
  else
    let h' := mkHash (elem_cnt h) n (replicate (Z.to_nat n) []) in
    let! bs := move_elems h' (concat (buckets h)) (buckets h') in
    Ret (mkHash (elem_cnt h) n bs).

Definition hash_insert (malloc_ok : bool) (h : hash_table) (new : Z) : res (hash_table * option Z) :=
  let i := find_bucket h new in
  let! bucket := aget (buckets h) i in
  let old := find_elem bucket new in
  let! h := (match old with None => insert_elem h i new | Some _ => Ret h end) in
  let! h := rehash malloc_ok h in
  Ret (h, old).

Definition hash_replace (malloc_ok : bool) (h : hash_table) (new : Z) : res (hash_table * option Z) :=
  let i := find_bucket h new in
  let! bucket := aget (buckets h) i in
  let old := find_elem bucket new in
  let! h := (match old with Some o => remove_elem h i o | None => Ret h end) in
  let! h := insert_elem h i new in
  let! h := rehash malloc_ok h in
  Ret (h, old).

Definition hash_find (h : hash_table) (e : Z) : res (option Z) :=
  let! bucket := aget (buckets h) (find_bucket h e) in
  Ret (find_elem bucket e).

Definition hash_delete (malloc_ok : bool) (h : hash_table) (e : Z) : res (hash_table * option Z) :=
  let i := find_bucket h e in
  let! bucket := aget (buckets h) i in
  match find_elem bucket e with
  | Some found =>
      let! h := remove_elem h i found in
      let! h := rehash malloc_ok h in
      Ret (h, Some found)
  | None => Ret (h, None)
  end.

(** [action] acts on a state of its own. *)
Definition hash_apply {S : Type} (action : Z -> S -> S) (h : hash_table) (s : S) : S :=
  foldl (fun s e => action e s) s (concat (buckets h)).

(** *** Iteration

    The current bucket, and the position in it of the current element: [-1] is the
    list's head, where [hash_first] starts; [None] is the null pointer at the end. *)
Record hash_iterator := mkIter { it_bucket : Z; it_elem : option Z }.

Definition hash_first (h : hash_table) : hash_iterator := mkIter 0 (Some (-1)).

(** The element an iterator points to. *)
Definition hash_cur (h : hash_table) (i : hash_iterator) : option Z :=
  match it_elem i with
  | Some p => buckets h !! Z.to_nat (it_bucket i) ≫= fun b => b !! Z.to_nat p
  | None => None
  end.

(** One round of the loop over the end of the bucket: [inr] when it is left. *)
Definition hash_next_round (h : hash_table) (i : hash_iterator) : res (hash_iterator + hash_iterator) :=
  match it_elem i with
  | None => Ub
  | Some p =>
      let! b := aget (buckets h) (it_bucket i) in
      if bool_decide (p = Z.of_nat (length b)) then
        let n := it_bucket i + 1 in
        if bool_decide (n >= bucket_cnt h) then Ret (inr (mkIter n None)) else Ret (inl (mkIter n (Some 0)))
      else Ret (inr i)
  end.

Definition hash_next (h : hash_table) (i : hash_iterator) : res (hash_iterator * option Z) :=
  match it_elem i with
  | None => Ub
  | Some p =>
      let! i := iter (S (Z.to_nat (bucket_cnt h))) (hash_next_round h) (mkIter (it_bucket i) (Some (p + 1))) in
      Ret (i, hash_cur h i)
  end.

Definition hash_size (h : hash_table) : Z := elem_cnt h.
Definition hash_empty (h : hash_table) : bool := bool_decide (elem_cnt h = 0).
End Hash.
