(* ===== verification/HashProof.v ===== *)
(** * Hash tables implement sets of pairwise different elements *)

From S2P Require Import Prelude ListSpec Hash.

(** ** The number of buckets *)

(** Halving: an odd number loses its last bit, an even one passes to its half. *)
Lemma land_odd_pred a : 0 <= a -> Z.land (2 * a + 1) (2 * a) = 2 * a.
Proof.
  intros Ha. apply Z.bits_inj'. intros i Hi. rewrite Z.land_spec.
  destruct (decide (i = 0)) as [->|Hne]; [by rewrite Z.testbit_even_0, andb_false_r|].
  replace i with (Z.succ (i - 1)) by lia. rewrite Z.testbit_odd_succ, Z.testbit_even_succ by lia. apply andb_diag.
Qed.

Lemma land_even_pred a : 0 < a -> Z.land (2 * a) (2 * a - 1) = 2 * Z.land a (a - 1).
Proof.
  intros Ha. apply Z.bits_inj'. intros i Hi. rewrite Z.land_spec.
  replace (2 * a - 1) with (2 * (a - 1) + 1) by lia.
  destruct (decide (i = 0)) as [->|Hne]; [by rewrite !Z.testbit_even_0|].
  replace i with (Z.succ (i - 1)) by lia. rewrite Z.testbit_odd_succ, !Z.testbit_even_succ by lia.
  by rewrite Z.land_spec.
Qed.

(** The number of one bits. *)
Fixpoint ones (p : positive) : nat :=
  match p with xI p => S (ones p) | xO p => ones p | xH => 1 end.

(** Turning off the lowest one bit of a power of two gives zero; of any other
    number, a number of the same length with one bit less. *)
Lemma land_pred_pos p :
  (Z.land (Z.pos p) (Z.pos p - 1) = 0 /\ Z.pos p = 2 ^ Z.log2 (Z.pos p)) \/
  exists q, Z.land (Z.pos p) (Z.pos p - 1) = Z.pos q /\ Z.log2 (Z.pos q) = Z.log2 (Z.pos p) /\ S (ones q) = ones p.
Proof.
  induction p as [p _|p IH|]; [right| |by left].
  - exists (xO p). replace (Z.pos p~1 - 1) with (2 * Z.pos p) by lia.
    replace (Z.pos p~1) with (2 * Z.pos p + 1) by lia. rewrite land_odd_pred by lia.
    split_and!; [done| |done]. by rewrite Z.log2_succ_double, <- Z.log2_double by lia.
  - replace (Z.pos p~0) with (2 * Z.pos p) by lia. rewrite land_even_pred, Z.log2_double by lia.
    destruct IH as [[-> IH]|(q & -> & IH2 & IH3)]; [left|right].
    + split; [done|]. rewrite Z.pow_succ_r by apply Z.log2_nonneg. lia.
    + exists (xO q). split_and!; [done| |done]. replace (Z.pos q~0) with (2 * Z.pos q) by lia.
      rewrite Z.log2_double by lia. by rewrite IH2.
Qed.

Lemma ones_log2 p : Z.of_nat (ones p) <= Z.log2 (Z.pos p) + 1.
Proof.
  induction p as [p IH|p IH|]; [| |done].
  - replace (Z.pos p~1) with (2 * Z.pos p + 1) by lia. rewrite Z.log2_succ_double by lia. simpl ones. lia.
  - replace (Z.pos p~0) with (2 * Z.pos p) by lia. rewrite Z.log2_double by lia. simpl ones. lia.
Qed.

Lemma power_loop fuel p : Z.pos p < 2 ^ 32 -> (ones p <= fuel)%nat ->
  iter fuel (fun n => if is_power_of_2 n then Ret (inr n) else Ret (inl (turn_off_least_1bit n))) (Z.pos p)
  = Ret (2 ^ Z.log2 (Z.pos p)).
Proof.
  revert p; induction fuel as [|fuel IH]; intros p Hp Hf.
  { destruct p; simpl in Hf; try lia. assert (0 < ones p)%nat by (clear; induction p; simpl; lia). lia. }
  cbn [iter]. unfold is_power_of_2. rewrite bool_decide_eq_true_2 by lia. cbn [andb].
  assert (Et : turn_off_least_1bit (Z.pos p) = Z.land (Z.pos p) (Z.pos p - 1)).
  { unfold turn_off_least_1bit. by rewrite u32_small by lia. }
  rewrite Et. destruct (land_pred_pos p) as [[-> E]|(q & -> & Hl & Ho)].
  - rewrite bool_decide_eq_true_2 by done. cbn [rbind]. f_equal. exact E.
  - rewrite bool_decide_eq_false_2 by lia. cbn [rbind]. rewrite <- Hl. apply IH; [|lia].
    pose proof (Z.log2_lt_pow2 (Z.pos q) 32 ltac:(lia)). pose proof (Z.log2_lt_pow2 (Z.pos p) 32 ltac:(lia)). lia.
Qed.

Lemma new_bucket_cnt_ok cnt : 0 <= cnt < 2 ^ 32 ->
  exists n, 2 <= n <= 31 /\ new_bucket_cnt cnt = Ret (2 ^ n).
Proof.
  intros Hc. unfold new_bucket_cnt, BEST_ELEMS_PER_BUCKET. set (n := if bool_decide _ then _ else _).
  assert (Hn : 4 <= n < 2 ^ 31).
  { unfold n. case_bool_decide; [lia|]. split; [lia|]. apply Z.div_lt_upper_bound; lia. }
  clearbody n. destruct n as [|p|p]; try lia. exists (Z.log2 (Z.pos p)). split.
  - split; [apply Z.log2_le_pow2; lia|]. enough (Z.log2 (Z.pos p) < 31) by lia. apply Z.log2_lt_pow2; lia.
  - apply power_loop; [lia|]. pose proof (ones_log2 p).
    assert (Z.log2 (Z.pos p) < 31) by (apply Z.log2_lt_pow2; lia). lia.
Qed.

(** ** Bucket arrays *)

Section Buckets.
Implicit Types (bs : list (list Z)) (b : list Z).

Lemma concat_update bs n b b' : bs !! n = Some b ->
  exists l r, concat bs = l ++ b ++ r /\ concat (<[n := b']> bs) = l ++ b' ++ r.
Proof.
  intros Hb. pose proof (lookup_lt_Some _ _ _ Hb). exists (concat (take n bs)), (concat (drop (S n) bs)). split.
  - rewrite <- (take_drop_middle bs n b Hb) at 1. by rewrite concat_app.
  - rewrite insert_take_drop by done. by rewrite concat_app.
Qed.

Lemma concat_push bs n b e : bs !! n = Some b -> concat (<[n := e :: b]> bs) ≡ₚ e :: concat bs.
Proof.
  intros Hb. destruct (concat_update bs n b (e :: b) Hb) as (l & r & -> & ->). simpl.
  by rewrite <- Permutation_middle.
Qed.

Lemma concat_elem bs n b e : bs !! n = Some b -> e ∈ b -> e ∈ concat bs.
Proof. intros Hb He. destruct (concat_update bs n b b Hb) as (l & r & -> & _). set_solver. Qed.

Lemma concat_elem_inv bs e : e ∈ concat bs -> exists n b, bs !! n = Some b /\ e ∈ b.
Proof.
  induction bs as [|b bs IH]; simpl; [by intros ?%elem_of_nil|]. rewrite elem_of_app. intros [H|H].
  - by exists 0%nat, b.
  - destruct (IH H) as (n & b' & Hn & Hb'). by exists (S n), b'.
Qed.
End Buckets.

(** ** What a client supplies *)

(** Equal elements hash alike; [hash] returns an [unsigned]. *)
Class HashFunctions (hash : Z -> Z) (less : Z -> Z -> bool) : Prop := {
  hf_weak :: StrictWeak less;
  hf_hash : forall x y, eqv less x y = true -> hash x = hash y;
  hf_range : forall x, is_u32 (hash x)
}.

Section Table.
Context (hash : Z -> Z) (less : Z -> Z -> bool) `{!HashFunctions hash less}.
Implicit Types (h : hash_table).
Local Abbreviation eqv := (eqv less).
Local Abbreviation find_bucket := (find_bucket hash).
Local Abbreviation find_elem := (find_elem less).

Lemma eqv_refl x : eqv x x = true.
Proof. unfold ListSpec.eqv. destruct (less x x) eqn:E; [|done]. pose proof (sw_asym _ _ E). congruence. Qed.

Lemma eqv_sym x y : eqv x y = eqv y x.
Proof. unfold ListSpec.eqv. apply andb_comm. Qed.

Lemma eqv_trans x y z : eqv x y = true -> eqv y z = true -> eqv x z = true.
Proof.
  unfold ListSpec.eqv. rewrite !andb_true_iff, !negb_true_iff. intros [H1 H2] [H3 H4]. split.
  - exact (sw_trans (less := less) _ _ _ H3 H1).
  - exact (sw_trans (less := less) _ _ _ H2 H4).
Qed.

Definition elems h : list Z := concat (buckets h).

(** Pairwise different elements. *)
Definition distinct (l : list Z) : Prop :=
  NoDup l /\ forall x y, x ∈ l -> y ∈ l -> eqv x y = true -> x = y.

#[local] Instance distinct_proper : Proper (Permutation ==> iff) distinct.
Proof.
  intros l1 l2 E. unfold distinct. rewrite E.
  split; intros [? H]; (split; [done|]); intros x y Hx Hy; apply H; first [by rewrite E | by rewrite <- E].
Qed.

Record hwf h : Prop := {
  hwf_cnt : exists n, 2 <= n <= 31 /\ bucket_cnt h = 2 ^ n;
  hwf_len : Z.of_nat (length (buckets h)) = bucket_cnt h;
  hwf_place : forall i b e, buckets h !! i = Some b -> e ∈ b -> find_bucket h e = Z.of_nat i;
  hwf_size : elem_cnt h = Z.of_nat (length (elems h));
  hwf_small : elem_cnt h < 2 ^ 32;
  hwf_distinct : distinct (elems h)
}.

Lemma find_bucket_mod n cnt bs e : 2 <= n <= 31 -> find_bucket (mkHash cnt (2 ^ n) bs) e = hash e mod 2 ^ n.
Proof.
  intros Hn. unfold Hash.find_bucket. simpl.
  assert (0 < 2 ^ n) by lia. assert (2 ^ n <= 2 ^ 31) by (apply Z.pow_le_mono_r; lia).
  rewrite u32_small by lia. rewrite <- Z.land_ones by lia. f_equal. rewrite Z.ones_equiv. lia.
Qed.

Lemma find_bucket_range h e : (exists n, 2 <= n <= 31 /\ bucket_cnt h = 2 ^ n) ->
  0 <= find_bucket h e < bucket_cnt h.
Proof.
  intros (n & Hn & E). destruct h as [c k bs]; simpl in *; subst k. rewrite find_bucket_mod by done.
  apply Z.mod_pos_bound. lia.
Qed.

Lemma find_bucket_get h e : hwf h -> exists b, aget (buckets h) (find_bucket h e) = Ret b /\
  buckets h !! Z.to_nat (find_bucket h e) = Some b.
Proof.
  intros [Hc Hl _ _ _ _]. apply aget_in_range. rewrite Hl. by apply find_bucket_range.
Qed.

(** ** Lookup *)

Lemma find_elem_spec b e : match find_elem b e with
  | Some x => x ∈ b /\ eqv x e = true
  | None => forall x, x ∈ b -> eqv x e = false
  end.
Proof.
  induction b as [|y b IH]; simpl; [by intros x ?%elem_of_nil|].
  destruct (negb (less y e) && negb (less e y)) eqn:E.
  - split; [set_solver|done].
  - destruct (find_elem b e).
    + destruct IH. split; [set_solver|done].
    + intros x [->|Hx]%elem_of_cons; [done|auto].
Qed.

(** The reference: the element of a list that equals [e]. *)
Definition lookup_eq (l : list Z) (e : Z) : option Z := List.find (fun x => eqv x e) l.

Lemma lookup_eq_spec l e : match lookup_eq l e with
  | Some x => x ∈ l /\ eqv x e = true
  | None => forall x, x ∈ l -> eqv x e = false
  end.
Proof.
  unfold lookup_eq. destruct (List.find _ l) eqn:E.
  - apply find_some in E as [Hin ?]. by apply list_elem_of_In in Hin.
  - intros x Hx. apply list_elem_of_In in Hx. by apply (find_none _ _ E).
Qed.

Lemma find_elem_lookup h e b l : hwf h -> buckets h !! Z.to_nat (find_bucket h e) = Some b ->
  elems h ≡ₚ l -> find_elem b e = lookup_eq l e.
Proof.
  intros [Hc Hl Hp _ _ [_ Hd]] Hb Hperm.
  pose proof (find_elem_spec b e) as H1. pose proof (lookup_eq_spec l e) as H2.
  assert (Hin : forall x, x ∈ l -> eqv x e = true -> x ∈ b).
  { intros x Hx Hex. rewrite <- Hperm in Hx. destruct (concat_elem_inv _ _ Hx) as (i & b' & Hi & Hb').
    pose proof (Hp i b' x Hi Hb') as Hpx. assert (E : find_bucket h x = find_bucket h e).
    { unfold Hash.find_bucket. by rewrite (hf_hash x e Hex). }
    rewrite Hpx in E. rewrite <- E, Nat2Z.id in Hb. congruence. }
  destruct (find_elem b e) as [x|], (lookup_eq l e) as [y|]; [| | |done].
  - destruct H1 as [Hx1 Hx2], H2 as [Hy1 Hy2]. f_equal. apply Hd.
    + by eapply concat_elem.
    + by rewrite Hperm.
    + eapply eqv_trans; [exact Hx2|]. by rewrite eqv_sym.
  - destruct H1 as [Hx1 Hx2]. rewrite (H2 x) in Hx2; [done|]. rewrite <- Hperm. by eapply concat_elem.
  - destruct H2 as [Hy1 Hy2]. rewrite (H1 y) in Hy2; [done|]. auto.
Qed.

(** ** Changing the number of buckets *)

Definition placed h (bs : list (list Z)) : Prop :=
  Z.of_nat (length bs) = bucket_cnt h /\
  forall i b e, bs !! i = Some b -> e ∈ b -> find_bucket h e = Z.of_nat i.

Lemma placed_push h bs i b e : placed h bs -> bs !! i = Some b -> find_bucket h e = Z.of_nat i ->
  placed h (<[i := e :: b]> bs).
Proof.
  intros [Hl Hp] Hb He. split; [by rewrite length_insert|]. intros j b' x Hj Hx.
  destruct (decide (j = i)) as [->|].
  - rewrite list_lookup_insert_eq in Hj by (by eapply lookup_lt_Some). simplify_eq.
    apply elem_of_cons in Hx as [->|Hx]; [done|by eapply Hp].
  - rewrite list_lookup_insert_ne in Hj by done. by eapply Hp.
Qed.

Lemma move_elems_ok h l bs : (exists n, 2 <= n <= 31 /\ bucket_cnt h = 2 ^ n) -> placed h bs ->
  exists bs', move_elems hash h l bs = Ret bs' /\ placed h bs' /\ concat bs' ≡ₚ l ++ concat bs.
Proof.
  intros Hc. revert bs; induction l as [|e l IH]; intros bs Hp; [by exists bs|]. simpl. unfold move_elem.
  pose proof (find_bucket_range h e Hc) as Hr. pose proof Hp as [Hl _].
  destruct (aget_in_range bs (find_bucket h e)) as (b & -> & Hb); [lia|]. cbn [rbind].
  rewrite aset_in_range by lia. cbn [rbind].
  destruct (IH (<[Z.to_nat (find_bucket h e) := e :: b]> bs)) as (bs' & -> & Hp' & Hperm).
  { apply placed_push; [done|done|lia]. }
  exists bs'. split_and!; [done|done|]. rewrite Hperm, (concat_push _ _ _ _ Hb). by rewrite <- Permutation_middle.
Qed.

Lemma concat_replicate_nil n : concat (replicate n (@nil Z)) = [].
Proof. by induction n. Qed.

Lemma rehash_ok ok h : hwf h -> exists h', rehash hash ok h = Ret h' /\ hwf h' /\ elems h' ≡ₚ elems h.
Proof.
  intros Hh. pose proof Hh as [Hc Hl Hp Hs Hsm Hd]. unfold rehash.
  destruct (new_bucket_cnt_ok (elem_cnt h)) as (n & Hn & ->); [lia|]. cbn [rbind].
  case_bool_decide; [by exists h|]. destruct ok; cbn [negb]; [|by exists h].
  set (h' := mkHash (elem_cnt h) (2 ^ n) _). assert (0 < 2 ^ n) by lia.
  destruct (move_elems_ok h' (concat (buckets h)) (buckets h')) as (bs & -> & [Hl' Hp'] & Hperm).
  - by exists n.
  - split; simpl; [rewrite length_replicate; lia|]. intros i b e Hi He.
    apply lookup_replicate in Hi as [-> _]. by apply elem_of_nil in He.
  - cbn [rbind]. simpl in Hperm. rewrite concat_replicate_nil, app_nil_r in Hperm.
    eexists; split; [done|]. split; [|exact Hperm]. split; simpl.
    + by exists n.
    + exact Hl'.
    + intros i b e Hi He. exact (Hp' i b e Hi He).
    + rewrite Hs. f_equal. unfold elems. simpl. by rewrite Hperm.
    + done.
    + unfold elems. simpl. by rewrite Hperm.
Qed.

(** ** Insertion into and removal from a bucket *)

Lemma distinct_cons l e : distinct l -> (forall x, x ∈ l -> eqv x e = false) -> distinct (e :: l).
Proof.
  intros [Hn Hd] He. split.
  - constructor; [|done]. intros Hin. specialize (He e Hin). by rewrite eqv_refl in He.
  - intros x y [->|Hx]%elem_of_cons [->|Hy]%elem_of_cons Hxy; [done| | |by apply Hd].
    + rewrite eqv_sym in Hxy. by rewrite (He y Hy) in Hxy.
    + by rewrite (He x Hx) in Hxy.
Qed.

Lemma distinct_filter l P `{!forall x, Decision (P x)} : distinct l -> distinct (filter P l).
Proof.
  intros [Hn Hd]. split; [by apply NoDup_filter|]. intros x y Hx Hy.
  apply list_elem_of_filter in Hx as [_ Hx]. apply list_elem_of_filter in Hy as [_ Hy]. by apply Hd.
Qed.

Lemma filter_absent (l : list Z) x : x ∉ l -> filter (fun y => y <> x) l = l.
Proof. intros Hx. apply filter_all_eq. intros y Hy ->. done. Qed.

Lemma filter_remove_length (l : list Z) x : NoDup l -> x ∈ l -> S (length (filter (fun y => y <> x) l)) = length l.
Proof.
  induction 1 as [|y l Hy Hn IH]; [by intros ?%elem_of_nil|]. intros Hx. rewrite filter_cons.
  destruct (decide (y <> x)) as [Hne|He].
  - simpl. rewrite IH; [done|]. set_solver.
  - apply dec_stable in He as ->. by rewrite filter_absent.
Qed.

Lemma insert_elem_ok h e : hwf h -> elem_cnt h + 1 < 2 ^ 32 -> (forall x, x ∈ elems h -> eqv x e = false) ->
  exists h', insert_elem h (find_bucket h e) e = Ret h' /\ hwf h' /\ elems h' ≡ₚ e :: elems h.
Proof.
  intros Hh Hsm' He. destruct (find_bucket_get h e Hh) as (b & Hg & Hb). pose proof Hh as [Hc Hl Hp Hs Hsm Hd].
  pose proof (find_bucket_range h e Hc). unfold insert_elem. rewrite Hg. cbn [rbind].
  rewrite aset_in_range by lia. cbn [rbind]. eexists; split; [done|].
  pose proof (concat_push _ _ _ e Hb) as Hperm. split; [|exact Hperm]. unfold elems in *. split; simpl.
  - done.
  - by rewrite length_insert.
  - destruct (placed_push h (buckets h) (Z.to_nat (find_bucket h e)) b e) as [_ H']; [done|done|lia|exact H'].
  - rewrite u32_small by lia. unfold elems. simpl. rewrite Hperm. simpl. lia.
  - by rewrite u32_small by lia.
  - unfold elems. simpl. rewrite Hperm. by apply distinct_cons.
Qed.

Lemma filter_concat_bucket (bs : list (list Z)) n b x : NoDup (concat bs) -> bs !! n = Some b -> x ∈ b ->
  concat (<[n := filter (fun y => y <> x) b]> bs) = filter (fun y => y <> x) (concat bs).
Proof.
  intros Hn Hb Hx. destruct (concat_update bs n b (filter (fun y => y <> x) b) Hb) as (l & r & E & ->).
  rewrite E in Hn |- *. rewrite !filter_app. apply NoDup_app in Hn as (Hl & Hbl & Hn).
  apply NoDup_app in Hn as (_ & Hbr & _).
  rewrite (filter_absent l), (filter_absent r); [done|by apply Hbr|]. intros Hxl. apply (Hbl x Hxl). set_solver.
Qed.

Lemma remove_elem_ok h e x b : hwf h -> buckets h !! Z.to_nat (find_bucket h e) = Some b -> x ∈ b ->
  exists h', remove_elem h (find_bucket h e) x = Ret h' /\ hwf h' /\ bucket_cnt h' = bucket_cnt h /\
    elem_cnt h' + 1 = elem_cnt h /\ elems h' = filter (fun y => y <> x) (elems h).
Proof.
  intros Hh Hb Hx. destruct (find_bucket_get h e Hh) as (b' & Hg & Hb').
  rewrite Hb in Hb'. injection Hb' as <-. pose proof Hh as [Hc Hl Hp Hs Hsm Hd].
  pose proof (find_bucket_range h e Hc). unfold remove_elem. rewrite Hg. cbn [rbind].
  rewrite aset_in_range by lia. cbn [rbind]. eexists; split; [done|].
  pose proof (filter_concat_bucket _ _ _ x (proj1 Hd) Hb Hx) as E.
  pose proof (filter_remove_length _ x (proj1 Hd) (concat_elem _ _ _ _ Hb Hx)) as El.
  unfold elems in *. simpl. split; [|split_and!].
  - split; simpl.
    + done.
    + by rewrite length_insert.
    + intros i b' z Hi Hz. destruct (decide (i = Z.to_nat (find_bucket h e))) as [->|].
      * rewrite list_lookup_insert_eq in Hi by (by eapply lookup_lt_Some). simplify_eq.
        apply list_elem_of_filter in Hz as [_ Hz]. exact (Hp _ _ _ Hb Hz).
      * rewrite list_lookup_insert_ne in Hi by done. exact (Hp _ _ _ Hi Hz).
    + unfold elems; simpl. rewrite u32_small by lia. rewrite E. lia.
    + rewrite u32_small; lia.
    + unfold elems; simpl. rewrite E. by apply distinct_filter.
  - done.
  - rewrite u32_small by lia. lia.
  - exact E.
Qed.

(** ** The abstract set *)

Inductive op := OInsert (ok : bool) (e : Z) | OReplace (ok : bool) (e : Z) | ODelete (ok : bool) (e : Z) | OFind (e : Z) | OClear.

(** What a call does to the set of elements, and what it returns. *)
Definition set_op (o : op) (s : list Z) : list Z * option Z :=
  match o with
  | OInsert _ e => match lookup_eq s e with Some x => (s, Some x) | None => (e :: s, None) end
  | OReplace _ e => match lookup_eq s e with Some x => (e :: filter (fun y => y <> x) s, Some x) | None => (e :: s, None) end
  | ODelete _ e => match lookup_eq s e with Some x => (filter (fun y => y <> x) s, Some x) | None => (s, None) end
  | OFind e => (s, lookup_eq s e)
  | OClear => ([], None)
  end.

Definition table_op (o : op) (h : hash_table) : res (hash_table * option Z) :=
  match o with
  | OInsert ok e => hash_insert hash less ok h e
  | OReplace ok e => hash_replace hash less ok h e
  | ODelete ok e => hash_delete hash less ok h e
  | OFind e => let! r := hash_find hash less h e in Ret (h, r)
  | OClear => Ret (hash_clear h, None)
  end.

Lemma hwf_clear h : hwf h -> hwf (hash_clear h).
Proof.
  intros [Hc Hl Hp Hs Hsm Hd]. split; unfold elems; simpl; rewrite ?concat_replicate_nil; try done.
  - rewrite length_replicate. destruct Hc as (n & ? & ->). lia.
  - intros i b e [-> _]%lookup_replicate He. by apply elem_of_nil in He.
  - split; [constructor|]. by intros x y ?%elem_of_nil.
Qed.

Lemma lookup_none_all h s e : elems h ≡ₚ s -> lookup_eq s e = None -> forall x, x ∈ elems h -> eqv x e = false.
Proof. intros E Hn x Hx. pose proof (lookup_eq_spec s e) as H. rewrite Hn in H. apply H. by rewrite <- E. Qed.

Lemma lookup_some_bucket b e x : find_elem b e = Some x -> x ∈ b /\ eqv x e = true.
Proof. intros E. pose proof (find_elem_spec b e) as H. by rewrite E in H. Qed.

(** After the equal element is gone, nothing equals [e]. *)
Lemma removed_none s e x : distinct s -> lookup_eq s e = Some x ->
  forall y, y ∈ filter (fun y => y <> x) s -> eqv y e = false.
Proof.
  intros [_ Hd] Hs y [Hne Hy]%list_elem_of_filter. pose proof (lookup_eq_spec s e) as Hsp.
  rewrite Hs in Hsp. destruct Hsp as [Hx1 Hx2].
  destruct (eqv y e) eqn:E; [|done]. destruct Hne. apply Hd; [done|done|].
  eapply eqv_trans; [exact E|]. by rewrite eqv_sym.
Qed.

Lemma table_op_ok o h s : hwf h -> elems h ≡ₚ s -> elem_cnt h + 1 < 2 ^ 32 ->
  exists h', table_op o h = Ret (h', (set_op o s).2) /\ hwf h' /\ elems h' ≡ₚ (set_op o s).1.
Proof.
  intros Hh Hs Hlt. assert (Hds : distinct s) by (rewrite <- Hs; apply Hh). destruct o as [ok e|ok e|ok e|e|]; simpl.
  5: { eexists; split; [done|]. split; [by apply hwf_clear|]. unfold elems; simpl. by rewrite concat_replicate_nil. }
  all: destruct (find_bucket_get h e Hh) as (b & Hg & Hb); pose proof (find_elem_lookup h e b s Hh Hb Hs) as Hf;
    unfold hash_insert, hash_replace, hash_delete, hash_find; rewrite Hg; cbn [rbind]; rewrite Hf;
    destruct (lookup_eq s e) as [x|] eqn:El; simpl.
  - destruct (rehash_ok ok h Hh) as (h' & -> & Hh' & E). eexists; split; [done|]. by rewrite E.
  - destruct (insert_elem_ok h e Hh Hlt (lookup_none_all h s e Hs El)) as (h1 & -> & Hh1 & E1). cbn [rbind].
    destruct (rehash_ok ok h1 Hh1) as (h' & -> & Hh' & E). eexists; split; [done|]. by rewrite E, E1, Hs.
  - destruct (lookup_some_bucket b e x Hf) as [Hxb _].
    destruct (remove_elem_ok h e x b Hh Hb Hxb) as (h1 & -> & Hh1 & Ec & Ek & E1). cbn [rbind].
    assert (Ef : find_bucket h e = find_bucket h1 e) by (unfold Hash.find_bucket; by rewrite Ec). rewrite Ef.
    assert (Es : elems h1 ≡ₚ filter (fun y => y <> x) s) by (by rewrite E1, Hs).
    destruct (insert_elem_ok h1 e Hh1) as (h2 & -> & Hh2 & E2); [lia| |].
    { intros y Hy. rewrite Es in Hy. by eapply removed_none. }
    cbn [rbind]. destruct (rehash_ok ok h2 Hh2) as (h' & -> & Hh' & E). eexists; split; [done|]. by rewrite E, E2, Es.
  - destruct (insert_elem_ok h e Hh Hlt (lookup_none_all h s e Hs El)) as (h1 & -> & Hh1 & E1). cbn [rbind].
    destruct (rehash_ok ok h1 Hh1) as (h' & -> & Hh' & E). eexists; split; [done|]. by rewrite E, E1, Hs.
  - destruct (lookup_some_bucket b e x Hf) as [Hxb _].
    destruct (remove_elem_ok h e x b Hh Hb Hxb) as (h1 & -> & Hh1 & Ec & Ek & E1). cbn [rbind].
    destruct (rehash_ok ok h1 Hh1) as (h' & -> & Hh' & E). eexists; split; [done|]. by rewrite E, E1, Hs.
  - by exists h.
  - by exists h.
  - by exists h.
Qed.

Lemma hash_init_ok : exists h, hash_init true = Some h /\ hwf h /\ elems h = [].
Proof.
  eexists; split; [done|]. split; [|done]. apply (hwf_clear (mkHash 0 4 (replicate 4 []))).
  split; unfold elems; simpl; try done.
  - by exists 2.
  - intros i b e Hi He. do 4 (destruct i as [|i]; [simpl in Hi; simplify_eq; by apply elem_of_nil in He|]). done.
  - split; [constructor|]. by intros x y ?%elem_of_nil.
Qed.

Fixpoint set_run (os : list op) (s : list Z) : list Z * list (option Z) :=
  match os with
  | [] => (s, [])
  | o :: os => let '(s, r) := set_op o s in let '(s, rs) := set_run os s in (s, r :: rs)
  end.

Fixpoint table_run (os : list op) (h : hash_table) : res (hash_table * list (option Z)) :=
  match os with
  | [] => Ret (h, [])
  | o :: os => let! '(h, r) := table_op o h in let! '(h, rs) := table_run os h in Ret (h, r :: rs)
  end.

Lemma set_op_grows o s : (length (set_op o s).1 <= S (length s))%nat.
Proof.
  destruct o; simpl; repeat case_match; simpl; try lia.
  all: pose proof (length_filter (fun y => y <> z) s); lia.
Qed.

Lemma table_run_ok os h s : hwf h -> elems h ≡ₚ s -> Z.of_nat (length s) + Z.of_nat (length os) < 2 ^ 32 ->
  exists h', table_run os h = Ret (h', (set_run os s).2) /\ hwf h' /\ elems h' ≡ₚ (set_run os s).1.
Proof.
  revert h s; induction os as [|o os IH]; intros h s Hh Hs Hlt; simpl; [by exists h|].
  simpl in Hlt. pose proof (hwf_size h Hh) as Hsz. rewrite Hs in Hsz.
  destruct (table_op_ok o h s Hh Hs) as (h1 & -> & Hh1 & E1); [lia|]. cbn [rbind].
  pose proof (set_op_grows o s). destruct (set_op o s) as [s1 r]. simpl in *.
  destruct (IH h1 s1 Hh1 E1) as (h2 & -> & Hh2 & E2); [lia|]. cbn [rbind].
  destruct (set_run os s1) as [s2 rs]. simpl in *. by exists h2.
Qed.

(** C30. A hash table is a set: from an initialised table, every series of
    [hash_insert], [hash_replace], [hash_delete], [hash_find] and [hash_clear]
    (fewer than [2^32] calls) runs without an error and returns what the same series
    returns on the set of elements, whatever [malloc] does when the bucket array is
    resized; at the end the table holds exactly the elements of the set, counts
    them, has a power of two of buckets, and each element is in the bucket its hash
    selects. *)
Theorem hash_refines_set h os : hash_init true = Some h -> Z.of_nat (length os) < 2 ^ 32 ->
  exists h', table_run os h = Ret (h', (set_run os []).2) /\
    hash_clear_order h' ≡ₚ (set_run os []).1 /\
    hash_size h' = Z.of_nat (length (set_run os []).1) /\
    hash_empty h' = bool_decide ((set_run os []).1 = []) /\
    distinct (set_run os []).1 /\
    (exists n, 2 <= n <= 31 /\ bucket_cnt h' = 2 ^ n) /\
    (forall i b e, buckets h' !! i = Some b -> e ∈ b -> find_bucket h' e = Z.of_nat i).
Proof.
  intros Hi Hlen. destruct hash_init_ok as (h0 & E0 & Hh & E). rewrite Hi in E0. injection E0 as <-.
  destruct (table_run_ok os h [] Hh) as (h' & E1 & Hh' & Hp); [by rewrite E|done|]. exists h'.
  set (s := (set_run os []).1) in *. pose proof Hh' as [Hc Hl Hpl Hs Hsm Hd]. rewrite Hp in Hs, Hd.
  split_and!; [done|exact Hp|exact Hs| |exact Hd|exact Hc|exact Hpl].
  unfold hash_empty. apply bool_decide_ext. rewrite Hs. destruct s; simpl; split; (done || lia).
Qed.
End Table.

(** ** Iteration *)

(** [while (hash_next (&i)) collect (hash_cur (&i));] *)
Fixpoint iterate (h : hash_table) (fuel : nat) (i : hash_iterator) : res (list Z) :=
  match fuel with
  | O => NoFuel
  | S fuel =>
      let! '(i, e) := hash_next h i in
      match e with Some e => let! l := iterate h fuel i in Ret (e :: l) | None => Ret [] end
  end.

Section Iterate.
Context (h : hash_table) (Hlen : Z.of_nat (length (buckets h)) = bucket_cnt h).

(** What the iterator has still to visit when it is at position [p] of bucket [n]. *)
Lemma next_loop fuel n p b : buckets h !! n = Some b -> (p <= length b)%nat ->
  (length (buckets h) - n < fuel)%nat ->
  exists i, iter fuel (hash_next_round h) (mkIter (Z.of_nat n) (Some (Z.of_nat p))) = Ret i /\
    ((it_elem i = None /\ drop p b ++ concat (drop (S n) (buckets h)) = []) \/
     exists n' p' b' e, i = mkIter (Z.of_nat n') (Some (Z.of_nat p')) /\ buckets h !! n' = Some b' /\ b' !! p' = Some e /\
       drop p b ++ concat (drop (S n) (buckets h)) = e :: drop (S p') b' ++ concat (drop (S n') (buckets h))).
Proof.
  revert n p b; induction fuel as [|fuel IH]; intros n p b Hb Hp Hf; [lia|].
  pose proof (lookup_lt_Some _ _ _ Hb) as Hn. cbn [iter]. unfold hash_next_round at 1. cbn [it_elem it_bucket].
  destruct (aget_in_range (buckets h) (Z.of_nat n)) as (b0 & -> & Hb0); [lia|]. rewrite Nat2Z.id, Hb in Hb0.
  injection Hb0 as <-. cbn [rbind]. case_bool_decide as Hend.
  - assert (p = length b) as -> by lia. rewrite drop_all. cbn [app]. case_bool_decide as Hl; cbn [rbind].
    + eexists; split; [done|]. left. split; [done|]. by rewrite drop_ge by lia.
    + destruct (lookup_lt_is_Some_2 (buckets h) (S n)) as [b1 Hb1]; [lia|].
      destruct (IH (S n) 0%nat b1 Hb1) as (i & Hi & Hor); [lia|lia|]. exists i. split.
      * rewrite <- Hi. do 3 f_equal. lia.
      * rewrite drop_0 in Hor. by rewrite (drop_S _ _ _ Hb1).
  - cbn [rbind]. eexists; split; [done|]. right. destruct (lookup_lt_is_Some_2 b p) as [e He]; [lia|].
    exists n, p, b, e. split_and!; [done|done|done|]. by rewrite (drop_S _ _ _ He).
Qed.

Lemma iterate_ok fuel n p b i : buckets h !! n = Some b -> (p <= length b)%nat ->
  i = mkIter (Z.of_nat n) (Some (Z.of_nat p - 1)) ->
  (length (drop p b ++ concat (drop (S n) (buckets h))) < fuel)%nat ->
  iterate h fuel i = Ret (drop p b ++ concat (drop (S n) (buckets h))).
Proof.
  revert n p b i; induction fuel as [|fuel IH]; intros n p b i Hb Hp -> Hf; [lia|]. cbn [iterate].
  unfold hash_next. cbn [it_elem it_bucket]. replace (Z.of_nat p - 1 + 1) with (Z.of_nat p) by lia.
  destruct (next_loop (S (Z.to_nat (bucket_cnt h))) n p b Hb Hp ltac:(lia)) as (i & -> & [[Hi ->]|H]); cbn [rbind].
  - unfold hash_cur. by rewrite Hi.
  - destruct H as (n' & p' & b' & e & -> & Hb' & He & E). rewrite E in Hf |- *. unfold hash_cur. cbn [it_elem it_bucket].
    rewrite !Nat2Z.id, Hb'. cbn. rewrite He. pose proof (lookup_lt_Some _ _ _ He).
    rewrite (IH n' (S p') b'); [done|done|lia|f_equal; f_equal; lia|]. simpl in Hf. lia.
Qed.
End Iterate.

(** C37. Iteration visits every element exactly once: on a table that any series of
    calls has produced, the loop over [hash_first] and [hash_next] ends and yields the
    elements of the table in bucket order, a permutation of the set it represents. *)
Theorem hash_iterate_all hash less `{!HashFunctions hash less} h h' os rs :
  hash_init true = Some h -> Z.of_nat (length os) < 2 ^ 32 -> table_run hash less os h = Ret (h', rs) ->
  exists l, iterate h' (S (Z.to_nat (hash_size h'))) (hash_first h') = Ret l /\
    l = hash_clear_order h' /\ l ≡ₚ (set_run less os []).1 /\ NoDup l.
Proof.
  intros Hi Hlen Hr. destruct (hash_init_ok hash less) as (h0 & E0 & Hh & E). rewrite Hi in E0. injection E0 as <-.
  destruct (table_run_ok hash less os h [] Hh) as (h1 & E1 & Hh' & Hp); [by rewrite E|done|].
  rewrite Hr in E1. injection E1 as <- _. pose proof Hh' as [Hc Hl Hpl Hs Hsm Hd].
  destruct (lookup_lt_is_Some_2 (buckets h') 0) as [b Hb]; [destruct Hc as (n & ? & Hc); lia|].
  exists (hash_clear_order h'). split_and!; [|done|done|by apply Hd].
  assert (Ec : hash_clear_order h' = drop 0 b ++ concat (drop 1 (buckets h'))).
  { unfold hash_clear_order. rewrite <- (drop_0 (buckets h')) at 1. by rewrite (drop_S _ _ _ Hb), drop_0. }
  rewrite Ec. apply (iterate_ok h' Hl _ 0%nat 0%nat b); [done|lia|done|].
  rewrite <- Ec. unfold hash_size, hash_clear_order. unfold elems in Hs. lia.
Qed.

(** ** A table of integers under [hash_int] *)

#[export] Instance Zltb_weak : StrictWeak Z.ltb.
Proof. split; intros; rewrite ?Z.ltb_lt, ?Z.ltb_ge in *; lia. Qed.

Lemma hash_bytes_range buf : Forall is_u32 buf -> is_u32 (hash_bytes buf).
Proof.
  unfold hash_bytes. assert (H0 : is_u32 FNV_32_BASIS) by done. revert H0. generalize FNV_32_BASIS.
  induction buf as [|b buf IH]; intros hv Hv Hb; simpl; [done|]. inversion_clear Hb. apply IH; [|done].
  apply lxor_u32; [|done]. unfold is_u32, u32. apply Z.mod_pos_bound. lia.
Qed.

#[export] Instance hash_int_functions : HashFunctions hash_int Z.ltb.
Proof.
  split; [apply _| |].
  - intros x y. unfold eqv. rewrite andb_true_iff, !negb_true_iff, !Z.ltb_ge. intros ?. f_equal. lia.
  - assert (H8 : forall z, is_u32 (u8 z)) by (intros z; pose proof (u8_range z); unfold is_u32; lia).
    intros x. apply hash_bytes_range. repeat (apply Forall_cons; split; [apply H8|]). by apply Forall_nil.
Qed.

Lemma hash_refines_set_witness :
  let os := [OInsert true 7; OInsert true 3; OInsert false 7; OFind 3; OReplace true 7; ODelete true 3; OFind 3;
             OInsert true 1; OInsert true 2; OInsert true 4; OInsert true 5; OInsert true 6; OInsert true 8;
             OInsert true 9; OInsert true 10; OInsert true 11; OInsert true 12; OInsert true 13; OInsert true 14;
             OInsert true 15; OInsert true 16; OInsert true 17] in
  exists h h', hash_init true = Some h /\ table_run hash_int Z.ltb os h = Ret (h', (set_run Z.ltb os []).2) /\
    bucket_cnt h' = 8 /\ hash_clear_order h' ≡ₚ (set_run Z.ltb os []).1.
Proof.
  intros os. destruct (hash_init true) as [h|] eqn:E; [|discriminate E].
  assert (Hl : Z.of_nat (length os) < 2 ^ 32) by reflexivity.
  destruct (hash_refines_set hash_int Z.ltb h os E Hl) as (h' & Hr & Hp & _). exists h, h'.
  split_and!; [done|done| |done].
  injection E as <-. vm_compute in Hr. injection Hr as <-. reflexivity.
Defined.

Lemma hash_iterate_all_witness :
  exists h h', hash_init true = Some h /\ iterate h' 4 (hash_first h') = Ret [7; 8; 5].
Proof.
  destruct (hash_init true) as [h|] eqn:E; [|discriminate E].
  destruct (table_run hash_int Z.ltb [OInsert true 7; OInsert true 5; OInsert true 8] h) as [[h' rs]| | |] eqn:Er;
    injection E as <-; vm_compute in Er; try discriminate Er.
  destruct (hash_iterate_all hash_int Z.ltb _ h' [OInsert true 7; OInsert true 5; OInsert true 8] rs
              eq_refl eq_refl Er) as (l & Hl & El & _).
  exists (hash_clear (mkHash 0 4 (replicate 4 []))), h'. split; [done|].
  injection Er as <- <-. vm_compute in El. subst l. exact Hl.
Defined.
