(* ===== verification/Vaddr.v ===== *)
(** * threads/vaddr.h, threads/loader.h and lib/round.h: page numbers and offsets *)

From S2P Require Import Prelude.

Definition PGBITS : Z := 12.
Definition PGSIZE : Z := 4096.
Definition BITMASK (shift cnt : Z) : Z := u32 (Z.shiftl (u32 (Z.shiftl 1 cnt) - 1) shift).
Definition PGMASK : Z := BITMASK 0 PGBITS.

Definition pg_ofs (va : Z) : Z := Z.land va PGMASK.
Definition pg_no (va : Z) : Z := Z.shiftr va PGBITS.
Definition pg_round_up (va : Z) : Z := Z.land (u32 (va + PGSIZE - 1)) (u32 (Z.lnot PGMASK)).
Definition pg_round_down (va : Z) : Z := Z.land va (u32 (Z.lnot PGMASK)).

Definition LOADER_PHYS_BASE : Z := 0xc0000000.
Definition PHYS_BASE : Z := LOADER_PHYS_BASE.
Definition is_user_vaddr (vaddr : Z) : bool := bool_decide (vaddr < PHYS_BASE).
Definition is_kernel_vaddr (vaddr : Z) : bool := bool_decide (vaddr >= PHYS_BASE).
Definition ptov (paddr : Z) : res Z :=
  ASSERT bool_decide (paddr < PHYS_BASE); Ret (u32 (paddr + PHYS_BASE)).
Definition vtop (vaddr : Z) : res Z :=
  ASSERT is_kernel_vaddr vaddr; Ret (u32 (vaddr - PHYS_BASE)).

(** The macros of round.h, on [size_t] operands. *)
Definition DIV_ROUND_UP (x step : Z) : Z := u32 (x + step - 1) / step.
Definition ROUND_UP (x step : Z) : Z := u32 (u32 (x + step - 1) / step * step).
Definition ROUND_DOWN (x step : Z) : Z := x / step * step.

(** ** What the bit operations compute *)

Lemma pg_ofs_mod va : pg_ofs va = va mod 4096.
Proof. unfold pg_ofs. change PGMASK with (Z.ones 12). by rewrite Z.land_ones by lia. Qed.

Lemma pg_no_div va : pg_no va = va / 4096.
Proof. unfold pg_no. by rewrite Z.shiftr_div_pow2 by (unfold PGBITS; lia). Qed.

Lemma land_notmask va : is_u32 va -> Z.land va (u32 (Z.lnot PGMASK)) = va - va mod 4096.
Proof.
  intros Hva. assert (E : va = Z.lor (Z.land va (u32 (Z.lnot PGMASK))) (pg_ofs va)).
  { apply Z.bits_inj'. intros k Hk. unfold pg_ofs. change PGMASK with (Z.ones 12). rewrite Z.lor_spec, !Z.land_spec.
    unfold u32. destruct (Z_lt_ge_dec k 32).
    - rewrite Z.mod_pow2_bits_low, Z.lnot_spec by lia. by destruct (Z.testbit va k), (Z.testbit (Z.ones 12) k).
    - apply is_u32_bits in Hva as [_ Hva]. by rewrite Hva by lia. }
  assert (D : Z.land (Z.land va (u32 (Z.lnot PGMASK))) (pg_ofs va) = 0).
  { apply Z.bits_inj'. intros k Hk. unfold pg_ofs. change PGMASK with (Z.ones 12). rewrite !Z.land_spec, Z.bits_0.
    unfold u32. destruct (Z_lt_ge_dec k 32).
    - rewrite Z.mod_pow2_bits_low, Z.lnot_spec by lia. by destruct (Z.testbit va k), (Z.testbit (Z.ones 12) k).
    - apply is_u32_bits in Hva as [_ Hva]. by rewrite Hva by lia. }
  rewrite <- Z.lxor_lor in E by exact D.
  rewrite <- Z.add_nocarry_lxor in E by exact D. rewrite pg_ofs_mod in E. lia.
Qed.

Lemma pg_round_down_eq va : is_u32 va -> pg_round_down va = va - va mod 4096.
Proof. apply land_notmask. Qed.

Lemma pg_round_up_eq va : 0 <= va -> va + 4095 < 2 ^ 32 -> pg_round_up va = (va + 4095) / 4096 * 4096.
Proof.
  intros H0 H. unfold pg_round_up, PGSIZE. rewrite u32_small by lia. rewrite land_notmask by (unfold is_u32; lia).
  replace (va + 4096 - 1) with (va + 4095) by lia. Z.div_mod_to_equations. lia.
Qed.
