(* ===== verification/Palloc.v ===== *)
(** * threads/palloc.c: the page allocator

    The two pools and the bytes of memory.  The used map of a pool is kept as a
    [bitmap] record; the pages at the pool's start that hold it are not pages of the
    pool.  Every call is one step: the pool's lock makes the scan of the map atomic. *)

From S2P Require Import Prelude Bitmap Vaddr Cstring CstringProof.

(** ** Operations *)

Definition PAL_ASSERT : Z := 1.
Definition PAL_ZERO : Z := 2.
Definition PAL_USER : Z := 4.

Record pool := mkPool { used_map : bitmap; base : Z }.
Record pages := mkPages { kernel_pool : pool; user_pool : pool; ram : mem }.

Definition flag (flags f : Z) : bool := bool_decide (Z.land flags f <> 0).

Definition with_pool (s : pages) (user : bool) (p : pool) : pages :=
  if user then mkPages (kernel_pool s) p (ram s) else mkPages p (user_pool s) (ram s).
Definition with_ram (s : pages) (m : mem) : pages := mkPages (kernel_pool s) (user_pool s) m.
Definition pool_at (s : pages) (user : bool) : pool := if user then user_pool s else kernel_pool s.

(** The words of memory that become the bit array of the map. *)
Definition byte_at (m : mem) (a : Z) : Z := default 0 (m !! a).
Definition word_at (m : mem) (a : Z) : Z :=
  u32 (byte_at m a + 256 * byte_at m (a + 1) + 65536 * byte_at m (a + 2) + 16777216 * byte_at m (a + 3)).
Definition map_words (m : mem) (base size : Z) : list Z :=
  (fun i => word_at m (base + SIZEOF_BITMAP + 4 * i)) <$> seqZ 0 ((size - SIZEOF_BITMAP) / 4).

Definition init_pool (m : mem) (base page_cnt : Z) : res pool :=
  let bm_pages := DIV_ROUND_UP (bitmap_buf_size page_cnt) PGSIZE in
  if bool_decide (bm_pages > page_cnt) then Panic
  else
    let page_cnt := page_cnt - bm_pages in
    let size := u32 (bm_pages * PGSIZE) in
    let! map := bitmap_create_in_buf page_cnt (map_words m base size) size in
    Ret (mkPool map (u32 (base + size))).

(** [end_] is the address of the linker's symbol [_end]. *)
Definition palloc_init (m : mem) (end_ ram_pages user_page_limit : Z) : res pages :=
  let free_start := pg_round_up end_ in
  let! free_end := ptov (u32 (ram_pages * PGSIZE)) in
  let free_pages := u32 (free_end - free_start) / PGSIZE in
  let user_pages := free_pages / 2 in
  let user_pages := if bool_decide (user_pages > user_page_limit) then user_page_limit else user_pages in
  let kernel_pages := free_pages - user_pages in
  let! k := init_pool m free_start kernel_pages in
  let! u := init_pool m (u32 (free_start + kernel_pages * PGSIZE)) user_pages in
  Ret (mkPages k u m).

Definition palloc_get_multiple (s : pages) (flags page_cnt : Z) : res (pages * Z) :=
  let user := flag flags PAL_USER in
  let pool := pool_at s user in
  if bool_decide (page_cnt = 0) then Ret (s, NULL)
  else
    let! '(page_idx, map) := bitmap_scan_and_flip (used_map pool) 0 page_cnt false in
    let s := with_pool s user (mkPool map (base pool)) in
    let pages := if bool_decide (page_idx <> BITMAP_ERROR) then u32 (base pool + PGSIZE * page_idx) else NULL in
    if bool_decide (pages <> NULL) then
      if flag flags PAL_ZERO then
        let! '(m, _) := memset (ram s) pages 0 (u32 (PGSIZE * page_cnt)) in Ret (with_ram s m, pages)
      else Ret (s, pages)
    else if flag flags PAL_ASSERT then Panic else Ret (s, pages).

Definition palloc_get_page (s : pages) (flags : Z) : res (pages * Z) := palloc_get_multiple s flags 1.

Definition page_from_pool (p : pool) (page : Z) : bool :=
  let page_no := pg_no page in
  let start_page := pg_no (base p) in
  let end_page := u32 (start_page + bitmap_size (used_map p)) in
  bool_decide (page_no >= start_page) && bool_decide (page_no < end_page).

Definition palloc_free_multiple (s : pages) (pages page_cnt : Z) : res Palloc.pages :=
  ASSERT bool_decide (pg_ofs pages = 0);
  if bool_decide (pages = NULL) || bool_decide (page_cnt = 0) then Ret s
  else
    let! user := (if page_from_pool (kernel_pool s) pages then Ret false
                  else if page_from_pool (user_pool s) pages then Ret true else Panic) in
    let pool := pool_at s user in
    let page_idx := u32 (pg_no pages - pg_no (base pool)) in
    let! '(m, _) := memset (ram s) pages 0xcc (u32 (PGSIZE * page_cnt)) in
    let s := with_ram s m in
    let! all := bitmap_all (used_map pool) page_idx page_cnt in
    ASSERT all;
    let! map := bitmap_set_multiple (used_map pool) page_idx page_cnt false in
    Ret (with_pool s user (mkPool map (base pool))).

Definition palloc_free_page (s : pages) (page : Z) : res pages := palloc_free_multiple s page 1.

(** ** The pages in use

    Pages are named by their number, the address divided by [PGSIZE]. *)

Definition first_page (p : pool) : Z := base p / 4096.
Definition page_cnt (p : pool) : Z := bit_cnt (used_map p).
Definition pool_page (p : pool) (n : Z) : bool := in_range (first_page p) (page_cnt p) n.
Definition pool_used (p : pool) (n : Z) : bool := pool_page p n && bit (used_map p) (n - first_page p).
Definition page_used (s : pages) (n : Z) : bool := pool_used (kernel_pool s) n || pool_used (user_pool s) n.

Record pool_wf (m : mem) (p : pool) : Prop := {
  pwf_map : wf (used_map p);
  pwf_align : base p = 4096 * first_page p;
  pwf_pos : 0 < base p;
  pwf_top : base p + 4096 * page_cnt p <= 2 ^ 32;
  pwf_ram : forall a, base p <= a < base p + 4096 * page_cnt p -> is_Some (m !! a)
}.

Record pages_wf (s : pages) : Prop := {
  pw_kernel : pool_wf (ram s) (kernel_pool s);
  pw_user : pool_wf (ram s) (user_pool s);
  pw_apart : first_page (kernel_pool s) + page_cnt (kernel_pool s) <= first_page (user_pool s)
}.

(** The pools cover the same pages. *)
Definition same_layout (s s' : pages) : Prop :=
  forall user, base (pool_at s' user) = base (pool_at s user) /\ page_cnt (pool_at s' user) = page_cnt (pool_at s user).

(** ** Lemmas *)

Lemma pool_at_wf s user : pages_wf s -> pool_wf (ram s) (pool_at s user).
Proof. intros []. by destruct user. Qed.

Lemma same_layout_refl s : same_layout s s.
Proof. by intros user. Qed.

Lemma same_layout_trans s1 s2 s3 : same_layout s1 s2 -> same_layout s2 s3 -> same_layout s1 s3.
Proof. intros H1 H2 user. destruct (H1 user), (H2 user). split; congruence. Qed.

Lemma same_layout_first s s' user : same_layout s s' -> first_page (pool_at s' user) = first_page (pool_at s user).
Proof. intros H. unfold first_page. by destruct (H user) as [-> _]. Qed.

Lemma pool_wf_ram m m' p : pool_wf m p -> (forall a, is_Some (m !! a) -> is_Some (m' !! a)) -> pool_wf m' p.
Proof. intros [] H. split; auto. Qed.

(** Replacing a pool by one with another map of the same size, and the memory by
    one that is defined wherever the old one was. *)
Lemma pages_wf_update s user map' m g : pages_wf s -> updated (used_map (pool_at s user)) map' g ->
  (forall a, is_Some (ram s !! a) -> is_Some (m !! a)) ->
  let s' := with_ram (with_pool s user (mkPool map' (base (pool_at s user)))) m in
  pages_wf s' /\ same_layout s s'.
Proof.
  intros [Hk Hu Hap] [Hwf Hcnt _ _] Hm s'.
  assert (Hp : pool_wf m (mkPool map' (base (pool_at s user)))).
  { assert (pool_wf (ram s) (pool_at s user)) as [] by (by destruct user).
    split; unfold page_cnt, first_page in *; simpl; rewrite ?Hcnt; auto. }
  assert (Hc : page_cnt (mkPool map' (base (pool_at s user))) = page_cnt (pool_at s user)) by done.
  unfold s'. split; [|intros []; by destruct user].
  destruct user; split; simpl in *; try done; try (by eapply pool_wf_ram).
  by rewrite Hc.
Qed.

Lemma pool_page_apart s n : pages_wf s -> pool_page (kernel_pool s) n = true -> pool_page (user_pool s) n = false.
Proof.
  intros [_ _ Hap]. unfold pool_page. rewrite in_range_spec. intros H.
  apply Bool.not_true_iff_false. rewrite in_range_spec. lia.
Qed.

(** The used pages after pages [n .. n + cnt - 1] of one pool changed to [v]. *)
Lemma page_used_update s user map' m n cnt (v : bool) : pages_wf s ->
  let p := pool_at s user in
  first_page p <= n -> n + cnt <= first_page p + page_cnt p ->
  updated (used_map p) map' (fun j => if in_range (n - first_page p) cnt j then v else bit (used_map p) j) ->
  forall k, page_used (with_ram (with_pool s user (mkPool map' (base p))) m) k
            = if in_range n cnt k then v else page_used s k.
Proof.
  intros Hs p Hn Hc Hup k.
  assert (Hnew : pool_used (mkPool map' (base p)) k = if in_range n cnt k then v else pool_used p k).
  { unfold pool_used, pool_page, first_page, page_cnt in *. simpl. rewrite (upd_cnt _ _ _ Hup).
    destruct (in_range (base p / 4096) (bit_cnt (used_map p)) k) eqn:E; simpl.
    - apply in_range_spec in E. rewrite (upd_bit _ _ _ Hup) by lia.
      replace (in_range (n - base p / 4096) cnt (k - base p / 4096)) with (in_range n cnt k); [done|].
      apply Bool.eq_iff_eq_true. rewrite !in_range_spec. lia.
    - destruct (in_range n cnt k) eqn:E'; [|done]. apply in_range_spec in E'.
      apply Bool.not_true_iff_false in E. rewrite in_range_spec in E. lia. }
  assert (Hout : in_range n cnt k = true -> pool_used (pool_at s (negb user)) k = false).
  { rewrite in_range_spec. intros Hk. unfold pool_used. destruct (pool_page (pool_at s (negb user)) k) eqn:E; [|done].
    exfalso. assert (pool_page p k = true) as E2 by (apply in_range_spec; lia).
    unfold p in E2. clear -Hs E E2. destruct user; simpl in *.
    - by rewrite (pool_page_apart s k Hs E) in E2.
    - by rewrite (pool_page_apart s k Hs E2) in E. }
  unfold page_used. unfold p in *. destruct user; simpl in *; rewrite Hnew; destruct (in_range n cnt k); try done.
  - by rewrite Hout.
  - rewrite Hout by done. by destruct v.
Qed.

Definition filled (m m' : mem) (a len v : Z) : Prop :=
  forall q, m' !! q = if decide (a <= q < a + len) then Some v else m !! q.

Lemma filled_defined m m' a len v : filled m m' a len v -> forall q, is_Some (m !! q) -> is_Some (m' !! q).
Proof. intros H q Hq. rewrite H. case_decide; eauto. Qed.

(** [memset] over whole pages of a pool. *)
Lemma memset_pages s user n cnt v : pages_wf s ->
  let p := pool_at s user in
  0 < cnt -> first_page p <= n -> n + cnt <= first_page p + page_cnt p -> is_u8 v ->
  exists m', memset (ram s) (4096 * n) v (u32 (PGSIZE * cnt)) = Ret (m', 4096 * n) /\ filled (ram s) m' (4096 * n) (4096 * cnt) v.
Proof.
  intros Hs p Hc Hn Hle Hv. assert (Hp : pool_wf (ram s) p) by (by apply pool_at_wf). destruct Hp as [Hwf Hal Hpos Htop Hram].
  unfold PGSIZE. pose proof (wf_cnt _ Hwf). rewrite u32_small by lia.
  destruct (memset_ok (ram s) (4096 * n) (4096 * cnt)) with (value := v) as (m' & -> & Hm'); [lia| |lia|].
  - intros a Ha. apply Hram. unfold page_cnt in *. lia.
  - exists m'. split; [done|]. intros q. rewrite Hm'. by rewrite u8_small.
Qed.

(** A run of free pages of a pool. *)
Definition free_group (p : pool) (n cnt : Z) : Prop :=
  first_page p <= n /\ n + cnt <= first_page p + page_cnt p /\ forall k, n <= k < n + cnt -> pool_used p k = false.
Lemma group_free p n cnt : first_page p <= n -> n + cnt <= first_page p + page_cnt p ->
  (free_group p n cnt <-> group (used_map p) (n - first_page p) cnt false).
Proof.
  intros Hn Hc. unfold free_group, group, pool_used, pool_page, page_cnt in *. split.
  - intros (_ & _ & H) j Hj. specialize (H (j + first_page p) ltac:(lia)).
    rewrite (proj2 (in_range_spec _ _ _)) in H by lia. by replace (j + first_page p - first_page p) with j in H by lia.
  - intros H. split_and!; [done|done|]. intros k Hk. rewrite H by lia. by rewrite andb_false_r.
Qed.

Lemma free_group_index m p n cnt : pool_wf m p -> free_group p n cnt ->
  0 <= n - first_page p /\ n - first_page p + cnt <= bit_cnt (used_map p) /\ group (used_map p) (n - first_page p) cnt false.
Proof.
  intros Hp Hg. pose proof Hg as (H1 & H2 & _). apply group_free in Hg; [|done..]. unfold page_cnt in *. split_and!; [lia|lia|done].
Qed.

Lemma free_group_unused s user n cnt k : pages_wf s -> free_group (pool_at s user) n cnt -> n <= k < n + cnt ->
  page_used s k = false.
Proof.
  intros Hs (H1 & H2 & H3) Hk. specialize (H3 k Hk).
  assert (Hp : pool_page (pool_at s user) k = true) by (apply in_range_spec; lia).
  unfold page_used, pool_used in *. clear -Hs H3 Hp. destruct user; simpl in *; rewrite H3.
  - destruct (pool_page (kernel_pool s) k) eqn:E; [|done]. by rewrite (pool_page_apart s k Hs E) in Hp.
  - by rewrite (pool_page_apart s k Hs Hp).
Qed.

Lemma pal_get_ok s flags cnt : pages_wf s -> 0 < cnt ->
  let p := pool_at s (flag flags PAL_USER) in
  ((forall n, ~ free_group p n cnt) /\
   palloc_get_multiple s flags cnt = if flag flags PAL_ASSERT then Panic else Ret (s, NULL)) \/
  exists n s', palloc_get_multiple s flags cnt = Ret (s', 4096 * n) /\ 0 < n /\
    free_group p n cnt /\ (forall k, k < n -> ~ free_group p k cnt) /\
    pages_wf s' /\ same_layout s s' /\
    (forall k, page_used s' k = if in_range n cnt k then true else page_used s k) /\
    (if flag flags PAL_ZERO then filled (ram s) (ram s') (4096 * n) (4096 * cnt) 0 else ram s' = ram s).
Proof.
  intros Hs Hc p. assert (Hp : pool_wf (ram s) p) by (by apply pool_at_wf). pose proof Hp as [Hwf Hal Hpos Htop Hram].
  pose proof (wf_cnt _ Hwf) as Hcnt. unfold palloc_get_multiple. fold p. rewrite bool_decide_eq_false_2 by lia.
  destruct (bitmap_scan_and_flip_ok (used_map p) 0 cnt false Hwf) as [[E Hno]|(i & map' & E & Hne & H0 & Hle & Hg & Hmin & Hup)];
    [lia|lia|left|right]; rewrite E; cbn [rbind].
  - split.
    + intros n Hn. destruct (free_group_index _ _ _ _ Hp Hn) as (? & ? & Hn'). by apply (Hno (n - first_page p)).
    + rewrite (bool_decide_eq_false_2 (BITMAP_ERROR <> BITMAP_ERROR)) by naive_solver.
      rewrite bool_decide_eq_false_2 by naive_solver. destruct (flag flags PAL_ASSERT); [done|].
      do 2 f_equal. unfold p. destruct s as [[] [] ?], (flag flags PAL_USER); done.
  - set (n := first_page p + i). assert (Ea : u32 (base p + PGSIZE * i) = 4096 * n).
    { unfold PGSIZE. pose proof Hal. unfold page_cnt in *. rewrite u32_small; unfold n; lia. }
    assert (Hnpos : 0 < n) by (unfold n; lia).
    rewrite (bool_decide_eq_true_2 (i <> BITMAP_ERROR)) by done. rewrite Ea.
    rewrite bool_decide_eq_true_2 by (unfold NULL; lia).
    assert (Hup' : updated (used_map p) map' (fun j => if in_range (n - first_page p) cnt j then true else bit (used_map p) j)).
    { by replace (n - first_page p) with i by (unfold n; lia). }
    assert (Hfg : free_group p n cnt).
    { apply group_free; [unfold n; lia|unfold n, page_cnt in *; lia|]. by replace (n - first_page p) with i by (unfold n; lia). }
    assert (Hfst : forall k, k < n -> ~ free_group p k cnt).
    { intros k Hk Hkg. destruct (free_group_index _ _ _ _ Hp Hkg) as (? & ? & Hkg').
      apply (Hmin (k - first_page p)); [unfold n in *; lia|done]. }
    destruct Hfg as (Hn1 & Hn2 & Hn3).
    set (s1 := with_pool s _ _).
    assert (Hs1 : forall m, with_ram s1 m = with_ram (with_pool s (flag flags PAL_USER) (mkPool map' (base p))) m) by done.
    destruct (flag flags PAL_ZERO).
    + destruct (memset_pages s (flag flags PAL_USER) n cnt 0) as (m' & Em & Hf); [done|done|done|done|done|].
      assert (Er : ram s1 = ram s) by (unfold s1; by destruct (flag flags PAL_USER)). rewrite Er, Em. cbn [rbind].
      exists n, (with_ram s1 m'). destruct (pages_wf_update s (flag flags PAL_USER) map' m' _ Hs Hup') as [Hw Hl].
      { by eapply filled_defined. }
      split_and!; try done. intros k. by apply page_used_update.
    + assert (Er : s1 = with_ram s1 (ram s)) by (unfold s1; by destruct (flag flags PAL_USER)). rewrite Er.
      exists n, (with_ram s1 (ram s)). destruct (pages_wf_update s (flag flags PAL_USER) map' (ram s) _ Hs Hup') as [Hw Hl]; [done|].
      split_and!; try done. intros k. by apply page_used_update.
Qed.

Lemma page_from_pool_eq m p n : pool_wf m p -> 0 <= n < 2 ^ 20 -> page_from_pool p (4096 * n) = pool_page p n.
Proof.
  intros [Hwf Hal Hpos Htop _] Hn. pose proof (wf_cnt _ Hwf). unfold page_cnt in *.
  unfold page_from_pool, pool_page, in_range, bitmap_size. rewrite !pg_no_div.
  fold (first_page p). rewrite Z.mul_comm, Z.div_mul by lia. rewrite u32_small by lia.
  apply Bool.eq_iff_eq_true. rewrite !andb_true_iff, !bool_decide_eq_true, Z.leb_le, Z.ltb_lt. unfold page_cnt. lia.
Qed.

Lemma pool_page_bound m p n : pool_wf m p -> pool_page p n = true -> 0 < n < 2 ^ 20.
Proof. intros [Hwf Hal Hpos Htop _] Hn. apply in_range_spec in Hn. lia. Qed.

(** Freeing pages [n .. n + cnt - 1] of a pool. *)
Lemma pal_free_ok s user n cnt : pages_wf s ->
  let p := pool_at s user in
  0 < cnt -> first_page p <= n -> n + cnt <= first_page p + page_cnt p ->
  (exists k, n <= k < n + cnt /\ page_used s k = false) /\ palloc_free_multiple s (4096 * n) cnt = Panic \/
  (forall k, n <= k < n + cnt -> page_used s k = true) /\
  exists s', palloc_free_multiple s (4096 * n) cnt = Ret s' /\
    pages_wf s' /\ same_layout s s' /\
    (forall k, page_used s' k = if in_range n cnt k then false else page_used s k) /\
    filled (ram s) (ram s') (4096 * n) (4096 * cnt) 0xcc.
Proof.
  intros Hs p Hc Hn Hle. assert (Hp : pool_wf (ram s) p) by (by apply pool_at_wf).
  assert (Hin : forall k, n <= k < n + cnt -> pool_page p k = true) by (intros k Hk; apply in_range_spec; lia).
  assert (Hb : 0 < n < 2 ^ 20) by (apply (pool_page_bound _ p n Hp), Hin; lia).
  assert (Husr : forall k, n <= k < n + cnt -> page_used s k = bit (used_map p) (k - first_page p)).
  { intros k Hk. specialize (Hin k Hk). unfold page_used, pool_used. unfold p in *. clear -Hs Hin. destruct user; simpl in *.
    - rewrite Hin. destruct (pool_page (kernel_pool s) k) eqn:E; [|done]. by rewrite (pool_page_apart s k Hs E) in Hin.
    - by rewrite Hin, (pool_page_apart s k Hs Hin), orb_false_r. }
  pose proof Hp as [Hwf Hal Hpos Htop Hram]. pose proof (wf_cnt _ Hwf) as Hcnt. unfold page_cnt in *.
  unfold palloc_free_multiple. rewrite pg_ofs_mod, Z.mul_comm, Z.mod_mul by lia. rewrite Z.mul_comm. cbn [assert_ rbind].
  rewrite bool_decide_eq_true_2 by done. cbn [rbind assert_]. rewrite !(bool_decide_eq_false_2 (_ = _)) by (unfold NULL; lia). cbn [orb].
  assert (Eu : (if page_from_pool (kernel_pool s) (4096 * n) then Ret false
                else if page_from_pool (user_pool s) (4096 * n) then Ret true else Panic) = Ret user).
  { rewrite (page_from_pool_eq (ram s)) by (apply Hs || lia). rewrite (page_from_pool_eq (ram s)) by (apply Hs || lia).
    specialize (Hin n ltac:(lia)). unfold p in Hin. clear -Hs Hin. destruct user; simpl in *.
    - rewrite Hin. destruct (pool_page (kernel_pool s) n) eqn:E; [|done]. by rewrite (pool_page_apart s n Hs E) in Hin.
    - by rewrite Hin. }
  rewrite Eu. cbn [rbind]. fold p. rewrite !pg_no_div. fold (first_page p).
  replace (4096 * n / 4096) with n by (rewrite Z.mul_comm, Z.div_mul; lia). rewrite (u32_small (n - first_page p)) by lia.
  destruct (memset_pages s user n cnt 0xcc) as (m' & Em & Hf); [done|done|done|done|done|].
  rewrite Em. cbn [rbind].
  unfold bitmap_all. destruct (bitmap_contains_ok (used_map p) (n - first_page p) cnt false Hwf) as (r & Er & Hr); [lia|lia|lia|].
  rewrite Er. cbn [rbind]. destruct r; cbn [negb assert_ rbind].
  - left. split; [|done]. destruct (proj1 Hr eq_refl) as (j & Hj & Hbj). exists (j + first_page p). split; [lia|].
    rewrite Husr by lia. by replace (j + first_page p - first_page p) with j by lia.
  - right. split.
    { intros k Hk. rewrite Husr by done. destruct (bit (used_map p) (k - first_page p)) eqn:Eb; [done|].
      assert (false = true) by (apply Hr; exists (k - first_page p); split; [lia|done]). done. }
    destruct (bitmap_set_multiple_ok (used_map p) (n - first_page p) cnt false) as (map' & -> & Hup); [done|lia|lia|lia|].
    cbn [rbind]. eexists; split; [done|].
    assert (Eq : with_pool (with_ram s m') user (mkPool map' (base p)) = with_ram (with_pool s user (mkPool map' (base p))) m')
      by (by destruct user). rewrite Eq.
    destruct (pages_wf_update s user map' m' _ Hs Hup) as [Hw Hl]; [by eapply filled_defined|].
    split_and!; [done|done| |by destruct user]. intros k. by apply page_used_update.
Qed.

(** ** Initialisation *)

Lemma map_words_ok m b size : Forall is_u32 (map_words m b size) /\
  length (map_words m b size) = Z.to_nat ((size - 8) / 4).
Proof.
  unfold map_words, SIZEOF_BITMAP. split; [|by rewrite length_fmap, length_seqZ].
  apply Forall_fmap, Forall_true. intros i. apply u32_range.
Qed.

Lemma init_pool_ok m b n : 0 < b -> 1 <= n -> 4096 * (b + n) < 2 ^ 32 ->
  (forall a, 4096 * b <= a < 4096 * (b + n) -> is_Some (m !! a)) ->
  exists p, init_pool m (4096 * b) n = Ret p /\ pool_wf m p /\ b <= first_page p /\ first_page p + page_cnt p = b + n /\
    forall k, pool_used p k = false.
Proof.
  intros Hb Hn Htop Hram. unfold init_pool, DIV_ROUND_UP, bitmap_buf_size, byte_cnt, SIZEOF_BITMAP, SIZEOF_ELEM, PGSIZE.
  rewrite elem_cnt_exact by lia. set (q := (n + 31) / 32). assert (Hq : 1 <= q <= n) by (unfold q; Z.div_mod_to_equations; lia).
  rewrite (u32_small (4 * q)) by lia. rewrite (u32_small (8 + 4 * q)) by lia. rewrite (u32_small (8 + 4 * q + 4096 - 1)) by lia.
  set (bm := (8 + 4 * q + 4096 - 1) / 4096).
  assert (Hbm : 1 <= bm <= n /\ 8 + 4 * q <= 4096 * bm) by (unfold bm, q in *; Z.div_mod_to_equations; lia).
  rewrite bool_decide_eq_false_2 by lia. rewrite (u32_small (bm * 4096)) by lia.
  destruct (map_words_ok m (4096 * b) (bm * 4096)) as [Hw Hl].
  destruct (bitmap_create_in_buf_ok (n - bm) (map_words m (4096 * b) (bm * 4096)) (bm * 4096)) as (map & -> & Hwf & Hcnt & _ & Hbit).
  - lia.
  - rewrite Hl. unfold q in *. Z.div_mod_to_equations. lia.
  - done.
  - unfold bitmap_buf_size, byte_cnt, SIZEOF_BITMAP, SIZEOF_ELEM. rewrite elem_cnt_exact by lia.
    assert ((n - bm + 31) / 32 <= q) by (unfold q; apply Z.div_le_mono; lia).
    assert (0 <= (n - bm + 31) / 32) by (apply Z.div_pos; lia). rewrite !u32_small by (rewrite ?u32_small; lia). lia.
  - cbn [rbind]. rewrite u32_small by lia.
    assert (Ef : (4096 * b + bm * 4096) / 4096 = b + bm) by (replace (4096 * b + bm * 4096) with ((b + bm) * 4096) by lia; apply Z.div_mul; lia).
    eexists; split; [done|]. unfold pool_used, pool_page, in_range, first_page, page_cnt; simpl. rewrite Ef, Hcnt. split_and!; [|lia|lia|].
    + split; unfold first_page, page_cnt; simpl; rewrite ?Ef, ?Hcnt; [done|lia|lia|lia|]. intros a Ha. apply Hram. lia.
    + intros k. destruct (_ <=? k) eqn:E1; [|done]. destruct (k <? _) eqn:E2; [|done].
      apply Z.leb_le in E1. apply Z.ltb_lt in E2. apply Hbit. lia.
Qed.

(** A machine: the kernel ends at [end_], [ram_pages] pages of memory are mapped at
    [PHYS_BASE], at least two of them behind the kernel. *)
Record machine (m : mem) (end_ ram_pages limit : Z) : Prop := {
  mc_end : PHYS_BASE < end_;
  mc_ram : 0 <= ram_pages < 2 ^ 18;
  mc_two : pg_round_up end_ + 8192 <= PHYS_BASE + 4096 * ram_pages;
  mc_small : end_ + 4095 < 2 ^ 32;
  mc_limit : 1 <= limit;
  mc_map : forall a, PHYS_BASE <= a < PHYS_BASE + 4096 * ram_pages -> is_Some (m !! a)
}.

Lemma palloc_init_ok m end_ ram_pages limit : machine m end_ ram_pages limit ->
  exists s, palloc_init m end_ ram_pages limit = Ret s /\ pages_wf s /\ ram s = m /\ forall k, page_used s k = false.
Proof.
  intros [Hend Hram Htwo Hsmall Hlim Hmap]. unfold palloc_init. unfold PHYS_BASE, LOADER_PHYS_BASE in *.
  rewrite pg_round_up_eq in * by lia. set (fs := (end_ + 4095) / 4096) in *.
  assert (786432 <= fs) by (unfold fs; Z.div_mod_to_equations; lia).
  unfold ptov, PGSIZE, PHYS_BASE, LOADER_PHYS_BASE. rewrite (u32_small (ram_pages * 4096)) by lia.
  rewrite bool_decide_eq_true_2 by lia. cbn [assert_ rbind]. rewrite (u32_small (ram_pages * 4096 + _)) by lia.
  rewrite u32_small by lia.
  replace ((ram_pages * 4096 + 0xc0000000 - fs * 4096) / 4096) with (ram_pages + 786432 - fs).
  2: { replace (ram_pages * 4096 + 0xc0000000 - fs * 4096) with ((ram_pages + 786432 - fs) * 4096) by lia. by rewrite Z.div_mul. }
  set (u := if bool_decide _ then _ else _). assert (Hu : 1 <= u <= (ram_pages + 786432 - fs) / 2).
  { unfold u. assert (1 <= (ram_pages + 786432 - fs) / 2) by (Z.div_mod_to_equations; lia). case_bool_decide; lia. }
  assert (1 <= ram_pages + 786432 - fs - u) by (Z.div_mod_to_equations; lia). clearbody u.
  replace (fs * 4096) with (4096 * fs) by lia.
  destruct (init_pool_ok m fs (ram_pages + 786432 - fs - u)) as (k & -> & Hk & Hk1 & Hk2 & Hk3); [lia|lia|lia|..].
  { intros a Ha. apply Hmap. lia. }
  cbn [rbind]. rewrite u32_small by lia.
  replace (4096 * fs + (ram_pages + 786432 - fs - u) * 4096) with (4096 * (ram_pages + 786432 - u)) by lia.
  destruct (init_pool_ok m (ram_pages + 786432 - u) u) as (us & -> & Hu1 & Hu2 & Hu3 & Hu4); [lia|lia|lia|..].
  { intros a Ha. apply Hmap. lia. }
  cbn [rbind]. eexists; split; [done|]. split_and!; [|done|].
  - split; simpl; [done|done|lia].
  - intros j. unfold page_used; simpl. by rewrite Hk3, Hu4.
Qed.

(** ** Series of calls

    A client obtains groups of pages and gives back groups it holds: [PFree i] frees
    the [i]-th group of its list, and is no call when there is none. *)

Inductive pal_op := PGet (flags cnt : Z) | PFree (i : nat).

Definition pal_call (o : pal_op) (c : pages * list (Z * Z)) : res (pages * list (Z * Z)) :=
  let '(s, live) := c in
  match o with
  | PGet flags cnt =>
      let! '(s, a) := palloc_get_multiple s flags cnt in
      Ret (s, if bool_decide (a = NULL) then live else (pg_no a, cnt) :: live)
  | PFree i =>
      match live !! i with
      | Some (n, cnt) => let! s := palloc_free_multiple s (PGSIZE * n) cnt in Ret (s, delete i live)
      | None => Ret (s, live)
      end
  end.

Fixpoint pal_run (os : list pal_op) (c : pages * list (Z * Z)) : res (pages * list (Z * Z)) :=
  match os with [] => Ret c | o :: os => let! c := pal_call o c in pal_run os c end.

Definition no_assert (o : pal_op) : Prop :=
  match o with PGet flags cnt => flag flags PAL_ASSERT = false /\ 0 <= cnt | PFree _ => True end.

(** The number of groups that contain page [k]. *)
Definition holders (live : list (Z * Z)) (k : Z) : nat :=
  length (filter (fun g => in_range g.1 g.2 k = true) live).

Definition group_in (s : pages) (g : Z * Z) : Prop :=
  0 < g.2 /\ exists user, first_page (pool_at s user) <= g.1 /\ g.1 + g.2 <= first_page (pool_at s user) + page_cnt (pool_at s user).

Record pal_inv (s : pages) (live : list (Z * Z)) : Prop := {
  pi_wf : pages_wf s;
  pi_used : forall k, holders live k = if page_used s k then 1%nat else 0%nat;
  pi_in : Forall (group_in s) live
}.

Lemma group_in_layout s s' g : same_layout s s' -> group_in s g -> group_in s' g.
Proof.
  intros Hl [Hg (user & H1 & H2)]. split; [done|]. exists user. destruct (Hl user) as [_ Hc].
  rewrite (same_layout_first s s' user Hl), Hc. done.
Qed.

Lemma holders_delete live i g k : live !! i = Some g ->
  holders live k = ((if in_range g.1 g.2 k then 1 else 0) + holders (delete i live) k)%nat.
Proof.
  unfold holders. revert i; induction live as [|g' live IH]; intros i Hi; [done|]. destruct i as [|i]; simpl in Hi |- *.
  - injection Hi as ->. rewrite filter_cons. destruct (in_range g.1 g.2 k); done.
  - rewrite !filter_cons. destruct (decide (in_range g'.1 g'.2 k = true)); simpl; rewrite (IH i Hi); lia.
Qed.

Lemma pal_call_ok o s live : pal_inv s live -> no_assert o ->
  exists s' live', pal_call o (s, live) = Ret (s', live') /\ pal_inv s' live' /\ same_layout s s'.
Proof.
  intros [Hs Hu Hin] Ho. destruct o as [flags cnt|i]; simpl in *.
  - destruct Ho as [Ho Hc]. destruct (decide (cnt = 0)) as [->|Hne].
    { exists s, live. unfold palloc_get_multiple. rewrite bool_decide_eq_true_2 by done. split_and!; done. }
    destruct (pal_get_ok s flags cnt Hs) as [[_ E]|(n & s' & E & Hn & (Hg1 & Hg2 & Hg3) & _ & Hs' & Hl & Hu' & _)]; [lia| |];
      rewrite E, ?Ho; cbn [rbind].
    { exists s, live. split_and!; done. }
    rewrite bool_decide_eq_false_2 by (unfold NULL; lia). rewrite pg_no_div, Z.mul_comm, Z.div_mul by lia.
    eexists s', _. split_and!; [done| |done]. split; [done| |].
    + intros k. unfold holders. rewrite filter_cons, Hu'. specialize (Hu k). unfold holders in Hu. simpl.
      destruct (in_range n cnt k) eqn:E'; simpl; [|done]. rewrite Hu. apply in_range_spec in E'.
      by rewrite (free_group_unused s (flag flags PAL_USER) n cnt k Hs).
    + constructor; [|by eapply Forall_impl; [exact Hin|intros; by eapply group_in_layout]].
      eapply group_in_layout; [exact Hl|]. split; [simpl; lia|]. by exists (flag flags PAL_USER).
  - destruct (live !! i) as [[n cnt]|] eqn:Ei; [|exists s, live; split_and!; done].
    pose proof (Forall_lookup_1 _ _ _ _ Hin Ei) as [Hc (user & H1 & H2)]. simpl in *. unfold PGSIZE.
    assert (Hk : forall k, (if page_used s k then 1 else 0)%nat = ((if in_range n cnt k then 1 else 0) + holders (delete i live) k)%nat).
    { intros k. rewrite <- Hu. by rewrite (holders_delete live i (n, cnt) k Ei). }
    destruct (pal_free_ok s user n cnt Hs) as [[(k & Hkr & Hku) _]|[_ (s' & -> & Hs' & Hl & Hu' & _)]]; [done|done|done| |].
    { specialize (Hk k). rewrite Hku in Hk. by rewrite (proj2 (in_range_spec n cnt k) Hkr) in Hk. }
    cbn [rbind]. eexists s', _. split_and!; [done| |done]. split; [done| |].
    + intros k. rewrite Hu'. specialize (Hk k). destruct (in_range n cnt k), (page_used s k); simpl in Hk; lia.
    + apply Forall_delete. eapply Forall_impl; [exact Hin|]. intros; by eapply group_in_layout.
Qed.

Lemma pal_run_ok os s live : pal_inv s live -> Forall no_assert os ->
  exists s' live', pal_run os (s, live) = Ret (s', live') /\ pal_inv s' live' /\ same_layout s s'.
Proof.
  intros Hi Hos. revert s live Hi. induction Hos as [|o os Ho _ IH]; intros s live Hi.
  - exists s, live. split_and!; [done|done|apply same_layout_refl].
  - cbn [pal_run]. destruct (pal_call_ok o s live Hi Ho) as (s1 & l1 & -> & Hi1 & Hl1). cbn [rbind].
    destruct (IH s1 l1 Hi1) as (s2 & l2 & -> & Hi2 & Hl2). exists s2, l2. split_and!; [done|done|]. by eapply same_layout_trans.
Qed.

(** C28. The page allocator never hands out a page twice and never loses one: after
    [palloc_init] on any machine with at least two free pages, every series of
    [palloc_get_multiple] (without [PAL_ASSERT]) and [palloc_free_multiple] calls runs
    without a failed assertion, every page of the pools is in as many of the client's
    groups as its used bit says (at most one), and every group lies within one pool. *)
Theorem palloc_exclusive m end_ ram_pages limit os : machine m end_ ram_pages limit -> Forall no_assert os ->
  exists s0 s live, palloc_init m end_ ram_pages limit = Ret s0 /\ pal_run os (s0, []) = Ret (s, live) /\
    (forall k, holders live k = if page_used s k then 1%nat else 0%nat) /\
    Forall (group_in s) live /\ same_layout s0 s.
Proof.
  intros Hm Hos. destruct (palloc_init_ok m end_ ram_pages limit Hm) as (s0 & E0 & Hs0 & _ & Hu0).
  destruct (pal_run_ok os s0 []) as (s & live & E & [Hs Hu Hin] & Hl); [|done|].
  - split; [done| |constructor]. intros k. by rewrite Hu0.
  - by exists s0, s, live.
Qed.

(** What one call to the page allocator does, on every branch: with a free run in
    the pool the flags select, the lowest one is returned and becomes used, other pages
    stay as they are, and memory changes only by the zeros [PAL_ZERO] asks for; without
    one, the call returns a null pointer and changes nothing, or panics under
    [PAL_ASSERT].  Giving the run back restores the used pages, and giving it back
    twice panics. *)
Theorem palloc_get_free s flags cnt : pages_wf s -> 0 < cnt ->
  let p := pool_at s (flag flags PAL_USER) in
  ((forall n, ~ free_group p n cnt) /\
   palloc_get_multiple s flags cnt = if flag flags PAL_ASSERT then Panic else Ret (s, NULL)) \/
  exists n s' s'', palloc_get_multiple s flags cnt = Ret (s', PGSIZE * n) /\ 0 < n /\
    free_group p n cnt /\ (forall k, k < n -> ~ free_group p k cnt) /\
    (forall k, page_used s' k = if in_range n cnt k then true else page_used s k) /\
    (if flag flags PAL_ZERO then filled (ram s) (ram s') (PGSIZE * n) (PGSIZE * cnt) 0 else ram s' = ram s) /\
    palloc_free_multiple s' (PGSIZE * n) cnt = Ret s'' /\
    (forall k, page_used s'' k = page_used s k) /\
    filled (ram s') (ram s'') (PGSIZE * n) (PGSIZE * cnt) 0xcc /\
    palloc_free_multiple s'' (PGSIZE * n) cnt = Panic.
Proof.
  intros Hs Hc p. destruct (pal_get_ok s flags cnt Hs Hc) as [H|H]; [by left|right].
  destruct H as (n & s' & E & Hn & Hg & Hmin & Hs' & Hl & Hu & Hr). fold p in Hg. pose proof Hg as (Hg1 & Hg2 & Hg3).
  set (user := flag flags PAL_USER) in *.
  assert (H1 : first_page (pool_at s' user) <= n) by (by rewrite (same_layout_first s s' user Hl)).
  assert (H2 : n + cnt <= first_page (pool_at s' user) + page_cnt (pool_at s' user)).
  { rewrite (same_layout_first s s' user Hl). by destruct (Hl user) as [_ ->]. }
  assert (Hr0 : forall k, in_range n cnt k = true -> page_used s k = false).
  { intros k Hk%in_range_spec. by apply (free_group_unused s user n cnt k Hs Hg). }
  destruct (pal_free_ok s' user n cnt Hs' Hc H1 H2) as [[(k & Hk & Hku) _]|[_ (s'' & E2 & Hs'' & Hl' & Hu' & Hf)]].
  { rewrite Hu, (proj2 (in_range_spec n cnt k) Hk) in Hku. done. }
  exists n, s', s''. unfold PGSIZE. split_and!; try done.
  - intros k. rewrite Hu', Hu. destruct (in_range n cnt k) eqn:Ek; [|done]. by rewrite Hr0.
  - destruct (pal_free_ok s'' user n cnt Hs'' Hc) as [[_ Hp]|[Hall _]]; [| |done|].
    + rewrite (same_layout_first s' s'' user Hl'). done.
    + rewrite (same_layout_first s' s'' user Hl'). by destruct (Hl' user) as [_ ->].
    + specialize (Hall n ltac:(lia)). rewrite Hu' in Hall. by rewrite (proj2 (in_range_spec n cnt n)) in Hall by lia.
Qed.

(** ** A small machine *)

Definition blank (a n : Z) : mem := list_to_map ((fun q => (q, 0)) <$> seqZ a n).

Lemma blank_mapped a n q : a <= q < a + n -> is_Some (blank a n !! q).
Proof.
  intros Hq. exists 0. apply elem_of_list_to_map_1'.
  - intros y (z & Hz & _)%list_elem_of_fmap. by simplify_eq.
  - apply list_elem_of_fmap. exists q. split; [done|]. apply elem_of_seqZ. lia.
Qed.

Lemma blank_zero a n q b : blank a n !! q = Some b -> b = 0.
Proof.
  intros H%elem_of_list_to_map_2. apply list_elem_of_fmap in H as (z & E & _). by injection E.
Qed.

#[global] Opaque blank.

Lemma small_machine : machine (blank PHYS_BASE (8 * 4096)) (PHYS_BASE + 1) 8 100.
Proof.
  split; [reflexivity|lia|by vm_compute|reflexivity|lia|]. intros a Ha. apply blank_mapped. lia.
Qed.

Lemma palloc_exclusive_witness :
  exists s0 s live, palloc_init (blank PHYS_BASE (8 * 4096)) (PHYS_BASE + 1) 8 100 = Ret s0 /\
    pal_run [PGet 0 2; PGet PAL_USER 1; PFree 1; PGet PAL_ZERO 1; PGet PAL_USER 7; PFree 5] (s0, []) = Ret (s, live) /\
    Forall (group_in s) live.
Proof.
  assert (Hos : Forall no_assert [PGet 0 2; PGet PAL_USER 1; PFree 1; PGet PAL_ZERO 1; PGet PAL_USER 7; PFree 5])
    by (repeat (apply Forall_cons; split; [try split; done|]); by apply Forall_nil).
  destruct (palloc_exclusive _ _ _ _ _ small_machine Hos) as (s0 & s & live & H1 & H2 & _ & H3 & _).
  exists s0, s, live. exact (conj H1 (conj H2 H3)).
Defined.

(** Two pools of three pages. *)
Definition tiny : pages :=
  mkPages (mkPool (Bitmap 3 [0]) 8192) (mkPool (Bitmap 3 [0]) 20480) (blank 8192 24576).

Lemma tiny_wf : pages_wf tiny.
Proof.
  assert (Hb : wf (Bitmap 3 [0])) by (split; [simpl; lia|by vm_compute|repeat constructor; lia]).
  split; [| |change (2 + 3 <= 5); lia].
  - split; [exact Hb|reflexivity|reflexivity|change (8192 + 4096 * 3 <= 2 ^ 32); lia|].
    intros a Ha. change (8192 <= a < 8192 + 4096 * 3) in Ha. apply blank_mapped. lia.
  - split; [exact Hb|reflexivity|reflexivity|change (20480 + 4096 * 3 <= 2 ^ 32); lia|].
    intros a Ha. change (20480 <= a < 20480 + 4096 * 3) in Ha. apply blank_mapped. lia.
Qed.

Lemma palloc_get_free_witness :
  pages_wf tiny /\ exists n s' s'', palloc_get_multiple tiny PAL_ZERO 2 = Ret (s', PGSIZE * n) /\
    palloc_free_multiple s' (PGSIZE * n) 2 = Ret s'' /\ palloc_free_multiple s'' (PGSIZE * n) 2 = Panic.
Proof.
  split; [exact tiny_wf|]. assert (Hc : 0 < 2) by lia.
  destruct (palloc_get_free tiny PAL_ZERO 2 tiny_wf Hc) as [[Hn _]|(n & s' & s'' & H1 & _ & _ & _ & _ & _ & H2 & _ & _ & H3)].
  - exfalso. apply (Hn 2). split; [change (2 <= 2); lia|]. split; [change (2 + 2 <= 2 + 3); lia|].
    intros k Hk. assert (k = 2 \/ k = 3) as [-> | ->] by lia; reflexivity.
  - exists n, s', s''. exact (conj H1 (conj H2 H3)).
Defined.
