(* ===== verification/Malloc.v ===== *)
(** * threads/malloc.c: the block allocator

    Descriptors and arena headers are records beside the memory: a header is the
    entry of [arenas] at the address of its page, the free list of a descriptor is the
    sequence of the addresses of its blocks.  The bytes of memory that hold headers
    and list links have no meaning in [ram].  Every call is one step: the lock of the
    descriptor makes it so. *)

From S2P Require Import Prelude Bitmap Vaddr Cstring Palloc.

(** ** Operations *)

Record desc := mkDesc { d_block_size : Z; blocks_per_arena : Z; free_list : list Z }.

Definition ARENA_MAGIC : Z := 0x9a548eed.
Definition SIZEOF_ARENA : Z := 12.

(** [a_desc] is the index of the owning descriptor, [None] for a big block. *)
Record arena := mkArena { magic : Z; a_desc : option nat; free_cnt : Z }.

Record heap := mkHeap { pal : pages; descs : list desc; arenas : gmap Z arena }.

Definition with_pal (h : heap) (s : pages) : heap := mkHeap s (descs h) (arenas h).
Definition with_descs (h : heap) (l : list desc) : heap := mkHeap (pal h) l (arenas h).
Definition with_arenas (h : heap) (m : gmap Z arena) : heap := mkHeap (pal h) (descs h) m.

Definition get_desc (h : heap) (i : nat) : res desc := aget (descs h) (Z.of_nat i).
Definition set_free_list (h : heap) (i : nat) (l : list Z) : res heap :=
  let! d := get_desc h i in
  let! ds := aset (descs h) (Z.of_nat i) (mkDesc (d_block_size d) (blocks_per_arena d) l) in
  Ret (with_descs h ds).
Definition header (h : heap) (a : Z) : res arena := of_opt (arenas h !! a).

(** The array [descs] has ten elements. *)
Definition malloc_init (s : pages) : res heap :=
  let! ds := iter 32
    (fun '(block_size, ds) =>
       if bool_decide (block_size < PGSIZE / 2) then
         ASSERT bool_decide (Z.of_nat (length ds) + 1 <= 10);
         let d := mkDesc block_size ((PGSIZE - SIZEOF_ARENA) / block_size) [] in
         Ret (inl (u32 (block_size * 2), ds ++ [d]))
       else Ret (inr ds))
    (16, []) in
  Ret (mkHeap s ds ∅).

Definition block_to_arena (h : heap) (b : Z) : res Z :=
  let a := pg_round_down b in
  ASSERT bool_decide (a <> NULL);
  let! ar := header h a in
  ASSERT bool_decide (magic ar = ARENA_MAGIC);
  match a_desc ar with
  | Some i =>
      let! d := get_desc h i in
      ASSERT bool_decide (u32 (pg_ofs b - SIZEOF_ARENA) mod d_block_size d = 0);
      Ret a
  | None => ASSERT bool_decide (pg_ofs b = SIZEOF_ARENA); Ret a
  end.

Definition arena_to_block (h : heap) (a idx : Z) : res Z :=
  ASSERT bool_decide (a <> NULL);
  let! ar := header h a in
  ASSERT bool_decide (magic ar = ARENA_MAGIC);
  let! i := of_opt (a_desc ar) in
  let! d := get_desc h i in
  ASSERT bool_decide (idx < blocks_per_arena d);
  Ret (u32 (a + SIZEOF_ARENA + idx * d_block_size d)).

(** The smallest descriptor whose blocks hold [size] bytes. *)
Definition find_desc (h : heap) (size : Z) : option nat :=
  fst <$> list_find (fun d => d_block_size d >= size) (descs h).

Definition new_big (h : heap) (size : Z) : res (heap * Z) :=
  let page_cnt := DIV_ROUND_UP (u32 (size + SIZEOF_ARENA)) PGSIZE in
  let! '(s, a) := palloc_get_multiple (pal h) 0 page_cnt in
  let h := with_pal h s in
  if bool_decide (a = NULL) then Ret (h, NULL)
  else
    let h := with_arenas h (<[a := mkArena ARENA_MAGIC None page_cnt]> (arenas h)) in
    Ret (h, u32 (a + SIZEOF_ARENA)).

(** A new page of blocks for descriptor [i]; [false] when there is no page. *)
Definition new_arena (h : heap) (i : nat) : res (heap * bool) :=
  let! d := get_desc h i in
  let! '(s, a) := palloc_get_page (pal h) 0 in
  let h := with_pal h s in
  if bool_decide (a = NULL) then Ret (h, false)
  else
    let h := with_arenas h (<[a := mkArena ARENA_MAGIC (Some i) (blocks_per_arena d)]> (arenas h)) in
    let! h := for_up (Z.to_nat (blocks_per_arena d)) 0
      (fun k h =>
         let! b := arena_to_block h a k in
         let! d := get_desc h i in
         set_free_list h i (free_list d ++ [b])) h in
    Ret (h, true).

Definition take_block (h : heap) (i : nat) : res (heap * Z) :=
  let! d := get_desc h i in
  match free_list d with
  | [] => Panic
  | b :: rest =>
      let! h := set_free_list h i rest in
      let! a := block_to_arena h b in
      let! ar := header h a in
      Ret (with_arenas h (<[a := mkArena (magic ar) (a_desc ar) (u32 (free_cnt ar - 1))]> (arenas h)), b)
  end.

Definition malloc (h : heap) (size : Z) : res (heap * Z) :=
  if bool_decide (size = 0) then Ret (h, NULL)
  else
    match find_desc h size with
    | None => new_big h size
    | Some i =>
        let! d := get_desc h i in
        let! '(h, ok) := (match free_list d with [] => new_arena h i | _ => Ret (h, true) end) in
        if ok then take_block h i else Ret (h, NULL)
    end.

Definition calloc (h : heap) (a b : Z) : res (heap * Z) :=
  let size := u32 (a * b) in
  if bool_decide (size < a) || bool_decide (size < b) then Ret (h, NULL)
  else
    let! '(h, p) := malloc h size in
    if bool_decide (p <> NULL) then
      let! '(m, _) := memset (ram (pal h)) p 0 size in Ret (with_pal h (with_ram (pal h) m), p)
    else Ret (h, p).

Definition block_size (h : heap) (block : Z) : res Z :=
  let! a := block_to_arena h block in
  let! ar := header h a in
  match a_desc ar with
  | Some i => let! d := get_desc h i in Ret (d_block_size d)
  | None => Ret (u32 (PGSIZE * free_cnt ar - pg_ofs block))
  end.

(** [list_remove] of the element in block [b]: a block that is in no list has no links. *)
Definition unlink (b : Z) (l : list Z) : res (list Z) :=
  if bool_decide (b ∈ l) then Ret (filter (fun x => x <> b) l) else Ub.

(** The arena's blocks leave the free list; its page, header included, is filled with
    [0xcc] and given back. *)
Definition free_arena (h : heap) (i : nat) (a : Z) : res heap :=
  let! d := get_desc h i in
  let! h := for_up (Z.to_nat (blocks_per_arena d)) 0
    (fun k h =>
       let! b := arena_to_block h a k in
       let! d := get_desc h i in
       let! l := unlink b (free_list d) in
       set_free_list h i l) h in
  let! s := palloc_free_page (pal h) a in
  Ret (with_arenas (with_pal h s) (delete a (arenas h))).

Definition free (h : heap) (p : Z) : res heap :=
  if bool_decide (p = NULL) then Ret h
  else
    let! a := block_to_arena h p in
    let! ar := header h a in
    match a_desc ar with
    | Some i =>
        let! d := get_desc h i in
        let! '(m, _) := memset (ram (pal h)) p 0xcc (d_block_size d) in
        let h := with_pal h (with_ram (pal h) m) in
        let! h := set_free_list h i (p :: free_list d) in
        let cnt := u32 (free_cnt ar + 1) in
        let h := with_arenas h (<[a := mkArena (magic ar) (a_desc ar) cnt]> (arenas h)) in
        if bool_decide (cnt >= blocks_per_arena d) then
          ASSERT bool_decide (cnt = blocks_per_arena d);
          free_arena h i a
        else Ret h
    | None =>
        let! s := palloc_free_multiple (pal h) a (free_cnt ar) in
        Ret (with_arenas (with_pal h s) (delete a (arenas h)))
    end.

Definition realloc (h : heap) (old_block new_size : Z) : res (heap * Z) :=
  if bool_decide (new_size = 0) then let! h := free h old_block in Ret (h, NULL)
  else
    let! '(h, new_block) := malloc h new_size in
    if bool_decide (old_block <> NULL) && bool_decide (new_block <> NULL) then
      let! old_size := block_size h old_block in
      let min_size := if bool_decide (new_size < old_size) then new_size else old_size in
      let! '(m, _) := memcpy (ram (pal h)) new_block old_block min_size in
      let! h := free (with_pal h (with_ram (pal h) m)) old_block in
      Ret (h, new_block)
    else Ret (h, new_block).
