(* ===== verification/MallocProof.v ===== *)
(** * The block allocator keeps blocks apart and returns every page *)

From S2P Require Import Prelude Bitmap Vaddr Cstring CstringProof Palloc Malloc.

(** ** Sizes *)

Definition dsize (i : nat) : Z := 16 * 2 ^ Z.of_nat i.
Definition dblocks (i : nat) : Z := 4084 / dsize i.

Lemma dsize_bounds i : (i < 7)%nat -> 16 <= dsize i <= 1024 /\ 3 <= dblocks i <= 255 /\ dblocks i * dsize i <= 4084.
Proof. intros Hi. do 7 (destruct i as [|i]; [by vm_compute|]). lia. Qed.

(** The page of an address. *)
Definition page (p : Z) : Z := p - p mod 4096.

(** The number of pages of an arena, and whether page [k] is one of them. *)
Definition extent (ar : arena) : Z := match a_desc ar with Some _ => 1 | None => free_cnt ar end.
Definition covers (a : Z) (ar : arena) (k : Z) : Prop := a / 4096 <= k < a / 4096 + extent ar.

(** [p] is a block of the arena at [a], with room for [cap] bytes. *)
Definition block_of (a : Z) (ar : arena) (p cap : Z) : Prop :=
  match a_desc ar with
  | Some i => (i < 7)%nat /\ cap = dsize i /\ exists k, 0 <= k < dblocks i /\ p = a + 12 + k * dsize i
  | None => p = a + 12 /\ cap = 4096 * free_cnt ar - 12
  end.

Definition arena_ok (s : pages) (a : Z) (ar : arena) : Prop :=
  magic ar = ARENA_MAGIC /\ (forall i, a_desc ar = Some i -> (i < 7)%nat) /\ 0 < extent ar /\
  exists n, a = 4096 * n /\ 0 < n /\ first_page (kernel_pool s) <= n /\
    n + extent ar <= first_page (kernel_pool s) + page_cnt (kernel_pool s).

Lemma block_of_bounds s a ar p cap : arena_ok s a ar -> block_of a ar p cap ->
  a + 12 <= p /\ p + cap <= a + 4096 * extent ar /\ page p = a /\ p mod 4096 = p - a /\ 0 < cap /\ 0 < a.
Proof.
  intros (_ & Hi & He & n & -> & Hn & _) Hb.
  assert (Hp : 4096 * n + 12 <= p /\ p + cap <= 4096 * n + 4096 * extent ar /\ p < 4096 * n + 4096 /\ 0 < cap).
  { unfold block_of, extent in *. destruct (a_desc ar) as [i|].
    - destruct Hb as (Hi7 & -> & k & Hk & ->). pose proof (dsize_bounds i Hi7). nia.
    - destruct Hb as [-> ->]. lia. }
  assert (p mod 4096 = p - 4096 * n) by (symmetry; apply (Z.mod_unique _ _ n); lia).
  unfold page. split_and!; lia.
Qed.

Lemma block_of_apart s a ar p cap q cap' : arena_ok s a ar -> block_of a ar p cap -> block_of a ar q cap' ->
  p <> q -> p + cap <= q \/ q + cap' <= p.
Proof.
  intros (_ & Hi & _) Hb Hb' Hne. unfold block_of in *. destruct (a_desc ar) as [i|].
  - destruct Hb as (Hi7 & -> & k & Hk & ->), Hb' as (_ & -> & k' & Hk' & ->). pose proof (dsize_bounds i Hi7).
    assert (k <> k') by congruence. destruct (Z_lt_ge_dec k k'); [left|right]; nia.
  - destruct Hb as [-> _], Hb' as [-> _]. done.
Qed.

(** ** The pages of the arenas *)

Record geo (others : Z -> bool) (s : pages) (ars : gmap Z arena) : Prop := {
  g_pal : pages_wf s;
  g_arena : forall a ar, ars !! a = Some ar -> arena_ok s a ar;
  g_used : forall k, page_used s k = true <-> others k = true \/ exists a ar, ars !! a = Some ar /\ covers a ar k;
  g_sep : forall a1 ar1 a2 ar2 k, ars !! a1 = Some ar1 -> ars !! a2 = Some ar2 -> covers a1 ar1 k -> covers a2 ar2 k -> a1 = a2;
  g_oth : forall a ar k, ars !! a = Some ar -> covers a ar k -> others k = false
}.

Lemma arena_ok_layout s s' a ar : same_layout s s' -> arena_ok s a ar -> arena_ok s' a ar.
Proof.
  intros Hl (? & ? & ? & n & ? & ? & ? & ?). pose proof (same_layout_first s s' false Hl) as Hf.
  destruct (Hl false) as [_ Hc]. simpl in *. split_and!; try done. exists n. by rewrite Hf, Hc.
Qed.

Lemma covers_range n ar k : covers (4096 * n) ar k <-> n <= k < n + extent ar.
Proof. unfold covers. by rewrite Z.mul_comm, Z.div_mul by lia. Qed.

(** A new arena on pages that were free. *)
Lemma geo_insert others s ars s' n ar : geo others s ars -> pages_wf s' -> same_layout s s' ->
  0 < n -> 0 < extent ar -> magic ar = ARENA_MAGIC -> (forall i, a_desc ar = Some i -> (i < 7)%nat) ->
  free_group (kernel_pool s) n (extent ar) ->
  (forall k, page_used s' k = if in_range n (extent ar) k then true else page_used s k) ->
  geo others s' (<[4096 * n := ar]> ars) /\ ars !! (4096 * n) = None.
Proof.
  intros [Hp Ha Hu Hs Ho] Hp' Hl Hn He Hm Hi Hg Hu'.
  assert (Hfresh : forall k, n <= k < n + extent ar -> page_used s k = false).
  { intros k Hk. by apply (free_group_unused s false n (extent ar) k Hp Hg). }
  assert (Hno : forall a' ar' k, ars !! a' = Some ar' -> covers a' ar' k -> n <= k < n + extent ar -> False).
  { intros a' ar' k Ha' Hc Hk. specialize (Hfresh k Hk). assert (page_used s k = true) by (apply Hu; right; eauto). congruence. }
  assert (Hnone : ars !! (4096 * n) = None).
  { destruct (ars !! (4096 * n)) as [ar'|] eqn:E; [exfalso|done]. pose proof (Ha _ _ E) as (_ & _ & He' & _).
    apply (Hno _ _ n E); [|lia]. apply covers_range. lia. }
  split; [|done]. split.
  - done.
  - intros a' ar' H. apply lookup_insert_Some in H as [[<- <-]|[_ H]].
    + split_and!; [done|done|done|]. exists n. pose proof (same_layout_first s s' false Hl) as Hf.
      destruct (Hl false) as [_ Hc], Hg as (? & ? & _). simpl in *. by rewrite Hf, Hc.
    + by apply (arena_ok_layout s s'), Ha.
  - intros k. rewrite Hu'. destruct (in_range n (extent ar) k) eqn:E.
    + apply in_range_spec in E. split; [intros _|done]. right. exists (4096 * n), ar.
      split; [by rewrite lookup_insert_eq|by apply covers_range].
    + rewrite Hu. split; (intros [|(a' & ar' & H & Hc)]; [by left|right]).
      * exists a', ar'. split; [|done]. rewrite lookup_insert_ne; [done|]. intros <-. congruence.
      * apply lookup_insert_Some in H as [[<- <-]|[_ H]]; [|by eauto]. rewrite covers_range in Hc.
        apply Bool.not_true_iff_false in E. rewrite in_range_spec in E. exfalso; lia.
  - intros a1 ar1 a2 ar2 k H1 H2 Hc1 Hc2.
    apply lookup_insert_Some in H1 as [[<- <-]|[_ H1]], H2 as [[<- <-]|[_ H2]]; [done| | |by eapply Hs].
    + rewrite covers_range in Hc1. by destruct (Hno _ _ _ H2 Hc2 Hc1).
    + rewrite covers_range in Hc2. by destruct (Hno _ _ _ H1 Hc1 Hc2).
  - intros a' ar' k H Hc. apply lookup_insert_Some in H as [[<- <-]|[_ H]]; [|by eapply Ho].
    rewrite covers_range in Hc. specialize (Hfresh k Hc). destruct (others k) eqn:E; [|done].
    assert (page_used s k = true) by (apply Hu; by left). congruence.
Qed.

(** An arena whose pages were given back. *)
Lemma geo_delete others s ars s' n ar : geo others s ars -> pages_wf s' -> same_layout s s' ->
  ars !! (4096 * n) = Some ar ->
  (forall k, page_used s' k = if in_range n (extent ar) k then false else page_used s k) ->
  geo others s' (delete (4096 * n) ars).
Proof.
  intros [Hp Ha Hu Hs Ho] Hp' Hl Har Hu'. split.
  - done.
  - intros a' ar' [_ H]%lookup_delete_Some. by apply (arena_ok_layout s s'), Ha.
  - intros k. rewrite Hu'. destruct (in_range n (extent ar) k) eqn:E.
    + apply in_range_spec in E. assert (Hc : covers (4096 * n) ar k) by (by apply covers_range).
      split; [done|]. intros [H|(a' & ar' & [Hne H]%lookup_delete_Some & Hc')].
      * by rewrite (Ho _ _ _ Har Hc) in H.
      * destruct Hne. by apply (Hs (4096 * n) ar a' ar' k).
    + rewrite Hu. split; (intros [|(a' & ar' & H & Hc)]; [by left|right]).
      * exists a', ar'. split; [|done]. apply lookup_delete_Some. split; [|done]. intros <-.
        rewrite Har in H. injection H as <-. rewrite covers_range in Hc. apply in_range_spec in Hc. congruence.
      * apply lookup_delete_Some in H as [_ H]. eauto.
  - intros a1 ar1 a2 ar2 k [_ H1]%lookup_delete_Some [_ H2]%lookup_delete_Some. by apply Hs.
  - intros a' ar' k [_ H]%lookup_delete_Some. by apply Ho.
Qed.

(** A change to the counter of a small arena, and a change of memory. *)
Lemma geo_cnt others s ars a ar i c : geo others s ars -> ars !! a = Some ar -> a_desc ar = Some i ->
  geo others s (<[a := mkArena (magic ar) (a_desc ar) c]> ars).
Proof.
  intros [Hp Ha Hu Hs Ho] Har Hi.
  assert (Hlk : forall a' ar', <[a := mkArena (magic ar) (a_desc ar) c]> ars !! a' = Some ar' ->
    exists ar0, ars !! a' = Some ar0 /\ extent ar0 = extent ar' /\ magic ar0 = magic ar' /\ a_desc ar0 = a_desc ar').
  { intros a' ar' [[<- <-]|[_ H]]%lookup_insert_Some; [|by eauto]. exists ar. unfold extent; simpl. by rewrite Hi. }
  assert (Hlk' : forall a' ar0, ars !! a' = Some ar0 ->
    exists ar', <[a := mkArena (magic ar) (a_desc ar) c]> ars !! a' = Some ar' /\ extent ar0 = extent ar').
  { intros a' ar0 H. destruct (decide (a' = a)) as [->|]; [|exists ar0; by rewrite lookup_insert_ne].
    rewrite Har in H. injection H as <-. eexists; split; [by rewrite lookup_insert_eq|]. unfold extent; simpl. by rewrite Hi. }
  split.
  - done.
  - intros a' ar' H. destruct (Hlk _ _ H) as (ar0 & H0 & E1 & E2 & E3). pose proof (Ha _ _ H0) as Hok.
    unfold arena_ok in *. by rewrite <- E1, <- E2, <- E3.
  - intros k. rewrite Hu. split; (intros [|(a' & ar' & H & Hc)]; [by left|right]).
    + destruct (Hlk' _ _ H) as (ar2 & H2 & E2). exists a', ar2. unfold covers in *. by rewrite <- E2.
    + destruct (Hlk _ _ H) as (ar2 & H2 & E2 & _). exists a', ar2. unfold covers in *. by rewrite E2.
  - intros a1 ar1 a2 ar2 k H1 H2. destruct (Hlk _ _ H1) as (? & ? & E1 & _), (Hlk _ _ H2) as (? & ? & E2 & _).
    unfold covers. rewrite <- E1, <- E2. intros. by eapply Hs.
  - intros a' ar' k H. destruct (Hlk _ _ H) as (? & ? & E1 & _). unfold covers. rewrite <- E1. intros. by eapply Ho.
Qed.

Lemma geo_ram others s ars m : geo others s ars -> (forall q, is_Some (ram s !! q) -> is_Some (m !! q)) ->
  geo others (with_ram s m) ars.
Proof.
  intros [[Hk Hus Hap] Ha Hu Hs Ho] Hm. split; try done. split; [| |done]; simpl; by eapply pool_wf_ram.
Qed.

(** ** The blocks: free or held by the client *)

Definition is_free (fl : nat -> list Z) (ar : arena) (p : Z) : Prop :=
  match a_desc ar with Some i => p ∈ fl i | None => False end.

(** The blocks of an arena of descriptor [i] at [a]. *)
Definition blocks (a : Z) (i : nat) (n : Z) : list Z := (fun k => a + 12 + k * dsize i) <$> seqZ 0 n.

(** [live] maps the blocks the client holds to the sizes it asked for; only the arena
    [ex] may be without one. *)
Record blk (fl : nat -> list Z) (ars : gmap Z arena) (live : gmap Z Z) (ex : option Z) : Prop := {
  b_free : forall i p, p ∈ fl i -> exists a ar cap, ars !! a = Some ar /\ a_desc ar = Some i /\ block_of a ar p cap;
  b_nodup : forall i, NoDup (fl i);
  b_cnt : forall a ar i, ars !! a = Some ar -> a_desc ar = Some i ->
    free_cnt ar = Z.of_nat (length (filter (fun p => page p = a) (fl i)));
  b_live : forall p sz, live !! p = Some sz -> 0 < sz /\
    exists a ar cap, ars !! a = Some ar /\ block_of a ar p cap /\ ~ is_free fl ar p /\ sz <= cap;
  b_cover : forall a ar p cap, ars !! a = Some ar -> block_of a ar p cap -> is_free fl ar p \/ is_Some (live !! p);
  b_some : forall a ar, ars !! a = Some ar -> ex <> Some a -> exists p cap, block_of a ar p cap /\ is_Some (live !! p)
}.

Definition upd (fl : nat -> list Z) (i : nat) (l : list Z) : nat -> list Z :=
  fun j => if decide (j = i) then l else fl j.

Lemma fl_upd_eq fl i l : upd fl i l i = l.
Proof. unfold upd. by rewrite decide_True. Qed.
Lemma fl_upd_ne fl i l j : j <> i -> upd fl i l j = fl j.
Proof. intros. unfold upd. by rewrite decide_False. Qed.

Section Transitions.
Context (s : pages) (ars : gmap Z arena).
Hypothesis Hok : forall a ar, ars !! a = Some ar -> arena_ok s a ar.

Lemma block_page a ar p cap : ars !! a = Some ar -> block_of a ar p cap -> page p = a.
Proof. intros Ha Hb. by apply (block_of_bounds s a ar p cap (Hok _ _ Ha)). Qed.

(** The arenas after the counter of one of them changed. *)
Lemma cnt_lookup a ar i c a' ar' : ars !! a = Some ar -> a_desc ar = Some i ->
  <[a := mkArena (magic ar) (a_desc ar) c]> ars !! a' = Some ar' ->
  exists ar0, ars !! a' = Some ar0 /\ a_desc ar' = a_desc ar0 /\
    (forall p cap, block_of a' ar' p cap <-> block_of a' ar0 p cap) /\
    (forall fl p, is_free fl ar' p <-> is_free fl ar0 p) /\
    (a' = a /\ free_cnt ar' = c \/ a' <> a /\ free_cnt ar' = free_cnt ar0).
Proof.
  intros Ha Hi [[<- <-]|[Hne H]]%lookup_insert_Some.
  - exists ar. split_and!; [done|done| |done|by left]. intros p cap. unfold block_of; simpl. by rewrite Hi.
  - exists ar'. split_and!; [done|done|done|done|]. right. done.
Qed.

Lemma cnt_lookup' a ar i c a' ar0 : ars !! a = Some ar -> a_desc ar = Some i -> ars !! a' = Some ar0 ->
  exists ar', <[a := mkArena (magic ar) (a_desc ar) c]> ars !! a' = Some ar' /\ a_desc ar' = a_desc ar0 /\
    (forall p cap, block_of a' ar' p cap <-> block_of a' ar0 p cap) /\
    (forall fl p, is_free fl ar' p <-> is_free fl ar0 p).
Proof.
  intros Ha Hi H. destruct (decide (a' = a)) as [->|].
  - rewrite Ha in H. injection H as <-. eexists; split; [by rewrite lookup_insert_eq|].
    split_and!; [done| |done]. intros p cap. unfold block_of; simpl. by rewrite Hi.
  - exists ar0. rewrite lookup_insert_ne by done. done.
Qed.

(** [malloc] takes the first block of a free list. *)
Lemma blk_pop fl live ex i p rest a ar cap sz : blk fl ars live ex -> fl i = p :: rest ->
  ars !! a = Some ar -> a_desc ar = Some i -> block_of a ar p cap -> ex = None \/ ex = Some a -> 0 < sz <= cap ->
  blk (upd fl i rest) (<[a := mkArena (magic ar) (a_desc ar) (free_cnt ar - 1)]> ars) (<[p := sz]> live) None.
Proof.
  intros [Bf Bn Bc Bl Bv Bs] Efl Ha Hi Hb Hex Hsz.
  assert (Hpg : page p = a) by (by eapply block_page). pose proof (Bn i) as Hnd. rewrite Efl in Hnd.
  apply NoDup_cons in Hnd as [Hp Hnd].
  assert (Hup : forall j q, q ∈ upd fl i rest j <-> q ∈ fl j /\ (j = i -> q <> p)).
  { intros j q. destruct (decide (j = i)) as [->|]; [rewrite fl_upd_eq, Efl; set_solver|rewrite fl_upd_ne by done; naive_solver]. }
  assert (Hfree : forall ar0 q, is_free (upd fl i rest) ar0 q <-> is_free fl ar0 q /\ (a_desc ar0 = Some i -> q <> p)).
  { intros ar0 q. unfold is_free. destruct (a_desc ar0) as [j|]; [|naive_solver]. rewrite Hup. naive_solver. }
  assert (Hlp : forall a' ar' q cap', ars !! a' = Some ar' -> block_of a' ar' q cap' -> q = p -> a' = a).
  { intros a' ar' q cap' H1 H2 ->. rewrite <- Hpg. symmetry. by eapply block_page. }
  split.
  - intros j q [Hq _]%Hup. destruct (Bf j q Hq) as (a' & ar' & cap' & H1 & H2 & H3).
    destruct (cnt_lookup' a ar i (free_cnt ar - 1) a' ar' Ha Hi H1) as (ar2 & E1 & E2 & E3 & _).
    exists a', ar2, cap'. split_and!; [done|congruence|by apply E3].
  - intros j. destruct (decide (j = i)) as [->|]; [by rewrite fl_upd_eq|by rewrite fl_upd_ne].
  - intros a' ar' j H Hj. destruct (cnt_lookup _ _ _ _ _ _ Ha Hi H) as (ar0 & H0 & E & _ & _ & Hor).
    rewrite E in Hj. specialize (Bc _ _ _ H0 Hj). destruct Hor as [[-> Ec]|[Hne Ec]]; rewrite Ec.
    + rewrite Ha in H0. injection H0 as <-. rewrite Hi in Hj. injection Hj as <-. rewrite fl_upd_eq, Bc, Efl, filter_cons.
      rewrite decide_True by done. simpl. lia.
    + destruct (decide (j = i)) as [->|]; [|by rewrite fl_upd_ne]. rewrite fl_upd_eq, Bc, Efl, filter_cons.
      by rewrite decide_False by congruence.
  - intros q sz' [[<- <-]|[Hne H]]%lookup_insert_Some.
    + split; [lia|]. destruct (cnt_lookup' a ar i (free_cnt ar - 1) a ar Ha Hi Ha) as (ar2 & E1 & E2 & E3 & E4).
      exists a, ar2, cap. split_and!; [done|by apply E3| |lia]. rewrite E4, Hfree. naive_solver.
    + destruct (Bl _ _ H) as (H0 & a' & ar' & cap' & H1 & H2 & H3 & H4). split; [done|].
      destruct (cnt_lookup' a ar i (free_cnt ar - 1) a' ar' Ha Hi H1) as (ar2 & E1 & E2 & E3 & E4).
      exists a', ar2, cap'. split_and!; [done|by apply E3| |done]. rewrite E4, Hfree. naive_solver.
  - intros a' ar' q cap' H Hbq. destruct (cnt_lookup _ _ _ _ _ _ Ha Hi H) as (ar0 & H0 & E & E3 & E4 & _).
    apply E3 in Hbq. destruct (decide (q = p)) as [->|Hne]; [right; rewrite lookup_insert_eq; eauto|].
    rewrite lookup_insert_ne by done. destruct (Bv _ _ _ _ H0 Hbq) as [Hf|]; [left|by right]. rewrite E4, Hfree. naive_solver.
  - intros a' ar' H _. destruct (cnt_lookup _ _ _ _ _ _ Ha Hi H) as (ar0 & H0 & E & E3 & _ & _).
    destruct (decide (a' = a)) as [->|Hne].
    + exists p, cap. rewrite lookup_insert_eq. split; [|eauto]. apply E3. congruence.
    + destruct (Bs _ _ H0) as (q & cap' & H1 & H2); [naive_solver|]. exists q, cap'. split; [by apply E3|].
      apply lookup_insert_is_Some. destruct (decide (p = q)); eauto.
Qed.

(** [free] puts a block back. *)
Lemma blk_push fl live i p sz a ar cap : blk fl ars live None -> live !! p = Some sz ->
  ars !! a = Some ar -> a_desc ar = Some i -> block_of a ar p cap ->
  blk (upd fl i (p :: fl i)) (<[a := mkArena (magic ar) (a_desc ar) (free_cnt ar + 1)]> ars) (delete p live) (Some a) /\
  p ∉ fl i.
Proof.
  intros [Bf Bn Bc Bl Bv Bs] Hlive Ha Hi Hb. assert (Hpg : page p = a) by (by eapply block_page).
  assert (Hp : p ∉ fl i).
  { destruct (Bl _ _ Hlive) as (_ & a' & ar' & cap' & H1 & H2 & H3 & _).
    assert (a' = a) as -> by (rewrite <- Hpg; symmetry; by eapply block_page). rewrite Ha in H1. injection H1 as <-.
    unfold is_free in H3. by rewrite Hi in H3. }
  assert (Hup : forall j q, q ∈ upd fl i (p :: fl i) j <-> q ∈ fl j \/ (j = i /\ q = p)).
  { intros j q. destruct (decide (j = i)) as [->|]; [rewrite fl_upd_eq; set_solver|rewrite fl_upd_ne by done; naive_solver]. }
  assert (Hfree : forall ar0 q, is_free (upd fl i (p :: fl i)) ar0 q <-> is_free fl ar0 q \/ (a_desc ar0 = Some i /\ q = p)).
  { intros ar0 q. unfold is_free. destruct (a_desc ar0) as [j|]; [|naive_solver]. rewrite Hup. naive_solver. }
  split; [|done]. split.
  - intros j q [Hq|[-> ->]]%Hup.
    + destruct (Bf j q Hq) as (a' & ar' & cap' & H1 & H2 & H3).
      destruct (cnt_lookup' a ar i (free_cnt ar + 1) a' ar' Ha Hi H1) as (ar2 & E1 & E2 & E3 & _).
      exists a', ar2, cap'. split_and!; [done|congruence|by apply E3].
    + destruct (cnt_lookup' a ar i (free_cnt ar + 1) a ar Ha Hi Ha) as (ar2 & E1 & E2 & E3 & _).
      exists a, ar2, cap. split_and!; [done|congruence|by apply E3].
  - intros j. destruct (decide (j = i)) as [->|]; [rewrite fl_upd_eq; by constructor|by rewrite fl_upd_ne].
  - intros a' ar' j H Hj. destruct (cnt_lookup _ _ _ _ _ _ Ha Hi H) as (ar0 & H0 & E & _ & _ & Hor).
    rewrite E in Hj. specialize (Bc _ _ _ H0 Hj). destruct Hor as [[-> Ec]|[Hne Ec]]; rewrite Ec.
    + rewrite Ha in H0. injection H0 as <-. rewrite Hi in Hj. injection Hj as <-. rewrite fl_upd_eq, Bc, filter_cons.
      rewrite decide_True by done. simpl. lia.
    + destruct (decide (j = i)) as [->|]; [|by rewrite fl_upd_ne]. rewrite fl_upd_eq, Bc, filter_cons.
      by rewrite decide_False by congruence.
  - intros q sz' [Hne H]%lookup_delete_Some. destruct (Bl _ _ H) as (H0 & a' & ar' & cap' & H1 & H2 & H3 & H4). split; [done|].
    destruct (cnt_lookup' a ar i (free_cnt ar + 1) a' ar' Ha Hi H1) as (ar2 & E1 & E2 & E3 & E4).
    exists a', ar2, cap'. split_and!; [done|by apply E3| |done]. rewrite E4, Hfree. naive_solver.
  - intros a' ar' q cap' H Hbq. destruct (cnt_lookup _ _ _ _ _ _ Ha Hi H) as (ar0 & H0 & E & E3 & E4 & _).
    apply E3 in Hbq. rewrite E4, Hfree. destruct (decide (q = p)) as [->|Hne].
    + left. right. split; [|done]. assert (a' = a) as -> by (rewrite <- Hpg; symmetry; by eapply block_page). congruence.
    + rewrite lookup_delete_ne by done. destruct (Bv _ _ _ _ H0 Hbq); [left; by left|by right].
  - intros a' ar' H Hex. destruct (cnt_lookup _ _ _ _ _ _ Ha Hi H) as (ar0 & H0 & E & E3 & _ & _).
    destruct (Bs _ _ H0) as (q & cap' & H1 & H2); [done|]. exists q, cap'. split; [by apply E3|].
    rewrite lookup_delete_ne; [done|]. intros <-. destruct Hex. f_equal. rewrite <- Hpg. by eapply block_page.
Qed.

Lemma elem_of_blocks a i n p : p ∈ blocks a i n <-> exists k, 0 <= k < n /\ p = a + 12 + k * dsize i.
Proof.
  unfold blocks. rewrite list_elem_of_fmap. split; intros (k & H1 & H2).
  - apply elem_of_seqZ in H2. exists k. split; [lia|done].
  - exists k. split; [done|]. apply elem_of_seqZ. lia.
Qed.

Lemma blocks_nodup a i n : (i < 7)%nat -> NoDup (blocks a i n).
Proof.
  intros Hi. pose proof (dsize_bounds i Hi). apply NoDup_fmap_2; [|apply NoDup_seqZ]. intros x y E. nia.
Qed.

Lemma blocks_length a i n : 0 <= n -> Z.of_nat (length (blocks a i n)) = n.
Proof. intros. unfold blocks. rewrite length_fmap, length_seqZ. lia. Qed.

Lemma block_of_blocks a ar i p : (i < 7)%nat -> a_desc ar = Some i -> p ∈ blocks a i (dblocks i) <-> block_of a ar p (dsize i).
Proof. intros Hi7 Hi. rewrite elem_of_blocks. unfold block_of. rewrite Hi. naive_solver. Qed.

(** The free blocks of an arena are among its blocks, so the counter tells when all
    or not all of them are free. *)
Lemma free_in_arena fl live ex a ar i : blk fl ars live ex -> ars !! a = Some ar -> a_desc ar = Some i ->
  (i < 7)%nat /\ filter (fun p => page p = a) (fl i) ⊆+ blocks a i (dblocks i).
Proof.
  intros [Bf Bn _ _ _ _] Ha Hi. pose proof (Hok _ _ Ha) as (_ & Hi7 & _). split; [by apply Hi7|].
  apply NoDup_submseteq; [by apply NoDup_filter|]. intros p [Hpg Hp]%list_elem_of_filter.
  destruct (Bf _ _ Hp) as (a' & ar' & cap & H1 & H2 & H3).
  assert (a' = a) as -> by (rewrite <- Hpg; symmetry; by eapply block_page). rewrite Ha in H1. injection H1 as <-.
  apply (block_of_blocks a ar i p (Hi7 i Hi) Hi). pose proof H3 as H3'. unfold block_of in H3. rewrite Hi in H3. by destruct H3 as (_ & -> & _).
Qed.

Lemma all_free fl live ex a ar i p cap : blk fl ars live ex -> ars !! a = Some ar -> a_desc ar = Some i ->
  free_cnt ar = dblocks i -> block_of a ar p cap -> p ∈ fl i.
Proof.
  intros HB Ha Hi Hc Hb. destruct (free_in_arena _ _ _ _ _ _ HB Ha Hi) as [Hi7 Hsub].
  pose proof (dsize_bounds i Hi7) as Hd. pose proof (blocks_length a i (dblocks i) ltac:(lia)) as Hlen.
  rewrite (b_cnt _ _ _ _ HB _ _ _ Ha Hi) in Hc.
  pose proof (submseteq_length_Permutation _ _ Hsub ltac:(lia)) as Hperm.
  assert (Hin : p ∈ blocks a i (dblocks i)).
  { apply (block_of_blocks a ar i p Hi7 Hi). unfold block_of in *. rewrite Hi in *. naive_solver. }
  rewrite <- Hperm in Hin. by apply list_elem_of_filter in Hin as [_ ?].
Qed.

(** An arena with a block that is not free has one that the client holds. *)
Lemma blk_settle fl live a ar i : blk fl ars live (Some a) -> ars !! a = Some ar -> a_desc ar = Some i ->
  free_cnt ar < dblocks i -> blk fl ars live None.
Proof.
  intros HB Ha Hi Hc. destruct (free_in_arena _ _ _ _ _ _ HB Ha Hi) as [Hi7 _].
  pose proof HB as [Bf Bn Bc Bl Bv Bs]. split; try done. intros a' ar' H _.
  destruct (decide (a' = a)) as [->|Hne]; [|apply (Bs _ _ H); congruence]. rewrite Ha in H. injection H as <-.
  destruct (decide (Forall (fun p => p ∈ fl i) (blocks a i (dblocks i)))) as [Hall|Hno].
  - exfalso. pose proof (dsize_bounds i Hi7). pose proof (blocks_length a i (dblocks i) ltac:(lia)).
    assert (Hsub : blocks a i (dblocks i) ⊆+ filter (fun p => page p = a) (fl i)).
    { apply NoDup_submseteq; [by apply blocks_nodup|]. intros p Hp. apply list_elem_of_filter.
      rewrite Forall_forall in Hall. split; [|by apply Hall]. apply (block_of_blocks a ar i p Hi7 Hi) in Hp. by eapply block_page. }
    apply submseteq_length in Hsub. rewrite (Bc _ _ _ Ha Hi) in Hc. lia.
  - apply not_Forall_Exists in Hno; [|apply _]. apply Exists_exists in Hno as (p & Hp & Hnp).
    apply (block_of_blocks a ar i p Hi7 Hi) in Hp. exists p, (dsize i). split; [done|].
    destruct (Bv _ _ _ _ Ha Hp) as [Hf|]; [|done]. unfold is_free in Hf. rewrite Hi in Hf. by destruct Hnp.
Qed.

(** The blocks of an arena that is given back leave the free list. *)
Lemma blk_drop fl live a ar i : blk fl ars live (Some a) -> ars !! a = Some ar -> a_desc ar = Some i ->
  free_cnt ar = dblocks i ->
  blk (upd fl i (filter (fun x => x ∉ blocks a i (dblocks i)) (fl i))) (delete a ars) live None.
Proof.
  intros HB Ha Hi Hc.
  destruct (free_in_arena _ _ _ _ _ _ HB Ha Hi) as [Hi7 _]. pose proof HB as [Bf Bn Bc Bl Bv Bs].
  assert (Hup : forall j q, q ∈ upd fl i (filter (fun x => x ∉ blocks a i (dblocks i)) (fl i)) j
                            <-> q ∈ fl j /\ (j = i -> q ∉ blocks a i (dblocks i))).
  { intros j q. destruct (decide (j = i)) as [->|]; [rewrite fl_upd_eq, list_elem_of_filter; naive_solver|rewrite fl_upd_ne by done; naive_solver]. }
  assert (Hpg : forall q, q ∈ blocks a i (dblocks i) -> page q = a).
  { intros q Hq. apply (block_of_blocks a ar i q Hi7 Hi) in Hq. by eapply block_page. }
  split.
  - intros j q [Hq Hnb]%Hup. destruct (Bf j q Hq) as (a' & ar' & cap' & H1 & H2 & H3). exists a', ar', cap'.
    split_and!; [|done|done]. apply lookup_delete_Some. split; [|done]. intros <-. rewrite Ha in H1. injection H1 as <-.
    assert (j = i) as -> by congruence. apply (Hnb eq_refl). apply (block_of_blocks a ar i q Hi7 Hi).
    unfold block_of in *. rewrite Hi in *. naive_solver.
  - intros j. destruct (decide (j = i)) as [->|]; [rewrite fl_upd_eq; by apply NoDup_filter|by rewrite fl_upd_ne].
  - intros a' ar' j [Hne H]%lookup_delete_Some Hj. rewrite (Bc _ _ _ H Hj). do 2 f_equal.
    destruct (decide (j = i)) as [->|]; [|by rewrite fl_upd_ne]. rewrite fl_upd_eq, list_filter_filter.
    apply list_filter_iff. intros q. split; [|by intros [??]]. intros Hq. split; [done|]. intros Hin%Hpg. congruence.
  - intros q sz H. destruct (Bl _ _ H) as (H0 & a' & ar' & cap' & H1 & H2 & H3 & H4). split; [done|].
    exists a', ar', cap'. split_and!; [|done| |done].
    + apply lookup_delete_Some. split; [|done]. intros <-. rewrite Ha in H1. injection H1 as <-. apply H3. unfold is_free. rewrite Hi.
      by eapply all_free.
    + unfold is_free in *. destruct (a_desc ar') as [j|]; [|done]. rewrite Hup. naive_solver.
  - intros a' ar' q cap' [Hne H]%lookup_delete_Some Hbq. destruct (Bv _ _ _ _ H Hbq) as [Hf|]; [left|by right].
    unfold is_free in *. destruct (a_desc ar') as [j|] eqn:Ej; [|done]. rewrite Hup. split; [done|]. intros -> Hin%Hpg.
    destruct Hne. rewrite <- Hin. by eapply block_page.
  - intros a' ar' [Hne H]%lookup_delete_Some _. apply (Bs _ _ H). congruence.
Qed.

(** A new arena: all its blocks are free, and no other block is in it. *)
Lemma blk_new fl live a i : blk fl ars live None -> ars !! a = None -> (i < 7)%nat -> fl i = [] ->
  (forall ar, a_desc ar = Some i -> magic ar = ARENA_MAGIC -> arena_ok s a ar) ->
  blk (upd fl i (blocks a i (dblocks i))) (<[a := mkArena ARENA_MAGIC (Some i) (dblocks i)]> ars) live (Some a).
Proof.
  intros [Bf Bn Bc Bl Bv Bs] Hno Hi7 Hnil Hnew. set (ar := mkArena ARENA_MAGIC (Some i) (dblocks i)).
  assert (Hpg : forall q, q ∈ blocks a i (dblocks i) -> page q = a).
  { intros q Hq. apply (block_of_blocks a ar i q Hi7 eq_refl) in Hq. by eapply (block_of_bounds s a ar); [apply Hnew|]. }
  assert (Hup : forall j q, q ∈ upd fl i (blocks a i (dblocks i)) j <-> q ∈ fl j \/ (j = i /\ q ∈ blocks a i (dblocks i))).
  { intros j q. destruct (decide (j = i)) as [->|]; [rewrite fl_upd_eq, Hnil; set_solver|rewrite fl_upd_ne by done; naive_solver]. }
  assert (Hneq : forall a' ar', ars !! a' = Some ar' -> a' <> a) by (intros a' ar' H ->; congruence).
  pose proof (dsize_bounds i Hi7) as Hd. split.
  - intros j q [Hq|[-> Hq]]%Hup.
    + destruct (Bf j q Hq) as (a' & ar' & cap' & H1 & H2 & H3). exists a', ar', cap'. split_and!; [|done|done].
      rewrite lookup_insert_ne; [done|]. intros <-. by eapply Hneq.
    + exists a, ar, (dsize i). rewrite lookup_insert_eq. split_and!; [done|done|]. by apply block_of_blocks.
  - intros j. destruct (decide (j = i)) as [->|]; [rewrite fl_upd_eq; by apply blocks_nodup|by rewrite fl_upd_ne].
  - intros a' ar' j [[<- <-]|[Hne H]]%lookup_insert_Some Hj; simpl in *.
    + injection Hj as <-. rewrite fl_upd_eq. rewrite <- (blocks_length a i (dblocks i)) at 1 by lia. do 2 f_equal.
      symmetry. by apply filter_all_eq.
    + destruct (decide (j = i)) as [->|]; [|rewrite fl_upd_ne by done; by apply Bc]. rewrite fl_upd_eq, (Bc _ _ _ H Hj), Hnil.
      do 2 f_equal. symmetry. apply filter_none_eq. intros q Hq%Hpg. congruence.
  - intros q sz H. destruct (Bl _ _ H) as (H0 & a' & ar' & cap' & H1 & H2 & H3 & H4). split; [done|].
    exists a', ar', cap'. split_and!; [|done| |done].
    + rewrite lookup_insert_ne; [done|]. intros <-. by eapply Hneq.
    + unfold is_free in *. destruct (a_desc ar') as [j|] eqn:Ej; [|done]. rewrite Hup. intros [|[-> Hin%Hpg]]; [done|].
      apply (Hneq a' ar' H1). rewrite <- Hin. symmetry. by eapply block_page.
  - intros a' ar' q cap' [[<- <-]|[Hne H]]%lookup_insert_Some Hbq.
    + left. unfold is_free; simpl. rewrite fl_upd_eq. apply (block_of_blocks a ar i q Hi7 eq_refl).
      unfold block_of in *; simpl in *. naive_solver.
    + destruct (Bv _ _ _ _ H Hbq) as [Hf|]; [left|by right]. unfold is_free in *. destruct (a_desc ar'); [|done]. rewrite Hup. by left.
  - intros a' ar' [[<- <-]|[Hne H]]%lookup_insert_Some Hex; [done|]. by apply (Bs _ _ H).
Qed.

(** A big block comes and goes with its arena. *)
Lemma blk_big fl live a cnt sz : blk fl ars live None -> ars !! a = None -> 0 < sz <= 4096 * cnt - 12 ->
  blk fl (<[a := mkArena ARENA_MAGIC None cnt]> ars) (<[a + 12 := sz]> live) None.
Proof.
  intros [Bf Bn Bc Bl Bv Bs] Hno Hsz.
  assert (Hneq : forall a' ar', ars !! a' = Some ar' -> a' <> a) by (intros a' ar' H ->; congruence).
  split.
  - intros j q Hq. destruct (Bf j q Hq) as (a' & ar' & cap' & H1 & H2 & H3). exists a', ar', cap'. split_and!; [|done|done].
    rewrite lookup_insert_ne; [done|]. intros <-. by eapply Hneq.
  - done.
  - intros a' ar' j [[<- <-]|[Hne H]]%lookup_insert_Some Hj; [done|]. by apply Bc.
  - intros q sz' [[<- <-]|[Hne H]]%lookup_insert_Some.
    + split; [lia|]. exists a, (mkArena ARENA_MAGIC None cnt), (4096 * cnt - 12). rewrite lookup_insert_eq.
      split; [done|]. split; [by split|]. split; [by intros []|lia].
    + destruct (Bl _ _ H) as (H0 & a' & ar' & cap' & H1 & H2 & H3 & H4). split; [done|]. exists a', ar', cap'.
      split_and!; try done. rewrite lookup_insert_ne; [done|]. intros <-. by eapply Hneq.
  - intros a' ar' q cap' [[<- <-]|[Hne H]]%lookup_insert_Some Hbq.
    + right. destruct Hbq as [-> _]. rewrite lookup_insert_eq. eauto.
    + destruct (Bv _ _ _ _ H Hbq) as [Hf|]; [by left|right]. apply lookup_insert_is_Some.
      destruct (decide (a + 12 = q)); eauto.
  - intros a' ar' [[<- <-]|[Hne H]]%lookup_insert_Some _.
    + exists (a + 12), (4096 * cnt - 12). split; [by split|]. rewrite lookup_insert_eq. eauto.
    + destruct (Bs _ _ H) as (q & cap' & H1 & H2); [done|]. exists q, cap'. split; [done|]. apply lookup_insert_is_Some.
      destruct (decide (a + 12 = q)); eauto.
Qed.

Lemma blk_big_free fl live a ar : blk fl ars live None -> ars !! a = Some ar -> a_desc ar = None ->
  blk fl (delete a ars) (delete (a + 12) live) None.
Proof.
  intros [Bf Bn Bc Bl Bv Bs] Ha Hi.
  assert (Hpg : page (a + 12) = a) by (eapply (block_page a ar _ (4096 * free_cnt ar - 12)); [done|]; unfold block_of; by rewrite Hi).
  assert (Hnq : forall a' ar' q cap', ars !! a' = Some ar' -> block_of a' ar' q cap' -> a' <> a -> q <> a + 12).
  { intros a' ar' q cap' H1 H2 Hne ->. destruct Hne. rewrite <- Hpg. symmetry. by eapply block_page. }
  split.
  - intros j q Hq. destruct (Bf j q Hq) as (a' & ar' & cap' & H1 & H2 & H3). exists a', ar', cap'. split_and!; [|done|done].
    apply lookup_delete_Some. split; [|done]. intros <-. congruence.
  - done.
  - intros a' ar' j [_ H]%lookup_delete_Some Hj. by apply Bc.
  - intros q sz [Hne H]%lookup_delete_Some. destruct (Bl _ _ H) as (H0 & a' & ar' & cap' & H1 & H2 & H3 & H4). split; [done|].
    exists a', ar', cap'. split_and!; try done. apply lookup_delete_Some. split; [|done]. intros <-.
    rewrite Ha in H1. injection H1 as <-. unfold block_of in H2. rewrite Hi in H2. by destruct H2.
  - intros a' ar' q cap' [Hne H]%lookup_delete_Some Hbq. destruct (Bv _ _ _ _ H Hbq) as [Hf|]; [by left|right].
    rewrite lookup_delete_ne; [done|]. apply not_eq_sym. by eapply Hnq.
  - intros a' ar' [Hne H]%lookup_delete_Some _. destruct (Bs _ _ H) as (q & cap' & H1 & H2); [done|]. exists q, cap'. split; [done|].
    rewrite lookup_delete_ne; [done|]. apply not_eq_sym. by eapply Hnq.
Qed.
End Transitions.

(** ** The operations *)

Definition fl (h : heap) (i : nat) : list Z := match descs h !! i with Some d => free_list d | None => [] end.

Definition well_descs (h : heap) : Prop :=
  length (descs h) = 7%nat /\ forall i, (i < 7)%nat -> descs h !! i = Some (mkDesc (dsize i) (dblocks i) (fl h i)).

(** The client holds the blocks of [live]; the pages [others] belong to someone else. *)
Record heap_inv (others : Z -> bool) (h : heap) (live : gmap Z Z) (ex : option Z) : Prop := {
  hi_descs : well_descs h;
  hi_geo : geo others (pal h) (arenas h);
  hi_blk : blk (fl h) (arenas h) live ex
}.

Lemma blk_ext fl1 fl2 ars live ex : (forall j, fl1 j = fl2 j) -> blk fl1 ars live ex -> blk fl2 ars live ex.
Proof.
  intros E [Bf Bn Bc Bl Bv Bs].
  assert (Ef : forall ar p, is_free fl2 ar p <-> is_free fl1 ar p).
  { intros ar p. unfold is_free. destruct (a_desc ar); [|done]. by rewrite E. }
  split.
  - intros i p. rewrite <- E. apply Bf.
  - intros i. rewrite <- E. apply Bn.
  - intros a ar i. rewrite <- E. apply Bc.
  - intros p sz H. destruct (Bl p sz H) as (? & a & ar & cap & ? & ? & ? & ?). split; [done|]. exists a, ar, cap. by rewrite Ef.
  - intros a ar p cap. rewrite Ef. apply Bv.
  - done.
Qed.

Lemma get_desc_ok h i : well_descs h -> (i < 7)%nat -> get_desc h i = Ret (mkDesc (dsize i) (dblocks i) (fl h i)).
Proof.
  intros [_ Hd] Hi. unfold get_desc. apply aget_Ret. split; [lia|]. rewrite Nat2Z.id. by apply Hd.
Qed.

Lemma set_free_list_ok h i l : well_descs h -> (i < 7)%nat ->
  exists h', set_free_list h i l = Ret h' /\ well_descs h' /\ (forall j, fl h' j = upd (fl h) i l j) /\
    pal h' = pal h /\ arenas h' = arenas h.
Proof.
  intros Hw Hi. pose proof Hw as [Hl Hd]. unfold set_free_list. rewrite get_desc_ok by done. cbn [rbind d_block_size blocks_per_arena].
  rewrite aset_in_range by lia. cbn [rbind]. eexists; split; [done|].
  assert (Hf : forall j, fl (with_descs h (<[Z.to_nat (Z.of_nat i) := mkDesc (dsize i) (dblocks i) l]> (descs h))) j = upd (fl h) i l j).
  { intros j. unfold fl, upd; simpl. rewrite Nat2Z.id. destruct (decide (j = i)) as [->|].
    - by rewrite list_lookup_insert_eq by lia.
    - by rewrite list_lookup_insert_ne. }
  split_and!; [|exact Hf|done|done]. split; [simpl; by rewrite length_insert|]. intros j Hj. rewrite Hf. simpl. rewrite Nat2Z.id.
  unfold upd. destruct (decide (j = i)) as [->|]; [by rewrite list_lookup_insert_eq by lia|]. rewrite list_lookup_insert_ne by done. by apply Hd.
Qed.

Section Ops.
Context (others : Z -> bool).
Abbreviation heap_inv := (heap_inv others).

Lemma arena_top h a ar : geo others (pal h) (arenas h) -> arenas h !! a = Some ar -> 0 < a /\ a + 4096 * extent ar <= 2 ^ 32 /\
  a mod 4096 = 0 /\ forall x, a <= x < a + 4096 * extent ar -> is_Some (ram (pal h) !! x).
Proof.
  intros [Hp Ha _ _ _] Har. destruct (Ha _ _ Har) as (_ & _ & _ & n & -> & Hn & H1 & H2).
  destruct Hp as [[_ Hal _ Htop Hram] _ _]. split_and!; [lia|lia|by rewrite Z.mul_comm, Z.mod_mul|]. intros x Hx. apply Hram. lia.
Qed.

Lemma block_to_arena_ok h a ar p cap : well_descs h -> geo others (pal h) (arenas h) -> arenas h !! a = Some ar -> block_of a ar p cap ->
  block_to_arena h p = Ret a.
Proof.
  intros Hw HG Ha Hb. pose proof (arena_top _ _ _ HG Ha) as (Hpos & Htop & _ & _).
  destruct HG as [_ Hok _ _ _]. pose proof (Hok _ _ Ha) as Hao.
  destruct (block_of_bounds _ _ _ _ _ Hao Hb) as (B1 & B2 & B3 & B4 & B5 & _). destruct Hao as (Hm & Hi7 & _).
  unfold block_to_arena. rewrite pg_round_down_eq by (unfold is_u32; lia). fold (page p). rewrite B3.
  rewrite bool_decide_eq_true_2 by (unfold NULL; lia). cbn [assert_ rbind]. unfold header. rewrite Ha. cbn [of_opt rbind].
  rewrite bool_decide_eq_true_2 by done. cbn [assert_ rbind]. rewrite pg_ofs_mod, B4. unfold SIZEOF_ARENA.
  unfold block_of in Hb. destruct (a_desc ar) as [i|] eqn:Ei.
  - destruct Hb as (Hi & -> & k & Hk & ->). rewrite get_desc_ok by done. cbn [rbind d_block_size].
    pose proof (dsize_bounds i Hi). replace (a + 12 + k * dsize i - a - 12) with (k * dsize i) by lia.
    rewrite u32_small by nia. by rewrite Z.mod_mul by lia.
  - destruct Hb as [-> _]. by rewrite bool_decide_eq_true_2 by lia.
Qed.

Lemma arena_to_block_ok h a ar i k : well_descs h -> (i < 7)%nat -> arenas h !! a = Some ar -> magic ar = ARENA_MAGIC ->
  a_desc ar = Some i -> 0 < a -> a + 4096 <= 2 ^ 32 -> 0 <= k < dblocks i ->
  arena_to_block h a k = Ret (a + 12 + k * dsize i).
Proof.
  intros Hw Hi Ha Hm Hd Hpos Htop Hk. unfold arena_to_block. rewrite bool_decide_eq_true_2 by (unfold NULL; lia). cbn [assert_ rbind].
  unfold header. rewrite Ha. cbn [of_opt rbind]. rewrite bool_decide_eq_true_2 by done. cbn [assert_ rbind]. rewrite Hd. cbn [of_opt rbind].
  rewrite get_desc_ok by done. cbn [rbind blocks_per_arena d_block_size]. rewrite bool_decide_eq_true_2 by lia. cbn [assert_ rbind].
  pose proof (dsize_bounds i Hi). unfold SIZEOF_ARENA. rewrite u32_small by nia. done.
Qed.

Lemma find_desc_ok h size : well_descs h ->
  match find_desc h size with
  | Some i => (i < 7)%nat /\ size <= dsize i /\ forall j, (j < i)%nat -> dsize j < size
  | None => 1024 < size
  end.
Proof.
  intros [Hl Hd]. unfold find_desc. destruct (list_find _ (descs h)) as [[i d]|] eqn:E; simpl.
  - apply list_find_Some in E as (H1 & H2 & H3). pose proof (lookup_lt_Some _ _ _ H1) as Hi. rewrite Hl in Hi.
    rewrite Hd in H1 by done. injection H1 as <-. simpl in H2. split_and!; [done|lia|]. intros j Hj.
    specialize (H3 j _ (Hd j ltac:(lia)) Hj). simpl in H3. lia.
  - apply list_find_None in E. pose proof (Forall_lookup_1 _ _ 6%nat _ E (Hd 6%nat ltac:(lia))) as H. simpl in H.
    change (dsize 6) with 1024 in H. lia.
Qed.

Lemma free_not_live h live ex i p : heap_inv h live ex -> p ∈ fl h i -> live !! p = None.
Proof.
  intros [_ [_ Hok _ _ _] [Bf _ _ Bl _ _]] Hp. destruct (live !! p) as [sz|] eqn:E; [exfalso|done].
  destruct (Bf _ _ Hp) as (a & ar & cap & H1 & H2 & H3), (Bl _ _ E) as (_ & a' & ar' & cap' & H4 & H5 & H6 & _).
  assert (a = a') as <- by (rewrite <- (block_page _ _ Hok _ _ _ _ H1 H3); by eapply block_page). rewrite H1 in H4.
  injection H4 as <-. apply H6. unfold is_free. by rewrite H2.
Qed.

(** Blocks do not overlap. *)
Definition has_block (h : heap) (p cap : Z) : Prop := exists a ar, arenas h !! a = Some ar /\ block_of a ar p cap.

Lemma blocks_apart h live ex p cap q cap' : heap_inv h live ex -> has_block h p cap -> has_block h q cap' -> p <> q ->
  p + cap <= q \/ q + cap' <= p.
Proof.
  intros [_ [_ Hok _ Hs _] _] (a & ar & Ha & Hp) (a' & ar' & Ha' & Hq) Hne.
  pose proof (Hok _ _ Ha) as Hao. pose proof (Hok _ _ Ha') as Hao'. destruct (decide (a = a')) as [<-|Hn].
  - rewrite Ha in Ha'. injection Ha' as <-. by eapply block_of_apart.
  - destruct (block_of_bounds _ _ _ _ _ Hao Hp) as (P1 & P2 & _), (block_of_bounds _ _ _ _ _ Hao' Hq) as (Q1 & Q2 & _).
    destruct Hao as (_ & _ & He & n & -> & _), Hao' as (_ & _ & He' & n' & -> & _).
    destruct (Z_le_gt_dec (p + cap) q); [by left|]. destruct (Z_le_gt_dec (q + cap') p); [by right|]. exfalso. apply Hn.
    apply (Hs _ _ _ _ (Z.max n n') Ha Ha'); apply covers_range; lia.
Qed.

Lemma live_block h live ex p sz : heap_inv h live ex -> live !! p = Some sz -> exists cap, has_block h p cap /\ 0 < sz <= cap.
Proof.
  intros [_ _ [_ _ _ Bl _ _]] H. destruct (Bl _ _ H) as (? & a & ar & cap & ? & ? & _ & ?). exists cap. split; [by exists a, ar|lia].
Qed.

Lemma block_mapped h live ex p cap : heap_inv h live ex -> has_block h p cap ->
  0 < p /\ 0 < cap /\ p + cap <= 2 ^ 32 /\ mapped (ram (pal h)) p cap.
Proof.
  intros HI (a & ar & Ha & Hb). pose proof (arena_top _ _ _ (hi_geo _ _ _ _ HI) Ha) as (H1 & H2 & _ & H3).
  destruct (block_of_bounds _ _ _ _ _ (g_arena _ _ _ (hi_geo _ _ _ _ HI) _ _ Ha) Hb) as (B1 & B2 & _ & _ & B5 & _).
  split_and!; [lia|lia|lia|]. intros x Hx. apply H3. lia.
Qed.

(** *** malloc *)

Lemma take_block_ok h live ex i p rest sz : heap_inv h live ex -> (i < 7)%nat -> fl h i = p :: rest -> 0 < sz <= dsize i ->
  ex = None \/ ex = Some (page p) ->
  exists h', take_block h i = Ret (h', p) /\ pal h' = pal h /\ heap_inv h' (<[p := sz]> live) None /\ live !! p = None.
Proof.
  intros HI Hi Hfl Hsz Hex. assert (Hnl : live !! p = None) by (eapply (free_not_live _ _ _ i); [done|rewrite Hfl; set_solver]).
  destruct HI as [Hw HG HB]. pose proof (g_arena _ _ _ HG) as Hok.
  destruct (b_free _ _ _ _ HB i p) as (a & ar & cap & Ha & Hd & Hb); [rewrite Hfl; set_solver|].
  assert (Hpg : page p = a) by (by eapply block_page).
  unfold take_block. rewrite get_desc_ok by done. cbn [rbind free_list]. rewrite Hfl.
  destruct (set_free_list_ok h i rest Hw Hi) as (h1 & -> & Hw1 & Hf1 & Ep & Ea). cbn [rbind].
  rewrite (block_to_arena_ok h1 a ar p cap) by (rewrite ?Ep, ?Ea; done). cbn [rbind].
  unfold header. rewrite Ea, Ha. cbn [of_opt rbind]. eexists; split; [done|]. split; [done|]. split; [|done].
  pose proof (b_cnt _ _ _ _ HB _ _ _ Ha Hd) as Hc. rewrite Hfl, filter_cons, decide_True in Hc by done. simpl in Hc.
  destruct (free_in_arena _ _ Hok _ _ _ _ _ _ HB Ha Hd) as [_ Hsub]. apply submseteq_length in Hsub.
  pose proof (dsize_bounds i Hi). pose proof (blocks_length a i (dblocks i) ltac:(lia)).
  rewrite Hfl, filter_cons, decide_True in Hsub by done. simpl in Hsub. rewrite u32_small by lia.
  assert (Hcap : cap = dsize i) by (unfold block_of in Hb; rewrite Hd in Hb; naive_solver). subst cap.
  split; simpl.
  - exact Hw1.
  - rewrite Ep. by eapply geo_cnt.
  - eapply (blk_ext (upd (fl h) i rest)); [intros j; by rewrite <- Hf1|].
    eapply (blk_pop (pal h)); try done. by rewrite <- Hpg.
Qed.

(** The pages an allocation of [n] pages for the kernel can use. *)
Definition room (h : heap) (n : Z) : Prop := exists k, free_group (kernel_pool (pal h)) k n.

Lemma with_pal_id h : with_pal h (pal h) = h.
Proof. by destruct h. Qed.

(** The loop that adds the blocks of a new arena to the free list. *)
Lemma push_blocks h a ar i : well_descs h -> (i < 7)%nat -> arenas h !! a = Some ar -> magic ar = ARENA_MAGIC ->
  a_desc ar = Some i -> 0 < a -> a + 4096 <= 2 ^ 32 -> fl h i = [] ->
  exists h', for_up (Z.to_nat (dblocks i)) 0
      (fun k h => let! b := arena_to_block h a k in let! d := get_desc h i in set_free_list h i (free_list d ++ [b])) h = Ret h' /\
    well_descs h' /\ (forall j, fl h' j = upd (fl h) i (blocks a i (dblocks i)) j) /\ pal h' = pal h /\ arenas h' = arenas h.
Proof.
  intros Hw Hi Ha Hm Hd Hpos Htop Hnil. pose proof (dsize_bounds i Hi).
  destruct (for_up_total (fun k h' => well_descs h' /\ (forall j, fl h' j = upd (fl h) i (blocks a i k) j) /\ pal h' = pal h /\ arenas h' = arenas h)
    (fun k h => let! b := arena_to_block h a k in let! d := get_desc h i in set_free_list h i (free_list d ++ [b]))
    (Z.to_nat (dblocks i)) 0 h) as (h' & -> & H').
  - split_and!; [done| |done|done]. intros j. unfold upd. destruct (decide (j = i)) as [->|]; [done|done].
  - intros k h1 Hk (Hw1 & Hf1 & Ep1 & Ea1). rewrite (arena_to_block_ok h1 a ar i k) by (rewrite ?Ea1; (done || lia)). cbn [rbind].
    rewrite get_desc_ok by done. cbn [rbind free_list]. rewrite Hf1, fl_upd_eq.
    destruct (set_free_list_ok h1 i (blocks a i k ++ [a + 12 + k * dsize i]) Hw1 Hi) as (h2 & -> & Hw2 & Hf2 & Ep2 & Ea2).
    eexists; split; [done|]. split_and!; [done| |congruence|congruence]. intros j. rewrite Hf2. unfold upd.
    destruct (decide (j = i)) as [->|]; [|by rewrite Hf1, fl_upd_ne]. unfold blocks. rewrite seqZ_app by lia. by rewrite fmap_app.
  - exists h'. split; [done|]. by replace (0 + Z.of_nat (Z.to_nat (dblocks i))) with (dblocks i) in H' by lia.
Qed.

Lemma flag_kernel : flag 0 PAL_USER = false /\ flag 0 PAL_ASSERT = false /\ flag 0 PAL_ZERO = false.
Proof. done. Qed.

(** What [palloc_get_multiple] gives the allocator. *)
Lemma get_kernel h cnt : pages_wf (pal h) -> 0 < cnt ->
  (~ room h cnt /\ palloc_get_multiple (pal h) 0 cnt = Ret (pal h, NULL)) \/
  exists n s', palloc_get_multiple (pal h) 0 cnt = Ret (s', 4096 * n) /\ 0 < n /\ free_group (kernel_pool (pal h)) n cnt /\
    pages_wf s' /\ same_layout (pal h) s' /\ ram s' = ram (pal h) /\
    forall k, page_used s' k = if in_range n cnt k then true else page_used (pal h) k.
Proof.
  intros Hp Hc. destruct (pal_get_ok (pal h) 0 cnt Hp Hc) as [[Hn E]|(n & s' & E & H1 & H2 & _ & H3 & H4 & H5 & H6)]; [left|right].
  - split; [|exact E]. intros [k Hk]. by apply (Hn k).
  - exists n, s'. split_and!; try done.
Qed.

Lemma new_arena_ok h live i : heap_inv h live None -> (i < 7)%nat -> fl h i = [] ->
  (~ room h 1 /\ new_arena h i = Ret (h, false)) \/
  exists h' a, new_arena h i = Ret (h', true) /\ ram (pal h') = ram (pal h) /\ heap_inv h' live (Some a) /\
    fl h' i = blocks a i (dblocks i) /\ forall p, p ∈ fl h' i -> page p = a.
Proof.
  intros HI Hi Hnil. pose proof HI as [Hw HG HB]. unfold new_arena, palloc_get_page. rewrite get_desc_ok by done. cbn [rbind blocks_per_arena].
  destruct (get_kernel h 1 (g_pal _ _ _ HG)) as [[Hno E]|(n & s' & E & Hn & Hg & Hs' & Hl & Hr & Hu)]; [lia| |]; rewrite E; cbn [rbind].
  - left. split; [done|]. rewrite bool_decide_eq_true_2 by done. by rewrite with_pal_id.
  - right. rewrite bool_decide_eq_false_2 by (unfold NULL; lia).
    set (ar := mkArena ARENA_MAGIC (Some i) (dblocks i)).
    destruct (geo_insert others (pal h) (arenas h) s' n ar HG Hs' Hl Hn) as [HG' Hno]; [done|done|by intros ? [= <-]|done|done|].
    assert (Hao : arena_ok s' (4096 * n) ar) by (apply (g_arena _ _ _ HG'); by rewrite lookup_insert_eq).
    set (h1 := with_arenas _ _).
    destruct (arena_top h1 (4096 * n) ar) as (Hpos & Htop & _); [exact HG'|simpl; by rewrite lookup_insert_eq|].
    destruct (push_blocks h1 (4096 * n) ar i) as (h' & -> & Hw' & Hf' & Ep & Ea); [exact Hw|done|simpl; by rewrite lookup_insert_eq|done|done|done|exact Htop|exact Hnil|].
    cbn [rbind]. exists h', (4096 * n).
    assert (Hpg : forall p, p ∈ fl h' i -> page p = 4096 * n).
    { intros p. rewrite Hf', fl_upd_eq. intros Hp. apply (block_of_blocks _ ar i p Hi eq_refl) in Hp.
      by apply (block_of_bounds s' _ ar _ (dsize i) Hao). }
    split_and!; [done|by rewrite Ep|split|by rewrite Hf', fl_upd_eq|exact Hpg].
    + done.
    + by rewrite Ep, Ea.
    + rewrite Ea. apply (blk_ext (upd (fl h) i (blocks (4096 * n) i (dblocks i)))); [intros j; by rewrite Hf'|].
      eapply (blk_new s'); [|exact HB|exact Hno|done|exact Hnil|].
      * intros a' ar' H. by apply (arena_ok_layout (pal h)), (g_arena _ _ _ HG).
      * intros ar2 H2 H3. destruct Hao as (_ & _ & _ & Hx). split_and!; [done|by intros j; rewrite H2; intros [= <-]| |].
        -- unfold extent. rewrite H2. lia.
        -- unfold extent in *. rewrite H2. exact Hx.
Qed.

(** The largest request whose size with the header still fits in [size_t]. *)
Definition MAX_REQUEST : Z := 2 ^ 32 - 4108.

Definition pages_needed (size : Z) : Z := if bool_decide (size <= 1024) then 1 else (size + 12 + 4095) / 4096.

Lemma new_big_ok h live size : heap_inv h live None -> 1024 < size <= MAX_REQUEST ->
  (~ room h (pages_needed size) /\ new_big h size = Ret (h, NULL)) \/
  exists h' p, new_big h size = Ret (h', p) /\ ram (pal h') = ram (pal h) /\ heap_inv h' (<[p := size]> live) None /\
    live !! p = None /\ p <> NULL.
Proof.
  intros HI Hsz. pose proof HI as [Hw HG HB]. unfold new_big, DIV_ROUND_UP, PGSIZE, SIZEOF_ARENA, pages_needed, MAX_REQUEST in *.
  rewrite bool_decide_eq_false_2 by lia. rewrite (u32_small (size + 12)) by lia. rewrite (u32_small (size + 12 + 4096 - 1)) by lia.
  replace (size + 12 + 4096 - 1) with (size + 12 + 4095) by lia. set (cnt := (size + 12 + 4095) / 4096).
  assert (Hc : 0 < cnt /\ size <= 4096 * cnt - 12) by (unfold cnt; Z.div_mod_to_equations; lia).
  destruct (get_kernel h cnt (g_pal _ _ _ HG)) as [[Hno E]|(n & s' & E & Hn & Hg & Hs' & Hl & Hr & Hu)]; [lia| |]; rewrite E; cbn [rbind].
  - left. split; [done|]. rewrite bool_decide_eq_true_2 by done. by rewrite with_pal_id.
  - right. rewrite bool_decide_eq_false_2 by (unfold NULL; lia). set (ar := mkArena ARENA_MAGIC None cnt).
    destruct (geo_insert others (pal h) (arenas h) s' n ar HG Hs' Hl Hn) as [HG' Hno]; [unfold extent; simpl; lia|done|done|done|done|].
    set (h1 := with_arenas _ _).
    destruct (arena_top h1 (4096 * n) ar) as (Hpos & Htop & _); [exact HG'|simpl; by rewrite lookup_insert_eq|].
    unfold extent in Htop; simpl in Htop. rewrite u32_small by lia.
    exists h1, (4096 * n + 12). split_and!; [done|done| | |unfold NULL; lia].
    + split; [done|exact HG'|]. simpl. apply blk_big; [exact HB|exact Hno|lia].
    + destruct (live !! (4096 * n + 12)) as [sz|] eqn:El; [exfalso|done].
      destruct (b_live _ _ _ _ HB _ _ El) as (_ & a' & ar' & cap' & H1 & H2 & _).
      pose proof (block_page _ _ (g_arena _ _ _ HG) _ _ _ _ H1 H2) as Hpg. unfold page in Hpg.
      replace ((4096 * n + 12) mod 4096) with 12 in Hpg by (apply (Z.mod_unique _ _ n); lia).
      assert (a' = 4096 * n) as -> by lia. congruence.
Qed.

Lemma malloc_ok h live size : heap_inv h live None -> 0 < size <= MAX_REQUEST ->
  (~ room h (pages_needed size) /\ malloc h size = Ret (h, NULL)) \/
  exists h' p, malloc h size = Ret (h', p) /\ ram (pal h') = ram (pal h) /\ heap_inv h' (<[p := size]> live) None /\
    live !! p = None /\ p <> NULL.
Proof.
  intros HI Hsz. unfold malloc. rewrite bool_decide_eq_false_2 by lia. pose proof HI as [Hw HG HB].
  pose proof (find_desc_ok h size Hw) as Hfd. destruct (find_desc h size) as [i|]; [|by apply new_big_ok; [|lia]].
  destruct Hfd as (Hi & Hle & _). rewrite get_desc_ok by done. cbn [rbind free_list].
  pose proof (dsize_bounds i Hi) as Hd. unfold pages_needed. rewrite bool_decide_eq_true_2 by lia.
  assert (Htk : forall h1 ex p rest, heap_inv h1 live ex -> fl h1 i = p :: rest -> ex = None \/ ex = Some (page p) -> ram (pal h1) = ram (pal h) ->
    exists h' p, take_block h1 i = Ret (h', p) /\ ram (pal h') = ram (pal h) /\ heap_inv h' (<[p := size]> live) None /\
      live !! p = None /\ p <> NULL).
  { intros h1 ex p rest HI1 Hfl Hex Er. destruct (take_block_ok h1 live ex i p rest size HI1 Hi Hfl) as (h' & -> & Ep & HI' & Hnl); [lia|done|].
    exists h', p. split_and!; [done|by rewrite Ep|done|done|]. unfold NULL.
    destruct (live_block h' _ None p size HI') as (cap & Hcap & _); [by rewrite lookup_insert_eq|].
    destruct (block_mapped h' _ None p cap HI' Hcap) as (? & _). lia. }
  destruct (fl h i) as [|p rest] eqn:Efl.
  - destruct (new_arena_ok h live i HI Hi Efl) as [[Hno ->]|(h1 & a & -> & Er & HI1 & Hf1 & Hpg)]; cbn [rbind]; [by left|right].
    destruct (fl h1 i) as [|p rest] eqn:E1.
    + pose proof (blocks_length a i (dblocks i) ltac:(lia)) as Hl. rewrite <- Hf1 in Hl. simpl in Hl. lia.
    + apply (Htk h1 (Some a) p rest); [done|done| |done]. right. f_equal. symmetry. apply Hpg. set_solver.
  - cbn [rbind]. right. apply (Htk h None p rest); auto.
Qed.

(** *** free *)

(** Memory outside a run of bytes is kept. *)
Definition kept (h h' : heap) (live : gmap Z Z) : Prop :=
  forall q sz x, live !! q = Some sz -> q <= x < q + sz -> ram (pal h') !! x = ram (pal h) !! x.

(** Removing the blocks of an arena from the free list one by one. *)
Lemma remove_blocks h a ar i : well_descs h -> (i < 7)%nat -> arenas h !! a = Some ar -> magic ar = ARENA_MAGIC ->
  a_desc ar = Some i -> 0 < a -> a + 4096 <= 2 ^ 32 -> (forall q, q ∈ blocks a i (dblocks i) -> q ∈ fl h i) ->
  exists h', for_up (Z.to_nat (dblocks i)) 0
      (fun k h => let! b := arena_to_block h a k in let! d := get_desc h i in
                  let! l := unlink b (free_list d) in set_free_list h i l) h = Ret h' /\
    well_descs h' /\ (forall j, fl h' j = upd (fl h) i (filter (fun x => x ∉ blocks a i (dblocks i)) (fl h i)) j) /\
    pal h' = pal h /\ arenas h' = arenas h.
Proof.
  intros Hw Hi Ha Hm Hd Hpos Htop Hall. pose proof (dsize_bounds i Hi).
  destruct (for_up_total (fun k h' => well_descs h' /\
      (forall j, fl h' j = upd (fl h) i (filter (fun x => x ∉ blocks a i k) (fl h i)) j) /\ pal h' = pal h /\ arenas h' = arenas h)
    (fun k h => let! b := arena_to_block h a k in let! d := get_desc h i in
                let! l := unlink b (free_list d) in set_free_list h i l)
    (Z.to_nat (dblocks i)) 0 h) as (h' & -> & H').
  - split_and!; [done| |done|done]. intros j. unfold upd. destruct (decide (j = i)) as [->|]; [|done].
    symmetry. apply filter_all_eq. intros x _. apply not_elem_of_nil.
  - intros k h1 Hk (Hw1 & Hf1 & Ep1 & Ea1). rewrite (arena_to_block_ok h1 a ar i k) by (rewrite ?Ea1; (done || lia)). cbn [rbind].
    rewrite get_desc_ok by done. cbn [rbind free_list]. rewrite Hf1, fl_upd_eq. unfold unlink. rewrite bool_decide_eq_true_2.
    2: { apply list_elem_of_filter. split; [|apply Hall, elem_of_blocks; exists k; split; [lia|done]].
         intros (j & Hj & E)%elem_of_blocks. assert (k = j) by nia. lia. }
    cbn [rbind].
    destruct (set_free_list_ok h1 i (filter (fun x => x <> a + 12 + k * dsize i) (filter (fun x => x ∉ blocks a i k) (fl h i))) Hw1 Hi)
      as (h2 & -> & Hw2 & Hf2 & Ep2 & Ea2).
    eexists; split; [done|]. split_and!; [done| |congruence|congruence]. intros j. rewrite Hf2. unfold upd.
    destruct (decide (j = i)) as [->|]; [|by rewrite Hf1, fl_upd_ne]. rewrite list_filter_filter. apply list_filter_iff. intros x.
    unfold blocks. rewrite seqZ_app by lia. rewrite fmap_app, not_elem_of_app. simpl. rewrite list_elem_of_singleton. naive_solver.
  - exists h'. split; [done|]. by replace (0 + Z.of_nat (Z.to_nat (dblocks i))) with (dblocks i) in H' by lia.
Qed.

(** The pages of a small or big arena go back to the page allocator. *)
Lemma give_back h a ar : geo others (pal h) (arenas h) -> arenas h !! a = Some ar ->
  exists s', palloc_free_multiple (pal h) a (extent ar) = Ret s' /\ geo others s' (delete a (arenas h)) /\
    filled (ram (pal h)) (ram s') a (4096 * extent ar) 0xcc.
Proof.
  intros HG Ha. pose proof (g_arena _ _ _ HG _ _ Ha) as (_ & _ & He & n & -> & Hn & H1 & H2).
  destruct (pal_free_ok (pal h) false n (extent ar) (g_pal _ _ _ HG) He H1 H2) as [[(k & Hk & Hku) _]|[_ (s' & -> & Hs' & Hl & Hu & Hf)]].
  - assert (page_used (pal h) k = true) by (apply (g_used _ _ _ HG); right; exists (4096 * n), ar; split; [done|by apply covers_range]). congruence.
  - exists s'. split_and!; [done| |done]. by eapply geo_delete.
Qed.

(** Blocks of the other arenas are outside the pages of this one. *)
Lemma other_arena h a ar q cap x : geo others (pal h) (arenas h) -> arenas h !! a = Some ar ->
  (exists a' ar', delete a (arenas h) !! a' = Some ar' /\ block_of a' ar' q cap) -> q <= x < q + cap ->
  ~ (a <= x < a + 4096 * extent ar).
Proof.
  intros HG Ha (a' & ar' & [Hne Ha']%lookup_delete_Some & Hb) Hx Hin. pose proof (g_arena _ _ _ HG) as Hok.
  destruct (block_of_bounds _ _ _ _ _ (Hok _ _ Ha') Hb) as (B1 & B2 & _).
  pose proof (Hok _ _ Ha) as (_ & _ & _ & n & -> & _). pose proof (Hok _ _ Ha') as (_ & _ & _ & n' & -> & _).
  apply Hne. apply (g_sep _ _ _ HG _ _ _ _ (x / 4096) Ha Ha'); apply covers_range; Z.div_mod_to_equations; lia.
Qed.

Lemma kept_trans h1 h2 h3 live : kept h1 h2 live -> kept h2 h3 live -> kept h1 h3 live.
Proof. intros H1 H2 q sz x Hq Hx. by rewrite (H2 q sz x), (H1 q sz x). Qed.

Lemma free_arena_ok h live a ar i : heap_inv h live (Some a) -> arenas h !! a = Some ar -> a_desc ar = Some i ->
  free_cnt ar = dblocks i -> exists h', free_arena h i a = Ret h' /\ heap_inv h' live None /\ kept h h' live.
Proof.
  intros [Hw HG HB] Ha Hd Hc. pose proof (g_arena _ _ _ HG) as Hok. pose proof (Hok _ _ Ha) as (Hm & Hi7 & _).
  specialize (Hi7 i Hd). pose proof (arena_top _ _ _ HG Ha) as (Hpos & Htop & _).
  assert (He : extent ar = 1) by (unfold extent; by rewrite Hd). rewrite He in Htop.
  unfold free_arena, palloc_free_page. rewrite get_desc_ok by done. cbn [rbind blocks_per_arena].
  destruct (remove_blocks h a ar i) as (h1 & -> & Hw1 & Hf1 & Ep & Ea); [done..|lia| |].
  { intros q Hq. eapply (all_free (pal h) (arenas h)); [done..|]. by apply (block_of_blocks a ar i q Hi7 Hd). }
  cbn [rbind]. rewrite Ep, Ea.
  destruct (give_back h a ar HG Ha) as (s' & Es & HG' & Hfill). rewrite He in Es, Hfill. rewrite Es. cbn [rbind].
  eexists; split; [done|].
  assert (HB' : blk (fl h1) (delete a (arenas h)) live None).
  { eapply blk_ext; [|by eapply (blk_drop (pal h) (arenas h) Hok)]. intros j. by rewrite Hf1. }
  split; [split; done|]. intros q sz x Hq Hx. simpl. rewrite Hfill. rewrite decide_False; [done|].
  destruct (b_live _ _ _ _ HB' _ _ Hq) as (_ & a' & ar' & cap & H1 & H2 & _ & H4).
  rewrite <- He. apply (other_arena h a ar q cap x HG Ha); [by exists a', ar'|lia].
Qed.

Lemma free_ok h live p sz : heap_inv h live None -> live !! p = Some sz ->
  exists h', free h p = Ret h' /\ heap_inv h' (delete p live) None /\ kept h h' (delete p live).
Proof.
  intros HI Hlive. pose proof HI as [Hw HG HB]. pose proof (g_arena _ _ _ HG) as Hok.
  destruct (b_live _ _ _ _ HB _ _ Hlive) as (Hsz & a & ar & cap & Ha & Hb & Hnf & Hle).
  assert (Hcap : has_block h p cap) by (by exists a, ar).
  destruct (block_mapped _ _ _ _ _ HI Hcap) as (Hpos & Hcp & Htop & Hmap).
  unfold free. rewrite bool_decide_eq_false_2 by (unfold NULL; lia).
  rewrite (block_to_arena_ok h a ar p cap) by done. cbn [rbind]. unfold header. rewrite Ha. cbn [of_opt rbind].
  destruct (a_desc ar) as [i|] eqn:Hd.
  - pose proof (Hok _ _ Ha) as (Hm & Hi7 & _). specialize (Hi7 i Hd).
    assert (cap = dsize i) as -> by (unfold block_of in Hb; rewrite Hd in Hb; naive_solver).
    rewrite get_desc_ok by done. cbn [rbind d_block_size free_list blocks_per_arena].
    destruct (memset_ok (ram (pal h)) p (dsize i)) with (value := 0xcc) as (m' & -> & Hm'); [lia|exact Hmap|lia|]. cbn [rbind].
    set (h1 := with_pal h (with_ram (pal h) m')).
    destruct (set_free_list_ok h1 i (p :: fl h i) Hw Hi7) as (h2 & -> & Hw2 & Hf2 & Ep & Ea). cbn [rbind].
    destruct (blk_push (pal h) (arenas h) Hok (fl h) live i p sz a ar (dsize i) HB Hlive Ha Hd Hb) as [HB' _].
    set (ar' := mkArena (magic ar) (a_desc ar) (free_cnt ar + 1)) in *.
    assert (HG' : geo others (with_ram (pal h) m') (<[a := ar']> (arenas h))).
    { eapply geo_cnt; [|done|done]. apply geo_ram; [done|]. intros x Hx. rewrite Hm'. case_decide; eauto. }
    assert (Ha' : <[a := ar']> (arenas h) !! a = Some ar') by apply lookup_insert_eq.
    destruct (free_in_arena _ _ (g_arena _ _ _ HG') _ _ _ _ _ _ HB' Ha' Hd) as [_ Hsub].
    apply submseteq_length in Hsub. pose proof (dsize_bounds i Hi7). pose proof (blocks_length a i (dblocks i) ltac:(lia)).
    pose proof (b_cnt _ _ _ _ HB' _ _ _ Ha' Hd) as Hc. cbn [free_cnt ar'] in Hc. rewrite u32_small by lia.
    rewrite <- Hd, Ea. fold ar'. set (h3 := with_arenas h2 _).
    assert (HI3 : heap_inv h3 (delete p live) (Some a)).
    { split; [exact Hw2|simpl; by rewrite Ep|]. simpl. eapply blk_ext; [|exact HB']. intros j. symmetry. apply Hf2. }
    assert (Hk : kept h h3 (delete p live)).
    { intros q sz' x Hq Hx. simpl. rewrite Ep. simpl. rewrite Hm', decide_False; [done|].
      apply lookup_delete_Some in Hq as [Hne Hq]. destruct (live_block _ _ _ _ _ HI Hq) as (cap & Hqc & ?).
      destruct (blocks_apart _ _ _ _ _ _ _ HI Hcap Hqc Hne); lia. }
    case_bool_decide as Hfull.
    + rewrite bool_decide_eq_true_2 by lia. cbn [assert_ rbind].
      destruct (free_arena_ok h3 (delete p live) a ar' i HI3 Ha' Hd) as (h4 & -> & HI4 & Hk4); [simpl; lia|].
      exists h4. split_and!; [done|done|by eapply kept_trans].
    + exists h3. split_and!; [done| |done]. destruct HI3 as [W3 G3 B3]. split; [done|done|].
      eapply (blk_settle _ _ (g_arena _ _ _ G3)); [exact B3|exact Ha'|exact Hd|simpl; lia].
  - assert (He : extent ar = free_cnt ar) by (unfold extent; by rewrite Hd).
    assert (p = a + 12) as -> by (unfold block_of in Hb; rewrite Hd in Hb; naive_solver).
    destruct (give_back h a ar HG Ha) as (s' & Es & HG' & Hfill). rewrite He in Es. rewrite Es. cbn [rbind].
    eexists; split; [done|]. assert (HB' : blk (fl h) (delete a (arenas h)) (delete (a + 12) live) None) by (by eapply (blk_big_free (pal h))).
    split; [split; done|]. intros q sz' x Hq Hx. simpl. rewrite Hfill, decide_False; [done|].
    destruct (b_live _ _ _ _ HB' _ _ Hq) as (_ & a' & ar' & cap' & H1 & H2 & _ & H4).
    apply (other_arena h a ar q cap' x HG Ha); [by exists a', ar'|lia].
Qed.

(** *** calloc and realloc *)

Lemma heap_inv_ram h live ex m : heap_inv h live ex -> (forall q, is_Some (ram (pal h) !! q) -> is_Some (m !! q)) ->
  heap_inv (with_pal h (with_ram (pal h) m)) live ex.
Proof. intros [Hw HG HB] Hm. split; [exact Hw|by apply geo_ram|exact HB]. Qed.

(** Writing to one block keeps the others. *)
Lemma kept_write h live p sz m n : heap_inv h live None -> live !! p = Some sz -> n <= sz ->
  (forall x, ~ (p <= x < p + n) -> m !! x = ram (pal h) !! x) -> kept h (with_pal h (with_ram (pal h) m)) (delete p live).
Proof.
  intros HI Hp Hn Hm q sz' x [Hne Hq]%lookup_delete_Some Hx. simpl. apply Hm. intros Hin.
  destruct (live_block _ _ _ _ _ HI Hp) as (cap & Hc & ?), (live_block _ _ _ _ _ HI Hq) as (cap' & Hc' & ?).
  destruct (blocks_apart _ _ _ _ _ _ _ HI Hc Hc' Hne); lia.
Qed.

Lemma block_size_ok h live p sz : heap_inv h live None -> live !! p = Some sz ->
  exists cap, block_size h p = Ret cap /\ has_block h p cap /\ sz <= cap.
Proof.
  intros HI Hp. pose proof HI as [Hw HG HB]. destruct (b_live _ _ _ _ HB _ _ Hp) as (_ & a & ar & cap & Ha & Hb & _ & Hle).
  exists cap. split; [|split; [by exists a, ar|done]]. pose proof (g_arena _ _ _ HG _ _ Ha) as Hao.
  destruct (block_of_bounds _ _ _ _ _ Hao Hb) as (_ & _ & _ & B4 & _ & _). pose proof (arena_top _ _ _ HG Ha) as (Hapos & Htop & _).
  unfold block_size. rewrite (block_to_arena_ok h a ar p cap) by done. cbn [rbind]. unfold header. rewrite Ha. cbn [of_opt rbind].
  unfold block_of, extent in *. destruct (a_desc ar) as [i|] eqn:Hd.
  - destruct Hb as (Hi & -> & _). rewrite get_desc_ok by done. done.
  - destruct Hb as [-> ->]. destruct Hao as (_ & _ & He & _). unfold extent in He. rewrite Hd in He.
    rewrite pg_ofs_mod, B4. unfold PGSIZE. rewrite u32_small by lia. f_equal. lia.
Qed.

(** How a request for [n] bytes ends: refused for want of pages, or with a new block. *)
Definition allocated (h : heap) (live : gmap Z Z) (n : Z) (live' : gmap Z Z) (r : Z) : Prop :=
  (r = NULL /\ live' = live /\ (n = 0 \/ ~ room h (pages_needed n))) \/
  (r <> NULL /\ live !! r = None /\ live' = <[r := n]> live).

Lemma malloc_call h live n : heap_inv h live None -> 0 <= n <= MAX_REQUEST ->
  exists h' r live', malloc h n = Ret (h', r) /\ heap_inv h' live' None /\ allocated h live n live' r /\ ram (pal h') = ram (pal h).
Proof.
  intros HI Hn. destruct (decide (n = 0)) as [->|Hne].
  { exists h, NULL, live. split_and!; [done|done| |done]. left. auto. }
  destruct (malloc_ok h live n HI) as [[Hno ->]|(h' & p & -> & Er & HI' & Hnl & Hp)]; [lia| |].
  - exists h, NULL, live. split_and!; [done|done| |done]. left. auto.
  - exists h', p, (<[p := n]> live). split_and!; [done|done| |done]. by right.
Qed.

Lemma calloc_call h live a b : heap_inv h live None -> 0 <= a < 2 ^ 32 -> 0 <= b < 2 ^ 32 -> a * b <= MAX_REQUEST ->
  exists h' r live', calloc h a b = Ret (h', r) /\ heap_inv h' live' None /\ allocated h live (a * b) live' r /\ kept h h' live /\
    (r <> NULL -> forall x, r <= x < r + a * b -> ram (pal h') !! x = Some 0).
Proof.
  intros HI Ha Hb Hab. unfold calloc. unfold MAX_REQUEST in *. rewrite (u32_small (a * b)) by nia.
  destruct (decide (a * b = 0)) as [Hz|Hz].
  { rewrite Hz. exists h, NULL, live. assert (E : (if bool_decide (0 < a) || bool_decide (0 < b) then Ret (h, NULL)
      else let! '(h, p) := malloc h 0 in if bool_decide (p <> NULL) then
        let! '(m, _) := memset (ram (pal h)) p 0 0 in Ret (with_pal h (with_ram (pal h) m), p) else Ret (h, p)) = Ret (h, NULL))
      by (by destruct (_ || _)).
    split_and!; [exact E|done|left; auto|done|done]. }
  assert (0 < a /\ 0 < b) as [Ha0 Hb0] by nia. rewrite !bool_decide_eq_false_2 by nia. cbn [orb].
  destruct (malloc_call h live (a * b) HI) as (h1 & r & live' & -> & HI1 & Hal & Er); [unfold MAX_REQUEST; nia|]. cbn [rbind].
  destruct Hal as [(-> & -> & Hn)|(Hr & Hnl & ->)].
  { rewrite bool_decide_eq_false_2 by naive_solver. exists h1, NULL, live. split_and!; [done|done|by left| |done]. intros q sz x _ _. by rewrite Er. }
  rewrite bool_decide_eq_true_2 by done. assert (Hl1 : <[r := a * b]> live !! r = Some (a * b)) by apply lookup_insert_eq.
  destruct (live_block _ _ _ _ _ HI1 Hl1) as (cap & Hcap & Hsz). destruct (block_mapped _ _ _ _ _ HI1 Hcap) as (Hpos & _ & _ & Hmap).
  destruct (memset_ok (ram (pal h1)) r (a * b)) with (value := 0) as (m & -> & Hm); [lia|intros x Hx; apply Hmap; lia|lia|]. cbn [rbind].
  eexists _, r, _. split; [done|].
  assert (Hdef : forall x, is_Some (ram (pal h1) !! x) -> is_Some (m !! x)) by (intros x Hx; rewrite Hm; case_decide; eauto).
  split_and!.
  - by apply heap_inv_ram.
  - by right.
  - assert (Hk : kept h1 (with_pal h1 (with_ram (pal h1) m)) (delete r (<[r := a * b]> live))).
    { apply (kept_write h1 _ r (a * b) m (a * b) HI1 Hl1); [lia|]. intros x Hx. by rewrite Hm, decide_False. }
    rewrite delete_insert_id in Hk by done. intros q sz x Hq Hx. by rewrite (Hk q sz x Hq Hx), Er.
  - intros _ x Hx. simpl. by rewrite Hm, decide_True.
Qed.

Lemma realloc_call h live p n sz : heap_inv h live None -> live !! p = Some sz -> 0 < n <= MAX_REQUEST ->
  exists h' r, realloc h p n = Ret (h', r) /\
    ((r = NULL /\ heap_inv h' live None /\ ~ room h (pages_needed n) /\ kept h h' live) \/
     (r <> NULL /\ live !! r = None /\ heap_inv h' (<[r := n]> (delete p live)) None /\ kept h h' (delete p live) /\
      forall x, 0 <= x < Z.min n sz -> ram (pal h') !! (r + x) = ram (pal h) !! (p + x))).
Proof.
  intros HI Hp Hn. unfold realloc. rewrite bool_decide_eq_false_2 by lia.
  destruct (malloc_call h live n HI) as (h1 & r & live1 & -> & HI1 & Hal & Er); [lia|]. cbn [rbind].
  destruct (live_block _ _ _ _ _ HI Hp) as (cap0 & Hc0 & _). destruct (block_mapped _ _ _ _ _ HI Hc0) as (Hp0 & _ & _ & _).
  rewrite (bool_decide_eq_true_2 (p <> NULL)) by (unfold NULL; lia). cbn [andb].
  destruct Hal as [(-> & -> & Hno)|(Hr & Hnl & ->)].
  { rewrite bool_decide_eq_false_2 by naive_solver. exists h1, NULL. split; [done|]. left.
    split_and!; [done|done|destruct Hno; [lia|done]|]. intros q s x _ _. by rewrite Er. }
  rewrite bool_decide_eq_true_2 by done. set (live1 := <[r := n]> live) in *.
  assert (Hpr : p <> r) by congruence. assert (Hp1 : live1 !! p = Some sz) by (unfold live1; by rewrite lookup_insert_ne).
  assert (Hr1 : live1 !! r = Some n) by apply lookup_insert_eq.
  destruct (block_size_ok h1 live1 p sz HI1 Hp1) as (cap & -> & Hcap & Hle). cbn [rbind].
  destruct (live_block _ _ _ _ _ HI1 Hr1) as (capr & Hcapr & Hnr).
  set (k := if bool_decide (n < cap) then n else cap). assert (Hk : 0 < k <= n /\ k <= cap /\ Z.min n sz <= k).
  { pose proof (live_block _ _ _ _ _ HI1 Hp1) as (? & _ & ?). unfold k. case_bool_decide; lia. }
  destruct (block_mapped _ _ _ _ _ HI1 Hcap) as (Hpp & _ & _ & Hmp), (block_mapped _ _ _ _ _ HI1 Hcapr) as (Hrp & _ & _ & Hmr).
  pose proof (blocks_apart _ _ _ _ _ _ _ HI1 Hcap Hcapr Hpr) as Hap.
  destruct (memcpy_ok (ram (pal h1)) r p k) as (m & -> & Hm);
    [lia|intros x Hx; apply Hmr; lia|intros x Hx; apply Hmp; lia|lia|lia|lia|]. cbn [rbind].
  set (h2 := with_pal h1 (with_ram (pal h1) m)).
  assert (HI2 : heap_inv h2 live1 None).
  { apply heap_inv_ram; [done|]. intros x Hx. rewrite (Hm x). case_decide; [|done]. apply Hmp. lia. }
  assert (Hk2 : kept h1 h2 (delete r live1)).
  { apply (kept_write h1 live1 r n m k HI1 Hr1); [lia|]. intros x Hx. by rewrite (Hm x), decide_False. }
  destruct (free_ok h2 live1 p sz HI2 Hp1) as (h3 & -> & HI3 & Hk3). cbn [rbind].
  unfold live1 in HI3, Hk3, Hk2. rewrite delete_insert_ne in HI3, Hk3 by done. rewrite delete_insert_id in Hk2 by done.
  exists h3, r. split; [done|]. right. split_and!; [done|done|done| |].
  - intros q s x Hq Hx. assert (q <> r) by (intros ->; apply lookup_delete_Some in Hq as [_ ?]; congruence).
    rewrite (Hk3 q s x) by (rewrite ?lookup_insert_ne; done). apply lookup_delete_Some in Hq as [_ Hq].
    by rewrite (Hk2 q s x Hq Hx), Er.
  - intros x Hx. rewrite (Hk3 r n (r + x)) by (rewrite ?lookup_insert_eq; (done || lia)). simpl.
    rewrite (Hm (r + x)), decide_True by lia. rewrite <- Er. f_equal. lia.
Qed.
End Ops.

(** ** Series of calls

    A client that frees, resizes and writes only blocks it holds: a call on another
    address is not made. *)

Inductive heap_op :=
| HMalloc (n : Z) | HCalloc (a b : Z) | HRealloc (p n : Z) | HFree (p : Z) | HWrite (p i v : Z).

Definition hold (live : gmap Z Z) (r n : Z) : gmap Z Z := if bool_decide (r = NULL) then live else <[r := n]> live.

Definition heap_call (o : heap_op) (c : heap * gmap Z Z) : res (heap * gmap Z Z * Z) :=
  let '(h, live) := c in
  match o with
  | HMalloc n => let! '(h, r) := malloc h n in Ret (h, hold live r n, r)
  | HCalloc a b => let! '(h, r) := calloc h a b in Ret (h, hold live r (a * b), r)
  | HRealloc p n =>
      match live !! p with
      | None => Ret (h, live, NULL)
      | Some _ =>
          let! '(h, r) := realloc h p n in
          Ret (h, if bool_decide (n = 0) then delete p live
                  else if bool_decide (r = NULL) then live else <[r := n]> (delete p live), r)
      end
  | HFree p =>
      match live !! p with
      | None => Ret (h, live, NULL)
      | Some _ => let! h := free h p in Ret (h, delete p live, NULL)
      end
  | HWrite p i v =>
      match live !! p with
      | Some sz =>
          if bool_decide (0 <= i < sz) then
            let! m := store (ram (pal h)) (p + i) (u8 v) in Ret (with_pal h (with_ram (pal h) m), live, NULL)
          else Ret (h, live, NULL)
      | None => Ret (h, live, NULL)
      end
  end.

Fixpoint heap_run (os : list heap_op) (c : heap * gmap Z Z) : res (heap * gmap Z Z) :=
  match os with [] => Ret c | o :: os => let! '(h, live, _) := heap_call o c in heap_run os (h, live) end.

(** Requests whose size does not overflow when the header is added. *)
Definition request_ok (o : heap_op) : Prop :=
  match o with
  | HMalloc n | HRealloc _ n => 0 <= n <= MAX_REQUEST
  | HCalloc a b => 0 <= a < 2 ^ 32 /\ 0 <= b < 2 ^ 32 /\ a * b <= MAX_REQUEST
  | HFree _ | HWrite _ _ _ => True
  end.

(** What each call does to the blocks of the client and to their contents. *)
Definition effect (o : heap_op) (h : heap) (live : gmap Z Z) (h' : heap) (live' : gmap Z Z) (r : Z) : Prop :=
  match o with
  | HMalloc n => allocated h live n live' r /\ kept h h' live
  | HCalloc a b => allocated h live (a * b) live' r /\ kept h h' live /\
      (r <> NULL -> forall x, r <= x < r + a * b -> ram (pal h') !! x = Some 0)
  | HRealloc p n =>
      match live !! p with
      | None => h' = h /\ live' = live
      | Some sz =>
          if bool_decide (n = 0) then r = NULL /\ live' = delete p live /\ kept h h' live'
          else (r = NULL /\ live' = live /\ ~ room h (pages_needed n) /\ kept h h' live) \/
               (r <> NULL /\ live !! r = None /\ live' = <[r := n]> (delete p live) /\ kept h h' (delete p live) /\
                forall x, 0 <= x < Z.min n sz -> ram (pal h') !! (r + x) = ram (pal h) !! (p + x))
      end
  | HFree p => live' = delete p live /\ kept h h' live'
  | HWrite p i v =>
      live' = live /\ kept h h' (delete p live) /\
      match live !! p with
      | Some sz => 0 <= i < sz -> ram (pal h') = <[p + i := u8 v]> (ram (pal h))
      | None => h' = h
      end
  end.

Lemma hold_allocated h live n live' r : allocated h live n live' r -> live' = hold live r n.
Proof.
  unfold hold. intros [(-> & -> & _)|(Hr & _ & ->)]; [by rewrite bool_decide_eq_true_2|by rewrite bool_decide_eq_false_2].
Qed.

Lemma heap_call_ok others o h live : heap_inv others h live None -> request_ok o ->
  exists h' live' r, heap_call o (h, live) = Ret (h', live', r) /\ heap_inv others h' live' None /\ effect o h live h' live' r.
Proof.
  intros HI Ho. destruct o as [n|a b|p n|p|p i v]; simpl in *.
  - destruct (malloc_call others h live n HI Ho) as (h' & r & live' & -> & HI' & Hal & Er). cbn [rbind].
    exists h', live', r. rewrite <- (hold_allocated _ _ _ _ _ Hal). split_and!; [done|done|done|].
    intros q sz x _ _. by rewrite Er.
  - destruct Ho as (Ha & Hb & Hab). destruct (calloc_call others h live a b HI Ha Hb Hab) as (h' & r & live' & -> & HI' & Hal & Hk & Hz).
    cbn [rbind]. exists h', live', r. rewrite <- (hold_allocated _ _ _ _ _ Hal). split_and!; done.
  - destruct (live !! p) as [sz|] eqn:Hp; [|exists h, live, NULL; by split_and!].
    case_bool_decide as Hn.
    + subst n. unfold realloc. rewrite bool_decide_eq_true_2 by done.
      destruct (free_ok others h live p sz HI Hp) as (h' & -> & HI' & Hk). cbn [rbind]. exists h', (delete p live), NULL. split_and!; done.
    + destruct (realloc_call others h live p n sz HI Hp) as (h' & r & -> & [(-> & HI' & Hno & Hk)|(Hr & Hnl & HI' & Hk & Hc)]); [lia| |]; cbn [rbind].
      * exists h', live, NULL. split_and!; [done|done|]. by left.
      * rewrite bool_decide_eq_false_2 by done. exists h', (<[r := n]> (delete p live)), r. split_and!; [done|done|]. by right.
  - destruct (live !! p) as [sz|] eqn:Hp.
    + destruct (free_ok others h live p sz HI Hp) as (h' & -> & HI' & Hk). cbn [rbind]. exists h', (delete p live), NULL. split_and!; done.
    + exists h, live, NULL. rewrite delete_id by done. split_and!; done.
  - destruct (live !! p) as [sz|] eqn:Hp; [|exists h, live, NULL; by split_and!].
    case_bool_decide as Hi; [|exists h, live, NULL; split_and!; try done; by intros ?].
    destruct (live_block others _ _ _ _ _ HI Hp) as (cap & Hc & Hsz). destruct (block_mapped others _ _ _ _ _ HI Hc) as (_ & _ & _ & Hmap).
    destruct (Hmap (p + i)) as [b Hb]; [lia|]. unfold store. rewrite bool_decide_eq_true_2 by eauto. cbn [rbind].
    eexists _, live, NULL. split; [done|]. split_and!; [|done| |done].
    + apply heap_inv_ram; [done|]. intros x Hx. apply lookup_insert_is_Some. destruct (decide (p + i = x)); eauto.
    + apply (kept_write others h live p sz _ sz HI Hp); [lia|]. intros x Hx. rewrite lookup_insert_ne by lia. done.
Qed.

Lemma heap_run_ok others os h live : heap_inv others h live None -> Forall request_ok os ->
  exists h' live', heap_run os (h, live) = Ret (h', live') /\ heap_inv others h' live' None.
Proof.
  intros HI Hos. revert h live HI. induction Hos as [|o os Ho _ IH]; intros h live HI; [by exists h, live|].
  cbn [heap_run]. destruct (heap_call_ok others o h live HI Ho) as (h1 & l1 & r & -> & HI1 & _). cbn [rbind]. by apply IH.
Qed.

Lemma malloc_init_ok s : pages_wf s -> exists h, malloc_init s = Ret h /\ pal h = s /\ heap_inv (page_used s) h ∅ None.
Proof.
  intros Hs. eexists; split; [reflexivity|]. split; [done|]. split.
  - split; [done|]. intros i Hi. do 7 (destruct i as [|i]; [done|]). lia.
  - split; simpl; try done. intros k. split; [by left|]. intros [|(a & ar & H & _)]; [done|]. by rewrite lookup_empty in H.
  - assert (Hnil : forall i, fl (mkHeap s (descs (mkHeap s
      ((fun i => mkDesc (dsize i) (dblocks i) []) <$> seq 0 7) ∅)) ∅) i = []).
    { intros i. unfold fl; simpl. do 7 (destruct i as [|i]; [done|]). done. }
    apply (blk_ext (fun _ => [])); [intros j; symmetry; apply Hnil|].
    split; intros; try done; try (by rewrite lookup_empty in *); try constructor; by apply elem_of_nil in H.
Qed.

Lemma heap_inv_empty others h : heap_inv others h ∅ None -> arenas h = ∅.
Proof.
  intros [_ _ [_ _ _ _ _ Bs]]. apply map_eq. intros a. rewrite lookup_empty. destruct (arenas h !! a) as [ar|] eqn:E; [|done].
  destruct (Bs _ _ E) as (p & cap & _ & [x Hx]); [done|]. by rewrite lookup_empty in Hx.
Qed.

Lemma live_pages others h live p n x : heap_inv others h live None -> live !! p = Some n -> p <= x < p + n ->
  others (x / 4096) = false /\ page_used (pal h) (x / 4096) = true.
Proof.
  intros [_ HG HB] Hp Hx. destruct (b_live _ _ _ _ HB _ _ Hp) as (_ & a & ar & cap & Ha & Hb & _ & Hle).
  pose proof (g_arena _ _ _ HG _ _ Ha) as Hao. destruct (block_of_bounds _ _ _ _ _ Hao Hb) as (B1 & B2 & _).
  assert (Hc : covers a ar (x / 4096)).
  { destruct Hao as (_ & _ & _ & k & -> & _). apply covers_range. Z.div_mod_to_equations. lia. }
  split; [by eapply (g_oth _ _ _ HG)|]. apply (g_used _ _ _ HG). right. by exists a, ar.
Qed.

(** C10. The block allocator is memory-safe and leaks nothing: from any state of the
    page allocator, after [malloc_init], every series of [malloc], [calloc], [realloc]
    and [free] calls on blocks the client holds (with sizes up to [2^32 - 4108]) runs
    without a failed assertion or a stray access; at its end the blocks held do not
    overlap, lie in pages that were free at the start and are in use now, pages in use
    at the start still are, and if no block is held every page has been given back. *)
Theorem malloc_safe s0 os : pages_wf s0 -> Forall request_ok os ->
  exists h0 h live, malloc_init s0 = Ret h0 /\ heap_run os (h0, ∅) = Ret (h, live) /\
    (forall p n q m, live !! p = Some n -> live !! q = Some m -> p <> q -> p + n <= q \/ q + m <= p) /\
    (forall p n x, live !! p = Some n -> p <= x < p + n ->
       page_used s0 (x / 4096) = false /\ page_used (pal h) (x / 4096) = true) /\
    (forall k, page_used s0 k = true -> page_used (pal h) k = true) /\
    (live = ∅ -> forall k, page_used (pal h) k = page_used s0 k).
Proof.
  intros Hs Hos. destruct (malloc_init_ok s0 Hs) as (h0 & E0 & _ & HI0).
  destruct (heap_run_ok _ os h0 ∅ HI0 Hos) as (h & live & E & HI). exists h0, h, live. split_and!; [done|done|..].
  - intros p n q m Hp Hq Hne. destruct (live_block _ _ _ _ _ _ HI Hp) as (c & Hc & ?), (live_block _ _ _ _ _ _ HI Hq) as (c' & Hc' & ?).
    destruct (blocks_apart _ _ _ _ _ _ _ _ HI Hc Hc' Hne); [left|right]; lia.
  - intros p n x Hp Hx. by eapply live_pages.
  - intros k Hk. apply (g_used _ _ _ (hi_geo _ _ _ _ HI)). by left.
  - intros -> k. apply Bool.eq_iff_eq_true. rewrite (g_used _ _ _ (hi_geo _ _ _ _ HI)). rewrite (heap_inv_empty _ _ HI).
    split; [|by left]. intros [|(a & ar & H & _)]; [done|]. by rewrite lookup_empty in H.
Qed.

(** What one allocator call does in every state a client can reach: [malloc] and
    [calloc] return a null pointer only for size zero or when no run of enough pages
    is free, and otherwise a block that was not in use, filled with zeros by [calloc];
    [realloc] moves the contents and gives the old block back, or fails and keeps it;
    no call changes a byte of a block it was not given. *)
Theorem malloc_call_effect s0 os h0 h live o : pages_wf s0 -> Forall request_ok os -> request_ok o ->
  malloc_init s0 = Ret h0 -> heap_run os (h0, ∅) = Ret (h, live) ->
  exists h' live' r, heap_call o (h, live) = Ret (h', live', r) /\ effect o h live h' live' r.
Proof.
  intros Hs Hos Ho E0 E. destruct (malloc_init_ok s0 Hs) as (h0' & E0' & _ & HI0). rewrite E0 in E0'. injection E0' as <-.
  destruct (heap_run_ok _ os h0 ∅ HI0 Hos) as (h1 & live1 & E1 & HI). rewrite E in E1. injection E1 as <- <-.
  destruct (heap_call_ok _ o h live HI Ho) as (h' & live' & r & H1 & _ & H2). by exists h', live', r.
Qed.

(** Sizes that overflow are not refused: [calloc (65537, 65537)] is the request
    for the product modulo [2^32], and [malloc (2^32 - 1)] returns a block of 4084 bytes. *)
Theorem malloc_size_overflow :
  (forall h, calloc h 65537 65537 = calloc h 1 131073) /\
  exists h h' p, malloc_init tiny = Ret h /\ malloc h (2 ^ 32 - 1) = Ret (h', p) /\ p <> NULL /\ block_size h' p = Ret 4084.
Proof.
  split; [intros h; reflexivity|]. eexists _, _, _. split; [reflexivity|]. split; [reflexivity|]. split; [done|reflexivity].
Qed.

Lemma demo_ok : Forall request_ok [HMalloc 20; HMalloc 5000; HCalloc 3 7; HRealloc 8204 100; HWrite 8204 3 65; HFree 8220].
Proof. repeat (apply Forall_cons; split; [unfold request_ok, MAX_REQUEST; lia|]). by apply Forall_nil. Qed.

Lemma malloc_safe_witness :
  exists h0 h live, malloc_init tiny = Ret h0 /\
    heap_run [HMalloc 20; HMalloc 5000; HCalloc 3 7; HRealloc 8204 100; HWrite 8204 3 65; HFree 8220] (h0, ∅) = Ret (h, live).
Proof.
  destruct (malloc_safe tiny _ tiny_wf demo_ok) as (h0 & h & live & H1 & H2 & _). exists h0, h, live. exact (conj H1 H2).
Defined.

Lemma malloc_call_effect_witness :
  exists h0 h' live' r, malloc_init tiny = Ret h0 /\ heap_call (HMalloc 100) (h0, ∅) = Ret (h', live', r) /\
    effect (HMalloc 100) h0 ∅ h' live' r.
Proof.
  destruct (malloc_init tiny) as [h0| | |] eqn:E; try discriminate E.
  assert (Hn : Forall request_ok []) by apply Forall_nil_2.
  assert (Ho : request_ok (HMalloc 100)) by (unfold request_ok, MAX_REQUEST; lia).
  destruct (malloc_call_effect tiny [] h0 h0 ∅ (HMalloc 100) tiny_wf Hn Ho E eq_refl) as (h' & live' & r & H1 & H2).
  exists h0, h', live', r. exact (conj eq_refl (conj H1 H2)).
Defined.
