(* ===== verification/Pagedir.v ===== *)
(** * userprog/pagedir.c and threads/pte.h: two-level page tables

    Page directories and page tables are words in the memory the page allocator
    manages.  The registers of the MMU are the current [cr3] and the sequence of loads
    into it, each of which flushes the TLB. *)

From S2P Require Import Prelude Bitmap Vaddr Cstring CstringProof Palloc.

(** ** 32-bit words in memory *)

Definition load32 (m : mem) (a : Z) : res Z :=
  let! b0 := load m a in let! b1 := load m (a + 1) in let! b2 := load m (a + 2) in let! b3 := load m (a + 3) in
  Ret (b0 + 256 * b1 + 65536 * b2 + 16777216 * b3).

Definition store32 (m : mem) (a v : Z) : res mem :=
  let! m := store m a (u8 v) in
  let! m := store m (a + 1) (u8 (v / 256)) in
  let! m := store m (a + 2) (u8 (v / 65536)) in
  store m (a + 3) (u8 (v / 16777216)).

(** ** pte.h *)

Definition PTSHIFT : Z := PGBITS.
Definition PTBITS : Z := 10.
Definition PTMASK : Z := BITMASK PTSHIFT PTBITS.
Definition PDSHIFT : Z := PTSHIFT + PTBITS.

Definition pt_no (va : Z) : Z := Z.shiftr (Z.land va PTMASK) PTSHIFT.
Definition pd_no (va : Z) : Z := Z.shiftr va PDSHIFT.

Definition PTE_ADDR : Z := 0xfffff000.
Definition PTE_P : Z := 1.
Definition PTE_W : Z := 2.
Definition PTE_U : Z := 4.
Definition PTE_A : Z := 32.
Definition PTE_D : Z := 64.

Definition pde_create (pt : Z) : res Z :=
  ASSERT bool_decide (pg_ofs pt = 0);
  let! p := vtop pt in
  Ret (Z.lor (Z.lor (Z.lor p PTE_U) PTE_P) PTE_W).

Definition pde_get_pt (pde : Z) : res Z :=
  ASSERT bool_decide (Z.land pde PTE_P <> 0); ptov (Z.land pde PTE_ADDR).

Definition pte_create_kernel (page : Z) (writable : bool) : res Z :=
  ASSERT bool_decide (pg_ofs page = 0);
  let! p := vtop page in
  Ret (Z.lor (Z.lor p PTE_P) (if writable then PTE_W else 0)).

Definition pte_create_user (page : Z) (writable : bool) : res Z :=
  let! p := pte_create_kernel page writable in Ret (Z.lor p PTE_U).

Definition pte_get_page (pte : Z) : res Z := ptov (Z.land pte PTE_ADDR).

(** ** pagedir.c *)

Record mmu := mkMmu { pg : pages; base_page_dir : Z; ram_pages : Z; cr3 : Z; cr3_loads : list Z }.

Definition with_pg (s : mmu) (p : pages) : mmu := mkMmu p (base_page_dir s) (ram_pages s) (cr3 s) (cr3_loads s).
Definition set_word (s : mmu) (a v : Z) : res mmu :=
  let! m := store32 (ram (pg s)) a v in Ret (with_pg s (with_ram (pg s) m)).

Definition pagedir_create (s : mmu) : res (mmu * Z) :=
  let! '(p, pd) := palloc_get_page (pg s) 0 in
  let s := with_pg s p in
  if bool_decide (pd <> NULL) then
    let! '(m, _) := memcpy (ram (pg s)) pd (base_page_dir s) PGSIZE in Ret (with_pg s (with_ram (pg s) m), pd)
  else Ret (s, pd).

Definition lookup_page (s : mmu) (pd vaddr : Z) (create : bool) : res (mmu * Z) :=
  ASSERT bool_decide (pd <> NULL);
  ASSERT (negb create || is_user_vaddr vaddr);
  let pde := pd + 4 * pd_no vaddr in
  let! e := load32 (ram (pg s)) pde in
  let! '(s, found) :=
    (if bool_decide (e = 0) then
       if create then
         let! '(p, pt) := palloc_get_page (pg s) PAL_ZERO in
         let s := with_pg s p in
         if bool_decide (pt = NULL) then Ret (s, false)
         else let! e := pde_create pt in let! s := set_word s pde e in Ret (s, true)
       else Ret (s, false)
     else Ret (s, true)) in
  if found then
    let! e := load32 (ram (pg s)) pde in
    let! pt := pde_get_pt e in
    Ret (s, pt + 4 * pt_no vaddr)
  else Ret (s, NULL).

Definition pagedir_set_page (s : mmu) (pd upage kpage : Z) (writable : bool) : res (mmu * bool) :=
  ASSERT bool_decide (pg_ofs upage = 0);
  ASSERT bool_decide (pg_ofs kpage = 0);
  ASSERT is_user_vaddr upage;
  let! p := vtop kpage in
  ASSERT bool_decide (Z.shiftr p PTSHIFT < ram_pages s);
  ASSERT bool_decide (pd <> base_page_dir s);
  let! '(s, pte) := lookup_page s pd upage true in
  if bool_decide (pte <> NULL) then
    let! e := load32 (ram (pg s)) pte in
    ASSERT bool_decide (Z.land e PTE_P = 0);
    let! e := pte_create_user kpage writable in
    let! s := set_word s pte e in
    Ret (s, true)
  else Ret (s, false).

Definition pagedir_get_page (s : mmu) (pd uaddr : Z) : res (mmu * Z) :=
  ASSERT is_user_vaddr uaddr;
  let! '(s, pte) := lookup_page s pd uaddr false in
  if bool_decide (pte <> NULL) then
    let! e := load32 (ram (pg s)) pte in
    if bool_decide (Z.land e PTE_P <> 0) then
      let! page := pte_get_page e in Ret (s, page + pg_ofs uaddr)
    else Ret (s, NULL)
  else Ret (s, NULL).

Definition pagedir_activate (s : mmu) (pd : Z) : res mmu :=
  let pd := if bool_decide (pd = NULL) then base_page_dir s else pd in
  let! p := vtop pd in
  Ret (mkMmu (pg s) (base_page_dir s) (ram_pages s) p (cr3_loads s ++ [p])).

Definition active_pd (s : mmu) : res Z := ptov (cr3 s).

Definition invalidate_pagedir (s : mmu) (pd : Z) : res mmu :=
  let! a := active_pd s in
  if bool_decide (a = pd) then pagedir_activate s pd else Ret s.

Definition pagedir_clear_page (s : mmu) (pd upage : Z) : res mmu :=
  ASSERT bool_decide (pg_ofs upage = 0);
  ASSERT is_user_vaddr upage;
  let! '(s, pte) := lookup_page s pd upage false in
  if bool_decide (pte <> NULL) then
    let! e := load32 (ram (pg s)) pte in
    if bool_decide (Z.land e PTE_P <> 0) then
      let! s := set_word s pte (Z.land e (u32 (Z.lnot PTE_P))) in invalidate_pagedir s pd
    else Ret s
  else Ret s.

(** The four routines on the dirty and accessed bits. *)
Definition pagedir_is_dirty (s : mmu) (pd vpage : Z) : res bool :=
  let! '(s, pte) := lookup_page s pd vpage false in
  if bool_decide (pte <> NULL) then
    let! e := load32 (ram (pg s)) pte in Ret (bool_decide (Z.land e PTE_D <> 0))
  else Ret false.

Definition pagedir_set_dirty (s : mmu) (pd vpage : Z) (dirty : bool) : res mmu :=
  let! '(s, pte) := lookup_page s pd vpage false in
  if bool_decide (pte <> NULL) then
    let! e := load32 (ram (pg s)) pte in
    if dirty then set_word s pte (Z.lor e PTE_D)
    else let! s := set_word s pte (Z.land e (u32 (Z.lnot PTE_D))) in invalidate_pagedir s pd
  else Ret s.

Definition pagedir_is_accessed (s : mmu) (pd vpage : Z) : res bool :=
  let! '(s, pte) := lookup_page s pd vpage false in
  if bool_decide (pte <> NULL) then
    let! e := load32 (ram (pg s)) pte in Ret (bool_decide (Z.land e PTE_A <> 0))
  else Ret false.

Definition pagedir_set_accessed (s : mmu) (pd vpage : Z) (accessed : bool) : res mmu :=
  let! '(s, pte) := lookup_page s pd vpage false in
  if bool_decide (pte <> NULL) then
    let! e := load32 (ram (pg s)) pte in
    if accessed then set_word s pte (Z.lor e PTE_A)
    else let! s := set_word s pte (Z.land e (u32 (Z.lnot PTE_A))) in invalidate_pagedir s pd
  else Ret s.

Definition pagedir_destroy (s : mmu) (pd : Z) : res mmu :=
  if bool_decide (pd = NULL) then Ret s
  else
    ASSERT bool_decide (pd <> base_page_dir s);
    let! s := for_up (Z.to_nat (pd_no PHYS_BASE)) 0
      (fun i s =>
         let! pde := load32 (ram (pg s)) (pd + 4 * i) in
         if bool_decide (Z.land pde PTE_P <> 0) then
           let! pt := pde_get_pt pde in
           let! s := for_up (Z.to_nat (PGSIZE / 4)) 0
             (fun j s =>
                let! pte := load32 (ram (pg s)) (pt + 4 * j) in
                if bool_decide (Z.land pte PTE_P <> 0) then
                  let! page := pte_get_page pte in
                  let! p := palloc_free_page (pg s) page in Ret (with_pg s p)
                else Ret s) s in
           let! p := palloc_free_page (pg s) pt in Ret (with_pg s p)
         else Ret s) s in
    let! p := palloc_free_page (pg s) pd in
    Ret (with_pg s p).

(** process.c: [install_page], with the page directory of the current thread. *)
Definition install_page (s : mmu) (pd upage kpage : Z) (writable : bool) : res (mmu * bool) :=
  let! '(s, p) := pagedir_get_page s pd upage in
  if bool_decide (p = NULL) then pagedir_set_page s pd upage kpage writable else Ret (s, false).
