(* ===== verification/PagedirProof.v ===== *)
(** * Page directories implement maps from user pages to frames *)

From S2P Require Import Prelude Bitmap Vaddr Cstring CstringProof Palloc Pagedir.

(** ** Words *)

Definition word (m : mem) (a : Z) : Z :=
  byte_at m a + 256 * byte_at m (a + 1) + 65536 * byte_at m (a + 2) + 16777216 * byte_at m (a + 3).

Definition bytes_ok (m : mem) : Prop := forall a b, m !! a = Some b -> is_u8 b.

Lemma load_mapped m a : is_Some (m !! a) -> load m a = Ret (byte_at m a).
Proof. intros [b Hb]. unfold load, byte_at. by rewrite Hb. Qed.

Lemma load32_ok m a : mapped m a 4 -> load32 m a = Ret (word m a).
Proof. intros Hm. unfold load32. rewrite !load_mapped by (apply Hm; lia). done. Qed.

Lemma byte_at_range m a : bytes_ok m -> is_u8 (byte_at m a).
Proof. intros Hb. unfold byte_at. destruct (m !! a) as [b|] eqn:E; simpl; [by eapply Hb|unfold is_u8; lia]. Qed.

Lemma word_range m a : bytes_ok m -> is_u32 (word m a).
Proof.
  intros Hb. pose proof (byte_at_range m a Hb). pose proof (byte_at_range m (a + 1) Hb).
  pose proof (byte_at_range m (a + 2) Hb). pose proof (byte_at_range m (a + 3) Hb). unfold word, is_u8, is_u32 in *. lia.
Qed.

Lemma bytes_of_word v : is_u32 v -> u8 v + 256 * u8 (v / 256) + 65536 * u8 (v / 65536) + 16777216 * u8 (v / 16777216) = v.
Proof.
  unfold is_u32, u8. intros Hv. change (2 ^ 8) with 256.
  replace (v / 65536) with (v / 256 / 256) by (rewrite Z.div_div; done || lia).
  replace (v / 16777216) with (v / 256 / 256 / 256) by (rewrite !Z.div_div; done || lia).
  pose proof (Z.div_mod v 256). pose proof (Z.div_mod (v / 256) 256). pose proof (Z.div_mod (v / 256 / 256) 256).
  assert (0 <= v / 256 / 256 / 256 < 256) by (rewrite !Z.div_div by lia; split; [apply Z.div_pos|apply Z.div_lt_upper_bound]; lia).
  rewrite (Z.mod_small (v / 256 / 256 / 256)) by lia. lia.
Qed.

Lemma store_insert m a v : is_Some (m !! a) -> store m a v = Ret (<[a := v]> m).
Proof. intros H. unfold store. by rewrite bool_decide_eq_true_2. Qed.

Lemma byte_at_insert m a v q : byte_at (<[a := v]> m) q = if decide (q = a) then v else byte_at m q.
Proof.
  unfold byte_at. destruct (decide (q = a)) as [->|]; [by rewrite lookup_insert_eq|by rewrite lookup_insert_ne].
Qed.

(** [m'] is [m] with the word at [a] replaced by [v]. *)
Record word_set (m m' : mem) (a v : Z) : Prop := {
  ws_word : word m' a = v;
  ws_out : forall q, ~ (a <= q < a + 4) -> m' !! q = m !! q;
  ws_dom : forall q, is_Some (m' !! q) <-> is_Some (m !! q);
  ws_bytes : bytes_ok m -> bytes_ok m'
}.

Lemma store32_ok m a v : mapped m a 4 -> is_u32 v -> exists m', store32 m a v = Ret m' /\ word_set m m' a v.
Proof.
  intros Hm Hv. unfold store32.
  rewrite store_insert by (apply Hm; lia). cbn [rbind].
  rewrite store_insert by (rewrite lookup_insert_ne by lia; apply Hm; lia). cbn [rbind].
  rewrite store_insert by (rewrite !lookup_insert_ne by lia; apply Hm; lia). cbn [rbind].
  rewrite store_insert by (rewrite !lookup_insert_ne by lia; apply Hm; lia).
  eexists; split; [done|]. split.
  - unfold word. rewrite !byte_at_insert. repeat (case_decide; try lia). by apply bytes_of_word.
  - intros q Hq. rewrite !lookup_insert_ne by lia. done.
  - intros q. rewrite !lookup_insert_is_Some. split.
    + intros [<-|[_ [<-|[_ [<-|[_ [<-|[_ H]]]]]]]]; [apply Hm; lia..|done].
    + intros H. destruct (decide (a + 3 = q)); [by left|right; split; [done|]]. destruct (decide (a + 2 = q)); [by left|right; split; [done|]].
      destruct (decide (a + 1 = q)); [by left|right; split; [done|]]. destruct (decide (a = q)); [by left|right; done].
  - intros Hb q b. rewrite !lookup_insert_Some. pose proof (u8_range v). pose proof (u8_range (v / 256)).
    pose proof (u8_range (v / 65536)). pose proof (u8_range (v / 16777216)). unfold is_u8.
    intros [[_ <-]|[_ [[_ <-]|[_ [[_ <-]|[_ [[_ <-]|[_ Hq]]]]]]]]; try lia. by eapply Hb.
Qed.

Lemma word_ext m m' a : (forall q, a <= q < a + 4 -> m' !! q = m !! q) -> word m' a = word m a.
Proof. intros H. unfold word, byte_at. by rewrite !H by lia. Qed.

Lemma word_set_other m m' a v b : word_set m m' a v -> b + 4 <= a \/ a + 4 <= b -> word m' b = word m b.
Proof. intros H Hb. apply word_ext. intros q Hq. apply (ws_out _ _ _ _ H). lia. Qed.

(** ** Entries *)

Lemma land_small x c : 0 <= c < 4096 -> Z.land x c = Z.land (x mod 4096) c.
Proof.
  intros Hc. replace (x mod 4096) with (Z.land x (Z.ones 12)) by (by rewrite Z.land_ones).
  rewrite <- Z.land_assoc. f_equal. rewrite Z.land_comm, Z.land_ones by lia. symmetry. by apply Z.mod_small.
Qed.

Lemma land_addr e : is_u32 e -> Z.land e PTE_ADDR = e - e mod 4096.
Proof. intros He. change PTE_ADDR with (u32 (Z.lnot PGMASK)). by apply land_notmask. Qed.

Lemma lor_flags f fl : 0 <= f -> 0 <= fl < 4096 -> Z.lor (4096 * f) fl = 4096 * f + fl.
Proof.
  intros Hf Hfl. assert (D : Z.land (4096 * f) fl = 0).
  { rewrite land_small by done. rewrite Z.mul_comm, Z.mod_mul by lia. apply Z.land_0_l. }
  rewrite <- Z.lxor_lor by exact D. by rewrite <- Z.add_nocarry_lxor by exact D.
Qed.

Lemma pd_no_div va : pd_no va = va / 4194304.
Proof. unfold pd_no. by rewrite Z.shiftr_div_pow2 by done. Qed.

Lemma pt_no_mod va : pt_no va = (va / 4096) mod 1024.
Proof.
  unfold pt_no. rewrite Z.shiftr_land. change (Z.shiftr PTMASK PTSHIFT) with (Z.ones 10).
  rewrite Z.land_ones by lia. by rewrite Z.shiftr_div_pow2 by done.
Qed.

(** ** The directory as a function from user pages to entries *)

(** An allocated page of the kernel pool. *)
Definition kernel_page (s : mmu) (a : Z) : Prop :=
  exists n, a = 4096 * n /\ pool_page (kernel_pool (pg s)) n = true /\ page_used (pg s) n = true.

Definition pde_at (s : mmu) (pd i : Z) : Z := word (ram (pg s)) (pd + 4 * i).
Definition table_of (e : Z) : Z := PHYS_BASE + Z.land e PTE_ADDR.

Record pd_ok (s : mmu) (pd : Z) : Prop := {
  po_pages : pages_wf (pg s);
  po_bytes : bytes_ok (ram (pg s));
  po_high : PHYS_BASE <= base (kernel_pool (pg s));
  po_pd : kernel_page s pd;
  po_table : forall i, 0 <= i < 768 -> pde_at s pd i <> 0 ->
    Z.land (pde_at s pd i) PTE_P <> 0 /\ Z.land (pde_at s pd i) PTE_ADDR < PHYS_BASE /\
    kernel_page s (table_of (pde_at s pd i)) /\ table_of (pde_at s pd i) <> pd;
  po_sep : forall i j, 0 <= i < 768 -> 0 <= j < 768 -> pde_at s pd i <> 0 -> pde_at s pd j <> 0 ->
    table_of (pde_at s pd i) = table_of (pde_at s pd j) -> i = j
}.

(** The entry of user page [n]; zero when there is no table for it. *)
Definition entry (s : mmu) (pd n : Z) : Z :=
  let e := pde_at s pd (n / 1024) in
  if decide (e = 0) then 0 else word (ram (pg s)) (table_of e + 4 * (n mod 1024)).

Definition user_page (n : Z) : Prop := 0 <= n < 786432.

Lemma kernel_page_mapped s a : pages_wf (pg s) -> kernel_page s a -> 0 < a /\ mapped (ram (pg s)) a 4096 /\ a mod 4096 = 0 /\ a + 4096 <= 2 ^ 32.
Proof.
  intros [[Hwf Hal Hpos Htop Hram] _ _] (n & -> & Hn & _). apply in_range_spec in Hn.
  split_and!; [lia| |by rewrite Z.mul_comm, Z.mod_mul|lia]. intros q Hq. apply Hram. lia.
Qed.

Lemma kernel_page_high s a : pages_wf (pg s) -> PHYS_BASE <= base (kernel_pool (pg s)) -> kernel_page s a -> PHYS_BASE <= a.
Proof. intros [[_ Hal _ _ _] _ _] Hb (n & -> & Hn & _). apply in_range_spec in Hn. lia. Qed.

Lemma pages_disjoint a b x : a mod 4096 = 0 -> b mod 4096 = 0 -> a <= x < a + 4096 -> b <= x < b + 4096 -> a = b.
Proof. intros. Z.div_mod_to_equations. lia. Qed.

(** The number of free pages in the kernel pool. *)
Definition free_pages (p : pages) : nat :=
  length (filter (fun n => page_used p n = false) (seqZ (first_page (kernel_pool p)) (page_cnt (kernel_pool p)))).

Lemma filter_same {A} (P Q : A -> Prop) `{!forall x, Decision (P x), !forall x, Decision (Q x)} (l : list A) :
  (forall y, y ∈ l -> (P y <-> Q y)) -> filter P l = filter Q l.
Proof.
  induction l as [|z l IH]; [done|]. intros HPQ. assert (Hl : filter P l = filter Q l) by (apply IH; set_solver).
  destruct (HPQ z ltac:(set_solver)). destruct (decide (P z)); [rewrite !filter_cons_True by naive_solver; by rewrite Hl|].
  by rewrite !filter_cons_False by naive_solver.
Qed.

Lemma filter_minus `{EqDecision A} (P Q : A -> Prop) `{!forall x, Decision (P x), !forall x, Decision (Q x)} (l : list A) x :
  NoDup l -> x ∈ l -> P x -> (forall y, Q y <-> P y /\ y <> x) -> length (filter P l) = S (length (filter Q l)).
Proof.
  intros Hnd Hx HP HQ. induction Hnd as [|z l Hz Hnd IH]; [by apply elem_of_nil in Hx|].
  destruct (decide (z = x)) as [->|Hne].
  - rewrite filter_cons_True, filter_cons_False by naive_solver. simpl. do 2 f_equal.
    apply filter_same. intros y Hy. rewrite HQ. naive_solver.
  - assert (Hl : x ∈ l) by (apply elem_of_cons in Hx; naive_solver). specialize (IH Hl).
    destruct (decide (P z)); [rewrite !filter_cons_True by naive_solver; simpl; by rewrite IH|by rewrite !filter_cons_False by naive_solver].
Qed.

Lemma free_pages_get p p' t : same_layout p p' -> free_group (kernel_pool p) t 1 -> page_used p t = false ->
  (forall k, page_used p' k = if in_range t 1 k then true else page_used p k) -> free_pages p = S (free_pages p').
Proof.
  intros Hl (H1 & H2 & _) Ht Hu. pose proof (same_layout_first _ _ false Hl) as Hf. destruct (Hl false) as [_ Hc]. simpl in Hf, Hc.
  unfold free_pages. rewrite Hf, Hc. apply (filter_minus _ _ _ t); [apply NoDup_seqZ|apply elem_of_seqZ; lia|done|].
  intros y. rewrite Hu. destruct (in_range t 1 y) eqn:E.
  - apply in_range_spec in E. assert (y = t) as -> by lia. split; [done|naive_solver].
  - split; [|naive_solver]. intros ->. split; [done|]. intros ->. by rewrite (proj2 (in_range_spec t 1 t)) in E by lia.
Qed.

Lemma free_pages_none p : (forall k, ~ free_group (kernel_pool p) k 1) -> free_pages p = 0%nat.
Proof.
  intros Hno. unfold free_pages. rewrite length_zero_iff_nil. apply elem_of_nil_inv.
  intros n [Hu Hn%elem_of_seqZ]%list_elem_of_filter. apply (Hno n). split_and!; [lia|lia|]. intros k Hk. assert (k = n) as -> by lia.
  unfold page_used in Hu. by apply orb_false_iff in Hu as [? _].
Qed.

Section Dir.
Context (s : mmu) (pd : Z) (Hok : pd_ok s pd).

Lemma pde_index n : user_page n -> 0 <= n / 1024 < 768 /\ 0 <= n mod 1024 < 1024.
Proof. unfold user_page. intros. Z.div_mod_to_equations. lia. Qed.

Lemma load_pde i : 0 <= i < 1024 -> load32 (ram (pg s)) (pd + 4 * i) = Ret (pde_at s pd i).
Proof.
  intros Hi. destruct (kernel_page_mapped s pd (po_pages _ _ Hok) (po_pd _ _ Hok)) as (_ & Hm & _).
  apply load32_ok. intros q Hq. apply Hm. lia.
Qed.

Lemma load_pte n : user_page n -> pde_at s pd (n / 1024) <> 0 ->
  mapped (ram (pg s)) (table_of (pde_at s pd (n / 1024)) + 4 * (n mod 1024)) 4 /\
  load32 (ram (pg s)) (table_of (pde_at s pd (n / 1024)) + 4 * (n mod 1024)) = Ret (entry s pd n).
Proof.
  intros Hn He. destruct (pde_index n Hn) as [Hi Hj]. destruct (po_table _ _ Hok _ Hi He) as (_ & _ & Hk & _).
  destruct (kernel_page_mapped s _ (po_pages _ _ Hok) Hk) as (_ & Hm & _).
  assert (Hm4 : mapped (ram (pg s)) (table_of (pde_at s pd (n / 1024)) + 4 * (n mod 1024)) 4) by (intros q Hq; apply Hm; lia).
  split; [exact Hm4|]. unfold entry. rewrite decide_False by done. by apply load32_ok.
Qed.

Lemma get_pt e : Z.land e PTE_P <> 0 -> 0 <= Z.land e PTE_ADDR < PHYS_BASE -> table_of e < 2 ^ 32 -> pde_get_pt e = Ret (table_of e).
Proof.
  intros Hp Ha Ht. unfold pde_get_pt, ptov. rewrite !bool_decide_eq_true_2 by (done || lia). cbn [assert_ rbind].
  unfold table_of in *. rewrite u32_small by lia. f_equal. lia.
Qed.

Lemma table_bounds i : 0 <= i < 768 -> pde_at s pd i <> 0 ->
  pde_get_pt (pde_at s pd i) = Ret (table_of (pde_at s pd i)) /\ 0 < table_of (pde_at s pd i).
Proof.
  intros Hi He. destruct (po_table _ _ Hok _ Hi He) as (Hp & Ha & Hk & _).
  destruct (kernel_page_mapped s _ (po_pages _ _ Hok) Hk) as (Hpos & _ & _ & Htop). split; [|done]. apply get_pt; [done| |lia].
  split; [|done]. apply Z.land_nonneg. right. done.
Qed.

Lemma user_vaddr_page vaddr : is_user_vaddr vaddr = true -> 0 <= vaddr -> user_page (vaddr / 4096).
Proof.
  unfold is_user_vaddr. intros Hu%bool_decide_eq_true H0. change (vaddr < 3221225472) in Hu.
  split; [apply Z.div_pos; lia|apply Z.div_lt_upper_bound; lia].
Qed.

(** Looking up without creating. *)
Lemma lookup_found vaddr : is_user_vaddr vaddr = true -> 0 <= vaddr ->
  let n := vaddr / 4096 in user_page n /\
  lookup_page s pd vaddr false =
    Ret (s, if decide (pde_at s pd (n / 1024) = 0) then NULL else table_of (pde_at s pd (n / 1024)) + 4 * (n mod 1024)).
Proof.
  intros Hu H0 n. assert (Hn : user_page n) by (by apply user_vaddr_page). split; [done|].
  destruct (pde_index n Hn) as [Hi Hj]. unfold lookup_page.
  destruct (kernel_page_mapped s pd (po_pages _ _ Hok) (po_pd _ _ Hok)) as (Hpos & _).
  rewrite bool_decide_eq_true_2 by (unfold NULL; lia). cbn [assert_ rbind negb orb].
  assert (Ei : pd_no vaddr = n / 1024) by (unfold n; rewrite pd_no_div, Z.div_div by lia; reflexivity). rewrite Ei.
  assert (Ej : pt_no vaddr = n mod 1024) by apply pt_no_mod. clearbody n.
  rewrite load_pde by lia. cbn [rbind]. destruct (decide (pde_at s pd (n / 1024) = 0)) as [E|E].
  - rewrite bool_decide_eq_true_2 by exact E. reflexivity.
  - rewrite bool_decide_eq_false_2 by exact E. cbn [rbind]. rewrite load_pde by lia. cbn [rbind].
    destruct (table_bounds _ Hi E) as [-> _]. cbn [rbind]. rewrite Ej. reflexivity.
Qed.

(** The directory's own pages. *)
Lemma table_page n : user_page n -> pde_at s pd (n / 1024) <> 0 ->
  let t := table_of (pde_at s pd (n / 1024)) in 0 < t /\ mapped (ram (pg s)) t 4096 /\ t mod 4096 = 0 /\ t <> pd.
Proof.
  intros Hn He t. destruct (pde_index n Hn) as [Hi _]. destruct (po_table _ _ Hok _ Hi He) as (_ & _ & Hk & Hne).
  destruct (kernel_page_mapped s _ (po_pages _ _ Hok) Hk) as (? & ? & ? & _). done.
Qed.

Lemma pd_page : 0 < pd /\ mapped (ram (pg s)) pd 4096 /\ pd mod 4096 = 0.
Proof. by destruct (kernel_page_mapped s pd (po_pages _ _ Hok) (po_pd _ _ Hok)) as (? & ? & ? & _). Qed.

Lemma kernel_page_keep s' a : same_layout (pg s) (pg s') ->
  (forall k, page_used (pg s) k = true -> page_used (pg s') k = true) -> kernel_page s a -> kernel_page s' a.
Proof.
  intros Hl Hu (n & -> & Hp & Hn). exists n. split_and!; [done| |by apply Hu]. unfold pool_page in *.
  pose proof (same_layout_first _ _ false Hl) as Hf. destruct (Hl false) as [_ Hc]. simpl in *. by rewrite Hf, Hc.
Qed.

(** Writing an entry of an existing table. *)
Lemma write_entry n v : user_page n -> pde_at s pd (n / 1024) <> 0 -> is_u32 v ->
  exists m, set_word s (table_of (pde_at s pd (n / 1024)) + 4 * (n mod 1024)) v = Ret (with_pg s (with_ram (pg s) m)) /\
    pd_ok (with_pg s (with_ram (pg s) m)) pd /\
    (forall n', user_page n' -> entry (with_pg s (with_ram (pg s) m)) pd n' = if decide (n' = n) then v else entry s pd n') /\
    (forall i, 0 <= i < 768 -> pde_at (with_pg s (with_ram (pg s) m)) pd i = pde_at s pd i).
Proof.
  intros Hn He Hv. destruct (pde_index n Hn) as [Hi Hj]. destruct (load_pte n Hn He) as [Hm4 _].
  destruct (table_page n Hn He) as (_ & _ & Ht & Htd). destruct pd_page as (_ & _ & Hpd). set (t := table_of _) in *.
  unfold set_word. destruct (store32_ok _ _ v Hm4 Hv) as (m & -> & Hws). cbn [rbind]. exists m. split; [done|].
  set (s' := with_pg s _).
  assert (Hpde : forall i, 0 <= i < 768 -> pde_at s' pd i = pde_at s pd i).
  { intros i' Hi'. apply (word_set_other _ _ _ _ _ Hws). destruct (decide (pd + 4 * i' + 4 <= t + 4 * (n mod 1024))); [by left|].
    destruct (decide (t + 4 * (n mod 1024) + 4 <= pd + 4 * i')); [by right|]. exfalso. apply Htd. Z.div_mod_to_equations. lia. }
  assert (Hk : forall a, kernel_page s a -> kernel_page s' a) by (intros a; by apply kernel_page_keep).
  destruct Hok as [P1 P2 P3 P4 P5 P6]. split_and!.
  - split; [|by apply (ws_bytes _ _ _ _ Hws)|done|by apply Hk| |].
    + destruct P1 as [K U A]. split; simpl; [| |done]; (eapply pool_wf_ram; [eassumption|]; intros q Hq; by apply (ws_dom _ _ _ _ Hws)).
    + intros i' Hi' Hne. rewrite Hpde in Hne |- * by done. destruct (P5 i' Hi' Hne) as (? & ? & ? & ?). split_and!; [done|done|by apply Hk|done].
    + intros i' j' Hi' Hj'. rewrite !Hpde by done. by apply P6.
  - intros n' Hn'. destruct (pde_index n' Hn') as [Hi' Hj']. unfold entry. rewrite Hpde by done.
    destruct (decide (pde_at s pd (n' / 1024) = 0)) as [E|E].
    { rewrite decide_False; [done|]. intros ->. done. }
    destruct (decide (n' = n)) as [->|Hne]; [by apply (ws_word _ _ _ _ Hws)|].
    apply (word_set_other _ _ _ _ _ Hws). destruct (P5 _ Hi' E) as (_ & _ & Hk' & _).
    destruct (kernel_page_mapped s _ P1 Hk') as (_ & _ & Ht' & _).
    destruct (decide (n' / 1024 = n / 1024)) as [Eq|Nq].
    + assert (n' mod 1024 <> n mod 1024) by (Z.div_mod_to_equations; lia). rewrite Eq. fold t. lia.
    + assert (Hd : table_of (pde_at s pd (n' / 1024)) <> t) by (intros Et; apply Nq; by apply P6).
      generalize dependent (table_of (pde_at s pd (n' / 1024))). intros t' Hk' Ht' Hd. clear -Ht Ht' Hd Hj Hj'.
      Z.div_mod_to_equations. lia.
  - exact Hpde.
Qed.

Lemma pde_create_ok n : 786432 <= n < 1048576 ->
  pde_create (4096 * n) = Ret (4096 * (n - 786432) + 7) /\ is_u32 (4096 * (n - 786432) + 7) /\
  table_of (4096 * (n - 786432) + 7) = 4096 * n /\ Z.land (4096 * (n - 786432) + 7) PTE_P <> 0 /\
  Z.land (4096 * (n - 786432) + 7) PTE_ADDR < PHYS_BASE.
Proof.
  intros Hn. assert (Hu : is_u32 (4096 * (n - 786432) + 7)) by (unfold is_u32; lia).
  assert (Hm : (4096 * (n - 786432) + 7) mod 4096 = 7) by (symmetry; apply (Z.mod_unique _ _ (n - 786432)); lia).
  unfold table_of. rewrite land_addr, Hm by done. rewrite land_small, Hm by done. split_and!.
  - unfold pde_create, vtop, is_kernel_vaddr. rewrite pg_ofs_mod, Z.mul_comm, Z.mod_mul by lia.
    rewrite (bool_decide_eq_true_2 (0 = 0)) by done. cbn [assert_ rbind].
    rewrite bool_decide_eq_true_2 by (unfold PHYS_BASE, LOADER_PHYS_BASE; lia). cbn [assert_ rbind].
    unfold PHYS_BASE, LOADER_PHYS_BASE. rewrite u32_small by lia. f_equal.
    replace (n * 4096 - 3221225472) with (4096 * (n - 786432)) by lia. rewrite <- !Z.lor_assoc. by apply lor_flags; [lia|].
  - done.
  - unfold PHYS_BASE, LOADER_PHYS_BASE. lia.
  - done.
  - unfold PHYS_BASE, LOADER_PHYS_BASE. lia.
Qed.

(** The state after a fresh table was put into an empty slot of the directory. *)
Lemma install_table p' t i m : same_layout (pg s) p' -> pages_wf p' -> 0 <= i < 768 -> pde_at s pd i = 0 ->
  786432 <= t < 1048576 -> pool_page (kernel_pool p') t = true -> page_used (pg s) t = false ->
  (forall k, page_used p' k = if in_range t 1 k then true else page_used (pg s) k) ->
  filled (ram (pg s)) (ram p') (4096 * t) 4096 0 ->
  word_set (ram p') m (pd + 4 * i) (4096 * (t - 786432) + 7) ->
  let s' := with_pg s (with_ram p' m) in
  pd_ok s' pd /\ (forall j, 0 <= j < 768 -> pde_at s' pd j = if decide (j = i) then 4096 * (t - 786432) + 7 else pde_at s pd j) /\
  forall n, user_page n -> entry s' pd n = entry s pd n.
Proof.
  intros Hl Hp' Hi E0 Ht Hpp Hfree Hu Hfill Hws s'. destruct (pde_create_ok t Ht) as (_ & Hv & Htab & HP & HA).
  set (v := 4096 * (t - 786432) + 7) in *. destruct pd_page as (_ & _ & Hpd). pose proof Hok as [P1 P2 P3 P4 P5 P6].
  assert (Hnew : forall a, kernel_page s a -> a <> 4096 * t) by (intros a (k & -> & _ & Hk) Ek; assert (k = t) by lia; congruence).
  assert (Hout : forall q, ~ (4096 * t <= q < 4096 * t + 4096) -> ~ (pd + 4 * i <= q < pd + 4 * i + 4) -> m !! q = ram (pg s) !! q).
  { intros q H1 H2. rewrite (ws_out _ _ _ _ Hws q H2), Hfill. by rewrite decide_False. }
  assert (Hpdt : pd <> 4096 * t) by (by apply Hnew).
  assert (Htm : (4096 * t) mod 4096 = 0) by (by rewrite Z.mul_comm, Z.mod_mul).
  assert (Hpde : forall j, 0 <= j < 768 -> pde_at s' pd j = if decide (j = i) then v else pde_at s pd j).
  { intros j Hj. unfold pde_at; simpl. destruct (decide (j = i)) as [->|Hne]; [exact (ws_word _ _ _ _ Hws)|].
    apply word_ext. intros q Hq. apply Hout; [|lia]. intros Hin. apply Hpdt. apply (pages_disjoint pd (4096 * t) q); (done || lia). }
  assert (Hk : forall a, kernel_page s a -> kernel_page s' a).
  { intros a. apply kernel_page_keep; [exact Hl|]. intros k Hk. simpl. change (page_used p' k = true). rewrite Hu. by destruct (in_range t 1 k). }
  assert (Hkt : kernel_page s' (4096 * t)).
  { exists t. split_and!; [done|exact Hpp|]. change (page_used p' t = true). rewrite Hu. by rewrite (proj2 (in_range_spec t 1 t)) by lia. }
  split_and!.
  - split.
    + destruct Hp' as [K U A]. split; simpl; [| |done]; (eapply pool_wf_ram; [eassumption|]; intros q Hq; by apply (ws_dom _ _ _ _ Hws)).
    + apply (ws_bytes _ _ _ _ Hws). intros q b Hq. rewrite Hfill in Hq. case_decide; [injection Hq as <-; unfold is_u8; lia|by eapply P2].
    + simpl. destruct (Hl false) as [Hb _]. simpl in Hb. by rewrite Hb.
    + by apply Hk.
    + intros j Hj. rewrite Hpde by done. destruct (decide (j = i)) as [->|]; intros Hne.
      * rewrite Htab. done.
      * destruct (P5 j Hj Hne) as (? & ? & ? & ?). split_and!; [done|done|by apply Hk|done].
    + intros j j' Hj Hj'. rewrite !Hpde by done. destruct (decide (j = i)) as [->|], (decide (j' = i)) as [->|]; intros H1 H2 H3; [done|..].
      * exfalso. rewrite Htab in H3. apply (Hnew (table_of (pde_at s pd j'))); [by apply P5|done].
      * exfalso. rewrite Htab in H3. apply (Hnew (table_of (pde_at s pd j))); [by apply P5|done].
      * by apply P6.
  - exact Hpde.
  - intros n Hn. destruct (pde_index n Hn) as [Hi' Hj']. unfold entry. rewrite Hpde by done.
    destruct (decide (n / 1024 = i)) as [->|Hne].
    + rewrite (decide_True _ _ E0), decide_False by (unfold v; lia). rewrite Htab. simpl.
      assert (Hz : forall q, 4096 * t <= q < 4096 * t + 4096 -> byte_at m q = 0).
      { intros q Hq. unfold byte_at. rewrite (ws_out _ _ _ _ Hws), Hfill, decide_True by
          (try lia; intros Hin; apply Hpdt; apply (pages_disjoint pd (4096 * t) q); (done || lia)). done. }
      unfold word. rewrite !Hz by lia. done.
    + destruct (decide (pde_at s pd (n / 1024) = 0)) as [|E]; [done|]. destruct (P5 _ Hi' E) as (_ & _ & Hkn & Hdn).
      destruct (kernel_page_mapped s _ P1 Hkn) as (_ & _ & Hal & _). pose proof (Hnew _ Hkn) as Hnt.
      apply word_ext. intros q Hq. simpl. apply Hout; intros Hin.
      * apply Hnt. apply (pages_disjoint _ (4096 * t) q); (done || lia).
      * apply Hdn. apply (pages_disjoint _ pd q); (done || lia).
Qed.

(** Looking up with creation. *)
Lemma lookup_create vaddr : is_user_vaddr vaddr = true -> 0 <= vaddr ->
  let n := vaddr / 4096 in
  (lookup_page s pd vaddr true = Ret (s, NULL) /\ pde_at s pd (n / 1024) = 0 /\ (forall k, ~ free_group (kernel_pool (pg s)) k 1)) \/
  exists p', let s' := with_pg s p' in
    lookup_page s pd vaddr true = Ret (s', table_of (pde_at s' pd (n / 1024)) + 4 * (n mod 1024)) /\
    pd_ok s' pd /\ (forall n', user_page n' -> entry s' pd n' = entry s pd n') /\
    (forall i, 0 <= i < 768 -> pde_at s' pd i <> 0 <-> i = n / 1024 \/ pde_at s pd i <> 0) /\
    free_pages (pg s) = (if decide (pde_at s pd (n / 1024) = 0) then S (free_pages p') else free_pages p').
Proof.
  intros Hu H0 n. assert (Hn : user_page n) by (by apply user_vaddr_page). destruct (pde_index n Hn) as [Hi Hj].
  destruct pd_page as (Hpos & Hpm & Hpa).
  assert (Ei : pd_no vaddr = n / 1024) by (unfold n; rewrite pd_no_div, Z.div_div by lia; reflexivity).
  assert (Ej : pt_no vaddr = n mod 1024) by apply pt_no_mod. clearbody n.
  unfold lookup_page. rewrite bool_decide_eq_true_2 by (unfold NULL; lia). rewrite Hu, Ei, Ej. cbn [assert_ rbind negb orb].
  rewrite load_pde by lia. cbn [rbind]. destruct (decide (pde_at s pd (n / 1024) = 0)) as [E|E].
  - rewrite bool_decide_eq_true_2 by exact E. unfold palloc_get_page.
    destruct (pal_get_ok (pg s) PAL_ZERO 1 (po_pages _ _ Hok)) as [[Hno Eq]|(t & p' & Eq & Htp & (Hg1 & Hg2 & Hg3) & _ & Hp' & Hl & Hus & Hf)]; [lia| |].
    + left. change (flag PAL_ZERO PAL_USER) with false in Hno. change (flag PAL_ZERO PAL_ASSERT) with false in Eq.
      rewrite Eq. cbn [rbind]. rewrite bool_decide_eq_true_2 by done. cbn [rbind]. split_and!; [by destruct s|done|exact Hno].
    + right. change (flag PAL_ZERO PAL_USER) with false in *. change (flag PAL_ZERO PAL_ZERO) with true in Hf. simpl in Hg1, Hg2, Hg3.
      rewrite Eq. cbn [rbind]. rewrite bool_decide_eq_false_2 by (unfold NULL; lia).
      assert (Htr : 786432 <= t < 1048576).
      { pose proof (po_high _ _ Hok) as Hh. destruct (po_pages _ _ Hok) as [[_ Hal _ Htop _] _ _]. unfold PHYS_BASE, LOADER_PHYS_BASE in Hh. lia. }
      destruct (pde_create_ok t Htr) as (Ec & Hv & Htab & HP & HA). rewrite Ec. cbn [rbind]. unfold set_word.
      assert (Hm4 : mapped (ram p') (pd + 4 * (n / 1024)) 4).
      { intros q Hq. destruct (Hpm q) as [b Hb]; [lia|]. rewrite Hf. case_decide; eauto. }
      destruct (store32_ok (ram p') (pd + 4 * (n / 1024)) _ Hm4 Hv) as (m & Es & Hws). simpl ram. rewrite Es. cbn [rbind].
      assert (Hpp : pool_page (kernel_pool p') t = true).
      { pose proof (same_layout_first _ _ false Hl) as Hfp. destruct (Hl false) as [_ Hc]. simpl in *. unfold pool_page. rewrite Hfp, Hc. apply in_range_spec. lia. }
      assert (Hfr : page_used (pg s) t = false).
      { apply (free_group_unused (pg s) false t 1 t (po_pages _ _ Hok)); [|lia]. by split_and!. }
      destruct (install_table p' t (n / 1024) m Hl Hp' Hi E Htr Hpp Hfr Hus Hf Hws) as (Hok' & Hpde & Hent).
      assert (Epde := Hpde _ Hi). rewrite decide_True in Epde by done.
      exists (with_ram p' m). cbn zeta. set (s' := with_pg s (with_ram p' m)) in *.
      change (with_pg (with_pg s p') (with_ram (pg (with_pg s p')) m)) with s'.
      assert (Hload : load32 (ram (pg s')) (pd + 4 * (n / 1024)) = Ret (pde_at s' pd (n / 1024))).
      { apply load32_ok. intros q Hq. apply (ws_dom _ _ _ _ Hws). by apply Hm4. }
      rewrite Hload. cbn [rbind]. rewrite Epde.
      destruct (po_pages _ _ Hok) as [[_ Hal _ Htop _] _ _].
      rewrite get_pt; [|exact HP|split; [apply Z.land_nonneg; by right|exact HA]|rewrite Htab; lia]. cbn [rbind].
      split_and!; [done|done|done| |].
      * intros i Hii. rewrite Hpde by done. destruct (decide (i = n / 1024)); [split; [by left|lia]|naive_solver].
      * apply (free_pages_get (pg s) p' t); [done|by split_and!|done|done].
  - rewrite bool_decide_eq_false_2 by exact E. cbn [rbind]. rewrite load_pde by lia. cbn [rbind].
    destruct (table_bounds _ Hi E) as [-> _]. cbn [rbind]. right. exists (pg s).
    assert (Es : with_pg s (pg s) = s) by (by destruct s). cbn zeta. rewrite Es.
    split_and!; [done|done|done| |done]. intros i Hii. split; [by right|by intros [->|?]].
Qed.
End Dir.

(** ** Entries as records *)

Record view := mkView { v_frame : Z; v_present : bool; v_writable : bool; v_accessed : bool; v_dirty : bool }.

Definition view_of (e : Z) : view :=
  mkView (e / 4096) (Z.testbit e 0) (Z.testbit e 1) (Z.testbit e 5) (Z.testbit e 6).

Lemma land_bit e k : 0 <= k -> bool_decide (Z.land e (2 ^ k) <> 0) = Z.testbit e k.
Proof.
  intros Hk. assert (E : Z.land e (2 ^ k) = if Z.testbit e k then 2 ^ k else 0).
  { apply Z.bits_inj'. intros i Hi. rewrite Z.land_spec, Z.pow2_bits_eqb by lia. destruct (Z.eqb_spec k i) as [<-|Hne].
    - destruct (Z.testbit e k) eqn:Ek; [by rewrite Z.pow2_bits_true|by rewrite Z.bits_0].
    - rewrite andb_false_r. destruct (Z.testbit e k); [by rewrite Z.pow2_bits_false by done|by rewrite Z.bits_0]. }
  rewrite E. destruct (Z.testbit e k); [apply bool_decide_eq_true_2|apply bool_decide_eq_false_2]; lia.
Qed.

Lemma is_present e : bool_decide (Z.land e PTE_P <> 0) = v_present (view_of e).
Proof. by apply (land_bit e 0). Qed.

Lemma not_present e : bool_decide (Z.land e PTE_P = 0) = negb (v_present (view_of e)).
Proof.
  rewrite <- is_present. destruct (bool_decide_reflect (Z.land e PTE_P = 0)) as [H|H].
  - by rewrite bool_decide_eq_false_2 by lia.
  - by rewrite bool_decide_eq_true_2.
Qed.

(** Setting and clearing a flag. *)
Lemma testbit_set e k i : 0 <= k -> 0 <= i -> Z.testbit (Z.lor e (2 ^ k)) i = (k =? i) || Z.testbit e i.
Proof. intros. rewrite Z.lor_spec, Z.pow2_bits_eqb by lia. apply orb_comm. Qed.

Lemma testbit_clear e k i : 0 <= k -> 0 <= i < 32 -> Z.testbit (Z.land e (u32 (Z.lnot (2 ^ k)))) i = negb (k =? i) && Z.testbit e i.
Proof.
  intros. unfold u32. rewrite Z.land_spec, Z.mod_pow2_bits_low, Z.lnot_spec, Z.pow2_bits_eqb by lia. apply andb_comm.
Qed.

Lemma frame_set e k : 0 <= k < 12 -> Z.lor e (2 ^ k) / 4096 = e / 4096.
Proof.
  intros Hk. change 4096 with (2 ^ 12). rewrite <- !Z.shiftr_div_pow2 by lia. rewrite Z.shiftr_lor.
  assert (0 < 2 ^ k < 2 ^ 12) by (split; [lia|apply Z.pow_lt_mono_r; lia]).
  rewrite (Z.shiftr_div_pow2 (2 ^ k)), Z.div_small by lia. apply Z.lor_0_r.
Qed.

Lemma frame_clear e k : is_u32 e -> 0 <= k < 12 -> Z.land e (u32 (Z.lnot (2 ^ k))) / 4096 = e / 4096.
Proof.
  intros He Hk. apply Z.bits_inj'. intros i Hi. change 4096 with (2 ^ 12). rewrite !Z.div_pow2_bits by lia.
  destruct (Z_lt_ge_dec (i + 12) 32).
  - rewrite testbit_clear by lia. by rewrite (proj2 (Z.eqb_neq k (i + 12))) by lia.
  - apply is_u32_bits in He as [_ He]. by rewrite Z.land_spec, He by lia.
Qed.

Definition set_present (v : view) : view := mkView (v_frame v) false (v_writable v) (v_accessed v) (v_dirty v).
Definition set_acc (b : bool) (v : view) : view := mkView (v_frame v) (v_present v) (v_writable v) b (v_dirty v).
Definition set_dir (b : bool) (v : view) : view := mkView (v_frame v) (v_present v) (v_writable v) (v_accessed v) b.

Lemma view_clear_present e : is_u32 e -> view_of (Z.land e (u32 (Z.lnot PTE_P))) = set_present (view_of e).
Proof.
  intros He. unfold view_of, set_present. cbn [v_frame v_present v_writable v_accessed v_dirty]. change PTE_P with (2 ^ 0). by rewrite frame_clear, !testbit_clear by (done || lia).
Qed.

Lemma view_dirty e (b : bool) : is_u32 e ->
  view_of (if b then Z.lor e PTE_D else Z.land e (u32 (Z.lnot PTE_D))) = set_dir b (view_of e).
Proof.
  intros He. unfold view_of, set_dir. cbn [v_frame v_present v_writable v_accessed v_dirty]. change PTE_D with (2 ^ 6).
  destruct b; [by rewrite frame_set, !testbit_set by lia|by rewrite frame_clear, !testbit_clear by (done || lia)].
Qed.

Lemma view_accessed e (b : bool) : is_u32 e ->
  view_of (if b then Z.lor e PTE_A else Z.land e (u32 (Z.lnot PTE_A))) = set_acc b (view_of e).
Proof.
  intros He. unfold view_of, set_acc. cbn [v_frame v_present v_writable v_accessed v_dirty]. change PTE_A with (2 ^ 5).
  destruct b; [by rewrite frame_set, !testbit_set by lia|by rewrite frame_clear, !testbit_clear by (done || lia)].
Qed.

(** The kernel address of frame [f]. *)
Lemma frame_kaddr f : 0 <= f < 262144 ->
  vtop (PHYS_BASE + PGSIZE * f) = Ret (4096 * f) /\ pg_ofs (PHYS_BASE + PGSIZE * f) = 0 /\ Z.shiftr (4096 * f) PTSHIFT = f.
Proof.
  intros Hf. unfold PGSIZE. split_and!.
  - unfold vtop, is_kernel_vaddr. rewrite bool_decide_eq_true_2 by lia. cbn [assert_ rbind]. f_equal.
    replace (PHYS_BASE + 4096 * f - PHYS_BASE) with (4096 * f) by lia. apply u32_small. lia.
  - rewrite pg_ofs_mod. replace (PHYS_BASE + 4096 * f) with ((786432 + f) * 4096) by (unfold PHYS_BASE, LOADER_PHYS_BASE; lia). by apply Z.mod_mul.
  - rewrite Z.shiftr_div_pow2 by done. change (2 ^ PTSHIFT) with 4096. rewrite Z.mul_comm. by apply Z.div_mul.
Qed.

Lemma pte_create_user_ok f w : 0 <= f < 262144 ->
  exists e, pte_create_user (PHYS_BASE + PGSIZE * f) w = Ret e /\ is_u32 e /\ view_of e = mkView f true w false false.
Proof.
  intros Hf. exists (4096 * f + (5 + if w then 2 else 0)).
  destruct (frame_kaddr f Hf) as (Hv & Ho & _).
  split_and!.
  - unfold pte_create_user, pte_create_kernel. rewrite Ho, Hv. cbn [assert_ rbind]. rewrite bool_decide_eq_true_2 by done. cbn [assert_ rbind].
    rewrite <- !Z.lor_assoc. rewrite <- lor_flags by (destruct w; lia). by destruct w.
  - unfold is_u32. destruct w; lia.
  - assert (Hb : forall i, 0 <= i < 12 -> Z.testbit (4096 * f + (5 + if w then 2 else 0)) i = Z.testbit (5 + if w then 2 else 0) i).
    { intros i Hi. rewrite <- (Z.mod_pow2_bits_low _ 12) by lia. f_equal. symmetry. apply (Z.mod_unique _ _ f); [destruct w; lia|lia]. }
    unfold view_of. rewrite !Hb by lia. f_equal; [|by destruct w..]. symmetry. apply (Z.div_unique _ _ _ (5 + if w then 2 else 0)); [destruct w; lia|lia].
Qed.

(** ** Series of calls on one directory *)

(** Pages and frames are named by their numbers; [DActivate] makes the directory the
    active one or, for a null pointer, goes back to [base_page_dir]. *)
Inductive pd_op :=
| DInstall (n f : Z) (w : bool) | DClear (n : Z) | DDirty (n : Z) (b : bool) | DAccessed (n : Z) (b : bool)
| DGet (ua : Z) | DIsDirty (n : Z) | DIsAccessed (n : Z) | DActivate (own : bool).

Definition pd_call (pd : Z) (o : pd_op) (s : mmu) : res (mmu * Z) :=
  match o with
  | DInstall n f w => let! '(s, r) := install_page s pd (PGSIZE * n) (PHYS_BASE + PGSIZE * f) w in Ret (s, Z.b2z r)
  | DClear n => let! s := pagedir_clear_page s pd (PGSIZE * n) in Ret (s, 0)
  | DDirty n b => let! s := pagedir_set_dirty s pd (PGSIZE * n) b in Ret (s, 0)
  | DAccessed n b => let! s := pagedir_set_accessed s pd (PGSIZE * n) b in Ret (s, 0)
  | DGet ua => pagedir_get_page s pd ua
  | DIsDirty n => let! b := pagedir_is_dirty s pd (PGSIZE * n) in Ret (s, Z.b2z b)
  | DIsAccessed n => let! b := pagedir_is_accessed s pd (PGSIZE * n) in Ret (s, Z.b2z b)
  | DActivate own => let! s := pagedir_activate s (if own then pd else NULL) in Ret (s, 0)
  end.

Definition op_in_range (frames : Z) (o : pd_op) : Prop :=
  match o with
  | DInstall n f _ => user_page n /\ 0 <= f < frames
  | DClear n | DDirty n _ | DAccessed n _ | DIsDirty n | DIsAccessed n => user_page n
  | DGet ua => 0 <= ua < PHYS_BASE
  | DActivate _ => True
  end.

(** The abstract directory: the entries of the user pages, the blocks of 1024 pages that
    have room for entries, the pages left for more of it, and whether it is active. *)
Record adir := mkDir { a_view : Z -> view; a_table : Z -> bool; a_left : nat; a_active : bool }.

Definition put (a : adir) (n : Z) (v : view) : adir :=
  mkDir (fun k => if decide (k = n) then v else a_view a k) (a_table a) (a_left a) (a_active a).

Definition grow (a : adir) (i : Z) (more : nat) : adir :=
  mkDir (a_view a) (fun k => if decide (k = i) then true else a_table a k) more (a_active a).

(** A change that the processor must not keep a stale copy of reloads [cr3] when the
    directory is active. *)
Definition flush (a : adir) : list bool := if a_active a then [true] else [].

(** The next directory, the result, and the directories loaded into [cr3] ([true] for
    this one, [false] for [base_page_dir]). *)
Definition abs_call (o : pd_op) (a : adir) : adir * Z * list bool :=
  match o with
  | DInstall n f w =>
      let v := mkView f true w false false in
      if v_present (a_view a n) then (a, 0, [])
      else if a_table a (n / 1024) then (put a n v, 1, [])
      else match a_left a with
           | O => (a, 0, [])
           | S more => (put (grow a (n / 1024) more) n v, 1, [])
           end
  | DClear n => if v_present (a_view a n) then (put a n (set_present (a_view a n)), 0, flush a) else (a, 0, [])
  | DDirty n b => if a_table a (n / 1024) then (put a n (set_dir b (a_view a n)), 0, if b then [] else flush a) else (a, 0, [])
  | DAccessed n b => if a_table a (n / 1024) then (put a n (set_acc b (a_view a n)), 0, if b then [] else flush a) else (a, 0, [])
  | DGet ua =>
      let v := a_view a (ua / 4096) in (a, if v_present v then PHYS_BASE + 4096 * v_frame v + ua mod 4096 else NULL, [])
  | DIsDirty n => (a, Z.b2z (v_dirty (a_view a n)), [])
  | DIsAccessed n => (a, Z.b2z (v_accessed (a_view a n)), [])
  | DActivate own => (mkDir (a_view a) (a_table a) (a_left a) own, 0, [own])
  end.

Record hw_ok (s : mmu) (pd : Z) : Prop := {
  hw_cr3 : 0 <= cr3 s < 2 ^ 30;
  hw_ram : 0 <= ram_pages s <= 2 ^ 18;
  hw_base : pd <> base_page_dir s;
  hw_pd : PHYS_BASE <= pd < 2 ^ 32;
  hw_kernel : PHYS_BASE <= base_page_dir s < 2 ^ 32
}.

(** The concrete directory represents the abstract one. *)
Record rep (s : mmu) (pd : Z) (a : adir) : Prop := {
  rp_ok : pd_ok s pd;
  rp_hw : hw_ok s pd;
  rp_view : forall n, user_page n -> view_of (entry s pd n) = a_view a n;
  rp_frames : forall n, user_page n -> v_present (a_view a n) = true -> 0 <= v_frame (a_view a n) < 2 ^ 18;
  rp_table : forall i, 0 <= i < 768 -> a_table a i = true <-> pde_at s pd i <> 0;
  rp_left : a_left a = free_pages (pg s);
  rp_active : a_active a = bool_decide (PHYS_BASE + cr3 s = pd)
}.

(** The registers are kept, except for the loads of [cr3]. *)
Definition hw_next (s s' : mmu) (pd : Z) (loads : list bool) : Prop :=
  base_page_dir s' = base_page_dir s /\ ram_pages s' = ram_pages s /\
  cr3_loads s' = cr3_loads s ++ map (fun own : bool => (if own then pd else base_page_dir s) - PHYS_BASE) loads.

Lemma hw_next_with_pg s p pd : hw_next s (with_pg s p) pd [].
Proof. unfold hw_next; simpl. by rewrite app_nil_r. Qed.

Lemma hw_next_refl s pd : hw_next s s pd [].
Proof. unfold hw_next. by rewrite app_nil_r. Qed.

Lemma hw_next_trans s s1 s2 pd l1 l2 : hw_next s s1 pd l1 -> hw_next s1 s2 pd l2 -> hw_next s s2 pd (l1 ++ l2).
Proof.
  intros (E1 & E2 & E3) (F1 & F2 & F3). unfold hw_next. by rewrite F1, F2, F3, E1, E2, E3, map_app, app_assoc.
Qed.

(** Everything else a representation says is about the memory. *)
Lemma rep_hw s s' pd a own : rep s pd a -> pg s' = pg s -> hw_ok s' pd -> own = bool_decide (PHYS_BASE + cr3 s' = pd) ->
  rep s' pd (mkDir (a_view a) (a_table a) (a_left a) own).
Proof.
  intros [[P1 P2 P3 P4 P5 P6] Hh Hv Hf Ht Hl _] Ep Hok ->. unfold entry, pde_at, kernel_page in *.
  split; [split| | | | | |]; unfold entry, pde_at, kernel_page; rewrite ?Ep; done.
Qed.

Lemma activate_ok s pd a (own : bool) : rep s pd a ->
  exists s', pagedir_activate s (if own then pd else NULL) = Ret s' /\
    rep s' pd (mkDir (a_view a) (a_table a) (a_left a) own) /\ hw_next s s' pd [own].
Proof.
  intros Hr. pose proof (rp_hw _ _ _ Hr) as [Hc Hram Hb Hpd Hk]. unfold pagedir_activate.
  assert (E : (if bool_decide ((if own then pd else NULL) = NULL) then base_page_dir s else (if own then pd else NULL)) =
              (if own then pd else base_page_dir s)).
  { destruct own; [rewrite bool_decide_eq_false_2; [done|unfold NULL, PHYS_BASE, LOADER_PHYS_BASE in *; lia]|by rewrite bool_decide_eq_true_2]. }
  rewrite E. set (d := if own then pd else base_page_dir s). assert (Hd : PHYS_BASE <= d < 2 ^ 32) by (unfold d; by destruct own).
  unfold vtop, is_kernel_vaddr. rewrite bool_decide_eq_true_2 by lia. cbn [assert_ rbind].
  rewrite u32_small by (unfold PHYS_BASE, LOADER_PHYS_BASE in *; lia). eexists; split; [done|]. split; [|done].
  assert (PHYS_BASE + 2 ^ 30 = 2 ^ 32) by done.
  apply (rep_hw s); [done|done|split; simpl; done || lia|]. simpl. replace (PHYS_BASE + (d - PHYS_BASE)) with d by lia.
  destruct own; [by rewrite bool_decide_eq_true_2|by rewrite bool_decide_eq_false_2].
Qed.

Lemma active_dir a : a_active a = true -> mkDir (a_view a) (a_table a) (a_left a) true = a.
Proof. intros <-. by destruct a. Qed.

Lemma invalidate_ok s pd a : rep s pd a -> exists s', invalidate_pagedir s pd = Ret s' /\ rep s' pd a /\ hw_next s s' pd (flush a).
Proof.
  intros Hr. pose proof (rp_hw _ _ _ Hr) as [Hc _ _ _ _]. pose proof (rp_active _ _ _ Hr) as Ha. assert (PHYS_BASE + 2 ^ 30 = 2 ^ 32) by done.
  unfold invalidate_pagedir, active_pd, ptov. rewrite bool_decide_eq_true_2 by (unfold PHYS_BASE, LOADER_PHYS_BASE; lia).
  cbn [assert_ rbind]. rewrite u32_small by lia. replace (cr3 s + PHYS_BASE) with (PHYS_BASE + cr3 s) by lia. unfold flush. rewrite Ha.
  destruct (bool_decide (PHYS_BASE + cr3 s = pd)).
  - destruct (activate_ok s pd a true Hr) as (s' & E & Hr' & Hn). exists s'. split; [exact E|]. by rewrite active_dir in Hr'.
  - exists s. split_and!; [done|done|apply hw_next_refl].
Qed.

Lemma present_table s pd a n : rep s pd a -> user_page n -> v_present (a_view a n) = true -> pde_at s pd (n / 1024) <> 0.
Proof. intros Hr Hn Hp E. rewrite <- (rp_view _ _ _ Hr) in Hp by done. unfold entry in Hp. by rewrite decide_True in Hp. Qed.

Lemma entry_u32 s pd n : pd_ok s pd -> is_u32 (entry s pd n).
Proof.
  intros Hok. unfold entry. destruct (decide _); [unfold is_u32; lia|]. apply word_range. by apply (po_bytes _ _ Hok).
Qed.

Lemma page_vaddr n : user_page n -> is_user_vaddr (PGSIZE * n) = true /\ 0 <= PGSIZE * n /\ PGSIZE * n / 4096 = n /\ pg_ofs (PGSIZE * n) = 0.
Proof.
  intros [H0 H1]. unfold PGSIZE. rewrite pg_ofs_mod, (Z.mul_comm 4096), Z.mod_mul, Z.div_mul by lia.
  split_and!; [|lia|done|done]. apply bool_decide_eq_true_2. change (n * 4096 < 3221225472). lia.
Qed.

Lemma get_page_ok s pd a ua : rep s pd a -> 0 <= ua < PHYS_BASE ->
  let n := ua / 4096 in
  user_page n /\ pagedir_get_page s pd ua = Ret (s, if v_present (a_view a n) then PHYS_BASE + 4096 * v_frame (a_view a n) + ua mod 4096 else NULL).
Proof.
  intros Hr Hua n. pose proof Hr as [Hok Hh Hv Hf _ _ _].
  assert (Hu : is_user_vaddr ua = true) by (apply bool_decide_eq_true_2; lia).
  destruct (lookup_found s pd Hok ua Hu) as [Hn El]; [lia|]. fold n in Hn, El. split; [done|].
  unfold pagedir_get_page. rewrite Hu. cbn [assert_ rbind]. rewrite El. cbn [rbind].
  destruct (decide (pde_at s pd (n / 1024) = 0)) as [E|E].
  - rewrite bool_decide_eq_false_2 by naive_solver. rewrite <- Hv by done. unfold entry. by rewrite decide_True.
  - destruct (table_page s pd Hok n Hn E) as (Hpos & _). destruct (pde_index n Hn) as [_ Hj].
    rewrite bool_decide_eq_true_2 by (unfold NULL; lia). destruct (load_pte s pd Hok n Hn E) as [_ ->]. cbn [rbind].
    rewrite is_present, (Hv n Hn). destruct (v_present (a_view a n)) eqn:Ep; [|done]. specialize (Hf n Hn Ep).
    pose proof (entry_u32 s pd n Hok) as He. rewrite <- Hv in Hf by done. simpl in Hf. unfold pte_get_page, ptov. rewrite land_addr by done.
    assert (Ed : entry s pd n - entry s pd n mod 4096 = 4096 * (entry s pd n / 4096)) by (Z.div_mod_to_equations; lia). rewrite Ed.
    rewrite bool_decide_eq_true_2 by (unfold PHYS_BASE, LOADER_PHYS_BASE; lia). cbn [assert_ rbind].
    rewrite u32_small by (unfold PHYS_BASE, LOADER_PHYS_BASE; lia). rewrite pg_ofs_mod, <- Hv by done. simpl. do 2 f_equal. lia.
Qed.

Lemma write_rep s pd a n v : rep s pd a -> user_page n -> pde_at s pd (n / 1024) <> 0 -> is_u32 v ->
  (v_present (view_of v) = true -> 0 <= v_frame (view_of v) < 2 ^ 18) ->
  exists s', set_word s (table_of (pde_at s pd (n / 1024)) + 4 * (n mod 1024)) v = Ret s' /\
    rep s' pd (put a n (view_of v)) /\ hw_next s s' pd [].
Proof.
  intros [Hok Hh Hv Hf Ht Hl Ha] Hn He Hv32 Hfr. destruct (write_entry s pd Hok n v Hn He Hv32) as (m & -> & Hok' & Hent & Hpde).
  eexists; split; [done|]. split; [|apply hw_next_with_pg]. split; [done|by destruct Hh| | | |done|done].
  - intros k Hk. rewrite Hent by done. simpl. destruct (decide (k = n)); [done|by apply Hv].
  - intros k Hk. simpl. destruct (decide (k = n)) as [->|]; [exact Hfr|by apply Hf].
  - intros i Hi. rewrite Hpde by done. by apply Ht.
Qed.

(** A change of the flags of an entry, with an optional flush. *)
Lemma flag_write s pd a n v' w (fl : bool) : rep s pd a -> user_page n -> pde_at s pd (n / 1024) <> 0 ->
  is_u32 w -> view_of w = v' -> v_frame v' = v_frame (a_view a n) -> (v_present v' = true -> v_present (a_view a n) = true) ->
  exists s', (let! s1 := set_word s (table_of (pde_at s pd (n / 1024)) + 4 * (n mod 1024)) w in
              if fl then invalidate_pagedir s1 pd else Ret s1) = Ret s' /\
    rep s' pd (put a n v') /\ hw_next s s' pd (if fl then flush a else []).
Proof.
  intros Hr Hn He Hw Hview Hfr Hp. subst v'.
  destruct (write_rep s pd a n w Hr Hn He Hw) as (s1 & -> & Hr1 & Hn1).
  { intros Hp'. rewrite Hfr. apply Hr; [done|by apply Hp]. }
  cbn [rbind]. destruct fl; [|by exists s1].
  destruct (invalidate_ok s1 pd _ Hr1) as (s2 & -> & Hr2 & Hn2). exists s2. split; [done|]. split; [done|].
  exact (hw_next_trans _ _ _ _ _ _ Hn1 Hn2).
Qed.

(** The entry of a page is where the lookup says, if it has one. *)
Lemma entry_lookup s pd a n : rep s pd a -> user_page n ->
  exists pte, lookup_page s pd (PGSIZE * n) false = Ret (s, pte) /\
    (a_table a (n / 1024) = false /\ pte = NULL /\ a_view a n = view_of 0 \/
     a_table a (n / 1024) = true /\ pde_at s pd (n / 1024) <> 0 /\ pte = table_of (pde_at s pd (n / 1024)) + 4 * (n mod 1024) /\
     bool_decide (pte <> NULL) = true /\ load32 (ram (pg s)) pte = Ret (entry s pd n)).
Proof.
  intros Hr Hn. pose proof Hr as [Hok Hh Hv Hf Ht _ _]. destruct (page_vaddr n Hn) as (Hu & H0 & Ed & _).
  destruct (lookup_found s pd Hok _ Hu H0) as [_ El]. rewrite Ed in El. rewrite El. eexists; split; [done|].
  destruct (pde_index n Hn) as [Hi Hj]. specialize (Ht _ Hi).
  destruct (decide (pde_at s pd (n / 1024) = 0)) as [E|E]; [left|right].
  - assert (En : entry s pd n = 0) by (unfold entry; by rewrite decide_True). rewrite <- Hv, En by done.
    split_and!; [|done|done]. destruct (a_table a (n / 1024)); [naive_solver|done].
  - destruct (table_page s pd Hok n Hn E) as (Hpos & _). split_and!; [naive_solver|done|done| |].
    + apply bool_decide_eq_true_2. unfold NULL. lia.
    + by apply load_pte.
Qed.

Lemma set_page_ok s pd a n f w : rep s pd a -> user_page n -> v_present (a_view a n) = false -> 0 <= f < ram_pages s ->
  let v := mkView f true w false false in
  let out := pagedir_set_page s pd (PGSIZE * n) (PHYS_BASE + PGSIZE * f) w in
  (out = Ret (s, false) /\ a_table a (n / 1024) = false /\ a_left a = 0%nat) \/
  exists s', out = Ret (s', true) /\ hw_next s s' pd [] /\
    (a_table a (n / 1024) = true /\ rep s' pd (put a n v) \/
     exists more, a_table a (n / 1024) = false /\ a_left a = S more /\ rep s' pd (put (grow a (n / 1024) more) n v)).
Proof.
  intros Hr Hn Hp Hf v out. pose proof Hr as [Hok Hh Hv Hfr Ht Hl Ha]. destruct Hh as [Hc Hram Hb Hpd Hk].
  destruct (page_vaddr n Hn) as (Hu & H0 & Ed & Ho). destruct (frame_kaddr f) as (Hvt & Hof & Hsh); [lia|].
  unfold out, pagedir_set_page. rewrite Ho, Hof, Hu, Hvt. rewrite !(bool_decide_eq_true_2 (0 = 0)) by done. cbn [assert_ rbind].
  rewrite Hsh, (bool_decide_eq_true_2 (f < _)), (bool_decide_eq_true_2 (pd <> _)) by (done || lia). cbn [assert_ rbind].
  destruct (pde_index n Hn) as [Hi Hj]. pose proof (Ht _ Hi) as Hti.
  destruct (lookup_create s pd Hok _ Hu H0) as [(-> & E0 & Hno)|(p' & El & Hok' & Hent & Hpde & Hfree)]; rewrite Ed in *.
  { left. cbn [rbind]. rewrite bool_decide_eq_false_2 by naive_solver. split_and!; [done| |by rewrite Hl, free_pages_none].
    destruct (a_table a (n / 1024)); [naive_solver|done]. }
  right. rewrite El. cbn [rbind]. set (s' := with_pg s p') in *.
  assert (He' : pde_at s' pd (n / 1024) <> 0) by (apply Hpde; [done|by left]).
  set (b := if a_table a (n / 1024) then a else grow a (n / 1024) (free_pages p')).
  assert (Hbv : forall k, a_view b k = a_view a k) by (intros k; unfold b; by destruct (a_table a _)).
  assert (Hr' : rep s' pd b).
  { split; [done|by split| | | | |].
    - intros k Hk'. rewrite Hent, Hbv by done. by apply Hv.
    - intros k Hk'. rewrite Hbv. by apply Hfr.
    - intros i Hii. rewrite Hpde, <- Ht by done. unfold b. destruct (a_table a (n / 1024)) eqn:Et; cbn [a_table grow].
      + split; [by right|by intros [->|?]].
      + destruct (decide (i = n / 1024)) as [Ei|Ei]; split; [by left|done|by right|by intros [?|?]].
    - unfold b. destruct (a_table a (n / 1024)) eqn:Et; [|reflexivity]. pose proof (proj1 Hti eq_refl) as Hnz.
      rewrite Hl, Hfree. by rewrite (decide_False _ _ Hnz).
    - unfold b. destruct (a_table a (n / 1024)); exact Ha. }
  destruct (table_page s' pd Hok' n Hn He') as (Hpos & _).
  rewrite bool_decide_eq_true_2 by (unfold NULL; lia). destruct (load_pte s' pd Hok' n Hn He') as [_ ->]. cbn [rbind].
  rewrite not_present, (rp_view _ _ _ Hr' n Hn), Hbv, Hp. cbn [negb assert_ rbind].
  destruct (pte_create_user_ok f w) as (e & -> & He32 & Hview); [lia|]. cbn [rbind].
  destruct (write_rep s' pd b n e Hr' Hn He' He32) as (s2 & -> & Hr2 & Hn2); [rewrite Hview; simpl; lia|]. cbn [rbind].
  exists s2. split; [done|]. split; [exact Hn2|]. fold v in Hview. rewrite Hview in Hr2. unfold b in Hr2.
  destruct (a_table a (n / 1024)) eqn:Et; [by left|right]. exists (free_pages p'). split_and!; [done| |done].
  rewrite Hl, Hfree. destruct (decide (pde_at s pd (n / 1024) = 0)) as [|Hnz]; [reflexivity|]. apply Hti in Hnz. discriminate Hnz.
Qed.

Lemma pd_call_ok pd o s a : rep s pd a -> op_in_range (ram_pages s) o ->
  let '(a', r, l) := abs_call o a in exists s', pd_call pd o s = Ret (s', r) /\ rep s' pd a' /\ hw_next s s' pd l.
Proof.
  intros Hr Ho. pose proof (rp_view _ _ _ Hr) as Hv. pose proof (rp_ok _ _ _ Hr) as Hok.
  assert (Same : forall r : Z, exists s', Ret (s, r) = Ret (s', r) /\ rep s' pd a /\ hw_next s s' pd []).
  { intros r. exists s. split_and!; [done|done|apply hw_next_refl]. }
  assert (He : forall n, is_u32 (entry s pd n)) by (intros n; by apply entry_u32).
  destruct o as [n f w|n|n b|n b|ua|n|n|own]; simpl in *.
  - destruct Ho as [Hn Hf]. destruct (page_vaddr n Hn) as (Hu & H0 & Ed & _). unfold install_page.
    destruct (get_page_ok s pd a (PGSIZE * n) Hr) as [_ Eg]; [unfold user_page, PGSIZE, PHYS_BASE, LOADER_PHYS_BASE in *; lia|].
    rewrite Eg, Ed. cbn [rbind]. destruct (v_present (a_view a n)) eqn:Ep.
    + pose proof (rp_frames _ _ _ Hr n Hn Ep). pose proof (Z.mod_pos_bound (PGSIZE * n) 4096).
      rewrite bool_decide_eq_false_2 by (unfold NULL, PHYS_BASE, LOADER_PHYS_BASE; lia). apply Same.
    + rewrite bool_decide_eq_true_2 by done.
      destruct (set_page_ok s pd a n f w Hr Hn Ep Hf) as [(-> & -> & ->)|(s' & -> & Hn' & [(-> & Hr')|(more & -> & -> & Hr')])];
        cbn [rbind Z.b2z]; [apply Same|by exists s'..].
  - destruct (entry_lookup s pd a n Hr Ho) as (pte & El & Hc). destruct (page_vaddr n Ho) as (Hu & H0 & Ed & Hof).
    unfold pagedir_clear_page. rewrite Hof, Hu. rewrite (bool_decide_eq_true_2 (0 = 0)) by done. cbn [assert_ rbind]. rewrite El. cbn [rbind].
    destruct Hc as [(_ & -> & ->)|(_ & He' & -> & -> & ->)]; cbn [rbind].
    + rewrite bool_decide_eq_false_2 by naive_solver. apply Same.
    + rewrite is_present, Hv by done. destruct (v_present (a_view a n)) eqn:Ep; [|apply Same].
      destruct (flag_write s pd a n (set_present (a_view a n)) (Z.land (entry s pd n) (u32 (Z.lnot PTE_P))) true Hr Ho He') as (s' & -> & H1 & H2);
        [apply land_u32; [done|apply u32_range]|rewrite view_clear_present by done; by rewrite Hv|done|done|]. by exists s'.
  - destruct (entry_lookup s pd a n Hr Ho) as (pte & El & Hc). unfold pagedir_set_dirty. rewrite El. cbn [rbind].
    destruct Hc as [(-> & -> & _)|(-> & He' & -> & -> & ->)]; cbn [rbind]; [rewrite bool_decide_eq_false_2 by naive_solver; apply Same|].
    destruct (flag_write s pd a n (set_dir b (a_view a n)) (if b then Z.lor (entry s pd n) PTE_D else Z.land (entry s pd n) (u32 (Z.lnot PTE_D))) (negb b) Hr Ho He')
      as (s' & E' & H1 & H2); [destruct b; [by apply lor_u32|apply land_u32; [done|apply u32_range]]|rewrite view_dirty by done; by rewrite Hv|done|done|].
    exists s'. split; [|by destruct b]. destruct b; simpl in E'; [destruct (set_word _ _ _); simpl in E' |- *; by inversion E'|by rewrite E'].
  - destruct (entry_lookup s pd a n Hr Ho) as (pte & El & Hc). unfold pagedir_set_accessed. rewrite El. cbn [rbind].
    destruct Hc as [(-> & -> & _)|(-> & He' & -> & -> & ->)]; cbn [rbind]; [rewrite bool_decide_eq_false_2 by naive_solver; apply Same|].
    destruct (flag_write s pd a n (set_acc b (a_view a n)) (if b then Z.lor (entry s pd n) PTE_A else Z.land (entry s pd n) (u32 (Z.lnot PTE_A))) (negb b) Hr Ho He')
      as (s' & E' & H1 & H2); [destruct b; [by apply lor_u32|apply land_u32; [done|apply u32_range]]|rewrite view_accessed by done; by rewrite Hv|done|done|].
    exists s'. split; [|by destruct b]. destruct b; simpl in E'; [destruct (set_word _ _ _); simpl in E' |- *; by inversion E'|by rewrite E'].
  - destruct (get_page_ok s pd a ua Hr Ho) as [_ ->]. apply Same.
  - destruct (entry_lookup s pd a n Hr Ho) as (pte & El & Hc). unfold pagedir_is_dirty. rewrite El. cbn [rbind].
    destruct Hc as [(_ & -> & ->)|(_ & _ & -> & -> & ->)]; cbn [rbind]; [rewrite bool_decide_eq_false_2 by naive_solver; apply Same|].
    rewrite (land_bit _ 6), <- Hv by done. apply Same.
  - destruct (entry_lookup s pd a n Hr Ho) as (pte & El & Hc). unfold pagedir_is_accessed. rewrite El. cbn [rbind].
    destruct Hc as [(_ & -> & ->)|(_ & _ & -> & -> & ->)]; cbn [rbind]; [rewrite bool_decide_eq_false_2 by naive_solver; apply Same|].
    rewrite (land_bit _ 5), <- Hv by done. apply Same.
  - destruct (activate_ok s pd a own Hr) as (s' & -> & H1 & H2). by exists s'.
Qed.

(** ** From creation on *)

(** A machine on which paging is set up: [base_page_dir] is an allocated page without
    user mappings. *)
Record paging (s : mmu) : Prop := {
  pgn_pages : pages_wf (pg s);
  pgn_bytes : bytes_ok (ram (pg s));
  pgn_high : PHYS_BASE <= base (kernel_pool (pg s));
  pgn_base : kernel_page s (base_page_dir s);
  pgn_user : forall i, 0 <= i < 768 -> word (ram (pg s)) (base_page_dir s + 4 * i) = 0;
  pgn_cr3 : 0 <= cr3 s < 2 ^ 30;
  pgn_ram : 0 <= ram_pages s <= 2 ^ 18;
  pgn_active : kernel_page s (PHYS_BASE + cr3 s)
}.

(** A directory that maps nothing and is not active, with [more] pages for tables. *)
Definition no_mapping (more : nat) : adir := mkDir (fun _ => mkView 0 false false false false) (fun _ => false) more false.

Lemma pagedir_create_ok s : paging s ->
  (pagedir_create s = Ret (s, NULL) /\ free_pages (pg s) = 0%nat) \/
  exists s' pd more, pagedir_create s = Ret (s', pd) /\ pd <> NULL /\ free_pages (pg s) = S more /\ rep s' pd (no_mapping more) /\
    hw_next s s' pd [].
Proof.
  intros [G1 G2 G3 G4 G5 G6 G7 G8]. unfold pagedir_create, palloc_get_page.
  destruct (pal_get_ok (pg s) 0 1 G1) as [[Hno Eq]|(t & p' & Eq & Htp & Hg & _ & Hp' & Hl & Hus & Hf)]; [lia| |].
  { left. change (flag 0 PAL_ASSERT) with false in Eq. change (flag 0 PAL_USER) with false in Hno. rewrite Eq. cbn [rbind].
    rewrite bool_decide_eq_false_2 by naive_solver. split; [by destruct s|by apply free_pages_none]. }
  right. change (flag 0 PAL_USER) with false in Hg. change (flag 0 PAL_ZERO) with false in Hf. simpl in Hg.
  rewrite Eq. cbn [rbind]. rewrite bool_decide_eq_true_2 by (unfold NULL; lia). cbn [pg with_pg base_page_dir]. rewrite Hf.
  assert (Hfr : page_used (pg s) t = false) by (apply (free_group_unused (pg s) false t 1 t G1 Hg); lia).
  destruct (kernel_page_mapped s _ G1 G4) as (Hbp & Hbm & Hba & _).
  assert (Hne : base_page_dir s <> 4096 * t) by (destruct G4 as (k & E & _ & Hk); rewrite E; intros ?; assert (k = t) by lia; congruence).
  assert (Hkt : kernel_page (with_pg s p') (4096 * t)).
  { exists t. split_and!; [done| |].
    - pose proof (same_layout_first _ _ false Hl) as Hfp. destruct (Hl false) as [_ Hc]. destruct Hg as (? & ? & _). simpl in *.
      unfold pool_page. rewrite Hfp, Hc. apply in_range_spec. lia.
    - simpl. rewrite Hus. by rewrite (proj2 (in_range_spec t 1 t)) by lia. }
  destruct (kernel_page_mapped (with_pg s p') _ Hp' Hkt) as (Htpos & Htm & Hta & _). simpl in Htm. rewrite Hf in Htm.
  assert (Hap : 4096 * t <= base_page_dir s \/ base_page_dir s + PGSIZE <= 4096 * t).
  { unfold PGSIZE. destruct (decide (4096 * t <= base_page_dir s)); [by left|right]. Z.div_mod_to_equations. lia. }
  destruct (memcpy_ok (ram (pg s)) (4096 * t) (base_page_dir s) PGSIZE) as (m & Em & Hm); [done|exact Htm|exact Hbm|lia|lia|exact Hap|].
  rewrite Em. cbn [rbind]. eexists _, (4096 * t), (free_pages p'). split; [done|]. split; [unfold NULL; lia|].
  split; [by apply (free_pages_get (pg s) p' t)|]. split; [|unfold hw_next; simpl; by rewrite app_nil_r]. set (s' := with_pg (with_pg s p') (with_ram p' m)).
  assert (Hpde : forall i, 0 <= i < 768 -> pde_at s' (4096 * t) i = 0).
  { assert (Hb : forall k, 0 <= k < 4096 -> byte_at m (4096 * t + k) = byte_at (ram (pg s)) (base_page_dir s + k)).
    { intros k Hk. unfold byte_at. rewrite (Hm (4096 * t + k)), decide_True by (unfold PGSIZE; lia). do 2 f_equal. lia. }
    intros i Hi. rewrite <- (G5 i Hi). unfold pde_at, word; simpl. rewrite <- !Z.add_assoc. by rewrite !Hb by lia. }
  assert (Hdom : forall q, is_Some (ram p' !! q) -> is_Some (m !! q)).
  { intros q Hq. rewrite (Hm q). case_decide; [apply Hbm; unfold PGSIZE in *; lia|by rewrite <- Hf]. }
  split; [split| | | | | |].
  - destruct Hp' as [K U A]. split; simpl; [| |done]; by eapply pool_wf_ram.
  - intros q b Hq. simpl in Hq. rewrite (Hm q) in Hq. case_decide; by eapply G2.
  - simpl. destruct (Hl false) as [Hb _]. simpl in Hb. by rewrite Hb.
  - exact Hkt.
  - intros i Hi. by rewrite Hpde.
  - intros i j Hi Hj. by rewrite Hpde.
  - destruct (kernel_page_mapped s _ G1 G4) as (_ & _ & _ & Hbt). destruct (kernel_page_mapped (with_pg s p') _ Hp' Hkt) as (_ & _ & _ & Htt).
    pose proof (kernel_page_high _ _ G1 G3 G4). assert (G3' : PHYS_BASE <= base (kernel_pool p')).
    { destruct (Hl false) as [Hb _]. simpl in Hb. by rewrite Hb. }
    pose proof (kernel_page_high (with_pg s p') _ Hp' G3' Hkt). split; simpl; [done|done|by apply not_eq_sym|lia|lia].
  - intros n Hn. unfold entry. destruct (pde_index n Hn) as [Hi _]. rewrite Hpde by done. by rewrite decide_True.
  - done.
  - intros i Hi. rewrite Hpde by done. simpl. naive_solver.
  - done.
  - simpl. symmetry. apply bool_decide_eq_false_2. intros E. destruct G8 as (k & Ek & _ & Hk). assert (k = t) by lia. congruence.
Qed.

Fixpoint pd_run (pd : Z) (os : list pd_op) (s : mmu) : res (mmu * list Z) :=
  match os with
  | [] => Ret (s, [])
  | o :: os => let! '(s, r) := pd_call pd o s in let! '(s, rs) := pd_run pd os s in Ret (s, r :: rs)
  end.

Fixpoint abs_run (os : list pd_op) (a : adir) : adir * list Z * list bool :=
  match os with
  | [] => (a, [], [])
  | o :: os => let '(a, r, l) := abs_call o a in let '(a, rs, ls) := abs_run os a in (a, r :: rs, l ++ ls)
  end.

Lemma pd_run_ok pd os s a : rep s pd a -> Forall (op_in_range (ram_pages s)) os ->
  let '(b, rs, ls) := abs_run os a in exists s', pd_run pd os s = Ret (s', rs) /\ rep s' pd b /\ hw_next s s' pd ls.
Proof.
  revert s a; induction os as [|o os IH]; intros s a Hr Hos; simpl.
  - exists s. split_and!; [done|done|apply hw_next_refl].
  - inversion_clear Hos as [|?? Ho Hos']. pose proof (pd_call_ok pd o s a Hr Ho) as Hc. destruct (abs_call o a) as [[a1 r] l].
    destruct Hc as (s1 & E1 & Hr1 & Hn1). rewrite E1. cbn [rbind].
    pose proof (IH s1 a1 Hr1) as IH'. destruct (abs_run os a1) as [[b rs] ls]. destruct IH' as (s2 & E2 & Hr2 & Hn2).
    { by rewrite (proj1 (proj2 Hn1)). }
    exists s2. rewrite E2. split_and!; [done|done|by eapply hw_next_trans].
Qed.

(** C16. A page directory is a map from user pages to frames.  On a machine whose paging
    is set up, [pagedir_create] returns a null pointer exactly when the kernel pool is
    empty, and else a directory that maps nothing; from then on every series of
    [install_page], [pagedir_clear_page], [pagedir_get_page], of the four calls on the
    dirty and accessed bits and of [pagedir_activate], for this directory and for the
    kernel's, fails no assertion, returns exactly the results of the abstract directory
    and leaves it represented in memory.  In particular [install_page] succeeds unless the
    page is mapped already or its block of 1024 pages has no table and the kernel pool no
    page for one.  [cr3] is loaded by the activations and, while the directory is active,
    after each call that takes a mapping or a flag away, and never else.  The pages named
    are user pages, the frames exist, and nobody else allocates from the kernel pool in
    between. *)
Theorem pagedir_refines_map s os : paging s -> Forall (op_in_range (ram_pages s)) os ->
  (pagedir_create s = Ret (s, NULL) /\ free_pages (pg s) = 0%nat) \/
  exists s0 pd more, pagedir_create s = Ret (s0, pd) /\ pd <> NULL /\ free_pages (pg s) = S more /\
    let '(b, rs, ls) := abs_run os (no_mapping more) in
    exists s', pd_run pd os s0 = Ret (s', rs) /\ rep s' pd b /\
      cr3_loads s' = cr3_loads s ++ map (fun own : bool => (if own then pd else base_page_dir s) - PHYS_BASE) ls.
Proof.
  intros Hp Hos. destruct (pagedir_create_ok s Hp) as [H|(s0 & pd & more & E & Hnn & Hl & Hr & Hn)]; [by left|right].
  exists s0, pd, more. split_and!; [done|done|done|]. pose proof (pd_run_ok pd os s0 _ Hr) as H.
  destruct (abs_run os (no_mapping more)) as [[b rs] ls]. destruct H as (s' & E' & Hr' & Hn'); [by rewrite (proj1 (proj2 Hn))|].
  exists s'. split_and!; [done|done|]. by destruct (hw_next_trans _ _ _ _ _ _ Hn Hn') as (_ & _ & ->).
Qed.

(** Mapping is the inverse of looking up: after [pagedir_set_page] has mapped user
    page [n] to a frame, every address of the page translates to its byte of the frame
    and every other user address translates as before; after [pagedir_clear_page] the
    page translates to nothing; mapping a mapped page fails an assertion. *)
Theorem pagedir_set_get s pd a n f w : rep s pd a -> user_page n -> 0 <= f < ram_pages s ->
  (v_present (a_view a n) = false ->
   (pagedir_set_page s pd (PGSIZE * n) (PHYS_BASE + PGSIZE * f) w = Ret (s, false) /\ a_table a (n / 1024) = false /\ free_pages (pg s) = 0%nat) \/
   exists s' s'', pagedir_set_page s pd (PGSIZE * n) (PHYS_BASE + PGSIZE * f) w = Ret (s', true) /\
     (forall ua, 0 <= ua < PHYS_BASE -> exists r, pagedir_get_page s pd ua = Ret (s, r) /\
        pagedir_get_page s' pd ua = Ret (s', if decide (ua / 4096 = n) then PHYS_BASE + PGSIZE * f + ua mod 4096 else r)) /\
     pagedir_clear_page s' pd (PGSIZE * n) = Ret s'' /\
     (forall ua, 0 <= ua < PHYS_BASE -> ua / 4096 = n -> pagedir_get_page s'' pd ua = Ret (s'', NULL))) /\
  (v_present (a_view a n) = true -> pagedir_set_page s pd (PGSIZE * n) (PHYS_BASE + PGSIZE * f) w = Panic).
Proof.
  intros Hr Hn Hf. split.
  - intros Hp. destruct (set_page_ok s pd a n f w Hr Hn Hp Hf) as [(H1 & H2 & H3)|(s' & E & Hn' & Hc)];
      [left; by rewrite <- (rp_left _ _ _ Hr)|right].
    assert (Hb : exists b, rep s' pd b /\ a_view b n = mkView f true w false false /\ forall k, k <> n -> a_view b k = a_view a k).
    { destruct Hc as [(_ & Hr')|(more & _ & _ & Hr')]; (eexists; split; [exact Hr'|]); simpl;
        (split; [by rewrite decide_True|intros k Hk; by rewrite decide_False]). }
    destruct Hb as (b & Hr' & Hbn & Hbk).
    assert (Ho : op_in_range (ram_pages s') (DClear n)) by done.
    pose proof (pd_call_ok pd (DClear n) s' _ Hr' Ho) as Hcl. simpl in Hcl. rewrite Hbn in Hcl. simpl in Hcl. destruct Hcl as (s'' & Ec & Hr'' & _).
    destruct (pagedir_clear_page s' pd (PGSIZE * n)) as [s2| | |] eqn:E2; try discriminate Ec. injection Ec as ->.
    exists s', s''. split_and!; [done| |done|].
    + intros ua Hua. destruct (get_page_ok s pd a ua Hr Hua) as [_ ->], (get_page_ok s' pd _ ua Hr' Hua) as [_ ->].
      eexists; split; [done|]. destruct (decide (ua / 4096 = n)) as [->|Hne]; [by rewrite Hbn|by rewrite Hbk].
    + intros ua Hua <-. destruct (get_page_ok s'' pd _ ua Hr'' Hua) as [_ ->]. simpl. by rewrite decide_True.
  - intros Hp. pose proof Hr as [Hok [Hc Hram Hb _ _] Hv Hfr _ _ _]. destruct (page_vaddr n Hn) as (Hu & H0 & Ed & Ho).
    pose proof (present_table s pd a n Hr Hn Hp) as He. destruct (table_page s pd Hok n Hn He) as (Hpos & _). destruct (pde_index n Hn) as [Hi Hj].
    destruct (frame_kaddr f) as (Hvt & Hof & Hsh); [lia|].
    unfold pagedir_set_page. rewrite Ho, Hof, Hu, Hvt. rewrite !(bool_decide_eq_true_2 (0 = 0)) by done. cbn [assert_ rbind].
    rewrite Hsh, (bool_decide_eq_true_2 (f < _)), (bool_decide_eq_true_2 (pd <> _)) by (done || lia). cbn [assert_ rbind].
    destruct (lookup_create s pd Hok _ Hu H0) as [(_ & E & _)|(p' & El & Hok' & Hent & Hpde & _)]; rewrite Ed in *; [done|].
    assert (He' : pde_at (with_pg s p') pd (n / 1024) <> 0) by (apply Hpde; [done|by left]).
    rewrite El. cbn [rbind]. destruct (table_page _ pd Hok' n Hn He') as (Hpos' & _).
    rewrite bool_decide_eq_true_2 by (unfold NULL; lia). destruct (load_pte _ pd Hok' n Hn He') as [_ ->]. cbn [rbind].
    rewrite not_present, Hent, Hv, Hp by done. done.
Qed.

(** ** A machine with eight kernel pages *)

Definition demo_mmu : mmu :=
  mkMmu (mkPages (mkPool (Bitmap 8 [1]) (4096 * 786434)) (mkPool (Bitmap 8 [0]) (4096 * 786442)) (blank (4096 * 786434) (4096 * 16)))
    (4096 * 786434) 64 8192 [].

Lemma demo_paging : paging demo_mmu.
Proof.
  assert (Hb : forall w, is_u32 w -> wf (Bitmap 8 [w])) by (intros w Hw; split; [simpl; lia|by vm_compute|repeat constructor; apply Hw]).
  assert (Hz : forall q, byte_at (ram (pg demo_mmu)) q = 0).
  { intros q. unfold byte_at. destruct (ram (pg demo_mmu) !! q) eqn:E; [|done]. by apply blank_zero in E as ->. }
  split.
  - split; [split|split|change (786434 + 8 <= 786442); lia].
    + apply Hb. unfold is_u32. lia.
    + reflexivity.
    + reflexivity.
    + change (4096 * 786434 + 4096 * 8 <= 2 ^ 32). lia.
    + intros a Ha. change (4096 * 786434 <= a < 4096 * 786434 + 4096 * 8) in Ha. apply blank_mapped. lia.
    + apply Hb. unfold is_u32. lia.
    + reflexivity.
    + reflexivity.
    + change (4096 * 786442 + 4096 * 8 <= 2 ^ 32). lia.
    + intros a Ha. change (4096 * 786442 <= a < 4096 * 786442 + 4096 * 8) in Ha. apply blank_mapped. lia.
  - intros a b E. apply blank_zero in E as ->. unfold is_u8. lia.
  - change (3221225472 <= 4096 * 786434). lia.
  - exists 786434. split_and!; reflexivity.
  - intros i Hi. unfold word. by rewrite !Hz.
  - change (0 <= 8192 < 2 ^ 30). lia.
  - change (0 <= 64 <= 2 ^ 18). lia.
  - exists 786434. split_and!; reflexivity.
Qed.

Lemma demo_left : free_pages (pg demo_mmu) = 7%nat.
Proof. reflexivity. Qed.

Lemma demo_create : exists s pd, pagedir_create demo_mmu = Ret (s, pd) /\ rep s pd (no_mapping 6) /\ ram_pages s = 64.
Proof.
  destruct (pagedir_create_ok demo_mmu demo_paging) as [[_ Hno]|(s & pd & more & H1 & _ & H2 & H3 & (_ & H4 & _))]; rewrite demo_left in *; [done|].
  injection H2 as <-. exists s, pd. exact (conj H1 (conj H3 H4)).
Qed.

Definition demo_ops : list pd_op :=
  [DInstall 5 9 true; DInstall 5 8 true; DGet 20490; DClear 5; DActivate true; DInstall 5 8 false; DDirty 5 true; DIsDirty 5;
   DClear 5; DGet 20490; DAccessed 6 false; DActivate false; DClear 5].

(** One page is mapped, unmapped, mapped again and unmapped; of the four loads of [cr3] the
    second and the third are flushes of the active directory. *)
Lemma pagedir_refines_map_witness :
  exists s0 pd s', pagedir_create demo_mmu = Ret (s0, pd) /\
    pd_run pd demo_ops s0 = Ret (s', [1; 0; PHYS_BASE + 36874; 0; 0; 1; 0; 1; 0; 0; 0; 0; 0]) /\
    cr3_loads s' = [pd - PHYS_BASE; pd - PHYS_BASE; pd - PHYS_BASE; 8192].
Proof.
  assert (Ho : Forall (op_in_range (ram_pages demo_mmu)) demo_ops).
  { change (ram_pages demo_mmu) with 64. unfold demo_ops. repeat (apply Forall_cons; split; [|]); try (by apply Forall_nil).
    all: unfold op_in_range, user_page, PHYS_BASE, LOADER_PHYS_BASE; lia. }
  destruct (pagedir_refines_map demo_mmu demo_ops demo_paging Ho) as [[_ H]|(s0 & pd & more & Hc & _ & Hl & H)]; rewrite demo_left in *; [discriminate H|].
  injection Hl as <-. destruct H as (s' & H1 & _ & H2). exists s0, pd, s'. exact (conj Hc (conj H1 H2)).
Defined.

Lemma pagedir_set_get_witness :
  exists s pd s', rep s pd (no_mapping 6) /\ user_page 5 /\ pagedir_set_page s pd (PGSIZE * 5) (PHYS_BASE + PGSIZE * 9) true = Ret (s', true).
Proof.
  destruct demo_create as (s & pd & Hc & Hr & Hram).
  assert (Hu : user_page 5) by (unfold user_page; lia).
  assert (Hf : 0 <= 9 < ram_pages s) by (rewrite Hram; lia).
  destruct (pagedir_set_get s pd (no_mapping 6) 5 9 true Hr Hu Hf) as [H _].
  destruct (H eq_refl) as [(_ & _ & H1)|(s' & s'' & H1 & _)].
  - rewrite <- (rp_left _ _ _ Hr) in H1. discriminate H1.
  - exists s, pd, s'. exact (conj Hr (conj Hu H1)).
Defined.
