(* ===== verification/Paging.v ===== *)
(** * threads/init.c: setting up the kernel's page tables

    [paging_init] fills [base_page_dir] with the mapping of all of RAM at [PHYS_BASE] and
    loads it into CR3.  [_start] and [_end_kernel_text] are addresses the linker chooses.
    [walk] is what the processor does with the tables; the theorem says that afterwards
    it finds physical address [a] behind [PHYS_BASE + a] for all of RAM, read-only for the
    kernel's code, and nothing elsewhere, and that the machine is in the state the page
    directories of processes start from. *)

From S2P Require Import Prelude Bitmap Vaddr Cstring CstringProof Palloc Pagedir PagedirProof.

(** ** Operations *)

Section Boot.
Context (_start _end_kernel_text : Z).

Definition in_kernel_text (vaddr : Z) : bool := bool_decide (_start <= vaddr) && bool_decide (vaddr < _end_kernel_text).

(** The table for entry [pde_idx] of the directory: the current one [pt], or a new one. *)
Definition next_table (pd pde_idx : Z) (s : mmu) (pt : Z) : res (mmu * Z) :=
  let! e := load32 (ram (pg s)) (pd + 4 * pde_idx) in
  if bool_decide (e = 0) then
    let! '(p, pt) := palloc_get_page (pg s) (Z.lor PAL_ASSERT PAL_ZERO) in
    let s := with_pg s p in
    let! e := pde_create pt in
    let! s := set_word s (pd + 4 * pde_idx) e in
    Ret (s, pt)
  else Ret (s, pt).

(** The body of the loop: page [page] of RAM, the current table in [pt]. *)
Definition map_page (pd page : Z) (st : mmu * Z) : res (mmu * Z) :=
  let '(s, pt) := st in
  let paddr := u32 (page * PGSIZE) in
  let! vaddr := ptov paddr in
  let pde_idx := pd_no vaddr in
  let pte_idx := pt_no vaddr in
  let! '(s, pt) := next_table pd pde_idx s pt in
  let! e := pte_create_kernel vaddr (negb (in_kernel_text vaddr)) in
  let! s := set_word s (pt + 4 * pte_idx) e in
  Ret (s, pt).

Definition paging_init (s : mmu) : res mmu :=
  let! '(p, pd) := palloc_get_page (pg s) (Z.lor PAL_ASSERT PAL_ZERO) in
  let s := mkMmu p pd (ram_pages s) (cr3 s) (cr3_loads s) in
  let! '(s, _) := for_up (Z.to_nat (ram_pages s)) 0 (map_page pd) (s, NULL) in
  let! a := vtop (base_page_dir s) in
  Ret (mkMmu (pg s) (base_page_dir s) (ram_pages s) a (cr3_loads s ++ [a])).

(** ** The processor's walk

    The physical address behind a virtual one and whether it may be written, for an
    access by the kernel. *)
Definition walk (s : mmu) (va : Z) : res (option (Z * bool)) :=
  let! pd := ptov (cr3 s) in
  let! pde := load32 (ram (pg s)) (pd + 4 * pd_no va) in
  if bool_decide (Z.land pde PTE_P = 0) then Ret None
  else
    let! pt := ptov (Z.land pde PTE_ADDR) in
    let! pte := load32 (ram (pg s)) (pt + 4 * pt_no va) in
    if bool_decide (Z.land pte PTE_P = 0) then Ret None
    else Ret (Some (Z.land pte PTE_ADDR + pg_ofs va,
                    bool_decide (Z.land pde PTE_W <> 0) && bool_decide (Z.land pte PTE_W <> 0))).

(** ** The tables so far *)

Definition pte_of (n : Z) : Z := 4096 * n + 1 + (if in_kernel_text (PHYS_BASE + 4096 * n) then 0 else 2).
Definition pde_of (t : Z) : Z := 4096 * (t - 786432) + 7.

(** [nt] tables, at pages [T 0], [T 1], ..., of which the first [k] entries are written. *)
Record tables (s : mmu) (pd : Z) (T : Z -> Z) (nt k : Z) : Prop := {
  tb_pages : pages_wf (pg s);
  tb_bytes : bytes_ok (ram (pg s));
  tb_high : PHYS_BASE <= base (kernel_pool (pg s));
  tb_pd : kernel_page s pd;
  tb_pde i : 0 <= i < 1024 -> pde_at s pd i = if decide (768 <= i < 768 + nt) then pde_of (T (i - 768)) else 0;
  tb_page j : 0 <= j < nt -> kernel_page s (4096 * T j) /\ 4096 * T j <> pd;
  tb_sep j j' : 0 <= j < nt -> 0 <= j' < nt -> T j = T j' -> j = j';
  tb_entry n : 0 <= n < 1024 * nt -> word (ram (pg s)) (4096 * T (n / 1024) + 4 * (n mod 1024)) = if decide (n < k) then pte_of n else 0;
  tb_cnt : 0 <= k <= 1024 * nt
}.

Lemma ptov_ram a : 0 <= a < 2 ^ 30 -> ptov a = Ret (PHYS_BASE + a).
Proof.
  intros Ha. unfold ptov. rewrite bool_decide_eq_true_2 by (unfold PHYS_BASE, LOADER_PHYS_BASE; lia). cbn [assert_ rbind].
  rewrite u32_small by (unfold PHYS_BASE, LOADER_PHYS_BASE; lia). f_equal. lia.
Qed.

Lemma kernel_page_no s a : pages_wf (pg s) -> PHYS_BASE <= base (kernel_pool (pg s)) -> kernel_page s a ->
  exists t, a = 4096 * t /\ 786432 <= t < 1048576.
Proof.
  intros [[_ Hal Hpos Htop _] _ _] Hh (n & -> & Hn & _). apply in_range_spec in Hn. exists n. split; [done|].
  unfold PHYS_BASE, LOADER_PHYS_BASE in Hh. lia.
Qed.

Lemma pte_create_kernel_ok n w : 0 <= n < 262144 ->
  pte_create_kernel (PHYS_BASE + 4096 * n) w = Ret (4096 * n + 1 + (if w then 2 else 0)).
Proof.
  intros Hn. unfold pte_create_kernel, vtop, is_kernel_vaddr.
  replace (pg_ofs (PHYS_BASE + 4096 * n)) with 0.
  2: { rewrite pg_ofs_mod. unfold PHYS_BASE, LOADER_PHYS_BASE. symmetry. apply Z.mod_divide; [lia|]. exists (786432 + n). lia. }
  rewrite (bool_decide_eq_true_2 (0 = 0)) by done. cbn [assert_ rbind].
  rewrite bool_decide_eq_true_2 by lia. cbn [assert_ rbind].
  rewrite u32_small by (unfold PHYS_BASE, LOADER_PHYS_BASE; lia). replace (PHYS_BASE + 4096 * n - PHYS_BASE) with (4096 * n) by lia.
  f_equal. rewrite <- Z.lor_assoc. destruct w; [change (Z.lor PTE_P PTE_W) with 3|change (Z.lor PTE_P 0) with 1]; rewrite lor_flags; lia.
Qed.
Lemma pte_of_u32 n : 0 <= n < 262144 -> is_u32 (pte_of n).
Proof. intros Hn. unfold pte_of, is_u32. destruct (in_kernel_text _); lia. Qed.

(** Words of two different pages, or two words of one page, do not overlap. *)
Lemma slots_apart a b i j : a mod 4096 = 0 -> b mod 4096 = 0 -> 0 <= i < 1024 -> 0 <= j < 1024 -> a <> b \/ i <> j ->
  a + 4 * i + 4 <= b + 4 * j \/ b + 4 * j + 4 <= a + 4 * i.
Proof. intros Ha Hb Hi Hj Hne. Z.div_mod_to_equations. lia. Qed.

Lemma page_aligned t : (4096 * t) mod 4096 = 0.
Proof. by rewrite Z.mul_comm, Z.mod_mul. Qed.

Lemma tables_write s pd T nt k : tables s pd T nt k -> k < 1024 * nt -> k < 262144 ->
  exists m, set_word s (4096 * T (k / 1024) + 4 * (k mod 1024)) (pte_of k) = Ret (with_pg s (with_ram (pg s) m)) /\
    tables (with_pg s (with_ram (pg s) m)) pd T nt (k + 1).
Proof.
  intros [P1 P2 P3 P4 P5 P6 P7 P8 P9] Hk Hmax.
  assert (0 <= k / 1024 < nt /\ 0 <= k mod 1024 < 1024) as [Hi Hj] by (Z.div_mod_to_equations; lia).
  destruct (P6 _ Hi) as [Hkp Hne]. destruct (kernel_page_mapped s _ P1 Hkp) as (_ & Hm & _ & _).
  destruct (kernel_page_mapped s _ P1 P4) as (_ & _ & Hpd & _).
  unfold set_word. destruct (store32_ok (ram (pg s)) (4096 * T (k / 1024) + 4 * (k mod 1024)) (pte_of k)) as (m & -> & Hws).
  { intros q Hq. apply Hm. lia. } { apply pte_of_u32. lia. }
  cbn [rbind]. exists m. split; [done|]. set (s' := with_pg s _).
  assert (Hkeep : forall a, kernel_page s a -> kernel_page s' a) by (intros a; by apply kernel_page_keep).
  constructor; auto.
  - destruct P1 as [K U Ap]. split; simpl; [| |done]; (eapply pool_wf_ram; [eassumption|]; intros q Hq; by apply (ws_dom _ _ _ _ Hws)).
  - by apply (ws_bytes _ _ _ _ Hws).
  - intros i Hi'. rewrite <- P5 by done. apply (word_set_other _ _ _ _ _ Hws).
    apply slots_apart; auto using page_aligned.
  - intros n Hn. destruct (decide (n = k)) as [->|Hnk].
    + rewrite decide_True by lia. exact (ws_word _ _ _ _ Hws).
    + change (word m (4096 * T (n / 1024) + 4 * (n mod 1024)) = if decide (n < k + 1) then pte_of n else 0).
      rewrite (word_set_other _ _ _ _ _ Hws), P8 by (done ||
        (apply slots_apart; auto using page_aligned; [Z.div_mod_to_equations; lia|];
         destruct (decide (n / 1024 = k / 1024)) as [E|E]; [right; Z.div_mod_to_equations; lia|left];
         intros ET; apply E, P7; [Z.div_mod_to_equations; lia..|lia])).
      destruct (decide (n < k)), (decide (n < k + 1)); (done || lia).
  - lia.
Qed.

Definition fn_set (T : Z -> Z) (i t : Z) : Z -> Z := fun j => if decide (j = i) then t else T j.

(** A fresh table in the next slot of the directory. *)
Lemma tables_grow s pd T nt p' t m : tables s pd T nt (1024 * nt) -> nt < 256 -> same_layout (pg s) p' -> pages_wf p' ->
  786432 <= t < 1048576 -> pool_page (kernel_pool p') t = true -> page_used (pg s) t = false ->
  (forall k, page_used p' k = if in_range t 1 k then true else page_used (pg s) k) ->
  filled (ram (pg s)) (ram p') (4096 * t) 4096 0 ->
  word_set (ram p') m (pd + 4 * (768 + nt)) (pde_of t) ->
  tables (with_pg s (with_ram p' m)) pd (fn_set T nt t) (nt + 1) (1024 * nt).
Proof.
  intros [P1 P2 P3 P4 P5 P6 P7 P8 P9] Hnt Hl Hp' Ht Hpp Hfree Hu Hfill Hws. set (s' := with_pg s (with_ram p' m)).
  destruct (kernel_page_mapped s _ P1 P4) as (_ & _ & Hpd & _).
  assert (Hnew : forall a, kernel_page s a -> a <> 4096 * t) by (intros a (k & -> & _ & Hk) Ek; assert (k = t) by lia; congruence).
  assert (Hpdt : pd <> 4096 * t) by (by apply Hnew).
  assert (Hkeep : forall a, kernel_page s a -> kernel_page s' a).
  { intros a. apply kernel_page_keep; [exact Hl|]. intros k Hk. change (page_used p' k = true). rewrite Hu. by destruct (in_range t 1 k). }
  assert (Hkt : kernel_page s' (4096 * t)).
  { exists t. split_and!; [done|exact Hpp|]. change (page_used p' t = true). rewrite Hu. by rewrite (proj2 (in_range_spec t 1 t)) by lia. }
  assert (Hold : forall a, a mod 4096 = 0 -> a <> 4096 * t -> forall i, 0 <= i < 1024 -> a <> pd \/ i <> 768 + nt ->
    word m (a + 4 * i) = word (ram (pg s)) (a + 4 * i)).
  { intros a Ha Hat i Hi Hne. rewrite (word_set_other _ _ _ _ _ Hws) by (apply slots_apart; auto; lia).
    apply word_ext. intros q Hq. rewrite Hfill, decide_False; [done|]. intros Hin. apply Hat.
    apply (pages_disjoint a (4096 * t) q); auto using page_aligned; lia. }
  constructor; auto.
  - destruct Hp' as [K U Ap]. split; simpl; [| |done]; (eapply pool_wf_ram; [eassumption|]; intros q Hq; by apply (ws_dom _ _ _ _ Hws)).
  - apply (ws_bytes _ _ _ _ Hws). intros q b Hq. rewrite Hfill in Hq. case_decide; [injection Hq as <-; unfold is_u8; lia|by eapply P2].
  - simpl. destruct (Hl false) as [Hb _]. simpl in Hb. by rewrite Hb.
  - intros i Hi. unfold fn_set. destruct (decide (i = 768 + nt)) as [->|Hne].
    + rewrite decide_True by lia. rewrite decide_True by lia. exact (ws_word _ _ _ _ Hws).
    + change (word m (pd + 4 * i) = if decide (768 <= i < 768 + (nt + 1)) then pde_of (if decide (i - 768 = nt) then t else T (i - 768)) else 0).
      rewrite Hold by auto. fold (pde_at s pd i). rewrite P5 by done.
      destruct (decide (768 <= i < 768 + nt)), (decide (768 <= i < 768 + (nt + 1))); try lia. by rewrite decide_False by lia.
  - intros j Hj. unfold fn_set. destruct (decide (j = nt)) as [->|]; [done|]. destruct (P6 j); [lia|]. auto.
  - intros j j' Hj Hj'. unfold fn_set. destruct (decide (j = nt)) as [->|], (decide (j' = nt)) as [->|]; intros E; [done|..].
    + exfalso. destruct (P6 j') as [Hk _]; [lia|]. apply Hnew in Hk. lia.
    + exfalso. destruct (P6 j) as [Hk _]; [lia|]. apply Hnew in Hk. lia.
    + apply P7; (done || lia).
  - intros n Hn. assert (0 <= n mod 1024 < 1024) as Hj by (Z.div_mod_to_equations; lia). unfold fn_set.
    destruct (decide (n / 1024 = nt)) as [En|En].
    + rewrite decide_False by (Z.div_mod_to_equations; lia).
      assert (Hz : forall q, 4096 * t <= q < 4096 * t + 4096 -> byte_at m q = 0).
      { intros q Hq. unfold byte_at. rewrite (ws_out _ _ _ _ Hws), Hfill, decide_True; [done|lia|].
        intros Hin. apply Hpdt. apply (pages_disjoint pd (4096 * t) q); auto using page_aligned; lia. }
      unfold word. simpl. rewrite !Hz by lia. done.
    + assert (0 <= n / 1024 < nt) as Hi by (Z.div_mod_to_equations; lia). destruct (P6 _ Hi) as [Hk Hd].
      change (word m (4096 * T (n / 1024) + 4 * (n mod 1024)) = if decide (n < 1024 * nt) then pte_of n else 0).
      rewrite Hold, P8 by (auto using page_aligned; Z.div_mod_to_equations; lia). done.
  - lia.
Qed.
(** ** Free pages *)

Lemma free_pages_some p : (0 < free_pages p)%nat -> exists n, free_group (kernel_pool p) n 1.
Proof.
  unfold free_pages. destruct (filter _ _) as [|n l] eqn:E; simpl; [lia|]. intros _.
  assert (n ∈ filter (fun n => page_used p n = false) (seqZ (first_page (kernel_pool p)) (page_cnt (kernel_pool p)))) as Hin by (rewrite E; left).
  apply list_elem_of_filter in Hin as [Hu Hin]. apply elem_of_seqZ in Hin. exists n. unfold free_group. split_and!; [lia..|].
  intros k Hk. assert (k = n) as -> by lia. unfold page_used in Hu. by apply orb_false_iff in Hu as [-> _].
Qed.

(** ** The loop *)

(** Before page [k]: the state [s] with current table [pt], having started from [s0]. *)
Record looping (s0 : mmu) (pd F : Z) (k : Z) (st : mmu * Z) : Prop := {
  lo_base : base_page_dir (fst st) = pd;
  lo_ram : ram_pages (fst st) = ram_pages s0;
  lo_loads : cr3_loads (fst st) = cr3_loads s0;
  lo_tables : exists T nt, tables (fst st) pd T nt k /\ nt = (k + 1023) / 1024 /\
    (k < 1024 * nt -> snd st = 4096 * T (k / 1024)) /\ Z.of_nat (free_pages (pg (fst st))) + nt = F
}.

Lemma get_zeroed s : pages_wf (pg s) -> PHYS_BASE <= base (kernel_pool (pg s)) -> (0 < free_pages (pg s))%nat ->
  exists t p', palloc_get_page (pg s) (Z.lor PAL_ASSERT PAL_ZERO) = Ret (p', 4096 * t) /\ 786432 <= t < 1048576 /\
    pages_wf p' /\ same_layout (pg s) p' /\ pool_page (kernel_pool p') t = true /\ page_used (pg s) t = false /\
    (forall k, page_used p' k = if in_range t 1 k then true else page_used (pg s) k) /\
    filled (ram (pg s)) (ram p') (4096 * t) 4096 0 /\ free_pages (pg s) = S (free_pages p').
Proof.
  intros Hp Hh Hf. unfold palloc_get_page.
  destruct (pal_get_ok (pg s) (Z.lor PAL_ASSERT PAL_ZERO) 1 Hp) as [[Hno _]|(t & p' & Eq & Htp & Hg & _ & Hp' & Hl & Hus & Hfl)]; [lia| |].
  { destruct (free_pages_some _ Hf) as [n Hn]. exfalso. by apply (Hno n). }
  change (flag (Z.lor PAL_ASSERT PAL_ZERO) PAL_USER) with false in Hg. simpl in Hg.
  change (flag (Z.lor PAL_ASSERT PAL_ZERO) PAL_ZERO) with true in Hfl. change (4096 * 1) with 4096 in Hfl. pose proof Hg as (G1 & G2 & _).
  destruct (pw_kernel _ Hp) as [_ Hal _ Htop _].
  exists t, p'. split_and!; try done; try (unfold PHYS_BASE, LOADER_PHYS_BASE in Hh; lia).
  - pose proof (same_layout_first _ _ false Hl) as Hfp. destruct (Hl false) as [_ Hc]. simpl in *.
    unfold pool_page. rewrite Hfp, Hc. apply in_range_spec. lia.
  - apply (free_group_unused (pg s) false t 1 t Hp Hg). lia.
  - apply (free_pages_get (pg s) p' t); [done|done| |done]. apply (free_group_unused (pg s) false t 1 t Hp Hg). lia.
Qed.

Lemma vaddr_index k : 0 <= k < 262144 ->
  pd_no (PHYS_BASE + 4096 * k) = 768 + k / 1024 /\ pt_no (PHYS_BASE + 4096 * k) = k mod 1024.
Proof.
  intros Hk. rewrite pd_no_div, pt_no_mod. unfold PHYS_BASE, LOADER_PHYS_BASE.
  replace ((3221225472 + 4096 * k) / 4096) with (786432 + k) by (apply (Z.div_unique _ _ _ 0); lia).
  split; Z.div_mod_to_equations; lia.
Qed.

(** After [next_table] there is a table for page [k]. *)
Lemma next_table_ok s pd T nt k pt F : tables s pd T nt k -> 0 <= k < 262144 -> nt = (k + 1023) / 1024 ->
  (k < 1024 * nt -> pt = 4096 * T (k / 1024)) -> Z.of_nat (free_pages (pg s)) + nt = F -> (k = 1024 * nt -> nt < F) ->
  exists s1 T1 nt1, next_table pd (768 + k / 1024) s pt = Ret (s1, 4096 * T1 (k / 1024)) /\ tables s1 pd T1 nt1 k /\
    nt1 = k / 1024 + 1 /\ Z.of_nat (free_pages (pg s1)) + nt1 = F /\
    base_page_dir s1 = base_page_dir s /\ ram_pages s1 = ram_pages s /\ cr3_loads s1 = cr3_loads s.
Proof.
  intros Htab Hk Ent Hpt HF Hroom. pose proof Htab as [P1 P2 P3 P4 P5 P6 P7 P8 P9]. unfold next_table.
  destruct (kernel_page_mapped s pd P1 P4) as (_ & Hmp & Hpda & _).
  rewrite load32_ok by (intros q Hq; apply Hmp; Z.div_mod_to_equations; lia). cbn [rbind].
  change (word (ram (pg s)) (pd + 4 * (768 + k / 1024))) with (pde_at s pd (768 + k / 1024)).
  rewrite P5 by (Z.div_mod_to_equations; lia).
  assert (Hcase : k = 1024 * nt \/ k < 1024 * nt) by lia. destruct Hcase as [E|Hlt].
  - rewrite decide_False by (Z.div_mod_to_equations; lia). rewrite bool_decide_true by done.
    assert (Hf : (0 < free_pages (pg s))%nat) by (specialize (Hroom E); lia).
    destruct (get_zeroed s P1 P3 Hf) as (t & p' & -> & Ht & Hp' & Hl & Hpp & Hfr & Hu & Hfl & Hfc). cbn [rbind].
    destruct (pde_create_ok t Ht) as (-> & Hv & _). cbn [rbind].
    assert (Ei : k / 1024 = nt) by (Z.div_mod_to_equations; lia). rewrite Ei.
    unfold set_word. destruct (store32_ok (ram p') (pd + 4 * (768 + nt)) (pde_of t)) as (m & Em & Hws); [|exact Hv|].
    { intros q Hq. rewrite Hfl. case_decide; [eauto|]. apply Hmp. lia. }
    cbn [pg with_pg]. fold (pde_of t). rewrite Em. cbn [rbind].
    exists (with_pg s (with_ram p' m)), (fn_set T nt t), (nt + 1). split_and!; try done.
    + do 3 f_equal. unfold fn_set. by rewrite decide_True.
    + rewrite E. rewrite E in Htab. apply tables_grow; (done || lia).
    + change (Z.of_nat (free_pages p') + (nt + 1) = F). lia.
  - assert (Hi : 0 <= k / 1024 < nt) by (Z.div_mod_to_equations; lia). rewrite decide_True by lia.
    rewrite bool_decide_false by (unfold pde_of; intros E; destruct (P6 _ Hi) as [Hkp _];
      destruct (kernel_page_no s _ P1 P3 Hkp) as (t & Et & Ht); replace (768 + k / 1024 - 768) with (k / 1024) in E by lia; lia).
    exists s, T, nt. rewrite (Hpt Hlt). split_and!; try done. Z.div_mod_to_equations; lia.
Qed.

Lemma map_page_ok s0 pd F k st : looping s0 pd F k st -> 0 <= k < ram_pages s0 -> ram_pages s0 <= 2 ^ 18 ->
  (ram_pages s0 + 1023) / 1024 <= F ->
  exists st', map_page pd k st = Ret st' /\ looping s0 pd F (k + 1) st'.
Proof.
  destruct st as [s pt]. intros [Eb Er El (T & nt & Htab & Ent & Hpt & HF)] Hk Hmax Hroom. cbn [fst snd] in *.
  unfold map_page. rewrite u32_small by (unfold PGSIZE; lia). unfold PGSIZE. rewrite (Z.mul_comm k), ptov_ram by lia. cbn [rbind].
  destruct (vaddr_index k) as [-> ->]; [lia|].
  destruct (next_table_ok s pd T nt k pt F Htab) as (s1 & T1 & nt1 & -> & Htab1 & Ent1 & HF1 & Eb1 & Er1 & El1); try done; [lia|Z.div_mod_to_equations; lia|].
  cbn [rbind]. rewrite pte_create_kernel_ok by lia. cbn [rbind].
  destruct (tables_write s1 pd T1 nt1 k Htab1) as (m & Em & Htab2); [Z.div_mod_to_equations; lia|lia|].
  replace (4096 * k + 1 + (if negb (in_kernel_text (PHYS_BASE + 4096 * k)) then 2 else 0)) with (pte_of k)
    by (unfold pte_of; by destruct (in_kernel_text _)).
  rewrite Em. cbn [rbind]. eexists. split; [done|].
  constructor; cbn [fst snd]; [by rewrite <- Eb, <- Eb1|by rewrite <- Er, <- Er1|by rewrite <- El, <- El1|].
  exists T1, nt1. split_and!; [done|Z.div_mod_to_equations; lia| |done].
  intros Hlt. do 2 f_equal. Z.div_mod_to_equations; lia.
Qed.
(** ** The result *)

Lemma pte_flags n : 0 <= n < 262144 ->
  Z.land (pte_of n) PTE_P <> 0 /\ Z.land (pte_of n) PTE_ADDR = 4096 * n /\
  bool_decide (Z.land (pte_of n) PTE_W <> 0) = negb (in_kernel_text (PHYS_BASE + 4096 * n)).
Proof.
  intros Hn. pose proof (pte_of_u32 n Hn) as Hu. rewrite land_addr by done.
  rewrite (land_small (pte_of n) PTE_P), (land_small (pte_of n) PTE_W) by done. unfold pte_of in *.
  destruct (in_kernel_text (PHYS_BASE + 4096 * n)).
  - replace ((4096 * n + 1 + 0) mod 4096) with 1 by (apply (Z.mod_unique _ _ n); lia). split_and!; [done|lia|done].
  - replace ((4096 * n + 1 + 2) mod 4096) with 3 by (apply (Z.mod_unique _ _ n); lia). split_and!; [done|lia|done].
Qed.

Lemma pde_flags t : 786432 <= t < 1048576 ->
  Z.land (pde_of t) PTE_P <> 0 /\ ptov (Z.land (pde_of t) PTE_ADDR) = Ret (4096 * t) /\ Z.land (pde_of t) PTE_W <> 0.
Proof.
  intros Ht. destruct (pde_create_ok t Ht) as (_ & Hu & Htab & HP & HA). unfold table_of in Htab. fold (pde_of t) in *. split_and!; [done| |].
  - rewrite ptov_ram; [by rewrite Htab|]. unfold PHYS_BASE, LOADER_PHYS_BASE in *. lia.
  - rewrite land_small by done. unfold pde_of. by replace ((4096 * (t - 786432) + 7) mod 4096) with 7 by (apply (Z.mod_unique _ _ (t - 786432)); lia).
Qed.

Lemma walk_tables s pd T nt k va : tables s pd T nt k -> ptov (cr3 s) = Ret pd -> k <= 262144 -> nt <= 256 -> 0 <= va < 2 ^ 32 ->
  walk s va = Ret (if decide (PHYS_BASE <= va < PHYS_BASE + 4096 * k)
                   then Some (va - PHYS_BASE, negb (in_kernel_text (va - va mod 4096))) else None).
Proof.
  intros [P1 P2 P3 P4 P5 P6 P7 P8 P9] Hcr Hk Hnt Hva. unfold walk. rewrite Hcr. cbn [rbind].
  destruct (kernel_page_mapped s pd P1 P4) as (_ & Hmp & _ & _). rewrite pd_no_div, pt_no_mod.
  rewrite load32_ok by (intros q Hq; apply Hmp; Z.div_mod_to_equations; lia). cbn [rbind].
  change (word (ram (pg s)) (pd + 4 * (va / 4194304))) with (pde_at s pd (va / 4194304)).
  rewrite P5 by (Z.div_mod_to_equations; lia).
  assert (PHYS_BASE = 3221225472) as EPB by done.
  destruct (decide (768 <= va / 4194304 < 768 + nt)) as [Hi|Hi].
  2: { rewrite bool_decide_true by done. rewrite decide_False by (Z.div_mod_to_equations; lia). done. }
  set (n := va / 4096 - 786432).
  assert (Hn : 0 <= n < 1024 * nt /\ n / 1024 = va / 4194304 - 768 /\ (va / 4096) mod 1024 = n mod 1024) by (unfold n; Z.div_mod_to_equations; lia).
  destruct Hn as (Hn & En1 & En2). rewrite <- En1, En2.
  destruct (P6 (n / 1024)) as [Hkp _]; [Z.div_mod_to_equations; lia|].
  destruct (kernel_page_no s _ P1 P3 Hkp) as (t & Et & Ht). assert (t = T (n / 1024)) as -> by lia.
  destruct (pde_flags (T (n / 1024)) Ht) as (HP & Hpt & HW). rewrite bool_decide_false by done. rewrite Hpt. cbn [rbind].
  destruct (kernel_page_mapped s _ P1 Hkp) as (_ & Hmt & _ & _).
  rewrite load32_ok by (intros q Hq; apply Hmt; Z.div_mod_to_equations; lia). cbn [rbind]. rewrite P8 by done.
  assert (Hva' : va = PHYS_BASE + 4096 * n + va mod 4096) by (unfold n; Z.div_mod_to_equations; lia).
  assert (0 <= va mod 4096 < 4096) by (apply Z.mod_pos_bound; lia).
  destruct (decide (n < k)) as [Hlt|Hge].
  - rewrite decide_True by lia.
    destruct (pte_flags n) as (HP' & HA' & HW'); [lia|]. rewrite bool_decide_false by done. rewrite HA', HW', (bool_decide_true (Z.land _ PTE_W <> 0)) by done.
    rewrite pg_ofs_mod. cbn [andb]. do 3 f_equal; [lia|]. do 2 f_equal. lia.
  - rewrite bool_decide_true by done. rewrite decide_False by lia. done.
Qed.

Lemma tables_start s p' t : bytes_ok (ram (pg s)) -> PHYS_BASE <= base (kernel_pool (pg s)) -> same_layout (pg s) p' -> pages_wf p' ->
  pool_page (kernel_pool p') t = true ->
  (forall k, page_used p' k = if in_range t 1 k then true else page_used (pg s) k) -> filled (ram (pg s)) (ram p') (4096 * t) 4096 0 ->
  forall l, tables (mkMmu p' (4096 * t) l (cr3 s) (cr3_loads s)) (4096 * t) (fun _ => 0) 0 0.
Proof.
  intros Hb Hh Hl Hp' Hpp Hu Hf l. constructor; try done; try (intros; lia).
  - intros q b Hq. simpl in Hq. rewrite Hf in Hq. case_decide; [injection Hq as <-; unfold is_u8; lia|by eapply Hb].
  - simpl. destruct (Hl false) as [Hbs _]. simpl in Hbs. by rewrite Hbs.
  - exists t. split_and!; [done|exact Hpp|]. simpl. rewrite Hu. by rewrite (proj2 (in_range_spec t 1 t)) by lia.
  - intros i Hi. rewrite decide_False by lia. unfold pde_at, word, byte_at. simpl. rewrite !Hf. rewrite !decide_True by lia. done.
Qed.
End Boot.

(** C12. [paging_init], given enough free pages for the directory and its tables, fails no
    assertion and leaves page tables through which the processor finds physical address
    [a] behind [PHYS_BASE + a] for every byte of RAM, writable exactly where the page does
    not start in the kernel's code, and no other address; the machine is then in the
    state from which [pagedir_create] makes the directories of processes. *)
Theorem paging_init_maps_ram _start _end_kernel_text s :
  pages_wf (pg s) -> bytes_ok (ram (pg s)) -> PHYS_BASE <= base (kernel_pool (pg s)) -> 0 <= ram_pages s <= 2 ^ 18 ->
  1 + (ram_pages s + 1023) / 1024 <= Z.of_nat (free_pages (pg s)) ->
  exists s', paging_init _start _end_kernel_text s = Ret s' /\ paging s' /\
    cr3_loads s' = cr3_loads s ++ [cr3 s'] /\
    forall va, 0 <= va < 2 ^ 32 ->
      walk s' va = Ret (if decide (PHYS_BASE <= va < PHYS_BASE + 4096 * ram_pages s)
                        then Some (va - PHYS_BASE, negb (in_kernel_text _start _end_kernel_text (va - va mod 4096))) else None).
Proof.
  intros Hp Hb Hh Hr Hroom. unfold paging_init.
  destruct (get_zeroed s Hp Hh) as (t & p' & -> & Ht & Hp' & Hl & Hpp & Hfr & Hu & Hf & Hfc); [Z.div_mod_to_equations; lia|].
  cbn [rbind ram_pages]. set (s1 := mkMmu p' (4096 * t) (ram_pages s) (cr3 s) (cr3_loads s)).
  pose proof (tables_start _start _end_kernel_text s p' t Hb Hh Hl Hp' Hpp Hu Hf (ram_pages s)) as Ht0.
  destruct (for_up_total (fun k st => looping _start _end_kernel_text s1 (4096 * t) (Z.of_nat (free_pages p')) k st)
              (map_page _start _end_kernel_text (4096 * t)) (Z.to_nat (ram_pages s)) 0 (s1, NULL)) as ([s2 pt] & E & HL).
  { constructor; try done. exists (fun _ => 0), 0. split_and!; [exact Ht0|done|lia|cbn; lia]. }
  { intros k st Hk HL. apply map_page_ok; try done; cbn [ram_pages s1]; try lia. }
  rewrite E. cbn [rbind]. destruct HL as [Eb Er El (T & nt & Htab & Ent & _ & _)]. cbn [fst snd] in *. rewrite Eb.
  replace (0 + Z.of_nat (Z.to_nat (ram_pages s))) with (ram_pages s) in Htab, Ent by lia.
  unfold vtop, is_kernel_vaddr. rewrite bool_decide_true by (unfold PHYS_BASE, LOADER_PHYS_BASE; lia). cbn [assert_ rbind].
  rewrite u32_small by (unfold PHYS_BASE, LOADER_PHYS_BASE; lia). eexists. split; [done|]. cbn [cr3 cr3_loads]. rewrite El. split_and!; [|done|].
  - destruct Htab as [P1 P2 P3 P4 P5 P6 P7 P8 P9]. constructor; cbn [pg base_page_dir cr3 ram_pages]; try done.
    + intros i Hi. fold (pde_at s2 (4096 * t) i). rewrite P5, decide_False by lia. done.
    + unfold PHYS_BASE, LOADER_PHYS_BASE. lia.
    + rewrite Er. done.
    + replace (PHYS_BASE + (4096 * t - PHYS_BASE)) with (4096 * t) by lia. done.
  - intros va Hva. eapply (walk_tables _start _end_kernel_text _ (4096 * t) T nt); [by destruct Htab| |lia|Z.div_mod_to_equations; lia|done].
    cbn [cr3]. rewrite ptov_ram by (unfold PHYS_BASE, LOADER_PHYS_BASE; lia). f_equal. lia.
Qed.

Lemma paging_init_maps_ram_witness :
  exists s', paging_init 3221331968 3221340160 demo_mmu = Ret s' /\ paging s' /\
    walk s' (PHYS_BASE + 8192 + 5) = Ret (Some (8197, true)) /\ walk s' (PHYS_BASE + 106496 + 5) = Ret (Some (106501, false)) /\
    walk s' (PHYS_BASE + 4096 * 64) = Ret None.
Proof.
  destruct demo_paging as [D1 D2 D3 _ _ _ D7 _].
  assert (Hf : 1 + (ram_pages demo_mmu + 1023) / 1024 <= Z.of_nat (free_pages (pg demo_mmu))).
  { change (1 + (64 + 1023) / 1024 <= Z.of_nat (free_pages (pg demo_mmu))).
    rewrite demo_left. vm_compute. discriminate. }
  destruct (paging_init_maps_ram 3221331968 3221340160 demo_mmu D1 D2 D3 D7 Hf) as (s' & E & Hp & _ & Hw).
  exists s'. split; [exact E|]. split; [exact Hp|]. rewrite !Hw by (split; [vm_compute; discriminate|reflexivity]).
  split_and!; reflexivity.
Defined.
