(* ===== verification/Segments.v ===== *)
(** * userprog/gdt.c and userprog/tss.c: segments and the kernel stack

    The descriptors are words of 64 bits; the task-state segment is a page of memory.
    [gdt_addr] is the address of the table.  The second half is what the processor reads
    from a descriptor and from the task-state segment ([seg_of], [load_seg],
    [ring0_stack]), and the theorem [segments_ready] says that it finds there what the
    kernel means it to find. *)

From S2P Require Import Prelude Bitmap Vaddr Cstring CstringProof Palloc Pagedir PagedirProof Paging.

(** ** Selectors *)

Definition SEL_NULL : Z := 0x00.
Definition SEL_KCSEG : Z := 0x08.
Definition SEL_KDSEG : Z := 0x10.
Definition SEL_UCSEG : Z := 0x1B.
Definition SEL_UDSEG : Z := 0x23.
Definition SEL_TSS : Z := 0x28.
Definition SEL_CNT : Z := 6.

Inductive seg_class := CLS_SYSTEM | CLS_CODE_DATA.
Inductive seg_granularity := GRAN_BYTE | GRAN_PAGE.
#[export] Instance seg_class_eq_dec : EqDecision seg_class.
Proof. solve_decision. Defined.
Definition class_no (c : seg_class) : Z := match c with CLS_SYSTEM => 0 | CLS_CODE_DATA => 1 end.
Definition gran_no (g : seg_granularity) : Z := match g with GRAN_BYTE => 0 | GRAN_PAGE => 1 end.

(** ** Descriptors *)

Definition make_seg_desc (base limit : Z) (class : seg_class) (type dpl : Z) (granularity : seg_granularity) : res Z :=
  ASSERT bool_decide (limit <= 0xfffff);
  ASSERT (bool_decide (type >= 0) && bool_decide (type <= 15));
  ASSERT (bool_decide (dpl >= 0) && bool_decide (dpl <= 3));
  let e0 := Z.lor (Z.land limit 0xffff) (u32 (Z.shiftl base 16)) in
  let e1 := Z.lor (Z.lor (Z.lor (Z.lor (Z.lor (Z.lor (Z.lor (Z.lor
              (Z.land (Z.shiftr base 16) 0xff)
              (Z.shiftl type 8))
              (Z.shiftl (class_no class) 12))
              (Z.shiftl dpl 13))
              (Z.shiftl 1 15))
              (Z.land limit 0xf0000))
              (Z.shiftl 1 22))
              (Z.shiftl (gran_no granularity) 23))
              (Z.land base 0xff000000) in
  Ret (Z.lor e0 (u64 (Z.shiftl e1 32))).

Definition make_code_desc (dpl : Z) : res Z := make_seg_desc 0 0xfffff CLS_CODE_DATA 10 dpl GRAN_PAGE.
Definition make_data_desc (dpl : Z) : res Z := make_seg_desc 0 0xfffff CLS_CODE_DATA 2 dpl GRAN_PAGE.
Definition make_tss_desc (laddr : Z) : res Z := make_seg_desc laddr 0x67 CLS_SYSTEM 9 0 GRAN_BYTE.
Definition make_gdtr_operand (limit base : Z) : Z := Z.lor limit (u64 (Z.shiftl base 16)).

(** ** State and operations *)

Record segments := mkSegments {
  sg_mmu : mmu;
  tss : Z;
  gdt : list Z;
  gdtr : Z;    (* the last operand of LGDT *)
  tr : Z       (* the last operand of LTR *)
}.

(** Offsets in [struct tss]. *)
Definition ofs_esp0 : Z := 4.
Definition ofs_ss0 : Z := 8.
Definition ofs_bitmap : Z := 102.

Definition store16 (m : mem) (a v : Z) : res mem :=
  let! m := store m a (u8 v) in store m (a + 1) (u8 (v / 256)).

Definition on_ram (s : segments) (f : mem -> res mem) : res segments :=
  let! m := f (ram (pg (sg_mmu s))) in
  Ret (mkSegments (with_pg (sg_mmu s) (with_ram (pg (sg_mmu s)) m)) (tss s) (gdt s) (gdtr s) (tr s)).

(** [current] is what [thread_current] returns. *)
Definition tss_update (current : Z) (s : segments) : res segments :=
  ASSERT bool_decide (tss s <> NULL);
  on_ram s (fun m => store32 m (tss s + ofs_esp0) (u32 (current + PGSIZE))).

Definition tss_init (current : Z) (s : segments) : res segments :=
  let! '(p, t) := palloc_get_page (pg (sg_mmu s)) (Z.lor PAL_ASSERT PAL_ZERO) in
  let s := mkSegments (with_pg (sg_mmu s) p) t (gdt s) (gdtr s) (tr s) in
  let! s := on_ram s (fun m => store16 m (tss s + ofs_ss0) SEL_KDSEG) in
  let! s := on_ram s (fun m => store16 m (tss s + ofs_bitmap) 0xdfff) in
  tss_update current s.

Definition tss_get (s : segments) : res Z :=
  ASSERT bool_decide (tss s <> NULL); Ret (tss s).

Section Gdt.
Context (gdt_addr : Z).

Definition gdt_init (s : segments) : res segments :=
  let! g := aset (gdt s) (SEL_NULL / 8) 0 in
  let! d := make_code_desc 0 in let! g := aset g (SEL_KCSEG / 8) d in
  let! d := make_data_desc 0 in let! g := aset g (SEL_KDSEG / 8) d in
  let! d := make_code_desc 3 in let! g := aset g (SEL_UCSEG / 8) d in
  let! d := make_data_desc 3 in let! g := aset g (SEL_UDSEG / 8) d in
  let! t := tss_get s in
  let! d := make_tss_desc t in let! g := aset g (SEL_TSS / 8) d in
  Ret (mkSegments (sg_mmu s) (tss s) g (make_gdtr_operand (8 * SEL_CNT - 1) gdt_addr) SEL_TSS).

(** ** What the processor reads *)

(** A segment: its first byte, the offset of its last byte, whether it is a code or data
    segment, its type and privilege level. *)
Record seg := mkSeg { sg_base : Z; sg_limit : Z; sg_class : seg_class; sg_type : Z; sg_dpl : Z }.

Definition seg_of (d : Z) : option seg :=
  if bool_decide (bitfield d 47 1 = 0) then None
  else
    let raw := bitfield d 0 16 + 2 ^ 16 * bitfield d 48 4 in
    Some (mkSeg (bitfield d 16 24 + 2 ^ 24 * bitfield d 56 8)
                (if bool_decide (bitfield d 55 1 = 0) then raw else 4096 * raw + 4095)
                (if bool_decide (bitfield d 44 1 = 0) then CLS_SYSTEM else CLS_CODE_DATA)
                (bitfield d 40 4) (bitfield d 45 2)).

(** The segment of a selector, whose upper 13 bits are the index in the table of GDTR. *)
Definition load_seg (s : segments) (sel : Z) : option seg :=
  let idx := sel / 8 in
  if bool_decide (bitfield (gdtr s) 16 32 = gdt_addr) && bool_decide (8 * idx + 7 <= bitfield (gdtr s) 0 16) && bool_decide (idx <> 0)
  then gdt s !! Z.to_nat idx ≫= seg_of else None.

(** The stack of ring 0 in the task-state segment of the task register. *)
Definition ring0_stack (s : segments) : option (Z * Z) :=
  t ← load_seg s (tr s);
  if bool_decide (sg_class t = CLS_SYSTEM) && bool_decide (sg_type t = 9) && bool_decide (ofs_ss0 + 1 <= sg_limit t)
  then let m := ram (pg (sg_mmu s)) in
       Some (byte_at m (sg_base t + ofs_ss0) + 256 * byte_at m (sg_base t + ofs_ss0 + 1), word m (sg_base t + ofs_esp0))
  else None.
End Gdt.

(** ** Descriptors as numbers *)

Lemma make_seg_desc_sum base limit class type dpl g : is_u32 base -> 0 <= limit < 2 ^ 20 -> 0 <= type < 16 -> 0 <= dpl < 4 ->
  make_seg_desc base limit class type dpl g = Ret
    (limit mod 2 ^ 16 + 2 ^ 16 * (base mod 2 ^ 24 + 2 ^ 24 * (type + 2 ^ 4 * (class_no class + 2 ^ 1 * (dpl + 2 ^ 2 *
      (1 + 2 ^ 1 * (limit / 2 ^ 16 + 2 ^ 4 * (4 + 2 ^ 3 * (gran_no g + 2 ^ 1 * (base / 2 ^ 24)))))))))).
Proof.
  intros Hb Hl Ht Hd. unfold is_u32 in Hb. unfold make_seg_desc.
  rewrite bool_decide_true, !bool_decide_true by lia. cbn [assert_ rbind andb]. f_equal.
  change 0xffff with (Z.ones 16). change 0xff with (Z.ones 8).
  rewrite !Z.land_ones, Z.shiftr_div_pow2 by lia.
  change 0xf0000 with (Z.shiftl (Z.ones 4) 16). change 0xff000000 with (Z.shiftl (Z.ones 8) 24).
  rewrite (land_bitfield limit 16 4), (land_bitfield base 24 8) by lia.
  assert (0 <= class_no class < 2) by (destruct class; simpl; lia). assert (0 <= gran_no g < 2) by (destruct g; simpl; lia).
  assert (0 <= base / 2 ^ 24 < 2 ^ 8) by (Z.div_mod_to_equations; lia). assert (0 <= limit / 2 ^ 16 < 2 ^ 4) by (Z.div_mod_to_equations; lia).
  assert (0 <= (base / 2 ^ 16) mod 2 ^ 8 < 2 ^ 8) by (apply Z.mod_pos_bound; lia).
  unfold bitfield. rewrite !Z.land_ones, !Z.shiftr_div_pow2, (Z.mod_small (base / 2 ^ 24)), (Z.mod_small (limit / 2 ^ 16)) by lia.
  rewrite (lor_shift_add _ type 8) by lia. rewrite (lor_shift_add _ (class_no class) 12) by lia. rewrite (lor_shift_add _ dpl 13) by lia.
  rewrite (lor_shift_add _ 1 15) by lia. rewrite (lor_shift_add _ (limit / 2 ^ 16) 16) by lia. rewrite (lor_shift_add _ 1 22) by lia.
  rewrite (lor_shift_add _ (gran_no g) 23) by lia. rewrite (lor_shift_add _ (base / 2 ^ 24) 24) by lia.
  replace (u32 (Z.shiftl base 16)) with (Z.shiftl (base mod 2 ^ 16) 16)
    by (unfold u32; rewrite !Z.shiftl_mul_pow2 by lia; change (2 ^ 32) with (2 ^ 16 * 2 ^ 16); by rewrite Z.mul_mod_distr_r by lia).
  assert (0 <= base mod 2 ^ 16 < 2 ^ 16) by (apply Z.mod_pos_bound; lia). assert (0 <= limit mod 2 ^ 16 < 2 ^ 16) by (apply Z.mod_pos_bound; lia).
  rewrite (lor_shift_add _ (base mod 2 ^ 16) 16) by lia. unfold u64. rewrite (Z.mod_small (Z.shiftl _ 32)) by (rewrite Z.shiftl_mul_pow2; lia).
  rewrite lor_shift_add by lia.
  assert (base mod 2 ^ 24 = base mod 2 ^ 16 + 2 ^ 16 * ((base / 2 ^ 16) mod 2 ^ 8)) as -> by (Z.div_mod_to_equations; lia). lia.
Qed.

Lemma seg_of_make base limit class type dpl g : is_u32 base -> 0 <= limit < 2 ^ 20 -> 0 <= type < 16 -> 0 <= dpl < 4 ->
  exists d, make_seg_desc base limit class type dpl g = Ret d /\ seg_of d = Some (mkSeg base (match g with GRAN_BYTE => limit | GRAN_PAGE => 4096 * limit + 4095 end) class type dpl).
Proof.
  intros Hb Hl Ht Hd. eexists. split; [by apply make_seg_desc_sum|]. unfold is_u32 in Hb.
  assert (0 <= class_no class < 2) by (destruct class; simpl; lia). assert (0 <= gran_no g < 2) by (destruct g; simpl; lia).
  assert (0 <= base / 2 ^ 24 < 2 ^ 8) by (Z.div_mod_to_equations; lia). assert (0 <= limit / 2 ^ 16 < 2 ^ 4) by (Z.div_mod_to_equations; lia).
  assert (0 <= base mod 2 ^ 24 < 2 ^ 24) by (apply Z.mod_pos_bound; lia). assert (0 <= limit mod 2 ^ 16 < 2 ^ 16) by (apply Z.mod_pos_bound; lia).
  set (d := limit mod 2 ^ 16 + _).
  assert (bitfield d 0 16 = limit mod 2 ^ 16 /\ bitfield d 16 24 = base mod 2 ^ 24 /\ bitfield d 40 4 = type /\
          bitfield d 44 1 = class_no class /\ bitfield d 45 2 = dpl) as (E1 & E2 & E3 & E4 & E5) by (unfold d; split_and!; bitfields; done).
  assert (bitfield d 47 1 = 1 /\ bitfield d 48 4 = limit / 2 ^ 16 /\ bitfield d 55 1 = gran_no g /\ bitfield d 56 8 = base / 2 ^ 24)
    as (E6 & E7 & E8 & E9) by (unfold d; split_and!; bitfields; done).
  unfold seg_of. rewrite E1, E2, E3, E4, E5, E6, E7, E8, E9. rewrite bool_decide_false by lia. do 2 f_equal.
  - Z.div_mod_to_equations; lia.
  - destruct g; [rewrite bool_decide_true by done|rewrite bool_decide_false by done]; Z.div_mod_to_equations; lia.
  - by destruct class.
Qed.

(** ** Memory *)

Definition half (m : mem) (a : Z) : Z := byte_at m a + 256 * byte_at m (a + 1).

(** Every byte of [m] and no other is in [m'], and those outside [a, a + n) have not changed. *)
Record kept (m m' : mem) (a n : Z) : Prop := {
  kp_out : forall q, ~ (a <= q < a + n) -> m' !! q = m !! q;
  kp_dom : forall q, is_Some (m' !! q) <-> is_Some (m !! q);
  kp_bytes : bytes_ok m -> bytes_ok m'
}.

Lemma store16_ok m a v : mapped m a 2 -> 0 <= v < 2 ^ 16 ->
  exists m', store16 m a v = Ret m' /\ half m' a = v /\ kept m m' a 2.
Proof.
  intros Hm Hv. unfold store16. rewrite store_insert by (apply Hm; lia). cbn [rbind].
  rewrite store_insert by (rewrite lookup_insert_ne by lia; apply Hm; lia). eexists. split_and!; [done| |split].
  - unfold half. rewrite !byte_at_insert. repeat (case_decide; try lia). unfold u8. Z.div_mod_to_equations; lia.
  - intros q Hq. rewrite !lookup_insert_ne by lia. done.
  - intros q. rewrite !lookup_insert_is_Some. split.
    + intros [<-|[_ [<-|[_ H]]]]; [apply Hm; lia..|done].
    + intros H. destruct (decide (a + 1 = q)); [by left|right; split; [done|]]. destruct (decide (a = q)); [by left|by right].
  - intros Hb q b. rewrite !lookup_insert_Some. pose proof (u8_range v). pose proof (u8_range (v / 256)).
    unfold is_u8. intros [[_ <-]|[_ [[_ <-]|[_ Hq]]]]; try lia. by eapply Hb.
Qed.

Lemma half_kept m m' a n b : kept m m' a n -> b + 2 <= a \/ a + n <= b -> half m' b = half m b.
Proof. intros [H _ _] Hb. unfold half, byte_at. by rewrite !H by lia. Qed.

Lemma word_kept m m' a v : word_set m m' a v -> kept m m' a 4.
Proof. by intros [_ ? ? ?]. Qed.

(** ** The tables in place *)

(** The task-state segment is a page of memory with the selector of the kernel's stack. *)
Record tss_ok (s : segments) : Prop := {
  tk_pages : pages_wf (pg (sg_mmu s));
  tk_bytes : bytes_ok (ram (pg (sg_mmu s)));
  tk_page : kernel_page (sg_mmu s) (tss s);
  tk_addr : PHYS_BASE <= tss s <= 2 ^ 32 - 4096;
  tk_ss0 : half (ram (pg (sg_mmu s))) (tss s + ofs_ss0) = SEL_KDSEG
}.

Lemma on_ram_ok s f m a n : tss_ok s -> f (ram (pg (sg_mmu s))) = Ret m -> kept (ram (pg (sg_mmu s))) m a n ->
  half m (tss s + ofs_ss0) = SEL_KDSEG ->
  exists s', on_ram s f = Ret s' /\ tss_ok s' /\ tss s' = tss s /\ gdt s' = gdt s /\ gdtr s' = gdtr s /\ tr s' = tr s /\ ram (pg (sg_mmu s')) = m.
Proof.
  intros [P1 P2 P3 P4 P5] Hf Hk Hh. unfold on_ram. rewrite Hf. cbn [rbind]. eexists. split_and!; [done| |done..].
  constructor; cbn [sg_mmu tss]; try done.
  - destruct P1 as [K U Ap]. split; simpl; [| |done]; (eapply pool_wf_ram; [eassumption|]; intros q Hq; by apply (kp_dom _ _ _ _ Hk)).
  - by apply (kp_bytes _ _ _ _ Hk).
Qed.

Lemma tss_mapped s : tss_ok s -> mapped (ram (pg (sg_mmu s))) (tss s) 4096.
Proof. intros [P1 _ P3 _ _]. by destruct (kernel_page_mapped _ _ P1 P3) as (_ & Hm & _). Qed.

Lemma tss_update_ok s current : tss_ok s ->
  exists s', tss_update current s = Ret s' /\ tss_ok s' /\ tss s' = tss s /\ gdt s' = gdt s /\ gdtr s' = gdtr s /\ tr s' = tr s /\
    word (ram (pg (sg_mmu s'))) (tss s + ofs_esp0) = u32 (current + PGSIZE).
Proof.
  intros Hs. unfold tss_update. pose proof (tk_addr _ Hs) as Ha. unfold PHYS_BASE, LOADER_PHYS_BASE in Ha.
  rewrite bool_decide_true by (unfold NULL; lia). cbn [assert_ rbind].
  destruct (store32_ok (ram (pg (sg_mmu s))) (tss s + ofs_esp0) (u32 (current + PGSIZE))) as (m & Em & Hws).
  { intros q Hq. apply (tss_mapped s Hs). unfold ofs_esp0 in *. lia. } { apply u32_range. }
  destruct (on_ram_ok s (fun m => store32 m (tss s + ofs_esp0) (u32 (current + PGSIZE))) m (tss s + ofs_esp0) 4)
    as (s' & -> & Hs' & Et & Eg & Er & Etr & Em'); [done..|by eapply word_kept| |].
  { rewrite (half_kept _ _ _ _ _ (word_kept _ _ _ _ Hws)) by (unfold ofs_esp0, ofs_ss0; lia). apply Hs. }
  exists s'. split_and!; try done. rewrite Em'. apply Hws.
Qed.

Lemma tss_init_ok s current : pages_wf (pg (sg_mmu s)) -> bytes_ok (ram (pg (sg_mmu s))) -> PHYS_BASE <= base (kernel_pool (pg (sg_mmu s))) ->
  (0 < free_pages (pg (sg_mmu s)))%nat ->
  exists s', tss_init current s = Ret s' /\ tss_ok s' /\ gdt s' = gdt s /\ gdtr s' = gdtr s /\ tr s' = tr s /\
    word (ram (pg (sg_mmu s'))) (tss s' + ofs_esp0) = u32 (current + PGSIZE).
Proof.
  intros Hp Hb Hh Hf. unfold tss_init.
  destruct (get_zeroed (sg_mmu s) Hp Hh Hf) as (t & p' & -> & Ht & Hp' & Hl & Hpp & _ & Hu & Hfl & _). cbn [rbind].
  set (s1 := mkSegments _ _ _ _ _).
  assert (Hb1 : bytes_ok (ram p')).
  { intros q b Hq. rewrite Hfl in Hq. case_decide; [injection Hq as <-; unfold is_u8; lia|by eapply Hb]. }
  assert (Hk1 : kernel_page (sg_mmu s1) (tss s1)).
  { exists t. split_and!; [done|exact Hpp|]. change (page_used p' t = true). rewrite Hu. by rewrite (proj2 (in_range_spec t 1 t)) by lia. }
  assert (Hm1 : mapped (ram p') (4096 * t) 4096) by (by destruct (kernel_page_mapped _ _ (Hp' : pages_wf (pg (sg_mmu s1))) Hk1) as (_ & Hm & _)).
  destruct (store16_ok (ram p') (4096 * t + ofs_ss0) SEL_KDSEG) as (m2 & E2 & Hh2 & Hk2); [intros q Hq; apply Hm1; unfold ofs_ss0 in *; lia|done|].
  unfold on_ram at 1. cbn [sg_mmu with_pg pg tss s1]. rewrite E2. cbn [rbind]. set (s2 := mkSegments _ _ _ _ _).
  assert (Hs2 : tss_ok s2).
  { constructor; try done.
    - destruct Hp' as [K U Ap]. split; simpl; [| |done]; (eapply pool_wf_ram; [eassumption|]; intros q Hq; by apply (kp_dom _ _ _ _ Hk2)).
    - by apply (kp_bytes _ _ _ _ Hk2).
    - cbn [tss s2]. unfold PHYS_BASE, LOADER_PHYS_BASE. lia. }
  destruct (store16_ok (ram (pg (sg_mmu s2))) (tss s2 + ofs_bitmap) 0xdfff) as (m3 & E3 & _ & Hk3); [intros q Hq; apply (tss_mapped s2 Hs2); unfold ofs_bitmap in *; lia|done|].
  destruct (on_ram_ok s2 (fun m => store16 m (tss s2 + ofs_bitmap) 0xdfff) m3 _ _ Hs2 E3 Hk3) as (s3 & -> & Hs3 & Et3 & Eg3 & Er3 & Etr3 & _).
  { rewrite (half_kept _ _ _ _ _ Hk3) by (unfold ofs_bitmap, ofs_ss0; lia). apply Hs2. }
  cbn [rbind]. destruct (tss_update_ok s3 current Hs3) as (s4 & -> & Hs4 & Et4 & Eg4 & Er4 & Etr4 & Hw).
  exists s4. rewrite Et4, Eg4, Er4, Etr4, Eg3, Er3, Etr3. split_and!; done.
Qed.

(** What the processor finds behind the selectors, and the stack it takes for an
    interrupt in user mode: the end of the page of thread [current]. *)
Record segments_set (gdt_addr : Z) (s : segments) (current : Z) : Prop := {
  ss_null : load_seg gdt_addr s SEL_NULL = None;
  ss_kcode : load_seg gdt_addr s SEL_KCSEG = Some (mkSeg 0 (2 ^ 32 - 1) CLS_CODE_DATA 10 0);
  ss_kdata : load_seg gdt_addr s SEL_KDSEG = Some (mkSeg 0 (2 ^ 32 - 1) CLS_CODE_DATA 2 0);
  ss_ucode : load_seg gdt_addr s SEL_UCSEG = Some (mkSeg 0 (2 ^ 32 - 1) CLS_CODE_DATA 10 3);
  ss_udata : load_seg gdt_addr s SEL_UDSEG = Some (mkSeg 0 (2 ^ 32 - 1) CLS_CODE_DATA 2 3);
  ss_stack : ring0_stack gdt_addr s = Some (SEL_KDSEG, u32 (current + PGSIZE))
}.

Lemma gdtr_fields a : is_u32 a -> bitfield (make_gdtr_operand (8 * SEL_CNT - 1) a) 0 16 = 47 /\ bitfield (make_gdtr_operand (8 * SEL_CNT - 1) a) 16 32 = a.
Proof.
  intros Ha. unfold is_u32 in Ha. unfold make_gdtr_operand, u64.
  rewrite (Z.mod_small (Z.shiftl a 16)) by (rewrite Z.shiftl_mul_pow2; lia).
  change (8 * SEL_CNT - 1) with 47. rewrite lor_shift_add by lia. split; bitfields; done.
Qed.

(** The descriptors of a table [g], from the third on given the first two are skipped. *)
Definition table_ok (g : list Z) (t : Z) : Prop :=
  exists k1 k2 u1 u2 d, g = [0; k1; k2; u1; u2; d] /\
    seg_of k1 = Some (mkSeg 0 (2 ^ 32 - 1) CLS_CODE_DATA 10 0) /\ seg_of k2 = Some (mkSeg 0 (2 ^ 32 - 1) CLS_CODE_DATA 2 0) /\
    seg_of u1 = Some (mkSeg 0 (2 ^ 32 - 1) CLS_CODE_DATA 10 3) /\ seg_of u2 = Some (mkSeg 0 (2 ^ 32 - 1) CLS_CODE_DATA 2 3) /\
    seg_of d = Some (mkSeg t 0x67 CLS_SYSTEM 9 0).

Lemma gdt_init_ok gdt_addr s : tss_ok s -> length (gdt s) = 6%nat ->
  exists g, gdt_init gdt_addr s = Ret (mkSegments (sg_mmu s) (tss s) g (make_gdtr_operand (8 * SEL_CNT - 1) gdt_addr) SEL_TSS) /\ table_ok g (tss s).
Proof.
  intros Hs Hlen. destruct (gdt s) as [|x0 [|x1 [|x2 [|x3 [|x4 [|x5 [|]]]]]]] eqn:Eg; try done. clear Hlen. unfold gdt_init. rewrite Eg.
  pose proof (tk_addr _ Hs) as Ha. unfold PHYS_BASE, LOADER_PHYS_BASE in Ha.
  assert (Hz : is_u32 0) by (unfold is_u32; lia). assert (Ht : is_u32 (tss s)) by (unfold is_u32; lia).
  destruct (seg_of_make 0 0xfffff CLS_CODE_DATA 10 0 GRAN_PAGE) as (k1 & E1 & S1); [done|lia..|].
  destruct (seg_of_make 0 0xfffff CLS_CODE_DATA 2 0 GRAN_PAGE) as (k2 & E2 & S2); [done|lia..|].
  destruct (seg_of_make 0 0xfffff CLS_CODE_DATA 10 3 GRAN_PAGE) as (u1 & E3 & S3); [done|lia..|].
  destruct (seg_of_make 0 0xfffff CLS_CODE_DATA 2 3 GRAN_PAGE) as (u2 & E4 & S4); [done|lia..|].
  destruct (seg_of_make (tss s) 0x67 CLS_SYSTEM 9 0 GRAN_BYTE) as (d & E5 & S5); [done|lia..|].
  unfold make_code_desc, make_data_desc, make_tss_desc, tss_get. rewrite E1, E2, E3, E4, bool_decide_true by (unfold NULL; lia).
  cbn [assert_ rbind]. rewrite E5. exists [0; k1; k2; u1; u2; d]. split; [done|]. exists k1, k2, u1, u2, d. done.
Qed.

Lemma segments_set_ok gdt_addr s current : is_u32 gdt_addr -> tss_ok s -> table_ok (gdt s) (tss s) ->
  gdtr s = make_gdtr_operand (8 * SEL_CNT - 1) gdt_addr -> tr s = SEL_TSS ->
  word (ram (pg (sg_mmu s))) (tss s + ofs_esp0) = u32 (current + PGSIZE) -> segments_set gdt_addr s current.
Proof.
  intros Ha Hs (k1 & k2 & u1 & u2 & d & Eg & S1 & S2 & S3 & S4 & S5) Er Etr Hw. destruct (gdtr_fields gdt_addr Ha) as [F1 F2].
  assert (Hld : forall sel, load_seg gdt_addr s sel = if bool_decide (8 * (sel / 8) + 7 <= 47) && bool_decide (sel / 8 <> 0)
                then [0; k1; k2; u1; u2; d] !! Z.to_nat (sel / 8) ≫= seg_of else None).
  { intros sel. unfold load_seg. rewrite Er, F1, F2, Eg. by rewrite bool_decide_true. }
  constructor; [done|rewrite Hld, !bool_decide_true by done; assumption..|].
  unfold ring0_stack. rewrite Etr, Hld, !bool_decide_true by done. cbn [andb]. change (Z.to_nat (SEL_TSS / 8)) with 5%nat. cbn [lookup list_lookup].
  change (Some d ≫= seg_of) with (seg_of d). rewrite S5. cbn [mbind option_bind sg_class sg_type sg_limit sg_base].
  rewrite !bool_decide_true by done. cbn [andb]. rewrite Hw. do 2 f_equal. apply Hs.
Qed.

(** The two initialisation functions, and every later [tss_update]. *)
Lemma segments_ready gdt_addr s current : is_u32 gdt_addr -> pages_wf (pg (sg_mmu s)) -> bytes_ok (ram (pg (sg_mmu s))) ->
  PHYS_BASE <= base (kernel_pool (pg (sg_mmu s))) -> (0 < free_pages (pg (sg_mmu s)))%nat -> length (gdt s) = 6%nat ->
  exists s', (let! s := tss_init current s in gdt_init gdt_addr s) = Ret s' /\ segments_set gdt_addr s' current /\
    forall current', exists s'', tss_update current' s' = Ret s'' /\ segments_set gdt_addr s'' current'.
Proof.
  intros Ha Hp Hb Hh Hf Hg. destruct (tss_init_ok s current Hp Hb Hh Hf) as (s1 & -> & Hs1 & Eg & _ & _ & Hw). cbn [rbind].
  destruct (gdt_init_ok gdt_addr s1 Hs1) as (g & -> & Ht); [by rewrite Eg|]. set (s2 := mkSegments _ _ _ _ _). exists s2. split; [reflexivity|].
  assert (Hs2 : tss_ok s2) by (by destruct Hs1; constructor).
  split; [by apply segments_set_ok|]. intros current'.
  destruct (tss_update_ok s2 current' Hs2) as (s3 & -> & Hs3 & Et & Eg3 & Er & Etr & Hw3). exists s3. split; [reflexivity|].
  apply segments_set_ok; rewrite ?Et, ?Eg3, ?Er, ?Etr; done.
Qed.
