(* ===== verification/Cache.v ===== *)
(** * filesys/cache.c: the buffer cache

    The disk is a map from sector numbers to their 512 bytes.  The list of cached
    sectors is in the order of the code, least recently used first; [find_cache] and
    [make_cache] return the entry at its back.  [junk] is what a freshly allocated
    buffer holds.  The two locks say whether a background thread left them held: a
    call that waits for such a lock does not return ([NoFuel]). *)

From S2P Require Import Prelude.

(** ** Operations *)

Definition DISK_SECTOR_SIZE : Z := 512.
Definition CACHE_MAX_SECTOR_NO : Z := 64.

Record cache := mkCache { buffer : list Z; sector_idx : Z; dirty : bool; open_cnt : Z }.

Record cached_disk := mkDisk {
  disk : gmap Z (list Z);
  cache_list : list cache;
  read_ahead_list : list Z;
  cache_lock : bool;
  read_ahead_lock : bool
}.

Definition with_disk (c : cached_disk) (d : gmap Z (list Z)) : cached_disk :=
  mkDisk d (cache_list c) (read_ahead_list c) (cache_lock c) (read_ahead_lock c).
Definition with_list (c : cached_disk) (l : list cache) : cached_disk :=
  mkDisk (disk c) l (read_ahead_list c) (cache_lock c) (read_ahead_lock c).

Definition with_buffer (e : cache) (b : list Z) : cache := mkCache b (sector_idx e) (dirty e) (open_cnt e).
Definition with_dirty (e : cache) (d : bool) : cache := mkCache (buffer e) (sector_idx e) d (open_cnt e).
Definition with_open (e : cache) (n : Z) : cache := mkCache (buffer e) (sector_idx e) (dirty e) n.

(** A sector outside the disk fails the assertion of [select_sector]. *)
Definition disk_read (c : cached_disk) (s : Z) : res (list Z) :=
  match disk c !! s with Some b => Ret b | None => Panic end.
Definition disk_write (c : cached_disk) (s : Z) (b : list Z) : res cached_disk :=
  match disk c !! s with Some _ => Ret (with_disk c (<[s := b]> (disk c))) | None => Panic end.

Definition cache_init (c : cached_disk) : cached_disk := mkDisk (disk c) [] [] false false.

(** The entry that was found or made last. *)
Definition back (c : cached_disk) : res cache := of_opt (last (cache_list c)).
Definition set_back (c : cached_disk) (e : cache) : cached_disk :=
  with_list c (take (length (cache_list c) - 1) (cache_list c) ++ [e]).

Definition find_cache (c : cached_disk) (sec_no : Z) : cached_disk * bool :=
  match list_find (fun e => sector_idx e = sec_no) (cache_list c) with
  | Some (i, e) => (with_list c (delete i (cache_list c) ++ [e]), true)
  | None => (c, false)
  end.

Definition write_behind (c : cached_disk) (e : cache) : res (cached_disk * cache) :=
  if dirty e then
    let! c := disk_write c (sector_idx e) (buffer e) in
    Ret (c, with_dirty e false)
  else Ret (c, e).

Definition evict_cache (c : cached_disk) : res cached_disk :=
  match cache_list c with
  | [] => Ub
  | e :: rest =>
      let! '(c, _) := write_behind c e in
      Ret (with_list c rest)
  end.

(** Copies between a buffer of one sector and the caller's memory. *)
Definition bytes_out (b : list Z) (ofs size : Z) : res (list Z) :=
  if bool_decide (0 <= ofs /\ 0 <= size /\ ofs + size <= Z.of_nat (length b))
  then Ret (take (Z.to_nat size) (drop (Z.to_nat ofs) b)) else Ub.
(** [b] with [data] written at [ofs]. *)
Definition overwrite (b : list Z) (ofs : Z) (data : list Z) : list Z :=
  take (Z.to_nat ofs) b ++ data ++ drop (Z.to_nat ofs + length data) b.
Definition bytes_in (b : list Z) (ofs : Z) (data : list Z) (size : Z) : res (list Z) :=
  if bool_decide (0 <= ofs /\ 0 <= size <= Z.of_nat (length data) /\ ofs + size <= Z.of_nat (length b))
  then Ret (overwrite b ofs (take (Z.to_nat size) data)) else Ub.

Section Cache.
Context (junk : list Z).

Definition make_cache (c : cached_disk) (sec_no : Z) (d : bool) : res cached_disk :=
  let! c := (if bool_decide (Z.of_nat (length (cache_list c)) >= CACHE_MAX_SECTOR_NO) then evict_cache c else Ret c) in
  Ret (with_list c (cache_list c ++ [mkCache junk sec_no d 0])).

Definition cache_read (c : cached_disk) (sec_no sector_offset size : Z) : res (cached_disk * list Z) :=
  if cache_lock c then NoFuel
  else
    let '(c, found) := find_cache c sec_no in
    let! c := (if found then Ret c
               else let! c := make_cache c sec_no false in
                    let! b := disk_read c sec_no in
                    let! e := back c in Ret (set_back c (with_buffer e b))) in
    let! e := back c in
    let e := with_open e (open_cnt e + 1) in
    let! data := bytes_out (buffer e) sector_offset size in
    Ret (set_back c e, data).

Definition cache_write (c : cached_disk) (sec_no : Z) (write_buffer : list Z) (sector_offset size : Z) : res cached_disk :=
  if cache_lock c then NoFuel
  else
    let '(c, found) := find_cache c sec_no in
    let! c := (if found then Ret c
               else let! c := make_cache c sec_no true in
                    if bool_decide (sector_offset > 0) || bool_decide (size < DISK_SECTOR_SIZE) then
                      let! b := disk_read c sec_no in
                      let! e := back c in Ret (set_back c (with_buffer e b))
                    else Ret c) in
    let! e := back c in
    let e := with_dirty e true in
    let! b := bytes_in (buffer e) sector_offset write_buffer size in
    Ret (set_back c (with_open (with_buffer e b) (open_cnt e + 1))).

(** [write_behind] on every entry, from the front. *)
Fixpoint write_all (c : cached_disk) (l : list cache) : res (cached_disk * list cache) :=
  match l with
  | [] => Ret (c, [])
  | e :: l =>
      let! '(c, e) := write_behind c e in
      let! '(c, l) := write_all c l in
      Ret (c, e :: l)
  end.

(** One round of the loop of [thread_function_wb_frequently]; the lock is released only
    after the loop, which never ends, so the thread finds itself holding it in the next
    round. *)
Definition wb_round (c : cached_disk) : res cached_disk :=
  ASSERT negb (cache_lock c);
  let! '(c, l) := write_all c (cache_list c) in
  Ret (mkDisk (disk c) l (read_ahead_list c) true (read_ahead_lock c)).

Definition destroy_cache_list (c : cached_disk) : res cached_disk :=
  if cache_lock c then NoFuel
  else
    iter (S (length (cache_list c)))
      (fun c => match cache_list c with
                | [] => Ret (inr c)
                | e :: rest => let! '(c, _) := write_behind c e in Ret (inl (with_list c rest))
                end) c.

Definition cache_read_ahead (c : cached_disk) (ahead_sec : Z) : res cached_disk :=
  let '(c, found) := find_cache c ahead_sec in
  if found then Ret c
  else if read_ahead_lock c then NoFuel
  else Ret (mkDisk (disk c) (cache_list c) (read_ahead_list c ++ [ahead_sec]) (cache_lock c) (read_ahead_lock c)).

(** [read_ahead_manager] from where [cond_wait] returns, holding the lock, to its
    [return], which keeps it. *)
Definition read_ahead_manager (c : cached_disk) : res cached_disk :=
  match read_ahead_list c with
  | [] => Ub
  | ra_sec :: rest =>
      let '(c, found) := find_cache c ra_sec in
      let c := mkDisk (disk c) (cache_list c) rest (cache_lock c) true in
      if found then Ret c
      else if cache_lock c then NoFuel
      else
        let! c := make_cache c ra_sec false in
        let! b := disk_read c ra_sec in
        let! e := back c in
        Ret (set_back c (with_open (with_buffer e b) 1))
  end.
End Cache.

(** ** The cached disk as a disk *)

Definition lookup_cache (l : list cache) (s : Z) : option cache := snd <$> list_find (fun e => sector_idx e = s) l.

(** What a reader of sector [s] sees. *)
Definition contents (c : cached_disk) (s : Z) : option (list Z) :=
  match lookup_cache (cache_list c) s with Some e => Some (buffer e) | None => disk c !! s end.

Record entry_ok (d : gmap Z (list Z)) (e : cache) : Prop := {
  eo_len : length (buffer e) = 512%nat;
  eo_sector : is_Some (d !! sector_idx e);
  eo_clean : dirty e = false -> d !! sector_idx e = Some (buffer e)
}.

Record cache_ok (c : cached_disk) : Prop := {
  co_len : (length (cache_list c) <= 64)%nat;
  co_nodup : NoDup (sector_idx <$> cache_list c);
  co_entry : Forall (entry_ok (disk c)) (cache_list c);
  co_disk : map_Forall (fun _ b => length b = 512%nat) (disk c)
}.
