(* ===== verification/CacheProof.v ===== *)
(** * The buffer cache implements the disk it caches *)

From S2P Require Import Prelude Cache.

(** ** Lookup in a list of entries of different sectors *)

Lemma lookup_cache_Some l s e : NoDup (sector_idx <$> l) -> lookup_cache l s = Some e <-> e ∈ l /\ sector_idx e = s.
Proof.
  intros Hn. unfold lookup_cache. split.
  - intros ([i e'] & H & ->)%fmap_Some. apply list_find_Some in H as (Hi & Hs & _). split; [by eapply list_elem_of_lookup_2|done].
  - intros [(i & Hi)%list_elem_of_lookup_1 Hs]. destruct (list_find _ l) as [[j e']|] eqn:E; simpl.
    + apply list_find_Some in E as (Hj & Hs' & _). f_equal. assert (i = j) as ->; [|congruence].
      apply (NoDup_lookup (sector_idx <$> l) _ _ s Hn); rewrite list_lookup_fmap; [by rewrite Hi, <- Hs|by rewrite Hj, <- Hs'].
    + apply list_find_None in E. rewrite Forall_lookup in E. by destruct (E _ _ Hi).
Qed.

Lemma lookup_cache_None l s : lookup_cache l s = None <-> s ∉ sector_idx <$> l.
Proof.
  unfold lookup_cache. rewrite fmap_None, list_find_None, Forall_forall, list_elem_of_fmap. split.
  - intros H (e & -> & He). by apply (H e).
  - intros H e He Hs. apply H. by exists e.
Qed.

Lemma lookup_cache_perm l l' s : l ≡ₚ l' -> NoDup (sector_idx <$> l) -> lookup_cache l' s = lookup_cache l s.
Proof.
  intros Hp Hn. assert (Hn' : NoDup (sector_idx <$> l')) by (by rewrite <- Hp).
  apply option_eq. intros e. rewrite !lookup_cache_Some by done. by rewrite Hp.
Qed.

Lemma lookup_cache_app l e s : NoDup (sector_idx <$> (l ++ [e])) ->
  lookup_cache (l ++ [e]) s = if decide (s = sector_idx e) then Some e else lookup_cache l s.
Proof.
  intros Hn. assert (Hl : NoDup (sector_idx <$> l)) by (rewrite fmap_app in Hn; by apply NoDup_app in Hn as [? _]).
  apply option_eq. intros e'. rewrite lookup_cache_Some by done. destruct (decide (s = sector_idx e)) as [->|Hne].
  - split; [|intros [= <-]; set_solver]. intros [Hin Hs]. f_equal. apply elem_of_app in Hin as [Hin|Hin]; [|set_solver].
    exfalso. rewrite fmap_app in Hn. apply NoDup_app in Hn as (_ & Hd & _). apply (Hd (sector_idx e)); [rewrite <- Hs; by apply list_elem_of_fmap_2|].
    simpl. set_solver.
  - rewrite lookup_cache_Some by done. set_solver.
Qed.

(** ** Pieces of the list *)

(** The entries of [l] over disk [d], with room for an entry of sector [s]. *)
Record room_for (d : gmap Z (list Z)) (l : list cache) (s : Z) : Prop := {
  rf_len : (length l <= 63)%nat;
  rf_nodup : NoDup (sector_idx <$> l);
  rf_new : s ∉ sector_idx <$> l;
  rf_entry : Forall (entry_ok d) l;
  rf_disk : map_Forall (fun _ b => length b = 512%nat) d
}.

Lemma room_add c l e : room_for (disk c) l (sector_idx e) -> entry_ok (disk c) e -> cache_list c = l ++ [e] ->
  cache_ok c /\ forall s, contents c s = if decide (s = sector_idx e) then Some (buffer e)
    else match lookup_cache l s with Some e => Some (buffer e) | None => disk c !! s end.
Proof.
  intros [Hl Hn Hs He Hd] Hoe El. assert (Hnd : NoDup (sector_idx <$> (l ++ [e]))).
  { rewrite fmap_app. simpl. apply NoDup_app. split_and!; [done| |apply NoDup_singleton]. set_solver. }
  split.
  - split; rewrite ?El; [rewrite length_app; simpl; lia|done|by apply Forall_app_2; [|apply Forall_singleton]|done].
  - intros s. unfold contents. rewrite El, lookup_cache_app by done. by destruct (decide (s = sector_idx e)).
Qed.

Lemma back_app c l e : cache_list c = l ++ [e] -> back c = Ret e.
Proof. intros E. unfold back. by rewrite E, last_snoc. Qed.

Lemma set_back_app c l e e' : cache_list c = l ++ [e] -> cache_list (set_back c e') = l ++ [e'] /\ disk (set_back c e') = disk c.
Proof.
  intros E. unfold set_back; simpl. rewrite E, length_app. simpl. replace (length l + 1 - 1)%nat with (length l) by lia.
  by rewrite take_app_length.
Qed.

Lemma cache_ok_app c l e : cache_ok c -> cache_list c = l ++ [e] -> room_for (disk c) l (sector_idx e) /\ entry_ok (disk c) e.
Proof.
  intros [Hl Hn He Hd] E. rewrite E in *. rewrite length_app in Hl. simpl in Hl. rewrite fmap_app in Hn.
  apply NoDup_app in Hn as (Hn & Hx & _). apply Forall_app in He as [He1 He2]. rewrite Forall_singleton in He2.
  split; [|done]. split; [lia|done| |done|done]. intros Hin. apply (Hx _ Hin). simpl. set_solver.
Qed.

(** Changing the entry at the back. *)
Lemma set_back_ok c l e e' : cache_ok c -> cache_list c = l ++ [e] -> sector_idx e' = sector_idx e -> entry_ok (disk c) e' ->
  cache_ok (set_back c e') /\
  forall s, contents (set_back c e') s = if decide (s = sector_idx e) then Some (buffer e') else contents c s.
Proof.
  intros Hok E Hs He'. destruct (cache_ok_app c l e Hok E) as [Hr He]. destruct (set_back_app c l e e' E) as [E' Ed].
  destruct (room_add (set_back c e') l e') as [H1 H2]; [by rewrite Ed, Hs|by rewrite Ed|done|]. split; [done|].
  destruct (room_add c l e Hr He E) as [_ H3]. intros s. rewrite H2, H3, Hs, Ed. by destruct (decide (s = sector_idx e)).
Qed.

(** ** The operations *)

Lemma find_cache_ok c s : cache_ok c ->
  match find_cache c s with
  | (c', true) => exists l e, cache_list c' = l ++ [e] /\ sector_idx e = s /\ cache_ok c' /\ c' = with_list c (l ++ [e]) /\
      forall s', contents c' s' = contents c s'
  | (c', false) => c' = c /\ lookup_cache (cache_list c) s = None
  end.
Proof.
  intros Hok. unfold find_cache. destruct (list_find _ (cache_list c)) as [[i e]|] eqn:E.
  - apply list_find_Some in E as (Hi & Hs & _). pose proof Hok as [Hl Hn He Hd].
    assert (Hp : cache_list c ≡ₚ delete i (cache_list c) ++ [e]).
    { rewrite <- Permutation_cons_append. by apply delete_Permutation. }
    eexists _, e. split; [done|]. split; [done|]. split; [|split; [done|]].
    + split; simpl; [by rewrite <- Hp|by rewrite <- Hp|by rewrite <- Hp|done].
    + intros s'. unfold contents; simpl. by rewrite (lookup_cache_perm (cache_list c)) by done.
  - split; [done|]. unfold lookup_cache. by rewrite E.
Qed.

Lemma write_behind_ok c e : entry_ok (disk c) e ->
  exists d', write_behind c e = Ret (with_disk c d', with_dirty e false) /\ d' !! sector_idx e = Some (buffer e) /\
    (forall s, s <> sector_idx e -> d' !! s = disk c !! s).
Proof.
  intros [Hl [b Hb] Hc]. unfold write_behind, disk_write. destruct (dirty e) eqn:Ed.
  - rewrite Hb. cbn [rbind]. eexists; split; [done|]. split; [by rewrite lookup_insert_eq|]. intros s Hs. by rewrite lookup_insert_ne.
  - exists (disk c). split; [|split; [by apply Hc|done]]. destruct c, e; simpl in *. by subst.
Qed.

(** Entries stay good when the disk takes the value of another sector. *)
Lemma entry_ok_disk d d' e s b : entry_ok d e -> sector_idx e <> s -> d' !! s = Some b ->
  (forall s', s' <> s -> d' !! s' = d !! s') -> entry_ok d' e.
Proof. intros [H1 H2 H3] Hne Hs Ho. split; [done|by rewrite Ho|by rewrite Ho]. Qed.

Lemma evict_ok c e rest : cache_ok c -> cache_list c = e :: rest ->
  exists d', evict_cache c = Ret (mkDisk d' rest (read_ahead_list c) (cache_lock c) (read_ahead_lock c)) /\
    cache_ok (mkDisk d' rest (read_ahead_list c) (cache_lock c) (read_ahead_lock c)) /\
    (forall s, contents (mkDisk d' rest (read_ahead_list c) (cache_lock c) (read_ahead_lock c)) s = contents c s) /\
    (forall s, is_Some (d' !! s) <-> is_Some (disk c !! s)).
Proof.
  intros [Hl Hn He Hd] E. rewrite E in *. simpl in Hl. apply NoDup_cons in Hn as [Hne Hn]. apply Forall_cons in He as [He Hr].
  destruct (write_behind_ok c e He) as (d' & Ew & Hs & Ho). unfold evict_cache. rewrite E, Ew. cbn [rbind]. exists d'. split; [done|].
  destruct He as [He1 He2 He3]. split_and!.
  - split; simpl; [lia|done| |].
    + rewrite Forall_forall in Hr |- *. intros e' He'. eapply entry_ok_disk; [by apply Hr| |exact Hs|done].
      intros Heq. apply Hne. rewrite <- Heq. by apply list_elem_of_fmap_2.
    + intros s b Hb. destruct (decide (s = sector_idx e)) as [->|]; [by rewrite Hs in Hb; injection Hb as <-|].
      rewrite Ho in Hb by done. by apply (Hd s).
  - intros s. unfold contents, lookup_cache; simpl. rewrite E. simpl. destruct (decide (sector_idx e = s)) as [<-|Hns].
    + assert (Hnone : lookup_cache rest (sector_idx e) = None) by (by apply lookup_cache_None). unfold lookup_cache in Hnone.
      rewrite Hnone. simpl. done.
    + rewrite Ho by done. by destruct (list_find _ rest) as [[? ?]|].
  - intros s. destruct (decide (s = sector_idx e)) as [->|]; [rewrite Hs; by split|by rewrite Ho].
Qed.

Section Ops.
Context (junk : list Z).

(** A new entry at the back. *)
Lemma make_cache_ok c s d : cache_ok c -> lookup_cache (cache_list c) s = None ->
  exists c' l, make_cache junk c s d = Ret c' /\ cache_list c' = l ++ [mkCache junk s d 0] /\ room_for (disk c') l s /\
    cache_lock c' = cache_lock c /\ read_ahead_lock c' = read_ahead_lock c /\ read_ahead_list c' = read_ahead_list c /\
    disk c' !! s = disk c !! s /\ (forall s', is_Some (disk c' !! s') <-> is_Some (disk c !! s')) /\
    forall s', match lookup_cache l s' with Some e => Some (buffer e) | None => disk c' !! s' end = contents c s'.
Proof.
  intros Hok Hnone. unfold make_cache, CACHE_MAX_SECTOR_NO. pose proof Hok as [Hl Hn He Hd]. case_bool_decide as Hfull.
  - destruct (cache_list c) as [|e rest] eqn:E; [simpl in *; lia|].
    destruct (evict_ok c e rest Hok E) as (d' & -> & [Hl' Hn' He' Hd'] & Hv & Hdom). cbn [rbind]. simpl in *.
    eexists _, rest. split; [done|]. split; [done|].
    assert (Hs : s ∉ sector_idx <$> rest).
    { apply lookup_cache_None in Hnone. set_solver. }
    assert (Hds : d' !! s = disk c !! s).
    { pose proof (Hv s) as Hvs. unfold contents in Hvs. simpl in Hvs. rewrite (proj2 (lookup_cache_None rest s) Hs) in Hvs.
      rewrite Hvs. by rewrite E, Hnone. }
    split_and!; try done. split; simpl; [lia|done|done|done|done].
  - cbn [rbind]. eexists _, (cache_list c). split; [done|]. split; [done|]. split_and!; try done.
    split; simpl; [lia|done|by apply lookup_cache_None|done|done].
Qed.

(** The state after the sector has been found or read from disk. *)
Definition loaded (c c' : cached_disk) (s : Z) (b : list Z) : Prop :=
  exists l e, cache_list c' = l ++ [e] /\ sector_idx e = s /\ buffer e = b /\ cache_ok c' /\
    cache_lock c' = cache_lock c /\ read_ahead_lock c' = read_ahead_lock c /\ read_ahead_list c' = read_ahead_list c /\
    (forall s', contents c' s' = contents c s') /\ (forall s', is_Some (disk c' !! s') <-> is_Some (disk c !! s')).

Lemma contents_uncached c s : lookup_cache (cache_list c) s = None -> contents c s = disk c !! s.
Proof. intros H. unfold contents. by rewrite H. Qed.

Lemma contents_length c s b : cache_ok c -> contents c s = Some b -> length b = 512%nat.
Proof.
  intros [_ Hn He Hd]. unfold contents. destruct (lookup_cache (cache_list c) s) as [e|] eqn:E; [|by apply Hd].
  intros [= <-]. apply lookup_cache_Some in E as [E _]; [|done]. rewrite Forall_forall in He. by apply (He e E).
Qed.

Lemma contents_valid c s : cache_ok c -> is_Some (contents c s) <-> is_Some (disk c !! s).
Proof.
  intros [_ Hn He Hd]. unfold contents. destruct (lookup_cache (cache_list c) s) as [e|] eqn:E; [|done].
  apply lookup_cache_Some in E as [E <-]; [|done]. rewrite Forall_forall in He. split; [intros _; by apply (He e E)|eauto].
Qed.

(** Reading a sector into a new entry. *)
Lemma fetch_with f c s b d : (forall e, sector_idx (f e) = sector_idx e /\ buffer (f e) = buffer e /\ dirty (f e) = dirty e) ->
  cache_ok c -> lookup_cache (cache_list c) s = None -> contents c s = Some b ->
  exists c', (let! c := make_cache junk c s d in let! b := disk_read c s in let! e := back c in Ret (set_back c (f (with_buffer e b)))) = Ret c' /\
    loaded c c' s b.
Proof.
  intros Hf Hok Hnone Hb. pose proof (contents_length c s b Hok Hb) as Hlen.
  destruct (make_cache_ok c s d Hok Hnone) as (c1 & l & -> & El & Hroom & E1 & E2 & E3 & Eds & Hdom & Hv). cbn [rbind].
  assert (Hdb : disk c1 !! s = Some b) by (rewrite Eds; by rewrite contents_uncached in Hb). unfold disk_read. rewrite Hdb. cbn [rbind].
  rewrite (back_app c1 l _ El). cbn [rbind]. eexists; split; [done|].
  set (e := f (with_buffer _ b)).
  destruct (Hf (with_buffer (mkCache junk s d 0) b)) as (F1 & F2 & F3). fold e in F1, F2, F3. simpl in F1, F2, F3. destruct (set_back_app c1 l _ e El) as [El' Ed'].
  destruct (room_add (set_back c1 e) l e) as [Hok' Hv']; [by rewrite Ed', F1| |done|].
  { split; rewrite ?Ed', ?F1, ?F2; [done|eauto|done]. }
  exists l, e. split_and!; try done. intros s'. rewrite Hv', Ed', Hv, F1, F2. by destruct (decide (s' = s)) as [->|].
Qed.

Lemma fetch_ok c s b d : cache_ok c -> lookup_cache (cache_list c) s = None -> contents c s = Some b ->
  exists c', (let! c := make_cache junk c s d in let! b := disk_read c s in let! e := back c in Ret (set_back c (with_buffer e b))) = Ret c' /\
    loaded c c' s b.
Proof. by apply (fetch_with (fun e => e)). Qed.

(** The first half of [cache_read]. *)
Lemma load_ok c s b : cache_ok c -> contents c s = Some b ->
  exists c', (let '(c, found) := find_cache c s in
              if found then Ret c
              else let! c := make_cache junk c s false in let! b := disk_read c s in let! e := back c in Ret (set_back c (with_buffer e b))) = Ret c' /\
    loaded c c' s b.
Proof.
  intros Hok Hb. pose proof (find_cache_ok c s Hok) as Hf. destruct (find_cache c s) as [c1 []].
  - destruct Hf as (l & e & El & Hs & Hok1 & -> & Hv). eexists; split; [done|]. exists l, e. split_and!; try done.
    destruct (cache_ok_app _ l e Hok1 El) as [Hr He]. destruct (room_add _ l e Hr He El) as [_ Hv'].
    specialize (Hv' s). rewrite Hv, Hb, <- Hs, decide_True in Hv' by done. by injection Hv'.
  - destruct Hf as [-> Hnone]. by apply fetch_ok.
Qed.

(** [c'] is the same disk as [c] except that sector [s] holds [b]. *)
Record stored (c c' : cached_disk) (v : Z -> option (list Z)) : Prop := {
  st_ok : cache_ok c';
  st_lock : cache_lock c' = cache_lock c;
  st_ra : read_ahead_lock c' = read_ahead_lock c;
  st_view : forall s, contents c' s = v s
}.

Lemma stored_refl c : cache_ok c -> stored c c (contents c).
Proof. by split. Qed.

Lemma stored_trans c1 c2 c3 v : stored c1 c2 (contents c1) -> stored c2 c3 v -> stored c1 c3 v.
Proof. intros [] []. split; congruence. Qed.

Lemma stored_ext c c' v w : (forall s, v s = w s) -> stored c c' v -> stored c c' w.
Proof. intros E []. split; [done..|]. intros s. by rewrite <- E. Qed.

Lemma find_cache_stored c s : cache_ok c -> stored c (find_cache c s).1 (contents c).
Proof.
  intros Hok. pose proof (find_cache_ok c s Hok) as Hf. destruct (find_cache c s) as [c1 []]; simpl.
  - destruct Hf as (l & e & _ & _ & Hok1 & -> & Hv). by split.
  - destruct Hf as [-> _]. by apply stored_refl.
Qed.

Lemma find_cache_true c s : cache_ok c -> lookup_cache (cache_list c) s <> None ->
  exists c' l e, find_cache c s = (c', true) /\ cache_list c' = l ++ [e] /\ sector_idx e = s /\ stored c c' (contents c).
Proof.
  intros Hok Hs. pose proof (find_cache_ok c s Hok) as Hf. destruct (find_cache c s) as [c1 []]; [|by destruct Hf].
  destruct Hf as (l & e & El & Es & Hok1 & E & Hv). exists c1, l, e. split_and!; try done. subst c1. by split.
Qed.

Lemma bytes_out_ok b ofs size : 0 <= ofs -> 0 <= size -> ofs + size <= Z.of_nat (length b) ->
  bytes_out b ofs size = Ret (take (Z.to_nat size) (drop (Z.to_nat ofs) b)).
Proof. intros. unfold bytes_out. by rewrite bool_decide_eq_true_2 by lia. Qed.

Lemma overwrite_length b ofs data : 0 <= ofs -> ofs + Z.of_nat (length data) <= Z.of_nat (length b) ->
  length (overwrite b ofs data) = length b.
Proof. intros. unfold overwrite. rewrite !length_app, length_take, length_drop. lia. Qed.

Lemma bytes_in_ok b ofs data size : 0 <= ofs -> 0 <= size <= Z.of_nat (length data) -> ofs + size <= Z.of_nat (length b) ->
  bytes_in b ofs data size = Ret (overwrite b ofs (take (Z.to_nat size) data)) /\
  length (overwrite b ofs (take (Z.to_nat size) data)) = length b.
Proof.
  intros. unfold bytes_in. rewrite bool_decide_eq_true_2 by lia. split; [done|]. rewrite overwrite_length; rewrite ?length_take; lia.
Qed.

Lemma cached_back c l e : cache_ok c -> cache_list c = l ++ [e] -> lookup_cache (cache_list c) (sector_idx e) <> None.
Proof.
  intros [_ Hn _ _] E. rewrite E in *. rewrite lookup_cache_app by done. by rewrite decide_True.
Qed.

Lemma cache_read_ok c s b ofs size : cache_ok c -> cache_lock c = false -> contents c s = Some b ->
  0 <= ofs -> 0 <= size -> ofs + size <= 512 ->
  exists c', cache_read junk c s ofs size = Ret (c', take (Z.to_nat size) (drop (Z.to_nat ofs) b)) /\
    stored c c' (contents c) /\ lookup_cache (cache_list c') s <> None /\ read_ahead_list c' = read_ahead_list c.
Proof.
  intros Hok Hlk Hb Ho Hsz Hle. pose proof (contents_length c s b Hok Hb) as Hlen. unfold cache_read. rewrite Hlk.
  destruct (load_ok c s b Hok Hb) as (c1 & E & l & e & El & Hs & Hbuf & Hok1 & K1 & K2 & K3 & Hv & _).
  destruct (find_cache c s) as [c0 found]. rewrite E. cbn [rbind]. rewrite (back_app c1 l e El). cbn [rbind buffer with_open].
  rewrite Hbuf, bytes_out_ok by lia. cbn [rbind]. set (e' := with_open e _).
  destruct (cache_ok_app c1 l e Hok1 El) as [_ [H1 H2 H3]].
  destruct (set_back_ok c1 l e e' Hok1 El) as [Hok2 Hv2]; [done|by split|].
  eexists; split; [done|]. split; [|split; [|exact K3]].
  - split; [done|exact K1|exact K2|]. intros s'. rewrite Hv2, <- Hv. simpl. rewrite Hbuf, Hs.
    destruct (decide (s' = s)) as [->|]; [by rewrite Hv, Hb|done].
  - destruct (set_back_app c1 l e e' El) as [El' _]. rewrite <- Hs. by apply (cached_back _ l e' Hok2).
Qed.

Lemma overwrite_all b b' data : length b = length data -> length b' = length data -> overwrite b 0 data = overwrite b' 0 data.
Proof. intros H H'. unfold overwrite. by rewrite !drop_ge by lia. Qed.

Lemma cache_write_ok c s b ofs buf size : length junk = 512%nat -> cache_ok c -> cache_lock c = false -> contents c s = Some b ->
  0 <= ofs -> 0 <= size <= Z.of_nat (length buf) -> ofs + size <= 512 ->
  exists c', cache_write junk c s buf ofs size = Ret c' /\
    stored c c' (fun s' => if decide (s' = s) then Some (overwrite b ofs (take (Z.to_nat size) buf)) else contents c s') /\
    lookup_cache (cache_list c') s <> None /\ read_ahead_list c' = read_ahead_list c.
Proof.
  intros Hj Hok Hlk Hb Ho Hsz Hle. set (data := take (Z.to_nat size) buf).
  assert (Hdl : Z.of_nat (length data) = size) by (unfold data; rewrite length_take; lia). pose proof (contents_length c s b Hok Hb) as Hlen. unfold cache_write. rewrite Hlk.
  assert (Hfin : forall c1 l e, cache_list c1 = l ++ [e] -> sector_idx e = s -> length (buffer e) = 512%nat ->
    overwrite (buffer e) ofs data = overwrite b ofs data -> room_for (disk c1) l s -> is_Some (disk c1 !! s) ->
    cache_lock c1 = cache_lock c -> read_ahead_lock c1 = read_ahead_lock c -> read_ahead_list c1 = read_ahead_list c ->
    (forall s', s' <> s -> match lookup_cache l s' with Some e => Some (buffer e) | None => disk c1 !! s' end = contents c s') ->
    exists c', (let! e := back c1 in let e := with_dirty e true in let! b := bytes_in (buffer e) ofs buf size in
                Ret (set_back c1 (with_open (with_buffer e b) (open_cnt e + 1)))) = Ret c' /\
      stored c c' (fun s' => if decide (s' = s) then Some (overwrite b ofs data) else contents c s') /\
      lookup_cache (cache_list c') s <> None /\ read_ahead_list c' = read_ahead_list c).
  { intros c1 l e El Hs Hl Hov Hr Hd K1 K2 K3 Hv. rewrite (back_app c1 l e El). cbn [rbind with_dirty buffer].
    destruct (bytes_in_ok (buffer e) ofs buf size) as [-> Hl2]; [lia..|]. cbn [rbind]. fold data in Hl2 |- *. rewrite Hov in *.
    eexists; split; [done|]. set (e' := with_open _ _). destruct (set_back_app c1 l e e' El) as [El' Ed'].
    destruct (room_add (set_back c1 e') l e') as [Hok' Hv']; [by rewrite Ed'; simpl; rewrite Hs| |done|].
    { split; simpl; rewrite ?Ed', ?Hs; [lia|done|done]. }
    split; [|split; [|exact K3]].
    - split; [done|exact K1|exact K2|]. intros s'. rewrite Hv', Ed'. simpl. rewrite Hs. destruct (decide (s' = s)); [done|by apply Hv].
    - replace s with (sector_idx e') by done. by apply (cached_back _ l e' Hok'). }
  pose proof (find_cache_ok c s Hok) as Hf. destruct (find_cache c s) as [c1 []]; cbn [rbind].
  - destruct Hf as (l & e & El & Hs & Hok1 & -> & Hv). destruct (cache_ok_app _ l e Hok1 El) as [Hr [H1 H2 H3]].
    destruct (room_add _ l e Hr (Build_entry_ok _ _ H1 H2 H3) El) as [_ Hv'].
    assert (Hbuf : buffer e = b) by (specialize (Hv' s); rewrite Hv, Hb, <- Hs, decide_True in Hv' by done; by injection Hv').
    apply (Hfin _ l e El Hs); try done; [by rewrite Hbuf|by rewrite <- Hs|by rewrite <- Hs|].
    intros s' Hne. rewrite <- Hv, Hv', decide_False by congruence. done.
  - destruct Hf as [-> Hnone]. destruct (bool_decide (ofs > 0) || bool_decide (size < DISK_SECTOR_SIZE)) eqn:Epart.
    + destruct (fetch_ok c s b true Hok Hnone Hb) as (c1 & E & l & e & El & Hs & Hbuf & Hok1 & K1 & K2 & K3 & Hv & _).
      assert (E' : forall (k : cached_disk -> res cached_disk), rbind (let! c2 := make_cache junk c s true in
        if true then let! b := disk_read c2 s in let! e := back c2 in Ret (set_back c2 (with_buffer e b)) else Ret c2) k = k c1)
        by (intros k; rewrite E; done).
      destruct (cache_ok_app c1 l e Hok1 El) as [Hr [H1 H2 H3]].
      destruct (room_add c1 l e Hr (Build_entry_ok _ _ H1 H2 H3) El) as [_ Hv'].
      destruct (Hfin c1 l e El Hs) as (c' & Ec & Hc'); try done; [by rewrite Hbuf|by rewrite <- Hs|by rewrite <- Hs| |].
      { intros s' Hne. rewrite <- Hv, Hv', decide_False by congruence. done. }
      exists c'. split; [|done]. rewrite <- Ec. apply E'.
    + destruct (make_cache_ok c s true Hok Hnone) as (c1 & l & -> & El & Hroom & K1 & K2 & K3 & Eds & Hdom & Hv). cbn [rbind].
      apply orb_false_iff in Epart as [E1 E2]. apply bool_decide_eq_false in E1, E2. unfold DISK_SECTOR_SIZE in E2.
      assert (ofs = 0) as -> by lia. apply (Hfin c1 l _ El); try done; simpl.
      * apply overwrite_all; lia.
      * apply Hdom. by apply contents_valid; [|eauto].
Qed.
End Ops.

(** ** Flushing *)

Lemma write_all_ok l : forall c, NoDup (sector_idx <$> l) -> Forall (entry_ok (disk c)) l ->
  exists d', write_all c l = Ret (with_disk c d', (fun e => with_dirty e false) <$> l) /\
    forall s, d' !! s = match lookup_cache l s with Some e => Some (buffer e) | None => disk c !! s end.
Proof.
  induction l as [|e l IH]; intros c Hn He.
  - exists (disk c). split; [by destruct c|done].
  - apply NoDup_cons in Hn as [Hne Hn]. apply Forall_cons in He as [He Hl].
    destruct (write_behind_ok c e He) as (d1 & Ew & Hs & Ho). cbn [write_all]. rewrite Ew. cbn [rbind].
    destruct (IH (with_disk c d1)) as (d' & -> & Hd'); [done| |].
    { apply Forall_forall. intros e' He'. rewrite Forall_forall in Hl. eapply entry_ok_disk; [by apply Hl| |exact Hs|exact Ho].
      intros Heq. apply Hne. rewrite <- Heq. by apply list_elem_of_fmap_2. }
    cbn [rbind]. exists d'. split; [done|]. intros s. rewrite Hd'. simpl. unfold lookup_cache. simpl.
    destruct (decide (sector_idx e = s)) as [<-|Hns].
    + apply lookup_cache_None in Hne. unfold lookup_cache in Hne. by rewrite Hne.
    + rewrite Ho by done. by destruct (list_find _ l) as [[? ?]|].
Qed.

Lemma wb_round_ok c : cache_ok c -> cache_lock c = false ->
  exists c', wb_round c = Ret c' /\ cache_lock c' = true /\ (forall s, disk c' !! s = contents c s).
Proof.
  intros [_ Hn He _] Hlk. unfold wb_round. rewrite Hlk. cbn [negb].
  destruct (write_all_ok (cache_list c) c Hn He) as (d' & -> & Hd). cbn [rbind]. eexists; split; [done|]. by split.
Qed.

Lemma destroy_ok c : cache_ok c -> cache_lock c = false ->
  exists c', destroy_cache_list c = Ret c' /\ cache_list c' = [] /\ cache_ok c' /\ (forall s, disk c' !! s = contents c s).
Proof.
  intros Hok Hlk. unfold destroy_cache_list. rewrite Hlk. clear Hlk. remember (cache_list c) as l eqn:E. revert c E Hok.
  induction l as [|e l IH]; intros c E Hok.
  - exists c. simpl. rewrite <- E. split_and!; try done. intros s. unfold contents. by rewrite <- E.
  - destruct (evict_ok c e l Hok (eq_sym E)) as (d' & Ev & Hok' & Hv & _).
    destruct (IH (mkDisk d' l (read_ahead_list c) (cache_lock c) (read_ahead_lock c)) eq_refl Hok') as (c' & H1 & H2 & H3 & H4). exists c'.
    split; [|by split_and!; [..|intros s; rewrite H4]]. cbn [length]. cbn [iter]. rewrite <- E. unfold evict_cache in Ev. rewrite <- E in Ev.
    destruct (write_behind c e) as [[c1 e1]| | |]; try done. cbn [rbind] in *. injection Ev as Ev1 Ev2 Ev3 Ev4. rewrite <- H1. unfold with_list. by rewrite Ev1, Ev2, Ev3, Ev4.
Qed.

(** ** Read-ahead *)

Lemma cache_read_ahead_ok c s : cache_ok c -> read_ahead_lock c = false ->
  exists c', cache_read_ahead c s = Ret c' /\ stored c c' (contents c).
Proof.
  intros Hok Hra. unfold cache_read_ahead. pose proof (find_cache_stored c s Hok) as Hf.
  destruct (find_cache c s) as [c1 []]; simpl in Hf; [eauto|]. destruct Hf as [[H1 H2 H3 H4] K1 K2 K3]. rewrite K2, Hra.
  eexists; split; [done|]. by split.
Qed.

Lemma read_ahead_manager_ok junk c s rest : cache_ok c -> cache_lock c = false -> is_Some (disk c !! s) -> read_ahead_list c = s :: rest ->
  exists c', read_ahead_manager junk c = Ret c' /\ cache_ok c' /\ read_ahead_lock c' = true /\ read_ahead_list c' = rest /\
    lookup_cache (cache_list c') s <> None /\ forall s', contents c' s' = contents c s'.
Proof.
  intros Hok Hlk Hs Hra. unfold read_ahead_manager. rewrite Hra. apply contents_valid in Hs as [b Hb]; [|done].
  pose proof (find_cache_ok c s Hok) as Hf. destruct (find_cache c s) as [c1 []].
  - destruct Hf as (l & e & El & Es & [? ? ? ?] & -> & Hv). eexists; split; [done|]. split_and!; try done.
    rewrite <- Es. apply (cached_back _ l e); [by split|done].
  - destruct Hf as [-> Hnone]. cbn [cache_lock]. rewrite Hlk. set (c0 := mkDisk _ _ _ _ _).
    assert (Hok0 : cache_ok c0) by (by destruct Hok).
    destruct (fetch_with junk (fun e => with_open e 1) c0 s b false) as (c1 & E & l & e & El & Es & Hbuf & Hok1 & K1 & K2 & K3 & Hv & _); try done.
    exists c1. split; [exact E|]. split_and!; try done. rewrite <- Es. by apply (cached_back _ l e).
Qed.

(** ** A series of calls *)

Inductive call : Set :=
| Read (s ofs size : Z)
| Write (s : Z) (buf : list Z) (ofs size : Z)
| Ahead (s : Z).

Definition do_call (junk : list Z) (c : cached_disk) (o : call) : res (cached_disk * list Z) :=
  match o with
  | Read s ofs size => cache_read junk c s ofs size
  | Write s buf ofs size => let! c := cache_write junk c s buf ofs size in Ret (c, [])
  | Ahead s => let! c := cache_read_ahead c s in Ret (c, [])
  end.

Fixpoint do_calls (junk : list Z) (c : cached_disk) (os : list call) : res (cached_disk * list (list Z)) :=
  match os with
  | [] => Ret (c, [])
  | o :: os =>
      let! '(c, out) := do_call junk c o in
      let! '(c, outs) := do_calls junk c os in
      Ret (c, out :: outs)
  end.

(** The same calls on a disk with no cache; [None] for a call outside a sector. *)
Definition spec_call (d : gmap Z (list Z)) (o : call) : option (gmap Z (list Z) * list Z) :=
  match o with
  | Read s ofs size =>
      b ← d !! s;
      guard (0 <= ofs /\ 0 <= size /\ ofs + size <= 512);;
      Some (d, take (Z.to_nat size) (drop (Z.to_nat ofs) b))
  | Write s buf ofs size =>
      b ← d !! s;
      guard (0 <= ofs /\ 0 <= size <= Z.of_nat (length buf) /\ ofs + size <= 512);;
      Some (<[s := overwrite b ofs (take (Z.to_nat size) buf)]> d, [])
  | Ahead s => Some (d, [])
  end.

Fixpoint spec_calls (d : gmap Z (list Z)) (os : list call) : option (gmap Z (list Z) * list (list Z)) :=
  match os with
  | [] => Some (d, [])
  | o :: os => '(d, out) ← spec_call d o; '(d, outs) ← spec_calls d os; Some (d, out :: outs)
  end.

(** No lock was left held, and a reader sees [d]. *)
Record represents (c : cached_disk) (d : gmap Z (list Z)) : Prop := {
  rp_ok : cache_ok c;
  rp_lock : cache_lock c = false;
  rp_ra : read_ahead_lock c = false;
  rp_view : forall s, contents c s = d !! s
}.

Lemma stored_represents c c' d v d' : represents c d -> stored c c' v -> (forall s, v s = d' !! s) -> represents c' d'.
Proof. intros [] [] Hv. split; [done|congruence|congruence|]. intros s. by rewrite st_view0. Qed.

Lemma do_call_ok junk c d o d' out : length junk = 512%nat -> represents c d -> spec_call d o = Some (d', out) ->
  exists c', do_call junk c o = Ret (c', out) /\ represents c' d'.
Proof.
  intros Hj Hr. pose proof Hr as [Hok Hlk Hra Hv]. destruct o as [s ofs size|s buf ofs size|s]; simpl; intros Hs.
  - apply bind_Some in Hs as (b & Hb & Hs). case_guard as Hg; [|done]. injection Hs as <- <-.
    destruct (cache_read_ok junk c s b ofs size) as (c' & E & Hst & _); try done; [by rewrite Hv|lia..|].
    exists c'. split; [done|]. by eapply stored_represents.
  - apply bind_Some in Hs as (b & Hb & Hs). case_guard as Hg; [|done]. injection Hs as <- <-.
    destruct (cache_write_ok junk c s b ofs buf size) as (c' & -> & Hst & _); try done; [by rewrite Hv|lia..|].
    exists c'. split; [done|]. eapply stored_represents; [done..|]. intros s'; simpl.
    destruct (decide (s' = s)) as [->|]; [by rewrite lookup_insert_eq|by rewrite lookup_insert_ne].
  - injection Hs as <- <-. destruct (cache_read_ahead_ok c s) as (c' & -> & Hst); try done.
    exists c'. split; [done|]. by eapply stored_represents.
Qed.

Lemma do_calls_ok junk os : length junk = 512%nat -> forall c d d' outs, represents c d -> spec_calls d os = Some (d', outs) ->
  exists c', do_calls junk c os = Ret (c', outs) /\ represents c' d'.
Proof.
  intros Hj. induction os as [|o os IH]; intros c d d' outs Hr Hs; simpl in *.
  - injection Hs as <- <-. eauto.
  - apply bind_Some in Hs as ([d1 out] & H1 & Hs). apply bind_Some in Hs as ([d2 outs2] & H2 & Hs). injection Hs as <- <-.
    destruct (do_call_ok junk c d o d1 out Hj Hr H1) as (c1 & -> & Hr1). cbn [rbind].
    destruct (IH c1 d1 d2 outs2 Hr1 H2) as (c2 & -> & Hr2). cbn [rbind]. eauto.
Qed.

Definition sectors (n : nat) (d : gmap Z (list Z)) : Prop := map_Forall (fun _ b => length b = n) d.
Instance sectors_dec n d : Decision (sectors n d).
Proof. unfold sectors. apply _. Defined.

Lemma init_represents c d : sectors 512 d -> disk c = d -> represents (cache_init c) d.
Proof. intros Hd <-. split; [|done..]. split; simpl; [lia|constructor|constructor|exact Hd]. Qed.

(** ** Properties *)

(** C14. On a disk whose sectors hold 512 bytes, after [cache_init] any series of
    [cache_read], [cache_write] and [cache_read_ahead] calls inside its sectors returns,
    every read gives the bytes the uncached disk would give, at most 64 entries are kept
    and no two of one sector, and [destroy_cache_list] then leaves on the disk exactly
    what the same calls leave on the uncached disk. *)
Theorem cache_refines_disk junk c os d' outs :
  length junk = 512%nat -> sectors 512 (disk c) -> spec_calls (disk c) os = Some (d', outs) ->
  exists c' c'', do_calls junk (cache_init c) os = Ret (c', outs) /\
    (length (cache_list c') <= 64)%nat /\ NoDup (sector_idx <$> cache_list c') /\
    destroy_cache_list c' = Ret c'' /\ cache_list c'' = [] /\ disk c'' = d'.
Proof.
  intros Hj Hd Hs. destruct (do_calls_ok junk os Hj (cache_init c) (disk c) d' outs) as (c' & E & [Hok Hlk _ Hv]); [by apply init_represents|done|].
  destruct (destroy_ok c' Hok Hlk) as (c'' & Ed & El & _ & Hd'). pose proof Hok as [? ? _ _].
  exists c', c''. split_and!; try done. apply map_eq. intros s. by rewrite Hd', Hv.
Qed.

Definition zero_disk : cached_disk := mkDisk {[1 := replicate 512 0; 2 := replicate 512 7]} [] [] false false.

Lemma cache_refines_disk_witness : exists c' c'',
  do_calls (replicate 512 99) (cache_init zero_disk) [Write 1 [5; 6] 3 2; Ahead 2; Read 1 2 4; Read 2 0 1] = Ret (c', [[]; []; [0; 5; 6; 0]; [7]]) /\
  destroy_cache_list c' = Ret c'' /\ disk c'' !! 1 = Some (replicate 3 0 ++ [5; 6] ++ replicate 507 0).
Proof.
  destruct (cache_refines_disk (replicate 512 99) zero_disk [Write 1 [5; 6] 3 2; Ahead 2; Read 1 2 4; Read 2 0 1]
    (<[1 := replicate 3 0 ++ [5; 6] ++ replicate 507 0]> (disk zero_disk)) [[]; []; [0; 5; 6; 0]; [7]])
    as (c' & c'' & H1 & _ & _ & H2 & _ & H3).
  - reflexivity.
  - apply (bool_decide_eq_true_1 (sectors 512 _)). vm_compute. reflexivity.
  - reflexivity.
  - exists c', c''. split_and!; [done|done|]. by rewrite H3, lookup_insert_eq.
Defined.

(** The two background threads keep the locks they take: after the first round of
    the write-behind thread every dirty sector is on the disk, but [cache_lock] stays
    held, so no later [cache_read], [cache_write] or [destroy_cache_list] returns and
    the thread's second round fails the assertion of [lock_acquire]; after
    [read_ahead_manager] has served one request the requested sector is cached and
    nothing else changed for readers, but [read_ahead_lock] stays held, so no later
    [cache_read_ahead] of an uncached sector returns. *)
Theorem cache_threads_keep_locks junk c :
  cache_ok c -> cache_lock c = false ->
  (exists c', wb_round c = Ret c' /\ (forall s, disk c' !! s = contents c s) /\
     (forall s ofs size, cache_read junk c' s ofs size = NoFuel) /\
     (forall s buf ofs size, cache_write junk c' s buf ofs size = NoFuel) /\
     destroy_cache_list c' = NoFuel /\ wb_round c' = Panic) /\
  (forall s rest, read_ahead_list c = s :: rest -> is_Some (disk c !! s) ->
     exists c', read_ahead_manager junk c = Ret c' /\ lookup_cache (cache_list c') s <> None /\
       (forall s', contents c' s' = contents c s') /\
       forall s', lookup_cache (cache_list c') s' = None -> cache_read_ahead c' s' = NoFuel).
Proof.
  intros Hok Hlk. split.
  - destruct (wb_round_ok c Hok Hlk) as (c' & E & Hl & Hd). exists c'. unfold cache_read, cache_write, destroy_cache_list, wb_round at 2.
    by rewrite Hl.
  - intros s rest Hra Hs. destruct (read_ahead_manager_ok junk c s rest) as (c' & E & Hok' & Hl & _ & Hc & Hv); try done.
    exists c'. split_and!; try done. intros s' Hn. unfold cache_read_ahead, find_cache. unfold lookup_cache in Hn. apply fmap_None in Hn.
    by rewrite Hn, Hl.
Qed.

Lemma cache_threads_keep_locks_witness : exists c',
  read_ahead_manager (replicate 512 99) (mkDisk (disk zero_disk) [] [2] false false) = Ret c' /\
  forall s', lookup_cache (cache_list c') s' = None -> cache_read_ahead c' s' = NoFuel.
Proof.
  destruct (cache_threads_keep_locks (replicate 512 99) (mkDisk (disk zero_disk) [] [2] false false)) as [_ H].
  - split; [simpl; lia|constructor|constructor|apply (bool_decide_eq_true_1 (sectors 512 _)); vm_compute; reflexivity].
  - reflexivity.
  - destruct (H 2 [] eq_refl) as (c' & E & _ & _ & Hn); [by eexists|]. by exists c'.
Defined.
