(* ===== verification/Inode.v ===== *)
(** * filesys/inode.c, filesys/free-map.c, filesys/file.c: files on the disk

    Every access to the disk goes through the buffer cache of [Cache].  An on-disk
    inode is the 512 bytes of its sector, with the fields of [struct inode_disk] at
    their offsets.  The structures the code allocates ([struct inode], [struct file],
    [struct dir]) are kept by their address; an address that was freed is not in its
    map any more, and using it is undefined behaviour.  [oom a] says that the
    allocation that would return [a] fails.  [junk] is what a new cache buffer holds,
    [zeros] the contents of the uninitialised array of that name in [inode_expand].
    Each call runs to its end before the next one starts. *)

From S2P Require Import Prelude Bitmap Cache.

(** ** Words in a buffer *)

Definition get32 (b : list Z) (ofs : Z) : Z :=
  let at_ k := b !!! Z.to_nat (ofs + k) in
  at_ 0 + 2 ^ 8 * at_ 1 + 2 ^ 16 * at_ 2 + 2 ^ 24 * at_ 3.
Definition bytes32 (v : Z) : list Z :=
  [v mod 2 ^ 8; (v / 2 ^ 8) mod 2 ^ 8; (v / 2 ^ 16) mod 2 ^ 8; (v / 2 ^ 24) mod 2 ^ 8].
Definition put32 (b : list Z) (ofs v : Z) : list Z := overwrite b ofs (bytes32 v).

Definition words_bytes (l : list Z) : list Z := concat (bytes32 <$> l).
Definition bytes_words (n : nat) (b : list Z) : list Z := (fun k => get32 b (4 * Z.of_nat k)) <$> seq 0 n.

(** ** Data *)

Definition NULL : Z := 0.
Definition FREE_MAP_SECTOR : Z := 0.
Definition ROOT_DIR_SECTOR : Z := 1.
Definition INODE_MAGIC : Z := 0x494e4f44.
Definition DIRECT_CNT : Z := 64.
Definition INDIRECT_CNT : Z := 128.
Definition DOUBLY_INDIRECT_CNT : Z := INDIRECT_CNT * INDIRECT_CNT.
Definition NO_SECTOR : Z := 2 ^ 32 - 1.

(** Offsets of the fields of [struct inode_disk]. *)
Definition f_length : Z := 4.
Definition f_magic : Z := 8.
Definition f_is_dir : Z := 12.
Definition f_parent : Z := 16.
Definition f_direct (i : Z) : Z := 20 + 4 * i.
Definition f_indirect : Z := 276.
Definition f_doubly : Z := 280.

Record inode := mkInode { sector : Z; iopen_cnt : Z; removed : bool; deny_write_cnt : Z; locked : bool }.
Record file := mkFile { f_inode : Z; f_pos : Z; deny_write : bool }.
Record dir := mkDir { d_inode : Z; d_pos : Z }.

Record fs := mkFs {
  cd : cached_disk;
  free_map : bitmap;
  free_map_file : Z;
  open_inodes : list Z;
  inodes : gmap Z inode;
  files : gmap Z file;
  dirs : gmap Z dir;
  cur_dir : Z;
  next : Z
}.

Definition with_cd (s : fs) (c : cached_disk) : fs :=
  mkFs c (free_map s) (free_map_file s) (open_inodes s) (inodes s) (files s) (dirs s) (cur_dir s) (next s).
Definition with_map (s : fs) (b : bitmap) : fs :=
  mkFs (cd s) b (free_map_file s) (open_inodes s) (inodes s) (files s) (dirs s) (cur_dir s) (next s).
Definition with_map_file (s : fs) (f : Z) : fs :=
  mkFs (cd s) (free_map s) f (open_inodes s) (inodes s) (files s) (dirs s) (cur_dir s) (next s).
Definition with_open_inodes (s : fs) (l : list Z) : fs :=
  mkFs (cd s) (free_map s) (free_map_file s) l (inodes s) (files s) (dirs s) (cur_dir s) (next s).
Definition with_inodes (s : fs) (m : gmap Z inode) : fs :=
  mkFs (cd s) (free_map s) (free_map_file s) (open_inodes s) m (files s) (dirs s) (cur_dir s) (next s).
Definition with_files (s : fs) (m : gmap Z file) : fs :=
  mkFs (cd s) (free_map s) (free_map_file s) (open_inodes s) (inodes s) m (dirs s) (cur_dir s) (next s).
Definition with_dirs (s : fs) (m : gmap Z dir) : fs :=
  mkFs (cd s) (free_map s) (free_map_file s) (open_inodes s) (inodes s) (files s) m (cur_dir s) (next s).
Definition with_cur_dir (s : fs) (d : Z) : fs :=
  mkFs (cd s) (free_map s) (free_map_file s) (open_inodes s) (inodes s) (files s) (dirs s) d (next s).
Definition with_next (s : fs) (n : Z) : fs :=
  mkFs (cd s) (free_map s) (free_map_file s) (open_inodes s) (inodes s) (files s) (dirs s) (cur_dir s) n.

(** A dereference. *)
Definition get_inode (s : fs) (p : Z) : res inode := of_opt (inodes s !! p).
Definition set_inode (s : fs) (p : Z) (i : inode) : fs := with_inodes s (<[p := i]> (inodes s)).
Definition get_file (s : fs) (p : Z) : res file := of_opt (files s !! p).
Definition get_dir (s : fs) (p : Z) : res dir := of_opt (dirs s !! p).

Definition with_iopen (i : inode) (n : Z) : inode := mkInode (sector i) n (removed i) (deny_write_cnt i) (locked i).
Definition with_removed (i : inode) (r : bool) : inode := mkInode (sector i) (iopen_cnt i) r (deny_write_cnt i) (locked i).
Definition with_deny (i : inode) (n : Z) : inode := mkInode (sector i) (iopen_cnt i) (removed i) n (locked i).
Definition with_locked (i : inode) (l : bool) : inode := mkInode (sector i) (iopen_cnt i) (removed i) (deny_write_cnt i) l.

(** The lock of an inode, taken and released by the one thread that runs. *)
Definition lock_inode (s : fs) (p : Z) : res fs :=
  let! i := get_inode s p in
  ASSERT negb (locked i);
  Ret (set_inode s p (with_locked i true)).
Definition unlock_inode (s : fs) (p : Z) : res fs :=
  let! i := get_inode s p in
  ASSERT locked i;
  Ret (set_inode s p (with_locked i false)).

(** A result of type [off_t]: signed overflow is undefined. *)
Definition off_t (x : Z) : res Z := if bool_decide (- 2 ^ 31 <= x < 2 ^ 31) then Ret x else Ub.

Definition bytes_to_sectors (size : Z) : res Z :=
  let! n := off_t (size + DISK_SECTOR_SIZE) in
  Ret (u32 (Z.quot (n - 1) DISK_SECTOR_SIZE)).

Section Inode.
Context (junk zeros : list Z) (oom : Z -> bool).

(** An allocation of a structure; a null pointer when memory is exhausted. *)
Definition calloc (s : fs) : fs * Z :=
  (with_next s (next s + 1024), if oom (next s) then NULL else next s).
(** A temporary [struct inode_disk], which is freed again. *)
Definition scratch (s : fs) : res (fs * Z) :=
  let '(s, p) := calloc s in ASSERT bool_decide (p <> NULL); Ret (s, p).

(** [cache_read] and [cache_write], whose size is an [int]. *)
Definition rd (s : fs) (sec ofs size : Z) : res (fs * list Z) :=
  let! '(c, d) := cache_read junk (cd s) sec ofs (s32 size) in Ret (with_cd s c, d).
Definition wr (s : fs) (sec : Z) (buf : list Z) (ofs size : Z) : res fs :=
  let! c := cache_write junk (cd s) sec buf ofs (s32 size) in Ret (with_cd s c).
(** [find_cache] followed by [open_cnt--]. *)
Definition put_cache (s : fs) (sec : Z) : res (fs * bool) :=
  let '(c, found) := find_cache (cd s) sec in
  if found then
    let! e := back c in Ret (with_cd s (set_back c (with_open e (open_cnt e - 1))), true)
  else Ret (with_cd s c, false).

(** ** Reading *)

Definition inode_length (s : fs) (p : Z) : res (fs * Z) :=
  let! i := get_inode s p in
  let! '(s, d) := rd s (sector i) f_length 4 in
  Ret (s, s32 (get32 d 0)).

Definition byte_to_sector (s : fs) (p pos : Z) : res (fs * Z) :=
  ASSERT bool_decide (p <> NULL);
  let! '(s, len) := inode_length s p in
  if bool_decide (pos >= len) then Ret (s, NO_SECTOR)
  else
    let sec_cnt := Z.quot pos DISK_SECTOR_SIZE in
    let! '(s, _) := scratch s in
    let! i := get_inode s p in
    let! '(s, disk_inode) := rd s (sector i) 0 DISK_SECTOR_SIZE in
    if bool_decide (sec_cnt < DIRECT_CNT) then
      if bool_decide (0 <= sec_cnt) then Ret (s, get32 disk_inode (f_direct sec_cnt)) else Ub
    else if bool_decide (sec_cnt < DIRECT_CNT + INDIRECT_CNT) then
      let! '(s, d) := rd s (get32 disk_inode f_indirect) ((sec_cnt - DIRECT_CNT) * 4) 4 in
      Ret (s, get32 d 0)
    else if bool_decide (sec_cnt < DIRECT_CNT + INDIRECT_CNT + DOUBLY_INDIRECT_CNT) then
      let sector_cnt := sec_cnt - DIRECT_CNT - INDIRECT_CNT in
      let! '(s, d) := rd s (get32 disk_inode f_doubly) (sector_cnt / INDIRECT_CNT * 4) 4 in
      let! '(s, d) := rd s (get32 d 0) (sector_cnt mod INDIRECT_CNT * 4) 4 in
      Ret (s, get32 d 0)
    else Ub (* return_sec was never set *).

(** The data read so far is what [buffer_] holds; its length is [bytes_read]. *)
Definition read_chunk (p : Z) : fs * Z * Z * list Z -> res ((fs * Z * Z * list Z) + (fs * list Z)) :=
  fun '(s, size, offset, data) =>
    if bool_decide (size > 0) then
      let! '(s, sector_idx) := byte_to_sector s p offset in
      let sector_ofs := Z.rem offset DISK_SECTOR_SIZE in
      let! '(s, len) := inode_length s p in
      let! inode_left := off_t (len - offset) in
      let sector_left := DISK_SECTOR_SIZE - sector_ofs in
      let min_left := Z.min inode_left sector_left in
      let chunk_size := u32 (Z.min size min_left) in
      if bool_decide (chunk_size <= 0) then Ret (inr (s, data))
      else
        let! '(s, d) := rd s sector_idx sector_ofs chunk_size in
        let! '(s, found) := put_cache s sector_idx in
        ASSERT found;
        let! ahead := off_t (offset + 512) in
        let! '(s, ahead_sector) := byte_to_sector s p ahead in
        let! s := (if bool_decide (ahead_sector <> NO_SECTOR) then
                     let! c := cache_read_ahead (cd s) ahead_sector in Ret (with_cd s c)
                   else Ret s) in
        Ret (inl (s, s32 (size - chunk_size), s32 (offset + chunk_size), data ++ d))
    else Ret (inr (s, data)).

Definition inode_read_at (s : fs) (p size offset : Z) : res (fs * list Z) :=
  iter (S (Z.to_nat size)) (read_chunk p) (s, size, offset, []).

Definition inode_dir_check (s : fs) (p : Z) : res (fs * bool) :=
  let! '(s, _) := scratch s in
  let! i := get_inode s p in
  let! '(s, disk_inode) := rd s (sector i) 0 DISK_SECTOR_SIZE in
  Ret (s, bool_decide (disk_inode !!! Z.to_nat f_is_dir <> 0)).

Definition inode_parent (s : fs) (p : Z) : res (fs * Z) :=
  let! i := get_inode s p in
  let! '(s, d) := rd s (sector i) f_parent 4 in
  Ret (s, get32 d 0).

(** ** Writing

    [inode_write_at] may call [inode_expand], which allocates sectors, which writes the
    free map with [inode_write_at]: [write_at] is that inner call. *)
Section Write.
Context (write_at : fs -> Z -> list Z -> Z -> Z -> res (fs * Z)).

Definition file_write_at_ (s : fs) (f : Z) (buffer : list Z) (size file_ofs : Z) : res (fs * Z) :=
  let! fl := get_file s f in
  let! '(s, is_dir) := inode_dir_check s (f_inode fl) in
  if is_dir then Ret (s, -1)
  else write_at s (f_inode fl) buffer size file_ofs.

(** [bitmap_write (free_map, free_map_file)]. *)
Definition write_free_map (s : fs) : res (fs * bool) :=
  let b := free_map s in
  let! '(s, n) := file_write_at_ s (free_map_file s) (words_bytes (bits b)) (byte_cnt (bit_cnt b)) 0 in
  Ret (s, bitmap_write b (fun _ _ => n)).

Definition free_map_allocate_ (s : fs) (cnt : Z) : res (fs * option Z) :=
  let! '(sec, b) := bitmap_scan_and_flip (free_map s) 0 cnt false in
  let s := with_map s b in
  if bool_decide (sec <> BITMAP_ERROR) then
    if bool_decide (free_map_file s <> NULL) then
      let! '(s, ok) := write_free_map s in
      if ok then Ret (s, Some sec)
      else let! b := bitmap_set_multiple (free_map s) sec cnt false in Ret (with_map s b, None)
    else Ret (s, Some sec)
  else Ret (s, None).

(** The new value of a variable whose address was passed to [free_map_allocate]. *)
Definition stored_in (o : option Z) (old : option Z) : option Z :=
  match o with Some x => Some x | None => old end.

(** One round of the loop of [inode_expand]: [b] is [*disk_inode], [alloc] the variable
    [alloc_sec] when it has a value. *)
Definition expand_round : fs * list Z * option Z * Z * Z -> res ((fs * list Z * option Z * Z * Z) + (fs * option (list Z))) :=
  fun '(s, b, alloc, curr, remain) =>
    if bool_decide (remain > 0) then
      if bool_decide (curr < DIRECT_CNT) then
        let! '(s, o) := free_map_allocate_ s 1 in
        let alloc := stored_in o alloc in
        let! a := of_opt alloc in
        Ret (inl (s, put32 b (f_direct curr) a, alloc, curr + 1, remain - 1))
      else if bool_decide (curr < DIRECT_CNT + INDIRECT_CNT) then
        let! '(s, b, ok) :=
          (if bool_decide (curr = DIRECT_CNT) then
             let! '(s, o) := free_map_allocate_ s 1 in
             match o with
             | None => Ret (s, b, false)
             | Some t =>
                 let b := put32 b f_indirect t in
                 let! s := wr s t zeros 0 DISK_SECTOR_SIZE in
                 Ret (s, b, true)
             end
           else Ret (s, b, true)) in
        if negb ok then Ret (inr (s, None))
        else
          let! '(s, o) := free_map_allocate_ s 1 in
          let alloc := stored_in o alloc in
          let! a := of_opt alloc in
          let! s := wr s (get32 b f_indirect) (bytes32 a) ((curr - DIRECT_CNT) * 4) 4 in
          Ret (inl (s, b, alloc, curr + 1, remain - 1))
      else if bool_decide (curr < DIRECT_CNT + INDIRECT_CNT + DOUBLY_INDIRECT_CNT) then
        let double_cnt := curr - DIRECT_CNT - INDIRECT_CNT in
        let! '(s, b, ok) :=
          (if bool_decide (curr = DIRECT_CNT + INDIRECT_CNT) then
             let! '(s, o) := free_map_allocate_ s 1 in
             match o with
             | None => Ret (s, b, false)
             | Some t =>
                 let b := put32 b f_doubly t in
                 let! s := wr s t zeros 0 DISK_SECTOR_SIZE in
                 Ret (s, b, true)
             end
           else Ret (s, b, true)) in
        if negb ok then Ret (inr (s, None))
        else
          let! '(s, ok) :=
            (if bool_decide (double_cnt mod INDIRECT_CNT = 0) then
               let! '(s, o) := free_map_allocate_ s 1 in
               match o with
               | None => Ret (s, false)
               | Some t =>
                   let! s := wr s t zeros 0 DISK_SECTOR_SIZE in
                   let! s := wr s (get32 b f_doubly) (bytes32 t) (double_cnt / INDIRECT_CNT * 4) 4 in
                   Ret (s, true)
               end
             else Ret (s, true)) in
          if negb ok then Ret (inr (s, None))
          else
            let! '(s, o) := free_map_allocate_ s 1 in
            let alloc := stored_in o alloc in
            let! '(s, d) := rd s (get32 b f_doubly) (double_cnt / INDIRECT_CNT * 4) 4 in
            let! a := of_opt alloc in
            let! s := wr s (get32 d 0) (bytes32 a) (double_cnt mod INDIRECT_CNT * 4) 4 in
            Ret (inl (s, b, alloc, curr + 1, remain - 1))
      else Ret (inl (s, b, alloc, curr + 1, remain - 1))
    else Ret (inr (s, Some b)).

Definition inode_expand_ (s : fs) (p extend_length : Z) : res (fs * bool) :=
  let! '(s, _) := scratch s in
  let! i := get_inode s p in
  let! '(s, disk_inode) := rd s (sector i) 0 DISK_SECTOR_SIZE in
  let! '(s, len) := inode_length s p in
  let! exist_sectors := bytes_to_sectors len in
  let! '(s, len) := inode_length s p in
  let snip_byte := s32 (exist_sectors * DISK_SECTOR_SIZE - len) in
  let! new := off_t (extend_length - snip_byte) in
  let! sectors := bytes_to_sectors new in
  let! '(s, o) := iter (S (Z.to_nat sectors)) expand_round (s, disk_inode, None, exist_sectors, sectors) in
  match o with
  | None => Ret (s, false)
  | Some b =>
      let! l := off_t (s32 (get32 b f_length) + extend_length) in
      let! s := wr s (sector i) (put32 b f_length (u32 l)) 0 DISK_SECTOR_SIZE in
      Ret (s, true)
  end.

Definition write_chunk (p : Z) (buffer : list Z) : fs * Z * Z * Z -> res ((fs * Z * Z * Z) + (fs * Z)) :=
  fun '(s, size, offset, bytes_written) =>
    if bool_decide (size > 0) then
      let! '(s, sector_idx) := byte_to_sector s p offset in
      let sector_ofs := Z.rem offset DISK_SECTOR_SIZE in
      let! '(s, len) := inode_length s p in
      let! inode_left := off_t (len - offset) in
      let sector_left := DISK_SECTOR_SIZE - sector_ofs in
      let min_left := Z.min inode_left sector_left in
      let chunk_size := u32 (Z.min size min_left) in
      if bool_decide (chunk_size <= 0) then Ret (inr (s, bytes_written))
      else
        let! s := wr s sector_idx (drop (Z.to_nat bytes_written) buffer) sector_ofs chunk_size in
        let! '(s, found) := put_cache s sector_idx in
        if negb found then Ub
        else Ret (inl (s, s32 (size - chunk_size), s32 (offset + chunk_size), s32 (bytes_written + chunk_size)))
    else Ret (inr (s, bytes_written)).

Definition inode_write_at_ (s : fs) (p : Z) (buffer : list Z) (size offset : Z) : res (fs * Z) :=
  let! i := get_inode s p in
  if bool_decide (deny_write_cnt i <> 0) then Ret (s, 0)
  else
    let! '(s, exist_length) := inode_length s p in
    let! end_ := off_t (offset + size) in
    let! s := (if bool_decide (exist_length < end_) then
                 let! s := lock_inode s p in
                 let! ext := off_t (end_ - exist_length) in
                 let! '(s, _) := inode_expand_ s p ext in
                 unlock_inode s p
               else Ret s) in
    iter (S (Z.to_nat size)) (write_chunk p buffer) (s, size, offset, 0).
End Write.

(** A write to the free map that would have to grow it fails an assertion of the
    inode's lock at the third level, so four levels lose nothing. *)
Fixpoint write_levels (depth : nat) : fs -> Z -> list Z -> Z -> Z -> res (fs * Z) :=
  match depth with
  | O => fun _ _ _ _ _ => NoFuel
  | S d => inode_write_at_ (write_levels d)
  end.
Definition inode_write_at := write_levels 4.
Definition inode_expand := inode_expand_ (write_levels 3).
Definition file_write_at := file_write_at_ inode_write_at.
Definition free_map_allocate := free_map_allocate_ inode_write_at.

(** ** Inodes *)

Definition inode_init (s : fs) : fs := with_open_inodes s [].

Definition inode_reopen (s : fs) (p : Z) : res (fs * Z) :=
  if bool_decide (p <> NULL) then
    let! i := get_inode s p in Ret (set_inode s p (with_iopen i (iopen_cnt i + 1)), p)
  else Ret (s, p).

Fixpoint find_open (s : fs) (l : list Z) (sec : Z) : res (option Z) :=
  match l with
  | [] => Ret None
  | p :: l =>
      let! i := get_inode s p in
      if bool_decide (sector i = sec) then Ret (Some p) else find_open s l sec
  end.

Definition inode_open (s : fs) (sec : Z) : res (fs * Z) :=
  let! o := find_open s (open_inodes s) sec in
  match o with
  | Some p => inode_reopen s p
  | None =>
      let '(s, p) := calloc s in
      if bool_decide (p = NULL) then Ret (s, NULL)
      else
        let s := with_open_inodes s (p :: open_inodes s) in
        Ret (set_inode s p (mkInode sec 1 false 0 false), p)
  end.

Definition inode_create (s : fs) (sec length : Z) (is_dir : bool) : res (fs * bool) :=
  ASSERT bool_decide (length >= 0);
  let! '(s, _) := scratch s in
  let! d := get_dir s (cur_dir s) in
  let! temp := get_inode s (d_inode d) in
  let b := put32 (put32 (replicate 512 0) f_length 0) f_magic INODE_MAGIC in
  let b := overwrite b f_is_dir [if is_dir then 1 else 0] in
  let b := put32 b f_parent (sector temp) in
  let! s := wr s sec b 0 DISK_SECTOR_SIZE in
  let! '(s, ex) := inode_open s sec in
  let! s := lock_inode s ex in
  let! '(s, success) := inode_expand s ex length in
  let! s := unlock_inode s ex in
  Ret (s, success).

Definition inode_get_inumber (s : fs) (p : Z) : res Z := let! i := get_inode s p in Ret (sector i).
Definition inode_to_inumber (s : fs) (p : Z) : res Z := let! i := get_inode s p in Ret (s32 (sector i)).

Definition inode_remove (s : fs) (p : Z) : res fs :=
  ASSERT bool_decide (p <> NULL);
  let! i := get_inode s p in Ret (set_inode s p (with_removed i true)).

Definition inode_deny_write (s : fs) (p : Z) : res fs :=
  let! i := get_inode s p in
  let i := with_deny i (deny_write_cnt i + 1) in
  ASSERT bool_decide (deny_write_cnt i <= iopen_cnt i);
  Ret (set_inode s p i).
Definition inode_allow_write (s : fs) (p : Z) : res fs :=
  let! i := get_inode s p in
  ASSERT bool_decide (deny_write_cnt i > 0);
  ASSERT bool_decide (deny_write_cnt i <= iopen_cnt i);
  Ret (set_inode s p (with_deny i (deny_write_cnt i - 1))).

(** ** Closing *)

(** [bitmap_write (free_map, free_map_file)] outside an allocation. *)
Definition free_map_release (s : fs) (sec cnt : Z) : res fs :=
  let! all := bitmap_all (free_map s) sec cnt in
  ASSERT all;
  let! b := bitmap_set_multiple (free_map s) sec cnt false in
  let! '(s, _) := write_free_map inode_write_at (with_map s b) in
  Ret s.

(** The entries [table[cnt]], ..., [table[1]] of an array of words. *)
Definition release_down (s : fs) (table : list Z) (size cnt : Z) : res fs :=
  for_up (Z.to_nat cnt) 0
    (fun k s => if bool_decide (cnt - k < size) then free_map_release s (get32 table (4 * (cnt - k))) 1 else Ub) s.

(** The loop over the doubly indirect table; the second round reads past the buffer or
    is not reached, so two rounds are enough. *)
Definition release_doubly (s : fs) (disk_inode : list Z) (double_cnt : Z) : res (fs * Z) :=
  iter 2 (fun '(s, double_cnt, released) =>
    if bool_decide (double_cnt > 0) then
      let double_indirect_off := double_cnt / INDIRECT_CNT in
      let! '(s, double_element) := rd s (get32 disk_inode f_doubly) double_indirect_off DISK_SECTOR_SIZE in
      let double_off := double_cnt mod INDIRECT_CNT in
      let! s := for_up (Z.to_nat double_off) 0 (fun j s => free_map_release s (get32 double_element (4 * j)) 1) s in
      Ret (inl (s, double_cnt - double_off, released + double_off))
    else Ret (inr (s, released))) (s, double_cnt, 0).

(** The blocks of a removed inode; [p] is the address of the temporary [disk_inode]. *)
Definition release_blocks (s : fs) (p : Z) (disk_inode : list Z) (sector_cnt : Z) : res fs :=
  let! '(s, sector_cnt) :=
    (if bool_decide (sector_cnt > DIRECT_CNT + INDIRECT_CNT) then
       let! '(s, _) := rd s (get32 disk_inode f_doubly) 0 DISK_SECTOR_SIZE in
       let! '(s, released) := release_doubly s disk_inode (sector_cnt - DIRECT_CNT - INDIRECT_CNT) in
       Ret (s, sector_cnt - released)
     else Ret (s, sector_cnt)) in
  let! '(s, sector_cnt) :=
    (if bool_decide (sector_cnt > DIRECT_CNT) then
       let! '(s, indirect) := rd s (get32 disk_inode f_indirect) 0 DISK_SECTOR_SIZE in
       let! s := release_down s indirect INDIRECT_CNT (sector_cnt - DIRECT_CNT) in
       Ret (s, DIRECT_CNT)
     else Ret (s, sector_cnt)) in
  (* the address of the array [direct] is taken for a sector number, and the
     512 bytes do not fit the 64 words of the destination *)
  let! '(s, direct) := rd s (u32 (p + f_direct 0)) 0 DISK_SECTOR_SIZE in
  Ub.

(** From the decrement of the open count on. *)
Definition drop_ref (s : fs) (tmp p : Z) (i : inode) (disk_inode : list Z) (sector_cnt : Z) : res fs :=
  let i := with_iopen i (iopen_cnt i - 1) in
  let s := set_inode s p i in
  if bool_decide (iopen_cnt i = 0) then
    let! s := lock_inode s p in
    let s := with_open_inodes s (filter (fun q => q <> p) (open_inodes s)) in
    let! s := (if removed i then
                 let! s := release_blocks s tmp disk_inode sector_cnt in
                 let! s := free_map_release s (sector i) 1 in
                 let '(c, _) := find_cache (cd s) (sector i) in
                 Ub (* the entry is freed while it is in the list *)
               else Ret s) in
    let! s := unlock_inode s p in
    Ret (with_inodes s (delete p (inodes s)))
  else Ret s.

Definition inode_close (s : fs) (p : Z) : res fs :=
  if bool_decide (p = NULL) then Ret s
  else
    let! '(s, tmp) := scratch s in
    let! i := get_inode s p in
    let! '(s, disk_inode) := rd s (sector i) 0 DISK_SECTOR_SIZE in
    let! sector_cnt := bytes_to_sectors (s32 (get32 disk_inode f_length)) in
    drop_ref s tmp p i disk_inode sector_cnt.

(** ** Free map *)

Definition free_map_init (malloc_b : bool) (malloc_bits : option (list Z)) (s : fs) : res fs :=
  let! o := bitmap_create malloc_b malloc_bits (Z.of_nat (size (disk (cd s)))) in
  match o with
  | None => Panic
  | Some b =>
      let! b := bitmap_mark b FREE_MAP_SECTOR in
      let! b := bitmap_mark b ROOT_DIR_SECTOR in
      Ret (with_map s b)
  end.

(** ** Files *)

Definition file_open (s : fs) (ino : Z) : res (fs * Z) :=
  let '(s, f) := calloc s in
  if bool_decide (ino <> NULL) && bool_decide (f <> NULL) then
    Ret (with_files s (<[f := mkFile ino 0 false]> (files s)), f)
  else let! s := inode_close s ino in Ret (s, NULL).

Definition file_reopen (s : fs) (f : Z) : res (fs * Z) :=
  let! fl := get_file s f in
  let! '(s, ino) := inode_reopen s (f_inode fl) in
  file_open s ino.

Definition set_file (s : fs) (f : Z) (fl : file) : fs := with_files s (<[f := fl]> (files s)).

Definition file_deny_write (s : fs) (f : Z) : res fs :=
  ASSERT bool_decide (f <> NULL);
  let! fl := get_file s f in
  if deny_write fl then Ret s
  else inode_deny_write (set_file s f (mkFile (f_inode fl) (f_pos fl) true)) (f_inode fl).

Definition file_allow_write (s : fs) (f : Z) : res fs :=
  ASSERT bool_decide (f <> NULL);
  let! fl := get_file s f in
  if deny_write fl then inode_allow_write (set_file s f (mkFile (f_inode fl) (f_pos fl) false)) (f_inode fl)
  else Ret s.

Definition file_close (s : fs) (f : Z) : res fs :=
  if bool_decide (f <> NULL) then
    let! s := file_allow_write s f in
    let! fl := get_file s f in
    let! s := inode_close s (f_inode fl) in
    Ret (with_files s (delete f (files s)))
  else Ret s.

Definition file_get_inode (s : fs) (f : Z) : res Z :=
  let! fl := get_file s f in
  ASSERT bool_decide (f_inode fl <> NULL);
  Ret (f_inode fl).

Definition advance (s : fs) (f n : Z) : res fs :=
  let! fl := get_file s f in
  let! pos := off_t (f_pos fl + n) in
  Ret (set_file s f (mkFile (f_inode fl) pos (deny_write fl))).

Definition file_read (s : fs) (f size : Z) : res (fs * list Z) :=
  let! fl := get_file s f in
  let! '(s, d) := inode_read_at s (f_inode fl) size (f_pos fl) in
  let! s := advance s f (Z.of_nat (length d)) in
  Ret (s, d).

Definition file_read_at (s : fs) (f size file_ofs : Z) : res (fs * list Z) :=
  let! fl := get_file s f in
  inode_read_at s (f_inode fl) size file_ofs.

Definition file_write (s : fs) (f : Z) (buffer : list Z) (size : Z) : res (fs * Z) :=
  let! fl := get_file s f in
  let! '(s, is_dir) := inode_dir_check s (f_inode fl) in
  if is_dir then Ret (s, -1)
  else
    let! '(s, n) := inode_write_at s (f_inode fl) buffer size (f_pos fl) in
    let! s := advance s f n in
    Ret (s, n).

Definition file_length (s : fs) (f : Z) : res (fs * Z) :=
  ASSERT bool_decide (f <> NULL);
  let! fl := get_file s f in inode_length s (f_inode fl).

Definition file_seek (s : fs) (f new_pos : Z) : res fs :=
  ASSERT bool_decide (f <> NULL);
  ASSERT bool_decide (new_pos >= 0);
  let! fl := get_file s f in
  Ret (set_file s f (mkFile (f_inode fl) new_pos (deny_write fl))).

Definition file_tell (s : fs) (f : Z) : res Z :=
  ASSERT bool_decide (f <> NULL);
  let! fl := get_file s f in Ret (f_pos fl).

(** ** The free map on the disk *)

Definition free_map_open (s : fs) : res fs :=
  let! '(s, ino) := inode_open s FREE_MAP_SECTOR in
  let! '(s, f) := file_open s ino in
  let s := with_map_file s f in
  if bool_decide (f = NULL) then Panic
  else
    let b := free_map s in
    let size := byte_cnt (bit_cnt b) in
    let! '(s, d) := (if bool_decide (bit_cnt b > 0) then file_read_at s f size 0 else Ret (s, [])) in
    let! '(ok, b) := bitmap_read b (fun buf _ =>
      (bytes_words (length buf) (overwrite (words_bytes buf) 0 d), Z.of_nat (length d))) in
    ASSERT ok;
    Ret (with_map s b).

Definition free_map_close (s : fs) : res fs := file_close s (free_map_file s).

Definition free_map_create (s : fs) : res fs :=
  let! '(s, ok) := inode_create s FREE_MAP_SECTOR (bitmap_file_size (free_map s)) false in
  ASSERT ok;
  let! '(s, ino) := inode_open s FREE_MAP_SECTOR in
  let! '(s, f) := file_open s ino in
  let s := with_map_file s f in
  ASSERT bool_decide (f <> NULL);
  let! '(s, ok) := write_free_map inode_write_at s in
  ASSERT ok;
  Ret s.
End Inode.
