(* ===== verification/Random.v ===== *)
(** * lib/random.c: pseudo-random numbers

    The RC4 generator.  The state is a permutation of the 256 byte values and stays one. *)

From S2P Require Import Prelude Cache Inode.

Record rc4 := mkRc4 { s_box : list Z; s_i : Z; s_j : Z; inited : bool }.

Definition swap_byte (s : list Z) (a b : Z) : res (list Z) :=
  let! t := aget s a in
  let! u := aget s b in
  let! s := aset s a u in
  aset s b t.

(** [seedp[i % sizeof seed]] of a little-endian word. *)
Definition init_round (seed i : Z) (x : list Z * Z) : res (list Z * Z) :=
  let '(s, j) := x in
  let! v := aget s i in
  let! b := aget (bytes32 seed) (i mod 4) in
  let j := u8 (j + v + b) in
  let! s := swap_byte s i j in
  Ret (s, j).

Definition random_init (seed : Z) : res rc4 :=
  let! '(s, _) := for_up 256 0 (init_round seed) (seqZ 0 256, 0) in
  Ret (mkRc4 s 0 0 true).

(** One byte of [random_bytes]. *)
Definition random_byte (r : rc4) : res (rc4 * Z) :=
  let i := u8 (s_i r + 1) in
  let! x := aget (s_box r) i in
  let j := u8 (s_j r + x) in
  let! s := swap_byte (s_box r) i j in
  let! a := aget s i in
  let! b := aget s j in
  let! c := aget s (u8 (a + b)) in
  Ret (mkRc4 s i j (inited r), c).

Fixpoint random_loop (size : nat) (r : rc4) : res (rc4 * list Z) :=
  match size with
  | O => Ret (r, [])
  | S size =>
      let! '(r, b) := random_byte r in
      let! '(r, l) := random_loop size r in
      Ret (r, b :: l)
  end.

Definition random_bytes (size : nat) (r : rc4) : res (rc4 * list Z) :=
  let! r := (if inited r then Ret r else random_init 0) in
  random_loop size r.

Definition random_ulong (r : rc4) : res (rc4 * Z) :=
  let! '(r, l) := random_bytes 4 r in
  Ret (r, get32 l 0).

(** The generator before the first call. *)
Definition rc4_static : rc4 := mkRc4 (replicate 256 0) 0 0 false.

(** The test vector of RC4 for the key "Wiki". *)
Example rc4_wiki : (let! r := random_init 0x696b6957 in let! '(_, l) := random_bytes 6 r in Ret l) = Ret [0x60; 0x44; 0xdb; 0x6d; 0x41; 0xb7].
Proof. vm_compute. reflexivity. Qed.

(** ** The state stays a permutation *)

Definition permutation (s : list Z) : Prop := s ≡ₚ seqZ 0 256.
Record rc4_ok (r : rc4) : Prop := {
  rc_box : inited r = true -> permutation (s_box r);
  rc_i : 0 <= s_i r < 256;
  rc_j : 0 <= s_j r < 256
}.

Lemma permutation_length s : permutation s -> length s = 256%nat.
Proof. intros Hs. apply Permutation_length in Hs. by rewrite length_seqZ in Hs. Qed.

Lemma permutation_byte s i : permutation s -> 0 <= i < 256 -> exists x, aget s i = Ret x /\ 0 <= x < 256.
Proof.
  intros Hs Hi. pose proof (permutation_length s Hs) as Hl. destruct (aget_in_range s i) as (x & Hx & Hin); [lia|]. exists x. split; [done|].
  apply list_elem_of_lookup_2 in Hin. unfold permutation in Hs. rewrite Hs in Hin. apply elem_of_seqZ in Hin. lia.
Qed.

Lemma swap_insert (s : list Z) i j x y : s !! i = Some x -> s !! j = Some y -> <[j := x]> (<[i := y]> s) ≡ₚ s.
Proof.
  intros Hi Hj. destruct (decide (i = j)) as [->|Hne].
  - simplify_eq. by rewrite list_insert_insert_eq, list_insert_id.
  - apply Permutation_inj. split; [by rewrite !length_insert|].
    exists (fun k => if decide (k = i) then j else if decide (k = j) then i else k). split.
    + intros k1 k2. repeat case_decide; lia.
    + intros k. pose proof (lookup_lt_Some _ _ _ Hi). pose proof (lookup_lt_Some _ _ _ Hj). repeat case_decide; subst; try lia.
      * rewrite list_lookup_insert_ne by done. rewrite list_lookup_insert_eq by done. done.
      * by rewrite list_lookup_insert_eq by (by rewrite length_insert).
      * by rewrite !list_lookup_insert_ne by done.
Qed.

Lemma swap_byte_ok s i j : permutation s -> 0 <= i < 256 -> 0 <= j < 256 -> exists s', swap_byte s i j = Ret s' /\ permutation s'.
Proof.
  intros Hs Hi Hj. pose proof (permutation_length s Hs) as Hl. unfold swap_byte.
  destruct (aget_in_range s i) as (x & -> & Hx); [lia|]. destruct (aget_in_range s j) as (y & -> & Hy); [lia|]. cbn [rbind].
  rewrite (aset_in_range s) by lia. cbn [rbind]. rewrite aset_in_range by (rewrite length_insert; lia).
  eexists. split; [done|]. unfold permutation. by rewrite swap_insert.
Qed.

Lemma random_init_ok seed : exists r, random_init seed = Ret r /\ rc4_ok r /\ inited r = true.
Proof.
  unfold random_init.
  destruct (for_up_total (fun _ (x : list Z * Z) => permutation x.1 /\ 0 <= x.2 < 256) (init_round seed) 256 0 (seqZ 0 256, 0)) as ([s j] & -> & Hs & _).
  - cbn [fst snd]. split; [unfold permutation; reflexivity|lia].
  - intros i [s j] Hi [Hs Hj]. simpl in Hs, Hj. unfold init_round. destruct (permutation_byte s i Hs) as (x & -> & _); [lia|]. cbn [rbind].
    destruct (aget_in_range (bytes32 seed) (i mod 4)) as (b & -> & _).
    { unfold bytes32. simpl. pose proof (Z.mod_pos_bound i 4). lia. }
    cbn [rbind]. destruct (swap_byte_ok s i (u8 (j + x + b)) Hs) as (s' & -> & Hs'); [lia|apply u8_range|].
    eexists. split; [done|]. split; [done|]. apply u8_range.
  - eexists. split; [done|]. split; [|done]. split; [done|simpl; lia..].
Qed.

Lemma random_byte_ok r : rc4_ok r -> inited r = true ->
  exists r' b, random_byte r = Ret (r', b) /\ rc4_ok r' /\ inited r' = true /\ 0 <= b < 256.
Proof.
  intros [Hs Hi Hj] Hinit. specialize (Hs Hinit). unfold random_byte. pose proof (u8_range (s_i r + 1)) as Hi'. change (2 ^ 8) with 256 in Hi'.
  destruct (permutation_byte _ (u8 (s_i r + 1)) Hs Hi') as (x & -> & _). cbn [rbind]. pose proof (u8_range (s_j r + x)) as Hj'.
  destruct (swap_byte_ok _ _ _ Hs Hi' Hj') as (s & -> & Hs'). cbn [rbind].
  destruct (permutation_byte s _ Hs' Hi') as (a & -> & _). destruct (permutation_byte s _ Hs' Hj') as (b & -> & _). cbn [rbind].
  destruct (permutation_byte s (u8 (a + b)) Hs' (u8_range _)) as (c & -> & Hc). cbn [rbind].
  eexists _, c. split; [done|]. split; [by split|]. done.
Qed.

Lemma random_loop_ok n : forall r, rc4_ok r -> inited r = true ->
  exists r' l, random_loop n r = Ret (r', l) /\ rc4_ok r' /\ inited r' = true /\ length l = n /\ Forall (fun b => 0 <= b < 256) l.
Proof.
  induction n as [|n IH]; intros r Hr Hi; simpl; [exists r, []; by split_and!|].
  destruct (random_byte_ok r Hr Hi) as (r1 & b & -> & Hr1 & Hi1 & Hb). cbn [rbind].
  destruct (IH r1 Hr1 Hi1) as (r2 & l & -> & Hr2 & Hi2 & Hl & Hf). cbn [rbind]. exists r2, (b :: l). split_and!; try done; [simpl; by rewrite Hl|by constructor].
Qed.

(** ** The reference generator

    RC4 as it is published: the table is a function on the bytes, an exchange is a change
    of the function at two points, and the output is computed from the table after the
    exchange. *)
Module Rc4.

Record state := mkState { box : Z -> Z; idx : Z; jdx : Z }.

Definition exchange (a b : Z) (f : Z -> Z) : Z -> Z := fun k => if decide (k = a) then f b else if decide (k = b) then f a else f k.

(** Key scheduling with a key of four bytes. *)
Fixpoint key_schedule (key : Z -> Z) (n : nat) : (Z -> Z) * Z :=
  match n with
  | O => (fun k => k, 0)
  | S n =>
      let '(f, j) := key_schedule key n in
      let i := Z.of_nat n in
      let j := (j + f i + key (i mod 4)) mod 256 in
      (exchange i j f, j)
  end.
Definition start (seed : Z) : state := mkState (key_schedule (fun k => (seed / 256 ^ k) mod 256) 256).1 0 0.

Definition next (s : state) : state :=
  let i := (idx s + 1) mod 256 in
  let j := (jdx s + box s i) mod 256 in
  mkState (exchange i j (box s)) i j.
Definition output (s : state) : Z := box s ((box s (idx s) + box s (jdx s)) mod 256).

(** The [n] bytes after [s]. *)
Fixpoint stream (n : nat) (s : state) : list Z :=
  match n with O => [] | S n => output (next s) :: stream n (next s) end.
Fixpoint after (n : nat) (s : state) : state := match n with O => s | S n => after n (next s) end.
End Rc4.

(** The table of the code holds the function. *)
Definition tabled (s : list Z) (f : Z -> Z) : Prop := length s = 256%nat /\ forall k, 0 <= k < 256 -> aget s k = Ret (f k).
Record rc4_rep (r : rc4) (s : Rc4.state) : Prop := {
  rp_box : tabled (s_box r) (Rc4.box s);
  rp_i : s_i r = Rc4.idx s /\ 0 <= s_i r < 256;
  rp_j : s_j r = Rc4.jdx s /\ 0 <= s_j r < 256
}.

Lemma swap_tabled s f a b : tabled s f -> 0 <= a < 256 -> 0 <= b < 256 ->
  exists s', swap_byte s a b = Ret s' /\ tabled s' (Rc4.exchange a b f).
Proof.
  intros [Hl Hf] Ha Hb. unfold swap_byte. rewrite !Hf by done. cbn [rbind].
  rewrite (aset_in_range s) by lia. cbn [rbind]. rewrite aset_in_range by (rewrite length_insert; lia).
  eexists. split; [done|]. split; [by rewrite !length_insert|]. intros k Hk. specialize (Hf k Hk). apply aget_Ret in Hf as [_ Hf].
  apply aget_Ret. split; [lia|]. unfold Rc4.exchange. destruct (decide (k = b)) as [->|Hkb].
  - rewrite list_lookup_insert_eq by (rewrite length_insert; lia). case_decide as E; [by rewrite E|done].
  - rewrite list_lookup_insert_ne by lia. destruct (decide (k = a)) as [->|Hka].
    + by rewrite list_lookup_insert_eq by lia.
    + by rewrite list_lookup_insert_ne by lia.
Qed.

Lemma seed_byte seed i : 0 <= i -> aget (bytes32 seed) (i mod 4) = Ret ((seed / 256 ^ (i mod 4)) mod 256).
Proof.
  intros Hi. pose proof (Z.mod_pos_bound i 4 ltac:(lia)) as Hm. unfold bytes32. remember (i mod 4) as m eqn:E. clear E.
  assert (m = 0 \/ m = 1 \/ m = 2 \/ m = 3) as [->|[->|[->| ->]]] by lia; try done. change (256 ^ 0) with 1. by rewrite Z.div_1_r.
Qed.

Lemma init_rounds_ok seed n : (n <= 256)%nat -> exists s, for_up n 0 (init_round seed) (seqZ 0 256, 0) = Ret (s, (Rc4.key_schedule (fun k => (seed / 256 ^ k) mod 256) n).2) /\
  tabled s (Rc4.key_schedule (fun k => (seed / 256 ^ k) mod 256) n).1.
Proof.
  set (key := fun k => (seed / 256 ^ k) mod 256). intros Hn.
  destruct (for_up_total (fun k (x : list Z * Z) => 0 <= k /\ x.2 = (Rc4.key_schedule key (Z.to_nat k)).2 /\ tabled x.1 (Rc4.key_schedule key (Z.to_nat k)).1)
    (init_round seed) n 0 (seqZ 0 256, 0)) as ([s j] & E & _ & Hj & Hs).
  - split; [lia|]. split; [done|]. split; [done|]. intros k Hk. apply aget_Ret. split; [lia|]. apply lookup_seqZ. simpl. lia.
  - intros k [s j] Hk (_ & Hj & Hs). cbn [fst snd] in *. unfold init_round. rewrite (proj2 Hs k) by lia. cbn [rbind]. rewrite seed_byte by lia. cbn [rbind].
    replace (Z.to_nat (k + 1)) with (S (Z.to_nat k)) by lia. cbn [Rc4.key_schedule]. destruct (Rc4.key_schedule key (Z.to_nat k)) as [f j0]. cbn [fst snd] in *. subst j0.
    rewrite Z2Nat.id by lia. fold (key (k mod 4)). change (u8 (j + f k + key (k mod 4))) with ((j + f k + key (k mod 4)) mod 256).
    destruct (swap_tabled s f k ((j + f k + key (k mod 4)) mod 256) Hs) as (s' & -> & Hs'); [lia|apply Z.mod_pos_bound; lia|].
    cbn [rbind]. eexists. split; [done|]. cbn [fst snd]. split; [lia|done].
  - rewrite Z.add_0_l, Nat2Z.id in Hj, Hs. cbn [fst snd] in *. exists s. split; [by rewrite E, Hj|done].
Qed.

Lemma random_init_rep seed : exists r, random_init seed = Ret r /\ inited r = true /\ rc4_rep r (Rc4.start seed).
Proof.
  unfold random_init. destruct (init_rounds_ok seed 256) as (s & -> & Hs); [done|]. cbn [rbind]. eexists. split; [done|]. split; [done|].
  split; [exact Hs|split; [done|simpl; lia]..].
Qed.

Lemma random_byte_rep r s : rc4_rep r s -> exists r', random_byte r = Ret (r', Rc4.output (Rc4.next s)) /\ rc4_rep r' (Rc4.next s) /\ inited r' = inited r.
Proof.
  intros [Hb [Hi Hi'] [Hj Hj']]. unfold random_byte. rewrite Hi, Hj. change (u8 (Rc4.idx s + 1)) with ((Rc4.idx s + 1) mod 256). set (i := (Rc4.idx s + 1) mod 256).
  assert (Hir : 0 <= i < 256) by (apply Z.mod_pos_bound; lia). rewrite (proj2 Hb i) by done. cbn [rbind].
  change (u8 (Rc4.jdx s + Rc4.box s i)) with ((Rc4.jdx s + Rc4.box s i) mod 256). set (j := (Rc4.jdx s + Rc4.box s i) mod 256).
  assert (Hjr : 0 <= j < 256) by (apply Z.mod_pos_bound; lia).
  destruct (swap_tabled _ _ i j Hb Hir Hjr) as (s' & -> & Hs'). cbn [rbind]. rewrite !(proj2 Hs') by done. cbn [rbind].
  rewrite (proj2 Hs') by apply u8_range. cbn [rbind]. eexists. split; [done|]. split; [|done]. split; [exact Hs'|split; [done|exact Hir]|split; [done|exact Hjr]].
Qed.

Lemma random_loop_rep n : forall r s, rc4_rep r s -> exists r', random_loop n r = Ret (r', Rc4.stream n s) /\ rc4_rep r' (Rc4.after n s) /\ inited r' = inited r.
Proof.
  induction n as [|n IH]; intros r s Hr; simpl; [by exists r|]. destruct (random_byte_rep r s Hr) as (r1 & -> & Hr1 & Hi1). cbn [rbind].
  destruct (IH r1 _ Hr1) as (r2 & -> & Hr2 & Hi2). cbn [rbind]. exists r2. split; [done|]. split; [done|congruence].
Qed.

(** C38. The generator is RC4: [random_init] leaves the state of the key schedule for its
    seed, and from a state of the cipher [random_bytes] returns, writes exactly the next
    bytes of its key stream and leaves the state after them; without [random_init] it does
    the same from the state for the seed 0. *)
Theorem random_is_rc4 : (forall seed, exists r, random_init seed = Ret r /\ inited r = true /\ rc4_rep r (Rc4.start seed)) /\
  (forall n r s, rc4_rep r s -> inited r = true -> exists r', random_bytes n r = Ret (r', Rc4.stream n s) /\ rc4_rep r' (Rc4.after n s) /\ inited r' = true) /\
  (forall n r, inited r = false -> exists r', random_bytes n r = Ret (r', Rc4.stream n (Rc4.start 0)) /\ rc4_rep r' (Rc4.after n (Rc4.start 0)) /\ inited r' = true).
Proof.
  split; [apply random_init_rep|]. split.
  - intros n r s Hr Hi. unfold random_bytes. rewrite Hi. cbn [rbind]. rewrite <- Hi. by apply random_loop_rep.
  - intros n r Hi. unfold random_bytes. rewrite Hi. destruct (random_init_rep 0) as (r0 & -> & Hi0 & Hr0). cbn [rbind]. rewrite <- Hi0. by apply random_loop_rep.
Qed.

Lemma random_is_rc4_witness : exists r r', random_init 7 = Ret r /\ random_bytes 3 r = Ret (r', Rc4.stream 3 (Rc4.start 7)) /\
  random_bytes 2 rc4_static = Ret (match random_bytes 2 rc4_static with Ret (x, _) => x | _ => rc4_static end, Rc4.stream 2 (Rc4.start 0)).
Proof.
  destruct random_is_rc4 as (H1 & H2 & H3). destruct (H1 7) as (r & E & Hi & Hr). destruct (H2 3%nat r _ Hr Hi) as (r' & E' & _).
  destruct (H3 2%nat rc4_static eq_refl) as (r2 & E2 & _). exists r, r'. split; [exact E|]. split; [exact E'|]. rewrite E2. reflexivity.
Defined.

Lemma random_loop_app n k r : random_loop (n + k) r =
  let! '(r, l) := random_loop n r in let! '(r, l') := random_loop k r in Ret (r, l ++ l').
Proof.
  revert r. induction n as [|n IH]; intros r; simpl.
  - destruct (random_loop k r) as [[]| | |]; done.
  - destruct (random_byte r) as [[r1 b]| | |]; [|done..]. cbn [rbind]. rewrite IH.
    destruct (random_loop n r1) as [[r2 l]| | |]; [|done..]. cbn [rbind]. by destruct (random_loop k r2) as [[]| | |].
Qed.

(** From any state it can be in, also before it
    was initialised, [random_bytes] stays inside its table, which stays a permutation of the
    256 byte values with both indices in range, and gives as many bytes as asked for; how
    the bytes are asked for, at once or in two calls, makes no difference. *)
Theorem random_bytes_correct n k r : rc4_ok r ->
  exists r' r'' l l', random_bytes n r = Ret (r', l) /\ random_bytes k r' = Ret (r'', l') /\
    random_bytes (n + k) r = Ret (r'', l ++ l') /\ rc4_ok r' /\ permutation (s_box r') /\
    length l = n /\ Forall (fun b => 0 <= b < 256) l.
Proof.
  intros Hr. unfold random_bytes.
  assert (exists r0, (if inited r then Ret r else random_init 0) = Ret r0 /\ rc4_ok r0 /\ inited r0 = true) as (r0 & -> & Hr0 & Hi0).
  { destruct (inited r) eqn:E; [by exists r|]. apply random_init_ok. }
  cbn [rbind]. destruct (random_loop_ok n r0 Hr0 Hi0) as (r1 & l & Hn & Hr1 & Hi1 & Hl & Hf).
  destruct (random_loop_ok k r1 Hr1 Hi1) as (r2 & l' & Hk & _). exists r1, r2, l, l'.
  rewrite random_loop_app, Hn, Hi1. cbn [rbind]. rewrite Hk. split_and!; try done. by apply (rc_box _ Hr1).
Qed.

Lemma rc4_static_ok : rc4_ok rc4_static.
Proof. split; simpl; [discriminate|lia..]. Qed.

Lemma random_bytes_correct_witness : exists r' l, random_bytes 3 rc4_static = Ret (r', l) /\ length l = 3%nat.
Proof.
  destruct (random_bytes_correct 3 2 rc4_static rc4_static_ok) as (r' & r'' & l & l' & H & _ & _ & _ & _ & Hl & _).
  exists r', l. split; [exact H|exact Hl].
Defined.
