(* ===== verification/InodeView.v ===== *)
(** * The layout of a file on the disk

    A view gives the bytes of every sector.  [blk V b i] is the sector of block [i] of
    the file whose inode holds [b]; [metab] are the sectors of its tables and [datab]
    those of its data. *)

From S2P Require Import Prelude Cache CacheProof Inode.

(** ** Words in buffers *)

Lemma overwrite_lookup b ofs d k : 0 <= ofs -> ofs + Z.of_nat (length d) <= Z.of_nat (length b) ->
  overwrite b ofs d !!! k =
  if decide (ofs <= Z.of_nat k < ofs + Z.of_nat (length d)) then d !!! (k - Z.to_nat ofs)%nat else b !!! k.
Proof.
  intros Ho Hl. unfold overwrite. case_decide as Hk; rewrite !list_lookup_total_alt; f_equal.
  - rewrite lookup_app_r; rewrite length_take; [|lia]. rewrite lookup_app_l by lia. f_equal. lia.
  - destruct (decide (Z.of_nat k < ofs)).
    + rewrite lookup_app_l by (rewrite length_take; lia). apply lookup_take_lt. lia.
    + rewrite lookup_app_r by (rewrite length_take; lia). rewrite length_take.
      rewrite lookup_app_r by lia. rewrite lookup_drop. f_equal. lia.
Qed.

Lemma put32_length b ofs v : 0 <= ofs -> ofs + 4 <= Z.of_nat (length b) -> length (put32 b ofs v) = length b.
Proof. intros. unfold put32. apply overwrite_length; simpl; lia. Qed.

Lemma get32_overwrite_ne b ofs d ofs' : 0 <= ofs -> ofs + Z.of_nat (length d) <= Z.of_nat (length b) -> 0 <= ofs' ->
  ofs' + 4 <= ofs \/ ofs + Z.of_nat (length d) <= ofs' -> get32 (overwrite b ofs d) ofs' = get32 b ofs'.
Proof.
  intros. unfold get32. cbv zeta. rewrite !overwrite_lookup by lia. rewrite !decide_False by lia. done.
Qed.

Lemma get32_bytes32 v : is_u32 v -> get32 (bytes32 v) 0 = v.
Proof.
  intros Hv. unfold get32, bytes32. cbv zeta. change (Z.to_nat (0 + 0)) with 0%nat. change (Z.to_nat (0 + 1)) with 1%nat.
  change (Z.to_nat (0 + 2)) with 2%nat. change (Z.to_nat (0 + 3)) with 3%nat. cbn [lookup_total list_lookup_total].
  unfold is_u32 in Hv. Z.div_mod_to_equations. lia.
Qed.

Lemma get32_put32_eq b ofs v : 0 <= ofs -> ofs + 4 <= Z.of_nat (length b) -> is_u32 v -> get32 (put32 b ofs v) ofs = v.
Proof.
  intros. rewrite <- (get32_bytes32 v) at 2 by done. unfold get32, put32. cbv zeta. rewrite !overwrite_lookup by (simpl; lia).
  rewrite !decide_True by (simpl; lia). repeat f_equal; lia.
Qed.

Lemma get32_put32_ne b ofs ofs' v : 0 <= ofs -> ofs + 4 <= Z.of_nat (length b) -> 0 <= ofs' ->
  ofs' + 4 <= ofs \/ ofs + 4 <= ofs' -> get32 (put32 b ofs v) ofs' = get32 b ofs'.
Proof. intros. unfold put32. apply get32_overwrite_ne; simpl; lia. Qed.

Lemma get32_slice b ofs : 0 <= ofs -> ofs + 4 <= Z.of_nat (length b) -> get32 (take 4 (drop (Z.to_nat ofs) b)) 0 = get32 b ofs.
Proof.
  intros. unfold get32. cbv zeta.
  assert (Hk : forall k, 0 <= k < 4 -> take 4 (drop (Z.to_nat ofs) b) !!! Z.to_nat (0 + k) = b !!! Z.to_nat (ofs + k)).
  { intros k Hk. rewrite !list_lookup_total_alt, lookup_take_lt, lookup_drop by lia. do 2 f_equal. lia. }
  rewrite (Hk 0), (Hk 1), (Hk 2), (Hk 3) by lia. done.
Qed.

Lemma bytes32_length v : length (bytes32 v) = 4%nat.
Proof. done. Qed.

Lemma words_bytes_length l : length (words_bytes l) = (4 * length l)%nat.
Proof. unfold words_bytes. induction l as [|x l IH]; [done|]. rewrite fmap_cons. cbn [concat length]. rewrite length_app, IH, bytes32_length. lia. Qed.

(** ** Blocks of a file *)

Definition view := Z -> option (list Z).
Definition sec (V : view) (t : Z) : list Z := default [] (V t).
Definition word (V : view) (t k : Z) : Z := get32 (sec V t) (4 * k).

Definition blk (V : view) (b : list Z) (i : Z) : Z :=
  if bool_decide (i < 64) then get32 b (f_direct i)
  else if bool_decide (i < 192) then word V (get32 b f_indirect) (i - 64)
  else word V (word V (get32 b f_doubly) ((i - 192) / 128)) ((i - 192) mod 128).

(** How many tables of the second level [n] blocks need. *)
Definition tables (n : Z) : Z := (n - 192 + 127) / 128.

Definition metab (V : view) (b : list Z) (n : Z) : list Z :=
  (if bool_decide (64 < n) then [get32 b f_indirect] else []) ++
  (if bool_decide (192 < n) then get32 b f_doubly :: (word V (get32 b f_doubly) <$> seqZ 0 (tables n)) else []).
Definition datab (V : view) (b : list Z) (n : Z) : list Z := blk V b <$> seqZ 0 n.
Definition foot (V : view) (b : list Z) (n : Z) : list Z := metab V b n ++ datab V b n.

Definition flen (b : list Z) : Z := s32 (get32 b f_length).
Definition nblk (len : Z) : Z := (len + 511) / 512.
Definition max_blocks : Z := 64 + 128 + 128 * 128.

(** The byte at position [q]. *)
Definition fbyte (V : view) (b : list Z) (q : Z) : Z := sec V (blk V b (q / 512)) !!! Z.to_nat (q mod 512).

Lemma elem_of_metab V b n t : t ∈ metab V b n <->
  (64 < n /\ t = get32 b f_indirect) \/
  (192 < n /\ (t = get32 b f_doubly \/ exists k, 0 <= k < tables n /\ t = word V (get32 b f_doubly) k)).
Proof.
  unfold metab. rewrite elem_of_app. repeat case_bool_decide; rewrite ?elem_of_cons, ?elem_of_nil, ?list_elem_of_fmap;
    try setoid_rewrite elem_of_seqZ; naive_solver lia.
Qed.

Lemma elem_of_datab V b n t : t ∈ datab V b n <-> exists i, 0 <= i < n /\ t = blk V b i.
Proof. unfold datab. rewrite list_elem_of_fmap. setoid_rewrite elem_of_seqZ. naive_solver lia. Qed.

Lemma metab_in V b n i : 0 <= i < n ->
  (64 <= i < 192 -> get32 b f_indirect ∈ metab V b n) /\
  (192 <= i -> get32 b f_doubly ∈ metab V b n /\ word V (get32 b f_doubly) ((i - 192) / 128) ∈ metab V b n).
Proof.
  intros Hi. split; [intros H|intros H; split]; rewrite elem_of_metab.
  - left. split; [lia|done].
  - right. split; [lia|by left].
  - right. split; [lia|]. right. exists ((i - 192) / 128). split; [|done]. unfold tables. Z.div_mod_to_equations. lia.
Qed.

(** The block map depends on the tables only. *)
Lemma blk_agree V V' b n i : (forall t, t ∈ metab V b n -> V' t = V t) -> 0 <= i < n -> blk V' b i = blk V b i.
Proof.
  intros Ha Hi. destruct (metab_in V b n i Hi) as [H1 H2]. unfold blk, word, sec.
  case_bool_decide; [done|]. case_bool_decide.
  - rewrite Ha; [done|]. apply H1. lia.
  - destruct H2 as [H2 H3]; [lia|]. unfold word, sec in H3. rewrite (Ha _ H2). by rewrite (Ha _ H3).
Qed.

Lemma metab_agree V V' b n : (forall t, t ∈ metab V b n -> V' t = V t) -> metab V' b n = metab V b n.
Proof.
  intros Ha. unfold metab. f_equal. case_bool_decide as H; [|done]. f_equal. unfold word, sec. rewrite Ha; [done|].
  rewrite elem_of_metab. naive_solver.
Qed.

Lemma datab_agree V V' b n m : n <= m -> (forall t, t ∈ metab V b m -> V' t = V t) -> datab V' b n = datab V b n.
Proof.
  intros Hnm Ha. unfold datab. apply list_fmap_ext. intros k x Hx. apply lookup_seqZ in Hx as [-> Hk].
  by apply (blk_agree V V' b m); [|lia].
Qed.

Lemma foot_agree V V' b n : (forall t, t ∈ metab V b n -> V' t = V t) -> foot V' b n = foot V b n.
Proof. intros Ha. unfold foot. by rewrite (metab_agree V V'), (datab_agree V V' b n n) by done. Qed.

(** The length field is not part of the block map. *)
Lemma blk_length V b i v : length b = 512%nat -> 0 <= i -> blk V (put32 b f_length v) i = blk V b i.
Proof.
  intros Hl Hi. unfold blk, f_direct, f_indirect, f_doubly, f_length. repeat case_bool_decide; rewrite ?get32_put32_ne by lia; done.
Qed.

Lemma foot_length V b n v : length b = 512%nat -> foot V (put32 b f_length v) n = foot V b n.
Proof.
  intros Hl. unfold foot, metab, datab. unfold f_indirect, f_doubly, f_length in *. rewrite !get32_put32_ne by lia. f_equal.
  apply list_fmap_ext. intros k x Hx. apply lookup_seqZ in Hx as [-> Hk]. apply blk_length; [done|lia].
Qed.
