(* ===== verification/InodeOps.v ===== *)
(** * Reading and writing the blocks of a file *)

From S2P Require Import Prelude Bitmap Cache CacheProof Inode InodeView.

Definition vw (s : fs) : view := contents (cd s).

Record ready (s : fs) : Prop := {
  rdy_ok : cache_ok (cd s);
  rdy_lock : cache_lock (cd s) = false;
  rdy_ra : read_ahead_lock (cd s) = false;
  rdy_next : 0 < next s
}.

Definition rest (s : fs) := (free_map_file s, open_inodes s, inodes s, files s, dirs s, cur_dir s).

(** [s'] is [s] except that the disk reads as [v] (and the cache may have changed). *)
Record moves (s s' : fs) (v : view) : Prop := {
  mv_ready : ready s';
  mv_view : forall t, vw s' t = v t;
  mv_map : free_map s' = free_map s;
  mv_rest : rest s' = rest s;
  mv_next : next s <= next s'
}.

Definition cached (s : fs) (t : Z) : Prop := lookup_cache (cache_list (cd s)) t <> None.

(** The view with sector [t] changed. *)
Definition vset (V : view) (t : Z) (b : list Z) : view := fun t' => if decide (t' = t) then Some b else V t'.

Lemma vset_eq V t b : vset V t b t = Some b.
Proof. unfold vset. by rewrite decide_True. Qed.
Lemma vset_ne V t b t' : t' <> t -> vset V t b t' = V t'.
Proof. intros. unfold vset. by rewrite decide_False. Qed.

Lemma moves_refl s : ready s -> moves s s (vw s).
Proof. by split. Qed.

Lemma moves_trans s1 s2 s3 v2 v3 : moves s1 s2 v2 -> moves s2 s3 v3 -> moves s1 s3 v3.
Proof. intros [] []. split; try done; try congruence; lia. Qed.

Lemma moves_ext s s' v w : moves s s' v -> (forall t, v t = w t) -> moves s s' w.
Proof. intros [] H. split; try done. intros t. by rewrite <- H. Qed.

(** A step that changes nothing after one that gave [v]. *)
Lemma moves_same s1 s2 s3 v : moves s1 s2 v -> moves s2 s3 (vw s2) -> moves s1 s3 v.
Proof. intros H1 H2. eapply moves_ext; [by eapply moves_trans|]. intros t. apply H1. Qed.

Lemma moves_vset s1 s2 s3 v t b : moves s1 s2 v -> moves s2 s3 (vset (vw s2) t b) -> moves s1 s3 (vset v t b).
Proof.
  intros H1 H2. eapply moves_ext; [by eapply moves_trans|]. intros t'. unfold vset. case_decide; [done|]. apply H1.
Qed.

Lemma rest_inodes s s' : rest s' = rest s -> inodes s' = inodes s.
Proof. unfold rest. congruence. Qed.
Lemma moves_inodes s s' v : moves s s' v -> inodes s' = inodes s.
Proof. intros H. apply rest_inodes, H. Qed.

(** What the file system needs of memory: buffers of a sector's size, and allocations
    that succeed. *)
Class good_memory (junk zeros : list Z) (oom : Z -> bool) : Prop := {
  gm_junk : length junk = 512%nat;
  gm_zeros : length zeros = 512%nat;
  gm_oom : forall a, oom a = false
}.

Lemma view_length s t b : ready s -> vw s t = Some b -> length b = 512%nat.
Proof. intros [H _ _ _]. by apply contents_length. Qed.

Lemma stored_moves s c v : ready s -> stored (cd s) c v -> moves s (with_cd s c) v.
Proof. intros [H1 H2 H3 H4] [K1 K2 K3 K4]. split; [split; simpl; [done|congruence..|done]|exact K4|done|done|simpl; lia]. Qed.

Lemma put_cache_ok s t : ready s -> cached s t -> exists s', put_cache s t = Ret (s', true) /\ moves s s' (vw s).
Proof.
  intros Hr Hc. pose proof Hr as [H1 H2 H3 H4]. unfold put_cache.
  destruct (find_cache_true (cd s) t H1 Hc) as (c & l & e & -> & El & Es & Hst). rewrite (back_app c l e El). cbn [rbind].
  eexists; split; [done|]. pose proof Hst as [K1 K2 K3 K4]. destruct (cache_ok_app c l e K1 El) as [_ [E1 E2 E3]].
  set (e' := with_open e _). destruct (set_back_ok c l e e' K1 El) as [K5 K6]; [done|by split|].
  assert (Ht : contents c (sector_idx e) = Some (buffer e)).
  { destruct (cache_ok_app c l e K1 El) as [Hroom He]. destruct (room_add c l e Hroom He El) as [_ Hv]. rewrite Hv. by rewrite decide_True. }
  apply stored_moves; [done|]. split; [done|simpl; congruence|simpl; congruence|]. intros t'. unfold vw. rewrite K6.
  case_decide as Ht'; [subst t'; rewrite <- K4, Ht; done|by rewrite K4].
Qed.

Section Ops.
Context {junk zeros : list Z} {oom : Z -> bool} `{Hmem : !good_memory junk zeros oom}.
#[local] Set Default Proof Using "All".

Lemma rd_ok s t b ofs size : ready s -> vw s t = Some b -> 0 <= ofs -> 0 <= size -> ofs + size <= 512 ->
  exists s', rd junk s t ofs size = Ret (s', take (Z.to_nat size) (drop (Z.to_nat ofs) b)) /\ moves s s' (vw s) /\ cached s' t.
Proof.
  intros Hr Hb H1 H2 H3. pose proof Hr as [K1 K2 K3 K4]. unfold rd. rewrite s32_small by lia.
  destruct (cache_read_ok junk (cd s) t b ofs size) as (c & -> & Hs & Hc & _); try done. cbn [rbind].
  eexists; split; [done|]. split; [by apply stored_moves|done].
Qed.

Lemma rd_word s t b k : ready s -> vw s t = Some b -> 0 <= k -> 4 * k + 4 <= 512 ->
  exists s' d, rd junk s t (k * 4) 4 = Ret (s', d) /\ get32 d 0 = word (vw s) t k /\ moves s s' (vw s).
Proof.
  intros Hr Hb H1 H2. pose proof (view_length s t b Hr Hb) as Hl. destruct (rd_ok s t b (k * 4) 4) as (s' & -> & Hm & _); try done; try lia.
  eexists _, _. split; [done|]. split; [|done]. change (Z.to_nat 4) with 4%nat. rewrite get32_slice by lia.
  unfold word, sec. rewrite Hb. simpl. f_equal. lia.
Qed.

Lemma wr_ok s t b buf ofs size : ready s -> vw s t = Some b -> 0 <= ofs -> 0 <= size <= Z.of_nat (length buf) -> ofs + size <= 512 ->
  exists s', wr junk s t buf ofs size = Ret s' /\ moves s s' (vset (vw s) t (overwrite b ofs (take (Z.to_nat size) buf))) /\ cached s' t.
Proof.
  intros Hr Hb H1 H2 H3. pose proof Hr as [K1 K2 K3 K4]. unfold wr. rewrite s32_small by lia.
  destruct (cache_write_ok junk (cd s) t b ofs buf size) as (c & -> & Hs & Hc & _); try done; [apply gm_junk|]. cbn [rbind].
  eexists; split; [done|]. split; [by apply stored_moves|done].
Qed.

Lemma wr_all s t b buf : ready s -> vw s t = Some b -> length buf = 512%nat ->
  exists s', wr junk s t buf 0 DISK_SECTOR_SIZE = Ret s' /\ moves s s' (vset (vw s) t buf).
Proof.
  intros Hr Hb Hl. pose proof (view_length s t b Hr Hb) as Hlb. unfold DISK_SECTOR_SIZE.
  destruct (wr_ok s t b buf 0 512) as (s' & -> & Hm & _); try done; try lia. exists s'. split; [done|].
  eapply moves_ext; [done|]. intros t'. unfold vset. case_decide; [|done]. f_equal. unfold overwrite.
  rewrite (take_ge buf) by lia. rewrite drop_ge by lia. simpl. by rewrite app_nil_r.
Qed.

Lemma wr_word s t b k v : ready s -> vw s t = Some b -> 0 <= k -> 4 * k + 4 <= 512 ->
  exists s', wr junk s t (bytes32 v) (k * 4) 4 = Ret s' /\ moves s s' (vset (vw s) t (put32 b (4 * k) v)).
Proof.
  intros Hr Hb H1 H2. destruct (wr_ok s t b (bytes32 v) (k * 4) 4) as (s' & -> & Hm & _); try done; try (rewrite bytes32_length; lia); try lia.
  exists s'. split; [done|]. by replace (4 * k) with (k * 4) by lia.
Qed.

Lemma scratch_ok s : ready s -> exists s' p, scratch oom s = Ret (s', p) /\ moves s s' (vw s) /\ p = next s.
Proof.
  intros [H1 H2 H3 H4]. unfold scratch, calloc. rewrite gm_oom. cbv beta iota zeta. rewrite bool_decide_eq_true_2 by (unfold NULL; lia). simpl.
  eexists _, _. split; [done|]. split; [|done]. split; simpl; try done; try lia. split; simpl; try done; lia.
Qed.

Lemma length_ok s p i b : ready s -> inodes s !! p = Some i -> vw s (sector i) = Some b ->
  exists s', inode_length junk s p = Ret (s', flen b) /\ moves s s' (vw s).
Proof.
  intros Hr Hp Hb. unfold inode_length, get_inode. rewrite Hp. cbn [of_opt rbind]. pose proof (view_length s _ b Hr Hb) as Hl.
  destruct (rd_ok s (sector i) b f_length 4) as (s' & -> & Hm & _); try done. cbn [rbind]. exists s'. split; [|done].
  change (Z.to_nat 4) with 4%nat. rewrite get32_slice by (unfold f_length; lia). done.
Qed.

Lemma read_inode s p i b : ready s -> inodes s !! p = Some i -> vw s (sector i) = Some b ->
  exists s', (let! i := get_inode s p in rd junk s (sector i) 0 DISK_SECTOR_SIZE) = Ret (s', b) /\ moves s s' (vw s).
Proof.
  intros Hr Hp Hb. unfold get_inode. rewrite Hp. cbn [of_opt rbind]. pose proof (view_length s _ b Hr Hb) as Hl.
  unfold DISK_SECTOR_SIZE. destruct (rd_ok s (sector i) b 0 512) as (s' & E & Hm & _); try done. exists s'. split; [|done].
  rewrite E. change (Z.to_nat 0) with 0%nat. by rewrite drop_0, take_ge by lia.
Qed.

(** ** The sector of a byte *)

(** The file open at [p], in [s]: its inode holds [b] and all its blocks are on the disk. *)
Record opened (s : fs) (p : Z) (i : inode) (b : list Z) : Prop := {
  op_inode : inodes s !! p = Some i;
  op_null : p <> NULL;
  op_bytes : vw s (sector i) = Some b;
  op_len : 0 <= flen b <= 512 * max_blocks;
  op_foot : forall t, t ∈ foot (vw s) b (nblk (flen b)) -> is_Some (vw s t)
}.

Lemma opened_moves s s' v p i b : moves s s' v -> opened s p i b -> v (sector i) = Some b ->
  (forall t, t ∈ metab (vw s) b (nblk (flen b)) -> v t = vw s t) -> (forall t, is_Some (vw s t) -> is_Some (v t)) -> opened s' p i b.
Proof.
  intros Hm [H1 H2 H3 H4 H5] Hb Ha Hd. split; try done; [by rewrite (moves_inodes _ _ _ Hm)|by rewrite (mv_view _ _ _ Hm)|].
  intros t. rewrite (foot_agree (vw s)) by (intros x Hx; rewrite (mv_view _ _ _ Hm); by apply Ha).
  rewrite (mv_view _ _ _ Hm). auto.
Qed.

Lemma opened_same s s' p i b : moves s s' (vw s) -> opened s p i b -> opened s' p i b.
Proof. intros Hm Ho. eapply opened_moves; try done. apply Ho. Qed.

Lemma byte_to_sector_end s p i b pos : ready s -> opened s p i b -> flen b <= pos ->
  exists s', byte_to_sector junk oom s p pos = Ret (s', NO_SECTOR) /\ moves s s' (vw s).
Proof.
  intros Hr [H1 H2 H3 H4 H5] Hp. unfold byte_to_sector. rewrite bool_decide_eq_true_2 by done. cbn [assert_ rbind].
  destruct (length_ok s p i b Hr H1 H3) as (s1 & -> & Hm). cbn [rbind]. rewrite bool_decide_eq_true_2 by lia. eauto.
Qed.

Lemma byte_to_sector_ok s p i b pos : ready s -> opened s p i b -> 0 <= pos < flen b ->
  exists s', byte_to_sector junk oom s p pos = Ret (s', blk (vw s) b (pos / 512)) /\ moves s s' (vw s).
Proof.
  intros Hr Ho Hp. pose proof Ho as [H1 H2 H3 H4 H5]. unfold byte_to_sector. rewrite bool_decide_eq_true_2 by done. cbn [assert_ rbind].
  destruct (length_ok s p i b Hr H1 H3) as (s1 & -> & Hm1). cbn [rbind]. rewrite bool_decide_eq_false_2 by lia.
  destruct (scratch_ok s1 (mv_ready _ _ _ Hm1)) as (s2 & q & -> & Hm2 & _). cbn [rbind]. pose proof (moves_same _ _ _ _ Hm1 Hm2) as Hm12.
  destruct (opened_same _ _ _ _ _ Hm12 Ho) as [K1 _ K3 _ _].
  destruct (read_inode s2 p i b (mv_ready _ _ _ Hm2) K1 K3) as (s3 & E3 & Hm3). pose proof (moves_same _ _ _ _ Hm12 Hm3) as Hm13.
  unfold get_inode in *. rewrite K1 in *. cbn [of_opt rbind] in *. rewrite E3. cbn [rbind]. clear E3 Hm1 Hm2 Hm3 Hm12 K1 K3.
  pose proof (mv_ready _ _ _ Hm13) as Hr3. pose proof (mv_view _ _ _ Hm13) as Hv3.
  assert (Hq : Z.quot pos DISK_SECTOR_SIZE = pos / 512) by (apply Z.quot_div_nonneg; unfold DISK_SECTOR_SIZE; lia). rewrite Hq. clear Hq.
  set (k := pos / 512). assert (Hk : 0 <= k < nblk (flen b)) by (unfold k, nblk; Z.div_mod_to_equations; lia).
  assert (Hkm : k < max_blocks) by (unfold k; unfold max_blocks in *; Z.div_mod_to_equations; lia).
  unfold DIRECT_CNT, INDIRECT_CNT, DOUBLY_INDIRECT_CNT, INDIRECT_CNT, max_blocks in *. unfold blk.
  destruct (metab_in (vw s) b _ k Hk) as [M1 M2].
  assert (Hval : forall t, t ∈ metab (vw s) b (nblk (flen b)) -> exists x, vw s t = Some x).
  { intros t Ht. apply H5. unfold foot. apply elem_of_app. by left. }
  case_bool_decide as C1; [rewrite bool_decide_eq_true_2 by lia; eauto|].
  change (64 + 128) with 192. case_bool_decide as C2.
  - destruct (Hval _ (M1 ltac:(lia))) as [x Hx].
    destruct (rd_word s3 (get32 b f_indirect) x (k - 64)) as (s4 & d & -> & Hd & Hm4); [done|by rewrite Hv3|lia..|]. cbn [rbind].
    exists s4. split; [|by eapply moves_same]. rewrite Hd. unfold word, sec. by rewrite Hv3.
  - rewrite bool_decide_eq_true_2 by lia. destruct M2 as [M2 M3]; [lia|]. replace (k - 64 - 128) with (k - 192) by lia.
    destruct (Hval _ M2) as [x Hx]. destruct (Hval _ M3) as [y Hy].
    destruct (rd_word s3 (get32 b f_doubly) x ((k - 192) / 128)) as (s4 & d & -> & Hd & Hm4);
      [done|by rewrite Hv3|Z.div_mod_to_equations; lia..|]. cbn [rbind]. pose proof (moves_same _ _ _ _ Hm13 Hm4) as Hm14.
    assert (Hd' : get32 d 0 = word (vw s) (get32 b f_doubly) ((k - 192) / 128)) by (rewrite Hd; unfold word, sec; by rewrite Hv3). rewrite Hd'.
    destruct (rd_word s4 (word (vw s) (get32 b f_doubly) ((k - 192) / 128)) y ((k - 192) mod 128)) as (s5 & d2 & -> & Hd2 & Hm5);
      [apply Hm4|by rewrite (mv_view _ _ _ Hm14)|Z.div_mod_to_equations; lia..|]. cbn [rbind].
    exists s5. split; [|by eapply moves_same]. rewrite Hd2. unfold word at 1, sec. rewrite (mv_view _ _ _ Hm14). done.
Qed.
End Ops.
