(* ===== verification/InodeIO.v ===== *)
(** * Reading and writing inside a file *)

From S2P Require Import Prelude Bitmap Cache CacheProof Inode InodeView InodeOps.

Lemma slice_fbyte V b q c x : V (blk V b (q / 512)) = Some x -> length x = 512%nat -> 0 <= c -> q mod 512 + c <= 512 ->
  take (Z.to_nat c) (drop (Z.to_nat (q mod 512)) x) = fbyte V b <$> seqZ q c.
Proof.
  intros Hx Hl Hc Hle. pose proof (Z.mod_pos_bound q 512 ltac:(lia)) as Hm. apply list_eq. intros k.
  rewrite list_lookup_fmap. destruct (decide (Z.of_nat k < c)).
  - rewrite lookup_take_lt, lookup_drop by lia. destruct (lookup_seqZ q c k (q + Z.of_nat k)) as [_ H]. rewrite H by lia. clear H. simpl.
    unfold fbyte, sec. replace ((q + Z.of_nat k) / 512) with (q / 512) by (Z.div_mod_to_equations; lia). rewrite Hx. simpl.
    replace ((q + Z.of_nat k) mod 512) with (q mod 512 + Z.of_nat k) by (Z.div_mod_to_equations; lia).
    replace (Z.to_nat (q mod 512 + Z.of_nat k)) with (Z.to_nat (q mod 512) + k)%nat by lia.
    rewrite list_lookup_total_alt. destruct (lookup_lt_is_Some_2 x (Z.to_nat (q mod 512) + k)) as [y Hy]; [lia|]. by rewrite Hy.
  - rewrite lookup_take_ge by lia. rewrite lookup_ge_None_2; [done|]. rewrite length_seqZ. lia.
Qed.

(** ** Writing *)

Lemma datab_inj V b n i j : NoDup (foot V b n) -> 0 <= i < n -> 0 <= j < n -> blk V b i = blk V b j -> i = j.
Proof.
  intros Hn Hi Hj E. unfold foot in Hn. apply NoDup_app in Hn as (_ & _ & Hn). unfold datab in Hn.
  assert (H : forall k, 0 <= k < n -> (blk V b <$> seqZ 0 n) !! Z.to_nat k = Some (blk V b k)).
  { intros k Hk. rewrite list_lookup_fmap. rewrite (proj2 (lookup_seqZ 0 n (Z.to_nat k) k)) by lia. done. }
  assert (Z.to_nat i = Z.to_nat j); [|lia]. eapply NoDup_lookup; [exact Hn|by apply H|rewrite E; by apply H].
Qed.

Lemma datab_metab V b n i : NoDup (foot V b n) -> 0 <= i < n -> blk V b i ∉ metab V b n.
Proof.
  intros Hn Hi Hin. unfold foot in Hn. apply NoDup_app in Hn as (_ & Hn & _). apply (Hn _ Hin). apply elem_of_datab. eauto.
Qed.

(** [V'] is [V] after [w] bytes of [buf] were written at [o] in a file of [n] blocks. *)
Record written (V V' : view) (b : list Z) (n o : Z) (buf : list Z) (w : Z) : Prop := {
  wt_other : forall t, t ∉ datab V b n -> V' t = V t;
  wt_valid : forall t, is_Some (V t) -> is_Some (V' t);
  wt_bytes : forall q, 0 <= q < 512 * n ->
    fbyte V' b q = if decide (o <= q < o + w) then buf !!! Z.to_nat (q - o) else fbyte V b q
}.

Lemma written_meta V V' b n o buf w : NoDup (foot V b n) -> written V V' b n o buf w -> forall t, t ∈ metab V b n -> V' t = V t.
Proof.
  intros Hn [H _ _] t Ht. apply H. intros Hd. unfold foot in Hn. apply NoDup_app in Hn as (_ & Hn & _). by apply (Hn t).
Qed.

Lemma written_refl V b n o buf : written V V b n o buf 0.
Proof. split; [done..|]. intros q Hq. by rewrite decide_False by lia. Qed.

Lemma written_app V V1 V2 b n o buf w c : NoDup (foot V b n) -> 0 <= w -> 0 <= c ->
  written V V1 b n o buf w -> written V1 V2 b n (o + w) (drop (Z.to_nat w) buf) c -> written V V2 b n o buf (w + c).
Proof.
  intros Hn Hw Hc H1 [K1 K2 K3]. pose proof (written_meta _ _ _ _ _ _ _ Hn H1) as Hm. destruct H1 as [J1 J2 J3].
  pose proof (datab_agree V V1 b n n ltac:(lia) Hm) as Hd. split.
  - intros t Ht. rewrite K1 by (by rewrite Hd). by apply J1.
  - auto.
  - intros q Hq. rewrite K3, J3 by done. repeat case_decide; try lia; try done.
    rewrite list_lookup_total_alt, lookup_drop, <- list_lookup_total_alt. f_equal. lia.
Qed.

Lemma written_one V b n o buf c x : NoDup (foot V b n) -> 0 <= o -> 0 < c <= Z.of_nat (length buf) -> o mod 512 + c <= 512 ->
  o / 512 < n -> V (blk V b (o / 512)) = Some x -> length x = 512%nat ->
  written V (vset V (blk V b (o / 512)) (overwrite x (o mod 512) (take (Z.to_nat c) buf))) b n o buf c.
Proof.
  intros Hn Ho Hc Hle Hk Hx Hlx. set (k := o / 512) in *. set (V' := vset _ _ _).
  pose proof (Z.mod_pos_bound o 512 ltac:(lia)) as Hm. assert (Hk0 : 0 <= k < n) by (unfold k in *; Z.div_mod_to_equations; lia).
  assert (Ha : forall t, t ∈ metab V b n -> V' t = V t).
  { intros t Ht. apply vset_ne. intros ->. by apply (datab_metab V b n k). }
  split.
  - intros t Ht. apply vset_ne. intros ->. apply Ht. apply elem_of_datab. eauto.
  - intros t Ht. unfold V', vset. case_decide; [by eexists|done].
  - intros q Hq. assert (Hq0 : 0 <= q / 512 < n) by (Z.div_mod_to_equations; lia). unfold fbyte.
    rewrite (blk_agree V V' b n) by done. unfold sec, V', vset. destruct (decide (blk V b (q / 512) = blk V b k)) as [E|E].
    + apply (datab_inj V b n) in E; [|done..]. rewrite E, Hx. simpl. assert (Hd : q - o = q mod 512 - o mod 512) by (unfold k in E; Z.div_mod_to_equations; lia).
      pose proof (Z.mod_pos_bound q 512 ltac:(lia)). rewrite overwrite_lookup by (rewrite ?length_take; lia).
      rewrite length_take. repeat case_decide; try lia.
      rewrite list_lookup_total_alt, lookup_take_lt, <- list_lookup_total_alt by lia. f_equal. lia.
    + rewrite decide_False; [done|]. intros Hr. apply E. f_equal. unfold k. Z.div_mod_to_equations. lia.
Qed.

Section IO.
Context {junk zeros : list Z} {oom : Z -> bool} `{Hmem : !good_memory junk zeros oom}.
#[local] Set Default Proof Using "All".

(** What one round of either loop finds out, at a position inside the file. *)
Lemma chunk_setup s p i b offset : ready s -> opened s p i b -> 0 <= offset < flen b ->
  exists s1 s2 x, byte_to_sector junk oom s p offset = Ret (s1, blk (vw s) b (offset / 512)) /\
    inode_length junk s1 p = Ret (s2, flen b) /\ moves s s2 (vw s) /\ vw s (blk (vw s) b (offset / 512)) = Some x /\ length x = 512%nat.
Proof.
  intros Hr Ho Hp. destruct (byte_to_sector_ok s p i b offset Hr Ho Hp) as (s1 & E1 & Hm1).
  destruct (opened_same _ _ _ _ _ Hm1 Ho) as [K1 _ K3 _ _].
  destruct (length_ok s1 p i b (mv_ready _ _ _ Hm1) K1 K3) as (s2 & E2 & Hm2).
  destruct (op_foot _ _ _ _ Ho (blk (vw s) b (offset / 512))) as [x Hx].
  { unfold foot. apply elem_of_app. right. apply elem_of_datab. exists (offset / 512). split; [|done]. unfold nblk. Z.div_mod_to_equations. lia. }
  exists s1, s2, x. split_and!; try done; [by eapply moves_same|by eapply view_length].
Qed.

Lemma chunk_arith offset len size : 0 <= offset < len -> len <= 512 * max_blocks -> 0 < size < 2 ^ 31 ->
  let c := Z.min size (Z.min (len - offset) (512 - offset mod 512)) in
  Z.rem offset 512 = offset mod 512 /\ off_t (len - offset) = Ret (len - offset) /\ off_t (offset + 512) = Ret (offset + 512) /\
  u32 c = c /\ 0 < c <= size /\ offset + c <= len /\ offset mod 512 + c <= 512 /\
  s32 (size - c) = size - c /\ s32 (offset + c) = offset + c.
Proof.
  intros H1 H2 H3 c. unfold max_blocks in H2. pose proof (Z.mod_pos_bound offset 512 ltac:(lia)).
  assert (0 < c <= size /\ offset + c <= len /\ offset mod 512 + c <= 512) by (unfold c; lia).
  rewrite Z.rem_mod_nonneg by lia. unfold off_t. rewrite !bool_decide_eq_true_2 by lia. rewrite u32_small, !s32_small by lia. naive_solver.
Qed.

(** ** Reading *)

Lemma read_chunk_ok s p i b size offset data : ready s -> opened s p i b -> 0 <= offset < flen b -> 0 < size < 2 ^ 31 ->
  let c := Z.min size (Z.min (flen b - offset) (512 - offset mod 512)) in
  0 < c <= size /\ offset + c <= flen b /\
  exists s', read_chunk junk oom p (s, size, offset, data) =
    Ret (inl (s', size - c, offset + c, data ++ (fbyte (vw s) b <$> seqZ offset c))) /\ moves s s' (vw s).
Proof.
  intros Hr Ho Hp Hs c. pose proof (op_len _ _ _ _ Ho) as Hlen.
  destruct (chunk_arith offset (flen b) size) as (A1 & A2 & A3 & A4 & A5 & A6 & A7 & A8 & A9); [lia..|].
  fold c in A4, A5, A6, A7, A8, A9. split; [lia|]. split; [lia|].
  unfold read_chunk. rewrite bool_decide_eq_true_2 by lia.
  destruct (chunk_setup s p i b offset Hr Ho ltac:(lia)) as (s1 & s2 & x & -> & E2 & Hm2 & Hx & Hlx). cbn [rbind]. rewrite E2. cbn [rbind].
  change DISK_SECTOR_SIZE with 512. rewrite A1, A2. cbn [rbind]. fold c. rewrite A4. rewrite bool_decide_eq_false_2 by lia.
  pose proof (Z.mod_pos_bound offset 512 ltac:(lia)).
  destruct (rd_ok s2 (blk (vw s) b (offset / 512)) x (offset mod 512) c) as (s3 & -> & Hm3 & Hc3);
    [apply Hm2|by rewrite (mv_view _ _ _ Hm2)|lia..|]. cbn [rbind]. pose proof (moves_same _ _ _ _ Hm2 Hm3) as Hm13.
  destruct (put_cache_ok s3 _ (mv_ready _ _ _ Hm3) Hc3) as (s4 & -> & Hm4). cbn [assert_ rbind]. rewrite A3. cbn [rbind].
  pose proof (moves_same _ _ _ _ Hm13 Hm4) as Hm14. pose proof (opened_same _ _ _ _ _ Hm14 Ho) as Ho4.
  rewrite A8, A9, (slice_fbyte (vw s) b offset c x) by (done || lia).
  assert (Hahead : exists s5 a, byte_to_sector junk oom s4 p (offset + 512) = Ret (s5, a) /\ moves s4 s5 (vw s4)).
  { destruct (decide (offset + 512 < flen b)).
    - destruct (byte_to_sector_ok s4 p i b (offset + 512)) as (s5 & -> & ?); [apply Hm4|done|lia|eauto].
    - destruct (byte_to_sector_end s4 p i b (offset + 512)) as (s5 & -> & ?); [apply Hm4|done|lia|eauto]. }
  destruct Hahead as (s5 & a & -> & Hm5). cbn [rbind]. pose proof (moves_same _ _ _ _ Hm14 Hm5) as Hm15.
  case_bool_decide as Ha; cbn [rbind]; [|eauto].
  pose proof (mv_ready _ _ _ Hm15) as Hr5.
  destruct (cache_read_ahead_ok (cd s5) a (rdy_ok _ Hr5) (rdy_ra _ Hr5)) as (c' & -> & Hst). cbn [rbind]. eexists; split; [done|].
  eapply moves_same; [done|]. by apply stored_moves.
Qed.

Lemma read_at_ok s p i b size offset : ready s -> opened s p i b -> 0 <= size < 2 ^ 31 -> 0 <= offset <= flen b ->
  exists s', inode_read_at junk oom s p size offset = Ret (s', fbyte (vw s) b <$> seqZ offset (Z.min size (flen b - offset))) /\ moves s s' (vw s).
Proof.
  intros Hr Ho Hs Hof. unfold inode_read_at. set (e := Z.min size (flen b - offset)).
  destruct (iter_total (fun '(s', sz, o, data) => moves s s' (vw s) /\ exists k, 0 <= k <= e /\ sz = size - k /\ o = offset + k /\ data = fbyte (vw s) b <$> seqZ offset k)
    (fun '(_, sz, _, _) => Z.to_nat sz) (fun '(s', d) => moves s s' (vw s) /\ d = fbyte (vw s) b <$> seqZ offset e)
    (read_chunk junk oom p)) with (fuel := S (Z.to_nat size)) (s := (s, size, offset, @nil Z)) as ([s' d] & E & Hm & ->).
  - intros [[[s' sz] o] data] (Hm & k & Hk & -> & -> & ->). pose proof (opened_same _ _ _ _ _ Hm Ho) as Ho'. pose proof (mv_ready _ _ _ Hm) as Hr'.
    destruct (decide (k = e)) as [->|Hne].
    + right. destruct (decide (e = size)) as [He|He].
      { exists (s', fbyte (vw s) b <$> seqZ offset e). split; [|done]. unfold read_chunk. rewrite bool_decide_eq_false_2 by lia. done. }
      assert (Hend : offset + e = flen b) by lia. rewrite Hend.
      destruct (byte_to_sector_end s' p i b (flen b)) as (s1 & E1 & Hm1); [done|done|lia|].
      destruct (opened_same _ _ _ _ _ Hm1 Ho') as [K1 _ K3 K4 _].
      destruct (length_ok s1 p i b (mv_ready _ _ _ Hm1) K1 K3) as (s2 & E2 & Hm2).
      exists (s2, fbyte (vw s) b <$> seqZ offset e). split; [|split; [|done]].
      * unfold read_chunk. rewrite bool_decide_eq_true_2 by lia. rewrite E1. cbn [rbind]. rewrite E2. cbn [rbind].
        unfold off_t. rewrite Z.sub_diag, bool_decide_eq_true_2 by lia. cbn [rbind]. change DISK_SECTOR_SIZE with 512.
        rewrite Z.rem_mod_nonneg by lia. pose proof (Z.mod_pos_bound (flen b) 512 ltac:(lia)).
        replace (Z.min (size - e) (Z.min 0 (512 - flen b mod 512))) with 0 by lia. by rewrite bool_decide_eq_true_2 by (by unfold u32).
      * eapply moves_same; [by eapply moves_same|]. done.
    + left. destruct (read_chunk_ok s' p i b (size - k) (offset + k) (fbyte (vw s) b <$> seqZ offset k)) as (C1 & C2 & s2 & -> & Hm2); [done|done|lia..|].
      set (c := Z.min (size - k) _) in *. eexists; split; [done|]. split; [|simpl; lia]. split; [by eapply moves_same|].
      exists (k + c). split_and!; [lia..|]. rewrite seqZ_app, fmap_app by lia. f_equal.
      apply list_fmap_ext. intros j q Hq. apply lookup_seqZ in Hq as [-> Hq]. unfold fbyte, sec.
      rewrite (blk_agree (vw s) (vw s') b (nblk (flen b))); [by rewrite (mv_view _ _ _ Hm)|by intros; apply Hm|].
      unfold nblk. Z.div_mod_to_equations. lia.
  - split; [by apply moves_refl|]. exists 0. split_and!; try lia; done.
  - lia.
  - exists s'. split; [exact E|done].
Qed.

(** ** The loop of [inode_write_at] *)

Lemma write_chunk_ok s p i b buf size offset w : ready s -> opened s p i b -> NoDup (foot (vw s) b (nblk (flen b))) ->
  0 <= offset < flen b -> 0 < size < 2 ^ 31 -> offset + size <= flen b -> 0 <= w -> w + size <= Z.of_nat (length buf) -> w + size < 2 ^ 31 ->
  let c := Z.min size (Z.min (flen b - offset) (512 - offset mod 512)) in
  0 < c <= size /\ exists s' V', write_chunk junk oom p buf (s, size, offset, w) = Ret (inl (s', size - c, offset + c, w + c)) /\
    moves s s' V' /\ written (vw s) V' b (nblk (flen b)) offset (drop (Z.to_nat w) buf) c.
Proof.
  intros Hr Ho Hn Hp Hs Hin Hw Hwl Hwm c. pose proof (op_len _ _ _ _ Ho) as Hlen.
  destruct (chunk_arith offset (flen b) size) as (A1 & A2 & _ & A4 & A5 & A6 & A7 & A8 & A9); [lia..|].
  fold c in A4, A5, A6, A7, A8, A9. split; [lia|]. unfold write_chunk. rewrite bool_decide_eq_true_2 by lia.
  destruct (chunk_setup s p i b offset Hr Ho ltac:(lia)) as (s1 & s2 & x & -> & E2 & Hm2 & Hx & Hlx). cbn [rbind]. rewrite E2. cbn [rbind].
  change DISK_SECTOR_SIZE with 512. rewrite A1, A2. cbn [rbind]. fold c. rewrite A4. rewrite bool_decide_eq_false_2 by lia.
  pose proof (Z.mod_pos_bound offset 512 ltac:(lia)).
  destruct (wr_ok s2 (blk (vw s) b (offset / 512)) x (drop (Z.to_nat w) buf) (offset mod 512) c) as (s3 & -> & Hm3 & Hc3);
    [apply Hm2|by rewrite (mv_view _ _ _ Hm2)|lia|rewrite length_drop; lia|lia|]. cbn [rbind].
  destruct (put_cache_ok s3 _ (mv_ready _ _ _ Hm3) Hc3) as (s4 & -> & Hm4). cbn [negb rbind].
  rewrite A8, A9, s32_small by lia. eexists _, _. split; [done|]. split.
  - eapply moves_same; [|exact Hm4]. by eapply moves_vset.
  - eapply written_one; try done; [lia|rewrite length_drop; lia|]. unfold nblk. Z.div_mod_to_equations. lia.
Qed.

Lemma write_loop_ok s p i b buf size offset : ready s -> opened s p i b -> NoDup (sector i :: foot (vw s) b (nblk (flen b))) ->
  0 <= size <= Z.of_nat (length buf) -> 0 <= offset -> offset + size <= flen b ->
  exists s' V', iter (S (Z.to_nat size)) (write_chunk junk oom p buf) (s, size, offset, 0) = Ret (s', size) /\
    moves s s' V' /\ written (vw s) V' b (nblk (flen b)) offset buf size.
Proof.
  intros Hr Ho Hnd Hs Hof Hin. apply NoDup_cons in Hnd as [Hni Hn]. pose proof (op_len _ _ _ _ Ho) as Hlen. unfold max_blocks in Hlen.
  destruct (iter_total (fun '(s', sz, o, w) => 0 <= w <= size /\ sz = size - w /\ o = offset + w /\
      exists V', moves s s' V' /\ written (vw s) V' b (nblk (flen b)) offset buf w)
    (fun '(_, sz, _, _) => Z.to_nat sz) (fun '(s', w) => w = size /\ exists V', moves s s' V' /\ written (vw s) V' b (nblk (flen b)) offset buf size)
    (write_chunk junk oom p buf)) with (fuel := S (Z.to_nat size)) (s := (s, size, offset, 0)) as ([s' w] & E & -> & V' & H).
  - intros [[[s' sz] o] w] (Hw & -> & -> & V' & Hm & Hwr). destruct (decide (w = size)) as [->|Hne].
    { right. exists (s', size). split; [unfold write_chunk; by rewrite bool_decide_eq_false_2 by lia|eauto]. }
    left. pose proof (written_meta _ _ _ _ _ _ _ Hn Hwr) as Hmeta. pose proof (mv_view _ _ _ Hm) as Hv.
    assert (Ho' : opened s' p i b).
    { eapply opened_moves; [done..| |done|apply Hwr]. rewrite (wt_other _ _ _ _ _ _ _ Hwr); [apply Ho|].
      intros Hd. apply Hni. unfold foot. apply elem_of_app. by right. }
    assert (Hf : foot (vw s') b (nblk (flen b)) = foot (vw s) b (nblk (flen b))).
    { apply foot_agree. intros t Ht. rewrite Hv. by apply Hmeta. }
    destruct (write_chunk_ok s' p i b buf (size - w) (offset + w) w) as (C1 & s2 & V2 & -> & Hm2 & Hw2);
      [apply Hm|done|by rewrite Hf|lia..|]. set (c := Z.min _ _) in *.
    eexists; split; [done|]. split; [|simpl; lia]. split; [lia|]. split; [lia|]. split; [lia|]. exists V2. split; [by eapply moves_trans|].
    eapply (written_app _ (vw s')); [done|lia|lia| |done]. destruct Hwr as [J1 J2 J3]. split.
    + intros t Ht. rewrite Hv. by apply J1.
    + intros t Ht. rewrite Hv. by apply J2.
    + intros q Hq. rewrite <- J3 by done. unfold fbyte, sec. assert (0 <= q / 512 < nblk (flen b)) by (Z.div_mod_to_equations; lia).
      rewrite (blk_agree (vw s) (vw s') b (nblk (flen b))), (blk_agree (vw s) V' b (nblk (flen b))), Hv; try done.
      intros t Ht. rewrite Hv. by apply Hmeta.
  - split; [lia|]. split; [lia|]. split; [lia|]. exists (vw s). split; [by apply moves_refl|apply written_refl].
  - lia.
  - exists s', V'. done.
Qed.

(** A write that does not have to extend the file. *)
Lemma write_inside W s p i b buf size offset : ready s -> opened s p i b -> NoDup (sector i :: foot (vw s) b (nblk (flen b))) ->
  deny_write_cnt i = 0 -> 0 <= size <= Z.of_nat (length buf) -> 0 <= offset -> offset + size <= flen b ->
  exists s' V', inode_write_at_ junk zeros oom W s p buf size offset = Ret (s', size) /\
    moves s s' V' /\ written (vw s) V' b (nblk (flen b)) offset buf size.
Proof.
  intros Hr Ho Hnd Hdeny Hs Hof Hin. pose proof Ho as [K1 K2 K3 K4 K5]. unfold max_blocks in K4.
  unfold inode_write_at_, get_inode. rewrite K1. cbn [of_opt rbind]. rewrite bool_decide_eq_false_2 by lia.
  destruct (length_ok s p i b Hr K1 K3) as (s1 & -> & Hm1). cbn [rbind]. unfold off_t. rewrite bool_decide_eq_true_2 by lia. cbn [rbind].
  rewrite bool_decide_eq_false_2 by lia. cbn [rbind]. pose proof (mv_view _ _ _ Hm1) as Hv.
  assert (Hf : foot (vw s1) b (nblk (flen b)) = foot (vw s) b (nblk (flen b))) by (apply foot_agree; intros; apply Hv).
  destruct (write_loop_ok s1 p i b buf size offset) as (s' & V' & E & Hm & [J1 J2 J3]);
    [apply Hm1|by eapply opened_same|by rewrite Hf|lia..|]. exists s', V'. split; [done|]. split; [by eapply moves_trans|].
  rewrite (datab_agree (vw s) (vw s1) b _ (nblk (flen b))) in J1 by (done || lia). split.
  - intros t Ht. rewrite J1 by done. apply Hv.
  - intros t Ht. apply J2. by rewrite Hv.
  - intros q Hq. rewrite J3 by done. case_decide; [done|]. unfold fbyte, sec.
    rewrite (blk_agree (vw s) (vw s1) b (nblk (flen b))); [by rewrite Hv|done|Z.div_mod_to_equations; lia].
Qed.
End IO.
