(* ===== verification/InodeGrow.v ===== *)
(** * Allocating sectors and extending files *)

From S2P Require Import Prelude Bitmap Cache CacheProof Inode InodeView InodeOps InodeIO.

(** ** The sectors of all files *)

Definition blks (V : view) (t : Z) : Z := nblk (flen (sec V t)).
Definition whole (V : view) (t : Z) : list Z := t :: foot V (sec V t) (blks V t).
Definition owned (V : view) (G : list Z) : list Z := concat (whole V <$> G).
Definition tree (V : view) (t : Z) : list Z := t :: metab V (sec V t) (blks V t).

Lemma elem_of_concat_fmap {A} (f : A -> list Z) (l : list A) x : x ∈ concat (f <$> l) <-> exists a, a ∈ l /\ x ∈ f a.
Proof. induction l as [|a l IH]; simpl; [set_solver|]. rewrite elem_of_app, IH. set_solver. Qed.

Lemma elem_of_owned V G t : t ∈ owned V G <-> exists g, g ∈ G /\ t ∈ whole V g.
Proof. apply elem_of_concat_fmap. Qed.

Lemma NoDup_concat_fmap {A} (f : A -> list Z) (l : list A) : NoDup (concat (f <$> l)) ->
  (forall a, a ∈ l -> NoDup (f a)) /\ (forall a a' x, a ∈ l -> a' ∈ l -> a <> a' -> x ∈ f a -> x ∈ f a' -> False).
Proof.
  induction l as [|a l IH]; simpl; intros Hn; [split; intros * H; by apply elem_of_nil in H|].
  apply NoDup_app in Hn as (H1 & H2 & H3). apply IH in H3 as [H3 H4]. split.
  - intros a' [->|Ha]%elem_of_cons; auto.
  - intros b b' x [->|Hb]%elem_of_cons [->|Hb']%elem_of_cons Hne Hx Hx'; [done| | |exact (H4 b b' x Hb Hb' Hne Hx Hx')].
    + apply (H2 x Hx). apply elem_of_concat_fmap. eauto.
    + apply (H2 x Hx'). apply elem_of_concat_fmap. eauto.
Qed.

Lemma tree_whole V t x : x ∈ tree V t -> x ∈ whole V t.
Proof. intros [->|H]%elem_of_cons; apply elem_of_cons; [by left|right]. apply elem_of_app. by left. Qed.

Lemma data_whole V t x : x ∈ datab V (sec V t) (blks V t) -> x ∈ whole V t.
Proof. intros H. apply elem_of_cons. right. apply elem_of_app. by right. Qed.

Lemma whole_agree V V' t : (forall x, x ∈ tree V t -> V' x = V x) -> whole V' t = whole V t /\ sec V' t = sec V t.
Proof.
  intros Ha. assert (Hs : sec V' t = sec V t) by (unfold sec; rewrite Ha; [done|apply elem_of_cons; by left]).
  split; [|done]. unfold whole, blks. rewrite Hs. f_equal. apply foot_agree. intros x Hx. apply Ha. apply elem_of_cons. by right.
Qed.

Lemma owned_agree V V' G : (forall g x, g ∈ G -> x ∈ tree V g -> V' x = V x) -> owned V' G = owned V G.
Proof.
  intros Ha. unfold owned. f_equal. apply list_fmap_ext. intros k g Hg. apply whole_agree. intros x Hx.
  eapply Ha; [|done]. by eapply list_elem_of_lookup_2.
Qed.

(** ** The invariant *)

(** The open file of the free map. *)
Definition fm_handle (s : fs) : Prop := exists fl i,
  files s !! free_map_file s = Some fl /\ inodes s !! f_inode fl = Some i /\ f_inode fl <> NULL /\
  sector i = FREE_MAP_SECTOR /\ deny_write_cnt i = 0.

(** The free map file is a file large enough for the map. *)
Record fm_file (s : fs) (G : list Z) : Prop := {
  fm_open : fm_handle s;
  fm_in : FREE_MAP_SECTOR ∈ G;
  fm_nodir : sec (vw s) FREE_MAP_SECTOR !!! Z.to_nat f_is_dir = 0;
  fm_size : byte_cnt (bit_cnt (free_map s)) <= flen (sec (vw s) FREE_MAP_SECTOR)
}.

(** It holds the map that is in memory. *)
Definition synced (s : fs) : Prop := forall q, 0 <= q < byte_cnt (bit_cnt (free_map s)) ->
  fbyte (vw s) (sec (vw s) FREE_MAP_SECTOR) q = words_bytes (bits (free_map s)) !!! Z.to_nat q.

(** The files with inodes at [G] and the sectors [X] of a file under construction are
    on the disk, no sector has two uses, and every sector in use is marked. *)
Record inv (s : fs) (X G : list Z) : Prop := {
  iv_ready : ready s;
  iv_wf : wf (free_map s);
  iv_dom : forall t, is_Some (vw s t) <-> 0 <= t < bit_cnt (free_map s);
  iv_len : forall g, g ∈ G -> 0 <= flen (sec (vw s) g) <= 512 * max_blocks;
  iv_nodup : NoDup (X ++ owned (vw s) G);
  iv_used : forall t, t ∈ X ++ owned (vw s) G -> 0 <= t < bit_cnt (free_map s) /\ bit (free_map s) t = true;
  iv_fm : free_map_file s <> NULL -> fm_file s G /\ synced s
}.

Lemma inv_perm s X X' G : X ≡ₚ X' -> inv s X G -> inv s X' G.
Proof.
  intros Hp []. split; try done; [by rewrite <- Hp|]. intros t. rewrite <- Hp. auto.
Qed.

(** The data of the free map file. *)
Definition fm_data (s : fs) : list Z :=
  if bool_decide (free_map_file s = NULL) then []
  else datab (vw s) (sec (vw s) FREE_MAP_SECTOR) (blks (vw s) FREE_MAP_SECTOR).

Lemma fm_data_owned s X G t : inv s X G -> t ∈ fm_data s -> t ∈ owned (vw s) G.
Proof.
  intros Hi. unfold fm_data. case_bool_decide as E; [by intros ?%elem_of_nil|]. intros Ht.
  destruct (iv_fm _ _ _ Hi E) as [[_ Hin _ _] _]. apply elem_of_owned. exists FREE_MAP_SECTOR. split; [done|].
  by apply data_whole.
Qed.

(** No inode and no table is in the data of the free map. *)
Lemma fm_data_tree s X G g t : inv s X G -> g ∈ G -> t ∈ tree (vw s) g -> t ∉ fm_data s.
Proof.
  intros Hi Hg Ht Hd. unfold fm_data in Hd. case_bool_decide as E; [by apply elem_of_nil in Hd|].
  destruct (iv_fm _ _ _ Hi E) as [[_ Hin _ _] _]. pose proof (iv_nodup _ _ _ Hi) as Hn. apply NoDup_app in Hn as (_ & _ & Hn).
  apply NoDup_concat_fmap in Hn as [Hn1 Hn2]. destruct (decide (g = FREE_MAP_SECTOR)) as [->|Hne].
  - specialize (Hn1 _ Hin). unfold whole, foot in Hn1. apply NoDup_cons in Hn1 as [Hn1 Hn3]. apply NoDup_app in Hn3 as (_ & Hn3 & _).
    apply elem_of_cons in Ht as [->|Ht]; [|by apply (Hn3 t)]. apply Hn1, elem_of_app. by right.
  - eapply Hn2; [exact Hg|exact Hin|done|by apply tree_whole|by apply data_whole].
Qed.

Lemma inv_fm_disjoint s X G t : inv s X G -> t ∈ X -> t ∉ fm_data s.
Proof.
  intros Hi Hx Hd. apply (fm_data_owned _ _ _ _ Hi) in Hd. pose proof (iv_nodup _ _ _ Hi) as Hn. apply NoDup_app in Hn as (_ & Hn & _).
  by apply (Hn t).
Qed.

Lemma blk_in_whole V g q : 0 <= q < flen (sec V g) -> blk V (sec V g) (q / 512) ∈ whole V g.
Proof.
  intros Hq. unfold whole, foot. apply elem_of_cons. right. apply elem_of_app. right. apply elem_of_datab.
  exists (q / 512). split; [|done]. unfold blks, nblk. Z.div_mod_to_equations. lia.
Qed.

Lemma fbyte_agree V V' g q : (forall x, x ∈ whole V g -> V' x = V x) -> 0 <= q < flen (sec V g) ->
  fbyte V' (sec V' g) q = fbyte V (sec V g) q.
Proof.
  intros Ha Hq. destruct (whole_agree V V' g) as [_ Hs]; [intros; by apply Ha, tree_whole|]. rewrite Hs. unfold fbyte.
  assert (Hb : blk V' (sec V g) (q / 512) = blk V (sec V g) (q / 512)).
  { apply (blk_agree V V' _ (blks V g)); [|unfold blks, nblk; Z.div_mod_to_equations; lia].
    intros x Hx. apply Ha, tree_whole, elem_of_cons. by right. }
  rewrite Hb. unfold sec at 1. rewrite Ha by (by apply blk_in_whole). done.
Qed.

(** Steps that leave the files alone. *)
Lemma inv_frame s s' X G : inv s X G -> ready s' -> free_map s' = free_map s -> free_map_file s' = free_map_file s ->
  (fm_handle s -> fm_handle s') -> (forall t, t ∈ owned (vw s) G -> vw s' t = vw s t) ->
  (forall t, is_Some (vw s' t) <-> is_Some (vw s t)) -> inv s' X G.
Proof.
  intros [H1 H2 H3 H4 H5 H6 H7] Hr Hm Hf Hh Hv Hd.
  assert (Hw : forall g, g ∈ G -> forall x, x ∈ whole (vw s) g -> vw s' x = vw s x).
  { intros g Hg x Hx. apply Hv. apply elem_of_owned. eauto. }
  assert (Hs : forall g, g ∈ G -> sec (vw s') g = sec (vw s) g).
  { intros g Hg. unfold sec. rewrite (Hw g Hg); [done|]. apply elem_of_cons. by left. }
  assert (Ho : owned (vw s') G = owned (vw s) G).
  { apply owned_agree. intros g x Hg Hx. eapply Hw; [done|]. by apply tree_whole. }
  split; rewrite ?Hm, ?Ho, ?Hf; try done.
  - intros t. rewrite Hd. apply H3.
  - intros g Hg. rewrite Hs by done. auto.
  - intros Hn. destruct (H7 Hn) as [[F1 F2 F3 F4] F5]. split.
    + split; rewrite ?Hm, ?Hs; auto.
    + intros q Hq. rewrite Hm in *. rewrite <- F5 by done. apply fbyte_agree; [by apply Hw|]. lia.
Qed.

Lemma handle_rest s s' : rest s' = rest s -> fm_handle s -> fm_handle s'.
Proof. unfold rest, fm_handle. intros [= E1 E2 E3 E4 E5 E6]. by rewrite E1, E3, E4. Qed.
Lemma rest_fmfile s s' : rest s' = rest s -> free_map_file s' = free_map_file s.
Proof. unfold rest. congruence. Qed.

Lemma inv_moves s s' X G v : inv s X G -> moves s s' v -> (forall t, t ∈ owned (vw s) G -> v t = vw s t) ->
  (forall t, is_Some (v t) <-> is_Some (vw s t)) -> inv s' X G.
Proof.
  intros Hi [M1 M2 M3 M4 M5] Hv Hd. eapply inv_frame; try done.
  - by apply rest_fmfile.
  - by apply handle_rest.
  - intros t Ht. rewrite M2. auto.
  - intros t. by rewrite M2.
Qed.

Lemma inv_opened s X G g p i : inv s X G -> g ∈ G -> inodes s !! p = Some i -> sector i = g -> p <> NULL ->
  opened s p i (sec (vw s) g) /\ NoDup (sector i :: foot (vw s) (sec (vw s) g) (nblk (flen (sec (vw s) g)))).
Proof.
  intros Hi Hg Hp Hs Hn. pose proof (iv_nodup _ _ _ Hi) as Hnd. apply NoDup_app in Hnd as (_ & _ & Hnd).
  apply NoDup_concat_fmap in Hnd as [Hnd _]. split; [|rewrite Hs; by apply (Hnd g)].
  assert (Hu : forall t, t ∈ whole (vw s) g -> is_Some (vw s t)).
  { intros t Ht. apply (iv_dom _ _ _ Hi), (iv_used _ _ _ Hi). apply elem_of_app. right. apply elem_of_owned. eauto. }
  split; [done|done| |by eapply iv_len|].
  - rewrite Hs. destruct (Hu g) as [x Hx]; [apply elem_of_cons; by left|]. unfold sec. by rewrite Hx.
  - intros t Ht. apply Hu. apply elem_of_cons. by right.
Qed.

(** ** Allocation of a sector *)

Definition free_sectors (b : bitmap) : list Z := filter (fun j => bit b j = false) (seqZ 0 (bit_cnt b)).

Lemma free_sectors_take b b' a : bit_cnt b' = bit_cnt b -> 0 <= a < bit_cnt b -> bit b a = false ->
  (forall j, 0 <= j -> bit b' j = if in_range a 1 j then true else bit b j) ->
  length (free_sectors b) = S (length (free_sectors b')).
Proof.
  intros Hc Ha Hf Hb. change (S (length (free_sectors b'))) with (length (a :: free_sectors b')). apply Permutation_length, NoDup_Permutation.
  - apply NoDup_filter, NoDup_seqZ.
  - apply NoDup_cons. split; [|apply NoDup_filter, NoDup_seqZ]. unfold free_sectors. rewrite list_elem_of_filter. intros [H _].
    rewrite Hb in H by lia. by rewrite (proj2 (in_range_spec a 1 a)) in H by lia.
  - intros x. unfold free_sectors. rewrite elem_of_cons, !list_elem_of_filter, !elem_of_seqZ, Hc. destruct (decide (x = a)) as [->|Hne].
    + split; [by left|]. intros _. split; [done|lia].
    + split.
      * intros [H1 H2]. right. split; [|done]. rewrite Hb by lia. destruct (in_range a 1 x) eqn:E; [|done]. apply in_range_spec in E. lia.
      * intros [->|[H1 H2]]; [done|]. split; [|done]. rewrite Hb in H1 by lia. by destruct (in_range a 1 x).
Qed.

Lemma opened_with_map s b p i x : opened (with_map s b) p i x <-> opened s p i x.
Proof. split; intros []; by split. Qed.

Section Grow.
Context {junk zeros : list Z} {oom : Z -> bool} `{Hmem : !good_memory junk zeros oom}.
#[local] Set Default Proof Using "All".

Lemma write_free_map_ok W s G : ready s -> wf (free_map s) -> free_map_file s <> NULL -> fm_file s G ->
  (forall p i, inodes s !! p = Some i -> sector i = FREE_MAP_SECTOR -> p <> NULL -> opened s p i (sec (vw s) FREE_MAP_SECTOR) /\
     NoDup (sector i :: foot (vw s) (sec (vw s) FREE_MAP_SECTOR) (blks (vw s) FREE_MAP_SECTOR))) ->
  exists s' V', write_free_map junk oom (inode_write_at_ junk zeros oom W) s = Ret (s', true) /\ moves s s' V' /\
    written (vw s) V' (sec (vw s) FREE_MAP_SECTOR) (blks (vw s) FREE_MAP_SECTOR) 0 (words_bytes (bits (free_map s))) (byte_cnt (bit_cnt (free_map s))).
Proof.
  intros Hr Hwf Hn [(fl & i & F1 & F2 & F3 & F4 & F5) _ Hnd Hsz] Hop. destruct (Hop _ _ F2 F4 F3) as [Ho Hd]. clear Hop.
  unfold write_free_map, file_write_at_, get_file. rewrite F1. cbn [of_opt rbind].
  unfold inode_dir_check. destruct (scratch_ok s Hr) as (s1 & q & -> & Hm1 & _). cbn [rbind].
  destruct (opened_same _ _ _ _ _ Hm1 Ho) as [K1 _ K3 _ _].
  destruct (read_inode s1 _ i _ (mv_ready _ _ _ Hm1) K1 K3) as (s2 & E2 & Hm2). unfold get_inode in *. rewrite K1 in *. cbn [of_opt rbind] in *.
  rewrite E2. cbn [rbind]. rewrite Hnd. rewrite bool_decide_eq_false_2 by lia. cbn [rbind].
  pose proof (moves_same _ _ _ _ Hm1 Hm2) as Hm12. pose proof (mv_view _ _ _ Hm12) as Hv.
  set (b0 := sec (vw s) FREE_MAP_SECTOR) in *. set (V := vw s) in *.
  assert (Hbc : byte_cnt (bit_cnt (free_map s)) = 4 * ((bit_cnt (free_map s) + 31) / 32)).
  { pose proof (wf_cnt _ Hwf). unfold byte_cnt, SIZEOF_ELEM. rewrite elem_cnt_exact by done. apply u32_small. Z.div_mod_to_equations. lia. }
  pose proof (wf_len _ Hwf) as Hwl.
  assert (Hf : foot (vw s2) b0 (blks V FREE_MAP_SECTOR) = foot V b0 (blks V FREE_MAP_SECTOR)) by (apply foot_agree; intros; apply Hv).
  destruct (write_inside W s2 (f_inode fl) i b0 (words_bytes (bits (free_map s))) (byte_cnt (bit_cnt (free_map s))) 0)
    as (s3 & V' & E3 & Hm3 & [J1 J2 J3]).
  - apply Hm2.
  - by eapply opened_same.
  - unfold blks in Hf. fold b0 in Hf. by rewrite Hf.
  - done.
  - rewrite words_bytes_length. pose proof (wf_cnt _ Hwf). Z.div_mod_to_equations. lia.
  - lia.
  - lia.
  - rewrite E3. cbn [rbind]. exists s3, V'. split; [|split; [by eapply moves_trans|]].
    + unfold bitmap_write. by rewrite bool_decide_eq_true_2.
    + change (nblk (flen b0)) with (blks V FREE_MAP_SECTOR) in *.
      rewrite (datab_agree V (vw s2) b0 _ (blks V FREE_MAP_SECTOR)) in J1 by (done || lia). split.
      * intros t Ht. rewrite J1 by done. apply Hv.
      * intros t Ht. apply J2. by rewrite Hv.
      * intros k Hk. rewrite J3 by done. case_decide; [done|]. unfold fbyte, sec.
        rewrite (blk_agree V (vw s2) b0 (blks V FREE_MAP_SECTOR)); [by rewrite Hv|done|Z.div_mod_to_equations; lia].
Qed.

Lemma alloc_ok W s X G : inv s X G -> free_sectors (free_map s) <> [] ->
  exists s' a, free_map_allocate_ junk oom (inode_write_at_ junk zeros oom W) s 1 = Ret (s', Some a) /\
    inv s' (a :: X) G /\ (a ∉ X ++ owned (vw s) G) /\ 0 <= a < bit_cnt (free_map s) /\
    (forall t, t ∉ fm_data s -> vw s' t = vw s t) /\ fm_data s' = fm_data s /\ owned (vw s') G = owned (vw s) G /\
    rest s' = rest s /\ bit_cnt (free_map s') = bit_cnt (free_map s) /\ next s <= next s' /\
    length (free_sectors (free_map s)) = S (length (free_sectors (free_map s'))).
Proof.
  intros Hi Hfree. pose proof Hi as [H1 H2 H3 H4 H5 H6 H7]. pose proof (wf_cnt _ H2) as Hcnt.
  unfold free_map_allocate_. destruct (bitmap_scan_and_flip_ok (free_map s) 0 1 false H2) as [[_ Hno]|(a & b & -> & Hne & Ha0 & Ha & Hg & _ & Hu)]; [lia..| |].
  { exfalso. destruct (free_sectors (free_map s)) as [|j l] eqn:E; [done|].
    assert (Hj : j ∈ free_sectors (free_map s)) by (rewrite E; by left). unfold free_sectors in Hj.
    apply list_elem_of_filter in Hj as [Hj1 Hj2%elem_of_seqZ]. apply (Hno j); [lia|lia|]. intros k Hk. by replace k with j by lia. }
  cbn [rbind]. rewrite bool_decide_eq_true_2 by done. destruct Hu as [U1 U2 U3 U4].
  assert (Hbit : bit (free_map s) a = false) by (apply Hg; lia).
  assert (Hfresh : a ∉ X ++ owned (vw s) G) by (intros [_ Ht]%H6; congruence).
  assert (Hfs : length (free_sectors (free_map s)) = S (length (free_sectors b))) by (by apply (free_sectors_take _ _ a); [|lia| |]).
  assert (Hused : forall t, t ∈ (a :: X ++ owned (vw s) G) -> 0 <= t < bit_cnt b /\ bit b t = true).
  { intros t Ht. rewrite U2. apply elem_of_cons in Ht as [->|Ht].
    - split; [lia|]. rewrite U4 by lia. by rewrite (proj2 (in_range_spec a 1 a)) by lia.
    - destruct (H6 t Ht) as [Ht1 Ht2]. split; [done|]. rewrite U4 by lia. by destruct (in_range a 1 t). }
  change (free_map_file (with_map s b)) with (free_map_file s). case_bool_decide as Hn.
  - destruct (H7 Hn) as [Hff Hsync]. pose proof Hff as [Q1 Q2 Q3 Q4].
    destruct (write_free_map_ok W (with_map s b) G) as (s' & V' & -> & Hm & Hw).
    + destruct H1; by split.
    + done.
    + done.
    + split; try done. simpl. by rewrite U2.
    + intros p i Hp Hs Hp0. change (vw (with_map s b)) with (vw s). rewrite opened_with_map. exact (inv_opened s X G _ p i Hi Q2 Hp Hs Hp0).
    + cbn [rbind]. change (vw (with_map s b)) with (vw s) in *. change (free_map (with_map s b)) with b in *.
      pose proof (mv_view _ _ _ Hm) as Hv. destruct Hw as [J1 J2 J3].
      assert (Hdata : fm_data s = datab (vw s) (sec (vw s) FREE_MAP_SECTOR) (blks (vw s) FREE_MAP_SECTOR)).
      { unfold fm_data. by rewrite bool_decide_eq_false_2. }
      assert (Hvt : forall t, t ∉ fm_data s -> vw s' t = vw s t) by (intros t Ht; rewrite Hv; apply J1; by rewrite <- Hdata).
      assert (Htree : forall g x, g ∈ G -> x ∈ tree (vw s) g -> vw s' x = vw s x) by (intros g x Hg' Hx; eapply Hvt, fm_data_tree; eauto).
      pose proof (owned_agree _ _ _ Htree) as Hown.
      assert (Hsec : forall g, g ∈ G -> sec (vw s') g = sec (vw s) g) by (intros g Hg'; eapply whole_agree; eauto).
      assert (Hbl : blks (vw s') FREE_MAP_SECTOR = blks (vw s) FREE_MAP_SECTOR) by (unfold blks; by rewrite Hsec).
      exists s', a. split; [done|]. pose proof (mv_map _ _ _ Hm) as Em. simpl in Em. pose proof (mv_rest _ _ _ Hm) as Er.
      change (rest (with_map s b)) with (rest s) in Er.
      split; [|split_and!; try done].
      * split; rewrite ?Em, ?Hown; try done.
        -- apply Hm.
        -- intros t. rewrite U2, <- H3, Hv. split; [|apply J2]. intros Ht. destruct (decide (t ∈ fm_data s)) as [Hin|Hin].
           ++ apply H3, H6, elem_of_app. right. by eapply fm_data_owned.
           ++ rewrite J1 in Ht; [done|]. by rewrite <- Hdata.
        -- intros g Hg'. rewrite Hsec by done. auto.
        -- by apply NoDup_cons.
        -- intros _. split.
           ++ split; rewrite ?Em, ?Hsec, ?U2 by done; try done. by eapply handle_rest.
           ++ intros q Hq. rewrite Em in *. rewrite Hsec by done. unfold fbyte, sec. rewrite !Hv.
              assert (Hq' : 0 <= q < 512 * blks (vw s) FREE_MAP_SECTOR).
              { rewrite U2 in Hq. unfold blks, nblk. Z.div_mod_to_equations. lia. }
              specialize (J3 q Hq'). rewrite decide_True, Z.sub_0_r in J3 by lia. rewrite <- J3. unfold fbyte, sec.
              rewrite (blk_agree V' (vw s') _ (blks (vw s) FREE_MAP_SECTOR)); [done|intros; apply Hv|Z.div_mod_to_equations; lia].
      * lia.
      * rewrite Hdata. unfold fm_data. rewrite (rest_fmfile s s' Er), bool_decide_eq_false_2 by done. rewrite Hbl, Hsec by done.
        apply (datab_agree _ _ _ _ (blks (vw s) FREE_MAP_SECTOR)); [lia|]. intros t Ht. eapply Htree; [exact Q2|]. apply elem_of_cons. by right.
      * by rewrite Em.
      * apply Hm.
      * by rewrite Em.
  - exists (with_map s b), a. split; [done|]. split; [|split_and!; try done; lia]. split; simpl; try done.
    + destruct H1; by split.
    + intros t. rewrite U2. apply H3.
    + by apply NoDup_cons.
Qed.
End Grow.
