(* ===== verification/InodeExpand.v ===== *)
(** * inode_expand: one more block at a time *)

From S2P Require Import Prelude Bitmap Cache CacheProof Inode InodeView InodeOps InodeIO InodeGrow.

(** ** Tables under construction *)

(** The tables of an inode that holds [b]: the indirect one if [i], the doubly indirect
    one if [d], with its first [k] entries. *)
Definition metal (V : view) (b : list Z) (i d : bool) (k : Z) : list Z :=
  (if i then [get32 b f_indirect] else []) ++ (if d then get32 b f_doubly :: (word V (get32 b f_doubly) <$> seqZ 0 k) else []).

Lemma metab_metal V b n : metab V b n = metal V b (bool_decide (64 < n)) (bool_decide (192 < n)) (tables n).
Proof. unfold metab, metal. by repeat case_bool_decide. Qed.

Lemma table_word_ext V V' t k : V' t = V t -> word V' t k = word V t k.
Proof. intros H. unfold word, sec. by rewrite H. Qed.

(** A word of a table after one word was written. *)
Lemma word_put V y t e v e' : length y = 512%nat -> V t = Some (put32 y (4 * e) v) -> 0 <= e < 128 -> 0 <= e' < 128 -> is_u32 v ->
  word V t e' = if decide (e' = e) then v else get32 y (4 * e').
Proof.
  intros Hl HV He He' Hv. unfold word, sec. rewrite HV. simpl. case_decide as Hd.
  - subst. apply get32_put32_eq; lia || done.
  - apply get32_put32_ne; lia.
Qed.

Lemma blk_words V V' b b' j :
  (j < 64 -> get32 b' (f_direct j) = get32 b (f_direct j)) ->
  (64 <= j < 192 -> get32 b' f_indirect = get32 b f_indirect /\ word V' (get32 b f_indirect) (j - 64) = word V (get32 b f_indirect) (j - 64)) ->
  (192 <= j -> get32 b' f_doubly = get32 b f_doubly /\
     word V' (get32 b f_doubly) ((j - 192) / 128) = word V (get32 b f_doubly) ((j - 192) / 128) /\
     word V' (word V (get32 b f_doubly) ((j - 192) / 128)) ((j - 192) mod 128) = word V (word V (get32 b f_doubly) ((j - 192) / 128)) ((j - 192) mod 128)) ->
  blk V' b' j = blk V b j.
Proof.
  intros H1 H2 H3. unfold blk. case_bool_decide; [auto|]. case_bool_decide.
  - destruct H2 as [-> ->]; [lia|done].
  - destruct H3 as (-> & -> & ->); [lia|done].
Qed.

Lemma datab_ext V V' b b' n : (forall j, 0 <= j < n -> blk V' b' j = blk V b j) -> datab V' b' n = datab V b n.
Proof. intros H. unfold datab. apply list_fmap_ext. intros k x Hx. apply lookup_seqZ in Hx as [-> Hx]. apply H. lia. Qed.

Lemma seqZ_snoc m n : 0 <= n -> seqZ m (n + 1) = seqZ m n ++ [m + n].
Proof. intros. rewrite seqZ_app by lia. done. Qed.

Lemma datab_snoc V b n : 0 <= n -> datab V b (n + 1) = datab V b n ++ [blk V b n].
Proof. intros. unfold datab. rewrite seqZ_snoc, fmap_app by lia. done. Qed.

Lemma metal_ext V V' b b' i d k : (i = true -> get32 b' f_indirect = get32 b f_indirect) ->
  (d = true -> get32 b' f_doubly = get32 b f_doubly /\ forall e, 0 <= e < k -> word V' (get32 b f_doubly) e = word V (get32 b f_doubly) e) ->
  metal V' b' i d k = metal V b i d k.
Proof.
  intros Hi Hd. unfold metal. f_equal; [destruct i; [by rewrite Hi|done]|]. destruct d; [|done].
  destruct Hd as [-> Hw]; [done|]. f_equal. apply list_fmap_ext. intros j x Hx. apply lookup_seqZ in Hx as [-> Hx]. apply Hw. lia.
Qed.

Lemma metal_in V b i d k :
  (i = true -> get32 b f_indirect ∈ metal V b i d k) /\
  (d = true -> get32 b f_doubly ∈ metal V b i d k /\ forall e, 0 <= e < k -> word V (get32 b f_doubly) e ∈ metal V b i d k).
Proof.
  unfold metal. split.
  - intros ->. apply elem_of_app. left. by left.
  - intros ->. split; [|intros e He]; apply elem_of_app; right; apply elem_of_cons; [by left|right].
    apply list_elem_of_fmap. exists e. split; [done|]. apply elem_of_seqZ. lia.
Qed.

(** ** What a step leaves alone *)

(** Outside the sectors [D] and the free map file nothing changed. *)
Record quiet (G D : list Z) (s s' : fs) : Prop := {
  qt_view : forall x, x ∉ D -> x ∉ fm_data s -> vw s' x = vw s x;
  qt_fm : fm_data s' = fm_data s;
  qt_owned : owned (vw s') G = owned (vw s) G;
  qt_rest : rest s' = rest s;
  qt_cnt : bit_cnt (free_map s') = bit_cnt (free_map s);
  qt_next : next s <= next s'
}.

Lemma quiet_refl G s : quiet G [] s s.
Proof. by split. Qed.

Lemma quiet_trans G D1 D2 s1 s2 s3 : quiet G D1 s1 s2 -> quiet G D2 s2 s3 -> quiet G (D1 ++ D2) s1 s3.
Proof.
  intros [A1 A2 A3 A4 A5 A6] [B1 B2 B3 B4 B5 B6]. split; try congruence; [|lia].
  intros x Hx Hf. rewrite B1; [apply A1; [|done]|..]; [intros H; apply Hx, elem_of_app; by left|intros H; apply Hx, elem_of_app; by right|by rewrite A2].
Qed.

Lemma moves_quiet s s' X G D v : inv s X G -> moves s s' v -> (forall x, x ∈ D -> x ∉ owned (vw s) G) ->
  (forall x, x ∉ D -> v x = vw s x) -> (forall x, x ∈ D -> is_Some (v x) /\ is_Some (vw s x)) -> inv s' X G /\ quiet G D s s'.
Proof.
  intros Hi Hm HD Hv Hd. pose proof (mv_view _ _ _ Hm) as Hv'. pose proof (rest_fmfile _ _ (mv_rest _ _ _ Hm)) as Hff.
  assert (Ho : forall t, t ∈ owned (vw s) G -> v t = vw s t) by (intros t Ht; apply Hv; intros Hx; by apply (HD t)).
  assert (Htr : forall g x, g ∈ G -> x ∈ tree (vw s) g -> vw s' x = vw s x).
  { intros g x Hg Hx. rewrite Hv'. apply Ho, elem_of_owned. exists g. split; [done|by apply tree_whole]. }
  split.
  - eapply inv_moves; [done..|]. intros t. destruct (decide (t ∈ D)) as [Ht|Ht]; [destruct (Hd t Ht); by split|by rewrite Hv].
  - split; [| | |apply Hm| |apply Hm].
    + intros x Hx _. rewrite Hv'. auto.
    + unfold fm_data. rewrite Hff. case_bool_decide as E; [done|]. destruct (iv_fm _ _ _ Hi E) as [[_ Hin _ _] _].
      destruct (whole_agree (vw s) (vw s') FREE_MAP_SECTOR) as [_ Hs]; [intros; by eapply Htr|]. unfold blks. rewrite Hs.
      apply (datab_agree _ _ _ _ (blks (vw s) FREE_MAP_SECTOR)); [done|]. intros t Ht. eapply Htr; [done|]. apply elem_of_cons. by right.
    + by apply owned_agree.
    + by rewrite (mv_map _ _ _ Hm).
Qed.

Lemma inv_disjoint s X G x : inv s X G -> x ∈ X -> x ∉ owned (vw s) G.
Proof. intros Hi Hx Ho. pose proof (iv_nodup _ _ _ Hi) as Hn. apply NoDup_app in Hn as (_ & Hn & _). by apply (Hn x). Qed.

Lemma inv_valid s X G x : inv s X G -> x ∈ X -> exists y, vw s x = Some y /\ length y = 512%nat /\ is_u32 x.
Proof.
  intros Hi Hx. destruct (iv_used _ _ _ Hi x) as [H1 _]; [apply elem_of_app; by left|]. pose proof (wf_cnt _ (iv_wf _ _ _ Hi)).
  destruct (proj2 (iv_dom _ _ _ Hi x) H1) as [y Hy]. exists y. split; [done|]. split; [by eapply view_length, Hy; apply Hi|]. unfold is_u32. lia.
Qed.

Lemma quiet_in s s' X G D z : inv s X G -> quiet G D s s' -> z ∈ X -> z ∉ D -> vw s' z = vw s z.
Proof. intros Hi Hq Hz Hd. apply Hq; [done|]. by eapply inv_fm_disjoint. Qed.

(** ** A file of [n] blocks under construction *)

Definition sectors_of (V : view) (t : Z) (b : list Z) (i d : bool) (k n : Z) : list Z := t :: metal V b i d k ++ datab V b n.

Record growing (s : fs) (G : list Z) (t : Z) (b : list Z) (i d : bool) (k n : Z) : Prop := {
  gr_inv : inv s (sectors_of (vw s) t b i d k n) G;
  gr_len : length b = 512%nat;
  gr_n : 0 <= n <= max_blocks;
  gr_ind : i = true \/ n <= 64;
  gr_dbl : (d = true /\ n <= 192 + 128 * k) \/ n <= 192
}.

(** The first [n] blocks, the other files and the fields before the block map are as
    they were. *)
Record grew (G : list Z) (t : Z) (s : fs) (b : list Z) (n : Z) (s' : fs) (b' : list Z) : Prop := {
  gw_blk : forall j, 0 <= j < n -> blk (vw s') b' j = blk (vw s) b j;
  gw_data : forall j, 0 <= j < n -> vw s' (blk (vw s) b j) = vw s (blk (vw s) b j);
  gw_inode : vw s' t = vw s t;
  gw_files : forall x, x ∈ owned (vw s) G -> x ∉ fm_data s -> vw s' x = vw s x;
  gw_fm : fm_data s' = fm_data s;
  gw_owned : owned (vw s') G = owned (vw s) G;
  gw_head : forall j, (j < 20)%nat -> b' !!! j = b !!! j;
  gw_rest : rest s' = rest s;
  gw_cnt : bit_cnt (free_map s') = bit_cnt (free_map s);
  gw_next : next s <= next s'
}.

Lemma grew_refl G t s b n : grew G t s b n s b.
Proof. by split. Qed.

Lemma grew_trans G t s1 b1 n1 s2 b2 n2 s3 b3 : n1 <= n2 -> grew G t s1 b1 n1 s2 b2 -> grew G t s2 b2 n2 s3 b3 -> grew G t s1 b1 n1 s3 b3.
Proof.
  intros Hn [A1 A2 A3 A4 A5 A6 A7 A8 A9 A10] [B1 B2 B3 B4 B5 B6 B7 B8 B9 B10]. split; try congruence; try lia.
  - intros j Hj. rewrite B1 by lia. auto.
  - intros j Hj. rewrite <- A2 by lia. rewrite <- (A1 j) by lia. rewrite B2 by lia. done.
  - intros x Hx Hf. rewrite B4; [auto|by rewrite A6|by rewrite A5].
  - intros j Hj. rewrite B7 by done. auto.
Qed.

Lemma grew_intro G t s b i d k n s' b' D : growing s G t b i d k n -> quiet G D s s' ->
  (forall x, x ∈ D -> (x ∉ t :: datab (vw s) b n) /\ (x ∉ owned (vw s) G)) ->
  (forall j, 0 <= j < n -> blk (vw s') b' j = blk (vw s) b j) -> (forall j, (j < 20)%nat -> b' !!! j = b !!! j) ->
  grew G t s b n s' b'.
Proof.
  intros [Hi _ _ _ _] Hq HD Hb Hh. unfold sectors_of in Hi.
  assert (Hin : forall x, x ∈ t :: datab (vw s) b n -> vw s' x = vw s x).
  { intros x Hx. eapply quiet_in; [exact Hi|exact Hq| |intros Hd; by destruct (HD x Hd)].
    apply elem_of_cons. apply elem_of_cons in Hx as [->|Hx]; [by left|]. right. apply elem_of_app. by right. }
  split; [done| | | |apply (qt_fm _ _ _ _ Hq)|apply (qt_owned _ _ _ _ Hq)|done|apply (qt_rest _ _ _ _ Hq)|apply (qt_cnt _ _ _ _ Hq)|apply (qt_next _ _ _ _ Hq)].
  - intros j Hj. apply Hin, elem_of_cons. right. apply elem_of_datab. eauto.
  - apply Hin, elem_of_cons. by left.
  - intros x Hx Hf. apply Hq; [|done]. intros Hd. by destruct (HD x Hd).
Qed.

(** Fields of an inode after one word changed. *)
Lemma put32_head b ofs v j : length b = 512%nat -> 20 <= ofs -> ofs + 4 <= 512 -> (j < 20)%nat -> put32 b ofs v !!! j = b !!! j.
Proof. intros Hl H1 H2 Hj. unfold put32. rewrite overwrite_lookup by (rewrite ?bytes32_length; lia). by rewrite decide_False by lia. Qed.

Section Expand.
Context {junk zeros : list Z} {oom : Z -> bool} `{Hmem : !good_memory junk zeros oom}.
#[local] Set Default Proof Using "All".

(** Writing a sector under construction. *)
Lemma wr_step s s' X G x z : inv s X G -> x ∈ X -> moves s s' (vset (vw s) x z) ->
  inv s' X G /\ quiet G [x] s s' /\ free_map s' = free_map s /\ vw s' x = Some z.
Proof.
  intros Hi Hx Hm. destruct (inv_valid _ _ _ _ Hi Hx) as (y & Hy & _).
  destruct (moves_quiet s s' X G [x] (vset (vw s) x z) Hi Hm) as [H1 H2].
  - intros t Ht. apply list_elem_of_singleton in Ht as ->. by eapply inv_disjoint.
  - intros t Ht. apply vset_ne. intros ->. apply Ht. by left.
  - intros t Ht. apply list_elem_of_singleton in Ht as ->. rewrite vset_eq, Hy. split; by eexists.
  - split; [done|]. split; [done|]. split; [apply Hm|]. rewrite (mv_view _ _ _ Hm). apply vset_eq.
Qed.

Lemma wr_word_step s X G x y e v : inv s X G -> x ∈ X -> vw s x = Some y -> 0 <= e < 128 ->
  exists s', wr junk s x (bytes32 v) (e * 4) 4 = Ret s' /\ inv s' X G /\ quiet G [x] s s' /\ free_map s' = free_map s /\ vw s' x = Some (put32 y (4 * e) v).
Proof.
  intros Hi Hx Hy He. destruct (wr_word s x y e v (iv_ready _ _ _ Hi) Hy) as (s' & -> & Hm); [lia..|]. exists s'. split; [done|]. by apply wr_step.
Qed.

Lemma wr_zeros_step s X G x : inv s X G -> x ∈ X ->
  exists s', wr junk s x zeros 0 DISK_SECTOR_SIZE = Ret s' /\ inv s' X G /\ quiet G [x] s s' /\ free_map s' = free_map s /\ vw s' x = Some zeros.
Proof.
  intros Hi Hx. destruct (inv_valid _ _ _ _ Hi Hx) as (y & Hy & _).
  destruct (wr_all s x y zeros (iv_ready _ _ _ Hi) Hy) as (s' & -> & Hm); [apply gm_zeros|]. exists s'. split; [done|]. by apply wr_step.
Qed.

Definition room (s : fs) : nat := length (free_sectors (free_map s)).

Lemma alloc_step W s X G : inv s X G -> (0 < room s)%nat ->
  exists s' a, free_map_allocate_ junk oom (inode_write_at_ junk zeros oom W) s 1 = Ret (s', Some a) /\
    inv s' (a :: X) G /\ quiet G [] s s' /\ room s = S (room s') /\ is_u32 a /\ (a ∉ X) /\ (a ∉ fm_data s) /\ (a ∉ owned (vw s) G) /\
    (forall x, x ∈ X -> vw s' x = vw s x).
Proof.
  intros Hi Hf. destruct (alloc_ok W s X G Hi) as (s' & a & E & H1 & H2 & H3 & H4 & H5 & H6 & H7 & H8 & H9 & H10).
  { unfold room in Hf. intros E. rewrite E in Hf. simpl in Hf. lia. }
  pose proof (wf_cnt _ (iv_wf _ _ _ Hi)) as Hc.
  exists s', a. split_and!; try done; try (unfold is_u32; lia).
  - by split; [intros; apply H4|..].
  - intros Hx. apply H2, elem_of_app. by left.
  - intros Hx. apply H2, elem_of_app. right. by eapply fm_data_owned.
  - intros Hx. apply H2, elem_of_app. by right.
  - intros x Hx. apply H4. by eapply inv_fm_disjoint.
Qed.

(** ** The next block *)

Lemma step_direct W s G t b n : growing s G t b false false 0 n -> n < 64 -> (0 < room s)%nat ->
  exists s' a, free_map_allocate_ junk oom (inode_write_at_ junk zeros oom W) s 1 = Ret (s', Some a) /\
    growing s' G t (put32 b (f_direct n) a) false false 0 (n + 1) /\ grew G t s b n s' (put32 b (f_direct n) a) /\ room s = S (room s').
Proof.
  intros Hg Hn Hr. pose proof Hg as [Hi Hl Hn0 _ _]. unfold sectors_of in Hi. simpl in Hi.
  destruct (alloc_step W s _ G Hi Hr) as (s' & a & E & Hi' & Hq & Er & Ha & _). exists s', a. split; [done|].
  assert (Hb : forall j, 0 <= j < n -> blk (vw s') (put32 b (f_direct n) a) j = blk (vw s) b j).
  { intros j Hj. apply blk_words; [intros Hd|lia..]. unfold f_direct. apply get32_put32_ne; lia. }
  split; [|split; [|done]].
  - split; [|rewrite put32_length; unfold f_direct; lia|unfold max_blocks; lia|right; lia|right; lia].
    eapply inv_perm; [|exact Hi']. unfold sectors_of. simpl. rewrite datab_snoc, (datab_ext (vw s) (vw s') b _ n Hb) by lia.
    assert (Ebl : blk (vw s') (put32 b (f_direct n) a) n = a).
    { unfold blk. rewrite bool_decide_eq_true_2 by lia. unfold f_direct. apply get32_put32_eq; lia || done. }
    rewrite Ebl. rewrite app_comm_cons. apply Permutation_cons_append.
  - eapply grew_intro; [done..| | |].
    + intros x Hx. by apply elem_of_nil in Hx.
    + done.
    + intros j Hj. apply put32_head; unfold f_direct; lia || done.
Qed.

Lemma step_ind W s G t b : growing s G t b false false 0 64 -> (0 < room s)%nat ->
  exists s' a, (let! '(s, o) := free_map_allocate_ junk oom (inode_write_at_ junk zeros oom W) s 1 in
      match o with
      | None => Ret (s, b, false)
      | Some t => let! s := wr junk s t zeros 0 DISK_SECTOR_SIZE in Ret (s, put32 b f_indirect t, true)
      end) = Ret (s', put32 b f_indirect a, true) /\
    growing s' G t (put32 b f_indirect a) true false 0 64 /\ grew G t s b 64 s' (put32 b f_indirect a) /\ room s = S (room s').
Proof.
  intros Hg Hr. pose proof Hg as [Hi Hl Hn0 _ _]. unfold sectors_of in Hi. simpl in Hi.
  destruct (alloc_step W s _ G Hi Hr) as (s1 & a & -> & Hi1 & Hq1 & Er & Ha & HaX & _ & HaO & _). cbn [rbind].
  destruct (wr_zeros_step s1 _ G a Hi1) as (s2 & -> & Hi2 & Hq2 & Em & _); [by left|]. cbn [rbind].
  exists s2, a. split; [done|]. set (b' := put32 b f_indirect a).
  assert (Hb : forall j, 0 <= j < 64 -> blk (vw s2) b' j = blk (vw s) b j).
  { intros j Hj. apply blk_words; [intros Hd|lia..]. unfold b', f_direct, f_indirect. apply get32_put32_ne; lia. }
  split; [|split; [|unfold room in *; by rewrite Em]].
  - split; [|unfold b'; rewrite put32_length; unfold f_indirect; lia|done|by left|right; lia].
    eapply inv_perm; [|exact Hi2]. unfold sectors_of, metal. simpl. rewrite (datab_ext (vw s) (vw s2) b _ 64 Hb).
    unfold b'. rewrite get32_put32_eq by (unfold f_indirect; lia || done). by rewrite Permutation_swap.
  - eapply grew_intro; [done|exact (quiet_trans _ _ _ _ _ _ Hq1 Hq2)| |done|].
    + intros x Hx. simpl in Hx. apply list_elem_of_singleton in Hx as ->. done.
    + intros j Hj. apply put32_head; unfold f_indirect; lia || done.
Qed.

Lemma step_dbl W s G t b : growing s G t b true false 0 192 -> (0 < room s)%nat ->
  exists s' a, (let! '(s, o) := free_map_allocate_ junk oom (inode_write_at_ junk zeros oom W) s 1 in
      match o with
      | None => Ret (s, b, false)
      | Some t => let! s := wr junk s t zeros 0 DISK_SECTOR_SIZE in Ret (s, put32 b f_doubly t, true)
      end) = Ret (s', put32 b f_doubly a, true) /\
    growing s' G t (put32 b f_doubly a) true true 0 192 /\ grew G t s b 192 s' (put32 b f_doubly a) /\ room s = S (room s').
Proof.
  intros Hg Hr. pose proof Hg as [Hi Hl Hn0 _ _]. unfold sectors_of, metal in Hi. simpl in Hi.
  destruct (alloc_step W s _ G Hi Hr) as (s1 & a & -> & Hi1 & Hq1 & Er & Ha & HaX & _ & HaO & Hx1). cbn [rbind].
  destruct (wr_zeros_step s1 _ G a Hi1) as (s2 & -> & Hi2 & Hq2 & Em & _); [by left|]. cbn [rbind].
  exists s2, a. split; [done|]. set (b' := put32 b f_doubly a).
  assert (Hind : get32 b' f_indirect = get32 b f_indirect) by (unfold b', f_doubly, f_indirect; apply get32_put32_ne; lia).
  assert (Hvi : vw s2 (get32 b f_indirect) = vw s (get32 b f_indirect)).
  { eapply (quiet_in s s2); [exact Hi|exact (quiet_trans _ _ _ _ _ _ Hq1 Hq2)|right; by left|]. simpl. intros Hx%list_elem_of_singleton.
    apply HaX. rewrite <- Hx. right. by left. }
  assert (Hb : forall j, 0 <= j < 192 -> blk (vw s2) b' j = blk (vw s) b j).
  { intros j Hj. apply blk_words; [intros Hd|intros _|lia].
    - unfold b', f_direct, f_doubly. apply get32_put32_ne; lia.
    - split; [done|]. by apply table_word_ext. }
  split; [|split; [|unfold room in *; by rewrite Em]].
  - split; [|unfold b'; rewrite put32_length; unfold f_doubly; lia|done|by left|left; split; [done|lia]].
    eapply inv_perm; [|exact Hi2]. unfold sectors_of, metal. rewrite (datab_ext (vw s) (vw s2) b _ 192 Hb), Hind. simpl.
    unfold b'. rewrite get32_put32_eq by (unfold f_doubly; lia || done).
    etrans; [apply Permutation_swap|]. apply perm_skip, Permutation_swap.
  - eapply grew_intro; [done|exact (quiet_trans _ _ _ _ _ _ Hq1 Hq2)| |done|].
    + intros x Hx. simpl in Hx. apply list_elem_of_singleton in Hx as ->. split; [|done]. intros Hin. apply HaX.
      apply elem_of_cons. apply elem_of_cons in Hin as [->|Hin]; [by left|]. right. by right.
    + intros j Hj. apply put32_head; unfold f_doubly; lia || done.
Qed.

(** The sectors of a file under construction are different. *)
Lemma growing_nodup s G t b i d k n : growing s G t b i d k n ->
  NoDup (metal (vw s) b i d k) /\ (t ∉ metal (vw s) b i d k) /\ (forall x, x ∈ metal (vw s) b i d k -> x ∉ datab (vw s) b n).
Proof.
  intros [Hi _ _ _ _]. pose proof (iv_nodup _ _ _ Hi) as Hn. unfold sectors_of in Hn. apply NoDup_app in Hn as (Hn & _ & _).
  apply NoDup_cons in Hn as [H1 H2]. apply NoDup_app in H2 as (H2 & H3 & _). split; [done|]. split; [|done].
  intros Hx. apply H1, elem_of_app. by left.
Qed.

Lemma growing_dbl s G t b k n : growing s G t b true true k n ->
  let D := get32 b f_doubly in
  (get32 b f_indirect <> D) /\ (forall e, 0 <= e < k -> word (vw s) D e <> D /\ word (vw s) D e <> get32 b f_indirect) /\
  (forall e e', 0 <= e < k -> 0 <= e' < k -> word (vw s) D e = word (vw s) D e' -> e = e').
Proof.
  intros Hg D. destruct (growing_nodup _ _ _ _ _ _ _ _ Hg) as [Hn _]. unfold metal in Hn. simpl in Hn.
  apply NoDup_cons in Hn as [H1 H2]. apply NoDup_cons in H2 as [H2 H3]. fold D in H1, H2, H3.
  assert (Hin : forall e, 0 <= e < k -> word (vw s) D e ∈ word (vw s) D <$> seqZ 0 k).
  { intros e He. apply list_elem_of_fmap. exists e. split; [done|]. apply elem_of_seqZ. lia. }
  split; [|split].
  - intros E. apply H1, elem_of_cons. by left.
  - intros e He. pose proof (Hin e He) as Hx. split; intros E; rewrite E in Hx; [done|]. apply H1, elem_of_cons. by right.
  - intros e e' He He' E. assert (Hlk : forall e, 0 <= e < k -> (word (vw s) D <$> seqZ 0 k) !! Z.to_nat e = Some (word (vw s) D e)).
    { intros x Hx. rewrite list_lookup_fmap, (proj2 (lookup_seqZ 0 k (Z.to_nat x) x)) by lia. done. }
    assert (Z.to_nat e = Z.to_nat e'); [|lia]. eapply NoDup_lookup; [exact H3|by apply Hlk|rewrite E; by apply Hlk].
Qed.

Lemma metal_elem V b i d k n t x : x ∈ metal V b i d k -> x ∈ sectors_of V t b i d k n.
Proof. intros H. unfold sectors_of. apply elem_of_cons. right. apply elem_of_app. by left. Qed.

Lemma step_indb W s G t b n : growing s G t b true false 0 n -> 64 <= n < 192 -> (0 < room s)%nat ->
  exists s1 a s', free_map_allocate_ junk oom (inode_write_at_ junk zeros oom W) s 1 = Ret (s1, Some a) /\
    wr junk s1 (get32 b f_indirect) (bytes32 a) ((n - 64) * 4) 4 = Ret s' /\
    growing s' G t b true false 0 (n + 1) /\ grew G t s b n s' b /\ room s = S (room s').
Proof.
  intros Hg Hn Hr. pose proof Hg as [Hi Hl Hn0 _ _]. set (T := get32 b f_indirect).
  assert (HT : T ∈ metal (vw s) b true false 0) by (by apply metal_in).
  destruct (growing_nodup _ _ _ _ _ _ _ _ Hg) as (_ & Nt & Nd). pose proof (metal_elem _ _ _ _ _ n t _ HT) as HTX.
  destruct (alloc_step W s _ G Hi Hr) as (s1 & a & E1 & Hi1 & Hq1 & Er & Ha & HaX & HaF & HaO & Hx1).
  destruct (inv_valid _ _ _ _ Hi HTX) as (y & Hy & Hly & _).
  destruct (wr_word_step s1 _ G T y (n - 64) a Hi1) as (s2 & E2 & Hi2 & Hq2 & Em & HT2); [by right|by rewrite Hx1|lia|].
  exists s1, a, s2. split; [done|]. split; [done|]. pose proof (quiet_trans _ _ _ _ _ _ Hq1 Hq2) as Hq.
  assert (Hw : forall e, 0 <= e < 128 -> word (vw s2) T e = if decide (e = n - 64) then a else word (vw s) T e).
  { intros e He. rewrite (word_put (vw s2) y T (n - 64) a e) by (done || lia). case_decide; [done|]. unfold word, sec. by rewrite Hy. }
  assert (Hb : forall j, 0 <= j < n -> blk (vw s2) b j = blk (vw s) b j).
  { intros j Hj. apply blk_words; [done|intros Hd|lia]. split; [done|]. fold T. rewrite Hw by lia. by rewrite decide_False by lia. }
  split; [|split; [|unfold room in *; by rewrite Em]].
  - split; [|done|unfold max_blocks; lia|by left|right; lia].
    eapply inv_perm; [|exact Hi2]. unfold sectors_of. rewrite datab_snoc, (datab_ext (vw s) (vw s2) b _ n Hb) by lia.
    assert (Ebl : blk (vw s2) b n = a).
    { unfold blk. rewrite bool_decide_eq_false_2, bool_decide_eq_true_2 by lia. fold T. rewrite Hw by lia. by rewrite decide_True. }
    rewrite Ebl. change (metal (vw s2) b true false 0) with (metal (vw s) b true false 0).
    rewrite app_assoc, app_comm_cons. apply Permutation_cons_append.
  - eapply grew_intro; [done|exact Hq| |done|done]. intros x Hx. simpl in Hx. apply list_elem_of_singleton in Hx as ->. split.
    + intros [E|H]%elem_of_cons; [by apply Nt; rewrite <- E|by apply (Nd T)].
    + by eapply inv_disjoint.
Qed.

Lemma step_tab W s G t b k : growing s G t b true true k (192 + 128 * k) -> 0 <= k < 128 -> (0 < room s)%nat ->
  exists s', (let! '(s, o) := free_map_allocate_ junk oom (inode_write_at_ junk zeros oom W) s 1 in
      match o with
      | None => Ret (s, false)
      | Some t =>
          let! s := wr junk s t zeros 0 DISK_SECTOR_SIZE in
          let! s := wr junk s (get32 b f_doubly) (bytes32 t) (k * 4) 4 in
          Ret (s, true)
      end) = Ret (s', true) /\
    growing s' G t b true true (k + 1) (192 + 128 * k) /\ grew G t s b (192 + 128 * k) s' b /\ room s = S (room s').
Proof.
  intros Hg Hk Hr. pose proof Hg as [Hi Hl Hn0 _ _]. set (T := get32 b f_doubly).
  destruct (metal_in (vw s) b true true k) as [Mi Md]. specialize (Mi eq_refl). destruct (Md eq_refl) as [HT Me]. fold T in HT, Me. clear Md.
  destruct (growing_nodup _ _ _ _ _ _ _ _ Hg) as (_ & Nt & Nd). destruct (growing_dbl _ _ _ _ _ _ Hg) as (N1 & N2 & N3). fold T in N1, N2, N3.
  pose proof (fun x => metal_elem (vw s) b true true k (192 + 128 * k) t x) as HX.
  destruct (alloc_step W s _ G Hi Hr) as (s1 & a & -> & Hi1 & Hq1 & Er & Ha & HaX & HaF & HaO & Hx1). cbn [rbind].
  destruct (inv_valid _ _ _ _ Hi (HX _ HT)) as (y & Hy & Hly & _). assert (HaT : T <> a) by (intros <-; by apply HaX, HX).
  destruct (wr_zeros_step s1 _ G a Hi1) as (s2 & -> & Hi2 & Hq2 & Em2 & _); [by left|]. cbn [rbind].
  assert (HyT : vw s2 T = Some y).
  { rewrite (quiet_in s1 s2 _ G [a] T Hi1 Hq2); [by rewrite Hx1; [|apply HX]|right; by apply HX|]. by intros H%list_elem_of_singleton. }
  destruct (wr_word_step s2 _ G T y k a Hi2) as (s3 & -> & Hi3 & Hq3 & Em3 & HT3); [right; by apply HX|done|lia|]. cbn [rbind].
  exists s3. split; [done|]. pose proof (quiet_trans _ _ _ _ _ _ (quiet_trans _ _ _ _ _ _ Hq1 Hq2) Hq3) as Hq. simpl in Hq.
  assert (Hw : forall e, 0 <= e < 128 -> word (vw s3) T e = if decide (e = k) then a else word (vw s) T e).
  { intros e He. rewrite (word_put (vw s3) y T k a e) by (done || lia). case_decide; [done|]. unfold word, sec. by rewrite Hy. }
  assert (Hv : forall x, x ∈ metal (vw s) b true true k -> x <> T -> vw s3 x = vw s x).
  { intros x Hx Hne. eapply quiet_in; [exact Hi|exact Hq|by apply HX|]. intros [->|H%list_elem_of_singleton]%elem_of_cons; [by apply HaX, HX|done]. }
  assert (Hb : forall j, 0 <= j < 192 + 128 * k -> blk (vw s3) b j = blk (vw s) b j).
  { intros j Hj. apply blk_words; [done|intros Hd|intros Hd].
    - split; [done|]. by apply table_word_ext, Hv.
    - split; [done|]. fold T. assert (0 <= (j - 192) / 128 < k) by (Z.div_mod_to_equations; lia).
      split; [rewrite Hw by lia; by rewrite decide_False by lia|]. apply table_word_ext, Hv; [by apply Me|by apply N2]. }
  split; [|split; [|unfold room in *; by rewrite Em3, Em2]].
  - split; [|done|unfold max_blocks; lia|by left|left; split; [done|lia]].
    eapply inv_perm; [|exact Hi3]. unfold sectors_of, metal. fold T. rewrite (datab_ext (vw s) (vw s3) b _ _ Hb), seqZ_snoc, fmap_app by lia. simpl.
    rewrite Hw, decide_True by lia.
    assert (Hfm : word (vw s3) T <$> seqZ 0 k = word (vw s) T <$> seqZ 0 k).
    { apply list_fmap_ext. intros j x Hx. apply lookup_seqZ in Hx as [-> Hx]. rewrite Hw by lia. by rewrite decide_False by lia. }
    rewrite Hfm. change (0 + k) with k. rewrite <- app_assoc. simpl. rewrite !app_comm_cons. apply Permutation_middle.
  - eapply grew_intro; [done|exact Hq| |done|done]. intros x Hx. apply elem_of_cons in Hx as [->|Hx%list_elem_of_singleton].
    + split; [|done]. intros H. apply HaX. unfold sectors_of. apply elem_of_cons. apply elem_of_cons in H as [->|H]; [by left|right]. apply elem_of_app. by right.
    + subst x. split; [|by eapply inv_disjoint, HX]. intros [E|H]%elem_of_cons; [by apply Nt; rewrite <- E|by apply (Nd T)].
Qed.

Lemma step_dblb W s G t b k n : growing s G t b true true k n -> 192 <= n < 192 + 128 * k -> n < max_blocks -> (0 < room s)%nat ->
  exists s1 a s2 d s', free_map_allocate_ junk oom (inode_write_at_ junk zeros oom W) s 1 = Ret (s1, Some a) /\
    rd junk s1 (get32 b f_doubly) ((n - 192) / 128 * 4) 4 = Ret (s2, d) /\
    wr junk s2 (get32 d 0) (bytes32 a) ((n - 192) mod 128 * 4) 4 = Ret s' /\
    growing s' G t b true true k (n + 1) /\ grew G t s b n s' b /\ room s = S (room s').
Proof.
  intros Hg Hn Hmax Hr. unfold max_blocks in Hmax. pose proof Hg as [Hi Hl Hn0 _ _]. set (T := get32 b f_doubly). set (q := (n - 192) / 128). set (r := (n - 192) mod 128).
  assert (Hq : 0 <= q < k /\ q < 128) by (unfold q; Z.div_mod_to_equations; lia). assert (Hr' : 0 <= r < 128) by (apply Z.mod_pos_bound; lia).
  destruct (metal_in (vw s) b true true k) as [Mi Md]. specialize (Mi eq_refl). destruct (Md eq_refl) as [HT Me]. fold T in HT, Me. clear Md.
  destruct (growing_nodup _ _ _ _ _ _ _ _ Hg) as (_ & Nt & Nd). destruct (growing_dbl _ _ _ _ _ _ Hg) as (N1 & N2 & N3). fold T in N1, N2, N3.
  pose proof (fun x => metal_elem (vw s) b true true k n t x) as HX.
  destruct (alloc_step W s _ G Hi Hr) as (s1 & a & E1 & Hi1 & Hq1 & Er & Ha & HaX & HaF & HaO & Hx1).
  destruct (inv_valid _ _ _ _ Hi (HX _ HT)) as (y & Hy & _). destruct (rd_word s1 T y q (iv_ready _ _ _ Hi1)) as (s2 & d & E2 & Hd & Hm2); [by rewrite Hx1; [|apply HX]|lia..|].
  destruct (moves_quiet s1 s2 _ G [] (vw s1) Hi1 Hm2) as [Hi2 Hq2]; [by intros x Hx%elem_of_nil|done|by intros x Hx%elem_of_nil|].
  set (U := word (vw s) T q). assert (HdU : get32 d 0 = U) by (rewrite Hd; apply table_word_ext; by apply Hx1, HX).
  assert (HU : U ∈ metal (vw s) b true true k) by (apply Me; lia).
  destruct (inv_valid _ _ _ _ Hi (HX _ HU)) as (z & Hz & Hlz & _).
  destruct (wr_word_step s2 _ G U z r a Hi2) as (s3 & E3 & Hi3 & Hq3 & Em3 & HU3); [right; by apply HX|by rewrite (mv_view _ _ _ Hm2), Hx1; [|apply HX]|lia|].
  exists s1, a, s2, d, s3. split; [done|]. split; [done|]. split; [by rewrite HdU|].
  pose proof (quiet_trans _ _ _ _ _ _ (quiet_trans _ _ _ _ _ _ Hq1 Hq2) Hq3) as Hqq. simpl in Hqq.
  assert (Hw : forall e, 0 <= e < 128 -> word (vw s3) U e = if decide (e = r) then a else word (vw s) U e).
  { intros e He. rewrite (word_put (vw s3) z U r a e) by (done || lia). case_decide; [done|]. unfold word, sec. by rewrite Hz. }
  assert (Hv : forall x, x ∈ metal (vw s) b true true k -> x <> U -> vw s3 x = vw s x).
  { intros x Hx Hne. eapply quiet_in; [exact Hi|exact Hqq|by apply HX|]. by intros H%list_elem_of_singleton. }
  assert (HTU : T <> U) by (apply not_eq_sym, N2; lia).
  assert (Hwt : forall e, word (vw s3) T e = word (vw s) T e) by (intros e; by apply table_word_ext, Hv).
  assert (Hb : forall j, 0 <= j < n -> blk (vw s3) b j = blk (vw s) b j).
  { intros j Hj. apply blk_words; [done|intros Hd'|intros Hd'].
    - split; [done|]. apply table_word_ext, Hv; [done|]. apply not_eq_sym, N2. lia.
    - split; [done|]. fold T. split; [apply Hwt|]. assert (Hj' : 0 <= (j - 192) / 128 < k) by (Z.div_mod_to_equations; lia).
      destruct (decide ((j - 192) / 128 = q)) as [Eq|Hne].
      + rewrite Eq. fold U. rewrite Hw by (apply Z.mod_pos_bound; lia). rewrite decide_False; [done|]. unfold q, r in *. Z.div_mod_to_equations. lia.
      + apply table_word_ext, Hv; [by apply Me|]. intros E. apply Hne. apply N3; [lia|lia|done]. }
  split; [|split; [|unfold room in *; rewrite Em3, (mv_map _ _ _ Hm2); done]].
  - split; [|done|unfold max_blocks; lia|by left|left; split; [done|lia]].
    eapply inv_perm; [|exact Hi3]. unfold sectors_of. rewrite datab_snoc, (datab_ext (vw s) (vw s3) b _ _ Hb) by lia.
    rewrite (metal_ext (vw s) (vw s3) b b true true k) by (done || (intros _; split; [done|intros; apply Hwt])).
    assert (Ebl : blk (vw s3) b n = a).
    { unfold blk. rewrite !bool_decide_eq_false_2 by lia. fold T q r. rewrite Hwt. fold U. rewrite Hw by lia. by rewrite decide_True. }
    rewrite Ebl, app_assoc, app_comm_cons. apply Permutation_cons_append.
  - eapply grew_intro; [done|exact Hqq| |done|done]. intros x Hx. apply list_elem_of_singleton in Hx as ->. split; [|by eapply inv_disjoint, HX].
    intros [E|H]%elem_of_cons; [by apply Nt; rewrite <- E|by apply (Nd U)].
Qed.

(** ** One round *)

Definition growing_at (s : fs) (G : list Z) (t : Z) (b : list Z) (n : Z) : Prop :=
  growing s G t b (bool_decide (64 < n)) (bool_decide (192 < n)) (tables n) n.

Lemma growing_any s G t b i k k' n : growing s G t b i false k n -> growing s G t b i false k' n.
Proof. intros [H1 H2 H3 H4 [[? _]|H5]]; [done|]. split; try done. by right. Qed.

(** The sectors a file of [n] blocks has besides its inode. *)
Definition need (n : Z) : Z := n + (if bool_decide (64 < n) then 1 else 0) + (if bool_decide (192 < n) then 1 + tables n else 0).

Lemma growing_target s G t b i d k n : growing s G t b i d k n -> i = bool_decide (64 < n) -> d = bool_decide (192 < n) ->
  (192 < n -> k = tables n) -> growing_at s G t b n.
Proof.
  intros Hg -> -> Hk. unfold growing_at. destruct (bool_decide (192 < n)) eqn:E.
  - apply bool_decide_eq_true in E. by rewrite <- Hk.
  - by eapply growing_any.
Qed.

Lemma round_direct W s G t b n alloc r : growing_at s G t b n -> n < 64 -> 0 < r -> (0 < room s)%nat ->
  exists s' b' alloc', expand_round junk zeros oom (inode_write_at_ junk zeros oom W) (s, b, alloc, n, r) = Ret (inl (s', b', alloc', n + 1, r - 1)) /\
    growing_at s' G t b' (n + 1) /\ grew G t s b n s' b' /\ room s = S (room s').
Proof.
  intros Hg Hn Hr0 Hr. unfold growing_at in Hg. rewrite !bool_decide_eq_false_2 in Hg by lia. apply (growing_any _ _ _ _ _ _ 0) in Hg.
  destruct (step_direct W s G t b n Hg Hn Hr) as (s' & a & E & Hg' & Hgr & Er).
  unfold expand_round. rewrite bool_decide_eq_true_2 by lia. unfold DIRECT_CNT at 1. rewrite bool_decide_eq_true_2 by lia. rewrite E. cbn [rbind stored_in of_opt].
  eexists _, _, _. split; [done|]. split; [|done]. eapply growing_target; [exact Hg'|by rewrite bool_decide_eq_false_2 by lia..|lia].
Qed.

Lemma round_indirect W s G t b n alloc r : growing_at s G t b n -> 64 <= n < 192 -> 0 < r -> need (n + 1) - need n <= Z.of_nat (room s) ->
  exists s' b' alloc', expand_round junk zeros oom (inode_write_at_ junk zeros oom W) (s, b, alloc, n, r) = Ret (inl (s', b', alloc', n + 1, r - 1)) /\
    growing_at s' G t b' (n + 1) /\ grew G t s b n s' b' /\ Z.of_nat (room s) = need (n + 1) - need n + Z.of_nat (room s').
Proof.
  intros Hg Hn Hr0 Hr. unfold expand_round. rewrite bool_decide_eq_true_2 by lia.
  unfold DIRECT_CNT, INDIRECT_CNT. rewrite bool_decide_eq_false_2, (bool_decide_eq_true_2 (n < 64 + 128)) by lia.
  unfold growing_at in Hg. rewrite (bool_decide_eq_false_2 (192 < n)) in Hg by lia. apply (growing_any _ _ _ _ _ _ 0) in Hg.
  assert (Hneed : need (n + 1) - need n = if decide (n = 64) then 2 else 1).
  { clear -Hn. unfold need. case_decide; repeat case_bool_decide; lia. }
  destruct (decide (n = 64)) as [->|Hne].
  - rewrite bool_decide_eq_true_2 by done. rewrite bool_decide_eq_false_2 in Hg by lia.
    destruct (step_ind W s G t b Hg) as (s1 & a1 & -> & Hg1 & Hgr1 & Er1); [lia|]. cbn [rbind negb].
    destruct (step_indb W s1 G t _ 64 Hg1) as (s2 & a & s3 & -> & E3 & Hg3 & Hgr3 & Er3); [lia|lia|]. cbn [rbind stored_in of_opt]. rewrite E3. cbn [rbind].
    eexists _, _, _. split; [done|]. split; [|split; [by eapply grew_trans|lia]].
    eapply growing_target; [exact Hg3|done..].
  - rewrite bool_decide_eq_false_2 by done. cbn [rbind negb]. rewrite bool_decide_eq_true_2 in Hg by lia.
    destruct (step_indb W s G t _ n Hg) as (s2 & a & s3 & -> & E3 & Hg3 & Hgr3 & Er3); [lia|lia|]. cbn [rbind stored_in of_opt]. rewrite E3. cbn [rbind].
    eexists _, _, _. split; [done|]. split; [|split; [done|lia]].
    eapply growing_target; [exact Hg3|by rewrite bool_decide_eq_true_2 by lia|by rewrite bool_decide_eq_false_2 by lia|lia].
Qed.

(** The second-level table for block [n], when it is the first of its table. *)
Lemma prepare_table W s G t b n : growing s G t b true true (tables n) n -> 192 <= n < max_blocks -> (n = 192 -> tables n = 0) ->
  need (n + 1) - need n <= Z.of_nat (room s) + (if decide (n = 192) then 1 else 0) ->
  exists s', (if bool_decide ((n - 192) mod 128 = 0) then
      let! '(s, o) := free_map_allocate_ junk oom (inode_write_at_ junk zeros oom W) s 1 in
      match o with
      | None => Ret (s, false)
      | Some t =>
          let! s := wr junk s t zeros 0 DISK_SECTOR_SIZE in
          let! s := wr junk s (get32 b f_doubly) (bytes32 t) ((n - 192) / 128 * 4) 4 in
          Ret (s, true)
      end else Ret (s, true)) = Ret (s', true) /\
    growing s' G t b true true (tables (n + 1)) n /\ grew G t s b n s' b /\
    Z.of_nat (room s) + (if decide (n = 192) then 1 else 0) + 1 = need (n + 1) - need n + Z.of_nat (room s').
Proof.
  intros Hg Hn H0 Hr. unfold max_blocks in Hn.
  assert (Hneed : need (n + 1) - need n = 1 + (if decide (n = 192) then 1 else 0) + (tables (n + 1) - tables n)).
  { unfold need. rewrite !(bool_decide_eq_true_2 (64 < _)), (bool_decide_eq_true_2 (192 < n + 1)) by lia. case_decide as E.
    - rewrite bool_decide_eq_false_2 by lia. rewrite (H0 E). lia.
    - rewrite bool_decide_eq_true_2 by lia. lia. }
  case_bool_decide as Hm.
  - set (k := (n - 192) / 128) in *. assert (Hk : n = 192 + 128 * k) by (unfold k; Z.div_mod_to_equations; lia).
    assert (Ht : tables n = k) by (unfold tables; rewrite Hk; Z.div_mod_to_equations; lia).
    assert (Ht' : tables (n + 1) = k + 1) by (unfold tables; rewrite Hk; Z.div_mod_to_equations; lia).
    rewrite Ht in Hg. rewrite Ht, Ht' in *. clearbody k. subst n.
    destruct (step_tab W s G t b k Hg) as (s' & E & Hg' & Hgr & Er); [lia|lia|]. exists s'. split; [exact E|]. split; [done|]. split; [done|]. lia.
  - assert (Ht : tables (n + 1) = tables n) by (unfold tables; Z.div_mod_to_equations; lia). rewrite Ht in *.
    exists s. split; [done|]. split; [done|]. split; [apply grew_refl|]. lia.
Qed.

Lemma tables_room n : 192 <= n -> n < 192 + 128 * tables (n + 1).
Proof. intros H. unfold tables. Z.div_mod_to_equations. lia. Qed.

Lemma round_doubly W s G t b n alloc r : growing_at s G t b n -> 192 <= n < max_blocks -> 0 < r -> need (n + 1) - need n <= Z.of_nat (room s) ->
  exists s' b' alloc', expand_round junk zeros oom (inode_write_at_ junk zeros oom W) (s, b, alloc, n, r) = Ret (inl (s', b', alloc', n + 1, r - 1)) /\
    growing_at s' G t b' (n + 1) /\ grew G t s b n s' b' /\ Z.of_nat (room s) = need (n + 1) - need n + Z.of_nat (room s').
Proof.
  intros Hg Hn Hr0 Hr. unfold expand_round. rewrite bool_decide_eq_true_2 by lia.
  unfold DIRECT_CNT, DOUBLY_INDIRECT_CNT, INDIRECT_CNT. unfold max_blocks in Hn.
  rewrite bool_decide_eq_false_2, (bool_decide_eq_false_2 (n < 64 + 128)), (bool_decide_eq_true_2 (n < 64 + 128 + 128 * 128)) by lia.
  change (64 + 128) with 192. replace (n - 64 - 128) with (n - 192) by lia. unfold growing_at in Hg. rewrite (bool_decide_eq_true_2 (64 < n)) in Hg by lia.
  assert (Htab : exists s1 b1, (if bool_decide (n = 192) then
      let! '(s, o) := free_map_allocate_ junk oom (inode_write_at_ junk zeros oom W) s 1 in
      match o with
      | None => Ret (s, b, false)
      | Some t => let! s := wr junk s t zeros 0 DISK_SECTOR_SIZE in Ret (s, put32 b f_doubly t, true)
      end else Ret (s, b, true)) = Ret (s1, b1, true) /\ growing s1 G t b1 true true (tables n) n /\ grew G t s b n s1 b1 /\
      Z.of_nat (room s) = Z.of_nat (room s1) + (if decide (n = 192) then 1 else 0)).
  { destruct (decide (n = 192)) as [->|Hne].
    - rewrite bool_decide_eq_false_2 in Hg by lia. apply (growing_any _ _ _ _ _ _ 0) in Hg. rewrite bool_decide_eq_true_2 by done.
      destruct (step_dbl W s G t b Hg) as (s1 & a1 & -> & Hg1 & Hgr1 & Er1); [change (need (192 + 1) - need 192) with 3 in Hr; lia|].
      exists s1, (put32 b f_doubly a1). split_and!; try done. lia.
    - rewrite bool_decide_eq_true_2 in Hg by lia. rewrite bool_decide_eq_false_2 by done. exists s, b. split_and!; try done; try apply grew_refl; try lia. }
  destruct Htab as (s1 & b1 & -> & Hg1 & Hgr1 & Er1). cbn [rbind negb].
  destruct (prepare_table W s1 G t b1 n Hg1) as (s2 & -> & Hg2 & Hgr2 & Er2); [unfold max_blocks; lia|by intros ->|lia|]. cbn [rbind negb].
  destruct (step_dblb W s2 G t b1 (tables (n + 1)) n Hg2) as (s3 & a & s4 & d & s5 & -> & E4 & E5 & Hg5 & Hgr5 & Er5);
    [split; [lia|apply tables_room; lia]|unfold max_blocks; lia|lia|]. cbn [rbind stored_in of_opt]. rewrite E4. cbn [rbind]. rewrite E5. cbn [rbind].
  eexists _, _, _. split; [done|]. split; [|split; [|lia]].
  - eapply growing_target; [exact Hg5|by rewrite bool_decide_eq_true_2 by lia..|done].
  - eapply grew_trans; [|exact Hgr1|]; [done|]. by eapply grew_trans.
Qed.

Lemma need_mono n : 0 <= n -> 1 <= need (n + 1) - need n.
Proof.
  intros Hn. unfold need. assert (tables n <= tables (n + 1)) by (unfold tables; Z.div_mod_to_equations; lia).
  assert (192 < n + 1 -> 0 <= tables (n + 1)) by (intros; unfold tables; Z.div_mod_to_equations; lia).
  repeat case_bool_decide; lia.
Qed.

Lemma need_le x y : 0 <= x <= y -> need x <= need y.
Proof.
  intros H. assert (Hk : forall k, 0 <= k -> need x <= need (x + k)).
  { apply natlike_ind; [by rewrite Z.add_0_r|]. intros k Hk IH. pose proof (need_mono (x + k)). replace (x + Z.succ k) with (x + k + 1) by lia. lia. }
  replace y with (x + (y - x)) by lia. apply Hk. lia.
Qed.

Lemma expand_round_ok W s G t b n alloc r : growing_at s G t b n -> 0 <= n < max_blocks -> 0 < r -> need (n + 1) - need n <= Z.of_nat (room s) ->
  exists s' b' alloc', expand_round junk zeros oom (inode_write_at_ junk zeros oom W) (s, b, alloc, n, r) = Ret (inl (s', b', alloc', n + 1, r - 1)) /\
    growing_at s' G t b' (n + 1) /\ grew G t s b n s' b' /\ Z.of_nat (room s) = need (n + 1) - need n + Z.of_nat (room s').
Proof.
  intros Hg Hn Hr0 Hr. destruct (decide (n < 64)) as [H1|H1].
  - pose proof (need_mono n ltac:(lia)). destruct (round_direct W s G t b n alloc r) as (s' & b' & al & E & Hg' & Hgr & Er); [done|done|done|lia|].
    exists s', b', al. split_and!; try done. assert (need (n + 1) - need n = 1); [|lia]. clear -H1 Hn. unfold need. rewrite !bool_decide_eq_false_2 by lia. lia.
  - destruct (decide (n < 192)); [apply round_indirect|apply round_doubly]; done || lia.
Qed.

(** ** The whole loop *)

Lemma expand_loop W s G t b n m : growing_at s G t b n -> 0 <= n -> 0 <= m -> n + m <= max_blocks -> need (n + m) - need n <= Z.of_nat (room s) ->
  exists s' b', iter (S (Z.to_nat m)) (expand_round junk zeros oom (inode_write_at_ junk zeros oom W)) (s, b, None, n, m) = Ret (s', Some b') /\
    growing_at s' G t b' (n + m) /\ grew G t s b n s' b' /\ Z.of_nat (room s) = need (n + m) - need n + Z.of_nat (room s').
Proof.
  intros Hg Hn Hm Hmax Hr.
  destruct (iter_total (fun '(s', b', alloc, c, r) => exists j, 0 <= j <= m /\ c = n + j /\ r = m - j /\ growing_at s' G t b' (n + j) /\
      grew G t s b n s' b' /\ Z.of_nat (room s) = need (n + j) - need n + Z.of_nat (room s'))
    (fun '(_, _, _, _, r) => Z.to_nat r)
    (fun '(s', o) => exists b', o = Some b' /\ growing_at s' G t b' (n + m) /\ grew G t s b n s' b' /\ Z.of_nat (room s) = need (n + m) - need n + Z.of_nat (room s'))
    (expand_round junk zeros oom (inode_write_at_ junk zeros oom W))) with (fuel := S (Z.to_nat m)) (s := (s, b, @None Z, n, m)) as ([s' o] & E & b' & -> & H).
  - intros [[[[s' b'] alloc] c] r] (j & Hj & -> & -> & Hgj & Hgr & Er). destruct (decide (j = m)) as [->|Hne].
    + right. exists (s', Some b'). split; [|eauto]. unfold expand_round. by rewrite bool_decide_eq_false_2 by lia.
    + left. pose proof (need_le (n + (j + 1)) (n + m) ltac:(lia)) as Hle.
      destruct (expand_round_ok W s' G t b' (n + j) alloc (m - j)) as (s2 & b2 & al2 & -> & Hg2 & Hgr2 & Er2); [done|lia|lia| |].
      { rewrite <- Z.add_assoc. lia. }
      eexists; split; [done|]. split; [|simpl; lia]. exists (j + 1). replace (n + (j + 1)) with (n + j + 1) by lia. split_and!; try done; try lia.
      eapply grew_trans; [|exact Hgr|exact Hgr2]. lia.
  - exists 0. rewrite Z.add_0_r, Z.sub_diag. split_and!; try apply grew_refl; try done; lia.
  - lia.
  - eauto.
Qed.
End Expand.
