(* ===== verification/InodeProof.v ===== *)
(** * Files grow, and hold what was written *)

From S2P Require Import Prelude Bitmap Cache CacheProof Inode InodeView InodeOps InodeIO InodeGrow InodeExpand.

(** ** From the invariant of all files to a file under construction, and back *)

Lemma whole_sectors V t : whole V t = sectors_of V t (sec V t) (bool_decide (64 < blks V t)) (bool_decide (192 < blks V t)) (tables (blks V t)) (blks V t).
Proof. unfold whole, sectors_of, foot. by rewrite metab_metal. Qed.

Lemma owned_cons V t G : owned V (t :: G) = whole V t ++ owned V G.
Proof. done. Qed.

Lemma nblk_range len : 0 <= len <= 512 * max_blocks -> 0 <= nblk len <= max_blocks.
Proof. unfold nblk, max_blocks. intros. Z.div_mod_to_equations. lia. Qed.

Lemma block_in len k : 0 <= k < len -> 0 <= k / 512 < nblk len.
Proof. unfold nblk. intros. Z.div_mod_to_equations. lia. Qed.

(** The free map file is not the file under construction. *)
Definition not_free_map (s : fs) (t : Z) : Prop := free_map_file s <> NULL -> t <> FREE_MAP_SECTOR.

Lemma growing_start s G t : inv s [] (t :: G) -> not_free_map s t -> growing_at s G t (sec (vw s) t) (blks (vw s) t).
Proof.
  intros Hi Hnf. pose proof Hi as [H1 H2 H3 H4 H5 H6 H7]. simpl in H5, H6. rewrite owned_cons, whole_sectors in H5, H6.
  assert (Hlen : 0 <= flen (sec (vw s) t) <= 512 * max_blocks) by (apply H4; by left).
  split.
  - split; try done; [intros g Hg; apply H4; by right|]. intros Hn. destruct (H7 Hn) as [[F1 F2 F3 F4] F5]. split; [|done]. split; try done.
    apply elem_of_cons in F2 as [F2|F2]; [|done]. by destruct (Hnf Hn).
  - destruct (H6 t) as [Ht _]; [apply elem_of_app; left; apply elem_of_cons; by left|]. apply H3 in Ht as [x Hx]. unfold sec. rewrite Hx. simpl. by eapply view_length.
  - by apply nblk_range.
  - clear. case_bool_decide; [by left|right; lia].
  - clear. case_bool_decide as E; [left; split; [done|]|right; lia]. unfold tables. Z.div_mod_to_equations. lia.
Qed.

Lemma growing_finish s G t b n : growing_at s G t b n -> vw s t = Some b -> 0 <= flen b <= 512 * max_blocks -> nblk (flen b) = n -> inv s [] (t :: G).
Proof.
  intros [[H1 H2 H3 H4 H5 H6 H7] _ _ _ _] Hb Hl Hn. assert (Hs : sec (vw s) t = b) by (unfold sec; by rewrite Hb).
  assert (Hbl : blks (vw s) t = n) by (unfold blks; by rewrite Hs).
  split; simpl; rewrite ?owned_cons, ?whole_sectors, ?Hs, ?Hbl; try done.
  - intros g [->|Hg]%elem_of_cons; [by rewrite Hs|auto].
  - intros Hf. destruct (H7 Hf) as [[F1 F2 F3 F4] F5]. split; [|done]. split; try done. by right.
Qed.

Lemma head_word b b' ofs : (forall j, (j < 20)%nat -> b' !!! j = b !!! j) -> 0 <= ofs <= 16 -> get32 b' ofs = get32 b ofs.
Proof. intros H Ho. unfold get32. cbv zeta. rewrite !H by lia. done. Qed.

Lemma flen_put b v : length b = 512%nat -> 0 <= v < 2 ^ 31 -> flen (put32 b f_length (u32 v)) = v.
Proof.
  intros Hl Hv. unfold flen. rewrite get32_put32_eq; [rewrite u32_small by lia; apply s32_small; lia|unfold f_length; lia..|apply u32_range].
Qed.

(** ** inode_expand *)

(** The effect of a call on the file of inode [t] and on the other files [G]. *)
Record extended (G : list Z) (t : Z) (s s' : fs) (len : Z) : Prop := {
  ex_inv : inv s' [] (t :: G);
  ex_len : flen (sec (vw s') t) = len;
  ex_bytes : forall q, 0 <= q < flen (sec (vw s) t) -> fbyte (vw s') (sec (vw s') t) q = fbyte (vw s) (sec (vw s) t) q;
  ex_files : forall x, x ∈ owned (vw s) G -> x ∉ fm_data s -> vw s' x = vw s x;
  ex_fm : fm_data s' = fm_data s;
  ex_head : forall j, (j < 4)%nat \/ (8 <= j < 20)%nat -> sec (vw s') t !!! j = sec (vw s) t !!! j;
  ex_rest : rest s' = rest s;
  ex_cnt : bit_cnt (free_map s') = bit_cnt (free_map s);
  ex_next : next s <= next s'
}.

Lemma sectors_arith len ext : 0 <= len -> 0 <= ext -> len + ext <= 512 * max_blocks ->
  bytes_to_sectors len = Ret (nblk len) /\ s32 (nblk len * 512 - len) = nblk len * 512 - len /\
  off_t (ext - (nblk len * 512 - len)) = Ret (ext - (nblk len * 512 - len)) /\
  bytes_to_sectors (ext - (nblk len * 512 - len)) = Ret (nblk (len + ext) - nblk len).
Proof.
  intros H1 H2 H3. unfold max_blocks in H3. unfold bytes_to_sectors, off_t, DISK_SECTOR_SIZE, nblk.
  assert (Hs : 0 <= (len + 511) / 512 * 512 - len < 512) by (Z.div_mod_to_equations; lia).
  rewrite !bool_decide_eq_true_2 by lia. cbn [rbind]. rewrite s32_small by lia.
  assert (E1 : Z.quot (len + 512 - 1) 512 = (len + 511) / 512) by (rewrite Z.quot_div_nonneg by lia; f_equal; lia).
  assert (E2 : Z.quot (ext - ((len + 511) / 512 * 512 - len) + 512 - 1) 512 = (len + ext + 511) / 512 - (len + 511) / 512).
  { rewrite Z.quot_div_nonneg by lia. Z.div_mod_to_equations. lia. }
  rewrite E1, E2, !u32_small; [done|Z.div_mod_to_equations; lia..].
Qed.

(** A change in the inode's own sector that keeps its block map. *)
Lemma foot_put_length V V' t b n v : length b = 512%nat -> t ∉ metab V b n -> (forall x, x <> t -> V' x = V x) ->
  foot V' (put32 b f_length v) n = foot V b n /\ forall j, 0 <= j < n -> blk V' (put32 b f_length v) j = blk V b j.
Proof.
  intros Hl Ht Hv. assert (Ha : forall x, x ∈ metab V b n -> V' x = V x) by (intros x Hx; apply Hv; by intros ->). split.
  - rewrite foot_length by done. by apply foot_agree.
  - intros j Hj. rewrite blk_length by (done || lia). by eapply blk_agree.
Qed.

Section Proof.
Context {junk zeros : list Z} {oom : Z -> bool} `{Hmem : !good_memory junk zeros oom}.
#[local] Set Default Proof Using "All".

(** The last step of [inode_expand]: the inode is written with the new length. *)
Lemma store_inode s G t b n len : growing_at s G t b n -> 0 <= len <= 512 * max_blocks -> nblk len = n ->
  let b' := put32 b f_length (u32 len) in
  exists s', wr junk s t b' 0 DISK_SECTOR_SIZE = Ret s' /\ inv s' [] (t :: G) /\ quiet G [t] s s' /\ vw s' t = Some b' /\ flen b' = len /\
    (forall j, 0 <= j < n -> blk (vw s') b' j = blk (vw s) b j /\ vw s' (blk (vw s) b j) = vw s (blk (vw s) b j)) /\ room s' = room s.
Proof.
  intros Hg Hlen Hn b'. pose proof Hg as [Hi Hl _ _ _]. unfold max_blocks in Hlen.
  assert (Htx : t ∈ sectors_of (vw s) t b (bool_decide (64 < n)) (bool_decide (192 < n)) (tables n) n) by (by left).
  destruct (inv_valid _ _ _ _ Hi Htx) as (y & Hy & _).
  assert (Hlb : length b' = 512%nat) by (unfold b'; rewrite put32_length; unfold f_length; lia).
  destruct (wr_all s t y b' (iv_ready _ _ _ Hi) Hy Hlb) as (s' & E & Hm). destruct (wr_step s s' _ G t b' Hi Htx Hm) as (Hi' & Hq & Em & Ht').
  destruct (growing_nodup _ _ _ _ _ _ _ _ Hg) as (_ & Nt & _). rewrite <- metab_metal in Nt.
  assert (Hv : forall x, x <> t -> vw s' x = vw s x) by (intros x Hx; rewrite (mv_view _ _ _ Hm); by apply vset_ne).
  destruct (foot_put_length (vw s) (vw s') t b n (u32 len) Hl Nt Hv) as [Hfoot Hblk].
  assert (Hfl : flen b' = len) by (apply flen_put; [done|lia]).
  assert (Htd : t ∉ datab (vw s) b n).
  { pose proof (iv_nodup _ _ _ Hi) as Hnd. unfold sectors_of in Hnd. apply NoDup_app in Hnd as (Hnd & _). apply NoDup_cons in Hnd as [Hnd _].
    intros Hx. apply Hnd, elem_of_app. by right. }
  exists s'. split_and!; try done.
  - apply (growing_finish s' G t b' n); [|done|by rewrite Hfl|by rewrite Hfl]. destruct Hg as [_ _ K3 K4 K5]. split; try done.
    eapply inv_perm; [|exact Hi']. unfold sectors_of. rewrite <- !metab_metal. unfold foot in Hfoot. fold b' in Hfoot.
    by rewrite Hfoot.
  - intros j Hj. split; [by apply Hblk|]. apply Hv. intros Hx. apply Htd. rewrite <- Hx. apply elem_of_datab. eauto.
  - unfold room. by rewrite Em.
Qed.

Lemma expand_ok W s G t p i ext : inv s [] (t :: G) -> not_free_map s t -> inodes s !! p = Some i -> sector i = t -> p <> NULL ->
  0 <= ext -> flen (sec (vw s) t) + ext <= 512 * max_blocks ->
  need (nblk (flen (sec (vw s) t) + ext)) - need (blks (vw s) t) <= Z.of_nat (room s) ->
  exists s', inode_expand_ junk zeros oom (inode_write_at_ junk zeros oom W) s p ext = Ret (s', true) /\
    extended G t s s' (flen (sec (vw s) t) + ext) /\
    Z.of_nat (room s) = need (nblk (flen (sec (vw s) t) + ext)) - need (blks (vw s) t) + Z.of_nat (room s').
Proof.
  intros Hi Hnf Hp Hs Hp0 He Hmax Hroom. destruct (inv_opened s [] (t :: G) t p i Hi) as [Ho _]; [by left|done..|].
  set (b := sec (vw s) t) in *. set (L := flen b) in *. pose proof (op_len _ _ _ _ Ho) as HL. fold L in HL.
  unfold inode_expand_. destruct (scratch_ok s (iv_ready _ _ _ Hi)) as (s1 & q & -> & Hm1 & _). cbn [rbind].
  destruct (opened_same _ _ _ _ _ Hm1 Ho) as [K1 _ K3 _ _].
  destruct (read_inode s1 p i b (mv_ready _ _ _ Hm1) K1 K3) as (s2 & E2 & Hm2). unfold get_inode in *. rewrite K1 in *. cbn [of_opt rbind] in *.
  rewrite E2. cbn [rbind]. pose proof (moves_same _ _ _ _ Hm1 Hm2) as Hm12. destruct (opened_same _ _ _ _ _ Hm12 Ho) as [J1 _ J3 _ _].
  destruct (length_ok s2 p i b (mv_ready _ _ _ Hm2) J1 J3) as (s3 & -> & Hm3). cbn [rbind]. fold L.
  pose proof (moves_same _ _ _ _ Hm12 Hm3) as Hm13. destruct (opened_same _ _ _ _ _ Hm13 Ho) as [I1 _ I3 _ _].
  destruct (sectors_arith L ext) as (A1 & A2 & A3 & A4); [lia..|]. rewrite A1. cbn [rbind].
  destruct (length_ok s3 p i b (mv_ready _ _ _ Hm3) I1 I3) as (s4 & -> & Hm4). cbn [rbind]. fold L. change DISK_SECTOR_SIZE with 512.
  rewrite A2, A3. cbn [rbind]. rewrite A4. cbn [rbind]. pose proof (moves_same _ _ _ _ Hm13 Hm4) as Hm.
  destruct (moves_quiet s s4 [] (t :: G) [] (vw s) Hi Hm) as [Hi4 Hq4]; [by intros x Hx%elem_of_nil|done|by intros x Hx%elem_of_nil|].
  pose proof (mv_view _ _ _ Hm) as Hv4. pose proof (rest_fmfile _ _ (mv_rest _ _ _ Hm)) as Hff.
  assert (Hsec4 : sec (vw s4) t = b) by (unfold sec; by rewrite Hv4).
  assert (Hg4 : growing_at s4 G t b (nblk L)).
  { pose proof (growing_start s4 G t Hi4) as Hg. unfold blks in Hg. rewrite Hsec4 in Hg. apply Hg. intros Hn. rewrite Hff in Hn. auto. }
  assert (Hr4 : room s4 = room s) by (unfold room; by rewrite (mv_map _ _ _ Hm)).
  assert (Hnb : nblk L <= nblk (L + ext)) by (unfold nblk; Z.div_mod_to_equations; lia).
  pose proof (nblk_range L ltac:(lia)) as Hr1. pose proof (nblk_range (L + ext) ltac:(lia)) as Hr2.
  destruct (expand_loop W s4 G t b (nblk L) (nblk (L + ext) - nblk L) Hg4) as (s5 & b5 & -> & Hg5 & Hgr & Er5); [lia..| |].
  { unfold blks in Hroom. fold b L in Hroom. rewrite Hr4. replace (nblk L + (nblk (L + ext) - nblk L)) with (nblk (L + ext)) by lia. done. }
  replace (nblk L + (nblk (L + ext) - nblk L)) with (nblk (L + ext)) in * by lia. cbn [rbind].
  pose proof (gw_head _ _ _ _ _ _ _ Hgr) as Hh. rewrite (head_word b b5 f_length Hh) by (unfold f_length; lia). fold (flen b). fold L.
  unfold off_t. unfold max_blocks in *. rewrite bool_decide_eq_true_2 by lia. cbn [rbind]. rewrite Hs.
  destruct (store_inode s5 G t b5 (nblk (L + ext)) (L + ext) Hg5) as (s6 & E6 & Hi6 & Hq6 & Ht6 & Hfl6 & Hb6 & Er6); [unfold max_blocks; lia|done|].
  change DISK_SECTOR_SIZE with 512 in E6. rewrite E6. cbn [rbind]. exists s6. split; [done|]. set (b6 := put32 b5 f_length (u32 (L + ext))) in *.
  assert (Hsec6 : sec (vw s6) t = b6) by (unfold sec; by rewrite Ht6).
  split; [|unfold blks; fold b L; lia]. destruct Hgr as [W1 W2 W3 W4 W5 W6 W7 W8 W9 W10]. destruct Hq4 as [Q1 Q2 Q3 Q4 Q5 Q6]. destruct Hq6 as [P1 P2 P3 P4 P5 P6].
  assert (Hown4 : owned (vw s4) G = owned (vw s) G) by (apply owned_agree; intros; apply Hv4).
  split; rewrite ?Hsec6; try done; try congruence; try lia.
  - intros k Hk. fold L in Hk. pose proof (block_in L k Hk) as Hkb.
    destruct (Hb6 (k / 512)) as [X1 X2]; [lia|]. unfold fbyte, sec. rewrite X1, X2, W1, W2 by lia. rewrite Hv4.
    by rewrite (blk_agree (vw s) (vw s4) b (nblk L)) by (done || intros; apply Hv4).
  - intros x Hx Hf. rewrite P1.
    + rewrite W4; [apply Hv4|by rewrite Hown4|by rewrite Q2].
    + intros H%list_elem_of_singleton. subst x. pose proof (iv_nodup _ _ _ Hi) as Hnd. simpl in Hnd. rewrite owned_cons in Hnd.
      apply NoDup_app in Hnd as (_ & Hnd & _). apply (Hnd t); [by left|done].
    + by rewrite W5, Q2.
  - intros j Hj. unfold b6, put32. rewrite overwrite_lookup by (destruct Hg5 as [_ Hl5 _ _ _]; rewrite ?bytes32_length, ?Hl5; unfold f_length; lia).
    rewrite decide_False by (rewrite bytes32_length; unfold f_length; lia). apply W7. lia.
Qed.

(** ** inode_write_at *)

Lemma inv_set_inode s X G p i i' : inv s X G -> inodes s !! p = Some i -> sector i' = sector i -> deny_write_cnt i' = deny_write_cnt i ->
  inv (set_inode s p i') X G.
Proof.
  intros Hi Hp Hs Hd. eapply inv_frame; try done; [by destruct (iv_ready _ _ _ Hi)|].
  intros (fl & j & H1 & H2 & H3 & H4 & H5). exists fl. destruct (decide (f_inode fl = p)) as [<-|Hne].
  - exists i'. simpl. rewrite lookup_insert_eq. split_and!; try done; congruence.
  - exists j. simpl. rewrite lookup_insert_ne by done. done.
Qed.

(** A write to blocks the file already has. *)
Lemma write_blocks s G t p i buf size offset : inv s [] (t :: G) -> not_free_map s t -> inodes s !! p = Some i -> sector i = t -> p <> NULL ->
  0 <= size <= Z.of_nat (length buf) -> 0 <= offset -> offset + size <= flen (sec (vw s) t) ->
  exists s', iter (S (Z.to_nat size)) (write_chunk junk oom p buf) (s, size, offset, 0) = Ret (s', size) /\
    inv s' [] (t :: G) /\ sec (vw s') t = sec (vw s) t /\ free_map s' = free_map s /\ rest s' = rest s /\ fm_data s' = fm_data s /\ next s <= next s' /\
    (forall q, 0 <= q < flen (sec (vw s) t) -> fbyte (vw s') (sec (vw s) t) q =
       if decide (offset <= q < offset + size) then buf !!! Z.to_nat (q - offset) else fbyte (vw s) (sec (vw s) t) q) /\
    (forall x, x ∈ owned (vw s) G -> vw s' x = vw s x).
Proof.
  intros Hi Hnf Hp Hs Hp0 Hsz Hof Hin. destruct (inv_opened s [] (t :: G) t p i Hi) as [Ho Hnd]; [by left|done..|].
  destruct (write_loop_ok s p i (sec (vw s) t) buf size offset (iv_ready _ _ _ Hi) Ho Hnd) as (s' & V' & E & Hm & [J1 J2 J3]); [done..|].
  set (b := sec (vw s) t) in *. change (nblk (flen b)) with (blks (vw s) t) in *. pose proof (growing_start s G t Hi Hnf) as Hg. fold b in Hg.
  pose proof Hg as [Hgi Hlb Hg3 Hg4 Hg5]. pose proof (mv_view _ _ _ Hm) as Hv.
  destruct (growing_nodup _ _ _ _ _ _ _ _ Hg) as (_ & Nt & Nd). rewrite <- metab_metal in Nt, Nd.
  assert (Hdx : forall x, x ∈ datab (vw s) b (blks (vw s) t) ->
    x ∈ sectors_of (vw s) t b (bool_decide (64 < blks (vw s) t)) (bool_decide (192 < blks (vw s) t)) (tables (blks (vw s) t)) (blks (vw s) t)).
  { intros x Hx. unfold sectors_of. apply elem_of_cons. right. apply elem_of_app. by right. }
  destruct (moves_quiet s s' _ G (datab (vw s) b (blks (vw s) t)) V' Hgi Hm) as [Hi' Hq].
  { intros x Hx. eapply inv_disjoint; [exact Hgi|auto]. }
  { done. }
  { intros x Hx. destruct (inv_valid _ _ _ _ Hgi (Hdx x Hx)) as (y & Hy & _). split; [apply J2|]; by eexists. }
  assert (Hmeta : forall x, x ∈ metab (vw s) b (blks (vw s) t) -> vw s' x = vw s x) by (intros x Hx; rewrite Hv; auto).
  assert (Htd : t ∉ datab (vw s) b (blks (vw s) t)).
  { rewrite Hs in Hnd. apply NoDup_cons in Hnd as [Hnd _]. intros Hx. apply Hnd. unfold foot. apply elem_of_app. by right. }
  assert (Hvt : vw s' t = vw s t) by (rewrite Hv; auto). assert (Hvb : vw s t = Some b) by (rewrite <- Hs; apply Ho).
  exists s'. split; [done|]. split_and!.
  - apply (growing_finish s' G t b (blks (vw s) t)); [|congruence|apply Ho|done]. split; try done.
    unfold sectors_of in *. rewrite <- metab_metal in *. by rewrite (metab_agree (vw s)), (datab_agree (vw s) (vw s') b _ (blks (vw s) t)).
  - unfold b, sec. by rewrite Hvt.
  - apply Hm.
  - apply Hm.
  - apply Hq.
  - apply Hm.
  - intros q Hq'. pose proof (block_in _ _ Hq') as Hbi. change (nblk (flen b)) with (blks (vw s) t) in Hbi.
    rewrite <- J3; [|Z.div_mod_to_equations; lia]. unfold fbyte, sec. rewrite Hv.
    rewrite (blk_agree (vw s) (vw s') b (blks (vw s) t)), (blk_agree (vw s) V' b (blks (vw s) t)); try done. intros x Hx. rewrite <- Hv. auto.
  - intros x Hx. rewrite Hv. apply J1. intros Hd. apply Hdx in Hd. by apply (inv_disjoint _ _ _ _ Hgi Hd).
Qed.

(** What a write leaves: the new bytes, the old ones, and the other files. *)
Record wrote (G : list Z) (t : Z) (s s' : fs) (buf : list Z) (size offset : Z) : Prop := {
  wo_inv : inv s' [] (t :: G);
  wo_len : flen (sec (vw s') t) = Z.max (flen (sec (vw s) t)) (offset + size);
  wo_new : forall q, offset <= q < offset + size -> fbyte (vw s') (sec (vw s') t) q = buf !!! Z.to_nat (q - offset);
  wo_old : forall q, 0 <= q < flen (sec (vw s) t) -> ~ offset <= q < offset + size -> fbyte (vw s') (sec (vw s') t) q = fbyte (vw s) (sec (vw s) t) q;
  wo_files : forall x, x ∈ owned (vw s) G -> x ∉ fm_data s -> vw s' x = vw s x;
  wo_fm : fm_data s' = fm_data s;
  wo_head : forall j, (j < 4)%nat \/ (8 <= j < 20)%nat -> sec (vw s') t !!! j = sec (vw s) t !!! j;
  wo_rest : rest s' = rest s;
  wo_next : next s <= next s'
}.

Lemma set_inode_back s p i : inodes s !! p = Some i -> forall s', rest s' = rest (set_inode s p (with_locked i true)) -> locked i = false ->
  inodes s' !! p = Some (with_locked i true) /\ rest (set_inode s' p (with_locked (with_locked i true) false)) = rest s.
Proof.
  intros Hp s' Hr Hl. unfold rest in *. simpl in *. injection Hr as E1 E2 E3 E4 E5 E6. rewrite E1, E2, E3, E4, E5, E6. split; [by rewrite lookup_insert_eq|].
  rewrite insert_insert_eq. replace (with_locked (with_locked i true) false) with i by (destruct i; simpl in *; by subst). by rewrite insert_id.
Qed.

Lemma write_grows W s G t p i buf size offset : inv s [] (t :: G) -> not_free_map s t -> inodes s !! p = Some i -> sector i = t -> p <> NULL ->
  deny_write_cnt i = 0 -> locked i = false -> 0 <= size <= Z.of_nat (length buf) -> 0 <= offset -> offset + size <= 512 * max_blocks ->
  need (nblk (Z.max (flen (sec (vw s) t)) (offset + size))) - need (blks (vw s) t) <= Z.of_nat (room s) ->
  exists s', inode_write_at_ junk zeros oom (inode_write_at_ junk zeros oom W) s p buf size offset = Ret (s', size) /\ wrote G t s s' buf size offset /\
    (offset + size <= flen (sec (vw s) t) -> free_map s' = free_map s) /\
    Z.of_nat (room s) = need (nblk (Z.max (flen (sec (vw s) t)) (offset + size))) - need (blks (vw s) t) + Z.of_nat (room s').
Proof.
  intros Hi Hnf Hp Hs Hp0 Hdeny Hlk Hsz Hof Hmax Hroom. destruct (inv_opened s [] (t :: G) t p i Hi) as [Ho _]; [by left|done..|].
  pose proof Ho as [K1 K2 K3 K4 K5]. unfold inode_write_at_ at 1. unfold get_inode. rewrite K1. cbn [of_opt rbind]. rewrite bool_decide_eq_false_2 by lia.
  destruct (length_ok s p i _ (iv_ready _ _ _ Hi) K1 K3) as (s1 & -> & Hm1). cbn [rbind]. unfold off_t at 1. unfold max_blocks in Hmax, K4.
  rewrite bool_decide_eq_true_2 by lia. cbn [rbind]. pose proof (mv_view _ _ _ Hm1) as Hv1.
  destruct (moves_quiet s s1 [] (t :: G) [] (vw s) Hi Hm1) as [Hi1 Hq1]; [by intros x Hx%elem_of_nil|done|by intros x Hx%elem_of_nil|].
  assert (Hsec1 : sec (vw s1) t = sec (vw s) t) by (unfold sec; by rewrite Hv1).
  assert (Hp1 : inodes s1 !! p = Some i) by (by rewrite (moves_inodes _ _ _ Hm1)).
  pose proof (rest_fmfile _ _ (mv_rest _ _ _ Hm1)) as Hff1. assert (Hnf1 : not_free_map s1 t) by (intros Hn; rewrite Hff1 in Hn; auto).
  set (L := flen (sec (vw s) t)) in *. assert (Hown1 : owned (vw s1) G = owned (vw s) G) by (apply owned_agree; intros; apply Hv1).
  assert (Hb1 : forall q, 0 <= q < L -> fbyte (vw s1) (sec (vw s) t) q = fbyte (vw s) (sec (vw s) t) q).
  { intros q Hq. unfold fbyte, sec. rewrite Hv1. rewrite (blk_agree (vw s) (vw s1) _ (nblk L)); [done|intros; apply Hv1|by apply block_in]. }
  assert (Hrm1 : room s1 = room s) by (unfold room; by rewrite (mv_map _ _ _ Hm1)).
  case_bool_decide as Hgrow.
  - unfold lock_inode, get_inode. rewrite Hp1. cbn [of_opt rbind]. rewrite Hlk. cbn [negb assert_ rbind]. unfold off_t. rewrite bool_decide_eq_true_2 by lia. cbn [rbind].
    set (s2 := set_inode s1 p (with_locked i true)).
    assert (Hi2 : inv s2 [] (t :: G)) by (by eapply inv_set_inode).
    destruct (expand_ok W s2 G t p (with_locked i true) (offset + size - L)) as (s3 & -> & Hex & Er3); try done.
    + simpl. by rewrite lookup_insert_eq.
    + lia.
    + change (vw s2) with (vw s1). rewrite Hsec1. fold L. unfold max_blocks. lia.
    + change (vw s2) with (vw s1). change (room s2) with (room s1). unfold blks in *. rewrite Hsec1, Hrm1. fold L in Hroom |- *.
      replace (L + (offset + size - L)) with (Z.max L (offset + size)) by lia. done.
    + cbn [rbind]. destruct Hex as [X1 X2 X3 X4 X5 X6 X7 X8 X9]. change (vw s2) with (vw s1) in *. change (fm_data s2) with (fm_data s1) in *.
      unfold blks in Er3. rewrite Hsec1 in X2, X3, X6, Er3. fold L in X2, X3, Er3. replace (L + (offset + size - L)) with (offset + size) in X2, Er3 by lia.
      destruct (set_inode_back s1 p i Hp1 s3 X7 Hlk) as [Hp3 Hr3]. unfold unlock_inode, get_inode. rewrite Hp3. cbn [of_opt rbind locked with_locked assert_].
      set (s4 := set_inode s3 p (with_locked (with_locked i true) false)) in *.
      assert (Hi4 : inv s4 [] (t :: G)) by (by eapply inv_set_inode).
      assert (Hp4 : inodes s4 !! p = Some i) by (rewrite (rest_inodes s1 s4 Hr3); done).
      destruct (write_blocks s4 G t p i buf size offset Hi4) as (s5 & -> & Y1 & Y2 & Y3 & Y4 & Y5 & Y6 & Y7 & Y8); try done.
      * intros Hn. rewrite (rest_fmfile s1 s4 Hr3) in Hn. auto.
      * change (vw s4) with (vw s3). rewrite X2. lia.
      * change (vw s4) with (vw s3) in *. change (fm_data s4) with (fm_data s3) in *. change (free_map s4) with (free_map s3) in *.
        exists s5. split; [done|]. split; [|split; [intros; lia|]; unfold room in *; rewrite Y3; unfold blks; fold L; replace (Z.max L (offset + size)) with (offset + size) by lia;
          change (free_map s2) with (free_map s1) in Er3; rewrite Hrm1 in Er3; lia].
        assert (Hfm1 : fm_data s1 = fm_data s) by apply Hq1.
        split; rewrite ?Y2, ?X2; try done; try congruence.
        -- lia.
        -- intros q Hq. rewrite Y7 by lia. by rewrite decide_True.
        -- intros q Hq Hn. rewrite Y7 by lia. rewrite decide_False by done. rewrite X3 by done. auto.
        -- intros x Hx Hf. rewrite Y8; [rewrite X4; [apply Hv1|by rewrite Hown1|by rewrite Hfm1]|].
           rewrite (owned_agree (vw s1)); [by rewrite Hown1|]. intros g y Hg Hy. apply X4.
           ++ apply elem_of_owned. exists g. split; [done|by apply tree_whole].
           ++ eapply fm_data_tree; [exact Hi1|by right|done].
        -- rewrite Y4, Hr3. apply Hm1.
        -- pose proof (mv_next _ _ _ Hm1). change (next s2) with (next s1) in X9. change (next s4) with (next s3) in Y6. lia.
  - cbn [rbind]. destruct (write_blocks s1 G t p i buf size offset Hi1) as (s5 & -> & Y1 & Y2 & Y3 & Y4 & Y5 & Y6 & Y7 & Y8); try done; [rewrite Hsec1; fold L; lia|].
    exists s5. split; [done|]. rewrite Hsec1 in *. fold L in Y7. assert (HmaxL : Z.max L (offset + size) = L) by lia.
    split; [|split; [intros _; rewrite Y3; apply Hm1|]; unfold room in *; rewrite Y3, HmaxL; unfold blks; fold L; lia].
    split; rewrite ?Y2; try done; try congruence.
    + intros q Hq. rewrite Y7 by lia. by rewrite decide_True.
    + intros q Hq Hn. rewrite Y7 by lia. rewrite decide_False by done. auto.
    + intros x Hx Hf. rewrite Y8; [apply Hv1|by rewrite Hown1].
    + rewrite Y5. apply Hq1.
    + rewrite Y4. apply Hm1.
    + pose proof (mv_next _ _ _ Hm1). lia.
Qed.
End Proof.
