(* ===== verification/Directory.v ===== *)
(** * filesys/directory.c, filesys/filesys.c: directories and path names

    A name is the list of its characters before the terminating null.  The tokens of a
    path are those of the loop over [strtok_r] (see [tokens] and the theorem about that
    loop).  Buffers for copies of names are assumed to be allocated. *)

From S2P Require Import Prelude Bitmap Cstring Cache Inode.

Definition NAME_MAX : Z := 14.
Definition SLASH : Z := 47.
Definition DOT : Z := 46.

(** ** Directory entries: 4 bytes of sector, 15 of name, 1 of [in_use] *)

Definition SIZEOF_DIR_ENTRY : Z := 20.
Definition e_inode_sector (e : list Z) : Z := get32 e 0.
Definition e_in_use (e : list Z) : bool := bool_decide (e !!! 19%nat <> 0).
(** The string in [e.name]; without a null it has no end. *)
Definition e_name (e : list Z) : res (list Z) :=
  match list_find (fun c => c = 0) (take 15 (drop 4 e)) with
  | Some (k, _) => Ret (take k (drop 4 e))
  | None => Ub
  end.

(** Enough rounds for the largest file. *)
Definition dir_rounds : nat := Z.to_nat 424347.

Section Directory.
Context (junk zeros : list Z) (oom : Z -> bool).

(** ** Opening and closing *)

Definition dir_create (s : fs) (sec entry_cnt : Z) : res (fs * bool) :=
  inode_create junk zeros oom s sec (s32 (u32 (entry_cnt * SIZEOF_DIR_ENTRY))) true.

Definition dir_open (s : fs) (ino : Z) : res (fs * Z) :=
  let '(s, d) := calloc oom s in
  if bool_decide (ino <> NULL) && bool_decide (d <> NULL) then
    Ret (with_dirs s (<[d := mkDir ino 0]> (dirs s)), d)
  else let! s := inode_close junk zeros oom s ino in Ret (s, NULL).

Definition dir_open_root (s : fs) : res (fs * Z) :=
  let! '(s, ino) := inode_open oom s ROOT_DIR_SECTOR in dir_open s ino.

Definition dir_reopen (s : fs) (d : Z) : res (fs * Z) :=
  let! dr := get_dir s d in
  let! '(s, ino) := inode_reopen s (d_inode dr) in
  dir_open s ino.

Definition dir_close (s : fs) (d : Z) : res fs :=
  if bool_decide (d <> NULL) then
    let! dr := get_dir s d in
    let! s := inode_close junk zeros oom s (d_inode dr) in
    Ret (with_dirs s (delete d (dirs s)))
  else Ret s.

Definition dir_get_inode (s : fs) (d : Z) : res Z := let! dr := get_dir s d in Ret (d_inode dr).

(** ** Entries *)

(** [inode_read_at (ino, &e, sizeof e, ofs)]: the new value of [e] and whether all of it was read. *)
Definition read_entry (s : fs) (ino : Z) (e : list Z) (ofs : Z) : res (fs * list Z * bool) :=
  let! '(s, d) := inode_read_at junk oom s ino SIZEOF_DIR_ENTRY ofs in
  Ret (s, overwrite e 0 d, bool_decide (Z.of_nat (length d) = SIZEOF_DIR_ENTRY)).

(** The uninitialised local variable [e]. *)
Definition fresh_entry : list Z := take 20 junk.

Definition lookup_ (s : fs) (d : Z) (name : list Z) : res (fs * option (list Z * Z)) :=
  ASSERT bool_decide (d <> NULL);
  let! dr := get_dir s d in
  iter dir_rounds (fun '(s, e, ofs) =>
    let! '(s, e, full) := read_entry s (d_inode dr) e ofs in
    if negb full then Ret (inr (s, None))
    else if e_in_use e then
      let! n := e_name e in
      if bool_decide (name = n) then Ret (inr (s, Some (e, ofs))) else Ret (inl (s, e, ofs + SIZEOF_DIR_ENTRY))
    else Ret (inl (s, e, ofs + SIZEOF_DIR_ENTRY))) (s, fresh_entry, 0).

(** The inode, or a null pointer. *)
Definition dir_lookup (s : fs) (d : Z) (name : list Z) : res (fs * Z) :=
  ASSERT bool_decide (d <> NULL);
  let! dr := get_dir s d in
  if bool_decide (name = [DOT]) then inode_reopen s (d_inode dr)
  else if bool_decide (name = [DOT; DOT]) then
    let! '(s, parent) := inode_parent junk s (d_inode dr) in inode_open oom s parent
  else
    let! '(s, o) := lookup_ s d name in
    match o with
    | Some (e, _) => inode_open oom s (e_inode_sector e)
    | None => Ret (s, NULL)
    end.

(** The offset of the first free slot, or of the end of the file. *)
Definition free_slot (s : fs) (ino : Z) : res (fs * list Z * Z) :=
  iter dir_rounds (fun '(s, e, ofs) =>
    let! '(s, e, full) := read_entry s ino e ofs in
    if negb full then Ret (inr (s, e, ofs))
    else if negb (e_in_use e) then Ret (inr (s, e, ofs))
    else Ret (inl (s, e, ofs + SIZEOF_DIR_ENTRY))) (s, fresh_entry, 0).

Definition dir_add (s : fs) (d : Z) (name : list Z) (inode_sector : Z) : res (fs * bool) :=
  ASSERT bool_decide (d <> NULL);
  if bool_decide (name = []) || bool_decide (Z.of_nat (length name) > NAME_MAX) then Ret (s, false)
  else
    let! '(s, o) := lookup_ s d name in
    match o with
    | Some _ => Ret (s, false)
    | None =>
        let! dr := get_dir s d in
        let! '(s, e, ofs) := free_slot s (d_inode dr) in
        let e := overwrite e 19 [1] in
        let e := overwrite e 4 (name ++ [0]) in
        let e := put32 e 0 inode_sector in
        let! '(s, n) := inode_write_at junk zeros oom s (d_inode dr) e SIZEOF_DIR_ENTRY ofs in
        Ret (s, bool_decide (n = SIZEOF_DIR_ENTRY))
    end.

Definition dir_remove (s : fs) (d : Z) (name : list Z) : res (fs * bool) :=
  ASSERT bool_decide (d <> NULL);
  let! '(s, o) := lookup_ s d name in
  match o with
  | None => Ret (s, false)
  | Some (e, ofs) =>
      let! '(s, ino) := inode_open oom s (e_inode_sector e) in
      if bool_decide (ino = NULL) then Ret (s, false)
      else
        let e := overwrite e 19 [0] in
        let! dr := get_dir s d in
        let! '(s, n) := inode_write_at junk zeros oom s (d_inode dr) e SIZEOF_DIR_ENTRY ofs in
        let! '(s, success) :=
          (if bool_decide (n <> SIZEOF_DIR_ENTRY) then Ret (s, false)
           else let! s := inode_remove s ino in Ret (s, true)) in
        let! s := inode_close junk zeros oom s ino in
        Ret (s, success)
  end.

(** The loop of [dir_readdir] from position [pos]: the new position and the name. *)
Definition readdir_from (s : fs) (ino pos : Z) : res (fs * Z * option (list Z)) :=
  iter dir_rounds (fun '(s, e, pos) =>
    let! '(s, e, full) := read_entry s ino e pos in
    if negb full then Ret (inr (s, pos, None))
    else
      let pos := pos + SIZEOF_DIR_ENTRY in
      if e_in_use e then let! n := e_name e in Ret (inr (s, pos, Some n)) else Ret (inl (s, e, pos)))
    (s, fresh_entry, pos).

Definition dir_readdir (s : fs) (d : Z) : res (fs * option (list Z)) :=
  let! dr := get_dir s d in
  let! '(s, pos, o) := readdir_from s (d_inode dr) (d_pos dr) in
  Ret (with_dirs s (<[d := mkDir (d_inode dr) pos]> (dirs s)), o).

Definition dir_empty_check (s : fs) (d : Z) : res (fs * bool) :=
  let! dr := get_dir s d in
  let! '(s, _, o) := readdir_from s (d_inode dr) 0 in
  Ret (s, match o with None => true | Some _ => false end).

(** ** Paths *)

Definition walk : list (list Z) -> fs -> Z -> res (fs * Z) :=
  fix walk tokens s temp_dir :=
    match tokens with
    | [] => Ret (s, temp_dir)
    | token :: tokens =>
        let! '(s, ino) := dir_lookup s temp_dir token in
        if bool_decide (ino <> NULL) then
          let! s := dir_close s temp_dir in
          let! '(s, temp_dir) := dir_open s ino in
          walk tokens s temp_dir
        else let! s := dir_close s temp_dir in Ret (s, NULL)
    end.

Definition path_parsing (s : fs) (path : list Z) : res (fs * Z) :=
  let! '(s, temp_dir) := (if bool_decide (head path = Some SLASH) then dir_open_root s else dir_reopen s (cur_dir s)) in
  walk (tokens (fun c => c =? SLASH) path) s temp_dir.

(** [strrchr (name, '/')]: the index of the last slash. *)
Fixpoint last_slash (name : list Z) : option nat :=
  match name with
  | [] => None
  | c :: name =>
      match last_slash name with
      | Some k => Some (S k)
      | None => if bool_decide (c = SLASH) then Some 0%nat else None
      end
  end.

(** The directory a name is in, and its last part. *)
Definition split_name (s : fs) (name : list Z) : res (fs * Z * list Z) :=
  match last_slash name with
  | None => let! '(s, d) := dir_reopen s (cur_dir s) in Ret (s, d, name)
  | Some path_len =>
      let! '(s, d) := path_parsing s (take path_len name) in
      Ret (s, d, drop (S path_len) name)
  end.

Definition filesys_create (s : fs) (name : list Z) (initial_size : Z) (is_dir : bool) : res (fs * bool) :=
  if bool_decide (name = []) then Ret (s, false)
  else
    let! '(s, current_dir, target_name) := split_name s name in
    if bool_decide (current_dir = NULL) then Ret (s, false)
    else
      let! '(s, current_inode) := dir_lookup s current_dir target_name in
      let! '(s, result) :=
        (if bool_decide (current_inode = NULL) then
           let! '(s, o) := free_map_allocate junk zeros oom s 1 in
           match o with
           | None => Ret (s, false)
           | Some sec =>
               let! '(s, result) := (if is_dir then dir_create s sec 0
                                     else inode_create junk zeros oom s sec initial_size false) in
               let! '(s, added) := dir_add s current_dir target_name sec in
               Ret (s, result && added)
           end
         else let! s := inode_close junk zeros oom s current_inode in Ret (s, false)) in
      let! s := dir_close s current_dir in
      Ret (s, result).

Definition filesys_open (s : fs) (name : list Z) : res (fs * Z) :=
  if bool_decide (name = []) then Ret (s, NULL)
  else
    let! '(s, current_dir, target_name) := split_name s name in
    if bool_decide (current_dir = NULL) then Ret (s, NULL)
    else if bool_decide (target_name = []) then
      let! ino := dir_get_inode s current_dir in file_open junk zeros oom s ino
    else
      let! '(s, current_inode) := dir_lookup s current_dir target_name in
      let! s := dir_close s current_dir in
      file_open junk zeros oom s current_inode.

Definition filesys_remove (s : fs) (name : list Z) : res (fs * bool) :=
  if bool_decide (name = []) then Ret (s, false)
  else
    let! '(s, current_dir, target_name) := split_name s name in
    if bool_decide (current_dir = NULL) then Ret (s, false)
    else
      let! '(s, current_inode) := dir_lookup s current_dir target_name in
      let! here := dir_get_inode s (cur_dir s) in
      let! '(s, result) := (if bool_decide (current_inode = here) then Ret (s, false) else dir_remove s current_dir target_name) in
      let! s := dir_close s current_dir in
      let! s := inode_close junk zeros oom s current_inode in
      Ret (s, result).

(** ** Starting and stopping *)

Definition do_format (s : fs) : res fs :=
  let! s := free_map_create junk zeros oom s in
  let! '(s, ok) := dir_create s ROOT_DIR_SECTOR 16 in
  ASSERT ok;
  free_map_close junk zeros oom s.

Definition filesys_init (malloc_b : bool) (malloc_bits : option (list Z)) (s : fs) (format : bool) : res fs :=
  let s := inode_init s in
  let! s := free_map_init malloc_b malloc_bits s in
  let s := with_cd s (cache_init (cd s)) in
  let! '(s, d) := dir_open_root s in
  let s := with_cur_dir s d in
  let! s := (if format then do_format s else Ret s) in
  free_map_open junk zeros oom s.

Definition filesys_done (s : fs) : res fs :=
  let! c := destroy_cache_list (cd s) in
  free_map_close junk zeros oom (with_cd s c).
End Directory.
