(* ===== verification/FsCheck.v ===== *)
(** * Consistency of a concrete file system, by evaluation

    [inv_b] decides the invariant of the file system; [booted] is a formatted disk with
    one open file, on which the theorems about files and directories are tried. *)

From S2P Require Import Prelude Bitmap Cstring Cache CacheProof Inode InodeView InodeOps InodeGrow Directory.

Definition entry_b (d : gmap Z (list Z)) (e : cache) : Prop :=
  length (buffer e) = 512%nat /\ is_Some (d !! sector_idx e) /\ (dirty e = false -> d !! sector_idx e = Some (buffer e)).

Definition cache_b (c : cached_disk) : bool :=
  bool_decide ((length (cache_list c) <= 64)%nat /\ NoDup (sector_idx <$> cache_list c) /\ Forall (entry_b (disk c)) (cache_list c) /\
    map_Forall (fun _ b => length b = 512%nat) (disk c) /\ cache_lock c = false /\ read_ahead_lock c = false).

Definition map_b (b : bitmap) : bool :=
  bool_decide (0 <= bit_cnt b <= 2 ^ 32 - 32 /\ (bit_cnt b + 31) / 32 <= Z.of_nat (length (bits b)) /\ Forall (fun w => 0 <= w < 2 ^ 32) (bits b)).

Definition handle_b (s : fs) : bool :=
  match files s !! free_map_file s with
  | Some fl =>
      match inodes s !! f_inode fl with
      | Some i => bool_decide (f_inode fl <> NULL /\ sector i = FREE_MAP_SECTOR /\ deny_write_cnt i = 0)
      | None => false
      end
  | None => false
  end.

Definition inv_b (s : fs) (G : list Z) : bool :=
  let V := vw s in let b0 := sec V FREE_MAP_SECTOR in let n := bit_cnt (free_map s) in
  cache_b (cd s) && map_b (free_map s) && handle_b s &&
  bool_decide (0 < next s /\ dom (disk (cd s)) = (list_to_set (seqZ 0 n) : gset Z) /\ Forall (fun g => 0 <= flen (sec V g) <= 512 * max_blocks) G /\
    NoDup (owned V G) /\ Forall (fun t => (0 <= t < n) /\ bit (free_map s) t = true) (owned V G)) &&
  bool_decide (FREE_MAP_SECTOR ∈ G /\ b0 !!! Z.to_nat f_is_dir = 0 /\ byte_cnt n <= flen b0 /\
    Forall (fun q => fbyte V b0 q = words_bytes (bits (free_map s)) !!! Z.to_nat q) (seqZ 0 (byte_cnt n))).

Lemma cache_b_ok c : cache_b c = true -> cache_ok c /\ cache_lock c = false /\ read_ahead_lock c = false.
Proof.
  intros (H1 & H2 & H3 & H4 & H5 & H6)%bool_decide_eq_true_1. split; [|done]. split; try done.
  eapply Forall_impl; [exact H3|]. by intros e (K1 & K2 & K3).
Qed.

Lemma handle_b_ok s : handle_b s = true -> fm_handle s.
Proof.
  unfold handle_b, fm_handle. destruct (files s !! free_map_file s) as [fl|]; [|done]. destruct (inodes s !! f_inode fl) as [i|] eqn:E; [|done].
  intros H%bool_decide_eq_true_1. by exists fl, i.
Qed.

Lemma inv_b_ok s G : inv_b s G = true -> inv s [] G.
Proof.
  unfold inv_b. intros H. repeat apply andb_true_iff in H as [H ?].
  destruct (cache_b_ok _ H) as (Hok & Hl & Hra). apply handle_b_ok in H2. apply bool_decide_eq_true_1 in H0, H1, H3.
  destruct H1 as (N0 & Ndom & Nlen & Nnd & Nused). destruct H3 as (M1 & M2 & M3). destruct H0 as (F1 & F2 & F3 & F4).
  split; try done.
  - intros t. unfold vw. rewrite contents_valid by done. rewrite <- elem_of_dom, Ndom, elem_of_list_to_set, elem_of_seqZ. lia.
  - by rewrite Forall_forall in Nlen.
  - simpl. by rewrite Forall_forall in Nused.
  - intros _. split; [by split|]. intros q Hq. rewrite Forall_forall in F4. apply F4, elem_of_seqZ. lia.
Qed.

(** ** A formatted disk *)

Definition demo_junk : list Z := replicate 512 170.
Definition demo_oom : Z -> bool := fun _ => false.
Definition demo_disk (n : Z) : cached_disk :=
  mkDisk (list_to_map ((fun k => (k, replicate 512 0)) <$> seqZ 0 n)) [] [] false false.
Definition unformatted : fs := mkFs (demo_disk 40) (Bitmap 0 []) NULL [] ∅ ∅ ∅ NULL 0xc0001000.

Definition name_foo : list Z := [102; 111; 111].

Definition fs_boot : res (fs * Z) :=
  let! s := filesys_init demo_junk demo_junk demo_oom true (Some [0; 0]) unformatted true in
  let! '(s, _) := filesys_create demo_junk demo_junk demo_oom s name_foo 600 false in
  filesys_open demo_junk demo_junk demo_oom s name_foo.

(** The state after formatting, creating and opening a file, and the open file. *)
Definition booted : fs := Eval vm_compute in match fs_boot with Ret (s, _) => s | _ => unformatted end.
Definition foo : Z := Eval vm_compute in match fs_boot with Ret (_, f) => f | _ => NULL end.
(** The inodes of the free map, the root directory and the file. *)
Definition booted_files : list Z := [4; FREE_MAP_SECTOR; ROOT_DIR_SECTOR].
Definition foo_inode : Z := Eval vm_compute in match files booted !! foo with Some f => f_inode f | None => NULL end.

Lemma booted_inv : inv booted [] booted_files.
Proof. apply inv_b_ok. vm_compute. reflexivity. Qed.

Lemma demo_memory : good_memory demo_junk demo_junk demo_oom.
Proof. by split. Qed.
