(* ===== verification/FileProps.v ===== *)
(** * What the calls on an open inode do *)

From S2P Require Import Prelude Bitmap Cache CacheProof Inode InodeView InodeOps InodeIO InodeGrow InodeExpand InodeProof Directory FsCheck.

(** The bytes of the file whose inode is in sector [t]. *)
Definition content (V : view) (t : Z) : list Z := fbyte V (sec V t) <$> seqZ 0 (flen (sec V t)).

Lemma content_length V t : 0 <= flen (sec V t) -> Z.of_nat (length (content V t)) = flen (sec V t).
Proof. intros. unfold content. rewrite length_fmap, length_seqZ. lia. Qed.

Lemma content_lookup V t q : 0 <= q < flen (sec V t) -> content V t !! Z.to_nat q = Some (fbyte V (sec V t) q).
Proof. intros Hq. unfold content. rewrite list_lookup_fmap, (proj2 (lookup_seqZ 0 _ (Z.to_nat q) q)) by lia. done. Qed.

(** The bytes after a write that starts inside the file or at its end. *)
Lemma content_wrote G t s s' buf size offset : 0 <= flen (sec (vw s) t) -> wrote G t s s' buf size offset -> 0 <= size <= Z.of_nat (length buf) ->
  0 <= offset <= flen (sec (vw s) t) ->
  content (vw s') t = take (Z.to_nat offset) (content (vw s) t) ++ take (Z.to_nat size) buf ++ drop (Z.to_nat (offset + size)) (content (vw s) t).
Proof.
  intros Hl0 [W1 W2 W3 W4 _ _ _ _ _] Hs Ho. pose proof (content_length (vw s) t Hl0) as Hcl.
  assert (Hcl' : Z.of_nat (length (content (vw s') t)) = Z.max (flen (sec (vw s) t)) (offset + size)) by (rewrite content_length; lia).
  apply list_eq. intros k. destruct (decide (Z.of_nat k < flen (sec (vw s') t))) as [Hk|Hk].
  - rewrite <- (Nat2Z.id k), content_lookup by lia. rewrite Nat2Z.id. set (q := Z.of_nat k) in *. destruct (decide (offset <= q < offset + size)) as [Hin|Hout].
    + rewrite W3 by lia. rewrite lookup_app_r by (rewrite length_take; lia). rewrite length_take. rewrite lookup_app_l by (rewrite length_take; lia).
      rewrite lookup_take_lt by lia. replace (k - Z.to_nat offset `min` length (content (vw s) t))%nat with (Z.to_nat (q - offset)) by lia.
      rewrite list_lookup_total_alt. destruct (lookup_lt_is_Some_2 buf (Z.to_nat (q - offset))) as [y Hy]; [lia|]. by rewrite Hy.
    + rewrite W4 by lia. rewrite <- content_lookup by lia. destruct (decide (q < offset)).
      * rewrite lookup_app_l by (rewrite length_take; lia). rewrite lookup_take_lt by lia. f_equal. lia.
      * rewrite lookup_app_r by (rewrite length_take; lia). rewrite lookup_app_r by (rewrite !length_take; lia). rewrite lookup_drop, !length_take. f_equal. lia.
  - rewrite !lookup_ge_None_2; [done| |]; rewrite ?length_app, ?length_take, ?length_drop; lia.
Qed.

(** A range of a file's bytes. *)
Lemma content_slice V t ofs n : 0 <= ofs -> 0 <= n -> ofs + n <= flen (sec V t) ->
  fbyte V (sec V t) <$> seqZ ofs n = take (Z.to_nat n) (drop (Z.to_nat ofs) (content V t)).
Proof.
  intros H1 H2 H3. apply list_eq. intros k. rewrite list_lookup_fmap. destruct (decide (Z.of_nat k < n)).
  - rewrite (proj2 (lookup_seqZ ofs n k (ofs + Z.of_nat k))) by lia. rewrite lookup_take_lt, lookup_drop by lia.
    replace (Z.to_nat ofs + k)%nat with (Z.to_nat (ofs + Z.of_nat k)) by lia. by rewrite content_lookup by lia.
  - rewrite lookup_take_ge by lia. rewrite lookup_ge_None_2; [done|]. rewrite length_seqZ. lia.
Qed.

Lemma content_agree V V' g : (forall x, x ∈ whole V g -> V' x = V x) -> content V' g = content V g.
Proof.
  intros Ha. unfold content. destruct (whole_agree V V' g) as [_ Hs]; [intros; by apply Ha, tree_whole|]. rewrite Hs at 2.
  apply list_fmap_ext. intros k q Hq. apply lookup_seqZ in Hq as [-> Hq]. apply fbyte_agree; [done|lia].
Qed.

(** A sector that is not on the disk. *)
Lemma cache_read_invalid junk c t ofs size : cache_ok c -> cache_lock c = false -> contents c t = None -> cache_read junk c t ofs size = Panic.
Proof.
  intros Hok Hlk Hc. unfold cache_read. rewrite Hlk. pose proof (find_cache_ok c t Hok) as Hf. destruct (find_cache c t) as [c1 []].
  - destruct Hf as (l & e & El & Es & Hok1 & _ & Hv). exfalso. destruct (cache_ok_app _ l e Hok1 El) as [Hr He].
    destruct (room_add _ l e Hr He El) as [_ Hv']. specialize (Hv' t). rewrite Hv, Hc, decide_True in Hv' by done. done.
  - destruct Hf as [-> Hnone]. destruct (make_cache_ok junk c t false Hok Hnone) as (c2 & l & -> & _ & _ & _ & _ & _ & Ed & _). cbn [rbind].
    unfold disk_read. rewrite Ed. unfold contents in Hc. rewrite Hnone in Hc. by rewrite Hc.
Qed.

(** The other files after a write. *)
Lemma wrote_others G t s s' buf size offset g : inv s [] (t :: G) -> wrote G t s s' buf size offset -> g ∈ G ->
  g <> FREE_MAP_SECTOR \/ free_map_file s = NULL -> content (vw s') g = content (vw s) g.
Proof.
  intros Hi Hw Hg Hne. apply content_agree. intros x Hx. apply (wo_files _ _ _ _ _ _ _ Hw); [apply elem_of_owned; eauto|]. unfold fm_data.
  case_bool_decide as Hn; [by intros ?%elem_of_nil|]. destruct Hne as [Hne|]; [|done]. intros Hd'.
  pose proof (iv_nodup _ _ _ Hi) as Hnd. apply NoDup_concat_fmap in Hnd as [_ Hnd].
  destruct (iv_fm _ _ _ Hi Hn) as [[_ F2 _ _] _]. eapply (Hnd g FREE_MAP_SECTOR x); [by right|done|done|done|by apply data_whole].
Qed.

Section Read.
Context {junk zeros : list Z} {oom : Z -> bool} `{Hmem : !good_memory junk zeros oom}.
#[local] Set Default Proof Using "All".

Lemma read_content s p i t size offset : ready s -> opened s p i (sec (vw s) t) -> sector i = t -> 0 <= size < 2 ^ 31 ->
  0 <= offset <= flen (sec (vw s) t) ->
  exists s', inode_read_at junk oom s p size offset = Ret (s', take (Z.to_nat size) (drop (Z.to_nat offset) (content (vw s) t))) /\ moves s s' (vw s).
Proof.
  intros Hr Ho Ht Hs Hof. destruct (read_at_ok s p i _ size offset Hr Ho Hs Hof) as (s' & -> & Hm). exists s'. split; [|done].
  pose proof (op_len _ _ _ _ Ho) as Hl. pose proof (content_length (vw s) t ltac:(lia)) as Hcl.
  rewrite content_slice by lia. do 2 f_equal. destruct (Z.min_spec size (flen (sec (vw s) t) - offset)) as [[Hlt ->]|[Hge ->]]; [done|].
  rewrite !take_ge; [done|rewrite length_drop; lia..].
Qed.

Lemma read_past_end s p i b size offset : ready s -> opened s p i b -> vw s NO_SECTOR = None -> 0 < size < 2 ^ 31 -> flen b < offset < 2 ^ 31 ->
  inode_read_at junk oom s p size offset = Panic.
Proof.
  intros Hr Ho Hns Hs Hof. pose proof (op_len _ _ _ _ Ho) as Hl. unfold max_blocks in Hl. unfold inode_read_at. cbn [iter].
  destruct (byte_to_sector_end s p i b offset Hr Ho) as (s1 & E1 & Hm1); [lia|]. destruct (opened_same _ _ _ _ _ Hm1 Ho) as [K1 _ K3 _ _].
  destruct (length_ok s1 p i b (mv_ready _ _ _ Hm1) K1 K3) as (s2 & E2 & Hm2). unfold read_chunk at 1. rewrite bool_decide_eq_true_2 by lia.
  rewrite E1. cbn [rbind]. rewrite E2. cbn [rbind]. unfold off_t. rewrite bool_decide_eq_true_2 by lia. cbn [rbind]. change DISK_SECTOR_SIZE with 512.
  set (c := u32 _). assert (Hc : 0 < c).
  { unfold c. pose proof (u32_range (Z.min size (Z.min (flen b - offset) (512 - Z.rem offset 512)))) as Hu.
    pose proof (Z.rem_bound_pos offset 512 ltac:(lia) ltac:(lia)). rewrite Z.min_r, Z.min_l in * by lia. unfold u32 in *.
    assert ((flen b - offset) mod 2 ^ 32 <> 0); [|lia]. intros E. apply Z.mod_divide in E as [k Hk]; [|lia]. lia. }
  rewrite bool_decide_eq_false_2 by lia. pose proof (moves_same _ _ _ _ Hm1 Hm2) as Hm. pose proof (mv_ready _ _ _ Hm) as [R1 R2 R3 R4].
  unfold rd. rewrite cache_read_invalid; [done|done|done|]. change (contents (cd s2)) with (vw s2). by rewrite (mv_view _ _ _ Hm).
Qed.

(** The part of [inode_close] before the open count changes. *)
Lemma close_start s G p i : inv s [] G -> inodes s !! p = Some i -> sector i ∈ G -> p <> NULL ->
  exists s', moves s s' (vw s) /\
    inode_close junk zeros oom s p = drop_ref junk zeros oom s' (next s) p i (sec (vw s) (sector i)) (blks (vw s) (sector i)).
Proof.
  intros Hi Hp Hin Hp0. destruct (inv_opened s [] G (sector i) p i Hi Hin Hp eq_refl Hp0) as [Ho _]. pose proof (op_len _ _ _ _ Ho) as Hl.
  unfold inode_close. rewrite bool_decide_eq_false_2 by done.
  destruct (scratch_ok s (iv_ready _ _ _ Hi)) as (s1 & tmp & -> & Hm1 & ->). cbn [rbind]. destruct (opened_same _ _ _ _ _ Hm1 Ho) as [K1 _ K3 _ _].
  destruct (read_inode s1 p i _ (mv_ready _ _ _ Hm1) K1 K3) as (s2 & E2 & Hm2). unfold get_inode in *. rewrite K1 in *. cbn [of_opt rbind] in *.
  rewrite E2. cbn [rbind]. exists s2. split; [by eapply moves_same|]. unfold blks. set (b := sec (vw s) (sector i)) in *.
  change (s32 (get32 b f_length)) with (flen b). destruct (sectors_arith (flen b) 0) as (A1 & _); [lia..|]. by rewrite A1.
Qed.

Lemma drop_ref_shared s tmp p i b n : iopen_cnt i <> 1 -> drop_ref junk zeros oom s tmp p i b n = Ret (set_inode s p (with_iopen i (iopen_cnt i - 1))).
Proof. intros H. unfold drop_ref. cbn [iopen_cnt with_iopen]. by rewrite bool_decide_eq_false_2 by lia. Qed.
End Read.

(** ** Properties *)

(** [inode_read_at] on an open inode of a consistent file system: with the offset
    inside the file or at its end it returns the bytes from there, as many as were asked
    for or as there are, and changes nothing a later call can read; with the offset
    beyond the end it does not return 0 but fails the assertion of the disk driver,
    since the number of bytes left is negative and is compared as an unsigned number. *)
Theorem inode_read_at_range junk zeros oom s G p i size offset :
  good_memory junk zeros oom -> inv s [] G -> inodes s !! p = Some i -> sector i ∈ G -> p <> NULL -> 0 < size < 2 ^ 31 -> 0 <= offset < 2 ^ 31 ->
  let data := content (vw s) (sector i) in
  if bool_decide (offset <= Z.of_nat (length data))
  then exists s', inode_read_at junk oom s p size offset = Ret (s', take (Z.to_nat size) (drop (Z.to_nat offset) data)) /\
         inv s' [] G /\ (forall t, vw s' t = vw s t) /\ rest s' = rest s
  else inode_read_at junk oom s p size offset = Panic.
Proof.
  intros Hmem Hi Hp Hin Hp0 Hs Ho data. destruct (inv_opened s [] G (sector i) p i Hi Hin Hp eq_refl Hp0) as [Hop _].
  pose proof (op_len _ _ _ _ Hop) as Hl. unfold data. rewrite content_length by lia. case_bool_decide as Hle.
  - destruct (read_content s p i (sector i) size offset (iv_ready _ _ _ Hi) Hop eq_refl) as (s' & E & Hm); [lia..|]. exists s'. split; [done|].
    split; [by eapply inv_moves|]. split; apply Hm.
  - eapply read_past_end; [apply Hi|done| |lia|lia]. destruct (vw s NO_SECTOR) as [x|] eqn:E; [|done]. exfalso.
    destruct (proj1 (iv_dom _ _ _ Hi NO_SECTOR)) as [_ H]; [by rewrite E; eexists|]. pose proof (wf_cnt _ (iv_wf _ _ _ Hi)). unfold NO_SECTOR in H. lia.
Qed.

Lemma inode_read_at_range_witness :
  (exists s', inode_read_at demo_junk demo_oom booted foo_inode 20 590 = Ret (s', replicate 10 0)) /\
  inode_read_at demo_junk demo_oom booted foo_inode 20 601 = Panic.
Proof.
  set (i := mkInode 4 2 false 0 false). assert (Hi : inodes booted !! foo_inode = Some i) by (vm_compute; reflexivity).
  assert (Hin : sector i ∈ booted_files) by (apply elem_of_cons; left; reflexivity).
  assert (Hp : foo_inode <> NULL) by (vm_compute; discriminate). split.
  - pose proof (inode_read_at_range demo_junk demo_junk demo_oom booted booted_files foo_inode i 20 590 demo_memory booted_inv Hi Hin Hp ltac:(lia) ltac:(lia)) as H.
    cbv zeta in H. rewrite bool_decide_eq_true_2 in H by (vm_compute; discriminate). destruct H as (s' & H & _). exists s'. rewrite H. do 2 f_equal.
  - pose proof (inode_read_at_range demo_junk demo_junk demo_oom booted booted_files foo_inode i 20 601 demo_memory booted_inv Hi Hin Hp ltac:(lia) ltac:(lia)) as H.
    cbv zeta in H. rewrite bool_decide_eq_false_2 in H by (vm_compute; intros H'; by apply H'). exact H.
Defined.

(** C4. [inode_write_at] on an open inode whose writes are not denied, up to the largest
    file size and with enough free sectors for the blocks and tables it needs: it writes
    every byte, extends the file to the end of the range when it is shorter, leaves the
    bytes outside the range and every other file but the free map's as they were, takes
    exactly the needed sectors, and keeps the file system consistent: no sector has two
    uses, every sector in use is marked, and the free map on the disk is the one in
    memory.  A later [inode_read_at] of the range returns what was written. *)
Theorem inode_write_at_effect junk zeros oom s G t p i buf size offset :
  good_memory junk zeros oom -> inv s [] (t :: G) -> not_free_map s t ->
  inodes s !! p = Some i -> sector i = t -> p <> NULL -> deny_write_cnt i = 0 -> locked i = false ->
  0 <= size <= Z.of_nat (length buf) -> 0 <= offset -> offset + size <= 512 * max_blocks ->
  let len := flen (sec (vw s) t) in let len' := Z.max len (offset + size) in
  need (nblk len') - need (nblk len) <= Z.of_nat (room s) ->
  exists s', inode_write_at junk zeros oom s p buf size offset = Ret (s', size) /\ inv s' [] (t :: G) /\ rest s' = rest s /\
    Z.of_nat (length (content (vw s') t)) = len' /\
    (forall q, 0 <= q < len -> ~ offset <= q < offset + size -> content (vw s') t !! Z.to_nat q = content (vw s) t !! Z.to_nat q) /\
    (forall g, g ∈ G -> g <> FREE_MAP_SECTOR \/ free_map_file s = NULL -> content (vw s') g = content (vw s) g) /\
    Z.of_nat (room s') = Z.of_nat (room s) - (need (nblk len') - need (nblk len)) /\
    exists s'', inode_read_at junk oom s' p size offset = Ret (s'', take (Z.to_nat size) buf).
Proof.
  intros Hmem Hi Hnf Hp Ht Hp0 Hd Hl Hsz Hof Hmax len len' Hroom.
  destruct (write_grows (inode_write_at_ junk zeros oom (write_levels junk zeros oom 1)) s G t p i buf size offset) as (s' & E & Hw & _ & Er); try done.
  pose proof Hw as [W1 W2 W3 W4 W5 W6 W7 W8 W9]. assert (Hin : t ∈ t :: G) by (by left). assert (Hp' : inodes s' !! p = Some i) by (by rewrite (rest_inodes s s')).
  destruct (inv_opened s' [] (t :: G) t p i W1 Hin Hp' Ht Hp0) as [Hop _]. pose proof (op_len _ _ _ _ Hop) as Hlen.
  assert (Hlen0 : 0 <= len) by (apply (iv_len _ _ _ Hi t Hin)). exists s'. split; [exact E|]. split; [done|]. split; [done|].
  split; [rewrite content_length by lia; exact W2|]. split_and!.
  - intros q Hq Hn. rewrite !content_lookup by (rewrite ?W2; unfold len in *; lia). by rewrite W4.
  - intros g Hg Hne. by eapply wrote_others.
  - unfold len', len, blks in *. lia.
  - unfold max_blocks in Hmax. destruct (read_content s' p i t size offset (iv_ready _ _ _ W1) Hop Ht) as (s'' & Er' & _); [lia|rewrite W2; lia|]. exists s''.
    rewrite Er', <- content_slice by (rewrite ?W2; lia). do 2 f_equal. apply list_eq. intros k. rewrite list_lookup_fmap. destruct (decide (Z.of_nat k < size)).
    + rewrite (proj2 (lookup_seqZ offset size k (offset + Z.of_nat k))) by lia. simpl. rewrite W3 by lia. rewrite lookup_take_lt by lia.
      replace (Z.to_nat (offset + Z.of_nat k - offset)) with k by lia. rewrite list_lookup_total_alt.
      destruct (lookup_lt_is_Some_2 buf k) as [y Hy]; [lia|]. by rewrite Hy.
    + rewrite lookup_take_ge by lia. rewrite lookup_ge_None_2; [done|]. rewrite length_seqZ. lia.
Qed.

Lemma inode_write_at_effect_witness : exists s', inode_write_at demo_junk demo_junk demo_oom booted foo_inode [7; 8; 9] 3 2000 = Ret (s', 3) /\
  Z.of_nat (length (content (vw s') 4)) = 2003.
Proof.
  destruct (inode_write_at_effect demo_junk demo_junk demo_oom booted [FREE_MAP_SECTOR; ROOT_DIR_SECTOR] 4 foo_inode (mkInode 4 2 false 0 false) [7; 8; 9] 3 2000)
    as (s' & E & _ & _ & Hl & _).
  - exact demo_memory.
  - exact booted_inv.
  - intros _. discriminate.
  - vm_compute. reflexivity.
  - reflexivity.
  - vm_compute. discriminate.
  - reflexivity.
  - reflexivity.
  - simpl. lia.
  - lia.
  - unfold max_blocks. lia.
  - vm_compute. discriminate.
  - exists s'. split; [exact E|]. rewrite Hl. vm_compute. reflexivity.
Defined.

(** [release_blocks] reaches the read of the sector that is no sector. *)
Lemma release_blocks_fails junk zeros oom s p b n s' : release_blocks junk zeros oom s p b n <> Ret s'.
Proof.
  unfold release_blocks. intros H. repeat (apply rbind_Ret in H as (? & _ & H); try case_match). done.
Qed.

Lemma release_blocks_small junk zeros oom s p b n : ready s -> n <= 64 -> vw s (u32 (p + f_direct 0)) = None ->
  release_blocks junk zeros oom s p b n = Panic.
Proof.
  intros [R1 R2 R3 R4] Hn Hv. unfold release_blocks, DIRECT_CNT, INDIRECT_CNT.
  rewrite bool_decide_eq_false_2 by lia. cbn [rbind]. rewrite bool_decide_eq_false_2 by lia. cbn [rbind].
  unfold rd. by rewrite cache_read_invalid.
Qed.

(** [inode_close] on an inode of a consistent file system.  With other openers it
    decreases the open count; for the last opener of a file that was not removed it
    forgets the inode; neither changes anything on the disk or in the free map.  For the
    last opener of a removed file it never returns: it takes the address of the array of
    direct blocks for a sector number, which on files of up to 64 blocks (and a disk
    smaller than the kernel's address space) fails the disk driver's assertion, so no
    removed file is ever given back. *)
Theorem inode_close_effect junk zeros oom s G p i :
  good_memory junk zeros oom -> inv s [] G -> inodes s !! p = Some i -> sector i ∈ G -> p <> NULL -> locked i = false ->
  (1 < iopen_cnt i -> exists s', inode_close junk zeros oom s p = Ret s' /\
     (inodes s' = <[p := with_iopen i (iopen_cnt i - 1)]> (inodes s)) /\
     open_inodes s' = open_inodes s /\ (forall t, vw s' t = vw s t) /\ free_map s' = free_map s) /\
  (iopen_cnt i = 1 -> removed i = false -> exists s', inode_close junk zeros oom s p = Ret s' /\ inodes s' = delete p (inodes s) /\
     open_inodes s' = filter (fun q => q <> p) (open_inodes s) /\ (forall t, vw s' t = vw s t) /\ free_map s' = free_map s) /\
  (iopen_cnt i = 1 -> removed i = true ->
     (forall s', inode_close junk zeros oom s p <> Ret s') /\
     (Z.of_nat (length (content (vw s) (sector i))) <= 32768 -> bit_cnt (free_map s) <= 0xc0000000 <= next s -> next s < 2 ^ 32 - 20 ->
      inode_close junk zeros oom s p = Panic)).
Proof.
  intros Hmem Hi Hp Hin Hp0 Hlk. pose proof (iv_len _ _ _ Hi _ Hin) as Hl. destruct (close_start s G p i Hi Hp Hin Hp0) as (s2 & Hm & ->).
  pose proof (mv_view _ _ _ Hm) as Hv. pose proof (mv_map _ _ _ Hm) as Em. pose proof (mv_rest _ _ _ Hm) as Er. pose proof (rest_inodes _ _ Er) as Ein. unfold rest in Er.
  split; [|split].
  - intros Hc. rewrite drop_ref_shared by lia. eexists; split; [done|]. simpl. rewrite Ein. split; [done|]. split; [congruence|]. by split.
  - intros Hc Hrm. unfold drop_ref. cbn [iopen_cnt with_iopen]. rewrite bool_decide_eq_true_2 by lia. unfold lock_inode, get_inode. simpl. rewrite lookup_insert_eq. cbn [of_opt rbind locked removed with_iopen].
    rewrite Hlk, Hrm. cbn [negb assert_ rbind locked with_iopen with_locked]. unfold unlock_inode, get_inode. simpl. rewrite lookup_insert_eq. cbn [of_opt rbind assert_ locked with_locked].
    eexists; split; [done|]. simpl. rewrite Ein, !insert_insert_eq, delete_insert_eq. split; [done|]. split; [congruence|]. by split.
  - intros Hc Hrm. unfold drop_ref. cbn [iopen_cnt with_iopen]. rewrite bool_decide_eq_true_2 by lia. unfold lock_inode, get_inode. simpl. rewrite lookup_insert_eq. cbn [of_opt rbind locked removed with_iopen].
    rewrite Hlk, Hrm. cbn [negb assert_ rbind locked with_iopen with_locked]. split.
    + intros s'. match goal with |- context [release_blocks _ _ _ ?st ?q ?bb ?n] => destruct (release_blocks junk zeros oom st q bb n) as [x| | |] eqn:E end; try done.
      by apply release_blocks_fails in E.
    + intros Hlen Hcnt Hnext. rewrite release_blocks_small; [done|by destruct (mv_ready _ _ _ Hm); split| |].
      * rewrite content_length in Hlen by lia. unfold blks, nblk. Z.div_mod_to_equations. lia.
      * match goal with |- vw ?st ?t = None => change (vw st) with (vw s2) end. rewrite Hv. unfold f_direct. rewrite u32_small by lia.
        destruct (vw s (next s + (20 + 4 * 0))) as [x|] eqn:E; [|done]. exfalso.
        destruct (proj1 (iv_dom _ _ _ Hi (next s + (20 + 4 * 0)))) as [_ H]; [by rewrite E; eexists|]. lia.
Qed.

(** The file with its last opener after [inode_remove]. *)
Definition foo_removed : fs := set_inode booted foo_inode (mkInode 4 1 true 0 false).

Lemma foo_removed_inv : inv foo_removed [] booted_files.
Proof. apply inv_b_ok. vm_compute. reflexivity. Qed.

Lemma inode_close_effect_witness : inode_close demo_junk demo_junk demo_oom foo_removed foo_inode = Panic.
Proof.
  destruct (inode_close_effect demo_junk demo_junk demo_oom foo_removed booted_files foo_inode (mkInode 4 1 true 0 false)) as (_ & _ & H).
  - exact demo_memory.
  - exact foo_removed_inv.
  - vm_compute. reflexivity.
  - apply elem_of_cons; left; reflexivity.
  - vm_compute. discriminate.
  - reflexivity.
  - apply H; [reflexivity|reflexivity|vm_compute; discriminate|split; vm_compute; discriminate|vm_compute; reflexivity].
Defined.
