(* ===== verification/DirProof.v ===== *)
(** * A directory is a map from names to inodes *)

From S2P Require Import Prelude Bitmap Cstring Cache CacheProof Inode InodeView InodeOps InodeIO InodeGrow InodeExpand InodeProof Directory FsCheck FileProps.

(** ** Entries *)

Definition nentry (data : list Z) (k : nat) : list Z := take 20 (drop (20 * k) data).

(** Entry [e] is in use and has name [n]. *)
Definition matches (n : list Z) (e : list Z) : Prop := e_in_use e = true /\ e_name e = Ret n.

Instance name_dec e n : Decision (e_name e = Ret n).
Proof. destruct (e_name e) as [m| | |]; [|right; discriminate..]. destruct (decide (m = n)) as [->|Hne]; [by left|right; congruence]. Defined.
Instance matches_dec n e : Decision (matches n e).
Proof. unfold matches. apply _. Defined.

Lemma matches_inj n n' e : matches n e -> matches n' e -> n = n'.
Proof. intros [_ H1] [_ H2]. congruence. Qed.

(** The directory data [data] holds the map [M]: every entry in use has a name that
    ends, and no two have the same. *)
Record dir_rep (data : list Z) (m : nat) (M : gmap (list Z) Z) : Prop := {
  dr_len : length data = (20 * m)%nat;
  dr_name : forall k, (k < m)%nat -> e_in_use (nentry data k) = true -> exists n, e_name (nentry data k) = Ret n;
  dr_has : forall n x, M !! n = Some x <-> exists k, (k < m)%nat /\ matches n (nentry data k) /\ e_inode_sector (nentry data k) = x;
  dr_unique : forall j k n, (j < m)%nat -> (k < m)%nat -> matches n (nentry data j) -> matches n (nentry data k) -> j = k
}.

Lemma nentry_length data m k : length data = (20 * m)%nat -> (k < m)%nat -> length (nentry data k) = 20%nat.
Proof. intros Hl Hk. unfold nentry. rewrite length_take, length_drop. lia. Qed.

Lemma overwrite_full e d : length d = length e -> overwrite e 0 d = d.
Proof. intros H. unfold overwrite. simpl. rewrite drop_ge by lia. by rewrite app_nil_r. Qed.
Lemma overwrite_nil e : overwrite e 0 [] = e.
Proof. done. Qed.

(** What [dir_add] stores. *)
Definition made_entry (e name : list Z) (x : Z) : list Z := put32 (overwrite (overwrite e 19 [1]) 4 (name ++ [0])) 0 x.

Lemma list_find_zero name tl : 0 ∉ name -> list_find (fun c => c = 0) (name ++ 0 :: tl) = Some (length name, 0).
Proof.
  intros Hn. apply list_find_Some. split; [by rewrite list_lookup_middle|]. split; [done|]. intros j y Hj Hlt Hy. apply Hn.
  subst y. rewrite lookup_app_l in Hj by done. by eapply list_elem_of_lookup_2.
Qed.

Lemma made_entry_ok e name x : length e = 20%nat -> 0 ∉ name -> (length name <= 14)%nat -> is_u32 x ->
  length (made_entry e name x) = 20%nat /\ matches name (made_entry e name x) /\ e_inode_sector (made_entry e name x) = x.
Proof.
  intros Hl Hz Hn Hx. unfold made_entry. set (e1 := overwrite e 19 [1]). assert (H1 : length e1 = 20%nat) by (unfold e1; rewrite overwrite_length; simpl; lia).
  set (e2 := overwrite e1 4 (name ++ [0])). assert (H2 : length e2 = 20%nat) by (unfold e2; rewrite overwrite_length; rewrite ?length_app; simpl; lia).
  split; [rewrite put32_length; lia|]. split; [split|].
  - unfold e_in_use. rewrite bool_decide_eq_true. unfold put32. rewrite overwrite_lookup by (rewrite ?bytes32_length; lia).
    rewrite decide_False by (rewrite bytes32_length; lia). unfold e2. rewrite overwrite_lookup by (rewrite ?length_app; simpl; lia).
    rewrite decide_False by (rewrite length_app; simpl; lia). unfold e1. rewrite overwrite_lookup by (simpl; lia). rewrite decide_True by (simpl; lia). done.
  - assert (Hd : drop 4 (put32 e2 0 x) = name ++ 0 :: drop (4 + length (name ++ [0])) e1).
    { unfold put32, overwrite. simpl. unfold e2, overwrite. change (Z.to_nat 4) with 4%nat. rewrite drop_app_length' by (rewrite length_take; lia).
      by rewrite <- app_assoc. }
    unfold e_name. rewrite Hd.
    assert (Ht : take 15 (name ++ 0 :: drop (4 + length (name ++ [0])) e1) = name ++ 0 :: take (14 - length name) (drop (4 + length (name ++ [0])) e1)).
    { rewrite take_app, take_ge by lia. f_equal. replace (15 - length name)%nat with (S (14 - length name)) by lia. done. }
    rewrite Ht, list_find_zero by done. by rewrite take_app_length.
  - unfold e_inode_sector. apply get32_put32_eq; lia || done.
Qed.

(** The entries of data in which one entry was replaced or appended. *)
Lemma nentry_splice data m k e j : length data = (20 * m)%nat -> (k <= m)%nat -> length e = 20%nat -> (j < Nat.max m (S k))%nat ->
  nentry (take (20 * k) data ++ e ++ drop (20 * k + 20) data) j = if decide (j = k) then e else nentry data j.
Proof.
  intros Hl Hk He Hj. unfold nentry. case_decide as Hjk.
  - subst j. rewrite drop_app_length' by (rewrite length_take; lia). rewrite take_app_length' by done. done.
  - destruct (decide (j < k)%nat) as [Hlt|Hge].
    + rewrite drop_app_le by (rewrite length_take; lia). rewrite take_app_le by (rewrite length_drop, length_take; lia).
      rewrite <- (take_drop (20 * k) data) at 2. rewrite drop_app_le by (rewrite length_take; lia). rewrite take_app_le by (rewrite length_drop, length_take; lia). done.
    + rewrite drop_app_ge by (rewrite length_take; lia). rewrite length_take. rewrite drop_app_ge by lia. rewrite drop_drop. f_equal. f_equal. lia.
Qed.

(** A name added in a slot that is free or new. *)
Lemma dir_rep_add data m M k e name x : dir_rep data m M -> (k <= m)%nat -> ((k < m)%nat -> e_in_use (nentry data k) = false) -> length e = 20%nat ->
  matches name e -> e_inode_sector e = x -> M !! name = None ->
  dir_rep (take (20 * k) data ++ e ++ drop (20 * k + 20) data) (Nat.max m (S k)) (<[name := x]> M).
Proof.
  intros [H1 H2 H3 H4] Hk Hfree He Hm Hx Hnone. pose proof (fun j => nentry_splice data m k e j H1 Hk He) as Hs. split.
  - rewrite !length_app, length_take, length_drop. lia.
  - intros j Hj. rewrite Hs by done. case_decide; [intros _; exists name; apply Hm|]. apply H2. lia.
  - intros n y. destruct (decide (n = name)) as [->|Hne].
    + rewrite lookup_insert_eq. split.
      * intros [= <-]. exists k. rewrite Hs by lia. rewrite decide_True by done. split; [lia|]. done.
      * intros (j & Hj & Hmj & Hxj). rewrite Hs in Hmj, Hxj by done. destruct (decide (j = k)); [by rewrite <- Hx, <- Hxj|]. exfalso.
        assert (M !! name = Some (e_inode_sector (nentry data j))); [|congruence]. apply H3. exists j. split; [lia|done].
    + rewrite lookup_insert_ne by done. rewrite H3. split; intros (j & Hj & Hmj & Hxj).
      * assert (Hjk : j <> k) by (intros ->; destruct Hmj as [Hu _]; rewrite Hfree in Hu; [done|lia]). exists j. rewrite Hs by lia. rewrite decide_False by done. split; [lia|done].
      * rewrite Hs in Hmj, Hxj by done. case_decide; [exfalso; destruct Hmj, Hm; congruence|]. exists j. split; [lia|done].
  - assert (Hold : forall j, (j < Nat.max m (S k))%nat -> j <> k -> ~ matches name (nentry data j)).
    { intros j Hj Hjk Hmj. assert (M !! name = Some (e_inode_sector (nentry data j))); [|congruence]. apply H3. exists j. split; [lia|done]. }
    intros i j n Hi Hj Hmi Hmj. rewrite Hs in Hmi, Hmj by done. destruct (decide (i = k)) as [->|Hik], (decide (j = k)) as [->|Hjk]; [done| | |].
    + rewrite (matches_inj n name e) in Hmj by done. by destruct (Hold j).
    + rewrite (matches_inj n name e) in Hmi by done. by destruct (Hold i).
    + eapply H4; [lia|lia|done|done].
Qed.

(** A name whose entry is marked free. *)
Lemma dir_rep_remove data m M k e name : dir_rep data m M -> (k < m)%nat -> matches name (nentry data k) -> length e = 20%nat -> e_in_use e = false ->
  dir_rep (take (20 * k) data ++ e ++ drop (20 * k + 20) data) m (delete name M).
Proof.
  intros [H1 H2 H3 H4] Hk Hm He Hu. pose proof (fun j => nentry_splice data m k e j H1 ltac:(lia) He) as Hs. split.
  - rewrite !length_app, length_take, length_drop. lia.
  - intros j Hj. rewrite Hs by lia. case_decide; [congruence|]. by apply H2.
  - intros n y. destruct (decide (n = name)) as [->|Hne].
    + rewrite lookup_delete_eq. split; [done|]. intros (j & Hj & Hmj & _). rewrite Hs in Hmj by lia. case_decide; [destruct Hmj; congruence|].
      exfalso. by destruct (H4 j k name) as [].
    + rewrite lookup_delete_ne by done. rewrite H3. split; intros (j & Hj & Hmj & Hxj).
      * exists j. rewrite Hs by lia. rewrite decide_False; [done|]. intros ->. destruct Hmj, Hm. congruence.
      * rewrite Hs in Hmj, Hxj by lia. case_decide; [destruct Hmj; congruence|]. eauto.
  - intros i j n Hi Hj Hmi Hmj. rewrite Hs in Hmi, Hmj by lia. repeat case_decide; try (destruct Hmi; congruence); try (destruct Hmj; congruence). by eapply H4.
Qed.

(** ** Reading a directory *)

(** [d] is an open directory whose inode is in sector [t]. *)
Record dir_at (s : fs) (G : list Z) (d t : Z) (dr : dir) (i : inode) : Prop := {
  da_inv : inv s [] (t :: G);
  da_dir : dirs s !! d = Some dr;
  da_null : d <> NULL;
  da_inode : inodes s !! d_inode dr = Some i;
  da_ptr : d_inode dr <> NULL;
  da_sector : sector i = t
}.

Section Dir.
Context {junk zeros : list Z} {oom : Z -> bool} `{Hmem : !good_memory junk zeros oom}.
#[local] Set Default Proof Using "All".

Lemma dir_at_moves s s' G d t dr i : dir_at s G d t dr i -> moves s s' (vw s) -> dir_at s' G d t dr i /\ content (vw s') t = content (vw s) t.
Proof.
  intros [H1 H2 H3 H4 H5 H6] Hm. pose proof (mv_rest _ _ _ Hm) as Hr. unfold rest in Hr. split.
  - split; try done; [by eapply inv_moves| |]; congruence.
  - apply content_agree. intros x _. apply Hm.
Qed.

Lemma dir_at_opened s G d t dr i : dir_at s G d t dr i -> opened s (d_inode dr) i (sec (vw s) t).
Proof. intros [H1 H2 H3 H4 H5 H6]. by destruct (inv_opened s [] (t :: G) t (d_inode dr) i H1) as [Ho _]; [left|..]. Qed.

Lemma read_entry_ok s G d t dr i m k e : dir_at s G d t dr i -> length (content (vw s) t) = (20 * m)%nat -> (k <= m)%nat -> length e = 20%nat ->
  exists s', moves s s' (vw s) /\
    read_entry junk oom s (d_inode dr) e (20 * Z.of_nat k) =
    Ret (s', if decide (k < m)%nat then nentry (content (vw s) t) k else e, bool_decide (k < m)%nat).
Proof.
  intros Hd Hl Hk He. pose proof (dir_at_opened _ _ _ _ _ _ Hd) as Ho. pose proof (op_len _ _ _ _ Ho) as HL.
  pose proof (content_length (vw s) t ltac:(lia)) as Hcl. unfold read_entry, SIZEOF_DIR_ENTRY.
  destruct (read_content s (d_inode dr) i t 20 (20 * Z.of_nat k)) as (s' & -> & Hm); [apply Hd|done|apply Hd|lia|lia|]. cbn [rbind].
  exists s'. split; [done|]. change (Z.to_nat 20) with 20%nat. replace (Z.to_nat (20 * Z.of_nat k)) with (20 * k)%nat by lia.
  fold (nentry (content (vw s) t) k). destruct (decide (k < m)%nat) as [Hlt|Hge].
  - rewrite (bool_decide_eq_true_2 (k < m)%nat) by done. rewrite overwrite_full by (rewrite (nentry_length _ m) by done; lia).
    rewrite bool_decide_eq_true_2; [done|]. rewrite (nentry_length _ m) by done. lia.
  - rewrite (bool_decide_eq_false_2 (k < m)%nat) by done. replace (nentry (content (vw s) t) k) with (@nil Z); [done|].
    unfold nentry. rewrite drop_ge by lia. done.
Qed.

Lemma rounds_enough s G d t dr i m : dir_at s G d t dr i -> length (content (vw s) t) = (20 * m)%nat -> (m < dir_rounds)%nat.
Proof.
  intros Hd Hl. pose proof (op_len _ _ _ _ (dir_at_opened _ _ _ _ _ _ Hd)) as HL. pose proof (content_length (vw s) t ltac:(lia)) as Hcl.
  unfold dir_rounds. unfold max_blocks in HL. lia.
Qed.

Lemma fresh_entry_length : length (fresh_entry junk) = 20%nat.
Proof. unfold fresh_entry. rewrite length_take, gm_junk. done. Qed.

Lemma lookup_ok s G d t dr i m M name : dir_at s G d t dr i -> dir_rep (content (vw s) t) m M ->
  exists s' o, lookup_ junk oom s d name = Ret (s', o) /\ moves s s' (vw s) /\
    match o with
    | None => M !! name = None
    | Some (e, ofs) => exists k, (k < m)%nat /\ ofs = 20 * Z.of_nat k /\ e = nentry (content (vw s) t) k /\ matches name e
    end.
Proof.
  intros Hd Hrep. pose proof Hrep as [D1 D2 D3 D4]. unfold lookup_, get_dir. rewrite bool_decide_eq_true_2 by apply Hd. cbn [assert_ rbind].
  rewrite (da_dir _ _ _ _ _ _ Hd). cbn [of_opt rbind]. set (data := content (vw s) t) in *. set (body := fun _ : fs * list Z * Z => _).
  destruct (iter_total (fun '(s', e, ofs) => moves s s' (vw s) /\ length e = 20%nat /\ exists k, (k <= m)%nat /\ ofs = 20 * Z.of_nat k /\
      forall j, (j < k)%nat -> ~ matches name (nentry data j)) (fun '(_, _, ofs) => (m - Z.to_nat (ofs / 20))%nat)
    (fun '(s', o) => moves s s' (vw s) /\ match o with
      | None => M !! name = None
      | Some (e, ofs) => exists k, (k < m)%nat /\ ofs = 20 * Z.of_nat k /\ e = nentry data k /\ matches name e end) body)
    with (fuel := dir_rounds) (s := (s, fresh_entry junk, 0)) as ([s' o] & E & Hm & Ho).
  - intros [[s' e] ofs] (Hm & He & k & Hk & -> & Hno). destruct (dir_at_moves _ _ _ _ _ _ _ Hd Hm) as [Hd' Hc].
    destruct (read_entry_ok s' G d t dr i m k e Hd') as (s2 & Hm2 & E2); [by rewrite Hc|done|done|]. rewrite Hc in E2. fold data in E2.
    pose proof (moves_same _ _ _ _ Hm Hm2) as Hm12. unfold body. rewrite E2. cbn [rbind]. clear E2. destruct (decide (k < m)%nat) as [Hlt|Hge].
    + rewrite bool_decide_eq_true_2 by done. cbn [negb].
      assert (Hcont : ~ matches name (nentry data k) ->
        (exists s0, Ret (inl (s2, nentry data k, 20 * Z.of_nat k + SIZEOF_DIR_ENTRY)) = Ret (inl s0 : (fs * list Z * Z) + (fs * option (list Z * Z))) /\
          (let '(s', e, ofs) := s0 in moves s s' (vw s) /\ length e = 20%nat /\ exists k, (k <= m)%nat /\ ofs = 20 * Z.of_nat k /\
             forall j, (j < k)%nat -> ~ matches name (nentry data j)) /\
          ((let '(_, _, ofs) := s0 in (m - Z.to_nat (ofs / 20))%nat) < (m - Z.to_nat (20 * Z.of_nat k / 20)))%nat)).
      { intros Hn. eexists; split; [done|]. unfold SIZEOF_DIR_ENTRY. split.
        - split; [done|]. split; [by eapply nentry_length|]. exists (S k). split; [lia|]. split; [lia|]. intros j Hj.
          destruct (decide (j = k)) as [->|]; [done|]. apply Hno. lia.
        - replace (20 * Z.of_nat k + 20) with ((Z.of_nat k + 1) * 20) by lia. rewrite Z.div_mul by lia. replace (20 * Z.of_nat k) with (Z.of_nat k * 20) by lia.
          rewrite Z.div_mul by lia. lia. }
      destruct (e_in_use (nentry data k)) eqn:Eu.
      * destruct (D2 k Hlt Eu) as [n En]. rewrite En. cbn [rbind]. case_bool_decide as Hne.
        -- right. subst n. exists (s2, Some (nentry data k, 20 * Z.of_nat k)). split; [done|]. split; [done|]. exists k. done.
        -- left. apply Hcont. intros [_ H]. congruence.
      * left. apply Hcont. intros [H _]. congruence.
    + rewrite bool_decide_eq_false_2 by done. cbn [negb]. right. exists (s2, None). split; [done|]. split; [done|].
      destruct (M !! name) as [x|] eqn:EM; [|done]. exfalso. apply D3 in EM as (j & Hj & Hmj & _). apply (Hno j); [lia|done].
  - split; [apply moves_refl, Hd|]. split; [apply fresh_entry_length|]. exists 0%nat. split_and!; [lia..|]. intros j Hj. lia.
  - simpl. pose proof (rounds_enough _ _ _ _ _ _ _ Hd D1). lia.
  - exists s', o. done.
Qed.

Lemma free_slot_ok s G d t dr i m M : dir_at s G d t dr i -> dir_rep (content (vw s) t) m M ->
  exists s' e k, free_slot junk oom s (d_inode dr) = Ret (s', e, 20 * Z.of_nat k) /\ moves s s' (vw s) /\ length e = 20%nat /\ (k <= m)%nat /\
    ((k < m)%nat -> e_in_use (nentry (content (vw s) t) k) = false).
Proof.
  intros Hd Hrep. pose proof Hrep as [D1 D2 D3 D4]. unfold free_slot. set (data := content (vw s) t) in *. set (body := fun _ : fs * list Z * Z => _).
  destruct (iter_total (fun '(s', e, ofs) => moves s s' (vw s) /\ length e = 20%nat /\ exists k, (k <= m)%nat /\ ofs = 20 * Z.of_nat k)
    (fun '(_, _, ofs) => (m - Z.to_nat (ofs / 20))%nat)
    (fun '(s', e, ofs) => moves s s' (vw s) /\ length e = 20%nat /\ exists k, (k <= m)%nat /\ ofs = 20 * Z.of_nat k /\ ((k < m)%nat -> e_in_use (nentry data k) = false)) body)
    with (fuel := dir_rounds) (s := (s, fresh_entry junk, 0)) as ([[s' e] ofs] & E & Hm & He & k & Hk & -> & Hf).
  - intros [[s' e] ofs] (Hm & He & k & Hk & ->). destruct (dir_at_moves _ _ _ _ _ _ _ Hd Hm) as [Hd' Hc].
    destruct (read_entry_ok s' G d t dr i m k e Hd') as (s2 & Hm2 & E2); [by rewrite Hc|done|done|]. rewrite Hc in E2. fold data in E2.
    pose proof (moves_same _ _ _ _ Hm Hm2) as Hm12. unfold body. rewrite E2. cbn [rbind]. clear E2. destruct (decide (k < m)%nat) as [Hlt|Hge].
    + rewrite bool_decide_eq_true_2 by done. cbn [negb]. pose proof (nentry_length _ _ _ D1 Hlt) as Hnl. destruct (e_in_use (nentry data k)) eqn:Eu; cbn [negb].
      * left. eexists; split; [done|]. unfold SIZEOF_DIR_ENTRY. split; [split; [done|]; split; [done|]; exists (S k); lia|].
        replace (20 * Z.of_nat k + 20) with ((Z.of_nat k + 1) * 20) by lia. rewrite Z.div_mul by lia. replace (20 * Z.of_nat k) with (Z.of_nat k * 20) by lia.
        rewrite Z.div_mul by lia. lia.
      * right. eexists; split; [done|]. split; [done|]. split; [done|]. by exists k.
    + rewrite bool_decide_eq_false_2 by done. cbn [negb]. right. eexists; split; [done|]. split; [done|]. split; [done|]. exists k. done.
  - split; [apply moves_refl, Hd|]. split; [apply fresh_entry_length|]. exists 0%nat. lia.
  - simpl. pose proof (rounds_enough _ _ _ _ _ _ _ Hd D1). lia.
  - exists s', e, k. done.
Qed.

(** ** Changing a directory *)

(** One entry is written, at a position inside the directory or at its end. *)
Lemma write_entry_ok s G d t dr i m k e : dir_at s G d t dr i -> not_free_map s t -> deny_write_cnt i = 0 -> locked i = false ->
  length (content (vw s) t) = (20 * m)%nat -> (k <= m)%nat -> length e = 20%nat -> 20 * (Z.of_nat k + 1) <= 512 * max_blocks ->
  (k = m -> need (nblk (20 * (Z.of_nat m + 1))) - need (blks (vw s) t) <= Z.of_nat (room s)) ->
  exists s', inode_write_at junk zeros oom s (d_inode dr) e SIZEOF_DIR_ENTRY (20 * Z.of_nat k) = Ret (s', 20) /\ wrote G t s s' e 20 (20 * Z.of_nat k) /\
    content (vw s') t = take (20 * k) (content (vw s) t) ++ e ++ drop (20 * k + 20) (content (vw s) t) /\
    ((k < m)%nat -> free_map s' = free_map s).
Proof.
  intros [H1 H2 H3 H4 H5 H6] Hnf Hdeny Hlk Hl Hk He Hmax Hroom. pose proof (iv_len _ _ _ H1 t ltac:(by left)) as HL.
  pose proof (content_length (vw s) t ltac:(lia)) as Hcl. unfold SIZEOF_DIR_ENTRY.
  destruct (write_grows (inode_write_at_ junk zeros oom (write_levels junk zeros oom 1)) s G t (d_inode dr) i e 20 (20 * Z.of_nat k)) as (s' & E & Hw & Hfree & _); try done; try lia.
  { destruct (decide (k = m)) as [->|Hne].
    - replace (Z.max _ _) with (20 * (Z.of_nat m + 1)) by lia. auto.
    - replace (Z.max _ _) with (flen (sec (vw s) t)) by lia. unfold blks. lia. }
  exists s'. split; [exact E|]. split; [done|]. split; [|intros Hlt; apply Hfree; lia].
  rewrite (content_wrote G t s s' e 20 (20 * Z.of_nat k)); [|lia|done|lia|lia].
  rewrite (take_ge e) by lia. f_equal; [f_equal; lia|]. f_equal. f_equal. lia.
Qed.

Lemma add_ok s G d t dr i m M name x : dir_at s G d t dr i -> dir_rep (content (vw s) t) m M -> not_free_map s t -> deny_write_cnt i = 0 -> locked i = false ->
  name <> [] -> (length name <= 14)%nat -> 0 ∉ name -> is_u32 x -> M !! name = None ->
  20 * (Z.of_nat m + 1) <= 512 * max_blocks -> need (nblk (20 * (Z.of_nat m + 1))) - need (blks (vw s) t) <= Z.of_nat (room s) ->
  exists s' m', dir_add junk zeros oom s d name x = Ret (s', true) /\ inv s' [] (t :: G) /\ dir_rep (content (vw s') t) m' (<[name := x]> M) /\
    rest s' = rest s /\ (forall g, g ∈ G -> g <> FREE_MAP_SECTOR \/ free_map_file s = NULL -> content (vw s') g = content (vw s) g).
Proof.
  intros Hd Hrep Hnf Hdeny Hlk Hn0 Hn14 Hnz Hx Hnone Hmax Hroom. unfold dir_add. rewrite bool_decide_eq_true_2 by apply Hd. cbn [assert_ rbind].
  rewrite (bool_decide_eq_false_2 (name = [])), (bool_decide_eq_false_2 (_ > _)) by (done || unfold NAME_MAX; lia). cbn [orb].
  destruct (lookup_ok s G d t dr i m M name Hd Hrep) as (s1 & o & -> & Hm1 & Ho). cbn [rbind]. destruct o as [[e0 ofs]|].
  { exfalso. destruct Ho as (k & Hk & _ & -> & Hmk). assert (M !! name = Some (e_inode_sector (nentry (content (vw s) t) k))); [|congruence].
    apply (dr_has _ _ _ Hrep). eauto. }
  destruct (dir_at_moves _ _ _ _ _ _ _ Hd Hm1) as [Hd1 Hc1]. unfold get_dir. rewrite (da_dir _ _ _ _ _ _ Hd1). cbn [of_opt rbind].
  destruct (free_slot_ok s1 G d t dr i m M Hd1) as (s2 & e & k & -> & Hm2 & He & Hk & Hfree); [by rewrite Hc1|]. cbn [rbind]. rewrite Hc1 in Hfree.
  destruct (dir_at_moves _ _ _ _ _ _ _ Hd1 Hm2) as [Hd2 Hc2]. rewrite Hc1 in Hc2. fold (made_entry e name x). pose proof (moves_same _ _ _ _ Hm1 Hm2) as Hm.
  destruct (made_entry_ok e name x He Hnz Hn14 Hx) as (M1 & M2 & M3).
  assert (Hbl : blks (vw s2) t = blks (vw s) t) by (unfold blks, sec; by rewrite (mv_view _ _ _ Hm)).
  pose proof (rest_fmfile _ _ (mv_rest _ _ _ Hm)) as Hff.
  destruct (write_entry_ok s2 G d t dr i m k (made_entry e name x) Hd2) as (s3 & -> & Hw & Hc3 & _); try done; try lia.
  - intros Hn. rewrite Hff in Hn. auto.
  - rewrite Hc2. apply Hrep.
  - intros _. rewrite Hbl. unfold room. by rewrite (mv_map _ _ _ Hm).
  - cbn [rbind]. exists s3, (Nat.max m (S k)). split; [done|]. split; [apply Hw|]. rewrite Hc3, Hc2. split; [by apply dir_rep_add|].
    split; [rewrite (wo_rest _ _ _ _ _ _ _ Hw); apply Hm|]. intros g Hg Hne. rewrite (wrote_others _ _ _ _ _ _ _ g (da_inv _ _ _ _ _ _ Hd2) Hw Hg); [|by rewrite Hff].
    apply content_agree. intros y _. apply Hm.
Qed.

(** The inode of [x] is open at [p], with an opener besides this call. *)
Record shared_inode (s : fs) (x p : Z) (i : inode) : Prop := {
  si_open : find_open s (open_inodes s) x = Ret (Some p);
  si_inode : inodes s !! p = Some i;
  si_sector : sector i = x;
  si_null : p <> NULL;
  si_cnt : 1 <= iopen_cnt i
}.

Lemma find_open_rest s s' l x : inodes s' = inodes s -> find_open s' l x = find_open s l x.
Proof. intros E. induction l as [|p l IH]; [done|]. simpl. unfold get_inode. rewrite E. destruct (inodes s !! p); [|done]. simpl. by case_bool_decide. Qed.

(** [dir_remove] from the point where the inode [ino] of the entry [e] at [ofs] is open. *)
Definition unlink_entry (s : fs) (d ino : Z) (e : list Z) (ofs : Z) : res (fs * bool) :=
  let e := overwrite e 19 [0] in
  let! dr := get_dir s d in
  let! '(s, n) := inode_write_at junk zeros oom s (d_inode dr) e SIZEOF_DIR_ENTRY ofs in
  let! '(s, success) := (if bool_decide (n <> SIZEOF_DIR_ENTRY) then Ret (s, false) else let! s := inode_remove s ino in Ret (s, true)) in
  let! s := inode_close junk zeros oom s ino in
  Ret (s, success).

Lemma remove_finds s G d t dr i m M name x : dir_at s G d t dr i -> dir_rep (content (vw s) t) m M -> M !! name = Some x ->
  exists s1 k, moves s s1 (vw s) /\ (k < m)%nat /\ matches name (nentry (content (vw s) t) k) /\
    dir_remove junk zeros oom s d name =
      (let! '(s2, ino) := inode_open oom s1 x in
       if bool_decide (ino = NULL) then Ret (s2, false) else unlink_entry s2 d ino (nentry (content (vw s) t) k) (20 * Z.of_nat k)).
Proof.
  intros Hd Hrep HM. unfold dir_remove. rewrite bool_decide_eq_true_2 by apply Hd. cbn [assert_ rbind].
  destruct (lookup_ok s G d t dr i m M name Hd Hrep) as (s1 & o & -> & Hm1 & Ho). cbn [rbind]. destruct o as [[e ofs]|]; [|congruence].
  destruct Ho as (k & Hk & -> & -> & Hmk). exists s1, k. split_and!; [done..|].
  assert (H : M !! name = Some (e_inode_sector (nentry (content (vw s) t) k))) by (apply (dr_has _ _ _ Hrep); eauto). replace x with (e_inode_sector (nentry (content (vw s) t) k)) by congruence. done.
Qed.

(** The entry is marked free and the inode removed; what is left is to close the inode. *)
Lemma unlink_ok s G d t dr i m M name k p j : dir_at s G d t dr i -> dir_rep (content (vw s) t) m M -> not_free_map s t -> deny_write_cnt i = 0 ->
  locked i = false -> (k < m)%nat -> matches name (nentry (content (vw s) t) k) -> inodes s !! p = Some j -> p <> NULL ->
  exists s', unlink_entry s d p (nentry (content (vw s) t) k) (20 * Z.of_nat k) = (let! s := inode_close junk zeros oom s' p in Ret (s, true)) /\
    inv s' [] (t :: G) /\ dir_rep (content (vw s') t) m (delete name M) /\ (inodes s' = <[p := with_removed j true]> (inodes s)) /\
    next s <= next s' /\ free_map s' = free_map s /\
    (forall g, g ∈ G -> g <> FREE_MAP_SECTOR \/ free_map_file s = NULL -> content (vw s') g = content (vw s) g).
Proof.
  intros Hd Hrep Hnf Hdeny Hlk Hk Hmk Hp Hp0. set (e := nentry (content (vw s) t) k) in *.
  pose proof (nentry_length _ _ _ (dr_len _ _ _ Hrep) Hk) as He. fold e in He.
  assert (He' : length (overwrite e 19 [0]) = 20%nat) by (rewrite overwrite_length; simpl; lia).
  pose proof (iv_len _ _ _ (da_inv _ _ _ _ _ _ Hd) t ltac:(by left)) as HL. pose proof (content_length (vw s) t ltac:(lia)) as Hcl. pose proof (dr_len _ _ _ Hrep) as Hdl.
  unfold unlink_entry, get_dir. rewrite (da_dir _ _ _ _ _ _ Hd). cbn [of_opt rbind].
  destruct (write_entry_ok s G d t dr i m k (overwrite e 19 [0]) Hd) as (s3 & -> & Hw & Hc3 & Hfm); try done; try lia.
  cbn [rbind]. unfold SIZEOF_DIR_ENTRY. rewrite bool_decide_eq_false_2 by lia. unfold inode_remove. rewrite bool_decide_eq_true_2 by done. cbn [assert_ rbind].
  pose proof (rest_inodes _ _ (wo_rest _ _ _ _ _ _ _ Hw)) as Hi3. unfold get_inode at 1. rewrite Hi3, Hp. cbn [of_opt rbind].
  eexists; split; [done|]. split; [eapply inv_set_inode; [apply Hw|by rewrite Hi3|done|done]|].
  match goal with |- context [set_inode s3 p ?j'] => change (vw (set_inode s3 p j')) with (vw s3) end.
  split_and!; [|simpl; by rewrite Hi3|apply Hw|exact (Hfm Hk)|].
  - rewrite Hc3. eapply dir_rep_remove; try done. unfold e_in_use. rewrite bool_decide_eq_false. rewrite overwrite_lookup by (simpl; lia).
    rewrite decide_True by (simpl; lia). intros H. by apply H.
  - intros g Hg Hne. by rewrite (wrote_others _ _ _ _ _ _ _ g (da_inv _ _ _ _ _ _ Hd) Hw Hg).
Qed.

Lemma remove_ok s G d t dr i m M name x p j : dir_at s G d t dr i -> dir_rep (content (vw s) t) m M -> not_free_map s t -> deny_write_cnt i = 0 -> locked i = false ->
  M !! name = Some x -> x ∈ G -> shared_inode s x p j ->
  exists s', dir_remove junk zeros oom s d name = Ret (s', true) /\ inv s' [] (t :: G) /\ dir_rep (content (vw s') t) m (delete name M) /\
    (inodes s' = <[p := with_removed j true]> (inodes s)) /\ (forall g, g ∈ G -> g <> FREE_MAP_SECTOR \/ free_map_file s = NULL -> content (vw s') g = content (vw s) g).
Proof.
  intros Hd Hrep Hnf Hdeny Hlk HM HxG [S1 S2 S3 S4 S5]. destruct (remove_finds s G d t dr i m M name x Hd Hrep HM) as (s1 & k & Hm1 & Hk & Hmk & ->).
  destruct (dir_at_moves _ _ _ _ _ _ _ Hd Hm1) as [Hd1 Hc1]. pose proof (mv_rest _ _ _ Hm1) as Hr1. pose proof (rest_inodes _ _ Hr1) as Hi1. unfold rest in Hr1.
  unfold inode_open. rewrite (find_open_rest s s1) by done. replace (open_inodes s1) with (open_inodes s) by congruence. rewrite S1. cbn [rbind].
  unfold inode_reopen, get_inode. rewrite bool_decide_eq_true_2 by done. rewrite Hi1, S2. cbn [of_opt rbind]. rewrite bool_decide_eq_false_2 by done.
  set (s2 := set_inode s1 p _). assert (Hne : p <> d_inode dr).
  { intros ->. rewrite (da_inode _ _ _ _ _ _ Hd) in S2. injection S2 as <-. pose proof (iv_nodup _ _ _ (da_inv _ _ _ _ _ _ Hd)) as Hnd.
    simpl in Hnd. rewrite owned_cons in Hnd. apply NoDup_app in Hnd as (_ & Hnd & _). apply (Hnd t); [by left|]. apply elem_of_owned.
    exists x. split; [done|]. rewrite <- S3, (da_sector _ _ _ _ _ _ Hd). by left. }
  assert (Hd2 : dir_at s2 G d t dr i).
  { destruct Hd1 as [D1 D2 D3 D4 D5 D6]. split; try done; [eapply inv_set_inode; [done|by rewrite Hi1|done|done]|]. simpl. by rewrite lookup_insert_ne. }
  pose proof (rest_fmfile _ _ (mv_rest _ _ _ Hm1)) as Hff.
  destruct (unlink_ok s2 G d t dr i m M name k p (with_iopen j (iopen_cnt j + 1))) as (s4 & E4 & Hi4 & Hr4 & Hn4 & _ & _ & Hg4); try done.
  { change (vw s2) with (vw s1). by rewrite Hc1. }
  { intros Hn. change (free_map_file s2) with (free_map_file s1) in Hn. rewrite Hff in Hn. auto. }
  { change (vw s2) with (vw s1). by rewrite Hc1. }
  { simpl. by rewrite lookup_insert_eq. }
  change (vw s2) with (vw s1) in E4, Hg4. rewrite Hc1 in E4. rewrite E4. simpl in Hn4. rewrite insert_insert_eq, Hi1 in Hn4.
  destruct (close_start s4 (t :: G) p (with_removed (with_iopen j (iopen_cnt j + 1)) true) Hi4) as (s5 & Hm5 & ->);
    [by rewrite Hn4, lookup_insert_eq|apply elem_of_cons; right; simpl; by rewrite S3|done|].
  rewrite drop_ref_shared by (simpl; lia). cbn [rbind]. eexists; split; [done|].
  assert (Hcont : forall g, content (vw s5) g = content (vw s4) g) by (intros g; apply content_agree; intros y _; apply Hm5).
  assert (Hi5 : inodes s5 = inodes s4) by (by rewrite (moves_inodes _ _ _ Hm5)).
  split_and!.
  - eapply inv_set_inode; [eapply inv_moves; [exact Hi4|exact Hm5|done|done]|by rewrite Hi5, Hn4, lookup_insert_eq|done|done].
  - change (vw (set_inode s5 p _)) with (vw s5). by rewrite Hcont.
  - simpl. rewrite Hi5, Hn4, insert_insert_eq. f_equal. unfold with_iopen, with_removed. simpl. destruct j; simpl in *. f_equal. lia.
  - intros g Hg Hne'. change (vw (set_inode s5 p _)) with (vw s5). rewrite Hcont, Hg4 by (done || (change (free_map_file s2) with (free_map_file s1); by rewrite Hff)).
    apply content_agree. intros y _. apply Hm1.
Qed.

(** Nobody has the file open: [inode_open] makes a new inode, whose last close releases
    the file. *)
Lemma remove_last s G d t dr i m M name x : dir_at s G d t dr i -> dir_rep (content (vw s) t) m M -> not_free_map s t -> deny_write_cnt i = 0 -> locked i = false ->
  M !! name = Some x -> x ∈ G -> x <> FREE_MAP_SECTOR \/ free_map_file s = NULL -> find_open s (open_inodes s) x = Ret None ->
  (forall p, next s <= p -> inodes s !! p = None) ->
  exists s' p, dir_remove junk zeros oom s d name = (let! s := inode_close junk zeros oom s' p in Ret (s, true)) /\
    inodes s' = <[p := mkInode x 1 true 0 false]> (inodes s) /\ next s <= p <= next s' /\
    inv s' [] (t :: G) /\ dir_rep (content (vw s') t) m (delete name M) /\
    (forall r, inode_close junk zeros oom s' p <> Ret r) /\
    (Z.of_nat (length (content (vw s) x)) <= 32768 -> bit_cnt (free_map s) <= 0xc0000000 <= next s -> next s' < 2 ^ 32 - 20 ->
     inode_close junk zeros oom s' p = Panic).
Proof.
  intros Hd Hrep Hnf Hdeny Hlk HM HxG Hxf Hopen Hnew. pose proof (rdy_next _ (iv_ready _ _ _ (da_inv _ _ _ _ _ _ Hd))) as Hnext. destruct (remove_finds s G d t dr i m M name x Hd Hrep HM) as (s1 & k & Hm1 & Hk & Hmk & ->).
  destruct (dir_at_moves _ _ _ _ _ _ _ Hd Hm1) as [Hd1 Hc1]. pose proof (mv_rest _ _ _ Hm1) as Hr1. pose proof (rest_inodes _ _ Hr1) as Hi1. unfold rest in Hr1.
  pose proof (mv_next _ _ _ Hm1) as Hn1. pose proof (rest_fmfile _ _ (mv_rest _ _ _ Hm1)) as Hff.
  unfold inode_open. rewrite (find_open_rest s s1) by done. replace (open_inodes s1) with (open_inodes s) by congruence. rewrite Hopen. cbn [rbind].
  unfold calloc. rewrite gm_oom. rewrite bool_decide_eq_false_2 by (unfold NULL; lia). set (p := next s1) in *. cbn [rbind]. rewrite bool_decide_eq_false_2 by (unfold NULL; lia).
  set (j := mkInode x 1 false 0 false). set (s2 := set_inode _ p j).
  assert (Hpn : inodes s1 !! p = None) by (rewrite Hi1; by apply Hnew).
  assert (Hi2 : inv s2 [] (t :: G)).
  { eapply inv_frame; [exact (da_inv _ _ _ _ _ _ Hd1)|destruct (iv_ready _ _ _ (da_inv _ _ _ _ _ _ Hd1)); split; simpl; (done || lia)|done|done| |done|done].
    intros (fl & j0 & H1 & H2 & H3 & H4 & H5). exists fl, j0. split_and!; try done. simpl. rewrite lookup_insert_ne; [done|]. congruence. }
  assert (Hd2 : dir_at s2 G d t dr i).
  { destruct Hd1 as [D1 D2 D3 D4 D5 D6]. split; try done. simpl. rewrite lookup_insert_ne; [done|]. congruence. }
  destruct (unlink_ok s2 G d t dr i m M name k p j) as (s4 & E4 & Hi4 & Hr4 & Hn4 & Hnx & Hfm & Hg4); try done.
  { change (vw s2) with (vw s1). by rewrite Hc1. }
  { intros Hn. change (free_map_file s2) with (free_map_file s1) in Hn. rewrite Hff in Hn. auto. }
  { change (vw s2) with (vw s1). by rewrite Hc1. }
  { simpl. by rewrite lookup_insert_eq. }
  { unfold NULL in *. lia. }
  change (vw s2) with (vw s1) in E4, Hg4. rewrite Hc1 in E4. rewrite E4. change (next s2) with (p + 1024) in Hnx. change (free_map s2) with (free_map s1) in Hfm.
  assert (Hp4 : inodes s4 !! p = Some (with_removed j true)) by (by rewrite Hn4, lookup_insert_eq).
  destruct (inode_close_effect junk zeros oom s4 (t :: G) p (with_removed j true)) as (_ & _ & Hcl); try done; [by right|unfold NULL in *; lia|].
  destruct (Hcl eq_refl eq_refl) as [Hno Hpan]. exists s4, p.
  split; [done|]. split; [by rewrite Hn4; simpl; rewrite insert_insert_eq, Hi1|]. split; [lia|]. split; [done|]. split; [done|]. split; [done|].
  intros Hlen [Hcnt Hlo] Hhi. apply Hpan; [|rewrite Hfm, (mv_map _ _ _ Hm1); lia|done].
  simpl. rewrite Hg4 by (done || (change (free_map_file s2) with (free_map_file s1); by rewrite Hff)).
  rewrite (content_agree (vw s) (vw s1)); [done|]. intros y _. apply Hm1.
Qed.
End Dir.

(** A directory with one entry in use. *)
Lemma dir_rep_one data m n x k0 : length data = (20 * m)%nat -> (k0 < m)%nat -> matches n (nentry data k0) -> e_inode_sector (nentry data k0) = x ->
  Forall (fun k => k = k0 \/ e_in_use (nentry data k) = false) (seq 0 m) -> dir_rep data m {[n := x]}.
Proof.
  intros Hl Hk0 Hm Hx Hall. rewrite Forall_forall in Hall.
  assert (Honly : forall k, (k < m)%nat -> e_in_use (nentry data k) = true -> k = k0).
  { intros k Hk Hu. destruct (Hall k) as [|H]; [apply elem_of_seq; lia|done|congruence]. }
  split; [done| | |].
  - intros k Hk Hu. rewrite (Honly k Hk Hu). exists n. apply Hm.
  - intros n' y. rewrite lookup_singleton_Some. split.
    + intros [<- <-]. eauto.
    + intros (k & Hk & [Hu Hn] & Hy). rewrite (Honly k Hk Hu) in *. destruct Hm as [_ Hm]. split; congruence.
  - intros j k n' Hj Hk [Hu _] [Hu' _]. by rewrite (Honly j Hj Hu), (Honly k Hk Hu').
Qed.

(** ** Properties *)

(** C17. An open directory of a consistent file system behaves as the map [M] from names
    to inode sectors that its entries hold, as long as memory allocations succeed:
    [lookup] finds exactly the names of the map; [dir_add] refuses an empty or too long
    name and a name in use, changing nothing, and otherwise, when the free map has room
    for the blocks the directory grows by, adds the name to the map; [dir_remove] fails for
    an absent name, changing nothing, and otherwise takes the name out of the map and marks
    the inode removed.  When the file is open elsewhere [dir_remove] then returns true; no
    other file changes, and the file system stays consistent.  When it is not, which is the
    ordinary case, [dir_remove] closes the inode it opened itself, and this last close of a
    removed file never returns: it takes an address for a sector number, which for a file
    of at most 64 blocks fails an assertion of the disk driver. *)
Theorem dir_refines_map junk zeros oom s G d t dr i m M :
  good_memory junk zeros oom -> dir_at s G d t dr i -> dir_rep (content (vw s) t) m M -> not_free_map s t -> deny_write_cnt i = 0 -> locked i = false ->
  (forall name, exists s' o, lookup_ junk oom s d name = Ret (s', o) /\ (forall y, vw s' y = vw s y) /\ (fun eo => e_inode_sector (fst eo)) <$> o = M !! name) /\
  (forall name x, name = [] \/ (14 < length name)%nat \/ is_Some (M !! name) ->
     exists s', dir_add junk zeros oom s d name x = Ret (s', false) /\ forall y, vw s' y = vw s y) /\
  (forall name x, name <> [] -> (length name <= 14)%nat -> 0 ∉ name -> is_u32 x -> M !! name = None ->
     20 * (Z.of_nat m + 1) <= 512 * max_blocks -> need (nblk (20 * (Z.of_nat m + 1))) - need (blks (vw s) t) <= Z.of_nat (room s) ->
     exists s' m', dir_add junk zeros oom s d name x = Ret (s', true) /\ inv s' [] (t :: G) /\ dir_rep (content (vw s') t) m' (<[name := x]> M) /\
       forall g, g ∈ G -> g <> FREE_MAP_SECTOR \/ free_map_file s = NULL -> content (vw s') g = content (vw s) g) /\
  (forall name, M !! name = None -> exists s', dir_remove junk zeros oom s d name = Ret (s', false) /\ forall y, vw s' y = vw s y) /\
  (forall name x p j, M !! name = Some x -> x ∈ G -> shared_inode s x p j ->
     exists s', dir_remove junk zeros oom s d name = Ret (s', true) /\ inv s' [] (t :: G) /\ dir_rep (content (vw s') t) m (delete name M) /\
       (inodes s' = <[p := with_removed j true]> (inodes s)) /\
       forall g, g ∈ G -> g <> FREE_MAP_SECTOR \/ free_map_file s = NULL -> content (vw s') g = content (vw s) g) /\
  (forall name x, M !! name = Some x -> x ∈ G -> x <> FREE_MAP_SECTOR \/ free_map_file s = NULL ->
     find_open s (open_inodes s) x = Ret None -> (forall p, next s <= p -> inodes s !! p = None) ->
     exists s' p, dir_remove junk zeros oom s d name = (let! s := inode_close junk zeros oom s' p in Ret (s, true)) /\
       inodes s' = <[p := mkInode x 1 true 0 false]> (inodes s) /\ next s <= p <= next s' /\
       inv s' [] (t :: G) /\ dir_rep (content (vw s') t) m (delete name M) /\
       (forall r, inode_close junk zeros oom s' p <> Ret r) /\
       (Z.of_nat (length (content (vw s) x)) <= 32768 -> bit_cnt (free_map s) <= 0xc0000000 <= next s -> next s' < 2 ^ 32 - 20 ->
        inode_close junk zeros oom s' p = Panic)).
Proof.
  intros Hmem Hd Hrep Hnf Hdeny Hlk. split_and!.
  - intros name. destruct (lookup_ok s G d t dr i m M name Hd Hrep) as (s' & o & E & Hm & Ho). exists s', o. split; [done|]. split; [apply Hm|].
    destruct o as [[e ofs]|]; [|done]. destruct Ho as (k & Hk & _ & -> & Hmk). simpl. symmetry. apply (dr_has _ _ _ Hrep). eauto.
  - intros name x Hbad. unfold dir_add. rewrite bool_decide_eq_true_2 by apply Hd. cbn [assert_ rbind]. unfold NAME_MAX.
    destruct (decide (name = [] \/ (14 < length name)%nat)) as [H|H].
    + exists s. split; [|done]. destruct H as [->|H]; [done|]. by rewrite (bool_decide_eq_true_2 (_ > _)), orb_true_r by lia.
    + destruct Hbad as [?|[?|[y Hy]]]; [tauto|tauto|]. rewrite (bool_decide_eq_false_2 (name = [])), (bool_decide_eq_false_2 (_ > _)) by (tauto || lia). cbn [orb].
      destruct (lookup_ok s G d t dr i m M name Hd Hrep) as (s' & o & -> & Hm & Ho). cbn [rbind]. destruct o as [[e ofs]|]; [|congruence].
      exists s'. split; [done|apply Hm].
  - intros name x H1 H2 H3 H4 H5 H6 H7. destruct (add_ok s G d t dr i m M name x) as (s' & m' & E & K1 & K2 & _ & K3); try done. by exists s', m'.
  - intros name Hn. unfold dir_remove. rewrite bool_decide_eq_true_2 by apply Hd. cbn [assert_ rbind].
    destruct (lookup_ok s G d t dr i m M name Hd Hrep) as (s' & o & -> & Hm & Ho). cbn [rbind]. destruct o as [[e ofs]|].
    + exfalso. destruct Ho as (k & Hk & _ & -> & Hmk). assert (M !! name = Some (e_inode_sector (nentry (content (vw s) t) k))); [|congruence].
      apply (dr_has _ _ _ Hrep). eauto.
    + exists s'. split; [done|apply Hm].
  - intros name x p j HM HxG Hsh. by apply (remove_ok s G d t dr i m M name x p j).
  - intros name x HM HxG Hxf Hop Hnew. by apply (remove_last s G d t dr i m M name x).
Qed.

Definition root_dir : dir := Eval vm_compute in match dirs booted !! cur_dir booted with Some r => r | None => mkDir NULL 0 end.

Lemma dir_refines_map_witness :
  exists s' s'', dir_remove demo_junk demo_junk demo_oom booted (cur_dir booted) name_foo = Ret (s', true) /\
  dir_add demo_junk demo_junk demo_oom booted (cur_dir booted) [98; 97; 114] 20 = Ret (s'', true).
Proof.
  destruct (dir_refines_map demo_junk demo_junk demo_oom booted [4; FREE_MAP_SECTOR] (cur_dir booted) 1 root_dir (mkInode 1 2 false 0 false) 16 {[name_foo := 4]})
    as (_ & _ & Hadd & _ & Hrem & _).
  - exact demo_memory.
  - split; [apply inv_b_ok; vm_compute; reflexivity|vm_compute; reflexivity|vm_compute; discriminate|vm_compute; reflexivity|vm_compute; discriminate|reflexivity].
  - apply (dir_rep_one _ 16 name_foo 4 0).
    + vm_compute. reflexivity.
    + lia.
    + split; vm_compute; reflexivity.
    + vm_compute. reflexivity.
    + apply (bool_decide_eq_true_1 (Forall _ _)). vm_compute. reflexivity.
  - intros _. discriminate.
  - reflexivity.
  - reflexivity.
  - destruct (Hrem name_foo 4 foo_inode (mkInode 4 2 false 0 false)) as (s' & E1 & _).
    + reflexivity.
    + apply elem_of_cons. by left.
    + split; vm_compute; (reflexivity || discriminate).
    + destruct (Hadd [98; 97; 114] 20) as (s'' & m' & E2 & _).
      * discriminate.
      * simpl. lia.
      * apply (bool_decide_eq_true_1 (0 ∉ [98; 97; 114])). reflexivity.
      * split; [lia|reflexivity].
      * reflexivity.
      * unfold max_blocks. lia.
      * vm_compute. discriminate.
      * exists s', s''. split; [exact E1|exact E2].
Defined.

(** The same file when nobody has it open. *)
Definition foo_closed : fs :=
  with_inodes (with_open_inodes booted (filter (fun q => q <> foo_inode) (open_inodes booted))) (delete foo_inode (inodes booted)).

Example remove_closed_file_panics : dir_remove demo_junk demo_junk demo_oom foo_closed (cur_dir foo_closed) name_foo = Panic.
Proof. by vm_compute. Qed.

(** A name whose only slash is its first character is looked up in the current
    directory, not in the root: creating, opening and removing ["/name"] is the same as
    creating, opening and removing ["name"], in every state. *)
Theorem absolute_name_is_relative junk zeros oom s name :
  name <> [] -> SLASH ∉ name ->
  filesys_open junk zeros oom s (SLASH :: name) = filesys_open junk zeros oom s name /\
  filesys_remove junk zeros oom s (SLASH :: name) = filesys_remove junk zeros oom s name /\
  forall size is_dir, filesys_create junk zeros oom s (SLASH :: name) size is_dir = filesys_create junk zeros oom s name size is_dir.
Proof.
  intros Hne Hns.
  assert (Hls : last_slash name = None).
  { clear Hne. induction name as [|c name IH]; [done|]. simpl. rewrite IH by (intros H; apply Hns, elem_of_cons; by right).
    rewrite bool_decide_eq_false_2; [done|]. intros ->. apply Hns, elem_of_cons. by left. }
  assert (Hsplit : split_name junk zeros oom s (SLASH :: name) = split_name junk zeros oom s name).
  { unfold split_name. cbn [last_slash]. rewrite Hls. rewrite bool_decide_eq_true_2 by done. cbn [take drop]. unfold path_parsing.
    rewrite bool_decide_eq_false_2 by done. change (tokens (fun c => c =? SLASH) []) with (@nil (list Z)). cbn [walk].
    rewrite rbind_assoc. destruct (dir_reopen junk zeros oom s (cur_dir s)) as [[s1 d]| | |]; done. }
  unfold filesys_open, filesys_remove, filesys_create. rewrite Hsplit. rewrite !(bool_decide_eq_false_2 (name = [])), !(bool_decide_eq_false_2 (SLASH :: name = [])) by done. done.
Qed.

Lemma absolute_name_is_relative_witness :
  filesys_open demo_junk demo_junk demo_oom booted (SLASH :: name_foo) = filesys_open demo_junk demo_junk demo_oom booted name_foo.
Proof.
  apply absolute_name_is_relative; [discriminate|]. apply (bool_decide_eq_true_1 (SLASH ∉ name_foo)). reflexivity.
Defined.
