(* ===== verification/Stdio.v ===== *)
(** * lib/stdio.c and lib/kernel/console.c: formatted output

    A format is the bytes from the current position to the end of the string object, its
    null byte included, so that a read behind the null byte is undefined behaviour.  The
    arguments are the words a caller has pushed on the stack, as on the 80x86: an [int]
    or a pointer takes one word, a 64-bit integer two, the low one first.  Strings that
    an argument points to are in a memory [m] that the call does not change: the buffer
    of [vsnprintf] is an object of its own.  The function [output] of the code and its
    [aux] data are a parameter and the state it updates. *)

From Stdlib Require Import Ascii String.
From S2P Require Import Prelude Cstring Stdlibc.

(** Characters and string literals as bytes. *)
Definition ch (a : ascii) : Z := Z.of_N (N_of_ascii a).
Fixpoint chars (s : string) : list Z :=
  match s with EmptyString => [] | String a s => ch a :: chars s end.
Definition literal (s : string) : list Z := chars s ++ [0].

(** ** Conversions *)

Definition MINUS : Z := Z.shiftl 1 0.
Definition PLUS : Z := Z.shiftl 1 1.
Definition SPACE : Z := Z.shiftl 1 2.
Definition POUND : Z := Z.shiftl 1 3.
Definition ZERO : Z := Z.shiftl 1 4.
Definition GROUP : Z := Z.shiftl 1 5.

Inductive arg_type := CHAR | SHORT | INT | INTMAX | LONG | LONGLONG | PTRDIFFT | SIZET.

Record printf_conversion := mkConversion { flags : Z; width : Z; precision : Z; type : arg_type }.

Record integer_base := mkBase { base : Z; digits : list Z; base_x_char : Z; group : Z }.

Definition base_d := mkBase 10 (chars "0123456789") 0 3.
Definition base_o := mkBase 8 (chars "01234567") 0 3.
Definition base_x := mkBase 16 (chars "0123456789abcdef") (ch "x") 4.
Definition base_X := mkBase 16 (chars "0123456789ABCDEF") (ch "X") 4.

(** [fl & bit], as a condition. *)
Definition has (fl bit : Z) : bool := bool_decide (Z.land fl bit <> 0).

(** ** Arguments *)

Abbreviation va_list := (list Z).

Definition va_word (args : va_list) : res (Z * va_list) :=
  match args with w :: args => Ret (w, args) | [] => Ub end.
Definition va_int (args : va_list) : res (Z * va_list) :=
  let! '(w, args) := va_word args in Ret (s32 w, args).
Definition va_unsigned (args : va_list) : res (Z * va_list) :=
  let! '(w, args) := va_word args in Ret (u32 w, args).
Definition va_uint64 (args : va_list) : res (Z * va_list) :=
  let! '(lo, args) := va_unsigned args in
  let! '(hi, args) := va_unsigned args in
  Ret (lo + 2 ^ 32 * hi, args).
Definition va_int64 (args : va_list) : res (Z * va_list) :=
  let! '(v, args) := va_uint64 args in Ret (s64 v, args).

Definition SIZE_MAX : Z := 2 ^ 32 - 1.
Definition PTRDIFF_MAX : Z := 2 ^ 31 - 1.
Definition s8 (x : Z) : Z := (x + 2 ^ 7) mod 2 ^ 8 - 2 ^ 7.
Definition s16 (x : Z) : Z := (x + 2 ^ 15) mod 2 ^ 16 - 2 ^ 15.

(** The value of a signed conversion, by the type of the argument. *)
Definition signed_arg (ty : arg_type) (args : va_list) : res (Z * va_list) :=
  match ty with
  | CHAR => let! '(v, args) := va_int args in Ret (s8 v, args)
  | SHORT => let! '(v, args) := va_int args in Ret (s16 v, args)
  | INT | LONG | PTRDIFFT => va_int args
  | INTMAX | LONGLONG => va_int64 args
  | SIZET =>
      let! '(value, args) := va_unsigned args in
      Ret (if bool_decide (value > SIZE_MAX / 2) then value - SIZE_MAX - 1 else value, args)
  end.

(** The value of an unsigned conversion. *)
Definition unsigned_arg (ty : arg_type) (args : va_list) : res (Z * va_list) :=
  match ty with
  | CHAR => let! '(v, args) := va_unsigned args in Ret (u8 v, args)
  | SHORT => let! '(v, args) := va_unsigned args in Ret (u16 v, args)
  | INT | LONG | SIZET => va_unsigned args
  | INTMAX | LONGLONG => va_uint64 args
  | PTRDIFFT =>
      let! '(v, args) := va_int args in
      Ret (Z.land (u64 v) (Z.lor (Z.shiftl PTRDIFF_MAX 1) 1), args)
  end.

(** ** parse_conversion *)

(** [*format] *)
Definition deref (format : list Z) : res Z := of_opt (head format).

(** The flag characters. *)
Definition flag_of (c : Z) : option Z :=
  if bool_decide (c = ch "-") then Some MINUS
  else if bool_decide (c = ch "+") then Some PLUS
  else if bool_decide (c = ch " ") then Some SPACE
  else if bool_decide (c = ch "#") then Some POUND
  else if bool_decide (c = ch "0") then Some ZERO
  else if bool_decide (c = ch "'") then Some GROUP
  else None.

Fixpoint parse_flags (format : list Z) (fl : Z) : res (list Z * Z) :=
  match format with
  | [] => Ub
  | c :: rest =>
      match flag_of c with
      | Some bit => parse_flags rest (Z.lor fl bit)
      | None => Ret (format, fl)
      end
  end.

(** [for (; isdigit ( *format); format++) v = v * 10 + *format - '0'] *)
Fixpoint parse_digits (format : list Z) (v : Z) : res (list Z * Z) :=
  match format with
  | [] => Ub
  | c :: rest =>
      if isdigit c then
        let! v10 := int_op (v * 10) in
        let! v10c := int_op (v10 + c) in
        let! v := int_op (v10c - ch "0") in
        parse_digits rest v
      else Ret (format, v)
  end.

(** The field width: [*] takes it from the arguments. *)
Definition parse_width (format : list Z) (args : va_list) : res (list Z * Z * va_list) :=
  let! c := deref format in
  if bool_decide (c = ch "*") then
    let! '(w, args) := va_int args in Ret (tail format, w, args)
  else
    let! '(format, w) := parse_digits format 0 in Ret (format, w, args).

Definition parse_precision (format : list Z) (args : va_list) : res (list Z * Z * va_list) :=
  let! c := deref format in
  if bool_decide (c = ch ".") then
    let format := tail format in
    let! c := deref format in
    let! '(format, p, args) :=
      (if bool_decide (c = ch "*") then
         let! '(p, args) := va_int args in Ret (tail format, p, args)
       else
         let! '(format, p) := parse_digits format 0 in Ret (format, p, args)) in
    Ret (format, if bool_decide (p < 0) then -1 else p, args)
  else Ret (format, -1, args).

Definition parse_type (format : list Z) : res (list Z * arg_type) :=
  let! c := deref format in
  let rest := tail format in
  if bool_decide (c = ch "h") then
    let! d := deref rest in
    Ret (if bool_decide (d = ch "h") then (tail rest, CHAR) else (rest, SHORT))
  else if bool_decide (c = ch "j") then Ret (rest, INTMAX)
  else if bool_decide (c = ch "l") then
    let! d := deref rest in
    Ret (if bool_decide (d = ch "l") then (tail rest, LONGLONG) else (rest, LONG))
  else if bool_decide (c = ch "t") then Ret (rest, PTRDIFFT)
  else if bool_decide (c = ch "z") then Ret (rest, SIZET)
  else Ret (format, INT).

(** [fl & ~bit] *)
Definition without (fl bit : Z) : Z := Z.land fl (Z.lnot bit).

Definition parse_conversion (format : list Z) (args : va_list) : res (list Z * printf_conversion * va_list) :=
  let! '(format, fl) := parse_flags format 0 in
  let fl := if has fl MINUS then without fl ZERO else fl in
  let fl := if has fl PLUS then without fl SPACE else fl in
  let! '(format, w, args) := parse_width format args in
  let! '(w, fl) := (if bool_decide (w < 0) then let! w := int_op (- w) in Ret (w, Z.lor fl MINUS)
                    else Ret (w, fl)) in
  let! '(format, p, args) := parse_precision format args in
  let fl := if bool_decide (p >= 0) then without fl ZERO else fl in
  let! '(format, ty) := parse_type format in
  Ret (format, mkConversion fl w p ty, args).

(** ** Output of one conversion *)

Section Output.
Context {A : Type} (output : Z -> A -> res A).

Definition output_dup (c cnt : Z) (aux : A) : res A :=
  for_up (Z.to_nat (u32 cnt)) 0 (fun _ aux => output c aux) aux.

(** The local array [char buf[64]] and the position [cp] in it: the bytes from [cp - 1]
    down to [buf].  No byte is read before it is written. *)
Definition put (buf : list Z) (c : Z) : res (list Z) :=
  if bool_decide (Z.of_nat (length buf) < 64) then Ret (c :: buf) else Ub.

(** Digits, least significant first, with a comma between groups. *)
Definition put_digits (b : integer_base) (fl value : Z) : res (list Z) :=
  iter 65
    (fun '(buf, value, digit_cnt) =>
       if bool_decide (value > 0) then
         let! buf := (if has fl GROUP && bool_decide (digit_cnt > 0) && bool_decide (digit_cnt mod group b = 0)
                      then put buf (ch ",") else Ret buf) in
         let! d := aget (digits b) (value mod base b) in
         let! buf := put buf d in
         Ret (inl (buf, value / base b, digit_cnt + 1))
       else Ret (inr buf))
    ([], value, 0).

(** [while (cp - buf < precision && cp < buf + sizeof buf - 1) *cp++ = '0'] *)
Definition put_zeros (buf : list Z) (prec : Z) : res (list Z) :=
  iter 65
    (fun buf =>
       if bool_decide (Z.of_nat (length buf) < prec) && bool_decide (Z.of_nat (length buf) < 63)
       then let! buf := put buf (ch "0") in Ret (inl buf)
       else Ret (inr buf))
    buf.

Fixpoint output_all (s : list Z) (aux : A) : res A :=
  match s with
  | [] => Ret aux
  | c :: s => let! aux := output c aux in output_all s aux
  end.

(** The sign character, 0 if none. *)
Definition sign_char (is_signed negative : bool) (fl : Z) : Z :=
  if is_signed then
    if has fl PLUS then (if negative then ch "-" else ch "+")
    else if has fl SPACE then (if negative then ch "-" else ch " ")
    else if negative then ch "-" else 0
  else 0.

(** The contents of the buffer: digits, then zeros up to the precision. *)
Definition integer_digits (b : integer_base) (fl value prec : Z) : res (list Z) :=
  let! buf := put_digits b fl value in
  let! buf := put_zeros buf prec in
  if has fl POUND && bool_decide (base b = 8) && bool_decide (head buf <> Some (ch "0"))
  then put buf (ch "0") else Ret buf.

(** The padding and the output of the buffer. *)
Definition output_field (sign x : Z) (buf : list Z) (c : printf_conversion) (aux : A) : res A :=
  let fl := flags c in
  let pad_cnt := width c - Z.of_nat (length buf) - (if bool_decide (x <> 0) then 2 else 0)
                 - (if bool_decide (sign <> 0) then 1 else 0) in
  let pad_cnt := if bool_decide (pad_cnt < 0) then 0 else pad_cnt in
  let! aux := (if bool_decide (Z.land fl (Z.lor MINUS ZERO) = 0) then output_dup (ch " ") pad_cnt aux else Ret aux) in
  let! aux := (if bool_decide (sign <> 0) then output sign aux else Ret aux) in
  let! aux := (if bool_decide (x <> 0) then let! aux := output (ch "0") aux in output x aux else Ret aux) in
  let! aux := (if has fl ZERO then output_dup (ch "0") pad_cnt aux else Ret aux) in
  let! aux := output_all buf aux in
  if has fl MINUS then output_dup (ch " ") pad_cnt aux else Ret aux.

Definition format_integer (value : Z) (is_signed negative : bool) (b : integer_base)
    (c : printf_conversion) (aux : A) : res A :=
  let sign := sign_char is_signed negative (flags c) in
  let x := if has (flags c) POUND && bool_decide (value <> 0) then base_x_char b else 0 in
  let prec := if bool_decide (precision c < 0) then 1 else precision c in
  let! buf := integer_digits b (flags c) value prec in
  output_field sign x buf c aux.

(** [string i] is [string[i]]. *)
Definition format_string (string : Z -> res Z) (length : Z) (c : printf_conversion) (aux : A) : res A :=
  let! aux := (if bool_decide (width c > length) && negb (has (flags c) MINUS)
               then output_dup (ch " ") (width c - length) aux else Ret aux) in
  let! aux := for_up (Z.to_nat length) 0 (fun i aux => let! x := string i in output x aux) aux in
  if bool_decide (width c > length) && has (flags c) MINUS
  then output_dup (ch " ") (width c - length) aux else Ret aux.

(** ** __vprintf *)

Context (m : mem).

(** The literal ["(null)"], as an object of its own. *)
Definition null_string : mem := list_to_map (zip (seqZ 1 7) (literal "(null)")).

Definition is_one_of (c : Z) (s : string) : bool := bool_decide (c ∈ chars s).

(** The switch on the conversion character [conv]; [nested] is the call of [__printf]. *)
Definition do_conversion (nested : list Z -> va_list -> A -> res A) (conv : Z) (c : printf_conversion)
    (args : va_list) (aux : A) : res (va_list * A) :=
  if is_one_of conv "di" then
    let! '(value, args) := signed_arg (type c) args in
    let! mag := (if bool_decide (value < 0)
                 then if bool_decide (value = - 2 ^ 63) then Ub else Ret (- value) else Ret value) in
    let! aux := format_integer mag true (bool_decide (value < 0)) base_d c aux in
    Ret (args, aux)
  else if is_one_of conv "ouxX" then
    let! '(value, args) := unsigned_arg (type c) args in
    let b := if bool_decide (conv = ch "o") then base_o else if bool_decide (conv = ch "u") then base_d
             else if bool_decide (conv = ch "x") then base_x else base_X in
    let! aux := format_integer value false false b c aux in
    Ret (args, aux)
  else if bool_decide (conv = ch "c") then
    let! '(v, args) := va_int args in
    let! aux := format_string (aget [u8 v]) 1 c aux in
    Ret (args, aux)
  else if bool_decide (conv = ch "s") then
    let! '(s, args) := va_unsigned args in
    let '(m, s) := if bool_decide (s = NULL) then (null_string, 1) else (m, s) in
    let! n := strnlen m s (u32 (precision c)) in
    let! aux := format_string (fun i => load m (s + i)) (s32 n) c aux in
    Ret (args, aux)
  else if bool_decide (conv = ch "p") then
    let! '(p, args) := va_unsigned args in
    let c := mkConversion POUND (width c) (precision c) (type c) in
    let! aux := format_integer p false false base_x c aux in
    Ret (args, aux)
  else if is_one_of conv "feEgGn" then
    let! aux := nested (literal "<<no %%%c in kernel>>") [conv] aux in
    Ret (args, aux)
  else
    let! aux := nested (literal "<<no %%%c conversion>>") [conv] aux in
    Ret (args, aux).

(** One round of the loop over the format. *)
Definition vprintf_round (nested : list Z -> va_list -> A -> res A) (st : list Z * va_list * A)
    : res (list Z * va_list * A + A) :=
  let '(format, args, aux) := st in
  let! c := deref format in
  if bool_decide (c = 0) then Ret (inr aux)
  else if bool_decide (c <> ch "%") then
    let! aux := output c aux in Ret (inl (tail format, args, aux))
  else
    let format := tail format in
    let! c := deref format in
    if bool_decide (c = ch "%") then
      let! aux := output (ch "%") aux in Ret (inl (tail format, args, aux))
    else
      let! '(format, c, args) := parse_conversion format args in
      let! conv := deref format in
      let! '(args, aux) := do_conversion nested conv c args aux in
      Ret (inl (tail format, args, aux)).

(** [depth] bounds the calls of [__vprintf] through [__printf]. *)
Fixpoint vprintf_depth (depth : nat) (format : list Z) (args : va_list) (aux : A) : res A :=
  match depth with
  | O => NoFuel
  | S depth => iter (S (length format)) (vprintf_round (vprintf_depth depth)) (format, args, aux)
  end.

Definition __vprintf (format : list Z) (args : va_list) (aux : A) : res A := vprintf_depth 2 format args aux.

Definition __printf (format : list Z) (aux : A) (args : va_list) : res A := __vprintf format args aux.
End Output.

(** ** vsnprintf *)

(** [p] is the index of the output position in the buffer. *)
Record vsnprintf_aux := mkAux { buffer : list Z; p : Z; aux_length : Z; max_length : Z }.

Definition vsnprintf_helper (c : Z) (aux : vsnprintf_aux) : res vsnprintf_aux :=
  let! len := int_op (aux_length aux + 1) in
  if bool_decide (aux_length aux < max_length aux) then
    let! b := aset (buffer aux) (p aux) c in
    Ret (mkAux b (p aux + 1) len (max_length aux))
  else Ret (mkAux (buffer aux) (p aux) len (max_length aux)).

(** The buffer afterwards and the returned length. *)
Definition vsnprintf (m : mem) (buf : list Z) (buf_size : Z) (format : list Z) (args : va_list)
    : res (list Z * Z) :=
  let aux := mkAux buf 0 0 (if bool_decide (buf_size > 0) then s32 (buf_size - 1) else 0) in
  let! aux := __vprintf vsnprintf_helper m format args aux in
  let! b := (if bool_decide (buf_size > 0) then aset (buffer aux) (p aux) 0 else Ret (buffer aux)) in
  Ret (b, aux_length aux).

Definition snprintf (m : mem) (buf : list Z) (buf_size : Z) (format : list Z) (args : va_list)
    : res (list Z * Z) := vsnprintf m buf buf_size format args.
