(* ===== verification/StdioProof.v ===== *)
(** * lib/stdio.c: proofs

    What a conversion prints does not depend on the function that takes the characters
    ([lifts]); a print ends; [vsnprintf] stores what fits; the output of [%d] is read back
    by [atoi]. *)

From Stdlib Require Import Ascii String.
From S2P Require Import Prelude Cstring CstringProof Stdlibc Stdio.

(** The sink that collects the characters, and what a format prints. *)
Definition collect (c : Z) (a : list Z) : res (list Z) := Ret (a ++ [c]).
Definition render (m : mem) (format : list Z) (args : list Z) : res (list Z) :=
  __vprintf collect m format args [].

(** ** Independence of the sink *)

Lemma output_all_app {A} (output : Z -> A -> res A) s t aux :
  output_all output (s ++ t) aux = let! aux := output_all output s aux in output_all output t aux.
Proof.
  revert aux; induction s as [|c s IH]; intros aux; simpl; [done|].
  rewrite rbind_assoc. destruct (output c aux); simpl; [apply IH|done..].
Qed.

Lemma output_all_collect s a : output_all collect s a = Ret (a ++ s).
Proof.
  revert a; induction s as [|c s IH]; intros a; simpl; [by rewrite app_nil_r|].
  by rewrite IH, <- app_assoc.
Qed.

Section Lifts.
Context {A : Type} (output : Z -> A -> res A).

(** [rc] is a run with [collect] and [ro] the same run with [output]: where the first
    returns, the second passes the same characters to its sink. *)
Definition lifts (rc : list Z -> res (list Z)) (ro : A -> res A) : Prop :=
  forall a a', rc a = Ret a' -> exists out, a' = a ++ out /\ forall aux, ro aux = output_all output out aux.

Lemma lifts_ret : lifts Ret Ret.
Proof. intros a a' [= ->]. exists []. by rewrite app_nil_r. Qed.

Lemma lifts_output c : lifts (collect c) (output c).
Proof. intros a a' [= <-]. exists [c]. split; [done|]. intros aux; simpl. by destruct (output c aux). Qed.

Lemma lifts_bind rc1 ro1 rc2 ro2 : lifts rc1 ro1 -> lifts rc2 ro2 ->
  lifts (fun a => let! a := rc1 a in rc2 a) (fun aux => let! aux := ro1 aux in ro2 aux).
Proof.
  intros H1 H2 a a' H. apply rbind_Ret in H as (a1 & Ha1 & Ha').
  destruct (H1 _ _ Ha1) as (o1 & -> & Ho1). destruct (H2 _ _ Ha') as (o2 & -> & Ho2).
  exists (o1 ++ o2). split; [by rewrite app_assoc|]. intros aux. rewrite Ho1, output_all_app.
  destruct (output_all output o1 aux); simpl; auto.
Qed.

Lemma lifts_read {X} (r : res X) rc ro : (forall x, r = Ret x -> lifts (rc x) (ro x)) ->
  lifts (fun a => let! x := r in rc x a) (fun aux => let! x := r in ro x aux).
Proof. destruct r; simpl; intros H; [by apply H|..]; intros a a' [=]. Qed.

Lemma lifts_if (b : bool) rc1 ro1 rc2 ro2 : lifts rc1 ro1 -> lifts rc2 ro2 ->
  lifts (fun a => if b then rc1 a else rc2 a) (fun aux => if b then ro1 aux else ro2 aux).
Proof. by destruct b. Qed.

Lemma lifts_for_up n i (fc : Z -> list Z -> res (list Z)) fo : (forall k, lifts (fc k) (fo k)) ->
  lifts (for_up n i fc) (for_up n i fo).
Proof.
  intros Hf. revert i; induction n as [|n IH]; intros i; [exact lifts_ret|].
  exact (lifts_bind _ _ _ _ (Hf i) (IH (i + 1))).
Qed.

Lemma lifts_output_all s : lifts (output_all collect s) (output_all output s).
Proof. intros a a'. rewrite output_all_collect. intros [= <-]. eauto. Qed.

Lemma lifts_output_dup c n : lifts (output_dup collect c n) (output_dup output c n).
Proof. apply lifts_for_up. intros _. apply lifts_output. Qed.
End Lifts.

(** Goes through the two runs in step. *)
Ltac lift :=
  repeat first
    [ apply lifts_ret | apply lifts_output | apply lifts_output_all | apply lifts_output_dup
    | progress cbv zeta | assumption
    | simple apply lifts_read; intros ? _ | simple apply lifts_bind | simple apply lifts_if
    | simple apply lifts_for_up; intros ? ].

Section Conversions.
Context {A : Type} (output : Z -> A -> res A) (m : mem).
Context (nc : list Z -> list Z -> list Z -> res (list Z)) (no : list Z -> list Z -> A -> res A).
Context (nested_lifts : forall f args, lifts output (nc f args) (no f args)).

Lemma lifts_format_integer value sg neg b c :
  lifts output (format_integer collect value sg neg b c) (format_integer output value sg neg b c).
Proof. unfold format_integer, output_field. lift. Qed.

Lemma lifts_format_string s n c : lifts output (format_string collect s n c) (format_string output s n c).
Proof. unfold format_string. lift. Qed.

(** The same for a run that returns something besides the state of the sink. *)
Definition lifts_with {X} (rc : list Z -> res (X * list Z)) (ro : A -> res (X * A)) : Prop :=
  forall a x a', rc a = Ret (x, a') ->
  exists out, a' = a ++ out /\ forall aux, ro aux = let! aux := output_all output out aux in Ret (x, aux).

Lemma lifts_with_ret {X} (x : X) rc ro : lifts output rc ro ->
  lifts_with (fun a => let! a := rc a in Ret (x, a)) (fun aux => let! aux := ro aux in Ret (x, aux)).
Proof.
  intros H a x' a' Hr. apply rbind_Ret in Hr as (a1 & Ha1 & [= <- <-]).
  destruct (H _ _ Ha1) as (out & -> & Ho). exists out. split; [done|]. intros aux. by rewrite Ho.
Qed.

Lemma lifts_with_read {X Y} (r : res Y) (rc : Y -> list Z -> res (X * list Z)) ro :
  (forall y, r = Ret y -> lifts_with (rc y) (ro y)) ->
  lifts_with (fun a => let! y := r in rc y a) (fun aux => let! y := r in ro y aux).
Proof. destruct r; simpl; intros H; [by apply H|..]; intros a x a' [=]. Qed.

Lemma lifts_with_if {X} (b : bool) (rc1 : list Z -> res (X * list Z)) ro1 rc2 ro2 :
  lifts_with rc1 ro1 -> lifts_with rc2 ro2 ->
  lifts_with (fun a => if b then rc1 a else rc2 a) (fun aux => if b then ro1 aux else ro2 aux).
Proof. by destruct b. Qed.

Lemma lifts_do_conversion conv c args :
  lifts_with (do_conversion collect m nc conv c args) (do_conversion output m no conv c args).
Proof.
  unfold do_conversion.
  repeat first
    [ apply lifts_with_ret | progress cbv zeta | simple apply lifts_with_if
    | simple apply lifts_with_read; intros [? ?] _ | simple apply lifts_with_read; intros ? _
    | apply lifts_format_integer | apply lifts_format_string | apply nested_lifts | case_match ].
Qed.

Lemma lifts_round format args a r : vprintf_round collect m nc (format, args, a) = Ret r ->
  (r = inr a /\ forall aux, vprintf_round output m no (format, args, aux) = Ret (inr aux)) \/
  (exists format' args' out, r = inl (format', args', a ++ out) /\
     forall aux, vprintf_round output m no (format, args, aux) =
                 let! aux := output_all output out aux in Ret (inl (format', args', aux))).
Proof.
  unfold vprintf_round. intros H. apply rbind_Ret in H as (c & -> & H). simpl.
  case_bool_decide; [left; split; [by injection H as <-|done]|]. right.
  case_bool_decide.
  { injection H as <-. exists (tail format), args, [c]. split; [done|]. intros aux. simpl. by destruct (output c aux). }
  apply rbind_Ret in H as (d & -> & H). simpl. case_bool_decide.
  { injection H as <-. eexists _, args, [_]. split; [done|]. intros aux. simpl. by destruct (output _ aux). }
  apply rbind_Ret in H as ([[f cv] args1] & -> & H). simpl. apply rbind_Ret in H as (conv & -> & H). simpl.
  apply rbind_Ret in H as ([args2 a2] & Hconv & [= <-]).
  destruct (lifts_do_conversion _ _ _ _ _ _ Hconv) as (out & -> & Ho). exists (tail f), args2, out. split; [done|].
  intros aux. rewrite Ho, rbind_assoc. done.
Qed.

Lemma lifts_loop fuel format args :
  lifts output (fun a => iter fuel (vprintf_round collect m nc) (format, args, a))
               (fun aux => iter fuel (vprintf_round output m no) (format, args, aux)).
Proof.
  revert format args; induction fuel as [|fuel IH]; intros format args a a'; [done|]. cbn [iter].
  intros H. apply rbind_Ret in H as (r & Hr & H).
  apply lifts_round in Hr as [[-> Ho]|(f & args1 & out & -> & Ho)].
  - injection H as <-. exists []. rewrite app_nil_r. split; [done|]. intros aux. by rewrite Ho.
  - destruct (IH f args1 _ _ H) as (out' & -> & Ho'). exists (out ++ out'). rewrite app_assoc. split; [done|].
    intros aux. rewrite Ho, output_all_app, rbind_assoc. destruct (output_all output out aux); simpl; auto.
Qed.
End Conversions.

Lemma lifts_vprintf {A} (output : Z -> A -> res A) m depth : forall format args,
  lifts output (vprintf_depth collect m depth format args) (vprintf_depth output m depth format args).
Proof.
  induction depth as [|depth IH]; intros format args; [by intros a a' [=]|]. exact (lifts_loop _ _ _ _ IH _ _ _).
Qed.

(** A print into any sink passes it the characters of [render], in order. *)
Lemma vprintf_render {A} (output : Z -> A -> res A) m format args out aux : render m format args = Ret out ->
  __vprintf output m format args aux = output_all output out aux.
Proof. intros H. destruct (lifts_vprintf output m 2 format args _ _ H) as (o & -> & Ho). apply Ho. Qed.

(** ** vsnprintf *)

(** The characters [out] stored from position [k] on, as far as [max] allows. *)
Definition stored_at (b : list Z) (k : nat) (w : list Z) : list Z := take k b ++ w ++ drop (k + length w) b.

Lemma stored_at_cons b k c w : (k < length b)%nat ->
  stored_at (<[k := c]> b) (S k) w = stored_at b k (c :: w).
Proof.
  intros Hk. unfold stored_at. rewrite (take_S_r _ _ c) by (by apply list_lookup_insert_eq).
  rewrite take_insert_ge, drop_insert_lt by lia. rewrite <- app_assoc. simpl. by replace (k + S (length w))%nat with (S (k + length w)) by lia.
Qed.

Lemma helper_all out : forall b k len max, k = Nat.min len max -> (max < length b \/ max = 0)%nat ->
  Z.of_nat len + Z.of_nat (length out) < 2 ^ 31 ->
  output_all vsnprintf_helper out (mkAux b (Z.of_nat k) (Z.of_nat len) (Z.of_nat max)) =
  Ret (mkAux (stored_at b k (take (max - k) out)) (Z.of_nat (Nat.min (len + length out) max))
             (Z.of_nat (len + length out)) (Z.of_nat max)).
Proof.
  induction out as [|c out IH]; intros b k len max -> Hmax Hn; simpl in *.
  - unfold stored_at. rewrite take_nil, Nat.add_0_r, Nat.add_0_r. simpl. by rewrite take_drop.
  - unfold vsnprintf_helper at 1; simpl. rewrite int_op_small by lia. simpl.
    replace (Z.of_nat len + 1) with (Z.of_nat (S len)) by lia.
    replace (len + S (length out))%nat with (S len + length out)%nat by lia. case_bool_decide as Hlt.
    + replace (Nat.min len max) with len by lia. rewrite aset_in_range by lia. simpl.
      replace (Z.of_nat len + 1) with (Z.of_nat (S len)) by lia.
      rewrite (IH _ _ (S len)) by (rewrite ?length_insert; lia). rewrite Nat2Z.id, stored_at_cons by lia.
      replace (max - len)%nat with (S (max - S len)) by lia. done.
    + cbn [rbind]. rewrite (IH _ (Nat.min len max) (S len)) by lia. replace (max - Nat.min len max)%nat with 0%nat by lia. done.
Qed.

(** What [vsnprintf] leaves in the buffer: the characters that fit, a null byte, the rest
    of the buffer as it was. *)
Definition printed (buf : list Z) (buf_size : Z) (out : list Z) : list Z :=
  if decide (buf_size = 0) then buf
  else let w := take (Z.to_nat (buf_size - 1)) out ++ [0] in w ++ drop (length w) buf.

Lemma vsnprintf_render m buf buf_size format args out :
  render m format args = Ret out -> 0 <= buf_size <= 2 ^ 31 -> buf_size <= Z.of_nat (length buf) ->
  Z.of_nat (length out) < 2 ^ 31 ->
  vsnprintf m buf buf_size format args = Ret (printed buf buf_size out, Z.of_nat (length out)).
Proof.
  intros Hr Hs Hb Hn. unfold vsnprintf, printed. rewrite (vprintf_render _ _ _ _ _ _ Hr).
  set (max := if bool_decide (buf_size > 0) then s32 (buf_size - 1) else 0).
  assert (max = Z.of_nat (Z.to_nat (buf_size - 1))) as ->.
  { unfold max. case_bool_decide; [rewrite s32_small by lia|]; lia. }
  rewrite (helper_all out buf 0 0) by lia. simpl. unfold stored_at. rewrite Nat.sub_0_r. simpl.
  case_decide as Hz.
  - rewrite bool_decide_false by lia. simpl. replace (Z.to_nat (buf_size - 1)) with 0%nat by lia. done.
  - rewrite bool_decide_true by lia. set (w := take _ out).
    assert (length w = Nat.min (length out) (Z.to_nat (buf_size - 1))) as Hw by (unfold w; rewrite length_take; lia).
    rewrite <- Hw. rewrite aset_in_range by (rewrite length_app, length_drop; lia). simpl. do 2 f_equal.
    rewrite Nat2Z.id, insert_app_r_alt, Nat.sub_diag, <- app_assoc, length_app by lia. f_equal. simpl.
    destruct (drop (length w) buf) eqn:E; [apply (f_equal length) in E; rewrite length_drop in E; simpl in E; lia|].
    simpl. f_equal. rewrite Nat.add_1_r. by rewrite (drop_S _ z) in E by (by rewrite <- (Nat.add_0_r (length w)), <- lookup_drop, E); simplify_eq.
Qed.
(** ** Integer conversions *)

Record base_ok (b : integer_base) : Prop := {
  ok_base : 8 <= base b;
  ok_digits : Z.of_nat (length (digits b)) = base b
}.

Lemma bases_ok : Forall base_ok [base_d; base_o; base_x; base_X].
Proof. repeat constructor; simpl; lia. Qed.

(** The number that decimal digits denote, after the digits read so far. *)
Fixpoint num (acc : Z) (s : list Z) : Z :=
  match s with [] => acc | c :: s => num (acc * 10 + (c - 48)) s end.

Lemma num_acc s acc : num acc s = acc * 10 ^ Z.of_nat (length s) + num 0 s.
Proof.
  revert acc; induction s as [|c s IH]; intros acc; simpl num; simpl length; [lia|].
  rewrite IH, (IH (0 * 10 + _)). rewrite Nat2Z.inj_succ, Z.pow_succ_r by lia. lia.
Qed.

Lemma num_cons c s : num 0 (c :: s) = (c - 48) * 10 ^ Z.of_nat (length s) + num 0 s.
Proof. simpl. by rewrite num_acc. Qed.

Definition digit (c : Z) : Prop := 48 <= c <= 57.

Lemma num_nonneg acc s : 0 <= acc -> Forall digit s -> acc <= num acc s.
Proof.
  intros Ha Hs. revert acc Ha. induction Hs as [|c s Hc _ IH]; intros acc Ha; simpl; [lia|].
  unfold digit in Hc. specialize (IH (acc * 10 + (c - 48))). lia.
Qed.

Lemma put_ok buf c : Z.of_nat (length buf) < 64 -> put buf c = Ret (c :: buf).
Proof. intros. unfold put. by rewrite bool_decide_true. Qed.

Lemma digit_d k : 0 <= k < 10 -> aget (digits base_d) k = Ret (48 + k).
Proof.
  intros Hk. assert (k ∈ seqZ 0 10) as Hin by (apply elem_of_seqZ; lia).
  repeat (apply elem_of_cons in Hin as [->|Hin]; [done|]). by apply elem_of_nil in Hin.
Qed.

(** The state of the digit loop: [cnt] digits of [v] are in the buffer, [value] is left. *)
Record digit_state (b : integer_base) (fl v : Z) (st : list Z * Z * Z) : Prop := {
  ds_value : 0 <= st.1.2;
  ds_cnt : 0 <= st.2;
  ds_left : st.1.2 * 8 ^ st.2 < 2 ^ 64;
  ds_room : Z.of_nat (length st.1.1) <= 2 * st.2;
  ds_num : b = base_d -> has fl GROUP = false ->
    Forall digit st.1.1 /\ st.1.2 * 10 ^ Z.of_nat (length st.1.1) + num 0 st.1.1 = v /\
    10 ^ Z.of_nat (length st.1.1) <= Z.max 1 (10 * v)
}.

Lemma few_digits v n : 0 < v -> v * 8 ^ n < 2 ^ 64 -> n < 22.
Proof.
  intros Hv Hn. destruct (Z.lt_ge_cases n 22) as [|Hge]; [done|].
  assert (8 ^ 22 <= 8 ^ n) by (apply Z.pow_le_mono_r; lia). nia.
Qed.

Lemma put_digits_ok b fl v : base_ok b -> 0 <= v < 2 ^ 64 ->
  exists buf, put_digits b fl v = Ret buf /\ (length buf <= 44)%nat /\
    (b = base_d -> has fl GROUP = false -> Forall digit buf /\ num 0 buf = v /\
       10 ^ Z.of_nat (length buf) <= Z.max 1 (10 * v)).
Proof.
  intros Hb Hv. unfold put_digits.
  apply (iter_total (fun st => digit_state b fl v st /\ st.2 <= 22) (fun st => Z.to_nat (23 - st.2))); [| |simpl; lia].
  2:{ split; [|simpl; lia]. split; simpl; try lia. intros _ _. split_and!; [constructor|simpl; lia..]. }
  intros [[buf value] cnt] [[H0 Hc Hl Hr Hn] Hc22]. simpl in *. case_bool_decide as Hpos.
  2:{ right. eexists; split; [done|]. split; [lia|]. intros Hd Hg. destruct (Hn Hd Hg) as (? & Hnum & ?).
      replace value with 0 in Hnum by lia. split_and!; [done|lia..]. }
  left. pose proof (few_digits value cnt ltac:(lia) Hl). destruct Hb as [Hb8 Hdig].
  destruct (aget_in_range (digits b) (value mod base b)) as (d & Hd & _).
  { rewrite Hdig. apply Z.mod_pos_bound. lia. }
  pose proof (Z.mul_div_le value (base b) ltac:(lia)). pose proof (Z.div_pos value (base b) ltac:(lia) ltac:(lia)).
  assert (value / base b * 8 ^ (cnt + 1) < 2 ^ 64) as Hl'.
  { rewrite Z.pow_add_r by lia. assert (0 < 8 ^ cnt) by (apply Z.pow_pos_nonneg; lia). nia. }
  destruct (has fl GROUP && _ && _) eqn:Hg; simpl.
  - rewrite put_ok by lia. simpl. rewrite Hd. simpl. rewrite put_ok by (simpl; lia). simpl.
    eexists; split; [done|]. split; [|simpl; lia]. split; [|simpl; lia]. split; simpl; try lia.
    intros _ Hf. by rewrite Hf in Hg.
  - rewrite Hd. simpl. rewrite put_ok by lia. simpl.
    eexists; split; [done|]. split; [|simpl; lia]. split; [|simpl; lia]. split; simpl; try lia.
    intros -> Hf. destruct (Hn eq_refl Hf) as (Hds & Hnum & _). rewrite digit_d in Hd by (apply Z.mod_pos_bound; simpl; lia).
    injection Hd as <-. simpl base in *. pose proof (Z.mod_pos_bound value 10 ltac:(lia)).
    pose proof (Z.div_mod value 10 ltac:(lia)).
    change (num (0 * 10 + (48 + value mod 10 - 48)) buf) with (num 0 ((48 + value mod 10) :: buf)).
    rewrite num_cons. rewrite Nat2Z.inj_succ, Z.pow_succ_r by lia.
    assert (0 < 10 ^ Z.of_nat (length buf)) by (apply Z.pow_pos_nonneg; lia).
    pose proof (num_nonneg 0 buf ltac:(lia) Hds).
    split_and!; [constructor; [unfold digit; lia|done]|nia..].
Qed.

(** [n] zeros on top of [buf]. *)
Record zeros_state (buf : list Z) (prec : Z) (n : nat) (st : list Z) : Prop := {
  zs_buf : st = replicate n (ch "0") ++ buf;
  zs_room : (n + length buf <= 63)%nat;
  zs_need : Z.of_nat (n + length buf) <= Z.max prec (Z.of_nat (length buf))
}.

Lemma put_zeros_ok buf prec : (length buf <= 44)%nat ->
  exists n st, put_zeros buf prec = Ret st /\ zeros_state buf prec n st /\
    (prec <= Z.of_nat (n + length buf) \/ (n + length buf = 63)%nat).
Proof.
  intros Hb. unfold put_zeros.
  destruct (iter_total (fun st => exists n, zeros_state buf prec n st) (fun st => (64 - length st)%nat)
    (fun st => exists n, zeros_state buf prec n st /\ (prec <= Z.of_nat (n + length buf) \/ (n + length buf = 63)%nat))
    (fun buf => if bool_decide (Z.of_nat (length buf) < prec) && bool_decide (Z.of_nat (length buf) < 63)
       then let! buf := put buf (ch "0") in Ret (inl buf) else Ret (inr buf))) with (fuel := 65%nat) (s := buf)
    as (st & -> & n & Hz & He); [| |lia|eauto].
  - intros st [n [-> Hr Hn]]. rewrite length_app, length_replicate. case_bool_decide; case_bool_decide; simpl.
    + left. rewrite put_ok by (rewrite length_app, length_replicate; lia). eexists; split; [done|]. split.
      * exists (S n). split; [done|lia..].
      * simpl. rewrite length_app, length_replicate. lia.
    + right. eexists; split; [done|]. exists n. split; [done|lia].
    + right. eexists; split; [done|]. exists n. split; [done|lia].
    + right. eexists; split; [done|]. exists n. split; [done|lia].
  - exists 0%nat. split; [done|lia..].
Qed.

(** A field: [prefix] is the sign and the [0x], [ds] the digits, [pad] the number of fill
    characters, which go to the left, between the two, or to the right. *)
Definition pad_cnt (w : Z) (prefix ds : list Z) : nat := Z.to_nat (w - Z.of_nat (length (prefix ++ ds))).
Definition field (fl w : Z) (prefix ds : list Z) : list Z :=
  let pad := pad_cnt w prefix ds in
  (if bool_decide (Z.land fl (Z.lor MINUS ZERO) = 0) then replicate pad (ch " ") else []) ++
  prefix ++ (if has fl ZERO then replicate pad (ch "0") else []) ++ ds ++
  (if has fl MINUS then replicate pad (ch " ") else []).

Lemma output_dup_all {A} (output : Z -> A -> res A) c n aux : 0 <= n < 2 ^ 32 ->
  output_dup output c n aux = output_all output (replicate (Z.to_nat n) c) aux.
Proof.
  intros Hn. unfold output_dup. rewrite u32_small by done. generalize 0 as i. revert aux.
  induction (Z.to_nat n) as [|k IH]; intros aux i; simpl; [done|]. destruct (output c aux); simpl; auto.
Qed.

(** The digits of a conversion: the padded digits of the value, never more than the local
    array holds. *)
Lemma digits_ok b fl v prec : base_ok b -> 0 <= v < 2 ^ 64 ->
  exists ds, integer_digits b fl v prec = Ret ds /\ (length ds <= 64)%nat /\
    (b = base_d -> has fl GROUP = false -> prec = 1 -> Forall digit ds /\ ds <> [] /\ num 0 ds = v /\
       10 ^ Z.of_nat (length ds) <= 10 * Z.max 1 v).
Proof.
  intros Hb Hv. unfold integer_digits. destruct (put_digits_ok b fl v Hb Hv) as (buf & -> & Hlen & Hnum). cbn [rbind].
  destruct (put_zeros_ok buf prec Hlen) as (n & st & -> & [-> Hr Hn] & He). cbn [rbind].
  destruct (has fl POUND && bool_decide (base b = 8) && _) eqn:Hp.
  - rewrite put_ok by (rewrite length_app, length_replicate; lia). eexists; split; [done|].
    simpl. rewrite length_app, length_replicate. split; [lia|]. intros ->. simpl in Hp. by rewrite andb_false_r in Hp.
  - eexists; split; [done|]. rewrite length_app, length_replicate. split; [lia|]. intros Hbd Hg ->.
    destruct (Hnum Hbd Hg) as (Hd & Hv' & Hl). destruct n as [|[|n]]; [| |lia]; simpl in *.
    + split_and!; [done| |done|lia]. intros ->. simpl in *. lia.
    + destruct buf; simpl in *; [|lia]. split_and!; [by constructor|done|done|simpl; lia].
Qed.

(** What stands before the digits: the sign and the [0x]. *)
Definition prefix_of (sign x : Z) : list Z :=
  (if bool_decide (sign <> 0) then [sign] else []) ++ (if bool_decide (x <> 0) then [ch "0"; x] else []).

Definition prec_of (c : printf_conversion) : Z := if bool_decide (precision c < 0) then 1 else precision c.
Definition x_of (value : Z) (b : integer_base) (fl : Z) : Z :=
  if has fl POUND && bool_decide (value <> 0) then base_x_char b else 0.

Lemma output_one {A} (output : Z -> A -> res A) c aux : output c aux = output_all output [c] aux.
Proof. simpl. by destruct (output c aux). Qed.

Lemma output_field_ok {A} (output : Z -> A -> res A) sign x buf c aux : 0 <= width c < 2 ^ 31 ->
  output_field output sign x buf c aux = output_all output (field (flags c) (width c) (prefix_of sign x) buf) aux.
Proof.
  intros Hw. unfold output_field, field. cbv zeta.
  set (n := if bool_decide (_ < 0) then 0 else _).
  assert (0 <= n < 2 ^ 32 /\ Z.to_nat n = pad_cnt (width c) (prefix_of sign x) buf) as [Hn <-].
  { unfold n, pad_cnt, prefix_of. rewrite !length_app. destruct (bool_decide (sign <> 0)), (bool_decide (x <> 0));
      simpl length; case_bool_decide; lia. }
  clearbody n. unfold prefix_of.
  destruct (bool_decide (Z.land _ _ = 0)), (bool_decide (sign <> 0)), (bool_decide (x <> 0)), (has _ ZERO), (has _ MINUS);
    cbn [rbind app]; rewrite ?app_nil_r;
    repeat (rewrite ?output_dup_all, ?output_all_app by done; cbn [rbind output_all]; rewrite ?rbind_assoc;
            match goal with
            | |- ?a = ?a => reflexivity
            | |- rbind ?m _ = rbind ?m _ => destruct m; cbn [rbind]; [|done..]
            | |- rbind ?m _ = ?m => by destruct m
            end).
Qed.

Lemma format_integer_ok value sg neg b c : base_ok b -> 0 <= value < 2 ^ 64 -> 0 <= width c < 2 ^ 31 ->
  exists ds, (length ds <= 64)%nat /\
    (forall A (output : Z -> A -> res A) aux, format_integer output value sg neg b c aux =
       output_all output (field (flags c) (width c)
         (prefix_of (sign_char sg neg (flags c)) (x_of value b (flags c))) ds) aux) /\
    (b = base_d -> has (flags c) GROUP = false -> prec_of c = 1 -> 
       Forall digit ds /\ ds <> [] /\ num 0 ds = value /\ 10 ^ Z.of_nat (length ds) <= 10 * Z.max 1 value).
Proof.
  intros Hb Hv Hw. destruct (digits_ok b (flags c) value (prec_of c) Hb Hv) as (ds & Hds & Hlen & Hnum).
  exists ds. split; [done|]. split; [|done]. intros A output aux. unfold format_integer. cbv zeta.
  fold (prec_of c). rewrite Hds. exact (output_field_ok output _ _ ds c aux Hw).
Qed.

(** ** Reading back a printed number *)

Lemma isdigit_true c : digit c -> isdigit c = true.
Proof. unfold digit, isdigit. intros. by rewrite !bool_decide_true by lia. Qed.

(** The digit loop of [atoi] on the digits [s], from the negated value [- acc]. *)
Lemma atoi_digits m : forall s p acc fuel, bytes m p (s ++ [0]) -> Forall digit s -> 0 <= acc ->
  num acc s <= 2 ^ 31 -> (length s < fuel)%nat ->
  iter fuel (fun '(value, s) =>
     let! c := load m s in
     if isdigit c then let! v10 := int_op (value * 10) in
                       let! value := int_op (v10 - (c - 48)) in Ret (inl (value, s + 1))
     else Ret (inr value)) (- acc, p) = Ret (- num acc s).
Proof.
  induction s as [|c s IH]; intros p acc [|fuel] Hm Hs Ha Hn Hf; simpl in Hf; try lia; cbn [iter];
    simpl in Hm; rewrite (bytes_load0 _ _ _ _ Hm); cbn [rbind].
  - done.
  - inversion Hs as [|?? Hc Hs']; subst. rewrite isdigit_true by done. simpl in Hn. unfold digit in Hc.
    pose proof (num_nonneg (acc * 10 + (c - 48)) s ltac:(lia) Hs').
    rewrite int_op_small by lia. cbn [rbind]. rewrite int_op_small by lia. cbn [rbind].
    replace (- acc * 10 - (c - 48)) with (- (acc * 10 + (c - 48))) by lia.
    apply IH; [|done|lia|done|lia]. apply bytes_cons in Hm. apply Hm.
Qed.

Lemma atoi_digits_ok m s p fuel : bytes m p (s ++ [0]) -> Forall digit s -> num 0 s <= 2 ^ 31 -> (length s < fuel)%nat ->
  iter fuel (fun '(value, s) =>
     let! c := load m s in
     if isdigit c then let! v10 := int_op (value * 10) in
                       let! value := int_op (v10 - (c - 48)) in Ret (inl (value, s + 1))
     else Ret (inr value)) (0, p) = Ret (- num 0 s).
Proof. intros. by apply (atoi_digits m s p 0). Qed.

(** A number as [%d] prints it. *)
Definition decimal (s : list Z) (x : Z) : Prop :=
  exists ds, s = (if bool_decide (x < 0) then [ch "-"] else []) ++ ds /\ Forall digit ds /\ ds <> [] /\ num 0 ds = Z.abs x.

Lemma iter_exit {S R} (f : S -> res (S + R)) s r n : f s = Ret (inr r) -> iter (Datatypes.S n) f s = Ret r.
Proof. intros H. simpl. by rewrite H. Qed.

Lemma atoi_decimal m p s x : decimal s x -> is_s32 x -> p <> 0 -> bytes m p (s ++ [0]) -> atoi m p = Ret x.
Proof.
  intros (ds & -> & Hds & Hne & Hnum) Hx Hp Hm. unfold is_s32 in Hx.
  pose proof (bytes_size _ _ _ Hm) as Hsz. rewrite length_app in Hsz. simpl in Hsz.
  unfold atoi. rewrite bool_decide_true by done. cbn [assert_ rbind]. unfold fuel_of at 1.
  destruct ds as [|d ds]; [done|]. inversion Hds as [|?? Hd _]; subst. unfold digit in Hd.
  case_bool_decide as Hneg; simpl in Hm, Hsz.
  - erewrite iter_exit by (rewrite (bytes_load0 _ _ _ _ Hm); done).
    cbn [rbind]. rewrite (bytes_load0 _ _ _ _ Hm). cbn [rbind].
    change (bool_decide (ch "-" = 43)) with false. change (bool_decide (ch "-" = 45)) with true. cbv beta iota.
    apply bytes_cons in Hm as [_ Hm].
    rewrite (atoi_digits_ok m (d :: ds)); [|done|done|lia|unfold fuel_of; simpl in *; lia].
    cbn [rbind]. rewrite Hnum. f_equal. lia.
  - erewrite iter_exit.
    2:{ rewrite (bytes_load0 _ _ _ _ Hm). cbn [rbind].
        replace (isspace d) with false by (unfold isspace; by rewrite !bool_decide_false by lia). done. }
    cbn [rbind]. rewrite (bytes_load0 _ _ _ _ Hm). cbn [rbind].
    rewrite (bool_decide_false (d = 43)), (bool_decide_false (d = 45)) by lia. cbv beta iota.
    rewrite (atoi_digits_ok m (d :: ds)); [|done|done|lia|unfold fuel_of; simpl in *; lia].
    cbn [rbind]. rewrite Hnum. rewrite int_op_small by lia. f_equal. lia.
Qed.

(** The conversion [%d] of a plain [int]. *)
Definition plain : printf_conversion := mkConversion 0 0 (-1) INT.

Lemma round_d {A} (output : Z -> A -> res A) m nested w aux :
  vprintf_round output m nested (literal "%d", [w], aux) =
  let! mag := (if bool_decide (s32 w < 0) then if bool_decide (s32 w = - 2 ^ 63) then Ub else Ret (- s32 w) else Ret (s32 w)) in
  let! aux := format_integer output mag true (bool_decide (s32 w < 0)) base_d plain aux in Ret (inl ([0], [], aux)).
Proof.
  unfold vprintf_round. cbn [deref head of_opt literal chars app rbind tail].
  change (bool_decide (ch "%" = 0)) with false. change (bool_decide (ch "%" <> ch "%")) with false.
  change (bool_decide (ch "d" = ch "%")) with false. cbv beta iota.
  change (parse_conversion [ch "d"; 0] [w]) with (Ret ([ch "d"; 0], plain, [w])). cbn [rbind deref head of_opt tail].
  unfold do_conversion. change (is_one_of (ch "d") "di") with true. cbv beta iota.
  cbn [signed_arg type plain va_int va_word rbind]. rewrite rbind_assoc.
  destruct (if bool_decide (s32 w < 0) then _ else _); cbn [rbind]; [|done..]. rewrite rbind_assoc. done.
Qed.


Lemma render_d m x : is_s32 x -> exists s, render m (literal "%d") [u32 x] = Ret s /\ decimal s x /\ (length s <= 11)%nat.
Proof.
  intros Hx. assert (s32 (u32 x) = x) as Hsu by (rewrite s32_u32; by apply s32_small). unfold is_s32 in Hx.
  destruct (format_integer_ok (Z.abs x) true (bool_decide (x < 0)) base_d plain) as (ds & _ & Hf & Hd);
    [split; [|done]; simpl; lia|simpl; lia|simpl; lia|].
  destruct (Hd eq_refl eq_refl eq_refl) as (Hds & Hne & Hnum & Hl).
  assert (length ds <= 10)%nat as Hlen.
  { destruct (decide (length ds <= 10)%nat); [done|]. exfalso.
    assert (10 ^ 11 <= 10 ^ Z.of_nat (length ds)) by (apply Z.pow_le_mono_r; lia). lia. }
  exists ((if bool_decide (x < 0) then [ch "-"] else []) ++ ds). split_and!.
  - unfold render, __vprintf. cbn [vprintf_depth]. change (length (literal "%d")) with 3%nat. cbn [iter].
    rewrite round_d, Hsu. replace (if bool_decide (x < 0) then _ else _) with (Ret (Z.abs x))
      by (repeat case_bool_decide; f_equal; lia).
    cbn [rbind]. rewrite Hf, output_all_collect. cbn [rbind app]. 
    unfold field, pad_cnt. change (width plain) with 0. rewrite Z2Nat.nonpos by lia.
    cbn [vprintf_round deref head of_opt rbind]. change (bool_decide (0 = 0)) with true. cbn [rbind]. f_equal.
    rewrite !app_nil_r. by destruct (bool_decide (x < 0)).
  - exists ds. done.
  - rewrite length_app. case_bool_decide; simpl; lia.
Qed.

(** ** Termination *)

Definition ends {X} (r : res X) : Prop := r <> NoFuel.

Lemma ends_bind {X Y} (r : res X) (k : X -> res Y) : ends r -> (forall x, r = Ret x -> ends (k x)) -> ends (rbind r k).
Proof. unfold ends. destruct r; simpl; auto. Qed.
Lemma ends_ret {X} (x : X) : ends (Ret x).
Proof. done. Qed.
Lemma ends_if {X} (b : bool) (x y : res X) : ends x -> ends y -> ends (if b then x else y).
Proof. by destruct b. Qed.
Lemma ends_ub {X} : ends (@Ub X).
Proof. done. Qed.
Lemma ends_of_opt {X} (o : option X) : ends (of_opt o).
Proof. by destruct o. Qed.
Lemma ends_int_op x : ends (int_op x).
Proof. unfold int_op. by case_bool_decide. Qed.
Lemma ends_aget (l : list Z) i : ends (aget l i).
Proof. unfold aget. case_decide; [apply ends_of_opt|done]. Qed.
Lemma ends_for_up {S} (f : Z -> S -> res S) : (forall k s, ends (f k s)) -> forall n i s, ends (for_up n i f s).
Proof. intros Hf n; induction n as [|n IH]; intros i s; simpl; [done|]. apply ends_bind; auto. Qed.
Lemma ends_va_word args : ends (va_word args).
Proof. by destruct args. Qed.

Create HintDb ends discriminated.
#[export] Hint Resolve ends_ret ends_ub ends_of_opt ends_int_op ends_aget ends_va_word : ends.

(** Goes through a run, call by call. *)
Ltac ends :=
  repeat first
    [ progress cbv zeta | solve [auto with ends nocore] | apply ends_for_up; intros ? ?
    | apply ends_bind; [|intros ? _] | case_match ].

Lemma ends_parse_flags format : forall fl, ends (parse_flags format fl).
Proof. induction format as [|c f IH]; intros fl; simpl; [done|]. case_match; [apply IH|done]. Qed.
Lemma ends_parse_digits format : forall v, ends (parse_digits format v).
Proof.
  induction format as [|c f IH]; intros v; cbn [parse_digits]; [done|]. case_match; [|done].
  ends.
Qed.
#[export] Hint Resolve ends_parse_flags ends_parse_digits : ends.

Lemma ends_parse_conversion format args : ends (parse_conversion format args).
Proof. unfold parse_conversion, parse_width, parse_precision, parse_type, va_int, deref. ends. Qed.
Lemma ends_signed_arg ty args : ends (signed_arg ty args).
Proof. unfold signed_arg, va_int64, va_uint64, va_unsigned, va_int. ends. Qed.
Lemma ends_unsigned_arg ty args : ends (unsigned_arg ty args).
Proof. unfold unsigned_arg, va_uint64, va_unsigned, va_int. ends. Qed.
Lemma ends_va_int args : ends (va_int args).
Proof. unfold va_int. ends. Qed.
Lemma ends_va_unsigned args : ends (va_unsigned args).
Proof. unfold va_unsigned. ends. Qed.
#[export] Hint Resolve ends_parse_conversion ends_signed_arg ends_unsigned_arg ends_va_int ends_va_unsigned : ends.

(** A scan reads another mapped byte in every round. *)
Lemma ends_strnlen m p n : ends (strnlen m p n).
Proof.
  unfold strnlen, fuel_of.
  assert (forall fuel s k, bytes m p s -> k = Z.of_nat (length s) -> (size m < fuel + length s)%nat ->
    ends (iter fuel (fun length => let! x := load m (p + length) in
       if bool_decide (x <> 0) && bool_decide (length < n) then Ret (inl (length + 1)) else Ret (inr length)) k)) as H.
  { induction fuel as [|fuel IH]; intros s k Hs -> Hf; [apply bytes_size in Hs; lia|]. cbn [iter]. unfold load.
    destruct (m !! (p + _)) as [x|] eqn:Hx; cbn [of_opt rbind]; [|done].
    destruct (bool_decide (x <> 0) && _); cbn [rbind]; [|done].
    apply (IH (s ++ [x])); rewrite ?length_app; simpl; [|lia..].
    apply bytes_app. split; [done|]. apply bytes_cons. split; [done|]. apply bytes_nil. }
  apply (H _ []); [apply bytes_nil|done|simpl; lia].
Qed.

Lemma va_unsigned_range args v args' : va_unsigned args = Ret (v, args') -> 0 <= v < 2 ^ 32.
Proof. destruct args; [done|]. intros [= <- <-]. apply u32_range. Qed.
Lemma va_int_range args v args' : va_int args = Ret (v, args') -> - 2 ^ 31 <= v < 2 ^ 31.
Proof. destruct args; [done|]. intros [= <- <-]. apply s32_range. Qed.
Lemma va_uint64_range args v args' : va_uint64 args = Ret (v, args') -> 0 <= v < 2 ^ 64.
Proof.
  intros H. apply rbind_Ret in H as ([lo ?] & Hlo & H). apply rbind_Ret in H as ([hi ?] & Hhi & [= <- <-]).
  apply va_unsigned_range in Hlo, Hhi. lia.
Qed.

Lemma signed_arg_range ty args v args' : signed_arg ty args = Ret (v, args') -> - 2 ^ 63 <= v < 2 ^ 63.
Proof.
  unfold signed_arg, va_int64, s8, s16, SIZE_MAX. intros H.
  destruct ty; try (apply va_int_range in H; lia); apply rbind_Ret in H as ([w ?] & Hw & [= <- <-]).
  - pose proof (Z.mod_pos_bound (w + 2 ^ 7) (2 ^ 8)). lia.
  - pose proof (Z.mod_pos_bound (w + 2 ^ 15) (2 ^ 16)). lia.
  - apply s64_range.
  - apply s64_range.
  - apply va_unsigned_range in Hw. case_bool_decide; lia.
Qed.

Lemma unsigned_arg_range ty args v args' : unsigned_arg ty args = Ret (v, args') -> 0 <= v < 2 ^ 64.
Proof.
  unfold unsigned_arg. intros H.
  destruct ty; try (apply va_unsigned_range in H; lia); try (apply va_uint64_range in H; lia);
    apply rbind_Ret in H as ([w ?] & Hw & [= <- <-]).
  - pose proof (u8_range w). lia.
  - unfold u16. pose proof (Z.mod_pos_bound w (2 ^ 16)). lia.
  - change (Z.lor (Z.shiftl PTRDIFF_MAX 1) 1) with (Z.ones 32). rewrite Z.land_ones by lia.
    pose proof (Z.mod_pos_bound (u64 w) (2 ^ 32)). lia.
Qed.

Section Ends.
Context {A : Type} (output : Z -> A -> res A) (m : mem).
Context (output_ends : forall c aux, ends (output c aux)).

Lemma ends_output_all s aux : ends (output_all output s aux).
Proof. revert aux; induction s as [|c s IH]; intros aux; simpl; [done|]. ends. Qed.
Lemma ends_output_dup c n aux : ends (output_dup output c n aux).
Proof. unfold output_dup. ends. Qed.

Lemma ends_format_integer value sg neg b c aux : base_ok b -> 0 <= value < 2 ^ 64 ->
  ends (format_integer output value sg neg b c aux).
Proof.
  intros Hb Hv. unfold format_integer, output_field.
  destruct (digits_ok b (flags c) value (if bool_decide (precision c < 0) then 1 else precision c) Hb Hv) as (ds & -> & _).
  cbn [rbind]. ends; auto using ends_output_all, ends_output_dup.
Qed.

Lemma ends_format_string s n c aux : (forall i, ends (s i)) -> ends (format_string output s n c aux).
Proof. intros Hs. unfold format_string. ends; auto using ends_output_dup. Qed.

(** The two messages for conversions that are not supported. *)
Definition is_message (f : list Z) : Prop :=
  f = literal "<<no %%%c in kernel>>" \/ f = literal "<<no %%%c conversion>>".

Lemma ends_message f conv aux : is_message f -> ends (vprintf_depth output m 1 f [conv] aux).
Proof.
  intros Hf. assert (exists out, vprintf_depth collect m 1 f [conv] [] = Ret out) as [out Hout].
  { destruct Hf as [-> | ->]; eexists; lazy -[u8 s32]; reflexivity. }
  destruct (lifts_vprintf output m 1 f [conv] _ _ Hout) as (o & _ & ->). apply ends_output_all.
Qed.

Lemma ends_do_conversion nested conv c args aux : (forall f aux, is_message f -> ends (nested f [conv] aux)) ->
  ends (do_conversion output m nested conv c args aux).
Proof.
  intros Hn. pose proof bases_ok as Hb. rewrite !Forall_cons in Hb. destruct Hb as (Hd & Ho & Hx & HX & _).
  unfold do_conversion. repeat (apply ends_if; [|]).
  - apply ends_bind; [auto with ends|]. intros [v args'] Hv. apply signed_arg_range in Hv.
    apply ends_bind; [by repeat case_match|]. intros mag Hm. apply ends_bind; [|done].
    apply ends_format_integer; [done|]. repeat case_bool_decide; simplify_eq; lia.
  - apply ends_bind; [auto with ends|]. intros [v args'] Hv. apply unsigned_arg_range in Hv.
    apply ends_bind; [|done]. apply ends_format_integer; [by repeat case_match|done].
  - apply ends_bind; [auto with ends|]. intros [v args'] _. apply ends_bind; [|done].
    apply ends_format_string. auto with ends.
  - apply ends_bind; [auto with ends|]. intros [q args'] _. case_match.
    apply ends_bind; [apply ends_strnlen|]. intros n _. apply ends_bind; [|done].
    apply ends_format_string. intros k. unfold load. auto with ends.
  - apply ends_bind; [auto with ends|]. intros [q args'] Hq. apply va_unsigned_range in Hq.
    apply ends_bind; [|done]. apply ends_format_integer; [done|lia].
  - apply ends_bind; [|done]. apply Hn. by left.
  - apply ends_bind; [|done]. apply Hn. by right.
Qed.
End Ends.

(** What is parsed gets no longer. *)
Lemma parse_flags_shrinks format : forall fl f fl', parse_flags format fl = Ret (f, fl') -> (length f <= length format)%nat.
Proof.
  induction format as [|c f IH]; intros fl f' fl' H; simpl in H; [done|].
  case_match; [apply IH in H; simpl; lia|]. by simplify_eq.
Qed.
Lemma parse_digits_shrinks format : forall v f v', parse_digits format v = Ret (f, v') -> (length f <= length format)%nat.
Proof.
  induction format as [|c f IH]; intros v f' v' H; cbn [parse_digits] in H; [done|].
  case_match; [|by simplify_eq]. apply rbind_Ret in H as (? & _ & H). apply rbind_Ret in H as (? & _ & H).
  apply rbind_Ret in H as (? & _ & H). apply IH in H. simpl. lia.
Qed.
Lemma tail_shrinks (f : list Z) : (length (tail f) <= length f)%nat.
Proof. destruct f; simpl; lia. Qed.

Lemma parse_width_shrinks format args f w args' : parse_width format args = Ret (f, w, args') -> (length f <= length format)%nat.
Proof.
  unfold parse_width. intros H. apply rbind_Ret in H as (c & _ & H). case_match; apply rbind_Ret in H as ([? ?] & Hd & H);
    simplify_eq; [apply tail_shrinks|by eapply parse_digits_shrinks].
Qed.
Lemma parse_precision_shrinks format args f w args' :
  parse_precision format args = Ret (f, w, args') -> (length f <= length format)%nat.
Proof.
  unfold parse_precision. intros H. apply rbind_Ret in H as (c & _ & H). pose proof (tail_shrinks format).
  case_match; [|by simplify_eq]. apply rbind_Ret in H as (d & _ & H). apply rbind_Ret in H as ([[f1 ?] ?] & Hf1 & H).
  injection H as -> _ _. case_match; apply rbind_Ret in Hf1 as ([? ?] & Hd & Hf1); simplify_eq.
  - pose proof (tail_shrinks (tail format)). lia.
  - apply parse_digits_shrinks in Hd. lia.
Qed.
Lemma parse_type_shrinks format f ty : parse_type format = Ret (f, ty) -> (length f <= length format)%nat.
Proof.
  unfold parse_type. intros H. apply rbind_Ret in H as (c & _ & H).
  pose proof (tail_shrinks format). pose proof (tail_shrinks (tail format)).
  repeat case_match; try (apply rbind_Ret in H as (d & _ & H)); repeat case_match; simplify_eq; lia.
Qed.

Lemma parse_conversion_shrinks format args f c args' :
  parse_conversion format args = Ret (f, c, args') -> (length f <= length format)%nat.
Proof.
  unfold parse_conversion. intros H. apply rbind_Ret in H as ([f1 fl] & H1 & H).
  apply rbind_Ret in H as ([[f2 w] args1] & H2 & H). apply rbind_Ret in H as ([? ?] & _ & H).
  apply rbind_Ret in H as ([[f3 pr] args2] & H3 & H). apply rbind_Ret in H as ([f4 ty] & H4 & H). simplify_eq.
  apply parse_flags_shrinks in H1. apply parse_width_shrinks in H2. apply parse_precision_shrinks in H3.
  apply parse_type_shrinks in H4. lia.
Qed.

Section Loop.
Context {A : Type} (output : Z -> A -> res A) (m : mem).
Context (output_ends : forall c aux, ends (output c aux)).

Lemma round_shrinks nested format args aux f args' aux' :
  vprintf_round output m nested (format, args, aux) = Ret (inl (f, args', aux')) -> (length f < length format)%nat.
Proof.
  unfold vprintf_round. intros H. apply rbind_Ret in H as (c & Hc & H).
  destruct format as [|c' format]; [done|]. cbn [tail] in H. pose proof (tail_shrinks format).
  case_match; [done|]. case_match; [apply rbind_Ret in H as (? & _ & H); simplify_eq; simpl; lia|].
  apply rbind_Ret in H as (d & Hd & H).
  case_match; [apply rbind_Ret in H as (? & _ & H); simplify_eq; simpl; lia|].
  apply rbind_Ret in H as ([[f1 cv] args1] & Hp & H). apply rbind_Ret in H as (conv & _ & H).
  apply rbind_Ret in H as ([args2 aux2] & _ & H). simplify_eq. apply parse_conversion_shrinks in Hp.
  pose proof (tail_shrinks f1). simpl. lia.
Qed.

Lemma ends_vprintf format args aux : ends (__vprintf output m format args aux).
Proof.
  unfold __vprintf. generalize (le_n (S (length format))). cbn [vprintf_depth].
  generalize (S (length format)) at 2 3 as fuel. intros fuel. revert format args aux.
  induction fuel as [|fuel IH]; intros format args aux Hf; [lia|]. cbn [iter]. apply ends_bind.
  - unfold vprintf_round. unfold deref. ends. apply ends_do_conversion; [done|]. intros. by apply ends_message.
  - intros [[[f args'] aux']|r] Hr; [|done]. apply IH. apply round_shrinks in Hr. lia.
Qed.
End Loop.

(** A print ends: for every format, every argument list and every memory, and for any
    function that takes the characters and returns, the loop over the format consumes the
    format, the digit loops stay within their array of 64 bytes, and the scan of a string
    argument reads a new byte in every round. *)
Theorem vprintf_terminates {A} (output : Z -> A -> res A) m format args aux :
  (forall c a, output c a <> NoFuel) -> __vprintf output m format args aux <> NoFuel.
Proof. intros H. exact (ends_vprintf output m H format args aux). Qed.

Lemma vprintf_terminates_witness : __vprintf collect ∅ (literal "%s%") [5; 6] [] <> NoFuel.
Proof. apply (vprintf_terminates collect). discriminate. Defined.

(** C36. Printing an [int] with [%d] and reading it back with [atoi] gives the same number,
    for every [int] and every buffer of at least 12 bytes, wherever the buffer is. *)
Theorem snprintf_atoi m buf buf_size x :
  is_s32 x -> 12 <= buf_size <= 2 ^ 31 -> buf_size <= Z.of_nat (length buf) ->
  exists buf' n, snprintf m buf buf_size (literal "%d") [u32 x] = Ret (buf', n) /\ length buf' = length buf /\
    forall m' p, p <> NULL -> bytes m' p buf' -> atoi m' p = Ret x.
Proof.
  intros Hx Hs Hb. destruct (render_d m x Hx) as (s & Hr & Hd & Hl).
  eexists _, _. split; [apply (vsnprintf_render _ _ _ _ _ _ Hr); lia|]. unfold printed. rewrite decide_False by lia.
  rewrite take_ge by lia. split.
  - rewrite length_app, length_drop, length_app. simpl. lia.
  - intros m' p Hp Hm. apply bytes_app in Hm as [Hm _]. by apply (atoi_decimal _ _ s).
Qed.

Lemma snprintf_atoi_witness : exists buf' n,
  snprintf ∅ (replicate 16 7) 12 (literal "%d") [u32 (- 2 ^ 31)] = Ret (buf', n) /\ length buf' = 16%nat /\
  forall m' p, p <> NULL -> bytes m' p buf' -> atoi m' p = Ret (- 2 ^ 31).
Proof. apply (snprintf_atoi ∅ (replicate 16 7) 12 (- 2 ^ 31)); [unfold is_s32; lia|lia|simpl; lia]. Defined.

(** C39. A print into a buffer of [buf_size] bytes returns the number of characters of the
    whole output and stores as many of them as fit, followed by a null byte; every other
    byte of the buffer keeps its value, and nothing is stored when [buf_size] is 0. *)
Theorem vsnprintf_output m buf buf_size format args out :
  render m format args = Ret out -> 0 <= buf_size <= 2 ^ 31 -> buf_size <= Z.of_nat (length buf) ->
  Z.of_nat (length out) < 2 ^ 31 ->
  vsnprintf m buf buf_size format args = Ret (printed buf buf_size out, Z.of_nat (length out)).
Proof. exact (vsnprintf_render m buf buf_size format args out). Qed.

Lemma vsnprintf_output_witness :
  vsnprintf ∅ (replicate 8 7) 6 (literal "<%-4d%#x>") [42; 255] =
  Ret (chars "<42  " ++ [0; 7; 7], 10).
Proof.
  apply (vsnprintf_output ∅ (replicate 8 7) 6 _ _ (chars "<42  0xff>")); [vm_compute; reflexivity|lia|simpl; lia|simpl; lia].
Defined.

(** A negative width argument with the flag [0] pads on both sides. *)
Lemma zero_pad_negative_width m : render m (literal "%0*d") [u32 (-5); 42] = Ret (chars "00042   ").
Proof. vm_compute. reflexivity. Qed.

(** A format that ends in [%] is read behind its null byte. *)
Lemma percent_at_end m args : render m (literal "ok%") args = Ub.
Proof. lazy. reflexivity. Qed.
