(* ===== verification/Console.v ===== *)
(** * lib/kernel/console.c and the console output of lib/stdio.c

    The console as the calling thread sees it: whether that thread has the console lock
    (the lock is free otherwise), the depth of nested calls, and the bytes sent to the
    display and the serial port.  [intr] says whether the call comes from an interrupt
    handler. *)

From Stdlib Require Import Ascii String.
From S2P Require Import Prelude Cstring CstringProof Stdlibc Stdio StdioProof.

Record console := mkConsole {
  use_console_lock : bool;
  has_console_lock : bool;
  console_lock_depth : Z;
  write_cnt : Z;
  shown : list Z
}.

Definition set_lock (held : bool) (depth : Z) (c : console) : console :=
  mkConsole (use_console_lock c) held depth (write_cnt c) (shown c).

Definition console_init (c : console) : console :=
  mkConsole true false (console_lock_depth c) (write_cnt c) (shown c).

Definition console_panic (c : console) : console :=
  mkConsole false (has_console_lock c) (console_lock_depth c) (write_cnt c) (shown c).

Section Console.
Context (intr : bool).

Definition acquire_console (c : console) : res console :=
  if negb intr && use_console_lock c then
    if has_console_lock c
    then let! d := int_op (console_lock_depth c + 1) in Ret (set_lock true d c)
    else Ret (set_lock true (console_lock_depth c) c)
  else Ret c.

(** [lock_release] asserts that the caller holds the lock. *)
Definition release_console (c : console) : res console :=
  if negb intr && use_console_lock c then
    if bool_decide (console_lock_depth c > 0)
    then Ret (set_lock (has_console_lock c) (console_lock_depth c - 1) c)
    else ASSERT (has_console_lock c); Ret (set_lock false (console_lock_depth c) c)
  else Ret c.

Definition console_locked_by_current_thread (c : console) : bool :=
  intr || negb (use_console_lock c) || has_console_lock c.

Definition putchar_have_lock (ch : Z) (c : console) : res console :=
  ASSERT (console_locked_by_current_thread c);
  if bool_decide (write_cnt c + 1 < 2 ^ 63)
  then Ret (mkConsole (use_console_lock c) (has_console_lock c) (console_lock_depth c) (write_cnt c + 1) (shown c ++ [u8 ch]))
  else Ub.

Definition vprintf_helper (ch : Z) (st : Z * console) : res (Z * console) :=
  let '(char_cnt, c) := st in
  let! char_cnt := int_op (char_cnt + 1) in
  let! c := putchar_have_lock ch c in
  Ret (char_cnt, c).

Definition vprintf (m : mem) (format args : list Z) (c : console) : res (Z * console) :=
  let! c := acquire_console c in
  let! '(char_cnt, c) := __vprintf vprintf_helper m format args (0, c) in
  let! c := release_console c in
  Ret (char_cnt, c).

Definition puts (m : mem) (s : Z) (c : console) : res (Z * console) :=
  let! c := acquire_console c in
  let! c := iter (fuel_of m)
    (fun '(s, c) =>
       let! x := load m s in
       if bool_decide (x <> 0) then let! c := putchar_have_lock x c in Ret (inl (s + 1, c)) else Ret (inr c)) (s, c) in
  let! c := putchar_have_lock (ch "010") c in
  let! c := release_console c in
  Ret (0, c).

Definition putbuf (m : mem) (buffer n : Z) (c : console) : res console :=
  let! c := acquire_console c in
  let! c := for_up (Z.to_nat n) 0 (fun i c => let! x := load m (buffer + i) in putchar_have_lock x c) c in
  release_console c.

Definition putchar (x : Z) (c : console) : res (Z * console) :=
  let! c := acquire_console c in
  let! c := putchar_have_lock x c in
  let! c := release_console c in
  Ret (x, c).

Definition printf (m : mem) (format args : list Z) (c : console) : res (Z * console) := vprintf m format args c.

(** A call of [printf] whose result is not used; the strings of [hex_dump] take no
    pointers. *)
Definition print (format : string) (args : list Z) (c : console) : res console :=
  let! '(_, c) := printf ∅ (literal format) args c in Ret c.

Definition console_print_stats (c : console) : res console :=
  print ("Console: %lld characters output" ++ String "010" EmptyString)
    [write_cnt c mod 2 ^ 32; write_cnt c / 2 ^ 32 mod 2 ^ 32] c.

Definition isprint (c : Z) : bool := bool_decide (32 <= c) && bool_decide (c < 127).

(** [for (i = from; i < to; i++) body] *)
Definition for_to (from to : Z) (body : Z -> console -> res console) (c : console) : res console :=
  for_up (Z.to_nat (to - from)) from body c.

(** One line of [hex_dump]: the bytes [buf] of the line are at positions [start] to [end_]. *)
Definition dump_line (ofs : Z) (buf : list Z) (start end_ : Z) (ascii : bool) (c : console) : res console :=
  let line := ofs - ofs mod 16 in
  let! c := print "%08jx  " [line mod 2 ^ 32; 0] c in
  let! c := for_to 0 start (fun _ c => print "   " [] c) c in
  let! c := for_to start end_ (fun i c =>
    let! x := aget buf (i - start) in
    print "%02hhx%c" [x; if bool_decide (i = 16 / 2 - 1) then ch "-" else ch " "] c) c in
  let! c := (if ascii then
      let! c := for_to end_ 16 (fun _ c => print "   " [] c) c in
      let! c := print "|" [] c in
      let! c := for_to 0 start (fun _ c => print " " [] c) c in
      let! c := for_to start end_ (fun i c =>
        let! x := aget buf (i - start) in
        print "%c" [if isprint x then x else ch "."] c) c in
      let! c := for_to end_ 16 (fun _ c => print " " [] c) c in
      print "|" [] c
    else Ret c) in
  print (String "010" EmptyString) [] c.

Definition hex_dump (ofs : Z) (buf : list Z) (size : Z) (ascii : bool) (c : console) : res console :=
  iter (S (Z.to_nat size))
    (fun '(ofs, buf, size, c) =>
       if bool_decide (size > 0) then
         let start := ofs mod 16 in
         let end_ := if bool_decide (16 - start > size) then start + size else 16 in
         let n := end_ - start in
         let! c := dump_line ofs buf start end_ ascii c in
         Ret (inl (u32 (ofs + n), drop (Z.to_nat n) buf, size - n, c))
       else Ret (inr c))
    (ofs, buf, size, c).
End Console.

(** ** Proofs *)

(** The console after [out] was shown: nothing else changes, the lock included. *)
Definition show (out : list Z) (c : console) : console :=
  mkConsole (use_console_lock c) (has_console_lock c) (console_lock_depth c)
    (write_cnt c + Z.of_nat (length out)) (shown c ++ out).

Record console_ok (c : console) : Prop := {
  ok_depth : 0 <= console_lock_depth c < 2 ^ 31 - 1;
  ok_held : 0 < console_lock_depth c -> has_console_lock c = true
}.

Section Proofs.
Context (intr : bool).

(** The console between [acquire_console] and [release_console]. *)
Record locked (c c' : console) : Prop := {
  lk_shown : shown c' = shown c;
  lk_count : write_cnt c' = write_cnt c;
  lk_owner : console_locked_by_current_thread intr c' = true;
  lk_back : forall out, release_console intr (show out c') = Ret (show out c)
}.

Lemma acquire_ok c : console_ok c -> exists c', acquire_console intr c = Ret c' /\ locked c c'.
Proof.
  intros [Hd Hh]. unfold acquire_console. destruct c as [u h d w s]; simpl in *. destruct intr eqn:Hi, u; simpl.
  1,2,4: eexists; split; [done|]; split; [done..| |]; unfold console_locked_by_current_thread, release_console;
    simpl; rewrite ?Hi; done.
  destruct h; simpl.
  - rewrite int_op_small by lia. eexists; split; [done|]. split; [done..| |]; simpl.
    + unfold console_locked_by_current_thread; simpl. by rewrite orb_true_r.
    + intros out. unfold release_console; simpl. rewrite Hi. simpl. rewrite bool_decide_true by lia.
      unfold set_lock, show; simpl. do 2 f_equal. lia.
  - eexists; split; [done|]. split; [done..| |]; simpl.
    + unfold console_locked_by_current_thread; simpl. by rewrite orb_true_r.
    + intros out. unfold release_console; simpl. rewrite Hi. simpl. rewrite bool_decide_false; [done|].
      intros ?. by discriminate Hh; lia.
Qed.

Lemma show_locked out c : console_locked_by_current_thread intr (show out c) = console_locked_by_current_thread intr c.
Proof. done. Qed.

Lemma show_app s t c : show t (show s c) = show (s ++ t) c.
Proof. unfold show; simpl. rewrite length_app, app_assoc. f_equal. lia. Qed.

Lemma show_nil c : show [] c = c.
Proof. destruct c; unfold show; simpl. by rewrite Z.add_0_r, app_nil_r. Qed.

Lemma putchar_ok x c : console_locked_by_current_thread intr c = true -> write_cnt c + 1 < 2 ^ 63 ->
  putchar_have_lock intr x c = Ret (show [u8 x] c).
Proof. intros Hl Hw. unfold putchar_have_lock. rewrite Hl. cbn [assert_ rbind]. by rewrite bool_decide_true. Qed.

Lemma helper_shows out : forall k c, console_locked_by_current_thread intr c = true ->
  0 <= k -> k + Z.of_nat (length out) < 2 ^ 31 -> write_cnt c + Z.of_nat (length out) < 2 ^ 63 ->
  output_all (vprintf_helper intr) out (k, c) = Ret (k + Z.of_nat (length out), show (u8 <$> out) c).
Proof.
  induction out as [|x out IH]; intros k c Hl Hk Hn Hw; cbn [output_all length] in *.
  - simpl. by rewrite show_nil, Z.add_0_r.
  - unfold vprintf_helper at 1. rewrite int_op_small by lia. cbn [rbind]. rewrite putchar_ok by (done || lia).
    cbn [rbind]. rewrite IH by (simpl; done || lia). rewrite show_app. do 2 f_equal. lia.
Qed.

Lemma vprintf_shows m format args out c : console_ok c -> render m format args = Ret out ->
  Z.of_nat (length out) < 2 ^ 31 -> write_cnt c + Z.of_nat (length out) < 2 ^ 63 ->
  vprintf intr m format args c = Ret (Z.of_nat (length out), show (u8 <$> out) c).
Proof.
  intros Hc Hr Hn Hw. unfold vprintf. destruct (acquire_ok c Hc) as (c' & -> & [Hs Hcnt Ho Hb]). cbn [rbind].
  rewrite (vprintf_render _ _ _ _ _ _ Hr), helper_shows by (done || lia). cbn [rbind]. by rewrite Hb.
Qed.

Lemma puts_loop m : forall s p c fuel, bytes m p (s ++ [0]) -> Forall (fun x => 0 < x < 256) s ->
  console_locked_by_current_thread intr c = true -> write_cnt c + Z.of_nat (length s) < 2 ^ 63 -> (length s < fuel)%nat ->
  iter fuel (fun '(s, c) =>
    let! x := load m s in
    if bool_decide (x <> 0) then let! c := putchar_have_lock intr x c in Ret (inl (s + 1, c)) else Ret (inr c)) (p, c) =
  Ret (show s c).
Proof.
  induction s as [|x s IH]; intros p c [|fuel] Hm Hs Hl Hw Hf; simpl in Hf, Hw, Hm; try lia; cbn [iter];
    rewrite (bytes_load0 _ _ _ _ Hm); cbn [rbind].
  - rewrite show_nil. done.
  - inversion Hs; subst. rewrite bool_decide_true by lia. rewrite putchar_ok by (done || lia). cbn [rbind].
    rewrite u8_small by lia. apply bytes_cons in Hm as [_ Hm].
    rewrite IH; [by rewrite show_app|done|done|done|simpl; lia|lia].
Qed.

Lemma puts_shows m p s c : console_ok c -> cstr m p s -> write_cnt c + Z.of_nat (length s) + 1 < 2 ^ 63 ->
  puts intr m p c = Ret (0, show (s ++ [10]) c).
Proof.
  intros Hc Hp Hw. unfold puts. destruct (acquire_ok c Hc) as (c' & -> & [Hs Hcnt Ho Hb]). cbn [rbind].
  rewrite (puts_loop m s); [|apply Hp|apply Hp|done|lia|apply cstr_size in Hp; unfold fuel_of; lia].
  cbn [rbind]. rewrite putchar_ok by (simpl; done || lia). cbn [rbind]. by rewrite show_app, Hb.
Qed.

Lemma putbuf_loop m : forall l p c i, bytes m (p + i) l -> Forall is_u8 l ->
  console_locked_by_current_thread intr c = true -> write_cnt c + Z.of_nat (length l) < 2 ^ 63 ->
  for_up (length l) i (fun i c => let! x := load m (p + i) in putchar_have_lock intr x c) c = Ret (show l c).
Proof.
  induction l as [|x l IH]; intros p c i Hm Hs Hl Hw; cbn [length for_up] in *; [by rewrite show_nil|].
  rewrite (bytes_load0 _ _ _ _ Hm). cbn [rbind]. inversion Hs; subst. rewrite putchar_ok by (done || lia). cbn [rbind].
  rewrite u8_small by done. apply bytes_cons in Hm as [_ Hm].
  rewrite IH; [by rewrite show_app|by rewrite Z.add_assoc|done|done|simpl; lia].
Qed.

Lemma putbuf_shows m p l c : console_ok c -> bytes m p l -> Forall is_u8 l -> write_cnt c + Z.of_nat (length l) < 2 ^ 63 ->
  putbuf intr m p (Z.of_nat (length l)) c = Ret (show l c).
Proof.
  intros Hc Hp Hl Hw. unfold putbuf. destruct (acquire_ok c Hc) as (c' & -> & [Hs Hcnt Ho Hb]). cbn [rbind].
  rewrite Nat2Z.id, putbuf_loop by (rewrite ?Z.add_0_r; done || lia). cbn [rbind]. apply Hb.
Qed.
End Proofs.

(** Every call of the console shows exactly its characters, counts them and leaves the
    console lock as it was, also from an interrupt handler and inside another call:
    [vprintf] what its format prints, [puts] the string and a new-line, [putbuf] the
    bytes of the buffer, [putchar] one character. *)
Theorem console_output (intr : bool) (m : mem) (c : console) (n : Z) :
  console_ok c -> write_cnt c + n < 2 ^ 63 ->
  (forall format args out, render m format args = Ret out -> Z.of_nat (length out) <= n -> n < 2 ^ 31 ->
     vprintf intr m format args c = Ret (Z.of_nat (length out), show (u8 <$> out) c)) /\
  (forall p s, cstr m p s -> Z.of_nat (length s) < n -> puts intr m p c = Ret (0, show (s ++ [10]) c)) /\
  (forall p l, bytes m p l -> Forall is_u8 l -> Z.of_nat (length l) <= n ->
     putbuf intr m p (Z.of_nat (length l)) c = Ret (show l c)) /\
  (forall x, 1 <= n -> putchar intr x c = Ret (x, show [u8 x] c)).
Proof.
  intros Hc Hw. split_and!.
  - intros. apply vprintf_shows; (done || lia).
  - intros. apply puts_shows; (done || lia).
  - intros. apply putbuf_shows; (done || lia).
  - intros x Hn. unfold putchar. destruct (acquire_ok intr c Hc) as (c' & -> & [Hs Hcnt Ho Hb]). cbn [rbind].
    rewrite putchar_ok by (done || lia). cbn [rbind]. by rewrite Hb.
Qed.

Definition quiet : console := mkConsole true false 0 0 [].

Lemma console_output_witness :
  console_ok quiet /\ vprintf false ∅ (literal "%d%%") [7] quiet = Ret (2, show (chars "7%") quiet) /\
  putchar true 65 quiet = Ret (65, show [65] quiet).
Proof.
  split; [by split|]. destruct (console_output false ∅ quiet 10) as (H & _); [by split|done|].
  destruct (console_output true ∅ quiet 10) as (_ & _ & _ & H'); [by split|done|].
  split; [apply (H _ _ (chars "7%")); done|apply H'; lia].
Defined.

(** A dump of five bytes at address 0x10c, with its text. *)
Example hex_dump_demo : (let! c := hex_dump false 268 [80; 105; 110; 116; 0] 5 true quiet in Ret (shown c)) =
  Ret (chars "00000100                                      50 69 6e 74 |            Pint|" ++ [10] ++
       chars "00000110  00                                              |.               |" ++ [10]).
Proof. vm_compute. reflexivity. Qed.
