(* ===== verification/CommandLine.v ===== *)
(** * threads/init.c: the kernel command line

    The loader leaves the words of the command line, each with its null byte, in its own
    sector.  [read_command_line] makes the array of pointers to them, [parse_options]
    handles the options in front and [run_actions] performs the actions that follow.
    Memory is that of [Cstring.v]; [lit] gives the addresses of the string constants;
    [process_run] stands for [process_wait (process_execute (task))] and [fsutil] for the
    functions of fsutil.c, which get the characters of their argument. *)

From Stdlib Require Import String.
From S2P Require Import Prelude Vaddr Cstring CstringProof Stdlibc Pagedir Stdio StdioProof.
#[local] Open Scope Z_scope.

(** ** loader.h *)

Definition LOADER_END : Z := 0x7e00.
Definition LOADER_SIG_LEN : Z := 2.
Definition LOADER_ARGS_LEN : Z := 128.
Definition LOADER_ARG_CNT_LEN : Z := 4.
Definition LOADER_SIG : Z := LOADER_END - LOADER_SIG_LEN.
Definition LOADER_ARGS : Z := LOADER_SIG - LOADER_ARGS_LEN.
Definition LOADER_ARG_CNT : Z := LOADER_ARGS - LOADER_ARG_CNT_LEN.

(** ** State *)

Inductive fs_action := FLs | FCat | FRm | FPut | FGet.

Section CommandLine.
Context {W : Type} (lit : string -> Z).
Context (process_run : list Z -> W -> res W) (fsutil : fs_action -> list Z -> W -> res W).

Record kernel := mkKernel {
  k_mem : mem;
  power_off_when_done : bool;
  format_filesys : bool;
  thread_mlfqs : bool;
  user_page_limit : Z;
  random_seed : option Z;            (* the last call of [random_init] *)
  messages : list (string * list Z); (* calls of [printf] with a string, latest first *)
  world : W
}.

Definition set_mem (m : mem) (k : kernel) : kernel :=
  mkKernel m (power_off_when_done k) (format_filesys k) (thread_mlfqs k) (user_page_limit k) (random_seed k) (messages k) (world k).
Definition set_q (k : kernel) : kernel :=
  mkKernel (k_mem k) true (format_filesys k) (thread_mlfqs k) (user_page_limit k) (random_seed k) (messages k) (world k).
Definition set_f (k : kernel) : kernel :=
  mkKernel (k_mem k) (power_off_when_done k) true (thread_mlfqs k) (user_page_limit k) (random_seed k) (messages k) (world k).
Definition set_mlfqs (k : kernel) : kernel :=
  mkKernel (k_mem k) (power_off_when_done k) (format_filesys k) true (user_page_limit k) (random_seed k) (messages k) (world k).
Definition set_ul (n : Z) (k : kernel) : kernel :=
  mkKernel (k_mem k) (power_off_when_done k) (format_filesys k) (thread_mlfqs k) n (random_seed k) (messages k) (world k).
Definition set_seed (n : Z) (k : kernel) : kernel :=
  mkKernel (k_mem k) (power_off_when_done k) (format_filesys k) (thread_mlfqs k) (user_page_limit k) (Some n) (messages k) (world k).
Definition say (format : string) (s : list Z) (k : kernel) : kernel :=
  mkKernel (k_mem k) (power_off_when_done k) (format_filesys k) (thread_mlfqs k) (user_page_limit k) (random_seed k)
    ((format, s) :: messages k) (world k).
Definition set_world (w : W) (k : kernel) : kernel :=
  mkKernel (k_mem k) (power_off_when_done k) (format_filesys k) (thread_mlfqs k) (user_page_limit k) (random_seed k) (messages k) w.

(** The characters of the string at [p]. *)
Definition get_str (m : mem) (p : Z) : res (list Z) :=
  let! n := strlen m p in
  (fix go (n : nat) (p : Z) : res (list Z) :=
     match n with
     | O => Ret []
     | S n => let! c := load m p in let! s := go n (p + 1) in Ret (c :: s)
     end) (Z.to_nat n) p.

(** ** Words *)

(** [argv] has an entry for every two bytes of the area, and one for the null pointer. *)
Definition argv_len : nat := Z.to_nat (LOADER_ARGS_LEN / 2 + 1).

Definition print_word (k : kernel) (p : Z) : res kernel :=
  let! r := strchr (k_mem k) p 32 in
  let! s := get_str (k_mem k) p in
  Ret (if bool_decide (r = NULL) then say " %s" s k else say " '%s'" s k).

Definition read_command_line (k : kernel) : res (kernel * list Z) :=
  let! cnt := ptov LOADER_ARG_CNT in
  let! argc := load32 (k_mem k) cnt in
  let argc := s32 argc in
  let! p := ptov LOADER_ARGS in
  let e := p + LOADER_ARGS_LEN in
  let! '(argv, _) := for_up (Z.to_nat argc) 0
    (fun i '(argv, p) =>
       ASSERT (negb (bool_decide (p >= e)));
       let! argv := aset argv i p in
       let! n := strnlen (k_mem k) p (e - p) in
       Ret (argv, p + n + 1)) (replicate argv_len NULL, p) in
  let! argv := aset argv argc NULL in
  let! k := for_up (Z.to_nat argc) 0
    (fun i k => let! q := aget argv i in print_word k q) (say "Kernel command line:" [] k) in
  Ret (say "\n" [] k, argv).

(** ** Options *)

(** [true] when [usage] was called, which does not return. *)
Definition parse_option (k : kernel) (word : Z) : res (kernel * bool) :=
  let! '(m, save_ptr, name) := strtok_r (k_mem k) word (lit "=") NULL in
  let! '(m, _, value) := strtok_r m NULL (lit EmptyString) save_ptr in
  let k := set_mem m k in
  let! c := strcmp m name (lit "-h") in
  if bool_decide (c = 0) then Ret (k, true) else
  let! c := strcmp m name (lit "-q") in
  if bool_decide (c = 0) then Ret (set_q k, false) else
  let! c := strcmp m name (lit "-f") in
  if bool_decide (c = 0) then Ret (set_f k, false) else
  let! c := strcmp m name (lit "-rs") in
  if bool_decide (c = 0) then let! n := atoi m value in Ret (set_seed (u32 n) k, false) else
  let! c := strcmp m name (lit "-mlfqs") in
  if bool_decide (c = 0) then Ret (set_mlfqs k, false) else
  let! c := strcmp m name (lit "-ul") in
  if bool_decide (c = 0) then let! n := atoi m value in Ret (set_ul (u32 n) k, false)
  else Panic.

(** The first entry that is not an option; [None] when [usage] was called. *)
Definition parse_options (argv : list Z) (k : kernel) : res (kernel * option Z) :=
  iter (S argv_len)
    (fun '(k, i) =>
       let! p := aget argv i in
       if bool_decide (p = NULL) then Ret (inr (k, Some i))
       else
         let! c := load (k_mem k) p in
         if bool_decide (c = 45) then
           let! '(k, off) := parse_option k p in
           if (off : bool) then Ret (inr (k, None)) else Ret (inl (k, i + 1))
         else Ret (inr (k, Some i)))
    (k, 0).

(** ** Actions *)

Definition run_task (argv : list Z) (i : Z) (k : kernel) : res kernel :=
  let! task := aget argv (i + 1) in
  let! s := get_str (k_mem k) task in
  let k := say "Executing '%s':\n" s k in
  let! w := process_run s (world k) in
  Ret (say "Execution of '%s' complete.\n" s (set_world w k)).

Definition run_fsutil (f : fs_action) (argv : list Z) (i : Z) (k : kernel) : res kernel :=
  let! s := (if f is FLs then Ret [] else let! p := aget argv (i + 1) in get_str (k_mem k) p) in
  let! w := fsutil f s (world k) in
  Ret (set_world w k).

Definition actions : list (string * Z * (list Z -> Z -> kernel -> res kernel)) :=
  [("run"%string, 2, run_task); ("ls"%string, 1, run_fsutil FLs); ("cat"%string, 2, run_fsutil FCat);
   ("rm"%string, 2, run_fsutil FRm); ("put"%string, 2, run_fsutil FPut); ("get"%string, 2, run_fsutil FGet)].

(** The search for an action's name; the end of the table is a panic. *)
Fixpoint find_action (m : mem) (p : Z) (l : list (string * Z * (list Z -> Z -> kernel -> res kernel))) :
    res (Z * (list Z -> Z -> kernel -> res kernel)) :=
  match l with
  | [] => Panic
  | (name, argc, f) :: l =>
      let! c := strcmp m p (lit name) in
      if bool_decide (c = 0) then Ret (argc, f) else find_action m p l
  end.

Definition run_actions (argv : list Z) (i : Z) (k : kernel) : res kernel :=
  iter (S argv_len)
    (fun '(k, i) =>
       let! p := aget argv i in
       if bool_decide (p = NULL) then Ret (inr k)
       else
         let! '(argc, f) := find_action (k_mem k) p actions in
         let! _ := for_up (Z.to_nat (argc - 1)) 1
                     (fun j _ => let! q := aget argv (i + j) in ASSERT (bool_decide (q <> NULL)); Ret tt) tt in
         let! k := f argv i k in
         Ret (inl (k, i + argc)))
    (k, i).

(** The parts of [main] that deal with the command line: [true] when [usage] was called
    before any action. *)
Definition run_command_line (k : kernel) : res (kernel * bool) :=
  let! '(k, argv) := read_command_line k in
  let! '(k, o) := parse_options argv k in
  match o with
  | None => Ret (k, true)
  | Some i => let! k := run_actions argv i k in Ret (k, false)
  end.
End CommandLine.
