(* ===== verification/CommandProof.v ===== *)
(** * The kernel command line is understood

    The words the loader left are read back exactly, every option takes effect and every
    action is performed in order with its argument. *)

From Stdlib Require Import String.
From S2P Require Import Prelude Vaddr Cstring CstringProof Stdlibc Pagedir PagedirProof Stdio StdioProof CommandLine.
#[local] Open Scope Z_scope.

(** ** The words in memory *)

Definition packed (ws : list (list Z)) : list Z := ws ≫= fun w => w ++ [0].
Definition offset (ws : list (list Z)) (i : nat) : Z := Z.of_nat (length (packed (take i ws))).
Definition area : Z := PHYS_BASE + LOADER_ARGS.
Definition place (ws : list (list Z)) (i : nat) : Z := area + offset ws i.

Lemma packed_split ws i w : ws !! i = Some w -> packed ws = packed (take i ws) ++ (w ++ [0]) ++ packed (drop (S i) ws).
Proof.
  intros E. rewrite <- (take_drop_middle ws i w E) at 1. unfold packed. rewrite bind_app. cbn [mbind list_bind]. done.
Qed.

Lemma offset_0 ws : offset ws 0 = 0.
Proof. done. Qed.

Lemma offset_S ws i w : ws !! i = Some w -> offset ws (S i) = offset ws i + Z.of_nat (length w) + 1.
Proof.
  intros E. unfold offset. rewrite (take_S_r ws i w E). unfold packed. rewrite bind_app, length_app. cbn [mbind list_bind].
  rewrite app_nil_r, length_app. simpl. lia.
Qed.

Lemma offset_end ws i w : ws !! i = Some w -> offset ws i + Z.of_nat (length w) + 1 <= Z.of_nat (length (packed ws)).
Proof. intros E. rewrite (packed_split ws i w E), !length_app. unfold offset. simpl. lia. Qed.

Lemma offset_mono ws i j : (i <= j)%nat -> offset ws i <= offset ws j.
Proof.
  intros Hij. unfold offset. replace (take j ws) with (take i ws ++ take (j - i) (drop i ws)).
  - unfold packed. rewrite bind_app, length_app. lia.
  - rewrite <- (take_drop i (take j ws)), take_take, Nat.min_l by lia. by rewrite skipn_firstn_comm.
Qed.

(** Characters of words. *)
Definition word_ok (w : list Z) : Prop := Forall (fun c => 0 < c < 256) w.

Lemma word_at m ws i w : bytes m area (packed ws) -> ws !! i = Some w -> word_ok w -> cstr m (place ws i) w.
Proof.
  intros Hb E Hw. rewrite (packed_split ws i w E) in Hb. apply bytes_app in Hb as [_ Hb]. apply bytes_app in Hb as [Hb _].
  split_and!; [exact Hb|exact Hw|]. unfold place, offset, area, PHYS_BASE, LOADER_PHYS_BASE. change LOADER_ARGS with 32126. lia.
Qed.

Lemma get_str_ok m p s : cstr m p s -> get_str m p = Ret s.
Proof.
  intros H. unfold get_str. rewrite (strlen_ok m p s H). cbn [rbind]. rewrite Nat2Z.id.
  revert p H. induction s as [|c s IH]; intros p H; [done|]. apply cstr_cons in H as (E & _ & H).
  cbn [length]. unfold load at 1. rewrite E. cbn [of_opt rbind]. by rewrite (IH _ H).
Qed.

(** ** Reading the words *)

(** The loader's count, little-endian. *)
Definition count_bytes (n : Z) : list Z := [u8 n; u8 (n / 256); u8 (n / 65536); u8 (n / 16777216)].

(** The constants are where [lit] says, outside the loader's area. *)
Definition constants : list string :=
  ["="; EmptyString; "-h"; "-q"; "-f"; "-rs"; "-mlfqs"; "-ul"; "run"; "ls"; "cat"; "rm"; "put"; "get"]%string.
Definition constants_ok (lit : string -> Z) (m : mem) : Prop :=
  forall s, s ∈ constants -> cstr m (lit s) (chars s) /\
    (lit s + Z.of_nat (length (chars s)) < area \/ area + LOADER_ARGS_LEN <= lit s).

Record loaded (lit : string -> Z) (m : mem) (ws : list (list Z)) : Prop := {
  ld_cnt : bytes m (PHYS_BASE + LOADER_ARG_CNT) (count_bytes (Z.of_nat (length ws)));
  ld_words : bytes m area (packed ws);
  ld_chars : Forall word_ok ws;
  ld_fit : Z.of_nat (length (packed ws)) <= LOADER_ARGS_LEN;
  ld_few : (length ws <= 64)%nat;
  ld_lits : constants_ok lit m
}.

(** The array of pointers: the first [i] words, then null pointers. *)
Definition argv_of (ws : list (list Z)) (i : nat) : list Z := (place ws <$> seq 0 i) ++ replicate (argv_len - i) NULL.

Lemma argv_length ws i : (i <= 65)%nat -> length (argv_of ws i) = 65%nat.
Proof. intros Hi. unfold argv_of. rewrite length_app, length_fmap, length_seq, length_replicate. change argv_len with 65%nat. lia. Qed.

Lemma argv_get ws n i w : ws !! i = Some w -> (i < n)%nat -> aget (argv_of ws n) (Z.of_nat i) = Ret (place ws i).
Proof.
  intros E Hi. apply aget_Ret. split; [lia|]. rewrite Nat2Z.id. unfold argv_of. rewrite lookup_app_l by (by rewrite length_fmap, length_seq).
  rewrite list_lookup_fmap, lookup_seq_lt by done. done.
Qed.

Lemma argv_null ws n : (n < 65)%nat -> aget (argv_of ws n) (Z.of_nat n) = Ret NULL.
Proof.
  intros Hn. apply aget_Ret. split; [lia|]. rewrite Nat2Z.id. unfold argv_of. rewrite lookup_app_r by (by rewrite length_fmap, length_seq).
  rewrite length_fmap, length_seq, lookup_replicate_2; [done|]. change argv_len with 65%nat. lia.
Qed.

Lemma argv_add ws i : (i < 65)%nat -> aset (argv_of ws i) (Z.of_nat i) (place ws i) = Ret (argv_of ws (S i)).
Proof.
  intros Hi. rewrite aset_in_range by (rewrite argv_length; lia). f_equal. rewrite Nat2Z.id. unfold argv_of.
  rewrite insert_app_r_alt by (rewrite length_fmap, length_seq; lia). rewrite length_fmap, length_seq, Nat.sub_diag.
  change argv_len with 65%nat. replace (65 - i)%nat with (S (65 - S i)) by lia. cbn [replicate insert list_insert].
  rewrite (seq_S i 0), fmap_app, <- app_assoc. done.
Qed.

Section Proof.
Context {W : Type} (lit : string -> Z).
#[local] Abbreviation kernel := (@kernel W).

(** What is printed of a word. *)
Definition print_one (k : kernel) (w : list Z) : kernel := if isin w 32 then say " '%s'" w k else say " %s" w k.
Definition printed (ws : list (list Z)) (k : kernel) : kernel := say "\n" [] (fold_left print_one ws (say "Kernel command line:" [] k)).

Lemma print_word_ok (k : kernel) p w : cstr (k_mem k) p w -> print_word k p = Ret (print_one k w).
Proof.
  intros H. unfold print_word. destruct (strchr_null (k_mem k) p w 32 H) as (r & -> & E); [lia|]. cbn [rbind].
  rewrite (get_str_ok _ _ _ H). cbn [rbind]. rewrite E. unfold print_one. f_equal.
  replace (isin (w ++ [0]) 32) with (isin w 32); [by destruct (isin w 32)|].
  unfold isin. apply bool_decide_ext. rewrite elem_of_app, list_elem_of_singleton. naive_solver.
Qed.

Lemma print_one_mem k w : k_mem (print_one k w) = k_mem k.
Proof. unfold print_one. by destruct (isin w 32). Qed.

Lemma count_word n : 0 <= n < 2 ^ 31 -> s32 (u8 n + 256 * u8 (n / 256) + 65536 * u8 (n / 65536) + 16777216 * u8 (n / 16777216)) = n.
Proof. intros Hn. rewrite bytes_of_word by (unfold is_u32; lia). apply s32_small. lia. Qed.

Lemma load_count m n : bytes m (PHYS_BASE + LOADER_ARG_CNT) (count_bytes n) ->
  load32 m (PHYS_BASE + LOADER_ARG_CNT) = Ret (u8 n + 256 * u8 (n / 256) + 65536 * u8 (n / 65536) + 16777216 * u8 (n / 16777216)).
Proof.
  intros H. unfold load32, count_bytes in *. rewrite !bytes_cons in H. destruct H as (E0 & E1 & E2 & E3 & _).
  unfold load. rewrite E0. cbn [of_opt rbind]. rewrite E1. cbn [of_opt rbind].
  replace (PHYS_BASE + LOADER_ARG_CNT + 2) with (PHYS_BASE + LOADER_ARG_CNT + 1 + 1) by lia. rewrite E2. cbn [of_opt rbind].
  replace (PHYS_BASE + LOADER_ARG_CNT + 3) with (PHYS_BASE + LOADER_ARG_CNT + 1 + 1 + 1) by lia. by rewrite E3.
Qed.

Lemma read_command_line_ok (k : kernel) ws : loaded lit (k_mem k) ws ->
  read_command_line k = Ret (printed ws k, argv_of ws (length ws)).
Proof.
  intros [Hcnt Hws Hch Hfit Hfew _]. unfold read_command_line.
  assert (ptov LOADER_ARG_CNT = Ret (PHYS_BASE + LOADER_ARG_CNT)) as -> by reflexivity. cbn [rbind].
  rewrite (load_count _ _ Hcnt). cbn [rbind]. rewrite count_word by lia.
  assert (ptov LOADER_ARGS = Ret area) as -> by reflexivity. cbn [rbind]. rewrite Nat2Z.id.
  destruct (for_up_total (fun i st => st = (argv_of ws (Z.to_nat i), place ws (Z.to_nat i)))
    (fun i '(argv, p) =>
       ASSERT (negb (bool_decide (p >= area + LOADER_ARGS_LEN)));
       let! argv := aset argv i p in
       let! n := strnlen (k_mem k) p (area + LOADER_ARGS_LEN - p) in
       Ret (argv, p + n + 1)) (length ws) 0 (replicate argv_len NULL, area)) as (st & -> & ->).
  { done. }
  { intros i st Hi ->. rewrite Z.add_0_l in Hi. destruct (lookup_lt_is_Some_2 ws (Z.to_nat i)) as [w Ew]; [lia|].
    pose proof (offset_end ws _ w Ew) as He. unfold LOADER_ARGS_LEN in *.
    rewrite bool_decide_false by (unfold place; lia). cbn [negb assert_ rbind].
    assert (aset (argv_of ws (Z.to_nat i)) i (place ws (Z.to_nat i)) = Ret (argv_of ws (S (Z.to_nat i)))) as ->
      by (rewrite <- (argv_add ws) by lia; f_equal; lia). cbn [rbind].
    rewrite (strnlen_ok _ _ w) by first [unfold place; lia|apply word_at; [done..|]; by eapply Forall_lookup_1]. cbn [rbind].
    eexists. split; [done|]. replace (Z.to_nat (i + 1)) with (S (Z.to_nat i)) by lia. f_equal. unfold place. rewrite (offset_S ws _ w Ew). lia. }
  cbn [rbind]. rewrite Z.add_0_l, Nat2Z.id. rewrite aset_in_range by (rewrite argv_length; lia). cbn [rbind].
  assert (<[Z.to_nat (Z.of_nat (length ws)):=NULL]> (argv_of ws (length ws)) = argv_of ws (length ws)) as ->.
  { rewrite Nat2Z.id. apply list_insert_id. pose proof (argv_null ws (length ws)) as Hn. rewrite aget_Ret, Nat2Z.id in Hn. apply Hn. lia. }
  destruct (for_up_total (fun i k' => k' = fold_left print_one (take (Z.to_nat i) ws) (say "Kernel command line:" [] k))
    (fun i k => let! q := aget (argv_of ws (length ws)) i in print_word k q) (length ws) 0 (say "Kernel command line:" [] k)) as (k' & -> & ->).
  { done. }
  { intros i k' Hi ->. rewrite Z.add_0_l in Hi. destruct (lookup_lt_is_Some_2 ws (Z.to_nat i)) as [w Ew]; [lia|].
    assert (aget (argv_of ws (length ws)) i = Ret (place ws (Z.to_nat i))) as ->
      by (rewrite <- (argv_get ws (length ws) _ w Ew) by lia; f_equal; lia). cbn [rbind].
    eexists. split.
    - apply (print_word_ok _ _ w). assert (forall l k1, k_mem (fold_left print_one l k1) = k_mem k1) as ->.
      { induction l as [|x l IH]; intros k1; [done|]. cbn [fold_left]. by rewrite IH, print_one_mem. }
      apply word_at; [done..|]. by eapply Forall_lookup_1.
    - replace (Z.to_nat (i + 1)) with (S (Z.to_nat i)) by lia. rewrite (take_S_r ws _ w Ew), fold_left_app. done. }
  cbn [rbind]. rewrite Z.add_0_l, Nat2Z.id, firstn_all. done.
Qed.
(** Decides the comparisons of constant names in the goal. *)
Ltac compare_names :=
  repeat match goal with
  | |- context [bool_decide (cmp_bytes (chars ?a) (chars ?b) = 0)] =>
      let t := constr:(bool_decide (cmp_bytes (chars a) (chars b) = 0)) in
      let v := eval vm_compute in t in change t with v; cbn [rbind]
  end.
Ltac in_constants := apply (bool_decide_unpack _); vm_compute; exact I.

(** ** Options *)

Inductive opt := OQ | OF | OMlfqs | ORs (s : list Z) (x : Z) | OUl (s : list Z) (x : Z).

Definition opt_name (o : opt) : string :=
  match o with OQ => "-q" | OF => "-f" | OMlfqs => "-mlfqs" | ORs _ _ => "-rs" | OUl _ _ => "-ul" end.
Definition opt_value (o : opt) : list Z := match o with ORs s _ | OUl s _ => s | _ => [] end.
Definition opt_word (o : opt) : list Z :=
  chars (opt_name o) ++ match o with ORs s _ | OUl s _ => 61 :: s | _ => [] end.
(** The value of an option is a number as [%d] prints it. *)
Definition opt_ok (o : opt) : Prop := match o with ORs s x | OUl s x => decimal s x /\ is_s32 x | _ => True end.
Definition opt_apply (o : opt) (k : kernel) : kernel :=
  match o with
  | OQ => set_q k | OF => set_f k | OMlfqs => set_mlfqs k
  | ORs _ x => set_seed (u32 x) k | OUl _ x => set_ul (u32 x) k
  end.

(** The words from [i] on and the constants are intact. *)
Record intact (m : mem) (ws : list (list Z)) (i : nat) : Prop := {
  in_words j w : (i <= j)%nat -> ws !! j = Some w -> cstr m (place ws j) w;
  in_lits : constants_ok lit m;
  in_fit : Z.of_nat (length (packed ws)) <= LOADER_ARGS_LEN
}.

Lemma place_next ws i j w : ws !! i = Some w -> (i < j)%nat -> place ws i + Z.of_nat (length w) + 1 <= place ws j.
Proof. intros E Hij. unfold place. pose proof (offset_mono ws (S i) j Hij). pose proof (offset_S ws i w E). lia. Qed.

Lemma intact_cut m m' ws i w : intact m ws i -> ws !! i = Some w -> same_outside (place ws i) (Z.of_nat (length w)) m m' -> intact m' ws (S i).
Proof.
  intros [Hw Hl Hf] E [Hs _]. constructor; [| |done].
  - intros j u Hj Eu. eapply cstr_agree; [apply Hw; [lia|done]|]. intros q Hq. apply Hs. pose proof (place_next ws i j w E). lia.
  - intros s Hin. destruct (Hl s Hin) as [Hc Ha]. split; [|done]. eapply cstr_agree; [done|]. intros q Hq. apply Hs.
    pose proof (offset_end ws i w E). unfold place in *. unfold offset in *. lia.
Qed.

Lemma span_len_run (P : Z -> bool) a x l : Forall (fun c => P c = true) a -> P x = false -> span_len P (a ++ x :: l) = length a.
Proof. intros Ha Hx. induction Ha as [|c a Hc Ha IH]; cbn [app span_len length]; [by rewrite Hx|]. by rewrite Hc, IH. Qed.
Lemma span_len_all (P : Z -> bool) a : Forall (fun c => P c = true) a -> span_len P a = length a.
Proof. intros Ha. induction Ha as [|c a Hc Ha IH]; cbn [span_len length]; [done|]. by rewrite Hc, IH. Qed.

(** The two calls of [strtok_r] on a word with the given name, which starts with [-]. *)
Lemma split_plain m p name : constants_ok lit m -> cstr m p name -> name <> [] -> Forall (fun c => negb (isin [61] c) = true) name ->
  exists m' save save', strtok_r m p (lit "=") NULL = Ret (m', save, p) /\
    strtok_r m' NULL (lit EmptyString) save = Ret (m', save', NULL) /\ cstr m' p name /\ same_outside p (Z.of_nat (length name)) m m'.
Proof.
  intros Hl Hp Hne Hn. destruct (Hl "="%string) as [Heq _]; [in_constants|]. destruct (Hl EmptyString) as [Hem _]; [in_constants|].
  assert (span_len (isin [61]) name = 0%nat) as E0.
  { destruct name as [|c name]; [done|]. apply Forall_cons in Hn as [Hc _]. apply negb_true_iff in Hc. cbn [span_len]. by rewrite Hc. }
  pose proof (strtok_r_some (lit "=") [61] m p name NULL Heq Hp) as Hs. cbv zeta in Hs. rewrite E0 in Hs.
  change (Z.of_nat 0) with 0 in Hs. rewrite Z.add_0_r, drop_0 in Hs.
  rewrite (span_len_all (fun c => negb (isin [61] c)) name Hn) in Hs. rewrite firstn_all, drop_ge in Hs by lia.
  destruct (Hs Hne) as (m' & save & -> & Hname & Hsave & Hso & _ & Hend). simpl in Hend.
  assert (cstr m' (lit EmptyString) []) as Hem'.
  { eapply cstr_agree; [exact Hem|]. intros q Hq. simpl in Hq. apply Hso. intros Hin.
    assert (q = lit EmptyString) by lia. subst q. assert (m !! lit EmptyString = Some 0) as Ez by (by apply cstr_nil_load).
    destruct Hp as (Hb & Hc & _). destruct (lookup_lt_is_Some_2 name (Z.to_nat (lit EmptyString - p))) as [x Hx]; [lia|].
    pose proof (Forall_lookup_1 _ _ _ _ Hc Hx) as Hx0. specialize (Hb _ x (lookup_app_l_Some _ _ _ _ Hx)).
    replace (p + Z.of_nat (Z.to_nat (lit EmptyString - p))) with (lit EmptyString) in Hb by lia. rewrite Ez in Hb. simplify_eq. lia. }
  assert (0 < save) as Hs0 by apply Hsave.
  exists m', save, (save + 0). split_and!; try done.
  rewrite (strtok_r_start (lit EmptyString) [] m' NULL save Hem') by done. change (if bool_decide (NULL = NULL) then save else NULL) with save.
  rewrite (strtok_r_none (lit EmptyString) [] m' save [] save Hem' Hsave) by done. done.
Qed.
Lemma split_value m p name v : constants_ok lit m -> area <= p -> p + Z.of_nat (length (name ++ 61 :: v)) < area + LOADER_ARGS_LEN ->
  cstr m p (name ++ 61 :: v) -> name <> [] -> v <> [] -> Forall (fun c => negb (isin [61] c) = true) name ->
  exists m' m2 save save', strtok_r m p (lit "=") NULL = Ret (m', save, p) /\
    strtok_r m' NULL (lit EmptyString) save = Ret (m2, save', save) /\ cstr m2 p name /\ cstr m2 save v /\
    same_outside p (Z.of_nat (length (name ++ 61 :: v))) m m2.
Proof.
  intros Hl Hlo Hhi Hp Hne Hv Hn. destruct (Hl "="%string) as [Heq _]; [in_constants|]. destruct (Hl EmptyString) as [Hem Hea]; [in_constants|].
  set (w := name ++ 61 :: v) in *.
  assert (span_len (isin [61]) w = 0%nat) as E0.
  { unfold w. destruct name as [|c name]; [done|]. apply Forall_cons in Hn as [Hc _]. apply negb_true_iff in Hc. cbn [app span_len]. by rewrite Hc. }
  pose proof (strtok_r_some (lit "=") [61] m p w NULL Heq Hp) as Hs. cbv zeta in Hs. rewrite E0 in Hs.
  change (Z.of_nat 0) with 0 in Hs. rewrite Z.add_0_r, drop_0 in Hs.
  assert (span_len (fun c => negb (isin [61] c)) w = length name) as E1 by (unfold w; by apply (span_len_run (fun c => negb (isin [61] c)))).
  rewrite E1 in Hs. assert (take (length name) w = name) as E2 by (unfold w; by rewrite take_app_length).
  assert (drop (S (length name)) w = v) as E3.
  { unfold w. replace (S (length name)) with (length name + 1)%nat by lia. rewrite <- drop_drop, drop_app_length. done. }
  rewrite E2, E3 in Hs. destruct Hs as (m' & save & -> & Hname & Hsave & Hso & Hgap & Hend); [by unfold w; destruct name|].
  destruct Hgap as [Hgap|]; [|done]. assert (0 < save) as Hs0 by apply Hsave.
  assert (length w = (length name + 1 + length v)%nat) as Elen by (unfold w; rewrite length_app; simpl; lia).
  assert (cstr m' (lit EmptyString) []) as Hem'.
  { eapply cstr_agree; [exact Hem|]. intros q Hq. simpl in Hq, Hea. apply Hso. lia. }
  pose proof (strtok_r_some (lit EmptyString) [] m' save v save Hem' Hsave) as Hs2. cbv zeta in Hs2.
  assert (span_len (isin []) v = 0%nat) as F0 by (by destruct v). rewrite F0, drop_0 in Hs2. change (Z.of_nat 0) with 0 in Hs2. rewrite Z.add_0_r in Hs2.
  assert (span_len (fun c => negb (isin [] c)) v = length v) as F1 by (apply (span_len_all (fun c => negb (isin [] c))), Forall_true; done).
  rewrite F1, firstn_all, drop_ge in Hs2 by lia. destruct (Hs2 Hv) as (m2 & save' & E & Hval & _ & Hso2 & _).
  exists m', m2, save, save'. split_and!; try done.
  - rewrite (strtok_r_start (lit EmptyString) [] m' NULL save Hem') by done. exact E.
  - eapply cstr_agree; [exact Hname|]. intros q Hq. apply Hso2. lia.
  - eapply same_outside_trans; [exact Hso|]. eapply same_outside_weaken; [exact Hso2|lia..].
Qed.

Lemma name_compare m p name s : constants_ok lit m -> cstr m p (chars name) -> s ∈ constants ->
  strcmp m p (lit s) = Ret (cmp_bytes (chars name) (chars s)).
Proof. intros Hl Hp Hs. apply strcmp_ok; [done|]. by apply Hl. Qed.

(** [parse_option] after the two calls. *)
Definition choose (k : kernel) (m : mem) (name value : Z) : res (kernel * bool) :=
  let k := set_mem m k in
  let! c := strcmp m name (lit "-h") in
  if bool_decide (c = 0) then Ret (k, true) else
  let! c := strcmp m name (lit "-q") in
  if bool_decide (c = 0) then Ret (set_q k, false) else
  let! c := strcmp m name (lit "-f") in
  if bool_decide (c = 0) then Ret (set_f k, false) else
  let! c := strcmp m name (lit "-rs") in
  if bool_decide (c = 0) then let! n := atoi m value in Ret (set_seed (u32 n) k, false) else
  let! c := strcmp m name (lit "-mlfqs") in
  if bool_decide (c = 0) then Ret (set_mlfqs k, false) else
  let! c := strcmp m name (lit "-ul") in
  if bool_decide (c = 0) then let! n := atoi m value in Ret (set_ul (u32 n) k, false)
  else Panic.

Lemma choose_ok k m p value o : constants_ok lit m -> cstr m p (chars (opt_name o)) -> opt_ok o ->
  (match o with ORs s _ | OUl s _ => cstr m value s | _ => True end) ->
  choose k m p value = Ret (opt_apply o (set_mem m k), false).
Proof.
  intros Hl Hp Ho Hv. unfold choose. rewrite !(name_compare m p (opt_name o)) by (done || in_constants).
  destruct o as [| | |s x|s x]; try reflexivity.
  - destruct Ho as [Hd Hx]. rewrite (atoi_decimal m value s x Hd Hx) by (destruct Hv as (? & _ & ?); done || lia). reflexivity.
  - destruct Ho as [Hd Hx]. rewrite (atoi_decimal m value s x Hd Hx) by (destruct Hv as (? & _ & ?); done || lia). reflexivity.
Qed.

Lemma parse_option_ok (k : kernel) ws i o : intact (k_mem k) ws i -> ws !! i = Some (opt_word o) -> opt_ok o ->
  exists m', parse_option lit k (place ws i) = Ret (opt_apply o (set_mem m' k), false) /\ intact m' ws (S i).
Proof.
  intros Hin E Ho. pose proof (in_words _ _ _ Hin i _ (le_n i) E) as Hw. pose proof (in_lits _ _ _ Hin) as Hl.
  pose proof (offset_end ws i _ E) as Hend. pose proof (in_fit _ _ _ Hin) as Hfit.
  assert (exists m' save save' value, strtok_r (k_mem k) (place ws i) (lit "=") NULL = Ret (m', save, place ws i) /\
    exists m2, strtok_r m' NULL (lit EmptyString) save = Ret (m2, save', value) /\ cstr m2 (place ws i) (chars (opt_name o)) /\
    (match o with ORs s _ | OUl s _ => cstr m2 value s | _ => True end) /\
    same_outside (place ws i) (Z.of_nat (length (opt_word o))) (k_mem k) m2) as (m' & save & save' & value & E1 & m2 & E2 & Hn & Hv & Hso).
  { assert (area <= place ws i) as Hlo by (unfold place, offset; lia).
    destruct o as [| | |s x|s x]; unfold opt_word in *; cbn [opt_name] in *; rewrite ?app_nil_r in *;
      try (edestruct split_plain as (m' & save & save' & E1 & E2 & Hn & Hso); [exact Hl|exact Hw|done|repeat constructor|];
           exists m', save, save', NULL; split; [exact E1|]; exists m'; auto).
    all: destruct Ho as [(ds & Es & _ & Hne & _) _]; assert (s <> []) as Hs by (subst s; by destruct (bool_decide _), ds); clear Es.
    - destruct (split_value (k_mem k) (place ws i) (chars "-rs") s Hl Hlo) as (m' & m2 & save & save' & E1 & E2 & Hn & Hv & Hso);
        [unfold place, LOADER_ARGS_LEN in *; lia|done..|repeat constructor|]. exists m', save, save', save. split; [exact E1|]. exists m2. auto.
    - destruct (split_value (k_mem k) (place ws i) (chars "-ul") s Hl Hlo) as (m' & m2 & save & save' & E1 & E2 & Hn & Hv & Hso);
        [unfold place, LOADER_ARGS_LEN in *; lia|done..|repeat constructor|]. exists m', save, save', save. split; [exact E1|]. exists m2. auto. }
  exists m2. split.
  - unfold parse_option. rewrite E1. cbn [rbind]. rewrite E2. cbn [rbind]. fold (choose k m2 (place ws i) value).
    apply choose_ok; auto. eapply in_lits, intact_cut; eauto.
  - eapply intact_cut; eauto.
Qed.
Definition opt_run (os : list opt) (k : kernel) : kernel := fold_left (fun k o => opt_apply o k) os k.

Lemma opt_apply_mem o m k : opt_apply o (set_mem m k) = set_mem m (opt_apply o k).
Proof. by destruct o. Qed.
Lemma opt_run_mem os : forall m k, opt_run os (set_mem m k) = set_mem m (opt_run os k).
Proof. induction os as [|o os IH]; intros m k; [done|]. cbn. by rewrite opt_apply_mem, IH. Qed.
Lemma set_mem_twice m m' k : set_mem m' (set_mem m k) = @set_mem W m' k.
Proof. done. Qed.
Lemma set_mem_id (k : kernel) : set_mem (k_mem k) k = k.
Proof. by destruct k. Qed.
Lemma opt_apply_k_mem o m k : k_mem (opt_apply o (set_mem m k)) = m.
Proof. by destruct o. Qed.

Lemma place_nonnull ws i : place ws i <> NULL.
Proof. unfold place, offset, area, PHYS_BASE, LOADER_PHYS_BASE, NULL. change LOADER_ARGS with 32126. lia. Qed.

(** The word at [i] is not an option. *)
Definition no_option (ws : list (list Z)) (i : nat) : Prop :=
  match ws !! i with Some (45 :: _) => False | _ => True end.

Lemma first_char m ws i w : intact m ws i -> ws !! i = Some w -> load m (place ws i) = Ret (default 0 (head w)).
Proof.
  intros Hin E. pose proof (in_words _ _ _ Hin i w (le_n i) E) as Hw. unfold load. destruct w as [|c w].
  - by rewrite (cstr_nil_load _ _ Hw).
  - apply cstr_cons in Hw as (-> & _). done.
Qed.

Lemma parse_loop ws os : forall i fuel (k : kernel), (length ws <= 64)%nat -> drop i ws = (opt_word <$> os) ++ drop (i + length os) ws ->
  no_option ws (i + length os) -> Forall opt_ok os -> intact (k_mem k) ws i -> (i + length os <= length ws)%nat -> (length os < fuel)%nat ->
  exists m', iter fuel
    (fun '(k, i) =>
       let! p := aget (argv_of ws (length ws)) i in
       if bool_decide (p = NULL) then Ret (inr (k, Some i))
       else
         let! c := load (k_mem k) p in
         if bool_decide (c = 45) then
           let! '(k, off) := parse_option lit k p in
           if (off : bool) then Ret (inr (k, None)) else Ret (inl (k, i + 1))
         else Ret (inr (k, Some i))) (k, Z.of_nat i) = Ret (set_mem m' (opt_run os k), Some (Z.of_nat (i + length os))) /\
    intact m' ws (i + length os).
Proof.
  induction os as [|o os IH]; intros i fuel k Hfew Hd Hno Hok Hin Hle Hf; (destruct fuel as [|fuel]; [simpl in Hf; lia|]); cbn [iter].
  - exists (k_mem k). rewrite Nat.add_0_r in *. rewrite set_mem_id. split; [|done].
    destruct (ws !! i) as [w|] eqn:E.
    + pose proof (lookup_lt_Some _ _ _ E). rewrite (argv_get ws _ i w E) by lia. cbn [rbind]. rewrite bool_decide_false by apply place_nonnull.
      rewrite (first_char _ _ _ w Hin E). cbn [rbind]. rewrite bool_decide_false; [done|]. unfold no_option in Hno. rewrite E in Hno.
      destruct w as [|c w]; simpl; [done|]. intros ->. done.
    + apply lookup_ge_None in E. replace i with (length ws) by (simpl in Hle; lia). rewrite argv_null by lia. cbn [rbind].
      by rewrite bool_decide_true.
  - apply Forall_cons in Hok as [Ho Hok]. simpl in Hle, Hd. assert (ws !! i = Some (opt_word o)) as E.
    { rewrite <- (Nat.add_0_r i), <- lookup_drop, Hd. done. }
    assert (drop (S i) ws = (opt_word <$> os) ++ drop (i + S (length os)) ws) as Hd'.
    { replace (S i) with (i + 1)%nat by lia. rewrite <- drop_drop, Hd. done. }
    rewrite (argv_get ws _ i _ E) by lia. cbn [rbind]. rewrite bool_decide_false by apply place_nonnull.
    rewrite (first_char _ _ _ _ Hin E). cbn [rbind]. rewrite bool_decide_true by (by destruct o).
    destruct (parse_option_ok k ws i o Hin E Ho) as (m1 & -> & Hin1). cbn [rbind].
    destruct (IH (S i) fuel (opt_apply o (set_mem m1 k))) as (m' & E' & Hin'); try done.
    + by replace (S i + length os)%nat with (i + S (length os))%nat by lia.
    + by replace (S i + length os)%nat with (i + length (o :: os))%nat by (simpl; lia).
    + by rewrite opt_apply_k_mem.
    + lia.
    + simpl in Hf. lia.
    + exists m'. replace (i + length (o :: os))%nat with (S i + length os)%nat by (simpl; lia). split; [|done].
      replace (Z.of_nat i + 1) with (Z.of_nat (S i)) by lia. rewrite E'. f_equal. f_equal. cbn [opt_run fold_left].
      rewrite opt_apply_mem. fold (opt_run os (set_mem m1 (opt_apply o k))). by rewrite opt_run_mem, set_mem_twice.
Qed.

Lemma parse_options_ok ws os (k : kernel) : (length ws <= 64)%nat -> ws = (opt_word <$> os) ++ drop (length os) ws -> no_option ws (length os) ->
  Forall opt_ok os -> intact (k_mem k) ws 0 -> (length os <= length ws)%nat ->
  exists m', parse_options lit (argv_of ws (length ws)) k = Ret (set_mem m' (opt_run os k), Some (Z.of_nat (length os))) /\ intact m' ws (length os).
Proof.
  intros Hfew Hws Hno Hok Hin Hle. unfold parse_options. apply (parse_loop ws os 0); auto. change argv_len with 65%nat. lia.
Qed.

(** ** Actions *)

Inductive act := ARun (s : list Z) | ALs | ACat (s : list Z) | ARm (s : list Z) | APut (s : list Z) | AGet (s : list Z).

Definition act_words (a : act) : list (list Z) :=
  match a with
  | ARun s => [chars "run"; s] | ALs => [chars "ls"] | ACat s => [chars "cat"; s]
  | ARm s => [chars "rm"; s] | APut s => [chars "put"; s] | AGet s => [chars "get"; s]
  end.

Definition act_name (a : act) : string :=
  match a with ARun _ => "run" | ALs => "ls" | ACat _ => "cat" | ARm _ => "rm" | APut _ => "put" | AGet _ => "get" end.

Context (process_run : list Z -> W -> res W) (fsutil : fs_action -> list Z -> W -> res W).

Definition act_fs (f : fs_action) (s : list Z) (k : kernel) : res kernel :=
  let! w := fsutil f s (world k) in Ret (set_world w k).

Definition act_apply (a : act) (k : kernel) : res kernel :=
  match a with
  | ARun s =>
      let k := say "Executing '%s':\n" s k in
      let! w := process_run s (world k) in
      Ret (say "Execution of '%s' complete.\n" s (set_world w k))
  | ALs => act_fs FLs [] k
  | ACat s => act_fs FCat s k | ARm s => act_fs FRm s k | APut s => act_fs FPut s k | AGet s => act_fs FGet s k
  end.

Fixpoint act_run (l : list act) (k : kernel) : res kernel :=
  match l with [] => Ret k | a :: l => let! k := act_apply a k in act_run l k end.

Lemma act_apply_keeps a k k' : act_apply a k = Ret k' -> k_mem k' = k_mem k.
Proof. destruct a; simpl; unfold act_fs; intros H; rinv; subst; done. Qed.
Lemma act_apply_mem a m k : act_apply a (set_mem m k) = let! k := act_apply a k in Ret (set_mem m k).
Proof. destruct a; simpl; unfold act_fs; cbn [world set_mem]; match goal with |- context [rbind ?x _] => destruct x end; done. Qed.
Lemma act_run_mem l : forall m k, act_run l (set_mem m k) = let! k := act_run l k in Ret (set_mem m k).
Proof.
  induction l as [|a l IH]; intros m k; [done|]. cbn [act_run]. rewrite act_apply_mem.
  destruct (act_apply a k); cbn [rbind]; [apply IH|done..].
Qed.
Definition act_step (argv : list Z) (k : kernel) (i : Z) : res (kernel * Z + kernel) :=
  let! p := aget argv i in
  if bool_decide (p = NULL) then Ret (inr k)
  else
    let! '(argc, f) := find_action lit (k_mem k) p (actions process_run fsutil) in
    let! _ := for_up (Z.to_nat (argc - 1)) 1
                (fun j _ => let! q := aget argv (i + j) in ASSERT (bool_decide (q <> NULL)); Ret tt) tt in
    let! k := f argv i k in
    Ret (inl (k, i + argc)).

(** The argument of an action. *)
Lemma arg_at ws i m s : intact m ws i -> ws !! S i = Some s -> aget (argv_of ws (length ws)) (Z.of_nat i + 1) = Ret (place ws (S i)) /\
  get_str m (place ws (S i)) = Ret s.
Proof.
  intros Hin E. pose proof (lookup_lt_Some _ _ _ E). split.
  - replace (Z.of_nat i + 1) with (Z.of_nat (S i)) by lia. by rewrite (argv_get ws _ (S i) s E) by lia.
  - apply get_str_ok. apply (in_words _ _ _ Hin); [lia|done].
Qed.

Lemma act_step_ok ws i a (k : kernel) : intact (k_mem k) ws i -> drop i ws = act_words a ++ drop (i + length (act_words a)) ws ->
  act_step (argv_of ws (length ws)) k (Z.of_nat i) =
    let! k := act_apply a k in Ret (inl (k, Z.of_nat (i + length (act_words a)))).
Proof.
  intros Hin Hd. assert (forall j w, act_words a !! j = Some w -> ws !! (i + j)%nat = Some w) as Hw.
  { intros j w E. rewrite <- lookup_drop, Hd. by apply lookup_app_l_Some. }
  pose proof (Hw 0%nat (chars (act_name a))) as E. rewrite Nat.add_0_r in E. specialize (E ltac:(by destruct a)).
  pose proof (in_words _ _ _ Hin i _ (le_n i) E) as Hc. pose proof (in_lits _ _ _ Hin) as Hl. pose proof (lookup_lt_Some _ _ _ E).
  unfold act_step. rewrite (argv_get ws _ i _ E) by lia. cbn [rbind]. rewrite bool_decide_false by apply place_nonnull.
  unfold actions. cbn [find_action]. rewrite !(name_compare (k_mem k) (place ws i) (act_name a)) by (done || in_constants). cbn [rbind].
  destruct a as [s| |s|s|s|s]; cbn [act_words act_name length] in *;
    try (destruct (arg_at ws i (k_mem k) s Hin) as [Ea Es]; [specialize (Hw 1%nat s eq_refl); by rewrite Nat.add_1_r in Hw|]).
  all: rewrite Nat2Z.inj_add.
  all: compare_names.
  2: { change (Z.of_nat 1) with 1. change (Z.to_nat (1 - 1)) with 0%nat. cbn [for_up rbind]. unfold run_fsutil, act_apply, act_fs.
       cbn [rbind]. by destruct (fsutil FLs [] (world k)). }
  all: change (Z.to_nat (2 - 1)) with 1%nat; change (Z.of_nat 2) with 2; cbn [for_up rbind]; rewrite Ea; cbn [rbind];
    rewrite bool_decide_true by apply place_nonnull; cbn [assert_ rbind]; unfold run_task, run_fsutil, act_apply, act_fs;
    rewrite Ea; cbn [rbind]; rewrite Es; cbn [rbind world say].
  1: by destruct (process_run s (world k)).
  all: by match goal with |- context [fsutil ?f ?x ?w] => destruct (fsutil f x w) end.
Qed.

Lemma act_loop ws acts : forall i fuel (k : kernel), (length ws <= 64)%nat -> drop i ws = acts ≫= act_words -> intact (k_mem k) ws i ->
  (length acts < fuel)%nat -> (i <= length ws)%nat ->
  iter fuel (fun '(k, i) => act_step (argv_of ws (length ws)) k i) (k, Z.of_nat i) = act_run acts k.
Proof.
  induction acts as [|a acts IH]; intros i fuel k Hfew Hd Hin Hf Hi; (destruct fuel as [|fuel]; [simpl in Hf; lia|]); cbn [iter].
  - cbn in Hd. assert (length (drop i ws) = 0%nat) as Hz by (by rewrite Hd). rewrite length_drop in Hz.
    unfold act_step. replace i with (length ws) by lia. rewrite argv_null by lia. cbn [rbind]. by rewrite bool_decide_true.
  - cbn [mbind list_bind] in Hd. assert (drop (i + length (act_words a)) ws = acts ≫= act_words) as Hd'.
    { rewrite <- drop_drop, Hd. by rewrite drop_app_length. }
    rewrite (act_step_ok ws i a k Hin) by (by rewrite Hd'). cbn [act_run]. destruct (act_apply a k) as [k'| | |] eqn:Ea; cbn [rbind]; try done.
    assert (length (drop i ws) = length (act_words a ++ acts ≫= act_words)) as El by (by rewrite <- Hd). rewrite length_drop, length_app in El.
    apply IH; auto; [|simpl in Hf; lia|lia]. rewrite (act_apply_keeps a k k' Ea).
    destruct Hin as [Hw Hl Hfit]. constructor; auto. intros j w Hj. apply Hw. lia.
Qed.

Lemma act_words_nonempty a : (1 <= length (act_words a))%nat.
Proof. destruct a; simpl; lia. Qed.

Lemma acts_few acts : (length acts <= length (acts ≫= act_words))%nat.
Proof.
  induction acts as [|a acts IH]; [done|]. cbn [mbind list_bind length]. rewrite length_app. pose proof (act_words_nonempty a).
  cbn [mbind] in IH. lia.
Qed.
(** ** The whole command line *)

Definition words_of_line (os : list opt) (acts : list act) : list (list Z) := (opt_word <$> os) ++ (acts ≫= act_words).

Lemma loaded_intact m ws : loaded lit m ws -> intact m ws 0.
Proof. intros [_ Hw Hc Hf _ Hl]. constructor; auto. intros j w _ E. apply word_at; auto. by eapply Forall_lookup_1. Qed.

Lemma printed_mem ws k : k_mem (printed ws k) = k_mem k.
Proof.
  unfold printed. cbn [k_mem say]. transitivity (k_mem (say "Kernel command line:" [] k)); [|done].
  generalize (say "Kernel command line:" [] k). induction ws as [|w ws IH]; intros k1; [done|]. cbn [fold_left]. by rewrite IH, print_one_mem.
Qed.

Lemma line_no_option os acts : no_option (words_of_line os acts) (length os).
Proof.
  unfold no_option, words_of_line. rewrite lookup_app_r by (by rewrite length_fmap). rewrite length_fmap, Nat.sub_diag.
  destruct acts as [|[]]; done.
Qed.
End Proof.

(** C11. The command line round trip: when the loader has left the words of options [os] and
    actions [acts] (at most 64 words, 128 bytes with their null bytes), the kernel prints
    them, sets exactly what the options say, with the numbers their values denote, and
    performs the actions in order with their arguments, stopping only where an action
    itself does. *)
Theorem command_line_performed {W} lit process_run fsutil (k : @kernel W) os acts :
  loaded lit (k_mem k) (words_of_line os acts) -> Forall opt_ok os ->
  exists m', run_command_line lit process_run fsutil k =
    (let! k' := act_run process_run fsutil acts (opt_run os (printed (words_of_line os acts) k)) in Ret (set_mem m' k', false)).
Proof.
  intros Hl Ho. set (ws := words_of_line os acts) in *. unfold run_command_line.
  rewrite (read_command_line_ok lit k ws Hl). cbn [rbind]. pose proof (loaded_intact lit _ ws Hl) as Hin. rewrite <- (printed_mem ws k) in Hin.
  assert (ws = (opt_word <$> os) ++ drop (length os) ws) as Ews.
  { unfold ws, words_of_line. rewrite drop_app_ge by (by rewrite length_fmap). by rewrite length_fmap, Nat.sub_diag, drop_0. }
  assert (length ws = (length os + length (acts ≫= act_words))%nat) as Elen by (unfold ws, words_of_line; by rewrite length_app, length_fmap).
  destruct (parse_options_ok lit ws os (printed ws k)) as (m' & -> & Hin'); auto; [by destruct Hl|apply line_no_option|lia|].
  cbn [rbind]. unfold run_actions.
  rewrite (act_loop lit process_run fsutil ws acts (length os)); auto.
  - exists m'. rewrite act_run_mem. by destruct (act_run _ _ _ _).
  - by destruct Hl.
  - unfold ws, words_of_line. rewrite drop_app_ge by (by rewrite length_fmap). by rewrite length_fmap, Nat.sub_diag, drop_0.
  - pose proof (acts_few acts). destruct Hl as [_ _ _ _ Hfew _]. change argv_len with 65%nat. lia.
  - lia.
Qed.

(** ** An example *)

Definition demo_lit (s : string) : Z := 1000 + 16 * Z.of_nat (default 0%nat (fst <$> list_find (fun x => x = s) constants)).
Definition demo_opts : list opt := [ORs [55] 7; OQ].
Definition demo_acts : list act := [ARun [97; 32; 98]; ALs].
Definition demo_line : mem :=
  foldr (fun s m => mem_at (demo_lit s) (literal s) ∪ m)
    (mem_at area (packed (words_of_line demo_opts demo_acts)) ∪ mem_at (PHYS_BASE + LOADER_ARG_CNT) (count_bytes 5)) constants.
Definition demo_kernel : @kernel (list (list Z)) := mkKernel demo_line false false false 100 None [] [].

Lemma demo_constants : forallb (fun s =>
  forallb (fun '(i, x) => bool_decide (demo_line !! (demo_lit s + Z.of_nat i) = Some x)) (imap pair (chars s ++ [0])) &&
  bool_decide (Forall (fun c => 0 < c < 256) (chars s)) && bool_decide (0 < demo_lit s) &&
  bool_decide (demo_lit s + Z.of_nat (length (chars s)) < area)) constants = true.
Proof. vm_compute. reflexivity. Qed.

Lemma demo_loaded : loaded demo_lit demo_line (words_of_line demo_opts demo_acts).
Proof.
  constructor.
  - apply bytes_dec_ok. vm_compute. reflexivity.
  - apply bytes_dec_ok. vm_compute. reflexivity.
  - repeat constructor.
  - vm_compute. discriminate.
  - vm_compute. lia.
  - intros s Hs. pose proof demo_constants as Hf. rewrite forallb_forall in Hf. specialize (Hf s (proj1 (list_elem_of_In _ _) Hs)).
    rewrite !andb_true_iff in Hf. destruct Hf as [[[H1 H2] H3] H4]. apply bool_decide_eq_true_1 in H3, H4.
    split; [by apply cstr_dec_ok|by left].
Qed.

Lemma command_line_performed_witness :
  exists k', run_command_line demo_lit (fun s w => Ret (s :: w)) (fun _ _ w => Ret ([] :: w)) demo_kernel = Ret (k', false) /\
    random_seed k' = Some 7 /\ power_off_when_done k' = true /\ format_filesys k' = false /\ world k' = [[]; [97; 32; 98]].
Proof.
  destruct (command_line_performed demo_lit (fun s w => Ret (s :: w)) (fun _ _ w => Ret ([] :: w)) demo_kernel demo_opts demo_acts demo_loaded) as [m' E].
  { apply Forall_cons. split; [|apply Forall_cons; split; [exact I|apply Forall_nil; exact I]].
    split; [|unfold is_s32; lia]. exists [55]. split; [reflexivity|]. split; [repeat constructor; unfold digit; lia|]. split; [discriminate|reflexivity]. }
  rewrite E. eexists. split; [reflexivity|]. split_and!; reflexivity.
Defined.

(** The array has room for one word in two bytes: 65 empty words, which take 65 of the 128
    bytes, make [read_command_line] store behind its end. *)
Lemma argv_overflow :
  read_command_line (mkKernel (mem_at area (replicate 130 0) ∪ mem_at (PHYS_BASE + LOADER_ARG_CNT) (count_bytes 65)) false false false 100 None [] tt) = Ub.
Proof. vm_compute. reflexivity. Qed.
