(* ===== verification/Args.v ===== *)
(** * userprog/process.c: the stack of a new process

    [setup_stack] maps a zeroed page at the top of user memory and pushes the words of
    the command line on it: the strings, padding, a null pointer, the array [argv], its
    address, [argc] and a return address.  The memory is the one of string.c; the heap
    blocks of the copy and of the array [argv] are parameters, a null pointer or a block
    that is too small being visible as a failed assertion or [Ub]. *)

From S2P Require Import Prelude Cstring CstringProof Vaddr.

Definition le32 (v : Z) : list Z :=
  let v := u32 v in [v mod 256; v / 256 mod 256; v / 65536 mod 256; v / 16777216 mod 256].

(** [memcpy (p, &v, sizeof (int))] *)
Definition poke32 (m : mem) (p v : Z) : res mem :=
  for_up 4 0 (fun i m => let! c := aget (le32 v) i in store m (p + i) c) m.

(** The loop of step 1: [i] words are pushed, [rest] is the position in the line. *)
Fixpoint push_tokens (fuel : nat) (m : mem) (s space rest esp : Z) (argv : list Z) (i : Z)
    : res (mem * Z * list Z * Z) :=
  match fuel with
  | O => NoFuel
  | S fuel =>
      let! '(m, rest, token) := strtok_r m s space rest in
      if bool_decide (token = NULL) then Ret (m, esp, argv, i)
      else
        let! n := strlen m token in
        let esp := esp - (n + 1) in
        let! '(m, _) := memcpy m esp token (n + 1) in
        let! argv := aset argv i esp in
        push_tokens fuel m NULL space rest esp argv (i + 1)
  end.

(** [for (i; i >= 0; i--)] of step 4, for the [n] elements below index [n]. *)
Fixpoint push_argv (n : nat) (m : mem) (esp : Z) (argv : list Z) : res (mem * Z) :=
  match n with
  | O => Ret (m, esp)
  | S n =>
      let esp := esp - 4 in
      let! a := aget argv (Z.of_nat n) in
      let! m := poke32 m esp a in
      push_argv n m esp argv
  end.

(** Steps 2 to 5: everything below the strings. *)
Definition push_frame (m : mem) (esp : Z) (argv : list Z) (i argc : Z) : res (mem * Z) :=
  let align := esp mod 4 in
  let! '(m, esp) := (if bool_decide (align <> 0) then
                       let esp := esp - align in
                       let! '(m, _) := memset m esp 0 align in Ret (m, esp)
                     else Ret (m, esp)) in
  let esp := esp - 4 in
  let! '(m, _) := memset m esp 0 4 in
  let! '(m, esp) := push_argv (Z.to_nat i) m esp argv in
  let argv_addr := esp in
  let esp := esp - 4 in
  let! m := poke32 m esp argv_addr in
  let esp := esp - 4 in
  let! m := poke32 m esp argc in
  let esp := esp - 4 in
  let! m := poke32 m esp 0 in
  Ret (m, esp).

(** From the copy of the command line to the end.  [file_copy] is what [malloc] returned,
    [calloc_ok] whether [calloc] found memory for [argv], [space] the literal [" "]. *)
Definition setup_args (calloc_ok : bool) (m : mem) (file_name file_copy space esp : Z) : res (mem * Z) :=
  let! n := strlen m file_name in
  let! '(m, _) := strlcpy m file_copy file_name (n + 1) in
  let! '(m, l) := tokenize (fuel_of m) m file_copy space NULL in
  let argc := length l in
  let argv := if calloc_ok then replicate argc 0 else [] in
  let! '(m, esp, argv, i) := push_tokens (fuel_of m) m file_name space NULL esp argv 0 in
  push_frame m esp argv i (Z.of_nat argc).

(** The zeroed page below [PHYS_BASE]. *)
Definition STACK_PAGE : Z := PHYS_BASE - PGSIZE.
Definition map_stack (m : mem) : mem := list_to_map ((fun q => (q, 0)) <$> seqZ STACK_PAGE PGSIZE) ∪ m.

(** [page_ok] says whether [frame_alloc] and [install_page] succeeded; otherwise [*esp]
    stays at [esp0], and the rest of the function runs all the same. *)
Definition setup_stack (page_ok calloc_ok : bool) (m : mem) (file_name file_copy space esp0 : Z)
    : res (bool * mem * Z) :=
  let '(m, esp) := if page_ok then (map_stack m, PHYS_BASE) else (m, esp0) in
  let! '(m, esp) := setup_args calloc_ok m file_name file_copy space esp in
  Ret (page_ok, m, esp).
