(* ===== verification/ArgsProof.v ===== *)
(** * userprog/process.c: what a new process finds on its stack *)

From S2P Require Import Prelude Cstring CstringProof Vaddr Args.

Definition word (m : mem) (p v : Z) : Prop := bytes m p (le32 v).

(** ** Single writes *)

Lemma same_outside_mapped p n m m' q k : same_outside p n m m' -> mapped m q k -> mapped m' q k.
Proof. intros [_ Hd] H r Hr. apply elem_of_dom. rewrite Hd. apply elem_of_dom. by apply H. Qed.

Lemma bytes_outside p n m m' q l : same_outside p n m m' -> bytes m q l ->
  q + Z.of_nat (length l) <= p \/ p + n <= q -> bytes m' q l.
Proof. intros [H _] Hb Hq. eapply bytes_agree; [done|]. intros r Hr. apply H. lia. Qed.

Lemma cstr_outside p n m m' q s : same_outside p n m m' -> cstr m q s ->
  q + Z.of_nat (length s) < p \/ p + n <= q -> cstr m' q s.
Proof. intros [H _] Hc Hq. eapply cstr_agree; [done|]. intros r Hr. apply H. lia. Qed.

Lemma word_outside p n m m' q v : same_outside p n m m' -> word m q v -> q + 4 <= p \/ p + n <= q -> word m' q v.
Proof. intros Ho Hw Hq. eapply bytes_outside; [done|done|]. simpl. lia. Qed.

Lemma poke32_ok m p v : mapped m p 4 -> exists m', poke32 m p v = Ret m' /\ word m' p v /\ same_outside p 4 m m'.
Proof.
  intros Hm. unfold poke32.
  destruct (for_up_total (fun i m' => bytes m' p (take (Z.to_nat i) (le32 v)) /\ same_outside p 4 m m')
    (fun i m => let! c := aget (le32 v) i in store m (p + i) c) 4 0 m) as (m' & -> & Hb & Ho).
  - split; [apply bytes_nil|apply same_outside_refl].
  - intros k m' Hk [Hb Ho]. destruct (aget_in_range (le32 v) k) as (c & -> & Hc); [simpl; lia|]. cbn [rbind].
    assert (is_Some (m' !! (p + k))) as Hs by (apply (same_outside_mapped _ _ _ _ p 4 Ho Hm); lia).
    rewrite store_ok by done. eexists; split; [done|]. split.
    + replace (Z.to_nat (k + 1)) with (S (Z.to_nat k)) by lia. rewrite (take_S_r _ _ c) by done.
      apply bytes_app. rewrite length_take_le by (simpl; lia). split.
      * apply bytes_insert_ne; [done|]. rewrite length_take_le by (simpl; lia). lia.
      * apply bytes_cons. split; [|apply bytes_nil]. replace (p + Z.of_nat (Z.to_nat k)) with (p + k) by lia.
        apply lookup_insert_eq.
    + eapply same_outside_trans; [done|]. apply same_outside_insert; [lia|done].
  - exists m'. split; [done|]. split; [exact Hb|done].
Qed.

Lemma memset_zero m p n : 0 < p -> 0 <= n -> mapped m p n -> exists m', memset m p 0 n = Ret (m', p) /\
  same_outside p n m m' /\ (n = 4 -> word m' p 0).
Proof.
  intros Hp Hn Hm. destruct (memset_ok m p n Hn Hm 0 Hp) as (m' & -> & Hq). exists m'. split; [done|]. split; [split|].
  - intros q Ho. rewrite Hq. by rewrite decide_False.
  - apply set_eq. intros q. rewrite !elem_of_dom, Hq. case_decide; [|done]. split; [intros _; apply Hm; lia|done].
  - intros ->. intros i x Hi. rewrite Hq. apply lookup_lt_Some in Hi as Hl. simpl in Hl.
    rewrite decide_True by lia. by destruct i as [|[|[|[|]]]].
Qed.

(** ** The array of pointers *)

Lemma push_argv_ok argv : forall n m esp, (n <= length argv)%nat -> mapped m (esp - 4 * Z.of_nat n) (4 * Z.of_nat n) ->
  exists m', push_argv n m esp argv = Ret (m', esp - 4 * Z.of_nat n) /\
    same_outside (esp - 4 * Z.of_nat n) (4 * Z.of_nat n) m m' /\
    forall i a, (i < n)%nat -> argv !! i = Some a -> word m' (esp - 4 * Z.of_nat n + 4 * Z.of_nat i) a.
Proof.
  induction n as [|n IH]; intros m esp Hn Hm; cbn [push_argv].
  { exists m. split; [f_equal; f_equal; lia|]. split; [apply same_outside_refl|lia]. }
  destruct (aget_in_range argv (Z.of_nat n)) as (a & -> & Ha); [lia|]. cbn [rbind].
  destruct (poke32_ok m (esp - 4) a) as (m1 & -> & Hw & Ho). { intros q Hq. apply Hm. lia. } cbn [rbind].
  destruct (IH m1 (esp - 4)) as (m2 & -> & Ho2 & Hws); [lia| |].
  { eapply same_outside_mapped; [done|]. intros q Hq. apply Hm. lia. }
  exists m2. split; [f_equal; f_equal; lia|]. split.
  - eapply same_outside_trans; (eapply same_outside_weaken; [eassumption|lia..]).
  - intros i b Hi Hb. destruct (decide (i = n)) as [->|].
    + rewrite Nat2Z.id in Ha. simplify_eq. eapply word_outside; [done| |lia].
      by replace (esp - 4 * Z.of_nat (S n) + 4 * Z.of_nat n) with (esp - 4) by lia.
    + replace (esp - 4 * Z.of_nat (S n)) with (esp - 4 - 4 * Z.of_nat n) by lia. apply Hws; [lia|done].
Qed.

(** ** The strings *)

(** Bytes that the words of the line take on the stack. *)
Fixpoint strings_size (toks : list (list Z)) : Z :=
  match toks with [] => 0 | t :: toks => Z.of_nat (length t) + 1 + strings_size toks end.

Lemma strings_size_nonneg toks : 0 <= strings_size toks.
Proof. induction toks; simpl; lia. Qed.

Lemma strlen_cstr m p s : cstr m p s -> strlen m p = Ret (Z.of_nat (length s)).
Proof. apply strlen_ok. Qed.

(** A word of the line copied to a lower or higher address, outside the word. *)
Lemma copy_word m dst src t : cstr m src t -> 0 < dst -> mapped m dst (Z.of_nat (length t) + 1) ->
  dst + Z.of_nat (length t) + 1 <= src \/ src + Z.of_nat (length t) + 1 <= dst ->
  exists m', memcpy m dst src (Z.of_nat (length t) + 1) = Ret (m', dst) /\ cstr m' dst t /\
    same_outside dst (Z.of_nat (length t) + 1) m m'.
Proof.
  intros Hc Hd Hm Hdis. assert (mapped m src (Z.of_nat (length t) + 1)) as Hs.
  { destruct Hc as (Hb & _). apply bytes_mapped in Hb. rewrite length_app in Hb. simpl in Hb.
    intros q Hq. apply Hb. lia. }
  destruct (memcpy_ok m dst src (Z.of_nat (length t) + 1) ltac:(lia) Hm Hs Hd ltac:(apply Hc) ltac:(lia)) as (m' & -> & Hcp).
  exists m'. split; [done|]. split; [|by eapply copied_same_outside].
  destruct Hc as (Hb & Hpos & _). split_and!; [|done|done]. intros i x Hi. apply lookup_lt_Some in Hi as Hl.
  rewrite length_app in Hl. simpl in Hl. rewrite Hcp, decide_True by lia.
  replace (dst + Z.of_nat i - dst + src) with (src + Z.of_nat i) by lia. by apply Hb.
Qed.

(** The pointers [ptrs] address the words [toks], one below the other, in [lo, hi). *)
Inductive strings_at (m : mem) : Z -> Z -> list Z -> list (list Z) -> Prop :=
| strings_nil hi : strings_at m hi hi [] []
| strings_cons lo hi a t ptrs toks : a = hi - (Z.of_nat (length t) + 1) -> cstr m a t ->
    strings_at m lo a ptrs toks -> strings_at m lo hi (a :: ptrs) (t :: toks).

Lemma strings_at_range m lo hi ptrs toks : strings_at m lo hi ptrs toks -> lo = hi - strings_size toks.
Proof. induction 1; simpl; lia. Qed.

Lemma strings_at_length m lo hi ptrs toks : strings_at m lo hi ptrs toks -> length ptrs = length toks.
Proof. induction 1; simpl; lia. Qed.

Lemma strings_at_agree m m' lo hi ptrs toks : strings_at m lo hi ptrs toks ->
  (forall q, lo <= q < hi -> m' !! q = m !! q) -> strings_at m' lo hi ptrs toks.
Proof.
  induction 1 as [|lo hi a t ptrs toks -> Hc Hs IH]; intros Hq; constructor; [done| |].
  - pose proof (strings_at_range _ _ _ _ _ Hs). pose proof (strings_size_nonneg toks).
    eapply cstr_agree; [done|]. intros q Hr. apply Hq. lia.
  - apply IH. intros q Hr. apply Hq. lia.
Qed.

(** What stays the same while the line is taken apart and copied to the stack. *)
Definition unchanged (p n lo hi : Z) (m m' : mem) : Prop :=
  (forall q, ~ p <= q < p + n -> ~ lo <= q < hi -> m' !! q = m !! q) /\ dom m' = dom m.

Section Push.
Context (space : Z).
Abbreviation D := (isin [32]).

Lemma push_tokens_ok : forall fuel m s rest str esp lo argv i,
  let p := if bool_decide (s = NULL) then rest else s in
  let toks := tokens D str in
  cstr m space [32] -> cstr m p str -> space + 2 <= p \/ p + Z.of_nat (length str) + 1 <= space ->
  0 < lo -> mapped m lo (esp - lo) -> lo + strings_size toks <= esp ->
  esp <= p \/ p + Z.of_nat (length str) + 1 <= lo -> esp <= space \/ space + 2 <= lo ->
  0 <= i -> i + Z.of_nat (length toks) <= Z.of_nat (length argv) -> (length str < fuel)%nat ->
  exists m' esp' ptrs, push_tokens fuel m s space rest esp argv i =
      Ret (m', esp', take (Z.to_nat i) argv ++ ptrs ++ drop (Z.to_nat i + length toks) argv, i + Z.of_nat (length toks)) /\
    strings_at m' esp' esp ptrs toks /\ unchanged p (Z.of_nat (length str) + 1) esp' esp m m'.
Proof.
  induction fuel as [|fuel IH]; intros m s rest str esp lo argv i p toks Hsp Hstr Hdis Hlo Hmap Hsz Hd1 Hd2 Hi Hargv Hf; [lia|].
  cbn [push_tokens]. rewrite (strtok_r_start space [32]) by (done || apply Hstr). fold p. unfold toks in *. clear toks.
  rewrite tokens_skip in *. destruct (decide (drop (span_len D str) str = [])) as [E|E].
  { rewrite (strtok_r_none space [32] m p str rest Hsp Hstr E). cbn [rbind]. rewrite bool_decide_eq_true_2 by done.
    rewrite E. exists m, esp, []. split; [|split; [constructor|done]]. simpl.
    by rewrite Nat.add_0_r, Z.add_0_r, take_drop. }
  destruct (strtok_r_some space [32] m p str rest Hsp Hstr E) as (m1 & save1 & -> & Ht & Hr & Ho & Hsv & Hend).
  rewrite (tokens_next _ _ E (span_len_drop _ _)) in *. cbv zeta in *. cbn [rbind].
  set (k := span_len D str) in *. set (str1 := drop k str) in *.
  set (j := span_len (fun c => negb (D c)) str1) in *. set (tok := take j str1) in *.
  set (more := tokens D (drop (S j) str1)) in *.
  assert (0 < p) by apply Hstr. rewrite bool_decide_eq_false_2 by (unfold NULL; lia).
  rewrite (strlen_ok _ _ _ Ht). cbn [rbind].
  assert (Hlk : (k + length tok <= length str)%nat).
  { unfold tok, str1. rewrite length_take, length_drop. pose proof (span_len_le D str) as Hk. fold k in Hk. lia. }
  assert (Hlr : (length (drop (S j) str1) < length str)%nat).
  { destruct str1 eqn:E1; [done|]. unfold str1 in E1. apply (f_equal length) in E1.
    rewrite length_drop in *. simpl in *. lia. }
  pose proof (strings_size_nonneg more) as Hmore. simpl in Hsz, Hargv.
  set (esp1 := esp - (Z.of_nat (length tok) + 1)) in *.
  destruct (copy_word m1 esp1 (p + Z.of_nat k) tok Ht) as (m2 & -> & Hc2 & Ho2); [lia| |lia|].
  { eapply same_outside_mapped; [done|]. intros q Hq. apply Hmap. lia. }
  cbn [rbind]. rewrite aset_in_range by lia. cbn [rbind].
  destruct (IH m2 NULL save1 (drop (S j) str1) esp1 lo (<[Z.to_nat i := esp1]> argv) (i + 1))
    as (m3 & esp3 & ptrs & -> & Hat & Hun); clear IH; simpl; fold more; try lia.
  - eapply cstr_outside; [done| |simpl; lia]. eapply cstr_outside; [done|done|simpl; lia].
  - eapply cstr_outside; [done|done|lia].
  - do 2 (eapply same_outside_mapped; [eassumption|]). intros q Hq. apply Hmap. lia.
  - rewrite length_insert. lia.
  - pose proof (strings_at_range _ _ _ _ _ Hat) as Hlow. fold more in Hlow. destruct Hun as [Hun Hdom]. simpl in Hun.
    exists m3, esp3, (esp1 :: ptrs). split_and!.
    + replace (Z.to_nat (i + 1)) with (S (Z.to_nat i)) by lia. rewrite (take_S_r _ _ esp1) by (apply list_lookup_insert_eq; lia).
      rewrite take_insert_ge, drop_insert_lt by lia. rewrite <- app_assoc. simpl.
      replace (Z.to_nat i + S (length more))%nat with (S (Z.to_nat i + length more)) by lia.
      f_equal. f_equal. lia.
    + constructor; [done| |done]. eapply cstr_agree; [done|]. intros q Hq. apply Hun; lia.
    + split; [|by rewrite Hdom, (proj2 Ho2), (proj2 Ho)].
      intros q Hq1 Hq2. rewrite Hun by lia. rewrite (proj1 Ho2) by lia. apply Ho. lia.
Qed.
End Push.

(** ** The whole stack *)

(** What the first instruction of the program finds: a null return address, [argc], the
    address of the array, the array of pointers to the words with a null pointer behind
    it, and the words. *)
Record stack_image (m : mem) (esp : Z) (toks : list (list Z)) : Prop := {
  si_aligned : esp mod 4 = 0;
  si_range : STACK_PAGE <= esp <= PHYS_BASE;
  si_return : word m esp 0;
  si_argc : word m (esp + 4) (Z.of_nat (length toks));
  si_argv : word m (esp + 8) (esp + 12);
  si_args : exists ptrs, length ptrs = length toks /\
    (forall i a, ptrs !! i = Some a -> word m (esp + 12 + 4 * Z.of_nat i) a) /\
    Forall2 (fun a t => cstr m a t /\ esp < a < PHYS_BASE) ptrs toks;
  si_null : word m (esp + 12 + 4 * Z.of_nat (length toks)) 0
}.

(** The bytes needed: words, padding, array with its null pointer, three words. *)
Definition stack_size (toks : list (list Z)) : Z := strings_size toks + 3 + 4 * Z.of_nat (length toks) + 16.

Lemma strings_at_Forall2 m lo hi ptrs toks : strings_at m lo hi ptrs toks ->
  Forall2 (fun a t => cstr m a t /\ lo <= a < hi) ptrs toks.
Proof.
  induction 1 as [|lo hi a t ptrs toks -> Hc Hs IH]; constructor.
  - pose proof (strings_at_range _ _ _ _ _ Hs). pose proof (strings_size_nonneg toks). split; [done|lia].
  - eapply Forall2_impl; [done|]. intros a t' [? ?]. split; [done|lia].
Qed.

Lemma push_align_ok m esp lo : 0 < lo -> lo + 3 <= esp -> mapped m lo (esp - lo) ->
  exists m', (if bool_decide (esp mod 4 <> 0) then
                let! '(m, _) := memset m (esp - esp mod 4) 0 (esp mod 4) in Ret (m, esp - esp mod 4)
              else Ret (m, esp)) = Ret (m', esp - esp mod 4) /\ same_outside (esp - esp mod 4) (esp mod 4) m m'.
Proof.
  intros Hlo He Hm. pose proof (Z.mod_pos_bound esp 4 ltac:(lia)). case_bool_decide as Ha.
  - destruct (memset_zero m (esp - esp mod 4) (esp mod 4)) as (m' & -> & Ho & _); [lia..| |].
    { intros q Hq. apply Hm. lia. } exists m'. done.
  - replace (esp mod 4) with 0 by lia. rewrite Z.sub_0_r. exists m. split; [done|apply same_outside_refl].
Qed.

Lemma push_frame_ok m esp lo argv n : 0 < lo -> lo + 3 + 4 * Z.of_nat n + 16 <= esp -> mapped m lo (esp - lo) ->
  length argv = n ->
  exists m' esp', push_frame m esp argv (Z.of_nat n) (Z.of_nat n) = Ret (m', esp') /\
    esp' = esp - esp mod 4 - 4 * Z.of_nat n - 16 /\ same_outside esp' (esp - esp') m m' /\
    word m' esp' 0 /\ word m' (esp' + 4) (Z.of_nat n) /\ word m' (esp' + 8) (esp' + 12) /\
    (forall i a, argv !! i = Some a -> word m' (esp' + 12 + 4 * Z.of_nat i) a) /\
    word m' (esp' + 12 + 4 * Z.of_nat n) 0.
Proof.
  intros Hlo He Hm Hargv. pose proof (Z.mod_pos_bound esp 4 ltac:(lia)). unfold push_frame. cbv zeta.
  assert (forall m', dom m' = dom m -> forall q k, lo <= q -> q + k <= esp -> mapped m' q k) as Hmap.
  { intros m' Hd q k Hq Hk r Hr. apply elem_of_dom. rewrite Hd. apply elem_of_dom. apply Hm. lia. }
  destruct (push_align_ok m esp lo) as (m1 & -> & Ho1); [lia|lia|done|]. cbn [rbind].
  set (e1 := esp - esp mod 4) in *.
  destruct (memset_zero m1 (e1 - 4) 4) as (m2 & -> & Ho2 & Hz); [lia..|apply Hmap; [apply Ho1|lia..]|]. cbn [rbind].
  specialize (Hz eq_refl). rewrite Nat2Z.id.
  destruct (push_argv_ok argv n m2 (e1 - 4)) as (m3 & -> & Ho3 & Hws); [lia|apply Hmap; [|lia..]|].
  { by rewrite (proj2 Ho2), (proj2 Ho1). }
  cbn [rbind]. set (e3 := e1 - 4 - 4 * Z.of_nat n) in *.
  assert (dom m3 = dom m) as Hd3 by (by rewrite (proj2 Ho3), (proj2 Ho2), (proj2 Ho1)).
  destruct (poke32_ok m3 (e3 - 4) e3) as (m4 & -> & Hw4 & Ho4); [apply Hmap; [done|lia..]|]. cbn [rbind].
  destruct (poke32_ok m4 (e3 - 4 - 4) (Z.of_nat n)) as (m5 & -> & Hw5 & Ho5).
  { apply Hmap; [by rewrite (proj2 Ho4)|lia..]. } cbn [rbind].
  destruct (poke32_ok m5 (e3 - 4 - 4 - 4) 0) as (m6 & -> & Hw6 & Ho6).
  { apply Hmap; [by rewrite (proj2 Ho5), (proj2 Ho4)|lia..]. } cbn [rbind].
  set (e6 := e3 - 4 - 4 - 4) in *.
  assert (same_outside e6 12 m3 m6) as Ho36.
  { apply (same_outside_trans _ _ _ m4); [eapply same_outside_weaken; [exact Ho4|lia..]|].
    apply (same_outside_trans _ _ _ m5); [eapply same_outside_weaken; [exact Ho5|lia..]|].
    eapply same_outside_weaken; [exact Ho6|lia..]. }
  exists m6, e6. split; [done|]. split; [lia|]. split_and!.
  - apply (same_outside_trans _ _ _ m1); [eapply same_outside_weaken; [exact Ho1|lia..]|].
    apply (same_outside_trans _ _ _ m2); [eapply same_outside_weaken; [exact Ho2|lia..]|].
    apply (same_outside_trans _ _ _ m3); [eapply same_outside_weaken; [exact Ho3|lia..]|].
    eapply same_outside_weaken; [exact Ho36|lia..].
  - done.
  - replace (e6 + 4) with (e3 - 4 - 4) by lia. eapply word_outside; [exact Ho6|exact Hw5|lia].
  - replace (e6 + 12) with e3 by lia. replace (e6 + 8) with (e3 - 4) by lia.
    eapply word_outside; [exact Ho6| |lia]. eapply word_outside; [exact Ho5|exact Hw4|lia].
  - intros i a Hi. eapply word_outside; [exact Ho36| |lia]. replace (e6 + 12) with e3 by lia.
    apply Hws; [|done]. apply lookup_lt_Some in Hi. lia.
  - eapply word_outside; [exact Ho36| |lia]. eapply word_outside; [exact Ho3| |lia].
    by replace (e6 + 12 + 4 * Z.of_nat n) with (e1 - 4) by lia.
Qed.

(** The command line, the literal [" "] and the heap block for the copy: three blocks of
    kernel memory that do not overlap. *)
Record line_at (m : mem) (file_name file_copy space : Z) (str : list Z) : Prop := {
  la_line : cstr m file_name str;
  la_space : cstr m space [32];
  la_copy : mapped m file_copy (Z.of_nat (length str) + 1);
  la_kernel : PHYS_BASE <= file_name /\ PHYS_BASE <= file_copy /\ PHYS_BASE <= space;
  la_apart1 : file_copy + Z.of_nat (length str) + 1 <= file_name \/ file_name + Z.of_nat (length str) + 1 <= file_copy;
  la_apart2 : space + 2 <= file_name \/ file_name + Z.of_nat (length str) + 1 <= space;
  la_apart3 : space + 2 <= file_copy \/ file_copy + Z.of_nat (length str) + 1 <= space
}.

(** Counting the words: the copy of the line is taken apart, the line stays. *)
Lemma count_words m file_name file_copy space str : line_at m file_name file_copy space str ->
  exists m1 m2 l, strlcpy m file_copy file_name (Z.of_nat (length str) + 1) = Ret (m1, Z.of_nat (length str)) /\
    tokenize (fuel_of m1) m1 file_copy space NULL = Ret (m2, l) /\ length l = length (tokens (isin [32]) str) /\
    same_outside file_copy (Z.of_nat (length str) + 1) m m2.
Proof.
  intros [Hl Hs Hc Hk H1 H2 H3]. unfold PHYS_BASE, LOADER_PHYS_BASE in Hk.
  destruct (strlcpy_ok m file_copy file_name str (Z.of_nat (length str) + 1)) as (m1 & -> & Hcp & Ho); [done|lia|lia|done|lia|].
  rewrite take_ge in Hcp by lia. exists m1.
  pose proof (tokenize_ok space [32] (fuel_of m1) m1 file_copy NULL str) as Ht. cbv zeta in Ht.
  rewrite (bool_decide_eq_false_2 (file_copy = NULL)) in Ht by (unfold NULL; lia).
  destruct Ht as (m2 & l & Ht & Hall & Ho2); [|done|simpl; lia|apply cstr_size in Hcp; unfold fuel_of; lia|].
  { eapply cstr_outside; [done|done|simpl; lia]. }
  exists m2, l. split_and!; [done|done|by apply Forall2_length in Hall|].
  eapply same_outside_trans; [done|]. eapply same_outside_weaken; [done|lia..].
Qed.

Lemma zeros_union (l : list Z) (m : mem) q :
  ((list_to_map ((fun q => (q, 0)) <$> l) : mem) ∪ m) !! q = if decide (q ∈ l) then Some 0 else m !! q.
Proof.
  rewrite lookup_union. induction l as [|x l IH]; cbn [fmap list_fmap list_to_map foldr curry].
  - rewrite lookup_empty, decide_False by (by apply not_elem_of_nil). by destruct (m !! q).
  - simpl. destruct (decide (q = x)) as [->|Hne].
    + rewrite lookup_insert_eq, decide_True by (by left). by destruct (m !! x).
    + rewrite lookup_insert_ne by done. rewrite IH. apply decide_ext. rewrite elem_of_cons. tauto.
Qed.

Lemma map_stack_lookup m q :
  map_stack m !! q = if decide (STACK_PAGE <= q < STACK_PAGE + PGSIZE) then Some 0 else m !! q.
Proof.
  unfold map_stack. rewrite zeros_union. apply decide_ext. apply elem_of_seqZ.
Qed.

Lemma map_stack_kernel m q : PHYS_BASE <= q -> map_stack m !! q = m !! q.
Proof. intros Hq. rewrite map_stack_lookup. apply decide_False. unfold STACK_PAGE. lia. Qed.

Lemma map_stack_mapped m : mapped (map_stack m) STACK_PAGE PGSIZE.
Proof. intros q Hq. rewrite map_stack_lookup. rewrite decide_True by done. by exists 0. Qed.

Lemma line_at_agree m m' file_name file_copy space str : line_at m file_name file_copy space str ->
  (forall q, PHYS_BASE <= q -> m' !! q = m !! q) -> line_at m' file_name file_copy space str.
Proof.
  intros [Hl Hs Hc Hk H1 H2 H3] Hq. split; try done.
  - eapply cstr_agree; [done|]. intros. apply Hq. lia.
  - eapply cstr_agree; [done|]. intros. apply Hq. lia.
  - intros q Hr. rewrite Hq by lia. by apply Hc.
Qed.

Lemma setup_args_ok m file_name file_copy space str : let toks := tokens (isin [32]) str in
  line_at m file_name file_copy space str -> mapped m STACK_PAGE PGSIZE -> stack_size toks <= PGSIZE ->
  exists m' esp, setup_args true m file_name file_copy space PHYS_BASE = Ret (m', esp) /\ stack_image m' esp toks.
Proof.
  intros toks Hl Hm Hsz. destruct (count_words _ _ _ _ _ Hl) as (m1 & m2 & l & Hcpy & Htok & Hlen & Ho).
  destruct Hl as [Hline Hspace Hcopy Hk H1 H2 H3]. unfold setup_args. rewrite (strlen_ok _ _ _ Hline). cbn [rbind].
  rewrite Hcpy. cbn [rbind]. rewrite Htok. cbn [rbind]. rewrite Hlen. fold toks.
  unfold stack_size, PGSIZE in *. pose proof (strings_size_nonneg toks) as Hss.
  assert (cstr m2 file_name str) as Hline2 by (eapply cstr_outside; [done|done|lia]).
  pose proof (push_tokens_ok space (fuel_of m2) m2 file_name NULL str PHYS_BASE STACK_PAGE
    (replicate (length toks) 0) 0) as Hp. cbv zeta in Hp.
  rewrite (bool_decide_eq_false_2 (file_name = NULL)) in Hp by (unfold NULL, PHYS_BASE, LOADER_PHYS_BASE in *; lia).
  fold toks in Hp.
  destruct Hp as (m3 & esp & ptrs & -> & Hat & Hun);
    [eapply cstr_outside; [done|done|simpl; lia]|done|lia|done| |unfold STACK_PAGE, PGSIZE; lia|lia|lia|lia|
     rewrite length_replicate; lia|apply cstr_size in Hline2; unfold fuel_of; lia|].
  { eapply same_outside_mapped; [done|]. intros q Hq. apply Hm. unfold STACK_PAGE, PGSIZE in *. lia. }
  cbn [rbind]. rewrite Z.add_0_l. simpl (take _ _ ++ _). rewrite drop_ge, app_nil_r by (rewrite length_replicate; lia).
  pose proof (strings_at_range _ _ _ _ _ Hat) as Hlow. pose proof (strings_at_length _ _ _ _ _ Hat) as Hpl.
  destruct (push_frame_ok m3 esp STACK_PAGE ptrs (length toks)) as (m4 & e & -> & He & Ho4 & Hw0 & Hw1 & Hw2 & Hws & Hwn);
    [done|unfold STACK_PAGE, PGSIZE; lia| |done|].
  { intros q Hq. apply elem_of_dom. rewrite (proj2 Hun), (proj2 Ho). apply elem_of_dom. apply Hm.
    unfold STACK_PAGE, PGSIZE in *. lia. }
  pose proof (Z.mod_pos_bound esp 4 ltac:(lia)). exists m4, e. split; [done|]. split; try done.
  - rewrite He. Z.div_mod_to_equations. lia.
  - unfold STACK_PAGE, PGSIZE. lia.
  - exists ptrs. split; [done|]. split; [done|].
    apply (strings_at_agree _ m4) in Hat; [|intros q Hq; apply Ho4; lia]. apply strings_at_Forall2 in Hat.
    eapply Forall2_impl; [done|]. intros a t [? ?]. split; [done|lia].
Qed.

(** C19. The stack of a new process: for every command line whose words fit, [setup_stack]
    succeeds and leaves [esp] at a word boundary inside the stack page, where the program
    finds a null return address, the number of words, the address of an array of pointers
    to null-terminated copies of the words, in order, and a null pointer behind them. *)
Theorem setup_stack_image m file_name file_copy space esp0 str :
  line_at m file_name file_copy space str -> stack_size (tokens (isin [32]) str) <= PGSIZE ->
  exists m' esp, setup_stack true true m file_name file_copy space esp0 = Ret (true, m', esp) /\
    stack_image m' esp (tokens (isin [32]) str).
Proof.
  intros Hl Hsz. unfold setup_stack.
  destruct (setup_args_ok (map_stack m) file_name file_copy space str) as (m' & esp & -> & Hi);
    [|apply map_stack_mapped|done|]; [|cbn [rbind]; eauto].
  eapply line_at_agree; [done|]. apply map_stack_kernel.
Qed.

(** ["ls  -l"] at 0xc0001000. *)
Definition line_demo : mem :=
  mem_at 0xc0001000 [108; 115; 32; 32; 45; 108; 0] ∪ mem_at 0xc0002000 (replicate 7 9) ∪ mem_at 0xc0003000 [32; 0].

Lemma setup_stack_image_witness : exists m' esp,
  setup_stack true true line_demo 0xc0001000 0xc0002000 0xc0003000 0 = Ret (true, m', esp) /\
  stack_image m' esp [[108; 115]; [45; 108]].
Proof.
  apply (setup_stack_image line_demo 0xc0001000 0xc0002000 0xc0003000 0 [108; 115; 32; 32; 45; 108]); [|vm_compute; done].
  split; [| | |vm_compute; repeat split; discriminate|simpl; lia..].
  - apply cstr_dec_ok; [vm_compute; reflexivity..|lia].
  - apply cstr_dec_ok; [vm_compute; reflexivity..|lia].
  - apply (mapped_dec_ok _ _ 7). vm_compute. reflexivity.
Defined.
