(* ===== verification/Loader.v ===== *)
(** * userprog/process.c and vm/page.c: loading an executable

    An open file is its bytes; a read returns what there is from the offset on.  The
    supplemental page table is a map from pages to entries, which is what the hash table
    of lib/kernel/hash.c implements.  [malloc_ok] says for which pages [malloc] finds memory for the
    entry: [page_insert] writes through the pointer without looking at it. *)

From S2P Require Import Prelude Cstring Stdlibc Vaddr.

(** ** vm/page.c *)

Definition MAP_FAILED : Z := -1.

Record sup_pte := mkPte {
  file : Z;
  upage : Z;
  read_bytes : Z;
  zero_bytes : Z;
  writable : bool;
  file_ofs : Z;
  swapped : bool;
  loaded : bool;
  swap_index : option Z;
  mmap_id : Z
}.

Abbreviation spt := (gmap Z sup_pte).

Definition set_loaded (b : bool) (e : sup_pte) : sup_pte :=
  mkPte (file e) (upage e) (read_bytes e) (zero_bytes e) (writable e) (file_ofs e) (swapped e) b (swap_index e) (mmap_id e).

Definition get_sup_pte (t : spt) (upage : Z) : option sup_pte := t !! upage.

(** [swap_index] is not initialised. *)
Definition page_insert (malloc_ok : bool) (t : spt) (file file_ofs upage read_bytes zero_bytes : Z) (writable : bool)
    : res (spt * bool) :=
  if malloc_ok then
    let e := mkPte file upage read_bytes zero_bytes writable file_ofs false true None MAP_FAILED in
    match t !! upage with
    | None => Ret (<[upage := e]> t, true)
    | Some _ => Ret (t, false)
    end
  else Ub.

Definition page_remove (t : spt) (upage : Z) : spt * bool :=
  match t !! upage with None => (t, false) | Some _ => (delete upage t, true) end.

(** ** Open files *)

(** [file_length] and [file_read_at]; an offset behind the end makes the read panic. *)
Definition flength (data : list Z) : Z := Z.of_nat (length data).
Definition fread (data : list Z) (ofs size : Z) : res (list Z) :=
  if bool_decide (0 <= ofs <= flength data)
  then Ret (take (Z.to_nat size) (drop (Z.to_nat ofs) data)) else Panic.

(** Little-endian fields of a structure in bytes. *)
Definition half (b : list Z) (ofs : nat) : Z := nth ofs b 0 + 256 * nth (S ofs) b 0.
Definition elf_word (b : list Z) (ofs : nat) : Z := half b ofs + 65536 * half b (2 + ofs).

(** ** ELF headers *)

Record Elf32_Ehdr := mkEhdr {
  e_ident : list Z; e_type : Z; e_machine : Z; e_version : Z; e_entry : Z; e_phoff : Z;
  e_phentsize : Z; e_phnum : Z
}.
Record Elf32_Phdr := mkPhdr {
  p_type : Z; p_offset : Z; p_vaddr : Z; p_filesz : Z; p_memsz : Z; p_flags : Z
}.

Definition sizeof_ehdr : Z := 52.
Definition sizeof_phdr : Z := 32.

Definition ehdr_of (b : list Z) : Elf32_Ehdr :=
  mkEhdr (take 16 b) (half b 16) (half b 18) (elf_word b 20) (elf_word b 24) (elf_word b 28) (half b 42) (half b 44).
Definition phdr_of (b : list Z) : Elf32_Phdr :=
  mkPhdr (elf_word b 0) (elf_word b 4) (elf_word b 8) (elf_word b 16) (elf_word b 20) (elf_word b 24).

Definition PT_LOAD : Z := 1.
Definition PT_DYNAMIC : Z := 2.
Definition PT_INTERP : Z := 3.
Definition PT_SHLIB : Z := 5.
Definition PF_W : Z := 2.
Definition ELF_MAGIC : list Z := [127; 69; 76; 70; 1; 1; 1].

(** The conditions that reject a header, as written. *)
Definition ehdr_bad (e : Elf32_Ehdr) : bool :=
  bool_decide (take 7 (e_ident e) <> ELF_MAGIC) || bool_decide (e_type e <> 2) || bool_decide (e_machine e <> 3) ||
  bool_decide (e_version e <> 1) || bool_decide (e_phentsize e <> sizeof_phdr) || bool_decide (e_phnum e > 1024).

Definition validate_segment (ph : Elf32_Phdr) (data : list Z) : bool :=
  if bool_decide (Z.land (p_offset ph) PGMASK <> Z.land (p_vaddr ph) PGMASK) then false
  else if bool_decide (p_offset ph > u32 (flength data)) then false
  else if bool_decide (p_memsz ph < p_filesz ph) then false
  else if bool_decide (p_memsz ph = 0) then false
  else if negb (is_user_vaddr (p_vaddr ph)) then false
  else if negb (is_user_vaddr (u32 (p_vaddr ph + p_memsz ph))) then false
  else if bool_decide (u32 (p_vaddr ph + p_memsz ph) < p_vaddr ph) then false
  else if bool_decide (p_vaddr ph < PGSIZE) then false
  else true.

Section Load.
Context (malloc_ok : Z -> bool).

(** The entries of the pages of a segment; [f] is the file. *)
Definition load_segment (t : spt) (f ofs upage read_bytes zero_bytes : Z) (writable : bool) : res (spt * bool) :=
  ASSERT (bool_decide (u32 (read_bytes + zero_bytes) mod PGSIZE = 0));
  ASSERT (bool_decide (pg_ofs upage = 0));
  ASSERT (bool_decide (Z.rem ofs PGSIZE = 0));
  iter (S (Z.to_nat (read_bytes + zero_bytes)))
    (fun '(t, cur_ofs, upage, read_bytes, zero_bytes) =>
       if bool_decide (read_bytes > 0) || bool_decide (zero_bytes > 0) then
         let page_read_bytes := if bool_decide (read_bytes < PGSIZE) then read_bytes else PGSIZE in
         let page_zero_bytes := PGSIZE - page_read_bytes in
         let! '(t, _) := page_insert (malloc_ok upage) t f cur_ofs upage page_read_bytes page_zero_bytes writable in
         ASSERT (bool_decide (is_Some (get_sup_pte t upage)));
         let t := alter (set_loaded false) upage t in
         let! cur_ofs := int_op (cur_ofs + PGSIZE) in
         Ret (inl (t, cur_ofs, u32 (upage + PGSIZE),
                   u32 (read_bytes - page_read_bytes), u32 (zero_bytes - page_zero_bytes)))
       else Ret (inr (t, true)))
    (t, ofs, upage, read_bytes, zero_bytes).

(** The case [PT_LOAD]. *)
Definition load_phdr (t : spt) (f : Z) (data : list Z) (ph : Elf32_Phdr) : res (spt * bool) :=
  if validate_segment ph data then
    let w := bool_decide (Z.land (p_flags ph) PF_W <> 0) in
    let file_page := Z.land (p_offset ph) (u32 (Z.lnot PGMASK)) in
    let mem_page := Z.land (p_vaddr ph) (u32 (Z.lnot PGMASK)) in
    let page_offset := Z.land (p_vaddr ph) PGMASK in
    let '(read_bytes, zero_bytes) :=
      if bool_decide (p_filesz ph > 0) then
        let read_bytes := u32 (page_offset + p_filesz ph) in
        (read_bytes, u32 (ROUND_UP (u32 (page_offset + p_memsz ph)) PGSIZE - read_bytes))
      else (0, ROUND_UP (u32 (page_offset + p_memsz ph)) PGSIZE) in
    load_segment t f (s32 file_page) mem_page read_bytes zero_bytes w
  else Ret (t, false).

(** One round of the loop over the program headers; [None] is [goto done]. *)
Definition header_round (f : Z) (data : list Z) (t : spt) (file_ofs : Z) : res (spt * option Z) :=
  if bool_decide (file_ofs < 0) || bool_decide (file_ofs > flength data) then Ret (t, None)
  else
    let! b := fread data file_ofs sizeof_phdr in
    if bool_decide (flength b <> sizeof_phdr) then Ret (t, None)
    else
      let ph := phdr_of b in
      let file_ofs := s32 (file_ofs + sizeof_phdr) in
      if bool_decide (p_type ph = PT_DYNAMIC) || bool_decide (p_type ph = PT_INTERP) || bool_decide (p_type ph = PT_SHLIB)
      then Ret (t, None)
      else if bool_decide (p_type ph = PT_LOAD) then
        let! '(t, ok) := load_phdr t f data ph in
        Ret (t, if (ok : bool) then Some file_ofs else None)
      else Ret (t, Some file_ofs).

Fixpoint load_headers (n : nat) (f : Z) (data : list Z) (t : spt) (file_ofs : Z) : res (spt * bool) :=
  match n with
  | O => Ret (t, true)
  | S n =>
      let! '(t, o) := header_round f data t file_ofs in
      match o with
      | None => Ret (t, false)
      | Some file_ofs => load_headers n f data t file_ofs
      end
  end.

(** [load], from the creation of the page directory on: [pagedir_ok] says whether that
    succeeded, [opened] is the executable, if it could be opened, [setup_stack] the call
    that follows the headers.  The result is the table and, on success, the entry point. *)
Definition load (pagedir_ok : bool) (opened : option (Z * list Z)) (setup_stack : spt -> res (spt * bool)) (t : spt)
    : res (spt * option Z) :=
  if negb pagedir_ok then Ret (t, None)
  else match opened with
  | None => Ret (t, None)
  | Some (f, data) =>
      let! b := fread data 0 sizeof_ehdr in
      if bool_decide (flength b <> sizeof_ehdr) then Ret (t, None)
      else
        let e := ehdr_of b in
        if ehdr_bad e then Ret (t, None)
        else
          let! '(t, ok) := load_headers (Z.to_nat (e_phnum e)) f data t (s32 (e_phoff e)) in
          if negb ok then Ret (t, None)
          else
            let! '(t, ok) := setup_stack t in
            Ret (t, if (ok : bool) then Some (e_entry e) else None)
  end.
End Load.
