(* ===== verification/LoaderProof.v ===== *)
(** * userprog/process.c: proofs about the loader *)

From S2P Require Import Prelude Cstring Stdlibc StdioProof Vaddr Loader.

(** ** What a validated segment is *)

Record segment_ok (ph : Elf32_Phdr) (data : list Z) : Prop := {
  so_aligned : p_offset ph mod 4096 = p_vaddr ph mod 4096;
  so_file : p_offset ph <= flength data;
  so_sizes : p_filesz ph <= p_memsz ph;
  so_memsz : 0 < p_memsz ph;
  so_low : 4096 <= p_vaddr ph;
  so_high : p_vaddr ph + p_memsz ph < PHYS_BASE
}.

Record phdr_u32 (ph : Elf32_Phdr) : Prop := {
  u_offset : is_u32 (p_offset ph);
  u_vaddr : is_u32 (p_vaddr ph);
  u_filesz : is_u32 (p_filesz ph);
  u_memsz : is_u32 (p_memsz ph)
}.

Lemma validate_segment_ok ph data : phdr_u32 ph -> flength data < 2 ^ 31 ->
  validate_segment ph data = true <-> segment_ok ph data.
Proof.
  intros [Ho Hv Hf Hm] Hd. unfold is_u32 in *. unfold validate_segment, is_user_vaddr.
  rewrite (u32_small (flength data)) by (unfold flength in *; lia).
  fold (pg_ofs (p_offset ph)). fold (pg_ofs (p_vaddr ph)). rewrite !pg_ofs_mod.
  unfold PHYS_BASE, LOADER_PHYS_BASE, PGSIZE in *.
  assert (u32 (p_vaddr ph + p_memsz ph) = p_vaddr ph + p_memsz ph \/
          u32 (p_vaddr ph + p_memsz ph) = p_vaddr ph + p_memsz ph - 2 ^ 32) as Hu.
  { unfold u32. destruct (decide (p_vaddr ph + p_memsz ph < 2 ^ 32)); [left; apply Z.mod_small; lia|right].
    symmetry. apply (Z.mod_unique _ _ 1); lia. }
  pose proof (u32_range (p_vaddr ph + p_memsz ph)) as Hrange.
  split.
  - intros H. repeat (case_bool_decide; simpl in H; try discriminate H). split; unfold PHYS_BASE, LOADER_PHYS_BASE; lia.
  - intros [H1 H2 H3 H4 H5 H6]. unfold PHYS_BASE, LOADER_PHYS_BASE in *. repeat (case_bool_decide; simpl; try lia); done.
Qed.

(** ** The pages of a segment *)

Section Segment.
Context (malloc_ok : Z -> bool) (malloc_all : forall p, malloc_ok p = true).
Context (f ofs base read : Z) (w : bool).

(** The bytes that page [k] takes from the file, and its entry. *)
Definition page_read (k : Z) : Z := Z.min 4096 (Z.max 0 (read - 4096 * k)).
Definition segment_entry (k : Z) : sup_pte :=
  mkPte f (base + 4096 * k) (page_read k) (4096 - page_read k) w (ofs + 4096 * k) false false None MAP_FAILED.

(** What the loop does for page [k]: a page that is there already keeps its entry. *)
Definition add_page (t : spt) (k : Z) : spt :=
  <[base + 4096 * k := from_option (set_loaded false) (segment_entry k) (t !! (base + 4096 * k))]> t.

Definition loop_body : spt * Z * Z * Z * Z -> res (spt * Z * Z * Z * Z + spt * bool) :=
  fun '(t, cur_ofs, upage, read_bytes, zero_bytes) =>
    if bool_decide (read_bytes > 0) || bool_decide (zero_bytes > 0) then
      let page_read_bytes := if bool_decide (read_bytes < PGSIZE) then read_bytes else PGSIZE in
      let page_zero_bytes := PGSIZE - page_read_bytes in
      let! '(t, _) := page_insert (malloc_ok upage) t f cur_ofs upage page_read_bytes page_zero_bytes w in
      ASSERT (bool_decide (is_Some (get_sup_pte t upage)));
      let t := alter (set_loaded false) upage t in
      let! cur_ofs := int_op (cur_ofs + PGSIZE) in
      Ret (inl (t, cur_ofs, u32 (upage + PGSIZE),
                u32 (read_bytes - page_read_bytes), u32 (zero_bytes - page_zero_bytes)))
    else Ret (inr (t, true)).

Definition loop_state (n : Z) (t : spt) (k : Z) : spt * Z * Z * Z * Z :=
  (t, ofs + 4096 * k, base + 4096 * k, Z.max 0 (read - 4096 * k), 4096 * (n - k) - Z.max 0 (read - 4096 * k)).

Lemma loop_round n t k : 0 <= ofs -> 0 <= base -> 0 <= read <= 4096 * n -> 0 <= k < n ->
  ofs + 4096 * n < 2 ^ 31 -> base + 4096 * n < 2 ^ 32 ->
  loop_body (loop_state n t k) = Ret (inl (loop_state n (add_page t k) (k + 1))).
Proof.
  intros Ho Hb Hr Hk Hof Hba. unfold loop_body, loop_state, PGSIZE.
  replace (bool_decide (Z.max 0 (read - 4096 * k) > 0) || _) with true.
  2:{ symmetry. apply orb_true_iff. rewrite !bool_decide_eq_true. lia. }
  replace (if bool_decide (Z.max 0 (read - 4096 * k) < 4096) then _ else _) with (page_read k).
  2:{ unfold page_read. case_bool_decide; lia. }
  rewrite malloc_all. unfold page_insert.
  assert (page_read k = Z.min 4096 (Z.max 0 (read - 4096 * k))) as Hp by done.
  rewrite int_op_small by lia. unfold get_sup_pte.
  rewrite !u32_small by lia.
  assert (forall a b c d e a' b' c' d' e', a = a' -> b = b' -> c = c' -> d = d' -> e = e' ->
    @Ret (spt * Z * Z * Z * Z + spt * bool) (inl (a, b, c, d, e)) = Ret (inl (a', b', c', d', e'))) as Hcong by congruence.
  destruct (t !! (base + 4096 * k)) as [e|] eqn:E; cbn [rbind].
  - rewrite bool_decide_true by (rewrite E; eauto). cbn [assert_ rbind]. apply Hcong; [|lia..].
    unfold add_page. rewrite E. simpl. apply map_eq. intros q. destruct (decide (q = base + 4096 * k)) as [->|Hq].
    + by rewrite lookup_alter_eq, lookup_insert_eq, E.
    + by rewrite lookup_alter_ne, lookup_insert_ne.
  - rewrite lookup_insert_eq. rewrite bool_decide_true by eauto. cbn [assert_ rbind]. apply Hcong; [|lia..].
    unfold add_page. rewrite E. simpl. apply map_eq. intros q. destruct (decide (q = base + 4096 * k)) as [->|Hq].
    + by rewrite lookup_alter_eq, !lookup_insert_eq.
    + by rewrite lookup_alter_ne, !lookup_insert_ne.
Qed.

Lemma loop_ok n : 0 <= ofs -> 0 <= base -> 0 <= read <= 4096 * n -> ofs + 4096 * n < 2 ^ 31 -> base + 4096 * n < 2 ^ 32 ->
  forall fuel t k, 0 <= k <= n -> (Z.to_nat (n - k) < fuel)%nat ->
  iter fuel loop_body (loop_state n t k) = Ret (foldl add_page t (seqZ k (n - k)), true).
Proof.
  intros Ho Hb Hr Hof Hba. induction fuel as [|fuel IH]; intros t k Hk Hf; [lia|].
  destruct (decide (k = n)) as [->|Hne].
  - rewrite Z.sub_diag. cbn [iter loop_body loop_state]. rewrite !bool_decide_false by lia. done.
  - cbn [iter]. rewrite loop_round by lia. cbn [rbind]. rewrite IH by lia.
    rewrite (seqZ_cons k) by lia. simpl.
    by replace (Z.pred (n - k)) with (n - (k + 1)) by lia.
Qed.

(** The pages added, when none of them was there: exactly those of the segment. *)
Lemma add_pages_lookup n t q : 0 <= n ->
  foldl add_page t (seqZ 0 n) !! q =
  if decide (base <= q < base + 4096 * n /\ (q - base) mod 4096 = 0)
  then Some (from_option (set_loaded false) (segment_entry ((q - base) / 4096)) (t !! q)) else t !! q.
Proof.
  intros Hn. pattern n. apply natlike_ind; [| |done].
  - simpl. by rewrite decide_False by lia.
  - clear n Hn. intros n Hn IH. replace (Z.succ n) with (n + 1) by lia. rewrite seqZ_app by lia.
    assert (seqZ (0 + n) 1 = [n]) as -> by (unfold seqZ; cbn; f_equal; lia).
    rewrite foldl_app. cbn [foldl]. set (t' := foldl add_page t (seqZ 0 n)) in *. unfold add_page.
    destruct (decide (q = base + 4096 * n)) as [->|Hq].
    + rewrite lookup_insert_eq, IH, decide_False by lia.
      replace (base + 4096 * n - base) with (n * 4096) by lia. rewrite Z.mod_mul, Z.div_mul by lia.
      by rewrite decide_True by lia.
    + rewrite lookup_insert_ne by done. rewrite IH. apply decide_ext. Z.div_mod_to_equations. lia.
Qed.

Lemma load_segment_ok n t zero : 0 <= ofs -> ofs mod 4096 = 0 -> 0 <= base -> base mod 4096 = 0 -> 0 <= read -> 0 <= zero ->
  read + zero = 4096 * n -> ofs + 4096 * n < 2 ^ 31 -> base + 4096 * n < 2 ^ 32 ->
  load_segment malloc_ok t f ofs base read zero w = Ret (foldl add_page t (seqZ 0 n), true).
Proof.
  intros Ho Hom Hb Hbm Hr Hz Hn Hof Hba. unfold load_segment. rewrite Hn, u32_small by lia.
  assert ((4096 * n) mod PGSIZE = 0) as -> by (unfold PGSIZE; rewrite Z.mul_comm; apply Z.mod_mul; lia).
  rewrite pg_ofs_mod, Hbm.
  rewrite (Z.rem_mod_nonneg ofs PGSIZE) by (unfold PGSIZE; lia). change (ofs mod PGSIZE) with (ofs mod 4096). rewrite Hom.
  rewrite !bool_decide_true by done. cbn [assert_ rbind].
  change (iter (S (Z.to_nat (4096 * n))) loop_body (t, ofs, base, read, zero) = Ret (foldl add_page t (seqZ 0 n), true)).
  replace (t, ofs, base, read, zero) with (loop_state n t 0).
  - rewrite loop_ok by lia. by rewrite Z.sub_0_r.
  - unfold loop_state. f_equal; [f_equal; [f_equal; [f_equal|]|]|]; lia.
Qed.
End Segment.

(** ** Segments of a file *)

Section Phdr.
Context (malloc_ok : Z -> bool) (malloc_all : forall p, malloc_ok p = true).
Context (f : Z) (data : list Z) (ph : Elf32_Phdr).
Context (phdr_words : phdr_u32 ph) (small_file : flength data < 2 ^ 29) (small_segment : p_memsz ph < 2 ^ 30).

(** The first page of the segment, the offset in the file it starts at, the bytes that are
    read and the number of pages. *)
Definition seg_base : Z := p_vaddr ph - p_vaddr ph mod 4096.
Definition seg_ofs : Z := p_offset ph - p_offset ph mod 4096.
Definition seg_read : Z := if bool_decide (p_filesz ph > 0) then p_vaddr ph mod 4096 + p_filesz ph else 0.
Definition seg_pages : Z := (p_vaddr ph mod 4096 + p_memsz ph + 4095) / 4096.
Definition seg_writable : bool := bool_decide (Z.land (p_flags ph) PF_W <> 0).
Definition seg_add : spt -> Z -> spt := add_page f seg_ofs seg_base seg_read seg_writable.

Lemma seg_bounds : segment_ok ph data ->
  0 <= seg_read <= 4096 * seg_pages /\ 0 < seg_pages /\ p_vaddr ph + p_memsz ph <= seg_base + 4096 * seg_pages /\
  4096 <= seg_base /\ seg_base + 4096 * seg_pages <= PHYS_BASE /\ 0 <= seg_ofs /\ seg_ofs + 4096 * seg_pages < 2 ^ 31 /\
  seg_base + 4096 * (seg_pages - 1) < p_vaddr ph + p_memsz ph.
Proof.
  intros [Ha Hf Hs Hm Hl Hh]. destruct phdr_words as [Ho Hv Hfz Hmz]. unfold is_u32 in *.
  unfold seg_base, seg_ofs, seg_read, seg_pages. unfold PHYS_BASE, LOADER_PHYS_BASE in *.
  pose proof (Z.div_mod (p_vaddr ph) 4096 ltac:(lia)). pose proof (Z.mod_pos_bound (p_vaddr ph) 4096 ltac:(lia)).
  pose proof (Z.mod_pos_bound (p_offset ph) 4096 ltac:(lia)). pose proof (Z.div_mod (p_offset ph) 4096 ltac:(lia)).
  set (P := (p_vaddr ph mod 4096 + p_memsz ph + 4095) / 4096).
  assert (4096 * P <= p_vaddr ph mod 4096 + p_memsz ph + 4095 < 4096 * P + 4096) by (unfold P; Z.div_mod_to_equations; lia).
  case_bool_decide; split_and!; lia.
Qed.

Lemma round_up_pages x : 0 <= x -> x + 4095 < 2 ^ 32 -> ROUND_UP x PGSIZE = 4096 * ((x + 4095) / 4096).
Proof.
  intros Hx Hb. unfold ROUND_UP, PGSIZE. replace (x + 4096 - 1) with (x + 4095) by lia. rewrite (u32_small (x + 4095)) by lia.
  rewrite u32_small; [lia|]. Z.div_mod_to_equations. lia.
Qed.

Lemma load_phdr_ok t : segment_ok ph data ->
  load_phdr malloc_ok t f data ph = Ret (foldl seg_add t (seqZ 0 seg_pages), true).
Proof.
  intros Hok. pose proof (seg_bounds Hok) as (Hr & Hp & Hend & Hlo & Hhi & Ho & Hof & _).
  unfold load_phdr. rewrite (proj2 (validate_segment_ok ph data phdr_words ltac:(lia)) Hok).
  destruct Hok as [Ha Hf Hs Hm Hl Hh]. destruct phdr_words as [Hpo Hv Hfz Hmz].
  rewrite !land_notmask by done. fold (pg_ofs (p_vaddr ph)). rewrite pg_ofs_mod. unfold is_u32 in *.
  fold seg_ofs seg_base seg_writable. rewrite s32_small by lia. unfold PHYS_BASE, LOADER_PHYS_BASE in *.
  pose proof (Z.mod_pos_bound (p_vaddr ph) 4096 ltac:(lia)) as Hmod.
  rewrite (u32_small (_ + p_memsz ph)) by lia. rewrite round_up_pages by lia. fold seg_pages.
  unfold seg_add, seg_base, seg_ofs in *.
  unfold seg_read in *. case_bool_decide.
  - rewrite (u32_small (_ + p_filesz ph)) by lia. rewrite u32_small by lia.
    apply load_segment_ok; try done; try lia; Z.div_mod_to_equations; lia.
  - apply load_segment_ok; try done; try lia; Z.div_mod_to_equations; lia.
Qed.

Lemma load_phdr_bad t : ~ segment_ok ph data -> load_phdr malloc_ok t f data ph = Ret (t, false).
Proof.
  intros Hbad. unfold load_phdr. destruct (validate_segment ph data) eqn:E; [|done].
  by apply validate_segment_ok in E; [|done|lia].
Qed.

Lemma seg_entry_at t a : segment_ok ph data -> p_vaddr ph <= a < p_vaddr ph + p_memsz ph ->
  exists k, 0 <= k < seg_pages /\ a - a mod 4096 = seg_base + 4096 * k /\
    foldl seg_add t (seqZ 0 seg_pages) !! (a - a mod 4096) =
      Some (from_option (set_loaded false) (segment_entry f seg_ofs seg_base seg_read seg_writable k) (t !! (a - a mod 4096))).
Proof.
  intros Hok Ha. pose proof (seg_bounds Hok) as (_ & Hp & Hend & Hlo & _).
  assert (seg_base mod 4096 = 0) as Hb by (unfold seg_base; Z.div_mod_to_equations; lia).
  assert (seg_base <= p_vaddr ph) by (unfold seg_base; pose proof (Z.mod_pos_bound (p_vaddr ph) 4096); lia).
  exists ((a - a mod 4096 - seg_base) / 4096).
  assert (0 <= (a - a mod 4096 - seg_base) / 4096 < seg_pages /\
          a - a mod 4096 = seg_base + 4096 * ((a - a mod 4096 - seg_base) / 4096)) as [Hk Heq].
  { clear - Hb Ha Hend H. Z.div_mod_to_equations. lia. }
  split; [done|]. split; [done|]. unfold seg_add. rewrite add_pages_lookup by lia. rewrite decide_True; [done|].
  - split; [lia|]. rewrite Heq. replace (seg_base + _ - seg_base) with ((a - a mod 4096 - seg_base) / 4096 * 4096) by lia.
    apply Z.mod_mul. lia.
Qed.
End Phdr.

(** ** Whole files *)

Lemma half_range b ofs : Forall is_u8 b -> 0 <= half b ofs < 65536.
Proof.
  intros Hb. unfold half.
  assert (forall n, 0 <= nth n b 0 < 256) as Hn.
  { intros n. destruct (nth_in_or_default n b 0) as [Hin| ->]; [|lia]. rewrite Forall_forall in Hb.
    apply list_elem_of_In in Hin. by apply Hb. }
  pose proof (Hn ofs). pose proof (Hn (S ofs)). lia.
Qed.

Lemma elf_word_range b ofs : Forall is_u8 b -> is_u32 (elf_word b ofs).
Proof. intros Hb. unfold is_u32, elf_word. pose proof (half_range b ofs Hb). pose proof (half_range b (2 + ofs) Hb). lia. Qed.

Lemma phdr_of_u32 b : Forall is_u8 b -> phdr_u32 (phdr_of b).
Proof. intros Hb. split; simpl; by apply elf_word_range. Qed.

(** A page that a program may have: page-aligned, in user memory, not page 0. *)
Definition user_page (q : Z) : Prop := q mod 4096 = 0 /\ 4096 <= q < PHYS_BASE.

Definition user_pages (t : spt) : Prop := forall q e, t !! q = Some e -> user_page q.

(** The file is shorter than 512 MB and no loadable segment is larger than 1 GB, so that
    offsets and addresses do not leave their types. *)
Record sane_file (data : list Z) : Prop := {
  sf_bytes : Forall is_u8 data;
  sf_length : flength data < 2 ^ 29;
  sf_segments : forall ofs b, fread data ofs sizeof_phdr = Ret b -> p_type (phdr_of b) = PT_LOAD -> p_memsz (phdr_of b) < 2 ^ 30
}.

Section Safe.
Context (malloc_ok : Z -> bool) (malloc_all : forall p, malloc_ok p = true).
Context (f : Z) (data : list Z) (sane : sane_file data).

Lemma fread_bytes ofs size b : fread data ofs size = Ret b -> Forall is_u8 b.
Proof.
  unfold fread. case_bool_decide; [|done]. intros [= <-]. apply Forall_take, Forall_drop, sane.
Qed.

Lemma seg_pages_user ph t : phdr_u32 ph -> p_memsz ph < 2 ^ 30 -> segment_ok ph data -> user_pages t ->
  user_pages (foldl (seg_add f ph) t (seqZ 0 (seg_pages ph))).
Proof.
  intros Hu Hm Hok Ht q e. pose proof (seg_bounds data ph Hu (sf_length _ sane) Hm Hok) as (_ & Hp & _ & Hlo & Hhi & _).
  unfold seg_add. rewrite add_pages_lookup by lia. case_decide as Hq; [|by apply Ht]. intros _. split; [|lia].
  destruct Hq as [_ Hq]. assert (seg_base ph mod 4096 = 0) by (unfold seg_base; Z.div_mod_to_equations; lia).
  Z.div_mod_to_equations. lia.
Qed.

Lemma header_round_ok t ofs : user_pages t ->
  exists t' o, header_round malloc_ok f data t ofs = Ret (t', o) /\ user_pages t'.
Proof.
  intros Ht. unfold header_round. destruct (bool_decide (ofs < 0) || _) eqn:Hofs; [eauto|].
  apply orb_false_iff in Hofs as [H1 H2]. apply bool_decide_eq_false in H1, H2.
  destruct (fread data ofs sizeof_phdr) as [b| | |] eqn:Hb;
    try (unfold fread in Hb; rewrite bool_decide_true in Hb by lia; discriminate Hb).
  cbn [rbind]. case_bool_decide; [eauto|]. destruct (bool_decide _ || _ || _); [eauto|].
  case_bool_decide as Hload; [|eauto].
  pose proof (phdr_of_u32 b (fread_bytes _ _ _ Hb)) as Hu. pose proof (sf_segments _ sane _ _ Hb Hload) as Hm.
  destruct (decide (validate_segment (phdr_of b) data = true)) as [Hv|Hv].
  - apply validate_segment_ok in Hv; [|done|pose proof (sf_length _ sane); lia].
    rewrite load_phdr_ok by (done || apply sane). cbn [rbind]. eexists _, _. split; [done|]. by apply seg_pages_user.
  - rewrite load_phdr_bad; [cbn [rbind]; eauto|done|apply sane|].
    intros Hok. apply Hv. apply validate_segment_ok; [done|pose proof (sf_length _ sane); lia|done].
Qed.

Lemma load_headers_ok n : forall t ofs, user_pages t ->
  exists t' ok, load_headers malloc_ok n f data t ofs = Ret (t', ok) /\ user_pages t'.
Proof.
  induction n as [|n IH]; intros t ofs Ht; cbn [load_headers]; [eauto|].
  destruct (header_round_ok t ofs Ht) as (t1 & o & -> & Ht1). cbn [rbind]. destruct o; [by apply IH|eauto].
Qed.
End Safe.


(** An executable with one segment of 16 bytes at 0x08048074 (offset 116), of which the
    file has four. *)
Definition tiny_elf : list Z :=
  [127; 69; 76; 70; 1; 1; 1; 0; 0; 0; 0; 0; 0; 0; 0; 0;  2; 0; 3; 0; 1; 0; 0; 0;  116; 128; 4; 8;  52; 0; 0; 0;
   0; 0; 0; 0; 0; 0; 0; 0;  52; 0; 32; 0; 1; 0; 0; 0; 0; 0; 0; 0] ++
  [1; 0; 0; 0;  116; 0; 0; 0;  116; 128; 4; 8;  0; 0; 0; 0;  4; 0; 0; 0;  16; 0; 0; 0;  7; 0; 0; 0;  0; 16; 0; 0] ++
  replicate 32 0 ++ [1; 2; 3; 4].

Definition small_segments (data : list Z) : bool :=
  forallb (fun ofs => match fread data (Z.of_nat ofs) sizeof_phdr with
                      | Ret b => bool_decide (p_type (phdr_of b) = PT_LOAD -> p_memsz (phdr_of b) < 2 ^ 30)
                      | _ => true
                      end) (seq 0 (S (length data))).

Lemma small_segments_ok data : small_segments data = true -> forall ofs b, fread data ofs sizeof_phdr = Ret b ->
  p_type (phdr_of b) = PT_LOAD -> p_memsz (phdr_of b) < 2 ^ 30.
Proof.
  unfold small_segments. rewrite forallb_forall. intros H ofs b Hb.
  assert (0 <= ofs <= flength data) as Ho by (unfold fread in Hb; case_bool_decide; done).
  unfold flength in Ho. specialize (H (Z.to_nat ofs) ltac:(apply in_seq; lia)). rewrite Z2Nat.id in H by lia.
  rewrite Hb in H. by apply (bool_decide_eq_true_1 _) in H.
Qed.

Lemma tiny_elf_sane : sane_file tiny_elf.
Proof.
  split; [|done|apply small_segments_ok; vm_compute; reflexivity].
  apply (bool_decide_unpack (Forall (fun x => 0 <= x < 2 ^ 8) tiny_elf)). vm_compute. exact I.
Qed.


(** The executable is accepted, and its page is entered. *)
Example tiny_elf_loads : load (fun _ => true) true (Some (3, tiny_elf)) (fun t => Ret (t, true)) ∅ =
  Ret ({[0x08048000 := mkPte 3 0x08048000 120 3976 true 0 false false None MAP_FAILED]}, Some 0x08048074).
Proof. vm_compute. reflexivity. Qed.

(** C21. A validated segment is entered byte by byte as the program header says, except
    where a segment before it has been: each address of the segment whose page had no entry
    lies on a page with an entry for the file, an address below [p_filesz] gets the byte of
    the file at the corresponding offset, the addresses behind are zeroed.  A page that is
    in the table already, because two segments share it, keeps its old entry, so the bytes
    of the new segment on it are not entered, and [load_segment] still returns true.  No
    page outside the segment is touched.  The file has less than 2^29 bytes, the segment
    less than 2^30, and every call of [malloc] succeeds. *)
Theorem load_segment_image malloc_ok t f data ph :
  (forall p, malloc_ok p = true) -> phdr_u32 ph -> flength data < 2 ^ 29 -> p_memsz ph < 2 ^ 30 ->
  validate_segment ph data = true ->
  exists t', load_phdr malloc_ok t f data ph = Ret (t', true) /\
    (forall a, p_vaddr ph <= a < p_vaddr ph + p_memsz ph -> t !! pg_round_down a = None ->
       exists e, t' !! pg_round_down a = Some e /\ file e = f /\ loaded e = false /\ swapped e = false /\
         writable e = bool_decide (Z.land (p_flags ph) PF_W <> 0) /\ read_bytes e + zero_bytes e = PGSIZE /\
         (a < p_vaddr ph + p_filesz ph ->
            pg_ofs a < read_bytes e /\ file_ofs e + pg_ofs a = p_offset ph + (a - p_vaddr ph)) /\
         (p_vaddr ph + p_filesz ph <= a -> read_bytes e <= pg_ofs a)) /\
    (forall a e, p_vaddr ph <= a < p_vaddr ph + p_memsz ph -> t !! pg_round_down a = Some e ->
       t' !! pg_round_down a = Some (set_loaded false e)) /\
    (forall q, ~ seg_base ph <= q < p_vaddr ph + p_memsz ph -> t' !! q = t !! q).
Proof.
  intros Hm Hu Hd Hs Hv. apply validate_segment_ok in Hv as Hok; [|done|lia].
  exists (foldl (seg_add f ph) t (seqZ 0 (seg_pages ph))). split; [by apply load_phdr_ok|].
  pose proof (seg_bounds data ph Hu Hd Hs Hok) as (Hr & Hp & Hend & Hlo & Hhi & Hof & _ & Hlast).
  assert (Hround : forall a, p_vaddr ph <= a < p_vaddr ph + p_memsz ph -> pg_round_down a = a - a mod 4096).
  { intros a Ha. apply pg_round_down_eq. destruct Hu, Hok. unfold is_u32, PHYS_BASE, LOADER_PHYS_BASE in *. lia. }
  split; [|split].
  - intros a Ha Hnone. rewrite Hround in Hnone |- * by done.
    destruct (seg_entry_at f data ph Hu Hd Hs t a Hok Ha) as (k & Hk & Hak & ->). rewrite Hnone. cbn [from_option].
    eexists. split; [done|]. destruct Hu as [Hpo Hpv Hpf Hpm], Hok as [Hal Hfile Hsz Hms Hl Hh]. unfold is_u32, PHYS_BASE, LOADER_PHYS_BASE in *. rewrite pg_ofs_mod.
    unfold segment_entry, page_read, PGSIZE; cbn [file loaded swapped writable read_bytes zero_bytes file_ofs].
    pose proof (Z.mod_pos_bound a 4096 ltac:(lia)). pose proof (Z.mod_pos_bound (p_vaddr ph) 4096 ltac:(lia)).
    unfold seg_base, seg_ofs in *. split_and!; [done..|lia| |]; intros Hx; unfold seg_read in *; case_bool_decide; lia.
  - intros a e Ha He. rewrite Hround in He |- * by done.
    destruct (seg_entry_at f data ph Hu Hd Hs t a Hok Ha) as (k & Hk & Hak & ->). by rewrite He.
  - intros q Hq. unfold seg_add. rewrite add_pages_lookup by lia. apply decide_False. intros [Hq1 Hq2].
    assert (exists k, q = seg_base ph + 4096 * k) as [k ->].
    { exists ((q - seg_base ph) / 4096). Z.div_mod_to_equations. lia. } lia.
Qed.

Definition tiny_phdr : Elf32_Phdr := mkPhdr 1 116 0x08048074 4 16 7.

Lemma load_segment_image_witness : exists t', load_phdr (fun _ => true) ∅ 3 tiny_elf tiny_phdr = Ret (t', true) /\
  (exists e, t' !! pg_round_down 0x08048076 = Some e /\ pg_ofs 0x08048076 < read_bytes e /\
     file_ofs e + pg_ofs 0x08048076 = 118) /\ t' !! 0 = None.
Proof.
  destruct (load_segment_image (fun _ => true) ∅ 3 tiny_elf tiny_phdr) as (t' & Hl & Ha & _ & Hq);
    [done|by repeat split|done|done|vm_compute; reflexivity|].
  exists t'. split; [done|]. split.
  - destruct (Ha 0x08048076) as (e & He & _ & _ & _ & _ & _ & Hr & _); [simpl; lia|done|]. exists e. split; [done|].
    apply Hr. simpl. lia.
  - rewrite Hq; [done|]. vm_compute. intros [H _]. by apply H.
Defined.
