(* ===== verification/Swap.v ===== *)
(** * vm/swap.c: the swap disk

    A slot of the swap disk holds a page in eight consecutive sectors; a bitmap says which
    slots are in use.  A page is its 4096 bytes.  The calls hold the swap lock throughout. *)

From S2P Require Import Prelude Bitmap Vaddr Cache.

Record swap := mkSwap { swap_table : bitmap; swap_disk : gmap Z (list Z) }.

Definition PAGE_SECTORS : Z := PGSIZE / DISK_SECTOR_SIZE.

(** A sector outside the disk fails an assertion of the driver. *)
Definition sector_write (d : gmap Z (list Z)) (s : Z) (b : list Z) : res (gmap Z (list Z)) :=
  match d !! s with Some _ => Ret (<[s := b]> d) | None => Panic end.
Definition sector_read (d : gmap Z (list Z)) (s : Z) : res (list Z) :=
  match d !! s with Some b => Ret b | None => Panic end.

(** The first sector of a slot; the product is a [size_t]. *)
Definition slot_sector (swap_idx : Z) : Z := u32 (swap_idx * PGSIZE) / DISK_SECTOR_SIZE.

(** [disk] is the swap disk, [None] when there is none, [size] its number of sectors; the
    other arguments are the results of the two calls of [malloc] of [bitmap_create]. *)
Definition swap_init (disk : option (gmap Z (list Z))) (size : Z) (malloc_b : bool) (malloc_bits : option (list Z))
    : res swap :=
  match disk with
  | None => Panic
  | Some d =>
      let! o := bitmap_create malloc_b malloc_bits (u32 (size * DISK_SECTOR_SIZE) / PGSIZE) in
      match o with Some b => Ret (mkSwap b d) | None => Ub end
  end.

Definition swap_set (s : swap) (swap_idx : Z) (value : bool) : res swap :=
  let! t := bitmap_test (swap_table s) swap_idx in
  ASSERT t;
  let! b := bitmap_set (swap_table s) swap_idx value in
  Ret (mkSwap b (swap_disk s)).

Definition swap_out (s : swap) (page : list Z) : res (swap * Z) :=
  let! '(swap_idx, b) := bitmap_scan_and_flip (swap_table s) 0 1 false in
  ASSERT (bool_decide (swap_idx <> BITMAP_ERROR));
  let! d := for_up (Z.to_nat PAGE_SECTORS) 0
    (fun k d => sector_write d (slot_sector swap_idx + k)
       (take (Z.to_nat DISK_SECTOR_SIZE) (drop (Z.to_nat (k * DISK_SECTOR_SIZE)) page))) (swap_disk s) in
  Ret (mkSwap b d, swap_idx).

(** The page read from the slot of the entry, which is given by its [swap_index]. *)
Definition swap_in (s : swap) (swap_idx : Z) : res (swap * list Z) :=
  let! b := bitmap_set (swap_table s) swap_idx false in
  let! page := for_up (Z.to_nat PAGE_SECTORS) 0
    (fun k page => let! x := sector_read (swap_disk s) (slot_sector swap_idx + k) in Ret (page ++ x)) [] in
  Ret (mkSwap b (swap_disk s), page).

(** ** The slots that a swap disk stands for *)

Abbreviation slots := (gmap Z (list Z)).

(** The eight sectors of a slot hold a page. *)
Definition slot_holds (d : gmap Z (list Z)) (i : Z) (page : list Z) : Prop :=
  forall k, 0 <= k < 8 -> d !! (8 * i + k) = Some (take 512 (drop (Z.to_nat (512 * k)) page)).

Record holds_slots (s : swap) (sl : slots) : Prop := {
  hs_wf : wf (swap_table s);
  hs_few : bit_cnt (swap_table s) <= 2 ^ 20;
  hs_disk : forall i, 0 <= i < 8 * bit_cnt (swap_table s) -> exists b, swap_disk s !! i = Some b /\ length b = 512%nat;
  hs_bits : forall i, 0 <= i < bit_cnt (swap_table s) -> bit (swap_table s) i = true <-> is_Some (sl !! i);
  hs_range : forall i, is_Some (sl !! i) -> 0 <= i < bit_cnt (swap_table s);
  hs_pages : forall i page, sl !! i = Some page -> length page = 4096%nat /\ slot_holds (swap_disk s) i page
}.

Lemma slot_sector_eq i : 0 <= i < 2 ^ 20 -> slot_sector i = 8 * i.
Proof.
  intros Hi. unfold slot_sector, PGSIZE, DISK_SECTOR_SIZE. rewrite u32_small by lia.
  replace (i * 4096) with (8 * i * 512) by lia. apply Z.div_mul. lia.
Qed.

Lemma take_add (l : list Z) n m : take (n + m) l = take n l ++ take m (drop n l).
Proof. revert l; induction n as [|n IH]; intros [|x l]; simpl; [by rewrite ?take_nil..|by rewrite take_nil|by rewrite IH]. Qed.

Lemma read_slot d i page : 0 <= i < 2 ^ 20 -> length page = 4096%nat -> slot_holds d i page ->
  for_up 8 0 (fun k page => let! x := sector_read d (slot_sector i + k) in Ret (page ++ x)) [] = Ret page.
Proof.
  intros Hi Hl Hh. rewrite slot_sector_eq by done.
  destruct (for_up_total (fun k p => p = take (Z.to_nat (512 * k)) page)
    (fun k page => let! x := sector_read d (8 * i + k) in Ret (page ++ x)) 8 0 []) as (p & -> & Hp).
  - done.
  - intros k p Hk ->. unfold sector_read. rewrite Hh by lia. cbn [rbind]. eexists. split; [done|].
    replace (Z.to_nat (512 * (k + 1))) with (Z.to_nat (512 * k) + 512)%nat by lia. by rewrite take_add.
  - f_equal. rewrite Hp. apply take_ge. rewrite Hl. simpl. lia.
Qed.

Lemma write_slot d i page : 0 <= i < 2 ^ 20 -> length page = 4096%nat ->
  (forall k, 0 <= k < 8 -> exists b, d !! (8 * i + k) = Some b /\ length b = 512%nat) ->
  exists d', for_up 8 0 (fun k d => sector_write d (slot_sector i + k) (take 512 (drop (Z.to_nat (k * 512)) page))) d = Ret d' /\
    slot_holds d' i page /\ (forall q, ~ 8 * i <= q < 8 * i + 8 -> d' !! q = d !! q).
Proof.
  intros Hi Hl Hd. rewrite slot_sector_eq by done.
  destruct (for_up_total (fun k d' => (forall j, 0 <= j < k -> d' !! (8 * i + j) = Some (take 512 (drop (Z.to_nat (512 * j)) page))) /\
      (forall q, ~ 8 * i <= q < 8 * i + k -> d' !! q = d !! q))
    (fun k d => sector_write d (8 * i + k) (take 512 (drop (Z.to_nat (k * 512)) page))) 8 0 d) as (d' & -> & Hh & Ho).
  - split; [lia|done].
  - intros k d' Hk [Hh Ho]. unfold sector_write. rewrite Ho by lia. destruct (Hd k ltac:(lia)) as (b & -> & _).
    eexists. split; [done|]. split.
    + intros j Hj. destruct (decide (j = k)) as [->|].
      * rewrite lookup_insert_eq. do 3 f_equal. lia.
      * rewrite lookup_insert_ne by lia. apply Hh. lia.
    + intros q Hq. rewrite lookup_insert_ne by lia. apply Ho. lia.
  - exists d'. split; [done|]. split; [exact Hh|exact Ho].
Qed.

Lemma holds_other d d' i j page : i <> j -> slot_holds d j page -> (forall q, ~ 8 * i <= q < 8 * i + 8 -> d' !! q = d !! q) ->
  slot_holds d' j page.
Proof. intros Hne Hh Ho k Hk. rewrite Ho by lia. by apply Hh. Qed.

Lemma slot_piece_length (page : list Z) k : length page = 4096%nat -> 0 <= k < 8 ->
  length (take 512 (drop (Z.to_nat (512 * k)) page)) = 512%nat.
Proof. intros Hl Hk. rewrite length_take, length_drop, Hl. lia. Qed.

(** ** The calls *)

(** The lowest slot that is not in use. *)
Definition lowest_free (n : Z) (sl : slots) (i : Z) : Prop :=
  0 <= i < n /\ sl !! i = None /\ forall j, 0 <= j < i -> is_Some (sl !! j).

Lemma swap_out_ok s sl page : holds_slots s sl -> length page = 4096%nat ->
  (swap_out s page = Panic /\ forall j, 0 <= j < bit_cnt (swap_table s) -> is_Some (sl !! j)) \/
  (exists s' i, swap_out s page = Ret (s', i) /\ lowest_free (bit_cnt (swap_table s)) sl i /\ holds_slots s' (<[i := page]> sl) /\
     bit_cnt (swap_table s') = bit_cnt (swap_table s)).
Proof.
  intros [Hwf Hfew Hdisk Hbits Hrange Hpages] Hl. unfold swap_out.
  pose proof (wf_cnt _ Hwf) as Hcnt.
  assert (forall j, group (swap_table s) j 1 false <-> bit (swap_table s) j = false) as Hg.
  { intros j. unfold group. split; [intros H; apply H; lia|]. intros H k Hk. by replace k with j by lia. }
  destruct (bitmap_scan_and_flip_ok (swap_table s) 0 1 false Hwf ltac:(lia) ltac:(lia))
    as [[-> Hnone]|(i & b' & -> & Hne & H0 & Hi & Hgi & Hfirst & Hupd)]; cbn [rbind].
  - left. rewrite bool_decide_false by auto. split; [done|]. intros j Hj. apply Hbits; [done|].
    specialize (Hnone j ltac:(lia) ltac:(lia)). rewrite Hg in Hnone. by destruct (bit (swap_table s) j).
  - right. rewrite bool_decide_true by done. cbn [assert_ rbind]. apply Hg in Hgi.
    destruct (write_slot (swap_disk s) i page) as (d' & Hw & Hh & Ho); [lia|done|intros k Hk; apply Hdisk; lia|].
    change (Z.to_nat PAGE_SECTORS) with 8%nat. change (Z.to_nat DISK_SECTOR_SIZE) with 512%nat.
    unfold DISK_SECTOR_SIZE. rewrite Hw. cbn [rbind].
    assert (sl !! i = None) as Hnew.
    { apply eq_None_not_Some. rewrite <- Hbits by lia. by rewrite Hgi. }
    eexists _, i. split; [done|]. destruct Hupd as [Hwf' Hcnt' _ Hbit']. split; [|split; [|done]].
    { split; [lia|]. split; [done|]. intros j Hj. apply Hbits; [lia|].
      specialize (Hfirst j Hj). rewrite Hg in Hfirst. by destruct (bit (swap_table s) j). }
    split; simpl; rewrite ?Hcnt'; try done.
    + intros q Hq. destruct (decide (8 * i <= q < 8 * i + 8)) as [Hin|Hout].
      * exists (take 512 (drop (Z.to_nat (512 * (q - 8 * i))) page)). split; [|apply slot_piece_length; lia].
        rewrite <- (Hh (q - 8 * i)) by lia. f_equal. lia.
      * rewrite Ho by done. by apply Hdisk.
    + intros j Hj. rewrite Hbit' by lia. destruct (decide (j = i)) as [->|Hji].
      * rewrite lookup_insert_eq. unfold in_range. rewrite Z.leb_refl, (proj2 (Z.ltb_lt i (i + 1))) by lia. simpl. naive_solver.
      * rewrite lookup_insert_ne by done. replace (in_range i 1 j) with false; [by apply Hbits|].
        symmetry. apply not_true_iff_false. rewrite in_range_spec. lia.
    + intros j [pg Hj]. destruct (decide (j = i)) as [->|Hji]; [lia|]. rewrite lookup_insert_ne in Hj by done. apply Hrange. eauto.
    + intros j pg Hj. destruct (decide (j = i)) as [->|Hji].
      * rewrite lookup_insert_eq in Hj. by simplify_eq.
      * rewrite lookup_insert_ne in Hj by done. destruct (Hpages _ _ Hj). split; [done|].
        eapply holds_other; [|done|done]. congruence.
Qed.

(** A slot is given back: what [swap_in] and [swap_set] have in common. *)
Lemma release_slot_ok s sl i b : holds_slots s sl -> is_Some (sl !! i) ->
  updated (swap_table s) b (fun j => if j =? i then false else bit (swap_table s) j) ->
  holds_slots (mkSwap b (swap_disk s)) (delete i sl).
Proof.
  intros [Hwf Hfew Hdisk Hbits Hrange Hpages] Hi [Hwf' Hcnt' _ Hbit']. split; simpl; rewrite ?Hcnt'; try done.
  - intros j Hj. rewrite Hbit' by lia. destruct (Z.eqb_spec j i) as [->|Hne].
    + rewrite lookup_delete_eq. split; [done|by intros [? ?]].
    + rewrite lookup_delete_ne by done. by apply Hbits.
  - intros j [pg Hj]. apply lookup_delete_Some in Hj as [_ Hj]. apply Hrange. eauto.
  - intros j pg Hj. apply lookup_delete_Some in Hj as [_ Hj]. by apply Hpages.
Qed.

Lemma swap_in_ok s sl i page : holds_slots s sl -> sl !! i = Some page ->
  exists s', swap_in s i = Ret (s', page) /\ holds_slots s' (delete i sl) /\ bit_cnt (swap_table s') = bit_cnt (swap_table s).
Proof.
  intros Hs Hi. pose proof (hs_range _ _ Hs i ltac:(eauto)) as Hr. pose proof (hs_few _ _ Hs).
  destruct (bitmap_set_ok (swap_table s) i false) as (b & Hb & Hu); [apply Hs|done|].
  destruct (hs_pages _ _ Hs _ _ Hi) as [Hl Hh].
  unfold swap_in. rewrite Hb. cbn [rbind]. change (Z.to_nat PAGE_SECTORS) with 8%nat. rewrite (read_slot _ _ page) by (done || lia).
  cbn [rbind]. eexists. split; [done|]. split; [apply release_slot_ok; eauto|]. simpl. apply Hu.
Qed.

Lemma swap_set_ok s sl i : holds_slots s sl -> is_Some (sl !! i) ->
  exists s', swap_set s i false = Ret s' /\ holds_slots s' (delete i sl) /\ bit_cnt (swap_table s') = bit_cnt (swap_table s).
Proof.
  intros Hs Hi. pose proof (hs_range _ _ Hs i Hi) as Hr. unfold swap_set. rewrite bitmap_test_ok; [|apply Hs|done].
  cbn [rbind]. rewrite (proj2 (hs_bits _ _ Hs i Hr) Hi). cbn [assert_ rbind].
  destruct (bitmap_set_ok (swap_table s) i false) as (b & -> & Hu); [apply Hs|done|].
  cbn [rbind]. eexists. split; [done|]. split; [by apply release_slot_ok|]. simpl. apply Hu.
Qed.

(** ** Series of calls *)

Inductive swap_call : Set := SwapOut (page : list Z) | SwapIn (i : Z) | SwapFree (i : Z).

(** Results: the slot of a page swapped out, the page swapped in. *)
Inductive swap_result : Set := Slot (i : Z) | Page (page : list Z) | Done.

Definition do_swap_call (s : swap) (o : swap_call) : res (swap * swap_result) :=
  match o with
  | SwapOut page => let! '(s, i) := swap_out s page in Ret (s, Slot i)
  | SwapIn i => let! '(s, page) := swap_in s i in Ret (s, Page page)
  | SwapFree i => let! s := swap_set s i false in Ret (s, Done)
  end.

Fixpoint do_swap_calls (s : swap) (os : list swap_call) : res (swap * list swap_result) :=
  match os with
  | [] => Ret (s, [])
  | o :: os => let! '(s, r) := do_swap_call s o in let! '(s, rs) := do_swap_calls s os in Ret (s, r :: rs)
  end.

(** What the calls mean on [n] slots: a page goes to the lowest free slot, a slot that is
    read or freed becomes free. *)
Inductive spec_call (n : Z) (sl : slots) : swap_call -> slots -> swap_result -> Prop :=
| spec_out page i : length page = 4096%nat -> lowest_free n sl i -> spec_call n sl (SwapOut page) (<[i := page]> sl) (Slot i)
| spec_in i page : sl !! i = Some page -> spec_call n sl (SwapIn i) (delete i sl) (Page page)
| spec_free i : is_Some (sl !! i) -> spec_call n sl (SwapFree i) (delete i sl) Done.

Inductive spec_calls (n : Z) : slots -> list swap_call -> slots -> list swap_result -> Prop :=
| specs_nil sl : spec_calls n sl [] sl []
| specs_cons sl o sl1 r os sl2 rs : spec_call n sl o sl1 r -> spec_calls n sl1 os sl2 rs ->
    spec_calls n sl (o :: os) sl2 (r :: rs).

Lemma lowest_free_unique n sl i j : lowest_free n sl i -> lowest_free n sl j -> i = j.
Proof.
  intros (Hi & Hni & Hbi) (Hj & Hnj & Hbj). destruct (Z.lt_trichotomy i j) as [H|[H|H]]; [|done|].
  - destruct (Hbj i) as [? Hs]; [lia|]. by rewrite Hni in Hs.
  - destruct (Hbi j) as [? Hs]; [lia|]. by rewrite Hnj in Hs.
Qed.

Lemma do_swap_call_ok s sl o sl' r : holds_slots s sl -> spec_call (bit_cnt (swap_table s)) sl o sl' r ->
  exists s', do_swap_call s o = Ret (s', r) /\ holds_slots s' sl' /\ bit_cnt (swap_table s') = bit_cnt (swap_table s).
Proof.
  intros Hs Ho. destruct Ho as [page i Hl Hf|i page Hi|i Hi]; simpl.
  - destruct (swap_out_ok s sl page Hs Hl) as [[_ Hfull]|(s' & j & -> & Hj & Hs' & Hc)].
    + destruct Hf as (Hi & Hn & _). destruct (Hfull i Hi) as [? Hx]. by rewrite Hn in Hx.
    + rewrite (lowest_free_unique _ _ _ _ Hf Hj). cbn [rbind]. eauto.
  - destruct (swap_in_ok s sl i page Hs Hi) as (s' & -> & Hs' & Hc). cbn [rbind]. eauto.
  - destruct (swap_set_ok s sl i Hs Hi) as (s' & -> & Hs' & Hc). cbn [rbind]. eauto.
Qed.

(** After [swap_init] no slot is in use. *)
Lemma swap_init_ok d size words : 0 <= size < 2 ^ 23 ->
  (forall i, 0 <= i < size -> exists b, d !! i = Some b /\ length b = 512%nat) ->
  (size / 8 + 31) / 32 <= Z.of_nat (length words) -> Forall is_u32 words ->
  exists s, swap_init (Some d) size true (Some words) = Ret s /\ holds_slots s ∅ /\ bit_cnt (swap_table s) = size / 8.
Proof.
  intros Hsz Hd Hw Hu. unfold swap_init, bitmap_create, PGSIZE, DISK_SECTOR_SIZE. rewrite u32_small by lia.
  replace (size * 512 / 4096) with (size / 8) by (change 4096 with (8 * 512); by rewrite Z.div_mul_cancel_r by lia).
  assert (0 <= size / 8 <= 2 ^ 20) as Hn by (Z.div_mod_to_equations; lia).
  destruct (bitmap_set_all_ok (Bitmap (size / 8) words) false) as (b & -> & [Hwf Hc _ Hb]); [split; simpl; [lia|done..]|].
  cbn [rbind]. simpl in *. eexists. split; [done|]. split; [|done]. split; simpl; rewrite ?Hc; try done; try lia.
  - intros i Hi. apply Hd. Z.div_mod_to_equations. lia.
  - intros i Hi. rewrite Hb by lia. rewrite (proj2 (Z.ltb_lt i _)) by lia. rewrite lookup_empty. split; [done|by intros [? ?]].
  - intros i [? Hi]. by rewrite lookup_empty in Hi.
Qed.

(** C22. The swap disk is a set of numbered slots: after [swap_init], every series of calls
    that takes pages only from slots in use behaves as on a map from slots to pages, each
    page going to the lowest free slot and coming back unchanged, whatever happened to the
    other slots in between; when no slot is free [swap_out] panics. *)
Theorem swap_refines_slots d size words os sl rs :
  0 <= size < 2 ^ 23 -> (forall i, 0 <= i < size -> exists b, d !! i = Some b /\ length b = 512%nat) ->
  (size / 8 + 31) / 32 <= Z.of_nat (length words) -> Forall is_u32 words ->
  spec_calls (size / 8) ∅ os sl rs ->
  exists s s', swap_init (Some d) size true (Some words) = Ret s /\ do_swap_calls s os = Ret (s', rs) /\ holds_slots s' sl /\
    forall page, length page = 4096%nat ->
      (forall i, 0 <= i < size / 8 -> is_Some (sl !! i)) -> swap_out s' page = Panic.
Proof.
  intros Hsz Hd Hw Hu Hspec. destruct (swap_init_ok d size words Hsz Hd Hw Hu) as (s & -> & Hs & Hc).
  exists s. rewrite <- Hc in *. clear d Hd Hw Hu Hsz.
  assert (forall sl0 os sl rs, spec_calls (bit_cnt (swap_table s)) sl0 os sl rs -> forall s0, holds_slots s0 sl0 ->
    bit_cnt (swap_table s0) = bit_cnt (swap_table s) ->
    exists s', do_swap_calls s0 os = Ret (s', rs) /\ holds_slots s' sl /\ bit_cnt (swap_table s') = bit_cnt (swap_table s)) as Hall.
  { induction 1 as [sl0|sl0 o sl1 r os' sl2 rs' Ho _ IH]; intros s0 Hs0 Hc0; simpl; [eauto|].
    rewrite <- Hc0 in Ho. destruct (do_swap_call_ok _ _ _ _ _ Hs0 Ho) as (s1 & -> & Hs1 & Hc1). cbn [rbind].
    destruct (IH s1 Hs1 ltac:(congruence)) as (s2 & -> & ? & ?). cbn [rbind]. eauto. }
  destruct (Hall _ _ _ _ Hspec s Hs eq_refl) as (s' & -> & Hs' & Hc'). exists s'. split; [done|]. split; [done|]. split; [done|].
  intros page Hl Hfull. destruct (swap_out_ok s' sl page Hs' Hl) as [[? _]|(? & i & _ & (Hi & Hn & _) & _)]; [done|].
  rewrite Hc' in Hi. destruct (Hfull i Hi) as [? Hx]. by rewrite Hn in Hx.
Qed.

(** A swap disk of two slots. *)
Definition two_slots : gmap Z (list Z) := list_to_map ((fun i => (i, replicate 512 0)) <$> seqZ 0 16).
Definition page_of (x : Z) : list Z := replicate 4096 x.

Lemma two_slots_ok i : 0 <= i < 16 -> exists b, two_slots !! i = Some b /\ length b = 512%nat.
Proof.
  intros Hi. exists (replicate 512 0). split; [|done]. apply elem_of_list_to_map_1.
  - rewrite <- list_fmap_compose. apply (NoDup_fmap_2 _). apply NoDup_seqZ.
  - apply list_elem_of_fmap. exists i. split; [done|]. by apply elem_of_seqZ.
Qed.

Lemma swap_refines_slots_witness : exists s s',
  swap_init (Some two_slots) 16 true (Some [5]) = Ret s /\
  do_swap_calls s [SwapOut (page_of 7); SwapOut (page_of 9); SwapIn 0; SwapOut (page_of 8); SwapFree 1] =
    Ret (s', [Slot 0; Slot 1; Page (page_of 7); Slot 0; Done]).
Proof.
  destruct (swap_refines_slots two_slots 16 [5]
    [SwapOut (page_of 7); SwapOut (page_of 9); SwapIn 0; SwapOut (page_of 8); SwapFree 1]
    (delete 1 (<[0 := page_of 8]> (delete 0 (<[1 := page_of 9]> (<[0 := page_of 7]> ∅)))))
    [Slot 0; Slot 1; Page (page_of 7); Slot 0; Done]) as (s & s' & Hi & Hc & _).
  - lia.
  - exact two_slots_ok.
  - done.
  - constructor; [unfold is_u32; lia|constructor].
  - change (16 / 8) with 2. repeat (eapply specs_cons; [constructor|]); [..|constructor]; try done.
    + split; [lia|]. split; [done|lia].
    + split; [lia|]. split; [done|]. intros j Hj. replace j with 0 by lia. rewrite lookup_insert_eq. eauto.
    + split; [lia|]. split; [done|lia].
  - eauto.
Defined.
