(* ===== verification/Vm.v ===== *)
(** * vm/frame.c, userprog/exception.c, vm/page.c: demand paging

    The frames of the user pool with their contents, the page directories and supplemental
    page tables of all threads, the swap disk and the files that pages come from.  A page
    directory is a map from pages to frames with flags, the user pool hands out its lowest
    free page, files are bytes: what the page tables, the page allocator and the file
    system promise.  [curr] is the running thread; the two booleans say whether it holds
    the lock of the frame table and the file lock, which [lock_acquire] asserts that it
    does not. *)

From S2P Require Import Prelude Bitmap Vaddr Cache Loader Swap.

(** ** State *)

(** A page table entry that is present. *)
Record mapping := mkMapping { m_kpage : Z; m_writable : bool; m_dirty : bool; m_accessed : bool }.

Record fte := mkFte { origin_thread : Z; f_upage : Z; f_kpage : Z }.

Record vm := mkVm {
  frame_table : list fte;
  free_pages : list Z;
  frames : gmap Z (list Z);
  tables : gmap (Z * Z) sup_pte;
  dirs : gmap (Z * Z) mapping;
  sw : swap;
  files : gmap Z (list Z);
  curr : Z;
  frame_lock : bool;
  file_lock : bool
}.

Definition set_frame_table (x : list fte) (s : vm) : vm :=
  mkVm x (free_pages s) (frames s) (tables s) (dirs s) (sw s) (files s) (curr s) (frame_lock s) (file_lock s).
Definition set_pool (x : list Z) (y : gmap Z (list Z)) (s : vm) : vm :=
  mkVm (frame_table s) x y (tables s) (dirs s) (sw s) (files s) (curr s) (frame_lock s) (file_lock s).
Definition set_tables (x : gmap (Z * Z) sup_pte) (s : vm) : vm :=
  mkVm (frame_table s) (free_pages s) (frames s) x (dirs s) (sw s) (files s) (curr s) (frame_lock s) (file_lock s).
Definition set_dirs (x : gmap (Z * Z) mapping) (s : vm) : vm :=
  mkVm (frame_table s) (free_pages s) (frames s) (tables s) x (sw s) (files s) (curr s) (frame_lock s) (file_lock s).
Definition set_sw (x : swap) (s : vm) : vm :=
  mkVm (frame_table s) (free_pages s) (frames s) (tables s) (dirs s) x (files s) (curr s) (frame_lock s) (file_lock s).
Definition set_files (x : gmap Z (list Z)) (s : vm) : vm :=
  mkVm (frame_table s) (free_pages s) (frames s) (tables s) (dirs s) (sw s) x (curr s) (frame_lock s) (file_lock s).
Definition set_frame_lock (x : bool) (s : vm) : vm :=
  mkVm (frame_table s) (free_pages s) (frames s) (tables s) (dirs s) (sw s) (files s) (curr s) x (file_lock s).
Definition set_file_lock (x : bool) (s : vm) : vm :=
  mkVm (frame_table s) (free_pages s) (frames s) (tables s) (dirs s) (sw s) (files s) (curr s) (frame_lock s) x.
Definition set_curr (x : Z) (s : vm) : vm :=
  mkVm (frame_table s) (free_pages s) (frames s) (tables s) (dirs s) (sw s) (files s) x (frame_lock s) (file_lock s).

(** ** Entries *)

Definition set_swapped (b : bool) (e : sup_pte) : sup_pte :=
  mkPte (file e) (upage e) (read_bytes e) (zero_bytes e) (writable e) (file_ofs e) b (loaded e) (swap_index e) (mmap_id e).
Definition set_swap_index (i : Z) (e : sup_pte) : sup_pte :=
  mkPte (file e) (upage e) (read_bytes e) (zero_bytes e) (writable e) (file_ofs e) (swapped e) (loaded e) (Some i) (mmap_id e).

Definition set_entry (t u : Z) (e : sup_pte) (s : vm) : vm := set_tables (<[(t, u) := e]> (tables s)) s.

(** ** Pages of the user pool *)

Definition zero_page : list Z := replicate 4096 0.
Definition freed_page : list Z := replicate 4096 204.

(** [palloc_get_page (PAL_USER | flag)]; [None] is a null pointer. *)
Definition get_user_page (zero : bool) (s : vm) : vm * option Z :=
  match free_pages s with
  | [] => (s, None)
  | k :: rest => (set_pool rest (if zero then <[k := zero_page]> (frames s) else frames s) s, Some k)
  end.

(** [palloc_free_page] of a page of the pool, which stays in order. *)
Definition free_user_page (k : Z) (s : vm) : vm :=
  set_pool (filter (fun q => q < k) (free_pages s) ++ k :: filter (fun q => k < q) (free_pages s))
    (<[k := freed_page]> (frames s)) s.

(** ** Page directories *)

Definition pd_get_page (t u : Z) (s : vm) : option Z := m_kpage <$> dirs s !! (t, u).
Definition pd_is_dirty (t u : Z) (s : vm) : bool := from_option m_dirty false (dirs s !! (t, u)).
Definition pd_clear_page (t u : Z) (s : vm) : vm := set_dirs (delete (t, u) (dirs s)) s.

(** [pt_ok] says whether a page table can be allocated when one is needed; a page that is
    mapped already fails an assertion. *)
Definition pd_set_page (pt_ok : bool) (t u k : Z) (w : bool) (s : vm) : res (vm * bool) :=
  if pt_ok then
    match dirs s !! (t, u) with
    | Some _ => Panic
    | None => Ret (set_dirs (<[(t, u) := mkMapping k w false false]> (dirs s)) s, true)
    end
  else Ret (s, false).

Definition pd_set_accessed (t u : Z) (a : bool) (s : vm) : vm :=
  set_dirs (alter (fun p => mkMapping (m_kpage p) (m_writable p) (m_dirty p) a) (t, u) (dirs s)) s.
Definition pd_set_dirty (t u : Z) (d : bool) (s : vm) : vm :=
  set_dirs (alter (fun p => mkMapping (m_kpage p) (m_writable p) d (m_accessed p)) (t, u) (dirs s)) s.

(** ** Locks *)

Definition frame_table_lock_acquire (s : vm) : res vm :=
  ASSERT (negb (frame_lock s)); Ret (set_frame_lock true s).
Definition frame_table_lock_release (s : vm) : res vm :=
  ASSERT (frame_lock s); Ret (set_frame_lock false s).
Definition acquire_file_lock (s : vm) : res vm :=
  ASSERT (negb (file_lock s)); Ret (set_file_lock true s).
Definition release_file_lock (s : vm) : res vm :=
  ASSERT (file_lock s); Ret (set_file_lock false s).

Section Vm.
(** The inode that an open file refers to, and whether memory for frame table entries and
    for page tables is found. *)
Context (inode_of : Z -> Z) (malloc_ok pt_ok : bool).

Definition file_data (f : Z) (s : vm) : list Z := default [] (files s !! inode_of f).

(** [file_write_at (f, data, size, ofs)]: the bytes from [ofs] on are replaced. *)
Definition vm_file_write (f : Z) (data : list Z) (ofs : Z) (s : vm) : vm :=
  let c := file_data f s in
  let o := Z.to_nat ofs in
  let c := take o (c ++ replicate (o - length c) 0) ++ data ++ drop (o + length data) c in
  set_files (<[inode_of f := c]> (files s)) s.

(** The bytes at user page [u] of the running thread, whose page directory is active.  A
    page that is not mapped makes the kernel fault, and the fault handler asserts that
    the frame table lock is not held. *)
Definition user_page_bytes (u : Z) (s : vm) : res (list Z) :=
  match dirs s !! (curr s, u) with
  | Some p => of_opt (frames s !! m_kpage p)
  | None => Panic
  end.

(** ** frame.c *)

(** What is saved of page [u] of thread [t], which is in frame [k] and has entry [e]. *)
Definition evict_save (t u k : Z) (e : sup_pte) (is_dirty : bool) (s : vm) : res vm :=
  if bool_decide (mmap_id e = MAP_FAILED) then
    if is_dirty then
      let e := set_swapped true e in
      ASSERT (loaded e);
      let! page := of_opt (frames s !! k) in
      let! '(w, i) := swap_out (sw s) page in
      Ret (set_entry t u (set_swap_index i e) (set_sw w s))
    else Ret (set_entry t u (set_loaded false e) s)
  else
    let! s := (if is_dirty then
                 let! s := acquire_file_lock s in
                 let! page := user_page_bytes (upage e) s in
                 let s := vm_file_write (file e) (take (Z.to_nat (read_bytes e)) page) (file_ofs e) s in
                 release_file_lock s
               else Ret s) in
    Ret (set_entry t u (set_loaded false e) s).

Definition frame_evict (zero : bool) (s : vm) : res (vm * option Z) :=
  match frame_table s with
  | [] => Ub
  | f :: rest =>
      let t := origin_thread f in
      let u := f_upage f in
      let k := f_kpage f in
      let! e := of_opt (tables s !! (t, u)) in
      let! s := evict_save t u k e (pd_is_dirty t u s) s in
      let s := pd_clear_page t u s in
      let s := free_user_page k s in
      let s := set_frame_table rest s in
      Ret (get_user_page zero s)
  end.

Definition frame_alloc (u : Z) (zero : bool) (s : vm) : res (vm * option Z) :=
  let '(s, o) := get_user_page zero s in
  let! '(s, o) := (match o with None => frame_evict zero s | Some _ => Ret (s, o) end) in
  match o with
  | None => Ret (s, None)
  | Some k =>
      if malloc_ok then Ret (set_frame_table (frame_table s ++ [mkFte (curr s) u k]) s, Some k) else Ub
  end.

(** The argument is compared with the kernel address of the frames. *)
Definition frame_free (addr : Z) (s : vm) : vm :=
  match list_find (fun f => f_kpage f = addr) (frame_table s) with
  | Some (i, f) => set_frame_table (delete i (frame_table s)) (free_user_page (f_kpage f) s)
  | None => s
  end.

(** ** page.c: release of an entry at exit

    [list_remove] from the list of mapped pages is not visible here. *)
Definition page_table_free (e : sup_pte) (s : vm) : res vm :=
  let t := curr s in
  let! s := (match pd_get_page t (upage e) s with
             | Some k =>
                 let! s := (if bool_decide (mmap_id e <> MAP_FAILED) then
                              ASSERT (swapped e || loaded e);
                              if pd_is_dirty t (upage e) s then
                                let! page := user_page_bytes (upage e) s in
                                Ret (vm_file_write (file e) (take (Z.to_nat (read_bytes e)) page) (file_ofs e) s)
                              else Ret s
                            else Ret s) in
                 ASSERT (swapped e || loaded e);
                 Ret (frame_free k (pd_clear_page t (upage e) s))
             | None => Ret s
             end) in
  if swapped e then
    let! i := of_opt (swap_index e) in
    let! w := swap_set (sw s) i false in
    Ret (set_sw w s)
  else Ret s.

(** [hash_destroy] with [page_table_free]: each entry is taken from the table, in the
    order [es] of the hash table, and released. *)
Fixpoint page_table_remove (es : list sup_pte) (s : vm) : res vm :=
  match es with
  | [] => Ret s
  | e :: es =>
      let! s := page_table_free e (set_tables (delete (curr s, upage e) (tables s)) s) in
      page_table_remove es s
  end.

(** ** exception.c *)

Inductive fault_result := Resume | Exit.

Definition PF_P : Z := 1.
Definition PF_U : Z := 4.
Definition STACK_MAX : Z := 2 ^ 23.

(** The page could not be entered into the page directory, or was. *)
Definition install (u k : Z) (w : bool) (s : vm) : res (vm * bool) :=
  let check := bool_decide (pd_get_page (curr s) u s = None) in
  let! '(s, ok) := pd_set_page pt_ok (curr s) u k w s in
  Ret (s, check && ok).

(** A new page of the stack; [spt_ok] says whether [page_insert] finds memory. *)
Definition grow_stack (spt_ok : bool) (u : Z) (s : vm) : res (vm * bool) :=
  let! '(s, o) := frame_alloc u true s in
  let! k := of_opt o in
  let! '(s, ok) := install u k true s in
  if (ok : bool) then
    if spt_ok then
      let s := (match tables s !! (curr s, u) with
                | None => set_entry (curr s) u (mkPte 0 u 0 0 true 0 false true None MAP_FAILED) s
                | Some _ => s
                end) in
      Ret (s, true)
    else Ub
  else Ret (frame_free k s, false).

(** A page on the swap disk. *)
Definition fault_swap (u : Z) (s : vm) : res (vm * bool) :=
  let! '(s, o) := frame_alloc u true s in
  let! k := of_opt o in
  let! e := of_opt (tables s !! (curr s, u)) in
  let! i := of_opt (swap_index e) in
  let! '(w, page) := swap_in (sw s) i in
  let s := set_sw w (set_pool (free_pages s) (<[k := page]> (frames s)) s) in
  let! '(s, ok) := install u k true s in
  if (ok : bool) then
    let s := pd_set_accessed (curr s) u true (pd_set_dirty (curr s) u true s) in
    let s := set_entry (curr s) u (set_swapped false e) s in
    ASSERT (loaded e);
    Ret (s, true)
  else Ret (frame_free k s, false).

(** The end of each case of lazy loading: the frame is entered, or the fault returns
    after [frame_free], which is given the user address. *)
Definition finish_lazy (remove : bool) (u k : Z) (e : sup_pte) (s : vm) : res vm :=
  let! '(s, ok) := install u k (writable e) s in
  if (ok : bool) then
    let s := set_entry (curr s) u (set_loaded true e) s in
    frame_table_lock_release (pd_set_accessed (curr s) u true s)
  else
    let! s := frame_table_lock_release (frame_free u s) in
    Ret (if remove then set_tables (delete (curr s, u) (tables s)) s else s).

(** The entry of the page, looked up again; [ASSERT (spte != NULL)]. *)
Definition get_entry (u : Z) (s : vm) : res sup_pte :=
  match tables s !! (curr s, u) with Some e => Ret e | None => Panic end.

(** The three cases of lazy loading.  Their early returns leave the handler as if the page
    had been loaded; the first releases the file lock, which is not held. *)
Definition fault_lazy (u : Z) (e : sup_pte) (s : vm) : res vm :=
  ASSERT (bool_decide (read_bytes e + zero_bytes e = PGSIZE));
  if bool_decide (read_bytes e = PGSIZE) then
    let! '(s, o) := frame_alloc u false s in
    let! k := of_opt o in
    let! e := get_entry u s in
    let! data := fread (file_data (file e) s) (file_ofs e) (read_bytes e) in
    let page := from_option (fun old => data ++ drop (length data) old) data (frames s !! k) in
    let s := set_pool (free_pages s) (<[k := page]> (frames s)) s in
    if bool_decide (flength data <> read_bytes e) then
      let! s := frame_table_lock_release (frame_free u s) in
      release_file_lock s
    else finish_lazy true u k e s
  else if bool_decide (zero_bytes e = PGSIZE) then
    let! '(s, o) := frame_alloc u true s in
    let! k := of_opt o in
    let! e := get_entry u s in
    finish_lazy true u k e s
  else
    let! '(s, o) := frame_alloc u false s in
    ASSERT (bool_decide (o <> None));
    let! k := of_opt o in
    let! e := of_opt (tables s !! (curr s, u)) in
    ASSERT (bool_decide (file e <> 0));
    let! data := fread (file_data (file e) s) (file_ofs e) (read_bytes e) in
    let page := from_option (fun old => data ++ drop (length data) old) data (frames s !! k) in
    let s := set_pool (free_pages s) (<[k := page]> (frames s)) s in
    if bool_decide (flength data <> read_bytes e) then frame_table_lock_release (frame_free u s)
    else
      let s := set_pool (free_pages s)
                 (<[k := take (Z.to_nat (read_bytes e)) page ++ replicate (Z.to_nat (zero_bytes e)) 0]> (frames s)) s in
      finish_lazy false u k e s.

(** [esp] is the stack pointer of the interrupt frame, [exception_esp] the one saved at
    the entry of a system call. *)
Definition page_fault (spt_ok : bool) (fault_addr error_code esp exception_esp : Z) (s : vm) : res (vm * fault_result) :=
  let not_present := bool_decide (Z.land error_code PF_P = 0) in
  let user := bool_decide (Z.land error_code PF_U <> 0) in
  if not_present && is_user_vaddr fault_addr then
    let! s := frame_table_lock_acquire s in
    let u := pg_round_down fault_addr in
    match tables s !! (curr s, u) with
    | None =>
        let esp := if user then esp else exception_esp in
        if bool_decide (fault_addr >= PHYS_BASE - STACK_MAX) && bool_decide (u32 (esp - 32) <= fault_addr) then
          let! '(s, ok) := grow_stack spt_ok u s in
          let! s := frame_table_lock_release s in
          Ret (s, if (ok : bool) then Resume else Exit)
        else
          let! s := frame_table_lock_release s in
          Ret (s, Exit)
    | Some e =>
        if swapped e && loaded e && bool_decide (pd_get_page (curr s) (upage e) s = None) then
          let! '(s, ok) := fault_swap u s in
          let! s := frame_table_lock_release s in
          Ret (s, if (ok : bool) then Resume else Exit)
        else if negb (loaded e) then
          let! s := fault_lazy u e s in
          Ret (s, Resume)
        else
          let! s := frame_table_lock_release s in
          Ret (s, Exit)
    end
  else Ret (s, Exit).
End Vm.
