(* ===== verification/VmProof.v ===== *)
(** * Demand paging is invisible

    A flat memory per process, [pages], is what the frames, the swap disk and the files
    stand for ([paged]); faults, evictions and accesses of any thread keep it. *)

From S2P Require Import Prelude Bitmap Vaddr Cache Loader Swap Vm.

Section Paging.
Context (inode_of : Z -> Z).
Abbreviation pages := (gmap (Z * Z) (list Z)).

(** ** What the state stands for *)

(** The page that the file gives. *)
Definition file_page (s : vm) (e : sup_pte) : list Z :=
  take (Z.to_nat (read_bytes e)) (drop (Z.to_nat (file_ofs e)) (file_data inode_of (file e) s)) ++
  replicate (Z.to_nat (zero_bytes e)) 0.

Record file_backed (s : vm) (e : sup_pte) : Prop := {
  fb_sizes : 0 <= read_bytes e /\ 0 <= zero_bytes e /\ read_bytes e + zero_bytes e = 4096;
  fb_ofs : 0 <= file_ofs e;
  fb_length : file_ofs e + read_bytes e <= flength (file_data inode_of (file e) s);
  fb_file : 0 < read_bytes e -> file e <> 0
}.

(** The entries of the stack have no file and no size. *)
Definition is_stack (e : sup_pte) : Prop := read_bytes e = 0 /\ zero_bytes e = 0 /\ mmap_id e = MAP_FAILED.

(** Where the contents [page] of a page are: in a frame, on the swap disk or in the file. *)
Definition page_at (s : vm) (sl : slots) (key : Z * Z) (e : sup_pte) (page : list Z) : Prop :=
  match dirs s !! key with
  | Some p => loaded e = true /\ swapped e = false /\ frames s !! m_kpage p = Some page /\ m_writable p = writable e /\
              (m_dirty p = true -> writable e = true) /\ (m_dirty p = false -> file_backed s e -> page = file_page s e)
  | None => (loaded e = true /\ swapped e = true /\ writable e = true /\ exists i, swap_index e = Some i /\ sl !! i = Some page) \/
            (loaded e = false /\ swapped e = false /\ file_backed s e /\ page = file_page s e)
  end.

Record entry_ok (s : vm) (sl : slots) (key : Z * Z) (e : sup_pte) (page : list Z) : Prop := {
  eo_upage : upage e = key.2;
  eo_length : length page = 4096%nat;
  eo_kind : file_backed s e \/ is_stack e;
  eo_mmap : mmap_id e <> MAP_FAILED -> swapped e = false /\
    drop (Z.to_nat (read_bytes e)) page = replicate (Z.to_nat (zero_bytes e)) 0;
  eo_at : page_at s sl key e page
}.

(** Two pages of the same file, one of them mapped, do not overlap. *)
Definition apart (e1 e2 : sup_pte) : Prop :=
  mmap_id e1 <> MAP_FAILED -> inode_of (file e1) = inode_of (file e2) ->
  file_ofs e1 + read_bytes e1 <= file_ofs e2 \/ file_ofs e2 + read_bytes e2 <= file_ofs e1.

Record paged (s : vm) (am : pages) (sl : slots) : Prop := {
  pg_swap : holds_slots (sw s) sl;
  pg_dom : forall key, is_Some (am !! key) <-> is_Some (tables s !! key);
  pg_entries : forall key e page, tables s !! key = Some e -> am !! key = Some page -> entry_ok s sl key e page;
  pg_dirs : forall key p, dirs s !! key = Some p ->
    is_Some (tables s !! key) /\ mkFte key.1 key.2 (m_kpage p) ∈ frame_table s;
  pg_frames : forall f, f ∈ frame_table s -> exists p, dirs s !! (origin_thread f, f_upage f) = Some p /\ m_kpage p = f_kpage f;
  pg_nodup : NoDup ((f_kpage <$> frame_table s) ++ free_pages s);
  pg_pool : forall k, k ∈ (f_kpage <$> frame_table s) ++ free_pages s -> is_Some (frames s !! k);
  pg_lengths : forall k page, frames s !! k = Some page -> length page = 4096%nat;
  pg_slots : forall key1 key2 e1 e2, tables s !! key1 = Some e1 -> tables s !! key2 = Some e2 ->
    swapped e1 = true -> swapped e2 = true -> swap_index e1 = swap_index e2 -> key1 = key2;
  pg_apart : forall key1 key2 e1 e2, key1 <> key2 -> tables s !! key1 = Some e1 -> tables s !! key2 = Some e2 -> apart e1 e2
}.

(** An entry does not notice what happens elsewhere. *)
Lemma entry_ok_stable s s' sl sl' key e page : entry_ok s sl key e page ->
  dirs s' !! key = dirs s !! key ->
  (forall p, dirs s !! key = Some p -> frames s' !! m_kpage p = frames s !! m_kpage p) ->
  (forall i, swapped e = true -> swap_index e = Some i -> sl' !! i = sl !! i) ->
  (file_backed s e -> file_backed s' e /\ file_page s' e = file_page s e) ->
  (file_backed s' e -> file_backed s e) ->
  entry_ok s' sl' key e page.
Proof.
  intros [Hu Hl Hk Hm Ha] Hd Hf Hs Hb Hb'. split; try done.
  - destruct Hk as [Hk|Hk]; [left; by apply Hb|by right].
  - unfold page_at in *. rewrite Hd. destruct (dirs s !! key) as [p|] eqn:E.
    + destruct Ha as (? & ? & Hfr & ? & ? & Hc). split_and!; try done; [by rewrite Hf|].
      intros Hdirty Hfb. destruct (Hb (Hb' Hfb)) as [_ ->]. by apply Hc, Hb'.
    + destruct Ha as [(? & Hsw & ? & i & Hi & Hsl)|(? & ? & Hfb & Hp)]; [left|right].
      * split_and!; try done. exists i. split; [done|]. by rewrite Hs.
      * destruct (Hb Hfb) as [? Heq]. split_and!; try done. by rewrite Heq.
Qed.

(** The files being the same, so are the pages they give. *)
Lemma same_files s s' e : files s' = files s -> (file_backed s e <-> file_backed s' e) /\ file_page s' e = file_page s e.
Proof.
  intros Hf. assert (file_data inode_of (file e) s' = file_data inode_of (file e) s) as Hd by (unfold file_data; by rewrite Hf).
  unfold file_page. rewrite Hd. split; [|done]. split; intros [? ? Hl ?]; split; try done; [by rewrite Hd|by rewrite <- Hd].
Qed.

Lemma entry_ok_eq s s' sl key e page : entry_ok s sl key e page -> dirs s' = dirs s -> frames s' = frames s -> files s' = files s ->
  entry_ok s' sl key e page.
Proof.
  intros Hok Hd Hf Hfs. destruct (same_files s s' e Hfs) as [Hb Hp].
  eapply entry_ok_stable; [done|by rewrite Hd|by rewrite Hf|done|by rewrite <- Hb|by rewrite Hb].
Qed.

(** The frames of two pages are different. *)
Lemma frame_inj s am sl key1 key2 p1 p2 : paged s am sl -> dirs s !! key1 = Some p1 -> dirs s !! key2 = Some p2 ->
  m_kpage p1 = m_kpage p2 -> key1 = key2.
Proof.
  intros Hp H1 H2 Hk. destruct (pg_dirs _ _ _ Hp _ _ H1) as [_ Hin1]. destruct (pg_dirs _ _ _ Hp _ _ H2) as [_ Hin2].
  pose proof (pg_nodup _ _ _ Hp) as Hnd. apply NoDup_app in Hnd as (Hnd & _ & _).
  apply list_elem_of_lookup in Hin1 as [i Hi], Hin2 as [j Hj].
  assert (i = j) as <-.
  { eapply (NoDup_lookup _ _ _ (m_kpage p1) Hnd); rewrite list_lookup_fmap; [by rewrite Hi|by rewrite Hj, <- Hk]. }
  rewrite Hi in Hj. simplify_eq. destruct key1, key2; simpl in *; congruence.
Qed.

(** A frame that no page has. *)
Definition fresh (s : vm) (k : Z) : Prop :=
  (k ∉ (f_kpage <$> frame_table s) ++ free_pages s) /\ is_Some (frames s !! k).

Lemma mapped_not_free s am sl key p k : paged s am sl -> dirs s !! key = Some p -> k ∈ free_pages s \/ fresh s k -> m_kpage p <> k.
Proof.
  intros Hp Hd Hk <-. destruct (pg_dirs _ _ _ Hp _ _ Hd) as [_ Hin].
  assert (m_kpage p ∈ f_kpage <$> frame_table s) as Hin' by (apply list_elem_of_fmap; eexists; split; [|done]; done).
  destruct Hk as [Hk|[Hk _]].
  - pose proof (pg_nodup _ _ _ Hp) as Hnd. apply NoDup_app in Hnd as (_ & Hnd & _). by apply (Hnd _ Hin').
  - apply Hk, elem_of_app. by left.
Qed.

(** The contents of a frame that no page has are changed. *)
Lemma paged_scratch s am sl k page : paged s am sl -> k ∈ free_pages s \/ fresh s k -> length page = 4096%nat ->
  paged (set_pool (free_pages s) (<[k := page]> (frames s)) s) am sl.
Proof.
  intros Hp Hk Hl. split; simpl; try apply Hp.
  - intros key e pg He Ha. destruct (same_files s (set_pool (free_pages s) (<[k := page]> (frames s)) s) e eq_refl) as [Hb Hpg].
    eapply entry_ok_stable; [by eapply pg_entries|done| |done|by rewrite <- Hb|by rewrite Hb].
    intros p Hd. simpl. rewrite lookup_insert_ne; [done|]. intros ->. by eapply mapped_not_free in Hk.
  - intros q Hq. apply lookup_insert_is_Some'. right. by eapply pg_pool.
  - intros q pg Hq. destruct (decide (q = k)) as [->|].
    + rewrite lookup_insert_eq in Hq. by simplify_eq.
    + rewrite lookup_insert_ne in Hq by done. by eapply pg_lengths.
Qed.

(** [palloc_get_page] when there is a free page. *)
Lemma take_free_ok s am sl zero k rest : paged s am sl -> free_pages s = k :: rest ->
  exists s0, get_user_page zero s = (s0, Some k) /\ paged s0 am sl /\ fresh s0 k /\ free_pages s0 = rest /\
    (zero = true -> frames s0 !! k = Some zero_page) /\
    frame_table s0 = frame_table s /\ tables s0 = tables s /\ dirs s0 = dirs s /\ sw s0 = sw s /\ files s0 = files s /\
    curr s0 = curr s /\ frame_lock s0 = frame_lock s /\ file_lock s0 = file_lock s.
Proof.
  intros Hp Hf. unfold get_user_page. rewrite Hf. eexists. split; [done|].
  assert (paged (set_pool (free_pages s) (if zero then <[k := zero_page]> (frames s) else frames s) s) am sl) as Hp'.
  { destruct zero; [apply paged_scratch; [done|left; rewrite Hf; by left|done]|by destruct s]. }
  pose proof (pg_nodup _ _ _ Hp) as Hnd. rewrite Hf in Hnd.
  assert (k ∉ (f_kpage <$> frame_table s) ++ rest) as Hnot.
  { apply NoDup_app in Hnd as (_ & Hd & Hnd). apply NoDup_cons in Hnd as [Hnd _]. rewrite elem_of_app. intros [Hin|Hin]; [|done].
    apply (Hd k Hin). by left. }
  assert (is_Some (frames s !! k)) as Hk by (apply (pg_pool _ _ _ Hp); rewrite Hf; apply elem_of_app; right; by left).
  split_and!; try done; simpl.
  - destruct Hp' as [H1 H2 H3 H4 H5 H6 H7 H8 H9 H10]. split; simpl in *; try done.
    + intros key e pg He Ha. by eapply entry_ok_eq; [by eapply H3|..].
    + apply NoDup_app in Hnd as (Hn1 & Hd & Hn2). apply NoDup_cons in Hn2 as [_ Hn2]. apply NoDup_app. split_and!; [done| |done].
      intros q Hq Hr. apply (Hd q Hq). by right.
    + intros q Hq. apply H7. rewrite Hf. apply elem_of_app in Hq as [Hq|Hq]; apply elem_of_app; [by left|right; by right].
  - split; [done|]. simpl. destruct zero; [|done]. apply lookup_insert_is_Some'. by left.
  - intros ->. apply lookup_insert_eq.
Qed.

(** ** Eviction *)

(** The fields of an entry that do not change while the page is moved. *)
Definition same_page (e e' : sup_pte) : Prop :=
  file e' = file e /\ upage e' = upage e /\ read_bytes e' = read_bytes e /\ zero_bytes e' = zero_bytes e /\
  writable e' = writable e /\ file_ofs e' = file_ofs e /\ mmap_id e' = mmap_id e.

Lemma same_page_apart e e' : same_page e e' -> forall e2, (apart e e2 -> apart e' e2) /\ (apart e2 e -> apart e2 e').
Proof. intros (Hf & _ & Hr & _ & _ & Ho & Hm) e2. unfold apart. by rewrite Hf, Hr, Ho, Hm. Qed.

Lemma same_page_file s e e' : same_page e e' -> (file_backed s e <-> file_backed s e') /\ file_page s e' = file_page s e.
Proof.
  intros (Hf & _ & Hr & Hz & _ & Ho & _). unfold file_page. rewrite Hf, Hr, Hz, Ho. split; [|done].
  split; intros [? ? ? ?]; split; rewrite ?Hf, ?Hr, ?Hz, ?Ho in *; done.
Qed.

(** The state after [frame_evict] has freed the frame, with the new entry, swap disk and
    files. *)
Definition evicted (s : vm) (f : fte) (rest : list fte) (e' : sup_pte) (w : swap) (fs : gmap Z (list Z)) : vm :=
  mkVm rest [f_kpage f] (<[f_kpage f := freed_page]> (frames s)) (<[(origin_thread f, f_upage f) := e']> (tables s))
    (delete (origin_thread f, f_upage f) (dirs s)) w fs (curr s) (frame_lock s) (file_lock s).

Lemma evicted_ok s am sl f rest e e' page w sl' fs : let key := (origin_thread f, f_upage f) in let s2 := evicted s f rest e' w fs in
  paged s am sl -> free_pages s = [] -> frame_table s = f :: rest -> tables s !! key = Some e -> am !! key = Some page ->
  same_page e e' -> holds_slots w sl' ->
  (forall key2 e2 i, key2 <> key -> tables s !! key2 = Some e2 -> swapped e2 = true -> swap_index e2 = Some i -> sl' !! i = sl !! i) ->
  (forall key2 e2, key2 <> key -> tables s !! key2 = Some e2 ->
     (file_backed s e2 -> file_backed s2 e2 /\ file_page s2 e2 = file_page s e2) /\ (file_backed s2 e2 -> file_backed s e2)) ->
  (swapped e' = true -> forall key2 e2, key2 <> key -> tables s !! key2 = Some e2 -> swapped e2 = true -> swap_index e2 <> swap_index e') ->
  entry_ok s2 sl' key e' page ->
  paged s2 am sl'.
Proof.
  intros key s2 Hp Hfree Hft He Ha Hsame Hw Hsl Hfs Hdis Hok.
  assert (exists p, dirs s !! key = Some p /\ m_kpage p = f_kpage f) as (p & Hpd & Hpk).
  { apply (pg_frames _ _ _ Hp). rewrite Hft. by left. }
  pose proof (pg_nodup _ _ _ Hp) as Hnd. rewrite Hft, Hfree in Hnd. simpl in Hnd. rewrite app_nil_r in Hnd.
  apply NoDup_cons in Hnd as [Hnk Hnd].
  split; simpl.
  - done.
  - intros q. rewrite (pg_dom _ _ _ Hp q). destruct (decide (q = key)) as [->|].
    + rewrite lookup_insert_eq. split; [eauto|by rewrite He].
    + by rewrite lookup_insert_ne.
  - intros q e2 pg He2 Ha2. destruct (decide (q = key)) as [->|Hq].
    + rewrite lookup_insert_eq in He2. by simplify_eq.
    + rewrite lookup_insert_ne in He2 by done. destruct (Hfs q e2 Hq He2) as [Hb1 Hb2].
      eapply entry_ok_stable; [by eapply pg_entries| | |by eauto|done|done]; simpl.
      * by rewrite lookup_delete_ne.
      * intros p2 Hp2. rewrite lookup_insert_ne; [done|]. intros Heq. apply Hq. eapply frame_inj; [done..|]. congruence.
  - intros q p2 Hq. apply lookup_delete_Some in Hq as [Hne Hq]. destruct (pg_dirs _ _ _ Hp _ _ Hq) as [Ht Hin]. split.
    + by rewrite lookup_insert_ne.
    + rewrite Hft in Hin. apply elem_of_cons in Hin as [Heq|Hin]; [|done]. exfalso. apply Hne.
      unfold key. rewrite <- Heq. by destruct q.
  - intros f2 Hin. destruct (pg_frames _ _ _ Hp f2) as (p2 & Hp2 & Hk2); [rewrite Hft; by right|].
    exists p2. split; [|done]. rewrite lookup_delete_ne; [done|]. intros Heq. apply Hnk. apply list_elem_of_fmap.
    exists f2. split; [|done]. unfold key in *. rewrite <- Heq, Hpd in Hp2. congruence.
  - apply NoDup_app. split_and!; [done| |by apply NoDup_singleton]. intros q Hq Hq2. apply list_elem_of_singleton in Hq2 as ->. done.
  - intros q Hq. apply lookup_insert_is_Some'. apply elem_of_app in Hq as [Hq|Hq].
    + right. apply (pg_pool _ _ _ Hp). rewrite Hft. apply elem_of_app. left. by right.
    + left. by apply list_elem_of_singleton in Hq.
  - intros q pg Hq. destruct (decide (q = f_kpage f)) as [->|].
    + rewrite lookup_insert_eq in Hq. by simplify_eq.
    + rewrite lookup_insert_ne in Hq by done. by eapply pg_lengths.
  - intros k1 k2 e1 e2 H1 H2 Hs1 Hs2 Hi. destruct (decide (k1 = key)) as [->|Hn1], (decide (k2 = key)) as [->|Hn2]; [done|..].
    + rewrite lookup_insert_eq in H1. rewrite lookup_insert_ne in H2 by done. simplify_eq. by destruct (Hdis Hs1 k2 e2).
    + rewrite lookup_insert_eq in H2. rewrite lookup_insert_ne in H1 by done. simplify_eq. by destruct (Hdis Hs2 k1 e1).
    + rewrite lookup_insert_ne in H1, H2 by done. by eapply (pg_slots _ _ _ Hp).
  - intros k1 k2 e1 e2 Hne H1 H2. pose proof (same_page_apart _ _ Hsame) as Hap.
    destruct (decide (k1 = key)) as [->|Hn1], (decide (k2 = key)) as [->|Hn2]; [done|..].
    + rewrite lookup_insert_eq in H1. rewrite lookup_insert_ne in H2 by done. simplify_eq.
      apply (proj1 (Hap e2)). by eapply (pg_apart _ _ _ Hp key k2).
    + rewrite lookup_insert_eq in H2. rewrite lookup_insert_ne in H1 by done. simplify_eq.
      apply (proj2 (Hap e1)). by eapply (pg_apart _ _ _ Hp k1 key).
    + rewrite lookup_insert_ne in H1, H2 by done. by eapply (pg_apart _ _ _ Hp k1 k2).
Qed.

(** ** Writing a page back to its file *)

Definition splice (c : list Z) (o : nat) (d : list Z) : list Z := take o c ++ d ++ drop (o + length d) c.

Lemma splice_lookup c o d i : (o + length d <= length c)%nat ->
  splice c o d !! i = if decide (o <= i < o + length d)%nat then d !! (i - o)%nat else c !! i.
Proof.
  intros Hl. unfold splice. assert (length (take o c) = o) as Ht by (rewrite length_take; lia). case_decide.
  - rewrite lookup_app_r by lia. rewrite Ht, lookup_app_l by lia. done.
  - destruct (decide (i < o)%nat).
    + rewrite lookup_app_l by lia. by rewrite lookup_take_lt.
    + rewrite !lookup_app_r, Ht by lia. rewrite lookup_drop. f_equal. lia.
Qed.

Lemma splice_length c o d : (o + length d <= length c)%nat -> length (splice c o d) = length c.
Proof. intros. unfold splice. rewrite !length_app, length_take, length_drop. lia. Qed.

Lemma slice_ext (c c' : list Z) o r : (forall i, (o <= i < o + r)%nat -> c !! i = c' !! i) -> take r (drop o c) = take r (drop o c').
Proof.
  intros H. apply list_eq. intros i. destruct (decide (i < r)%nat).
  - rewrite !lookup_take_lt, !lookup_drop by done. apply H. lia.
  - by rewrite !lookup_take_ge by lia.
Qed.

Lemma splice_same c o d : (o + length d <= length c)%nat -> take (length d) (drop o (splice c o d)) = d.
Proof.
  intros H. unfold splice. rewrite drop_app_ge by (rewrite length_take; lia). rewrite length_take.
  replace (o - _)%nat with 0%nat by lia. by rewrite drop_0, take_app_length.
Qed.

Lemma file_data_write s f d ofs f2 : 0 <= ofs -> ofs + Z.of_nat (length d) <= flength (file_data inode_of f s) ->
  file_data inode_of f2 (vm_file_write inode_of f d ofs s) =
  if decide (inode_of f2 = inode_of f) then splice (file_data inode_of f s) (Z.to_nat ofs) d else file_data inode_of f2 s.
Proof.
  unfold flength. intros Ho Hl. unfold vm_file_write. unfold file_data at 1. cbn [files set_files]. case_decide as Hi.
  - rewrite Hi, lookup_insert_eq. simpl. unfold splice. replace (Z.to_nat ofs - _)%nat with 0%nat by lia. by rewrite app_nil_r.
  - by rewrite lookup_insert_ne.
Qed.

(** The page written back is what the file gives afterwards; a page apart from it is
    given as before. *)
Lemma write_back_same s e page : file_backed s e -> length page = 4096%nat ->
  drop (Z.to_nat (read_bytes e)) page = replicate (Z.to_nat (zero_bytes e)) 0 ->
  let s' := vm_file_write inode_of (file e) (take (Z.to_nat (read_bytes e)) page) (file_ofs e) s in
  file_backed s' e /\ file_page s' e = page.
Proof.
  intros [Hsz Ho Hlen Hf] Hl Hz s'. assert (length (take (Z.to_nat (read_bytes e)) page) = Z.to_nat (read_bytes e)) as Hd
    by (rewrite length_take; lia).
  assert (file_data inode_of (file e) s' = splice (file_data inode_of (file e) s) (Z.to_nat (file_ofs e)) (take (Z.to_nat (read_bytes e)) page)) as Hfd.
  { unfold s'. rewrite file_data_write by (rewrite ?Hd; lia). by rewrite decide_True. }
  unfold flength in Hlen. split.
  - split; try done. rewrite Hfd. unfold flength. rewrite splice_length; [done|]. rewrite Hd. lia.
  - unfold file_page. rewrite Hfd. rewrite <- Hd at 1. rewrite splice_same by (rewrite Hd; lia).
    rewrite <- Hz. by rewrite take_drop.
Qed.

Lemma write_back_other s e e2 page : file_backed s e -> length page = 4096%nat ->
  (inode_of (file e) = inode_of (file e2) -> file_ofs e + read_bytes e <= file_ofs e2 \/ file_ofs e2 + read_bytes e2 <= file_ofs e) ->
  let s' := vm_file_write inode_of (file e) (take (Z.to_nat (read_bytes e)) page) (file_ofs e) s in
  (file_backed s e2 -> file_backed s' e2 /\ file_page s' e2 = file_page s e2) /\ (file_backed s' e2 -> file_backed s e2).
Proof.
  intros [Hsz Ho Hlen Hf] Hl Hap s'. assert (length (take (Z.to_nat (read_bytes e)) page) = Z.to_nat (read_bytes e)) as Hd
    by (rewrite length_take; lia). unfold flength in Hlen.
  assert (length (file_data inode_of (file e2) s') = length (file_data inode_of (file e2) s)) as Hll.
  { unfold s'. rewrite file_data_write by (unfold flength; rewrite ?Hd; lia). case_decide as Hi; [|done].
    rewrite splice_length by (rewrite Hd; lia). unfold file_data. by rewrite Hi. }
  split.
  - intros [Hsz2 Ho2 Hlen2 Hf2]. split; [split; try done; unfold flength in *; lia|]. unfold file_page. f_equal.
    apply slice_ext. intros i Hi. unfold s'. rewrite file_data_write by (unfold flength; rewrite ?Hd; lia). case_decide as Hin; [|done].
    rewrite splice_lookup by (rewrite Hd; lia). rewrite Hd. rewrite decide_False; [unfold file_data; by rewrite Hin|].
    destruct (Hap (eq_sym Hin)); lia.
  - intros [Hsz2 Ho2 Hlen2 Hf2]. split; try done. unfold flength in *. lia.
Qed.

(** ** frame_evict *)

(** The page at the head of the frame table can be evicted: a dirty page finds a free slot
    of the swap disk, a clean one comes from a file, and a dirty mapped page belongs to
    the running thread, which does not hold the file lock. *)
Definition evictable (s : vm) : bool :=
  match free_pages s with
  | _ :: _ => true
  | [] =>
      match frame_table s with
      | [] => false
      | f :: _ =>
          match tables s !! (origin_thread f, f_upage f) with
          | None => false
          | Some e =>
              let is_dirty := pd_is_dirty (origin_thread f) (f_upage f) s in
              if bool_decide (mmap_id e = MAP_FAILED) then
                if is_dirty then existsb (fun i => negb (bit (swap_table (sw s)) i)) (seqZ 0 (bit_cnt (swap_table (sw s))))
                else bool_decide (read_bytes e + zero_bytes e = 4096)
              else negb is_dirty || (bool_decide (origin_thread f = curr s) && negb (file_lock s))
          end
      end
  end.

Definition same_tables (s s' : vm) : Prop :=
  forall key e, tables s !! key = Some e -> exists e', tables s' !! key = Some e' /\ same_page e e'.

(** What a call leaves alone: the running thread, its locks, and the entries of the pages
    that are in no frame. *)
Record moved (s s' : vm) : Prop := {
  mv_tables : same_tables s s';
  mv_curr : curr s' = curr s;
  mv_frame_lock : frame_lock s' = frame_lock s;
  mv_file_lock : file_lock s' = file_lock s;
  mv_absent : forall key, dirs s !! key = None -> dirs s' !! key = None /\ tables s' !! key = tables s !! key
}.

Section Evict.
Context (s : vm) (am : pages) (sl : slots) (f : fte) (rest : list fte) (e : sup_pte) (page : list Z) (p : mapping).
Abbreviation key := (origin_thread f, f_upage f).
Context (Hp : paged s am sl) (Hfree : free_pages s = []) (Hft : frame_table s = f :: rest).
Context (He : tables s !! key = Some e) (Ha : am !! key = Some page) (Hd : dirs s !! key = Some p) (Hk : m_kpage p = f_kpage f).

#[local] Set Default Proof Using "All".

Lemma victim_entry : entry_ok s sl key e page.
Proof. by eapply pg_entries. Qed.

Lemma victim_at : loaded e = true /\ swapped e = false /\ frames s !! f_kpage f = Some page /\ m_writable p = writable e /\
  (m_dirty p = true -> writable e = true) /\ (m_dirty p = false -> file_backed s e -> page = file_page s e).
Proof. destruct victim_entry as [_ _ _ _ Hat]. unfold page_at in Hat. rewrite Hd, Hk in Hat. exact Hat. Qed.

(** A dirty page of the program goes to the swap disk. *)
Lemma evict_swap_ok w i : mmap_id e = MAP_FAILED -> m_dirty p = true ->
  holds_slots w (<[i := page]> sl) -> sl !! i = None ->
  paged (evicted s f rest (set_swap_index i (set_swapped true e)) w (files s)) am (<[i := page]> sl).
Proof.
  intros Hm Hdirty Hw Hi. pose proof victim_at as (Hl & Hs & Hfr & Hwr & Hdw & _). pose proof victim_entry as [Hu Hlen Hkind _ _].
  eapply evicted_ok; try done.
  - intros key2 e2 j Hne He2 Hs2 Hj. apply lookup_insert_ne. intros <-.
    destruct (pg_dom _ _ _ Hp key2) as [_ [pg2 Ha2]]; [eauto|].
    destruct (pg_entries _ _ _ Hp _ _ _ He2 Ha2) as [_ _ _ _ Hat]. unfold page_at in Hat.
    destruct (dirs s !! key2); [naive_solver congruence|]. destruct Hat as [(_ & _ & _ & j & Hj' & Hsl)|(? & ? & _)]; congruence.
  - intros key2 e2 _ _. destruct (same_files s (evicted s f rest (set_swap_index i (set_swapped true e)) w (files s)) e2 eq_refl)
      as [Hb Hpg]. split; [|by rewrite Hb]. intros Hb'. split; [by apply Hb|done].
  - simpl. intros _ key2 e2 Hne He2 Hs2 Hj.
    destruct (pg_dom _ _ _ Hp key2) as [_ [pg2 Ha2]]; [eauto|].
    destruct (pg_entries _ _ _ Hp _ _ _ He2 Ha2) as [_ _ _ _ Hat]. unfold page_at in Hat.
    destruct (dirs s !! key2); [naive_solver congruence|]. destruct Hat as [(_ & _ & _ & j & Hj' & Hsl)|(? & ? & _)]; congruence.
  - set (s2 := evicted s f rest (set_swap_index i (set_swapped true e)) w (files s)).
    destruct (same_files s s2 (set_swap_index i (set_swapped true e)) eq_refl) as [Hb2 _].
    destruct (same_page_file s e (set_swap_index i (set_swapped true e))) as [Hb3 _]; [by repeat split|].
    split; try done.
    + destruct Hkind as [Hb|Hst]; [left; by apply Hb2, Hb3|by right].
    + unfold page_at; simpl. rewrite lookup_delete_eq. left. split_and!; auto. exists i. split; [done|]. apply lookup_insert_eq.
Qed.

(** A clean page is dropped; it is read again from its file. *)
Lemma evict_drop_ok : m_dirty p = false -> file_backed s e ->
  paged (evicted s f rest (set_loaded false e) (sw s) (files s)) am sl.
Proof.
  intros Hc Hb. pose proof victim_at as (Hl & Hs & Hfr & Hwr & Hdw & Hpg). pose proof victim_entry as [Hu Hlen Hkind Hmm _].
  pose proof (same_files s (evicted s f rest (set_loaded false e) (sw s) (files s))) as Hsf.
  eapply evicted_ok; try done.
  - apply Hp.
  - intros key2 e2 _ _. destruct (Hsf e2 eq_refl) as [Hb2 Hp2]. split; [|by rewrite Hb2]. intros Hb'. split; [by apply Hb2|done].
  - simpl. congruence.
  - destruct (Hsf e eq_refl) as [Hb2 Hp2]. destruct (same_page_file (evicted s f rest (set_loaded false e) (sw s) (files s)) e (set_loaded false e))
      as [Hb3 Hp3]; [by repeat split|].
    split; try done.
    + left. by apply Hb3, Hb2.
    + unfold page_at; simpl. rewrite lookup_delete_eq. right. split_and!; [done|done|by apply Hb3, Hb2|].
      rewrite Hp3, Hp2. by apply Hpg.
Qed.

(** A dirty mapped page of the running thread goes to its file. *)
Lemma evict_write_ok fs : mmap_id e <> MAP_FAILED -> file_backed s e ->
  fs = files (vm_file_write inode_of (file e) (take (Z.to_nat (read_bytes e)) page) (file_ofs e) s) ->
  paged (evicted s f rest (set_loaded false e) (sw s) fs) am sl.
Proof.
  intros Hm Hb ->. pose proof victim_at as (Hl & Hs & Hfr & Hwr & Hdw & _). pose proof victim_entry as [Hu Hlen Hkind Hmm _].
  set (s1 := vm_file_write inode_of (file e) (take (Z.to_nat (read_bytes e)) page) (file_ofs e) s).
  pose proof (same_files s1 (evicted s f rest (set_loaded false e) (sw s) (files s1))) as Hsf.
  destruct (Hmm Hm) as [_ Hz]. destruct (write_back_same s e page Hb Hlen Hz) as [Hb1 Hp1]. fold s1 in Hb1, Hp1.
  eapply evicted_ok; try done.
  - apply Hp.
  - intros key2 e2 Hne He2. destruct (Hsf e2 eq_refl) as [Hb2 Hp2]. rewrite <- Hb2, Hp2.
    apply write_back_other; [done|done|]. by apply (pg_apart _ _ _ Hp key key2).
  - simpl. congruence.
  - destruct (Hsf e eq_refl) as [Hb2 Hp2].
    destruct (same_page_file (evicted s f rest (set_loaded false e) (sw s) (files s1)) e (set_loaded false e)) as [Hb3 Hp3]; [by repeat split|].
    split; try done.
    + left. by apply Hb3, Hb2.
    + unfold page_at; simpl. rewrite lookup_delete_eq. right. rewrite Hp2, Hp1 in Hp3. split_and!; [done|done|by apply Hb3, Hb2|symmetry; exact Hp3].
Qed.
Lemma evicted_moved e' w fs : same_page e e' -> moved s (evicted s f rest e' w fs).
Proof.
  intros Hsame. split; try done.
  - intros key2 e2 He2. simpl. destruct (decide (key2 = key)) as [->|Hne].
    + rewrite lookup_insert_eq. exists e'. rewrite He in He2. by simplify_eq.
    + rewrite lookup_insert_ne by done. exists e2. split; [done|by repeat split].
  - intros key2 Hk2. assert (key2 <> key) by congruence. simpl. by rewrite lookup_delete_ne, lookup_insert_ne.
Qed.

Lemma mmap_backed : mmap_id e <> MAP_FAILED -> file_backed s e.
Proof. intros Hm. destruct victim_entry as [_ _ [Hb|(_ & _ & Hx)] _ _]; [done|by destruct Hm]. Qed.

(** The whole of [frame_evict] up to its last call. *)
Lemma frame_evict_cases zero :
  (mmap_id e = MAP_FAILED -> m_dirty p = true -> exists i, 0 <= i < bit_cnt (swap_table (sw s)) /\ sl !! i = None) ->
  (mmap_id e = MAP_FAILED -> m_dirty p = false -> file_backed s e) ->
  (mmap_id e <> MAP_FAILED -> m_dirty p = true -> origin_thread f = curr s /\ file_lock s = false) ->
  exists e' w fs sl', frame_evict inode_of zero s = Ret (get_user_page zero (evicted s f rest e' w fs)) /\
    paged (evicted s f rest e' w fs) am sl' /\ same_page e e'.
Proof.
  intros H1 H2 H3. pose proof victim_at as (Hl & Hs & Hfr & Hwr & Hdw & _). pose proof victim_entry as [Hu Hlen Hkind _ _].
  unfold frame_evict. rewrite Hft, He. cbn [of_opt rbind]. unfold pd_is_dirty. rewrite Hd. cbn [from_option].
  unfold evict_save. case_bool_decide as Hm; destruct (m_dirty p) eqn:Hdirty.
  - simpl. rewrite Hl, Hfr. cbn [assert_ of_opt rbind].
    destruct (swap_out_ok (sw s) sl page (pg_swap _ _ _ Hp) Hlen) as [[_ Hfull]|(w & i & -> & (_ & Hi & _) & Hw & _)].
    + destruct (H1 Hm eq_refl) as (i & Hr & Hi). destruct (Hfull i Hr) as [? Hx]. by rewrite Hi in Hx.
    + cbn [rbind]. exists (set_swap_index i (set_swapped true e)), w, (files s), (<[i := page]> sl). split.
      * unfold evicted, free_user_page. simpl. by rewrite Hfree.
      * split; [by apply evict_swap_ok|by repeat split].
  - cbn [rbind]. exists (set_loaded false e), (sw s), (files s), sl. split.
    + unfold evicted, free_user_page. simpl. by rewrite Hfree.
    + split; [apply evict_drop_ok; auto|by repeat split].
  - destruct (H3 Hm eq_refl) as [Hcur Hfl]. unfold acquire_file_lock. rewrite Hfl. cbn [negb assert_ rbind].
    unfold user_page_bytes. simpl. rewrite Hu. simpl. rewrite <- Hcur, Hd. rewrite Hk, Hfr. cbn [of_opt rbind release_file_lock].
    simpl. eexists (set_loaded false e), (sw s), _, sl. split.
    + unfold evicted, free_user_page. simpl. rewrite Hfree, Hfl, Hcur. done.
    + split; [apply evict_write_ok; [done|by apply mmap_backed|done]|by repeat split].
  - cbn [rbind]. exists (set_loaded false e), (sw s), (files s), sl. split.
    + unfold evicted, free_user_page. simpl. by rewrite Hfree.
    + split; [apply evict_drop_ok; [done|by apply mmap_backed]|by repeat split].
Qed.
End Evict.

Lemma frame_evict_ok s am sl zero : paged s am sl -> free_pages s = [] -> evictable s = true ->
  exists s2 sl' k, frame_evict inode_of zero s = Ret (get_user_page zero s2) /\ paged s2 am sl' /\ free_pages s2 = [k] /\ moved s s2.
Proof.
  intros Hp Hfree Hv. unfold evictable in Hv. rewrite Hfree in Hv. destruct (frame_table s) as [|f rest] eqn:Hft; [done|].
  destruct (tables s !! (origin_thread f, f_upage f)) as [e|] eqn:He; [|done].
  destruct (pg_frames _ _ _ Hp f) as (p & Hd & Hk); [rewrite Hft; by left|].
  destruct (pg_dom _ _ _ Hp (origin_thread f, f_upage f)) as [_ [page Ha]]; [eauto|].
  unfold pd_is_dirty in *. rewrite Hd in Hv. simpl in Hv.
  destruct (frame_evict_cases s am sl f rest e page p Hp Hfree Hft He Ha Hd Hk zero) as (e' & w & fs & sl' & -> & Hp' & Hsame).
  - intros Hm Hdirty. rewrite bool_decide_true, Hdirty in Hv by done. apply existsb_exists in Hv as (i & Hi & Hb).
    apply list_elem_of_In, elem_of_seqZ in Hi. exists i. split; [lia|]. apply eq_None_not_Some.
    rewrite <- (hs_bits _ _ (pg_swap _ _ _ Hp)) by lia. by destruct (bit _ i).
  - intros Hm Hdirty. rewrite bool_decide_true, Hdirty in Hv by done. apply bool_decide_eq_true in Hv.
    destruct (pg_entries _ _ _ Hp _ _ _ He Ha) as [_ _ [Hb|(? & ? & _)] _ _]; [done|lia].
  - intros Hm Hdirty. rewrite bool_decide_false, Hdirty in Hv by done. simpl in Hv. apply andb_prop in Hv as [Hc Hl].
    apply bool_decide_eq_true in Hc. split; [done|by apply negb_true_iff].
  - eexists _, sl', (f_kpage f). split_and!; [done..|]. by eapply evicted_moved.
Qed.

(** ** frame_alloc *)

Lemma same_page_trans e1 e2 e3 : same_page e1 e2 -> same_page e2 e3 -> same_page e1 e3.
Proof. unfold same_page. intuition congruence. Qed.

Lemma same_tables_trans s1 s2 s3 : same_tables s1 s2 -> same_tables s2 s3 -> same_tables s1 s3.
Proof.
  intros H1 H2 key e He. destruct (H1 key e He) as (e2 & He2 & Hs2). destruct (H2 key e2 He2) as (e3 & He3 & Hs3).
  exists e3. split; [done|]. by eapply same_page_trans.
Qed.

Lemma same_tables_eq s1 s2 : tables s2 = tables s1 -> same_tables s1 s2.
Proof. intros Heq key e He. exists e. rewrite Heq. split; [done|by repeat split]. Qed.

Lemma moved_trans s1 s2 s3 : moved s1 s2 -> moved s2 s3 -> moved s1 s3.
Proof.
  intros [T1' C1 L1 F1 A1] [T2' C2 L2 F2 A2]. split; try congruence; [by eapply same_tables_trans|]. intros key Hk. destruct (A1 key Hk) as [H1 T1].
  destruct (A2 key H1) as [H2 T2]. by rewrite T2.
Qed.

(** The frame that [frame_alloc] gives is of no page yet. *)
Lemma frame_alloc_ok s am sl u zero : paged s am sl -> evictable s = true ->
  exists s0 sl' k, frame_alloc inode_of true u zero s = Ret (set_frame_table (frame_table s0 ++ [mkFte (curr s0) u k]) s0, Some k) /\
    paged s0 am sl' /\ fresh s0 k /\ moved s s0 /\ (zero = true -> frames s0 !! k = Some zero_page).
Proof.
  intros Hp Hv. unfold frame_alloc.
  destruct (free_pages s) as [|k r] eqn:Hfree.
  - unfold get_user_page at 1. rewrite Hfree.
    destruct (frame_evict_ok s am sl zero Hp Hfree Hv) as (s2 & sl' & k & -> & Hp2 & Hf2 & Hmv). cbn [rbind].
    destruct (take_free_ok s2 am sl' zero k [] Hp2 Hf2) as (s0 & -> & Hp0 & Hfr & _ & Hz & Hft & Ht & Hds & Hsw & Hfs & Hc & Hl1 & Hl2).
    cbn [rbind]. exists s0, sl', k. split_and!; try done. eapply moved_trans; [done|]. split; try done; [by apply same_tables_eq|]. intros. by rewrite Hds, Ht.
  - destruct (take_free_ok s am sl zero k r Hp Hfree) as (s0 & -> & Hp0 & Hfr & _ & Hz & Hft & Ht & Hds & Hsw & Hfs & Hc & Hl1 & Hl2).
    cbn [rbind]. exists s0, sl, k. split_and!; try done. split; try done; [by apply same_tables_eq|]. intros. by rewrite Hds, Ht.
Qed.

(** ** A page enters a frame *)

(** Frame [k] holds [page], is entered into the page directory of the running thread by
    [p] and described by [e]. *)
Definition entered (s : vm) (u k : Z) (e : sup_pte) (page : list Z) (p : mapping) (w : swap) (fl : bool) : vm :=
  mkVm (frame_table s ++ [mkFte (curr s) u k]) (free_pages s) (<[k := page]> (frames s)) (<[(curr s, u) := e]> (tables s))
    (<[(curr s, u) := p]> (dirs s)) w (files s) (curr s) fl (file_lock s).

Lemma entered_ok s am sl u k e page p w sl' fl : let key := (curr s, u) in let s2 := entered s u k e page p w fl in
  paged s am sl -> fresh s k -> dirs s !! key = None -> m_kpage p = k -> length page = 4096%nat ->
  holds_slots w sl' -> swapped e = false ->
  (forall key2 e2 i, key2 <> key -> tables s !! key2 = Some e2 -> swapped e2 = true -> swap_index e2 = Some i -> sl' !! i = sl !! i) ->
  (forall key2 e2, key2 <> key -> tables s !! key2 = Some e2 -> apart e e2 /\ apart e2 e) ->
  entry_ok s2 sl' key e page ->
  paged s2 (<[key := page]> am) sl'.
Proof.
  intros key s2 Hp Hk Hd Hpk Hlen Hw Hsw Hsl Hap Hok. destruct Hk as [Hk Hks].
  pose proof (fun q pq Hq => mapped_not_free s am sl q pq k Hp Hq (or_intror (conj Hk Hks))) as Hnf.
  split; simpl.
  - done.
  - intros q. destruct (decide (q = key)) as [->|Hq]; [rewrite !lookup_insert_eq; split; eauto|].
    rewrite !lookup_insert_ne by done. apply Hp.
  - intros q e2 pg He2 Ha2. destruct (decide (q = key)) as [->|Hq].
    + rewrite lookup_insert_eq in He2. rewrite lookup_insert_eq in Ha2. by simplify_eq.
    + rewrite lookup_insert_ne in He2 by done. rewrite lookup_insert_ne in Ha2 by done.
      destruct (same_files s s2 e2 eq_refl) as [Hb Hpg].
      eapply entry_ok_stable; [by eapply pg_entries| | |by eauto|by rewrite <- Hb|by rewrite Hb]; simpl.
      * by rewrite lookup_insert_ne.
      * intros p2 Hp2. rewrite lookup_insert_ne; [done|]. by specialize (Hnf _ _ Hp2).
  - intros q p2 Hq. destruct (decide (q = key)) as [->|Hne].
    + rewrite lookup_insert_eq in Hq. simplify_eq. rewrite lookup_insert_eq. split; [eauto|]. apply elem_of_app. right. by left.
    + rewrite lookup_insert_ne in Hq by done. rewrite lookup_insert_ne by done.
      destruct (pg_dirs _ _ _ Hp _ _ Hq) as [Ht Hin]. split; [done|]. apply elem_of_app. by left.
  - intros f Hin. apply elem_of_app in Hin as [Hin|Hin].
    + destruct (pg_frames _ _ _ Hp f Hin) as (p2 & Hp2 & Hk2). exists p2. split; [|done]. rewrite lookup_insert_ne; [done|].
      intros Heq. unfold key in Hd. by rewrite Heq, Hp2 in Hd.
    + apply list_elem_of_singleton in Hin as ->. exists p. split; [apply lookup_insert_eq|done].
  - rewrite fmap_app. simpl. pose proof (pg_nodup _ _ _ Hp) as Hnd. rewrite <- app_assoc. simpl.
    rewrite <- Permutation_middle. by apply NoDup_cons.
  - intros q Hq. apply lookup_insert_is_Some'. destruct (decide (k = q)); [by left|right]. apply (pg_pool _ _ _ Hp).
    rewrite fmap_app in Hq. simpl in Hq. rewrite <- app_assoc in Hq. simpl in Hq. rewrite elem_of_app, elem_of_cons in Hq.
    rewrite elem_of_app. naive_solver.
  - intros q pg Hq. destruct (decide (q = k)) as [->|].
    + rewrite lookup_insert_eq in Hq. by simplify_eq.
    + rewrite lookup_insert_ne in Hq by done. by eapply pg_lengths.
  - intros k1 k2 e1 e2 H1 H2 Hs1 Hs2 Hi. destruct (decide (k1 = key)) as [->|Hn1]; [rewrite lookup_insert_eq in H1; congruence|].
    destruct (decide (k2 = key)) as [->|Hn2]; [rewrite lookup_insert_eq in H2; congruence|].
    rewrite lookup_insert_ne in H1, H2 by done. by eapply (pg_slots _ _ _ Hp).
  - intros k1 k2 e1 e2 Hne H1 H2.
    destruct (decide (k1 = key)) as [->|Hn1], (decide (k2 = key)) as [->|Hn2]; [done|..].
    + rewrite lookup_insert_eq in H1. rewrite lookup_insert_ne in H2 by done. simplify_eq. by apply (Hap k2).
    + rewrite lookup_insert_eq in H2. rewrite lookup_insert_ne in H1 by done. simplify_eq. by apply (Hap k1).
    + rewrite lookup_insert_ne in H1, H2 by done. by eapply (pg_apart _ _ _ Hp k1 k2).
Qed.

(** ** Faults *)

(** The page [u] of the running thread is in a frame. *)
Record present (s s2 : vm) (u : Z) (fl : bool) : Prop := {
  pr_tables : same_tables s s2;
  pr_curr : curr s2 = curr s;
  pr_frame_lock : frame_lock s2 = fl;
  pr_file_lock : file_lock s2 = file_lock s;
  pr_dir : is_Some (dirs s2 !! (curr s, u))
}.

Lemma entered_present s s0 u k e e' page p w fl : moved s s0 -> tables s !! (curr s, u) = Some e -> same_page e e' ->
  dirs s !! (curr s, u) = None -> present s (entered s0 u k e' page p w fl) u fl.
Proof.
  intros [Ht Hc Hl Hf Ha] He Hsame Hd. split; simpl; try done.
  - intros key e2 He2. simpl. rewrite Hc. destruct (decide (key = (curr s, u))) as [->|Hne].
    + rewrite lookup_insert_eq. rewrite He in He2. simplify_eq. eauto.
    + rewrite lookup_insert_ne by done. by apply Ht.
  - rewrite Hc, lookup_insert_eq. eauto.
Qed.

Section Fault.
Context (s : vm) (am : pages) (sl : slots) (u : Z) (e : sup_pte) (page : list Z).
Abbreviation fkey := (curr s, u).
Context (Hp : paged s am sl) (Hv : evictable s = true) (Hd : dirs s !! fkey = None).
Context (He : tables s !! fkey = Some e) (Ha : am !! fkey = Some page).

#[local] Set Default Proof Using "All".

Lemma others_apart s0 sl' e' : paged s0 am sl' -> tables s0 !! fkey = Some e -> same_page e e' ->
  forall key2 e2, key2 <> fkey -> tables s0 !! key2 = Some e2 -> apart e' e2 /\ apart e2 e'.
Proof.
  intros Hp0 He0 Hsame key2 e2 Hne He2. pose proof (same_page_apart _ _ Hsame e2) as [H1 H2].
  split; [apply H1, (pg_apart _ _ _ Hp0 fkey key2)|apply H2, (pg_apart _ _ _ Hp0 key2 fkey)]; done.
Qed.

(** A page that comes back from the swap disk is what went there, and is marked as
    written. *)
Lemma fault_swap_ok : swapped e = true ->
  exists s2 sl', fault_swap inode_of true true u s = Ret (s2, true) /\ paged s2 am sl' /\ present s s2 u (frame_lock s).
Proof.
  intros Hs. destruct (frame_alloc_ok s am sl u true Hp Hv) as (s0 & sl' & k & Hal & Hp0 & Hfr & Hmv & _).
  destruct (mv_absent _ _ Hmv _ Hd) as [Hd0 He0]. rewrite He in He0. pose proof (mv_curr _ _ Hmv) as Hc.
  destruct (pg_entries _ _ _ Hp0 _ _ _ He0 Ha) as [Hu Hlen Hkind Hmm Hat]. unfold page_at in Hat. rewrite Hd0 in Hat.
  destruct Hat as [(Hl & _ & Hw & i & Hi & Hsl)|(? & ? & _)]; [|congruence].
  destruct (swap_in_ok (sw s0) sl' i page (pg_swap _ _ _ Hp0) Hsl) as (w & Hsi & Hw' & _).
  exists (entered s0 u k (set_swapped false e) page (mkMapping k true true true) w (frame_lock s0)), (delete i sl'). split; [|split].
  - rewrite <- Hc in He0, Hd0. unfold fault_swap. rewrite Hal. cbn [rbind of_opt]. simpl. rewrite He0. cbn [rbind of_opt]. rewrite Hi.
    cbn [rbind of_opt]. rewrite Hsi. cbn [rbind]. unfold install, pd_get_page, pd_set_page. simpl. rewrite Hd0. cbn [rbind]. simpl.
    rewrite Hl. cbn [assert_ rbind]. unfold pd_set_accessed, pd_set_dirty, set_entry, entered. simpl. by rewrite !alter_insert_eq.
  - rewrite <- (insert_id am fkey page) by done. rewrite <- Hc. rewrite <- Hc in Hd0. apply (entered_ok _ _ sl'); try done.
    + intros key2 e2 j Hne He2 Hs2 Hj. apply lookup_delete_ne. intros <-. apply Hne. rewrite Hc.
      eapply (pg_slots _ _ _ Hp0); [done..|]. by rewrite Hj, Hi.
    + rewrite Hc. by apply (others_apart _ sl').
    + destruct (same_page_file s0 e (set_swapped false e)) as [Hb1 _]; [by repeat split|].
      split; [done|done| | |].
      * destruct Hkind as [Hb|Hst]; [left|by right]. eapply same_files; [|by apply Hb1]. done.
      * intros Hm. by destruct (Hmm Hm).
      * unfold page_at. simpl. rewrite lookup_insert_eq. simpl. rewrite lookup_insert_eq. by split_and!.
  - rewrite <- (mv_frame_lock _ _ Hmv). by eapply entered_present.
Qed.

(** The state in which the page read from the file is entered. *)
Definition filled (s0 : vm) (k : Z) (pg : list Z) : vm :=
  set_pool (free_pages s0) (<[k := pg]> (frames s0)) (set_frame_table (frame_table s0 ++ [mkFte (curr s0) u k]) s0).

Lemma finish_lazy_ok s0 sl' k remove : loaded e = false -> paged s0 am sl' -> fresh s0 k -> moved s s0 -> frame_lock s0 = true ->
  exists s2, finish_lazy true remove u k e (filled s0 k page) = Ret s2 /\ paged s2 am sl' /\ present s s2 u false.
Proof.
  intros Hl Hp0 Hfr Hmv Hlock. destruct (mv_absent _ _ Hmv _ Hd) as [Hd0 He0]. rewrite He in He0.
  pose proof (mv_curr _ _ Hmv) as Hc. destruct (pg_entries _ _ _ Hp0 _ _ _ He0 Ha) as [Hu Hlen Hkind Hmm Hat].
  unfold page_at in Hat. rewrite Hd0 in Hat. destruct Hat as [(? & _)|(_ & Hs & Hb & Hpg)]; [congruence|].
  exists (entered s0 u k (set_loaded true e) page (mkMapping k (writable e) false true) (sw s0) false). split; [|split].
  - rewrite <- Hc in Hd0. unfold finish_lazy, install, pd_get_page, pd_set_page. simpl. rewrite Hd0. cbn [rbind]. simpl.
    unfold frame_table_lock_release. simpl. rewrite Hlock. simpl. unfold pd_set_accessed, set_entry, entered. simpl.
    by rewrite alter_insert_eq.
  - rewrite <- (insert_id am fkey page) by done. rewrite <- Hc. rewrite <- Hc in Hd0. apply (entered_ok _ _ sl'); try done; [apply Hp0|..].
    + rewrite Hc. by apply (others_apart _ sl').
    + destruct (same_page_file s0 e (set_loaded true e)) as [Hb1 Hp1]; [by repeat split|].
      destruct (same_files s0 (entered s0 u k (set_loaded true e) page (mkMapping k (writable e) false true) (sw s0) false)
        (set_loaded true e) eq_refl) as [Hb2 Hp2].
      split; [done|done| |done|].
      * left. by apply Hb2, Hb1.
      * unfold page_at. simpl. rewrite lookup_insert_eq. simpl. rewrite lookup_insert_eq. by split_and!.
  - by eapply entered_present.
Qed.

(** A page is loaded from its file in each of the three cases. *)
Lemma fault_lazy_ok : loaded e = false -> frame_lock s = true ->
  exists s2 sl', fault_lazy inode_of true true u e s = Ret s2 /\ paged s2 am sl' /\ present s s2 u false.
Proof.
  intros Hl Hlock.
  assert (Hb : file_backed s e).
  { destruct (pg_entries _ _ _ Hp _ _ _ He Ha) as [_ _ _ _ Hat]. unfold page_at in Hat. rewrite Hd in Hat.
    destruct Hat as [(? & _)|(_ & _ & Hb & _)]; [congruence|done]. }
  destruct Hb as [(Hr & Hz & Hsum) Ho _ Hfile].
  destruct (frame_alloc_ok s am sl u (negb (bool_decide (read_bytes e = PGSIZE)) && bool_decide (zero_bytes e = PGSIZE)) Hp Hv)
    as (s0 & sl' & k & Hal & Hp0 & Hfr & Hmv & Hzero).
  destruct (mv_absent _ _ Hmv _ Hd) as [Hd0 He0]. rewrite He in He0. pose proof (mv_curr _ _ Hmv) as Hc.
  destruct (pg_entries _ _ _ Hp0 _ _ _ He0 Ha) as [_ _ _ _ Hat].
  unfold page_at in Hat. rewrite Hd0 in Hat. destruct Hat as [(? & _)|(_ & _ & [_ _ Hlen _] & Hpg)]; [congruence|].
  assert (frame_lock s0 = true) as Hlock0 by (by rewrite (mv_frame_lock _ _ Hmv)).
  destruct (finish_lazy_ok s0 sl' k (bool_decide (read_bytes e = PGSIZE) || bool_decide (zero_bytes e = PGSIZE)) Hl Hp0 Hfr Hmv Hlock0)
    as (s2 & Hfin & Hp2 & Hpr).
  exists s2, sl'. split; [|done]. destruct Hfr as [_ [old Hold]]. pose proof (pg_lengths _ _ _ Hp0 _ _ Hold) as Holdl.
  assert (fread (file_data inode_of (file e) s0) (file_ofs e) (read_bytes e) =
    Ret (take (Z.to_nat (read_bytes e)) (drop (Z.to_nat (file_ofs e)) (file_data inode_of (file e) s0)))) as Hrd.
  { unfold fread. rewrite bool_decide_true; [done|]. lia. }
  set (data := take (Z.to_nat (read_bytes e)) (drop (Z.to_nat (file_ofs e)) (file_data inode_of (file e) s0))) in *.
  assert (flength data = read_bytes e) as Hdl.
  { unfold flength, data in *. rewrite length_take, length_drop. lia. }
  assert (length data = Z.to_nat (read_bytes e)) as Hdn by (unfold flength in Hdl; lia).
  assert (page = data ++ replicate (Z.to_nat (zero_bytes e)) 0) as Hpg' by exact Hpg.
  rewrite <- Hc in He0. unfold fault_lazy. unfold PGSIZE in *. rewrite bool_decide_true by done. cbn [assert_ rbind].
  unfold get_entry. case_bool_decide as Hc1; [|case_bool_decide as Hc2]; simpl in Hal, Hfin; rewrite Hal; cbn [rbind of_opt].
  - simpl. rewrite He0. cbn [rbind]. change (file_data inode_of (file e) (set_frame_table _ s0)) with (file_data inode_of (file e) s0).
    rewrite Hrd. cbn [rbind]. rewrite Hold. simpl. rewrite bool_decide_false by auto. rewrite <- Hfin. unfold filled. do 2 f_equal.
    rewrite Hpg'. f_equal. rewrite drop_ge by lia. replace (Z.to_nat (zero_bytes e)) with 0%nat by lia. done.
  - simpl. rewrite He0. cbn [rbind]. rewrite <- Hfin. f_equal. unfold filled. rewrite insert_id; [by destruct s0|].
    rewrite Hzero by done. f_equal. rewrite Hpg'. assert (length data = 0%nat) as Hd00 by lia. apply length_zero_iff_nil in Hd00 as ->.
    rewrite Hc2. done.
  - rewrite bool_decide_true by done. cbn [assert_ rbind]. simpl. rewrite He0. cbn [rbind of_opt].
    rewrite bool_decide_true by (apply Hfile; lia). cbn [assert_ rbind].
    change (file_data inode_of (file e) (set_frame_table _ s0)) with (file_data inode_of (file e) s0).
    rewrite Hrd. cbn [rbind]. rewrite Hold. simpl. rewrite bool_decide_false by auto. rewrite <- Hfin. f_equal. unfold filled, set_pool. simpl.
    rewrite insert_insert_eq. do 2 f_equal. rewrite Hpg'. f_equal. rewrite <- Hdn. by rewrite take_app_length.
Qed.
End Fault.

Definition stack_entry (u : Z) : sup_pte := mkPte 0 u 0 0 true 0 false true None MAP_FAILED.

(** A new page of the stack holds zeros. *)
Lemma grow_stack_ok s am sl u : paged s am sl -> evictable s = true -> tables s !! (curr s, u) = None ->
  exists s2 sl', grow_stack inode_of true true true u s = Ret (s2, true) /\ paged s2 (<[(curr s, u) := zero_page]> am) sl' /\
    present s s2 u (frame_lock s) /\ tables s2 !! (curr s, u) = Some (stack_entry u).
Proof.
  intros Hp Hv He. destruct (frame_alloc_ok s am sl u true Hp Hv) as (s0 & sl' & k & Hal & Hp0 & Hfr & Hmv & Hz).
  assert (dirs s !! (curr s, u) = None) as Hd.
  { destruct (dirs s !! (curr s, u)) as [p|] eqn:Hd; [|done]. destruct (pg_dirs _ _ _ Hp _ _ Hd) as [[? Hx] _]. by rewrite He in Hx. }
  destruct (mv_absent _ _ Hmv _ Hd) as [Hd0 He0]. rewrite He in He0. pose proof (mv_curr _ _ Hmv) as Hc.
  exists (entered s0 u k (stack_entry u) zero_page (mkMapping k true false false) (sw s0) (frame_lock s0)), sl'. split_and!.
  - rewrite <- Hc in He0, Hd0. unfold grow_stack. rewrite Hal. cbn [rbind of_opt]. unfold install, pd_get_page, pd_set_page. simpl.
    rewrite Hd0. cbn [rbind]. simpl. rewrite He0. unfold entered, set_entry. simpl. by rewrite (insert_id (frames s0)) by auto.
  - rewrite <- Hc. rewrite <- Hc in Hd0. apply (entered_ok _ _ sl'); try done; [apply Hp0|..].
    + intros key2 e2 Hne He2. split; [by intros []|]. intros Hm _. right.
      destruct (pg_dom _ _ _ Hp0 key2) as [_ [pg2 Ha2]]; [eauto|].
      destruct (pg_entries _ _ _ Hp0 _ _ _ He2 Ha2) as [_ _ [[_ Ho _ _]|(_ & _ & Hx)] _ _]; [simpl; lia|by destruct Hm].
    + split; [done|done|by right|done|]. unfold page_at. simpl. rewrite lookup_insert_eq. simpl. rewrite lookup_insert_eq.
      split_and!; try done. intros _ [(_ & _ & Hs) _ _ _]. done.
  - split; simpl; try (done || apply Hmv).
    + intros key e2 He2. simpl. rewrite Hc. rewrite lookup_insert_ne by congruence. by apply (mv_tables _ _ Hmv).
    + rewrite Hc, lookup_insert_eq. eauto.
  - simpl. rewrite Hc. apply lookup_insert_eq.
Qed.

(** Nothing of this depends on the frame table lock or on the running thread. *)
Lemma paged_same s s' am sl : paged s am sl ->
  frame_table s' = frame_table s -> free_pages s' = free_pages s -> frames s' = frames s -> tables s' = tables s ->
  dirs s' = dirs s -> sw s' = sw s -> files s' = files s -> paged s' am sl.
Proof.
  intros [H1 H2 H3 H4 H5 H6 H7 H8 H9 H10] Ef Ep Er Et Ed Es Ei. split; rewrite ?Ef, ?Ep, ?Er, ?Et, ?Ed, ?Es; try done.
  intros key e page He Ha. eapply entry_ok_eq; eauto.
Qed.

Definition stack_access (addr esp : Z) : bool := bool_decide (addr >= PHYS_BASE - STACK_MAX) && bool_decide (u32 (esp - 32) <= addr).

(** A fault of a user program on one of its pages brings the page in. *)
Lemma page_fault_ok s am sl addr code esp xesp e page : paged s am sl -> evictable s = true -> frame_lock s = false ->
  Z.land code PF_P = 0 -> is_user_vaddr addr = true -> let u := pg_round_down addr in
  dirs s !! (curr s, u) = None -> tables s !! (curr s, u) = Some e -> am !! (curr s, u) = Some page ->
  exists s2 sl', page_fault inode_of true true true addr code esp xesp s = Ret (s2, Resume) /\ paged s2 am sl' /\ present s s2 u false.
Proof.
  intros Hp Hv Hlock Hcode Haddr u Hd He Ha. set (s1 := set_frame_lock true s).
  assert (paged s1 am sl) as Hp1 by by eapply paged_same.
  unfold page_fault. rewrite bool_decide_true, Haddr by done. cbn [andb]. unfold frame_table_lock_acquire. rewrite Hlock.
  cbn [negb assert_ rbind]. fold s1 u. change (curr s1) with (curr s). change (tables s1) with (tables s). rewrite He.
  destruct (pg_entries _ _ _ Hp _ _ _ He Ha) as [Hu _ _ _ Hat]. simpl in Hu. rewrite Hu. unfold page_at in Hat. rewrite Hd in Hat.
  unfold pd_get_page. change (dirs s1) with (dirs s). rewrite Hd. rewrite (bool_decide_true _ eq_refl).
  destruct Hat as [(Hl & Hs & _)|(Hl & Hs & _)]; rewrite Hl, Hs; cbn [andb negb].
  - destruct (fault_swap_ok s1 am sl u e page Hp1 Hv Hd He Ha Hs) as (s2 & sl' & -> & Hp2 & [P1 P2 P3 P4 P5]).
    cbn [rbind]. unfold frame_table_lock_release. rewrite P3. cbn [frame_lock s1 set_frame_lock assert_ rbind].
    eexists _, sl'. split; [done|]. split; [by eapply paged_same|]. by split.
  - destruct (fault_lazy_ok s1 am sl u e page Hp1 Hv Hd He Ha Hl eq_refl) as (s2 & sl' & -> & Hp2 & [P1 P2 P3 P4 P5]).
    cbn [rbind]. exists s2, sl'. split; [done|]. split; [done|]. by split.
Qed.

(** A fault on no page of the program gives a new page of the stack, or ends the program. *)
Lemma page_fault_new s am sl addr code esp xesp : paged s am sl -> evictable s = true -> frame_lock s = false ->
  Z.land code PF_P = 0 -> Z.land code PF_U <> 0 -> is_user_vaddr addr = true -> let u := pg_round_down addr in
  tables s !! (curr s, u) = None ->
  if stack_access addr esp
  then exists s2 sl', page_fault inode_of true true true addr code esp xesp s = Ret (s2, Resume) /\
    paged s2 (<[(curr s, u) := zero_page]> am) sl' /\ present s s2 u false /\ tables s2 !! (curr s, u) = Some (stack_entry u)
  else page_fault inode_of true true true addr code esp xesp s = Ret (s, Exit).
Proof.
  intros Hp Hv Hlock Hcode Huser Haddr u He. set (s1 := set_frame_lock true s).
  assert (paged s1 am sl) as Hp1 by by eapply paged_same.
  unfold page_fault. rewrite bool_decide_true, Haddr by done. cbn [andb]. unfold frame_table_lock_acquire. rewrite Hlock.
  cbn [negb assert_ rbind]. fold s1 u. change (curr s1) with (curr s). change (tables s1) with (tables s). rewrite He.
  rewrite (bool_decide_true (Z.land code PF_U <> 0)) by done. fold (stack_access addr esp). destruct (stack_access addr esp).
  - destruct (grow_stack_ok s1 am sl u Hp1 Hv He) as (s2 & sl' & -> & Hp2 & [P1 P2 P3 P4 P5] & Ht). cbn [rbind].
    unfold frame_table_lock_release. rewrite P3. cbn [frame_lock s1 set_frame_lock assert_ rbind].
    eexists _, sl'. split; [done|]. split; [by eapply paged_same|]. by split.
  - cbn. rewrite <- Hlock. by destruct s.
Qed.
End Paging.
