(* ===== verification/VmRun.v ===== *)
(** * Demand paging refines flat memories

    User programs of several processes read and write bytes; the processor sets the
    accessed and dirty bits of the pages and restarts an instruction whose fault the kernel
    has handled. *)

From S2P Require Import Prelude Bitmap Vaddr Cache Loader Swap Vm VmProof.

(** ** The machine *)

Inductive access_result : Set := Byte (b : Z) | Written | Killed.

(** An access of a thread to an address, with the stack pointer at that time; [Some b]
    writes [b]. *)
Record access : Set := mkAccess { a_thread : Z; a_addr : Z; a_esp : Z; a_write : option Z }.

Definition page_offset (addr : Z) : nat := Z.to_nat (pg_ofs addr).

Section Machine.
Context (inode_of : Z -> Z) (malloc_ok pt_ok spt_ok : bool).

(** The processor finds the page in the page directory and may access it, or raises a page
    fault whose error code says why. *)
Definition try_access (addr : Z) (w : option Z) (s : vm) : res (vm * (access_result + Z)) :=
  let u := pg_round_down addr in
  let wbit := match w with Some _ => 2 | None => 0 end in
  if is_user_vaddr addr then
    match dirs s !! (curr s, u) with
    | None => Ret (s, inr (4 + wbit))
    | Some p =>
        let! page := of_opt (frames s !! m_kpage p) in
        match w with
        | None => Ret (pd_set_accessed (curr s) u true s, inl (Byte (nth (page_offset addr) page 0)))
        | Some b =>
            if m_writable p then
              let s := set_pool (free_pages s) (<[m_kpage p := <[page_offset addr := b]> page]> (frames s)) s in
              Ret (pd_set_accessed (curr s) u true (pd_set_dirty (curr s) u true s), inl Written)
            else Ret (s, inr 7)
        end
    end
  else Ret (s, inr (5 + wbit)).

(** After a fault that the kernel has handled the access is tried again. *)
Fixpoint user_access (fuel : nat) (addr esp : Z) (w : option Z) (s : vm) : res (vm * access_result) :=
  let! '(s, x) := try_access addr w s in
  match x with
  | inl r => Ret (s, r)
  | inr code =>
      let! '(s, r) := page_fault inode_of malloc_ok pt_ok spt_ok addr code esp 0 s in
      match r, fuel with
      | Exit, _ => Ret (s, Killed)
      | Resume, S fuel => user_access fuel addr esp w s
      | Resume, O => Ub
      end
  end.

Definition do_access (o : access) (s : vm) : res (vm * access_result) :=
  user_access 1 (a_addr o) (a_esp o) (a_write o) (set_curr (a_thread o) s).

Fixpoint do_accesses (os : list access) (s : vm) : res (vm * list access_result) :=
  match os with
  | [] => Ret (s, [])
  | o :: os =>
      let! '(s, r) := do_access o s in
      let! '(s, rs) := do_accesses os s in
      Ret (s, r :: rs)
  end.

(** Whenever a page is needed and none is free, the first of the frame table can be
    evicted; a mapped page is written only where it belongs to the file. *)
Definition access_safe (o : access) (s : vm) : bool :=
  let key := (a_thread o, pg_round_down (a_addr o)) in
  (bool_decide (is_Some (dirs s !! key)) || evictable (set_curr (a_thread o) s)) &&
  match tables s !! key, a_write o with
  | Some e, Some _ => bool_decide (mmap_id e = MAP_FAILED) || bool_decide (pg_ofs (a_addr o) < read_bytes e)
  | _, _ => true
  end.

Fixpoint accesses_safe (os : list access) (s : vm) : bool :=
  match os with
  | [] => true
  | o :: os => access_safe o s && match do_access o s with Ret (s, _) => accesses_safe os s | _ => true end
  end.
End Machine.

(** ** Flat memories *)

(** For every process and page, whether it may be written and its bytes. *)
Abbreviation flat := (gmap (Z * Z) (bool * list Z)).

Definition flat_page (fm : flat) (o : access) : option (bool * list Z) :=
  match fm !! (a_thread o, pg_round_down (a_addr o)) with
  | Some x => Some x
  | None => if stack_access (a_addr o) (a_esp o) then Some (true, zero_page) else None
  end.

Definition flat_access (fm : flat) (o : access) : flat * access_result :=
  let key := (a_thread o, pg_round_down (a_addr o)) in
  if is_user_vaddr (a_addr o) then
    match flat_page fm o with
    | None => (fm, Killed)
    | Some (wr, page) =>
        match a_write o with
        | None => (<[key := (wr, page)]> fm, Byte (nth (page_offset (a_addr o)) page 0))
        | Some b =>
            if (wr : bool) then (<[key := (wr, <[page_offset (a_addr o) := b]> page)]> fm, Written) else (fm, Killed)
        end
    end
  else (fm, Killed).

Fixpoint flat_accesses (fm : flat) (os : list access) : flat * list access_result :=
  match os with
  | [] => (fm, [])
  | o :: os => let '(fm, r) := flat_access fm o in let '(fm, rs) := flat_accesses fm os in (fm, r :: rs)
  end.

(** ** One access *)

Section Refine.
Context (inode_of : Z -> Z).

Record flat_ok (s : vm) (fm : flat) (sl : slots) : Prop := {
  fo_paged : paged inode_of s (snd <$> fm) sl;
  fo_writable : forall key e wr page, tables s !! key = Some e -> fm !! key = Some (wr, page) -> writable e = wr;
  fo_frame_lock : frame_lock s = false
}.

(** The bytes or the flags of a page that is in a frame change. *)
Lemma touch_ok s am sl key p e page p' page' : paged inode_of s am sl -> dirs s !! key = Some p -> tables s !! key = Some e ->
  am !! key = Some page -> m_kpage p' = m_kpage p -> m_writable p' = m_writable p -> length page' = 4096%nat ->
  (page' = page /\ m_dirty p' = m_dirty p \/
   writable e = true /\ m_dirty p' = true /\ (mmap_id e <> MAP_FAILED ->
     drop (Z.to_nat (read_bytes e)) page' = drop (Z.to_nat (read_bytes e)) page)) ->
  paged inode_of (set_dirs (<[key := p']> (dirs s)) (set_pool (free_pages s) (<[m_kpage p := page']> (frames s)) s))
    (<[key := page']> am) sl.
Proof.
  intros Hp Hd He Ha Hk Hw Hl Hch. set (s2 := set_dirs _ _).
  split; simpl; try apply Hp.
  - intros q. destruct (decide (q = key)) as [->|Hq]; [rewrite lookup_insert_eq; split; eauto|].
    rewrite lookup_insert_ne by done. apply Hp.
  - intros q e2 pg He2 Ha2. destruct (same_files inode_of s s2 e2 eq_refl) as [Hb Hpg]. destruct (decide (q = key)) as [->|Hq].
    + rewrite He in He2. rewrite lookup_insert_eq in Ha2. simplify_eq.
      destruct (pg_entries _ _ _ _ Hp _ _ _ He Ha) as [Hu Hlen Hkind Hmm Hat]. split; try done.
      * destruct Hkind as [Hx|Hx]; [left; by apply Hb|by right].
      * intros Hm. destruct (Hmm Hm) as [Hs Hz]. split; [done|]. destruct Hch as [[-> _]|(_ & _ & Ht)]; [done|]. by rewrite Ht.
      * unfold page_at in *. simpl. rewrite lookup_insert_eq, Hk, lookup_insert_eq. rewrite Hd in Hat.
        destruct Hat as (H1 & H2 & H3 & H4 & H5 & H6). split_and!; try done; [congruence| |].
        -- destruct Hch as [[_ ->]|(? & _)]; done.
        -- intros Hdf Hfb. destruct Hch as [[-> Hde]|(_ & Hde & _)]; [|congruence].
           rewrite Hpg. apply H6; [congruence|by apply Hb].
    + rewrite lookup_insert_ne in Ha2 by done.
      eapply entry_ok_stable; [by eapply pg_entries| | |done|by rewrite <- Hb|by rewrite Hb]; simpl.
      * by rewrite lookup_insert_ne.
      * intros p2 Hp2. rewrite lookup_insert_ne; [done|]. intros Heq. apply Hq. by eapply frame_inj.
  - intros q p2 Hq. destruct (decide (q = key)) as [->|Hne].
    + rewrite lookup_insert_eq in Hq. simplify_eq. rewrite Hk. by apply (pg_dirs _ _ _ _ Hp).
    + rewrite lookup_insert_ne in Hq by done. by apply (pg_dirs _ _ _ _ Hp).
  - intros f Hf. destruct (pg_frames _ _ _ _ Hp f Hf) as (p2 & Hp2 & Hk2). destruct (decide (key = (origin_thread f, f_upage f))) as [->|].
    + exists p'. rewrite lookup_insert_eq. split; [done|]. rewrite Hd in Hp2. simplify_eq. congruence.
    + exists p2. by rewrite lookup_insert_ne.
  - intros q Hq. apply lookup_insert_is_Some'. right. by apply (pg_pool _ _ _ _ Hp).
  - intros q pg Hq. destruct (decide (q = m_kpage p)) as [->|].
    + rewrite lookup_insert_eq in Hq. by simplify_eq.
    + rewrite lookup_insert_ne in Hq by done. by eapply pg_lengths.
Qed.

Lemma alter_some {A} (f : A -> A) (m : gmap (Z * Z) A) key x : m !! key = Some x -> alter f key m = <[key := f x]> m.
Proof. intros H. rewrite <- (insert_id m key x) at 1 by done. apply alter_insert_eq. Qed.

Lemma page_offset_lt addr : (page_offset addr < 4096)%nat.
Proof. unfold page_offset. rewrite pg_ofs_mod. pose proof (Z.mod_pos_bound addr 4096). lia. Qed.

Lemma flat_update s s2 fm sl key wr page : flat_ok s fm sl -> paged inode_of s2 (<[key := page]> (snd <$> fm)) sl ->
  (forall e, tables s2 !! key = Some e -> writable e = wr) -> tables s2 = tables s -> frame_lock s2 = false ->
  flat_ok s2 (<[key := (wr, page)]> fm) sl.
Proof.
  intros [Hp Hw Hl] Hp2 Hwr Ht Hl2. split; [by rewrite fmap_insert| |done].
  intros q e wr' pg He Hf. destruct (decide (q = key)) as [->|Hq].
  - rewrite lookup_insert_eq in Hf. simplify_eq. by apply Hwr.
  - rewrite lookup_insert_ne in Hf by done. rewrite Ht in He. by eapply Hw.
Qed.

(** The page is in a frame. *)
Lemma mapped_access s fm sl addr esp w p : let o := mkAccess (curr s) addr esp w in
  flat_ok s fm sl -> is_user_vaddr addr = true -> dirs s !! (curr s, pg_round_down addr) = Some p -> access_safe o s = true ->
  exists s2 sl', flat_ok s2 (flat_access fm o).1 sl' /\
    (try_access addr w s = Ret (s2, inl (flat_access fm o).2) \/
     try_access addr w s = Ret (s2, inr 7) /\ (flat_access fm o).2 = Killed).
Proof.
  intros o Hok Haddr Hd Hsafe. pose proof Hok as [Hp Hw Hlock]. set (key := (curr s, pg_round_down addr)) in *.
  destruct (pg_dirs _ _ _ _ Hp _ _ Hd) as [[e He] _].
  destruct (pg_dom _ _ _ _ Hp key) as [_ [page Ha]]; [eauto|].
  pose proof Ha as Hfm. rewrite lookup_fmap in Hfm. destruct (fm !! key) as [[wr pg]|] eqn:Hf; [|done]. simpl in Hfm. simplify_eq.
  destruct (pg_entries _ _ _ _ Hp _ _ _ He Ha) as [Hu Hlen _ _ Hat]. unfold page_at in Hat. rewrite Hd in Hat.
  destruct Hat as (_ & _ & Hfr & Hwr & _ & _). pose proof (Hw _ _ _ _ He Hf) as Hwe.
  unfold flat_access, flat_page, try_access. simpl. fold key. rewrite Haddr, Hf, Hd, Hfr. cbn [of_opt rbind].
  destruct w as [b|].
  - rewrite Hwr, Hwe. destruct wr; [|exists s, sl; split; [done|by right]].
    eexists _, sl. split; [|by left]. unfold pd_set_accessed, pd_set_dirty. simpl. fold key.
    rewrite (alter_some _ (dirs s) key p), alter_insert_eq by done. eapply flat_update; [done| |simpl; congruence|done|done].
    eapply (touch_ok s _ sl key p e page (mkMapping (m_kpage p) (m_writable p) true true)); try done; [by rewrite length_insert|].
    right. split_and!; [congruence|done|]. intros Hm. apply drop_insert_lt.
    unfold access_safe in Hsafe. simpl in Hsafe. fold key in Hsafe. rewrite He in Hsafe. apply andb_prop in Hsafe as [_ Hsafe].
    rewrite bool_decide_false in Hsafe by done. apply bool_decide_eq_true in Hsafe. unfold page_offset.
    rewrite pg_ofs_mod in *. pose proof (Z.mod_pos_bound addr 4096). lia.
  - eexists _, sl. split; [|by left]. unfold pd_set_accessed. simpl. fold key. rewrite (alter_some _ (dirs s) key p) by done.
    eapply flat_update; [done| |simpl; congruence|done|done].
    pose proof (touch_ok s _ sl key p e page (mkMapping (m_kpage p) (m_writable p) (m_dirty p) true) page Hp Hd He Ha eq_refl eq_refl Hlen
      (or_introl (conj eq_refl eq_refl))) as Ht. rewrite (insert_id (frames s)) in Ht by done. by destruct s.
Qed.

(** The access that follows a fault, or needs none. *)
Lemma mapped_user_access fuel s fm sl addr esp w : let o := mkAccess (curr s) addr esp w in
  flat_ok s fm sl -> is_user_vaddr addr = true -> is_Some (dirs s !! (curr s, pg_round_down addr)) -> access_safe o s = true ->
  exists s2 sl', user_access inode_of true true true fuel addr esp w s = Ret (s2, (flat_access fm o).2) /\
    flat_ok s2 (flat_access fm o).1 sl'.
Proof.
  intros o Hok Haddr [p Hd] Hsafe. destruct (mapped_access s fm sl addr esp w p Hok Haddr Hd Hsafe) as (s2 & sl' & Hok2 & [Ht|[Ht Hk]]);
    exists s2, sl'; (split; [|done]).
  - destruct fuel; simpl; rewrite Ht; done.
  - subst o. rewrite Hk. destruct fuel; simpl; rewrite Ht; done.
Qed.

Lemma flat_moved s s2 fm sl sl' : flat_ok s fm sl -> paged inode_of s2 (snd <$> fm) sl' -> same_tables s s2 -> frame_lock s2 = false ->
  flat_ok s2 fm sl'.
Proof.
  intros [Hp Hw _] Hp2 Ht Hl. split; [done| |done]. intros key e2 wr page He2 Hf.
  destruct (pg_dom _ _ _ _ Hp key) as [[e He] _]; [rewrite lookup_fmap, Hf; eauto|].
  destruct (Ht key e He) as (e2' & He2' & Hs). simplify_eq. destruct Hs as (_ & _ & _ & _ & -> & _). by eapply Hw.
Qed.

Lemma safe_moved o s s2 : access_safe o s = true -> same_tables s s2 -> is_Some (dirs s2 !! (a_thread o, pg_round_down (a_addr o))) ->
  is_Some (tables s !! (a_thread o, pg_round_down (a_addr o))) -> access_safe o s2 = true.
Proof.
  unfold access_safe. intros Hs Ht Hd [e He]. rewrite (bool_decide_true _ Hd). simpl. apply andb_prop in Hs as [_ Hs]. rewrite He in Hs.
  destruct (Ht _ _ He) as (e2 & -> & (_ & _ & Hr & _ & _ & _ & Hm)). by rewrite Hr, Hm.
Qed.

Lemma flat_grown fm o : fm !! (a_thread o, pg_round_down (a_addr o)) = None -> stack_access (a_addr o) (a_esp o) = true ->
  flat_access (<[(a_thread o, pg_round_down (a_addr o)) := (true, zero_page)]> fm) o =
  if is_user_vaddr (a_addr o) then flat_access fm o else (<[(a_thread o, pg_round_down (a_addr o)) := (true, zero_page)]> fm, Killed).
Proof.
  intros Hf Hs. unfold flat_access, flat_page. rewrite lookup_insert_eq, Hf, Hs. destruct (is_user_vaddr _); [|done].
  destruct (a_write o); by rewrite insert_insert_eq.
Qed.

Lemma fault_codes (w : option Z) : let wbit := match w with Some _ => 2 | None => 0 end in
  Z.land (4 + wbit) PF_P = 0 /\ Z.land (4 + wbit) PF_U <> 0 /\ Z.land (5 + wbit) PF_P <> 0.
Proof. by destruct w. Qed.

Lemma do_access_ok o s fm sl : flat_ok s fm sl -> access_safe o s = true ->
  exists s2 sl', do_access inode_of true true true o s = Ret (s2, (flat_access fm o).2) /\ flat_ok s2 (flat_access fm o).1 sl'.
Proof.
  intros Hok Hsafe. destruct o as [t addr esp w]. unfold do_access. simpl. set (s1 := set_curr t s).
  assert (flat_ok s1 fm sl) as Hok1. { destruct Hok as [Hp Hw Hl]. split; [by eapply paged_same|done|done]. }
  assert (access_safe (mkAccess t addr esp w) s1 = true) as Hsafe1 by exact Hsafe.
  destruct (fault_codes w) as (Hc1 & Hc2 & Hc3).
  destruct (is_user_vaddr addr) eqn:Haddr.
  2: { exists s1, sl. unfold flat_access. simpl. rewrite Haddr. split; [|done]. unfold try_access. rewrite Haddr. cbn [rbind].
    unfold page_fault. rewrite bool_decide_false by done. done. }
  destruct (dirs s1 !! (t, pg_round_down addr)) as [p|] eqn:Hd.
  { apply (mapped_user_access 1 s1 fm sl addr esp w); eauto. }
  assert (evictable s1 = true) as Hev.
  { unfold access_safe in Hsafe1. simpl in Hsafe1. simpl in Hd. rewrite Hd in Hsafe1. apply andb_prop in Hsafe1 as [Hx _].
    by rewrite bool_decide_false in Hx by (by intros [? ?]). }
  assert (try_access addr w s1 = Ret (s1, inr (4 + match w with Some _ => 2 | None => 0 end))) as Htry.
  { unfold try_access. rewrite Haddr. change (curr s1) with t. by rewrite Hd. }
  set (code := 4 + match w with Some _ => 2 | None => 0 end) in *.
  cbn [user_access]. rewrite Htry. cbn [rbind]. pose proof (fo_paged _ _ _ Hok1) as Hp1. pose proof (fo_frame_lock _ _ _ Hok1) as Hl1.
  destruct (tables s1 !! (t, pg_round_down addr)) as [e|] eqn:He.
  - destruct (pg_dom _ _ _ _ Hp1 (t, pg_round_down addr)) as [_ [page Ha]]; [eauto|].
    destruct (page_fault_ok inode_of s1 _ sl addr code esp 0 e page Hp1 Hev Hl1 Hc1 Haddr Hd He Ha)
      as (s2 & sl' & -> & Hp2 & [P1 P2 P3 P4 P5]). cbn [rbind].
    pose proof (mapped_user_access 0 s2 fm sl' addr esp w) as Hm. rewrite P2 in Hm. apply Hm; try done.
    + by eapply flat_moved.
    + eapply safe_moved; eauto.
  - pose proof (page_fault_new inode_of s1 _ sl addr code esp 0 Hp1 Hev Hl1 Hc1 Hc2 Haddr He) as Hnew.
    change (curr s1) with t in Hnew.
    assert (fm !! (t, pg_round_down addr) = None) as Hf.
    { destruct (fm !! (t, pg_round_down addr)) eqn:Hf; [|done]. destruct (pg_dom _ _ _ _ Hp1 (t, pg_round_down addr)) as [[? Hx] _].
      - rewrite lookup_fmap, Hf. eauto.
      - by rewrite He in Hx. }
    destruct (stack_access addr esp) eqn:Hst.
    + destruct Hnew as (s2 & sl' & -> & Hp2 & [P1 P2 P3 P4 P5] & Ht2). cbn [rbind].
      pose proof (flat_grown fm (mkAccess t addr esp w) Hf Hst) as Hgr. simpl in Hgr. rewrite Haddr in Hgr. rewrite <- Hgr.
      pose proof (mapped_user_access 0 s2 (<[(t, pg_round_down addr) := (true, zero_page)]> fm) sl' addr esp w) as Hm.
      rewrite P2 in Hm. apply Hm; try done.
      * split; [by rewrite fmap_insert| |done]. intros q e2 wr pg He2 Hq. destruct (decide (q = (t, pg_round_down addr))) as [->|Hne].
        -- rewrite lookup_insert_eq in Hq. rewrite Ht2 in He2. by simplify_eq.
        -- rewrite lookup_insert_ne in Hq by done.
           destruct (pg_dom _ _ _ _ Hp1 q) as [[e0 He0] _]; [rewrite lookup_fmap, Hq; eauto|].
           destruct (P1 _ _ He0) as (e2' & He2' & (_ & _ & _ & _ & Hwr & _)). simplify_eq. rewrite Hwr. by eapply (fo_writable _ _ _ Hok1).
      * unfold access_safe. simpl. rewrite Ht2. rewrite bool_decide_true by done. by destruct w.
    + rewrite Hnew. cbn [rbind]. exists s1, sl. unfold flat_access, flat_page. simpl. by rewrite Haddr, Hf, Hst.
Qed.

(** C1. Demand paging is invisible to the programs: starting from any state that stands for
    flat memories, every series of reads and writes by any number of processes, at any
    addresses, returns what it would on flat memories that are never paged, each process
    having its own (bytes last written come back, whether the page stayed in its frame,
    went to the swap disk or was dropped and read again from its file; pages of the stack
    appear filled with zeros; an access outside the pages of the process or a write to a
    read-only page ends the process), and the state still stands for them.  This holds for
    the series that are safe, which [accesses_safe] decides as they run: whenever a page is
    needed and no frame is free, the oldest frame can be evicted (it is not a page of the
    stack that was never written, which panics the kernel as [clean_stack_page_panics]
    shows; the swap disk has a free slot if the page must go there; a written page of a
    mapped file belongs to the process that faults, and the file lock is free), and mapped
    files are written only at the bytes of the page that belong to the file (what is written
    behind them is lost when the page is dropped).  [malloc], page tables and entries of the
    supplemental table are always found (the three arguments [true]). *)
Theorem paging_transparent s fm sl os : flat_ok s fm sl -> accesses_safe inode_of true true true os s = true ->
  exists s' sl', do_accesses inode_of true true true os s = Ret (s', (flat_accesses fm os).2) /\ flat_ok s' (flat_accesses fm os).1 sl'.
Proof.
  revert s fm sl. induction os as [|o os IH]; intros s fm sl Hok Hsafe; simpl; [eauto|].
  simpl in Hsafe. apply andb_prop in Hsafe as [Hsafe Hrest].
  destruct (do_access_ok o s fm sl Hok Hsafe) as (s2 & sl' & Heq & Hok2). rewrite Heq in *. cbn [rbind].
  destruct (flat_access fm o) as [fm2 r]. simpl in *. destruct (IH s2 fm2 sl' Hok2 Hrest) as (s3 & sl3 & Heq3 & Hok3).
  rewrite Heq3. cbn [rbind]. destruct (flat_accesses fm2 os) as [fm3 rs]. simpl in *. eauto.
Qed.
End Refine.

(** Two processes that run the same file, and one frame for both. *)
Definition code_page : Z := 134512640.
Definition swap0 : swap := mkSwap (Bitmap 2 [0]) two_slots.
Definition entry1 : sup_pte := mkPte 7 code_page 4096 0 true 0 false false None MAP_FAILED.
Definition entry2 : sup_pte := mkPte 7 code_page 100 3996 false 4096 false false None MAP_FAILED.
Definition two_processes : vm :=
  mkVm [] [4096] {[4096 := freed_page]} (<[(1, code_page) := entry1]> {[(2, code_page) := entry2]}) ∅ swap0
    {[7 := replicate 4196 65]} 1 false false.
Definition two_flat : flat :=
  <[(1, code_page) := (true, replicate 4096 65)]> {[(2, code_page) := (false, replicate 100 65 ++ replicate 3996 0)]}.

Lemma swap0_ok : holds_slots swap0 ∅.
Proof.
  destruct (swap_init_ok two_slots 16 [0]) as (s & Hi & Hs & _); [lia|exact two_slots_ok|done|constructor; [unfold is_u32; lia|done]|].
  assert (swap_init (Some two_slots) 16 true (Some [0]) = Ret swap0) as Hi' by reflexivity. rewrite Hi' in Hi. by simplify_eq.
Qed.

Lemma two_tables key e : tables two_processes !! key = Some e ->
  key = (1, code_page) /\ e = entry1 \/ key = (2, code_page) /\ e = entry2.
Proof. simpl. intros [[<- <-]|[_ [<- <-]%lookup_singleton_Some]]%lookup_insert_Some; auto. Qed.

(** A page that has not been loaded. *)
Lemma lazy_entry_ok inode_of s sl key e : upage e = key.2 -> dirs s !! key = None -> loaded e = false -> swapped e = false ->
  file_backed inode_of s e -> entry_ok inode_of s sl key e (file_page inode_of s e).
Proof.
  intros Hu Hd Hl Hs Hb. split; [done| |by left| |].
  - destruct Hb as [Hsz Ho Hlen _]. unfold file_page, flength in *. rewrite length_app, length_take, length_drop, length_replicate. lia.
  - intros _. split; [done|]. destruct Hb as [Hsz Ho Hlen _]. unfold file_page, flength in *. rewrite drop_app_length'; [done|].
    rewrite length_take, length_drop. lia.
  - unfold page_at. rewrite Hd. by right.
Qed.

Lemma two_processes_entries key e page : tables two_processes !! key = Some e -> (snd <$> two_flat) !! key = Some page ->
  entry_ok id two_processes ∅ key e page.
Proof.
  intros [[-> ->]|[-> ->]]%two_tables Ha.
  - assert (page = file_page id two_processes entry1) as -> by (vm_compute in Ha; injection Ha as <-; by vm_compute).
    apply lazy_entry_ok; try done; split; (done || by vm_compute).
  - assert (page = file_page id two_processes entry2) as -> by (vm_compute in Ha; injection Ha as <-; by vm_compute).
    apply lazy_entry_ok; try done; split; (done || by vm_compute).
Qed.

Lemma two_processes_ok : flat_ok id two_processes two_flat ∅.
Proof.
  split; [|intros key e wr page [[-> ->]|[-> ->]]%two_tables Hf; vm_compute in Hf; by injection Hf as <- _|done].
  split; try done.
  - exact swap0_ok.
  - intros key. unfold two_flat, two_processes. simpl. rewrite lookup_fmap.
    destruct (decide (key = (1, code_page))) as [->|H1]; [rewrite !lookup_insert_eq; split; eauto|].
    rewrite !lookup_insert_ne by done.
    destruct (decide (key = (2, code_page))) as [->|H2]; [rewrite !lookup_singleton_eq; split; eauto|].
    rewrite !lookup_singleton_ne by done. split; intros [? ?]; done.
  - exact two_processes_entries.
  - intros f Hf. by apply elem_of_nil in Hf.
  - simpl. apply NoDup_singleton.
  - simpl. intros k ->%list_elem_of_singleton. rewrite lookup_singleton_eq. eauto.
  - simpl. intros k page [_ <-]%lookup_singleton_Some. done.
  - intros key1 key2 e1 e2 [[-> ->]|[-> ->]]%two_tables _ Hs; done.
  - intros key1 key2 e1 e2 _ [[-> ->]|[-> ->]]%two_tables _ Hm; by destruct Hm.
Qed.

(** The frame changes hands at each access: the page of the first process goes to the swap
    disk and comes back, that of the second is read from the file twice. *)
Definition turns : list access :=
  [mkAccess 1 (code_page + 5) 3221225472 (Some 66); mkAccess 2 (code_page + 99) 3221225472 None;
   mkAccess 1 (code_page + 5) 3221225472 None; mkAccess 2 (code_page + 100) 3221225472 None;
   mkAccess 1 3221225400 3221225400 (Some 9); mkAccess 2 code_page 3221225472 (Some 1); mkAccess 2 16 3221225472 None].

Lemma paging_transparent_witness : exists s',
  do_accesses id true true true turns two_processes = Ret (s', [Written; Byte 65; Byte 66; Byte 0; Written; Killed; Killed]).
Proof.
  destruct (paging_transparent id two_processes two_flat ∅ turns two_processes_ok) as (s' & sl' & H & _); [by vm_compute|].
  exists s'. rewrite H. by vm_compute.
Defined.

(** ** Pages that cannot be evicted *)

(** The first access to a page of the stack decides its fate: when a page of the stack
    that was only read is evicted (its frame, the oldest, is needed and the page is clean),
    nothing of it is saved and its entry is marked for loading from a file, which it does
    not have; the next access of its process to the page fails the assertion on the sizes
    of the entry, and the kernel panics. *)
Theorem clean_stack_page_panics inode_of malloc_ok pt_ok spt_ok zero s f rest e addr code esp xesp :
  free_pages s = [] -> frame_table s = f :: rest -> tables s !! (origin_thread f, f_upage f) = Some e ->
  is_stack e -> swapped e = false -> pd_is_dirty (origin_thread f) (f_upage f) s = false ->
  frame_lock s = false -> is_user_vaddr addr = true -> pg_round_down addr = f_upage f -> Z.land code PF_P = 0 ->
  exists s', frame_evict inode_of zero s = Ret (s', Some (f_kpage f)) /\
    page_fault inode_of malloc_ok pt_ok spt_ok addr code esp xesp (set_curr (origin_thread f) s') = Panic.
Proof.
  intros Hfree Hft He (Hr & Hz & Hm) Hs Hd Hl Haddr Hu Hc. unfold frame_evict. rewrite Hft, He. cbn [of_opt rbind]. rewrite Hd.
  unfold evict_save. rewrite bool_decide_true by done. cbn [rbind]. unfold free_user_page. simpl. rewrite Hfree. simpl.
  unfold get_user_page. simpl. eexists. split; [done|]. unfold page_fault. rewrite bool_decide_true, Haddr by done. simpl.
  unfold frame_table_lock_acquire. simpl. rewrite Hl. cbn [negb assert_ rbind]. simpl. rewrite Hu, lookup_insert_eq. simpl.
  rewrite Hs. simpl. unfold fault_lazy. simpl. by rewrite Hr, Hz.
Qed.

(** The first process has read a new page of its stack. *)
Definition stack_read : vm :=
  match do_access id true true true (mkAccess 1 3221225400 3221225400 None) two_processes with Ret (s, _) => s | _ => two_processes end.

Lemma clean_stack_page_panics_witness :
  (exists s', frame_evict id false stack_read = Ret (s', Some 4096) /\
     page_fault id true true true 3221225400 4 3221225400 0 (set_curr 1 s') = Panic) /\
  do_accesses id true true true [mkAccess 1 3221225400 3221225400 None; mkAccess 2 code_page 3221225472 None;
    mkAccess 1 3221225400 3221225400 None] two_processes = Panic.
Proof.
  split; [|by vm_compute].
  apply (clean_stack_page_panics id true true true false stack_read (mkFte 1 3221221376 4096) [] (stack_entry 3221221376)); by vm_compute.
Defined.

(** The page that [frame_evict] writes to the file of a mapped page is read at the user
    address in the page directory of the running process, not from the frame: with one
    process running and a page of another evicted, the file gets the bytes of the wrong
    process. *)
Definition mapped_entry (u : Z) : sup_pte := mkPte 7 u 4096 0 true 0 false true None 3.
Definition wrong_process : vm :=
  mkVm [mkFte 2 code_page 4096; mkFte 1 code_page 8192] [] (<[4096 := replicate 4096 66]> {[8192 := replicate 4096 67]})
    (<[(1, code_page) := set_loaded true entry1]> {[(2, code_page) := mapped_entry code_page]})
    (<[(1, code_page) := mkMapping 8192 true true true]> {[(2, code_page) := mkMapping 4096 true true true]})
    swap0 {[7 := replicate 4096 65]} 1 true false.

Example evict_writes_wrong_process :
  exists s', frame_evict id false wrong_process = Ret (s', Some 4096) /\ files s' !! 7 = Some (replicate 4096 67).
Proof. eexists. split; by vm_compute. Qed.
