(* ===== verification/VmExit.v ===== *)
(** * The pages of a process that exits

    [page_table_remove] gives back every frame and every slot of the swap disk of the
    process and leaves those of the others alone. *)

From S2P Require Import Prelude Bitmap Vaddr Cache Loader Swap Vm VmProof VmRun.

Section Exit.
Context (inode_of : Z -> Z).
Abbreviation pages := (gmap (Z * Z) (list Z)).

(** ** One frame is given back *)

Definition pool_insert (k : Z) (l : list Z) : list Z := filter (fun q => q < k) l ++ k :: filter (fun q => k < q) l.

Lemma pool_insert_perm k l : k ∉ l -> pool_insert k l ≡ₚ k :: l.
Proof.
  intros Hk. unfold pool_insert. rewrite <- Permutation_middle. constructor.
  induction l as [|q l IH]; [done|]. apply not_elem_of_cons in Hk as [Hne Hk]. rewrite !filter_cons.
  destruct (decide (q < k)), (decide (k < q)); try lia.
  - simpl. by rewrite IH.
  - rewrite <- Permutation_middle. by rewrite IH.
Qed.

(** The state after the frame [f] of a page has been freed and its entry deleted. *)
Definition released (s : vm) (i : nat) (f : fte) (fs : gmap Z (list Z)) : vm :=
  mkVm (delete i (frame_table s)) (pool_insert (f_kpage f) (free_pages s)) (<[f_kpage f := freed_page]> (frames s))
    (delete (origin_thread f, f_upage f) (tables s)) (delete (origin_thread f, f_upage f) (dirs s)) (sw s) fs
    (curr s) (frame_lock s) (file_lock s).

Lemma released_perm s am sl i f : paged inode_of s am sl -> frame_table s !! i = Some f ->
  (f_kpage <$> delete i (frame_table s)) ++ pool_insert (f_kpage f) (free_pages s) ≡ₚ (f_kpage <$> frame_table s) ++ free_pages s.
Proof.
  intros Hp Hi. rewrite (delete_Permutation (frame_table s) i f Hi) at 2. simpl.
  pose proof (pg_nodup _ _ _ _ Hp) as Hnd. rewrite (delete_Permutation (frame_table s) i f Hi) in Hnd. simpl in Hnd.
  apply NoDup_cons in Hnd as [Hnot _]. rewrite elem_of_app in Hnot. rewrite pool_insert_perm by naive_solver.
  by rewrite <- Permutation_middle.
Qed.

Lemma released_ok s am sl i f e page fs : let key := (origin_thread f, f_upage f) in let s2 := released s i f fs in
  paged inode_of s am sl -> frame_table s !! i = Some f -> tables s !! key = Some e -> am !! key = Some page ->
  (forall key2 e2, key2 <> key -> tables s !! key2 = Some e2 ->
     (file_backed inode_of s e2 -> file_backed inode_of s2 e2 /\ file_page inode_of s2 e2 = file_page inode_of s e2) /\
     (file_backed inode_of s2 e2 -> file_backed inode_of s e2)) ->
  paged inode_of s2 (delete key am) sl.
Proof.
  intros key s2 Hp Hi He Ha Hfs. pose proof (released_perm s am sl i f Hp Hi) as Hperm.
  assert (exists p, dirs s !! key = Some p /\ m_kpage p = f_kpage f) as (p & Hpd & Hpk).
  { apply (pg_frames _ _ _ _ Hp). by eapply list_elem_of_lookup_2. }
  split; simpl; try apply Hp.
  - intros q. destruct (decide (q = key)) as [->|Hq]; [rewrite !lookup_delete_eq; done|]. rewrite !lookup_delete_ne by done. apply Hp.
  - intros q e2 pg He2 Ha2. apply lookup_delete_Some in He2 as [Hq He2]. rewrite lookup_delete_ne in Ha2 by done.
    destruct (Hfs q e2 (not_eq_sym Hq) He2) as [Hb1 Hb2].
    eapply entry_ok_stable; [by eapply pg_entries| | |done|done|done]; simpl.
    + by rewrite lookup_delete_ne.
    + intros p2 Hp2. rewrite lookup_insert_ne; [done|]. intros Heq. apply Hq. eapply frame_inj; [done..|]. congruence.
  - intros q p2 Hq. apply lookup_delete_Some in Hq as [Hne Hq]. destruct (pg_dirs _ _ _ _ Hp _ _ Hq) as [Ht Hin]. split.
    + by rewrite lookup_delete_ne.
    + apply list_elem_of_lookup in Hin as [j Hj]. apply list_elem_of_lookup.
      assert (i <> j) as Hij. { intros <-. rewrite Hi in Hj. simplify_eq. apply Hne. by destruct q. }
      destruct (decide (j < i)%nat); [exists j; by rewrite list_lookup_delete_lt|].
      exists (pred j). rewrite list_lookup_delete_ge by lia. by replace (S (pred j)) with j by lia.
  - intros f2 Hin. apply list_elem_of_lookup in Hin as [j Hj]. rewrite list_lookup_delete in Hj.
    set (j' := if decide (j < i)%nat then j else S j) in *. assert (frame_table s !! j' = Some f2 /\ j' <> i) as [Hj' Hne].
    { unfold j'. case_decide; (split; [done|lia]). }
    destruct (pg_frames _ _ _ _ Hp f2) as (p2 & Hp2 & Hk2); [by eapply list_elem_of_lookup_2|].
    exists p2. split; [|done]. rewrite lookup_delete_ne; [done|]. intros Heq. apply Hne.
    pose proof (pg_nodup _ _ _ _ Hp) as Hnd. apply NoDup_app in Hnd as (Hnd & _ & _).
    eapply (NoDup_lookup _ _ _ (f_kpage f) Hnd); rewrite list_lookup_fmap; [|by rewrite Hi].
    rewrite Hj'. simpl. f_equal. unfold key in *. rewrite <- Heq, Hpd in Hp2. congruence.
  - rewrite Hperm. apply Hp.
  - intros q Hq. rewrite Hperm in Hq. apply lookup_insert_is_Some'. right. by apply (pg_pool _ _ _ _ Hp).
  - intros q pg Hq. destruct (decide (q = f_kpage f)) as [->|].
    + rewrite lookup_insert_eq in Hq. by simplify_eq.
    + rewrite lookup_insert_ne in Hq by done. by eapply pg_lengths.
  - intros k1 k2 e1 e2 [_ H1]%lookup_delete_Some [_ H2]%lookup_delete_Some. by apply (pg_slots _ _ _ _ Hp).
  - intros k1 k2 e1 e2 Hne [_ H1]%lookup_delete_Some [_ H2]%lookup_delete_Some. by eapply (pg_apart _ _ _ _ Hp k1 k2).
Qed.

(** ** A page that is in no frame *)

Lemma dropped_ok s am sl key w sl' : paged inode_of s am sl -> dirs s !! key = None -> holds_slots w sl' ->
  (forall key2 e2 i, key2 <> key -> tables s !! key2 = Some e2 -> swapped e2 = true -> swap_index e2 = Some i -> sl' !! i = sl !! i) ->
  paged inode_of (set_sw w (set_tables (delete key (tables s)) s)) (delete key am) sl'.
Proof.
  intros Hp Hd Hw Hsl. split; simpl; try apply Hp.
  - done.
  - intros q. destruct (decide (q = key)) as [->|Hq]; [rewrite !lookup_delete_eq; done|]. rewrite !lookup_delete_ne by done. apply Hp.
  - intros q e2 pg He2 Ha2. apply lookup_delete_Some in He2 as [Hq He2]. rewrite lookup_delete_ne in Ha2 by done.
    destruct (same_files inode_of s (set_sw w (set_tables (delete key (tables s)) s)) e2 eq_refl) as [Hb Hpg].
    eapply entry_ok_stable; [by eapply pg_entries|done|done|by eauto|by rewrite <- Hb|by rewrite Hb].
  - intros q p Hq. destruct (pg_dirs _ _ _ _ Hp _ _ Hq) as [Ht Hin]. split; [|done]. rewrite lookup_delete_ne; [done|congruence].
  - intros k1 k2 e1 e2 [_ H1]%lookup_delete_Some [_ H2]%lookup_delete_Some. by apply (pg_slots _ _ _ _ Hp).
  - intros k1 k2 e1 e2 Hne [_ H1]%lookup_delete_Some [_ H2]%lookup_delete_Some. by eapply (pg_apart _ _ _ _ Hp k1 k2).
Qed.

Lemma find_frame s am sl key p : paged inode_of s am sl -> dirs s !! key = Some p ->
  exists i, list_find (fun f => f_kpage f = m_kpage p) (frame_table s) = Some (i, mkFte key.1 key.2 (m_kpage p)) /\
    frame_table s !! i = Some (mkFte key.1 key.2 (m_kpage p)).
Proof.
  intros Hp Hd. destruct (pg_dirs _ _ _ _ Hp _ _ Hd) as [_ Hin].
  destruct (list_find_elem_of (fun f => f_kpage f = m_kpage p) (frame_table s) _ Hin eq_refl) as [[i f] Hf].
  pose proof Hf as (Hi & Hk & _)%list_find_Some. exists i. apply list_elem_of_lookup in Hin as [j Hj].
  assert (i = j) as <-.
  { pose proof (pg_nodup _ _ _ _ Hp) as Hnd. apply NoDup_app in Hnd as (Hnd & _ & _).
    eapply (NoDup_lookup _ _ _ (m_kpage p) Hnd); rewrite list_lookup_fmap; [by rewrite Hi; simpl; f_equal|by rewrite Hj]. }
  rewrite Hi in Hj. by simplify_eq.
Qed.

(** ** page_table_free *)

(** What the release of an entry does to the rest. *)
Record freed (s s2 : vm) (sl sl2 : slots) (e : sup_pte) (page : list Z) : Prop := {
  fr_curr : curr s2 = curr s;
  fr_locks : frame_lock s2 = frame_lock s /\ file_lock s2 = file_lock s;
  fr_tables : tables s2 = delete (curr s, upage e) (tables s);
  fr_files : forall e0, file_backed inode_of s e0 -> apart inode_of e e0 ->
    file_backed inode_of s2 e0 /\ file_page inode_of s2 e0 = file_page inode_of s e0;
  fr_mapped : mmap_id e <> MAP_FAILED -> file_backed inode_of s2 e /\ file_page inode_of s2 e = page;
  fr_slot : forall i, swapped e = true -> swap_index e = Some i -> sl2 !! i = None;
  fr_slots : forall i, sl !! i = None -> sl2 !! i = None;
  fr_pool : (length (frame_table s2) + length (free_pages s2) = length (frame_table s) + length (free_pages s))%nat
}.

Section Entry.
Context (s : vm) (am : pages) (sl : slots) (u : Z) (e : sup_pte) (page : list Z).
Context (Hp : paged inode_of s am sl) (He : tables s !! (curr s, u) = Some e) (Ha : am !! (curr s, u) = Some page).

#[local] Set Default Proof Using "All".

Lemma entry_at : entry_ok inode_of s sl (curr s, u) e page.
Proof. by eapply pg_entries. Qed.

Lemma mapped_backed : mmap_id e <> MAP_FAILED -> file_backed inode_of s e.
Proof. intros Hm. destruct entry_at as [_ _ [Hb|(_ & _ & Hx)] _ _]; [done|by destruct Hm]. Qed.

(** A page in no frame: its slot is given back. *)
Lemma free_absent_ok : dirs s !! (curr s, u) = None ->
  exists s2 sl2, page_table_free inode_of e (set_tables (delete (curr s, upage e) (tables s)) s) = Ret s2 /\
    paged inode_of s2 (delete (curr s, u) am) sl2 /\ freed s s2 sl sl2 e page.
Proof.
  intros Hd. pose proof entry_at as [Hu Hlen Hkind Hmm Hat]. simpl in Hu. unfold page_at in Hat. rewrite Hd in Hat. rewrite Hu.
  set (s1 := set_tables (delete (curr s, u) (tables s)) s).
  assert (forall w e0, file_backed inode_of s e0 -> file_backed inode_of (set_sw w s1) e0 /\
    file_page inode_of (set_sw w s1) e0 = file_page inode_of s e0) as Hfs.
  { intros w e0 Hb. destruct (same_files inode_of s (set_sw w s1) e0 eq_refl) as [Hb0 Hp0]. split; [by apply Hb0|done]. }
  unfold page_table_free, pd_get_page. rewrite Hu. simpl. rewrite Hd. cbn [fmap option_fmap option_map rbind].
  destruct Hat as [(Hl & Hs & _ & i & Hi & Hsl)|(Hl & Hs & Hb & Hpg)]; rewrite Hs.
  - rewrite Hi. cbn [of_opt rbind]. simpl. destruct (swap_set_ok (sw s) sl i (pg_swap _ _ _ _ Hp)) as (w & -> & Hw & _); [eauto|].
    cbn [rbind]. eexists _, (delete i sl). split; [done|]. split.
    + apply (dropped_ok s am sl); try done. intros key2 e2 j Hne He2 Hs2 Hj. apply lookup_delete_ne. intros <-. apply Hne.
      eapply (pg_slots _ _ _ _ Hp); [done..|]. by rewrite Hj, Hi.
    + split; simpl; try done.
      * by rewrite Hu.
      * intros e0 Hb _. by apply Hfs.
      * intros Hm. destruct (Hmm Hm). congruence.
      * intros j _ Hj. rewrite Hi in Hj. simplify_eq. apply lookup_delete_eq.
      * intros j Hj. destruct (decide (i = j)) as [->|]; [apply lookup_delete_eq|by rewrite lookup_delete_ne].
  - exists s1, sl. split; [done|]. assert (set_sw (sw s) s1 = s1) as Heq by done. split.
    + rewrite <- Heq. apply (dropped_ok s am sl); try done. apply Hp.
    + rewrite <- Heq. split; simpl; try done.
      * by rewrite Hu.
      * intros e0 Hb0 _. by apply Hfs.
      * intros Hm. destruct (Hfs (sw s) e Hb) as [Hb1 ->]. done.
      * congruence.
Qed.

(** A page in a frame: what was written to a mapped page goes to its file. *)
Lemma free_present_ok p : dirs s !! (curr s, u) = Some p ->
  exists s2, page_table_free inode_of e (set_tables (delete (curr s, upage e) (tables s)) s) = Ret s2 /\
    paged inode_of s2 (delete (curr s, u) am) sl /\ freed s s2 sl sl e page.
Proof.
  intros Hd. pose proof entry_at as [Hu Hlen Hkind Hmm Hat]. simpl in Hu. unfold page_at in Hat. rewrite Hd in Hat. rewrite Hu.
  destruct Hat as (Hl & Hs & Hfr & _ & _ & Hclean). destruct (find_frame s am sl _ p Hp Hd) as (i & Hfind & Hi). simpl in Hfind, Hi.
  set (f := mkFte (curr s) u (m_kpage p)) in *.
  set (fs := if bool_decide (mmap_id e <> MAP_FAILED) && m_dirty p
    then files (vm_file_write inode_of (file e) (take (Z.to_nat (read_bytes e)) page) (file_ofs e) s) else files s).
  assert (page_table_free inode_of e (set_tables (delete (curr s, u) (tables s)) s) = Ret (released s i f fs)) as ->.
  { unfold page_table_free, pd_get_page, pd_is_dirty, user_page_bytes. rewrite Hu. simpl. rewrite Hd. simpl. rewrite Hfr, Hl, Hs.
    unfold fs. case_bool_decide as Hm; simpl; [destruct (m_dirty p)|]; simpl; unfold frame_free; simpl; by rewrite Hfind. }
  assert (forall e0, (file_backed inode_of s e0 -> apart inode_of e e0 ->
      file_backed inode_of (released s i f fs) e0 /\ file_page inode_of (released s i f fs) e0 = file_page inode_of s e0) /\
    (file_backed inode_of (released s i f fs) e0 -> apart inode_of e e0 -> file_backed inode_of s e0)) as Hfs.
  { intros e0. unfold fs. case_bool_decide as Hm; [destruct (m_dirty p)|]; cbn [andb].
    - set (s1 := vm_file_write inode_of (file e) (take (Z.to_nat (read_bytes e)) page) (file_ofs e) s). destruct (same_files inode_of s1 (released s i f (files s1)) e0 eq_refl) as [Hb0 Hp0].
      rewrite <- Hb0, Hp0. split; intros Hb Hap; eapply (write_back_other inode_of s e e0 page); eauto using mapped_backed.
    - destruct (same_files inode_of s (released s i f (files s)) e0 eq_refl) as [Hb0 Hp0]. rewrite <- Hb0, Hp0. done.
    - destruct (same_files inode_of s (released s i f (files s)) e0 eq_refl) as [Hb0 Hp0]. rewrite <- Hb0, Hp0. done. }
  eexists. split; [done|]. split.
  - apply (released_ok s am sl i f e page fs Hp Hi He Ha). intros key2 e2 Hne He2.
    assert (apart inode_of e e2) as Hap by (by eapply (pg_apart _ _ _ _ Hp (curr s, u) key2)).
    destruct (Hfs e2) as [H1 H2]. auto.
  - split; simpl; try done.
    + by rewrite Hu.
    + apply Hfs.
    + intros Hm. destruct (Hmm Hm) as [_ Hz]. pose proof (mapped_backed Hm) as Hb. unfold fs. rewrite bool_decide_true by done.
      cbn [andb]. destruct (m_dirty p).
      * set (s1 := vm_file_write inode_of (file e) (take (Z.to_nat (read_bytes e)) page) (file_ofs e) s). destruct (same_files inode_of s1 (released s i f (files s1)) e eq_refl) as [Hb0 Hp0].
        rewrite <- Hb0, Hp0. by apply write_back_same.
      * destruct (same_files inode_of s (released s i f (files s)) e eq_refl) as [Hb0 Hp0]. rewrite <- Hb0, Hp0. split; [done|].
        symmetry. by apply Hclean.
    + congruence.
    + pose proof (Permutation_length (released_perm s am sl i f Hp Hi)) as Hperm. rewrite !length_app, !length_fmap in Hperm. done.
Qed.

Lemma page_table_free_ok : exists s2 sl2, page_table_free inode_of e (set_tables (delete (curr s, upage e) (tables s)) s) = Ret s2 /\
    paged inode_of s2 (delete (curr s, u) am) sl2 /\ freed s s2 sl sl2 e page.
Proof.
  destruct (dirs s !! (curr s, u)) as [p|] eqn:Hd; [|by apply free_absent_ok].
  destruct (free_present_ok p Hd) as (s2 & H). by exists s2, sl.
Qed.
End Entry.

(** ** page_table_remove *)

Definition without (t : Z) (es : list sup_pte) (am : pages) : pages := foldl (fun m e => delete (t, upage e) m) am es.

Lemma without_lookup t es am key : without t es am !! key =
  if decide (key.1 = t /\ key.2 ∈ upage <$> es) then None else am !! key.
Proof.
  revert am. induction es as [|e es IH]; intros am; simpl.
  - rewrite decide_False; [done|]. by intros [_ ?%elem_of_nil].
  - rewrite IH. clear IH. destruct key as [t' u]. simpl.
    destruct (decide (t' = t /\ u ∈ upage <$> es)) as [Hin|Hout]; case_decide as Hc; try done.
    + destruct Hc. split; [tauto|]. right. tauto.
    + apply lookup_delete_None. left. destruct Hc as [-> Hin]. apply elem_of_cons in Hin as [->|Hin]; [done|]. by destruct Hout.
    + apply lookup_delete_ne. intros [= <- <-]. apply Hc. split; [done|]. by left.
Qed.

Lemma page_table_remove_ok es : forall s am sl, paged inode_of s am sl -> NoDup (upage <$> es) ->
  (forall e, e ∈ es -> tables s !! (curr s, upage e) = Some e) ->
  exists s' sl', page_table_remove inode_of es s = Ret s' /\ paged inode_of s' (without (curr s) es am) sl' /\
    (forall e0, file_backed inode_of s e0 -> (forall e, e ∈ es -> apart inode_of e e0) ->
       file_page inode_of s' e0 = file_page inode_of s e0) /\
    (forall e page, e ∈ es -> mmap_id e <> MAP_FAILED -> am !! (curr s, upage e) = Some page -> file_page inode_of s' e = page) /\
    (forall e i, e ∈ es -> swapped e = true -> swap_index e = Some i -> sl' !! i = None) /\
    (forall i, sl !! i = None -> sl' !! i = None) /\
    (length (frame_table s') + length (free_pages s') = length (frame_table s) + length (free_pages s))%nat /\
    frame_lock s' = frame_lock s.
Proof.
  induction es as [|e es IH]; intros s am sl Hp Hnd Hes.
  - exists s, sl. simpl. split_and!; try done; intros e x He; by apply elem_of_nil in He.
  - simpl in Hnd. apply NoDup_cons in Hnd as [Hnot Hnd].
    assert (forall e2, e2 ∈ es -> upage e2 <> upage e) as Hdiff.
    { intros e2 He2 Heq. apply Hnot. rewrite <- Heq. by apply list_elem_of_fmap_2. }
    pose proof (Hes e ltac:(by left)) as He. destruct (pg_dom _ _ _ _ Hp (curr s, upage e)) as [_ [page Ha]]; [eauto|].
    destruct (page_table_free_ok s am sl (upage e) e page Hp He Ha) as (s2 & sl2 & Heq & Hp2 & [F1 [F8 _] F2 F3 F4 F5 F6 F7]).
    destruct (IH s2 (delete (curr s, upage e) am) sl2 Hp2 Hnd) as (s' & sl' & Heq' & Hp' & G1 & G2 & G3 & G4 & G5 & G6).
    { intros e2 He2. rewrite F1, F2, lookup_delete_ne; [apply Hes; by right|]. intros [= Hx]. by apply (Hdiff e2). }
    exists s', sl'. cbn [page_table_remove]. rewrite Heq. cbn [rbind]. rewrite F1 in *. split_and!; try done.
    + intros e0 Hb Hap. destruct (F3 e0 Hb (Hap e ltac:(by left))) as [Hb2 <-]. apply G1; [done|]. intros e2 He2. apply Hap. by right.
    + intros e2 pg He2 Hm Ha2. apply elem_of_cons in He2 as [->|He2].
      * destruct (F4 Hm) as [Hb2 Hpg]. rewrite Ha in Ha2. injection Ha2 as <-. rewrite <- Hpg. apply G1; [done|]. intros e3 He3.
        apply (pg_apart _ _ _ _ Hp (curr s, upage e3) (curr s, upage e)); [|by apply Hes; right|done].
        intros [= Hx]. by apply (Hdiff e3).
      * apply (G2 e2); [done|done|]. rewrite lookup_delete_ne; [done|]. intros [= Hx]. by apply (Hdiff e2).
    + intros e2 i He2 Hs Hi. apply elem_of_cons in He2 as [->|He2]; [|by eapply G3]. by apply G4, F5.
    + auto.
    + lia.
    + congruence.
Qed.

(** C23. A process that exits gives back all its memory: [page_table_remove], whatever the
    order in which the hash table holds the entries, succeeds, removes exactly the pages of
    the process and keeps those of the others with their contents, leaves the process no
    frame and frees its slots of the swap disk; the frames are free again and none is lost,
    and the file of each mapped page holds what the process wrote to the page. *)
Theorem exit_releases s am sl es : paged inode_of s am sl -> NoDup (upage <$> es) ->
  (forall e, e ∈ es <-> exists u, tables s !! (curr s, u) = Some e) ->
  exists s' sl', page_table_remove inode_of es s = Ret s' /\ paged inode_of s' (filter (fun x => x.1.1 <> curr s) am) sl' /\
    (forall f, f ∈ frame_table s' -> origin_thread f <> curr s) /\
    (forall e i, e ∈ es -> swapped e = true -> swap_index e = Some i -> sl' !! i = None) /\
    (forall e page, e ∈ es -> mmap_id e <> MAP_FAILED -> am !! (curr s, upage e) = Some page -> file_page inode_of s' e = page) /\
    (length (frame_table s') + length (free_pages s') = length (frame_table s) + length (free_pages s))%nat.
Proof.
  intros Hp Hnd Hes.
  assert (forall u e, tables s !! (curr s, u) = Some e -> upage e = u) as Hup.
  { intros u e He. destruct (pg_dom _ _ _ _ Hp (curr s, u)) as [_ [page Ha]]; [eauto|].
    by destruct (pg_entries _ _ _ _ Hp _ _ _ He Ha) as [Hu _ _ _ _]. }
  destruct (page_table_remove_ok es s am sl Hp Hnd) as (s' & sl' & Heq & Hp' & _ & G2 & G3 & _ & G5 & _).
  { intros e [u He]%Hes. by rewrite (Hup u e He). }
  assert (without (curr s) es am = filter (fun x => x.1.1 <> curr s) am) as Hw.
  { apply map_eq. intros [t u]. rewrite without_lookup. simpl. symmetry. case_decide as Hc.
    - destruct Hc as [-> _]. apply map_lookup_filter_None. right. intros pg _ Hx. by apply Hx.
    - destruct (am !! (t, u)) as [pg|] eqn:Ha.
      + apply map_lookup_filter_Some. split; [done|]. simpl. intros ->. apply Hc. split; [done|].
        destruct (pg_dom _ _ _ _ Hp (curr s, u)) as [[e He] _]; [eauto|]. apply list_elem_of_fmap. exists e.
        split; [symmetry; by apply Hup|]. apply Hes. eauto.
      + apply map_lookup_filter_None. by left. }
  rewrite Hw in Hp'. exists s', sl'. split_and!; try done. intros f Hf Ht.
  destruct (pg_frames _ _ _ _ Hp' f Hf) as (p & Hd & _). destruct (pg_dirs _ _ _ _ Hp' _ _ Hd) as [Htab _].
  apply (pg_dom _ _ _ _ Hp') in Htab as [pg Hpg]. by apply map_lookup_filter_Some in Hpg as [_ Hpg].
Qed.
End Exit.

(** The first of two processes has written to its page and exits. *)
Definition first_write : access := mkAccess 1 (code_page + 5) 3221225472 (Some 66).
Definition written : vm :=
  match do_access id true true true first_write two_processes with Ret (s, _) => s | _ => two_processes end.

Lemma written_ok : exists fm sl, flat_ok id written fm sl.
Proof.
  destruct (do_access_ok id first_write two_processes two_flat ∅ two_processes_ok) as (s2 & sl' & Heq & Hok); [by vm_compute|].
  unfold written. rewrite Heq. eauto.
Qed.

Lemma exit_releases_witness : exists s', page_table_remove id [set_loaded true entry1] written = Ret s' /\
  (forall f, f ∈ frame_table s' -> origin_thread f <> 1) /\ (length (frame_table s') + length (free_pages s') = 1)%nat.
Proof.
  destruct written_ok as (fm & sl & [Hp _ _]).
  destruct (exit_releases id written (snd <$> fm) sl [set_loaded true entry1] Hp) as (s' & sl' & Heq & _ & Hf & _ & _ & Hl).
  - apply NoDup_singleton.
  - assert (tables written = <[(1, code_page) := set_loaded true entry1]> {[(2, code_page) := entry2]}) as Ht by (by vm_compute).
    assert (curr written = 1) as Hc by (by vm_compute). rewrite Ht, Hc. intros e. rewrite list_elem_of_singleton. split.
    + intros ->. exists code_page. apply lookup_insert_eq.
    + intros [u [[[= <-] <-]|[_ [[=] _]%lookup_singleton_Some]]%lookup_insert_Some]. done.
  - exists s'. split; [done|]. split; [exact Hf|]. rewrite Hl. by vm_compute.
Defined.
