(* ===== verification/Mmap.v ===== *)
(** * userprog/syscall.c: mapped files

    SYS_MMAP and SYS_MUNMAP of the running process on the state of demand paging.  The list
    of mapped pages is the list of their addresses, and in [munmap], which removes elements
    while it walks over them, the linked list of list.c. *)

From S2P Require Import Prelude KList KListProof KListOps Bitmap Vaddr Stdlibc Cache Loader Swap Vm VmProof VmRun VmExit.

(** ** State *)

Record mapper := mkMapper { mem : vm; mmap_list : list Z; mmap_count : Z }.

Definition set_mem (s : vm) (m : mapper) : mapper := mkMapper s (mmap_list m) (mmap_count m).

Definition set_mmap_id (i : Z) (e : sup_pte) : sup_pte :=
  mkPte (file e) (upage e) (read_bytes e) (zero_bytes e) (writable e) (file_ofs e) (swapped e) (loaded e) (swap_index e) i.

(** The value for the process, or its end. *)
Inductive answer := Value (v : Z) | Killed.

Section Mmap.
(** The inode of an open file, the file that [file_reopen] gives, and whether memory for a
    new entry is found. *)
Context (inode_of reopen : Z -> Z) (malloc_ok : bool).

(** ** SYS_MMAP *)

(** [page_insert] into the table of the running process. *)
Definition insert_page (f ofs u r z : Z) (s : vm) : res (vm * bool) :=
  if malloc_ok then
    match tables s !! (curr s, u) with
    | None => Ret (set_entry (curr s) u (mkPte f u r z true ofs false true None MAP_FAILED) s, true)
    | Some _ => Ret (s, false)
    end
  else Ub.

(** The loop over the pages; the result says whether one could not be inserted. *)
Fixpoint map_pages (fuel : nat) (f map_id remain ofs addr : Z) (m : mapper) : res (mapper * bool) :=
  if bool_decide (0 < remain) then
    match fuel with
    | O => NoFuel
    | S fuel =>
        let page_read_bytes := if bool_decide (remain >= PGSIZE) then PGSIZE else remain in
        let! '(s, insert_success) := insert_page (reopen f) ofs addr page_read_bytes (PGSIZE - page_read_bytes) (mem m) in
        if (insert_success : bool) then
          let! spte := match tables s !! (curr s, addr) with Some e => Ret e | None => Panic end in
          let s := set_entry (curr s) addr (set_loaded false (set_mmap_id map_id spte)) s in
          let! ofs := int_op (ofs + PGSIZE) in
          map_pages fuel f map_id (remain - page_read_bytes) ofs (u32 (addr + PGSIZE))
            (mkMapper s (mmap_list m ++ [addr]) (mmap_count m))
        else Ret (m, true)
    end
  else Ret (m, false).

(** [open] is the file of descriptor [fd]; it is used before it is compared with the null
    pointer, and the page fault ends the process. *)
Definition sys_mmap (fd addr : Z) (open : option Z) (m : mapper) : res (mapper * answer) :=
  if bool_decide (addr = 0) then Ret (m, Value MAP_FAILED)
  else if bool_decide (pg_ofs addr <> 0) then Ret (m, Value MAP_FAILED)
  else if bool_decide (fd = 0) || bool_decide (fd = 1) then Ret (m, Value MAP_FAILED)
  else
    match open with
    | None => Ret (m, Killed)
    | Some f =>
        let len := flength (file_data inode_of f (mem m)) in
        let map_id := mmap_count m in
        if bool_decide (len = 0) then Ret (m, Value MAP_FAILED)
        else
          let! s := frame_table_lock_acquire (mem m) in
          let! '(m, is_fail) := map_pages (Z.to_nat len) f map_id len 0 addr (set_mem s m) in
          let! s := frame_table_lock_release (mem m) in
          let m := set_mem s m in
          if (is_fail : bool) then Ret (m, Value MAP_FAILED)
          else
            let! n := int_op (mmap_count m + 1) in
            Ret (mkMapper s (mmap_list m) n, Value map_id)
    end.

(** ** SYS_MUNMAP *)

(** One page of the mapping; [page_remove] does not free the entry. *)
Definition unmap_page (u : Z) (e : sup_pte) (s : vm) : res vm :=
  let t := curr s in
  match pd_get_page t u s with
  | Some kpage =>
      ASSERT (loaded e);
      let! s := (if pd_is_dirty t u s then
                   let! s := acquire_file_lock s in
                   let! page := user_page_bytes u s in
                   let s := vm_file_write inode_of (file e) (take (Z.to_nat (read_bytes e)) page) (file_ofs e) s in
                   release_file_lock s
                 else Ret s) in
      let s := pd_clear_page t u s in
      let s := set_tables (delete (t, u) (tables s)) s in
      Ret (frame_free kpage s)
  | None => Ret (set_tables (delete (t, u) (tables s)) s)
  end.

Section Munmap.
(** [list_entry]: the page whose entry has its [list_elem] at an address.  The entries live
    on when [page_remove] takes them out of the table. *)
Context (page_of : Z -> Z).

(** The body of the loop; the loop goes on with [list_next] of the element, also when it
    was removed. *)
Definition munmap_body (id el : Z) (h : heap) (s : vm) : res (heap * vm) :=
  let! e := of_opt (tables s !! (curr s, page_of el)) in
  if bool_decide (id = mmap_id e) then
    let! '(_, h) := list_remove h el in
    let! s := unmap_page (upage e) e s in
    Ret (h, s)
  else Ret (h, s).

(** The list at [l] is [curr->mmap_list]; [list_front] asserts that there is a mapped page.
    [fuel] bounds the rounds. *)
Definition sys_munmap (fuel : nat) (l id : Z) (h : heap) (s : vm) : res (heap * vm) :=
  let! s := frame_table_lock_acquire s in
  let! el := list_front h l in
  let! '(h, s) := walk (munmap_body id) fuel l el h s in
  let! s := frame_table_lock_release s in
  Ret (h, s).

(** The body on the sequence of the elements: whether the element goes. *)
Definition munmap_work (id el : Z) (s : vm) : res (bool * vm) :=
  let! e := of_opt (tables s !! (curr s, page_of el)) in
  if bool_decide (id = mmap_id e) then let! s := unmap_page (upage e) e s in Ret (true, s) else Ret (false, s).

Lemma munmap_body_step id l h A el B s : dll h l (A ++ el :: B) -> munmap_body id el h s = walk_step (munmap_work id) el h s.
Proof.
  intros Hd. destruct (list_remove_ok h l A el B Hd) as (h' & E & _ & _). unfold munmap_body, walk_step, munmap_work.
  destruct (of_opt _) as [e| | |]; try done. cbn [rbind]. case_bool_decide; [|done]. rewrite E. cbn [rbind].
  by destruct (unmap_page (upage e) e s) as [s'| | |]; cbn [rbind].
Qed.
End Munmap.

(** ** Unmapping a page is releasing its entry *)

Abbreviation pages := (gmap (Z * Z) (list Z)).

Lemma unmap_page_eq s am sl u e page : paged inode_of s am sl -> tables s !! (curr s, u) = Some e -> am !! (curr s, u) = Some page ->
  mmap_id e <> MAP_FAILED -> file_lock s = false ->
  unmap_page u e s = page_table_free inode_of e (set_tables (delete (curr s, u) (tables s)) s).
Proof.
  intros Hp He Ha Hm Hl. destruct (pg_entries _ _ _ _ Hp _ _ _ He Ha) as [Hu Hlen _ Hmm Hat]. simpl in Hu.
  destruct (Hmm Hm) as [Hs _]. unfold unmap_page, page_table_free, pd_get_page, pd_is_dirty. rewrite Hu, Hs. simpl.
  unfold page_at in Hat. destruct (dirs s !! (curr s, u)) as [p|] eqn:Hd; [|done]. simpl.
  destruct Hat as (Hld & _ & Hfr & _). rewrite Hld. simpl. rewrite bool_decide_true by done.
  destruct (m_dirty p); simpl; [|done]. unfold acquire_file_lock, user_page_bytes. rewrite Hl. simpl. rewrite Hd. simpl.
  rewrite Hfr. simpl. unfold release_file_lock. simpl. destruct s. simpl in *. by subst.
Qed.

(** The entries of the mapping [id] in a list of pages. *)
Definition entries_of (s : vm) (id : Z) (l : list Z) : list sup_pte :=
  filter (fun e => mmap_id e = id) (omap (fun u => tables s !! (curr s, u)) l).

Lemma entries_of_ext s s' id l : curr s' = curr s -> (forall u, u ∈ l -> tables s' !! (curr s, u) = tables s !! (curr s, u)) ->
  entries_of s' id l = entries_of s id l.
Proof.
  intros Hc Ht. unfold entries_of. rewrite Hc. f_equal. induction l as [|u l IH]; [done|]. simpl. rewrite Ht by by left.
  assert (omap (fun u => tables s' !! (curr s, u)) l = omap (fun u => tables s !! (curr s, u)) l) as E by (apply IH; intros v Hv; apply Ht; by right).
  unfold omap in E. by rewrite E.
Qed.

(** Filters that agree on a list. *)
Lemma filter_agree {A} (P Q : A -> Prop) `{!forall x, Decision (P x), !forall x, Decision (Q x)} (l : list A) :
  (forall x, x ∈ l -> P x <-> Q x) -> filter P l = filter Q l.
Proof.
  induction l as [|x l IH]; intros Hpq; [done|]. rewrite !filter_cons, IH by (intros; apply Hpq; by right).
  pose proof (Hpq x ltac:(by left)). do 2 case_decide; tauto.
Qed.

Lemma munmap_visit page_of id els : forall s am sl, paged inode_of s am sl -> file_lock s = false -> id <> MAP_FAILED -> NoDup (page_of <$> els) ->
  (forall el, el ∈ els -> is_Some (tables s !! (curr s, page_of el))) ->
  visit (munmap_work page_of id) els s =
    let! s' := page_table_remove inode_of (entries_of s id (page_of <$> els)) s in
    Ret (filter (fun el => mmap_id <$> tables s !! (curr s, page_of el) <> Some id) els, s').
Proof.
  induction els as [|el els IH]; intros s am sl Hp Hl Hid Hnd Hin; [done|]. set (u := page_of el). set (l := page_of <$> els).
  cbn [fmap list_fmap] in *. fold u l in Hnd |- *. apply NoDup_cons in Hnd as [Hu Hnd].
  destruct (Hin el ltac:(by left)) as [e He]. fold u in He. destruct (pg_dom _ _ _ _ Hp (curr s, u)) as [_ [page Ha]]; [eauto|].
  pose proof (pg_entries _ _ _ _ Hp _ _ _ He Ha) as [Hup _ _ _ _]. simpl in Hup.
  cbn [visit]. unfold munmap_work at 1. fold u. rewrite He. cbn [of_opt rbind]. unfold entries_of. cbn [omap list_omap]. rewrite filter_cons, He. simpl.
  rewrite filter_cons. fold u (entries_of s id l). rewrite He. case_bool_decide as Hm.
  - rewrite decide_True, decide_False by (simpl; congruence). cbn [page_table_remove]. rewrite Hup.
    rewrite (unmap_page_eq s am sl u e page) by (done || congruence). rewrite <- Hup.
    destruct (page_table_free_ok inode_of s am sl u e page Hp He Ha) as (s2 & sl2 & Heq & Hp2 & Hf). rewrite Heq. cbn [rbind].
    assert (curr s2 = curr s) as Hc by apply (fr_curr _ _ _ _ _ _ _ Hf).
    assert (forall v, v ∈ l -> tables s2 !! (curr s, v) = tables s !! (curr s, v)) as Ht.
    { intros v Hv. rewrite (fr_tables _ _ _ _ _ _ _ Hf), lookup_delete_ne; [done|]. intros [= Hx]. apply Hu. by rewrite <- Hup, Hx. }
    rewrite <- (entries_of_ext s s2 id l Hc Ht). rewrite (IH s2 _ _ Hp2); [|by rewrite (proj2 (fr_locks _ _ _ _ _ _ _ Hf))|done|done|].
    + fold l. destruct (page_table_remove _ _ s2); cbn [rbind]; try done. do 2 f_equal. apply filter_agree.
      intros v Hv. by rewrite Hc, Ht by by apply list_elem_of_fmap_2.
    + intros v Hv. rewrite Hc, Ht by by apply list_elem_of_fmap_2. apply Hin. by right.
  - rewrite decide_False, decide_True by (simpl; congruence). cbn [rbind]. rewrite (IH s am sl) by (done || (intros; apply Hin; by right)).
    fold l. by destruct (page_table_remove inode_of (entries_of s id l) s).
Qed.

(** What the list of mapped pages promises: distinct pages of the process. *)
Record mapper_ok (m : mapper) (am : pages) (sl : slots) : Prop := {
  mo_paged : paged inode_of (mem m) am sl;
  mo_locks : frame_lock (mem m) = false /\ file_lock (mem m) = false;
  mo_nodup : NoDup (mmap_list m);
  mo_entries : forall u, u ∈ mmap_list m -> exists e, tables (mem m) !! (curr (mem m), u) = Some e /\ mmap_id e <> MAP_FAILED
}.

Lemma entries_of_elem s id l e : e ∈ entries_of s id l <-> mmap_id e = id /\ exists u, u ∈ l /\ tables s !! (curr s, u) = Some e.
Proof. unfold entries_of. by rewrite list_elem_of_filter, list_elem_of_omap. Qed.

Lemma entries_of_nodup s am sl id l : paged inode_of s am sl -> NoDup l -> NoDup (upage <$> entries_of s id l).
Proof.
  intros Hp Hnd. assert (forall u e, tables s !! (curr s, u) = Some e -> upage e = u) as Hup.
  { intros u e He. destruct (pg_dom _ _ _ _ Hp (curr s, u)) as [_ [page Ha]]; [eauto|].
    by destruct (pg_entries _ _ _ _ Hp _ _ _ He Ha) as [Hu _ _ _ _]. }
  induction l as [|u l IH]; [constructor|]. apply NoDup_cons in Hnd as [Hu Hnd]. specialize (IH Hnd).
  unfold entries_of. cbn [omap list_omap]. destruct (tables s !! (curr s, u)) as [e|] eqn:He; [|done].
  rewrite filter_cons. fold (entries_of s id l). case_decide; [|done]. cbn [fmap list_fmap]. constructor; [|done].
  intros (e2 & Hx & He2)%list_elem_of_fmap. apply entries_of_elem in He2 as (_ & v & Hv & He2). apply Hu.
  by rewrite <- (Hup u e He), Hx, (Hup v e2 He2).
Qed.

(** C25. [munmap] of a process that has a mapped page, on the linked list as it is: the
    loop, which calls [list_next] on the elements it has just removed, visits every element,
    because removing an element leaves the links in it.  The call returns, takes exactly the
    pages of the mapping from the memory of the process and from the list, leaves all other
    pages with their contents, gives the frames back, and the file of each page of the
    mapping holds what the process had in the page. *)
Theorem munmap_effect page_of fuel l els id h m am sl : mapper_ok m am sl -> id <> MAP_FAILED ->
  dll h l els -> page_of <$> els = mmap_list m -> els <> [] -> (length els < fuel)%nat ->
  let t := curr (mem m) in
  exists h' s' sl', sys_munmap page_of fuel l id h (mem m) = Ret (h', s') /\
    dll h' l (filter (fun el => mmap_id <$> tables (mem m) !! (t, page_of el) <> Some id) els) /\
    paged inode_of s' (without t (entries_of (mem m) id (mmap_list m)) am) sl' /\
    (forall u e page, u ∈ mmap_list m -> tables (mem m) !! (t, u) = Some e -> mmap_id e = id -> am !! (t, u) = Some page ->
       without t (entries_of (mem m) id (mmap_list m)) am !! (t, u) = None /\ file_page inode_of s' e = page) /\
    (forall t' u, t' <> t \/ u ∉ mmap_list m -> without t (entries_of (mem m) id (mmap_list m)) am !! (t', u) = am !! (t', u)) /\
    frame_lock s' = false /\
    (length (frame_table s') + length (free_pages s') = length (frame_table (mem m)) + length (free_pages (mem m)))%nat.
Proof.
  intros [Hp [Hl Hfl] Hnd Hen] Hid Hd Hels Hne Hfuel t. set (s1 := set_frame_lock true (mem m)).
  assert (paged inode_of s1 am sl) as Hp1 by (by eapply paged_same).
  assert (forall u e, tables (mem m) !! (t, u) = Some e -> upage e = u) as Hup.
  { intros u e He. destruct (pg_dom _ _ _ _ Hp (t, u)) as [_ [page Ha]]; [eauto|].
    by destruct (pg_entries _ _ _ _ Hp _ _ _ He Ha) as [Hu _ _ _ _]. }
  destruct (page_table_remove_ok inode_of (entries_of s1 id (mmap_list m)) s1 am sl Hp1) as (s' & sl' & Heq & Hp' & _ & G2 & _ & _ & G5 & G6).
  { by eapply entries_of_nodup. }
  { intros e (_ & u & _ & He)%entries_of_elem. by rewrite (Hup u e He). }
  set (kept := filter (fun el => mmap_id <$> tables (mem m) !! (t, page_of el) <> Some id) els).
  assert (visit (munmap_work page_of id) els s1 = Ret (kept, s')) as Hv.
  { erewrite munmap_visit; [|exact Hp1|done..|by rewrite Hels|]; [by rewrite Hels, Heq|].
    intros el Hel. destruct (Hen (page_of el)) as (e & He & _); [rewrite <- Hels; by apply list_elem_of_fmap_2|eauto]. }
  pose proof (walk_visit (munmap_body page_of id) (munmap_work page_of id) l (fun h A el B s => munmap_body_step page_of id l h A el B s)
    els [] h s1 fuel Hd Hfuel) as Hw. rewrite Hv in Hw. destruct els as [|el els]; [done|].
  destruct (walk _ _ _ _ _ _) as [[h' s2]| | |] eqn:Ew; try done. destruct Hw as [Hd' ->]. simpl in Hd'.
  exists h', (set_frame_lock false s'), sl'. split_and!; try done.
  - unfold sys_munmap, frame_table_lock_acquire. rewrite Hl. cbn [negb assert_ rbind]. rewrite (dll_front _ _ _ _ Hd). cbn [rbind].
    fold s1. change (hd_or (tail_of l) (el :: els)) with el in Ew. rewrite Ew. cbn [rbind]. unfold frame_table_lock_release. by rewrite G6.
  - eapply paged_same; [exact Hp'|done..].
  - intros u e page Hu He Hm Ha. assert (e ∈ entries_of s1 id (mmap_list m)) as Hin by (apply entries_of_elem; eauto).
    split.
    + rewrite (without_lookup inode_of). rewrite decide_True; [done|]. split; [done|]. apply list_elem_of_fmap. exists e. split; [|done].
      symmetry. by apply Hup.
    + change (file_page inode_of s' e = page). apply G2; [done|congruence|]. by rewrite (Hup u e He).
  - intros t' u Hu. rewrite (without_lookup inode_of). rewrite decide_False; [done|]. simpl. intros [-> (e & -> & He)%list_elem_of_fmap].
    apply entries_of_elem in He as (_ & v & Hv' & He). rewrite (Hup v e He) in Hu. by destruct Hu.
Qed.

(** ** Mapping *)

(** The page of a file from offset [o] on, filled up with zeros. *)
Definition chunk (data : list Z) (o : Z) : list Z :=
  let b := take 4096 (drop (Z.to_nat o) data) in b ++ replicate (4096 - length b) 0.

Lemma mapped_in_ok s am sl u e : paged inode_of s am sl -> tables s !! (curr s, u) = None -> upage e = u -> file_backed inode_of s e ->
  loaded e = false -> swapped e = false ->
  (forall key2 e2, tables s !! key2 = Some e2 -> apart inode_of e e2 /\ apart inode_of e2 e) ->
  paged inode_of (set_entry (curr s) u e s) (<[(curr s, u) := file_page inode_of s e]> am) sl.
Proof.
  intros Hp Ht Hu Hb Hl Hs Hap. set (key := (curr s, u)) in *. set (s' := set_entry (curr s) u e s).
  assert (dirs s !! key = None) as Hd.
  { destruct (dirs s !! key) as [p|] eqn:E; [|done]. destruct (pg_dirs _ _ _ _ Hp _ _ E) as [[x Hx] _]. by rewrite Ht in Hx. }
  assert (forall e2, (file_backed inode_of s e2 <-> file_backed inode_of s' e2) /\ file_page inode_of s' e2 = file_page inode_of s e2) as Hsf
    by (intros e2; by apply same_files).
  split; simpl; try apply Hp.
  - intros q. rewrite !lookup_insert_is_Some'. rewrite (pg_dom _ _ _ _ Hp q). done.
  - intros q e2 pg He2 Ha2. destruct (decide (q = key)) as [->|Hq].
    + rewrite lookup_insert_eq in He2. rewrite lookup_insert_eq in Ha2. simplify_eq. rewrite <- (proj2 (Hsf e2)). by apply lazy_entry_ok; [| | | |apply Hsf].
    + rewrite lookup_insert_ne in He2 by done. rewrite lookup_insert_ne in Ha2 by done. eapply entry_ok_stable; [by eapply pg_entries|done|done|done| |by apply Hsf].
      intros Hb2. split; [by apply Hsf|apply Hsf].
  - intros q p Hq. destruct (pg_dirs _ _ _ _ Hp _ _ Hq) as [Hx Hin]. split; [|done]. apply lookup_insert_is_Some'. by right.
  - intros k1 k2 e1 e2 H1 H2 Hs1 Hs2 Hi. destruct (decide (k1 = key)) as [->|Hn1]; [rewrite lookup_insert_eq in H1; congruence|].
    destruct (decide (k2 = key)) as [->|Hn2]; [rewrite lookup_insert_eq in H2; congruence|].
    rewrite lookup_insert_ne in H1, H2 by done. by eapply (pg_slots _ _ _ _ Hp).
  - intros k1 k2 e1 e2 Hne H1 H2. destruct (decide (k1 = key)) as [->|Hn1], (decide (k2 = key)) as [->|Hn2]; [done|..].
    + rewrite lookup_insert_eq in H1. rewrite lookup_insert_ne in H2 by done. simplify_eq. by apply (Hap k2).
    + rewrite lookup_insert_eq in H2. rewrite lookup_insert_ne in H1 by done. simplify_eq. by apply (Hap k1).
    + rewrite lookup_insert_ne in H1, H2 by done. by eapply (pg_apart _ _ _ _ Hp k1 k2).
Qed.

Definition mapped_entry (f map_id ofs u r : Z) : sup_pte := mkPte (reopen f) u r (PGSIZE - r) true ofs false false None map_id.

Lemma mapped_entry_page s f map_id ofs u r : inode_of (reopen f) = inode_of f -> 0 <= ofs -> 0 <= r <= 4096 ->
  r = Z.min 4096 (flength (file_data inode_of f s) - ofs) ->
  file_page inode_of s (mapped_entry f map_id ofs u r) = chunk (file_data inode_of f s) ofs.
Proof.
  intros Hin Ho Hr Hm. unfold file_page, chunk. simpl. unfold file_data at 1. rewrite Hin. fold (file_data inode_of f s).
  unfold flength in Hm. set (d := file_data inode_of f s) in *.
  assert (take (Z.to_nat r) (drop (Z.to_nat ofs) d) = take 4096 (drop (Z.to_nat ofs) d)) as Ht.
  { destruct (decide (r = 4096)) as [->|]; [done|]. rewrite !take_ge; [done|rewrite length_drop; lia..]. }
  rewrite Ht. f_equal. f_equal. rewrite <- Ht, length_take, length_drop. unfold PGSIZE, PGBITS. simpl. lia.
Qed.

Section File.
(** A file whose inode no page of any process comes from, but those of this mapping before
    [ofs]. *)
Context (f map_id : Z) (Hre : inode_of (reopen f) = inode_of f) (Hnull : reopen f <> 0) (Hid : map_id <> MAP_FAILED) (Hmem : malloc_ok = true).

Definition before (ofs : Z) (e : sup_pte) : Prop :=
  inode_of (file e) <> inode_of f \/ (0 <= file_ofs e /\ file_ofs e + read_bytes e <= ofs).

Lemma mapped_entry_backed s ofs u r : 0 <= ofs -> 0 < r <= 4096 -> ofs + r <= flength (file_data inode_of f s) ->
  file_backed inode_of s (mapped_entry f map_id ofs u r).
Proof using Hre Hnull.
  intros Ho Hr Hl. split; simpl; [unfold PGSIZE, PGBITS; simpl; lia|done| |done]. unfold file_data. by rewrite Hre.
Qed.

(** The pages that are mapped: [n] of them from [addr] on, with the file from [ofs] on. *)
Record mapped (m m' : mapper) (am am' : pages) (addr ofs n : Z) : Prop := {
  ma_pages : forall k, 0 <= k < n -> am' !! (curr (mem m), addr + 4096 * k) = Some (chunk (file_data inode_of f (mem m)) (ofs + 4096 * k));
  ma_entries : forall k, 0 <= k < n -> exists e, tables (mem m') !! (curr (mem m), addr + 4096 * k) = Some e /\ mmap_id e = map_id;
  ma_others : forall key, (forall k, 0 <= k < n -> key <> (curr (mem m), addr + 4096 * k)) ->
    am' !! key = am !! key /\ tables (mem m') !! key = tables (mem m) !! key;
  ma_list : mmap_list m' = mmap_list m ++ ((fun k => addr + 4096 * k) <$> seqZ 0 n);
  ma_rest : files (mem m') = files (mem m) /\ curr (mem m') = curr (mem m) /\ frame_lock (mem m') = frame_lock (mem m) /\
    file_lock (mem m') = file_lock (mem m) /\ mmap_count m' = mmap_count m
}.

Lemma map_pages_ok fuel : forall remain ofs addr n m am sl, paged inode_of (mem m) am sl ->
  0 <= ofs -> 0 <= remain -> (0 < remain -> ofs + remain = flength (file_data inode_of f (mem m))) -> ofs + 4096 * n < 2 ^ 31 ->
  4096 * (n - 1) < remain <= 4096 * n -> n <= Z.of_nat fuel -> 0 <= addr -> addr + 4096 * n < 2 ^ 32 ->
  (forall k, 0 <= k < n -> tables (mem m) !! (curr (mem m), addr + 4096 * k) = None) ->
  (forall key e, tables (mem m) !! key = Some e -> before ofs e) ->
  exists m' am', map_pages fuel f map_id remain ofs addr m = Ret (m', false) /\ paged inode_of (mem m') am' sl /\ mapped m m' am am' addr ofs n.
Proof using Hre Hnull Hid Hmem.
  induction fuel as [|fuel IH]; intros remain ofs addr n m am sl Hp Ho Hr Hlen Hmax Hn Hfuel Ha Haddr Hfree Hb; cbn [map_pages];
    case_bool_decide as Hpos; try lia.
  1,3: exists m, am; split; [done|]; split; [done|]; assert (n = 0) as -> by lia; split; try done; try lia; by rewrite app_nil_r.
  set (r := if bool_decide (remain >= PGSIZE) then PGSIZE else remain).
  assert (r = Z.min 4096 remain) as Hrr by (unfold r; change PGSIZE with 4096; case_bool_decide; lia).
  set (s := mem m) in *. set (e := mapped_entry f map_id ofs addr r).
  assert (file_backed inode_of s e) as Hbk by (apply mapped_entry_backed; lia).
  unfold insert_page. rewrite Hmem. pose proof (Hfree 0 ltac:(lia)) as Hnone. rewrite Z.mul_0_r, Z.add_0_r in Hnone. rewrite Hnone.
  cbn [rbind]. simpl. rewrite lookup_insert_eq. cbn [rbind]. unfold set_entry at 1. simpl. rewrite insert_insert_eq.
  rewrite int_op_small by (change PGSIZE with 4096; lia). cbn [rbind]. change PGSIZE with 4096. rewrite (u32_small (addr + 4096)) by lia.
  change (set_mmap_id map_id _) with (set_loaded true e). change (set_loaded false (set_loaded true e)) with e.
  change (set_tables (<[(curr s, addr) := e]> (tables s)) (set_tables _ s)) with (set_entry (curr s) addr e s).
  assert (paged inode_of (set_entry (curr s) addr e s) (<[(curr s, addr) := file_page inode_of s e]> am) sl) as Hp1.
  { apply mapped_in_ok; try done. intros key2 e2 He2. destruct (Hb _ _ He2) as [Hne|[H1 H2]].
    - split; intros _ Hx; simpl in Hx; rewrite Hre in Hx; by destruct Hne.
    - split; intros _ _; simpl; [by right|by left]. }
  assert (file_page inode_of s e = chunk (file_data inode_of f s) ofs) as Hpg by (apply mapped_entry_page; (done || lia)).
  rewrite Hpg in Hp1. set (m1 := mkMapper (set_entry (curr s) addr e s) (mmap_list m ++ [addr]) (mmap_count m)).
  destruct (IH (remain - r) (ofs + 4096) (addr + 4096) (n - 1) m1 (<[(curr s, addr) := chunk (file_data inode_of f s) ofs]> am) sl Hp1)
    as (m' & am' & Heq & Hp' & Hm'); try lia.
  - change (file_data inode_of f (mem m1)) with (file_data inode_of f s). lia.
  - intros k Hk. simpl. rewrite lookup_insert_ne; [|injection 1; lia]. specialize (Hfree (k + 1) ltac:(lia)).
    by replace (addr + 4096 + 4096 * k) with (addr + 4096 * (k + 1)) by lia.
  - intros key e2. simpl. rewrite lookup_insert_Some. intros [[<- <-]|[_ He2]]; [right; simpl; lia|].
    destruct (Hb key e2 He2) as [?|?]; [by left|right; lia].
  - exists m', am'. split; [exact Heq|]. split; [done|]. destruct Hm' as [M1 M2 M3 M4 M5]. simpl in M1, M2, M3, M4, M5.
    destruct (M3 (curr s, addr)) as [N1 N2]; [intros k Hk; injection 1; lia|]. rewrite lookup_insert_eq in N1. rewrite lookup_insert_eq in N2.
    split; try done.
    + intros k Hk. destruct (decide (k = 0)) as [->|]; [by rewrite Z.mul_0_r, !Z.add_0_r|].
      specialize (M1 (k - 1) ltac:(lia)). replace (addr + 4096 * k) with (addr + 4096 + 4096 * (k - 1)) by lia.
      by replace (ofs + 4096 * k) with (ofs + 4096 + 4096 * (k - 1)) by lia.
    + intros k Hk. destruct (decide (k = 0)) as [->|]; [rewrite Z.mul_0_r, !Z.add_0_r; by exists e|].
      specialize (M2 (k - 1) ltac:(lia)). by replace (addr + 4096 * k) with (addr + 4096 + 4096 * (k - 1)) by lia.
    + intros key Hkey. assert (key <> (curr s, addr)) as Hne.
      { specialize (Hkey 0 ltac:(lia)). by rewrite Z.mul_0_r, Z.add_0_r in Hkey. }
      destruct (M3 key) as [O1 O2].
      { intros k Hk. specialize (Hkey (k + 1) ltac:(lia)). by replace (addr + 4096 + 4096 * k) with (addr + 4096 * (k + 1)) by lia. }
      rewrite lookup_insert_ne in O1 by done. by rewrite lookup_insert_ne in O2 by done.
    + rewrite M4, <- app_assoc. f_equal. rewrite (seqZ_cons 0 n) by lia. simpl. f_equal; [lia|].
      change (seqZ _ (Z.pred n)) with (seqZ (1 + 0) (Z.pred n)). rewrite <- (fmap_add_seqZ 1 0 (Z.pred n)). rewrite <- list_fmap_compose. replace (Z.pred n) with (n - 1) by lia.
      apply list_fmap_ext. intros k x _. simpl. lia.
Qed.

(** C24. [mmap] of an open file that no other page comes from, at a page address with room
    for the file, succeeds: the pages from the address on hold the bytes of the file, the
    last one filled up with zeros, all other pages of all processes are as before, and the
    pages are in the list of mapped pages under the new number. *)
Theorem mmap_effect fd addr n m am sl : mapper_ok m am sl -> mmap_count m = map_id -> map_id + 1 < 2 ^ 31 -> 0 <= map_id ->
  2 <= fd -> 0 < addr -> pg_ofs addr = 0 -> addr + 4096 * n < 2 ^ 32 -> 4096 * n < 2 ^ 31 ->
  4096 * (n - 1) < flength (file_data inode_of f (mem m)) <= 4096 * n -> 0 < n ->
  (forall k, 0 <= k < n -> tables (mem m) !! (curr (mem m), addr + 4096 * k) = None) ->
  (forall key e, tables (mem m) !! key = Some e -> inode_of (file e) <> inode_of f) ->
  exists m' am', sys_mmap fd addr (Some f) m = Ret (m', Value map_id) /\ mapper_ok m' am' sl /\ mmap_count m' = map_id + 1 /\
    (forall k, 0 <= k < n -> am' !! (curr (mem m), addr + 4096 * k) = Some (chunk (file_data inode_of f (mem m)) (4096 * k))) /\
    (forall key, (forall k, 0 <= k < n -> key <> (curr (mem m), addr + 4096 * k)) -> am' !! key = am !! key) /\
    mmap_list m' = mmap_list m ++ ((fun k => addr + 4096 * k) <$> seqZ 0 n).
Proof using Hre Hnull Hid Hmem.
  intros [Hp [Hl Hfl] Hnd Hen] Hc Hc1 Hc0 Hfd Ha Hofs Ha2 Hn2 Hlen Hn Hfree Hother. unfold sys_mmap.
  rewrite bool_decide_false by lia. rewrite bool_decide_false by lia. rewrite !bool_decide_false by lia. cbn [orb].
  unfold frame_table_lock_acquire. rewrite Hl. cbn [negb assert_ rbind].
  set (m1 := set_mem (set_frame_lock true (mem m)) m). set (len := flength (file_data inode_of f (mem m))) in *.
  assert (paged inode_of (mem m1) am sl) as Hp1 by (by eapply paged_same).
  destruct (map_pages_ok (Z.to_nat len) len 0 addr n m1 am sl Hp1) as (m2 & am2 & Heq & Hp2 & Hm2); try lia; try done.
  { intros key e He. left. by apply (Hother key). }
  rewrite Hc, Heq. cbn [rbind]. destruct Hm2 as [M1 M2 M3 M4 (R1 & R2 & R3 & R4 & R5)]. unfold frame_table_lock_release. rewrite R3.
  cbn [assert_ rbind frame_lock set_frame_lock mem m1 set_mem]. cbn [mmap_count mmap_list set_mem]. rewrite R5. cbn [mmap_count m1 set_mem]. rewrite Hc, int_op_small by lia. cbn [rbind].
  eexists _, am2. split; [done|]. split; [|split; [done|]; split; [exact M1|]; split; [apply M3|exact M4]].
  split; simpl.
  - by eapply paged_same.
  - by rewrite R4.
  - rewrite M4. apply NoDup_app. split_and!; [done| |].
    + intros u Hu (k & -> & Hk)%list_elem_of_fmap. apply elem_of_seqZ in Hk. destruct (Hen _ Hu) as (e & He & _). by rewrite Hfree in He by lia.
    + apply NoDup_fmap_2; [|apply NoDup_seqZ]. intros k1 k2. lia.
  - intros u Hu. rewrite M4 in Hu. rewrite R2. apply elem_of_app in Hu as [Hu|(k & -> & Hk)%list_elem_of_fmap].
    + destruct (Hen u Hu) as (e & He & Hx). exists e. split; [|done]. rewrite <- He. apply M3. intros k Hk. injection 1 as ->.
      by rewrite Hfree in He.
    + apply elem_of_seqZ in Hk. destruct (M2 k ltac:(lia)) as (e & He & Hx). exists e. split; [done|congruence].
Qed.
End File.
End Mmap.

(** ** A mapped file of 5000 bytes *)

Definition map_addr : Z := 268435456.
Definition fresh_process : mapper :=
  mkMapper (mkVm [] [8192; 12288] {[8192 := freed_page; 12288 := freed_page]} ∅ ∅ swap0 {[9 := replicate 5000 65]} 1 false false) [] 0.

Lemma fresh_process_ok : mapper_ok id fresh_process ∅ ∅.
Proof.
  assert (forall k page, frames (mem fresh_process) !! k = Some page -> page = freed_page) as Hf.
  { intros k page H. change (<[8192 := freed_page]> ({[12288 := freed_page]} : gmap Z (list Z)) !! k = Some page) in H.
    apply lookup_insert_Some in H as [[_ <-]|[_ [_ <-]%lookup_singleton_Some]]; done. }
  split; [|done|constructor|by intros u Hu%elem_of_nil].
  split; cbn [mem fresh_process frame_table free_pages frames tables dirs sw files fmap list_fmap app].
  - exact swap0_ok.
  - intros key. rewrite !lookup_empty. split; by intros [? ?].
  - intros key e page He. by rewrite lookup_empty in He.
  - intros key p Hd. by rewrite lookup_empty in Hd.
  - by intros f Hf'%elem_of_nil.
  - apply (bool_decide_unpack _). by vm_compute.
  - intros k Hk. apply elem_of_cons in Hk as [->|Hk]; [by eexists|]. apply list_elem_of_singleton in Hk as ->. by eexists.
  - intros k page Hk. rewrite (Hf k page Hk). done.
  - intros k1 k2 e1 e2 He. by rewrite lookup_empty in He.
  - intros k1 k2 e1 e2 _ He. by rewrite lookup_empty in He.
Qed.

Lemma mmap_effect_witness : exists m', sys_mmap id id true 2 map_addr (Some 9) fresh_process = Ret (m', Value 0) /\
  mmap_list m' = [map_addr; map_addr + 4096] /\ mmap_count m' = 1.
Proof.
  assert (flength (file_data id 9 (mem fresh_process)) = 5000) as Hlen by (vm_compute; reflexivity).
  destruct (mmap_effect id id true 9 0 eq_refl ltac:(discriminate) ltac:(discriminate) eq_refl 2 map_addr 2 fresh_process ∅ ∅ fresh_process_ok)
    as (m' & am' & H & _ & Hc & _ & _ & Hl).
  - reflexivity.
  - lia.
  - lia.
  - lia.
  - unfold map_addr. lia.
  - vm_compute. reflexivity.
  - unfold map_addr. lia.
  - lia.
  - rewrite Hlen. lia.
  - lia.
  - intros k Hk. apply lookup_empty.
  - intros key e He. change ((∅ : gmap (Z * Z) sup_pte) !! key = Some e) in He. by rewrite lookup_empty in He.
  - exists m'. split; [exact H|]. split; [|exact Hc]. rewrite Hl. vm_compute. reflexivity.
Defined.

(** Two mappings of one page each; the elements of their entries are at 100 and 200 and the
    list is at 4. *)
Definition page_at (el : Z) : Z := if bool_decide (el = 100) then map_addr else map_addr + 4096.
Definition two_entries : mapper :=
  mkMapper (set_entry 1 (map_addr + 4096) (mapped_entry id 9 1 4096 (map_addr + 4096) 904)
              (set_entry 1 map_addr (mapped_entry id 9 0 0 map_addr 4096) (mem fresh_process))) [map_addr; map_addr + 4096] 2.
Definition two_links : heap := {[4 := Elem NULL 100; 100 := Elem 4 200; 200 := Elem 100 12; 12 := Elem 200 NULL]}.
Definition two_pages : gmap (Z * Z) (list Z) :=
  <[(1, map_addr + 4096) := file_page id (mem fresh_process) (mapped_entry id 9 1 4096 (map_addr + 4096) 904)]>
    (<[(1, map_addr) := file_page id (mem fresh_process) (mapped_entry id 9 0 0 map_addr 4096)]> ∅).

Lemma two_entries_ok : mapper_ok id two_entries two_pages ∅.
Proof.
  assert (flength (file_data id 9 (mem fresh_process)) = 5000) as Hlen by (vm_compute; reflexivity).
  split; [|split; reflexivity|apply (bool_decide_unpack _); by vm_compute|].
  - set (s1 := set_entry 1 map_addr (mapped_entry id 9 0 0 map_addr 4096) (mem fresh_process)).
    assert (paged id s1 (<[(1, map_addr) := file_page id (mem fresh_process) (mapped_entry id 9 0 0 map_addr 4096)]> ∅) ∅) as H1.
    { apply (mapped_in_ok id (mem fresh_process) ∅ ∅ map_addr); [apply fresh_process_ok|apply lookup_empty|reflexivity| |reflexivity|reflexivity|].
      - apply mapped_entry_backed; [reflexivity|discriminate|lia|lia|rewrite Hlen; lia].
      - intros key e He. change ((∅ : gmap (Z * Z) sup_pte) !! key = Some e) in He. by rewrite lookup_empty in He. }
    apply (mapped_in_ok id s1 _ ∅ (map_addr + 4096) _ H1); [by vm_compute|reflexivity| |reflexivity|reflexivity|].
    + apply mapped_entry_backed; [reflexivity|discriminate|lia|lia|]. change (file_data id 9 s1) with (file_data id 9 (mem fresh_process)). rewrite Hlen. lia.
    + intros key e He. change (<[(1, map_addr) := mapped_entry id 9 0 0 map_addr 4096]> (∅ : gmap (Z * Z) sup_pte) !! key = Some e) in He.
      apply lookup_insert_Some in He as [[_ <-]|[_ He]]; [|by rewrite lookup_empty in He]. split; intros _ _; simpl; lia.
  - intros u Hu. apply elem_of_cons in Hu as [->|Hu]; [|apply list_elem_of_singleton in Hu as ->].
    + exists (mapped_entry id 9 0 0 map_addr 4096). split; [by vm_compute|discriminate].
    + exists (mapped_entry id 9 1 4096 (map_addr + 4096) 904). split; [by vm_compute|discriminate].
Qed.

Lemma two_links_ok : dll two_links 4 [100; 200].
Proof. split; [by vm_compute|apply (bool_decide_unpack _); by vm_compute..]. Qed.

(** The first mapping goes, the second stays. *)
Lemma munmap_effect_witness : exists h' s', sys_munmap id page_at 3 4 0 two_links (mem two_entries) = Ret (h', s') /\
  dll h' 4 [200] /\ frame_lock s' = false.
Proof.
  destruct (munmap_effect id page_at 3 4 [100; 200] 0 two_links two_entries two_pages ∅ two_entries_ok)
    as (h' & s' & sl' & Hu & Hd & _ & _ & _ & Hlk & _).
  - discriminate.
  - exact two_links_ok.
  - reflexivity.
  - discriminate.
  - simpl. lia.
  - exists h', s'. split; [exact Hu|]. split; [exact Hd|exact Hlk].
Defined.

(** Without a mapped page [munmap] fails the assertion of [list_front]. *)
Example munmap_nothing_panics :
  sys_munmap id page_at 1 4 0 {[4 := Elem NULL 12; 12 := Elem 4 NULL]} (mem fresh_process) = Panic.
Proof. by vm_compute. Qed.

(** A mapping that meets a page of the process fails, and leaves the pages before it under
    the number that the next mapping gets. *)
Example mmap_failure_leaves_pages :
  match sys_mmap id id true 2 map_addr (Some 9)
          (set_mem (set_entry 1 (map_addr + 4096) (stack_entry (map_addr + 4096)) (mem fresh_process)) fresh_process) with
  | Ret (m, Value v) => (v, mmap_list m, mmap_count m)
  | _ => (0, [], 0)
  end = (MAP_FAILED, [map_addr], 0).
Proof. by vm_compute. Qed.
