(* ===== verification/Input.v ===== *)
(** * devices/intq.c, devices/input.c, devices/kbd.c: input

    The circular buffer between the keyboard interrupt and the threads that read keys.  The
    interrupts are off inside the functions of the queue, so a thread gives up the processor
    only where it blocks, or where it wakes another thread; the steps below end there.
    A thread that wakes a more important one is preempted inside [thread_unblock]:
    [preempted] is what the other threads do until it runs again.
    The serial port, which [serial_notify] tells about the room in the buffer, is not part
    of the state. *)

From S2P Require Import Prelude.

(** ** intq.c *)

Definition INTQ_BUFSIZE : Z := 64.

(** [lock] is the holder of the lock; a waiting thread is given by its number. *)
Record intq := mkIntq { lock : option Z; not_full : option Z; not_empty : option Z; buf : list Z; head : Z; tail : Z }.

Definition set_lock (l : option Z) (q : intq) : intq := mkIntq l (not_full q) (not_empty q) (buf q) (head q) (tail q).
Definition set_not_full (t : option Z) (q : intq) : intq := mkIntq (lock q) t (not_empty q) (buf q) (head q) (tail q).
Definition set_not_empty (t : option Z) (q : intq) : intq := mkIntq (lock q) (not_full q) t (buf q) (head q) (tail q).

Definition next (pos : Z) : Z := (pos + 1) mod INTQ_BUFSIZE.

Definition intq_init : intq := mkIntq None None None (replicate 64 0) 0 0.
Definition intq_empty (q : intq) : bool := bool_decide (head q = tail q).
Definition intq_full (q : intq) : bool := bool_decide (next (head q) = tail q).

(** The two conditions a thread may wait for. *)
Inductive condition := NotEmpty | NotFull.
Definition holds (c : condition) (q : intq) : bool := match c with NotEmpty => negb (intq_empty q) | NotFull => negb (intq_full q) end.
Definition waiter (c : condition) (q : intq) : option Z := match c with NotEmpty => not_empty q | NotFull => not_full q end.
Definition set_waiter (c : condition) (t : option Z) (q : intq) : intq :=
  match c with NotEmpty => set_not_empty t q | NotFull => set_not_full t q end.

(** [wait], up to [thread_block]. *)
Definition wait (c : condition) (t : Z) (q : intq) : res intq :=
  ASSERT (negb (holds c q)); Ret (set_waiter c (Some t) q).

(** The queue is a part [get] of the state [W] of the system, and [thread_unblock] changes
    that state. *)
Section Queue.
Context {W : Type} (get : W -> intq) (set : intq -> W -> W) (thread_unblock : Z -> W -> res W).

(** [signal]: the waiter is forgotten when [thread_unblock] has returned. *)
Definition signal (c : condition) (w : W) : res W :=
  ASSERT (holds c (get w));
  match waiter c (get w) with
  | Some t => let! w := thread_unblock t w in Ret (set (set_waiter c None (get w)) w)
  | None => Ret w
  end.

(** A byte is taken from, or added to, a queue that is not empty, or full. *)
Definition take_byte (w : W) : res (W * Z) :=
  let q := get w in
  let! byte := aget (buf q) (tail q) in
  let! w := signal NotFull (set (mkIntq (lock q) (not_full q) (not_empty q) (buf q) (head q) (next (tail q))) w) in
  Ret (w, byte).
Definition add_byte (byte : Z) (w : W) : res W :=
  let q := get w in
  let! b := aset (buf q) (head q) byte in
  signal NotEmpty (set (mkIntq (lock q) (not_full q) (not_empty q) b (next (head q)) (tail q)) w).
End Queue.

(** Where a thread is in [intq_getc]: at the test of its loop, waiting for the lock,
    blocked in [wait] with the lock, or woken up there. *)
Inductive point := AtTest | OnLock | InWait | Woken.

Inductive outcome := Moved (p : point) | Got (byte : Z) | Blocked.

(** [lock_acquire] and [wait], when the lock is free. *)
Definition lock_and_wait (c : condition) (t : Z) (q : intq) : res (intq * outcome) :=
  match lock q with
  | None => let! q := wait c t (set_lock (Some t) q) in Ret (q, Moved InWait)
  | Some _ => Ret (q, Moved OnLock)
  end.

Definition intq_getc {W} (get : W -> intq) (set : intq -> W -> W) (thread_unblock : Z -> W -> res W)
    (t : Z) (p : point) (w : W) : res (W * outcome) :=
  let q := get w in
  match p with
  | AtTest =>
      if intq_empty q then let! '(q, o) := lock_and_wait NotEmpty t q in Ret (set q w, o)
      else let! '(w, byte) := take_byte get set thread_unblock w in Ret (w, Got byte)
  | OnLock => if bool_decide (lock q = None) then let! '(q, o) := lock_and_wait NotEmpty t q in Ret (set q w, o) else Ret (w, Blocked)
  | InWait => Ret (w, Blocked)
  | Woken => ASSERT (bool_decide (lock q = Some t)); Ret (set (set_lock None q) w, Moved AtTest)
  end.

(** [intq_putc] of an interrupt handler, which must not wait. *)
Definition intq_putc {W} (get : W -> intq) (set : intq -> W -> W) (thread_unblock : Z -> W -> res W) (byte : Z) (w : W) : res W :=
  if intq_full (get w) then Panic else add_byte get set thread_unblock byte w.

(** ** kbd.c *)

(** The characters of the tables are given by their codes. *)
Definition invariant_keymap : list (Z * list Z) :=
  [(0x01, [27]); (0x0e, [8]);
   (0x0f, 9 :: [81; 87; 69; 82; 84; 89; 85; 73; 79; 80]);
   (0x1c, [13]); (0x1e, [65; 83; 68; 70; 71; 72; 74; 75; 76]);
   (0x2c, [90; 88; 67; 86; 66; 78; 77]); (0x37, [42]); (0x39, [32])].
Definition unshifted_keymap : list (Z * list Z) :=
  [(0x02, [49; 50; 51; 52; 53; 54; 55; 56; 57; 48; 45; 61]);
   (0x1a, [91; 93]); (0x27, [59; 39; 96]); (0x2b, [92]); (0x33, [44; 46; 47])].
Definition shifted_keymap : list (Z * list Z) :=
  [(0x02, [33; 64; 35; 36; 37; 94; 38; 42; 40; 41; 95; 43]);
   (0x1a, [123; 125]); (0x27, [58; 34; 126]); (0x2b, [124]); (0x33, [60; 62; 63])].

Fixpoint map_key (k : list (Z * list Z)) (scancode : Z) : option Z :=
  match k with
  | [] => None
  | (first, chars) :: k =>
      if bool_decide (first <= scancode) && bool_decide (scancode < first + Z.of_nat (length chars))
      then chars !! Z.to_nat (scancode - first) else map_key k scancode
  end.

Record kbd := mkKbd {
  left_shift : bool; right_shift : bool; left_alt : bool; right_alt : bool; left_ctrl : bool; right_ctrl : bool;
  caps_lock : bool; key_cnt : Z
}.

Definition isupper (c : Z) : bool := bool_decide (65 <= c <= 90).
Definition tolower (c : Z) : Z := if isupper c then c - 65 + 97 else c.

(** What a scan code does: nothing, a character, a new state of the shift keys. *)
Inductive key := NoKey | Char (c : Z) | Shift (k : kbd).

(** The end of the table of shift keys. *)
Definition shift_key (code : Z) (down : bool) (k : kbd) : kbd :=
  if bool_decide (code = 0x2a) then mkKbd down (right_shift k) (left_alt k) (right_alt k) (left_ctrl k) (right_ctrl k) (caps_lock k) (key_cnt k)
  else if bool_decide (code = 0x36) then mkKbd (left_shift k) down (left_alt k) (right_alt k) (left_ctrl k) (right_ctrl k) (caps_lock k) (key_cnt k)
  else if bool_decide (code = 0x38) then mkKbd (left_shift k) (right_shift k) down (right_alt k) (left_ctrl k) (right_ctrl k) (caps_lock k) (key_cnt k)
  else if bool_decide (code = 0xe038) then mkKbd (left_shift k) (right_shift k) (left_alt k) down (left_ctrl k) (right_ctrl k) (caps_lock k) (key_cnt k)
  else if bool_decide (code = 0x1d) then mkKbd (left_shift k) (right_shift k) (left_alt k) (right_alt k) down (right_ctrl k) (caps_lock k) (key_cnt k)
  else if bool_decide (code = 0xe01d) then mkKbd (left_shift k) (right_shift k) (left_alt k) (right_alt k) (left_ctrl k) down (caps_lock k) (key_cnt k)
  else k.

(** The scan code from the bytes of the data register; [second] is read after a prefix. *)
Definition scan_code (first second : Z) : Z :=
  if bool_decide (first = 0xe0) then Z.lor (Z.shiftl first 8) second else first.

Definition interpret (code : Z) (k : kbd) : key :=
  let shift := left_shift k || right_shift k in
  let alt := left_alt k || right_alt k in
  let ctrl := left_ctrl k || right_ctrl k in
  let release := bool_decide (Z.land code 0x80 <> 0) in
  let code := Z.land code (Z.lnot 0x80) in
  if bool_decide (code = 0x3a) then
    if release then NoKey
    else Shift (mkKbd (left_shift k) (right_shift k) (left_alt k) (right_alt k) (left_ctrl k) (right_ctrl k) (negb (caps_lock k)) (key_cnt k))
  else
    match (match map_key invariant_keymap code with
           | Some c => Some c
           | None => map_key (if shift then shifted_keymap else unshifted_keymap) code
           end) with
    | Some c =>
        if release then NoKey
        else
          let c := if ctrl && bool_decide (0x40 <= c < 0x60) then c - 0x40
                   else if Bool.eqb shift (caps_lock k) then tolower c else c in
          Char (if alt then u8 (c + 0x80) else c)
    | None => Shift (shift_key code (negb release) k)
    end.

(** ** The system: a keyboard and readers *)

Record input := mkInput { buffer : intq; keyboard : kbd; readers : gmap Z point; accepted : list Z; taken : list (Z * Z) }.

Definition set_buffer (q : intq) (s : input) : input := mkInput q (keyboard s) (readers s) (accepted s) (taken s).
Definition set_readers (r : gmap Z point) (s : input) : input := mkInput (buffer s) (keyboard s) r (accepted s) (taken s).
Definition set_keyboard (k : kbd) (s : input) : input := mkInput (buffer s) k (readers s) (accepted s) (taken s).
Definition add_accepted (b : Z) (s : input) : input := mkInput (buffer s) (keyboard s) (readers s) (accepted s ++ [b]) (taken s).
Definition add_taken (t b : Z) (s : input) : input := mkInput (buffer s) (keyboard s) (readers s) (accepted s) (taken s ++ [(t, b)]).

Definition wake (t : Z) (s : input) : input := set_readers (<[t := Woken]> (readers s)) s.

(** [thread_unblock] in an interrupt handler: when the woken thread is more important than
    the running one, [thread_yield] fails an assertion. *)
Definition unblock_in_handler (higher : bool) (t : Z) (s : input) : res input := if higher then Panic else Ret (wake t s).

(** [keyboard_interrupt]; a key is dropped when the buffer is full. *)
Definition keyboard_interrupt (first second : Z) (higher : bool) (s : input) : res input :=
  match interpret (scan_code first second) (keyboard s) with
  | NoKey => Ret s
  | Shift k => Ret (set_keyboard k s)
  | Char c =>
      if intq_full (buffer s) then Ret s
      else
        let k := keyboard s in
        let k := mkKbd (left_shift k) (right_shift k) (left_alt k) (right_alt k) (left_ctrl k) (right_ctrl k) (caps_lock k) (s64 (key_cnt k + 1)) in
        intq_putc buffer set_buffer (unblock_in_handler higher) c (add_accepted c (set_keyboard k s))
  end.

(** [input_getc]: the next step of thread [t]. *)
Definition input_getc (preempted : input -> res input) (t : Z) (s : input) : res input :=
  match readers s !! t with
  | None => Ret (set_readers (<[t := AtTest]> (readers s)) s)
  | Some p =>
      let! '(s, o) := intq_getc buffer set_buffer (fun t s => preempted (wake t s)) t p s in
      match o with
      | Blocked => Ret s
      | Moved p => Ret (set_readers (<[t := p]> (readers s)) s)
      | Got byte => Ret (add_taken t byte (set_readers (delete t (readers s)) s))
      end
  end.

Inductive event := Key (first second : Z) (higher : bool) | Reader (t : Z).

Definition do_event (preempted : input -> res input) (e : event) (s : input) : res input :=
  match e with Key first second higher => keyboard_interrupt first second higher s | Reader t => input_getc preempted t s end.

Fixpoint run_events (preempted : input -> res input) (l : list event) (s : input) : res input :=
  match l with [] => Ret s | e :: l => let! s := do_event preempted e s in run_events preempted l s end.

Definition input_init : input := mkInput intq_init (mkKbd false false false false false false false 0) ∅ [] [].
