(* ===== verification/InputProof.v ===== *)
(** * Keys arrive in order

    The buffer is a queue of at most 63 bytes.  With one reader no assertion fails, every
    key that is accepted is read once and in order, and a reader sleeps only while the
    buffer is empty; with two readers an assertion can fail. *)

From S2P Require Import Prelude Input.

(** ** The contents of the buffer *)

Definition size (q : intq) : Z := (head q - tail q) mod 64.
Definition contents (q : intq) : list Z := (fun k => buf q !!! Z.to_nat ((tail q + k) mod 64)) <$> seqZ 0 (size q).

Record intq_ok (q : intq) : Prop := {
  iq_buf : length (buf q) = 64%nat;
  iq_head : 0 <= head q < 64;
  iq_tail : 0 <= tail q < 64
}.

Lemma contents_empty q : intq_ok q -> intq_empty q = true <-> contents q = [].
Proof.
  intros [_ Hh Ht]. unfold intq_empty, contents. rewrite bool_decide_eq_true. split.
  - intros He. unfold size. by rewrite He, Z.sub_diag.
  - intros Hc%fmap_nil_inv. assert (length (seqZ 0 (size q)) = 0%nat) as Hl by (by rewrite Hc). rewrite length_seqZ in Hl.
    unfold size in Hl. pose proof (Z.mod_pos_bound (head q - tail q) 64). assert ((head q - tail q) mod 64 = 0) as Hz by lia.
    apply Z.mod_divide in Hz as [k Hk]; lia.
Qed.

Lemma queue_length q : Z.of_nat (length (contents q)) <= 63.
Proof. unfold contents, size. rewrite length_fmap, length_seqZ. pose proof (Z.mod_pos_bound (head q - tail q) 64). lia. Qed.

Lemma next_range p : 0 <= next p < 64.
Proof. apply Z.mod_pos_bound. done. Qed.

Lemma take_size q : intq_ok q -> intq_empty q = false -> size q = 1 + (head q - next (tail q)) mod 64.
Proof.
  intros [_ Hh Ht] He. unfold intq_empty in He. apply bool_decide_eq_false in He. unfold size, next, INTQ_BUFSIZE.
  Z.div_mod_to_equations. lia.
Qed.

Lemma put_size q : intq_ok q -> intq_full q = false -> (next (head q) - tail q) mod 64 = size q + 1.
Proof.
  intros [_ Hh Ht] He. unfold intq_full in He. apply bool_decide_eq_false in He. unfold size, next, INTQ_BUFSIZE in *.
  Z.div_mod_to_equations. lia.
Qed.

(** A full queue holds 63 bytes. *)
Lemma full_length q : intq_ok q -> intq_full q = bool_decide (length (contents q) = 63%nat).
Proof.
  intros [_ Hh Ht]. unfold intq_full, contents, size, next, INTQ_BUFSIZE. rewrite length_fmap, length_seqZ. apply bool_decide_ext.
  Z.div_mod_to_equations. lia.
Qed.

(** A change of the waiting threads, and of the lock. *)
Lemma intq_ok_waiter c t q : intq_ok q -> intq_ok (set_waiter c t q) /\ contents (set_waiter c t q) = contents q /\ lock (set_waiter c t q) = lock q.
Proof. intros []. by destruct c. Qed.

Section Queue.
Context {W : Type} (get : W -> intq) (set : intq -> W -> W) (unblock : Z -> W -> res W) (Hset : forall q w, get (set q w) = q).

Lemma take_byte_ok w : intq_ok (get w) -> intq_empty (get w) = false ->
  exists q b, intq_ok q /\ contents (get w) = b :: contents q /\ lock q = lock (get w) /\ not_empty q = not_empty (get w) /\
    not_full q = not_full (get w) /\
    take_byte get set unblock w =
      match not_full (get w) with
      | None => Ret (set q w, b)
      | Some t => let! w := unblock t (set q w) in Ret (set (set_not_full None (get w)) w, b)
      end.
Proof using Hset.
  intros Hq He. pose proof (take_size _ Hq He) as Hsz. pose proof Hq as [Hb Hh Ht]. unfold take_byte. set (q := get w) in *.
  destruct (aget_in_range (buf q) (tail q)) as (b & -> & Hx); [lia|]. cbn [rbind]. unfold signal, holds, intq_full. rewrite Hset. cbn [head tail].
  rewrite bool_decide_false.
  2: { unfold intq_empty in He. apply bool_decide_eq_false in He. unfold next, INTQ_BUFSIZE. Z.div_mod_to_equations. lia. }
  cbn [negb assert_ rbind]. exists (mkIntq (lock q) (not_full q) (not_empty q) (buf q) (head q) (next (tail q))), b. split; [by split; [..|apply next_range]|]. split; [|split_and!; [done..|]].
  - unfold contents at 1. rewrite Hsz. rewrite seqZ_cons by (pose proof (Z.mod_pos_bound (head q - next (tail q)) 64); lia). simpl. f_equal.
    + rewrite Z.add_0_r, Z.mod_small by lia. by apply list_lookup_total_correct.
    + unfold contents, size. simpl. change (seqZ _ (Z.pred _)) with (seqZ (1 + 0) (Z.pred (1 + (head q - next (tail q)) mod 64))).
      rewrite <- (fmap_add_seqZ 1 0). rewrite <- list_fmap_compose. replace (Z.pred (1 + _)) with ((head q - next (tail q)) mod 64) by lia.
      apply list_fmap_ext. intros k x _. simpl. do 2 f_equal. unfold next, INTQ_BUFSIZE. rewrite Zplus_mod_idemp_l. f_equal. lia.
  - cbn [waiter not_full]. destruct (not_full q) as [t|]; [|done]. destruct (unblock t _); done.
Qed.

Lemma add_byte_ok w b : intq_ok (get w) -> intq_full (get w) = false ->
  exists q, intq_ok q /\ contents q = contents (get w) ++ [b] /\ lock q = lock (get w) /\ not_full q = not_full (get w) /\
    not_empty q = not_empty (get w) /\
    add_byte get set unblock b w =
      match not_empty (get w) with
      | None => Ret (set q w)
      | Some t => let! w := unblock t (set q w) in Ret (set (set_not_empty None (get w)) w)
      end.
Proof using Hset.
  intros Hq He. pose proof (put_size _ Hq He) as Hsz. pose proof Hq as [Hb Hh Ht]. unfold add_byte. set (q := get w) in *.
  rewrite aset_in_range by lia. cbn [rbind]. unfold signal, holds, intq_empty. rewrite Hset. cbn [head tail].
  rewrite bool_decide_false by (unfold intq_full in He; by apply bool_decide_eq_false in He). cbn [negb assert_ rbind].
  exists (mkIntq (lock q) (not_full q) (not_empty q) (<[Z.to_nat (head q) := b]> (buf q)) (next (head q)) (tail q)).
  split; [split; simpl; [by rewrite length_insert|apply next_range|done]|]. split; [|done].
  unfold contents. unfold size at 1. simpl. rewrite Hsz. assert (0 <= size q < 64) as Hs by (apply Z.mod_pos_bound; done).
  rewrite seqZ_app by lia. rewrite fmap_app. f_equal.
  - apply list_fmap_ext. intros k x Hx. apply lookup_seqZ in Hx as [-> Hx]. rewrite list_lookup_total_insert_ne; [done|].
    intros Heq. unfold size in Hx. revert Heq Hx. Z.div_mod_to_equations. lia.
  - rewrite Z.add_0_l, (seqZ_cons (size q) 1) by lia. cbn [fmap list_fmap Z.pred]. change (seqZ _ (Z.pred 1)) with (@nil Z). cbn [fmap list_fmap].
    f_equal. assert ((tail q + size q) mod 64 = head q) as -> by (unfold size; Z.div_mod_to_equations; lia).
    apply list_lookup_total_insert_eq. lia.
Qed.
End Queue.

(** ** One reader *)

(** The states of a system with the reader [t]. *)
Definition reader_ok (t : Z) (s : input) : Prop :=
  let q := buffer s in
  (readers s = ∅ /\ lock q = None /\ not_empty q = None) \/
  (readers s = {[t := AtTest]} /\ lock q = None /\ not_empty q = None) \/
  (readers s = {[t := InWait]} /\ lock q = Some t /\ not_empty q = Some t /\ intq_empty q = true) \/
  (readers s = {[t := Woken]} /\ lock q = Some t /\ not_empty q = None).

Record input_ok (t : Z) (s : input) : Prop := {
  in_queue : intq_ok (buffer s);
  in_not_full : not_full (buffer s) = None;
  in_order : accepted s = (snd <$> taken s) ++ contents (buffer s);
  in_reader : reader_ok t s
}.

(** The events: keys, whose interrupts do not wake a thread that is more important than
    the running one, and steps of the reader. *)
Definition single (t : Z) (e : event) : Prop := match e with Key _ _ higher => higher = false | Reader t' => t' = t end.

(** A byte enters the buffer, and the reader is woken. *)
Lemma accept_ok t s c : input_ok t s -> intq_full (buffer s) = false ->
  exists s', intq_putc buffer set_buffer (unblock_in_handler false) c (add_accepted c s) = Ret s' /\ input_ok t s' /\
    accepted s' = accepted s ++ [c] /\ taken s' = taken s.
Proof.
  intros [Hq Hf Ho Hr] Hfull. unfold intq_putc. change (buffer (add_accepted c s)) with (buffer s). rewrite Hfull.
  destruct (add_byte_ok buffer set_buffer (unblock_in_handler false)) with (w := add_accepted c s) (b := c) as (q & Hq' & Hc & Hl & Hn & He & ->); [done..|].
  cbn [buffer add_accepted] in *. unfold reader_ok in Hr.
  destruct Hr as [(Hr & Hk & Hw)|[(Hr & Hk & Hw)|[(Hr & Hk & Hw & _)|(Hr & Hk & Hw)]]]; rewrite Hw; cbn [unblock_in_handler rbind];
    (eexists; split; [done|]; split; [|done]); split; cbn; rewrite ?Hr, ?Hn; try done;
    try (change (contents (set_not_empty None q)) with (contents q)); try (by rewrite Ho, Hc, app_assoc).
  - left. cbn. by rewrite Hl, He, Hr.
  - right; left. cbn. by rewrite Hl, He, Hr.
  - by destruct Hq'.
  - do 3 right. cbn. by rewrite Hr, insert_singleton_eq, Hl.
  - do 3 right. cbn. by rewrite Hl, He, Hr.
Qed.

Lemma input_ok_keyboard t k s : input_ok t s -> input_ok t (set_keyboard k s).
Proof. by intros []. Qed.

Lemma key_ok t s first second : input_ok t s ->
  exists s', keyboard_interrupt first second false s = Ret s' /\ input_ok t s' /\ taken s' = taken s /\
    accepted s `sublist_of` accepted s'.
Proof.
  intros Hs. unfold keyboard_interrupt. destruct (interpret _ _) as [|c|k]; [by exists s|..].
  - destruct (intq_full (buffer s)) eqn:Hfull; [by exists s|].
    match goal with |- context [set_keyboard ?k s] => destruct (accept_ok t (set_keyboard k s) c (input_ok_keyboard t k s Hs) Hfull) as (s' & E & Hok & Ha & Ht) end.
    exists s'. split_and!; [done..|]. rewrite Ha. by apply sublist_inserts_r.
  - eexists. split; [done|]. split; [by apply input_ok_keyboard|done].
Qed.

Lemma reader_step_ok pre t s : input_ok t s -> exists s', input_getc pre t s = Ret s' /\ input_ok t s' /\ accepted s' = accepted s.
Proof.
  intros [Hq Hf Ho Hr]. unfold input_getc.
  destruct Hr as [(Hr & Hk & Hw)|[(Hr & Hk & Hw)|[(Hr & Hk & Hw & He)|(Hr & Hk & Hw)]]]; rewrite Hr, ?lookup_empty, ?lookup_singleton_eq; cbn [intq_getc].
  - eexists. split; [done|]. split; [|done]. split; try done. right; left. cbn. by rewrite insert_empty.
  - destruct (intq_empty (buffer s)) eqn:He.
    + unfold lock_and_wait, wait. rewrite Hk. simpl. change (intq_empty (set_lock (Some t) (buffer s))) with (intq_empty (buffer s)). rewrite He. simpl.
      eexists. split; [done|]. split; [|done]. split; cbn; [by split; apply Hq|done|done|]. do 2 right; left. cbn. by rewrite Hr, insert_singleton_eq.
    + destruct (take_byte_ok buffer set_buffer (fun t s => pre (wake t s))) with (w := s) as (q & b & Hq' & Hc & Hl & Hn & Hnf & ->); [done..|].
      rewrite Hf. cbn [rbind]. eexists. split; [done|]. split; [|done]. split; cbn; [done|congruence| |left; cbn; by rewrite Hr, delete_singleton_eq, Hl, Hn].
      by rewrite Ho, Hc, fmap_app, <- app_assoc.
  - exists s. split; [done|]. split; [|done]. split; try done. do 2 right; by left.
  - rewrite bool_decide_true by done. cbn [assert_ rbind]. eexists. split; [done|]. split; [|done].
    split; cbn; [by split; apply Hq|done|done|]. right; left. cbn. by rewrite Hr, insert_singleton_eq.
Qed.

Lemma input_init_ok t : input_ok t input_init.
Proof. split; [split; simpl; [done|lia..]|done|done|by left]. Qed.

Lemma run_events_ok pre t l : forall s, input_ok t s -> Forall (single t) l -> exists s', run_events pre l s = Ret s' /\ input_ok t s'.
Proof.
  induction l as [|e l IH]; intros s Hs Hl; simpl; [by exists s|]. apply Forall_cons in Hl as [He Hl].
  assert (exists s', do_event pre e s = Ret s' /\ input_ok t s') as (s' & -> & Hs').
  { destruct e as [first second higher|t']; simpl in He; subst; simpl.
    - destruct (key_ok t s first second Hs) as (s' & E & H & _). by exists s'.
    - destruct (reader_step_ok pre t s Hs) as (s' & E & H & _). by exists s'. }
  cbn [rbind]. by apply IH.
Qed.

(** The next byte is there for a reader that is in [input_getc]. *)
Lemma reader_takes pre t s b l : input_ok t s -> readers s = {[t := AtTest]} -> contents (buffer s) = b :: l ->
  exists s', input_getc pre t s = Ret s' /\ (t, b) ∈ taken s'.
Proof.
  intros [Hq Hf _ _] Hr Hc. unfold input_getc. rewrite Hr, lookup_singleton_eq. cbn [intq_getc].
  assert (He : intq_empty (buffer s) = false).
  { destruct (intq_empty (buffer s)) eqn:E; [|done]. apply contents_empty in E; [|done]. congruence. }
  rewrite He. destruct (take_byte_ok buffer set_buffer (fun t s => pre (wake t s))) with (w := s) as (q & b' & _ & Hb & _ & _ & _ & ->); [done..|].
  rewrite Hf. cbn [rbind]. eexists. split; [done|]. cbn. apply elem_of_app. right. apply list_elem_of_singleton. congruence.
Qed.

Lemma taken_grows pre t s s' : input_getc pre t s = Ret s' -> not_full (buffer s) = None -> taken s ⊆ taken s'.
Proof.
  unfold input_getc. intros H Hn. destruct (readers s !! t) as [p|]; [|by simplify_eq].
  destruct p; cbn [intq_getc] in H.
  - destruct (intq_empty (buffer s)).
    + unfold lock_and_wait, wait in H. rinv. destruct (lock (buffer s)); rinv; by simplify_eq.
    + unfold take_byte, signal in H. rinv. cbn [waiter not_full buffer set_buffer] in *. rewrite Hn in *. rinv. simplify_eq. cbn. set_solver.
  - case_bool_decide; [|by rinv; simplify_eq]. unfold lock_and_wait, wait in H. rinv. destruct (lock (buffer s)); rinv; by simplify_eq.
  - by rinv; simplify_eq.
  - by rinv; simplify_eq.
Qed.

Lemma reader_gets pre t s b l : input_ok t s -> is_Some (readers s !! t) -> contents (buffer s) = b :: l ->
  exists s', run_events pre [Reader t; Reader t] s = Ret s' /\ (t, b) ∈ taken s'.
Proof.
  intros Hs Hin Hc. pose proof Hs as [Hq Hf Ho Hr].
  destruct Hr as [(Hr & _ & _)|[(Hr & Hk & Hw)|[(Hr & Hk & Hw & He')|(Hr & Hk & Hw)]]].
  - rewrite Hr, lookup_empty in Hin. by destruct Hin.
  - destruct (reader_takes pre t s b l Hs Hr Hc) as (s1 & H1 & Hin1). cbn [run_events do_event]. rewrite H1. cbn [rbind].
    destruct (reader_step_ok pre t s Hs) as (s1' & H1' & Hs1 & _). rewrite H1 in H1'. injection H1' as <-.
    destruct (reader_step_ok pre t s1 Hs1) as (s2 & H2 & _). rewrite H2. exists s2. split; [done|].
    apply (taken_grows pre t s1 s2 H2); [by destruct Hs1|done].
  - apply contents_empty in He'; [congruence|done].
  - cbn [run_events do_event]. destruct (reader_step_ok pre t s Hs) as (s1 & H1 & Hs1 & _). rewrite H1. cbn [rbind].
    unfold input_getc in H1. rewrite Hr, lookup_singleton_eq in H1. cbn [intq_getc] in H1. rewrite bool_decide_true in H1 by done. cbn in H1.
    injection H1 as <-. destruct (reader_takes pre t _ b l Hs1) as (s2 & -> & Hin2); [cbn; by rewrite Hr, insert_singleton_eq|done|]. by exists s2.
Qed.

(** Keys are delivered in order: with one reader, whatever keys are pressed and whenever
    the reader runs, no assertion of the queue fails; the keys that were accepted are those
    the reader got, in order, followed by those in the buffer, which are at most 63; a
    reader sleeps only while the buffer is empty, and when it is not, two steps of a reader
    that has called [input_getc] are enough to get the next key.  The handler does not wake
    a more important thread than the one it interrupts; the reader wakes nobody, so nobody
    preempts it there. *)
Theorem keys_in_order pre t l : Forall (single t) l -> exists s, run_events pre l input_init = Ret s /\
  accepted s = (snd <$> taken s) ++ contents (buffer s) /\ (length (contents (buffer s)) <= 63)%nat /\
  (readers s !! t = Some InWait -> contents (buffer s) = []) /\
  (forall b rest, is_Some (readers s !! t) -> contents (buffer s) = b :: rest ->
     exists s', run_events pre [Reader t; Reader t] s = Ret s' /\ (t, b) ∈ taken s').
Proof.
  intros Hl. destruct (run_events_ok pre t l input_init (input_init_ok t) Hl) as (s & Hrun & Hs). exists s. split; [done|].
  pose proof Hs as [Hq Hf Ho Hr]. split; [done|]. split; [pose proof (queue_length (buffer s)); lia|]. split.
  - intros Hw. destruct Hr as [(Hr & _)|[(Hr & _)|[(_ & _ & _ & He)|(Hr & _)]]];
      [rewrite Hr in Hw; by rewrite ?lookup_empty, ?lookup_singleton_eq in Hw..|by apply contents_empty|].
    rewrite Hr, lookup_singleton_eq in Hw. done.
  - intros b rest Hin Hc. by eapply reader_gets.
Qed.

(** Two readers wait, and two keys come: the first reader, woken up, gives the lock to the
    second, which finds the buffer not empty. *)
Example two_readers_panic :
  run_events Ret [Reader 1; Reader 1; Reader 2; Reader 2; Key 0x1e 0 false; Key 0x1f 0 false; Reader 1; Reader 1; Reader 2] input_init = Panic.
Proof. by vm_compute. Qed.

Lemma keys_in_order_witness : exists s, run_events Ret [Reader 1; Reader 1; Key 0x2a 0 false; Key 0x1e 0 false; Key 0xaa 0 false; Reader 1; Reader 1; Key 0x1f 0 false] input_init = Ret s /\
  taken s = [(1, 65)] /\ accepted s = [65; 115].
Proof.
  destruct (keys_in_order Ret 1 [Reader 1; Reader 1; Key 0x2a 0 false; Key 0x1e 0 false; Key 0xaa 0 false; Reader 1; Reader 1; Key 0x1f 0 false]) as (s & H & _).
  - repeat constructor.
  - exists s. split; [exact H|]. vm_compute in H. injection H as <-. split; reflexivity.
Defined.

(** ** Characters *)

(** A letter key gives the letter, in upper case exactly when one of a shift key and
    Caps Lock is on, whatever the other keys do when neither Ctrl nor Alt is down; Ctrl with
    it gives the control character, and Alt sets the high bit.  The release of the key gives
    nothing. *)
Theorem letter_keys k code c : map_key invariant_keymap code = Some c -> 65 <= c <= 90 ->
  let shift := left_shift k || right_shift k in
  let alt := left_alt k || right_alt k in
  let ctrl := left_ctrl k || right_ctrl k in
  interpret (scan_code code 0) k =
    Char ((if ctrl then c - 64 else if xorb shift (caps_lock k) then c else c + 32) + (if alt then 128 else 0)) /\
  interpret (scan_code (code + 128) 0) k = NoKey.
Proof.
  intros Hc Hr. assert (code ∈ seqZ 1 0x39) as Hin.
  { assert (forall l n, map_key l n = Some c -> exists x, x ∈ l /\ x.1 <= n < x.1 + Z.of_nat (length x.2)) as Hk.
    { intros l n. induction l as [|[first chars] l IH]; simpl; [done|]. destruct (_ && _) eqn:E.
      - intros _. apply andb_prop in E as [E1 E2]. apply bool_decide_eq_true in E1, E2. eexists. split; [by left|]. simpl. lia.
      - intros (x & Hx & ?)%IH. exists x. split; [by right|done]. }
    apply Hk in Hc as (x & Hx & Hn). apply elem_of_seqZ. unfold invariant_keymap in Hx.
    repeat (apply elem_of_cons in Hx as [->|Hx]; [simpl in Hn; lia|]). by apply elem_of_nil in Hx. }
  assert (Forall (fun n => forall c, map_key invariant_keymap n = Some c -> 65 <= c <= 90 -> forall a1 a2 a3 a4 a5 a6 a7 cnt,
    let k := mkKbd a1 a2 a3 a4 a5 a6 a7 cnt in
    interpret (scan_code n 0) k = Char ((if a5 || a6 then c - 64 else if xorb (a1 || a2) a7 then c else c + 32) + (if a3 || a4 then 128 else 0)) /\
    interpret (scan_code (n + 128) 0) k = NoKey) (seqZ 1 0x39)) as Hall.
  { let l := eval vm_compute in (seqZ 1 0x39) in change (seqZ 1 0x39) with l.
    repeat (apply Forall_cons; split; [intros c0 Hc0 Hr0; vm_compute in Hc0; try discriminate Hc0; injection Hc0 as <-;
      try (exfalso; lia); intros [] [] [] [] [] [] [] cnt; split; reflexivity|]). apply Forall_nil. done. }
  rewrite Forall_forall in Hall. destruct k. by apply (Hall code Hin c).
Qed.

Lemma letter_keys_witness : interpret (scan_code 0x1e 0) (mkKbd true false false false false false false 0) = Char 65.
Proof. apply (letter_keys (mkKbd true false false false false false false 0) 0x1e 65); [vm_compute; reflexivity|lia]. Defined.
