(* ===== verification/Serial.v ===== *)
(** * devices/serial.c: the serial port

    The 16550A is a parameter, the class [UartBus]; [SerialProof.v] states what it promises.  The
    driver shares the input buffer with the keyboard, so its state contains that of
    [Input.v]: [input_putc] and [input_getc] end with [serial_notify] here.

    Interrupts are off inside the driver, so it runs in steps that end where a thread
    blocks: a call of [serial_putc] of thread [t] that has not returned is an entry of
    [writers].  [requested] is the sequence of the bytes of completed and blocked calls,
    [received] that of the bytes read from the port; they take no part in what the
    driver does.  [polls] bounds the busy-waiting of [putc_poll].  [preempted] is what the
    other threads do while a thread that woke a more important one waits in
    [thread_unblock], inside [signal], [preempted_input] the same for the input buffer; in
    an interrupt handler such a wake-up fails an assertion. *)

From S2P Require Import Prelude Kernel Input.
#[local] Open Scope Z_scope.

Class UartBus (hw : Type) := { uart_inb : Z -> hw -> Z * hw; uart_outb : Z -> Z -> hw -> hw }.

(** ** Registers *)

Definition IO_BASE : Z := 0x3f8.
Definition RBR_REG : Z := IO_BASE + 0.
Definition THR_REG : Z := IO_BASE + 0.
Definition IER_REG : Z := IO_BASE + 1.
Definition LS_REG : Z := IO_BASE + 0.
Definition MS_REG : Z := IO_BASE + 1.
Definition IIR_REG : Z := IO_BASE + 2.
Definition FCR_REG : Z := IO_BASE + 2.
Definition LCR_REG : Z := IO_BASE + 3.
Definition MCR_REG : Z := IO_BASE + 4.
Definition LSR_REG : Z := IO_BASE + 5.
Definition IER_RECV : Z := 0x01.
Definition IER_XMIT : Z := 0x02.
Definition LCR_N81 : Z := 0x03.
Definition LCR_DLAB : Z := 0x80.
Definition MCR_OUT2 : Z := 0x08.
Definition LSR_DR : Z := 0x01.
Definition LSR_THRE : Z := 0x20.

Inductive serial_mode := UNINIT | POLL | QUEUE.
#[export] Instance serial_mode_eq_dec : EqDecision serial_mode.
Proof. solve_decision. Defined.

(** A call of [serial_putc] inside [intq_putc]. *)
Record writer := mkWriter { w_point : point; w_byte : Z; w_old : intr_level }.

Section Serial.
Context {hw : Type} {B : UartBus hw} (polls : nat).

Record serial := mkSerial {
  mode : serial_mode;
  txq : intq;
  inp : input;
  sr_level : intr_level;
  registered : bool;             (* the handler of vector 0x24 *)
  writers : gmap Z writer;
  requested : list Z;
  received : list Z;
  sr_hw : hw
}.

Definition set_mode (m : serial_mode) (s : serial) : serial :=
  mkSerial m (txq s) (inp s) (sr_level s) (registered s) (writers s) (requested s) (received s) (sr_hw s).
Definition set_txq (q : intq) (s : serial) : serial :=
  mkSerial (mode s) q (inp s) (sr_level s) (registered s) (writers s) (requested s) (received s) (sr_hw s).
Definition set_inp (i : input) (s : serial) : serial :=
  mkSerial (mode s) (txq s) i (sr_level s) (registered s) (writers s) (requested s) (received s) (sr_hw s).
Definition set_slevel (l : intr_level) (s : serial) : serial :=
  mkSerial (mode s) (txq s) (inp s) l (registered s) (writers s) (requested s) (received s) (sr_hw s).
Definition set_registered (b : bool) (s : serial) : serial :=
  mkSerial (mode s) (txq s) (inp s) (sr_level s) b (writers s) (requested s) (received s) (sr_hw s).
Definition set_writers (w : gmap Z writer) (s : serial) : serial :=
  mkSerial (mode s) (txq s) (inp s) (sr_level s) (registered s) w (requested s) (received s) (sr_hw s).
Definition add_requested (b : Z) (s : serial) : serial :=
  mkSerial (mode s) (txq s) (inp s) (sr_level s) (registered s) (writers s) (requested s ++ [b]) (received s) (sr_hw s).
Definition add_received (b : Z) (s : serial) : serial :=
  mkSerial (mode s) (txq s) (inp s) (sr_level s) (registered s) (writers s) (requested s) (received s ++ [b]) (sr_hw s).
Definition set_shw (h : hw) (s : serial) : serial :=
  mkSerial (mode s) (txq s) (inp s) (sr_level s) (registered s) (writers s) (requested s) (received s) h.

Definition inb (port : Z) (s : serial) : Z * serial := let '(v, h) := uart_inb port (sr_hw s) in (v, set_shw h s).
Definition outb (port v : Z) (s : serial) : serial := set_shw (uart_outb port (u8 v) (sr_hw s)) s.

Context (preempted : serial -> res serial) (preempted_input : input -> res input).

(** ** Setting up *)

Definition set_serial (bps : Z) (s : serial) : res serial :=
  let base_rate := 1843200 / 16 in
  let divisor := u16 (base_rate / bps) in
  ASSERT (bool_decide (bps >= 300) && bool_decide (bps <= 115200));
  let s := outb LCR_REG (Z.lor LCR_N81 LCR_DLAB) s in
  let s := outb LS_REG (Z.land divisor 0xff) s in
  let s := outb MS_REG (Z.shiftr divisor 8) s in
  Ret (outb LCR_REG LCR_N81 s).

Definition init_poll (s : serial) : res serial :=
  ASSERT bool_decide (mode s = UNINIT);
  let s := outb IER_REG 0 s in
  let s := outb FCR_REG 0 s in
  let! s := set_serial 115200 s in
  let s := outb MCR_REG MCR_OUT2 s in
  Ret (set_mode POLL (set_txq intq_init s)).

Definition input_full (s : serial) : res bool :=
  ASSERT bool_decide (sr_level s = INTR_OFF); Ret (intq_full (buffer (inp s))).

Definition write_ier (s : serial) : res serial :=
  ASSERT bool_decide (sr_level s = INTR_OFF);
  let ier := 0 in
  let ier := if negb (intq_empty (txq s)) then Z.lor ier IER_XMIT else ier in
  let! full := input_full s in
  let ier := if negb full then Z.lor ier IER_RECV else ier in
  Ret (outb IER_REG ier s).

Definition serial_init_queue (s : serial) : res serial :=
  let! s := (if bool_decide (mode s = UNINIT) then init_poll s else Ret s) in
  ASSERT bool_decide (mode s = POLL);
  ASSERT (negb (registered s));
  let s := set_mode QUEUE (set_registered true s) in
  let old_level := sr_level s in
  let! s := write_ier (set_slevel INTR_OFF s) in
  Ret (set_slevel old_level s).

(** ** Output *)

Definition putc_poll (byte : Z) (s : serial) : res serial :=
  ASSERT bool_decide (sr_level s = INTR_OFF);
  let! s := iter polls (fun s => let '(v, s) := inb LSR_REG s in
                                 if bool_decide (Z.land v LSR_THRE = 0) then Ret (inl s) else Ret (inr s)) s in
  Ret (outb THR_REG byte s).

(** [thread_unblock] of the writer that waits for room, in a thread and in the handler. *)
Definition wake_writer (t : Z) (s : serial) : serial :=
  set_writers (alter (fun x => mkWriter Woken (w_byte x) (w_old x)) t (writers s)) s.
Definition unblock_in_thread (t : Z) (s : serial) : res serial := preempted (wake_writer t s).
Definition unblock_in_handler (higher : bool) (t : Z) (s : serial) : res serial := if higher then Panic else Ret (wake_writer t s).

(** [intq_getc] of a queue that is not empty. *)
Definition take_tx : serial -> res (serial * Z) := take_byte txq set_txq unblock_in_thread.
Definition take_tx_in_handler (higher : bool) : serial -> res (serial * Z) := take_byte txq set_txq (unblock_in_handler higher).

(** The byte goes into the queue, and [serial_putc] returns. *)
Definition putc_end (t : Z) (byte : Z) (old : intr_level) (s : serial) : res serial :=
  let! s := add_byte txq set_txq unblock_in_thread byte s in
  let! s := write_ier s in
  Ret (set_slevel old (set_writers (delete t (writers s)) s)).

(** [lock_acquire] and [wait] in [intq_putc] of thread [t]. *)
Definition putc_wait (t : Z) (byte : Z) (old : intr_level) (s : serial) : res serial :=
  let! '(q, o) := lock_and_wait NotFull t (txq s) in
  match o with
  | Moved p => Ret (set_writers (<[t := mkWriter p byte old]> (writers s)) (set_txq q s))
  | _ => Ret s
  end.

(** [intq_putc] of thread [t] from the test of its loop on. *)
Definition putc_test (t : Z) (byte : Z) (old : intr_level) (s : serial) : res serial :=
  if intq_full (txq s) then putc_wait t byte old s else putc_end t byte old s.

(** A new call of [serial_putc]. *)
Definition serial_putc (t : Z) (byte : Z) (s : serial) : res serial :=
  let s := add_requested byte s in
  let old_level := sr_level s in
  let s := set_slevel INTR_OFF s in
  if bool_decide (mode s <> QUEUE) then
    let! s := (if bool_decide (mode s = UNINIT) then init_poll s else Ret s) in
    let! s := putc_poll byte s in
    Ret (set_slevel old_level s)
  else
    let! s := (if bool_decide (old_level = INTR_OFF) && intq_full (txq s) then
                 let! '(s, b) := take_tx s in putc_poll b s
               else Ret s) in
    putc_test t byte old_level s.

(** The next step of a call that has not returned. *)
Definition putc_step (t : Z) (w : writer) (s : serial) : res serial :=
  let s := set_slevel INTR_OFF s in
  match w_point w with
  | AtTest => putc_test t (w_byte w) (w_old w) s
  | OnLock => if bool_decide (lock (txq s) = None) then putc_wait t (w_byte w) (w_old w) s else Ret s
  | InWait => Ret s
  | Woken => ASSERT bool_decide (lock (txq s) = Some t);
             Ret (set_writers (<[t := mkWriter AtTest (w_byte w) (w_old w)]> (writers s)) (set_txq (set_lock None (txq s)) s))
  end.

Definition serial_flush (s : serial) : res serial :=
  let old_level := sr_level s in
  let! s := iter (S (Z.to_nat INTQ_BUFSIZE)) (fun s =>
    if intq_empty (txq s) then Ret (inr s)
    else let! '(s, b) := take_tx s in let! s := putc_poll b s in Ret (inl s)) (set_slevel INTR_OFF s) in
  Ret (set_slevel old_level s).

(** ** Input *)

Definition serial_notify (s : serial) : res serial :=
  ASSERT bool_decide (sr_level s = INTR_OFF);
  if bool_decide (mode s = QUEUE) then write_ier s else Ret s.

Definition input_putc (higher : bool) (key : Z) (s : serial) : res serial :=
  ASSERT bool_decide (sr_level s = INTR_OFF);
  ASSERT (negb (intq_full (buffer (inp s))));
  let! i := intq_putc buffer set_buffer (Input.unblock_in_handler higher) key (add_accepted key (inp s)) in
  serial_notify (set_inp i s).

(** A step of [input_getc], which ends with [serial_notify] when it got a byte. *)
Definition input_getc (t : Z) (s : serial) : res serial :=
  let old_level := sr_level s in
  let! i := Input.input_getc preempted_input t (inp s) in
  let got := bool_decide (length (taken i) <> length (taken (inp s))) in
  let s := set_inp i (set_slevel INTR_OFF s) in
  let! s := (if got then serial_notify s else Ret s) in
  Ret (set_slevel old_level s).

(** [keyboard_interrupt], whose call of [input_putc] ends with [serial_notify]. *)
Definition keyboard_interrupt (first second : Z) (higher : bool) (s : serial) : res serial :=
  let! i := Input.keyboard_interrupt first second higher (inp s) in
  let put := bool_decide (length (accepted i) <> length (accepted (inp s))) in
  let s := set_inp i s in
  if put then serial_notify s else Ret s.

(** ** Interrupts *)

(** The two loops: at most one byte for every place in the input buffer, and in [txq]. *)
Definition receive (higher : bool) (s : serial) : res serial :=
  iter (S (Z.to_nat INTQ_BUFSIZE)) (fun s =>
    let! full := input_full s in
    if full then Ret (inr s)
    else
      let '(v, s) := inb LSR_REG s in
      if bool_decide (Z.land v LSR_DR = 0) then Ret (inr s)
      else
        let '(b, s) := inb RBR_REG s in
        let! s := input_putc higher b (add_received b s) in Ret (inl s)) s.

Definition transmit (higher : bool) (s : serial) : res serial :=
  iter (S (Z.to_nat INTQ_BUFSIZE)) (fun s =>
    if intq_empty (txq s) then Ret (inr s)
    else
      let '(v, s) := inb LSR_REG s in
      if bool_decide (Z.land v LSR_THRE = 0) then Ret (inr s)
      else let! '(s, b) := take_tx_in_handler higher s in Ret (inl (outb THR_REG b s))) s.

Definition serial_interrupt (higher : bool) (s : serial) : res serial :=
  let '(_, s) := inb IIR_REG s in
  let! s := receive higher s in
  let! s := transmit higher s in
  write_ier s.

(** ** The system *)

(** [higher]: the interrupt wakes a thread more important than the running one. *)
Inductive serial_event :=
| Putc (t byte : Z) (level : intr_level)   (* a call, or the next step of one that has not returned *)
| Flush (level : intr_level)
| InitQueue (level : intr_level)
| Interrupt (higher : bool)
| Keyboard (first second : Z) (higher : bool)
| Read (t : Z) (level : intr_level).

Definition do_serial (e : serial_event) (s : serial) : res serial :=
  match e with
  | Putc t byte l => match writers s !! t with None => serial_putc t byte (set_slevel l s) | Some w => putc_step t w s end
  | Flush l => serial_flush (set_slevel l s)
  | InitQueue l => serial_init_queue (set_slevel l s)
  | Interrupt higher => serial_interrupt higher (set_slevel INTR_OFF s)
  | Keyboard a b higher => keyboard_interrupt a b higher (set_slevel INTR_OFF s)
  | Read t l => input_getc t (set_slevel l s)
  end.

Fixpoint run_serial (l : list serial_event) (s : serial) : res serial :=
  match l with [] => Ret s | e :: l => let! s := do_serial e s in run_serial l s end.
End Serial.
