(* ===== verification/SerialProof.v ===== *)
(** * The serial port sends every byte once and in order

    The invariant [serial_ok] for a system with one thread [tw] that writes and one thread
    [tr] that reads: the bytes whose sending was requested are those that were sent, those
    in the queue and that of the call that waits; the interrupts the driver needs are
    enabled.  The queue and the readers are those of [InputProof.v].

    First comes what the 16550A promises with its FIFOs off, as the driver leaves it: its
    state, in the part of the data sheet that serial.c relies on, is the divisor latch bit,
    the interrupt enable register, whether the transmitter holding register is empty and,
    when it is not, a bound on the number of times the line status register has to be read
    until it is; the bytes that were sent; the receive buffer register, which holds one
    byte, the bytes that came over the line, and how many of them were overwritten in the
    register before they were read.  In the class [Uart] each access changes this state as
    the data sheet says, and [passes] is what may happen at any time besides: bytes arrive,
    each in the place of the one before, and the transmitter becomes ready. *)

From S2P Require Import Prelude Kernel Input InputProof Serial.
#[local] Open Scope Z_scope.

(** ** The port *)

Record uart := mkUart {
  u_dlab : bool;
  u_ier : Z;
  u_ready : bool;
  u_wait : nat;
  u_sent : list Z;
  u_rx : option Z;    (* the receive buffer register *)
  u_line : list Z;    (* everything that arrived *)
  u_lost : nat        (* the number of bytes overwritten in the register *)
}.

Definition flag (v f : Z) : bool := bool_decide (Z.land v f <> 0).

(** A byte arrives. *)
Definition arrive (u : uart) (b : Z) : uart :=
  mkUart (u_dlab u) (u_ier u) (u_ready u) (u_wait u) (u_sent u) (Some b) (u_line u ++ [b])
    (if u_rx u is Some _ then S (u_lost u) else u_lost u).

(** The receiver's part of the state, and what some bytes that arrive make of it. *)
Definition same_rx (u v : uart) : Prop := u_rx u = u_rx v /\ u_line u = u_line v /\ u_lost u = u_lost v.
Definition receives (u u' : uart) : Prop := exists l, same_rx u' (fold_left arrive l u).

Record passes (u u' : uart) : Prop := {
  ps_dlab : u_dlab u' = u_dlab u;
  ps_ier : u_ier u' = u_ier u;
  ps_sent : u_sent u' = u_sent u;
  ps_ready : u_ready u = true -> u_ready u' = true;
  ps_arrive : receives u u'
}.

Definition set_dlab (b : bool) (u : uart) : uart := mkUart b (u_ier u) (u_ready u) (u_wait u) (u_sent u) (u_rx u) (u_line u) (u_lost u).
Definition set_ier (v : Z) (u : uart) : uart := mkUart (u_dlab u) v (u_ready u) (u_wait u) (u_sent u) (u_rx u) (u_line u) (u_lost u).
Definition send (b : Z) (u : uart) : uart := mkUart (u_dlab u) (u_ier u) false (u_wait u) (u_sent u ++ [b]) (u_rx u) (u_line u) (u_lost u).
Definition read_rx (u : uart) : uart := mkUart (u_dlab u) (u_ier u) (u_ready u) (u_wait u) (u_sent u) None (u_line u) (u_lost u).

Class Uart (hw : Type) (B : UartBus hw) := {
  uart_of : hw -> uart;
  max_polls : nat;
  ua_wait h : (u_wait (uart_of h) <= max_polls)%nat;
  ua_lsr h :
    let u := uart_of h in let '(v, h') := uart_inb LSR_REG h in
    flag v LSR_THRE = u_ready u /\ flag v LSR_DR = bool_decide (is_Some (u_rx u)) /\ passes u (uart_of h') /\
    (u_ready u = false -> u_ready (uart_of h') = true \/ (u_wait (uart_of h') < u_wait u)%nat);
  ua_rbr h b :
    u_dlab (uart_of h) = false -> u_rx (uart_of h) = Some b ->
    fst (uart_inb RBR_REG h) = b /\ passes (read_rx (uart_of h)) (uart_of (snd (uart_inb RBR_REG h)));
  ua_iir h : passes (uart_of h) (uart_of (snd (uart_inb IIR_REG h)));
  ua_thr h v :
    u_dlab (uart_of h) = false -> u_ready (uart_of h) = true -> is_u8 v ->
    passes (send v (uart_of h)) (uart_of (uart_outb THR_REG v h));
  ua_ier h v : u_dlab (uart_of h) = false -> is_u8 v -> passes (set_ier v (uart_of h)) (uart_of (uart_outb IER_REG v h));
  ua_lcr h v : is_u8 v -> passes (set_dlab (flag v LCR_DLAB) (uart_of h)) (uart_of (uart_outb LCR_REG v h));
  ua_divisor h v port :
    u_dlab (uart_of h) = true -> port = LS_REG \/ port = MS_REG -> passes (uart_of h) (uart_of (uart_outb port v h));
  ua_control h v port : port = FCR_REG \/ port = MCR_REG -> passes (uart_of h) (uart_of (uart_outb port v h))
}.

(** ** The receiver *)

(** The bytes [got] from the port and the one in its register are bytes of the line, in
    order, and the others were overwritten. *)
Definition in_line (got : list Z) (u : uart) : Prop :=
  got ++ option_list (u_rx u) `sublist_of` u_line u /\
  length (u_line u) = (length got + length (option_list (u_rx u)) + u_lost u)%nat.

Lemma in_line_arrive got l : forall u, in_line got u -> in_line got (fold_left arrive l u).
Proof.
  induction l as [|b l IH]; intros u [H1 H2]; [by split|]. cbn [fold_left]. apply IH. unfold in_line. cbn. split.
  - apply sublist_app; [|done]. etrans; [|exact H1]. apply sublist_inserts_r. done.
  - rewrite length_app. destruct (u_rx u); cbn in *; lia.
Qed.

Lemma in_line_receives got u u' : receives u u' -> in_line got u -> in_line got u'.
Proof. intros (l & E1 & E2 & E3) H. unfold in_line. rewrite E1, E2, E3. by apply in_line_arrive. Qed.

Lemma in_line_read got b u : u_rx u = Some b -> in_line got u -> in_line (got ++ [b]) (read_rx u).
Proof. unfold in_line. intros -> [H1 H2]. cbn in *. rewrite app_nil_r, length_app. split; [done|cbn; lia]. Qed.

Lemma receives_refl u : receives u u.
Proof. by exists []. Qed.

Lemma arrive_same l : forall u v, same_rx u v -> same_rx (fold_left arrive l u) (fold_left arrive l v).
Proof.
  induction l as [|b l IH]; intros u v (E1 & E2 & E3); [done|]. cbn [fold_left]. apply IH. unfold same_rx. cbn. by rewrite E1, E2, E3.
Qed.

Lemma same_rx_trans u v w : same_rx u v -> same_rx v w -> same_rx u w.
Proof. unfold same_rx. intros (? & ? & ?) (? & ? & ?). split_and!; congruence. Qed.

Lemma receives_same u v w : same_rx v u -> receives v w -> receives u w.
Proof. intros E (l & H). exists l. eapply same_rx_trans; [exact H|by apply arrive_same]. Qed.

Lemma receives_trans u v w : receives u v -> receives v w -> receives u w.
Proof.
  intros (l & E) (l' & F). exists (l ++ l'). rewrite fold_left_app. eapply same_rx_trans; [exact F|by apply arrive_same].
Qed.

Lemma receives_holds u v : receives u v -> is_Some (u_rx u) -> is_Some (u_rx v).
Proof.
  intros (l & E & _ & _). rewrite E. clear E v. revert u. induction l as [|b l IH]; intros u Hu; [done|]. cbn [fold_left]. apply IH. by eexists.
Qed.

Section Port.
Context {hw : Type} {B : UartBus hw} {U : Uart hw B} (polls : nat) (Hpolls : (S max_polls < polls)%nat) (pin : input -> res input).
#[local] Abbreviation serial := (@serial hw).

Definition port (s : serial) : uart := uart_of (sr_hw s).

(** Time has passed and the bytes [out] were sent. *)
Record grown (u u' : uart) (out : list Z) : Prop := {
  gr_dlab : u_dlab u' = u_dlab u;
  gr_ier : u_ier u' = u_ier u;
  gr_sent : u_sent u' = u_sent u ++ out;
  gr_ready : out = [] -> u_ready u = true -> u_ready u' = true;
  gr_arrive : receives u u'
}.

Lemma passes_grown u u' : passes u u' -> grown u u' [].
Proof. intros [H1 H2 H3 H4 H5]. constructor; try done. by rewrite app_nil_r. Qed.

Lemma sent_grown b u u' : passes (send b u) u' -> grown u u' [b].
Proof. intros [P1 P2 P3 _ P5]. constructor; try done. by eapply receives_same; [|exact P5]. Qed.

Lemma grown_trans u1 u2 u3 o o' : grown u1 u2 o -> grown u2 u3 o' -> grown u1 u3 (o ++ o').
Proof.
  intros [A1 A2 A3 A6 A4] [B1 B2 B3 B6 B4]. constructor; try congruence.
  - by rewrite B3, A3, app_assoc.
  - intros [-> ->]%app_nil Hr. auto.
  - by eapply receives_trans.
Qed.

(** A write to a register that leaves the rest of the driver's state alone. *)
Lemma outb_port port' v (s : serial) : outb port' v s = set_shw (uart_outb port' (u8 v) (sr_hw s)) s.
Proof. done. Qed.
Lemma outb_shw port' v h (s : serial) : outb port' v (set_shw h s) = set_shw (uart_outb port' (u8 v) h) s.
Proof. done. Qed.

Lemma putc_poll_ok b (s : serial) : sr_level s = INTR_OFF -> u_dlab (port s) = false -> is_u8 b ->
  exists h, putc_poll polls b s = Ret (set_shw h s) /\ grown (port s) (uart_of h) [b].
Proof using Hpolls.
  intros Hl Hd Hb. unfold putc_poll. rewrite bool_decide_true by done. cbn [assert_ rbind].
  destruct (iter_total (fun s' => exists h, s' = set_shw h s /\ grown (port s) (uart_of h) [])
    (fun s' => if u_ready (port s') then 0%nat else S (u_wait (port s')))
    (fun s' => exists h, s' = set_shw h s /\ grown (port s) (uart_of h) [] /\ u_ready (uart_of h) = true)
    (fun s => let '(v, s) := inb LSR_REG s in if bool_decide (Z.land v LSR_THRE = 0) then Ret (inl s) else Ret (inr s)))
    with (fuel := polls) (s := s) as (s' & -> & h & -> & Hg & Hr).
  - intros s' (h & -> & Hg). unfold inb. cbn [sr_hw set_shw]. pose proof (ua_lsr h) as HL. destruct (uart_inb LSR_REG h) as [v h'].
    destruct HL as (Hv & _ & Hp & Hw). unfold flag in Hv. pose proof (grown_trans _ _ _ _ _ Hg (passes_grown _ _ Hp)) as Hg'.
    destruct (decide (Z.land v LSR_THRE = 0)) as [E|E].
    + left. rewrite bool_decide_true by done. rewrite bool_decide_false in Hv by auto. eexists. split; [reflexivity|]. split; [by exists h'|].
      unfold port. cbn [sr_hw set_shw]. rewrite <- Hv. destruct (Hw (eq_sym Hv)) as [->|Hlt]; [lia|]. destruct (u_ready (uart_of h')); lia.
    + right. rewrite bool_decide_false by done. rewrite bool_decide_true in Hv by done. eexists. split; [reflexivity|]. exists h'. split_and!; [done..|].
      by apply (ps_ready _ _ Hp).
  - exists (sr_hw s). split; [by destruct s|]. constructor; try done; [by rewrite app_nil_r|]. apply receives_refl.
  - unfold port. pose proof (ua_wait (sr_hw s)). destruct (u_ready (uart_of (sr_hw s))); lia.
  - cbn [rbind]. rewrite outb_port. cbn [sr_hw set_shw]. rewrite u8_small by (unfold is_u8 in Hb; lia).
    eexists. split; [reflexivity|]. change [b] with ([] ++ [b]). eapply grown_trans; [exact Hg|].
    apply sent_grown, ua_thr; [by rewrite (gr_dlab _ _ _ Hg)|done..].
Qed.

(** ** The interrupt enable register *)

Definition ier_for (s : serial) : Z :=
  Z.lor (if intq_empty (txq s) then 0 else IER_XMIT) (if intq_full (buffer (inp s)) then 0 else IER_RECV).

Lemma write_ier_ok (s : serial) : sr_level s = INTR_OFF -> u_dlab (port s) = false ->
  exists h, write_ier s = Ret (set_shw h s) /\ grown (set_ier (ier_for s) (port s)) (uart_of h) [].
Proof.
  intros Hl Hd. unfold write_ier, input_full. rewrite bool_decide_true by done. cbn [assert_ rbind].
  rewrite outb_port. eexists. split; [reflexivity|]. apply passes_grown.
  replace (u8 _) with (ier_for s) by (unfold ier_for; by destruct (intq_empty (txq s)), (intq_full (buffer (inp s)))).
  apply ua_ier; [done|]. unfold ier_for, is_u8. destruct (intq_empty (txq s)), (intq_full (buffer (inp s))); vm_compute; split; congruence.
Qed.

Lemma init_poll_ok (s : serial) : mode s = UNINIT -> u_dlab (port s) = false ->
  exists h, init_poll s = Ret (set_mode POLL (set_txq intq_init (set_shw h s))) /\ grown (set_ier 0 (port s)) (uart_of h) [].
Proof.
  intros Hm Hd. unfold init_poll, set_serial. rewrite !bool_decide_true by (done || lia). cbn [assert_ rbind andb].
  cbv zeta. rewrite (outb_port IER_REG 0 s), !outb_shw.
  set (h1 := uart_outb IER_REG (u8 0) (sr_hw s)). set (h2 := uart_outb FCR_REG (u8 0) h1).
  set (h3 := uart_outb LCR_REG (u8 (Z.lor LCR_N81 LCR_DLAB)) h2). set (h4 := uart_outb LS_REG _ h3). set (h5 := uart_outb MS_REG _ h4).
  set (h6 := uart_outb LCR_REG (u8 LCR_N81) h5). set (h7 := uart_outb MCR_REG (u8 MCR_OUT2) h6). exists h7. split; [reflexivity|].
  assert (G1 : passes (set_ier 0 (port s)) (uart_of h1)) by (apply (ua_ier (sr_hw s) 0); [done|unfold is_u8; lia]).
  assert (G2 : passes (uart_of h1) (uart_of h2)) by (apply ua_control; auto).
  assert (G3 : passes (set_dlab true (uart_of h2)) (uart_of h3)) by (apply (ua_lcr h2 0x83); unfold is_u8; lia).
  assert (G4 : passes (uart_of h3) (uart_of h4)) by (apply ua_divisor; [by rewrite (ps_dlab _ _ G3)|auto]).
  assert (G5 : passes (uart_of h4) (uart_of h5)) by (apply ua_divisor; [by rewrite (ps_dlab _ _ G4), (ps_dlab _ _ G3)|auto]).
  assert (G6 : passes (set_dlab false (uart_of h5)) (uart_of h6)) by (apply (ua_lcr h5 3); unfold is_u8; lia).
  assert (G7 : passes (uart_of h6) (uart_of h7)) by (apply ua_control; auto).
  clearbody h1 h2 h3 h4 h5 h6 h7. destruct G1 as [D1 I1 S1 Y1 R1], G2 as [D2 I2 S2 Y2 R2], G3 as [D3 I3 S3 Y3 R3],
    G4 as [D4 I4 S4 Y4 R4], G5 as [D5 I5 S5 Y5 R5], G6 as [D6 I6 S6 Y6 R6], G7 as [D7 I7 S7 Y7 R7].
  cbn in *. constructor; cbn; try congruence.
  - rewrite app_nil_r. congruence.
  - intros _ Hrdy. auto 10.
  - assert (K3 : receives (uart_of h2) (uart_of h3)) by (by eapply receives_same; [|exact R3]).
    assert (K6 : receives (uart_of h5) (uart_of h6)) by (by eapply receives_same; [|exact R6]).
    do 6 (eapply receives_trans; [eassumption|]). exact R7.
Qed.

(** ** The invariant *)

Context (tw tr : Z).

(** The bytes in order, with [x] taken from the queue and not sent yet and [y] to come. *)
Record core (x y : list Z) (s : serial) : Prop := {
  co_txq : intq_ok (txq s);
  co_ne : not_empty (txq s) = None;
  co_bytes : Forall is_u8 (requested s);
  co_order : requested s = u_sent (port s) ++ x ++ contents (txq s) ++ y;
  co_line : in_line (received s) (port s);
  co_inp : input_ok tr (inp s);
  co_dlab : u_dlab (port s) = false
}.

Definition pending (s : serial) : list Z := match writers s !! tw with Some w => [w_byte w] | None => [] end.

(** The writer waits inside [wait] only while the queue is full. *)
Definition writer_ok (s : serial) : Prop :=
  let q := txq s in
  (writers s = ∅ /\ lock q = None /\ not_full q = None) \/
  exists w, writers s = {[tw := w]} /\
    ((w_point w = AtTest /\ lock q = None /\ not_full q = None) \/
     (w_point w = InWait /\ lock q = Some tw /\ not_full q = Some tw /\ intq_full q = true) \/
     (w_point w = Woken /\ lock q = Some tw /\ not_full q = None)).

(** The interrupts the driver waits for are enabled. *)
Definition ier_ok (s : serial) : Prop :=
  (intq_empty (txq s) = false -> flag (u_ier (port s)) IER_XMIT = true) /\
  flag (u_ier (port s)) IER_RECV = negb (intq_full (buffer (inp s))).

Record serial_ok (s : serial) : Prop := {
  so_core : core [] (pending s) s;
  so_writer : writer_ok s;
  so_idle : mode s <> QUEUE -> intq_empty (txq s) = true /\ writers s = ∅;
  so_reg : registered s = bool_decide (mode s = QUEUE);
  so_ier : mode s = QUEUE -> ier_ok s;
  so_passed : received s `sublist_of` accepted (inp s)
}.

Lemma core_level x y l s : core x y s -> core x y (set_slevel l s).
Proof. by intros []. Qed.

(** The interrupt enable register does not matter for [core]. *)
Lemma core_grown_ier v o x y s h : core (o ++ x) y s -> grown (set_ier v (port s)) (uart_of h) o -> core x y (set_shw h s).
Proof.
  intros [C1 C2 C3 C4 C5 C6 C7] [G1 G2 G3 _ G4]. constructor; unfold port in *; cbn in *; try done.
  - rewrite G3, C4, <- !app_assoc. done.
  - eapply in_line_receives; [|exact C5]. by eapply receives_same; [|exact G4].
  - congruence.
Qed.

Lemma core_grown o x y s h : core (o ++ x) y s -> grown (port s) (uart_of h) o -> core x y (set_shw h s).
Proof. intros C G. apply (core_grown_ier (u_ier (port s)) o x y s h C). destruct G; constructor; try done. by eapply receives_same; [|exact gr_arrive0]. Qed.

Lemma write_ier_core x y s : core x y s -> sr_level s = INTR_OFF ->
  exists h, write_ier s = Ret (set_shw h s) /\ core x y (set_shw h s) /\ ier_ok (set_shw h s) /\ (u_ready (port s) = true -> u_ready (uart_of h) = true).
Proof.
  intros C Hl. destruct (write_ier_ok s Hl (co_dlab _ _ _ C)) as (h & -> & G). exists h. split; [reflexivity|].
  split; [by eapply (core_grown_ier _ [])|]. split; [|by apply (gr_ready _ _ _ G)]. destruct G as [_ G2 _ _ _]. unfold ier_ok, port in *. cbn in *. rewrite G2. unfold ier_for.
  destruct (intq_empty (txq s)), (intq_full (buffer (inp s))); split; done.
Qed.

(** The first byte of the queue is taken, and the writer that waited is woken. *)
Lemma take_byte_tx unblock y s : (forall t s, unblock t s = Ret (wake_writer t s)) -> core [] y s -> writer_ok s -> intq_empty (txq s) = false ->
  exists b q W, take_byte txq set_txq unblock s = Ret (set_writers W (set_txq q s), b) /\ is_u8 b /\
    core [b] y (set_writers W (set_txq q s)) /\ writer_ok (set_writers W (set_txq q s)) /\
    (length (contents q) < length (contents (txq s)))%nat /\ w_byte <$> W !! tw = w_byte <$> writers s !! tw /\
    (writers s = ∅ -> W = ∅) /\ intq_full q = false.
Proof.
  intros Hun [C1 C2 C3 C4 C5 C6 C7] Hw He.
  destruct (take_byte_ok txq set_txq unblock (fun _ _ => eq_refl) s C1 He) as (q & b & Hq & Hc & Hl & Hne & Hnf & ->).
  assert (Hfull : intq_full q = false).
  { rewrite full_length by done. pose proof (queue_length (txq s)) as Hle. rewrite Hc in Hle. simpl in Hle. apply bool_decide_eq_false. lia. }
  assert (Hb : is_u8 b). { rewrite C4, Hc in C3. apply Forall_app in C3 as [_ C3]. simpl in C3. by apply Forall_cons in C3 as [? _]. }
  assert (Hcore : forall W q', intq_ok q' -> contents q' = contents q -> not_empty q' = not_empty q -> core [b] y (set_writers W (set_txq q' s))).
  { intros W q' Hq' Hc' Hn'. constructor; cbn; try done; [congruence|]. rewrite C4, Hc, Hc'. done. }
  assert (Hlen : (length (contents q) < length (contents (txq s)))%nat) by (rewrite Hc; simpl; lia).
  destruct Hw as [(Hw1 & Hw2 & Hw3)|(w & Hw1 & [(Hp & Hw2 & Hw3)|[(Hp & Hw2 & Hw3 & Hf)|(Hp & Hw2 & Hw3)]])]; rewrite Hw3; cbn [rbind].
  - exists b, q, (writers s). split; [done|]. split_and!; try done; [by apply Hcore|]. left. cbn. rewrite Hl, Hnf. done.
  - exists b, q, (writers s). split; [done|]. split_and!; try done; [by apply Hcore|]. right. exists w. cbn. rewrite Hl, Hnf. auto.
  - rewrite Hun. cbn [rbind]. exists b, (set_not_full None q), {[tw := mkWriter Woken (w_byte w) (w_old w)]}.
    split; [unfold wake_writer; cbn; by rewrite Hw1, alter_singleton_eq|].
    split_and!; try done; [apply Hcore; [by destruct Hq|done..]| |by rewrite Hw1, !lookup_singleton_eq|by rewrite Hw1; intros ?%map_non_empty_singleton].
    right. eexists. split; [reflexivity|]. do 2 right. cbn. rewrite Hl. done.
  - exists b, q, (writers s). split; [done|]. split_and!; try done; [by apply Hcore|]. right. exists w. cbn. rewrite Hl, Hnf. split; [done|]. by do 2 right.
Qed.

Definition take_tx_ok := take_byte_tx (unblock_in_thread Ret).
Definition take_tx_handler_ok := take_byte_tx (unblock_in_handler false).

(** ** Output *)

(** [intq_putc] of byte [b] from the test on, when no other thread is in it. *)
Lemma putc_test_ok b old s : core [] [b] s -> sr_level s = INTR_OFF -> mode s = QUEUE -> registered s = true ->
  lock (txq s) = None -> not_full (txq s) = None -> (writers s = ∅ \/ exists w, writers s = {[tw := w]}) ->
  ier_ok s \/ intq_full (txq s) = false -> received s `sublist_of` accepted (inp s) ->
  exists s', putc_test Ret tw b old s = Ret s' /\ serial_ok s' /\ requested s' = requested s /\ received s' = received s /\ mode s' = QUEUE.
Proof.
  intros C Hl Hm Hr Hlock Hnf Hw Hier Hpass. unfold putc_test. destruct (intq_full (txq s)) eqn:Hfull.
  - unfold putc_wait, lock_and_wait, wait. rewrite Hlock. unfold holds. change (intq_full (set_lock (Some tw) (txq s))) with (intq_full (txq s)).
    rewrite Hfull. cbn [negb assert_ rbind]. eexists. split; [reflexivity|].
    assert (HW : <[tw := mkWriter InWait b old]> (writers s) = {[tw := mkWriter InWait b old]}).
    { destruct Hw as [->|[w ->]]; [by rewrite insert_empty|by rewrite insert_singleton_eq]. }
    rewrite HW. destruct C as [C1 C2 C3 C4 C5 C6 C7]. destruct Hier as [Hier|]; [|done]. split_and!; try done. constructor; try done.
    + unfold pending. cbn. rewrite lookup_singleton_eq. by constructor; try done; destruct C1.
    + right. eexists. split; [reflexivity|]. right. left. by cbn.
    + cbn. by rewrite Hr, Hm.
  - unfold putc_end. destruct C as [C1 C2 C3 C4 C5 C6 C7]. destruct (add_byte_ok txq set_txq (unblock_in_thread Ret) (fun _ _ => eq_refl) s b C1 Hfull) as (q & Hq & Hc & Hlk & Hnf' & Hne & ->).
    rewrite C2. cbn [rbind].
    assert (Cq : core [] [] (set_txq q s)) by (constructor; cbn; try done; [congruence|by rewrite C4, Hc, app_nil_r]).
    destruct (write_ier_core _ _ _ Cq Hl) as (h & -> & Ch & Hi & _). cbn [rbind]. eexists. split; [reflexivity|]. split_and!; try done.
    assert (HW : delete tw (writers s) = ∅) by (destruct Hw as [->|[w ->]]; [by rewrite delete_empty|by rewrite delete_singleton_eq]).
    constructor; try done.
    + unfold pending. cbn. rewrite HW, lookup_empty. by destruct Ch.
    + left. cbn. rewrite HW, Hlk, Hnf'. done.
    + cbn. by rewrite Hr, Hm.
Qed.

Lemma serial_ok_level l s : serial_ok s -> serial_ok (set_slevel l s).
Proof. intros [S1 S2 S3 S4 S5 S6]. constructor; try done. by apply core_level. Qed.

Lemma serial_putc_ok b s : serial_ok s -> is_u8 b -> writers s = ∅ ->
  exists s', serial_putc polls Ret tw b s = Ret s' /\ serial_ok s' /\ requested s' = requested s ++ [b] /\ received s' = received s /\
    (mode s' = QUEUE <-> mode s = QUEUE).
Proof using Hpolls.
  intros [[C1 C2 C3 C4 C5 C6 C7] Hw Hidle Hr Hi Hpass] Hb HW. unfold serial_putc. set (s0 := set_slevel INTR_OFF (add_requested b s)).
  assert (C0 : core [] [b] s0).
  { unfold pending in C4. rewrite HW, lookup_empty in C4. constructor; cbn; try done; [apply Forall_app; by split; [|constructor]|].
    rewrite C4, app_nil_r, <- app_assoc. done. }
  destruct Hw as [(_ & Hlock & Hnf)|(w & Hw & _)]; [|by rewrite HW in Hw; symmetry in Hw; apply map_non_empty_singleton in Hw].
  change (mode s0) with (mode s). destruct (decide (mode s = QUEUE)) as [Hm|Hm].
  - rewrite bool_decide_false by auto. rewrite bool_decide_true in Hr by done.
    assert (exists s1, (if bool_decide (sr_level (add_requested b s) = INTR_OFF) && intq_full (txq s0) then
                          let! '(s, b) := take_tx Ret s0 in putc_poll polls b s else Ret s0) = Ret s1 /\
              core [] [b] s1 /\ sr_level s1 = INTR_OFF /\ mode s1 = QUEUE /\ registered s1 = true /\ lock (txq s1) = None /\ not_full (txq s1) = None /\
              writers s1 = ∅ /\ requested s1 = requested s0 /\ received s1 = received s0 /\ (ier_ok s1 \/ intq_full (txq s1) = false) /\ inp s1 = inp s) as (s1 & -> & H1).
    { destruct (bool_decide (sr_level (add_requested b s) = INTR_OFF) && intq_full (txq s0)) eqn:Hc.
      - apply andb_true_iff in Hc as [_ Hfull].
        assert (He : intq_empty (txq s0) = false).
        { destruct (intq_empty (txq s0)) eqn:E; [|done]. apply (contents_empty _ C1) in E. rewrite full_length in Hfull by done. cbn in *. by rewrite E in Hfull. }
        unfold take_tx. destruct (take_tx_ok [b] s0) as (b0 & q & W & -> & Hb0 & Cq & Wq & _ & _ & HWq & Hnfull); [done|done|left; done|done|]. cbn [rbind].
        destruct (putc_poll_ok b0 (set_writers W (set_txq q s0))) as (h & -> & Hg); [done|by apply Cq|done|]. eexists. split; [reflexivity|].
        split; [by apply (core_grown [b0])|]. rewrite (HWq HW) in *. split_and!; try done; [..|by right];
          (destruct Wq as [(_ & ? & ?)|(w & Hw & _)]; [done|cbn in Hw; by symmetry in Hw; apply map_non_empty_singleton in Hw]).
      - eexists. split; [reflexivity|]. split_and!; try done. left. by apply Hi. }
    destruct H1 as (D1 & D2 & D3 & D4 & D5 & D6 & D7 & D8 & D9 & D10 & D11). cbn [rbind].
    destruct (putc_test_ok b (sr_level (add_requested b s)) s1) as (s' & -> & Hs' & E1 & E2 & E3); try done; [by left|by rewrite D9, D11|]. exists s'. split; [reflexivity|].
    split; [done|]. rewrite E1, E2, E3, D8, D9. done.
  - rewrite bool_decide_true by done. destruct (Hidle Hm) as [He _].
    assert (exists s1, (if bool_decide (mode s = UNINIT) then init_poll s0 else Ret s0) = Ret s1 /\ core [] [b] s1 /\ contents (txq s1) = [] /\ lock (txq s1) = None /\
              not_full (txq s1) = None /\ sr_level s1 = INTR_OFF /\ mode s1 <> QUEUE /\ registered s1 = registered s /\ writers s1 = ∅ /\ inp s1 = inp s /\
              requested s1 = requested s0 /\ received s1 = received s) as (s1 & -> & Cx & Ex & L1 & L2 & L3 & L4 & L5 & L6 & L7 & L8 & L9).
    { destruct (decide (mode s = UNINIT)) as [Hu|Hu].
      - rewrite bool_decide_true by done. destruct (init_poll_ok s0 Hu C7) as (h & -> & G). eexists. split; [reflexivity|].
        pose proof (core_grown_ier 0 [] [] [b] s0 h C0 G) as [K1 K2 K3 K4 K5 K6 K7]. split; [|done]. constructor; [|done|done| |done..].
        + split; cbn; [done|lia..].
        + apply (contents_empty _ C1) in He. change (contents (txq (set_shw h s0))) with (contents (txq s)) in K4. rewrite He in K4. exact K4.
      - rewrite bool_decide_false by done. eexists. split; [reflexivity|]. split_and!; try done. by apply (contents_empty _ C1). }
    cbn [rbind]. destruct (putc_poll_ok b s1) as (h & -> & G); [done|by apply Cx|done|]. cbn [rbind]. eexists. split; [reflexivity|]. split; [|done].
    assert (C1' : core [b] [] s1) by (destruct Cx as [K1 K2 K3 K4 K5 K6 K7]; constructor; try done; by rewrite K4, Ex).
    pose proof (core_grown [b] [] [] s1 h C1' G) as [K1 K2 K3 K4 K5 K6 K7].
    constructor; try done.
    + unfold pending. cbn. rewrite L6, lookup_empty. by constructor.
    + left. done.
    + intros _. split; [|done]. by apply (contents_empty _ (co_txq _ _ _ Cx)).
    + cbn. rewrite L5, Hr. by rewrite !bool_decide_false.
    + cbn. by rewrite L7, L9.
Qed.

Lemma pending_one s w : writers s = {[tw := w]} -> pending s = [w_byte w].
Proof. intros E. unfold pending. by rewrite E, lookup_singleton_eq. Qed.

Lemma putc_step_ok s w : serial_ok s -> writers s !! tw = Some w ->
  exists s', putc_step Ret tw w s = Ret s' /\ serial_ok s' /\ requested s' = requested s /\ received s' = received s /\ mode s' = QUEUE.
Proof.
  intros Hs Hlk. pose proof Hs as [C Hw Hidle Hr Hi Hpass].
  destruct Hw as [(E & _)|(w' & E & Hw)]; [by rewrite E, lookup_empty in Hlk|]. rewrite E, lookup_singleton_eq in Hlk. injection Hlk as ->.
  assert (Hm : mode s = QUEUE).
  { destruct (decide (mode s = QUEUE)); [done|]. destruct Hidle as [_ E']; [done|]. rewrite E in E'. by apply map_non_empty_singleton in E'. }
  rewrite bool_decide_true in Hr by done. rewrite (pending_one s w E) in C. unfold putc_step. destruct Hw as [(Hp & Hl & Hn)|[(Hp & Hl & Hn & Hf)|(Hp & Hl & Hn)]]; rewrite Hp.
  - destruct (putc_test_ok (w_byte w) (w_old w) (set_slevel INTR_OFF s)) as (s' & -> & Hs' & E1 & E2 & E3); try done;
      [by apply core_level|right; by exists w|left; by apply Hi|]. by exists s'.
  - eexists. split; [reflexivity|]. split; [|done]. by apply serial_ok_level.
  - change (lock (txq (set_slevel INTR_OFF s))) with (lock (txq s)). rewrite bool_decide_true by done. cbn [assert_ rbind].
    eexists. split; [reflexivity|]. split; [|done]. cbn [writers set_slevel txq]. rewrite E, insert_singleton_eq.
    destruct C as [C1 C2 C3 C4 C5 C6 C7]. constructor; try done.
    + rewrite (pending_one _ (mkWriter AtTest (w_byte w) (w_old w))) by done. constructor; try done. by destruct C1.
    + right. eexists. split; [reflexivity|]. left. by cbn.
    + cbn. by rewrite Hr, Hm.
Qed.

Lemma serial_flush_ok s : serial_ok s ->
  exists s', serial_flush polls Ret s = Ret s' /\ serial_ok s' /\ requested s' = requested s /\ received s' = received s /\ intq_empty (txq s') = true /\
    mode s' = mode s /\ pending s' = pending s.
Proof using Hpolls.
  intros [C Hw Hidle Hr Hi Hpass]. unfold serial_flush.
  destruct (iter_total (fun s' => core [] (pending s) s' /\ writer_ok s' /\ sr_level s' = INTR_OFF /\ mode s' = mode s /\ registered s' = registered s /\
                inp s' = inp s /\ u_ier (port s') = u_ier (port s) /\ requested s' = requested s /\ received s' = received s /\ pending s' = pending s /\
                (writers s = ∅ -> writers s' = ∅))
              (fun s' => length (contents (txq s')))
              (fun s' => core [] (pending s) s' /\ writer_ok s' /\ mode s' = mode s /\ registered s' = registered s /\ inp s' = inp s /\
                u_ier (port s') = u_ier (port s) /\ requested s' = requested s /\ received s' = received s /\ pending s' = pending s /\
                (writers s = ∅ -> writers s' = ∅) /\ intq_empty (txq s') = true)
              (fun s => if intq_empty (txq s) then Ret (inr s)
                        else let! '(s, b) := take_tx Ret s in let! s := putc_poll polls b s in Ret (inl s)))
    with (fuel := S (Z.to_nat INTQ_BUFSIZE)) (s := set_slevel INTR_OFF s) as (s1 & -> & K1 & K2 & K3 & K4 & K5 & K6 & K7 & K8 & K9 & K10 & K11).
  - intros s' (D1 & D2 & D3 & D4 & D5 & D6 & D7 & D8 & D9 & D10 & D11). destruct (intq_empty (txq s')) eqn:He.
    { right. eexists. split; [reflexivity|]. split_and!; done. }
    left. unfold take_tx. destruct (take_tx_ok (pending s) s' (fun _ _ => eq_refl) D1 D2 He) as (b & q & W & -> & Hb & Cq & Wq & Hlen & Hp & HW & _). cbn [rbind].
    destruct (putc_poll_ok b (set_writers W (set_txq q s')) D3 (co_dlab _ _ _ Cq) Hb) as (h & -> & G). cbn [rbind]. eexists. split; [reflexivity|].
    split; [|exact Hlen]. split; [by apply (core_grown [b])|]. split_and!; try done.
    + unfold port in *. cbn in *. destruct G as [_ G2 _ _ _]. rewrite G2. done.
    + unfold pending in *. cbn. rewrite <- D10. destruct (W !! tw), (writers s' !! tw); cbn in Hp; congruence.
    + intros E. apply HW, D11, E.
  - split; [by apply core_level|]. by split_and!.
  - pose proof (queue_length (txq (set_slevel INTR_OFF s))). change (Z.to_nat INTQ_BUFSIZE) with 64%nat. lia.
  - cbn [rbind]. eexists. split; [reflexivity|]. split_and!; try done. constructor; cbn; try done.
    + change (pending (set_slevel (sr_level s) s1)) with (pending s1). rewrite K9. by apply core_level.
    + intros Hm. split; [done|]. apply K10, Hidle. congruence.
    + by rewrite K4, Hr, K3.
    + intros Hm. destruct Hi as [_ Hi2]; [congruence|]. split; cbn; [by rewrite K11|]. unfold port in *. cbn. rewrite K6, K5. exact Hi2.
    + by rewrite K5, K8.
Qed.

Lemma serial_init_queue_ok s : serial_ok s -> mode s <> QUEUE ->
  exists s', serial_init_queue s = Ret s' /\ serial_ok s' /\ requested s' = requested s /\ received s' = received s /\ mode s' = QUEUE.
Proof.
  intros [C Hw Hidle Hr Hi Hpass] Hm. destruct (Hidle Hm) as [He HW]. rewrite bool_decide_false in Hr by done. unfold serial_init_queue.
  destruct Hw as [(_ & Hlock & Hnf)|(w & Hw & _)]; [|by rewrite HW in Hw; symmetry in Hw; apply map_non_empty_singleton in Hw].
  unfold pending in C. rewrite HW, lookup_empty in C.
  assert (exists s1, (if bool_decide (mode s = UNINIT) then init_poll s else Ret s) = Ret s1 /\ core [] [] s1 /\ lock (txq s1) = None /\ not_full (txq s1) = None /\
            mode s1 = POLL /\ registered s1 = false /\ writers s1 = ∅ /\ requested s1 = requested s /\ received s1 = received s /\ inp s1 = inp s) as (s1 & -> & D1 & D2 & D3 & D4 & D5 & D6 & D7 & D8 & D9).
  { destruct (mode s) eqn:Em; [| |done].
    - rewrite bool_decide_true by done. destruct (init_poll_ok s Em (co_dlab _ _ _ C)) as (h & -> & G). eexists. split; [reflexivity|].
      pose proof (core_grown_ier 0 [] [] [] s h C G) as [K1 K2 K3 K4 K5 K6 K7]. split; [|done]. constructor; [|done|done| |done..].
      + split; cbn; [done|lia..].
      + apply (contents_empty _ (co_txq _ _ _ C)) in He. change (contents (txq (set_shw h s))) with (contents (txq s)) in K4. rewrite He in K4. exact K4.
    - rewrite bool_decide_false by done. eexists. split; [reflexivity|]. done. }
  cbn [rbind]. rewrite bool_decide_true by done. rewrite D5. cbn [assert_ rbind negb].
  set (s2 := set_slevel INTR_OFF _). assert (C2 : core [] [] s2) by (by destruct D1; constructor).
  destruct (write_ier_core _ _ s2 C2 eq_refl) as (h & -> & Ch & Hier & _). cbn [rbind]. eexists. split; [reflexivity|]. split_and!; try done.
  constructor; try done.
  - unfold pending. cbn. rewrite D6, lookup_empty. by destruct Ch.
  - by left.
  - cbn. by rewrite D8, D9.
Qed.

(** ** Input *)

Lemma serial_notify_ok y s : core [] y s -> sr_level s = INTR_OFF ->
  exists h, serial_notify s = Ret (set_shw h s) /\ core [] y (set_shw h s) /\ (mode s = QUEUE -> ier_ok (set_shw h s)) /\ (u_ready (port s) = true -> u_ready (uart_of h) = true).
Proof.
  intros C Hl. unfold serial_notify. rewrite bool_decide_true by done. cbn [assert_ rbind]. destruct (decide (mode s = QUEUE)) as [Hm|Hm].
  - rewrite bool_decide_true by done. destruct (write_ier_core _ _ _ C Hl) as (h & -> & ? & ? & ?). by exists h.
  - rewrite bool_decide_false by done. exists (sr_hw s). assert (set_shw (sr_hw s) s = s) as -> by (by destruct s). by split_and!.
Qed.

Lemma input_putc_ok y s c : core [] y s -> sr_level s = INTR_OFF -> intq_full (buffer (inp s)) = false ->
  exists i h, input_putc false c s = Ret (set_shw h (set_inp i s)) /\ core [] y (set_shw h (set_inp i s)) /\
    (mode s = QUEUE -> ier_ok (set_shw h (set_inp i s))) /\ length (contents (buffer i)) = S (length (contents (buffer (inp s)))) /\ accepted i = accepted (inp s) ++ [c] /\
    (u_ready (port s) = true -> u_ready (uart_of h) = true).
Proof.
  intros C Hl Hf. pose proof C as [C1 C2 C3 C4 C5 C6 C7]. unfold input_putc. rewrite bool_decide_true by done. rewrite Hf. cbn [assert_ rbind negb].
  destruct (accept_ok tr (inp s) c C6 Hf) as (i & -> & Hok & Ha & Ht). cbn [rbind]. assert (Ci : core [] y (set_inp i s)) by (by constructor).
  destruct (serial_notify_ok y _ Ci Hl) as (h & -> & Ch & Hi & Hrdy). exists i, h. split; [reflexivity|]. split_and!; try done.
  pose proof (in_order _ _ C6) as O1. pose proof (in_order _ _ Hok) as O2. rewrite Ha, Ht in O2. apply (f_equal length) in O1, O2.
  rewrite length_app in O1. rewrite 2!length_app in O2. cbn [length] in O2. lia.
Qed.

Lemma inb_lsr s : exists v h, inb LSR_REG s = (v, set_shw h s) /\ flag v LSR_THRE = u_ready (port s) /\
  flag v LSR_DR = bool_decide (is_Some (u_rx (port s))) /\ passes (port s) (uart_of h).
Proof.
  unfold inb. pose proof (ua_lsr (sr_hw s)) as HL. destruct (uart_inb LSR_REG (sr_hw s)) as [v h]. destruct HL as (Ht & Hv & Hp & _). by exists v, h.
Qed.

Lemma receive_ok y s : core [] y s -> writer_ok s -> sr_level s = INTR_OFF -> mode s = QUEUE -> received s `sublist_of` accepted (inp s) ->
  exists s', receive false s = Ret s' /\ core [] y s' /\ writer_ok s' /\ sr_level s' = INTR_OFF /\ mode s' = QUEUE /\ registered s' = registered s /\
    requested s' = requested s /\ txq s' = txq s /\ writers s' = writers s /\ (u_ready (port s) = true -> u_ready (port s') = true) /\
    received s' `sublist_of` accepted (inp s').
Proof.
  intros C Hw Hl Hm Hpass.
  destruct (iter_total (fun s' => core [] y s' /\ sr_level s' = INTR_OFF /\ mode s' = QUEUE /\ registered s' = registered s /\ requested s' = requested s /\
                          txq s' = txq s /\ writers s' = writers s /\ (u_ready (port s) = true -> u_ready (port s') = true) /\
                          received s' `sublist_of` accepted (inp s'))
              (fun s' => (64 - length (contents (buffer (inp s'))))%nat)
              (fun s' => core [] y s' /\ sr_level s' = INTR_OFF /\ mode s' = QUEUE /\ registered s' = registered s /\ requested s' = requested s /\
                          txq s' = txq s /\ writers s' = writers s /\ (u_ready (port s) = true -> u_ready (port s') = true) /\
                          received s' `sublist_of` accepted (inp s'))
              (fun s => let! full := input_full s in
                if full then Ret (inr s)
                else let '(v, s) := inb LSR_REG s in
                     if bool_decide (Z.land v LSR_DR = 0) then Ret (inr s)
                     else let '(b, s) := inb RBR_REG s in
                          let! s := input_putc false b (add_received b s) in Ret (inl s)))
    with (fuel := S (Z.to_nat INTQ_BUFSIZE)) (s := s) as (s1 & E1 & K1 & K2 & K3 & K4 & K5 & K6 & K7 & K8 & K9); [|done| |].
  - intros s' (D1 & D2 & D3 & D4 & D5 & D6 & D7 & D8 & D9). unfold input_full. rewrite bool_decide_true by done. cbn [assert_ rbind].
    destruct (intq_full (buffer (inp s'))) eqn:Hf; [right; eexists; split; [reflexivity|done]|].
    destruct (inb_lsr s') as (v & h & -> & _ & Hv & Hp).
    pose proof (core_grown [] [] y s' h D1 (passes_grown _ _ Hp)) as Ch. unfold flag in Hv.
    destruct (decide (Z.land v LSR_DR = 0)) as [Ez|Ez].
    { right. rewrite bool_decide_true by done. eexists. split; [reflexivity|]. split_and!; try done. intros Hrdy. by apply (ps_ready _ _ Hp), D8. }
    left. rewrite bool_decide_false by done. rewrite bool_decide_true in Hv by done.
    assert (is_Some (u_rx (uart_of h))) as [b Hrx].
    { apply (receives_holds (port s')); [exact (ps_arrive _ _ Hp)|]. symmetry in Hv. by apply bool_decide_eq_true in Hv. }
    destruct (ua_rbr h b) as [Eb Hp2]; [apply Ch|done|]. unfold inb. cbn [sr_hw set_shw]. destruct (uart_inb RBR_REG h) as [b' h'].
    cbn [fst snd] in *. subst b'.
    set (s2 := add_received b (set_shw h' (set_shw h s'))).
    assert (C2 : core [] y s2).
    { destruct Ch as [X1 X2 X3 X4 X5 X6 X7]. destruct Hp2 as [Y1 Y2 Y3 _ Y4]. unfold port in *. cbn in *.
      constructor; unfold port; cbn; try done; [congruence| |congruence]. eapply in_line_receives; [exact Y4|]. by apply in_line_read. }
    destruct (input_putc_ok y s2 b C2 D2 Hf) as (i & h2 & -> & C3 & _ & Hlen & Hacc & Hrdy2). cbn [rbind]. eexists. split; [reflexivity|].
    split; [split_and!; try done; [intros Hrdy; by apply Hrdy2, (ps_ready _ _ Hp2), (ps_ready _ _ Hp), D8|cbn; rewrite Hacc; by apply sublist_app]|]. cbn [inp set_shw set_inp]. change (inp s2) with (inp s') in Hlen.
    rewrite full_length in Hf by apply (co_inp _ _ _ D1). apply bool_decide_eq_false in Hf. pose proof (queue_length (buffer (inp s'))). lia.
  - change (Z.to_nat INTQ_BUFSIZE) with 64%nat. lia.
  - exists s1. split; [exact E1|]. split_and!; try done. unfold writer_ok in *. by rewrite K6, K7.
Qed.

Lemma transmit_ok y s : core [] y s -> writer_ok s -> sr_level s = INTR_OFF ->
  exists s', transmit false s = Ret s' /\ core [] y s' /\ writer_ok s' /\ sr_level s' = INTR_OFF /\ mode s' = mode s /\ registered s' = registered s /\
    requested s' = requested s /\ w_byte <$> writers s' !! tw = w_byte <$> writers s !! tw /\ received s' = received s /\ inp s' = inp s /\
    (u_ready (port s) = true -> intq_empty (txq s) = false -> (length (contents (txq s')) < length (contents (txq s)))%nat /\ not_full (txq s') = None).
Proof.
  intros C Hw Hl. set (D := fun s' : serial => core [] y s' /\ writer_ok s' /\ sr_level s' = INTR_OFF /\ mode s' = mode s /\ registered s' = registered s /\
    requested s' = requested s /\ w_byte <$> writers s' !! tw = w_byte <$> writers s !! tw /\ received s' = received s /\ inp s' = inp s).
  set (sent := fun s' : serial => (length (contents (txq s')) < length (contents (txq s)))%nat /\ not_full (txq s') = None).
  destruct (iter_total (fun s' => D s' /\ (s' = s \/ sent s')) (fun s' => length (contents (txq s')))
              (fun s' => D s' /\ (u_ready (port s) = true -> intq_empty (txq s) = false -> sent s'))
              (fun s => if intq_empty (txq s) then Ret (inr s)
                        else let '(v, s) := inb LSR_REG s in
                             if bool_decide (Z.land v LSR_THRE = 0) then Ret (inr s)
                             else let! '(s, b) := take_tx_in_handler false s in Ret (inl (outb THR_REG b s))))
    with (fuel := S (Z.to_nat INTQ_BUFSIZE)) (s := s) as (s1 & E1 & (K1 & K2 & K3 & K4 & K5 & K6 & K7 & K9 & K10) & K8).
  - intros s' ((D1 & D2 & D3 & D4 & D5 & D6 & D7 & D8 & D9) & Hs). destruct (intq_empty (txq s')) eqn:He.
    { right. eexists. split; [reflexivity|]. split; [by split_and!|]. intros _ Hne. destruct Hs as [->|Hs]; [congruence|done]. }
    destruct (inb_lsr s') as (v & h & -> & Hv & _ & Hp). unfold flag in Hv. pose proof (core_grown [] [] y s' h D1 (passes_grown _ _ Hp)) as Ch.
    destruct (decide (Z.land v LSR_THRE = 0)) as [Ez|Ez].
    { right. rewrite bool_decide_true by done. rewrite bool_decide_false in Hv by auto. eexists. split; [reflexivity|]. split; [by split_and!|].
      intros Hr _. destruct Hs as [->|Hs]; [congruence|done]. }
    left. rewrite bool_decide_false by done. rewrite bool_decide_true in Hv by done.
    unfold take_tx_in_handler. destruct (take_tx_handler_ok y (set_shw h s') (fun _ _ => eq_refl) Ch D2 He) as (b & q & W & -> & Hb & Cq & Wq & Hlen & Hpd & _ & Hnf). cbn [rbind]. eexists. split; [reflexivity|].
    rewrite outb_port. cbn [sr_hw set_writers set_txq set_shw]. rewrite u8_small by (unfold is_u8 in Hb; lia).
    assert (G : grown (uart_of h) (uart_of (uart_outb THR_REG b h)) [b]).
    { apply sent_grown, ua_thr; [apply Ch|by apply (ps_ready _ _ Hp)|done]. }
    split; [|exact Hlen]. split.
    + split; [by apply (core_grown [b])|]. split_and!; try done. cbn. by rewrite Hpd.
    + right. split; cbn; [destruct Hs as [->|[Hs _]]; [exact Hlen|cbn in Hlen; lia]|].
      destruct Wq as [(_ & _ & ?)|(w & _ & [(_ & _ & ?)|[(_ & _ & _ & Hf)|(_ & _ & ?)]])]; try done. cbn in Hf. congruence.
  - split; [by split_and!|by left].
  - pose proof (queue_length (txq s)). change (Z.to_nat INTQ_BUFSIZE) with 64%nat. lia.
  - exists s1. split; [exact E1|]. by split_and!.
Qed.

Lemma pending_same s s' : w_byte <$> writers s' !! tw = w_byte <$> writers s !! tw -> pending s' = pending s.
Proof. unfold pending. destruct (writers s' !! tw), (writers s !! tw); cbn; congruence. Qed.

Lemma serial_interrupt_ok s : serial_ok s -> mode s = QUEUE ->
  exists s', serial_interrupt false (set_slevel INTR_OFF s) = Ret s' /\ serial_ok s' /\ requested s' = requested s /\ mode s' = QUEUE /\ pending s' = pending s /\
    (u_ready (port s) = true -> intq_empty (txq s) = false -> not_full (txq s') = None).
Proof.
  intros [C Hw Hidle Hr Hi Hpass] Hm. unfold serial_interrupt, inb. cbn [sr_hw set_slevel]. pose proof (ua_iir (sr_hw s)) as Hp.
  destruct (uart_inb IIR_REG (sr_hw s)) as [v h]. cbn [snd] in Hp. set (s1 := set_shw h _).
  assert (C1 : core [] (pending s) s1) by (apply (core_grown [] [] (pending s) _ h (core_level _ _ INTR_OFF _ C)), passes_grown, Hp).
  destruct (receive_ok _ s1 C1 Hw eq_refl Hm Hpass) as (s2 & -> & C2 & W2 & L2 & M2 & R2 & Q2 & T2 & V2 & Y2 & P2). cbn [rbind].
  destruct (transmit_ok _ s2 C2 W2 L2) as (s3 & -> & C3 & W3 & L3 & M3 & R3 & Q3 & V3 & G3 & I3 & Hgo). cbn [rbind].
  destruct (write_ier_core _ _ s3 C3 L3) as (h' & -> & C4 & Hier & _). eexists. split; [reflexivity|]. cbn.
  assert (mode s3 = QUEUE) as M3' by congruence. assert (Hpd : pending (set_shw h' s3) = pending s) by (apply pending_same; cbn; by rewrite V3, V2).
  split_and!; [|by rewrite Q3, Q2|done|exact Hpd|].
  - constructor; try done; [by rewrite Hpd| |cbn; by rewrite G3, I3]. cbn. rewrite R3, R2, M3'. cbn. by rewrite Hr, Hm.
  - intros Hrdy He. rewrite T2 in Hgo. destruct Hgo as [_ ?]; [|done|done]. by apply Y2, (ps_ready _ _ Hp).
Qed.

(** Whether the buffer is full depends on the number of bytes in it. *)
Lemma full_same i i' : input_ok tr i -> input_ok tr i' -> length (accepted i) = length (accepted i') -> length (taken i) = length (taken i') ->
  intq_full (buffer i) = intq_full (buffer i').
Proof.
  intros H H' Ea Et. rewrite !full_length by (apply H || apply H'). pose proof (in_order _ _ H) as O1. pose proof (in_order _ _ H') as O2.
  apply (f_equal length) in O1, O2. rewrite length_app, length_fmap in O1. rewrite length_app, length_fmap in O2. apply bool_decide_ext. lia.
Qed.

(** The input changed; [notified] tells whether [serial_notify] was called. *)
Lemma notify_ok i notified s : serial_ok s -> input_ok tr i -> sr_level s = INTR_OFF -> received s `sublist_of` accepted i ->
  (notified = false -> intq_full (buffer i) = intq_full (buffer (inp s))) ->
  exists s', (if notified : bool then serial_notify (set_inp i s) else Ret (set_inp i s)) = Ret s' /\ serial_ok s' /\
    requested s' = requested s /\ received s' = received s /\ mode s' = mode s.
Proof.
  intros [C Hw Hidle Hr Hi _] Hin Hl Hpass Hf. assert (Ci : core [] (pending s) (set_inp i s)) by (by destruct C; constructor).
  destruct notified.
  - destruct (serial_notify_ok _ _ Ci Hl) as (h & -> & Ch & Hi' & _). eexists. split; [reflexivity|]. split; [|done]. by constructor.
  - eexists. split; [reflexivity|]. split; [|done]. constructor; try done. intros Hm. destruct (Hi Hm) as [I1 I2].
    split; [exact I1|]. cbn. rewrite (Hf eq_refl). exact I2.
Qed.

Lemma keyboard_ok a b s : serial_ok s ->
  exists s', keyboard_interrupt a b false (set_slevel INTR_OFF s) = Ret s' /\ serial_ok s' /\ requested s' = requested s /\ received s' = received s /\ mode s' = mode s.
Proof.
  intros Hs. pose proof (co_inp _ _ _ (so_core _ Hs)) as Hin. unfold keyboard_interrupt. cbn [inp set_slevel].
  destruct (key_ok tr (inp s) a b Hin) as (i & E & Hi & Ht & Ha). rewrite E. cbn [rbind].
  destruct (notify_ok i (bool_decide (length (accepted i) <> length (accepted (inp s)))) (set_slevel INTR_OFF s)) as (s' & -> & H); try done.
  - by apply serial_ok_level.
  - etrans; [exact (so_passed _ Hs)|exact Ha].
  - intros Hn. apply bool_decide_eq_false, dec_stable in Hn. apply full_same; try done. by rewrite Ht.
  - by exists s'.
Qed.

Lemma read_ok s : serial_ok s ->
  exists s', input_getc pin tr s = Ret s' /\ serial_ok s' /\ requested s' = requested s /\ received s' = received s /\ mode s' = mode s.
Proof.
  intros Hs. pose proof (co_inp _ _ _ (so_core _ Hs)) as Hin. unfold input_getc.
  destruct (reader_step_ok pin tr (inp s) Hin) as (i & E & Hi & Ha). rewrite E. cbn [rbind].
  destruct (notify_ok i (bool_decide (length (taken i) <> length (taken (inp s)))) (set_slevel INTR_OFF s)) as (s' & -> & H1 & H2); try done.
  - by apply serial_ok_level.
  - rewrite Ha. exact (so_passed _ Hs).
  - intros Hn. apply bool_decide_eq_false, dec_stable in Hn. apply full_same; try done. by rewrite Ha.
  - cbn [rbind]. eexists. split; [reflexivity|]. split; [by apply serial_ok_level|done].
Qed.

(** ** Runs *)

(** What may happen before [serial_init_queue], and after it. *)
Definition early (e : serial_event) : Prop :=
  match e with
  | Putc t byte _ => t = tw /\ is_u8 byte
  | Flush _ => True
  | Keyboard _ _ higher => higher = false
  | Read t _ => t = tr
  | _ => False
  end.
Definition late (e : serial_event) : Prop := match e with Interrupt higher => higher = false | _ => early e end.

Lemma event_ok e s : serial_ok s -> late e -> (mode s = QUEUE \/ early e) ->
  exists s', do_serial polls Ret pin e s = Ret s' /\ serial_ok s' /\ (mode s' = QUEUE <-> mode s = QUEUE).
Proof using Hpolls.
  intros Hs He Hm. destruct e as [t b l|l|l|higher|a b higher|t l]; cbn [do_serial] in *; try (cbn in He; done).
  - destruct He as [-> Hb]. destruct (writers s !! tw) as [w|] eqn:Ew.
    + destruct (putc_step_ok s w Hs Ew) as (s' & -> & Hs' & _ & _ & Em). exists s'. split; [reflexivity|]. split; [done|]. split; [|done]. intros _.
      destruct (decide (mode s = QUEUE)) as [|Hne]; [done|]. destruct (so_idle _ Hs Hne) as [_ E]. by rewrite E, lookup_empty in Ew.
    + destruct (serial_putc_ok b (set_slevel l s) (serial_ok_level l s Hs) Hb) as (s' & -> & Hs' & _ & _ & Em); [|by exists s'].
      destruct (so_writer _ Hs) as [(? & _)|(w & E & _)]; [done|]. by rewrite E, lookup_singleton_eq in Ew.
  - destruct (serial_flush_ok (set_slevel l s) (serial_ok_level l s Hs)) as (s' & -> & Hs' & _ & _ & _ & Em & _). exists s'. cbn in Em. by rewrite Em.
  - cbn in He. subst. destruct Hm as [Hm|[]]. destruct (serial_interrupt_ok s Hs Hm) as (s' & -> & Hs' & _ & Em & _). by exists s'.
  - cbn in He. subst. destruct (keyboard_ok a b s Hs) as (s' & -> & Hs' & _ & _ & Em). exists s'. by rewrite Em.
  - cbn in He. subst. destruct (read_ok (set_slevel l s) (serial_ok_level l s Hs)) as (s' & -> & Hs' & _ & _ & Em). exists s'. cbn in Em. by rewrite Em.
Qed.

Lemma run_late l : forall s, serial_ok s -> mode s = QUEUE -> Forall late l -> exists s', run_serial polls Ret pin l s = Ret s' /\ serial_ok s' /\ mode s' = QUEUE.
Proof using Hpolls.
  induction l as [|e l IH]; intros s Hs Hm Hl; [by exists s|]. apply Forall_cons in Hl as [He Hl]. cbn [run_serial].
  destruct (event_ok e s Hs He (or_introl Hm)) as (s1 & -> & Hs1 & Em). cbn [rbind]. apply IH; [done|by apply Em|done].
Qed.

Lemma early_late e : early e -> late e.
Proof. by destruct e. Qed.

Lemma run_early l : forall s, serial_ok s -> mode s <> QUEUE -> Forall early l -> exists s', run_serial polls Ret pin l s = Ret s' /\ serial_ok s' /\ mode s' <> QUEUE.
Proof using Hpolls.
  induction l as [|e l IH]; intros s Hs Hm Hl; [by exists s|]. apply Forall_cons in Hl as [He Hl]. cbn [run_serial].
  destruct (event_ok e s Hs (early_late e He) (or_intror He)) as (s1 & -> & Hs1 & Em). cbn [rbind]. apply IH; [done|by rewrite Em|done].
Qed.

Lemma run_serial_app l l' s : run_serial polls Ret pin (l ++ l') s = (let! s := run_serial polls Ret pin l s in run_serial polls Ret pin l' s).
Proof. revert s. induction l as [|e l IH]; intros s; [done|]. cbn. destruct (do_serial polls Ret pin e s); cbn; [apply IH|done..]. Qed.
End Port.

(** The state at power-on. *)
Record serial_start {hw} {B : UartBus hw} {U : Uart hw B} (s : @serial hw) : Prop := {
  ss_mode : mode s = UNINIT;
  ss_txq : txq s = intq_init;
  ss_inp : inp s = input_init;
  ss_registered : registered s = false;
  ss_writers : writers s = ∅;
  ss_lists : requested s = [] /\ received s = [];
  ss_port : u_dlab (port s) = false /\ u_sent (port s) = [] /\ u_rx (port s) = None /\ u_line (port s) = [] /\ u_lost (port s) = 0%nat
}.

(** C3. The serial driver keeps the bytes in order.  There is one writing and one reading
    thread; no wake-up is of a thread more important than the running one, so that none
    preempts the caller of [signal].  From power-on through polling mode into queued mode,
    under every interleaving of the calls of the writer and of the reader with interrupts
    of the port and of the keyboard and with calls of [serial_flush]: no assertion fails
    and no busy-waiting runs out; the bytes whose sending was requested are, in order,
    those that were sent, those in the queue and that of a call that waits.  The bytes read
    from the port and the one in its register came over the line in this order, and each
    byte of the line that is not among them was overwritten in the register, which the port
    counts: the driver itself loses none.  Every byte read from the port goes into the
    input buffer, in order, and the bytes and keys accepted there go to the reader in
    order; receive interrupts are enabled while the buffer has room.  A writer sleeps only
    while the queue is full and transmit interrupts are enabled, and an interrupt that
    finds the transmitter ready ends its sleep; [serial_flush] sends everything in the
    queue. *)
Theorem serial_bytes_in_order {hw} {B : UartBus hw} {U : Uart hw B} polls pin tw tr (s : @serial hw) before l after :
  (S max_polls < polls)%nat -> serial_start s -> Forall (early tw tr) before -> Forall (late tw tr) after ->
  exists s', run_serial polls Ret pin (before ++ InitQueue l :: after) s = Ret s' /\
    requested s' = u_sent (port s') ++ contents (txq s') ++ pending tw s' /\
    received s' ++ option_list (u_rx (port s')) `sublist_of` u_line (port s') /\
    length (u_line (port s')) = (length (received s') + length (option_list (u_rx (port s'))) + u_lost (port s'))%nat /\
    received s' `sublist_of` accepted (inp s') /\
    accepted (inp s') = (taken (inp s')).*2 ++ contents (buffer (inp s')) /\
    flag (u_ier (port s')) IER_RECV = negb (intq_full (buffer (inp s'))) /\
    (forall w, writers s' !! tw = Some w -> w_point w = InWait ->
       intq_full (txq s') = true /\ flag (u_ier (port s')) IER_XMIT = true /\
       (u_ready (port s') = true ->
        exists s'' w', do_serial polls Ret pin (Interrupt false) s' = Ret s'' /\ writers s'' !! tw = Some w' /\ w_point w' <> InWait)) /\
    exists s'', do_serial polls Ret pin (Flush INTR_ON) s' = Ret s'' /\ requested s' = u_sent (port s'') ++ pending tw s'.
Proof.
  intros Hp [A1 A2 A3 A4 A5 [A6 A7] (A8 & A9 & A10 & A11 & A12)] Hb Ha.
  assert (H0 : serial_ok tw tr s).
  { constructor; [constructor| | | | |]; unfold pending, in_line; rewrite ?A1, ?A2, ?A3, ?A5, ?A6, ?A7, ?A9, ?A10, ?A11, ?A12, ?lookup_empty; try done.
    - apply input_init_ok.
    - left. by rewrite A2, A5. }
  destruct (run_early polls Hp pin tw tr before s H0) as (s1 & E1 & H1 & M1); [by rewrite A1|done|].
  destruct (serial_init_queue_ok polls Hp tw tr (set_slevel l s1) (serial_ok_level tw tr l s1 H1) M1) as (s2 & E2 & H2 & _ & _ & M2).
  destruct (run_late polls Hp pin tw tr after s2 H2 M2 Ha) as (s3 & E3 & H3 & M3). exists s3.
  split. { rewrite run_serial_app, E1. cbn [rbind run_serial do_serial]. rewrite E2. cbn [rbind]. exact E3. }
  pose proof H3 as [C3 W3 _ _ I3 P3]. destruct (I3 M3) as [I4 I5]. destruct (co_line _ _ _ _ C3) as [L1 L2].
  split; [exact (co_order _ _ _ _ C3)|]. split; [exact L1|]. split; [exact L2|]. split; [exact P3|].
  split; [exact (in_order _ _ (co_inp _ _ _ _ C3))|]. split; [exact I5|]. split.
  - intros w Hw Hpt. destruct W3 as [(E & _)|(w' & E & W3)]; [by rewrite E, lookup_empty in Hw|]. rewrite E, lookup_singleton_eq in Hw. injection Hw as ->.
    destruct W3 as [(? & _)|[(_ & _ & _ & Hf)|(? & _)]]; [congruence| |congruence].
    assert (He : intq_empty (txq s3) = false).
    { destruct (intq_empty (txq s3)) eqn:Ee; [|done]. apply (contents_empty _ (co_txq _ _ _ _ C3)) in Ee.
      rewrite full_length in Hf by apply (co_txq _ _ _ _ C3). by rewrite Ee in Hf. }
    split; [done|]. split; [by apply I4|]. intros Hr. cbn [do_serial].
    destruct (serial_interrupt_ok polls Hp tw tr s3 H3 M3) as (s4 & E4 & [_ W4 _ _ _ _] & _ & _ & Hpd & Hgo). exists s4. rewrite (pending_one tw s3 w E) in Hpd.
    destruct W4 as [(E4' & _)|(w4 & E4' & W4)]; [unfold pending in Hpd; by rewrite E4', lookup_empty in Hpd|]. exists w4.
    split; [exact E4|]. split; [by rewrite E4', lookup_singleton_eq|]. specialize (Hgo Hr He).
    destruct W4 as [(-> & _)|[(_ & _ & Hn & _)|(-> & _)]]; [done|congruence|done].
  - cbn [do_serial]. destruct (serial_flush_ok polls Hp tw tr (set_slevel INTR_ON s3) (serial_ok_level tw tr INTR_ON s3 H3)) as (s4 & E4 & [C4 _ _ _ _ _] & Er & _ & Ee & _ & Hpd).
    exists s4. split; [exact E4|]. pose proof (co_order _ _ _ _ C4) as O. apply (contents_empty _ (co_txq _ _ _ _ C4)) in Ee. rewrite Ee, Hpd, Er in O. exact O.
Qed.

(** ** A port that keeps the promise *)

Module Sim.
(** [future]: the bytes that arrive, one at each look at the line status. *)
Record chip := mkChip { state : uart; future : list Z }.

Definition line_status (u : uart) : Z := Z.lor (if u_ready u then LSR_THRE else 0) (if u_rx u is Some _ then LSR_DR else 0).
Definition tick (c : chip) : chip :=
  let u := state c in
  let u := mkUart (u_dlab u) (u_ier u) (u_ready u || bool_decide (u_wait u = 0%nat)) (Nat.pred (Nat.min 2 (u_wait u))) (u_sent u) (u_rx u) (u_line u) (u_lost u) in
  match future c with [] => mkChip u [] | b :: f => mkChip (arrive u b) f end.

#[export] Instance bus : UartBus chip := {
  uart_inb p c :=
    if bool_decide (p = LSR_REG) then (line_status (state c), tick c)
    else if bool_decide (p = RBR_REG) then
      match u_rx (state c) with Some b => (b, mkChip (read_rx (state c)) (future c)) | None => (0, c) end
    else (0, c);
  uart_outb p v c :=
    let u := state c in
    if bool_decide (p = LCR_REG) then mkChip (set_dlab (flag v LCR_DLAB) u) (future c)
    else if u_dlab u then c
    else if bool_decide (p = THR_REG) then
      mkChip (mkUart (u_dlab u) (u_ier u) false 2 (u_sent u ++ [v]) (u_rx u) (u_line u) (u_lost u)) (future c)
    else if bool_decide (p = IER_REG) then mkChip (set_ier v u) (future c) else c
}.

(** The holding register empties at the third look at the latest. *)
Definition shown (c : chip) : uart :=
  let u := state c in mkUart (u_dlab u) (u_ier u) (u_ready u) (Nat.min 2 (u_wait u)) (u_sent u) (u_rx u) (u_line u) (u_lost u).

Lemma passes_refl u : passes u u.
Proof. constructor; try done. apply receives_refl. Qed.

#[export] Instance promise : Uart chip bus.
Proof.
  refine {| uart_of := shown; max_polls := 2 |}.
  - intros h. apply Nat.le_min_l.
  - intros h. cbn -[Nat.min]. set (u := state h). unfold line_status, flag. split_and!.
    + by destruct (u_ready u), (u_rx u).
    + by destruct (u_ready u), (u_rx u).
    + constructor; cbn -[Nat.min]; unfold tick; destruct (future h) as [|b f]; cbn -[Nat.min]; try done; try (by intros ->); [by exists []|by exists [b]].
    + intros _. unfold tick. destruct (future h) as [|b f]; cbn -[Nat.min]; fold u; (destruct (u_wait u) as [|n] eqn:E; [left; by rewrite orb_true_r|right; lia]).
  - intros h b Hd Hr. cbn in *. rewrite Hr. split; [done|]. apply passes_refl.
  - intros h. cbn. apply passes_refl.
  - intros h v Hd _ _. cbn in *. rewrite Hd. cbn. constructor; cbn; try done. by exists [].
  - intros h v Hd _. cbn in *. rewrite Hd. cbn. apply passes_refl.
  - intros h v _. cbn. apply passes_refl.
  - intros h v p Hd [-> | ->]; cbn in *; rewrite Hd; apply passes_refl.
  - intros h v p [-> | ->]; cbn in *; destruct (u_dlab (state h)); apply passes_refl.
Defined.
End Sim.

Module Demo.
Import Sim.
Definition start : @serial chip :=
  mkSerial UNINIT intq_init input_init INTR_OFF false ∅ [] [] (mkChip (mkUart false 0 true 0 [] None [] 0) [120; 121; 122]).
Definition before : list serial_event := [Putc 1 65 INTR_OFF; Putc 1 66 INTR_ON].
Definition after : list serial_event :=
  (Putc 1 67 INTR_ON :: Putc 1 68 INTR_OFF :: replicate 62 (Putc 1 69 INTR_ON)) ++ [Interrupt false; Read 2 INTR_ON; Read 2 INTR_ON; Putc 1 0 INTR_ON].

(** The first two bytes that arrive are overwritten before a receive interrupt comes. *)
Lemma serial_bytes_in_order_witness :
  exists s', run_serial 4 Ret Ret (before ++ InitQueue INTR_ON :: after) start = Ret s' /\
    requested s' = u_sent (port s') ++ contents (txq s') ++ pending 1 s' /\ received s' = [122] /\ u_lost (port s') = 2%nat /\
    exists s'', do_serial 4 Ret Ret (Flush INTR_ON) s' = Ret s'' /\ requested s' = u_sent (port s'') ++ pending 1 s'.
Proof.
  destruct (serial_bytes_in_order 4 Ret 1 2 start before INTR_ON after) as (s' & E & O & _ & _ & _ & _ & _ & _ & F).
  - cbn. lia.
  - by constructor.
  - repeat constructor; unfold is_u8; lia.
  - apply Forall_app. split; [|repeat constructor; unfold is_u8; lia].
    repeat (constructor; [split; [done|unfold is_u8; lia]|]). constructor.
  - exists s'. split; [exact E|]. split; [exact O|]. vm_compute in E. injection E as <-. split; [reflexivity|]. split; [reflexivity|]. exact F.
Defined.

(** A wake-up is lost when it preempts: [serial_flush] of another thread wakes the writer,
    which runs at once, fills the queue again and waits; back in [signal], the flushing
    thread forgets the new waiter.  The queue is then empty and the writer asleep. *)
Definition fill : list serial_event := InitQueue INTR_ON :: replicate 64 (Putc 1 69 INTR_ON).
Definition writer_runs : serial -> res serial := run_serial 4 Ret Ret (replicate 3 (Putc 1 70 INTR_ON)).

Example flush_loses_waiter : exists s s' w, run_serial 4 Ret Ret fill start = Ret s /\ serial_flush 4 writer_runs s = Ret s' /\
  writers s' !! 1 = Some w /\ w_point w = InWait /\ intq_empty (txq s') = true /\ not_full (txq s') = None.
Proof.
  destruct (run_serial 4 Ret Ret fill start) as [s| | |] eqn:E; [|vm_compute in E; discriminate E..].
  destruct (serial_flush 4 writer_runs s) as [s'| | |] eqn:E'; [|vm_compute in E; injection E as <-; vm_compute in E'; discriminate E'..].
  exists s, s', (mkWriter InWait 70 INTR_ON). vm_compute in E. injection E as <-. vm_compute in E'. injection E' as <-. by split_and!.
Qed.
End Demo.
