(* ===== verification/Vga.v ===== *)
(** * devices/vga.c: the text display

    The frame buffer is a part of memory; the cursor registers of the display are a
    parameter, the class [CrtcBus], and [Crtc] is what the driver relies on: a word
    written to the index port sets a register, a byte selects one and the data port reads
    the selected one.

    [term] is the abstract display, 25 rows of 80 cells with a cursor, and
    [vga_refines_terminal] says that [vga_putc] implements its operation [t_put]. *)

From S2P Require Import Prelude Vaddr Cstring CstringProof Kernel.
#[local] Open Scope Z_scope.

Class CrtcBus (hw : Type) := {
  crtc_outw : Z -> Z -> hw -> hw;
  crtc_outb : Z -> Z -> hw -> hw;
  crtc_inb : Z -> hw -> Z * hw
}.

Class Crtc (hw : Type) (B : CrtcBus hw) := {
  reg_of : hw -> Z -> Z;
  sel_of : hw -> Z;
  crtc_byte h i : is_u8 (reg_of h i);
  crtc_word h v i : 0 <= v < 2 ^ 16 -> reg_of (crtc_outw 0x3d4 v h) i = if decide (i = v mod 256) then v / 256 else reg_of h i;
  crtc_select h v : is_u8 v -> sel_of (crtc_outb 0x3d4 v h) = v /\ (forall i, reg_of (crtc_outb 0x3d4 v h) i = reg_of h i);
  crtc_read h : fst (crtc_inb 0x3d5 h) = reg_of h (sel_of h) /\ (forall i, reg_of (snd (crtc_inb 0x3d5 h)) i = reg_of h i)
}.

(** ** The driver *)

Definition COL_CNT : Z := 80.
Definition ROW_CNT : Z := 25.
Definition GRAY_ON_BLACK : Z := 0x07.

Section Vga.
Context {hw : Type} {B : CrtcBus hw}.

Record vga := mkVga { cx : Z; cy : Z; fb : Z; inited : bool; v_mem : mem; v_level : intr_level; v_hw : hw }.

Definition set_cursor (x y : Z) (s : vga) : vga := mkVga x y (fb s) (inited s) (v_mem s) (v_level s) (v_hw s).
Definition set_vmem (m : mem) (s : vga) : vga := mkVga (cx s) (cy s) (fb s) (inited s) m (v_level s) (v_hw s).
Definition set_vhw (h : hw) (s : vga) : vga := mkVga (cx s) (cy s) (fb s) (inited s) (v_mem s) (v_level s) h.
Definition set_vlevel (l : intr_level) (s : vga) : vga := mkVga (cx s) (cy s) (fb s) (inited s) (v_mem s) l (v_hw s).

(** Cell [fb[y][x]]. *)
Definition cell (s : vga) (y x : Z) : Z := fb s + 2 * COL_CNT * y + 2 * x.
Definition put_cell (s : vga) (y x c : Z) : res vga :=
  let! m := store (v_mem s) (cell s y x) (u8 c) in
  let! m := store m (cell s y x + 1) GRAY_ON_BLACK in
  Ret (set_vmem m s).

Definition move_cursor (s : vga) : vga :=
  let cp := u16 (cx s + COL_CNT * cy s) in
  let h := crtc_outw 0x3d4 (u16 (Z.lor 0x0e (Z.land cp 0xff00))) (v_hw s) in
  set_vhw (crtc_outw 0x3d4 (u16 (Z.lor 0x0f (Z.shiftl cp 8))) h) s.

Definition find_cursor (s : vga) : Z * Z * vga :=
  let h := crtc_outb 0x3d4 0x0e (v_hw s) in
  let '(v, h) := crtc_inb 0x3d5 h in
  let cp := u16 (Z.shiftl v 8) in
  let h := crtc_outb 0x3d4 0x0f h in
  let '(v, h) := crtc_inb 0x3d5 h in
  let cp := Z.lor cp v in
  (cp mod COL_CNT, cp / COL_CNT, set_vhw h s).

Definition init (s : vga) : res vga :=
  if inited s then Ret s
  else
    let! f := ptov 0xb8000 in
    let '(x, y, s) := find_cursor s in
    Ret (mkVga x y f true (v_mem s) (v_level s) (v_hw s)).

Definition clear_row (y : Z) (s : vga) : res vga :=
  for_up (Z.to_nat COL_CNT) 0 (fun x s => put_cell s y x 32) s.

Definition cls (s : vga) : res vga :=
  let! s := for_up (Z.to_nat ROW_CNT) 0 (fun y s => clear_row y s) s in
  Ret (move_cursor (set_cursor 0 0 s)).

Definition newline (s : vga) : res vga :=
  let s := set_cursor 0 (u32 (cy s + 1)) s in
  if bool_decide (cy s >= ROW_CNT) then
    let s := set_cursor (cx s) (ROW_CNT - 1) s in
    let! '(m, _) := memmove (v_mem s) (fb s) (fb s + 2 * COL_CNT) (2 * COL_CNT * (ROW_CNT - 1)) in
    clear_row (ROW_CNT - 1) (set_vmem m s)
  else Ret s.

Definition vga_putc (c : Z) (s : vga) : res vga :=
  let old_level := v_level s in
  let! s := init (set_vlevel INTR_OFF s) in
  let! s :=
    (if bool_decide (c = 10) then newline s
     else if bool_decide (c = 12) then cls s
     else if bool_decide (c = 8) then Ret (if bool_decide (cx s > 0) then set_cursor (cx s - 1) (cy s) s else s)
     else if bool_decide (c = 13) then Ret (set_cursor 0 (cy s) s)
     else if bool_decide (c = 9) then
       let s := set_cursor (ROUND_UP (u32 (cx s + 1)) 8) (cy s) s in
       if bool_decide (cx s >= COL_CNT) then newline s else Ret s
     else
       let! s := put_cell s (cy s) (cx s) c in
       let s := set_cursor (u32 (cx s + 1)) (cy s) s in
       if bool_decide (cx s >= COL_CNT) then newline s else Ret s) in
  Ret (set_vlevel old_level (move_cursor s)).

Fixpoint vga_write (l : list Z) (s : vga) : res vga :=
  match l with [] => Ret s | c :: l => let! s := vga_putc c s in vga_write l s end.
End Vga.

(** ** The abstract display *)

Record term := mkTerm { cells : Z -> Z -> Z * Z; tx : Z; ty : Z }.

Definition blank : Z * Z := (32, GRAY_ON_BLACK).
Definition with_cell (f : Z -> Z -> Z * Z) (y x : Z) (v : Z * Z) : Z -> Z -> Z * Z :=
  fun y' x' => if decide (y' = y /\ x' = x) then v else f y' x'.

Definition t_newline (t : term) : term :=
  if bool_decide (ty t = 24) then mkTerm (fun y x => if decide (y = 24) then blank else cells t (y + 1) x) 0 24
  else mkTerm (cells t) 0 (ty t + 1).

Definition t_advance (x : Z) (t : term) : term :=
  let t := mkTerm (cells t) x (ty t) in if bool_decide (x >= 80) then t_newline t else t.

Definition t_put (t : term) (c : Z) : term :=
  if bool_decide (c = 10) then t_newline t
  else if bool_decide (c = 12) then mkTerm (fun _ _ => blank) 0 0
  else if bool_decide (c = 8) then mkTerm (cells t) (Z.max 0 (tx t - 1)) (ty t)
  else if bool_decide (c = 13) then mkTerm (cells t) 0 (ty t)
  else if bool_decide (c = 9) then t_advance (8 * (tx t / 8 + 1)) t
  else t_advance (tx t + 1) (mkTerm (with_cell (cells t) (ty t) (tx t) (u8 c, GRAY_ON_BLACK)) (tx t) (ty t)).

(** The address of the frame buffer, and what it shows. *)
Definition FB : Z := 0xc00b8000.
Definition FB_LEN : Z := 4000.
Definition shows (m : mem) (f : Z -> Z -> Z * Z) : Prop :=
  forall y x, 0 <= y < 25 -> 0 <= x < 80 ->
    m !! (FB + 160 * y + 2 * x) = Some (fst (f y x)) /\ m !! (FB + 160 * y + 2 * x + 1) = Some (snd (f y x)).

Definition displayed (m : mem) (y x : Z) : Z * Z := (default 0 (m !! (FB + 160 * y + 2 * x)), default 0 (m !! (FB + 160 * y + 2 * x + 1))).

(** ** Cells *)

Section Proofs.
Context {hw : Type} {B : CrtcBus hw} {C : Crtc hw B}.
#[local] Abbreviation vga := (@vga hw).

(** The frame buffer of [s] shows [f], and memory outside it is that of [m0]. *)
Record frame (m0 : mem) (f : Z -> Z -> Z * Z) (s : vga) : Prop := {
  fr_fb : fb s = FB;
  fr_inited : inited s = true;
  fr_shows : shows (v_mem s) f;
  fr_out : same_outside FB FB_LEN m0 (v_mem s)
}.

Lemma frame_cursor m0 f x y s : frame m0 f s -> frame m0 f (set_cursor x y s).
Proof. by intros []. Qed.

Lemma shows_ext m f f' : shows m f -> (forall y x, 0 <= y < 25 -> 0 <= x < 80 -> f' y x = f y x) -> shows m f'.
Proof. intros H E y x Hy Hx. rewrite E by done. by apply H. Qed.

Lemma put_cell_ok m0 f s y x c : frame m0 f s -> 0 <= y < 25 -> 0 <= x < 80 ->
  exists m, put_cell s y x c = Ret (set_vmem m s) /\ frame m0 (with_cell f y x (u8 c, GRAY_ON_BLACK)) (set_vmem m s).
Proof.
  intros [H1 H2 H3 H4] Hy Hx. unfold put_cell, cell, COL_CNT. rewrite H1. change (2 * 80) with 160. destruct (H3 y x Hy Hx) as [E1 E2].
  rewrite store_ok by eauto. cbn [rbind]. rewrite store_ok by (rewrite lookup_insert_ne by lia; eauto). cbn [rbind]. eexists. split; [reflexivity|].
  constructor; cbn; try done.
  - intros y' x' Hy' Hx'. unfold with_cell. destruct (decide (y' = y /\ x' = x)) as [[-> ->]|Hne].
    + split; [by rewrite lookup_insert_ne, lookup_insert_eq by lia|by rewrite lookup_insert_eq].
    + rewrite !lookup_insert_ne by lia. by apply H3.
  - eapply same_outside_trans; [exact H4|]. apply (same_outside_trans _ _ _ (<[FB + 160 * y + 2 * x := u8 c]> (v_mem s))); apply same_outside_insert;
      unfold FB_LEN; rewrite ?lookup_insert_ne by lia; eauto; lia.
Qed.

(** Row [y], up to column [k], is blank. *)
Definition blank_row (f : Z -> Z -> Z * Z) (y k : Z) : Z -> Z -> Z * Z :=
  fun y' x' => if decide (y' = y /\ x' < k) then blank else f y' x'.

Lemma clear_row_ok m0 f s y : frame m0 f s -> 0 <= y < 25 ->
  exists m, clear_row y s = Ret (set_vmem m s) /\ frame m0 (blank_row f y 80) (set_vmem m s).
Proof.
  intros Hf Hy. unfold clear_row.
  destruct (for_up_total (fun k s' => exists m, s' = set_vmem m s /\ frame m0 (blank_row f y k) (set_vmem m s))
              (fun x s => put_cell s y x 32) (Z.to_nat COL_CNT) 0 s) as (s' & E & m & -> & Hm).
  - exists (v_mem s). split; [by destruct s|]. destruct Hf as [H1 H2 H3 H4]. constructor; cbn; try done.
    eapply shows_ext; [exact H3|]. intros y' x' _ Hx'. unfold blank_row. by rewrite decide_False by lia.
  - intros k s' Hk (m & -> & Hm). change (Z.of_nat (Z.to_nat COL_CNT)) with 80 in Hk.
    destruct (put_cell_ok m0 _ _ y k 32 Hm Hy) as (m' & -> & Hm'); [lia|]. eexists. split; [reflexivity|]. exists m'. split; [done|].
    destruct Hm' as [H1 H2 H3 H4]. constructor; try done. eapply shows_ext; [exact H3|]. intros y' x' _ Hx'. unfold with_cell, blank_row, blank.
    destruct (decide (y' = y /\ x' < k + 1)), (decide (y' = y /\ x' = k)), (decide (y' = y /\ x' < k)); (done || lia).
  - exists m. split; [exact E|]. exact Hm.
Qed.

Lemma cls_rows m0 f s : frame m0 f s ->
  exists m, for_up (Z.to_nat ROW_CNT) 0 (fun y s => clear_row y s) s = Ret (set_vmem m s) /\ frame m0 (fun _ _ => blank) (set_vmem m s).
Proof.
  intros Hf.
  destruct (for_up_total (fun k s' => exists m, s' = set_vmem m s /\ frame m0 (fun y x => if decide (y < k) then blank else f y x) (set_vmem m s))
              (fun y s => clear_row y s) (Z.to_nat ROW_CNT) 0 s) as (s' & E & m & -> & Hm).
  - exists (v_mem s). split; [by destruct s|]. destruct Hf as [H1 H2 H3 H4]. constructor; cbn; try done.
    eapply shows_ext; [exact H3|]. intros y' x' Hy' _. by rewrite decide_False by lia.
  - intros k s' Hk (m & -> & Hm). change (Z.of_nat (Z.to_nat ROW_CNT)) with 25 in Hk.
    destruct (clear_row_ok m0 _ _ k Hm) as (m' & -> & Hm'); [lia|]. eexists. split; [reflexivity|]. exists m'. split; [done|].
    destruct Hm' as [H1 H2 H3 H4]. constructor; try done. eapply shows_ext; [exact H3|]. intros y' x' _ Hx'. unfold blank_row.
    destruct (decide (y' < k + 1)), (decide (y' = k /\ x' < 80)), (decide (y' < k)); (done || lia).
  - exists m. split; [exact E|]. destruct Hm as [H1 H2 H3 H4]. constructor; try done. eapply shows_ext; [exact H3|].
    intros y' x' Hy' _. cbv beta. change (0 + Z.of_nat (Z.to_nat ROW_CNT)) with 25. by rewrite decide_True by lia.
Qed.

(** ** The cursor *)

Definition position (h : hw) : Z := 256 * reg_of h 0x0e + reg_of h 0x0f.

Lemma move_cursor_ok s : 0 <= cx s < 80 -> 0 <= cy s < 25 -> exists h, move_cursor s = set_vhw h s /\ position h = cx s + 80 * cy s.
Proof.
  intros Hx Hy. unfold move_cursor. eexists. split; [reflexivity|]. unfold position. set (cp := cx s + 80 * cy s).
  change (cx s + COL_CNT * cy s) with cp. assert (0 <= cp < 2000) by (unfold cp; lia). unfold u16. rewrite !(Z.mod_small cp) by lia.
  change 0xff00 with (Z.shiftl (Z.ones 8) 8). rewrite land_bitfield, bitfield_divmod by lia.
  rewrite (lor_shift_add 14 _ 8) by lia. rewrite (lor_shift_add 15 cp 8) by lia. change (2 ^ 8) with 256.
  assert (0 <= cp / 256 < 8) by (Z.div_mod_to_equations; lia). rewrite (Z.mod_small (cp / 256)) by lia.
  rewrite (Z.mod_small (14 + 256 * (cp / 256))) by lia.
  assert (E1 : (14 + 256 * (cp / 256)) mod 256 = 14 /\ (14 + 256 * (cp / 256)) / 256 = cp / 256) by (Z.div_mod_to_equations; lia).
  assert (E2 : ((15 + 256 * cp) mod 2 ^ 16) mod 256 = 15 /\ ((15 + 256 * cp) mod 2 ^ 16) / 256 = cp mod 256) by (Z.div_mod_to_equations; lia).
  destruct E1 as [E1 E1'], E2 as [E2 E2']. rewrite !crtc_word by (apply Z.mod_pos_bound || idtac; lia).
  rewrite E1, E1', E2, E2'. repeat case_decide; try lia. Z.div_mod_to_equations. lia.
Qed.

Lemma find_cursor_ok s : exists h, find_cursor s = (position (v_hw s) mod 80, position (v_hw s) / 80, set_vhw h s).
Proof.
  unfold find_cursor. destruct (crtc_select (v_hw s) 0x0e) as [S1 R1]; [unfold is_u8; lia|]. pose proof (crtc_read (crtc_outb 0x3d4 0x0e (v_hw s))) as [V1 G1].
  destruct (crtc_inb 0x3d5 _) as [v h]. cbn [fst snd] in *. rewrite S1, R1 in V1.
  destruct (crtc_select h 0x0f) as [S2 R2]; [unfold is_u8; lia|]. pose proof (crtc_read (crtc_outb 0x3d4 0x0f h)) as [V2 G2].
  destruct (crtc_inb 0x3d5 _) as [v' h']. cbn [fst snd] in *. rewrite S2, R2, G1, R1 in V2. subst v v'. exists h'.
  pose proof (crtc_byte (v_hw s) 14). pose proof (crtc_byte (v_hw s) 15). unfold is_u8 in *.
  assert (Z.lor (u16 (Z.shiftl (reg_of (v_hw s) 14) 8)) (reg_of (v_hw s) 15) = position (v_hw s)) as ->; [|done].
  unfold u16. rewrite Z.mod_small by (rewrite Z.shiftl_mul_pow2; lia). rewrite Z.lor_comm, lor_shift_add by lia. unfold position. lia.
Qed.

(** ** Characters *)

(** The driver's state between characters: the display is [t]. *)
Record vga_ok (m0 : mem) (t : term) (s : vga) : Prop := {
  vo_frame : frame m0 (cells t) s;
  vo_x : cx s = tx t;
  vo_y : cy s = ty t;
  vo_cols : 0 <= tx t < 80;
  vo_rows : 0 <= ty t < 25
}.

Lemma frame_mapped m0 f s : frame m0 f s -> mapped (v_mem s) FB FB_LEN.
Proof.
  intros [_ _ H _] q Hq. unfold FB_LEN in Hq. set (k := (q - FB) / 2). assert (0 <= k < 2000 /\ (q - FB = 2 * k \/ q - FB = 2 * k + 1)) as [Hk Eq] by (unfold k; Z.div_mod_to_equations; lia). clearbody k.
  assert (Hyx : 0 <= k / 80 < 25 /\ 0 <= k mod 80 < 80 /\ 160 * (k / 80) + 2 * (k mod 80) = 2 * k) by (Z.div_mod_to_equations; lia).
  destruct Hyx as (Hy & Hx & E). destruct (H _ _ Hy Hx) as [E1 E2].
  assert (q = FB + 160 * (k / 80) + 2 * (k mod 80) \/ q = FB + 160 * (k / 80) + 2 * (k mod 80) + 1) as [-> | ->] by lia; eauto.
Qed.

Lemma newline_ok m0 t s : frame m0 (cells t) s -> cy s = ty t -> 0 <= ty t < 25 -> exists s', newline s = Ret s' /\ vga_ok m0 (t_newline t) s' /\ v_level s' = v_level s.
Proof.
  intros Hf Hcy Hy. unfold newline, t_newline. rewrite Hcy, u32_small by lia. cbn [cy set_cursor]. unfold ROW_CNT, COL_CNT.
  destruct (decide (ty t = 24)) as [E|E].
  - rewrite (bool_decide_true (ty t = 24)) by done. rewrite bool_decide_true by lia. pose proof (frame_mapped _ _ _ Hf) as Hm. pose proof Hf as [F1 F2 F3 F4].
    set (s1 := set_cursor _ (25 - 1) _). change (fb s1) with (fb s). change (v_mem s1) with (v_mem s). rewrite F1. change (2 * 80) with 160. change (160 * (25 - 1)) with 3840.
    destruct (memmove_ok (v_mem s) FB (FB + 160) 3840) as (m & -> & Hc); [lia| | |unfold FB; lia..|].
    { intros q Hq. apply Hm. unfold FB_LEN. lia. } { intros q Hq. apply Hm. unfold FB_LEN. lia. }
    cbn [rbind].
    assert (Hf1 : frame m0 (fun y x => if decide (y = 24) then cells t 24 x else cells t (y + 1) x) (set_vmem m s1)).
    { constructor; cbn; try done.
      - intros y x Hy' Hx. destruct (decide (y = 24)) as [->|Hne].
        + rewrite !Hc, !decide_False by lia. by apply F3.
        + rewrite !Hc, !decide_True by lia. destruct (F3 (y + 1) x) as [E1 E2]; [lia|done|].
          split; [rewrite <- E1|rewrite <- E2]; f_equal; lia.
      - eapply same_outside_trans; [exact F4|]. apply (same_outside_weaken FB 3840); [|lia|unfold FB_LEN; lia].
        eapply copied_same_outside; [exact Hc|..]; intros q Hq; apply Hm; unfold FB_LEN; lia. }
    change (25 - 1) with 24. destruct (clear_row_ok m0 _ _ 24 Hf1) as (m' & -> & Hf2); [lia|]. eexists. split; [reflexivity|]. split; [|done].
    constructor; cbn; try lia. destruct Hf2 as [G1 G2 G3 G4]. constructor; try done. eapply shows_ext; [exact G3|]. intros y x Hy' Hx. unfold blank_row.
    destruct (decide (y = 24 /\ x < 80)), (decide (y = 24)); (done || lia).
  - rewrite (bool_decide_false (ty t = 24)) by done. rewrite bool_decide_false by lia. eexists. split; [reflexivity|]. split; [|done].
    constructor; cbn; try lia. by apply frame_cursor.
Qed.

(** The cursor goes to column [x], which may be the first one behind the row. *)
Lemma advance_ok m0 f x y s : frame m0 f s -> cx s = x -> cy s = y -> 0 <= x <= 80 -> 0 <= y < 25 ->
  exists s', (if bool_decide (cx s >= COL_CNT) then newline s else Ret s) = Ret s' /\
    forall x0, vga_ok m0 (t_advance x (mkTerm f x0 y)) s' /\ v_level s' = v_level s.
Proof.
  intros Hf Hx Hy Hxr Hyr. unfold t_advance, COL_CNT. rewrite Hx. cbn [cells ty]. destruct (decide (x = 80)) as [->|Hne].
  - rewrite bool_decide_true by lia. destruct (newline_ok m0 (mkTerm f 80 y) s Hf Hy Hyr) as (s' & -> & H). by exists s'.
  - rewrite bool_decide_false by lia. exists s. split; [done|]. intros _. split; [|done]. constructor; cbn; (done || lia).
Qed.

Lemma tab_stop x : 0 <= x < 80 -> ROUND_UP (u32 (x + 1)) 8 = 8 * (x / 8 + 1) /\ 0 <= 8 * (x / 8 + 1) <= 80.
Proof. intros Hx. unfold ROUND_UP. rewrite (u32_small (x + 1)), (u32_small (x + 1 + 8 - 1)), u32_small by (Z.div_mod_to_equations; lia). Z.div_mod_to_equations. lia. Qed.

(** The part of [vga_putc] between [init] and [move_cursor]. *)
Definition put_char (c : Z) (s : vga) : res vga :=
  if bool_decide (c = 10) then newline s
  else if bool_decide (c = 12) then cls s
  else if bool_decide (c = 8) then Ret (if bool_decide (cx s > 0) then set_cursor (cx s - 1) (cy s) s else s)
  else if bool_decide (c = 13) then Ret (set_cursor 0 (cy s) s)
  else if bool_decide (c = 9) then
    let s := set_cursor (ROUND_UP (u32 (cx s + 1)) 8) (cy s) s in
    if bool_decide (cx s >= COL_CNT) then newline s else Ret s
  else
    let! s := put_cell s (cy s) (cx s) c in
    let s := set_cursor (u32 (cx s + 1)) (cy s) s in
    if bool_decide (cx s >= COL_CNT) then newline s else Ret s.

Lemma put_char_ok m0 t s c : vga_ok m0 t s -> exists s', put_char c s = Ret s' /\ vga_ok m0 (t_put t c) s' /\ v_level s' = v_level s.
Proof.
  intros [Hf Hx Hy Hxr Hyr]. unfold put_char, t_put.
  case_bool_decide; [by apply newline_ok|]. case_bool_decide.
  { unfold cls. destruct (cls_rows m0 (cells t) s Hf) as (m & -> & Hm). cbn [rbind].
    destruct (move_cursor_ok (set_cursor 0 0 (set_vmem m s))) as (h & -> & _); [cbn; lia..|]. eexists. split; [reflexivity|]. split; [|done].
    destruct Hm. by constructor; cbn; try lia. }
  case_bool_decide.
  { eexists. split; [reflexivity|]. split; [|by destruct (bool_decide (cx s > 0))].
    case_bool_decide; constructor; cbn; try lia; [by apply frame_cursor|done]. }
  case_bool_decide.
  { eexists. split; [reflexivity|]. split; [|done]. constructor; cbn; try lia. by apply frame_cursor. }
  case_bool_decide.
  - destruct (tab_stop (tx t) Hxr) as [Et Hr]. destruct t as [f x0 y0]. cbn [tx ty cells] in *. cbv zeta.
    destruct (advance_ok m0 f (8 * (x0 / 8 + 1)) y0 (set_cursor (ROUND_UP (u32 (cx s + 1)) 8) (cy s) s)) as (s' & E & Hs'); try done.
    { by apply frame_cursor. } { cbn. by rewrite Hx. }
    exists s'. split; [exact E|]. apply Hs'.
  - rewrite Hx, Hy. destruct (put_cell_ok m0 (cells t) s (ty t) (tx t) c Hf Hyr Hxr) as (m & -> & Hm). cbn [rbind].
    cbn [cx set_vmem]. rewrite Hx, u32_small by lia.
    destruct (advance_ok m0 (with_cell (cells t) (ty t) (tx t) (u8 c, GRAY_ON_BLACK)) (tx t + 1) (ty t) (set_cursor (tx t + 1) (cy (set_vmem m s)) (set_vmem m s)))
      as (s' & E & Hs'); try done; [by apply frame_cursor|lia|]. exists s'. split; [exact E|]. apply Hs'.
Qed.

(** After a character also the cursor of the display is in place. *)
Lemma vga_putc_ok m0 t s c : vga_ok m0 t s ->
  exists s', vga_putc c s = Ret s' /\ vga_ok m0 (t_put t c) s' /\ v_level s' = v_level s /\ position (v_hw s') = tx (t_put t c) + 80 * ty (t_put t c).
Proof.
  intros [[F1 F2 F3 F4] Hx Hy Hxr Hyr]. unfold vga_putc, init. cbn [inited set_vlevel]. rewrite F2. cbn [rbind].
  destruct (put_char_ok m0 t (set_vlevel INTR_OFF s) c) as (s' & E & [Hf' Hx' Hy' Hxr' Hyr'] & _); [by constructor|].
  fold (put_char c (set_vlevel INTR_OFF s)). rewrite E. cbn [rbind].
  destruct (move_cursor_ok s') as (h & -> & Hp); [by rewrite Hx'|by rewrite Hy'|]. eexists. split; [reflexivity|]. cbn. rewrite Hp, Hx', Hy'. split; [|done].
  destruct Hf'. by constructor.
Qed.

(** The first character finds the cursor. *)
Lemma vga_first_ok s c : inited s = false -> mapped (v_mem s) FB FB_LEN -> position (v_hw s) < 2000 ->
  let t := mkTerm (displayed (v_mem s)) (position (v_hw s) mod 80) (position (v_hw s) / 80) in
  exists s', vga_putc c s = Ret s' /\ vga_ok (v_mem s) (t_put t c) s' /\ v_level s' = v_level s /\ position (v_hw s') = tx (t_put t c) + 80 * ty (t_put t c).
Proof.
  intros Hi Hm Hp t. destruct (find_cursor_ok (set_vlevel INTR_OFF s)) as (h & Ef).
  set (s1 := mkVga (position (v_hw s) mod 80) (position (v_hw s) / 80) FB true (v_mem s) (v_level s) h).
  assert (Ei : init (set_vlevel INTR_OFF s) = Ret (set_vlevel INTR_OFF s1)).
  { unfold init. cbn [inited set_vlevel]. rewrite Hi. change (ptov 0xb8000) with (Ret FB : res Z). cbn [rbind]. by rewrite Ef. }
  assert (0 <= position (v_hw s)).
  { unfold position. pose proof (crtc_byte (v_hw s) 14). pose proof (crtc_byte (v_hw s) 15). unfold is_u8 in *. lia. }
  assert (H1 : vga_ok (v_mem s) t s1).
  { constructor; cbn; try done; [|Z.div_mod_to_equations; lia..]. constructor; cbn; try done. intros y x Hy Hx. unfold displayed, fst, snd, FB_LEN in *.
    destruct (Hm (FB + 160 * y + 2 * x)) as [a Ea]; [lia|]. destruct (Hm (FB + 160 * y + 2 * x + 1)) as [b Eb]; [lia|]. by rewrite Ea, Eb. }
  destruct (vga_putc_ok (v_mem s) t s1 c H1) as (s' & E & Hs'). exists s'. split; [|exact Hs']. rewrite <- E. unfold vga_putc. rewrite Ei. done.
Qed.

Lemma vga_write_ok m0 l : forall t s, vga_ok m0 t s -> position (v_hw s) = tx t + 80 * ty t ->
  exists s', vga_write l s = Ret s' /\ vga_ok m0 (fold_left t_put l t) s' /\ v_level s' = v_level s /\
    position (v_hw s') = tx (fold_left t_put l t) + 80 * ty (fold_left t_put l t).
Proof.
  induction l as [|c l IH]; intros t s Hs Hp; cbn [vga_write fold_left]; [by exists s|].
  destruct (vga_putc_ok m0 t s c Hs) as (s1 & -> & H1 & E1 & P1). cbn [rbind]. destruct (IH _ s1 H1 P1) as (s2 & -> & H2 & E2 & P2).
  exists s2. split; [reflexivity|]. split; [done|]. split; [congruence|done].
Qed.
End Proofs.

(** C13. From the first character on, with the cursor of the display somewhere on the screen,
    [vga_putc] fails no assertion and writes only into the frame buffer, which after every
    text shows what the display of 25 rows and 80 columns with the operation [t_put]
    shows; the cursor is always on the screen, the cursor of the hardware is at the same
    place, and the interrupt level is that of the caller. *)
Theorem vga_refines_terminal {hw} {B : CrtcBus hw} {C : Crtc hw B} (s : @vga hw) l :
  inited s = false -> mapped (v_mem s) FB FB_LEN -> position (v_hw s) < 2000 ->
  let t := fold_left t_put l (mkTerm (displayed (v_mem s)) (position (v_hw s) mod 80) (position (v_hw s) / 80)) in
  exists s', vga_write l s = Ret s' /\
    (l <> [] -> shows (v_mem s') (cells t) /\ cx s' = tx t /\ cy s' = ty t /\ position (v_hw s') = tx t + 80 * ty t /\ 0 <= tx t < 80 /\ 0 <= ty t < 25) /\
    same_outside FB FB_LEN (v_mem s) (v_mem s') /\ v_level s' = v_level s.
Proof.
  intros Hi Hm Hp t. destruct l as [|c l].
  { exists s. split; [done|]. split; [done|]. split; [apply same_outside_refl|done]. }
  cbn [vga_write].
  destruct (vga_first_ok s c Hi Hm Hp) as (s1 & -> & H1 & E1 & P1). cbn [rbind].
  destruct (vga_write_ok (v_mem s) l _ s1 H1 P1) as (s2 & -> & [[F1 F2 F3 F4] Hx Hy Hxr Hyr] & E2 & P2).
  exists s2. split; [reflexivity|]. split; [intros _; unfold t; cbn [fold_left]; split_and!; (assumption || lia)|]. split; [done|congruence].
Qed.

(** ** Registers that keep the promise *)

Module Sim.
Record crtc := mkCrtc { regs : Z -> Z; sel : Z }.
#[export] Instance bus : CrtcBus crtc := {
  crtc_outw _ v h := mkCrtc (fun i => if decide (i = v mod 256) then v / 256 else regs h i) (v mod 256);
  crtc_outb _ v h := mkCrtc (regs h) v;
  crtc_inb _ h := (u8 (regs h (sel h)), h)
}.
#[export] Instance promise : Crtc crtc bus.
Proof.
  refine {| reg_of := fun h i => u8 (regs h i); sel_of := sel |}.
  - intros h i. apply u8_range.
  - intros h v i Hv. cbn. case_decide; [|done]. apply u8_small. Z.div_mod_to_equations. lia.
  - done.
  - done.
Defined.
End Sim.

Module Demo.
Import Sim.
Definition screen : mem := mem_at FB (replicate 4000 46).
Definition start : @vga crtc := mkVga 0 0 0 false screen INTR_ON (mkCrtc (fun i => if decide (i = 14) then 7 else if decide (i = 15) then 0xce else 0) 0).

Lemma screen_mapped : mapped screen FB FB_LEN.
Proof. apply (mapped_dec_ok screen FB 4000). vm_compute. reflexivity. Qed.

(** Two characters at the end of the last row scroll the screen. *)
Lemma vga_refines_terminal_witness :
  exists s', vga_write [65; 66; 9; 67] start = Ret s' /\ cx s' = 9 /\ cy s' = 24 /\ position (v_hw s') = 9 + 80 * 24 /\
    v_mem s' !! (FB + 160 * 23 + 2 * 79) = Some 66 /\ v_mem s' !! (FB + 160 * 24 + 2 * 8) = Some 67.
Proof.
  assert (Hp : position (v_hw start) < 2000) by reflexivity.
  destruct (vga_refines_terminal start [65; 66; 9; 67] eq_refl screen_mapped Hp) as (s' & E & H & _).
  destruct H as (Hsh & Hx & Hy & Hpos & _); [done|]. exists s'. split; [exact E|]. split; [exact Hx|]. split; [exact Hy|]. split; [exact Hpos|].
  destruct (Hsh 23 79) as [E1 _]; [lia..|]. destruct (Hsh 24 8) as [E2 _]; [lia..|]. split; [rewrite E1|rewrite E2]; vm_compute; reflexivity.
Defined.
End Demo.
