(* ===== verification/Procs.v ===== *)
(** * userprog/process.c, userprog/syscall.c, threads/thread.c: execute, wait and exit

    The protocol between a process and its children.  All processes run interleaved; a
    step is one access to data that another process may change: the fields of [struct
    thread] and [struct child] and the semaphore [child_lock], whose operations disable
    interrupts.  A process points to the thread of its parent, whose page is freed when the
    parent is dead.  The loading of the program and the user code are not part of the
    state: they show as the results and the calls that the steps are given. *)

From S2P Require Import Prelude.

(** ** State *)

Definition TID_ERROR : Z := -1.

Record child := mkChild { pid : Z; is_wait : bool; status : Z }.

(** Where a process is. *)
Inductive point : Set :=
| Loading                       (* start_process: load *)
| Reporting (success : bool)    (* start_process: load_success is set, sema_up is next *)
| Running                       (* outside the kernel *)
| ExecDown (tid : Z)            (* process_execute: sema_down *)
| ExecRead (tid : Z)            (* process_execute: load_success is next *)
| WaitCheck (c : Z)             (* process_wait: lock_child_id is set, is_wait is next *)
| WaitDown (c : Z)              (* process_wait: sema_down *)
| WaitReap (c : Z)              (* process_wait: the status is next *)
| ExitMark (st : Z)             (* exit_process: the child structure is next *)
| ExitStatus (st : Z)           (* exit_process: is_wait is set, the status is next *)
| ExitCode (st : Z)             (* exit_process: exit_code is next *)
| ExitCheck                     (* exit_process: lock_child_id is next *)
| ExitFree                      (* thread_exit: the child structures are next *)
| Dead.

Record proc := mkProc {
  parent_process : Z;
  child_list : list child;
  lock_child_id : Z;
  exit_code : Z;
  child_lock : Z;
  load_success : bool;
  at_ : point
}.

(** What happened, for the statements below. *)
Inductive event : Set :=
| Loads (t : Z) (success : bool)
| Exits (t st : Z)
| ExecReturns (t c r : Z)
| WaitReturns (t c r : Z)
| WaitUnknown (t c : Z).

Record system := mkSystem { procs : gmap Z proc; next_tid : Z; log : list event }.

Definition set_children (l : list child) (p : proc) : proc :=
  mkProc (parent_process p) l (lock_child_id p) (exit_code p) (child_lock p) (load_success p) (at_ p).
Definition set_lock_child (c : Z) (p : proc) : proc :=
  mkProc (parent_process p) (child_list p) c (exit_code p) (child_lock p) (load_success p) (at_ p).
Definition set_exit_code (st : Z) (p : proc) : proc :=
  mkProc (parent_process p) (child_list p) (lock_child_id p) st (child_lock p) (load_success p) (at_ p).
Definition add_token (n : Z) (p : proc) : proc :=
  mkProc (parent_process p) (child_list p) (lock_child_id p) (exit_code p) (child_lock p + n) (load_success p) (at_ p).
Definition set_load_success (b : bool) (p : proc) : proc :=
  mkProc (parent_process p) (child_list p) (lock_child_id p) (exit_code p) (child_lock p) b (at_ p).
Definition set_at (x : point) (p : proc) : proc :=
  mkProc (parent_process p) (child_list p) (lock_child_id p) (exit_code p) (child_lock p) (load_success p) x.

Definition upd (t : Z) (f : proc -> proc) (s : system) : system := mkSystem (alter f t (procs s)) (next_tid s) (log s).
Definition note (e : event) (s : system) : system := mkSystem (procs s) (next_tid s) (log s ++ [e]).
Definition go (t : Z) (x : point) : system -> system := upd t (set_at x).

(** The thread structure of the parent, which must not have been freed. *)
Definition parent_alive (p : proc) (s : system) : bool :=
  match procs s !! parent_process p with
  | Some q => match at_ q with Dead => false | _ => true end
  | None => false
  end.

(** ** Operations *)

(** [thread_create]: a new thread and its child structure in the list of the creator. *)
Definition create_child (t : Z) (s : system) : system :=
  let n := next_tid s in
  let s := mkSystem (<[n := mkProc t [] 0 (-2) 0 false Loading]> (procs s)) (n + 1) (log s) in
  upd t (fun p => set_children (child_list p ++ [mkChild n false (-2)]) p) s.

(** [process_execute] up to [sema_down]; [created] says whether [thread_create] found a
    page.  Without a page for the copy of the command line the call returns [TID_ERROR] at
    once and changes nothing here. *)
Definition process_execute (t : Z) (created : bool) (s : system) : system :=
  if created then go t (ExecDown (next_tid s)) (create_child t s) else go t (ExecDown TID_ERROR) s.

Definition find_child (c : Z) (l : list child) : option child := last (filter (fun x => pid x = c) l).
Definition remove_child (c : Z) (l : list child) : list child := filter (fun x => pid x <> c) l.

(** [process_wait] up to the assignment of [lock_child_id]. *)
Definition process_wait (t c : Z) (p : proc) (s : system) : system :=
  match find_child c (child_list p) with
  | None => note (WaitUnknown t c) s
  | Some _ => go t (WaitCheck c) (upd t (set_lock_child c) s)
  end.

(** The changes of [exit_process] to the structures of the child in the parent's list. *)
Definition mark_waited (t : Z) (l : list child) : list child :=
  (fun x => if bool_decide (pid x = t) then mkChild (pid x) true (status x) else x) <$> l.
Definition mark_status (t st : Z) (l : list child) : list child :=
  (fun x => if bool_decide (pid x = t) then mkChild (pid x) (is_wait x) st else x) <$> l.

(** What a running program does next, and the result of [load]. *)
Inductive action : Set := Load (success : bool) | Execute (created : bool) | Wait (c : Z) | Exit (st : Z) | Go.

(** A change [f] of the thread structure of the parent, which ends the step that leads to
    [s']. *)
Definition on_parent (p : proc) (f : proc -> proc) (s s' : system) : res (option system) :=
  if parent_alive p s then Ret (Some (upd (parent_process p) f s')) else Ub.

(** [start_process]: the parent is told the result of [load]; without success the thread
    exits, and [process_exit] calls [exit_process (-1)]. *)
Definition start_process (t : Z) (p : proc) (a : action) (s : system) : res (option system) :=
  match at_ p, a with
  | Loading, Load ok => on_parent p (set_load_success ok) s (note (Loads t ok) (go t (Reporting ok) s))
  | Reporting ok, Go => on_parent p (add_token 1) s (go t (if ok then Running else ExitMark (-1)) s)
  | _, _ => Ret None
  end.

(** [process_execute] from [sema_down] on. *)
Definition process_execute_rest (t : Z) (p : proc) (a : action) (s : system) : res (option system) :=
  match at_ p, a with
  | ExecDown c, Go => Ret (if bool_decide (0 < child_lock p) then Some (go t (ExecRead c) (upd t (add_token (-1)) s)) else None)
  | ExecRead c, Go => Ret (Some (note (ExecReturns t c (if load_success p then c else -1)) (go t Running s)))
  | _, _ => Ret None
  end.

(** [process_wait] from the test of [is_wait] on. *)
Definition process_wait_rest (t : Z) (p : proc) (a : action) (s : system) : res (option system) :=
  match at_ p, a with
  | WaitCheck c, Go =>
      let! x := of_opt (find_child c (child_list p)) in
      Ret (Some (go t (if is_wait x then WaitReap c else WaitDown c) s))
  | WaitDown c, Go => Ret (if bool_decide (0 < child_lock p) then Some (go t (WaitReap c) (upd t (add_token (-1)) s)) else None)
  | WaitReap c, Go =>
      let! x := of_opt (find_child c (child_list p)) in
      Ret (Some (note (WaitReturns t c (status x)) (go t Running (upd t (set_children (remove_child c (child_list p))) s))))
  | _, _ => Ret None
  end.

(** [exit_process].  After it comes [thread_exit], where [process_exit] takes the exit code
    -2 for none and calls [exit_process (-1)]. *)
Definition exit_process (t : Z) (p : proc) (a : action) (s : system) : res (option system) :=
  match at_ p, a with
  | ExitMark st, Go =>
      on_parent p (fun q => set_children (mark_waited t (child_list q)) q) s (note (Exits t st) (go t (ExitStatus st) s))
  | ExitStatus st, Go => on_parent p (fun q => set_children (mark_status t st (child_list q)) q) s (go t (ExitCode st) s)
  | ExitCode st, Go => Ret (Some (go t ExitCheck (upd t (set_exit_code st) s)))
  | ExitCheck, Go =>
      on_parent p (fun q => if bool_decide (lock_child_id q = t) then add_token 1 q else q) s
        (go t (if bool_decide (exit_code p = -2) then ExitMark (-1) else ExitFree) s)
  | _, _ => Ret None
  end.

(** The end of [thread_exit]: the child structures are freed, and the thread is dead. *)
Definition free_children (t : Z) (a : action) (s : system) : res (option system) :=
  match a with Go => Ret (Some (go t Dead (upd t (set_children []) s))) | _ => Ret None end.

(** The next step of process [t]; [Ret None] when it cannot take this step now. *)
Definition step (t : Z) (a : action) (s : system) : res (option system) :=
  match procs s !! t with
  | None => Ret None
  | Some p =>
      match at_ p with
      | Loading | Reporting _ => start_process t p a s
      | Running =>
          match a with
          | Execute created => Ret (Some (process_execute t created s))
          | Wait c => Ret (Some (process_wait t c p s))
          | Exit st => Ret (Some (go t (ExitMark st) s))
          | _ => Ret None
          end
      | ExecDown _ | ExecRead _ => process_execute_rest t p a s
      | WaitCheck _ | WaitDown _ | WaitReap _ => process_wait_rest t p a s
      | ExitMark _ | ExitStatus _ | ExitCode _ | ExitCheck => exit_process t p a s
      | ExitFree => free_children t a s
      | Dead => Ret None
      end
  end.

(** The first thread, its own parent. *)
Definition boot : system := mkSystem {[1 := mkProc 1 [] 0 (-2) 0 false Running]} 2 [].

(** ** Interleavings *)

(** Places where another process must not run: between the two accesses of [process_wait]
    and inside [exit_process]. *)
Definition critical (x : point) : bool :=
  match x with WaitCheck _ | ExitStatus _ | ExitCode _ | ExitCheck => true | _ => false end.

(** A step of [t] does not fall into a critical place of another process. *)
Definition alone (t : Z) (s : system) : Prop := forall t' p, procs s !! t' = Some p -> critical (at_ p) = true -> t' = t.

(** The states of such interleavings; no program exits with status -2. *)
Inductive reachable : system -> Prop :=
| reach_boot : reachable boot
| reach_step s t a s' : reachable s -> alone t s -> a <> Exit (-2) -> step t a s = Ret (Some s') -> reachable s'.

(** ** Runs *)

Fixpoint steps (l : list (Z * action)) (s : system) : res (option system) :=
  match l with
  | [] => Ret (Some s)
  | (t, a) :: l =>
      let! o := step t a s in
      match o with Some s => steps l s | None => Ret None end
  end.

(** Whether all steps of a run are taken as [reachable] asks. *)
Definition alone_b (t : Z) (s : system) : bool :=
  forallb (fun x => negb (critical (at_ x.2)) || bool_decide (x.1 = t)) (map_to_list (procs s)).
Fixpoint undisturbed (l : list (Z * action)) (s : system) : bool :=
  match l with
  | [] => true
  | (t, a) :: l => alone_b t s && match a with Exit st => bool_decide (st <> -2) | _ => true end &&
      match step t a s with Ret (Some s) => undisturbed l s | _ => true end
  end.
