(* ===== verification/ProcsProof.v ===== *)
(** * The protocol of execute, wait and exit is correct, when it is not disturbed

    The invariant that connects [child_lock], the child structures and the places where the
    processes are, its preservation by every step, what the callers get, and runs in which
    an interrupt at the wrong moment breaks the protocol. *)

From S2P Require Import Prelude Procs.

(** ** The invariant *)

Definition past_load (x : point) : bool := match x with Loading | Reporting _ => false | _ => true end.
Definition marked (x : point) : bool :=
  match x with ExitStatus _ | ExitCode _ | ExitCheck | ExitFree | Dead => true | _ => false end.
Definition gone (x : point) : bool := match x with ExitFree | Dead => true | _ => false end.

(** The status that the parent will find. *)
Definition expected (c : proc) : option Z :=
  match at_ c with ExitCode st => Some st | ExitCheck | ExitFree | Dead => Some (exit_code c) | _ => None end.

(** What the parent sees of a process. *)
Definition face (c : proc) : Z * bool * bool * bool * option Z :=
  (parent_process c, past_load (at_ c), marked (at_ c), gone (at_ c), expected c).

Record child_ok (s : system) (t : Z) (x : child) (c : proc) : Prop := {
  co_proc : procs s !! pid x = Some c;
  co_parent : parent_process c = t;
  co_later : t < pid x;
  co_wait : is_wait x = marked (at_ c);
  co_status : forall st, expected c = Some st -> status x = st
}.

(** The value of [child_lock]: one when the child that the process waits for is done. *)
Definition tokens (s : system) (p : proc) : Z :=
  match at_ p with
  | ExecDown c =>
      if bool_decide (c <> TID_ERROR) && from_option (fun c => past_load (at_ c)) false (procs s !! c) then 1 else 0
  | WaitDown c => if from_option (fun c => gone (at_ c)) false (procs s !! c) then 1 else 0
  | _ => 0
  end.

Definition point_ok (s : system) (t : Z) (p : proc) : Prop :=
  match at_ p with
  | Loading => exists q, procs s !! parent_process p = Some q /\ at_ q = ExecDown t
  | Reporting ok => exists q, procs s !! parent_process p = Some q /\ at_ q = ExecDown t /\ load_success q = ok /\ Loads t ok ∈ log s
  | ExecDown c => c = TID_ERROR \/ exists x, procs s !! c = Some x /\ parent_process x = t /\ t < c /\
      (past_load (at_ x) = true -> Loads c (load_success p) ∈ log s)
  | ExecRead c => Loads c (load_success p) ∈ log s
  | WaitCheck c | WaitDown c => lock_child_id p = c /\ c ∈ pid <$> child_list p
  | WaitReap c => c ∈ pid <$> child_list p /\ exists x, procs s !! c = Some x /\ gone (at_ x) = true
  | ExitMark st => st <> -2
  | ExitStatus st | ExitCode st => st <> -2 /\ Exits t st ∈ log s
  | ExitCheck | ExitFree | Dead => exit_code p <> -2 /\ Exits t (exit_code p) ∈ log s
  | Running => True
  end.

Definition lock_ok (s : system) (t : Z) (p : proc) : Prop :=
  lock_child_id p = 0 \/ exists x, procs s !! lock_child_id p = Some x /\ parent_process x = t /\ t < lock_child_id p /\
    (gone (at_ x) = true \/ at_ p = WaitCheck (lock_child_id p) \/ at_ p = WaitDown (lock_child_id p)).

Record proc_ok (s : system) (t : Z) (p : proc) : Prop := {
  po_tid : 1 <= parent_process p <= t /\ t < next_tid s;
  po_children : forall x, x ∈ child_list p -> exists c, child_ok s t x c;
  po_distinct : NoDup (pid <$> child_list p);
  po_tokens : child_lock p = tokens s p;
  po_point : point_ok s t p;
  po_lock : lock_ok s t p
}.

Definition log_ok (s : system) : Prop :=
  (forall t c r, ExecReturns t c r ∈ log s -> exists ok, Loads c ok ∈ log s /\ r = if (ok : bool) then c else -1) /\
  (forall t c r, WaitReturns t c r ∈ log s -> Exits c r ∈ log s).

Record inv (s : system) : Prop := {
  inv_procs : forall t p, procs s !! t = Some p -> proc_ok s t p;
  inv_one : forall t1 t2 p1 p2, procs s !! t1 = Some p1 -> procs s !! t2 = Some p2 ->
    critical (at_ p1) = true -> critical (at_ p2) = true -> t1 = t2;
  inv_next : 2 <= next_tid s;
  inv_log : log_ok s
}.

Lemma system_boot_inv : inv boot.
Proof.
  split; [| |simpl; lia|].
  - simpl. intros t p [<- <-]%lookup_singleton_Some. split; simpl; [lia|by intros x ?%elem_of_nil|constructor|done|done|by left].
  - simpl. by intros t1 t2 p1 p2 [<- <-]%lookup_singleton_Some [<- <-]%lookup_singleton_Some.
  - by split; intros t c r ?%elem_of_nil.
Qed.

(** ** Steps that others do not notice *)

Lemma proc_ok_frame s s' t p : proc_ok s t p -> next_tid s <= next_tid s' -> (forall e, e ∈ log s -> e ∈ log s') ->
  (forall c x, procs s !! c = Some x -> parent_process x = t -> t < c -> exists x', procs s' !! c = Some x' /\ face x' = face x) ->
  (past_load (at_ p) = false -> forall q, procs s !! parent_process p = Some q ->
     exists q', procs s' !! parent_process p = Some q' /\ at_ q' = at_ q /\ load_success q' = load_success q) ->
  proc_ok s' t p.
Proof.
  intros [Ht Hc Hd Htok Hpt Hl] Hn Hlog Hface Hup.
  assert (forall x c, child_ok s t x c -> exists c', child_ok s' t x c') as Hchild.
  { intros x c [H1 H2 H3 H4 H5]. destruct (Hface _ _ H1 H2 H3) as (c' & Hc' & Hf). exists c'. injection Hf as F1 F2 F3 F4 F5.
    split; [done|congruence|done|congruence|]. intros st. rewrite F5. apply H5. }
  assert (forall c, c ∈ pid <$> child_list p -> exists x x', procs s !! c = Some x /\ procs s' !! c = Some x' /\ face x' = face x) as Hpid.
  { intros c (x & -> & Hx)%list_elem_of_fmap. destruct (Hc x Hx) as [y [H1 H2 H3 _ _]]. destruct (Hface _ _ H1 H2 H3) as (y' & ? & ?). eauto. }
  split; [lia| |done| | |].
  - intros x Hx. destruct (Hc x Hx) as [c Hok]. by eapply Hchild.
  - rewrite Htok. unfold tokens. unfold point_ok in Hpt. destruct (at_ p) as [| | |c| | |c| | | | | | |]; try done.
    + case_bool_decide as Hne; [|done]. destruct Hpt as [->|(x & Hx & Hp & Hlt & _)]; [done|].
      destruct (Hface _ _ Hx Hp Hlt) as (x' & -> & Hf). rewrite Hx. simpl. by injection Hf as _ -> _ _ _.
    + destruct Hpt as [_ Hin]. destruct (Hpid c Hin) as (x & x' & -> & -> & Hf). simpl. by injection Hf as _ _ _ -> _.
  - unfold point_ok in *. destruct (at_ p) as [|ok| |c| | | |c| | | | | |];
      try exact Hpt; try (apply Hlog, Hpt); try (split; [apply Hpt|apply Hlog, Hpt]).
    + destruct Hpt as (q & Hq & Hat). destruct (Hup eq_refl q Hq) as (q' & -> & Hat' & _). eexists. split; [done|congruence].
    + destruct Hpt as (q & Hq & Hat & Hls & Hlg). destruct (Hup eq_refl q Hq) as (q' & -> & Hat' & Hl'). eexists. split; [done|].
      split_and!; [congruence..|auto].
    + destruct Hpt as [->|(x & Hx & Hp & Hlt & Hld)]; [by left|right]. destruct (Hface _ _ Hx Hp Hlt) as (x' & Hx' & Hf).
      injection Hf as F1 F2 _ _ _. exists x'. split_and!; [done|congruence|done|]. rewrite F2. auto.
    + destruct Hpt as [Hin (x & Hx & Hg)]. split; [done|]. destruct (Hpid c Hin) as (y & y' & Hy & Hy' & Hf). exists y'. split; [done|].
      rewrite Hx in Hy. injection Hy as <-. by injection Hf as _ _ _ -> _.
  - destruct Hl as [Hl|(x & Hx & Hp & Hlt & Hg)]; [by left|right]. destruct (Hface _ _ Hx Hp Hlt) as (x' & Hx' & Hf).
    injection Hf as F1 _ _ F4 _. exists x'. split_and!; [done|congruence|done|]. by rewrite F4.
Qed.

Lemma own_step s s' t p p' : inv s -> alone t s -> procs s !! t = Some p -> procs s' = <[t := p']> (procs s) ->
  next_tid s' = next_tid s -> (forall e, e ∈ log s -> e ∈ log s') -> log_ok s' ->
  parent_process p' = parent_process p -> face p' = face p \/ parent_process p = t ->
  (forall c x, procs s !! c = Some x -> parent_process x = t -> past_load (at_ x) = false ->
     at_ p' = at_ p /\ load_success p' = load_success p) ->
  proc_ok s' t p' -> inv s'.
Proof.
  intros Hi Hal Hp Hps Hn Hlog Hlok Hpar Hface Hld Hok. split.
  - intros r pr Hr. rewrite Hps in Hr. destruct (decide (r = t)) as [->|Hrt].
    { rewrite lookup_insert_eq in Hr. by injection Hr as <-. }
    rewrite lookup_insert_ne in Hr by done. apply (proc_ok_frame s); [by apply Hi|lia|done| |].
    + intros c x Hx Hpx _. rewrite Hps. destruct (decide (c = t)) as [->|Hct].
      * rewrite lookup_insert_eq. rewrite Hp in Hx. injection Hx as <-. exists p'. split; [done|]. destruct Hface; [done|congruence].
      * rewrite lookup_insert_ne by done. eauto.
    + intros Hlr q Hq. rewrite Hps. destruct (decide (parent_process pr = t)) as [Hpt|Hpt].
      * rewrite Hpt in *. rewrite lookup_insert_eq. rewrite Hp in Hq. injection Hq as <-. exists p'. split; [done|]. by eapply Hld.
      * rewrite lookup_insert_ne by done. eauto.
  - assert (forall u pu, procs s' !! u = Some pu -> critical (at_ pu) = true -> u = t) as Hone.
    { intros u pu Hu Hcr. rewrite Hps in Hu. destruct (decide (u = t)) as [->|]; [done|]. rewrite lookup_insert_ne in Hu by done.
      by eapply Hal. }
    intros t1 t2 p1 p2 H1 H2 C1 C2. by rewrite (Hone _ _ H1 C1), (Hone _ _ H2 C2).
  - rewrite Hn. apply Hi.
  - done.
Qed.

Lemma parent_step s s' t p p' q q0 q1 : inv s -> alone t s -> procs s !! t = Some p -> parent_process p = q -> q <> t ->
  procs s !! q = Some q0 -> procs s' = <[q := q1]> (<[t := p']> (procs s)) ->
  next_tid s' = next_tid s -> (forall e, e ∈ log s -> e ∈ log s') -> log_ok s' ->
  face q1 = face q0 -> at_ q1 = at_ q0 -> (load_success q1 = load_success q0 \/ at_ q0 = ExecDown t) ->
  (forall c x, procs s !! c = Some x -> parent_process x = t -> past_load (at_ x) = true) ->
  proc_ok s' t p' -> proc_ok s' q q1 -> inv s'.
Proof.
  intros Hi Hal Hp Hpar Hqt Hq Hps Hn Hlog Hlok Hface Hat Hls Hld Hok Hokq. split.
  - intros r pr Hr. rewrite Hps in Hr. destruct (decide (r = q)) as [->|Hrq].
    { rewrite lookup_insert_eq in Hr. by injection Hr as <-. }
    rewrite lookup_insert_ne in Hr by done. destruct (decide (r = t)) as [->|Hrt].
    { rewrite lookup_insert_eq in Hr. by injection Hr as <-. }
    rewrite lookup_insert_ne in Hr by done. apply (proc_ok_frame s); [by apply Hi|lia|done| |].
    + intros c x Hx Hpx _. rewrite Hps. destruct (decide (c = q)) as [->|Hcq].
      * rewrite lookup_insert_eq. rewrite Hq in Hx. injection Hx as <-. eauto.
      * rewrite lookup_insert_ne by done. rewrite lookup_insert_ne; [eauto|]. intros <-. congruence.
    + intros Hlr y Hy. rewrite Hps. destruct (decide (parent_process pr = t)) as [Hpt|Hpt].
      { rewrite (Hld r pr Hr Hpt) in Hlr. done. }
      destruct (decide (parent_process pr = q)) as [Hpq|Hpq].
      * rewrite Hpq in *. rewrite lookup_insert_eq. rewrite Hq in Hy. injection Hy as <-. exists q1. split_and!; try done.
        destruct Hls as [|Hx]; [done|]. exfalso. destruct (inv_procs _ Hi r pr Hr) as [_ _ _ _ Hpt' _]. unfold point_ok in Hpt'.
        rewrite Hpq, Hq in Hpt'. destruct (at_ pr) as [| | | | | | | | | | | | |]; try done; naive_solver congruence.
      * rewrite !lookup_insert_ne by done. eauto.
  - assert (forall u pu, procs s' !! u = Some pu -> critical (at_ pu) = true -> u = t) as Hone.
    { intros u pu Hu Hcr. rewrite Hps in Hu. destruct (decide (u = q)) as [->|].
      - rewrite lookup_insert_eq in Hu. injection Hu as <-. rewrite Hat in Hcr. by eapply Hal.
      - rewrite lookup_insert_ne in Hu by done. destruct (decide (u = t)) as [->|]; [done|].
        rewrite lookup_insert_ne in Hu by done. by eapply Hal. }
    intros t1 t2 p1 p2 H1 H2 C1 C2. by rewrite (Hone _ _ H1 C1), (Hone _ _ H2 C2).
  - rewrite Hn. apply Hi.
  - done.
Qed.

Lemma loading_child s t c x p : inv s -> procs s !! c = Some x -> parent_process x = t -> past_load (at_ x) = false ->
  procs s !! t = Some p -> at_ p = ExecDown c.
Proof.
  intros Hi Hx Hpx Hl Hp. destruct (inv_procs _ Hi c x Hx) as [_ _ _ _ Hpt _]. unfold point_ok in Hpt. rewrite Hpx, Hp in Hpt.
  destruct (at_ x); try done; naive_solver.
Qed.

Lemma no_loading s t p : inv s -> procs s !! t = Some p -> (forall c, at_ p <> ExecDown c) ->
  forall c x, procs s !! c = Some x -> parent_process x = t -> past_load (at_ x) = true.
Proof.
  intros Hi Hp Hne c x Hx Hpx. destruct (past_load (at_ x)) eqn:E; [done|]. destruct (Hne c). by eapply loading_child.
Qed.

Lemma own_frame s s' t p p' : proc_ok s t p -> past_load (at_ p) = true -> procs s' = <[t := p']> (procs s) ->
  next_tid s' = next_tid s -> (forall e, e ∈ log s -> e ∈ log s') -> proc_ok s' t p.
Proof.
  intros Hok Hl Hps Hn Hlog. apply (proc_ok_frame s); [done|lia|done| |by rewrite Hl].
  intros c x Hx _ Hlt. rewrite Hps, lookup_insert_ne by lia. eauto.
Qed.

Lemma lock_ok_move s t p p' : lock_ok s t p -> lock_child_id p' = lock_child_id p ->
  (forall c, at_ p <> WaitCheck c) -> (forall c, at_ p <> WaitDown c) -> lock_ok s t p'.
Proof. intros [Hl|(x & Hx & Hp & Hlt & Hg)] He H1 H2; [left; congruence|right]. rewrite He. exists x. split_and!; try done. naive_solver. Qed.

Lemma proc_ok_move s t p p' : proc_ok s t p -> parent_process p' = parent_process p -> child_list p' = child_list p -> child_lock p' = tokens s p' -> point_ok s t p' ->
  lock_ok s t p' -> proc_ok s t p'.
Proof. intros [] Hpar Hc Ht Hpt Hl. split; rewrite ?Hc, ?Hpar; done. Qed.

Lemma upd_some t f s p : procs s !! t = Some p -> procs (upd t f s) = <[t := f p]> (procs s).
Proof. intros H. simpl. rewrite <- (insert_id (procs s) t p) at 1 by done. apply alter_insert_eq. Qed.

Lemma log_ok_note s s' e : log s' = log s ++ [e] -> log_ok s ->
  match e with
  | ExecReturns _ c r => exists ok, Loads c ok ∈ log s /\ r = if (ok : bool) then c else -1
  | WaitReturns _ c r => Exits c r ∈ log s
  | _ => True
  end -> log_ok s'.
Proof.
  intros Hl [H1 H2] He. unfold log_ok. rewrite Hl. setoid_rewrite elem_of_app. setoid_rewrite list_elem_of_singleton. split.
  - intros t c r [Hin|<-]; [|naive_solver]. destruct (H1 _ _ _ Hin) as (ok & ? & ?). eauto.
  - intros t c r [Hin|<-]; [|naive_solver]. left. by eapply H2.
Qed.

Lemma find_child_some c l x : find_child c l = Some x -> x ∈ l /\ pid x = c.
Proof. intros Hf. apply last_Some_elem_of in Hf. by apply list_elem_of_filter in Hf as [? ?]. Qed.

(** A process moves on by itself: the usual case. *)
Lemma move_inv s s' t p p' : inv s -> alone t s -> procs s !! t = Some p -> past_load (at_ p) = true ->
  procs s' = <[t := p']> (procs s) -> next_tid s' = next_tid s -> (forall e, e ∈ log s -> e ∈ log s') -> log_ok s' ->
  parent_process p' = parent_process p -> face p' = face p ->
  (forall c x, procs s !! c = Some x -> parent_process x = t -> past_load (at_ x) = true) ->
  child_list p' = child_list p -> child_lock p' = tokens s' p' -> point_ok s' t p' ->
  (proc_ok s' t p -> lock_ok s' t p') -> inv s'.
Proof.
  intros Hi Hal Hp Hl Hps Hn Hlog Hlok Hpar Hface Hld Hc Htok Hpt Hlk.
  apply (own_step s s' t p p'); try done; [by left| |].
  - intros c x Hx Hpx Hlx. by rewrite (Hld c x Hx Hpx) in Hlx.
  - assert (proc_ok s' t p) by (apply (own_frame s s' t p p'); try done; by apply Hi). apply (proc_ok_move _ _ p); auto.
Qed.

(** ** The steps *)

Section Steps.
Context (s : system) (t : Z) (p : proc).
Context (Hi : inv s) (Hal : alone t s) (Hp : procs s !! t = Some p).

#[local] Set Default Proof Using "All".

Lemma self_ok : proc_ok s t p.
Proof. by apply Hi. Qed.

Lemma token_zero : (forall c, at_ p <> ExecDown c) -> (forall c, at_ p <> WaitDown c) -> child_lock p = 0.
Proof. intros H1 H2. rewrite (po_tokens _ _ _ self_ok). unfold tokens. destruct (at_ p); naive_solver. Qed.

(** The child structure of [c] in the list and the process itself. *)
Lemma child_of c : c ∈ pid <$> child_list p -> exists x y, x ∈ child_list p /\ pid x = c /\ child_ok s t x y.
Proof.
  intros (x & -> & Hx)%list_elem_of_fmap. destruct (po_children _ _ _ self_ok x Hx) as [y Hy]. eauto.
Qed.

(** The side conditions that [at_ p] alone decides. *)
Ltac by_point Hat :=
  try (by apply upd_some); try (apply Hi); try (by rewrite Hat);
  try (unfold face, expected; simpl; by rewrite Hat);
  try (eapply no_loading; [done|done|by rewrite Hat]);
  try (simpl; apply token_zero; by rewrite Hat);
  try (intros [_ _ _ _ _ ?]; eapply lock_ok_move; [done|done|by rewrite Hat|by rewrite Hat]).

Lemma exit_call_inv st : at_ p = Running -> st <> -2 -> inv (go t (ExitMark st) s).
Proof. intros Hat Hst. apply (move_inv s _ t p (set_at (ExitMark st) p)); try done; by_point Hat. Qed.

Lemma exec_failed_inv : at_ p = Running -> inv (go t (ExecDown TID_ERROR) s).
Proof. intros Hat. apply (move_inv s _ t p (set_at (ExecDown TID_ERROR) p)); try done; by_point Hat. by left. Qed.

Lemma exec_read_inv c : at_ p = ExecRead c ->
  inv (note (ExecReturns t c (if load_success p then c else -1)) (go t Running s)).
Proof.
  intros Hat. apply (move_inv s _ t p (set_at Running p)); try done; by_point Hat.
  - intros e He. apply elem_of_app. by left.
  - eapply log_ok_note; [done|apply Hi|]. exists (load_success p). split; [|done].
    pose proof (po_point _ _ _ self_ok) as Hpt. unfold point_ok in Hpt. by rewrite Hat in Hpt.
Qed.

Lemma upd2_some f g : procs (upd t g (upd t f s)) = <[t := g (f p)]> (procs s).
Proof. rewrite (upd_some t g _ (f p)); rewrite (upd_some t f s p) by done; [by rewrite insert_insert_eq|apply lookup_insert_eq]. Qed.

Lemma wait_unknown_inv c : inv (note (WaitUnknown t c) s).
Proof.
  apply (own_step s _ t p p); try done; simpl.
  - by rewrite insert_id.
  - intros e He. apply elem_of_app. by left.
  - eapply log_ok_note; [done|apply Hi|done].
  - by left.
  - apply (proc_ok_frame s); simpl; [apply self_ok|lia| |eauto|eauto]. intros e He. apply elem_of_app. by left.
Qed.

Lemma wait_call_inv c x : at_ p = Running -> find_child c (child_list p) = Some x ->
  inv (go t (WaitCheck c) (upd t (set_lock_child c) s)).
Proof.
  intros Hat [Hx Hc]%find_child_some.
  assert (c ∈ pid <$> child_list p) as Hin by (rewrite <- Hc; by apply list_elem_of_fmap_2).
  apply (move_inv s _ t p (set_at (WaitCheck c) (set_lock_child c p))); try done; by_point Hat.
  - apply upd2_some.
  - intros Hok. destruct (po_children _ _ _ Hok x Hx) as [y [H1 H2 H3 H4 H5]]. right. exists y. subst c. split_and!; [exact H1|done|done|by right; left].
Qed.

Lemma wait_check_inv c x : at_ p = WaitCheck c -> find_child c (child_list p) = Some x ->
  inv (go t (if is_wait x then WaitReap c else WaitDown c) s).
Proof.
  intros Hat [Hx Hc]%find_child_some.
  assert (c ∈ pid <$> child_list p) as Hin by (rewrite <- Hc; by apply list_elem_of_fmap_2).
  destruct (po_children _ _ _ self_ok x Hx) as [y [H1 H2 H3 H4 H5]]. rewrite Hc in *.
  assert (critical (at_ y) = false) as Hcr.
  { destruct (critical (at_ y)) eqn:E; [|done]. pose proof (Hal _ _ H1 E). lia. }
  assert (marked (at_ y) = gone (at_ y)) as Hmg by (by destruct (at_ y)).
  pose proof (po_point _ _ _ self_ok) as Hpt. unfold point_ok in Hpt. rewrite Hat in Hpt. destruct Hpt as [Hlk _].
  set (x' := if is_wait x then WaitReap c else WaitDown c).
  assert (procs (go t x' s) !! c = Some y) as Hy.
  { unfold go. rewrite (upd_some t _ s p) by done. by rewrite lookup_insert_ne by lia. }
  apply (move_inv s _ t p (set_at x' p)); try done; by_point Hat.
  - unfold face, expected. simpl. rewrite Hat. unfold x'. by destruct (is_wait x).
  - transitivity 0; [simpl; apply token_zero; by rewrite Hat|]. unfold tokens, x' in *. simpl at_. rewrite H4, Hmg in *.
    destruct (gone (at_ y)) eqn:E; [done|]. rewrite Hy. simpl. by rewrite E.
  - unfold point_ok, x' in *. simpl at_. rewrite H4, Hmg in *. destruct (gone (at_ y)) eqn:E; [|done].
    split; [done|]. exists y. split; [exact Hy|done].
  - intros _. right. exists y. simpl. rewrite Hlk. split_and!; [exact Hy|done|done|]. unfold x'. rewrite H4, Hmg.
    destruct (gone (at_ y)) eqn:E; [by left|by right; right].
Qed.

Lemma wait_down_inv c : at_ p = WaitDown c -> 0 < child_lock p -> inv (go t (WaitReap c) (upd t (add_token (-1)) s)).
Proof.
  intros Hat Hlk. pose proof (po_tokens _ _ _ self_ok) as Htok. unfold tokens in Htok. rewrite Hat in Htok.
  pose proof (po_point _ _ _ self_ok) as Hpt. unfold point_ok in Hpt. rewrite Hat in Hpt. destruct Hpt as [Hid Hin].
  destruct (child_of c Hin) as (x & y & Hx & Hc & [H1 H2 H3 H4 H5]). rewrite Hc in *. rewrite H1 in Htok. simpl in Htok.
  destruct (gone (at_ y)) eqn:E; [|lia].
  assert (procs (go t (WaitReap c) (upd t (add_token (-1)) s)) = <[t := set_at (WaitReap c) (add_token (-1) p)]> (procs s)) as Hps
    by apply upd2_some.
  apply (move_inv s _ t p (set_at (WaitReap c) (add_token (-1) p))); try done; by_point Hat.
  - simpl. rewrite Htok. done.
  - unfold point_ok. simpl at_. split; [done|]. exists y. split; [|done]. rewrite Hps, lookup_insert_ne by lia. done.
  - intros _. right. exists y. simpl lock_child_id. rewrite Hid, Hps, lookup_insert_ne by lia. auto.
Qed.

Lemma exec_down_inv c : at_ p = ExecDown c -> 0 < child_lock p -> inv (go t (ExecRead c) (upd t (add_token (-1)) s)).
Proof.
  intros Hat Hlk. pose proof (po_tokens _ _ _ self_ok) as Htok. unfold tokens in Htok. rewrite Hat in Htok.
  pose proof (po_point _ _ _ self_ok) as Hpt. unfold point_ok in Hpt. rewrite Hat in Hpt.
  case_bool_decide as Hne; [|simpl in Htok; lia]. destruct Hpt as [?|(y & Hy & Hpy & Hlt & Hld)]; [done|]. rewrite Hy in Htok.
  simpl in Htok. destruct (past_load (at_ y)) eqn:E; [|lia].
  apply (move_inv s _ t p (set_at (ExecRead c) (add_token (-1) p))); try done; by_point Hat.
  - apply upd2_some.
  - intros c2 x2 Hx2 Hpx2. destruct (past_load (at_ x2)) eqn:E2; [done|].
    pose proof (loading_child s t c2 x2 p Hi Hx2 Hpx2 E2 Hp) as Hat2. rewrite Hat in Hat2. injection Hat2 as <-. congruence.
  - simpl. by rewrite Htok.
  - by apply Hld.
Qed.

Lemma exit_code_inv st : at_ p = ExitCode st -> inv (go t ExitCheck (upd t (set_exit_code st) s)).
Proof.
  intros Hat. pose proof (po_point _ _ _ self_ok) as Hpt. unfold point_ok in Hpt. rewrite Hat in Hpt.
  apply (move_inv s _ t p (set_at ExitCheck (set_exit_code st p))); try done; by_point Hat. apply upd2_some.
Qed.

(** A process gives up some or all of its child structures. *)
Lemma drop_children_inv s' l x : (forall c, at_ p <> ExecDown c) -> (forall c, at_ p <> WaitDown c) -> (forall c, at_ p <> WaitCheck c) ->
  past_load (at_ p) = true -> x = Running \/ x = Dead ->
  l `sublist_of` child_list p -> procs s' = <[t := set_at x (set_children l p)]> (procs s) -> next_tid s' = next_tid s ->
  (forall e, e ∈ log s -> e ∈ log s') -> log_ok s' -> face (set_at x (set_children l p)) = face p ->
  point_ok s' t (set_at x (set_children l p)) -> inv s'.
Proof.
  intros N1 N2 N3 Hpl Hx Hl Hps Hn Hlog Hlok Hface Hpt. apply (own_step s _ t p (set_at x (set_children l p))); try done; [by left| |].
  - intros c y Hy Hpy Hly. by rewrite (no_loading s t p Hi Hp N1 c y Hy Hpy) in Hly.
  - assert (proc_ok s' t p) as [O1 O2 O3 O4 O5 O6] by (eapply own_frame; [apply self_ok|done..]). split; simpl.
    + done.
    + intros y Hy. apply O2. eapply elem_of_sublist; done.
    + eapply sublist_NoDup; [exact O3|]. by apply (fmap_sublist pid).
    + rewrite token_zero by done. unfold tokens. simpl. by destruct Hx as [->| ->].
    + done.
    + by eapply lock_ok_move.
Qed.

Lemma wait_reap_inv c x : at_ p = WaitReap c -> find_child c (child_list p) = Some x ->
  inv (note (WaitReturns t c (status x)) (go t Running (upd t (set_children (remove_child c (child_list p))) s))).
Proof.
  intros Hat [Hx Hc]%find_child_some. pose proof (po_point _ _ _ self_ok) as Hpt. unfold point_ok in Hpt. rewrite Hat in Hpt.
  destruct Hpt as [_ (y & Hy & Hg)]. destruct (po_children _ _ _ self_ok x Hx) as [y' [H1 H2 H3 H4 H5]]. rewrite Hc in *. rewrite Hy in H1.
  injection H1 as <-. eapply (drop_children_inv _ (remove_child c (child_list p)) Running); try (by rewrite Hat); try done.
  - by left.
  - apply sublist_filter.
  - apply upd2_some.
  - intros e He. apply elem_of_app. by left.
  - eapply log_ok_note; [done|apply Hi|]. pose proof (po_point _ _ _ (inv_procs _ Hi c y Hy)) as Hpy. unfold point_ok in Hpy.
    rewrite (H5 (exit_code y)); [|unfold expected; by destruct (at_ y)]. destruct (at_ y); try done; apply Hpy.
  - unfold face, expected. simpl. by rewrite Hat.
Qed.

Lemma exit_free_inv : at_ p = ExitFree -> inv (go t Dead (upd t (set_children []) s)).
Proof.
  intros Hat. pose proof (po_point _ _ _ self_ok) as Hpt. unfold point_ok in Hpt. rewrite Hat in Hpt.
  eapply (drop_children_inv _ [] Dead); try (by rewrite Hat); try done.
  - by right.
  - apply sublist_nil_l.
  - apply upd2_some.
  - apply Hi.
  - unfold face, expected. simpl. by rewrite Hat.
Qed.

(** ** Steps that the parent notices *)

Lemma undisturbed_ok s' p' x : past_load (at_ p) = false \/ (exists st, at_ p = ExitMark st \/ at_ p = ExitStatus st) \/ at_ p = ExitCheck ->
  (forall c y, procs s !! c = Some y -> t < c -> parent_process y = t -> procs s' !! c = Some y) ->
  next_tid s' = next_tid s -> (forall e, e ∈ log s -> e ∈ log s') ->
  p' = set_at x p -> (forall c, x <> ExecDown c) -> (forall c, x <> WaitDown c) -> point_ok s' t p' -> proc_ok s' t p'.
Proof.
  intros Hat Hch Hn Hlog -> N1 N2 Hpt.
  assert (N3 : (forall c, at_ p <> ExecDown c) /\ (forall c, at_ p <> WaitDown c) /\ (forall c, at_ p <> WaitCheck c))
    by (destruct (at_ p); naive_solver).
  destruct N3 as (N3 & N4 & N5). pose proof self_ok as Hok.
  assert (proc_ok s t (set_at Running p)) as Hidle.
  { apply (proc_ok_move s t p); try done; [simpl; by apply token_zero|]. eapply lock_ok_move; [apply Hok|done..]. }
  assert (proc_ok s' t (set_at Running p)) as Hidle'.
  { apply (proc_ok_frame s); [done|lia|done| |done]. intros c y Hy Hpy Hlt. eauto. }
  apply (proc_ok_move s' t (set_at Running p)); try done.
  - simpl. rewrite token_zero by done. unfold tokens. simpl. destruct x; naive_solver.
  - eapply lock_ok_move; [apply Hidle'|done..].
Qed.

(** The parent after a step of [t]: [g] changes the child structures of [t]. *)
Lemma noticed_ok s' p' q0 q1 g : let q := parent_process p in
  q <> t -> procs s !! q = Some q0 -> (forall c, at_ p <> ExecDown c) ->
  procs s' = <[q := q1]> (<[t := p']> (procs s)) -> next_tid s' = next_tid s -> (forall e, e ∈ log s -> e ∈ log s') ->
  parent_process p' = q -> parent_process q1 = parent_process q0 -> at_ q1 = at_ q0 -> lock_child_id q1 = lock_child_id q0 ->
  exit_code q1 = exit_code q0 ->
  load_success q1 = load_success q0 \/ at_ q0 = ExecDown t ->
  child_list q1 = g <$> child_list q0 -> (forall x, pid (g x) = pid x) -> (forall x, pid x <> t -> g x = x) ->
  (forall x, child_ok s q x p -> pid x = t -> is_wait (g x) = marked (at_ p') /\ forall st, expected p' = Some st -> status (g x) = st) ->
  child_lock q1 = tokens s' q1 -> (gone (at_ p) = true -> gone (at_ p') = true) ->
  (at_ q0 = ExecDown t -> past_load (at_ p') = true -> Loads t (load_success q1) ∈ log s') -> proc_ok s' q q1.
Proof.
  intros q Hqt Hq N1 Hps Hn Hlog Hpar Hparq Hat Hlk Hec Hls Hcl Hg1 Hg2 Hg3 Htok Hgone Hld.
  destruct (inv_procs _ Hi q q0 Hq) as [O1 O2 O3 O4 O5 O6].
  assert (procs s' !! t = Some p') as Ht by (rewrite Hps, lookup_insert_ne by done; apply lookup_insert_eq).
  assert (forall c y, procs s !! c = Some y -> c <> q -> exists y', procs s' !! c = Some y' /\ parent_process y' = parent_process y /\
    (gone (at_ y) = true -> gone (at_ y') = true) /\ (c <> t -> y' = y)) as Hsee.
  { intros c y Hy Hcq. destruct (decide (c = t)) as [->|Hct].
    - exists p'. rewrite Hp in Hy. injection Hy as <-. by split_and!.
    - exists y. rewrite Hps, !lookup_insert_ne by done. by split_and!. }
  split; [rewrite Hparq; lia| | |done| |].
  - intros x' Hx'. rewrite Hcl in Hx'. apply list_elem_of_fmap in Hx' as (x & -> & Hx). destruct (O2 x Hx) as [y Hy].
    destruct (decide (pid x = t)) as [Hxt|Hxt].
    + assert (y = p) as -> by (destruct Hy as [Hy _ _ _ _]; rewrite Hxt in Hy; congruence).
      destruct (Hg3 x Hy Hxt) as [Hw Hst]. exists p'. destruct Hy as [_ _ Hlt _ _]. split; rewrite ?Hg1, ?Hxt; try done. lia.
    + rewrite Hg2 by done. exists y. destruct Hy as [H1 H2 H3 H4 H5]. split; try done. rewrite Hps, !lookup_insert_ne by lia. done.
  - rewrite Hcl, <- list_fmap_compose. by erewrite list_fmap_ext by (intros; apply Hg1).
  - unfold point_ok in *. rewrite Hat. rewrite Hparq, Hec.
    assert (forall c, c ∈ pid <$> child_list q0 -> c ∈ pid <$> child_list q1) as Hpid.
    { intros c Hc. rewrite Hcl, <- list_fmap_compose. by erewrite list_fmap_ext by (intros; apply Hg1). }
    destruct (at_ q0) as [|ok| |c|c|c|c|c| | | | | |] eqn:Hatq; try done; rewrite ?Hlk; try (split; [apply O5|apply Hlog, O5]);
      try (destruct O5; split; auto; fail).
    + destruct O5 as (z & Hz & Hatz). exists z. split; [|done]. rewrite Hps, !lookup_insert_ne; [done| |]; intros Heq; rewrite <- Heq in Hz.
      * rewrite Hp in Hz. injection Hz as <-. by destruct (N1 q).
      * rewrite Hq in Hz. injection Hz as <-. congruence.
    + destruct O5 as (z & Hz & Hatz & Hlz & Hlgz). exists z. split_and!; try done; [|auto].
      rewrite Hps, !lookup_insert_ne; [done| |]; intros Heq; rewrite <- Heq in Hz.
      * rewrite Hp in Hz. injection Hz as <-. by destruct (N1 q).
      * rewrite Hq in Hz. injection Hz as <-. congruence.
    + destruct O5 as [->|(y & Hy & Hpy & Hlt & Hld0)]; [by left|right]. destruct (Hsee c y Hy ltac:(lia)) as (y' & Hy' & Hpy' & _ & Hyeq).
      exists y'. split_and!; [done|congruence|done|]. destruct (decide (c = t)) as [->|Hct].
      * rewrite Ht in Hy'. injection Hy' as <-. auto.
      * rewrite Hyeq by done. destruct Hls as [->|[=]]; [auto|done].
    + destruct Hls as [->|[=]]. by apply Hlog.
    + destruct O5 as [Hin (y & Hy & Hg)]. split; [auto|]. pose proof Hin as (x & -> & Hx)%list_elem_of_fmap.
      destruct (O2 x Hx) as [z [_ _ Hlt _ _]]. destruct (Hsee (pid x) y Hy ltac:(lia)) as (y' & Hy' & _ & Hgy & _). eauto.
  - destruct O6 as [Hl|(y & Hy & Hpy & Hlt & Hg)]; [left; congruence|right]. rewrite Hlk, Hat.
    destruct (Hsee _ y Hy ltac:(lia)) as (y' & Hy' & Hpy' & Hgy & _). exists y'. split_and!; [done|congruence|done|]. tauto.
Qed.

Lemma on_parent_procs x f q0 : parent_process p <> t -> procs s !! parent_process p = Some q0 ->
  alter f (parent_process p) (alter (set_at x) t (procs s)) = <[parent_process p := f q0]> (<[t := set_at x p]> (procs s)).
Proof.
  intros Hne Hq. pose proof (upd_some t (set_at x) s p Hp) as E. simpl in E. rewrite E.
  pose proof (upd_some (parent_process p) f (mkSystem (<[t := set_at x p]> (procs s)) 0 []) q0) as E2. simpl in E2. apply E2.
  by rewrite lookup_insert_ne.
Qed.

Lemma alive_parent : parent_alive p s = true -> exists q0, procs s !! parent_process p = Some q0.
Proof. unfold parent_alive. destruct (procs s !! parent_process p); [eauto|done]. Qed.

(** A step of [t] together with a change to its parent. *)
Lemma report_inv s' x q0 q1 g : parent_process p <> t -> procs s !! parent_process p = Some q0 ->
  past_load (at_ p) = false \/ (exists st, at_ p = ExitMark st \/ at_ p = ExitStatus st) \/ at_ p = ExitCheck ->
  procs s' = <[parent_process p := q1]> (<[t := set_at x p]> (procs s)) -> next_tid s' = next_tid s ->
  (forall e, e ∈ log s -> e ∈ log s') -> log_ok s' ->
  parent_process q1 = parent_process q0 -> at_ q1 = at_ q0 -> lock_child_id q1 = lock_child_id q0 -> exit_code q1 = exit_code q0 ->
  load_success q1 = load_success q0 \/ at_ q0 = ExecDown t ->
  child_list q1 = g <$> child_list q0 -> (forall x, pid (g x) = pid x) -> (forall x, pid x <> t -> g x = x) ->
  (forall c, child_ok s (parent_process p) c p -> pid c = t ->
     is_wait (g c) = marked x /\ forall st, expected (set_at x p) = Some st -> status (g c) = st) ->
  child_lock q1 = tokens s' q1 -> (gone (at_ p) = true -> gone x = true) ->
  (at_ q0 = ExecDown t -> past_load x = true -> Loads t (load_success q1) ∈ log s') ->
  (forall c, x <> ExecDown c) -> (forall c, x <> WaitDown c) -> point_ok s' t (set_at x p) -> inv s'.
Proof.
  intros Hqt Hq Hat Hps Hn Hlog Hlok Q1 Q2 Q3 Q4 Q5 Q6 G1 G2 G3 Htok Hgone Hld X1 X2 Hpt.
  assert (N1 : forall c, at_ p <> ExecDown c) by (destruct (at_ p); naive_solver).
  pose proof (po_tid _ _ _ self_ok) as Htid.
  apply (parent_step s s' t p (set_at x p) (parent_process p) q0 q1); try done.
  - unfold face, expected. by rewrite Q1, Q2, Q4.
  - by eapply no_loading.
  - eapply (undisturbed_ok s' (set_at x p) x); try done. intros c y Hy Hlt Hpy. rewrite Hps, !lookup_insert_ne by lia. done.
  - eapply (noticed_ok s' (set_at x p) q0 q1 g); try done.
Qed.

Lemma load_inv ok : at_ p = Loading -> parent_alive p s = true ->
  inv (upd (parent_process p) (set_load_success ok) (note (Loads t ok) (go t (Reporting ok) s))).
Proof.
  intros Hat [q0 Hq]%alive_parent. pose proof (po_point _ _ _ self_ok) as Hpt. unfold point_ok in Hpt. rewrite Hat, Hq in Hpt.
  destruct Hpt as (? & [= <-] & Hatq).
  assert (parent_process p <> t) as Hqt by (intros Heq; rewrite Heq in Hq; congruence).
  set (s' := upd _ _ _).
  assert (procs s' = <[parent_process p := set_load_success ok q0]> (<[t := set_at (Reporting ok) p]> (procs s))) as Hps
    by (by apply on_parent_procs).
  apply (report_inv s' (Reporting ok) q0 (set_load_success ok q0) id); try done.
  - left. by rewrite Hat.
  - intros e He. apply elem_of_app. by left.
  - eapply log_ok_note; [done|apply Hi|done].
  - by right.
  - by rewrite list_fmap_id.
  - intros c [_ _ _ Hw _] _. by rewrite Hat in Hw.
  - simpl. rewrite (po_tokens _ _ _ (inv_procs _ Hi _ _ Hq)). unfold tokens. simpl at_. rewrite Hatq, Hp, Hps.
    rewrite lookup_insert_ne, lookup_insert_eq by done. simpl. by rewrite Hat.
  - by rewrite Hat.
  - unfold point_ok. simpl at_. exists (set_load_success ok q0). simpl parent_process. rewrite Hps, lookup_insert_eq. split_and!; try done.
    simpl. apply elem_of_app. right. by left.
Qed.

Lemma loaded_inv ok : at_ p = Reporting ok -> parent_alive p s = true ->
  inv (upd (parent_process p) (add_token 1) (go t (if ok then Running else ExitMark (-1)) s)).
Proof.
  intros Hat [q0 Hq]%alive_parent. pose proof (po_point _ _ _ self_ok) as Hpt. unfold point_ok in Hpt. rewrite Hat, Hq in Hpt.
  destruct Hpt as (? & [= <-] & Hatq & Hls & Hlg).
  assert (parent_process p <> t) as Hqt by (intros Heq; rewrite Heq in Hq; congruence).
  set (x := if ok then Running else ExitMark (-1)). set (s' := upd _ _ _).
  assert (procs s' = <[parent_process p := add_token 1 q0]> (<[t := set_at x p]> (procs s))) as Hps by (by apply on_parent_procs).
  apply (report_inv s' x q0 (add_token 1 q0) id); try done; try (by unfold x; destruct ok).
  - left. by rewrite Hat.
  - apply Hi.
  - by left.
  - by rewrite list_fmap_id.
  - intros c [_ _ _ Hw _] _. rewrite Hat in Hw. unfold x. by destruct ok.
  - simpl. rewrite (po_tokens _ _ _ (inv_procs _ Hi _ _ Hq)). unfold tokens. simpl at_. rewrite Hatq, Hp, Hps.
    rewrite lookup_insert_ne, lookup_insert_eq by done. simpl. rewrite Hat. simpl. rewrite andb_false_r.
    pose proof (po_point _ _ _ (inv_procs _ Hi _ _ Hq)) as Hpq. unfold point_ok in Hpq. rewrite Hatq in Hpq.
    pose proof (po_tid _ _ _ self_ok). rewrite bool_decide_true by (unfold TID_ERROR; lia). unfold x. by destruct ok.
  - by rewrite Hat.
  - intros _ _. by rewrite <- Hls in Hlg.
Qed.

(** The first thread is its own parent and finds no structure for itself. *)
Lemma self_parent_inv s' x : parent_process p = t ->
  (exists st, at_ p = ExitMark st \/ at_ p = ExitStatus st) \/ at_ p = ExitCheck ->
  procs s' = <[t := set_at x p]> (procs s) -> next_tid s' = next_tid s -> (forall e, e ∈ log s -> e ∈ log s') -> log_ok s' ->
  (forall c, x <> ExecDown c) -> (forall c, x <> WaitDown c) -> point_ok s' t (set_at x p) -> inv s'.
Proof.
  intros Hpar Hat Hps Hn Hlog Hlok X1 X2 Hpt. assert (N1 : forall c, at_ p <> ExecDown c) by (destruct (at_ p); naive_solver).
  apply (own_step s s' t p (set_at x p)); try done; [by right| |].
  - intros c y Hy Hpy Hly. by rewrite (no_loading s t p Hi Hp N1 c y Hy Hpy) in Hly.
  - eapply (undisturbed_ok s' (set_at x p) x); try done; [by right|]. intros c y Hy Hlt _. by rewrite Hps, lookup_insert_ne by lia.
Qed.

Lemma no_self x : parent_process p = t -> x ∈ child_list p -> pid x <> t.
Proof. intros Hpar Hx. destruct (po_children _ _ _ self_ok x Hx) as [y [_ _ Hlt _ _]]. lia. Qed.

Lemma mark_none (f : child -> child) (l : list child) : (forall x, x ∈ l -> pid x <> t) ->
  (fun x => if bool_decide (pid x = t) then f x else x) <$> l = l.
Proof.
  intros H. rewrite <- (list_fmap_id l) at 2. apply list_fmap_ext. intros i x Hx. apply list_elem_of_lookup_2 in Hx.
  rewrite bool_decide_false; [done|]. by apply H.
Qed.

(** A change [f] of the structures of [t] in the list of its parent. *)
Lemma mark_inv s' (f : child -> child) x l :
  s' = upd (parent_process p) (fun q => set_children ((fun y => if bool_decide (pid y = t) then f y else y) <$> child_list q) q)
    (mkSystem (procs (go t x s)) (next_tid s) (log s ++ l)) ->
  (forall y, pid (f y) = pid y) -> (exists st, at_ p = ExitMark st \/ at_ p = ExitStatus st) -> parent_alive p s = true ->
  (forall c, child_ok s (parent_process p) c p -> is_wait (f c) = marked x /\ forall st, expected (set_at x p) = Some st -> status (f c) = st) ->
  log_ok s' -> past_load x = true -> gone x = false -> (forall c, x <> ExecDown c) -> (forall c, x <> WaitDown c) ->
  point_ok s' t (set_at x p) -> inv s'.
Proof.
  intros Hs' Hf Hat [q0 Hq]%alive_parent Hfc Hlok Hpl Hg X1 X2 Hpt.
  assert (Hlog : forall e, e ∈ log s -> e ∈ log s') by (intros e He; subst s'; simpl; apply elem_of_app; by left).
  set (g := fun y => if bool_decide (pid y = t) then f y else y) in *.
  destruct (decide (parent_process p = t)) as [Hself|Hne].
  - apply (self_parent_inv s' x); try done; [by left| |by subst s'].
    subst s'. simpl. rewrite Hself. pose proof (upd2_some (set_at x) (fun q => set_children (g <$> child_list q) q)) as E. simpl in E.
    rewrite E. f_equal. unfold g. simpl. rewrite mark_none; [done|]. intros y Hy. by apply no_self.
  - apply (report_inv s' x q0 (set_children (g <$> child_list q0) q0) g); try done.
    + by right; left.
    + subst s'. exact (on_parent_procs x (fun q => set_children (g <$> child_list q) q) q0 Hne Hq).
    + by subst s'.
    + by left.
    + intros y. unfold g. case_bool_decide; [apply Hf|done].
    + intros y Hy. unfold g. by rewrite bool_decide_false.
    + intros c Hc Hct. unfold g. rewrite bool_decide_true by done. by apply Hfc.
    + simpl. rewrite (po_tokens _ _ _ (inv_procs _ Hi _ _ Hq)). unfold tokens. simpl at_.
      assert (procs s' = <[parent_process p := set_children (g <$> child_list q0) q0]> (<[t := set_at x p]> (procs s))) as Hps
        by (subst s'; exact (on_parent_procs x (fun q => set_children (g <$> child_list q) q) q0 Hne Hq)).
      assert (past_load (at_ p) = true /\ gone (at_ p) = false) as [Hplp Hgp] by (destruct Hat as [st [Hat|Hat]]; by rewrite Hat).
      assert (forall (h : point -> bool) c, c <> parent_process p -> h (at_ p) = h x ->
        from_option (fun z => h (at_ z)) false (procs s' !! c) = from_option (fun z => h (at_ z)) false (procs s !! c)) as Hsee.
      { intros h c Hc Hh. rewrite Hps, lookup_insert_ne by done. destruct (decide (c = t)) as [->|];
          [rewrite lookup_insert_eq, Hp; simpl; done|by rewrite lookup_insert_ne]. }
      pose proof (po_point _ _ _ (inv_procs _ Hi _ _ Hq)) as Hpq. unfold point_ok in Hpq. destruct (at_ q0); try done.
      * destruct Hpq as [->|(y & Hy & _ & Hlt & _)]; [done|]. rewrite (Hsee past_load); [done|lia|congruence].
      * destruct Hpq as [_ (y & -> & Hy)%list_elem_of_fmap]. destruct (po_children _ _ _ (inv_procs _ Hi _ _ Hq) y Hy) as [z [_ _ Hlt _ _]].
        rewrite (Hsee gone); [done|lia|congruence].
    + by (destruct Hat as [st [Hat|Hat]]; rewrite Hat).
    + intros Hatq _. pose proof (po_point _ _ _ (inv_procs _ Hi _ _ Hq)) as Hpq. unfold point_ok in Hpq. rewrite Hatq in Hpq.
      pose proof (po_tid _ _ _ self_ok).
      destruct Hpq as [Ht|(y & Hy & _ & _ & Hld)]; [unfold TID_ERROR in *; lia|].
      apply Hlog. rewrite Hp in Hy. injection Hy as <-. apply Hld. by (destruct Hat as [st [Hat|Hat]]; rewrite Hat).
Qed.

Lemma exit_mark_inv st : at_ p = ExitMark st -> parent_alive p s = true ->
  inv (upd (parent_process p) (fun q => set_children (mark_waited t (child_list q)) q) (note (Exits t st) (go t (ExitStatus st) s))).
Proof.
  intros Hat Hpa. pose proof (po_point _ _ _ self_ok) as Hpt. unfold point_ok in Hpt. rewrite Hat in Hpt.
  eapply (mark_inv _ (fun y => mkChild (pid y) true (status y)) (ExitStatus st) [Exits t st]); try done; eauto.
  - eapply (log_ok_note s); [done|apply Hi|done].
  - split; [done|]. apply elem_of_app. right. by left.
Qed.

Lemma exit_status_inv st : at_ p = ExitStatus st -> parent_alive p s = true ->
  inv (upd (parent_process p) (fun q => set_children (mark_status t st (child_list q)) q) (go t (ExitCode st) s)).
Proof.
  intros Hat Hpa. pose proof (po_point _ _ _ self_ok) as Hpt. unfold point_ok in Hpt. rewrite Hat in Hpt.
  eapply (mark_inv _ (fun y => mkChild (pid y) (is_wait y) st) (ExitCode st) []); try done; eauto.
  - by rewrite app_nil_r.
  - intros c [_ _ _ Hw _]. rewrite Hat in Hw. split; [done|]. intros st' [= <-]. done.
  - apply Hi.
Qed.

Lemma exit_check_inv : at_ p = ExitCheck -> parent_alive p s = true ->
  inv (upd (parent_process p) (fun q => if bool_decide (lock_child_id q = t) then add_token 1 q else q)
    (go t (if bool_decide (exit_code p = -2) then ExitMark (-1) else ExitFree) s)).
Proof.
  intros Hat [q0 Hq]%alive_parent. pose proof (po_point _ _ _ self_ok) as Hpt. unfold point_ok in Hpt. rewrite Hat in Hpt.
  destruct Hpt as [Hec Hlg]. rewrite (bool_decide_false (exit_code p = -2)) by done. pose proof (po_tid _ _ _ self_ok) as Htid.
  set (f := fun q => if bool_decide (lock_child_id q = t) then add_token 1 q else q).
  destruct (decide (parent_process p = t)) as [Hself|Hne].
  - apply (self_parent_inv _ ExitFree); try done; [by right| |apply Hi].
    rewrite Hself. pose proof (upd2_some (set_at ExitFree) f) as E. unfold go. rewrite E. f_equal. unfold f. simpl.
    rewrite bool_decide_false; [done|]. intros Heq. destruct (po_lock _ _ _ self_ok) as [?|(y & _ & _ & Hlt & _)]; lia.
  - pose proof (on_parent_procs ExitFree f q0 Hne Hq) as Hps.
    pose proof (inv_procs _ Hi _ _ Hq) as Hokq.
    assert (f q0 = if bool_decide (lock_child_id q0 = t) then add_token 1 q0 else q0) as Hf by done.
    assert (parent_process (f q0) = parent_process q0 /\ at_ (f q0) = at_ q0 /\ lock_child_id (f q0) = lock_child_id q0 /\
      exit_code (f q0) = exit_code q0 /\ load_success (f q0) = load_success q0 /\ child_list (f q0) = child_list q0)
      as (F1 & F2 & F3 & F4 & F5 & F6) by (rewrite Hf; by case_bool_decide).
    apply (report_inv _ ExitFree q0 (f q0) id); try done.
    + by right; right.
    + apply Hi.
    + by left.
    + by rewrite list_fmap_id.
    + intros c [_ _ _ Hw Hst] _. rewrite Hat in Hw. split; [done|]. intros st Hex. apply Hst. unfold expected in *. by rewrite Hat.
    + unfold tokens. rewrite F2. change (procs (upd (parent_process p) f (go t ExitFree s))) with
        (alter f (parent_process p) (alter (set_at ExitFree) t (procs s))). rewrite Hps.
      pose proof (po_tokens _ _ _ Hokq) as Htok. unfold tokens in Htok. pose proof (po_point _ _ _ Hokq) as Hpq. unfold point_ok in Hpq.
      rewrite Hf. case_bool_decide as Hlk.
      * assert (at_ q0 = WaitDown t) as Hwd.
        { destruct (po_lock _ _ _ Hokq) as [H0|(y & Hy & _ & _ & [Hg|[Hc|Hc]])]; rewrite ?Hlk in *; [lia| | |done].
          - rewrite Hp in Hy. injection Hy as <-. by rewrite Hat in Hg.
          - destruct Hne. apply (Hal _ _ Hq). by rewrite Hc. }
        rewrite Hwd in *. rewrite Hp in Htok. simpl in Htok. rewrite Hat in Htok. simpl in Htok.
        rewrite lookup_insert_ne, lookup_insert_eq by done. simpl. by rewrite Htok.
      * rewrite Htok. destruct (at_ q0) as [| | |c| | |c| | | | | | |]; try done.
        -- destruct Hpq as [->|(y & Hy & _ & Hlt & _)]; [done|]. rewrite lookup_insert_ne by lia.
           destruct (decide (c = t)) as [Hct|Hct]; [|by rewrite lookup_insert_ne].
           rewrite Hct, lookup_insert_eq, Hp. simpl. by rewrite Hat.
        -- destruct Hpq as [Hc (y & -> & Hy)%list_elem_of_fmap]. destruct (po_children _ _ _ Hokq y Hy) as [z [_ _ Hlt _ _]].
           rewrite lookup_insert_ne by lia. rewrite lookup_insert_ne by congruence. done.
    + intros Hatq _. pose proof (po_point _ _ _ Hokq) as Hpq. unfold point_ok in Hpq. rewrite Hatq in Hpq.
      destruct Hpq as [Ht|(y & Hy & _ & _ & Hld)]; [unfold TID_ERROR in *; lia|].
      rewrite F5. rewrite Hp in Hy. injection Hy as <-. apply Hld. by rewrite Hat.
Qed.

Lemma create_inv : at_ p = Running -> inv (go t (ExecDown (next_tid s)) (create_child t s)).
Proof.
  intros Hat. set (n := next_tid s). set (c0 := mkProc t [] 0 (-2) 0 false Loading). set (s' := go _ _ _).
  set (p' := set_at (ExecDown n) (set_children (child_list p ++ [mkChild n false (-2)]) p)).
  pose proof self_ok as [O1 O2 O3 O4 O5 O6].
  assert (procs s !! n = None) as Hfresh.
  { destruct (procs s !! n) as [y|] eqn:E; [|done]. pose proof (po_tid _ _ _ (inv_procs _ Hi n y E)). unfold n in *. lia. }
  assert (procs s' = <[t := p']> (<[n := c0]> (procs s))) as Hps.
  { unfold s', go, create_child. rewrite (upd_some t _ _ (set_children (child_list p ++ [mkChild n false (-2)]) p)).
    - rewrite (upd_some t _ _ p); [by rewrite insert_insert_eq|]. simpl. rewrite lookup_insert_ne by (unfold n; lia). done.
    - rewrite (upd_some t _ _ p); [by rewrite lookup_insert_eq|]. simpl. rewrite lookup_insert_ne by (unfold n; lia). done. }
  assert (forall c y, procs s !! c = Some y -> c <> t -> procs s' !! c = Some y) as Hother.
  { intros c y Hy Hct. rewrite Hps, !lookup_insert_ne; [done| |done]. intros <-. congruence. }
  assert (procs s' !! n = Some c0) as Hn0 by (rewrite Hps, lookup_insert_ne by (unfold n; lia); apply lookup_insert_eq).
  assert (forall r pr, procs s !! r = Some pr -> past_load (at_ pr) = true \/ r <> t -> proc_ok s' r pr) as Hframe.
  { intros r pr Hr Hor. apply (proc_ok_frame s); [by apply Hi|simpl; lia|done| |].
    - intros c y Hy Hpy Hlt. destruct (decide (c = t)) as [->|Hct]; [|eauto]. rewrite Hp in Hy. injection Hy as <-.
      exists p'. rewrite Hps, lookup_insert_eq. split; [done|]. unfold face, expected. simpl. by rewrite Hat.
    - intros Hl q Hq. destruct (decide (parent_process pr = t)) as [Heq|Hne]; [|eauto].
      rewrite Heq in *. exfalso. pose proof (loading_child s t r pr p Hi Hr Heq Hl Hp). congruence. }
  split.
  - intros r pr Hr. rewrite Hps in Hr. destruct (decide (r = t)) as [->|Hrt].
    + rewrite lookup_insert_eq in Hr. injection Hr as <-. destruct (Hframe t p Hp) as [P1 P2 P3 P4 P5 P6]; [left; by rewrite Hat|].
      split; [done| | | | |].
      * intros x Hx. apply elem_of_app in Hx as [Hx|Hx]; [by apply P2|]. apply list_elem_of_singleton in Hx as ->. exists c0.
        split; simpl; try done. unfold n. lia.
      * simpl. rewrite fmap_app. apply NoDup_app. split_and!; [done| |by apply NoDup_singleton].
        intros k Hk Hk2. apply list_elem_of_singleton in Hk2 as ->. apply list_elem_of_fmap in Hk as (x & Hx & Hin).
        destruct (O2 x Hin) as [y [Hy _ _ _ _]]. rewrite <- Hx in Hy. simpl in Hy. congruence.
      * unfold tokens, p'. simpl at_. cbv beta iota. rewrite Hn0. simpl. rewrite andb_false_r. apply (token_zero); by rewrite Hat.
      * right. exists c0. split_and!; [done|done|unfold n; lia|done].
      * eapply lock_ok_move; [exact P6|done|by rewrite Hat|by rewrite Hat].
    + rewrite lookup_insert_ne in Hr by done. destruct (decide (r = n)) as [->|Hrn].
      * rewrite lookup_insert_eq in Hr. injection Hr as <-. split; simpl; [unfold n; lia|by intros x ?%elem_of_nil|constructor|done| |by left].
        exists p'. rewrite Hps, lookup_insert_eq. done.
      * rewrite lookup_insert_ne in Hr by done. apply Hframe; [done|by right].
  - assert (forall u pu, procs s' !! u = Some pu -> critical (at_ pu) = true -> u = t) as Hone.
    { intros u pu Hu Hcr. rewrite Hps in Hu. destruct (decide (u = t)) as [->|Hut]; [done|]. rewrite lookup_insert_ne in Hu by done.
      destruct (decide (u = n)) as [->|]; [rewrite lookup_insert_eq in Hu; by injection Hu as <-|].
      rewrite lookup_insert_ne in Hu by done. by eapply Hal. }
    intros t1 t2 p1 p2 H1 H2 C1 C2. by rewrite (Hone _ _ H1 C1), (Hone _ _ H2 C2).
  - pose proof (inv_next _ Hi). simpl. lia.
  - apply Hi.
Qed.

Lemma system_step_inv a s' : a <> Exit (-2) -> step t a s = Ret (Some s') -> inv s'.
Proof.
  intros Ha Hs. unfold step, start_process, process_execute_rest, process_wait_rest, exit_process, free_children, on_parent in Hs. rewrite Hp in Hs. destruct (at_ p) as [|ok| |c|c|c|c|c|st|st|st| | |] eqn:Hat, a as [ok'|created|c'|st'|];
    try discriminate Hs; try (destruct (parent_alive p s) eqn:Hpa; [|discriminate Hs]).
  all: try (injection Hs as <-).
  - by apply load_inv.
  - by apply loaded_inv.
  - unfold process_execute. destruct created; [by apply create_inv|by apply exec_failed_inv].
  - unfold process_wait. destruct (find_child c' (child_list p)) eqn:E; [by eapply wait_call_inv|apply wait_unknown_inv].
  - apply exit_call_inv; congruence.
  - case_bool_decide; [|done]. injection Hs as <-. by apply exec_down_inv.
  - by apply exec_read_inv.
  - destruct (find_child c (child_list p)) eqn:E; [|done]. injection Hs as <-. by eapply wait_check_inv.
  - case_bool_decide; [|done]. injection Hs as <-. by apply wait_down_inv.
  - destruct (find_child c (child_list p)) eqn:E; [|done]. injection Hs as <-. by eapply wait_reap_inv.
  - by apply exit_mark_inv.
  - by apply exit_status_inv.
  - by apply exit_code_inv.
  - by apply exit_check_inv.
  - by apply exit_free_inv.
Qed.
End Steps.

Lemma system_reachable_inv s : reachable s -> inv s.
Proof.
  induction 1 as [|s t a s' _ IH Hal Ha Hs]; [exact system_boot_inv|].
  destruct (procs s !! t) as [p|] eqn:Hp; [by eapply system_step_inv|]. unfold step, start_process, process_execute_rest, process_wait_rest, exit_process, free_children, on_parent in Hs. by rewrite Hp in Hs.
Qed.

(** ** What the callers get *)

(** A process that is gone keeps its exit code. *)
Definition gone_with (c st : Z) (s : system) : Prop :=
  exists y, procs s !! c = Some y /\ gone (at_ y) = true /\ exit_code y = st.

Lemma gone_upd c st t f s : gone_with c st s ->
  c <> t \/ (forall z, gone (at_ z) = true -> gone (at_ (f z)) = true /\ exit_code (f z) = exit_code z) -> gone_with c st (upd t f s).
Proof.
  intros (y & Hy & Hg & He) Hf. unfold gone_with. simpl. destruct (decide (c = t)) as [->|Hne].
  - destruct Hf as [Hf|Hf]; [done|]. rewrite lookup_alter_eq, Hy. destruct (Hf y Hg) as [H1 H2]. simpl. eexists. split; [done|].
    rewrite H2. done.
  - rewrite lookup_alter_ne by done. eauto.
Qed.

Lemma gone_stays s t a s' c st : inv s -> step t a s = Ret (Some s') -> gone_with c st s -> gone_with c st s'.
Proof.
  intros Hi Hs Hg. unfold step, start_process, process_execute_rest, process_wait_rest, exit_process, free_children, on_parent in Hs. destruct (procs s !! t) as [p|] eqn:Hp; [|done].
  assert (gone (at_ p) = false -> c <> t) as Hne by (intros Hgp ->; destruct Hg as (y & Hy & Hgy & _); congruence).
  destruct (at_ p) as [|ok| |c0|c0|c0|c0|c0|x|x|x| | |] eqn:Hat, a as [ok'|created|c'|st'|];
    try discriminate Hs; try (destruct (parent_alive p s) eqn:Hpa; [|discriminate Hs]);
    try (case_bool_decide; [|discriminate Hs]); try (destruct (find_child _ _); [|discriminate Hs]); injection Hs as <-;
    try (specialize (Hne eq_refl)).
  all: try (apply gone_upd; [|right; intros z Hz; simpl; repeat case_bool_decide; done]).
  all: try (apply gone_upd; [|by left]).
  all: try done.
  all: try (apply gone_upd; [done|first [by left|by right; intros z Hz]]).
  - destruct created; [|by apply gone_upd; [|left]]. apply gone_upd; [|by left]. apply gone_upd; [|by left].
    destruct Hg as (y & Hy & Hgy & He). exists y. simpl. rewrite lookup_insert_ne; [done|]. intros <-.
    pose proof (po_tid _ _ _ (inv_procs _ Hi _ _ Hy)). lia.
  - unfold process_wait. destruct (find_child _ _); [|done]. apply gone_upd; [|by left]. by apply gone_upd; [|left].
Qed.

Lemma wait_logged s t a s' t' c r : step t a s = Ret (Some s') -> WaitReturns t' c r ∈ log s' ->
  WaitReturns t' c r ∈ log s \/
  exists p x, procs s !! t = Some p /\ at_ p = WaitReap c /\ find_child c (child_list p) = Some x /\ status x = r.
Proof.
  intros Hs Hin. unfold step, start_process, process_execute_rest, process_wait_rest, exit_process, free_children, on_parent in Hs. destruct (procs s !! t) as [p|] eqn:Hp; [|done].
  destruct (at_ p) as [|ok| |c0|c0|c0|c0|c0|x|x|x| | |] eqn:Hat, a as [ok'|created|c'|st'|];
    try discriminate Hs; try (destruct (parent_alive p s) eqn:Hpa; [|discriminate Hs]);
    try (case_bool_decide; [|discriminate Hs]); try (destruct (find_child _ _) eqn:E; [|discriminate Hs]); injection Hs as <-; simpl in Hin;
    try (by left); try (apply elem_of_app in Hin as [Hin|Hin%list_elem_of_singleton]; [by left|try done]).
  - left. by destruct created.
  - left. unfold process_wait in Hin. destruct (find_child _ _); [done|]. apply elem_of_app in Hin as [Hin|Hin%list_elem_of_singleton]; done.
  - right. injection Hin as -> -> ->. eauto 10.
Qed.

(** C5. [process_execute] and [process_wait] tell the truth: in every state that the
    processes can reach, whatever the interleaving of their steps, provided that no process
    is interrupted between the two accesses of [process_wait] or inside [exit_process]
    (and none exits with status -2), each [process_execute] that has returned returned the
    number of the new process if it had loaded its program and -1 if that had failed, and
    each [process_wait] for a child that has returned did so after the exit of the child,
    with its exit status. *)
Theorem wait_and_execute_correct s : reachable s ->
  (forall t c r, ExecReturns t c r ∈ log s -> exists ok, Loads c ok ∈ log s /\ r = if (ok : bool) then c else -1) /\
  (forall t c r, WaitReturns t c r ∈ log s -> gone_with c r s /\ Exits c r ∈ log s).
Proof.
  intros Hr. pose proof (inv_log _ (system_reachable_inv _ Hr)) as [H1 H2]. split; [done|]. intros t c r Hin. split; [|by eapply H2].
  clear H1 H2. revert t c r Hin. induction Hr as [|s t a s' Hr IH Hal Ha Hs]; intros t0 c r Hin; [by apply elem_of_nil in Hin|].
  pose proof (system_reachable_inv _ Hr) as Hi. eapply gone_stays; [done..|].
  destruct (wait_logged _ _ _ _ _ _ _ Hs Hin) as [Hin'|(p & x & Hp & Hat & Hx & Hst)]; [by eapply IH|].
  destruct (inv_procs _ Hi _ _ Hp) as [_ Hch _ _ Hpt _]. unfold point_ok in Hpt. rewrite Hat in Hpt.
  destruct Hpt as [_ (y & Hy & Hg)]. apply find_child_some in Hx as [Hx Hc]. destruct (Hch x Hx) as [y' [E1 _ _ _ E5]].
  rewrite Hc, Hy in E1. injection E1 as <-. exists y. split_and!; [done|done|]. rewrite <- Hst. symmetry. apply E5.
  unfold expected. by destruct (at_ y).
Qed.

Lemma steps_reachable l : forall s s', reachable s -> undisturbed l s = true -> steps l s = Ret (Some s') -> reachable s'.
Proof.
  induction l as [|[t a] l IH]; intros s s' Hr Hu Hs; simpl in *; [by injection Hs as <-|].
  apply andb_prop in Hu as [[Hal Ha]%andb_prop Hu]. destruct (step t a s) as [[s1|]| | |] eqn:E; simpl in Hs; try done.
  eapply IH; [|done|done]. eapply reach_step; [done| | |done].
  - intros t' p Hp Hc. unfold alone_b in Hal. rewrite forallb_forall in Hal.
    specialize (Hal (t', p)). rewrite <- list_elem_of_In, elem_of_map_to_list in Hal. specialize (Hal Hp). simpl in Hal.
    rewrite Hc in Hal. by apply bool_decide_eq_true in Hal.
  - intros ->. by apply bool_decide_eq_true in Ha.
Qed.

(** The first thread starts a program, waits for it, and starts one that cannot be loaded. *)
Definition exec_and_wait : list (Z * action) :=
  [(1, Execute true); (2, Load true); (2, Go); (1, Go); (1, Go); (1, Wait 2); (1, Go); (2, Exit 7); (2, Go); (2, Go); (2, Go); (2, Go);
   (1, Go); (1, Go); (1, Execute true); (3, Load false); (3, Go); (1, Go); (3, Go); (3, Go); (3, Go); (3, Go); (1, Go)].
Definition after_wait : system := match steps exec_and_wait boot with Ret (Some s) => s | _ => boot end.

Lemma after_wait_reachable : reachable after_wait.
Proof. eapply (steps_reachable exec_and_wait boot); [constructor|by vm_compute|by vm_compute]. Qed.

Lemma wait_and_execute_correct_witness :
  log after_wait = [Loads 2 true; ExecReturns 1 2 2; Exits 2 7; WaitReturns 1 2 7; Loads 3 false; Exits 3 (-1); ExecReturns 1 3 (-1)] /\
  gone_with 2 7 after_wait.
Proof.
  split; [by vm_compute|]. apply (wait_and_execute_correct after_wait after_wait_reachable) with (t := 1).
  vm_compute. do 3 right. by left.
Defined.

(** ** Progress *)

Lemma find_child_pid c l : c ∈ pid <$> l -> is_Some (find_child c l).
Proof.
  intros (x & Hc & Hx)%list_elem_of_fmap. unfold find_child. apply last_is_Some.
  assert (x ∈ filter (fun x => pid x = c) l) as Hin by (by apply list_elem_of_filter).
  intros Hnil. rewrite Hnil in Hin. by apply elem_of_nil in Hin.
Qed.

Lemma go_lookup t x s p : procs s !! t = Some p -> procs (go t x s) !! t = Some (set_at x p).
Proof. intros Hp. unfold go. rewrite (upd_some _ _ _ p) by done. apply lookup_insert_eq. Qed.


(** The child has exited while the first thread waits for it. *)
Definition before_wakeup : system := match steps (take 12 exec_and_wait) boot with Ret (Some s) => s | _ => boot end.


(** ** What goes wrong *)

(** [process_execute] never returns when [thread_create] finds no memory: it goes on to
    wait for the report of a process that does not exist.  In every reachable state in
    which a process is there it can take no step, whatever the others have done. *)
Theorem execute_failure_blocks s t p : reachable s -> procs s !! t = Some p -> at_ p = ExecDown TID_ERROR ->
  forall a, step t a s = Ret None.
Proof.
  intros Hr Hp Hat a. pose proof (po_tokens _ _ _ (inv_procs _ (system_reachable_inv _ Hr) t p Hp)) as Htok. unfold tokens in Htok.
  rewrite Hat in Htok. simpl in Htok. unfold step, process_execute_rest. rewrite Hp, Hat. destruct a; try done. by rewrite bool_decide_false by lia.
Qed.

Lemma execute_failure_blocks_witness :
  steps [(1, Execute false)] boot = Ret (Some (go 1 (ExecDown TID_ERROR) boot)) /\
  forall a, step 1 a (go 1 (ExecDown TID_ERROR) boot) = Ret None.
Proof.
  split; [by vm_compute|].
  apply (execute_failure_blocks _ 1 (mkProc 1 [] 0 (-2) 0 false (ExecDown TID_ERROR))); [|by vm_compute|done].
  eapply (steps_reachable [(1, Execute false)] boot); [constructor|by vm_compute|by vm_compute].
Defined.

(** The protocol depends on the interrupts that it does not disable: when the child
    exits between the assignment of [lock_child_id] and the test of [is_wait], the parent
    is woken up although it does not wait; its next [process_execute] then returns before
    the new process is loaded, with the result of an earlier load, and the [process_wait]
    that follows returns before the process has exited, with a status that it never had. *)
Theorem wait_race : exists l s, steps l boot = Ret (Some s) /\
  ExecReturns 1 3 3 ∈ log s /\ Loads 3 false ∈ log s /\ WaitReturns 1 3 (-2) ∈ log s /\ Exits 3 (-1) ∈ log s.
Proof.
  exists [(1, Execute true); (2, Load true); (2, Go); (1, Go); (1, Go); (1, Wait 2); (2, Exit 7); (2, Go); (2, Go); (2, Go); (2, Go);
    (1, Go); (1, Go); (1, Execute true); (1, Go); (1, Go); (1, Wait 3); (1, Go); (3, Load false); (3, Go); (1, Go); (1, Go); (3, Go)].
  eexists. split; [by vm_compute|]. split_and!; vm_compute; repeat first [left|right].
Qed.

(** The thread structure of the parent is used after it was freed when a process outlives
    its parent, and a program that exits with status -2 is taken to have set no status. *)
Example orphan_exit : steps [(1, Execute true); (2, Load true); (2, Go); (2, Execute true); (3, Load true); (3, Go);
  (2, Go); (2, Go); (2, Exit 0); (2, Go); (2, Go); (2, Go); (2, Go); (2, Go); (3, Exit 5); (3, Go)] boot = Ub.
Proof. by vm_compute. Qed.

Example exit_minus_two : exists s, steps [(1, Execute true); (2, Load true); (2, Go); (1, Go); (1, Go); (1, Wait 2); (1, Go);
  (2, Exit (-2)); (2, Go); (2, Go); (2, Go); (2, Go); (2, Go); (2, Go); (2, Go); (2, Go); (1, Go); (1, Go)] boot = Ret (Some s) /\
  WaitReturns 1 2 (-1) ∈ log s.
Proof. eexists. split; [by vm_compute|]. vm_compute. repeat first [left|right]. Qed.
