(* ===== verification/Syscall.v ===== *)
(** * userprog/syscall.c: system calls

    The handler of system calls as one process sees it, on the file system: a call runs to
    its end before the next.  The user memory of the process is a flat memory with
    protection, which is what demand paging provides; [resident] are the pages that are in
    a frame, which [check_address] asks for.  What other components do in a call is a
    parameter: the results of starting processes and of waiting for them, and the pages that
    [mmap] enters and [munmap] removes (modelled on the state of paging in Mmap). *)

From S2P Require Import Prelude KList KListProof KListOps Loader Bitmap Vaddr Cstring Stdlibc Cache Inode Directory.

(** ** State *)

Record open_file := mkOpen { o_file : Z; fd : Z }.

Record task := mkTask {
  fsys : fs;
  file_list : list open_file;
  fd_count : Z;
  load_file : Z;
  pages : gmap Z (bool * list Z);
  resident : gset Z;
  exception_esp : Z;
  file_lock : bool;
  screen : list Z;
  keys : list Z;
  eax : Z
}.

Definition set_fsys (x : fs) (s : task) : task :=
  mkTask x (file_list s) (fd_count s) (load_file s) (pages s) (resident s) (exception_esp s) (file_lock s) (screen s) (keys s) (eax s).
Definition set_files (l : list open_file) (n : Z) (s : task) : task :=
  mkTask (fsys s) l n (load_file s) (pages s) (resident s) (exception_esp s) (file_lock s) (screen s) (keys s) (eax s).
Definition set_memory (m : gmap Z (bool * list Z)) (r : gset Z) (s : task) : task :=
  mkTask (fsys s) (file_list s) (fd_count s) (load_file s) m r (exception_esp s) (file_lock s) (screen s) (keys s) (eax s).
Definition set_esp (x : Z) (s : task) : task :=
  mkTask (fsys s) (file_list s) (fd_count s) (load_file s) (pages s) (resident s) x (file_lock s) (screen s) (keys s) (eax s).
Definition set_lock (b : bool) (s : task) : task :=
  mkTask (fsys s) (file_list s) (fd_count s) (load_file s) (pages s) (resident s) (exception_esp s) b (screen s) (keys s) (eax s).
Definition set_io (sc ks : list Z) (s : task) : task :=
  mkTask (fsys s) (file_list s) (fd_count s) (load_file s) (pages s) (resident s) (exception_esp s) (file_lock s) sc ks (eax s).
Definition set_eax (x : Z) (s : task) : task :=
  mkTask (fsys s) (file_list s) (fd_count s) (load_file s) (pages s) (resident s) (exception_esp s) (file_lock s) (screen s) (keys s) (u32 x).

(** ** Calls that may end the process or the machine *)

Inductive outcome (A : Type) : Type := Val (a : A) | Exited (st : Z) | PowerOff.
Arguments Val {A} a.
Arguments Exited {A} st.
Arguments PowerOff {A}.

Definition sys (A : Type) : Type := task -> res (task * outcome A).

Definition ret {A} (a : A) : sys A := fun s => Ret (s, Val a).
Definition sbind {A B} (m : sys A) (k : A -> sys B) : sys B := fun s =>
  let! '(s, o) := m s in
  match o with Val a => k a s | Exited st => Ret (s, Exited st) | PowerOff => Ret (s, PowerOff) end.
Definition get : sys task := fun s => Ret (s, Val s).
Definition modify (f : task -> task) : sys unit := fun s => Ret (f s, Val tt).
Definition fail {A} (r : res unit) : sys A := fun _ => let! _ := r in Ub.

(** An operation of the file system. *)
Definition on_fs {A} (op : fs -> res (fs * A)) : sys A := fun s =>
  let! '(f, a) := op (fsys s) in Ret (set_fsys f s, Val a).
Definition on_fs_ (op : fs -> res fs) : sys unit := on_fs (fun f => let! f := op f in Ret (f, tt)).

Declare Scope sys_scope.
Delimit Scope sys_scope with sys.
Notation "'do!' x := m 'in' k" := (sbind m (fun x => k)) (at level 10, x name, m at level 100, k at level 200) : sys_scope.
Notation "'run!' m ; k" := (sbind m (fun _ => k)) (at level 10, m at level 100, k at level 200) : sys_scope.
#[local] Open Scope sys_scope.

Definition acquire_file_lock : sys unit := fun s =>
  ASSERT (negb (file_lock s)); Ret (set_lock true s, Val tt).
Definition release_file_lock : sys unit := fun s =>
  ASSERT (file_lock s); Ret (set_lock false s, Val tt).

(** What paging does for a process in [mmap] and [munmap], under the lock of the frame
    table: the pages of an open file of the given length are entered from an address on,
    which gives the number of the mapping or [MAP_FAILED]; the pages of a mapping go. *)
Class Pager := { map_file : Z -> Z -> Z -> sys Z; unmap_file : Z -> sys unit }.

Section Syscall.
Context {pager : Pager}.

(** Memory as in the file system; the result of [process_execute] for a command line and
    of [process_wait] for a process. *)
Context (junk zeros : list Z) (oom : Z -> bool) (execute : list Z -> Z) (wait : Z -> Z).

(** The files are not closed.  On the linked list [close_all_loop] gives the empty list: see
    [close_all_empties]. *)
Definition close_all_filelist (s : task) : task := set_files [] (fd_count s) s.

(** The loop on the linked list at [l]: an element is popped, and removed again. *)
Definition close_all_loop (fuel : nat) (l : Z) (h : heap) : res heap :=
  iter fuel (fun h =>
    let! b := list_empty h l in
    if (b : bool) then Ret (inr h)
    else
      let! '(temp, h) := list_pop_front h l in
      let! '(_, h) := list_remove h temp in
      Ret (inl h)) h.

(** [exit_process]: the directory of the thread is closed in [thread_exit], the files in
    [process_exit], which takes the status -2 for none and starts again with -1.  The
    parent and the pages are left to the models of processes and paging. *)
Definition close_dir : sys unit := on_fs_ (fun f => dir_close junk zeros oom f (cur_dir f)).

Definition exit_process {A} (st : Z) : sys A := fun s =>
  let! '(s, _) := close_dir s in
  let! '(s, _) := (if bool_decide (st = -2) then close_dir s else Ret (s, Val tt)) in
  let! '(s, _) := acquire_file_lock s in
  let! '(s, _) := (if bool_decide (load_file s <> NULL) then on_fs_ (fun f => file_close junk zeros oom f (load_file s)) s
                   else Ret (s, Val tt)) in
  let s := close_all_filelist s in
  let! '(s, _) := release_file_lock s in
  Ret (s, Exited (if bool_decide (st = -2) then -1 else st)).

(** ** User memory *)

(** The page of an address: one of the process, or a new page of the stack. *)
Definition user_page (addr : Z) (s : task) : option (bool * list Z) :=
  if is_user_vaddr addr then
    match pages s !! pg_round_down addr with
    | Some x => Some x
    | None =>
        if bool_decide (addr >= PHYS_BASE - 2 ^ 23) && bool_decide (u32 (exception_esp s - 32) <= addr)
        then Some (true, replicate 4096 0) else None
    end
  else None.

Definition touch (addr : Z) (x : bool * list Z) (s : task) : task :=
  set_memory (<[pg_round_down addr := x]> (pages s)) ({[pg_round_down addr]} ∪ resident s) s.

(** An access of the kernel to user memory.  The page fault handler ends the process when
    there is no such page, or when it is written and read-only; kernel memory is not
    modelled. *)
Definition user_access (write : bool) (addr : Z) : sys (list Z) := fun s =>
  if is_user_vaddr addr then
    match user_page addr s with
    | Some (w, page) => if negb write || w then Ret (touch addr (w, page) s, Val page) else exit_process (-1) s
    | None => exit_process (-1) s
    end
  else Ub.

Definition load_byte (addr : Z) : sys Z :=
  do! page := user_access false addr in ret (nth (Z.to_nat (pg_ofs addr)) page 0).

Definition store_byte (addr b : Z) : sys unit :=
  do! page := user_access true addr in modify (touch addr (true, <[Z.to_nat (pg_ofs addr) := b]> page)).

Fixpoint load_bytes (n : nat) (addr : Z) : sys (list Z) :=
  match n with
  | O => ret []
  | S n => do! b := load_byte addr in do! l := load_bytes n (addr + 1) in ret (b :: l)
  end.

Fixpoint store_bytes (l : list Z) (addr : Z) : sys unit :=
  match l with
  | [] => ret tt
  | b :: l => run! store_byte addr b; store_bytes l (addr + 1)
  end.

Definition load_word (addr : Z) : sys Z := do! l := load_bytes 4 addr in ret (get32 l 0).

(** A string, byte by byte; no string is longer than the memory of the process. *)
Fixpoint load_string (fuel : nat) (addr : Z) : sys (list Z) :=
  match fuel with
  | O => fail NoFuel
  | S fuel =>
      do! b := load_byte addr in
      if bool_decide (b = 0) then ret [] else do! l := load_string fuel (addr + 1) in ret (b :: l)
  end.
Definition user_string (addr : Z) : sys (list Z) := do! s := get in load_string (4096 * (2049 + size (pages s))) addr.

(** The bytes of a buffer up to the first that cannot be read. *)
Fixpoint readable (n : nat) (addr : Z) (s : task) : task * list Z :=
  match n with
  | O => (s, [])
  | S n =>
      match user_page addr s with
      | None => (s, [])
      | Some (w, page) =>
          let '(s, l) := readable n (addr + 1) (touch addr (w, page) s) in
          (s, nth (Z.to_nat (pg_ofs addr)) page 0 :: l)
      end
  end.

(** ** Helpers of the handler *)

Definition check_address (addr : Z) : sys unit :=
  if bool_decide (addr = 0) then exit_process (-1)
  else if negb (is_user_vaddr addr) then exit_process (-1)
  else do! s := get in if bool_decide (pg_round_down addr ∈ resident s) then ret tt else exit_process (-1).

Definition get_file_by_fd (l : list open_file) (n : Z) : option open_file := snd <$> list_find (fun o => fd o = n) l.

(** The file of a descriptor; the null pointer is dereferenced when there is none. *)
Definition file_of (n : Z) : sys Z :=
  do! s := get in
  match get_file_by_fd (file_list s) n with
  | Some o => ret (o_file o)
  | None => run! load_word 0; fail Ub
  end.

(** Every element with the descriptor is closed and removed; the loop on the linked list,
    [close_inlist_loop], does the same: see [close_inlist_loop_ok]. *)
Fixpoint close_matching (n : Z) (l : list open_file) : sys (list open_file) :=
  match l with
  | [] => ret []
  | o :: l =>
      if bool_decide (fd o = n) then run! on_fs_ (fun f => file_close junk zeros oom f (o_file o)); close_matching n l
      else do! r := close_matching n l in ret (o :: r)
  end.

Definition file_close_inlist (n : Z) : sys unit :=
  do! s := get in
  do! l := close_matching n (file_list s) in
  modify (fun s => set_files l (fd_count s) s).

(** The loop on the linked list at [l], whose element at [el] is that of the open file
    [open_of el]; it goes on with [list_next] of the element, also when it was removed. *)
Definition close_inlist_body (open_of : Z -> open_file) (n el : Z) (h : heap) (f : fs) : res (heap * fs) :=
  let open_f := open_of el in
  if bool_decide (fd open_f = n) then
    let! f := file_close junk zeros oom f (o_file open_f) in
    let! '(_, h) := list_remove h el in
    Ret (h, f)
  else Ret (h, f).

Definition close_inlist_loop (open_of : Z -> open_file) (fuel : nat) (l n : Z) (h : heap) (f : fs) : res (heap * fs) :=
  let! temp := list_begin h l in KListOps.walk (close_inlist_body open_of n) fuel l temp h f.

(** ** The cases of the handler

    [p] is the stack pointer of the user program; the arguments follow the number of the
    call. *)

Definition arg (p i : Z) : sys Z := load_word (p + 4 * i).

(** [check_address (p + i)]. *)
Definition check_arg (p i : Z) : sys unit := check_address (p + 4 * i).

Definition sys_exit (p : Z) : sys unit :=
  run! check_arg p 1; do! st := arg p 1 in exit_process (s32 st).

(** The first word of the command line; [free] is given the pointer to it, and fails an
    assertion when it is not the start of the block. *)
Definition sys_exec (p : Z) : sys unit :=
  run! check_arg p 1;
  do! a := arg p 1 in
  run! check_address a;
  run! acquire_file_lock;
  do! line := user_string a in
  match tokens (fun c => c =? 32) line with
  | [] => run! load_byte 0; fail Ub
  | w :: _ =>
      do! f := on_fs (fun f => filesys_open junk zeros oom f w) in
      if bool_decide (head line = Some 32) then fail Panic
      else if bool_decide (f = NULL) then run! release_file_lock; modify (set_eax (-1))
      else
        run! on_fs_ (fun fs => file_close junk zeros oom fs f);
        run! release_file_lock;
        modify (set_eax (execute line))
  end.

Definition sys_wait (p : Z) : sys unit :=
  run! check_arg p 1; do! pid := arg p 1 in modify (set_eax (wait (s32 pid))).

Definition sys_create (p : Z) : sys unit :=
  do! a := arg p 1 in
  run! check_address a;
  run! check_arg p 2;
  run! acquire_file_lock;
  do! a := arg p 1 in
  do! n := arg p 2 in
  do! name := user_string a in
  do! ok := on_fs (fun f => filesys_create junk zeros oom f name (s32 n) false) in
  run! modify (set_eax (Z.b2z ok));
  release_file_lock.

Definition sys_remove (p : Z) : sys unit :=
  run! check_arg p 1;
  do! a := arg p 1 in
  run! acquire_file_lock;
  do! name := user_string a in
  do! ok := on_fs (fun f => filesys_remove junk zeros oom f name) in
  run! modify (set_eax (Z.b2z ok));
  release_file_lock.

(** A new descriptor for the file, whose structure is assumed to be allocated; [fd_count]
    is an [int]. *)
Definition add_open (f : Z) (s : task) : res task :=
  let! n := int_op (fd_count s + 1) in
  Ret (set_eax (fd_count s) (set_files (file_list s ++ [mkOpen f (fd_count s)]) n s)).

Definition sys_open (p : Z) : sys unit :=
  do! a := arg p 1 in
  run! check_address a;
  run! acquire_file_lock;
  do! a := arg p 1 in
  do! name := user_string a in
  do! f := on_fs (fun f => filesys_open junk zeros oom f name) in
  run! release_file_lock;
  if bool_decide (f = NULL) then modify (set_eax (-1))
  else fun s => let! s := add_open f s in Ret (s, Val tt).

Definition sys_filesize (p : Z) : sys unit :=
  run! check_arg p 1;
  run! acquire_file_lock;
  do! n := arg p 1 in
  do! f := file_of (s32 n) in
  do! len := on_fs (fun fs => file_length junk fs f) in
  run! modify (set_eax len);
  release_file_lock.

(** A key is stored as a word; without a key the call waits. *)
Fixpoint read_keys (n : nat) (addr : Z) : sys unit :=
  match n with
  | O => ret tt
  | S n =>
      do! s := get in
      match keys s with
      | [] => fail NoFuel
      | k :: ks =>
          run! modify (set_io (screen s) ks);
          run! store_bytes (bytes32 k) addr;
          read_keys n (addr + 4)
      end
  end.

Definition sys_read (p : Z) : sys unit :=
  do! buffer := arg p 2 in
  run! check_arg p 1;
  run! check_address buffer;
  run! check_arg p 3;
  do! n := arg p 1 in
  do! size := arg p 3 in
  if bool_decide (n = 0) then
    run! read_keys (Z.to_nat size) buffer;
    if bool_decide (0 < size) then modify (set_eax size) else ret tt
  else
    do! s := get in
    match get_file_by_fd (file_list s) (s32 n) with
    | None => modify (set_eax (-1))
    | Some o =>
        if bool_decide (o_file o = NULL) then modify (set_eax (-1))
        else
          run! acquire_file_lock;
          do! d := on_fs (fun f => file_read junk oom f (o_file o) (s32 size)) in
          run! store_bytes d buffer;
          run! modify (set_eax (Z.of_nat (length d)));
          release_file_lock
    end.

(** The bytes that are shown or written are those of the buffer; the process ends when one
    that is needed cannot be read. *)
Definition sys_write (p : Z) : sys unit :=
  run! check_arg p 1;
  run! check_arg p 3;
  do! buffer := arg p 2 in
  run! check_address buffer;
  do! size := arg p 3 in
  do! n := arg p 1 in
  if bool_decide (n = 1) then
    do! l := load_bytes (Z.to_nat size) buffer in
    run! modify (fun s => set_io (screen s ++ l) (keys s) s);
    modify (set_eax size)
  else
    do! s := get in
    match get_file_by_fd (file_list s) (s32 n) with
    | None => modify (set_eax (-1))
    | Some o =>
        run! acquire_file_lock;
        do! l := (fun s => let '(s, l) := readable (Z.to_nat (s32 size)) buffer s in Ret (s, Val l)) in
        do! cnt := on_fs (fun f => file_write junk zeros oom f (o_file o)
                            (l ++ replicate (Z.to_nat (s32 size) - length l) 0) (s32 size)) in
        if bool_decide (cnt <= Z.of_nat (length l)) then run! modify (set_eax cnt); release_file_lock
        else run! load_byte (buffer + Z.of_nat (length l)); fail Ub
    end.

Definition sys_seek (p : Z) : sys unit :=
  run! check_arg p 1;
  run! check_arg p 2;
  run! acquire_file_lock;
  do! pos := arg p 2 in
  do! n := arg p 1 in
  do! f := file_of (s32 n) in
  run! on_fs_ (fun fs => file_seek fs f (s32 pos));
  release_file_lock.

Definition sys_tell (p : Z) : sys unit :=
  run! check_arg p 1;
  run! acquire_file_lock;
  do! n := arg p 1 in
  do! f := file_of (s32 n) in
  do! pos := on_fs (fun fs => let! pos := file_tell fs f in Ret (fs, pos)) in
  run! modify (set_eax pos);
  release_file_lock.

Definition sys_close (p : Z) : sys unit :=
  run! check_arg p 1;
  run! acquire_file_lock;
  do! n := arg p 1 in
  run! file_close_inlist (s32 n);
  release_file_lock.

Definition sys_chdir (p : Z) : sys unit :=
  run! check_arg p 1;
  do! a := arg p 1 in
  do! path := user_string a in
  do! d := on_fs (fun f => path_parsing junk zeros oom f path) in
  if bool_decide (d = NULL) then modify (set_eax 0)
  else
    run! on_fs_ (fun f => let! f := dir_close junk zeros oom f (cur_dir f) in Ret (with_cur_dir f d));
    modify (set_eax 1).

Definition sys_mkdir (p : Z) : sys unit :=
  run! check_arg p 1;
  do! a := arg p 1 in
  run! acquire_file_lock;
  do! name := user_string a in
  do! ok := on_fs (fun f => filesys_create junk zeros oom f name 0 true) in
  run! release_file_lock;
  modify (set_eax (Z.b2z ok)).

(** The name at the user's buffer is copied to an array of 16 bytes; the name that is read
    is not copied back. *)
Definition sys_readdir (p : Z) : sys unit :=
  do! n := arg p 1 in
  do! a := arg p 2 in
  do! name := user_string a in
  if bool_decide (16 < Z.of_nat (length name)) then fail Ub
  else
    do! f := file_of (s32 n) in
    do! ino := on_fs (fun fs => let! i := file_get_inode fs f in Ret (fs, i)) in
    do! pos := on_fs (fun fs => let! pos := file_tell fs f in Ret (fs, pos)) in
    do! is_dir := on_fs (fun fs => inode_dir_check junk oom fs ino) in
    if negb is_dir then modify (set_eax 0)
    else
      run! acquire_file_lock;
      do! r := on_fs (fun fs => let! '(fs, pos, o) := readdir_from junk oom fs ino pos in Ret (fs, (pos, o))) in
      match snd r with
      | None => run! release_file_lock; modify (set_eax 0)
      | Some _ =>
          run! on_fs_ (fun fs => file_seek fs f (fst r));
          run! release_file_lock;
          modify (set_eax 1)
      end.

Definition sys_isdir (p : Z) : sys unit :=
  run! check_arg p 1;
  do! n := arg p 1 in
  do! f := file_of (s32 n) in
  do! ino := on_fs (fun fs => let! i := file_get_inode fs f in Ret (fs, i)) in
  do! is_dir := on_fs (fun fs => inode_dir_check junk oom fs ino) in
  modify (set_eax (Z.b2z is_dir)).

Definition sys_inumber (p : Z) : sys unit :=
  run! check_arg p 1;
  do! n := arg p 1 in
  do! s := get in
  match get_file_by_fd (file_list s) (s32 n) with
  | None => fail Panic
  | Some o =>
      do! i := on_fs (fun fs => let! ino := file_get_inode fs (o_file o) in
                                let! i := inode_to_inumber fs ino in Ret (fs, i)) in
      run! (fun s => ASSERT (bool_decide (i <> 0)); Ret (s, Val tt));
      modify (set_eax i)
  end.

(** The open file is used before it is compared with the null pointer. *)
Definition mmap_call (p : Z) : sys unit :=
  run! check_arg p 1;
  run! check_arg p 2;
  do! n := arg p 1 in
  do! addr := arg p 2 in
  if bool_decide (addr = 0) then modify (set_eax MAP_FAILED)
  else if bool_decide (pg_ofs addr <> 0) then modify (set_eax MAP_FAILED)
  else if bool_decide (n = 0) || bool_decide (n = 1) then modify (set_eax MAP_FAILED)
  else
    do! f := file_of (s32 n) in
    do! len := on_fs (fun fs => file_length junk fs f) in
    if bool_decide (len = 0) then modify (set_eax MAP_FAILED)
    else do! v := map_file f len addr in modify (set_eax v).

Definition munmap_call (p : Z) : sys unit :=
  run! check_arg p 1;
  do! id := arg p 1 in
  unmap_file (s32 id).

Definition dispatch (p nr : Z) : sys unit :=
  match nr with
  | 0 => fun s => Ret (s, PowerOff)
  | 1 => sys_exit p
  | 2 => sys_exec p
  | 3 => sys_wait p
  | 4 => sys_create p
  | 5 => sys_remove p
  | 6 => sys_open p
  | 7 => sys_filesize p
  | 8 => sys_read p
  | 9 => sys_write p
  | 10 => sys_seek p
  | 11 => sys_tell p
  | 12 => sys_close p
  | 13 => mmap_call p
  | 14 => munmap_call p
  | 15 => sys_chdir p
  | 16 => sys_mkdir p
  | 17 => sys_readdir p
  | 18 => sys_isdir p
  | 19 => sys_inumber p
  | _ => ret tt
  end.

Definition syscall_handler (p : Z) : sys unit :=
  run! modify (set_esp p);
  run! check_address p;
  do! nr := load_word p in
  dispatch p nr.
End Syscall.
