(* ===== verification/FsFrame.v ===== *)
(** * What the operations of the file system leave alone

    Operations on inodes, directories and paths do not touch the open files of other code;
    those on an open file change only that one.  This holds whenever they return, whatever
    the disk holds. *)

From S2P Require Import Prelude Bitmap Cstring Cache Inode Directory.

(** The open files are the same, and no address is used twice. *)
Record same_handles (s s' : fs) : Prop := { sh_files : files s' = files s; sh_next : next s <= next s' }.

#[export] Instance same_handles_preorder : PreOrder same_handles.
Proof. split; [by split|]. intros s1 s2 s3 [] []. split; [congruence|lia]. Qed.

(** A call that starts in [s] and, if it returns, ends in the state [out] of its result. *)
Class Keeps {A} (r : res A) (s : fs) (out : A -> fs) : Prop := keeps : forall a, r = Ret a -> same_handles s (out a).

(** Runs a definition and collects what its calls keep. *)
Ltac run_calls :=
  repeat first
    [ progress rinv | progress simplify_eq
    | match goal with H : context [match ?x with _ => _ end] |- _ => destruct x eqn:? end ].

Ltac use_keeps :=
  repeat match goal with
  | H : ?r = Ret ?a |- _ => let K := fresh "K" in pose proof (keeps (r := r) a H) as K; clear H
  end.

Ltac keep_calls :=
  run_calls; use_keeps; simpl in *;
  repeat match goal with K : same_handles _ _ |- _ => destruct K end; simpl in *; (split; simpl; [congruence|lia]).

(** ** Loops *)

Lemma iter_keeps {S R} (st : S -> fs) (out : R -> fs) f n x : 
  (forall x y, f x = Ret y -> same_handles (st x) (match y with inl x' => st x' | inr r => out r end)) ->
  Keeps (iter n f x) (st x) out.
Proof.
  intros Hf. revert x. induction n as [|n IH]; intros x r Hr; simpl in Hr; [done|]. rinv.
  match goal with H : f x = Ret ?y |- _ => pose proof (Hf _ _ H) as Hk; destruct y as [x'|r'] end.
  - etransitivity; [exact Hk|]. by apply IH.
  - by simplify_eq.
Qed.

Lemma for_up_keeps f n : (forall k s s', f k s = Ret s' -> same_handles s s') -> forall i s, Keeps (for_up n i f s) s id.
Proof.
  intros Hf. induction n as [|n IH]; intros i s s' Hs; simpl in Hs; rinv; simplify_eq; [done|].
  etransitivity; [by eapply Hf|]. by eapply IH.
Qed.

(** ** Inodes *)

Section Frame.
Context (junk zeros : list Z) (oom : Z -> bool).

#[export] Instance scratch_keeps s : Keeps (scratch oom s) s fst.
Proof. intros [s' p] H. unfold scratch, calloc in H. keep_calls. Qed.
#[export] Instance rd_keeps s t o n : Keeps (rd junk s t o n) s fst.
Proof. intros [s' d] H. unfold rd in H. keep_calls. Qed.
#[export] Instance wr_keeps s t b o n : Keeps (wr junk s t b o n) s id.
Proof. intros s' H. unfold wr in H. keep_calls. Qed.
#[export] Instance put_cache_keeps s t : Keeps (put_cache s t) s fst.
Proof. intros [s' d] H. unfold put_cache in H. keep_calls. Qed.
#[export] Instance lock_keeps s p : Keeps (lock_inode s p) s id.
Proof. intros s' H. unfold lock_inode, get_inode in H. keep_calls. Qed.
#[export] Instance unlock_keeps s p : Keeps (unlock_inode s p) s id.
Proof. intros s' H. unfold unlock_inode, get_inode in H. keep_calls. Qed.
#[export] Instance length_keeps s p : Keeps (inode_length junk s p) s fst.
Proof. intros [s' d] H. unfold inode_length, get_inode in H. keep_calls. Qed.
#[export] Instance byte_to_sector_keeps s p q : Keeps (byte_to_sector junk oom s p q) s fst.
Proof. intros [s' d] H. unfold byte_to_sector, get_inode in H. keep_calls. Qed.
#[export] Instance read_at_keeps s p n o : Keeps (inode_read_at junk oom s p n o) s fst.
Proof.
  apply (iter_keeps (fun x => x.1.1.1) fst _ _ (s, n, o, [])). intros [[[s0 n0] o0] d0] y H. unfold read_chunk in H. keep_calls.
Qed.
#[export] Instance dir_check_keeps s p : Keeps (inode_dir_check junk oom s p) s fst.
Proof. intros [s' d] H. unfold inode_dir_check, get_inode in H. keep_calls. Qed.
#[export] Instance parent_keeps s p : Keeps (inode_parent junk s p) s fst.
Proof. intros [s' d] H. unfold inode_parent, get_inode in H. keep_calls. Qed.

(** ** Writing *)

Section Write.
Context (write_at : fs -> Z -> list Z -> Z -> Z -> res (fs * Z)).
Context (Hw : forall s p b n o, Keeps (write_at s p b n o) s fst).

#[local] Existing Instance Hw.

Lemma file_write_at_keeps s f b n o : Keeps (file_write_at_ junk oom write_at s f b n o) s fst.
Proof using Hw. intros [s' d] H. unfold file_write_at_, get_file in H. keep_calls. Qed.
#[local] Existing Instance file_write_at_keeps.

Lemma write_free_map_keeps s : Keeps (write_free_map junk oom write_at s) s fst.
Proof using Hw. intros [s' d] H. unfold write_free_map in H. keep_calls. Qed.
#[local] Existing Instance write_free_map_keeps.

Lemma allocate_keeps s n : Keeps (free_map_allocate_ junk oom write_at s n) s fst.
Proof using Hw. intros [s' d] H. unfold free_map_allocate_ in H. keep_calls. Qed.
#[local] Existing Instance allocate_keeps.

Lemma expand_keeps s p n : Keeps (inode_expand_ junk zeros oom write_at s p n) s fst.
Proof using Hw.
  assert (forall x k r, iter k (expand_round junk zeros oom write_at) x = Ret r -> same_handles x.1.1.1.1 r.1) as Hr.
  { intros x k r. apply (iter_keeps (fun x => x.1.1.1.1) fst). intros [[[[s0 b0] a0] c0] r0] y H. unfold expand_round in H. keep_calls. }
  intros [s' d] H. unfold inode_expand_, get_inode, bytes_to_sectors, off_t in H. run_calls; use_keeps;
    repeat match goal with H : iter _ _ _ = Ret _ |- _ => apply Hr in H end; simpl in *;
    repeat match goal with K : same_handles _ _ |- _ => destruct K end; simpl in *; (split; simpl; [congruence|lia]).
Qed.
#[local] Existing Instance expand_keeps.

Lemma write_at_keeps s p b n o : Keeps (inode_write_at_ junk zeros oom write_at s p b n o) s fst.
Proof using Hw.
  assert (forall x k r, iter k (write_chunk junk oom p b) x = Ret r -> same_handles x.1.1.1 r.1) as Hr.
  { intros x k r. apply (iter_keeps (fun x => x.1.1.1) fst). intros [[[s0 n0] o0] w0] y H. unfold write_chunk, off_t in H. keep_calls. }
  intros [s' d] H. unfold inode_write_at_, get_inode, off_t in H. run_calls; use_keeps;
    repeat match goal with H : iter _ _ _ = Ret _ |- _ => apply Hr in H end; simpl in *;
    repeat match goal with K : same_handles _ _ |- _ => destruct K end; simpl in *; (split; simpl; [congruence|lia]).
Qed.
End Write.

#[export] Instance write_levels_keeps d s p b n o : Keeps (write_levels junk zeros oom d s p b n o) s fst.
Proof. revert s p b n o. induction d as [|d IH]; intros s p b n o; [by intros r Hr|]. by apply write_at_keeps. Qed.
#[export] Instance inode_write_at_keeps s p b n o : Keeps (inode_write_at junk zeros oom s p b n o) s fst.
Proof. exact (write_levels_keeps 4 s p b n o). Qed.
#[export] Instance inode_expand_keeps s p n : Keeps (inode_expand junk zeros oom s p n) s fst.
Proof. exact (expand_keeps (write_levels junk zeros oom 3) (write_levels_keeps 3) s p n). Qed.
#[export] Instance free_map_allocate_keeps s n : Keeps (free_map_allocate junk zeros oom s n) s fst.
Proof. exact (allocate_keeps (write_levels junk zeros oom 4) (write_levels_keeps 4) s n). Qed.

(** ** Opening and closing *)

#[export] Instance reopen_keeps s p : Keeps (inode_reopen s p) s fst.
Proof. intros [s' d] H. unfold inode_reopen, get_inode in H. keep_calls. Qed.
#[export] Instance inode_open_keeps s t : Keeps (inode_open oom s t) s fst.
Proof. intros [s' d] H. unfold inode_open, calloc in H. keep_calls. Qed.
#[export] Instance inode_create_keeps s t n d : Keeps (inode_create junk zeros oom s t n d) s fst.
Proof. intros [s' x] H. unfold inode_create, get_dir, get_inode in H. keep_calls. Qed.
#[export] Instance inode_remove_keeps s p : Keeps (inode_remove s p) s id.
Proof. intros s' H. unfold inode_remove, get_inode in H. keep_calls. Qed.
#[export] Instance deny_keeps s p : Keeps (inode_deny_write s p) s id.
Proof. intros s' H. unfold inode_deny_write, get_inode in H. keep_calls. Qed.
#[export] Instance allow_keeps s p : Keeps (inode_allow_write s p) s id.
Proof. intros s' H. unfold inode_allow_write, get_inode in H. keep_calls. Qed.
#[export] Instance drop_ref_keeps s q p i b n : Keeps (drop_ref junk zeros oom s q p i b n) s id.
Proof. intros s' H. unfold drop_ref in H. keep_calls. Qed.
#[export] Instance inode_close_keeps s p : Keeps (inode_close junk zeros oom s p) s id.
Proof. intros s' H. unfold inode_close, get_inode, bytes_to_sectors, off_t in H. keep_calls. Qed.

(** ** Directories and paths *)

#[export] Instance dir_open_keeps s p : Keeps (dir_open junk zeros oom s p) s fst.
Proof. intros [s' d] H. unfold dir_open, calloc in H. keep_calls. Qed.
#[export] Instance dir_open_root_keeps s : Keeps (dir_open_root junk zeros oom s) s fst.
Proof. intros [s' d] H. unfold dir_open_root in H. keep_calls. Qed.
#[export] Instance dir_reopen_keeps s d : Keeps (dir_reopen junk zeros oom s d) s fst.
Proof. intros [s' x] H. unfold dir_reopen, get_dir in H. keep_calls. Qed.
#[export] Instance dir_close_keeps s d : Keeps (dir_close junk zeros oom s d) s id.
Proof. intros s' H. unfold dir_close, get_dir in H. keep_calls. Qed.
#[export] Instance read_entry_keeps s i e o : Keeps (read_entry junk oom s i e o) s (fun x => x.1.1).
Proof. intros [[s' d] f] H. unfold read_entry in H. keep_calls. Qed.
#[export] Instance lookup_keeps s d n : Keeps (lookup_ junk oom s d n) s fst.
Proof.
  intros r H. unfold lookup_, get_dir in H. rinv. match goal with H : iter _ _ _ = Ret _ |- _ => revert H end.
  generalize dir_rounds. intros rounds. apply (iter_keeps (fun x : fs * list Z * Z => x.1.1) fst _ _ (s, fresh_entry junk, 0)).
  clear. intros [[s0 e0] o0] y H. cbv beta iota in H. keep_calls.
Qed.
#[export] Instance dir_lookup_keeps s d n : Keeps (dir_lookup junk oom s d n) s fst.
Proof. intros [s' x] H. unfold dir_lookup, get_dir in H. keep_calls. Qed.
#[export] Instance free_slot_keeps s i : Keeps (free_slot junk oom s i) s (fun x => x.1.1).
Proof.
  unfold free_slot. generalize dir_rounds. intros rounds.
  apply (iter_keeps (fun x : fs * list Z * Z => x.1.1) (fun x => x.1.1) _ _ (s, fresh_entry junk, 0)). intros [[s0 e0] o0] y H. cbv beta iota in H. keep_calls.
Qed.
#[export] Instance dir_add_keeps s d n t : Keeps (dir_add junk zeros oom s d n t) s fst.
Proof. intros [s' x] H. unfold dir_add, get_dir in H. keep_calls. Qed.
#[export] Instance dir_remove_keeps s d n : Keeps (dir_remove junk zeros oom s d n) s fst.
Proof. intros [s' x] H. unfold dir_remove, get_dir in H. keep_calls. Qed.
#[export] Instance readdir_keeps s i p : Keeps (readdir_from junk oom s i p) s (fun x => x.1.1).
Proof.
  unfold readdir_from. generalize dir_rounds. intros rounds.
  apply (iter_keeps (fun x : fs * list Z * Z => x.1.1) (fun x => x.1.1) _ _ (s, fresh_entry junk, p)). intros [[s0 e0] o0] y H. cbv beta iota in H. keep_calls.
Qed.
Lemma walk_keeps l : forall s d, Keeps (walk junk zeros oom l s d) s fst.
Proof.
  induction l as [|n l IH]; intros s d [s' x] H; [by simplify_eq/=|]. change (walk junk zeros oom (n :: l) s d) with
    (rbind (dir_lookup junk oom s d n) (fun '(s, ino) => if bool_decide (ino <> NULL) then
       rbind (dir_close junk zeros oom s d) (fun s => rbind (dir_open junk zeros oom s ino) (fun '(s, d) => walk junk zeros oom l s d))
     else rbind (dir_close junk zeros oom s d) (fun s => Ret (s, NULL)))) in H. pose proof IH. keep_calls.
Qed.
#[export] Existing Instance walk_keeps.
#[export] Instance path_parsing_keeps s n : Keeps (path_parsing junk zeros oom s n) s fst.
Proof. intros [s' x] H. unfold path_parsing in H. keep_calls. Qed.
#[export] Instance split_name_keeps s n : Keeps (split_name junk zeros oom s n) s (fun x => x.1.1).
Proof. intros [[s' x] y] H. unfold split_name in H. keep_calls. Qed.
#[export] Instance filesys_create_keeps s n z d : Keeps (filesys_create junk zeros oom s n z d) s fst.
Proof. intros [s' x] H. unfold filesys_create in H. keep_calls. Qed.
#[export] Instance filesys_remove_keeps s n : Keeps (filesys_remove junk zeros oom s n) s fst.
Proof. intros [s' x] H. unfold filesys_remove, dir_get_inode, get_dir in H. keep_calls. Qed.

(** ** Open files *)

(** Only the open file [f] may change, and it stays on its inode. *)
Record only_handle (f : Z) (s s' : fs) : Prop := {
  oh_others : forall g, g <> f -> files s' !! g = files s !! g;
  oh_inode : forall fl, files s !! f = Some fl -> exists fl', files s' !! f = Some fl' /\ f_inode fl' = f_inode fl;
  oh_next : next s <= next s'
}.

Lemma file_length_keeps s f : Keeps (file_length junk s f) s fst.
Proof. intros [s' x] H. unfold file_length, get_file in H. keep_calls. Qed.

(** A new open file has an address that no other has. *)
Record new_handle (s s' : fs) (f : Z) : Prop := {
  nh_range : next s <= f < next s';
  nh_files : exists ino, files s' = <[f := mkFile ino 0 false]> (files s)
}.

Lemma file_open_new s ino s' f : file_open junk zeros oom s ino = Ret (s', f) ->
  (f = NULL /\ same_handles s s') \/ (f <> NULL /\ new_handle s s' f).
Proof.
  intros H. unfold file_open, calloc in H. destruct (bool_decide (ino <> NULL) && bool_decide _) eqn:E.
  - right. injection H as <- <-. apply andb_prop in E as [_ E]. apply bool_decide_eq_true in E. split; [done|].
    destruct (oom (next s)); [done|]. split; simpl; [lia|]. by exists ino.
  - left. rinv. match goal with H : inode_close _ _ _ _ _ = Ret _ |- _ => apply keeps in H as [Hf Hn] end. simplify_eq. split; [done|].
    simpl in *. split; [done|lia].
Qed.

Lemma filesys_open_new s n s' f : filesys_open junk zeros oom s n = Ret (s', f) ->
  (f = NULL /\ same_handles s s') \/ (f <> NULL /\ new_handle s s' f).
Proof.
  assert (forall s1 ino, same_handles s s1 -> file_open junk zeros oom s1 ino = Ret (s', f) ->
    (f = NULL /\ same_handles s s') \/ (f <> NULL /\ new_handle s s' f)) as Hopen.
  { intros s1 ino [Hf Hn] Ho. destruct (file_open_new _ _ _ _ Ho) as [[? Hs]|[? [[Hr1 Hr2] [i Hi]]]]; [left|right]; (split; [done|]).
    - by transitivity s1.
    - split; [lia|]. exists i. by rewrite Hi, Hf. }
  intros H. unfold filesys_open in H. case_bool_decide; [by simplify_eq; left|]. rinv.
  match goal with H : split_name _ _ _ _ _ = Ret ?x |- _ => destruct x as [[s1 d] tn]; pose proof (keeps _ H) as K1; simpl in K1 end.
  case_bool_decide; [by simplify_eq; left|]. case_bool_decide.
  - rinv. eapply Hopen; [|done]. done.
  - rinv. match goal with H : dir_lookup _ _ _ _ _ = Ret ?x |- _ => destruct x as [s2 i2]; pose proof (keeps _ H) as K2; simpl in K2 end.
    rinv. match goal with H : dir_close _ _ _ _ _ = Ret ?x |- _ => pose proof (keeps _ H) as K3; unfold id in K3 end.
    eapply Hopen; [|done]. by transitivity s2; [transitivity s1|].
Qed.

Lemma advance_only s f n s' : advance s f n = Ret s' -> exists fl, files s !! f = Some fl /\
  files s' = <[f := mkFile (f_inode fl) (f_pos fl + n) (deny_write fl)]> (files s) /\ next s' = next s.
Proof. intros H. unfold advance, get_file, off_t in H. run_calls. eexists. split; [done|]. done. Qed.

Lemma file_read_only s f n s' d : file_read junk oom s f n = Ret (s', d) -> exists fl, files s !! f = Some fl /\
  files s' = <[f := mkFile (f_inode fl) (f_pos fl + Z.of_nat (length d)) (deny_write fl)]> (files s) /\ next s <= next s'.
Proof.
  intros H. unfold file_read, get_file in H. rinv.
  match goal with H : inode_read_at _ _ _ _ _ _ = Ret ?x |- _ => destruct x as [s1 d1]; apply keeps in H as [Hf Hn]; simpl in Hf, Hn end.
  rinv. simplify_eq. match goal with H : advance _ _ _ = Ret _ |- _ => apply advance_only in H as (fl & Hfl & Hs & Hx) end.
  rewrite Hf in Hfl, Hs. exists fl. split; [congruence|]. split; [done|lia].
Qed.

Lemma file_write_only s f b n s' r : file_write junk zeros oom s f b n = Ret (s', r) -> exists fl, files s !! f = Some fl /\
  (same_handles s s' /\ r = -1 \/
   files s' = <[f := mkFile (f_inode fl) (f_pos fl + r) (deny_write fl)]> (files s) /\ next s <= next s').
Proof.
  intros H. unfold file_write, get_file in H. rinv.
  match goal with H : inode_dir_check _ _ _ _ = Ret ?x |- _ => destruct x as [s1 d1]; apply keeps in H as [Hf Hn]; simpl in Hf, Hn end.
  destruct d1; [simplify_eq; eexists; split; [done|]; left; by split|]. rinv.
  match goal with H : inode_write_at _ _ _ _ _ _ _ _ = Ret ?x |- _ => destruct x as [s2 d2]; apply keeps in H as [Hf2 Hn2]; simpl in Hf2, Hn2 end.
  rinv. simplify_eq. match goal with H : advance _ _ _ = Ret _ |- _ => apply advance_only in H as (fl & Hfl & Hs & Hx) end.
  rewrite Hf2, Hf in Hfl, Hs. exists fl. split; [congruence|]. right. split; [done|lia].
Qed.

Lemma file_seek_only s f pos s' : file_seek s f pos = Ret s' -> exists fl, files s !! f = Some fl /\
  files s' = <[f := mkFile (f_inode fl) pos (deny_write fl)]> (files s) /\ next s' = next s.
Proof. intros H. unfold file_seek, get_file in H. run_calls. eexists. split; [done|]. done. Qed.

Lemma file_allow_only s f s' : file_allow_write s f = Ret s' ->
  next s' = next s /\ exists fl fl', files s !! f = Some fl /\ files s' = <[f := fl']> (files s) /\ f_inode fl' = f_inode fl.
Proof.
  intros H. unfold file_allow_write, inode_allow_write, get_file, get_inode in H. run_calls; (split; [done|]).
  - eexists _, _. split; [done|]. split; done.
  - eexists _, _. split; [done|]. split; [by rewrite insert_id|done].
Qed.

Lemma file_close_only s f s' : f <> NULL -> file_close junk zeros oom s f = Ret s' ->
  files s' = delete f (files s) /\ next s <= next s'.
Proof.
  intros Hf H. unfold file_close in H. rewrite bool_decide_true in H by done. rinv.
  match goal with H : file_allow_write _ _ = Ret _ |- _ => apply file_allow_only in H as (Hn1 & fl & fl' & _ & Hfs & _) end.
  match goal with H : inode_close _ _ _ _ _ = Ret _ |- _ => apply keeps in H as [Hc Hn]; unfold id in * end.
  simplify_eq. simpl. rewrite Hc, Hfs, delete_insert_eq. split; [done|lia].
Qed.
End Frame.
