(* ===== verification/SyscallProof.v ===== *)
(** * System calls and file descriptors

    A system call that returns or ends the process keeps the table of open files well
    formed; the loops that remove elements of the list of open files, on the linked list. *)

From S2P Require Import Prelude KList KListProof KListOps Loader Bitmap Vaddr Cstring Stdlibc Cache Inode Directory FsFrame Syscall FsCheck.

(** ** The table of open files *)

Record fds_ok (s : task) : Prop := {
  fo_fds : NoDup (fd <$> file_list s);
  fo_range : forall o, o ∈ file_list s -> 2 <= fd o < fd_count s;
  fo_files : NoDup (o_file <$> file_list s);
  fo_live : forall o, o ∈ file_list s -> o_file o <> NULL /\ is_Some (files (fsys s) !! o_file o);
  fo_count : 2 <= fd_count s;
  fo_next : 0 < next (fsys s);
  fo_fresh : forall f, is_Some (files (fsys s) !! f) -> f < next (fsys s)
}.

(** The call keeps the table well formed and takes the file lock from [b] to [b']; a
    process that ends does not hold it. *)
Class Triple {A} (b : bool) (m : sys A) (b' : bool) : Prop := triple : forall s s' o, m s = Ret (s', o) -> fds_ok s -> file_lock s = b ->
  fds_ok s' /\ match o with Val _ => file_lock s' = b' | Exited _ => file_lock s' = false | PowerOff => True end.

(** The same handles are open. *)
Record same_open (s s' : fs) : Prop := {
  so_open : forall f, is_Some (files s !! f) <-> is_Some (files s' !! f);
  so_next : next s <= next s'
}.

Lemma same_handles_open s s' : same_handles s s' -> same_open s s'.
Proof. intros [Hf Hn]. split; [by rewrite Hf|done]. Qed.

Lemma insert_open s s' f fl fl' : files s !! f = Some fl -> files s' = <[f := fl']> (files s) -> next s <= next s' -> same_open s s'.
Proof.
  intros Hf Hs Hn. split; [|done]. intros g. rewrite Hs, lookup_insert_is_Some'. split; [by right|]. intros [<-|?]; [by rewrite Hf|done].
Qed.

Lemma fds_ok_fs s f : fds_ok s -> same_open (fsys s) f -> fds_ok (set_fsys f s).
Proof.
  intros [H1 H2 H3 H4 H5 H6 H7] [Ho Hn]. split; simpl; try done.
  - intros o Hin. destruct (H4 o Hin). split; [done|]. by apply Ho.
  - lia.
  - intros g Hg. apply Ho in Hg. specialize (H7 g Hg). lia.
Qed.

(** Changes of the other fields. *)
Lemma fds_ok_same s s' : fds_ok s -> fsys s' = fsys s -> file_list s' = file_list s -> fd_count s' = fd_count s -> fds_ok s'.
Proof. intros [H1 H2 H3 H4 H5 H6 H7] Hf Hl Hc. split; rewrite ?Hf, ?Hl, ?Hc; done. Qed.

Lemma NoDup_fmap_same {A B} (f : A -> B) l x y : NoDup (f <$> l) -> x ∈ l -> y ∈ l -> f x = f y -> x = y.
Proof.
  intros Hnd [i Hi]%list_elem_of_lookup [j Hj]%list_elem_of_lookup Hf.
  assert (i = j) as <-; [|congruence]. eapply NoDup_lookup; [done|by rewrite list_lookup_fmap, Hi|by rewrite list_lookup_fmap, Hj, Hf].
Qed.

(** A new descriptor, and the end of one. *)
Lemma fds_ok_open s f h n e : fds_ok s -> new_handle (fsys s) f h -> h <> NULL -> n = fd_count s + 1 ->
  fds_ok (set_eax e (set_files (file_list s ++ [mkOpen h (fd_count s)]) n (set_lock false (set_fsys f s)))).
Proof.
  intros [H1 H2 H3 H4 H5 H6 H7] [Hr [ino Hf]] Hh ->. split; simpl; try lia.
  - rewrite fmap_app. apply NoDup_app. split_and!; [done| |apply NoDup_singleton].
    intros x (o & -> & Ho)%list_elem_of_fmap ?%list_elem_of_singleton. specialize (H2 o Ho). simpl in *. lia.
  - intros o [Ho| ->%list_elem_of_singleton]%elem_of_app; [|simpl; lia]. specialize (H2 o Ho). lia.
  - rewrite fmap_app. apply NoDup_app. split_and!; [done| |apply NoDup_singleton].
    intros x (o & -> & Ho)%list_elem_of_fmap ?%list_elem_of_singleton. destruct (H4 o Ho) as [_ Hi]. apply H7 in Hi. simpl in *. lia.
  - intros o [Ho| ->%list_elem_of_singleton]%elem_of_app; rewrite Hf, lookup_insert_is_Some'; [|simpl; tauto].
    destruct (H4 o Ho). tauto.
  - intros g. rewrite Hf, lookup_insert_is_Some'. intros [<-|Hg%H7]; lia.
Qed.

Lemma fds_ok_close s f n : fds_ok s -> next (fsys s) <= next f ->
  (forall g, files f !! g = if decide (g ∈ o_file <$> filter (fun x => fd x = n) (file_list s)) then None else files (fsys s) !! g) ->
  fds_ok (set_files (filter (fun x => fd x <> n) (file_list s)) (fd_count s) (set_fsys f s)).
Proof.
  intros [H1 H2 H3 H4 H5 H6 H7] Hn Hf. split; simpl; try lia.
  - eapply sublist_NoDup; [exact H1|]. apply fmap_sublist, sublist_filter.
  - intros o [_ Ho]%list_elem_of_filter. by apply H2.
  - eapply sublist_NoDup; [exact H3|]. apply fmap_sublist, sublist_filter.
  - intros o [Hx Ho]%list_elem_of_filter. rewrite Hf, decide_False; [by apply H4|].
    intros (o' & He & [Hx' Ho']%list_elem_of_filter)%list_elem_of_fmap. assert (o = o') by by eapply NoDup_fmap_same. congruence.
  - intros g. rewrite Hf. case_decide; [by intros [? ?]|]. intros Hg%H7. lia.
Qed.

(** What paging promises to the system calls: it may open files of its own, and leaves the
    open files of the process, the descriptors and the file lock as they are. *)
Record keeps_files (s s' : task) : Prop := {
  kf_list : file_list s' = file_list s;
  kf_count : fd_count s' = fd_count s;
  kf_lock : file_lock s' = file_lock s;
  kf_open : forall f x, files (fsys s) !! f = Some x -> files (fsys s') !! f = Some x;
  kf_next : next (fsys s) <= next (fsys s');
  kf_fresh : forall f, is_Some (files (fsys s') !! f) -> is_Some (files (fsys s) !! f) \/ f < next (fsys s')
}.

Class PagerOk {pager : Pager} : Prop := {
  map_file_ok : forall f n a s s' o, map_file f n a s = Ret (s', o) -> keeps_files s s' /\ exists v, o = Val v;
  unmap_file_ok : forall n s s' o, unmap_file n s = Ret (s', o) -> keeps_files s s' /\ exists v, o = Val v
}.

Lemma fds_ok_keeps s s' : fds_ok s -> keeps_files s s' -> fds_ok s'.
Proof.
  intros [H1 H2 H3 H4 H5 H6 H7] [Hl Hc _ Ho Hn Hf]. split; rewrite ?Hl, ?Hc; try done.
  - intros o Hin. destruct (H4 o Hin) as [? [x Hx]]. split; [done|]. eauto.
  - lia.
  - intros f Hx. destruct (Hf f Hx) as [Hy|Hy]; [apply H7 in Hy; lia|done].
Qed.

(** ** The loops on the linked list of open files *)

Lemma close_all_empties l fuel : forall els h, dll h l els -> (length els < fuel)%nat ->
  exists h', close_all_loop fuel l h = Ret h' /\ dll h' l [].
Proof.
  induction fuel as [|fuel IH]; intros els h Hd Hf; [lia|]. unfold close_all_loop. cbn [iter]. rewrite (dll_empty _ _ _ Hd). cbn [rbind].
  destruct els as [|x els]; [by exists h|]. rewrite bool_decide_eq_false_2 by done. unfold list_pop_front. rewrite (dll_front _ _ _ _ Hd). cbn [rbind].
  destruct (list_remove_ok h l [] x els Hd) as (h1 & E & Hd1 & _). rewrite E. cbn [rbind]. rewrite (remove_twice h l [] x els _ _ Hd E). cbn [rbind].
  apply (IH els h1 Hd1). simpl in Hf. lia.
Qed.

Section Calls.
Context {pager : Pager}.
Context (junk zeros : list Z) (oom : Z -> bool) (execute : list Z -> Z) (wait : Z -> Z).

#[local] Instance triple_ret {A} b (a : A) : Triple b (ret a) b.
Proof. intros s s' o Hm Hok Hl. unfold ret in Hm. by simplify_eq. Qed.
#[local] Instance triple_get b : Triple b get b.
Proof. intros s s' o Hm Hok Hl. unfold get in Hm. by simplify_eq. Qed.
#[local] Instance triple_fail {A} b r b' : Triple b (fail (A := A) r) b'.
Proof. intros s s' o Hm. unfold fail in Hm. by rinv. Qed.
#[local] Instance triple_bind {A B} b1 b2 b3 (m : sys A) (k : A -> sys B) :
  Triple b1 m b2 -> (forall a, Triple b2 (k a) b3) -> Triple b1 (sbind m k) b3.
Proof.
  intros Hm Hk s s' o H Hok Hl. unfold sbind in H. apply rbind_Ret in H as ([s1 o1] & H & H').
  destruct (Hm _ _ _ H Hok Hl) as [Hok1 Hl1]. destruct o1 as [a|st|]; [by apply (Hk a s1)|simpl in *; by simplify_eq..].
Qed.
#[local] Instance triple_if {A} b (c : bool) (m1 m2 : sys A) b' : Triple b m1 b' -> Triple b m2 b' -> Triple b (if c then m1 else m2) b'.
Proof. by destruct c. Qed.
#[local] Instance triple_acquire : Triple false acquire_file_lock true.
Proof. intros s s' o Hm Hok Hl. unfold acquire_file_lock in Hm. rewrite Hl in Hm. simpl in Hm. simplify_eq. split; [by eapply fds_ok_same|done]. Qed.
#[local] Instance triple_release : Triple true release_file_lock false.
Proof. intros s s' o Hm Hok Hl. unfold release_file_lock in Hm. rewrite Hl in Hm. simpl in Hm. simplify_eq. split; [by eapply fds_ok_same|done]. Qed.

Lemma triple_modify b f : (forall s, fsys (f s) = fsys s /\ file_list (f s) = file_list s /\ fd_count (f s) = fd_count s /\
  file_lock (f s) = file_lock s) -> Triple b (modify f) b.
Proof.
  intros Hf s s' o Hm Hok Hl. unfold modify in Hm. simplify_eq. destruct (Hf s) as (? & ? & ? & Hfl). split; [by eapply fds_ok_same|done].
Qed.
#[local] Hint Extern 1 (Triple _ (modify _) _) => apply triple_modify; intros; by split_and! : typeclass_instances.

Lemma on_fs_inv {A} (op : fs -> res (fs * A)) s s' o : on_fs op s = Ret (s', o) ->
  exists f a, op (fsys s) = Ret (f, a) /\ s' = set_fsys f s /\ o = Val a.
Proof. intros H. unfold on_fs in H. apply rbind_Ret in H as ([f a] & H & H'). simplify_eq. eauto. Qed.

Lemma on_fs_inv_ (op : fs -> res fs) s s' o : on_fs_ op s = Ret (s', o) ->
  exists f, op (fsys s) = Ret f /\ s' = set_fsys f s /\ o = Val tt.
Proof. unfold on_fs_. intros (f & a & H & -> & ->)%on_fs_inv. apply rbind_Ret in H as (f' & H & H'). simplify_eq. eauto. Qed.

Lemma triple_fs {A} b (op : fs -> res (fs * A)) : (forall s s' a, op s = Ret (s', a) -> same_open s s') -> Triple b (on_fs op) b.
Proof.
  intros Hop s s' o (f & a & Ho & -> & ->)%on_fs_inv Hok Hl. apply Hop in Ho. split; [by apply fds_ok_fs|done].
Qed.

Lemma triple_keeps {A} b (op : fs -> res (fs * A)) : (forall s, Keeps (op s) s fst) -> Triple b (on_fs op) b.
Proof. intros Hop. apply triple_fs. intros s s' a H. apply same_handles_open. by apply (Hop s _ H). Qed.
Lemma triple_keeps_ b (op : fs -> res fs) : (forall s, Keeps (op s) s id) -> Triple b (on_fs_ op) b.
Proof. intros Hop. apply triple_keeps. intros s [s' u] H. rinv. simplify_eq. by apply (Hop s). Qed.

#[local] Hint Extern 2 (Triple _ (on_fs _) _) => apply triple_keeps; intros; apply _ : typeclass_instances.
#[local] Hint Extern 2 (Triple _ (on_fs_ _) _) => apply triple_keeps_; intros; apply _ : typeclass_instances.

(** ** Exit and user memory *)

#[local] Instance triple_exit {A} b b' st : Triple b (exit_process junk zeros oom (A := A) st) b'.
Proof.
  assert (forall s s' o, close_dir junk zeros oom s = Ret (s', o) -> same_handles (fsys s) (fsys s') /\
    file_lock s' = file_lock s /\ load_file s' = load_file s /\ fd_count s' = fd_count s) as Hcd.
  { intros s0 s1 o0 (f & H & -> & _)%on_fs_inv_. apply keeps in H. done. }
  intros s s' o Hm Hok Hl. unfold exit_process in Hm.
  apply rbind_Ret in Hm as ([s1 o1] & H1 & Hm). destruct (Hcd _ _ _ H1) as (K1 & L1 & F1 & C1).
  apply rbind_Ret in Hm as ([s2 o2] & H2 & Hm).
  assert (same_handles (fsys s1) (fsys s2) /\ fd_count s2 = fd_count s1) as (K2 & C2).
  { case_bool_decide; [naive_solver|by simplify_eq]. }
  apply rbind_Ret in Hm as ([s3 o3] & H3 & Hm). unfold acquire_file_lock, assert_ in H3.
  destruct (negb (file_lock s2)); [|done]. simpl in H3. simplify_eq.
  assert (forall s4 u, (next (fsys s2) <= next (fsys s4) /\ forall f, is_Some (files (fsys s4) !! f) -> is_Some (files (fsys s2) !! f)) ->
    fd_count s4 = fd_count s2 -> release_file_lock (close_all_filelist s4) = Ret (s', u) -> fds_ok s' /\ file_lock s' = false) as Hend.
  { intros s4 u [Hn Hf] Hc Hr. unfold release_file_lock in Hr. rinv. simplify_eq. split; [|done].
    destruct Hok as [_ _ _ _ O5 O6 O7], K1 as [K1 N1], K2 as [K2 N2]. split; simpl; try (by constructor); try lia.
    - by intros o0 ?%elem_of_nil.
    - by intros o0 ?%elem_of_nil.
    - intros f Hx. apply Hf in Hx. rewrite K2, K1 in Hx. specialize (O7 f Hx). lia. }
  apply rbind_Ret in Hm as ([s4 o4] & H4 & Hm).
  apply rbind_Ret in Hm as ([s5 u] & H5 & Hm). simplify_eq.
  case_bool_decide as Hld.
  - apply on_fs_inv_ in H4 as (f & H4 & -> & _). apply file_close_only in H4 as [Hfc Hnc]; [|done].
    apply (fun a b => Hend _ _ a b H5); [|done]. split; [done|]. simpl. rewrite Hfc. intros g. rewrite lookup_delete_is_Some. simpl. tauto.
  - simplify_eq. by apply (fun a b => Hend _ _ a b H5).
Qed.

#[local] Instance triple_user_access b w a : Triple b (user_access junk zeros oom w a) b.
Proof.
  intros s s' o Hm Hok Hl. unfold user_access in Hm. destruct (is_user_vaddr a); [|done].
  destruct (user_page a s) as [[w' page]|]; [|by eapply (triple_exit b b (-1))].
  destruct (negb w || w'); [|by eapply (triple_exit b b (-1))]. simplify_eq. split; [by eapply fds_ok_same|done].
Qed.
#[local] Instance triple_load_byte b a : Triple b (load_byte junk zeros oom a) b.
Proof. unfold load_byte. apply _. Qed.
#[local] Instance triple_store_byte b a x : Triple b (store_byte junk zeros oom a x) b.
Proof. unfold store_byte. apply _. Qed.
#[local] Instance triple_load_bytes b n a : Triple b (load_bytes junk zeros oom n a) b.
Proof. revert a. induction n; intros a; simpl; apply _. Qed.
#[local] Instance triple_store_bytes b l a : Triple b (store_bytes junk zeros oom l a) b.
Proof. revert a. induction l as [|x l IH]; intros a; simpl; apply _. Qed.
#[local] Instance triple_load_word b a : Triple b (load_word junk zeros oom a) b.
Proof. unfold load_word. apply _. Qed.
#[local] Instance triple_arg b p i : Triple b (arg junk zeros oom p i) b.
Proof. unfold arg. apply _. Qed.
#[local] Instance triple_load_string b n a : Triple b (load_string junk zeros oom n a) b.
Proof. revert a. induction n; intros a; cbn [load_string]; apply _. Qed.
#[local] Instance triple_user_string b a : Triple b (user_string junk zeros oom a) b.
Proof. unfold user_string. apply _. Qed.
#[local] Instance triple_check b a : Triple b (check_address junk zeros oom a) b.
Proof. unfold check_address. apply _. Qed.
#[local] Instance triple_check_arg b p i : Triple b (check_arg junk zeros oom p i) b.
Proof. unfold check_arg. apply _. Qed.
#[local] Instance triple_file_of b n : Triple b (file_of junk zeros oom n) b.
Proof.
  unfold file_of. apply (triple_bind b b b); [apply _|]. intros s. destruct (get_file_by_fd _ _); apply _.
Qed.
#[local] Instance triple_read_keys b n a : Triple b (read_keys junk zeros oom n a) b.
Proof.
  revert a. induction n; intros a; cbn [read_keys]; [apply _|]. apply (triple_bind b b b); [apply _|]. intros s. destruct (keys s); apply _.
Qed.

(** ** The cases *)

Lemma create_case p : Triple false (sys_create junk zeros oom p) false.
Proof. unfold sys_create. apply _. Qed.
Lemma remove_case p : Triple false (sys_remove junk zeros oom p) false.
Proof. unfold sys_remove. apply _. Qed.
Lemma exit_case p : Triple false (sys_exit junk zeros oom p) false.
Proof. unfold sys_exit. apply _. Qed.
Lemma wait_case p : Triple false (sys_wait junk zeros oom wait p) false.
Proof. unfold sys_wait. apply _. Qed.
Lemma mkdir_case p : Triple false (sys_mkdir junk zeros oom p) false.
Proof. unfold sys_mkdir. apply _. Qed.

#[local] Existing Instance file_length_keeps.
Lemma filesize_case p : Triple false (sys_filesize junk zeros oom p) false.
Proof. unfold sys_filesize. apply _. Qed.

#[local] Instance triple_pure_fs {A} b (op : fs -> res A) : Triple b (on_fs (fun fs => let! x := op fs in Ret (fs, x))) b.
Proof. apply triple_keeps. intros s [s' x] H. rinv. by simplify_eq. Qed.
#[local] Instance triple_tell b f : Triple b (on_fs (fun fs => let! pos := file_tell fs f in Ret (fs, pos))) b.
Proof. apply triple_pure_fs. Qed.
Lemma tell_case p : Triple false (sys_tell junk zeros oom p) false.
Proof. unfold sys_tell. apply _. Qed.

#[local] Instance triple_seek b f pos : Triple b (on_fs_ (fun fs => file_seek fs f pos)) b.
Proof.
  apply triple_fs. intros s s' u H. rinv. simplify_eq. 
  match goal with H : file_seek _ _ _ = Ret _ |- _ => apply file_seek_only in H as (fl & Hf & Hs & Hn) end.
  eapply insert_open; [done..|]. lia.
Qed.
Lemma seek_case p : Triple false (sys_seek junk zeros oom p) false.
Proof. unfold sys_seek. apply _. Qed.

#[local] Instance triple_file_read b f n : Triple b (on_fs (fun s => file_read junk oom s f n)) b.
Proof. apply triple_fs. intros s s' d (fl & Hf & Hs & Hn)%file_read_only. by eapply insert_open. Qed.
#[local] Instance triple_file_write b f l n : Triple b (on_fs (fun s => file_write junk zeros oom s f l n)) b.
Proof.
  apply triple_fs. intros s s' d (fl & Hf & [[Hs _]|[Hs Hn]])%file_write_only; [by apply same_handles_open|]. by eapply insert_open.
Qed.
Lemma read_case p : Triple false (sys_read junk zeros oom p) false.
Proof.
  unfold sys_read. repeat first [apply (triple_bind false false false); [apply _|intros ?] | apply triple_if; [apply _|]].
  destruct (get_file_by_fd _ _); apply _.
Qed.

Lemma readable_same n : forall a s s' l, readable n a s = (s', l) ->
  fsys s' = fsys s /\ file_list s' = file_list s /\ fd_count s' = fd_count s /\ file_lock s' = file_lock s.
Proof.
  induction n as [|n IH]; intros a s s' l H; simpl in H; [by simplify_eq|].
  destruct (user_page a s) as [[w page]|]; [|by simplify_eq].
  destruct (readable n (a + 1) (touch a (w, page) s)) as [s1 l1] eqn:E. simplify_eq. by apply IH in E.
Qed.
#[local] Instance triple_readable b n a : Triple b (fun s => let '(s, l) := readable n a s in Ret (s, Val l)) b.
Proof.
  intros s s' o H Hok Hl. destruct (readable n a s) as [s1 l] eqn:E. simplify_eq.
  apply readable_same in E as (? & ? & ? & E). split; [by eapply fds_ok_same|congruence].
Qed.
Lemma write_case p : Triple false (sys_write junk zeros oom p) false.
Proof.
  unfold sys_write. repeat first [apply (triple_bind false false false); [apply _|intros ?] | apply triple_if; [apply _|]].
  destruct (get_file_by_fd _ _); apply _.
Qed.

#[export] Instance chdir_keeps d s : Keeps (let! s := dir_close junk zeros oom s (cur_dir s) in Ret (with_cur_dir s d)) s id.
Proof. intros s' H. keep_calls. Qed.
Lemma chdir_case p : Triple false (sys_chdir junk zeros oom p) false.
Proof. unfold sys_chdir. apply _. Qed.

#[export] Instance readdir_fs_keeps s i pos :
  Keeps (let! '(fs, pos, o) := readdir_from junk oom s i pos in Ret (fs, (pos, o))) s fst.
Proof. intros [s' x] H. keep_calls. Qed.
#[export] Instance get_inode_keeps s f : Keeps (let! i := file_get_inode s f in Ret (s, i)) s fst.
Proof. intros [s' x] H. rinv. by simplify_eq. Qed.
Lemma readdir_case p : Triple false (sys_readdir junk zeros oom p) false.
Proof.
  unfold sys_readdir. repeat first [apply (triple_bind false false false); [apply _|intros ?] | apply triple_if; [apply _|]].
  eapply triple_bind; [apply _|intros _]. eapply triple_bind; [apply _|intros r]. destruct (snd r); apply _.
Qed.
Lemma isdir_case p : Triple false (sys_isdir junk zeros oom p) false.
Proof. unfold sys_isdir. apply _. Qed.
Lemma inumber_case p : Triple false (sys_inumber junk zeros oom p) false.
Proof.
  unfold sys_inumber. do 3 (apply (triple_bind false false false); [apply _|intros ?]). destruct (get_file_by_fd _ _) as [o|]; [|apply _].
  apply (triple_bind false false false); [|intros i; apply (triple_bind false false false); [|intros; apply _]].
  - apply triple_keeps. intros s [s' x] H. rinv. by simplify_eq.
  - intros s s' u H Hok Hl. rinv. by simplify_eq.
Qed.

(** A handle that is opened and closed again leaves no trace. *)
Lemma open_close_handles s s1 s2 f : new_handle s s1 f -> files s2 = delete f (files s1) -> next s1 <= next s2 ->
  (forall g, is_Some (files s !! g) -> g < next s) -> same_handles s s2.
Proof.
  intros [Hr [ino Hs]] Hd Hn Hlt. split; [|lia]. rewrite Hd, Hs, delete_insert_eq. apply delete_id.
  destruct (files s !! f) as [x|] eqn:E; [|done]. assert (f < next s) by (apply Hlt; eauto). lia.
Qed.

Lemma exec_case p : Triple false (sys_exec junk zeros oom execute p) false.
Proof.
  unfold sys_exec. do 3 (apply (triple_bind false false false); [apply _|intros ?]).
  apply (triple_bind false true false); [apply _|intros _]. apply (triple_bind true true false); [apply _|intros line].
  destruct (tokens _ line) as [|w ws]; [apply _|]. intros s s' o H Hok Hl. unfold sbind at 1 in H.
  apply rbind_Ret in H as ([s1 o1] & (f & h & Ho & -> & ->)%on_fs_inv & H).
  destruct (filesys_open_new _ _ _ _ _ _ _ Ho) as [[-> Hs]|[Hh Hn]]; (case_bool_decide; [done|]).
  - rewrite bool_decide_true in H by done. refine (triple _ _ _ H _ Hl). by apply fds_ok_fs, same_handles_open.
  - rewrite bool_decide_false in H by done. unfold sbind at 1 in H.
    apply rbind_Ret in H as ([s1 o1] & (f2 & Hc & -> & ->)%on_fs_inv_ & H). apply file_close_only in Hc as [Hc Hx]; [|done].
    change (set_fsys f2 (set_fsys f s)) with (set_fsys f2 s) in H. refine (triple _ _ _ H _ Hl).
    apply fds_ok_fs; [done|]. apply same_handles_open. eapply open_close_handles; [done..|]. apply Hok.
Qed.

Lemma open_case p : Triple false (sys_open junk zeros oom p) false.
Proof.
  unfold sys_open. do 2 (apply (triple_bind false false false); [apply _|intros ?]).
  apply (triple_bind false true false); [apply _|intros _]. do 2 (apply (triple_bind true true false); [apply _|intros ?]).
  intros s s' o H Hok Hl. unfold sbind at 1 in H. apply rbind_Ret in H as ([s1 o1] & (f & h & Ho & -> & ->)%on_fs_inv & H).
  destruct (filesys_open_new _ _ _ _ _ _ _ Ho) as [[-> Hs]|[Hh Hn]].
  - rewrite bool_decide_true in H by done. refine (triple _ _ _ H _ Hl). by apply fds_ok_fs, same_handles_open.
  - rewrite bool_decide_false in H by done. unfold sbind, release_file_lock, set_fsys in H. simpl in H. rewrite Hl in H. simpl in H.
    rinv. simplify_eq. unfold add_open in *. rinv. simplify_eq. split; [|done].
    apply (fds_ok_open s f h); [done..|]. by apply int_op_inv.
Qed.

Lemma close_matching_keeps n l : forall s s' o, close_matching junk zeros oom n l s = Ret (s', o) ->
  (forall x, x ∈ l -> o_file x <> NULL) ->
  exists f, s' = set_fsys f s /\ o = Val (filter (fun x => fd x <> n) l) /\ next (fsys s) <= next f /\
    forall g, files f !! g = if decide (g ∈ o_file <$> filter (fun x => fd x = n) l) then None else files (fsys s) !! g.
Proof using Type.
  clear execute wait. induction l as [|x l IH]; intros s s' o H Hx; simpl in H.
  - unfold ret in H. simplify_eq. exists (fsys s'). split_and!; [by destruct s'|done|lia|done].
  - rewrite !filter_cons. case_bool_decide as Hn.
    + unfold sbind at 1 in H. apply rbind_Ret in H as ([s1 o1] & (f & Hc & -> & ->)%on_fs_inv_ & H).
      apply file_close_only in Hc as [Hc Hnx]; [|by apply Hx; left].
      destruct (IH _ _ _ H) as (f' & -> & -> & Hn' & Hf'); [set_solver|]. exists f'. rewrite decide_False, decide_True by naive_solver.
      split_and!; [done|done|simpl in *; lia|]. intros g. rewrite Hf'. simpl. rewrite Hc.
      destruct (decide (g = o_file x)) as [->|Hg].
      * rewrite lookup_delete_eq, (decide_True (P := _ ∈ _ :: _)) by by left. by case_decide.
      * rewrite lookup_delete_ne by done. do 2 case_decide; set_solver.
    + unfold sbind at 1 in H. apply rbind_Ret in H as ([s1 o1] & H & H').
      destruct (IH _ _ _ H) as (f' & -> & -> & Hn' & Hf'); [set_solver|]. unfold ret in H'. simplify_eq.
      exists f'. rewrite decide_True, decide_False by done. done.
Qed.

Lemma close_case p : Triple false (sys_close junk zeros oom p) false.
Proof.
  unfold sys_close, file_close_inlist. apply (triple_bind false false false); [apply _|intros ?].
  apply (triple_bind false true false); [apply _|intros _]. apply (triple_bind true true false); [apply _|intros n].
  intros s s' o H Hok Hl. unfold sbind in H. apply rbind_Ret in H as ([s1 o1] & H1 & H).
  unfold get in H1. simpl in H1. apply rbind_Ret in H1 as ([s2 o2] & H1 & H2).
  apply close_matching_keeps in H1 as (f & -> & -> & Hn & Hf); [|apply Hok]. unfold modify in H2. simplify_eq.
  refine (triple _ _ _ H _ Hl). by apply fds_ok_close.
Qed.

(** C26. The loop of [file_close_inlist] as it is written, on the linked list of the open
    files, which calls [list_next] on the elements it has just removed: it visits every
    element, closes and removes exactly those with the descriptor, and leaves the file system
    and the list as the model on the sequence of open files says, or fails (a panic in
    [file_close]) as that does. *)
Theorem close_inlist_loop_ok open_of fuel l els n h s : dll h l els -> open_of <$> els = file_list s -> (length els < fuel)%nat ->
  same_end (fun '(h', f') '(s', o) => exists els', dll h' l els' /\ s' = set_files (open_of <$> els') (fd_count s) (set_fsys f' s) /\ o = Val tt)
    (close_inlist_loop junk zeros oom open_of fuel l n h (fsys s)) (file_close_inlist junk zeros oom n s).
Proof using Type.
  intros Hd Hels Hf. set (work := fun (el : Z) (f : fs) => let open_f := open_of el in
    if bool_decide (fd open_f = n) then let! f := file_close junk zeros oom f (o_file open_f) in Ret (true, f) else Ret (false, f)).
  assert (forall els s, same_end (fun '(ys, f') '(s', o) => s' = set_fsys f' s /\ o = Val (open_of <$> ys))
    (visit work els (fsys s)) (close_matching junk zeros oom n (open_of <$> els) s)) as Hv.
  { clear. induction els as [|el els IH]; intros s; [by destruct s|]. cbn [visit fmap list_fmap close_matching]. unfold work at 1. cbn beta zeta.
    case_bool_decide; cbn [rbind].
    - unfold sbind at 1, on_fs_ at 1, on_fs at 1. destruct (file_close _ _ _ _ _) as [f| | |]; cbn [rbind]; try done.
      specialize (IH (set_fsys f s)). change (fsys (set_fsys f s)) with f in IH.
      destruct (visit work els f) as [[ys f2]| | |]; cbn [rbind]; exact IH.
    - unfold sbind at 1. specialize (IH s). destruct (visit work els (fsys s)) as [[ys f2]| | |], (close_matching _ _ _ _ _ _) as [[s2 o2]| | |]; try done.
      simpl in IH. destruct IH as [-> ->]. done. }
  pose proof (walk_list (close_inlist_body junk zeros oom open_of n) work l h els (fsys s) fuel) as Hw.
  unfold close_inlist_loop. specialize (Hv els s). rewrite Hels in Hv. unfold file_close_inlist, sbind, get. cbn [rbind].
  refine (_ (Hw _ Hd Hf)); clear Hw.
  - intros Hw. destruct (visit work els (fsys s)) as [[ys f2]| | |], (close_matching _ _ _ _ _ _) as [[s2 o2]| | |]; try done;
      destruct (let! e := list_begin h l in _) as [[h' f']| | |]; try done.
    simpl in Hv, Hw. destruct Hv as [-> ->], Hw as [Hd' ->]. simpl. exists ys. done.
  - intros h1 A el B f1 Hd1. destruct (list_remove_ok h1 l A el B Hd1) as (h2 & E & _ & _). unfold close_inlist_body, walk_step, work.
    case_bool_decide; [|done]. destruct (file_close _ _ _ _ _); [|done..]. by rewrite E.
Qed.

(** ** The handler *)

Context {pager_ok : PagerOk}.

#[local] Instance triple_map_file b f n a : Triple b (map_file f n a) b.
Proof. intros s s' o H Hok Hl. apply map_file_ok in H as [K [v ->]]. split; [by eapply fds_ok_keeps|]. by rewrite (kf_lock _ _ K). Qed.
#[local] Instance triple_unmap_file b n : Triple b (unmap_file n) b.
Proof. intros s s' o H Hok Hl. apply unmap_file_ok in H as [K [v ->]]. split; [by eapply fds_ok_keeps|]. by rewrite (kf_lock _ _ K). Qed.
Lemma mmap_case p : Triple false (mmap_call junk zeros oom p) false.
Proof. unfold mmap_call. apply _. Qed.
Lemma munmap_case p : Triple false (munmap_call junk zeros oom p) false.
Proof. unfold munmap_call. apply _. Qed.

Lemma handler_triple p : Triple false (syscall_handler junk zeros oom execute wait p) false.
Proof.
  unfold syscall_handler. do 3 (apply (triple_bind false false false); [apply _|intros ?]). unfold dispatch.
  pose proof (exit_case p); pose proof (exec_case p); pose proof (wait_case p); pose proof (create_case p);
  pose proof (remove_case p); pose proof (open_case p); pose proof (filesize_case p); pose proof (read_case p);
  pose proof (write_case p); pose proof (seek_case p); pose proof (tell_case p); pose proof (close_case p);
  pose proof (chdir_case p); pose proof (mkdir_case p); pose proof (readdir_case p); pose proof (isdir_case p);
  pose proof (inumber_case p); pose proof (mmap_case p); pose proof (munmap_case p).
  repeat first [apply _ | case_match]. intros s0 s1 o1 ? ? ?. by simplify_eq.
Qed.

(** Every system call that returns or ends the process keeps the table of open files well
    formed (distinct descriptors from 2 up, each of its own open file) and gives the file
    lock back, whatever the process passes. *)
Theorem syscall_keeps_descriptors p s s' o : syscall_handler junk zeros oom execute wait p s = Ret (s', o) ->
  fds_ok s -> file_lock s = false -> fds_ok s' /\ (o <> PowerOff -> file_lock s' = false).
Proof. intros H Hok Hl. destruct (handler_triple p _ _ _ H Hok Hl) as [Hok' Ho]. split; [done|]. by destruct o. Qed.
End Calls.

(** ** A process on a formatted disk *)

Definition stack_top : Z := 0xbffff000.
Definition demo_words (ws : list Z) : list Z :=
  let l := words_bytes ws in l ++ replicate (4096 - length l) 0.

(** A process that has mapped nothing, and whose pages leave no room for a mapping. *)
#[export] Instance no_maps : Pager := { map_file _ _ _ := ret MAP_FAILED; unmap_file _ := fail Panic }.

#[export] Instance no_maps_ok : PagerOk.
Proof.
  split.
  - intros f n a s s' o H. unfold map_file, no_maps, ret in H. simplify_eq. split; [by split; [..|auto]|by eexists].
  - intros n s s' o H. by unfold unmap_file, no_maps, fail in H.
Qed.

(** The words are at the start of the only page. *)
Definition demo_task (l : list open_file) (n : Z) (ws : list Z) : task :=
  mkTask booted l n NULL {[stack_top := (true, demo_words ws)]} {[stack_top]} stack_top false [] [] 0.
Definition demo_handler : Z -> sys unit := syscall_handler demo_junk demo_junk demo_oom (fun _ => -1) (fun _ => -1).

Lemma demo_fresh : forall f, is_Some (files booted !! f) -> f < next booted.
Proof.
  assert (map_Forall (fun f _ => f < next booted) (files booted)) as H by (apply (bool_decide_unpack _); vm_compute; exact I).
  intros f [x Hx]. by apply (H f x).
Qed.

Lemma demo_next : 0 < next booted.
Proof. vm_compute. reflexivity. Qed.

Lemma demo_no_files ws : fds_ok (demo_task [] 2 ws).
Proof.
  split; cbn [demo_task file_list fd_count fsys fmap list_fmap].
  - constructor.
  - intros o Ho. by apply elem_of_nil in Ho.
  - constructor.
  - intros o Ho. by apply elem_of_nil in Ho.
  - lia.
  - exact demo_next.
  - exact demo_fresh.
Qed.

Lemma demo_one_file ws : fds_ok (demo_task [mkOpen foo 2] 3 ws).
Proof.
  split; cbn [demo_task file_list fd_count fsys fmap list_fmap].
  - apply NoDup_singleton.
  - intros o ->%list_elem_of_singleton. cbn [fd]. lia.
  - apply NoDup_singleton.
  - intros o ->%list_elem_of_singleton. cbn [o_file]. split; [discriminate|]. vm_compute. by eexists.
  - lia.
  - exact demo_next.
  - exact demo_fresh.
Qed.

(** [open] of the file foo. *)
Definition open_foo : task := demo_task [] 2 [6; stack_top + 8; 0x6f6f66].
Lemma open_foo_returns : exists s', demo_handler stack_top open_foo = Ret (s', Val tt) /\ eax s' = 2.
Proof. eexists. split; [vm_compute; reflexivity|]. reflexivity. Qed.

(** Two open files, on a linked list at 4 with its elements at 100 and 200. *)
Definition two_open (el : Z) : open_file := if bool_decide (el = 100) then mkOpen foo 2 else mkOpen NULL 3.
Definition open_links : heap := {[4 := Elem KList.NULL 100; 100 := Elem 4 200; 200 := Elem 100 12; 12 := Elem 200 KList.NULL]}.

Lemma open_links_ok : dll open_links 4 [100; 200].
Proof. split; [by vm_compute|apply (bool_decide_unpack _); by vm_compute..]. Qed.

(** Descriptor 2 is closed, descriptor 3 stays. *)
Lemma close_inlist_loop_ok_witness : exists h' f', close_inlist_loop demo_junk demo_junk demo_oom two_open 3 4 2 open_links booted = Ret (h', f') /\
  files f' !! foo = None /\ exists els', dll h' 4 els' /\ two_open <$> els' = [mkOpen NULL 3].
Proof.
  pose proof (close_inlist_loop_ok demo_junk demo_junk demo_oom two_open 3 4 [100; 200] 2 open_links (demo_task [mkOpen foo 2; mkOpen NULL 3] 4 [])
    open_links_ok eq_refl ltac:(simpl; lia)) as H.
  assert (exists s', file_close_inlist demo_junk demo_junk demo_oom 2 (demo_task [mkOpen foo 2; mkOpen NULL 3] 4 []) = Ret (s', Val tt) /\
    file_list s' = [mkOpen NULL 3] /\ files (fsys s') !! foo = None) as (s' & E & El & Ef) by (eexists; split; [vm_compute; reflexivity|split; vm_compute; reflexivity]).
  rewrite E in H. change (fsys (demo_task [mkOpen foo 2; mkOpen NULL 3] 4 [])) with booted in H.
  destruct (close_inlist_loop _ _ _ _ _ _ _ _ _) as [[h' f']| | |]; try contradiction. destruct H as (els' & Hd & Hs & _).
  exists h', f'. split; [reflexivity|]. rewrite Hs in El, Ef. split; [exact Ef|]. exists els'. split; [exact Hd|exact El].
Defined.
