(* ===== verification/Descriptors.v ===== *)
(** * File descriptors as a map

    The abstract specification of the descriptors of a process is a finite map from
    descriptors to open files, each with a position; a call changes the entry it names.
    Every system call that returns is a step of it. *)

From S2P Require Import Prelude Bitmap Vaddr Cstring Stdlibc Cache Inode Directory FsFrame Syscall SyscallProof FsCheck.
#[local] Open Scope sys_scope.

(** ** Specification *)

(** The call, its arguments as words, the descriptors, the result and the descriptors
    after it. *)
Inductive fd_step : Z -> Z -> Z -> gmap Z file -> Z -> gmap Z file -> Prop :=
| step_open_fails a b D : fd_step 6 a b D (u32 (-1)) D
| step_open a b D n ino : 2 <= n -> D !! n = None -> fd_step 6 a b D (u32 n) (<[n := mkFile ino 0 false]> D)
| step_query nr a b D r : nr ∈ [7; 18; 19] -> is_Some (D !! s32 a) -> fd_step nr a b D r D
| step_read_keys b D r : fd_step 8 0 b D r D
| step_no_file nr a b D : nr ∈ [8; 9] -> D !! s32 a = None -> fd_step nr a b D (u32 (-1)) D
| step_read a b D f k : D !! s32 a = Some f -> 0 <= k ->
    fd_step 8 a b D (u32 k) (<[s32 a := mkFile (f_inode f) (f_pos f + k) (deny_write f)]> D)
| step_write_screen b D r : fd_step 9 1 b D r D
| step_write_dir a b D : is_Some (D !! s32 a) -> fd_step 9 a b D (u32 (-1)) D
| step_write a b D f k : D !! s32 a = Some f ->
    fd_step 9 a b D (u32 k) (<[s32 a := mkFile (f_inode f) (f_pos f + k) (deny_write f)]> D)
| step_seek a b D f r : D !! s32 a = Some f -> 0 <= s32 b ->
    fd_step 10 a b D r (<[s32 a := mkFile (f_inode f) (s32 b) (deny_write f)]> D)
| step_tell a b D f : D !! s32 a = Some f -> fd_step 11 a b D (u32 (f_pos f)) D
| step_close a b D r : fd_step 12 a b D r (delete (s32 a) D)
| step_no_dir a b D : is_Some (D !! s32 a) -> fd_step 17 a b D 0 D
| step_readdir a b D f pos : D !! s32 a = Some f ->
    fd_step 17 a b D 1 (<[s32 a := mkFile (f_inode f) pos (deny_write f)]> D)
| step_other nr a b D r : nr ∉ [6; 7; 8; 9; 10; 11; 12; 17; 18; 19] -> fd_step nr a b D r D.

(** The descriptors of a process. *)
Definition slot (s : task) (n : Z) : option file := get_file_by_fd (file_list s) n ≫= fun o => files (fsys s) !! o_file o.
Definition descriptors (s : task) (D : gmap Z file) : Prop := fds_ok s /\ forall n, D !! n = slot s n.

(** The words a process has in its memory. *)
Definition user_byte (s : task) (a : Z) : Z :=
  match pages s !! pg_round_down a with Some (_, page) => nth (Z.to_nat (pg_ofs a)) page 0 | None => 0 end.
Definition user_word (s : task) (a : Z) : Z := get32 [user_byte s a; user_byte s (a + 1); user_byte s (a + 2); user_byte s (a + 3)] 0.

(** ** Calls that only look *)

Record quiet (s s' : task) : Prop := {
  q_fs : fsys s' = fsys s;
  q_list : file_list s' = file_list s;
  q_count : fd_count s' = fd_count s;
  q_mem : forall a, user_byte s' a = user_byte s a
}.

#[export] Instance quiet_preorder : PreOrder quiet.
Proof. split; [by split|]. intros s1 s2 s3 [? ? ? M1] [? ? ? M2]. split; [congruence..|]. intros a. by rewrite M2. Qed.

Lemma quiet_word s s' a : quiet s s' -> user_word s' a = user_word s a.
Proof. intros [_ _ _ Hm]. unfold user_word. by rewrite !Hm. Qed.
Lemma quiet_slot s s' n : quiet s s' -> slot s' n = slot s n.
Proof. intros [Hf Hl _ _]. unfold slot. by rewrite Hf, Hl. Qed.
Lemma quiet_ok s s' : quiet s s' -> fds_ok s -> fds_ok s'.
Proof. intros [Hf Hl Hc _] Hok. by eapply fds_ok_same. Qed.

Lemma sbind_Val {A B} (m : sys A) (k : A -> sys B) s s' b : sbind m k s = Ret (s', Val b) ->
  exists s1 a, m s = Ret (s1, Val a) /\ k a s1 = Ret (s', Val b).
Proof. unfold sbind. intros ([s1 o] & H & H')%rbind_Ret. destruct o; simplify_eq. eauto. Qed.

Class Quiet {A} (m : sys A) : Prop := is_quiet : forall s s' a, m s = Ret (s', Val a) -> quiet s s'.

Section Calls.
Context {pager : Pager} {pager_ok : PagerOk}.
Context (junk zeros : list Z) (oom : Z -> bool) (execute : list Z -> Z) (wait : Z -> Z).

Lemma exit_no_value {A} st s s' (a : A) : exit_process junk zeros oom st s <> Ret (s', Val a).
Proof. unfold exit_process. intros H. do 5 apply rbind_Ret in H as ([? ?] & _ & H). by simplify_eq. Qed.

Lemma touch_quiet s a w page : user_page a s = Some (w, page) -> quiet s (touch a (w, page) s).
Proof.
  intros Hp. split; try done. intros b. unfold user_byte, touch. simpl. destruct (decide (pg_round_down a = pg_round_down b)) as [He|Hn].
  - rewrite He, lookup_insert_eq. unfold user_page in Hp. destruct (is_user_vaddr a); [|done]. rewrite He in Hp.
    destruct (pages s !! pg_round_down b) as [x|]; [by simplify_eq|]. destruct (_ && _); [|done]. simplify_eq.
    rewrite nth_lookup. destruct (replicate _ _ !! _) as [x|] eqn:E; [|done]. by apply lookup_replicate in E as [-> _].
  - by rewrite lookup_insert_ne.
Qed.

Lemma load_byte_value s s' a b : load_byte junk zeros oom a s = Ret (s', Val b) -> quiet s s' /\ b = user_byte s a.
Proof.
  unfold load_byte. intros (s1 & page & H & H')%sbind_Val. unfold ret in H'. simplify_eq. unfold user_access in H.
  destruct (is_user_vaddr a); [|done]. destruct (user_page a s) as [[w pg]|] eqn:E; [|by apply exit_no_value in H].
  simpl in H. simplify_eq. pose proof (touch_quiet _ _ _ _ E) as Hq. split; [done|].
  destruct Hq as [_ _ _ Hm]. rewrite <-Hm. unfold user_byte, touch. simpl. by rewrite lookup_insert_eq.
Qed.

Lemma load_word_value s s' a v : load_word junk zeros oom a s = Ret (s', Val v) -> quiet s s' /\ v = user_word s a.
Proof.
  unfold load_word. intros (s1 & l & H & H')%sbind_Val. unfold ret in H'. simplify_eq. simpl in H.
  repeat match goal with
  | H : sbind _ _ _ = Ret _ |- _ => apply sbind_Val in H as (? & ? & ? & ?)
  | H : ret _ _ = Ret _ |- _ => unfold ret in H
  | H : load_byte _ _ _ _ _ = Ret _ |- _ => apply load_byte_value in H as [? ->]
  end. simplify_eq. assert (quiet s x3) by by transitivity x. assert (quiet s x7) by by transitivity x3.
  split; [by transitivity x7|]. unfold user_word. replace (a + 1 + 1 + 1) with (a + 3) by lia. replace (a + 1 + 1) with (a + 2) by lia.
  by rewrite (q_mem s x), (q_mem s x3), (q_mem s x7).
Qed.

Lemma arg_value s s' p i v : arg junk zeros oom p i s = Ret (s', Val v) -> quiet s s' /\ v = user_word s (p + 4 * i).
Proof. apply load_word_value. Qed.

#[local] Instance quiet_ret {A} (a : A) : Quiet (ret a).
Proof. intros s s' x H. unfold ret in H. by simplify_eq. Qed.
#[local] Instance quiet_get : Quiet get.
Proof. intros s s' x H. unfold get in H. by simplify_eq. Qed.
#[local] Instance quiet_fail {A} r : Quiet (fail (A := A) r).
Proof. intros s s' x H. unfold fail in H. by rinv. Qed.
#[local] Instance quiet_bind {A B} (m : sys A) (k : A -> sys B) : Quiet m -> (forall a, Quiet (k a)) -> Quiet (sbind m k).
Proof. intros Hm Hk s s' b (s1 & a & H & H')%sbind_Val. etransitivity; [by eapply Hm|by eapply Hk]. Qed.
#[local] Instance quiet_if {A} (c : bool) (m1 m2 : sys A) : Quiet m1 -> Quiet m2 -> Quiet (if c then m1 else m2).
Proof. by destruct c. Qed.
#[local] Instance quiet_exit {A} st : Quiet (exit_process junk zeros oom (A := A) st).
Proof. intros s s' a H. by apply exit_no_value in H. Qed.
#[local] Instance quiet_acquire : Quiet acquire_file_lock.
Proof. intros s s' x H. unfold acquire_file_lock in H. rinv. by simplify_eq. Qed.
#[local] Instance quiet_release : Quiet release_file_lock.
Proof. intros s s' x H. unfold release_file_lock in H. rinv. by simplify_eq. Qed.
#[local] Instance quiet_eax v : Quiet (modify (set_eax v)).
Proof. intros s s' x H. unfold modify in H. by simplify_eq. Qed.
#[local] Instance quiet_esp v : Quiet (modify (set_esp v)).
Proof. intros s s' x H. unfold modify in H. by simplify_eq. Qed.
#[local] Instance quiet_load_byte a : Quiet (load_byte junk zeros oom a).
Proof. intros s s' b H. by apply load_byte_value in H as [? _]. Qed.
#[local] Instance quiet_load_bytes n a : Quiet (load_bytes junk zeros oom n a).
Proof. revert a. induction n; intros a; simpl; apply _. Qed.
#[local] Instance quiet_load_word a : Quiet (load_word junk zeros oom a).
Proof. unfold load_word. apply _. Qed.
#[local] Instance quiet_arg p i : Quiet (arg junk zeros oom p i).
Proof. unfold arg. apply _. Qed.
#[local] Instance quiet_load_string n a : Quiet (load_string junk zeros oom n a).
Proof. revert a. induction n; intros a; cbn [load_string]; apply _. Qed.
#[local] Instance quiet_user_string a : Quiet (user_string junk zeros oom a).
Proof. unfold user_string. apply _. Qed.
#[local] Instance quiet_check a : Quiet (check_address junk zeros oom a).
Proof. unfold check_address. apply _. Qed.
#[local] Instance quiet_check_arg p i : Quiet (check_arg junk zeros oom p i).
Proof. unfold check_arg. apply _. Qed.

#[local] Typeclasses Opaque user_string load_string load_bytes load_word arg on_fs on_fs_ acquire_file_lock release_file_lock modify.

(** ** Calls that leave the open files alone *)

Record still (s s' : task) : Prop := { st_list : file_list s' = file_list s; st_files : files (fsys s') = files (fsys s) }.
#[local] Instance still_preorder : PreOrder still.
Proof. split; [by split|]. intros s1 s2 s3 [? ?] [? ?]. split; congruence. Qed.
Lemma still_slot s s' n : still s s' -> slot s' n = slot s n.
Proof. intros [Hl Hf]. unfold slot. by rewrite Hl, Hf. Qed.
Lemma quiet_still s s' : quiet s s' -> still s s'.
Proof. intros [Hf Hl _ _]. split; [done|]. by rewrite Hf. Qed.

Class Still {A} (m : sys A) : Prop := is_still : forall s s' a, m s = Ret (s', Val a) -> still s s'.
#[local] Instance still_quiet {A} (m : sys A) : Quiet m -> Still m | 10.
Proof. intros Hm s s' a H. by apply quiet_still, (Hm _ _ a). Qed.
#[local] Instance still_bind {A B} (m : sys A) (k : A -> sys B) : Still m -> (forall a, Still (k a)) -> Still (sbind m k) | 1.
Proof. intros Hm Hk s s' b (s1 & a & H & H')%sbind_Val. etransitivity; [by eapply Hm|by eapply Hk]. Qed.
#[local] Instance still_if {A} (c : bool) (m1 m2 : sys A) : Still m1 -> Still m2 -> Still (if c then m1 else m2) | 1.
Proof. by destruct c. Qed.
Lemma still_keeps {A} (op : fs -> res (fs * A)) : (forall s, Keeps (op s) s fst) -> Still (on_fs op).
Proof. intros Hop s s' a (f & x & H & -> & _)%on_fs_inv. apply (Hop _) in H as [H _]. by split. Qed.
Lemma still_keeps_ (op : fs -> res fs) : (forall s, Keeps (op s) s id) -> Still (on_fs_ op).
Proof. intros Hop s s' a (f & H & -> & _)%on_fs_inv_. apply (Hop _) in H as [H _]. by split. Qed.
#[local] Hint Extern 2 (Still (on_fs _)) => apply still_keeps; intros; apply _ : typeclass_instances.
#[local] Hint Extern 2 (Still (on_fs_ _)) => apply still_keeps_; intros; apply _ : typeclass_instances.

#[local] Instance still_store_byte a b : Still (store_byte junk zeros oom a b).
Proof.
  intros s s' u (s1 & page & H & H')%sbind_Val. unfold modify in H'. simplify_eq. unfold user_access in H.
  destruct (is_user_vaddr a); [|done]. destruct (user_page a s) as [[w pg]|]; [|by apply exit_no_value in H].
  destruct (_ || _); [|by apply exit_no_value in H]. by simplify_eq.
Qed.
#[local] Instance still_store_bytes l a : Still (store_bytes junk zeros oom l a).
Proof. revert a. induction l; intros a'; simpl; apply _. Qed.
#[local] Instance still_io sc ks : Still (modify (set_io sc ks)).
Proof. intros s s' x H. unfold modify in H. by simplify_eq. Qed.
#[local] Instance still_show l : Still (modify (fun s => set_io (screen s ++ l) (keys s) s)).
Proof. intros s s' x H. unfold modify in H. by simplify_eq. Qed.
#[local] Instance still_read_keys n a : Still (read_keys junk zeros oom n a).
Proof.
  revert a. induction n; intros a; cbn [read_keys]; [apply _|]. apply still_bind; [apply _|]. intros s. destruct (keys s); apply _.
Qed.

(** ** One descriptor *)

Lemma get_file_spec l n o : NoDup (fd <$> l) -> get_file_by_fd l n = Some o <-> o ∈ l /\ fd o = n.
Proof.
  intros Hnd. unfold get_file_by_fd. split.
  - intros ([i x] & Hx & ->)%fmap_Some. apply list_find_Some in Hx as (Hi & Hn & _). split; [by eapply list_elem_of_lookup_2|done].
  - intros [Hin Hn]. destruct (list_find_elem_of (fun x => fd x = n) l o Hin Hn) as [[i x] Hx]. rewrite Hx. simpl. f_equal.
    apply list_find_Some in Hx as (Hi & Hxn & _). eapply NoDup_fmap_same; [done|by eapply list_elem_of_lookup_2|done|congruence].
Qed.

Lemma slot_open s n o : fds_ok s -> get_file_by_fd (file_list s) n = Some o -> is_Some (slot s n) /\ o_file o <> NULL.
Proof.
  intros Hok Ho. unfold slot. rewrite Ho. simpl. apply get_file_spec in Ho as [Ho _]; [|apply Hok].
  destruct (fo_live s Hok o Ho). done.
Qed.

Lemma slot_none s n : fds_ok s -> slot s n = None -> get_file_by_fd (file_list s) n = None.
Proof.
  intros Hok Hs. destruct (get_file_by_fd (file_list s) n) as [o|] eqn:E; [|done].
  destruct (slot_open _ _ _ Hok E) as [[f Hf] _]. congruence.
Qed.

Lemma slot_change s s' n o f f' : fds_ok s -> get_file_by_fd (file_list s) n = Some o -> files (fsys s) !! o_file o = Some f ->
  file_list s' = file_list s -> files (fsys s') = <[o_file o := f']> (files (fsys s)) ->
  slot s n = Some f /\ forall m, slot s' m = if decide (m = n) then Some f' else slot s m.
Proof.
  intros Hok Ho Hf Hl Hs. unfold slot. rewrite Ho, Hl, Hs. split; [done|]. intros m. case_decide as Hm.
  - subst m. rewrite Ho. simpl. by rewrite lookup_insert_eq.
  - destruct (get_file_by_fd (file_list s) m) as [o'|] eqn:E; [|done]. simpl. rewrite lookup_insert_ne; [done|].
    apply get_file_spec in Ho as [Ho <-]; [|apply Hok]. apply get_file_spec in E as [E <-]; [|apply Hok].
    intros He. apply Hm. f_equal. eapply NoDup_fmap_same; [apply (fo_files s Hok)|done..].
Qed.

(** The call [nr] takes the descriptors of [s] to those of [s'] as specified. *)
Definition simulates (nr p : Z) (s s' : task) : Prop := forall D, (forall n, D !! n = slot s n) ->
  exists D', fd_step nr (user_word s (p + 4)) (user_word s (p + 8)) D (eax s') D' /\ forall n, D' !! n = slot s' n.

Lemma simulates_quiet nr p s s1 s' : quiet s s1 -> simulates nr p s1 s' -> simulates nr p s s'.
Proof. intros Hq Hs D HD. rewrite <-!(quiet_word s s1) by done. apply Hs. intros n. by rewrite HD, (quiet_slot s s1). Qed.

Lemma simulates_still nr p s s' : still s s' -> (forall D, (forall n, D !! n = slot s n) ->
  fd_step nr (user_word s (p + 4)) (user_word s (p + 8)) D (eax s') D) -> simulates nr p s s'.
Proof. intros Hs Hstep D HD. exists D. split; [by apply Hstep|]. intros n. by rewrite (still_slot s s'). Qed.

Lemma simulates_change nr p s s' n o f f' : fds_ok s -> get_file_by_fd (file_list s) n = Some o ->
  files (fsys s) !! o_file o = Some f -> file_list s' = file_list s -> files (fsys s') = <[o_file o := f']> (files (fsys s)) ->
  (forall D, D !! n = Some f -> fd_step nr (user_word s (p + 4)) (user_word s (p + 8)) D (eax s') (<[n := f']> D)) -> simulates nr p s s'.
Proof.
  intros Hok Ho Hf Hl Hs Hstep D HD. destruct (slot_change s s' n o f f' Hok Ho Hf Hl Hs) as [Hn Hm].
  exists (<[n := f']> D). split; [apply Hstep; by rewrite HD|]. intros m. rewrite Hm. case_decide as Hd.
  - subst m. by rewrite lookup_insert_eq.
  - by rewrite lookup_insert_ne.
Qed.

(** A call that is started with the arguments [a] and [b]. *)
Class Sim {A} (nr p a b : Z) (m : sys A) : Prop := sim : forall s s' u, m s = Ret (s', Val u) -> fds_ok s ->
  user_word s (p + 4) = a -> user_word s (p + 8) = b -> simulates nr p s s'.

#[local] Instance sim_quiet {A B} nr p a b (m : sys A) (k : A -> sys B) : Quiet m -> (forall x, Sim nr p a b (k x)) -> Sim nr p a b (sbind m k) | 10.
Proof.
  intros Hm Hk s s' u (s1 & x & H & H')%sbind_Val Hok Ha Hb. apply Hm in H. eapply simulates_quiet; [done|].
  apply (Hk x s1 s' u H'); [by eapply quiet_ok|by rewrite (quiet_word s)..].
Qed.
#[local] Instance sim_arg_1 {B} nr p a b (k : Z -> sys B) : Sim nr p a b (k a) -> Sim nr p a b (sbind (arg junk zeros oom p 1) k) | 1.
Proof.
  intros Hk s s' u (s1 & x & [H ->]%arg_value & H')%sbind_Val Hok Ha Hb. eapply simulates_quiet; [done|].
  change (p + 4 * 1) with (p + 4) in H'. rewrite Ha in H'. apply (Hk s1 s' u H'); [by eapply quiet_ok|by rewrite (quiet_word s)..].
Qed.
#[local] Instance sim_arg_2 {B} nr p a b (k : Z -> sys B) : Sim nr p a b (k b) -> Sim nr p a b (sbind (arg junk zeros oom p 2) k) | 1.
Proof.
  intros Hk s s' u (s1 & x & [H ->]%arg_value & H')%sbind_Val Hok Ha Hb. eapply simulates_quiet; [done|].
  change (p + 4 * 2) with (p + 8) in H'. rewrite Hb in H'. apply (Hk s1 s' u H'); [by eapply quiet_ok|by rewrite (quiet_word s)..].
Qed.

Lemma file_of_value n s s' f : file_of junk zeros oom n s = Ret (s', Val f) ->
  s' = s /\ exists o, get_file_by_fd (file_list s) n = Some o /\ f = o_file o.
Proof.
  unfold file_of. intros (s1 & x & H & H')%sbind_Val. unfold get in H. simplify_eq.
  destruct (get_file_by_fd _ _) as [o|] eqn:E; [unfold ret in H'; simplify_eq; eauto|].
  apply sbind_Val in H' as (? & ? & _ & H'). unfold fail in H'. by rinv.
Qed.


(** The file of a descriptor that is open. *)
Lemma sim_file {B} nr p a b n (k : Z -> sys B) : (forall s o f s' u, fds_ok s -> user_word s (p + 4) = a -> user_word s (p + 8) = b ->
  get_file_by_fd (file_list s) n = Some o -> o_file o <> NULL -> files (fsys s) !! o_file o = Some f -> slot s n = Some f ->
  k (o_file o) s = Ret (s', Val u) -> simulates nr p s s') -> Sim nr p a b (sbind (file_of junk zeros oom n) k).
Proof.
  intros Hk s s' u (s1 & x & [-> (o & Ho & ->)]%file_of_value & H')%sbind_Val Hok Ha Hb.
  destruct (slot_open _ _ _ Hok Ho) as [[f Hf] Hn]. eapply Hk; [done..| | |]; [|done|done].
  unfold slot in Hf. by rewrite Ho in Hf.
Qed.

Lemma tell_step p a b : Sim 11 p a b (sys_tell junk zeros oom p).
Proof.
  unfold sys_tell. do 2 (apply sim_quiet; [apply _|intros _]). apply sim_arg_1, sim_file. intros s o f s' u Hok <- <- Ho Hn Hf Hs H.
  apply sbind_Val in H as (s1 & pos & (g & x & Ht & -> & [= ->])%on_fs_inv & H). unfold file_tell, get_file in Ht. rinv. simplify_eq.
  unfold sbind, modify, release_file_lock in H. simpl in H. rinv. simplify_eq.
  apply simulates_still; [done|]. intros D HD. apply step_tell. by rewrite HD.
Qed.

Lemma seek_step p a b : Sim 10 p a b (sys_seek junk zeros oom p).
Proof.
  unfold sys_seek. do 3 (apply sim_quiet; [apply _|intros _]). apply sim_arg_2, sim_arg_1, sim_file.
  intros s o f s' u Hok <- <- Ho Hn Hf Hs H.
  apply sbind_Val in H as (s1 & [] & (g & Ht & -> & _)%on_fs_inv_ & H). unfold file_seek, get_file in Ht. rinv. simplify_eq.
  unfold release_file_lock in H. simpl in H. rinv. simplify_eq.
  match goal with H : bool_decide (_ >= 0) = true |- _ => apply bool_decide_eq_true in H end.
  eapply simulates_change; [done..|]. intros D HD. apply step_seek; [done|lia].
Qed.

(** The end of a call that returns [v]. *)
Lemma finish_call (v : Z) s s' u : (run! modify (set_eax v); release_file_lock) s = Ret (s', Val u) ->
  file_list s' = file_list s /\ fsys s' = fsys s /\ eax s' = u32 v.
Proof. unfold sbind, modify, release_file_lock. simpl. intros H. rinv. by simplify_eq. Qed.

Lemma file_length_sim p a b : Sim 7 p a b (sys_filesize junk zeros oom p).
Proof.
  unfold sys_filesize. do 2 (apply sim_quiet; [apply _|intros _]). apply sim_arg_1, sim_file.
  intros s o f s' u Hok <- <- Ho Hn Hf Hs H.
  apply sbind_Val in H as (s1 & n & (g & x & Hx & -> & _)%on_fs_inv & H). apply file_length_keeps in Hx as [Hx _].
  apply finish_call in H as (Hl & Hfs & _). apply simulates_still; [split; [done|by rewrite Hfs]|].
  intros D HD. apply step_query; [set_solver|]. by rewrite HD, Hs.
Qed.

Lemma get_file_or {B} nr p a b n (k : open_file -> sys B) m :
  (forall s s' u, fds_ok s -> user_word s (p + 4) = a -> user_word s (p + 8) = b -> slot s n = None ->
    m s = Ret (s', Val u) -> simulates nr p s s') ->
  (forall s o f s' u, fds_ok s -> user_word s (p + 4) = a -> user_word s (p + 8) = b ->
    get_file_by_fd (file_list s) n = Some o -> o_file o <> NULL -> files (fsys s) !! o_file o = Some f -> slot s n = Some f ->
    k o s = Ret (s', Val u) -> simulates nr p s s') ->
  Sim nr p a b (do! s := get in match get_file_by_fd (file_list s) n with None => m | Some o => k o end).
Proof.
  intros Hm Hk s s' u (s1 & x & H & H')%sbind_Val Hok Ha Hb. unfold get in H. simplify_eq.
  destruct (get_file_by_fd (file_list x) n) as [o|] eqn:Ho.
  - destruct (slot_open _ _ _ Hok Ho) as [[f Hf] Hn]. eapply Hk; [done..| | |]; [|done|done]. unfold slot in Hf. by rewrite Ho in Hf.
  - eapply Hm; [done..| |done]. unfold slot. by rewrite Ho.
Qed.

Lemma inumber_step p a b : Sim 19 p a b (sys_inumber junk zeros oom p).
Proof.
  unfold sys_inumber. apply sim_quiet; [apply _|intros _]. apply sim_arg_1, get_file_or; [intros; by unfold fail in *|].
  intros s o f s' u Hok <- <- Ho Hn Hf Hs H.
  apply sbind_Val in H as (s1 & n & (g & x & Hx & -> & _)%on_fs_inv & H). rinv. simplify_eq.
  apply sbind_Val in H as (s1 & [] & H & H'). rinv. unfold modify in H'. simplify_eq.
  apply simulates_still; [done|]. intros D HD. apply step_query; [set_solver|]. by rewrite HD, Hs.
Qed.

Lemma isdir_step p a b : Sim 18 p a b (sys_isdir junk zeros oom p).
Proof.
  unfold sys_isdir. apply sim_quiet; [apply _|intros _]. apply sim_arg_1, sim_file. intros s o f s' u Hok <- <- Ho Hn Hf Hs H.
  apply sbind_Val in H as (s1 & n & (g & x & Hx & -> & _)%on_fs_inv & H). rinv. simplify_eq.
  apply sbind_Val in H as (s2 & d & (g2 & x2 & Hx & -> & _)%on_fs_inv & H). apply keeps in Hx as [Hx _].
  unfold modify in H. simplify_eq.
  apply simulates_still; [done|]. intros D HD. apply step_query; [set_solver|]. by rewrite HD, Hs.
Qed.

Lemma read_step p a b : Sim 8 p a b (sys_read junk zeros oom p).
Proof.
  unfold sys_read. apply sim_arg_2. do 3 (apply sim_quiet; [apply _|intros _]). apply sim_arg_1. apply sim_quiet; [apply _|intros size].
  case_bool_decide as Ha.
  - subst a. intros s s' u H _ Hw _. apply simulates_still.
    + revert H. apply (is_still (m := run! _; _)).
    + intros D _. rewrite Hw. apply step_read_keys.
  - apply get_file_or.
    + intros s s' u Hok <- <- Hs H. unfold modify in H. simplify_eq. apply simulates_still; [done|].
      intros D HD. apply step_no_file; [set_solver|]. by rewrite HD.
    + intros s o f s' u Hok <- <- Ho Hn Hf Hs H. rewrite bool_decide_false in H by done.
      apply sbind_Val in H as (s1 & u1 & [Q1 Q2 Q3 Q4]%is_quiet & H).
      apply sbind_Val in H as (s2 & d & (g & x & Hx & -> & [= ->])%on_fs_inv & H). apply file_read_only in Hx as (f' & Hf' & Hx & _).
      apply sbind_Val in H as (s3 & u3 & [S1 S2]%is_still & H). apply finish_call in H as (Hl & Hfs & He). simpl in *.
      rewrite Q1, Hf in Hf'. simplify_eq. rewrite Q1 in Hx.
      eapply simulates_change; [done|done|done|congruence|by rewrite Hfs, S2|]. intros D HD. rewrite He. apply step_read; [done|lia].
Qed.

#[local] Instance still_readable n a : Still (fun s => let '(s, l) := readable n a s in Ret (s, Val l)).
Proof.
  intros s s' l H. destruct (readable n a s) as [s1 l1] eqn:E. simplify_eq. apply readable_same in E as (Hf & Hl & _).
  split; [done|by rewrite Hf].
Qed.

Lemma write_step p a b : Sim 9 p a b (sys_write junk zeros oom p).
Proof.
  unfold sys_write. do 2 (apply sim_quiet; [apply _|intros _]). apply sim_arg_2. do 2 (apply sim_quiet; [apply _|intros ?]). apply sim_arg_1.
  case_bool_decide as Ha.
  - subst a. intros s s' u H _ Hw _. apply simulates_still.
    + revert H. apply (is_still (m := do! _ := _ in _)).
    + intros D _. rewrite Hw. apply step_write_screen.
  - apply get_file_or.
    + intros s s' u Hok <- <- Hs H. unfold modify in H. simplify_eq. apply simulates_still; [done|].
      intros D HD. apply step_no_file; [set_solver|]. by rewrite HD.
    + intros s o f s' u Hok <- <- Ho Hn Hf Hs H.
      apply sbind_Val in H as (s1 & u1 & [Q1 Q2 Q3 Q4]%is_quiet & H). apply sbind_Val in H as (s2 & l & [S1 S2]%(still_readable _ _ s1 s2 l) & H).
      apply sbind_Val in H as (s3 & cnt & (g & k & Hx & -> & [= ->])%on_fs_inv & H).
      assert (files (fsys s2) = files (fsys s)) as F2 by (by rewrite S2, Q1).
      case_bool_decide; [|apply sbind_Val in H as (? & ? & _ & H); unfold fail in H; by rinv].
      apply finish_call in H as (Hl & Hfs & He). simpl in *.
      apply file_write_only in Hx as (f' & Hf' & Hx). rewrite F2, Hf in Hf'. injection Hf' as <-. rewrite F2 in Hx.
      destruct Hx as [[[Hx _] ->]|[Hx _]].
      * apply simulates_still; [split; [congruence|by rewrite Hfs, Hx]|]. intros D HD. rewrite He. apply step_write_dir.
        by rewrite HD, Hs.
      * eapply simulates_change; [done|done|done|congruence|by rewrite Hfs|]. intros D HD. rewrite He. by apply step_write.
Qed.

Lemma readdir_step p a b : Sim 17 p a b (sys_readdir junk zeros oom p).
Proof.
  unfold sys_readdir. apply sim_arg_1, sim_arg_2. apply sim_quiet; [apply _|intros name]. case_bool_decide.
  { intros s s' u H0. unfold fail in H0. by rinv. }
  apply sim_file. intros s o f s' u Hok <- <- Ho Hn Hf Hs H0.
  apply sbind_Val in H0 as (s1 & ino & (g1 & i1 & Hi & -> & _)%on_fs_inv & H0). rinv. simplify_eq.
  apply sbind_Val in H0 as (s1 & pos & (g2 & i2 & Hi & -> & _)%on_fs_inv & H0). rinv. simplify_eq.
  apply sbind_Val in H0 as (s1 & d & (g3 & i3 & Hd & -> & _)%on_fs_inv & H0). apply keeps in Hd as [Hd _]. simpl in Hd.
  destruct d; simpl in H0; [|unfold modify in H0; simplify_eq; apply simulates_still; [by split|]; intros D HD; apply step_no_dir; by rewrite HD, Hs].
  apply sbind_Val in H0 as (s2 & u1 & [Q1 Q2 Q3 Q4]%is_quiet & H0).
  apply sbind_Val in H0 as (s3 & r & (g4 & i4 & Hr & -> & _)%on_fs_inv & H0). apply keeps in Hr as [Hr _]. simpl in Hr, Q1, Q2.
  assert (files g4 = files (fsys s)) as Hg by (by rewrite Hr, Q1). clear Hr Q1 Hd.
  destruct (snd r).
  - apply sbind_Val in H0 as (s4 & u4 & (g5 & Hk & -> & _)%on_fs_inv_ & H0). apply file_seek_only in Hk as (f' & Hf' & Hk & _). simpl in *.
    rewrite Hg, Hf in Hf'. injection Hf' as <-. unfold sbind, modify, release_file_lock in H0. rinv. simplify_eq.
    eapply simulates_change; [done|done|done|done|simpl; by rewrite Hk, Hg|]. intros D HD. by apply step_readdir.
  - unfold sbind, modify, release_file_lock in H0. rinv. simplify_eq. apply simulates_still; [done|].
    intros D HD. apply step_no_dir. by rewrite HD, Hs.
Qed.

Lemma get_file_filter l n m : NoDup (fd <$> l) ->
  get_file_by_fd (filter (fun x => fd x <> n) l) m = if decide (m = n) then None else get_file_by_fd l m.
Proof.
  intros Hnd. assert (NoDup (fd <$> filter (fun x => fd x <> n) l)) as Hnd' by (eapply sublist_NoDup; [done|]; apply fmap_sublist, sublist_filter).
  apply option_eq. intros o. rewrite get_file_spec, list_elem_of_filter by done. case_decide as Hm.
  - subst m. naive_solver.
  - rewrite get_file_spec by done. naive_solver.
Qed.

Lemma get_file_app l o m : m <> fd o -> get_file_by_fd (l ++ [o]) m = get_file_by_fd l m.
Proof.
  intros Hm. unfold get_file_by_fd. induction l as [|x l IH]; simpl; [by rewrite decide_False|]. case_decide; [done|].
  destruct (list_find _ (l ++ [o])) as [[]|], (list_find _ l) as [[]|]; simpl in *; congruence.
Qed.

Lemma close_step p a b : Sim 12 p a b (sys_close junk zeros oom p).
Proof.
  unfold sys_close. do 2 (apply sim_quiet; [apply _|intros _]). apply sim_arg_1. intros s s' u H Hok <- <- D HD.
  apply sbind_Val in H as (s1 & u1 & H1 & H). unfold file_close_inlist in H1. apply sbind_Val in H1 as (s2 & x & Hg & H1).
  unfold get in Hg. simplify_eq. apply sbind_Val in H1 as (s2 & l & Hc & H1).
  apply close_matching_keeps in Hc as (f & -> & [= ->] & _ & Hf); [|intros o Hin; by apply (fo_live _ Hok)]. unfold modify, release_file_lock in *. rinv. simplify_eq.
  eexists. split; [apply step_close|]. intros m. set (n := s32 (user_word x (p + 4))) in *. rewrite lookup_delete, HD. unfold slot. simpl.
  rewrite get_file_filter by apply Hok. destruct (decide (n = m)) as [<-|Hm]; [by rewrite decide_True|]. rewrite decide_False by done.
  destruct (get_file_by_fd (file_list x) m) as [o|] eqn:E; [|done]. simpl. rewrite Hf, decide_False; [done|].
  intros (o' & Ho & [Hn Hin]%list_elem_of_filter)%list_elem_of_fmap. apply get_file_spec in E as [E <-]; [|apply Hok].
  apply Hm. rewrite <-Hn. f_equal. eapply NoDup_fmap_same; [apply (fo_files x Hok)|done..].
Qed.

Lemma open_step p a b : Sim 6 p a b (sys_open junk zeros oom p).
Proof.
  unfold sys_open. apply sim_arg_1. do 2 (apply sim_quiet; [apply _|intros _]). apply sim_arg_1. apply sim_quiet; [apply _|intros name].
  intros s s' u H Hok _ _.
  apply sbind_Val in H as (s1 & h & (f & x & Ho & -> & [= ->])%on_fs_inv & H). apply sbind_Val in H as (s2 & u2 & Hr & H).
  unfold release_file_lock in Hr. rinv. simplify_eq. destruct (filesys_open_new _ _ _ _ _ _ _ Ho) as [[-> [Hs _]]|[Hh [Hr [ino Hn]]]].
  - rewrite bool_decide_true in H by done. unfold modify in H. simplify_eq. apply simulates_still; [done|]. intros. apply step_open_fails.
  - rewrite bool_decide_false in H by done. unfold add_open in H. rinv. simplify_eq. intros D HD.
    assert (get_file_by_fd (file_list s) (fd_count s) = None) as Hnone.
    { destruct (get_file_by_fd _ _) as [o|] eqn:E; [|done]. apply get_file_spec in E as [E Hx]; [|apply Hok].
      apply (fo_range s Hok) in E. lia. }
    exists (<[fd_count s := mkFile ino 0 false]> D). split.
    + apply step_open; [apply Hok|]. rewrite HD. unfold slot. by rewrite Hnone.
    + intros m. unfold slot. simpl. rewrite Hn. destruct (decide (m = fd_count s)) as [->|Hm].
      * rewrite lookup_insert_eq. assert (get_file_by_fd (file_list s ++ [mkOpen x (fd_count s)]) (fd_count s) = Some (mkOpen x (fd_count s))) as ->;
          [|simpl; by rewrite lookup_insert_eq].
        apply get_file_spec; [|split; [set_solver|done]].
        rewrite fmap_app. apply NoDup_app. split_and!; [apply Hok| |apply NoDup_singleton].
        intros z (o & -> & Hin)%list_elem_of_fmap ?%list_elem_of_singleton. apply (fo_range s Hok) in Hin. simpl in *. lia.
      * rewrite lookup_insert_ne, HD by done. rewrite get_file_app by done. unfold slot.
        destruct (get_file_by_fd (file_list s) m) as [o|] eqn:E; [|done]. simpl. rewrite lookup_insert_ne; [done|].
        apply get_file_spec in E as [E _]; [|apply Hok]. destruct (fo_live s Hok o E) as [_ Hi]. apply (fo_fresh s Hok) in Hi. lia.
Qed.

(** ** The other calls *)

Lemma sim_other nr p a b (m : sys unit) : nr ∉ [6; 7; 8; 9; 10; 11; 12; 17; 18; 19] -> Still m -> Sim nr p a b m.
Proof. intros Hnr Hm s s' u H _ _ _. apply simulates_still; [by eapply Hm|]. intros D _. by apply step_other. Qed.

Lemma exec_step p a b : Sim 2 p a b (sys_exec junk zeros oom execute p).
Proof.
  unfold sys_exec. apply sim_quiet; [apply _|intros _]. apply sim_arg_1. do 3 (apply sim_quiet; [apply _|intros ?]).
  destruct (tokens _ _) as [|w ws]; [apply sim_other; [set_solver|apply _]|].
  intros s s' u H Hok _ _. apply simulates_still; [|intros D _; apply step_other; set_solver].
  apply sbind_Val in H as (s1 & h & (f & h' & Ho & -> & [= ->])%on_fs_inv & H). case_bool_decide; [done|].
  destruct (filesys_open_new _ _ _ _ _ _ _ Ho) as [[-> [Hs _]]|[Hh Hn]].
  - rewrite bool_decide_true in H by done. apply is_still in H as [Hl Hf]. split; [done|]. by rewrite Hf.
  - rewrite bool_decide_false in H by done.
    apply sbind_Val in H as (s2 & u2 & (f2 & Hc & -> & _)%on_fs_inv_ & H). apply file_close_only in Hc as [Hc Hx]; [|done].
    apply is_still in H as [Hl Hf]. split; [done|]. rewrite Hf. simpl. eapply (sh_files (fsys s)), open_close_handles; [done..|]. apply Hok.
Qed.

Lemma exit_still p : Still (sys_exit junk zeros oom p).
Proof. unfold sys_exit. apply _. Qed.
Lemma wait_still p : Still (sys_wait junk zeros oom wait p).
Proof. unfold sys_wait. apply _. Qed.
Lemma create_still p : Still (sys_create junk zeros oom p).
Proof. unfold sys_create. apply _. Qed.
Lemma remove_still p : Still (sys_remove junk zeros oom p).
Proof. unfold sys_remove. apply _. Qed.
Lemma chdir_still p : Still (sys_chdir junk zeros oom p).
Proof. unfold sys_chdir. apply _. Qed.
Lemma mkdir_still p : Still (sys_mkdir junk zeros oom p).
Proof. unfold sys_mkdir. apply _. Qed.

Lemma keeps_slot s s' n : fds_ok s -> keeps_files s s' -> slot s' n = slot s n.
Proof.
  intros Hok K. unfold slot. rewrite (kf_list _ _ K). destruct (get_file_by_fd (file_list s) n) as [o|] eqn:Ho; [|done]. simpl.
  apply get_file_spec in Ho as [Ho _]; [|apply Hok]. destruct (fo_live s Hok o Ho) as [_ [x Hx]]. rewrite Hx. by apply (kf_open _ _ K).
Qed.

(** A call that ends in what paging does. *)
Lemma sim_slots {A} p nr a b (m : sys A) : nr ∉ [6; 7; 8; 9; 10; 11; 12; 17; 18; 19] ->
  (forall s s' u, m s = Ret (s', Val u) -> fds_ok s -> forall n, slot s' n = slot s n) -> Sim nr p a b m.
Proof. intros Hnr Hm s s' u H Hok _ _ D HD. exists D. split; [by apply step_other|]. intros n. by rewrite HD, (Hm s s' u H Hok n). Qed.

Lemma munmap_step p a b : Sim 14 p a b (munmap_call junk zeros oom p).
Proof.
  unfold munmap_call. do 2 (apply sim_quiet; [apply _|intros ?]). apply sim_slots; [set_solver|].
  intros s s' u [K _]%unmap_file_ok Hok n. by apply keeps_slot.
Qed.

Lemma mmap_step p a b : Sim 13 p a b (mmap_call junk zeros oom p).
Proof.
  unfold mmap_call. do 4 (apply sim_quiet; [apply _|intros ?]). do 3 (case_match; [apply sim_other; [set_solver|apply _]|]).
  apply sim_slots; [set_solver|]. intros s s' u Hr Hok n.
  apply sbind_Val in Hr as (s1 & f & [-> _]%file_of_value & Hr).
  apply sbind_Val in Hr as (s2 & len & (g & y & Hx & -> & _)%on_fs_inv & Hr). apply file_length_keeps in Hx as Hx. simpl in Hx.
  assert (still s (set_fsys g s)) as Hst by (split; [done|apply Hx]). rewrite <- (still_slot s (set_fsys g s) n Hst).
  assert (fds_ok (set_fsys g s)) as Hok2 by (by apply fds_ok_fs, same_handles_open). case_bool_decide.
  - unfold modify in Hr. by simplify_eq.
  - apply sbind_Val in Hr as (s3 & v & [K _]%map_file_ok & Hr). unfold modify in Hr. simplify_eq. rewrite <- (keeps_slot _ _ n Hok2 K). done.
Qed.

Lemma dispatch_step p nr a b : Sim nr p a b (dispatch junk zeros oom execute wait p nr).
Proof.
  destruct (decide (nr ∈ [6; 7; 8; 9; 10; 11; 12; 17; 18; 19])) as [Hin|Hnr].
  - repeat (apply elem_of_cons in Hin as [->|Hin]); [..|by apply elem_of_nil in Hin]; cbn [dispatch];
      auto using open_step, file_length_sim, read_step, write_step, seek_step, tell_step, close_step, readdir_step, isdir_step, inumber_step.
  - destruct (decide (nr = 2)) as [->|]; [apply exec_step|]. destruct (decide (nr = 13)) as [->|]; [apply mmap_step|].
    destruct (decide (nr = 14)) as [->|]; [apply munmap_step|]. apply sim_other; [done|]. unfold dispatch.
    repeat case_match; try done; auto using exit_still, wait_still, create_still, remove_still, chdir_still, mkdir_still, quiet_ret, quiet_fail, still_quiet;
      destruct Hnr; set_solver.
Qed.

(** System calls that return implement the map of descriptors: when a call of a process
    whose descriptors are [D] returns, the call, its arguments and its result are a step of the
    specification to some [D'], and these are the descriptors after it. *)
Theorem syscalls_refine_descriptors p s s' u D : syscall_handler junk zeros oom execute wait p s = Ret (s', Val u) ->
  file_lock s = false -> descriptors s D ->
  exists D', fd_step (user_word s p) (user_word s (p + 4)) (user_word s (p + 8)) D (eax s') D' /\ descriptors s' D'.
Proof.
  intros H Hl [Hok HD]. destruct (handler_triple junk zeros oom execute wait p _ _ _ H Hok Hl) as [Hok' _].
  unfold syscall_handler in H.
  apply sbind_Val in H as (s1 & u1 & Q1%is_quiet & H). apply sbind_Val in H as (s2 & u2 & Q2%is_quiet & H).
  apply sbind_Val in H as (s3 & nr & [Q3 ->]%load_word_value & H). assert (quiet s s2) as Q by by transitivity s1.
  rewrite (quiet_word s s2) in H by done. assert (quiet s s3) as Q' by by transitivity s2.
  destruct (simulates_quiet _ p s s3 s' Q' (dispatch_step p _ _ _ s3 s' u H (quiet_ok s s3 Q' Hok) eq_refl eq_refl) D HD) as (D' & Hs & HD').
  by exists D'.
Qed.
End Calls.
