(* ===== verification/Disk.v ===== *)
(** * devices/disk.c: the ATA disk driver

    The driver talks to two ATA channels through I/O ports.  The hardware is a
    parameter: a type [hw] of states with the port accesses, the passing of a timer
    tick and of a delay loop, and the interrupt that waits for the processor, the
    operations of the class [Bus].  [Ata.v] states what an ATA channel promises about
    them, and [DiskProof.v] proves the driver against that promise.

    An interrupt is taken at the first port access or tick at which the hardware
    raises it while interrupts are on; the hardware may hold it back as long as it
    likes, so the driver runs under every timing of the interrupt.  A disk is named by
    the index of its channel and its [dev_no].  Output is the list of calls of
    [printf], latest first. *)

From Stdlib Require Import String.
From stdpp Require Import pretty.
From S2P Require Import Prelude Stdlibc.
#[local] Open Scope Z_scope.

Class Bus (hw : Type) := {
  bus_inb : Z -> hw -> Z * hw;
  bus_outb : Z -> Z -> hw -> hw;
  bus_inw : Z -> hw -> Z * hw;
  bus_outw : Z -> Z -> hw -> hw;
  bus_spin : Z -> hw -> hw;
  bus_tick : hw -> hw;
  bus_take : hw -> option (Z * hw)
}.

(** ** State *)

(** ATA command and control block registers, relative to [reg_base]. *)
Definition reg_data : Z := 0.
Definition reg_error : Z := 1.
Definition reg_nsect : Z := 2.
Definition reg_lbal : Z := 3.
Definition reg_lbam : Z := 4.
Definition reg_lbah : Z := 5.
Definition reg_device : Z := 6.
Definition reg_status : Z := 7.
Definition reg_command : Z := reg_status.
Definition reg_ctl : Z := 0x206.
Definition reg_alt_status : Z := reg_ctl.

Definition STA_BSY : Z := 0x80.
Definition STA_DRDY : Z := 0x40.
Definition STA_DRQ : Z := 0x08.
Definition CTL_SRST : Z := 0x04.
Definition DEV_MBS : Z := 0xa0.
Definition DEV_LBA : Z := 0x40.
Definition DEV_DEV : Z := 0x10.
Definition CMD_IDENTIFY_DEVICE : Z := 0xec.
Definition CMD_READ_SECTOR_RETRY : Z := 0x20.
Definition CMD_WRITE_SECTOR_RETRY : Z := 0x30.
Definition DISK_SECTOR_SIZE : Z := 512.
Definition CHANNEL_CNT : Z := 2.

Record disk := mkDisk {
  name : string;
  channel_of : Z;
  dev_no : Z;
  is_ata : bool;
  capacity : Z;
  read_cnt : Z;
  write_cnt : Z
}.

Record channel := mkChannel {
  c_name : string;
  reg_base : Z;
  irq : Z;
  lock : bool;
  expecting_interrupt : bool;
  completion_wait : Z;
  devices : list disk
}.

(** What a call of [printf] is given. *)
Inductive arg := AStr (s : string) | ANum (n : Z) | AChr (c : Z).
Definition printed : Type := string * list arg.

(** The pointer to a disk: its channel's index and its place in [devices]. *)
Abbreviation disk_ptr := (Z * Z)%type.

Section Driver.
Context {hw : Type} {B : Bus hw}.

Record machine := mkMachine {
  hardware : hw;
  channels : list channel;
  intr_on : bool;
  handlers : list Z;          (* vectors whose handler is [interrupt_handler] *)
  loops_per_tick : Z;
  output : list printed
}.

Definition set_hardware (h : hw) (m : machine) : machine :=
  mkMachine h (channels m) (intr_on m) (handlers m) (loops_per_tick m) (output m).
Definition set_channels (l : list channel) (m : machine) : machine :=
  mkMachine (hardware m) l (intr_on m) (handlers m) (loops_per_tick m) (output m).
Definition set_handlers (l : list Z) (m : machine) : machine :=
  mkMachine (hardware m) (channels m) (intr_on m) l (loops_per_tick m) (output m).
Definition print_call (p : printed) (m : machine) : machine :=
  mkMachine (hardware m) (channels m) (intr_on m) (handlers m) (loops_per_tick m) (p :: output m).

Definition set_lock (b : bool) (c : channel) : channel :=
  mkChannel (c_name c) (reg_base c) (irq c) b (expecting_interrupt c) (completion_wait c) (devices c).
Definition set_expecting (b : bool) (c : channel) : channel :=
  mkChannel (c_name c) (reg_base c) (irq c) (lock c) b (completion_wait c) (devices c).
Definition set_completion (n : Z) (c : channel) : channel :=
  mkChannel (c_name c) (reg_base c) (irq c) (lock c) (expecting_interrupt c) n (devices c).
Definition set_devices (l : list disk) (c : channel) : channel :=
  mkChannel (c_name c) (reg_base c) (irq c) (lock c) (expecting_interrupt c) (completion_wait c) l.
Definition set_is_ata (b : bool) (d : disk) : disk :=
  mkDisk (name d) (channel_of d) (dev_no d) b (capacity d) (read_cnt d) (write_cnt d).
Definition set_capacity (n : Z) (d : disk) : disk :=
  mkDisk (name d) (channel_of d) (dev_no d) (is_ata d) n (read_cnt d) (write_cnt d).
Definition count_read (d : disk) : disk :=
  mkDisk (name d) (channel_of d) (dev_no d) (is_ata d) (capacity d) (read_cnt d + 1) (write_cnt d).
Definition count_write (d : disk) : disk :=
  mkDisk (name d) (channel_of d) (dev_no d) (is_ata d) (capacity d) (read_cnt d) (write_cnt d + 1).

(** ** Computations on the machine *)

Definition io (A : Type) : Type := machine -> res (machine * A).
Definition ret {A} (a : A) : io A := fun m => Ret (m, a).
Definition bind {A C} (x : io A) (k : A -> io C) : io C :=
  fun m => let! '(m, a) := x m in k a m.
Definition guard (b : bool) : io unit := fun m => if b then Ret (m, tt) else Panic.
Definition modify (f : machine -> machine) : io unit := fun m => Ret (f m, tt).
Definition kprintf (format : string) (args : list arg) : io unit := modify (print_call (format, args)).

End Driver.

Declare Scope io_scope.
Delimit Scope io_scope with io.
Notation "'do!' x := m 'in' k" := (bind m (fun x => k))
  (at level 10, x name, m at level 100, k at level 200) : io_scope.
Notation "'run!' m ; k" := (bind m (fun _ => k))
  (at level 10, m at level 100, k at level 200) : io_scope.
#[local] Open Scope io_scope.

Section Driver.
Context {hw : Type} {B : Bus hw} (patience : nat).

Definition channel_at (c : Z) : io channel := fun (m : @machine hw) => let! ch := aget (channels m) c in Ret (m, ch).
Definition on_channel (c : Z) (f : channel -> channel) : io unit := fun (m : @machine hw) =>
  let! ch := aget (channels m) c in
  let! l := aset (channels m) c (f ch) in
  Ret (set_channels l m, tt).
Definition disk_at (p : disk_ptr) : io disk := fun (m : @machine hw) =>
  let! ch := aget (channels m) (fst p) in
  let! d := aget (devices ch) (snd p) in
  Ret (m, d).
Definition on_disk (p : disk_ptr) (f : disk -> disk) : io unit := fun (m : @machine hw) =>
  let! ch := aget (channels m) (fst p) in
  let! d := aget (devices ch) (snd p) in
  let! l := aset (devices ch) (snd p) (f d) in
  let! cs := aset (channels m) (fst p) (set_devices l ch) in
  Ret (set_channels cs m, tt).

(** ** Interrupts *)

(** Port accesses with interrupts off, as inside the handler. *)
Definition raw_inb (port : Z) : io Z := fun (m : @machine hw) =>
  let '(v, h) := bus_inb port (hardware m) in Ret (set_hardware h m, v).

(** [sema_up] on [completion_wait]: the thread that waits in [sema_down] looks at the
    value again. *)
Definition completion_up (c : Z) : @io hw unit :=
  on_channel c (fun ch => set_completion (completion_wait ch + 1) ch).

(** The loop of [interrupt_handler] from channel [c] on, with [n] channels left. *)
Fixpoint interrupt_scan (n : nat) (c vec_no : Z) : @io hw unit :=
  match n with
  | O => fun _ => Panic
  | S n =>
      do! ch := channel_at c in
      if bool_decide (vec_no = irq ch) then
        if expecting_interrupt ch then
          run! raw_inb (reg_base ch + reg_status);
          completion_up c
        else kprintf "%s: unexpected interrupt\n" [AStr (c_name ch)]
      else interrupt_scan n (c + 1) vec_no
  end.
Definition interrupt_handler (vec_no : Z) : @io hw unit :=
  interrupt_scan (Z.to_nat CHANNEL_CNT) 0 vec_no.

(** Takes the interrupt the hardware raises, if any: the part of [intr_handler] that finds
    the handler.  Without one, only the two vectors that can come spuriously are let pass. *)
Definition deliver : @io hw unit := fun m =>
  if intr_on m then
    match bus_take (hardware m) with
    | None => Ret (m, tt)
    | Some (v, h) =>
        let m := set_hardware h m in
        if bool_decide (v ∈ handlers m) then interrupt_handler v m
        else if bool_decide (v = 0x27) || bool_decide (v = 0x2f) then Ret (m, tt)
        else Panic
    end
  else Ret (m, tt).

(** ** Ports and time *)

Definition inb (port : Z) : @io hw Z :=
  do! v := raw_inb port in run! deliver; ret v.
Definition outb (port data : Z) : @io hw unit :=
  run! modify (fun m => set_hardware (bus_outb port (u8 data) (hardware m)) m); deliver.
Definition inw (port : Z) : @io hw Z :=
  do! v := (fun m => let '(v, h) := bus_inw port (hardware m) in Ret (set_hardware h m, v)) in
  run! deliver; ret v.
Definition outw (port data : Z) : @io hw unit :=
  run! modify (fun m => set_hardware (bus_outw port (u16 data) (hardware m)) m); deliver.

(** [insw] and [outsw] move [cnt] 16-bit units, low byte first in memory. *)
Fixpoint insw (port : Z) (cnt : nat) : @io hw (list Z) :=
  match cnt with
  | O => ret []
  | S cnt =>
      do! v := inw port in
      do! rest := insw port cnt in
      ret (u8 v :: u8 (Z.shiftr v 8) :: rest)
  end.
Fixpoint outsw (port : Z) (addr : list Z) (cnt : nat) : @io hw unit :=
  match cnt with
  | O => ret tt
  | S cnt =>
      match addr with
      | lo :: hi :: addr => run! outw port (Z.lor lo (Z.shiftl hi 8)); outsw port addr cnt
      | _ => fun _ => Ub
      end
  end.

Definition tick : @io hw unit := run! modify (fun m => set_hardware (bus_tick (hardware m)) m); deliver.
Fixpoint sleep_ticks (ticks : nat) : @io hw unit :=
  match ticks with O => ret tt | S n => run! tick; sleep_ticks n end.

Definition TIMER_FREQ : Z := 100.
Definition busy_wait (loops : Z) : @io hw unit :=
  run! modify (fun m => set_hardware (bus_spin loops (hardware m)) m); deliver.
Definition real_time_sleep (num denom : Z) : @io hw unit := fun m =>
  let ticks := Z.quot (num * TIMER_FREQ) denom in
  (run! guard (intr_on m);
   if bool_decide (ticks > 0) then sleep_ticks (Z.to_nat ticks)
   else
     run! guard (bool_decide (Z.rem denom 1000 = 0));
     busy_wait (Z.quot (Z.quot (loops_per_tick m * num) 1000 * TIMER_FREQ) (Z.quot denom 1000))) m.
Definition timer_msleep (ms : Z) : @io hw unit := real_time_sleep ms 1000.
Definition timer_usleep (us : Z) : @io hw unit := real_time_sleep us (1000 * 1000).
Definition timer_nsleep (ns : Z) : @io hw unit := real_time_sleep ns (1000 * 1000 * 1000).

(** ** Locks and the completion semaphore *)

(** [lock_acquire] and [lock_release] on the channel's lock: a call that waits for a lock
    which is held does not return. *)
Definition channel_acquire (c : Z) : @io hw unit :=
  do! ch := channel_at c in
  if lock ch then (fun _ => NoFuel) else on_channel c (set_lock true).
Definition channel_release (c : Z) : @io hw unit :=
  do! ch := channel_at c in
  run! guard (lock ch); on_channel c (set_lock false).

(** [sema_down] on [completion_wait] looks at the value again after every tick, [n] times
    at most. *)
Fixpoint sema_wait (n : nat) (c : Z) : @io hw unit :=
  do! ch := channel_at c in
  if bool_decide (completion_wait ch > 0) then on_channel c (fun ch => set_completion (completion_wait ch - 1) ch)
  else match n with O => fun _ => NoFuel | S n => run! tick; sema_wait n c end.
Definition completion_down (c : Z) : @io hw unit := sema_wait patience c.

(** ** Low-level ATA primitives *)

Definition bit (v mask : Z) : bool := negb (bool_decide (Z.land v mask = 0)).

Fixpoint idle_loop (n : nat) (d : disk) (base : Z) : @io hw unit :=
  match n with
  | O => kprintf "%s: idle timeout\n" [AStr (name d)]
  | S n =>
      do! s := inb (base + reg_status) in
      if bool_decide (Z.land s (Z.lor STA_BSY STA_DRQ) = 0) then ret tt
      else run! timer_usleep 10; idle_loop n d base
  end.
Definition wait_until_idle (p : disk_ptr) : @io hw unit :=
  do! d := disk_at p in
  do! ch := channel_at (channel_of d) in
  idle_loop 1000 d (reg_base ch).

(** Rounds [i] to 2999, [n] of them. *)
Fixpoint busy_loop (n : nat) (i : Z) (d : disk) (base : Z) : @io hw bool :=
  match n with
  | O => run! kprintf "failed\n" []; ret false
  | S n =>
      run! (if bool_decide (i = 700) then kprintf "%s: busy, waiting..." [AStr (name d)] else ret tt);
      do! s := inb (base + reg_alt_status) in
      if negb (bit s STA_BSY) then
        run! (if bool_decide (i >= 700) then kprintf "ok\n" [] else ret tt);
        do! s := inb (base + reg_alt_status) in
        ret (bit s STA_DRQ)
      else run! timer_msleep 10; busy_loop n (i + 1) d base
  end.
Definition wait_while_busy (p : disk_ptr) : @io hw bool :=
  do! d := disk_at p in
  do! ch := channel_at (channel_of d) in
  busy_loop 3000 0 d (reg_base ch).

Definition select_device (p : disk_ptr) : @io hw unit :=
  do! d := disk_at p in
  do! ch := channel_at (channel_of d) in
  let dev := if bool_decide (dev_no d = 1) then Z.lor DEV_MBS DEV_DEV else DEV_MBS in
  run! outb (reg_base ch + reg_device) dev;
  run! inb (reg_base ch + reg_alt_status);
  timer_nsleep 400.

Definition select_device_wait (p : disk_ptr) : @io hw unit :=
  run! wait_until_idle p;
  run! select_device p;
  wait_until_idle p.

(** ** Sector selection and transfer *)

Definition select_sector (p : disk_ptr) (sec_no : Z) : @io hw unit :=
  do! d := disk_at p in
  do! ch := channel_at (channel_of d) in
  run! guard (bool_decide (sec_no < capacity d));
  run! guard (bool_decide (sec_no < Z.shiftl 1 28));
  run! select_device_wait p;
  run! outb (reg_base ch + reg_nsect) 1;
  run! outb (reg_base ch + reg_lbal) sec_no;
  run! outb (reg_base ch + reg_lbam) (Z.shiftr sec_no 8);
  run! outb (reg_base ch + reg_lbah) (Z.shiftr sec_no 16);
  outb (reg_base ch + reg_device)
    (Z.lor (Z.lor (Z.lor DEV_MBS DEV_LBA) (if bool_decide (dev_no d = 1) then DEV_DEV else 0)) (Z.shiftr sec_no 24)).

Definition issue_pio_command (c command : Z) : @io hw unit :=
  run! (fun m => guard (intr_on m) m);
  run! on_channel c (set_expecting true);
  do! ch := channel_at c in
  outb (reg_base ch + reg_command) command.

Definition input_sector (c : Z) : @io hw (list Z) :=
  do! ch := channel_at c in insw (reg_base ch + reg_data) (Z.to_nat (DISK_SECTOR_SIZE / 2)).
Definition output_sector (c : Z) (sector : list Z) : @io hw unit :=
  do! ch := channel_at c in outsw (reg_base ch + reg_data) sector (Z.to_nat (DISK_SECTOR_SIZE / 2)).

(** ** Reading and writing *)

(** The buffers are never null. *)
Definition disk_read (d : option disk_ptr) (sec_no : Z) : @io hw (list Z) :=
  match d with
  | None => fun _ => Panic
  | Some p =>
      do! dk := disk_at p in
      let c := channel_of dk in
      run! channel_acquire c;
      run! select_sector p sec_no;
      run! issue_pio_command c CMD_READ_SECTOR_RETRY;
      run! completion_down c;
      do! ok := wait_while_busy p in
      run! guard ok;
      do! buffer := input_sector c in
      run! on_disk p count_read;
      run! channel_release c;
      ret buffer
  end.

Definition disk_write (d : option disk_ptr) (sec_no : Z) (buffer : list Z) : @io hw unit :=
  match d with
  | None => fun _ => Panic
  | Some p =>
      do! dk := disk_at p in
      let c := channel_of dk in
      run! channel_acquire c;
      run! select_sector p sec_no;
      run! issue_pio_command c CMD_WRITE_SECTOR_RETRY;
      do! ok := wait_while_busy p in
      run! guard ok;
      run! output_sector c buffer;
      run! completion_down c;
      run! on_disk p count_write;
      channel_release c
  end.

(** [channels[chan_no]] with a negative index is outside the array. *)
Definition disk_get (chan_no dev_no : Z) : @io hw (option disk_ptr) :=
  run! guard (bool_decide (dev_no = 0) || bool_decide (dev_no = 1));
  if bool_decide (chan_no < CHANNEL_CNT) then
    do! d := disk_at (chan_no, dev_no) in
    ret (if is_ata d then Some (chan_no, dev_no) else None)
  else ret None.

Definition disk_size (d : option disk_ptr) : @io hw Z :=
  match d with
  | None => fun _ => Panic
  | Some p => do! d := disk_at p in ret (capacity d)
  end.

Definition print_stats_one (p : disk_ptr) : @io hw unit :=
  do! o := disk_get (fst p) (snd p) in
  match o with
  | None => ret tt
  | Some q =>
      do! d := disk_at q in
      if is_ata d then kprintf "%s: %lld reads, %lld writes\n" [AStr (name d); ANum (read_cnt d); ANum (write_cnt d)]
      else ret tt
  end.
Definition disk_print_stats : @io hw unit :=
  run! print_stats_one (0, 0);
  run! print_stats_one (0, 1);
  run! print_stats_one (1, 0);
  print_stats_one (1, 1).

(** ** Disk detection and identification *)

(** The body of the first loop of [reset_channel]: is device [d] there? *)
Definition detect (p : disk_ptr) : @io hw bool :=
  do! ch := channel_at (fst p) in
  run! select_device p;
  run! outb (reg_base ch + reg_nsect) 0x55;
  run! outb (reg_base ch + reg_lbal) 0xaa;
  run! outb (reg_base ch + reg_nsect) 0xaa;
  run! outb (reg_base ch + reg_lbal) 0x55;
  run! outb (reg_base ch + reg_nsect) 0x55;
  run! outb (reg_base ch + reg_lbal) 0xaa;
  do! n := inb (reg_base ch + reg_nsect) in
  if bool_decide (n = 0x55) then
    do! l := inb (reg_base ch + reg_lbal) in
    ret (bool_decide (l = 0xaa))
  else ret false.

(** The wait for device 1 to show its signature. *)
Fixpoint signature_loop (n : nat) (base : Z) : @io hw unit :=
  match n with
  | O => ret tt
  | S n =>
      do! a := inb (base + reg_nsect) in
      do! stop := (if bool_decide (a = 1) then do! b := inb (base + reg_lbal) in ret (bool_decide (b = 1)) else ret false) in
      if (stop : bool) then ret tt
      else run! timer_msleep 10; signature_loop n base
  end.

Definition reset_channel (c : Z) : @io hw unit :=
  do! ch := channel_at c in
  do! present0 := detect (c, 0) in
  do! present1 := detect (c, 1) in
  run! outb (reg_base ch + reg_ctl) 0;
  run! timer_usleep 10;
  run! outb (reg_base ch + reg_ctl) CTL_SRST;
  run! timer_usleep 10;
  run! outb (reg_base ch + reg_ctl) 0;
  run! timer_msleep 150;
  run! (if (present0 : bool) then run! select_device (c, 0); run! wait_while_busy (c, 0); ret tt else ret tt);
  if (present1 : bool) then
    run! select_device (c, 1);
    run! signature_loop 3000 (reg_base ch);
    run! wait_while_busy (c, 1);
    ret tt
  else ret tt.

(** What the registers of a device say: is it an ATA disk, and may a slave follow? *)
Definition device_type (dev_no error lbam lbah status : Z) : bool * bool :=
  if (negb (bool_decide (error = 1)) && (negb (bool_decide (error = 0x81)) || bool_decide (dev_no = 1)))
     || negb (bit status STA_DRDY) || bit status STA_BSY
  then (false, negb (bool_decide (error = 0x81)))
  else ((bool_decide (lbam = 0) && bool_decide (lbah = 0)) || (bool_decide (lbam = 0x3c) && bool_decide (lbah = 0xc3)), true).

Definition check_device_type (p : disk_ptr) : @io hw bool :=
  do! d := disk_at p in
  do! ch := channel_at (channel_of d) in
  run! select_device p;
  do! error := inb (reg_base ch + reg_error) in
  do! lbam := inb (reg_base ch + reg_lbam) in
  do! lbah := inb (reg_base ch + reg_lbah) in
  do! status := inb (reg_base ch + reg_status) in
  let '(ata, slave) := device_type (dev_no d) error lbam lbah status in
  run! on_disk p (set_is_ata ata);
  ret slave.

(** The characters [print_ata_string] prints: the bytes of each pair exchanged,
    without trailing white space and nulls. *)
Fixpoint ata_string_size (string : list Z) (size : nat) : nat :=
  match size with
  | O => O
  | S n =>
      let c := nth (Nat.lxor n 1) string 0 in
      if negb (bool_decide (c = 0)) && negb (isspace c) then size else ata_string_size string n
  end.
Fixpoint print_chars (string : list Z) (i n : nat) : @io hw unit :=
  match n with
  | O => ret tt
  | S n => run! kprintf "%c" [AChr (nth (Nat.lxor i 1) string 0)]; print_chars string (S i) n
  end.
Definition print_ata_string (string : list Z) (size : nat) : @io hw unit :=
  print_chars string 0 (ata_string_size string size).

(** The 16-bit word [i] of a sector. *)
Definition id_word (id : list Z) (i : nat) : Z := Z.lor (nth (2 * i) id 0) (Z.shiftl (nth (2 * i + 1) id 0) 8).

Definition print_size (capacity : Z) : @io hw unit :=
  if bool_decide (capacity > 1024 / DISK_SECTOR_SIZE * 1024 * 1024) then
    kprintf "%u GB" [ANum (capacity / (1024 / DISK_SECTOR_SIZE * 1024 * 1024))]
  else if bool_decide (capacity > 1024 / DISK_SECTOR_SIZE * 1024) then
    kprintf "%u MB" [ANum (capacity / (1024 / DISK_SECTOR_SIZE * 1024))]
  else if bool_decide (capacity > 1024 / DISK_SECTOR_SIZE) then
    kprintf "%u kB" [ANum (capacity / (1024 / DISK_SECTOR_SIZE))]
  else kprintf "%u byte" [ANum (u32 (capacity * DISK_SECTOR_SIZE))].

Definition quote : string := String (Ascii.ascii_of_nat 34) EmptyString.
Definition identify_ata_device (p : disk_ptr) : @io hw unit :=
  do! d := disk_at p in
  let c := channel_of d in
  run! guard (is_ata d);
  run! select_device_wait p;
  run! issue_pio_command c CMD_IDENTIFY_DEVICE;
  run! completion_down c;
  do! ok := wait_while_busy p in
  if negb ok then on_disk p (set_is_ata false)
  else
    do! id := input_sector c in
    let capacity := Z.lor (id_word id 60) (Z.shiftl (id_word id 61) 16) in
    run! on_disk p (set_capacity capacity);
    run! kprintf "%s: detected %'u sector (" [AStr (name d); ANum capacity];
    run! print_size capacity;
    run! kprintf (") disk, model " ++ quote) [];
    run! print_ata_string (drop 54 id) 40;
    run! kprintf (quote ++ ", serial " ++ quote) [];
    run! print_ata_string (drop 20 id) 20;
    kprintf (quote ++ "\n") [].

(** [snprintf] with the formats of [disk_init]; the names fit their 8 bytes. *)
Definition channel_name (chan_no : Z) : string := ("hd" ++ pretty chan_no)%string.
Definition disk_name (chan_no dev_no : Z) : string := (channel_name chan_no ++ ":" ++ pretty dev_no)%string.

Definition new_disk (chan_no dev_no : Z) : disk :=
  mkDisk (disk_name chan_no dev_no) chan_no dev_no false 0 0 0.
Definition new_channel (chan_no reg_base irq : Z) : channel :=
  mkChannel (channel_name chan_no) reg_base irq false false 0 [new_disk chan_no 0; new_disk chan_no 1].

(** [intr_register_ext]: a vector of the two interrupt controllers that has no handler. *)
Definition intr_register_ext (vec_no : Z) : @io hw unit := fun m =>
  (run! guard (bool_decide (0x20 <= vec_no <= 0x2f));
   run! guard (bool_decide (vec_no ∉ handlers m));
   modify (set_handlers (vec_no :: handlers m))) m.

Definition init_channel (chan_no : Z) : @io hw unit :=
  run! (if bool_decide (chan_no = 0) then on_channel chan_no (fun _ => new_channel chan_no 0x1f0 (14 + 0x20))
        else if bool_decide (chan_no = 1) then on_channel chan_no (fun _ => new_channel chan_no 0x170 (15 + 0x20))
        else fun _ => Panic);
  do! ch := channel_at chan_no in
  run! intr_register_ext (irq ch);
  run! reset_channel chan_no;
  do! slave := check_device_type (chan_no, 0) in
  run! (if (slave : bool) then run! check_device_type (chan_no, 1); ret tt else ret tt);
  do! d0 := disk_at (chan_no, 0) in
  run! (if is_ata d0 then identify_ata_device (chan_no, 0) else ret tt);
  do! d1 := disk_at (chan_no, 1) in
  if is_ata d1 then identify_ata_device (chan_no, 1) else ret tt.
Definition disk_init : @io hw unit :=
  run! init_channel 0;
  init_channel 1.
End Driver.

(** The array [channels] before [disk_init]: zero bytes. *)
Definition zero_disk : disk := mkDisk EmptyString 0 0 false 0 0 0.
Definition zero_channel : channel := mkChannel EmptyString 0 0 false false 0 [zero_disk; zero_disk].
