(* ===== verification/Ata.v ===== *)
(** * What an ATA channel promises

    The abstract state of a channel as the ATA-3 standard describes it, in the part the
    driver of [Disk.v] relies on: the drives with their identification and their
    sectors, the task file registers, the selected drive, the phase of the command
    that runs, and the interrupt.  A busy channel finishes its command at a time of
    its own choosing ([elapse]), within [MAX_TICKS] timer ticks.

    [AtaBus] is the promise: each access to a port of a channel changes the abstract
    state of the channel in the way the protocol says, after the channel may have
    finished its command, and leaves the other channel to itself.  What the protocol
    leaves open (an access in a phase that does not allow it, the value of a register
    while the channel is busy) is left open here.  A channel without drives does
    nothing, and a channel in a reset takes no notice of its device register. *)

From S2P Require Import Prelude Disk.

(** ** The protocol *)

Record drive := mkDrive {
  dr_ata : bool;                    (* an ATA disk, not a packet device *)
  dr_id : list Z;                   (* the words IDENTIFY DEVICE returns *)
  dr_media : gmap Z (list Z)        (* the bytes of the sectors *)
}.

Inductive work :=
| WRead (ws : list Z)               (* fetching the words to return *)
| WAccept (lba : Z)                 (* getting ready to take a sector *)
| WStore (lba : Z) (ws : list Z)    (* storing the sector it took *)
| WReset.

Inductive phase :=
| Idle
| Busy (w : work)
| DataIn (ws : list Z)              (* words the host has yet to read *)
| DataOut (lba : Z) (ws : list Z)   (* words the host has written *)
| InReset.                          (* software reset is asserted *)

Record ata := mkAta {
  a_drives : Z -> option drive;
  a_phase : phase;
  a_sel : Z;
  a_lba_mode : bool;
  a_nsect : Z; a_lbal : Z; a_lbam : Z; a_lbah : Z; a_lbat : Z;
  a_sig : bool;                     (* the registers hold the reset signature *)
  a_irq : bool
}.

Definition set_phase (p : phase) (a : ata) : ata :=
  mkAta (a_drives a) p (a_sel a) (a_lba_mode a) (a_nsect a) (a_lbal a) (a_lbam a) (a_lbah a) (a_lbat a) (a_sig a) (a_irq a).
Definition set_irq (b : bool) (a : ata) : ata :=
  mkAta (a_drives a) (a_phase a) (a_sel a) (a_lba_mode a) (a_nsect a) (a_lbal a) (a_lbam a) (a_lbah a) (a_lbat a) (a_sig a) b.
Definition set_drives (f : Z -> option drive) (a : ata) : ata :=
  mkAta f (a_phase a) (a_sel a) (a_lba_mode a) (a_nsect a) (a_lbal a) (a_lbam a) (a_lbah a) (a_lbat a) (a_sig a) (a_irq a).
Definition set_sig (sel : Z) (b : bool) (a : ata) : ata :=
  mkAta (a_drives a) (a_phase a) sel (a_lba_mode a) (a_nsect a) (a_lbal a) (a_lbam a) (a_lbah a) (a_lbat a) b (a_irq a).
Definition set_device (v : Z) (a : ata) : ata :=
  mkAta (a_drives a) (a_phase a) (if bit v DEV_DEV then 1 else 0) (bit v DEV_LBA)
    (a_nsect a) (a_lbal a) (a_lbam a) (a_lbah a) (Z.land v 15) (a_sig a) (a_irq a).
Definition set_reg (o v : Z) (a : ata) : ata :=
  mkAta (a_drives a) (a_phase a) (a_sel a) (a_lba_mode a)
    (if bool_decide (o = reg_nsect) then v else a_nsect a) (if bool_decide (o = reg_lbal) then v else a_lbal a)
    (if bool_decide (o = reg_lbam) then v else a_lbam a) (if bool_decide (o = reg_lbah) then v else a_lbah a)
    (a_lbat a) false (a_irq a).

Definition selected (a : ata) : option drive := a_drives a (a_sel a).
Definition occupied (a : ata) : bool :=
  match a_drives a 0, a_drives a 1 with None, None => false | _, _ => true end.
Definition lba (a : ata) : Z := a_lbal a + 2 ^ 8 * a_lbam a + 2 ^ 16 * a_lbah a + 2 ^ 24 * a_lbat a.
Definition is_busy (a : ata) : bool := match a_phase a with Busy _ | InReset => true | _ => false end.
Definition working (a : ata) : bool := match a_phase a with Busy _ => true | _ => false end.
Definition has_drq (a : ata) : bool := match a_phase a with DataIn _ | DataOut _ _ => true | _ => false end.

(** The words of a sector, low byte first, and the bytes of words. *)
Fixpoint words_of (b : list Z) : list Z :=
  match b with lo :: hi :: b => (lo + 2 ^ 8 * hi) :: words_of b | _ => [] end.
Definition bytes_of (ws : list Z) : list Z := ws ≫= fun w => [w mod 2 ^ 8; w / 2 ^ 8].

Definition store (d : drive) (l : Z) (b : list Z) : drive := mkDrive (dr_ata d) (dr_id d) (<[l := b]> (dr_media d)).

(** A reset selects device 0. *)
Definition begin_reset (a : ata) : ata := set_sig 0 false (set_phase InReset a).

(** The channel at the end of its work. *)
Definition finish (w : work) (a : ata) : ata :=
  match w with
  | WRead ws => set_irq true (set_phase (DataIn ws) a)
  | WAccept l => set_phase (DataOut l []) a
  | WStore l ws =>
      set_irq true (set_phase Idle (set_drives (fun i =>
        if bool_decide (i = a_sel a) then (fun d => store d l (bytes_of ws)) <$> a_drives a i else a_drives a i) a))
  | WReset => set_sig 0 true (set_phase Idle a)
  end.

Inductive elapse : ata -> ata -> Prop :=
| elapse_same a : elapse a a
| elapse_finish a w : a_phase a = Busy w -> elapse a (finish w a).

(** The status a read of the (alternate) status register may show. *)
Definition status_ok (a : ata) (v : Z) : Prop :=
  match selected a with
  | None => bit v STA_BSY = true \/ bit v STA_DRDY = false
  | Some d =>
      bit v STA_BSY = is_busy a /\
      (is_busy a = false -> bit v STA_DRQ = has_drq a /\ (dr_ata d = true -> bit v STA_DRDY = true))
  end.

(** The signature of a drive after a reset, by register. *)
Definition signature (d : drive) (o v : Z) : Prop :=
  (o = reg_error \/ o = reg_nsect \/ o = reg_lbal -> v = 1) /\
  (o = reg_lbam -> v = if dr_ata d then 0 else 0x14) /\
  (o = reg_lbah -> v = if dr_ata d then 0 else 0xeb).

Definition in_ok (o : Z) (a : ata) (v : Z) (a' : ata) : Prop :=
  a' = (if bool_decide (o = reg_status) then set_irq false a else a) /\
  (o = reg_status \/ o = reg_alt_status -> status_ok a v) /\
  (a_phase a = Idle ->
     match selected a with
     | None => o = reg_nsect -> v <> 0x55
     | Some d =>
         if a_sig a then signature d o v
         else (o = reg_nsect -> v = a_nsect a) /\ (o = reg_lbal -> v = a_lbal a)
     end).

Definition out_ok (o v : Z) (a a' : ata) : Prop :=
  match a_phase a with
  | Idle =>
      (o = reg_device -> a' = set_device v a) /\
      (o = reg_nsect \/ o = reg_lbal \/ o = reg_lbam \/ o = reg_lbah -> a' = set_reg o v a) /\
      (o = reg_ctl -> a' = if bit v CTL_SRST && occupied a then begin_reset a else a) /\
      (forall d, selected a = Some d -> dr_ata d = true ->
         (o = reg_command -> v = CMD_IDENTIFY_DEVICE -> a' = set_phase (Busy (WRead (dr_id d))) a) /\
         (forall b, dr_media d !! lba a = Some b -> a_lba_mode a = true -> a_nsect a = 1 ->
            (o = reg_command -> v = CMD_READ_SECTOR_RETRY -> a' = set_phase (Busy (WRead (words_of b))) a) /\
            (o = reg_command -> v = CMD_WRITE_SECTOR_RETRY -> a' = set_phase (Busy (WAccept (lba a))) a)))
  | InReset =>
      (o = reg_ctl -> a' = if bit v CTL_SRST then a else set_phase (Busy WReset) a)
  | Busy WReset => o = reg_device -> a' = a
  | _ => True
  end.

Definition inw_ok (a : ata) (v : Z) (a' : ata) : Prop :=
  forall w ws, a_phase a = DataIn (w :: ws) -> v = w /\ a' = set_phase (if ws is [] then Idle else DataIn ws) a.

Definition outw_ok (v : Z) (a a' : ata) : Prop :=
  forall l ws, a_phase a = DataOut l ws ->
    a' = set_phase (if bool_decide (length ws = 255%nat) then Busy (WStore l (ws ++ [v])) else DataOut l (ws ++ [v])) a.

(** ** The promise *)

Definition is_chan (c : Z) : Prop := c = 0 \/ c = 1.
Definition base_of (c : Z) : Z := if bool_decide (c = 0) then 0x1f0 else 0x170.
Definition vec_of (c : Z) : Z := if bool_decide (c = 0) then 0x2e else 0x2f.
Definition is_reg (o : Z) : Prop := 0 <= o <= 7 \/ o = reg_ctl.

Definition MAX_TICKS : Z := 2999.

Section Promise.
Context {hw : Type} (view : hw -> Z -> ata) (left : hw -> Z -> Z).

(** Channel [c] goes on by itself while [dt] ticks pass. *)
Definition runs (h h' : hw) (c dt : Z) : Prop :=
  elapse (view h c) (view h' c) /\
  (working (view h c) = true -> working (view h' c) = true -> left h' c <= left h c - dt).

(** Channel [c] is accessed: it may finish its work, then makes the step [R]; the other
    channels go on. *)
Definition moves (h h' : hw) (c : Z) (R : ata -> ata -> Prop) : Prop :=
  (exists a, elapse (view h c) a /\ R a (view h' c) /\
     (working a = true -> working (view h' c) = true -> left h' c <= left h c)) /\
  (forall c', is_chan c' -> c' <> c -> runs h h' c' 0).
End Promise.

Class AtaBus (hw : Type) (B : Bus hw) := {
  view : hw -> Z -> ata;
  left : hw -> Z -> Z;
  left_range h c w : a_phase (view h c) = Busy w -> 0 < left h c <= MAX_TICKS;
  inb_law h c o : is_chan c -> is_reg o ->
    moves view left h (snd (bus_inb (base_of c + o) h)) c (fun a a' => in_ok o a (fst (bus_inb (base_of c + o) h)) a');
  outb_law h c o v : is_chan c -> is_reg o -> moves view left h (bus_outb (base_of c + o) v h) c (out_ok o v);
  inw_law h c : is_chan c ->
    moves view left h (snd (bus_inw (base_of c + reg_data) h)) c (fun a a' => inw_ok a (fst (bus_inw (base_of c + reg_data) h)) a');
  outw_law h c v : is_chan c -> moves view left h (bus_outw (base_of c + reg_data) v h) c (outw_ok v);
  spin_law h n c : is_chan c -> runs view left h (bus_spin n h) c 0;
  tick_law h c : is_chan c -> runs view left h (bus_tick h) c 1;
  take_none h : bus_take h = None -> forall c, is_chan c -> a_irq (view h c) = false;
  take_some h v h' : bus_take h = Some (v, h') ->
    exists c, is_chan c /\ a_irq (view h c) = true /\ v = vec_of c /\ view h' c = set_irq false (view h c) /\
      (forall c', is_chan c' -> c' <> c -> view h' c' = view h c')
}.
