(* ===== verification/DiskProof.v ===== *)
(** * The disk driver is correct on every ATA channel

    Against the promise of [Ata.v]: every access to a port keeps the driver and the
    channel in step, the polling loops end within their bounds, an interrupt is counted
    exactly once, and [disk_read] and [disk_write] are the lookup and the insertion of
    the drive's map of sectors. *)

From Stdlib Require Import String.
From S2P Require Import Prelude Stdlibc Disk Ata.
#[local] Open Scope io_scope.

Lemma word_lor lo hi : 0 <= lo < 2 ^ 8 -> 0 <= hi < 2 ^ 8 -> u16 (Z.lor lo (Z.shiftl hi 8)) = lo + 2 ^ 8 * hi.
Proof. intros. rewrite lor_shift_add by lia. apply Z.mod_small. lia. Qed.

Section Channel.
Context {hw : Type} {B : Bus hw} {A : AtaBus hw B}.
Context (c : Z) (Hc : is_chan c).
#[local] Abbreviation machine := (@machine hw).

Definition pair_of {T} (x y : T) : list T := if bool_decide (c = 0) then [x; y] else [y; x].

(** The channel is set up the way [disk_init] does. *)
Definition wired (ch other : channel) : Prop :=
  reg_base ch = base_of c /\ irq ch = vec_of c /\ (c = 1 -> irq other = vec_of 0).

(** Between two accesses: the driver's channel is [ch], the hardware's is in state [a]
    with no interrupt pending, the other channel rests in state [b], and the driver
    handles the interrupts [hs]. *)
Record rests (other : channel) (b : ata) (hs : list Z) (m : machine) (ch : channel) (a : ata) : Prop := {
  r_chans : channels m = pair_of ch other;
  r_wired : wired ch other;
  r_on : intr_on m = true;
  r_handlers : handlers m = hs;
  r_handler : vec_of c ∈ hs;
  r_view : view (hardware m) c = a;
  r_irq : a_irq a = false;
  r_other : view (hardware m) (1 - c) = b;
  r_still : working b = false /\ a_irq b = false
}.

Context {other : channel} {b : ata} {hs : list Z}.
#[local] Abbreviation R := (rests other b hs).

Lemma is_chan_other : is_chan (1 - c) /\ 1 - c <> c.
Proof using Hc. unfold is_chan in *. lia. Qed.

Lemma is_chan_cases c' : is_chan c' -> c' = c \/ c' = 1 - c.
Proof using Hc. unfold is_chan in *. lia. Qed.

Lemma elapse_still a a' : working a = false -> elapse a a' -> a' = a.
Proof. intros Hw He. inversion He as [|? w E]; [done|]. subst. unfold working in Hw. by rewrite E in Hw. Qed.

Lemma elapse_busy a a' w : a_phase a = Busy w -> elapse a a' -> a' = a \/ a' = finish w a.
Proof. intros E He. inversion He as [|? w' E']; [by left|]. right. subst. congruence. Qed.

(** *** Channels in the array *)

Lemma get_chan (m : machine) ch : channels m = pair_of ch other -> channel_at c m = Ret (m, ch).
Proof using Hc. intros E. unfold channel_at. rewrite E. unfold pair_of. destruct Hc as [->| ->]; done. Qed.

Lemma on_chan (m : machine) ch f : channels m = pair_of ch other ->
  on_channel c f m = Ret (set_channels (pair_of (f ch) other) m, tt).
Proof using Hc. intros E. unfold on_channel. rewrite E. unfold pair_of. destruct Hc as [->| ->]; done. Qed.

Lemma on_chan_rests m ch a f : R m ch a -> wired (f ch) other ->
  exists m', on_channel c f m = Ret (m', tt) /\ R m' (f ch) a /\ hardware m' = hardware m.
Proof using Hc.
  intros [] Hw. eexists. rewrite (on_chan m ch) by done. split; [done|]. split; [|done]. by constructor.
Qed.

(** *** The interrupt *)

Definition bump (ch : channel) : channel := set_completion (completion_wait ch + 1) ch.

Lemma wired_bump ch : wired ch other -> wired (bump ch) other.
Proof. done. Qed.

(** What [rests] says, but with an interrupt that may be pending. *)
Record runs_to (m : machine) (ch : channel) (a : ata) : Prop := {
  t_chans : channels m = pair_of ch other;
  t_wired : wired ch other;
  t_on : intr_on m = true;
  t_handlers : handlers m = hs;
  t_handler : vec_of c ∈ hs;
  t_view : view (hardware m) c = a;
  t_irq : a_irq a = true -> expecting_interrupt ch = true /\ working a = false;
  t_other : view (hardware m) (1 - c) = b;
  t_still : working b = false /\ a_irq b = false
}.

Definition answered (ch : channel) (a : ata) : channel := if a_irq a then bump ch else ch.

Lemma set_irq_id a : a_irq a = false -> set_irq false a = a.
Proof. destruct a; simpl. by intros ->. Qed.

Lemma handler_scan m ch : channels m = pair_of ch other -> wired ch other -> expecting_interrupt ch = true ->
  interrupt_handler (vec_of c) m = (run! raw_inb (base_of c + reg_status); completion_up c) m.
Proof using Hc.
  intros E (Hb & Hi & Ho) He. unfold interrupt_handler. simpl. unfold bind at 1.
  pose proof (get_chan m ch E) as Hg. destruct Hc as [->| ->].
  - rewrite Hg. cbn [rbind]. rewrite Hi, bool_decide_true by done. by rewrite He, Hb.
  - assert (channel_at 0 m = Ret (m, other)) as ->.
    { unfold channel_at. rewrite E. unfold pair_of. rewrite bool_decide_false by lia. reflexivity. }
    cbn [rbind]. rewrite Ho by done. rewrite bool_decide_false by done. unfold bind at 1.
    change (0 + 1) with 1. rewrite Hg. cbn [rbind].
    rewrite Hi, bool_decide_true by done. by rewrite He, Hb.
Qed.

Lemma deliver_ok m ch a : runs_to m ch a ->
  exists m', deliver m = Ret (m', tt) /\ R m' (answered ch a) (set_irq false a) /\
    (working a = true -> left (hardware m') c <= left (hardware m) c).
Proof using Hc.
  intros T. destruct T as [Tc Tw To Ths Th Tv Ti Tb Ts]. destruct is_chan_other as [Hc' Hne].
  unfold deliver. rewrite To. destruct (bus_take (hardware m)) as [[v h]|] eqn:Et.
  - destruct (take_some _ _ _ Et) as (k & Hk & Hirq & -> & Hv & Hoth).
    assert (k = c) as -> by (destruct (is_chan_cases k Hk) as [|E]; [done|]; subst; destruct Ts; congruence).
    pose proof (Hoth (1 - c)) as Hvo. specialize (Hvo ltac:(done) ltac:(intros E; congruence)).
    rewrite Tv in Hirq. destruct (Ti Hirq) as [He Hw].
    cbn [handlers set_hardware]. rewrite Ths, bool_decide_true by done.
    rewrite (handler_scan _ ch) by done. unfold bind, raw_inb. cbn [hardware set_hardware].
    destruct (bus_inb (base_of c + reg_status) h) as [v h'] eqn:Ei. cbn [rbind].
    unfold completion_up. rewrite (on_chan _ ch) by done.
    pose proof (inb_law h c reg_status Hc) as Hin. rewrite Ei in Hin. cbn [fst snd] in Hin.
    destruct Hin as [(a1 & He1 & (Ha' & _) & _) Hrun]; [unfold is_reg, reg_status; lia|].
    eexists. split; [done|]. split; [|by rewrite Hw].
    apply elapse_still in He1; [|by rewrite Hv, Tv; destruct a].
    destruct (Hrun (1 - c)) as [Hro _]; [done..|].
    apply elapse_still in Hro; [|by rewrite Hvo, Tb; destruct Ts].
    unfold answered. rewrite Hirq.
    constructor; try done; cbn [hardware set_hardware set_channels].
    + rewrite Ha', He1, Hv, Tv, bool_decide_true by done. by destruct a.
    + by rewrite Hro, Hvo.
  - pose proof (take_none _ Et c Hc) as Hirq. rewrite Tv in Hirq. exists m. split; [done|]. split; [|lia].
    unfold answered. rewrite Hirq, set_irq_id by done. by constructor.
Qed.
(** *** Accesses *)

Lemma step_still m ch a h' S : R m ch a -> working a = false -> moves view left (hardware m) h' c S ->
  S a (view h' c) /\ view h' (1 - c) = b.
Proof using Hc.
  intros [] Hw [(a1 & He & HS & _) Hrun]. destruct is_chan_other as [Hc' Hne].
  rewrite r_view0 in He. apply elapse_still in He as ->; [|done]. split; [done|].
  destruct (Hrun (1 - c)) as [Ho _]; [done..|]. rewrite r_other0 in Ho.
  apply elapse_still in Ho; [done|]. by destruct r_still0.
Qed.

Lemma step_busy m ch a w h' S : R m ch a -> a_phase a = Busy w -> moves view left (hardware m) h' c S ->
  (S a (view h' c) /\ (working (view h' c) = true -> left h' c <= left (hardware m) c) \/ S (finish w a) (view h' c)) /\
  view h' (1 - c) = b.
Proof using Hc.
  intros [] Hw [(a1 & He & HS & Hl) Hrun]. destruct is_chan_other as [Hc' Hne].
  rewrite r_view0 in He. split.
  - destruct (elapse_busy _ _ _ Hw He) as [-> | ->]; [left|by right]. split; [done|].
    apply Hl. unfold working. by rewrite Hw.
  - destruct (Hrun (1 - c)) as [Ho _]; [done..|]. rewrite r_other0 in Ho.
    apply elapse_still in Ho; [done|]. by destruct r_still0.
Qed.

Lemma rests_runs_to m ch a h' a' : R m ch a -> view h' c = a' -> view h' (1 - c) = b ->
  (a_irq a' = true -> expecting_interrupt ch = true /\ working a' = false) -> runs_to (set_hardware h' m) ch a'.
Proof. intros [] Hv Ho Hi. by constructor. Qed.

Lemma rests_quiet_to m ch a h' a' : R m ch a -> view h' c = a' -> view h' (1 - c) = b -> a_irq a' = false ->
  exists m', deliver (set_hardware h' m) = Ret (m', tt) /\ R m' ch a'.
Proof using Hc.
  intros HR Hv Ho Hi. destruct (deliver_ok (set_hardware h' m) ch a') as (m' & E & HR' & _).
  { eapply rests_runs_to; eauto. congruence. }
  exists m'. split; [done|]. unfold answered in HR'. by rewrite Hi, set_irq_id in HR'.
Qed.

Lemma inb_still m ch a o : R m ch a -> working a = false -> is_reg o ->
  exists m' v, inb (base_of c + o) m = Ret (m', v) /\ R m' ch a /\
    (o = reg_status \/ o = reg_alt_status -> status_ok a v) /\ (a_phase a = Idle -> in_ok o a v a).
Proof using Hc.
  intros HR Hw Ho. unfold inb, raw_inb, bind, ret.
  pose proof (inb_law (hardware m) c o Hc Ho) as Hin. destruct (bus_inb _ _) as [v h'] eqn:Ei. cbn [fst snd rbind] in *.
  destruct (step_still _ _ _ _ _ HR Hw Hin) as [(Ea & Hs & Hr) Hoth].
  assert (view h' c = a) as Ea' by (rewrite Ea; destruct HR; case_bool_decide; [by rewrite set_irq_id|done]).
  destruct (rests_quiet_to m ch a h' a HR) as (m' & -> & HR'); [done..|by destruct HR|].
  cbn [rbind]. exists m', v. split_and!; [done..|]. intros Hp. unfold in_ok. split_and!; auto.
  by rewrite Ea' in Ea.
Qed.

(** The channel after an access in the middle of its work: still at it, or done. *)
Definition progress (a : ata) (w : work) (ch : channel) (t : Z) (m' : machine) (a' : ata) : Prop :=
  (a' = a /\ R m' ch a /\ left (hardware m') c <= t) \/
  (a' = finish w a /\ R m' (answered ch a') (set_irq false a')).

Definition expects (w : work) (ch : channel) : Prop :=
  match w with WRead _ | WStore _ _ => expecting_interrupt ch = true | _ => True end.

Lemma finish_irq w a ch : a_irq a = false -> expects w ch ->
  a_irq (finish w a) = true -> expecting_interrupt ch = true /\ working (finish w a) = false.
Proof. destruct w; simpl; intros; try done; congruence. Qed.

Lemma progress_deliver m ch a w h' t : R m ch a -> a_phase a = Busy w -> expects w ch ->
  (view h' c = a /\ left h' c <= t \/ view h' c = finish w a) -> view h' (1 - c) = b ->
  exists m', deliver (set_hardware h' m) = Ret (m', tt) /\
    progress a w ch t m' (view h' c).
Proof using Hc.
  intros HR Hw Hx [[Hv Hl]|Hv] Ho.
  - destruct (deliver_ok (set_hardware h' m) ch a) as (m' & E & HR' & Hl').
    { eapply rests_runs_to; eauto. destruct HR. congruence. }
    exists m'. split; [done|]. left. assert (a_irq a = false) as Hi by by destruct HR.
    unfold answered in HR'. rewrite Hi, set_irq_id in HR' by done. split_and!; [done..|].
    cbn [hardware set_hardware] in Hl'. assert (working a = true) by (unfold working; by rewrite Hw).
    specialize (Hl' ltac:(done)). lia.
  - destruct (deliver_ok (set_hardware h' m) ch (finish w a)) as (m' & E & HR' & _).
    { eapply rests_runs_to; eauto. destruct HR. intros. by eapply finish_irq. }
    exists m'. split; [done|]. right. by rewrite Hv.
Qed.

(** The status register itself must not be read here: it would clear the interrupt. *)
Lemma inb_busy m ch a w o t : R m ch a -> a_phase a = Busy w -> expects w ch -> is_reg o -> o <> reg_status ->
  left (hardware m) c <= t ->
  exists m' v a', inb (base_of c + o) m = Ret (m', v) /\ progress a w ch t m' a' /\
    (o = reg_alt_status -> status_ok a' v).
Proof using Hc.
  intros HR Hw Hx Ho Hne Ht. unfold inb, raw_inb, bind, ret.
  pose proof (inb_law (hardware m) c o Hc Ho) as Hin. destruct (bus_inb _ _) as [v h'] eqn:Ei. cbn [fst snd rbind] in *.
  destruct (step_busy _ _ _ _ _ _ HR Hw Hin) as [Hs Hoth].
  assert (exists a', view h' c = a' /\ in_ok o a' v a' /\ (a' = a /\ left h' c <= t \/ a' = finish w a)) as (a' & Hv & (_ & Hst & _) & Hcase).
  { assert (working a = true) by (unfold working; by rewrite Hw).
    destruct Hs as [[Hs Hl]|Hs]; pose proof Hs as Hs2; destruct Hs as [Hv _]; rewrite bool_decide_false in Hv by done.
    - exists a. rewrite Hv in *. split_and!; [done..|]. left. split; [done|]. specialize (Hl ltac:(done)). lia.
    - exists (finish w a). rewrite Hv in *. auto. }
  destruct (progress_deliver m ch a w h' t) as (m' & -> & Hp); [done..|by rewrite Hv|done|].
  cbn [rbind]. exists m', v, a'. rewrite Hv in Hp. auto.
Qed.

Lemma runs_still m ch a h' dt : R m ch a -> working a = false -> (forall k, is_chan k -> runs view left (hardware m) h' k dt) ->
  exists m', deliver (set_hardware h' m) = Ret (m', tt) /\ R m' ch a.
Proof using Hc.
  intros HR Hw Hr. destruct is_chan_other as [Hc' Hne]. destruct (Hr c) as [Hv _]; [done|].
  destruct (Hr (1 - c)) as [Ho _]; [done|]. assert (HR' := HR). destruct HR as [].
  rewrite r_view0 in Hv. apply elapse_still in Hv; [|done].
  rewrite r_other0 in Ho. apply elapse_still in Ho; [|by destruct r_still0].
  by eapply rests_quiet_to.
Qed.

Lemma runs_busy m ch a w h' dt t : R m ch a -> a_phase a = Busy w -> expects w ch ->
  (forall k, is_chan k -> runs view left (hardware m) h' k dt) -> left (hardware m) c - dt <= t ->
  exists m' a', deliver (set_hardware h' m) = Ret (m', tt) /\ progress a w ch t m' a'.
Proof using Hc.
  intros HR Hw Hx Hr Ht. destruct is_chan_other as [Hc' Hne]. destruct (Hr c) as [Hv Hl]; [done|].
  destruct (Hr (1 - c)) as [Ho _]; [done|]. assert (HR' := HR). destruct HR as [].
  rewrite r_view0 in Hv, Hl. rewrite r_other0 in Ho. apply elapse_still in Ho; [|by destruct r_still0].
  assert (working a = true) by (unfold working; by rewrite Hw).
  destruct (progress_deliver m ch a w h' t) as (m' & -> & Hp); try done; [|by eauto].
  destruct (elapse_busy _ _ _ Hw Hv) as [E|E]; [left|by right]. split; [done|].
  rewrite E in Hl. specialize (Hl ltac:(done) ltac:(done)). lia.
Qed.

Lemma outb_to m ch a a' o v : R m ch a -> a_phase a = Idle \/ a_phase a = InReset -> is_reg o ->
  (forall x, out_ok o (u8 v) a x -> x = a') -> a_irq a' = false ->
  exists m', outb (base_of c + o) v m = Ret (m', tt) /\ R m' ch a'.
Proof using Hc.
  intros HR Hp Ho Hx Hi. unfold outb, bind, modify. cbn [rbind].
  pose proof (outb_law (hardware m) c o (u8 v) Hc Ho) as Hout.
  assert (working a = false) as Hw by (unfold working; by destruct Hp as [-> | ->]).
  destruct (step_still _ _ _ _ _ HR Hw Hout) as [HS Hoth].
  exact (rests_quiet_to m ch a _ a' HR (Hx _ HS) Hoth Hi).
Qed.

Lemma outb_device m ch a v : R m ch a -> a_phase a = Idle ->
  exists m', outb (base_of c + reg_device) v m = Ret (m', tt) /\ R m' ch (set_device (u8 v) a).
Proof using Hc.
  intros HR Hp. apply (outb_to m ch a); auto; [unfold is_reg, reg_device; lia| |by destruct HR].
  unfold out_ok. rewrite Hp. naive_solver.
Qed.

Lemma outb_reg m ch a o v : R m ch a -> a_phase a = Idle -> o = reg_nsect \/ o = reg_lbal \/ o = reg_lbam \/ o = reg_lbah ->
  exists m', outb (base_of c + o) v m = Ret (m', tt) /\ R m' ch (set_reg o (u8 v) a).
Proof using Hc.
  intros HR Hp Ho. apply (outb_to m ch a); auto; [|unfold out_ok; rewrite Hp; naive_solver|by destruct HR].
  unfold is_reg, reg_nsect, reg_lbal, reg_lbam, reg_lbah in *. lia.
Qed.

Lemma insw_ok ch a ws : forall m, R m ch a -> a_phase a = DataIn ws -> ws <> [] -> Forall (fun w => 0 <= w < 2 ^ 16) ws ->
  exists m', insw (base_of c + reg_data) (length ws) m = Ret (m', bytes_of ws) /\ R m' ch (set_phase Idle a).
Proof using Hc.
  revert a. induction ws as [|w ws IH]; intros a m HR Hp Hne Hws; [done|]. clear Hne.
  apply Forall_cons in Hws as [Hw Hws]. cbn [insw length]. unfold inw, bind, ret.
  pose proof (inw_law (hardware m) c Hc) as Hin. destruct (bus_inw _ _) as [v h'] eqn:Ei. cbn [fst snd rbind] in *.
  assert (working a = false) as Hwk by (unfold working; by rewrite Hp).
  destruct (step_still _ _ _ _ _ HR Hwk Hin) as [HS Hoth].
  destruct (HS w ws Hp) as [-> Hv]. 
  destruct (rests_quiet_to m ch a h' _ HR Hv Hoth) as (m1 & E & HR'); [by destruct HR|].
  rewrite E. cbn [rbind].
  assert (exists m', insw (base_of c + reg_data) (length ws) m1 = Ret (m', bytes_of ws) /\ R m' ch (set_phase Idle a)) as (m' & -> & HR2).
  { destruct ws as [|w' ws]; [by exists m1|]. destruct (IH _ m1 HR') as (m' & -> & HR2); try done. by exists m'. }
  cbn [rbind]. exists m'. split; [|done]. f_equal. f_equal. unfold bytes_of. cbn.
  unfold u8. rewrite Z.shiftr_div_pow2 by lia. rewrite (Z.mod_small (w / 2 ^ 8)); [done|].
  split; [apply Z.div_pos; lia|apply Z.div_lt_upper_bound; lia].
Qed.
Lemma outw_step m ch a l acc v : R m ch a -> a_phase a = DataOut l acc ->
  exists m', outw (base_of c + reg_data) v m = Ret (m', tt) /\
    R m' ch (set_phase (if bool_decide (length acc = 255%nat) then Busy (WStore l (acc ++ [u16 v])) else DataOut l (acc ++ [u16 v])) a).
Proof using Hc.
  intros HR Hp. unfold outw, bind, modify. cbn [rbind].
  assert (working a = false) as Hwk by (unfold working; by rewrite Hp).
  destruct (step_still _ _ _ _ _ HR Hwk (outw_law (hardware m) c (u16 v) Hc)) as [HS Hoth].
  apply (rests_quiet_to m ch a _ _ HR (HS _ _ Hp) Hoth). by destruct HR.
Qed.

Lemma set_phase_twice p q a : set_phase p (set_phase q a) = set_phase p a.
Proof. done. Qed.

Lemma outsw_ok ch l k : forall a m addr acc, R m ch a -> a_phase a = DataOut l acc -> length addr = (2 * S k)%nat ->
  (length acc + S k = 256)%nat -> Forall (fun x => 0 <= x < 2 ^ 8) addr ->
  exists m', outsw (base_of c + reg_data) addr (S k) m = Ret (m', tt) /\
    R m' ch (set_phase (Busy (WStore l (acc ++ words_of addr))) a).
Proof using Hc.
  induction k as [|k IH]; intros a m addr acc HR Hp Hlen Hacc Hb;
    (destruct addr as [|lo [|hi addr]]; [simpl in Hlen; lia..|]);
    apply Forall_cons in Hb as [Hlo Hb]; apply Forall_cons in Hb as [Hhi Hb]; simpl in Hlen;
    (destruct (outw_step m ch a l acc (Z.lor lo (Z.shiftl hi 8)) HR Hp) as (m1 & E & HR1));
    cbn [outsw]; unfold bind; rewrite E; cbn [rbind]; rewrite word_lor in HR1 by done.
  - destruct addr; [|simpl in Hlen; lia]. rewrite bool_decide_true in HR1 by lia. by exists m1.
  - rewrite bool_decide_false in HR1 by lia.
    destruct (IH _ m1 addr (acc ++ [lo + 2 ^ 8 * hi]) HR1) as (m' & E' & HR'); [done|lia|rewrite length_app; simpl; lia|done|].
    exists m'. cbn [outsw] in E'. split; [done|]. rewrite set_phase_twice, <- app_assoc in HR'. done.
Qed.
(** *** Time *)

Lemma print_rests p m ch a : R m ch a -> R (print_call p m) ch a.
Proof. intros []. by constructor. Qed.

Lemma tick_still m ch a : R m ch a -> working a = false -> exists m', tick m = Ret (m', tt) /\ R m' ch a.
Proof using Hc. intros HR Hw. eapply (runs_still m ch a _ 1); eauto. intros. by apply tick_law. Qed.

Lemma tick_busy m ch a w t : R m ch a -> a_phase a = Busy w -> expects w ch -> left (hardware m) c - 1 <= t ->
  exists m' a', tick m = Ret (m', tt) /\ progress a w ch t m' a'.
Proof using Hc. intros. eapply (runs_busy m ch a w _ 1); eauto. intros. by apply tick_law. Qed.

Lemma sleep_still ch a n : forall m, R m ch a -> working a = false ->
  exists m', sleep_ticks n m = Ret (m', tt) /\ R m' ch a.
Proof using Hc.
  induction n as [|n IH]; intros m HR Hw; [by exists m|]. cbn [sleep_ticks]. unfold bind.
  destruct (tick_still m ch a HR Hw) as (m1 & -> & HR1). cbn [rbind]. by apply IH.
Qed.

Lemma real_time_still m ch a num denom : R m ch a -> working a = false -> Z.rem denom 1000 = 0 ->
  exists m', real_time_sleep num denom m = Ret (m', tt) /\ R m' ch a.
Proof using Hc.
  intros HR Hw Hd. unfold real_time_sleep, bind, guard. rewrite (r_on _ _ _ _ _ _ HR). cbn [rbind].
  case_bool_decide; [by apply sleep_still|]. rewrite bool_decide_true by done. cbn [rbind].
  eapply (runs_still m ch a _ 0); eauto. intros. by apply spin_law.
Qed.

Lemma msleep_tick m : intr_on m = true -> timer_msleep 10 m = (run! tick; ret tt) m.
Proof. intros E. unfold timer_msleep, real_time_sleep, bind, guard. by rewrite E. Qed.

Lemma msleep_busy m ch a w t : R m ch a -> a_phase a = Busy w -> expects w ch -> left (hardware m) c - 1 <= t ->
  exists m' a', timer_msleep 10 m = Ret (m', tt) /\ progress a w ch t m' a'.
Proof using Hc.
  intros HR Hw Hx Ht. rewrite msleep_tick by (by destruct HR). unfold bind, ret.
  destruct (tick_busy m ch a w t HR Hw Hx Ht) as (m' & a' & -> & Hp). cbn [rbind]. eauto.
Qed.

(** *** Polling *)

Lemma when_print (q : bool) s l m ch a : R m ch a ->
  exists m', (if q then kprintf s l else ret tt) m = Ret (m', tt) /\ R m' ch a /\ hardware m' = hardware m.
Proof. intros HR. destruct q; eexists; (split; [done|split; [|done]]); [by apply print_rests|done]. Qed.

Lemma status_busy a v d : selected a = Some d -> status_ok a v -> bit v STA_BSY = is_busy a.
Proof. unfold status_ok. intros ->. naive_solver. Qed.
Lemma status_drq a v d : selected a = Some d -> is_busy a = false -> status_ok a v -> bit v STA_DRQ = has_drq a.
Proof. unfold status_ok. intros ->. naive_solver. Qed.

Lemma alt_status_reg : is_reg reg_alt_status /\ reg_alt_status <> reg_status.
Proof. unfold is_reg, reg_alt_status, reg_ctl, reg_status. lia. Qed.

(** [wait_while_busy] on a channel at rest looks once. *)
Lemma busy_loop_still n i d0 m ch a d : R m ch a -> is_busy a = false -> selected a = Some d ->
  exists m', busy_loop (S n) i d0 (base_of c) m = Ret (m', has_drq a) /\ R m' ch a.
Proof using Hc.
  intros HR Hb Hd. assert (working a = false) as Hw by (unfold is_busy, working in *; by destruct (a_phase a)).
  destruct alt_status_reg as [Hr _].
  cbn [busy_loop]. unfold bind.
  destruct (when_print (bool_decide (i = 700)) "%s: busy, waiting..." [AStr (name d0)] m ch a HR) as (m1 & -> & HR1 & _).
  cbn [rbind]. destruct (inb_still m1 ch a reg_alt_status HR1 Hw Hr) as (m2 & v & -> & HR2 & Hs & _). cbn [rbind].
  rewrite (status_busy a v d), Hb by auto. cbn [negb].
  destruct (when_print (bool_decide (i >= 700)) "ok\n" [] m2 ch a HR2) as (m3 & -> & HR3 & _). cbn [rbind].
  destruct (inb_still m3 ch a reg_alt_status HR3 Hw Hr) as (m4 & v' & -> & HR4 & Hs' & _). cbn [rbind].
  exists m4. unfold ret. rewrite (status_drq a v' d) by auto. done.
Qed.

Definition over (w : work) (a : ata) : ata := set_irq false (finish w a).

Lemma over_busy w a : is_busy (over w a) = false.
Proof. by destruct w. Qed.

(** ... and on a busy one until the work is over. *)
Lemma busy_loop_busy w a d0 ch d : a_phase a = Busy w -> expects w ch -> selected a = Some d ->
  is_Some (selected (over w a)) ->
  forall n i t m, R m ch a -> left (hardware m) c <= t -> t < Z.of_nat n ->
  exists m', busy_loop n i d0 (base_of c) m = Ret (m', has_drq (over w a)) /\ R m' (answered ch (finish w a)) (over w a).
Proof using Hc.
  intros Hw Hx Hd [d' Hd']. induction n as [|n IH]; intros i t m HR Hl Ht.
  { assert (0 < left (hardware m) c) by (destruct HR; subst a; by eapply left_range in Hw as []). lia. }
  assert (is_busy a = true) as Hb by (unfold is_busy; by rewrite Hw).
  assert (is_busy (finish w a) = false) as Hb' by by destruct w.
  destruct alt_status_reg as [Hr Hne]. cbn [busy_loop]. unfold bind.
  destruct (when_print (bool_decide (i = 700)) "%s: busy, waiting..." [AStr (name d0)] m ch a HR) as (m1 & -> & HR1 & Eh).
  cbn [rbind].
  destruct (inb_busy m1 ch a w reg_alt_status t HR1 Hw Hx Hr Hne) as (m2 & v & a' & -> & Hp & Hs); [by rewrite Eh|].
  cbn [rbind]. specialize (Hs eq_refl). destruct Hp as [(-> & HR2 & Hl2)|[-> HR2]].
  - rewrite (status_busy a v d), Hb by auto. cbn [negb].
    destruct (msleep_busy m2 ch a w (t - 1) HR2 Hw Hx) as (m3 & a3 & -> & Hp3); [lia|]. cbn [rbind].
    destruct Hp3 as [(-> & HR3 & Hl3)|[-> HR3]]; [by eapply (IH _ (t - 1)); [|lia..]|].
    destruct n as [|n]; [|by eapply busy_loop_still; [|apply over_busy|]].
    assert (0 < left (hardware m) c) by (destruct HR; subst a; by eapply left_range in Hw as []). lia.
  - rewrite (status_busy (finish w a) v d'), Hb' by done. cbn [negb].
    destruct (when_print (bool_decide (i >= 700)) "ok\n" [] m2 _ _ HR2) as (m3 & -> & HR3 & _). cbn [rbind].
    assert (working (over w a) = false) as Hwo by by destruct w.
    destruct (inb_still m3 _ _ reg_alt_status HR3 Hwo Hr) as (m4 & v' & -> & HR4 & Hs' & _). cbn [rbind].
    exists m4. unfold ret. fold (over w a) in *. rewrite (status_drq (over w a) v' d') by auto using over_busy. done.
Qed.
Lemma sema_taken m ch a n : R m (bump ch) a -> completion_wait ch = 0 ->
  exists m', sema_wait n c m = Ret (m', tt) /\ R m' ch a.
Proof using Hc.
  intros HR H0. assert (sema_wait n c m = on_channel c (fun ch => set_completion (completion_wait ch - 1) ch) m) as ->.
  { destruct n; cbn [sema_wait]; unfold bind; rewrite (get_chan m (bump ch)) by (by destruct HR); cbn [rbind];
      by rewrite bool_decide_true by (simpl; lia). }
  destruct (on_chan_rests m (bump ch) a (fun ch => set_completion (completion_wait ch - 1) ch) HR) as (m' & E & HR' & _).
  { by destruct HR. }
  exists m'. split; [done|]. assert (set_completion (completion_wait (bump ch) - 1) (bump ch) = ch) as Eb.
  { clear HR HR' E. destruct ch. simpl in *. subst. done. }
  by rewrite Eb in HR'.
Qed.

(** [sema_down] returns when the interrupt of the command has come. *)
Lemma sema_wait_busy w a ch : a_phase a = Busy w -> expects w ch -> a_irq (finish w a) = true -> completion_wait ch = 0 ->
  forall n t m, R m ch a -> left (hardware m) c <= t -> t <= Z.of_nat n ->
  exists m', sema_wait n c m = Ret (m', tt) /\ R m' ch (over w a).
Proof using Hc.
  intros Hw Hx Hi H0. induction n as [|n IH]; intros t m HR Hl Ht;
    (assert (0 < left (hardware m) c) by (destruct HR; subst a; by eapply left_range in Hw as [])); [lia|].
  cbn [sema_wait]. unfold bind. rewrite (get_chan m ch) by (by destruct HR). cbn [rbind].
  rewrite bool_decide_false by lia.
  destruct (tick_busy m ch a w (t - 1) HR Hw Hx) as (m1 & a1 & -> & Hp); [lia|]. cbn [rbind].
  destruct Hp as [(-> & HR1 & Hl1)|[-> HR1]]; [by eapply (IH (t - 1)); [|lia..]|].
  unfold answered in HR1. rewrite Hi in HR1. by apply sema_taken.
Qed.

(** *** Selecting *)

(** Disk [i] of the channel. *)
Record has_disk (ch : channel) (i : Z) (d : disk) : Prop := {
  hd_at : aget (devices ch) i = Ret d;
  hd_chan : channel_of d = c;
  hd_dev : dev_no d = i;
  hd_no : i = 0 \/ i = 1
}.

Lemma get_disk m ch a i d : R m ch a -> has_disk ch i d -> disk_at (c, i) m = Ret (m, d).
Proof using Hc.
  intros HR Hd. unfold disk_at. cbn [fst snd]. pose proof (get_chan m ch (r_chans _ _ _ _ _ _ HR)) as Hg.
  unfold channel_at in Hg. destruct (aget (channels m) c); cbn [rbind] in *; simplify_eq. by rewrite (hd_at _ _ _ Hd).
Qed.

Lemma get_disk_chan m ch a i d : R m ch a -> has_disk ch i d -> channel_at (channel_of d) m = Ret (m, ch) /\ reg_base ch = base_of c.
Proof using Hc.
  intros HR Hd. rewrite (hd_chan _ _ _ Hd), (get_chan m ch) by (by destruct HR). split; [done|]. by destruct HR as [_ []].
Qed.

Lemma status_reg : is_reg reg_status.
Proof. unfold is_reg, reg_status. lia. Qed.

Lemma bits_clear v m1 m2 : bit v m1 = false -> bit v m2 = false -> Z.land v (Z.lor m1 m2) = 0.
Proof.
  unfold bit. rewrite !negb_false_iff, !bool_decide_eq_true. intros H1 H2. by rewrite Z.land_lor_distr_r, H1, H2.
Qed.

(** [wait_until_idle] returns, with or without its message: an absent device may show
    any status. *)
Lemma idle_loop_ok d0 ch a : a_phase a = Idle -> forall n m, R m ch a ->
  exists m', idle_loop n d0 (base_of c) m = Ret (m', tt) /\ R m' ch a.
Proof using Hc.
  intros Hp. assert (working a = false) as Hw by (unfold working; by rewrite Hp).
  induction n as [|n IH]; intros m HR; cbn [idle_loop].
  { eexists. split; [done|]. by apply print_rests. }
  unfold bind. destruct (inb_still m ch a reg_status HR Hw status_reg) as (m1 & v & -> & HR1 & Hv & _). cbn [rbind].
  case_bool_decide; [by exists m1|].
  destruct (real_time_still m1 ch a 10 (1000 * 1000) HR1 Hw eq_refl) as (m2 & E & HR2).
  fold (@timer_usleep hw B 10) in E. rewrite E. cbn [rbind]. by apply IH.
Qed.

Lemma idle_ok m ch a i d : R m ch a -> has_disk ch i d -> a_phase a = Idle ->
  exists m', wait_until_idle (c, i) m = Ret (m', tt) /\ R m' ch a.
Proof using Hc.
  intros HR Hd Hp. unfold wait_until_idle, bind. rewrite (get_disk m ch a i d) by done. cbn [rbind].
  destruct (get_disk_chan m ch a i d HR Hd) as [-> Eb]. cbn [rbind]. rewrite Eb.
  by eapply idle_loop_ok.
Qed.

Definition select_value (i : Z) : Z := if bool_decide (i = 1) then Z.lor DEV_MBS DEV_DEV else DEV_MBS.

Lemma select_device_ok m ch a i d : R m ch a -> has_disk ch i d -> a_phase a = Idle ->
  exists m', select_device (c, i) m = Ret (m', tt) /\ R m' ch (set_device (select_value i) a).
Proof using Hc.
  intros HR Hd Hp. unfold select_device, bind. rewrite (get_disk m ch a i d) by done. cbn [rbind].
  destruct (get_disk_chan m ch a i d HR Hd) as [-> Eb]. cbn [rbind]. rewrite Eb. rewrite (hd_dev _ _ _ Hd).
  fold (select_value i).
  destruct (outb_device m ch a (select_value i) HR Hp) as (m1 & -> & HR1). cbn [rbind].
  replace (u8 (select_value i)) with (select_value i) in HR1 by (unfold select_value; by case_bool_decide).
  destruct alt_status_reg as [Hr _].
  assert (working (set_device (select_value i) a) = false) as Hw by (unfold working; cbn; by rewrite Hp).
  destruct (inb_still m1 ch _ reg_alt_status HR1 Hw Hr) as (m2 & v & -> & HR2 & _). cbn [rbind].
  by apply real_time_still.
Qed.

Lemma select_value_sel i a : i = 0 \/ i = 1 -> a_sel (set_device (select_value i) a) = i.
Proof. by intros [-> | ->]. Qed.

Lemma select_wait_ok m ch a i d : R m ch a -> has_disk ch i d -> a_phase a = Idle ->
  exists m', select_device_wait (c, i) m = Ret (m', tt) /\ R m' ch (set_device (select_value i) a).
Proof using Hc.
  intros HR Hd Hp. unfold select_device_wait, bind.
  destruct (idle_ok m ch a i d HR Hd Hp) as (m1 & -> & HR1). cbn [rbind].
  destruct (select_device_ok m1 ch a i d HR1 Hd Hp) as (m2 & -> & HR2). cbn [rbind].
  by eapply idle_ok.
Qed.

(** *** Commands *)

(** The channel is ready to take a command for sector [sec] of drive [i]. *)
Record addressed (a a' : ata) (i sec : Z) : Prop := {
  ad_phase : a_phase a' = Idle;
  ad_drives : a_drives a' = a_drives a;
  ad_sel : a_sel a' = i;
  ad_mode : a_lba_mode a' = true;
  ad_nsect : a_nsect a' = 1;
  ad_lba : lba a' = sec
}.

Definition sector_value (i sec : Z) : Z :=
  Z.lor (Z.lor (Z.lor DEV_MBS DEV_LBA) (if bool_decide (i = 1) then DEV_DEV else 0)) (Z.shiftr sec 24).

Lemma below_16 (P : Z -> bool) : forallb P (seqZ 0 16) = true -> forall k, 0 <= k < 16 -> P k = true.
Proof. intros Hf k Hk. rewrite forallb_forall in Hf. apply Hf. rewrite <- list_elem_of_In, elem_of_seqZ. lia. Qed.

Lemma sector_value_bits i sec : i = 0 \/ i = 1 -> 0 <= sec < 2 ^ 28 ->
  bit (u8 (sector_value i sec)) DEV_DEV = bool_decide (i = 1) /\ bit (u8 (sector_value i sec)) DEV_LBA = true /\
  Z.land (u8 (sector_value i sec)) 15 = sec / 2 ^ 24.
Proof.
  intros Hi Hs. unfold sector_value. rewrite Z.shiftr_div_pow2 by lia.
  assert (0 <= sec / 2 ^ 24 < 16) as Hk by (split; [apply Z.div_pos; lia|apply Z.div_lt_upper_bound; lia]).
  revert Hk. generalize (sec / 2 ^ 24). intros k Hk.
  destruct Hi as [-> | ->]; cbv zeta.
  - pose proof (below_16 (fun k => negb (bit (u8 (Z.lor 224 k)) DEV_DEV) && bit (u8 (Z.lor 224 k)) DEV_LBA &&
      bool_decide (Z.land (u8 (Z.lor 224 k)) 15 = k)) eq_refl k Hk) as H.
    apply andb_true_iff in H as [[H1 H2]%andb_true_iff H3%bool_decide_eq_true].
    apply negb_true_iff in H1. auto.
  - pose proof (below_16 (fun k => bit (u8 (Z.lor 240 k)) DEV_DEV && bit (u8 (Z.lor 240 k)) DEV_LBA &&
      bool_decide (Z.land (u8 (Z.lor 240 k)) 15 = k)) eq_refl k Hk) as H.
    apply andb_true_iff in H as [[H1 H2]%andb_true_iff H3%bool_decide_eq_true]. auto.
Qed.

Lemma lba_split sec : 0 <= sec < 2 ^ 28 ->
  u8 sec + 2 ^ 8 * u8 (Z.shiftr sec 8) + 2 ^ 16 * u8 (Z.shiftr sec 16) + 2 ^ 24 * (sec / 2 ^ 24) = sec.
Proof.
  intros Hs. rewrite !Z.shiftr_div_pow2 by lia. unfold u8.
  replace (sec / 2 ^ 24) with (sec / 2 ^ 8 / 2 ^ 8 / 2 ^ 8) by (by rewrite !Z.div_div by lia).
  replace (sec / 2 ^ 16) with (sec / 2 ^ 8 / 2 ^ 8) by (by rewrite Z.div_div by lia).
  pose proof (Z.div_mod sec (2 ^ 8)). pose proof (Z.div_mod (sec / 2 ^ 8) (2 ^ 8)).
  pose proof (Z.div_mod (sec / 2 ^ 8 / 2 ^ 8) (2 ^ 8)). lia.
Qed.

Lemma select_sector_ok m ch a i d sec : R m ch a -> has_disk ch i d -> a_phase a = Idle ->
  0 <= sec < 2 ^ 28 -> sec < capacity d ->
  exists m' a', select_sector (c, i) sec m = Ret (m', tt) /\ R m' ch a' /\ addressed a a' i sec.
Proof using Hc.
  intros HR Hd Hp Hsec Hcap. unfold select_sector, bind, guard. rewrite (get_disk m ch a i d) by done. cbn [rbind].
  destruct (get_disk_chan m ch a i d HR Hd) as [-> Eb]. cbn [rbind]. rewrite Eb, (hd_dev _ _ _ Hd).
  rewrite bool_decide_true by done. cbn [rbind]. rewrite bool_decide_true by (change (Z.shiftl 1 28) with (2 ^ 28); lia). cbn [rbind].
  destruct (select_wait_ok m ch a i d HR Hd Hp) as (m1 & -> & HR1). cbn [rbind].
  destruct (outb_reg m1 ch _ reg_nsect 1 HR1 Hp) as (m2 & -> & HR2); [auto|]. cbn [rbind].
  destruct (outb_reg m2 ch _ reg_lbal sec HR2 Hp) as (m3 & -> & HR3); [auto|]. cbn [rbind].
  destruct (outb_reg m3 ch _ reg_lbam (Z.shiftr sec 8) HR3 Hp) as (m4 & -> & HR4); [auto|]. cbn [rbind].
  destruct (outb_reg m4 ch _ reg_lbah (Z.shiftr sec 16) HR4 Hp) as (m5 & -> & HR5); [auto|]. cbn [rbind].
  fold (sector_value i sec). destruct (outb_device m5 ch _ (sector_value i sec) HR5 Hp) as (m6 & -> & HR6).
  eexists _, _. split; [done|]. split; [exact HR6|].
  destruct (sector_value_bits i sec (hd_no _ _ _ Hd) Hsec) as (B1 & B2 & B3).
  constructor; try done.
  - cbn. rewrite B1. destruct (hd_no _ _ _ Hd) as [-> | ->]; done.
  - unfold lba. cbn. rewrite B3. by apply lba_split.
Qed.

(** Issuing command [v], which makes the channel busy with [w]. *)
Lemma issue_ok m ch a v w : R m ch a -> a_phase a = Idle -> 0 <= v < 2 ^ 8 ->
  (forall x, out_ok reg_command v a x -> x = set_phase (Busy w) a) ->
  exists m', issue_pio_command c v m = Ret (m', tt) /\ R m' (set_expecting true ch) (set_phase (Busy w) a).
Proof using Hc.
  intros HR Hp Hv Hx. unfold issue_pio_command, bind, guard. rewrite (r_on _ _ _ _ _ _ HR). cbn [rbind].
  destruct (on_chan_rests m ch a (set_expecting true) HR) as (m1 & -> & HR1 & _); [by destruct HR|]. cbn [rbind].
  rewrite (get_chan m1 (set_expecting true ch)) by (by destruct HR1). cbn [rbind].
  replace (reg_base (set_expecting true ch)) with (base_of c) by (symmetry; apply HR).
  apply (outb_to m1 (set_expecting true ch) a); auto; [apply status_reg| |by destruct HR].
  rewrite u8_small by done. done.
Qed.
(** *** Reading and writing *)

Lemma wait_busy_still m ch a i d dr : R m ch a -> has_disk ch i d -> is_busy a = false -> selected a = Some dr ->
  exists m', wait_while_busy (c, i) m = Ret (m', has_drq a) /\ R m' ch a.
Proof using Hc.
  intros HR Hd Hb Hs. unfold wait_while_busy, bind. rewrite (get_disk m ch a i d) by done. cbn [rbind].
  destruct (get_disk_chan m ch a i d HR Hd) as [-> Eb]. cbn [rbind]. rewrite Eb. by eapply (busy_loop_still 2999).
Qed.

Lemma wait_busy_busy m ch a i d dr w : R m ch a -> has_disk ch i d -> a_phase a = Busy w -> expects w ch ->
  selected a = Some dr -> is_Some (selected (over w a)) ->
  exists m', wait_while_busy (c, i) m = Ret (m', has_drq (over w a)) /\ R m' (answered ch (finish w a)) (over w a).
Proof using Hc.
  intros HR Hd Hw Hx Hs Ho. unfold wait_while_busy, bind. rewrite (get_disk m ch a i d) by done. cbn [rbind].
  destruct (get_disk_chan m ch a i d HR Hd) as [-> Eb]. cbn [rbind]. rewrite Eb.
  eapply (busy_loop_busy w a d ch dr Hw Hx Hs Ho 3000 0 MAX_TICKS m HR); [|unfold MAX_TICKS; lia].
  destruct HR. subst a. by eapply left_range in Hw as [].
Qed.

(** The bytes of a sector. *)
Definition sector (b : list Z) : Prop := length b = 512%nat /\ Forall (fun x => 0 <= x < 2 ^ 8) b.

Lemma words_bytes n : forall b, length b = (2 * n)%nat -> Forall (fun x => 0 <= x < 2 ^ 8) b ->
  bytes_of (words_of b) = b /\ length (words_of b) = n /\ Forall (fun w => 0 <= w < 2 ^ 16) (words_of b).
Proof.
  induction n as [|n IH]; intros [|lo [|hi b']] Hl Hb; simpl in Hl; try lia; [done|].
  apply Forall_cons in Hb as [Hlo Hb]. apply Forall_cons in Hb as [Hhi Hb].
  destruct (IH b') as (E & El & Ew); [lia|done|]. split_and!.
  - unfold bytes_of in *. cbn [words_of mbind list_bind]. rewrite E. cbn [app].
    change (2 ^ 8) with 256 in *. rewrite (Z.mul_comm 256), Z.mod_add, Z.div_add, Z.mod_small, Z.div_small by lia. done.
  - simpl. by rewrite El.
  - simpl. constructor; [lia|done].
Qed.

Lemma input_ok m ch a ws : R m ch a -> a_phase a = DataIn ws -> length ws = 256%nat -> Forall (fun w => 0 <= w < 2 ^ 16) ws ->
  exists m', input_sector c m = Ret (m', bytes_of ws) /\ R m' ch (set_phase Idle a).
Proof using Hc.
  intros HR Hp Hl Hws. unfold input_sector, bind. rewrite (get_chan m ch) by (by destruct HR). cbn [rbind].
  replace (reg_base ch) with (base_of c) by (symmetry; apply HR).
  change (Z.to_nat (DISK_SECTOR_SIZE / 2)) with 256%nat. rewrite <- Hl.
  apply insw_ok; try done. by destruct ws.
Qed.

Lemma output_ok m ch a l b0 : R m ch a -> a_phase a = DataOut l [] -> sector b0 ->
  exists m', output_sector c b0 m = Ret (m', tt) /\ R m' ch (set_phase (Busy (WStore l (words_of b0))) a).
Proof using Hc.
  intros HR Hp [Hl Hb]. unfold output_sector, bind. rewrite (get_chan m ch) by (by destruct HR). cbn [rbind].
  replace (reg_base ch) with (base_of c) by (symmetry; apply HR).
  change (Z.to_nat (DISK_SECTOR_SIZE / 2)) with (S 255). by apply (outsw_ok ch l 255 a m b0 []).
Qed.
(** The driver's side of a channel nobody uses. *)
Definition unused (ch : channel) : Prop := lock ch = false /\ completion_wait ch = 0.

Lemma on_disk_rests m ch a i d f : R m ch a -> has_disk ch i d ->
  exists m', on_disk (c, i) f m = Ret (m', tt) /\ R m' (set_devices (<[Z.to_nat i := f d]> (devices ch)) ch) a.
Proof using Hc.
  intros HR Hd. unfold on_disk. cbn [fst snd]. pose proof (get_chan m ch (r_chans _ _ _ _ _ _ HR)) as Hg.
  pose proof (hd_at _ _ _ Hd) as Ha.
  destruct (on_chan_rests m ch a (set_devices (<[Z.to_nat i := f d]> (devices ch))) HR) as (m' & E & HR' & _); [by destruct HR|].
  unfold channel_at in Hg. unfold on_channel in E. destruct (aget (channels m) c); cbn [rbind] in *; simplify_eq.
  exists m'. split; [|done]. rewrite Ha. cbn [rbind]. apply aget_Ret in Ha as [H0 Ha]. pose proof (lookup_lt_Some _ _ _ Ha).
  rewrite aset_in_range by lia. done.
Qed.

(** The channel after a call that used disk [i]. *)
Definition used (f : disk -> disk) (i : Z) (d : disk) (ch : channel) : channel :=
  set_lock false (set_devices (<[Z.to_nat i := f d]> (devices ch)) (set_expecting true (set_lock true ch))).

Lemma chan_acquire_ok m ch a : R m ch a -> lock ch = false ->
  exists m', channel_acquire c m = Ret (m', tt) /\ R m' (set_lock true ch) a.
Proof using Hc.
  intros HR Hl. unfold channel_acquire, bind. rewrite (get_chan m ch) by (by destruct HR). cbn [rbind]. rewrite Hl.
  destruct (on_chan_rests m ch a (set_lock true) HR) as (m' & E & HR' & _); [by destruct HR|]. eauto.
Qed.

Lemma chan_release_ok m ch a : R m ch a -> lock ch = true ->
  exists m', channel_release c m = Ret (m', tt) /\ R m' (set_lock false ch) a.
Proof using Hc.
  intros HR Hl. unfold channel_release, bind, guard. rewrite (get_chan m ch) by (by destruct HR). cbn [rbind]. rewrite Hl.
  destruct (on_chan_rests m ch a (set_lock false) HR) as (m' & E & HR' & _); [by destruct HR|]. eauto.
Qed.

Lemma has_disk_keep ch ch' i d : devices ch' = devices ch -> has_disk ch i d -> has_disk ch' i d.
Proof. intros E []. constructor; try done. by rewrite E. Qed.

(** A drive that is there and answers. *)
Record serves (a : ata) (i : Z) (dr : drive) : Prop := {
  sv_drive : a_drives a i = Some dr;
  sv_ata : dr_ata dr = true
}.

Lemma addressed_command a a' i sec dr b0 x cmd w : addressed a a' i sec -> serves a i dr -> dr_media dr !! sec = Some b0 ->
  cmd = CMD_READ_SECTOR_RETRY /\ w = WRead (words_of b0) \/ cmd = CMD_WRITE_SECTOR_RETRY /\ w = WAccept sec ->
  out_ok reg_command cmd a' x -> x = set_phase (Busy w) a'.
Proof.
  intros [Hp Hdr Hs Hm Hn Hl] [Hd Ha] Hb Hcmd. unfold out_ok. rewrite Hp. intros (_ & _ & _ & Ho).
  destruct (Ho dr) as [_ Hrw]; [unfold selected; by rewrite Hdr, Hs|done|].
  destruct (Hrw b0) as [Hr Hw]; [by rewrite Hl|done..|].
  destruct Hcmd as [[-> ->]|[-> ->]]; [by apply Hr|]. rewrite <- Hl. by apply Hw.
Qed.
Context {patience : nat} (Hpat : MAX_TICKS <= Z.of_nat patience).

Lemma sema_down_busy m ch a w : R m ch a -> a_phase a = Busy w -> expects w ch -> a_irq (finish w a) = true -> completion_wait ch = 0 ->
  exists m', completion_down patience c m = Ret (m', tt) /\ R m' ch (over w a).
Proof using Hc Hpat.
  intros HR Hw Hx Hi H0. eapply (sema_wait_busy w a ch Hw Hx Hi H0 patience MAX_TICKS m HR); [|done].
  destruct HR. subst a. by eapply left_range in Hw as [].
Qed.

Theorem disk_read_ok m ch a i d dr sec b0 : R m ch a -> unused ch -> has_disk ch i d -> a_phase a = Idle ->
  serves a i dr -> dr_media dr !! sec = Some b0 -> sector b0 -> 0 <= sec < 2 ^ 28 -> sec < capacity d ->
  exists m' a', disk_read patience (Some (c, i)) sec m = Ret (m', b0) /\ R m' (used count_read i d ch) a' /\
    a_phase a' = Idle /\ a_drives a' = a_drives a.
Proof using Hc Hpat.
  intros HR [Hlk Hsm] Hd Hp Hsv Hm [Hbl Hbb] Hsec Hcap. unfold disk_read, bind.
  rewrite (get_disk m ch a i d) by done. cbn [rbind]. rewrite (hd_chan _ _ _ Hd).
  destruct (chan_acquire_ok m ch a HR Hlk) as (m1 & -> & HR1). cbn [rbind].
  destruct (select_sector_ok m1 _ a i d sec HR1) as (m2 & a2 & -> & HR2 & Had); [by apply (has_disk_keep ch)|done..|]. cbn [rbind].
  destruct (words_bytes 256 b0 Hbl Hbb) as (Ebb & Elen & Hws).
  destruct (issue_ok m2 _ a2 CMD_READ_SECTOR_RETRY (WRead (words_of b0)) HR2) as (m3 & -> & HR3);
    [by destruct Had|done|by intros; eapply addressed_command; eauto|]. cbn [rbind].
  destruct (sema_down_busy m3 _ _ (WRead (words_of b0)) HR3) as (m4 & -> & HR4); [done..|]. cbn [rbind].
  destruct (wait_busy_still m4 _ _ i d dr HR4) as (m5 & -> & HR5); [by apply (has_disk_keep ch)|done| |].
  { unfold selected. cbn. destruct Had, Hsv. congruence. }
  cbn [rbind]. unfold guard. cbn [has_drq over finish a_phase set_irq set_phase rbind].
  destruct (input_ok m5 _ _ (words_of b0) HR5) as (m6 & -> & HR6); [done..|]. cbn [rbind].
  destruct (on_disk_rests m6 _ _ i d count_read HR6) as (m7 & -> & HR7); [by apply (has_disk_keep ch)|]. cbn [rbind].
  destruct (chan_release_ok m7 _ _ HR7) as (m8 & -> & HR8); [done|]. cbn [rbind]. rewrite Ebb.
  eexists _, _. split; [done|]. split; [exact HR8|]. split; [done|]. by destruct Had.
Qed.

(** The drives after a sector of drive [i] was stored. *)
Definition stored (f : Z -> option drive) (i sec : Z) (b0 : list Z) : Z -> option drive :=
  fun j => if bool_decide (j = i) then (fun d => store d sec b0) <$> f j else f j.

Theorem disk_write_ok m ch a i d dr sec b0 old : R m ch a -> unused ch -> has_disk ch i d -> a_phase a = Idle ->
  serves a i dr -> dr_media dr !! sec = Some old -> sector b0 -> 0 <= sec < 2 ^ 28 -> sec < capacity d ->
  exists m' a', disk_write patience (Some (c, i)) sec b0 m = Ret (m', tt) /\ R m' (used count_write i d ch) a' /\
    a_phase a' = Idle /\ a_drives a' = stored (a_drives a) i sec b0.
Proof using Hc Hpat.
  intros HR [Hlk Hsm] Hd Hp Hsv Hm Hb0 Hsec Hcap. unfold disk_write, bind.
  rewrite (get_disk m ch a i d) by done. cbn [rbind]. rewrite (hd_chan _ _ _ Hd).
  destruct (chan_acquire_ok m ch a HR Hlk) as (m1 & -> & HR1). cbn [rbind].
  destruct (select_sector_ok m1 _ a i d sec HR1) as (m2 & a2 & -> & HR2 & Had); [by apply (has_disk_keep ch)|done..|]. cbn [rbind].
  destruct (issue_ok m2 _ a2 CMD_WRITE_SECTOR_RETRY (WAccept sec) HR2) as (m3 & -> & HR3);
    [by destruct Had|done|by intros; eapply addressed_command; eauto|]. cbn [rbind].
  assert (selected a2 = Some dr) as Hsel by (unfold selected; destruct Had, Hsv; congruence).
  assert (a_irq a2 = false) as Hirq by (by destruct HR2).
  destruct (wait_busy_busy m3 _ _ i d dr (WAccept sec) HR3) as (m4 & -> & HR4); [by apply (has_disk_keep ch)|done..|by exists dr|].
  cbn [rbind]. unfold guard. cbn [has_drq over finish a_phase set_irq set_phase rbind].
  unfold answered in HR4. cbn [finish a_irq set_phase] in HR4. rewrite Hirq in HR4.
  destruct (output_ok m4 _ _ sec b0 HR4) as (m5 & -> & HR5); [done..|]. cbn [rbind].
  destruct (sema_down_busy m5 _ _ (WStore sec (words_of b0)) HR5) as (m6 & -> & HR6); [done..|]. cbn [rbind].
  destruct (on_disk_rests m6 _ _ i d count_write HR6) as (m7 & -> & HR7); [by apply (has_disk_keep ch)|]. cbn [rbind].
  destruct (chan_release_ok m7 _ _ HR7) as (m8 & -> & HR8); [done|].
  eexists _, _. split; [done|]. split; [exact HR8|]. split; [done|].
  destruct Hb0 as [Hbl Hbb]. destruct (words_bytes 256 b0 Hbl Hbb) as (Ebb & _ & _).
  cbn [over finish a_drives set_irq set_phase set_drives a_sel]. rewrite Ebb. destruct Had as [_ -> -> _ _ _]. done.
Qed.
End Channel.
