(* ===== verification/DiskInit.v ===== *)
(** * Detecting the disks

    On every pair of ATA channels that is powered on and idle, [disk_init] returns, finds
    exactly the ATA drives that are there with the capacity they report, and leaves the
    channels ready and the sectors as they were. *)

From Stdlib Require Import String.
From S2P Require Import Prelude Stdlibc Disk Ata DiskProof.
#[local] Open Scope io_scope.

Section Detect.
Context {hw : Type} {B : Bus hw} {A : AtaBus hw B}.
Context (c : Z) (Hc : is_chan c) {other : channel} {b : ata} {hs : list Z}.
#[local] Abbreviation machine := (@machine hw).
#[local] Abbreviation R := (rests c other b hs).
#[local] Abbreviation has_disk := (has_disk c).

(** ** Presence *)

Definition present (a : ata) (i : Z) : bool := match a_drives a i with Some _ => true | None => false end.

Lemma reg_is_reg o : o = reg_error \/ o = reg_nsect \/ o = reg_lbal \/ o = reg_lbam \/ o = reg_lbah -> is_reg o.
Proof. unfold is_reg, reg_error, reg_nsect, reg_lbal, reg_lbam, reg_lbah. lia. Qed.

(** A register of an idle channel. *)
Lemma inb_idle m ch a o : R m ch a -> a_phase a = Idle -> is_reg o ->
  exists m' v, inb (base_of c + o) m = Ret (m', v) /\ R m' ch a /\ in_ok o a v a.
Proof using Hc.
  intros HR Hp Ho. assert (working a = false) as Hw by (unfold working; by rewrite Hp).
  destruct (inb_still c Hc m ch a o HR Hw Ho) as (m' & v & E & HR' & _ & Hok). eauto 10.
Qed.

Lemma detect_ok m ch a i d : R m ch a -> has_disk ch i d -> a_phase a = Idle ->
  exists m' a', detect (c, i) m = Ret (m', present a i) /\ R m' ch a' /\ a_phase a' = Idle /\ a_drives a' = a_drives a.
Proof using Hc.
  intros HR Hd Hp. unfold detect, bind. cbn [fst]. rewrite (get_chan c Hc m ch) by (by destruct HR). cbn [rbind].
  replace (reg_base ch) with (base_of c) by (symmetry; apply HR).
  destruct (select_device_ok c Hc m ch a i d HR Hd Hp) as (m1 & -> & HR1). cbn [rbind].
  destruct (outb_reg c Hc m1 ch _ reg_nsect 0x55 HR1 Hp) as (m2 & -> & HR2); [auto|]. cbn [rbind].
  destruct (outb_reg c Hc m2 ch _ reg_lbal 0xaa HR2 Hp) as (m3 & -> & HR3); [auto|]. cbn [rbind].
  destruct (outb_reg c Hc m3 ch _ reg_nsect 0xaa HR3 Hp) as (m4 & -> & HR4); [auto|]. cbn [rbind].
  destruct (outb_reg c Hc m4 ch _ reg_lbal 0x55 HR4 Hp) as (m5 & -> & HR5); [auto|]. cbn [rbind].
  destruct (outb_reg c Hc m5 ch _ reg_nsect 0x55 HR5 Hp) as (m6 & -> & HR6); [auto|]. cbn [rbind].
  destruct (outb_reg c Hc m6 ch _ reg_lbal 0xaa HR6 Hp) as (m7 & -> & HR7); [auto|]. cbn [rbind].
  destruct (inb_idle m7 ch _ reg_nsect HR7 Hp) as (m8 & n & -> & HR8 & (_ & _ & Hn)); [apply reg_is_reg; auto|]. cbn [rbind].
  specialize (Hn Hp). unfold selected in Hn. cbn [a_drives set_reg a_sel a_sig] in Hn.
  rewrite (select_value_sel i a) in Hn by (by destruct Hd). cbn [a_drives set_device] in Hn.
  unfold present. destruct (a_drives a i) as [dr|] eqn:Ed.
  - destruct Hn as [Hn _]. rewrite Hn by done. rewrite bool_decide_true by done.
    destruct (inb_idle m8 ch _ reg_lbal HR8 Hp) as (m9 & l & -> & HR9 & (_ & _ & Hl)); [apply reg_is_reg; auto|]. cbn [rbind].
    specialize (Hl Hp). unfold selected in Hl. cbn [a_drives set_reg a_sel a_sig] in Hl.
    rewrite (select_value_sel i a) in Hl by (by destruct Hd). cbn [a_drives set_device] in Hl. rewrite Ed in Hl.
    destruct Hl as [_ Hl]. rewrite Hl by done. rewrite bool_decide_true by done.
    eexists _, _. split; [done|]. split; [exact HR9|]. done.
  - rewrite bool_decide_false by (by apply Hn). eexists _, _. split; [done|]. split; [exact HR8|]. done.
Qed.

(** ** Reset *)

(** The registers hold the signatures of the drives. *)
Record fresh (drives : Z -> option drive) (a : ata) : Prop := {
  fr_phase : a_phase a = Idle;
  fr_sig : a_sig a = true;
  fr_drives : a_drives a = drives
}.

Definition resetting (a : ata) : Prop := a_phase a = Busy WReset.

(** Still resetting as in state [a], or done with drive 0 selected. *)
Definition reset_or_done (a x : ata) : Prop := x = a \/ fresh (a_drives a) x /\ a_sel x = 0.

Lemma over_reset a : fresh (a_drives a) (over WReset a) /\ a_sel (over WReset a) = 0.
Proof. done. Qed.

Lemma progress_reset a ch t m a' : R m ch a -> resetting a -> forall m', progress c a WReset ch t m' a' (other := other) (b := b) (hs := hs) ->
  exists x, R m' ch x /\ reset_or_done a x.
Proof.
  intros HR Ha m' [(-> & HR' & _)|[-> HR']]; [exists a; split; [done|by left]|].
  unfold answered in HR'. cbn [finish] in HR'.
  assert (a_irq a = false) as Hi by (by destruct HR). cbn [a_irq set_sig set_phase] in HR'. rewrite Hi in HR'.
  exists (over WReset a). split; [done|]. right. apply over_reset.
Qed.

Definition in_reset (a : ata) (ch : channel) (m : machine) : Prop := exists x, R m ch x /\ reset_or_done a x.

Lemma fresh_still drives x : fresh drives x -> working x = false.
Proof. intros []. unfold working. by rewrite fr_phase0. Qed.

Lemma runs_reset a ch m h' dt : resetting a -> in_reset a ch m -> 0 <= dt -> (forall k, is_chan k -> runs view left (hardware m) h' k dt) ->
  exists m', deliver (set_hardware h' m) = Ret (m', tt) /\ in_reset a ch m'.
Proof using Hc.
  intros Ha (x & HR & Hx) Hdt Hr. destruct Hx as [->|[Hf Hs]].
  - destruct (runs_busy c Hc m ch a WReset h' dt _ HR Ha I Hr (Z.le_refl _)) as (m' & a' & E & Hp).
    exists m'. split; [done|]. by eapply progress_reset.
  - destruct (runs_still c Hc m ch x h' dt HR) as (m' & E & HR'); [by eapply fresh_still|done|].
    exists m'. split; [done|]. exists x. split; [done|]. by right.
Qed.

Lemma sleep_reset a ch n : resetting a -> forall m, in_reset a ch m ->
  exists m', sleep_ticks n m = Ret (m', tt) /\ in_reset a ch m'.
Proof using Hc.
  intros Ha. induction n as [|n IH]; intros m Hm; [by exists m|]. cbn [sleep_ticks]. unfold bind.
  destruct (runs_reset a ch m (bus_tick (hardware m)) 1 Ha Hm) as (m1 & E & Hm1); [lia|intros; by apply tick_law|].
  assert (tick m = Ret (m1, tt)) as -> by (unfold tick, bind, modify; by rewrite <- E). cbn [rbind]. by apply IH.
Qed.

Lemma real_time_reset a ch m num denom : resetting a -> in_reset a ch m -> Z.rem denom 1000 = 0 ->
  exists m', real_time_sleep num denom m = Ret (m', tt) /\ in_reset a ch m'.
Proof using Hc.
  intros Ha Hm Hd. assert (intr_on m = true) as Hon by (destruct Hm as (x & [] & _); done).
  unfold real_time_sleep, bind, guard. rewrite Hon. cbn [rbind].
  case_bool_decide; [by apply sleep_reset|]. rewrite bool_decide_true by done. cbn [rbind].
  apply (runs_reset a ch m _ 0 Ha Hm); [done|]. intros. by apply spin_law.
Qed.

(** The device register is written: without effect, or when the reset is over. *)
Lemma outb_device_reset a ch m : resetting a -> in_reset a ch m ->
  exists m', outb (base_of c + reg_device) (select_value 0) m = Ret (m', tt) /\ in_reset a ch m'.
Proof using Hc.
  intros Ha (x & HR & Hx).
  assert (forall f, fresh (a_drives a) f -> fresh (a_drives a) (set_device (u8 (select_value 0)) f) /\ a_sel (set_device (u8 (select_value 0)) f) = 0) as Hset.
  { intros f []. split; [by constructor|done]. }
  destruct Hx as [->|[Hf Hs]].
  - unfold outb, bind, modify. cbn [rbind].
    assert (is_reg reg_device) as Hreg by (unfold is_reg, reg_device; lia).
    destruct (step_busy c Hc m ch a WReset _ _ HR Ha (outb_law (hardware m) c reg_device (u8 (select_value 0)) Hc Hreg)) as [Hs Ho].
    assert (a_irq a = false) as Hi by (by destruct HR).
    destruct Hs as [[Hs _]|Hs].
    + unfold out_ok in Hs. rewrite Ha in Hs. specialize (Hs eq_refl).
      destruct (rests_quiet_to c Hc m ch a _ a HR Hs Ho Hi) as (m' & E & HR').
      exists m'. split; [done|]. exists a. split; [done|by left].
    + unfold out_ok in Hs. cbn [a_phase finish set_sig set_phase] in Hs. destruct Hs as [Hs _]. specialize (Hs eq_refl).
      destruct (rests_quiet_to c Hc m ch a _ _ HR Hs Ho) as (m' & E & HR'); [done|].
      exists m'. split; [done|]. eexists. split; [exact HR'|]. right. apply Hset. by constructor.
  - destruct (outb_device c Hc m ch x (select_value 0) HR) as (m' & E & HR'); [by destruct Hf|].
    exists m'. split; [done|]. eexists. split; [exact HR'|]. right. by apply Hset.
Qed.

Lemma inb_alt_reset a ch m : resetting a -> in_reset a ch m ->
  exists m' v, inb (base_of c + reg_alt_status) m = Ret (m', v) /\ in_reset a ch m'.
Proof using Hc.
  intros Ha (x & HR & Hx). destruct alt_status_reg as [Hr Hne]. destruct Hx as [->|[Hf Hs]].
  - destruct (inb_busy c Hc m ch a WReset reg_alt_status _ HR Ha I Hr Hne (Z.le_refl _)) as (m' & v & a' & E & Hp & _).
    exists m', v. split; [done|]. by eapply progress_reset.
  - destruct (inb_still c Hc m ch x reg_alt_status HR) as (m' & v & E & HR' & _); [by eapply fresh_still|done|].
    exists m', v. split; [done|]. exists x. split; [done|]. by right.
Qed.

Lemma select_device_reset a ch m d : resetting a -> has_disk ch 0 d -> in_reset a ch m ->
  exists m', select_device (c, 0) m = Ret (m', tt) /\ in_reset a ch m'.
Proof using Hc.
  intros Ha Hd Hm. assert (Hm' := Hm). destruct Hm' as (x & HR & _).
  unfold select_device, bind. rewrite (get_disk c Hc m ch x 0 d) by done. cbn [rbind].
  destruct (get_disk_chan c Hc m ch x 0 d HR Hd) as [-> Eb]. cbn [rbind]. rewrite Eb, (hd_dev _ _ _ _ Hd).
  change (if bool_decide (0 = 1) then Z.lor DEV_MBS DEV_DEV else DEV_MBS) with (select_value 0).
  destruct (outb_device_reset a ch m Ha Hm) as (m1 & -> & Hm1). cbn [rbind].
  destruct (inb_alt_reset a ch m1 Ha Hm1) as (m2 & v & -> & Hm2). cbn [rbind].
  by apply real_time_reset.
Qed.

(** Drive 0 is there: the wait ends with the reset. *)
Lemma wait_reset a ch m d dr : resetting a -> has_disk ch 0 d -> a_drives a 0 = Some dr -> selected a = Some dr -> in_reset a ch m ->
  exists m' v f, wait_while_busy (c, 0) m = Ret (m', v) /\ R m' ch f /\ fresh (a_drives a) f.
Proof using Hc.
  intros Ha Hd Hdr Hsel (x & HR & Hx). destruct Hx as [->|[Hf Hs]].
  - destruct (wait_busy_busy c Hc m ch a 0 d dr WReset HR Hd Ha I Hsel) as (m' & E & HR').
    { exists dr. done. }
    assert (a_irq a = false) as Hi by (by destruct HR).
    unfold answered in HR'. cbn [finish a_irq set_sig set_phase] in HR'. rewrite Hi in HR'.
    eexists _, _, _. split; [done|]. split; [done|]. apply over_reset.
  - destruct (wait_busy_still c Hc m ch x 0 d dr HR Hd) as (m' & E & HR').
    { unfold is_busy. by destruct Hf as [-> _ _]. }
    { unfold selected. by rewrite Hs, (fr_drives _ _ Hf). }
    eexists _, _, _. split; [done|]. eauto.
Qed.
Lemma ctl_reg : is_reg reg_ctl.
Proof. unfold is_reg. auto. Qed.

Lemma outb_ctl m ch a v : R m ch a -> a_phase a = Idle -> v = 0 \/ v = CTL_SRST ->
  exists m', outb (base_of c + reg_ctl) v m = Ret (m', tt) /\
    R m' ch (if bit v CTL_SRST && occupied a then begin_reset a else a).
Proof using Hc.
  intros HR Hp Hv. apply (outb_to c Hc m ch a); auto using ctl_reg.
  - replace (u8 v) with v by (by destruct Hv as [-> | ->]). unfold out_ok. rewrite Hp. intros x (_ & _ & Hx & _). by apply Hx.
  - destruct (bit v CTL_SRST && occupied a); by destruct HR.
Qed.

(** The end of the reset pulse. *)
Lemma outb_ctl_end m ch a : R m ch (begin_reset a) ->
  exists m', outb (base_of c + reg_ctl) 0 m = Ret (m', tt) /\ R m' ch (set_phase (Busy WReset) (begin_reset a)).
Proof using Hc.
  intros HR. apply (outb_to c Hc m ch (begin_reset a)); try apply ctl_reg; try done; [by right| |by destruct HR].
  unfold out_ok. cbn [a_phase begin_reset set_sig set_phase]. intros x Hx. by apply Hx.
Qed.

Lemma signature_ok n m ch a dr : R m ch a -> fresh (a_drives a) a -> selected a = Some dr ->
  exists m', signature_loop (S n) (base_of c) m = Ret (m', tt) /\ R m' ch a.
Proof using Hc.
  intros HR [Hp Hs _] Hd. cbn [signature_loop]. unfold bind at 1.
  destruct (inb_idle m ch a reg_nsect HR Hp) as (m1 & v & -> & HR1 & (_ & _ & Hv)); [apply reg_is_reg; auto|]. cbn [rbind].
  specialize (Hv Hp). rewrite Hd, Hs in Hv. destruct Hv as [Hv _]. rewrite Hv by auto. rewrite bool_decide_true by done.
  unfold bind at 1. unfold bind at 1.
  destruct (inb_idle m1 ch a reg_lbal HR1 Hp) as (m2 & v2 & -> & HR2 & (_ & _ & Hv2)); [apply reg_is_reg; auto|]. cbn [rbind].
  specialize (Hv2 Hp). rewrite Hd, Hs in Hv2. destruct Hv2 as [Hv2 _]. rewrite Hv2 by auto.
  unfold ret. cbn [rbind]. rewrite bool_decide_true by done. by exists m2.
Qed.

(** A channel has a slave only beside a master. *)
Definition proper (drives : Z -> option drive) : Prop := drives 0 = None -> drives 1 = None.

(** The wait for the slave. *)
Lemma slave_ok m ch a d1 dr : R m ch a -> has_disk ch 1 d1 -> fresh (a_drives a) a -> a_drives a 1 = Some dr ->
  exists m' a', (run! select_device (c, 1); run! signature_loop 3000 (base_of c); run! wait_while_busy (c, 1); ret tt) m = Ret (m', tt) /\
    R m' ch a' /\ fresh (a_drives a) a'.
Proof using Hc.
  intros HR Hd Hf Hdr. unfold bind. destruct (select_device_ok c Hc m ch a 1 d1 HR Hd) as (m1 & -> & HR1); [by destruct Hf|]. cbn [rbind].
  assert (fresh (a_drives a) (set_device (select_value 1) a)) as Hf1 by (destruct Hf; by constructor).
  assert (selected (set_device (select_value 1) a) = Some dr) as Hsel by done.
  destruct (signature_ok 2999 m1 ch _ dr HR1 Hf1 Hsel) as (m2 & -> & HR2). cbn [rbind].
  destruct (wait_busy_still c Hc m2 ch _ 1 d1 dr HR2 Hd) as (m3 & -> & HR3); [unfold is_busy; by destruct Hf1 as [-> _ _]|done|].
  cbn [rbind]. eauto.
Qed.
Lemma usleep_still m ch a us : R m ch a -> working a = false -> exists m', timer_usleep us m = Ret (m', tt) /\ R m' ch a.
Proof using Hc. intros. by apply (real_time_still c Hc). Qed.

Lemma reset_channel_ok m ch a d0 d1 : R m ch a -> a_phase a = Idle -> has_disk ch 0 d0 -> has_disk ch 1 d1 -> proper (a_drives a) ->
  exists m' a', reset_channel c m = Ret (m', tt) /\ R m' ch a' /\ a_phase a' = Idle /\ a_drives a' = a_drives a /\
    (occupied a = true -> a_sig a' = true).
Proof using Hc.
  intros HR Hp Hd0 Hd1 Hpr. unfold reset_channel, bind. rewrite (get_chan c Hc m ch) by (by destruct HR). cbn [rbind].
  replace (reg_base ch) with (base_of c) by (symmetry; apply HR).
  destruct (detect_ok m ch a 0 d0 HR Hd0 Hp) as (m1 & a1 & -> & HR1 & Hp1 & Ed1). cbn [rbind].
  destruct (detect_ok m1 ch a1 1 d1 HR1 Hd1 Hp1) as (m2 & a2 & -> & HR2 & Hp2 & Ed2). cbn [rbind].
  assert (a_drives a2 = a_drives a) as Ed by congruence.
  assert (forall i, present a1 i = present a i) as Epr by (intros; unfold present; by rewrite Ed1). rewrite Epr.
  assert (working a2 = false) as Hw2 by (unfold working; by rewrite Hp2).
  destruct (outb_ctl m2 ch a2 0 HR2 Hp2) as (m3 & -> & HR3); [auto|]. cbn [rbind bit].
  destruct (usleep_still m3 ch a2 10 HR3 Hw2) as (m4 & -> & HR4). cbn [rbind].
  destruct (outb_ctl m4 ch a2 CTL_SRST HR4 Hp2) as (m5 & -> & HR5); [auto|]. cbn [rbind].
  change (bit CTL_SRST CTL_SRST) with true in HR5. cbn [andb] in HR5.
  assert (occupied a2 = occupied a) as Eo by (unfold occupied; by rewrite Ed). rewrite Eo in HR5.
  destruct (occupied a) eqn:Eocc.
  - (* drive 0 is there *)
    destruct (usleep_still m5 ch _ 10 HR5) as (m6 & -> & HR6); [done|]. cbn [rbind].
    destruct (outb_ctl_end m6 ch a2 HR6) as (m7 & -> & HR7). cbn [rbind].
    set (x := set_phase (Busy WReset) (begin_reset a2)) in *.
    assert (in_reset x ch m7) as Hm7 by (exists x; split; [done|by left]).
    destruct (real_time_reset x ch m7 150 1000 eq_refl Hm7 eq_refl) as (m8 & E8 & Hm8).
    fold (@timer_msleep hw B 150) in E8. rewrite E8. cbn [rbind].
    assert (exists dr, a_drives a 0 = Some dr) as [dr Edr].
    { destruct (a_drives a 0) eqn:E0; [eauto|]. unfold occupied in Eocc. by rewrite E0, (Hpr E0) in Eocc. }
    assert (present a 0 = true) as -> by (unfold present; by rewrite Edr).
    destruct (select_device_reset x ch m8 d0 eq_refl Hd0 Hm8) as (m9 & -> & Hm9). cbn [rbind].
    destruct (wait_reset x ch m9 d0 dr eq_refl Hd0) as (m10 & v & f & -> & HR10 & Hf); [by simpl; rewrite Ed..|done|].
    cbn [rbind]. unfold ret at 1. cbn [rbind].
    change (a_drives x) with (a_drives a2) in Hf. rewrite Ed in Hf. pose proof (fr_drives _ _ Hf) as Ef.
    unfold present at 1. destruct (a_drives a 1) as [dr1|] eqn:E1.
    + destruct (slave_ok m10 ch f d1 dr1 HR10 Hd1) as (m11 & a' & E11 & HR11 & Hf11); [by rewrite Ef|by rewrite Ef|].
      exists m11, a'. split; [exact E11|]. rewrite Ef in Hf11. destruct Hf11. auto.
    + exists m10, f. destruct Hf. auto.
  - (* nobody is there *)
    destruct (usleep_still m5 ch a2 10 HR5 Hw2) as (m6 & -> & HR6). cbn [rbind].
    destruct (outb_ctl m6 ch a2 0 HR6 Hp2) as (m7 & -> & HR7); [auto|]. cbn [rbind].
    destruct (real_time_still c Hc m7 ch a2 150 1000 HR7 Hw2 eq_refl) as (m8 & E8 & HR8).
    fold (@timer_msleep hw B 150) in E8. rewrite E8. cbn [rbind].
    unfold occupied in Eocc. unfold present. destruct (a_drives a 0), (a_drives a 1); try done.
    exists m8, a2. split_and!; done.
Qed.

(** ** Device types *)

Definition is_ata_drive (drives : Z -> option drive) (i : Z) : bool :=
  match drives i with Some d => dr_ata d | None => false end.

Definition typed (i : Z) (d : disk) (q : bool) (ch : channel) : channel :=
  set_devices (<[Z.to_nat i := set_is_ata q d]> (devices ch)) ch.

Lemma device_type_present dr i e lm lh st : signature dr reg_error e -> signature dr reg_lbam lm -> signature dr reg_lbah lh ->
  bit st STA_BSY = false -> (dr_ata dr = true -> bit st STA_DRDY = true) ->
  device_type i e lm lh st = (dr_ata dr, true).
Proof.
  intros [He _] (_ & Hm & _) (_ & _ & Hh) Hb Hr. rewrite He, Hm, Hh by auto. unfold device_type. rewrite Hb.
  destruct (dr_ata dr); [by rewrite Hr|]. by destruct (bit st STA_DRDY).
Qed.

Lemma device_type_absent i e lm lh st : bit st STA_BSY = true \/ bit st STA_DRDY = false -> fst (device_type i e lm lh st) = false.
Proof.
  intros Hs. unfold device_type. assert (negb (bit st STA_DRDY) || bit st STA_BSY = true) as E.
  { destruct Hs as [-> | ->]; [apply orb_true_r|done]. }
  rewrite <- orb_assoc, E, orb_true_r. done.
Qed.

Lemma check_device_type_ok m ch a i d : R m ch a -> a_phase a = Idle -> has_disk ch i d -> (present a i = true -> a_sig a = true) ->
  exists m' s a', check_device_type (c, i) m = Ret (m', s) /\ R m' (typed i d (is_ata_drive (a_drives a) i) ch) a' /\
    a_phase a' = Idle /\ a_drives a' = a_drives a /\ a_sig a' = a_sig a /\ (present a i = true -> s = true).
Proof using Hc.
  intros HR Hp Hd Hsig. unfold check_device_type, bind. rewrite (get_disk c Hc m ch a i d) by done. cbn [rbind].
  destruct (get_disk_chan c Hc m ch a i d HR Hd) as [-> Eb]. cbn [rbind]. rewrite Eb, (hd_dev _ _ _ _ Hd).
  destruct (select_device_ok c Hc m ch a i d HR Hd Hp) as (m1 & -> & HR1). cbn [rbind].
  set (x := set_device (select_value i) a) in *.
  destruct (inb_idle m1 ch x reg_error HR1 Hp) as (m2 & e & -> & HR2 & (_ & _ & He)); [apply reg_is_reg; auto|]. cbn [rbind].
  destruct (inb_idle m2 ch x reg_lbam HR2 Hp) as (m3 & lm & -> & HR3 & (_ & _ & Hm)); [apply reg_is_reg; auto|]. cbn [rbind].
  destruct (inb_idle m3 ch x reg_lbah HR3 Hp) as (m4 & lh & -> & HR4 & (_ & _ & Hh)); [apply reg_is_reg; auto 10|]. cbn [rbind].
  destruct (inb_idle m4 ch x reg_status HR4 Hp) as (m5 & st & -> & HR5 & (_ & Hst & _)); [apply status_reg|]. cbn [rbind].
  specialize (Hst (or_introl eq_refl)).
  assert (selected x = a_drives a i) as Hsel by (unfold selected, x; by rewrite select_value_sel by (by destruct Hd)).
  assert (exists s, device_type i e lm lh st = (is_ata_drive (a_drives a) i, s) /\ (present a i = true -> s = true)) as (s & Edt & Hs).
  { specialize (He Hp). specialize (Hm Hp). specialize (Hh Hp). unfold status_ok in Hst. rewrite Hsel in *.
    unfold present, is_ata_drive in *. destruct (a_drives a i) as [dr|].
    - change (a_sig x) with (a_sig a) in *. rewrite Hsig in * by done. destruct Hst as [Hb Hq].
      assert (is_busy x = false) as Hbx by (unfold is_busy, x; cbn; by rewrite Hp). rewrite Hbx in *.
      exists true. split; [|done]. apply device_type_present; auto. by apply Hq.
    - destruct (device_type i e lm lh st) as [q s] eqn:Ed. exists s. split; [|done]. f_equal.
      pose proof (device_type_absent i e lm lh st Hst) as Hf. by rewrite Ed in Hf. }
  rewrite Edt. destruct (on_disk_rests c Hc m5 ch x i d (set_is_ata (is_ata_drive (a_drives a) i)) HR5 Hd) as (m6 & -> & HR6).
  cbn [rbind]. exists m6, s, x. split_and!; done.
Qed.
(** ** Identification *)

Lemma nth_bytes ws : forall i, nth (2 * i) (bytes_of ws) 0 = nth i ws 0 mod 2 ^ 8 /\ nth (2 * i + 1) (bytes_of ws) 0 = nth i ws 0 / 2 ^ 8.
Proof.
  induction ws as [|w ws IH]; intros [|i]; [done..| |].
  - unfold bytes_of. by cbn.
  - replace (2 * S i)%nat with (S (S (2 * i))) by lia. replace (S (S (2 * i)) + 1)%nat with (S (S (2 * i + 1))) by lia.
    unfold bytes_of in *. cbn [mbind list_bind app nth]. apply IH.
Qed.

Lemma id_word_bytes ws i : Forall (fun w => 0 <= w < 2 ^ 16) ws -> id_word (bytes_of ws) i = nth i ws 0.
Proof.
  intros Hws. unfold id_word. destruct (nth_bytes ws i) as [-> ->].
  rewrite lor_shift_add by (try lia; apply Z.mod_pos_bound; lia). symmetry. rewrite Z.add_comm. apply Z.div_mod. lia.
Qed.

(** The number of sectors a drive reports. *)
Definition drive_size (d : drive) : Z := nth 60 (dr_id d) 0 + 2 ^ 16 * nth 61 (dr_id d) 0.

Definition good_id (d : drive) : Prop := length (dr_id d) = 256%nat /\ Forall (fun w => 0 <= w < 2 ^ 16) (dr_id d).

Lemma nth_word ws i : Forall (fun w => 0 <= w < 2 ^ 16) ws -> 0 <= nth i ws 0 < 2 ^ 16.
Proof.
  intros Hws. destruct (decide (i < length ws)%nat) as [Hi|Hi]; [|rewrite nth_overflow by lia; lia].
  rewrite Forall_forall in Hws. apply Hws, list_elem_of_In, nth_In. done.
Qed.

(** Computations that only print. *)
Definition prints (x : @io hw unit) : Prop := forall m, exists l, x m = Ret (mkMachine (hardware m) (channels m) (intr_on m) (handlers m) (loops_per_tick m) l, tt).

Lemma prints_rests x m ch a : prints x -> R m ch a -> exists m', x m = Ret (m', tt) /\ R m' ch a.
Proof. intros Hx []. destruct (Hx m) as [l E]. eexists. split; [done|]. by constructor. Qed.

Lemma prints_printf s l : prints (kprintf s l).
Proof. intros m. by eexists. Qed.
Lemma prints_ret : prints (ret tt).
Proof. intros m. exists (output m). by destruct m. Qed.
Lemma prints_bind x y : prints x -> prints y -> prints (run! x; y).
Proof.
  intros Hx Hy m. unfold bind. destruct (Hx m) as [l ->]. cbn [rbind].
  destruct (Hy (mkMachine (hardware m) (channels m) (intr_on m) (handlers m) (loops_per_tick m) l)) as [l' ->]. by exists l'.
Qed.
Lemma prints_chars s n : forall i, prints (print_chars s i n).
Proof. induction n as [|n IH]; intros i; cbn [print_chars]; [apply prints_ret|]. apply prints_bind; [apply prints_printf|apply IH]. Qed.
Lemma prints_size n : prints (print_size n).
Proof. unfold print_size. repeat case_bool_decide; apply prints_printf. Qed.

Definition sized (i : Z) (d : disk) (n : Z) (ch : channel) : channel :=
  set_devices (<[Z.to_nat i := set_capacity n d]> (devices ch)) (set_expecting true ch).

Context {patience : nat} (Hpat : MAX_TICKS <= Z.of_nat patience).

Lemma identify_ok m ch a i d dr : R m ch a -> a_phase a = Idle -> has_disk ch i d -> is_ata d = true -> completion_wait ch = 0 ->
  serves a i dr -> good_id dr ->
  exists m' a', identify_ata_device patience (c, i) m = Ret (m', tt) /\ R m' (sized i d (drive_size dr) ch) a' /\
    a_phase a' = Idle /\ a_drives a' = a_drives a.
Proof using Hc Hpat.
  intros HR Hp Hd Hat Hsm [Hdr Hata] [Hlen Hws]. unfold identify_ata_device, bind at 1. rewrite (get_disk c Hc m ch a i d) by done.
  cbn [rbind]. rewrite (hd_chan _ _ _ _ Hd), Hat. unfold bind at 1, guard. cbn [rbind]. unfold bind at 1.
  destruct (select_wait_ok c Hc m ch a i d HR Hd Hp) as (m1 & -> & HR1). cbn [rbind]. unfold bind at 1.
  set (x := set_device (select_value i) a) in *.
  assert (selected x = Some dr) as Hsel by (unfold selected, x; by rewrite select_value_sel by (by destruct Hd)).
  destruct (issue_ok c Hc m1 ch x CMD_IDENTIFY_DEVICE (WRead (dr_id dr)) HR1) as (m2 & -> & HR2); [done..| |].
  { unfold out_ok, x. cbn [a_phase set_device]. rewrite Hp. intros y (_ & _ & _ & Ho). by destruct (Ho dr Hsel Hata) as [-> _]. }
  cbn [rbind]. unfold bind at 1.
  destruct (sema_down_busy c Hc Hpat m2 _ _ (WRead (dr_id dr)) HR2) as (m3 & -> & HR3); [done..|]. cbn [rbind]. unfold bind at 1.
  destruct (wait_busy_still c Hc m3 _ _ i d dr HR3) as (m4 & -> & HR4); [by apply (has_disk_keep c ch)|done..|].
  cbn [rbind has_drq over finish a_phase set_irq set_phase negb]. unfold bind at 1.
  destruct (input_ok c Hc m4 _ _ (dr_id dr) HR4) as (m5 & -> & HR5); [done..|]. cbn [rbind].
  pose proof (nth_word (dr_id dr) 60 Hws). pose proof (nth_word (dr_id dr) 61 Hws).
  rewrite !id_word_bytes, lor_shift_add by (done || lia). fold (drive_size dr). unfold bind at 1.
  destruct (on_disk_rests c Hc m5 _ _ i d (set_capacity (drive_size dr)) HR5) as (m6 & -> & HR6); [by apply (has_disk_keep c ch)|].
  cbn [rbind]. eapply prints_rests in HR6 as (m7 & -> & HR7).
  - eexists _, _. split; [done|]. split; [exact HR7|]. done.
  - repeat first [apply prints_bind|apply prints_printf|apply prints_size|apply prints_chars].
Qed.
(** ** Setting up a channel *)

(** The channel is not in use and its disks are [d0] and [d1]. *)
Record carries (ch : channel) (d0 d1 : disk) : Prop := {
  ca_unused : unused ch;
  ca_disks : devices ch = [d0; d1];
  ca_0 : channel_of d0 = c /\ dev_no d0 = 0;
  ca_1 : channel_of d1 = c /\ dev_no d1 = 1
}.

Lemma carries_0 ch d0 d1 : carries ch d0 d1 -> has_disk ch 0 d0.
Proof. intros [_ E [] _]. constructor; auto. by rewrite E. Qed.
Lemma carries_1 ch d0 d1 : carries ch d0 d1 -> has_disk ch 1 d1.
Proof. intros [_ E _ []]. constructor; auto. by rewrite E. Qed.

Definition slot {T} (i : Z) (x y : T) : T := if bool_decide (i = 0) then x else y.

Lemma carries_set ch ch' d0 d1 i d : carries ch d0 d1 -> i = 0 \/ i = 1 ->
  devices ch' = <[Z.to_nat i := d]> (devices ch) -> unused ch' -> channel_of d = c -> dev_no d = i ->
  carries ch' (slot i d d0) (slot i d1 d).
Proof. intros [Hu E H0 H1] [-> | ->] Ed Hu' Hch Hno; rewrite E in Ed; constructor; auto. Qed.

(** What the driver knows of drive [i]. *)
Definition found (drives : Z -> option drive) (i : Z) (d : disk) : Prop :=
  is_ata d = is_ata_drive drives i /\
  capacity d = match drives i with Some dr => if dr_ata dr then drive_size dr else 0 | None => 0 end.

Definition good_ids (drives : Z -> option drive) : Prop := forall i dr, drives i = Some dr -> dr_ata dr = true -> good_id dr.

Lemma identify_slot m ch a d0 d1 i : R m ch a -> a_phase a = Idle -> carries ch d0 d1 -> i = 0 \/ i = 1 ->
  is_ata (slot i d0 d1) = is_ata_drive (a_drives a) i -> capacity (slot i d0 d1) = 0 -> good_ids (a_drives a) ->
  exists m' ch' a' d, (do! d := disk_at (c, i) in if is_ata d then identify_ata_device patience (c, i) else ret tt) m = Ret (m', tt) /\
    R m' ch' a' /\ a_phase a' = Idle /\ a_drives a' = a_drives a /\ carries ch' (slot i d d0) (slot i d1 d) /\ found (a_drives a) i d.
Proof using Hc Hpat.
  intros HR Hp Hca Hi Hat Hcap Hids.
  assert (has_disk ch i (slot i d0 d1)) as Hd by (destruct Hi as [-> | ->]; [by eapply carries_0|by eapply carries_1]).
  unfold bind. rewrite (get_disk c Hc m ch a i (slot i d0 d1) HR Hd). cbn [rbind].
  unfold is_ata_drive in Hat. unfold found, is_ata_drive.
  destruct (is_ata (slot i d0 d1)) eqn:Ea.
  - destruct (a_drives a i) as [dr|] eqn:Edr; [|done].
    destruct (identify_ok m ch a i (slot i d0 d1) dr HR Hp Hd Ea) as (m' & a' & E & HR' & Hp' & Ed');
      [by destruct Hca as [[]]|by constructor|by eapply Hids|].
    eexists m', _, a', (set_capacity (drive_size dr) (slot i d0 d1)). split; [done|]. split; [exact HR'|]. split_and!; try done.
    + eapply carries_set; eauto; [by destruct Hca as [[]]|by destruct Hd..].
    + simpl. by rewrite Ea.
    + simpl. by rewrite <- Hat.
  - exists m, ch, a, (slot i d0 d1). split; [done|]. split_and!; try done.
    + destruct Hi as [-> | ->]; done.
    + by rewrite Ea.
    + rewrite Hcap. destruct (a_drives a i); [|done]. by rewrite <- Hat.
Qed.

(** The two checks of [disk_init]. *)
Lemma check_both m ch a d0 d1 : R m ch a -> a_phase a = Idle -> carries ch d0 d1 -> proper (a_drives a) ->
  (occupied a = true -> a_sig a = true) -> is_ata d1 = false ->
  exists m' ch' a', (do! slave := check_device_type (c, 0) in if (slave : bool) then run! check_device_type (c, 1); ret tt else ret tt) m = Ret (m', tt) /\
    R m' ch' a' /\ a_phase a' = Idle /\ a_drives a' = a_drives a /\
    carries ch' (set_is_ata (is_ata_drive (a_drives a) 0) d0) (set_is_ata (is_ata_drive (a_drives a) 1) d1).
Proof using Hc.
  intros HR Hp Hca Hpr Hsig Hn1. unfold bind.
  assert (forall i, i = 0 \/ i = 1 -> present a i = true -> a_sig a = true) as Hsig'.
  { intros i Hi Hpi. apply Hsig. unfold occupied, present in *. destruct Hi as [-> | ->]; destruct (a_drives a 0), (a_drives a 1); done. }
  destruct (check_device_type_ok m ch a 0 d0 HR Hp) as (m1 & s & a1 & -> & HR1 & Hp1 & Ed1 & Es1 & Hs); [by eapply carries_0|by apply Hsig'; left|].
  cbn [rbind].
  assert (carries (typed 0 d0 (is_ata_drive (a_drives a) 0) ch) (set_is_ata (is_ata_drive (a_drives a) 0) d0) d1) as Hca1.
  { eapply (carries_set ch _ d0 d1 0); eauto; by destruct Hca as [[] ? [] []]. }
  destruct s.
  - destruct (check_device_type_ok m1 _ a1 1 d1 HR1 Hp1) as (m2 & s2 & a2 & -> & HR2 & Hp2 & Ed2 & Es2 & _); [by eapply carries_1| |].
    { unfold present. rewrite Ed1, Es1. fold (present a 1). apply Hsig'. by right. }
    cbn [rbind]. eexists m2, _, a2. split; [done|]. split; [exact HR2|]. split_and!; [done|congruence|].
    rewrite Ed1. eapply (carries_set _ _ _ d1 1); eauto; by destruct Hca1 as [[] ? [] []].
  - eexists m1, _, a1. split; [done|]. split; [exact HR1|]. split_and!; [done..|].
    assert (is_ata_drive (a_drives a) 1 = false) as ->.
    { unfold is_ata_drive. rewrite Hpr; [done|]. unfold present in Hs. destruct (a_drives a 0); [by specialize (Hs eq_refl)|done]. }
    by replace (set_is_ata false d1) with d1 by (destruct d1; simpl in *; by subst).
Qed.
End Detect.

Section Init.
Context {hw : Type} {B : Bus hw} {A : AtaBus hw B}.
Context {patience : nat} (Hpat : MAX_TICKS <= Z.of_nat patience).
#[local] Abbreviation machine := (@machine hw).

(** Channel [c] before its turn: idle, whatever the driver's record of it is. *)
Record powered (c : Z) (other : channel) (b : ata) (hs : list Z) (m : machine) (ch : channel) (a : ata) : Prop := {
  p_chans : channels m = pair_of c ch other;
  p_other_irq : c = 1 -> irq other = vec_of 0;
  p_on : intr_on m = true;
  p_handlers : handlers m = hs;
  p_free : vec_of c ∉ hs;
  p_view : view (hardware m) c = a;
  p_quiet : a_phase a = Idle /\ a_irq a = false;
  p_other : view (hardware m) (1 - c) = b;
  p_still : working b = false /\ a_irq b = false
}.

Lemma init_channel_ok c other b hs m ch0 a : is_chan c -> powered c other b hs m ch0 a -> proper (a_drives a) -> good_ids (a_drives a) ->
  exists m' ch a' d0 d1, init_channel patience c m = Ret (m', tt) /\ rests c other b (vec_of c :: hs) m' ch a' /\
    a_phase a' = Idle /\ a_drives a' = a_drives a /\ carries c ch d0 d1 /\ found (a_drives a) 0 d0 /\ found (a_drives a) 1 d1.
Proof using Hpat.
  intros Hc [Pc Poi Po Ph Pf Pv [Pi Pq] Pb Ps] Hpr Hids. unfold init_channel. unfold bind at 1.
  assert ((if bool_decide (c = 0) then on_channel c (fun _ => new_channel c 0x1f0 (14 + 0x20))
           else if bool_decide (c = 1) then on_channel c (fun _ => new_channel c 0x170 (15 + 0x20)) else fun _ => Panic)
          = on_channel c (fun _ => new_channel c (base_of c) (vec_of c))) as -> by (by destruct Hc as [-> | ->]).
  rewrite (on_chan c Hc m ch0) by done. cbn [rbind]. set (ch1 := new_channel c (base_of c) (vec_of c)).
  unfold bind at 1. rewrite (get_chan c Hc _ ch1) by done. cbn [rbind]. unfold bind at 1.
  unfold intr_register_ext, bind at 1, guard. change (irq ch1) with (vec_of c).
  rewrite bool_decide_true by (destruct Hc as [-> | ->]; done). cbn [rbind]. unfold bind at 1. cbn [handlers set_channels]. rewrite Ph.
  rewrite bool_decide_true by done. cbn [rbind modify].
  set (m1 := set_handlers _ _).
  assert (rests c other b (vec_of c :: hs) m1 ch1 a) as HR1 by (constructor; try done; set_solver).
  assert (carries c ch1 (new_disk c 0) (new_disk c 1)) as Hca by done.
  unfold bind at 1. destruct (reset_channel_ok c Hc m1 ch1 a _ _ HR1 Pi (carries_0 _ _ _ _ Hca) (carries_1 _ _ _ _ Hca) Hpr) as (m2 & a2 & -> & HR2 & Hp2 & Ed2 & Hs2).
  cbn [rbind].
  assert (occupied a2 = occupied a) as Eo by (unfold occupied; by rewrite Ed2).
  destruct (check_both c Hc m2 ch1 a2 _ _ HR2 Hp2 Hca) as (m3 & ch3 & a3 & E3 & HR3 & Hp3 & Ed3 & Hca3); [by rewrite Ed2|by rewrite Eo|done|].
  rewrite Ed2 in *.
  destruct (identify_slot c Hc Hpat m3 ch3 a3 _ _ 0 HR3 Hp3 Hca3 (or_introl eq_refl)) as (m4 & ch4 & a4 & d0 & E4 & HR4 & Hp4 & Ed4 & Hca4 & Hf0);
    [by rewrite Ed3|done|by rewrite Ed3|].
  destruct (identify_slot c Hc Hpat m4 ch4 a4 _ _ 1 HR4 Hp4 Hca4 (or_intror eq_refl)) as (m5 & ch5 & a5 & d1 & E5 & HR5 & Hp5 & Ed5 & Hca5 & Hf1);
    [by rewrite Ed4, Ed3|done|by rewrite Ed4, Ed3|].
  exists m5, ch5, a5, d0, d1. rewrite Ed5, Ed4, Ed3 in *. split_and!; try done.
  unfold bind in *. destruct (check_device_type (c, 0) m2) as [[m6 s]| | |]; try done. cbn [rbind] in *. rewrite E3. cbn [rbind].
  destruct (disk_at (c, 0) m3) as [[m7 x]| | |]; try done. cbn [rbind] in *. rewrite E4. cbn [rbind]. exact E5.
Qed.
End Init.
