(* ===== verification/DiskRun.v ===== *)
(** * The disks as maps of sectors

    The promise of the driver to its clients (the buffer cache and the swap disk): once
    [disk_init] has run, every sequence of reads and writes through [disk_get] behaves
    as lookups and insertions in one map of sectors per ATA drive, and an access to a
    disk that is not there or to a sector beyond its end stops the kernel. *)

From S2P Require Import Prelude Stdlibc Disk Ata DiskProof DiskInit.
#[local] Open Scope io_scope.

(** ** The specification *)

Inductive request :=
| RRead (p : disk_ptr) (sec_no : Z)
| RWrite (p : disk_ptr) (sec_no : Z) (buffer : list Z).

Abbreviation disks := (gmap (Z * Z) (gmap Z (list Z))).

Definition spec_one (r : request) (D : disks) : res (disks * list Z) :=
  match r with
  | RRead p s =>
      match D !! p with
      | Some g => match g !! s with Some b => Ret (D, b) | None => Panic end
      | None => Panic
      end
  | RWrite p s b =>
      match D !! p with
      | Some g => match g !! s with Some _ => Ret (<[p := <[s := b]> g]> D, []) | None => Panic end
      | None => Panic
      end
  end.

Fixpoint spec_run (rs : list request) (D : disks) : res (disks * list (list Z)) :=
  match rs with
  | [] => Ret (D, [])
  | r :: rs =>
      let! '(D, o) := spec_one r D in
      let! '(D, os) := spec_run rs D in
      Ret (D, o :: os)
  end.

(** ** The driver *)

Section Run.
Context {hw : Type} {B : Bus hw} (patience : nat).

Definition serve (r : request) : @io hw (list Z) :=
  match r with
  | RRead p s => do! d := disk_get (fst p) (snd p) in disk_read patience d s
  | RWrite p s b => do! d := disk_get (fst p) (snd p) in run! disk_write patience d s b; ret []
  end.

Fixpoint run_disks (rs : list request) : @io hw (list (list Z)) :=
  match rs with
  | [] => ret []
  | r :: rs => do! o := serve r in do! os := run_disks rs in ret (o :: os)
  end.
End Run.

(** Channel numbers are not negative, sector numbers are unsigned, buffers hold a sector. *)
Definition proper_request (r : request) : Prop :=
  match r with
  | RRead p s => 0 <= fst p /\ 0 <= s
  | RWrite p s b => 0 <= fst p /\ 0 <= s /\ sector b
  end.

(** ** Drives *)

Record good_drive (d : drive) : Prop := {
  gd_id : good_id d;
  gd_media s : is_Some (dr_media d !! s) <-> 0 <= s < drive_size d;
  gd_sectors s b : dr_media d !! s = Some b -> sector b;
  gd_28 : drive_size d <= 2 ^ 28
}.

Definition good_drives (f : Z -> option drive) : Prop :=
  proper f /\ forall i d, f i = Some d -> dr_ata d = true -> good_drive d.

Lemma good_drives_ids f : good_drives f -> good_ids f.
Proof. intros [_ H] i d E Ha. by destruct (H i d E Ha). Qed.

Lemma store_good d s b : good_drive d -> is_Some (dr_media d !! s) -> sector b -> good_drive (store d s b).
Proof.
  intros [Hi Hm Hs H28] Hin Hb. constructor; try done; simpl.
  - intros s'. destruct (decide (s' = s)) as [->|].
    + rewrite lookup_insert_eq. split; [by rewrite <- Hm|eauto].
    + by rewrite lookup_insert_ne.
  - intros s' b' E. destruct (decide (s' = s)) as [->|]; [rewrite lookup_insert_eq in E; congruence|].
    rewrite lookup_insert_ne in E by done. eauto.
Qed.

Lemma stored_good f i s b d : good_drives f -> f i = Some d -> dr_ata d = true -> is_Some (dr_media d !! s) -> sector b ->
  good_drives (stored f i s b).
Proof.
  intros [Hp Hf] Ed Ha Hin Hb. unfold stored. split.
  - intros H0. case_bool_decide; [|case_bool_decide].
    + subst. rewrite Ed in H0. done.
    + subst i. by rewrite Hp in Ed.
    + by apply Hp.
  - intros j x Ej Hx. case_bool_decide; [|by eapply Hf]. subst j. rewrite Ed in Ej. simplify_eq/=. by apply store_good; eauto.
Qed.

(** The number of sectors is that of the map. *)
Lemma good_size d d' : good_drive d -> good_drive d' -> dr_media d = dr_media d' -> drive_size d = drive_size d'.
Proof.
  intros [[_ Hw] Hm _ _] [[_ Hw'] Hm' _ _] E.
  pose proof (nth_word _ 60 Hw). pose proof (nth_word _ 61 Hw). pose proof (nth_word _ 60 Hw'). pose proof (nth_word _ 61 Hw').
  assert (0 <= drive_size d /\ 0 <= drive_size d') as [Hp Hp'] by (unfold drive_size; lia).
  assert (forall s, 0 <= s < drive_size d <-> 0 <= s < drive_size d') as Hs by (intros s; by rewrite <- Hm, <- Hm', E).
  pose proof (Hs (drive_size d)). pose proof (Hs (drive_size d')). lia.
Qed.

(** The sectors of a drive, where there is an ATA drive. *)
Definition content (o : option drive) : option (gmap Z (list Z)) :=
  match o with Some d => if dr_ata d then Some (dr_media d) else None | None => None end.

(** ** The invariant *)

Section Online.
Context {hw : Type} {B : Bus hw} {A : AtaBus hw B} {patience : nat} (Hpat : MAX_TICKS <= Z.of_nat patience).
#[local] Abbreviation machine := (@machine hw).

(** Channel [c] with [ch] and [a], between two calls. *)
Record attached (c : Z) (ch : channel) (a : ata) : Prop := {
  at_idle : a_phase a = Idle;
  at_good : good_drives (a_drives a);
  at_disks : exists d0 d1, carries c ch d0 d1 /\ found (a_drives a) 0 d0 /\ found (a_drives a) 1 d1
}.

Definition reflects (D : disks) (fs : Z -> Z -> option drive) : Prop := forall c i,
  D !! (c, i) = if bool_decide ((c = 0 \/ c = 1) /\ (i = 0 \/ i = 1)) then content (fs c i) else None.

Record online_at (chs : Z -> channel) (vs : Z -> ata) (hs : list Z) (m : machine) (D : disks) : Prop := {
  on_rests c : is_chan c -> rests c (chs (1 - c)) (vs (1 - c)) hs m (chs c) (vs c);
  on_attached c : is_chan c -> attached c (chs c) (vs c);
  on_disks : reflects D (fun c => a_drives (vs c))
}.
Definition online (m : machine) (D : disks) : Prop := exists chs vs hs, online_at chs vs hs m D.

Definition upd {T} (c : Z) (x : T) (f : Z -> T) : Z -> T := fun k => if bool_decide (k = c) then x else f k.
Lemma upd_same {T} c (x : T) f : upd c x f c = x.
Proof. unfold upd. by rewrite bool_decide_true. Qed.
Lemma upd_other {T} c (x : T) f k : k <> c -> upd c x f k = f k.
Proof. intros. unfold upd. by rewrite bool_decide_false. Qed.

(** The same state seen from the other channel. *)
Lemma rests_swap c m ch a ch2 a2 hs : is_chan c -> rests c ch2 a2 hs m ch a -> working a = false ->
  reg_base ch2 = base_of (1 - c) -> irq ch2 = vec_of (1 - c) -> vec_of (1 - c) ∈ hs ->
  rests (1 - c) ch a hs m ch2 a2.
Proof.
  intros Hc [Rc (Rb & Ri & Rw) Ro Rhs Rh Rv Rq Rot [Rs Rsq]] Hw Hb Hi Hh. constructor; try done.
  - rewrite Rc. by destruct Hc as [-> | ->].
  - split_and!; try done. intros. rewrite Ri. f_equal. lia.
  - by replace (1 - (1 - c)) with c by lia.
Qed.

(** A call on channel [c] that returns keeps the system on line. *)
Lemma online_step chs vs hs m D c m' ch' a' D' : online_at chs vs hs m D -> is_chan c ->
  rests c (chs (1 - c)) (vs (1 - c)) hs m' ch' a' -> attached c ch' a' ->
  reflects D' (upd c (a_drives a') (fun k => a_drives (vs k))) -> online m' D'.
Proof.
  intros [Hr Ha Hd] Hc HR Hat HD. exists (upd c ch' chs), (upd c a' vs), hs.
  assert (is_chan (1 - c) /\ 1 - c <> c) as [Hc' Hne] by (unfold is_chan in *; lia).
  constructor.
  - intros k Hk. destruct (is_chan_cases c Hc k Hk) as [-> | ->].
    + rewrite !upd_same, !upd_other by done. done.
    + replace (1 - (1 - c)) with c by lia. rewrite !upd_same, !upd_other by done.
      destruct (Hr (1 - c) Hc') as [_ (? & ? & _) _ _ ? _ _ _ _].
      apply rests_swap; auto. unfold working. by destruct Hat as [-> _ _].
  - intros k Hk. destruct (is_chan_cases c Hc k Hk) as [-> | ->]; rewrite ?upd_same; [done|].
    rewrite !upd_other by done. auto.
  - intros k i. rewrite HD. destruct (decide (k = c)) as [->|]; [by rewrite !upd_same|by rewrite !upd_other].
Qed.

(** ** One request *)

Lemma attached_disk c ch a i : attached c ch a -> i = 0 \/ i = 1 ->
  exists d, has_disk c ch i d /\ found (a_drives a) i d /\ unused ch.
Proof.
  intros [_ _ (d0 & d1 & Hca & H0 & H1)] [-> | ->]; [exists d0|exists d1];
    (split; [first [by eapply carries_0|by eapply carries_1]|split; [done|by destruct Hca]]).
Qed.

Lemma found_keep f f' i d d' : found f i d -> is_ata d' = is_ata d -> capacity d' = capacity d ->
  is_ata_drive f' i = is_ata_drive f i -> (drive_size <$> f' i) = (drive_size <$> f i) -> found f' i d'.
Proof.
  unfold found, is_ata_drive. intros [H1 H2] -> -> E1 E2. rewrite H1, H2. split; [done|].
  destruct (f' i), (f i); simplify_eq/=; try done. by rewrite E1, E2.
Qed.

(** The disks after a call that counted one access to disk [i]. *)
Lemma attached_used c ch a i d g a' : attached c ch a -> i = 0 \/ i = 1 -> has_disk c ch i d ->
  (forall x, is_ata (g x) = is_ata x /\ capacity (g x) = capacity x /\ channel_of (g x) = channel_of x /\ dev_no (g x) = dev_no x) ->
  a_phase a' = Idle -> good_drives (a_drives a') ->
  (forall j, is_ata_drive (a_drives a') j = is_ata_drive (a_drives a) j /\ (drive_size <$> a_drives a' j) = (drive_size <$> a_drives a j)) ->
  attached c (used g i d ch) a'.
Proof.
  intros [_ _ (d0 & d1 & Hca & H0 & H1)] Hi Hd Hg Hp Hgd Hk.
  assert (carries c (used g i d ch) (slot i (g d) d0) (slot i d1 (g d))) as Hca'.
  { eapply carries_set; eauto; [by destruct Hca as [[]]|..]; destruct Hd, (Hg d) as (? & ? & ? & ?); congruence. }
  constructor; [done..|]. eexists _, _. split; [exact Hca'|].
  assert (d = slot i d0 d1) as ->.
  { pose proof (hd_at _ _ _ _ Hd) as E. rewrite (ca_disks _ _ _ _ Hca) in E. destruct Hi as [-> | ->]; by injection E. }
  split; (eapply found_keep; [eassumption|..]); try apply Hk; destruct Hi as [-> | ->]; cbn; try done; apply Hg.
Qed.
Lemma get_ok chs vs hs m D c i : online_at chs vs hs m D -> 0 <= c ->
  disk_get c i m = match D !! (c, i) with
                   | Some _ => Ret (m, Some (c, i))
                   | None => if bool_decide (i = 0 \/ i = 1) then Ret (m, None) else Panic
                   end.
Proof using Type.
  clear Hpat. intros Hon Hc0. pose proof (on_disks _ _ _ _ _ Hon c i) as HD. unfold disk_get, bind, guard.
  destruct (decide (i = 0 \/ i = 1)) as [Hi|Hi].
  - assert (bool_decide (i = 0) || bool_decide (i = 1) = true) as -> by (destruct Hi as [-> | ->]; done). cbn [rbind].
    rewrite (bool_decide_true (i = 0 \/ i = 1)) by done. unfold CHANNEL_CNT. destruct (decide (c < 2)) as [Hlt|Hge].
    + rewrite (bool_decide_true (c < 2)) by done. assert (is_chan c) as Hc by (unfold is_chan; lia). rewrite bool_decide_true in HD by done.
      destruct (attached_disk c (chs c) (vs c) i (on_attached _ _ _ _ _ Hon c Hc) Hi) as (d & Hd & Hf & _).
      rewrite (get_disk c Hc m (chs c) (vs c) i d (on_rests _ _ _ _ _ Hon c Hc) Hd). cbn [rbind].
      destruct Hf as [-> _]. rewrite HD. unfold content, is_ata_drive. destruct (a_drives (vs c) i) as [dr|]; [|done].
      by destruct (dr_ata dr).
    + rewrite bool_decide_false in HD by lia. by rewrite HD, bool_decide_false by done.
  - rewrite bool_decide_false in HD by tauto. by rewrite HD, (bool_decide_false (i = 0 \/ i = 1)), !bool_decide_false by tauto.
Qed.

(** The disk behind an entry of [D]. *)
Lemma entry chs vs hs m D c i g : online_at chs vs hs m D -> D !! (c, i) = Some g ->
  is_chan c /\ (i = 0 \/ i = 1) /\ exists d dr, has_disk c (chs c) i d /\ unused (chs c) /\ serves (vs c) i dr /\ good_drive dr /\
    dr_media dr = g /\ capacity d = drive_size dr.
Proof.
  intros Hon HD. pose proof (on_disks _ _ _ _ _ Hon c i) as E. rewrite HD in E. case_bool_decide as Hci; [|done].
  destruct Hci as [Hc Hi]. split_and!; [done..|]. pose proof (on_attached _ _ _ _ _ Hon c Hc) as Hat.
  destruct (attached_disk c (chs c) (vs c) i Hat Hi) as (d & Hd & [Hf Hcap] & Hu).
  unfold content in E. destruct (a_drives (vs c) i) as [dr|] eqn:Edr; [|done]. destruct (dr_ata dr) eqn:Ea; [|done]. simplify_eq.
  exists d, dr. split_and!; try done. destruct Hat as [_ [_ Hg] _]. eauto.
Qed.

Lemma outside_sector c (Hc : is_chan c) other b hs m ch a i d sec : rests c other b hs m ch a -> unused ch -> has_disk c ch i d ->
  capacity d <= sec -> disk_read patience (Some (c, i)) sec m = Panic /\ forall bf, disk_write patience (Some (c, i)) sec bf m = Panic.
Proof.
  intros HR [Hlk _] Hd Hs.
  destruct (chan_acquire_ok c Hc m ch a HR Hlk) as (m1 & E1 & HR1).
  assert (select_sector (c, i) sec m1 = Panic) as E2.
  { assert (has_disk c (set_lock true ch) i d) as Hd1 by (by apply (has_disk_keep c ch)).
    unfold select_sector, bind. rewrite (get_disk c Hc m1 _ a i d) by done. cbn [rbind].
    destruct (get_disk_chan c Hc m1 _ a i d HR1 Hd1) as [-> _]. cbn [rbind]. unfold guard. by rewrite bool_decide_false by lia. }
  unfold disk_read, disk_write, bind. rewrite (get_disk c Hc m ch a i d) by done. cbn [rbind].
  rewrite (hd_chan _ _ _ _ Hd), E1. cbn [rbind]. rewrite E2. done.
Qed.

Lemma reflects_store D fs c i g s b dr : reflects D fs -> D !! (c, i) = Some g -> is_chan c -> i = 0 \/ i = 1 ->
  fs c i = Some dr -> dr_ata dr = true -> dr_media dr = g ->
  reflects (<[(c, i) := <[s := b]> g]> D) (upd c (stored (fs c) i s b) fs).
Proof.
  intros HD E Hc Hi Ef Ha Eg k j. destruct (decide ((k, j) = (c, i))) as [Ep|Hne].
  - simplify_eq. rewrite lookup_insert_eq, bool_decide_true by done. rewrite upd_same. unfold stored.
    rewrite bool_decide_true by done. rewrite Ef. simpl. by rewrite Ha.
  - rewrite lookup_insert_ne by done. rewrite (HD k j). destruct (bool_decide _); [|done]. f_equal.
    destruct (decide (k = c)) as [->|]; [|by rewrite upd_other]. rewrite upd_same. unfold stored.
    rewrite bool_decide_false; [done|congruence].
Qed.

Lemma reflects_same D fs c f : reflects D fs -> f = fs c -> reflects D (upd c f fs).
Proof. intros HD -> k j. rewrite (HD k j). destruct (decide (k = c)) as [->|]; [by rewrite upd_same|by rewrite upd_other]. Qed.

Lemma serve_ok m D r : online m D -> proper_request r ->
  match spec_one r D with
  | Ret (D', o) => exists m', serve patience r m = Ret (m', o) /\ online m' D'
  | _ => serve patience r m = Panic
  end.
Proof using Hpat.
  intros (chs & vs & hs & Hon) Hr. destruct r as [[c i] s|[c i] s bf]; cbn [serve spec_one proper_request fst snd] in *; unfold bind.
  - destruct Hr as [Hc0 Hs0]. rewrite (get_ok chs vs hs m D c i Hon Hc0). destruct (D !! (c, i)) as [g|] eqn:E.
    2: { by destruct (bool_decide _). }
    cbn [rbind]. destruct (entry _ _ _ _ _ _ _ _ Hon E) as (Hc & Hi & d & dr & Hd & Hu & Hsv & [Gi Gm Gs G28] & Eg & Ecap).
    pose proof (on_rests _ _ _ _ _ Hon c Hc) as HR. pose proof (on_attached _ _ _ _ _ Hon c Hc) as Hat.
    subst g. destruct (dr_media dr !! s) as [b|] eqn:Eb.
    + destruct (Gm s) as [Hin _]. specialize (Hin (mk_is_Some _ _ Eb)).
      destruct (disk_read_ok c Hc Hpat m _ _ i d dr s b HR Hu Hd (at_idle _ _ _ Hat) Hsv Eb (Gs _ _ Eb)) as (m' & a' & E' & HR' & Hp' & Ed'); [lia..|].
      exists m'. split; [done|]. eapply (online_step chs vs hs m D c); eauto.
      * apply (attached_used c (chs c) (vs c)); auto; [by rewrite Ed'; destruct Hat|]. intros j. by rewrite Ed'.
      * rewrite Ed'. apply reflects_same; [|done]. apply Hon.
    + destruct (outside_sector c Hc _ _ _ m _ _ i d s HR Hu Hd) as [-> _]; [|done]. rewrite Ecap.
      destruct (decide (drive_size dr <= s)); [done|]. destruct (Gm s) as [_ Hx]. destruct Hx as [? ?]; [lia|congruence].
  - destruct Hr as (Hc0 & Hs0 & Hbf). rewrite (get_ok chs vs hs m D c i Hon Hc0). destruct (D !! (c, i)) as [g|] eqn:E.
    2: { by destruct (bool_decide _). }
    cbn [rbind]. destruct (entry _ _ _ _ _ _ _ _ Hon E) as (Hc & Hi & d & dr & Hd & Hu & Hsv & Hgd & Eg & Ecap). pose proof Hgd as [Gi Gm Gs G28].
    pose proof (on_rests _ _ _ _ _ Hon c Hc) as HR. pose proof (on_attached _ _ _ _ _ Hon c Hc) as Hat.
    subst g. destruct (dr_media dr !! s) as [b|] eqn:Eb.
    + destruct (Gm s) as [Hin _]. specialize (Hin (mk_is_Some _ _ Eb)).
      destruct (disk_write_ok c Hc Hpat m _ _ i d dr s bf b HR Hu Hd (at_idle _ _ _ Hat) Hsv Eb Hbf) as (m' & a' & E' & HR' & Hp' & Ed'); [lia..|].
      exists m'. rewrite E'. split; [done|]. destruct Hsv as [Hsd Hsa]. eapply (online_step chs vs hs m D c); eauto.
      * apply (attached_used c (chs c) (vs c)); auto.
        { rewrite Ed'. eapply stored_good; eauto. by destruct Hat. }
        intros j. rewrite Ed'. unfold stored, is_ata_drive. case_bool_decide; [|done]. subst j. by rewrite Hsd.
      * rewrite Ed'. by apply (reflects_store D (fun k => a_drives (vs k)) c i (dr_media dr) s bf dr (on_disks _ _ _ _ _ Hon)).
    + destruct (outside_sector c Hc _ _ _ m _ _ i d s HR Hu Hd) as [_ ->]; [|done]. rewrite Ecap.
      destruct (decide (drive_size dr <= s)); [done|]. destruct (Gm s) as [_ Hx]. destruct Hx as [? ?]; [lia|congruence].
Qed.
Lemma run_ok rs : forall m D, online m D -> Forall proper_request rs ->
  match spec_run rs D with
  | Ret (D', os) => exists m', run_disks patience rs m = Ret (m', os) /\ online m' D'
  | _ => run_disks patience rs m = Panic
  end.
Proof using Hpat.
  induction rs as [|r rs IH]; intros m D Hon Hrs; cbn [spec_run run_disks].
  { by exists m. }
  apply Forall_cons in Hrs as [Hr Hrs]. pose proof (serve_ok m D r Hon Hr) as Hs. unfold bind.
  destruct (spec_one r D) as [[D1 o]| | |]; cbn [rbind]; [|by rewrite Hs..].
  destruct Hs as (m1 & -> & Hon1). cbn [rbind]. specialize (IH m1 D1 Hon1 Hrs).
  destruct (spec_run rs D1) as [[D2 os]| | |]; cbn [rbind]; [|by rewrite IH..].
  destruct IH as (m2 & -> & Hon2). cbn [rbind]. by exists m2.
Qed.

(** ** Start-up *)

(** The machine when [disk_init] is called: interrupts on, both channels idle with the
    drives [fs], and nobody handles their interrupts yet. *)
Record power_on (m : machine) (fs : Z -> Z -> option drive) : Prop := {
  po_chans : exists ch0 ch1, channels m = [ch0; ch1];
  po_on : intr_on m = true;
  po_free c : is_chan c -> vec_of c ∉ handlers m;
  po_idle c : is_chan c -> a_phase (view (hardware m) c) = Idle /\ a_irq (view (hardware m) c) = false;
  po_drives c : is_chan c -> a_drives (view (hardware m) c) = fs c /\ good_drives (fs c)
}.

Lemma init_ok m fs D : power_on m fs -> reflects D fs -> exists m', disk_init patience m = Ret (m', tt) /\ online m' D.
Proof using Hpat.
  intros [(ch0 & ch1 & Ec) Po Pf Pi Pd] HD.
  assert (is_chan 0 /\ is_chan 1) as [H0 H1] by (unfold is_chan; lia).
  destruct (Pi 0 H0) as [Pi0 Pq0], (Pi 1 H1) as [Pi1 Pq1], (Pd 0 H0) as [E0 G0], (Pd 1 H1) as [E1 G1].
  set (a0 := view (hardware m) 0) in *. set (a1 := view (hardware m) 1) in *.
  assert (working a0 = false /\ working a1 = false) as [W0 W1] by (unfold working; by rewrite Pi0, Pi1).
  destruct (init_channel_ok Hpat 0 ch1 a1 (handlers m) m ch0 a0 H0) as (m1 & c0 & b0 & d0 & d1 & Ei0 & HR0 & Hp0 & Ed0 & Hca0 & F0 & F1).
  { constructor; try done. by apply Pf. }
  { rewrite E0. by destruct G0. } { rewrite E0. by apply good_drives_ids. }
  unfold disk_init, bind. rewrite Ei0. cbn [rbind].
  assert (working b0 = false) as Wb0 by (unfold working; by rewrite Hp0).
  destruct HR0 as [Rc (Rb & Ri & Rw) Ro Rhs Rh Rv Rq Rot [Rs Rsq]].
  destruct (init_channel_ok Hpat 1 c0 b0 (vec_of 0 :: handlers m) m1 ch1 a1 H1) as (m2 & c1 & b1 & e0 & e1 & Ei1 & HR1 & Hp1 & Ed1 & Hca1 & K0 & K1).
  { constructor; try done. apply not_elem_of_cons. split; [done|by apply Pf]. }
  { rewrite E1. by destruct G1. } { rewrite E1. by apply good_drives_ids. }
  exists m2. split; [done|].
  exists (fun k => slot k c0 c1), (fun k => slot k b0 b1), (vec_of 1 :: vec_of 0 :: handlers m). constructor.
  - intros k [-> | ->]; [|exact HR1]. apply (rests_swap 1 m2 c1 b1 c0 b0); try done; [unfold working; by rewrite Hp1|set_solver].
  - intros k [-> | ->]; [change (slot 0 c0 c1) with c0; change (slot 0 b0 b1) with b0|change (slot 1 c0 c1) with c1; change (slot 1 b0 b1) with b1].
    + constructor; [done|by rewrite Ed0, E0|]. exists d0, d1. by rewrite Ed0.
    + constructor; [done|by rewrite Ed1, E1|]. exists e0, e1. by rewrite Ed1.
  - intros k i. rewrite HD. case_bool_decide as Hk; [|done]. destruct Hk as [[-> | ->] _]; cbv beta;
      [change (slot 0 b0 b1) with b0|change (slot 1 b0 b1) with b1]; congruence.
Qed.
End Online.
