(* ===== verification/DiskProps.v ===== *)
(** * The disk driver: results, and a simulated ATA bus

    The theorems about [disk_init] and about every sequence of accesses, for every
    hardware that keeps the promise [AtaBus], and a simulated bus that keeps it: two
    channels that finish every command after three timer ticks.

    At the end the disk below the buffer cache: [Cache.v] has the disk as a map from sector
    numbers to bytes, and the driver is such a disk. *)

From Stdlib Require Import String.
From S2P Require Import Prelude Cache Stdlibc Disk Ata DiskProof DiskInit DiskRun.
#[local] Open Scope io_scope.

(** ** A simulated bus *)

Module Sim.
Record sim := mkSim { s_ata : Z -> ata; s_left : Z -> Z }.

(** The channel and the register of a port. *)
Definition decode (port : Z) : option (Z * Z) :=
  if bool_decide (0x1f0 <= port <= 0x1f7) then Some (0, port - 0x1f0)
  else if bool_decide (port = 0x3f6) then Some (0, reg_ctl)
  else if bool_decide (0x170 <= port <= 0x177) then Some (1, port - 0x170)
  else if bool_decide (port = 0x376) then Some (1, reg_ctl)
  else None.

Definition sim_left (s : sim) (c : Z) : Z := Z.max 1 (Z.min MAX_TICKS (s_left s c)).

(** The channel goes to state [a]; a command that starts takes three ticks. *)
Definition put (c : Z) (a : ata) (s : sim) : sim :=
  mkSim (upd c a (s_ata s)) (upd c (if working (s_ata s c) then s_left s c else 3) (s_left s)).

Definition status (a : ata) : Z :=
  match selected a with
  | None => 0
  | Some d => (if is_busy a then STA_BSY else 0) + (if dr_ata d then STA_DRDY else 0) + (if has_drq a then STA_DRQ else 0)
  end.

Definition register (o : Z) (a : ata) : Z :=
  match selected a with
  | None => 0xff
  | Some d =>
      if a_sig a then
        if bool_decide (o = reg_lbam) then (if dr_ata d then 0 else 0x14)
        else if bool_decide (o = reg_lbah) then (if dr_ata d then 0 else 0xeb) else 1
      else if bool_decide (o = reg_nsect) then a_nsect a else a_lbal a
  end.

Definition read_reg (o : Z) (a : ata) : Z * ata :=
  if bool_decide (o = reg_status) then (status a, set_irq false a)
  else if bool_decide (o = reg_alt_status) then (status a, a)
  else (register o a, a).

Definition command (v : Z) (a : ata) : ata :=
  match selected a with
  | None => a
  | Some d =>
      if bool_decide (v = CMD_IDENTIFY_DEVICE) then set_phase (Busy (WRead (dr_id d))) a
      else match dr_media d !! lba a with
           | None => a
           | Some b =>
               if bool_decide (v = CMD_READ_SECTOR_RETRY) then set_phase (Busy (WRead (words_of b))) a
               else if bool_decide (v = CMD_WRITE_SECTOR_RETRY) then set_phase (Busy (WAccept (lba a))) a else a
           end
  end.

Definition write_reg (o v : Z) (a : ata) : ata :=
  match a_phase a with
  | Idle =>
      if bool_decide (o = reg_device) then set_device v a
      else if bool_decide (o = reg_ctl) then (if bit v CTL_SRST && occupied a then begin_reset a else a)
      else if bool_decide (o = reg_command) then command v a
      else set_reg o v a
  | InReset => if bool_decide (o = reg_ctl) then (if bit v CTL_SRST then a else set_phase (Busy WReset) a) else a
  | _ => a
  end.

Definition sim_inb (port : Z) (s : sim) : Z * sim :=
  match decode port with
  | Some (c, o) => let '(v, a) := read_reg o (s_ata s c) in (v, put c a s)
  | None => (0, s)
  end.
Definition sim_outb (port v : Z) (s : sim) : sim :=
  match decode port with Some (c, o) => put c (write_reg o v (s_ata s c)) s | None => s end.
Definition sim_inw (port : Z) (s : sim) : Z * sim :=
  match decode port with
  | Some (c, _) =>
      match a_phase (s_ata s c) with
      | DataIn (w :: ws) => (w, put c (set_phase (if ws is [] then Idle else DataIn ws) (s_ata s c)) s)
      | _ => (0, s)
      end
  | None => (0, s)
  end.
Definition sim_outw (port v : Z) (s : sim) : sim :=
  match decode port with
  | Some (c, _) =>
      match a_phase (s_ata s c) with
      | DataOut l ws =>
          put c (set_phase (if bool_decide (length ws = 255%nat) then Busy (WStore l (ws ++ [v])) else DataOut l (ws ++ [v])) (s_ata s c)) s
      | _ => s
      end
  | None => s
  end.

Definition pass (c : Z) (s : sim) : sim :=
  match a_phase (s_ata s c) with
  | Busy w =>
      if bool_decide (sim_left s c <= 1) then put c (finish w (s_ata s c)) s
      else mkSim (s_ata s) (upd c (sim_left s c - 1) (s_left s))
  | _ => s
  end.
Definition sim_tick (s : sim) : sim := pass 1 (pass 0 s).
Definition sim_take (s : sim) : option (Z * sim) :=
  if a_irq (s_ata s 0) then Some (vec_of 0, put 0 (set_irq false (s_ata s 0)) s)
  else if a_irq (s_ata s 1) then Some (vec_of 1, put 1 (set_irq false (s_ata s 1)) s)
  else None.

#[global] Instance sim_bus : Bus sim := {|
  bus_inb := sim_inb; bus_outb := sim_outb; bus_inw := sim_inw; bus_outw := sim_outw;
  bus_spin _ s := s; bus_tick := sim_tick; bus_take := sim_take
|}.

(** *** The simulated bus keeps the promise *)

Lemma decode_port c o : is_chan c -> is_reg o -> decode (base_of c + o) = Some (c, o).
Proof.
  intros Hc Ho. unfold decode, is_reg, reg_ctl in *. destruct Hc as [-> | ->]; cbn [base_of];
    [change (base_of 0) with 0x1f0|change (base_of 1) with 0x170];
    destruct Ho as [Ho| ->]; rewrite ?bool_decide_true by lia; try reflexivity; try (f_equal; f_equal; lia).
  rewrite !bool_decide_false, bool_decide_true by lia. f_equal. f_equal. lia.
Qed.

(** A step of channel [c] alone. *)
Lemma put_moves (s : sim) c a (S : ata -> ata -> Prop) : S (s_ata s c) a ->
  moves s_ata sim_left s (put c a s) c S.
Proof.
  intros HS. split.
  - exists (s_ata s c). split; [constructor|]. cbn [put s_ata]. rewrite upd_same. split; [done|].
    intros Hw _. unfold sim_left, put. cbn [s_left]. rewrite upd_same, Hw. lia.
  - intros k _ Hk. unfold runs, sim_left, put. cbn [s_ata s_left]. rewrite !upd_other by done. split; [constructor|lia].
Qed.

Lemma stay_moves (s : sim) c (S : ata -> ata -> Prop) : S (s_ata s c) (s_ata s c) -> moves s_ata sim_left s s c S.
Proof.
  intros HS. split; [exists (s_ata s c); split; [constructor|]; split; [done|lia]|].
  intros k _ _. unfold runs. split; [constructor|lia].
Qed.
Lemma status_fits a : status_ok a (status a).
Proof.
  unfold status_ok, status. destruct (selected a) as [d|]; [|by right].
  unfold is_busy, has_drq. destruct (a_phase a), (dr_ata d); by vm_compute.
Qed.

Lemma read_fits o a : in_ok o a (fst (read_reg o a)) (snd (read_reg o a)).
Proof.
  unfold in_ok, read_reg. destruct (decide (o = reg_status)) as [->|H7]; [|destruct (decide (o = reg_alt_status)) as [->|Hc]].
  - split; [done|]. split; [intros; apply status_fits|]. intros _. cbn.
    destruct (selected a); [|done]. destruct (a_sig a); [|done]. split_and!; intros; naive_solver.
  - split; [done|]. split; [intros; apply status_fits|]. intros _. cbn.
    destruct (selected a); [|done]. destruct (a_sig a); [|done]. split_and!; intros; naive_solver.
  - rewrite !(bool_decide_false (o = reg_status)), (bool_decide_false (o = reg_alt_status)) by done. cbn [fst snd].
    split; [done|]. split; [naive_solver|]. intros _. unfold register. destruct (selected a) as [d|]; [|done].
    destruct (a_sig a); [|by split; intros ->].
    split_and!; intros Ho; [|by subst o..]. destruct Ho as [-> |[-> | ->]]; done.
Qed.

Lemma command_fits v a d : selected a = Some d -> dr_ata d = true ->
  (v = CMD_IDENTIFY_DEVICE -> command v a = set_phase (Busy (WRead (dr_id d))) a) /\
  (forall b, dr_media d !! lba a = Some b -> a_lba_mode a = true -> a_nsect a = 1 ->
     (v = CMD_READ_SECTOR_RETRY -> command v a = set_phase (Busy (WRead (words_of b))) a) /\
     (v = CMD_WRITE_SECTOR_RETRY -> command v a = set_phase (Busy (WAccept (lba a))) a)).
Proof.
  intros Hs _. unfold command. rewrite Hs. split; [by intros ->|]. intros b Hb _ _. rewrite Hb. by split; intros ->.
Qed.

Lemma write_fits o v a : out_ok o v a (write_reg o v a).
Proof.
  unfold out_ok, write_reg. destruct (a_phase a) as [|w| | |]; try done.
  - split; [by intros ->|]. split; [by intros [-> |[-> |[-> | ->]]]|]. split; [by intros ->|].
    intros d Hs Ha. destruct (command_fits v a d Hs Ha) as [Hi Hrw].
    split; [by intros -> ->; apply Hi|]. intros b Hb Hm Hn. destruct (Hrw b Hb Hm Hn) as [Hr Hw].
    split; intros -> ->; [by apply Hr|by apply Hw].
  - by destruct w.
  - by intros ->.
Qed.

Lemma pass_runs s c k : runs s_ata sim_left s (pass c s) k (if bool_decide (k = c) then 1 else 0).
Proof.
  unfold runs, pass. destruct (a_phase (s_ata s c)) as [|w| | |] eqn:Ep;
    try (split; [constructor|]; case_bool_decide; [subst; unfold working; by rewrite Ep|lia]).
  case_bool_decide as Hl; case_bool_decide as Hk; subst.
  - cbn [put s_ata]. rewrite upd_same. split; [by constructor|]. intros _. by destruct w.
  - unfold sim_left, put. cbn [s_ata s_left]. rewrite !upd_other by done. split; [constructor|lia].
  - cbn [s_ata]. split; [constructor|]. intros _ _. unfold sim_left at 1. cbn [s_left]. rewrite upd_same. unfold MAX_TICKS.
    unfold sim_left, MAX_TICKS in *. lia.
  - cbn [s_ata]. split; [constructor|]. unfold sim_left. cbn [s_left]. rewrite upd_other by done. lia.
Qed.

Lemma pass_other s c k : k <> c -> s_ata (pass c s) k = s_ata s k /\ sim_left (pass c s) k = sim_left s k.
Proof.
  intros Hk. unfold pass. destruct (a_phase (s_ata s c)); try done.
  case_bool_decide; unfold sim_left, put; cbn [s_ata s_left]; by rewrite !upd_other.
Qed.

Lemma tick_runs s c : is_chan c -> runs s_ata sim_left s (sim_tick s) c 1.
Proof.
  intros Hc. unfold sim_tick. destruct Hc as [-> | ->].
  - destruct (pass_other (pass 0 s) 1 0) as [E1 E2]; [done|]. pose proof (pass_runs s 0 0) as Hr. unfold runs in *.
    rewrite E1, E2. exact Hr.
  - destruct (pass_other s 0 1) as [E1 E2]; [done|]. pose proof (pass_runs (pass 0 s) 1 1) as Hr. unfold runs in *.
    rewrite E1, E2 in Hr. exact Hr.
Qed.

#[global] Instance sim_promise : AtaBus sim sim_bus.
Proof.
  refine {| view := s_ata; left := sim_left |}.
  - intros h c w _. unfold sim_left, MAX_TICKS. lia.
  - intros h c o Hc Ho. cbn [bus_inb sim_bus]. unfold sim_inb. rewrite decode_port by done.
    pose proof (read_fits o (s_ata h c)) as Hr. destruct (read_reg o (s_ata h c)) as [v a]. by apply put_moves.
  - intros h c o v Hc Ho. cbn [bus_outb sim_bus]. unfold sim_outb. rewrite decode_port by done. apply put_moves, write_fits.
  - intros h c Hc. cbn [bus_inw sim_bus]. unfold sim_inw. rewrite decode_port by (done || (unfold is_reg, reg_data; lia)).
    destruct (a_phase (s_ata h c)) as [| |[|w ws]| |] eqn:Ep; cbn [fst snd]; try (apply stay_moves; intros ? ? E; congruence).
    apply put_moves. intros w' ws' E. rewrite Ep in E. by simplify_eq/=.
  - intros h c v Hc. cbn [bus_outw sim_bus]. unfold sim_outw. rewrite decode_port by (done || (unfold is_reg, reg_data; lia)).
    destruct (a_phase (s_ata h c)) as [| | |l ws|] eqn:Ep; try (apply stay_moves; intros ? ? E; congruence).
    apply put_moves. intros l' ws' E. rewrite Ep in E. by simplify_eq/=.
  - intros h n c Hc. split; [constructor|cbn; lia].
  - intros h c Hc. by apply tick_runs.
  - intros h Ht c Hc. cbn [bus_take sim_bus] in Ht. unfold sim_take in Ht.
    destruct (a_irq (s_ata h 0)) eqn:E0; [done|]. destruct (a_irq (s_ata h 1)) eqn:E1; [done|]. by destruct Hc as [-> | ->].
  - intros h v h' Ht. cbn [bus_take sim_bus] in Ht. unfold sim_take in Ht.
    assert (forall c, is_chan c -> a_irq (s_ata h c) = true -> Some (vec_of c, put c (set_irq false (s_ata h c)) h) = Some (v, h') -> exists c,
      is_chan c /\ a_irq (s_ata h c) = true /\ v = vec_of c /\ s_ata h' c = set_irq false (s_ata h c) /\
      (forall c', is_chan c' -> c' <> c -> s_ata h' c' = s_ata h c')) as Hgen.
    { intros c Hc Hi E. simplify_eq. exists c. cbn [put s_ata]. rewrite upd_same. split_and!; try done.
      intros k _ Hk. by rewrite upd_other. }
    destruct (a_irq (s_ata h 0)) eqn:E0; [by eapply (Hgen 0); [left|..]|].
    destruct (a_irq (s_ata h 1)) eqn:E1; [by eapply (Hgen 1); [right|..]|done].
Defined.
End Sim.

(** ** Results *)

Section Results.
Context {hw : Type} {B : Bus hw} {A : AtaBus hw B} (patience : nat).

(** C15. From power-on, on every hardware that keeps the promise of ATA channels, the disk
    driver returns from [disk_init], and then every sequence of sector reads and writes
    through [disk_get] gives what lookups and insertions in one map of sectors per ATA
    drive give: a read returns the bytes written last, a write changes that one sector,
    and an access to an absent disk or beyond the end of a disk panics. *)
Theorem disk_driver_refines_maps (m : @machine hw) fs D rs :
  MAX_TICKS <= Z.of_nat patience -> power_on m fs -> reflects D fs -> Forall proper_request rs ->
  exists m1, disk_init patience m = Ret (m1, tt) /\
    match spec_run rs D with
    | Ret (D', os) => exists m2, run_disks patience rs m1 = Ret (m2, os) /\ online m2 D'
    | _ => run_disks patience rs m1 = Panic
    end.
Proof.
  intros Hp Hm HD Hrs. destruct (init_ok Hp m fs D Hm HD) as (m1 & E & Hon). exists m1. split; [done|].
  exact (run_ok Hp rs m1 D Hon Hrs).
Qed.

(** [disk_init] finds exactly the ATA drives: afterwards [disk_get] returns a disk for
    channel 0 or 1 and device 0 or 1 if and only if an ATA drive is there, and
    [disk_size] returns the number of sectors the drive reported. *)
Theorem disk_init_finds_drives (m : @machine hw) fs D c i :
  MAX_TICKS <= Z.of_nat patience -> power_on m fs -> reflects D fs -> is_chan c -> i = 0 \/ i = 1 ->
  exists m1, disk_init patience m = Ret (m1, tt) /\
    match fs c i with
    | Some dr =>
        if dr_ata dr then disk_get c i m1 = Ret (m1, Some (c, i)) /\ disk_size (Some (c, i)) m1 = Ret (m1, drive_size dr)
        else disk_get c i m1 = Ret (m1, None)
    | None => disk_get c i m1 = Ret (m1, None)
    end.
Proof.
  intros Hp Hm HD Hc Hi. destruct (init_ok Hp m fs D Hm HD) as (m1 & E & chs & vs & hs & Hon). exists m1. split; [done|].
  rewrite (get_ok chs vs hs m1 D c i Hon) by (unfold is_chan in Hc; lia).
  pose proof (HD c i) as HDc. rewrite bool_decide_true in HDc by done. rewrite HDc, bool_decide_true by done.
  unfold content in *. destruct (fs c i) as [dr|] eqn:Ef; [|done]. destruct (dr_ata dr) eqn:Ea; [|done]. split; [done|].
  destruct (entry _ _ _ _ _ _ _ _ Hon HDc) as (_ & _ & d & dr' & Hd & _ & _ & Hgd & Em & Ecap).
  unfold disk_size, bind. rewrite (get_disk c Hc m1 _ _ i d (on_rests _ _ _ _ _ Hon c Hc) Hd). cbn [rbind].
  rewrite Ecap. unfold ret. do 2 f_equal. apply good_size; try done.
  destruct (po_drives _ _ Hm c Hc) as [_ [_ Hg]]. eauto.
Qed.
End Results.

(** ** The simulated bus, with a disk of two sectors as its first drive and a packet
    device as its second *)

Module Example.
Import Sim.
Definition blank : list Z := replicate 512 0.
Definition media : gmap Z (list Z) := <[0 := replicate 512 7]> {[1 := blank]}.
Definition first : drive := mkDrive true (replicate 60 0 ++ [2] ++ replicate 195 0) media.
Definition second : drive := mkDrive false [] ∅.
Definition drives (c i : Z) : option drive :=
  if bool_decide (c = 0) then (if bool_decide (i = 0) then Some first else if bool_decide (i = 1) then Some second else None) else None.
Definition idle (f : Z -> option drive) : ata := mkAta f Idle 0 false 0 0 0 0 0 false false.
Definition start : @machine sim :=
  mkMachine (mkSim (fun c => idle (drives c)) (fun _ => 0)) [zero_channel; zero_channel] true [] 1000 [].
Definition table : gmap (Z * Z) (gmap Z (list Z)) := {[(0, 0) := media]}.
Definition requests : list request := [RRead (0, 0) 0; RWrite (0, 0) 1 (replicate 512 9); RRead (0, 0) 1].

Lemma zero_sector x : 0 <= x < 2 ^ 8 -> sector (replicate 512 x).
Proof. intros. split; [apply length_replicate|by apply Forall_replicate]. Qed.

Lemma first_good : good_drive first.
Proof.
  constructor.
  - split; [done|]. apply Forall_app. split; [by apply Forall_replicate|]. apply Forall_app. split; [by repeat constructor|by apply Forall_replicate].
  - intros s. change (drive_size first) with 2. unfold first, media. cbn [dr_media].
    destruct (decide (s = 0)) as [->|H0]; [rewrite lookup_insert_eq; split; [lia|eauto]|]. rewrite lookup_insert_ne by done.
    destruct (decide (s = 1)) as [->|H1]; [rewrite lookup_singleton_eq; split; [lia|eauto]|]. rewrite lookup_singleton_ne by done.
    split; [by intros [? ?]|lia].
  - intros s b. unfold first, media. cbn [dr_media]. rewrite lookup_insert_Some, lookup_singleton_Some.
    intros [[_ <-]|(_ & _ & <-)]; by apply zero_sector.
  - by vm_compute.
Qed.

Lemma start_on : power_on start drives.
Proof.
  constructor.
  - by exists zero_channel, zero_channel.
  - done.
  - intros c _. apply not_elem_of_nil.
  - done.
  - intros c Hc. split; [done|]. split.
    + unfold proper, drives. repeat case_bool_decide; done.
    + intros i d. unfold drives. repeat case_bool_decide; intros E Ha; simplify_eq; apply first_good.
Qed.

Lemma table_ok : reflects table drives.
Proof.
  intros c i. unfold table, drives. destruct (decide ((c, i) = (0, 0))) as [E|Hne].
  - simplify_eq. by rewrite lookup_singleton_eq.
  - rewrite lookup_singleton_ne by congruence. symmetry. destruct (bool_decide _); [|done].
    destruct (decide (c = 0)) as [->|]; [|by rewrite bool_decide_false]. rewrite bool_decide_true by done.
    rewrite (bool_decide_false (i = 0)) by congruence. by case_bool_decide.
Qed.

Lemma requests_proper : Forall proper_request requests.
Proof. repeat constructor; cbn; try lia; by apply zero_sector. Qed.

Lemma disk_driver_refines_maps_witness :
  exists m1 m2, disk_init 3000 start = Ret (m1, tt) /\
    run_disks 3000 requests m1 = Ret (m2, [replicate 512 7; []; replicate 512 9]).
Proof.
  destruct (disk_driver_refines_maps 3000 start drives table requests) as (m1 & E & H);
    [unfold MAX_TICKS; lia|exact start_on|exact table_ok|exact requests_proper|].
  assert (exists D', spec_run requests table = Ret (D', [replicate 512 7; []; replicate 512 9])) as [D' Es] by (eexists; vm_compute; reflexivity).
  rewrite Es in H. destruct H as (m2 & E2 & _). eauto.
Defined.

Lemma disk_init_finds_drives_witness :
  exists m1, disk_init 3000 start = Ret (m1, tt) /\ disk_get 0 0 m1 = Ret (m1, Some (0, 0)) /\ disk_size (Some (0, 0)) m1 = Ret (m1, 2).
Proof.
  apply (disk_init_finds_drives 3000 start drives table 0 0);
    [unfold MAX_TICKS; lia|exact start_on|exact table_ok|by left|by left].
Defined.
End Example.

(** ** The disk below the buffer cache *)

(** A state [S] that holds a map of sectors, with the operations that access it. *)
Class SectorStore (S : Type) (rd : Z -> S -> res (S * list Z)) (wr : Z -> list Z -> S -> res (S * unit))
  (holds : S -> gmap Z (list Z) -> Prop) : Prop := {
  store_read s st g : 0 <= s -> holds st g ->
    match g !! s with
    | Some b => exists st', rd s st = Ret (st', b) /\ holds st' g
    | None => rd s st = Panic
    end;
  store_write s b st g : 0 <= s -> sector b -> holds st g ->
    match g !! s with
    | Some _ => exists st', wr s b st = Ret (st', tt) /\ holds st' (<[s := b]> g)
    | None => wr s b st = Panic
    end
}.

(** The disk of the cache. *)
#[export] Instance cache_store : SectorStore cached_disk
  (fun s c => let! b := Cache.disk_read c s in Ret (c, b))
  (fun s b c => let! c := Cache.disk_write c s b in Ret (c, tt))
  (fun c g => Cache.disk c = g).
Proof.
  split; intros.
  - unfold Cache.disk_read. subst g. destruct (Cache.disk st !! s) as [b|]; [|done]. by exists st.
  - unfold Cache.disk_write. subst g. destruct (Cache.disk st !! s) as [b'|]; [|done]. eexists. by split.
Qed.

(** Disk [p] of the driver, the other disks holding [D]. *)
Section Driver.
Context {hw : Type} {B : Bus hw} {A : AtaBus hw B} {patience : nat} (Hpat : MAX_TICKS <= Z.of_nat patience) (p : Z * Z).

Definition holds_disk (m : @machine hw) (g : gmap Z (list Z)) : Prop := exists D, online m D /\ D !! p = Some g.

Lemma holds_get m g : holds_disk m g -> disk_get (fst p) (snd p) m = Ret (m, Some p).
Proof using A.
  clear Hpat. intros (D & (chs & vs & hs & Hon) & HD). destruct p as [c i]. cbn [fst snd].
  destruct (entry _ _ _ _ _ _ _ _ Hon HD) as (Hc & _). rewrite (get_ok chs vs hs m D) by (done || (destruct Hc; lia)). by rewrite HD.
Qed.

Lemma holds_chan m g : holds_disk m g -> 0 <= fst p.
Proof using A.
  clear Hpat. intros (D & (chs & vs & hs & Hon) & HD). destruct p as [c i].
  destruct (entry _ _ _ _ _ _ _ _ Hon HD) as (Hc & _). cbn. destruct Hc; lia.
Qed.

#[export] Instance driver_store : SectorStore machine (fun s => disk_read patience (Some p) s) (fun s b => disk_write patience (Some p) s b) holds_disk.
Proof using Hpat.
  split.
  - intros s m g Hs Hh. pose proof (holds_get m g Hh) as Hg. pose proof (holds_chan m g Hh) as Hc. destruct Hh as (D & Hon & HD).
    pose proof (serve_ok Hpat m D (RRead p s) Hon (conj Hc Hs)) as Hs'. cbn [serve spec_one] in Hs'. unfold bind in Hs'.
    rewrite Hg, HD in Hs'. cbn [rbind] in Hs'. destruct (g !! s) as [b|]; [|done].
    destruct Hs' as (m' & E & Hon'). exists m'. split; [done|]. by exists D.
  - intros s b m g Hs Hb Hh. pose proof (holds_get m g Hh) as Hg. pose proof (holds_chan m g Hh) as Hc. destruct Hh as (D & Hon & HD).
    pose proof (serve_ok Hpat m D (RWrite p s b) Hon (conj Hc (conj Hs Hb))) as Hs'. cbn [serve spec_one] in Hs'. unfold bind in Hs'.
    rewrite Hg, HD in Hs'. cbn [rbind] in Hs'. destruct (g !! s) as [b'|].
    + destruct Hs' as (m' & E & Hon'). destruct (disk_write patience (Some p) s b m) as [[m1 []]| | |]; try done.
      exists m1. split; [done|]. cbn [rbind] in E. unfold ret in E. simplify_eq.
      exists (<[p := <[s := b]> g]> D). split; [done|]. apply lookup_insert_eq.
    + destruct (disk_write patience (Some p) s b m) as [[m1 []]| | |]; done.
Qed.
End Driver.

(** ** Clients of the interface *)

Inductive access := ARead (s : Z) | AWrite (s : Z) (b : list Z).
Definition proper_access (r : access) : Prop := match r with ARead s => 0 <= s | AWrite s b => 0 <= s /\ sector b end.

Section Client.
Context {S : Type} (rd : Z -> S -> res (S * list Z)) (wr : Z -> list Z -> S -> res (S * unit)).

Fixpoint run_store (rs : list access) (st : S) : res (S * list (list Z)) :=
  match rs with
  | [] => Ret (st, [])
  | ARead s :: rs =>
      let! '(st, b) := rd s st in
      let! '(st, bs) := run_store rs st in Ret (st, b :: bs)
  | AWrite s b :: rs =>
      let! '(st, _) := wr s b st in run_store rs st
  end.
End Client.

(** Two stores that hold the same sectors cannot be told apart: the buffer cache runs on
    the driver as it runs on the map of [Cache.v]. *)
Theorem stores_agree {S1 S2 rd1 wr1 h1 rd2 wr2 h2} `{!SectorStore S1 rd1 wr1 h1} `{!SectorStore S2 rd2 wr2 h2} rs :
  forall st1 st2 g, h1 st1 g -> h2 st2 g -> Forall proper_access rs ->
  (run_store rd1 wr1 rs st1 = Panic /\ run_store rd2 wr2 rs st2 = Panic) \/
  exists st1' st2' g' out, run_store rd1 wr1 rs st1 = Ret (st1', out) /\ run_store rd2 wr2 rs st2 = Ret (st2', out) /\ h1 st1' g' /\ h2 st2' g'.
Proof.
  induction rs as [|[s|s b] rs IH]; intros st1 st2 g H1 H2 Hrs; cbn [run_store].
  - right. by exists st1, st2, g, [].
  - apply Forall_cons in Hrs as [Hs Hrs]. pose proof (store_read s st1 g Hs H1) as R1. pose proof (store_read s st2 g Hs H2) as R2.
    destruct (g !! s) as [b|]; [|left; by rewrite R1, R2].
    destruct R1 as (u1 & -> & K1), R2 as (u2 & -> & K2). cbn [rbind].
    destruct (IH u1 u2 g K1 K2 Hrs) as [[-> ->]|(v1 & v2 & g' & out & -> & -> & L1 & L2)]; [by left|].
    right. by exists v1, v2, g', (b :: out).
  - apply Forall_cons in Hrs as [[Hs Hb] Hrs]. pose proof (store_write s b st1 g Hs Hb H1) as R1. pose proof (store_write s b st2 g Hs Hb H2) as R2.
    destruct (g !! s) as [b'|]; [|left; by rewrite R1, R2].
    destruct R1 as (u1 & -> & K1), R2 as (u2 & -> & K2). cbn [rbind]. by apply (IH _ _ (<[s := b]> g)).
Qed.
