(* ===== verification/Interrupts.v ===== *)
(** * threads/interrupt.c: the interrupt table, the interrupt controllers and dispatch

    The interrupt descriptor table is an array of 64-bit words, as the processor reads
    it; handlers are function pointers, and [call] runs the function at an address.
    The two 8259A controllers are a parameter, the class [PicBus]; [InterruptsProof.v] states what
    they promise.  [intr_stubs] gives the addresses of the stubs of intr-stubs.S and
    [idt_addr] that of the table.  [W] is the rest of the kernel, which handlers change.

    The initialisation functions of the timer, the keyboard, the exceptions and the
    system calls register their handlers here.  [interrupt] is the whole way of an
    interrupt: the processor reads the gate and the code segment, the stub calls
    [intr_handler] and [iret] restores the interrupt flag. *)

From Stdlib Require Import String.
From S2P Require Import Prelude Vaddr KList Kernel Disk Segments.
#[local] Open Scope Z_scope.

Class PicBus (hw : Type) := {
  pic_outb : Z -> Z -> hw -> hw;
  pic_ack : Z -> hw -> Z * hw     (* the processor takes the request of a line: the vector *)
}.

Definition INTR_CNT : Z := 256.

Record intr_frame := mkFrame {
  edi : Z; esi : Z; ebp : Z; esp_dummy : Z; ebx : Z; edx : Z; ecx : Z; eax : Z;
  gs : Z; fs : Z; es : Z; ds : Z;
  vec_no : Z; error_code : Z; frame_pointer : Z;
  eip : Z; cs : Z; eflags : Z; esp : Z; ss : Z
}.
Definition with_vec (v : Z) (f : intr_frame) : intr_frame :=
  mkFrame (edi f) (esi f) (ebp f) (esp_dummy f) (ebx f) (edx f) (ecx f) (eax f) (gs f) (fs f) (es f) (ds f)
    v (error_code f) (frame_pointer f) (eip f) (cs f) (eflags f) (esp f) (ss f).

Section Interrupts.
Context {hw W : Type} {P : PicBus hw}.

Record intr := mkIntr {
  idt : list Z;
  idtr : Z;                       (* the last operand of LIDT *)
  intr_handlers : list Z;
  intr_names : list string;
  i_external : bool;              (* in_external_intr *)
  i_yield : bool;                 (* yield_on_return *)
  i_level : intr_level;
  cr2 : Z;
  console : list printed;         (* calls of [printf], latest first *)
  i_hw : hw;
  i_world : W
}.

Definition set_idt (l : list Z) (r : Z) (s : intr) : intr :=
  mkIntr l r (intr_handlers s) (intr_names s) (i_external s) (i_yield s) (i_level s) (cr2 s) (console s) (i_hw s) (i_world s).
Definition set_handlers (l : list Z) (n : list string) (s : intr) : intr :=
  mkIntr (idt s) (idtr s) l n (i_external s) (i_yield s) (i_level s) (cr2 s) (console s) (i_hw s) (i_world s).
Definition set_flags (ext yield : bool) (s : intr) : intr :=
  mkIntr (idt s) (idtr s) (intr_handlers s) (intr_names s) ext yield (i_level s) (cr2 s) (console s) (i_hw s) (i_world s).
Definition set_level (l : intr_level) (s : intr) : intr :=
  mkIntr (idt s) (idtr s) (intr_handlers s) (intr_names s) (i_external s) (i_yield s) l (cr2 s) (console s) (i_hw s) (i_world s).
Definition put (format : string) (args : list arg) (s : intr) : intr :=
  mkIntr (idt s) (idtr s) (intr_handlers s) (intr_names s) (i_external s) (i_yield s) (i_level s) (cr2 s) ((format, args) :: console s) (i_hw s) (i_world s).
Definition set_hw (h : hw) (s : intr) : intr :=
  mkIntr (idt s) (idtr s) (intr_handlers s) (intr_names s) (i_external s) (i_yield s) (i_level s) (cr2 s) (console s) h (i_world s).
Definition outb (port data : Z) (s : intr) : intr := set_hw (pic_outb port (u8 data) (i_hw s)) s.

(** ** 8259A *)

Definition pic_init (s : intr) : intr :=
  let s := outb 0x21 0xff s in
  let s := outb 0xa1 0xff s in
  let s := outb 0x20 0x11 s in
  let s := outb 0x21 0x20 s in
  let s := outb 0x21 0x04 s in
  let s := outb 0x21 0x01 s in
  let s := outb 0xa0 0x11 s in
  let s := outb 0xa1 0x28 s in
  let s := outb 0xa1 0x02 s in
  let s := outb 0xa1 0x01 s in
  let s := outb 0x21 0x00 s in
  outb 0xa1 0x00 s.

Definition pic_end_of_interrupt (irq : Z) (s : intr) : res intr :=
  ASSERT (bool_decide (irq >= 0x20) && bool_decide (irq < 0x30));
  let s := outb 0x20 0x20 s in
  Ret (if bool_decide (irq >= 0x28) then outb 0xa0 0x20 s else s).

(** ** Gates *)

Definition make_gate (function dpl type : Z) : res Z :=
  ASSERT bool_decide (function <> NULL);
  ASSERT (bool_decide (dpl >= 0) && bool_decide (dpl <= 3));
  ASSERT (bool_decide (type >= 0) && bool_decide (type <= 15));
  let e0 := Z.lor (Z.land function 0xffff) (Z.shiftl SEL_KCSEG 16) in
  let e1 := Z.lor (Z.lor (Z.lor (Z.lor
              (Z.land function 0xffff0000)
              (Z.shiftl 1 15))
              (u32 (Z.shiftl dpl 13)))
              (Z.shiftl 0 12))
              (u32 (Z.shiftl type 8)) in
  Ret (Z.lor e0 (u64 (Z.shiftl e1 32))).

Definition make_intr_gate (function dpl : Z) : res Z := make_gate function dpl 14.
Definition make_trap_gate (function dpl : Z) : res Z := make_gate function dpl 15.
Definition make_idtr_operand (limit base : Z) : Z := Z.lor limit (u64 (Z.shiftl base 16)).

Context (intr_stubs : Z -> Z) (idt_addr : Z).

Definition cpu_names : list (nat * string) :=
  [(0%nat, "#DE Divide Error"%string); (1%nat, "#DB Debug Exception"%string); (2%nat, "NMI Interrupt"%string);
   (3%nat, "#BP Breakpoint Exception"%string); (4%nat, "#OF Overflow Exception"%string);
   (5%nat, "#BR BOUND Range Exceeded Exception"%string); (6%nat, "#UD Invalid Opcode Exception"%string);
   (7%nat, "#NM Device Not Available Exception"%string); (8%nat, "#DF Double Fault Exception"%string);
   (9%nat, "Coprocessor Segment Overrun"%string); (10%nat, "#TS Invalid TSS Exception"%string);
   (11%nat, "#NP Segment Not Present"%string); (12%nat, "#SS Stack Fault Exception"%string);
   (13%nat, "#GP General Protection Exception"%string); (14%nat, "#PF Page-Fault Exception"%string);
   (16%nat, "#MF x87 FPU Floating-Point Error"%string); (17%nat, "#AC Alignment Check Exception"%string);
   (18%nat, "#MC Machine-Check Exception"%string); (19%nat, "#XF SIMD Floating-Point Exception"%string)].

Definition first_names : list string :=
  fold_left (fun l '(i, n) => <[i := n]> l) cpu_names (replicate (Z.to_nat INTR_CNT) "unknown"%string).

Definition intr_init (s : intr) : res intr :=
  let s := pic_init s in
  let! l := for_up (Z.to_nat INTR_CNT) 0 (fun i l => let! g := make_intr_gate (intr_stubs i) 0 in aset l i g) (idt s) in
  let s := set_idt l (make_idtr_operand (8 * INTR_CNT - 1) idt_addr) s in
  Ret (set_handlers (intr_handlers s) first_names s).

(** ** Registration *)

Definition register_handler (vec_no dpl : Z) (level : intr_level) (handler : Z) (name : string) (s : intr) : res intr :=
  let! h := aget (intr_handlers s) vec_no in
  ASSERT bool_decide (h = NULL);
  let! g := (if bool_decide (level = INTR_ON) then make_trap_gate (intr_stubs vec_no) dpl else make_intr_gate (intr_stubs vec_no) dpl) in
  let! l := aset (idt s) vec_no g in
  let! hs := aset (intr_handlers s) vec_no handler in
  let! ns := aset (intr_names s) vec_no name in
  Ret (set_handlers hs ns (set_idt l (idtr s) s)).

Definition intr_register_ext (vec_no handler : Z) (name : string) (s : intr) : res intr :=
  ASSERT (bool_decide (vec_no >= 0x20) && bool_decide (vec_no <= 0x2f));
  register_handler vec_no 0 INTR_OFF handler name s.

Definition intr_register_int (vec_no dpl : Z) (level : intr_level) (handler : Z) (name : string) (s : intr) : res intr :=
  ASSERT (bool_decide (vec_no < 0x20) || bool_decide (vec_no > 0x2f));
  register_handler vec_no dpl level handler name s.

Definition intr_context (s : intr) : bool := i_external s.
Definition intr_yield_on_return (s : intr) : res intr :=
  ASSERT (intr_context s); Ret (set_flags (i_external s) true s).
Definition intr_name (vec : Z) (s : intr) : res string := aget (intr_names s) vec.

(** ** Dispatch *)

Definition intr_dump_frame (f : intr_frame) (s : intr) : res intr :=
  let! name := intr_name (vec_no f) s in
  let s := put "Interrupt %#04x (%s) at eip=%p\n" [ANum (vec_no f); AStr name; ANum (eip f)] s in
  let s := put " cr2=%08x error=%08x\n" [ANum (cr2 s); ANum (error_code f)] s in
  let s := put " eax=%08x ebx=%08x ecx=%08x edx=%08x\n" [ANum (eax f); ANum (ebx f); ANum (ecx f); ANum (edx f)] s in
  let s := put " esi=%08x edi=%08x esp=%08x ebp=%08x\n" [ANum (esi f); ANum (edi f); ANum (esp f); ANum (ebp f)] s in
  Ret (put " cs=%04hx ds=%04hx es=%04hx ss=%04hx\n" [ANum (cs f); ANum (ds f); ANum (es f); ANum (ss f)] s).

Context (call : Z -> intr_frame -> intr -> res intr) (thread_yield : intr -> res intr).

Definition intr_handler (frame : intr_frame) (s : intr) : res intr :=
  let external := bool_decide (vec_no frame >= 0x20) && bool_decide (vec_no frame < 0x30) in
  let! s := (if external then
               ASSERT bool_decide (i_level s = INTR_OFF);
               ASSERT (negb (intr_context s));
               Ret (set_flags true false s)
             else Ret s) in
  let! handler := aget (intr_handlers s) (vec_no frame) in
  let! s := (if bool_decide (handler <> NULL) then call handler frame s
             else if bool_decide (vec_no frame = 0x27) || bool_decide (vec_no frame = 0x2f) then Ret s
             else let! _ := intr_dump_frame frame s in Panic) in
  if external then
    ASSERT bool_decide (i_level s = INTR_OFF);
    ASSERT (intr_context s);
    let s := set_flags false (i_yield s) s in
    let! s := pic_end_of_interrupt (vec_no frame) s in
    if i_yield s then thread_yield s else Ret s
  else Ret s.

(** ** Who registers *)

(** The addresses of the handlers. *)
Context (a_kill a_page_fault a_syscall_handler a_timer_interrupt a_keyboard_interrupt : Z).

Definition timer_init (s : intr) : res intr :=
  let count := u16 ((1193180 + TIMER_FREQ / 2) / TIMER_FREQ) in
  let s := outb 0x43 0x34 s in
  let s := outb 0x40 (Z.land count 0xff) s in
  let s := outb 0x40 (Z.shiftr count 8) s in
  intr_register_ext 0x20 a_timer_interrupt "8254 Timer" s.

Definition kbd_init (s : intr) : res intr := intr_register_ext 0x21 a_keyboard_interrupt "8042 Keyboard" s.

Definition exception_init (s : intr) : res intr :=
  let! s := intr_register_int 3 3 INTR_ON a_kill "#BP Breakpoint Exception" s in
  let! s := intr_register_int 4 3 INTR_ON a_kill "#OF Overflow Exception" s in
  let! s := intr_register_int 5 3 INTR_ON a_kill "#BR BOUND Range Exceeded Exception" s in
  let! s := intr_register_int 0 0 INTR_ON a_kill "#DE Divide Error" s in
  let! s := intr_register_int 1 0 INTR_ON a_kill "#DB Debug Exception" s in
  let! s := intr_register_int 6 0 INTR_ON a_kill "#UD Invalid Opcode Exception" s in
  let! s := intr_register_int 7 0 INTR_ON a_kill "#NM Device Not Available Exception" s in
  let! s := intr_register_int 11 0 INTR_ON a_kill "#NP Segment Not Present" s in
  let! s := intr_register_int 12 0 INTR_ON a_kill "#SS Stack Fault Exception" s in
  let! s := intr_register_int 13 0 INTR_ON a_kill "#GP General Protection Exception" s in
  let! s := intr_register_int 16 0 INTR_ON a_kill "#MF x87 FPU Floating-Point Error" s in
  let! s := intr_register_int 19 0 INTR_ON a_kill "#XF SIMD Floating-Point Exception" s in
  intr_register_int 14 0 INTR_OFF a_page_fault "#PF Page-Fault Exception" s.

Definition syscall_init (s : intr) : res intr := intr_register_int 0x30 3 INTR_ON a_syscall_handler "syscall" s.

(** [kill]; [thread_exit] does not return to it. *)
Definition kill (thread_name : string) (thread_exit : intr -> res intr) (f : intr_frame) (s : intr) : res intr :=
  if bool_decide (cs f = SEL_UCSEG) then
    let! name := intr_name (vec_no f) s in
    let s := put "%s: dying due to interrupt %#04x (%s).\n" [AStr thread_name; ANum (vec_no f); AStr name] s in
    let! s := intr_dump_frame f s in
    thread_exit s
  else if bool_decide (cs f = SEL_KCSEG) then
    let! _ := intr_dump_frame f s in Panic
  else
    let! name := intr_name (vec_no f) s in
    thread_exit (put "Interrupt %#04x (%s) in unknown segment %04x\n" [ANum (vec_no f); AStr name; ANum (cs f)] s).

(** The part of [main] that fills the table, up to [thread_start]. *)
Definition tables_init (s : intr) : res intr :=
  let! s := intr_init s in
  let! s := timer_init s in
  let! s := kbd_init s in
  let! s := exception_init s in
  syscall_init s.

(** ** The processor *)

Record gate := mkGate { g_offset : Z; g_sel : Z; g_dpl : Z; g_trap : bool }.

(** An interrupt or trap gate that is present. *)
Definition gate_of (d : Z) : option gate :=
  if bool_decide (bitfield d 47 1 = 1) && bool_decide (bitfield d 41 4 = 7)
  then Some (mkGate (bitfield d 0 16 + 2 ^ 16 * bitfield d 48 16) (bitfield d 16 16) (bitfield d 45 2) (bool_decide (bitfield d 40 1 = 1)))
  else None.

Definition vector_gate (s : intr) (v : Z) : option gate :=
  if bool_decide (bitfield (idtr s) 16 32 = idt_addr) && bool_decide (8 * v + 7 <= bitfield (idtr s) 0 16)
  then idt s !! Z.to_nat v ≫= gate_of else None.

(** The vector that is delivered: a gate whose privilege level does not allow the INT
    instruction [soft] raises a general protection exception instead. *)
Definition delivered (s : intr) (cpl : Z) (soft : bool) (v : Z) : option Z :=
  g ← vector_gate s v; Some (if soft && bool_decide (g_dpl g < cpl) then 13 else v).

(** The stub at an address pushes its vector. *)
Definition stub_vec (a : Z) : option Z := snd <$> list_find (fun v => intr_stubs v = a) (seqZ 0 INTR_CNT).

(** What the processor does with vector [v] before the first instruction of the handler:
    the ring, the stack and the address it goes on with, and the interrupt flag. *)
Record entered := mkEntered { en_ring : Z; en_stack : option (Z * Z); en_eip : Z; en_level : intr_level }.

Definition enter (gdt_addr : Z) (g : segments) (s : intr) (cpl v : Z) : option entered :=
  gt ← vector_gate s v;
  c ← load_seg gdt_addr g (g_sel gt);
  let level := if g_trap gt then i_level s else INTR_OFF in
  if bool_decide (sg_dpl c < cpl)
  then st ← ring0_stack gdt_addr g; Some (mkEntered (sg_dpl c) (Some st) (sg_base c + g_offset gt) level)
  else Some (mkEntered cpl None (sg_base c + g_offset gt) level).

(** The stub calls [intr_handler]; [iret] restores the interrupt flag. *)
Definition interrupt (gdt_addr : Z) (g : segments) (cpl : Z) (soft : bool) (v : Z) (f : intr_frame) (s : intr) : res intr :=
  let! v := of_opt (delivered s cpl soft v) in
  let! e := of_opt (enter gdt_addr g s cpl v) in
  let! n := of_opt (stub_vec (en_eip e)) in
  let! s' := intr_handler (with_vec n f) (set_level (en_level e) s) in
  Ret (set_level (i_level s) s').
End Interrupts.
