(* ===== verification/InterruptsProof.v ===== *)
(** * Interrupts reach their handlers

    [tables_ok] relates the interrupt table to a finite map of registrations, which every
    [register_handler] extends, and the lemmas follow the controllers through [pic_init] and
    [pic_end_of_interrupt].  [InterruptsRun.v] has the results.

    First comes what the two 8259A controllers promise: their state, in the part of the
    data sheet that interrupt.c relies on, is where a controller is in the sequence of
    initialisation words, the vector of its first line, the mask, the cascade word, and
    the lines in service, that of the highest priority first.  A write in a situation the
    driver does not use is left open ([chip_write] is [None]).  In the class [Pic] a write
    to a port of a controller changes that controller in the way the data sheet says and no
    other, a write to another port changes none, and when neither controller is serving,
    the processor gets from a request on an unmasked line the vector of the line, which is
    then in service, at both controllers when the request comes through the slave. *)

From Stdlib Require Import String.
From S2P Require Import Prelude Vaddr KList Kernel Disk Segments Interrupts.
#[local] Open Scope Z_scope.

(** ** The controllers *)

Inductive stage := Icw2 | Icw3 | Icw4 | Ready.

Record chip := mkChip {
  ch_stage : stage;
  ch_base : Z;
  ch_link : Z;
  ch_mask : Z;
  ch_serving : list Z
}.

Inductive which := Master | Slave.
#[export] Instance which_eq_dec : EqDecision which.
Proof. solve_decision. Defined.

(** The port with A0 = 0; the port with A0 = 1 is the next one. *)
Definition port_of (c : which) : Z := match c with Master => 0x20 | Slave => 0xa0 end.

Definition chip_write (a0 : bool) (v : Z) (c : chip) : option chip :=
  if a0 then
    match ch_stage c with
    | Icw2 => Some (mkChip Icw3 (Z.land v 0xf8) (ch_link c) (ch_mask c) (ch_serving c))
    | Icw3 => Some (mkChip Icw4 (ch_base c) v (ch_mask c) (ch_serving c))
    | Icw4 => if bool_decide (v = 0x01) then Some (mkChip Ready (ch_base c) (ch_link c) (ch_mask c) (ch_serving c)) else None
    | Ready => Some (mkChip Ready (ch_base c) (ch_link c) v (ch_serving c))
    end
  else if bool_decide (v = 0x11) then Some (mkChip Icw2 (ch_base c) (ch_link c) 0 (ch_serving c))
  else match ch_stage c with
       | Ready => if bool_decide (v = 0x20)
                  then Some (mkChip Ready (ch_base c) (ch_link c) (ch_mask c) (tail (ch_serving c))) else None
       | _ => None
       end.

Definition serve (line : Z) (c : chip) : chip := mkChip (ch_stage c) (ch_base c) (ch_link c) (ch_mask c) (line :: ch_serving c).
Definition open_line (c : chip) (line : Z) : bool := negb (Z.testbit (ch_mask c) line).

Class Pic (hw : Type) (P : PicBus hw) := {
  chip_of : hw -> which -> chip;
  pic_write h c a0 v ch :
    chip_write a0 v (chip_of h c) = Some ch -> 0 <= v < 2 ^ 8 ->
    forall c', chip_of (pic_outb (port_of c + Z.b2z a0) v h) c' = if decide (c' = c) then ch else chip_of h c';
  pic_other h port v c :
    port <> 0x20 -> port <> 0x21 -> port <> 0xa0 -> port <> 0xa1 -> chip_of (pic_outb port v h) c = chip_of h c;
  pic_take h n :
    ch_stage (chip_of h Master) = Ready -> ch_stage (chip_of h Slave) = Ready ->
    ch_serving (chip_of h Master) = [] -> ch_serving (chip_of h Slave) = [] ->
    ch_link (chip_of h Master) = 2 ^ 2 -> ch_link (chip_of h Slave) = 2 ->
    (0 <= n < 8 -> n <> 2 -> open_line (chip_of h Master) n = true ->
     fst (pic_ack n h) = ch_base (chip_of h Master) + n /\
     chip_of (snd (pic_ack n h)) Master = serve n (chip_of h Master) /\ chip_of (snd (pic_ack n h)) Slave = chip_of h Slave) /\
    (8 <= n < 16 -> open_line (chip_of h Master) 2 = true -> open_line (chip_of h Slave) (n - 8) = true ->
     fst (pic_ack n h) = ch_base (chip_of h Slave) + (n - 8) /\
     chip_of (snd (pic_ack n h)) Master = serve 2 (chip_of h Master) /\ chip_of (snd (pic_ack n h)) Slave = serve (n - 8) (chip_of h Slave))
}.

(** ** Gates *)

Lemma lor_turn a b c d : Z.lor (Z.lor (Z.lor (Z.lor a b) c) 0) d = Z.lor (Z.lor (Z.lor d c) b) a.
Proof.
  apply Z.bits_inj'. intros k _. rewrite !Z.lor_spec, Z.bits_0.
  by destruct (Z.testbit a k), (Z.testbit b k), (Z.testbit c k), (Z.testbit d k).
Qed.

Lemma make_gate_ok f dpl b : is_u32 f -> f <> NULL -> 0 <= dpl < 4 -> 0 <= b < 2 ->
  exists d, make_gate f dpl (14 + b) = Ret d /\ gate_of d = Some (mkGate f SEL_KCSEG dpl (bool_decide (b = 1))).
Proof.
  intros Hf Hn Hd Hb. unfold is_u32 in Hf. unfold make_gate. rewrite !bool_decide_true by (done || lia). cbn [assert_ rbind andb].
  eexists. split; [done|]. change 0xffff with (Z.ones 16). change 0xffff0000 with (Z.shiftl (Z.ones 16) 16).
  change (Z.shiftl 0 12) with 0. rewrite lor_turn, land_bitfield, Z.land_ones, bitfield_divmod by lia.
  assert (0 <= f / 2 ^ 16 < 2 ^ 16) by (Z.div_mod_to_equations; lia). rewrite (Z.mod_small (f / 2 ^ 16)) by lia.
  unfold u32. rewrite !(Z.mod_small (Z.shiftl _ _)) by (rewrite Z.shiftl_mul_pow2; lia).
  rewrite (Z.shiftl_mul_pow2 (14 + b)) by lia. rewrite (lor_shift_add _ dpl 13) by lia. rewrite (lor_shift_add _ 1 15) by lia.
  rewrite (lor_shift_add _ (f / 2 ^ 16) 16) by lia.
  assert (0 <= f mod 2 ^ 16 < 2 ^ 16) by (apply Z.mod_pos_bound; lia). rewrite (lor_shift_add _ SEL_KCSEG 16) by lia.
  unfold u64. rewrite (Z.mod_small (Z.shiftl _ 32)) by (rewrite Z.shiftl_mul_pow2; lia). rewrite lor_shift_add by (unfold SEL_KCSEG; lia).
  match goal with |- gate_of ?x = _ => set (d := x) end.
  assert (Ed : d = f mod 2 ^ 16 + 2 ^ 16 * (SEL_KCSEG + 2 ^ 16 * (0 + 2 ^ 8 * (b + 2 ^ 1 * (7 + 2 ^ 4 * (dpl + 2 ^ 2 * (1 + 2 ^ 1 * (f / 2 ^ 16))))))))
    by (unfold d; lia).
  clearbody d. assert (0 <= SEL_KCSEG < 2 ^ 16) by (unfold SEL_KCSEG; lia).
  assert (bitfield d 0 16 = f mod 2 ^ 16 /\ bitfield d 16 16 = SEL_KCSEG /\ bitfield d 40 1 = b /\ bitfield d 41 4 = 7 /\
          bitfield d 45 2 = dpl /\ bitfield d 47 1 = 1 /\ bitfield d 48 16 = f / 2 ^ 16) as (E1 & E2 & E3 & E4 & E5 & E6 & E7)
    by (rewrite Ed; split_and!; bitfields; done).
  unfold gate_of. rewrite E1, E2, E3, E4, E5, E6, E7. rewrite !(bool_decide_true (_ = _)) by done. cbn [andb]. do 2 f_equal.
  Z.div_mod_to_equations; lia.
Qed.

(** ** The table as a map of registrations *)

Record reg := mkReg { r_dpl : Z; r_level : intr_level; r_handler : Z; r_name : string }.

Section Tables.
Context {hw W : Type} {P : PicBus hw} (intr_stubs : Z -> Z) (idt_addr : Z).
#[local] Abbreviation intr := (@intr hw W).

(** The stubs are 256 different functions. *)
Record stubs_ok : Prop := {
  st_u32 v : 0 <= v < INTR_CNT -> is_u32 (intr_stubs v) /\ intr_stubs v <> NULL;
  st_inj v v' : 0 <= v < INTR_CNT -> 0 <= v' < INTR_CNT -> intr_stubs v = intr_stubs v' -> v = v'
}.

(** The gate of vector [v] when it is registered as [o]. *)
Definition gate_for (v : Z) (o : option reg) : gate :=
  match o with
  | None => mkGate (intr_stubs v) SEL_KCSEG 0 false
  | Some r => mkGate (intr_stubs v) SEL_KCSEG (r_dpl r) (bool_decide (r_level r = INTR_ON))
  end.

Record tables_ok (T : gmap Z reg) (s : intr) : Prop := {
  tb_idt v : 0 <= v < INTR_CNT -> exists d, idt s !! Z.to_nat v = Some d /\ gate_of d = Some (gate_for v (T !! v));
  tb_handler v : 0 <= v < INTR_CNT -> intr_handlers s !! Z.to_nat v = Some (from_option r_handler NULL (T !! v));
  tb_name v r : 0 <= v < INTR_CNT -> T !! v = Some r -> intr_names s !! Z.to_nat v = Some (r_name r);
  tb_names : length (intr_names s) = 256%nat;
  tb_idtr : idtr s = make_idtr_operand (8 * INTR_CNT - 1) idt_addr;
  tb_reg v r : T !! v = Some r -> 0 <= r_dpl r < 4 /\ r_handler r <> NULL
}.

Lemma gate_level f dpl l : is_u32 f -> f <> NULL -> 0 <= dpl < 4 ->
  exists d, (if bool_decide (l = INTR_ON) then make_trap_gate f dpl else make_intr_gate f dpl) = Ret d /\
    gate_of d = Some (mkGate f SEL_KCSEG dpl (bool_decide (l = INTR_ON))).
Proof.
  intros Hf Hn Hd. destruct l; [rewrite (bool_decide_false (INTR_OFF = INTR_ON)) by done|rewrite (bool_decide_true (INTR_ON = INTR_ON)) by done].
  - by apply (make_gate_ok f dpl 0).
  - by apply (make_gate_ok f dpl 1).
Qed.

Lemma register_ok T s v dpl l h name : stubs_ok -> tables_ok T s -> 0 <= v < INTR_CNT -> T !! v = None -> 0 <= dpl < 4 -> h <> NULL ->
  exists s', register_handler intr_stubs v dpl l h name s = Ret s' /\ tables_ok (<[v := mkReg dpl l h name]> T) s' /\
    i_hw s' = i_hw s /\ i_external s' = i_external s /\ i_level s' = i_level s /\ i_world s' = i_world s.
Proof.
  intros Hst [H1 H2 H3 H4 H5 H6] Hv HT Hd Hh. unfold register_handler.
  pose proof (H2 v Hv) as Hhv. rewrite HT in Hhv. cbn in Hhv.
  assert (aget (intr_handlers s) v = Ret NULL) as -> by (apply aget_Ret; split; [lia|done]). cbn [rbind]. rewrite bool_decide_true by done. cbn [assert_ rbind].
  destruct (st_u32 Hst v Hv) as [Hs1 Hs2]. destruct (gate_level (intr_stubs v) dpl l Hs1 Hs2 Hd) as (g & -> & Hg). cbn [rbind].
  destruct (H1 v Hv) as (d0 & Hd0 & _).
  assert (Hlen : forall {A} (x : list A) y, x !! Z.to_nat v = Some y -> 0 <= v < Z.of_nat (length x)) by (intros A x y Hx; apply lookup_lt_Some in Hx; lia).
  rewrite (aset_in_range (idt s)) by (by eapply Hlen). cbn [rbind]. rewrite (aset_in_range (intr_handlers s)) by (by eapply Hlen). cbn [rbind].
  rewrite (aset_in_range (intr_names s)) by (unfold INTR_CNT in *; lia). cbn [rbind]. eexists. split_and!; [done| |done..].
  constructor; cbn [idt intr_handlers intr_names idtr set_handlers set_idt].
  - intros v' Hv'. destruct (decide (v' = v)) as [->|Hne].
    + exists g. rewrite list_lookup_insert_eq by (apply lookup_lt_Some in Hd0; lia). rewrite lookup_insert_eq. done.
    + rewrite list_lookup_insert_ne, lookup_insert_ne by lia. by apply H1.
  - intros v' Hv'. destruct (decide (v' = v)) as [->|Hne].
    + rewrite list_lookup_insert_eq by (apply lookup_lt_Some in Hhv; lia). by rewrite lookup_insert_eq.
    + rewrite list_lookup_insert_ne, lookup_insert_ne by lia. by apply H2.
  - intros v' r Hv' HT'. destruct (decide (v' = v)) as [->|Hne].
    + rewrite list_lookup_insert_eq by (unfold INTR_CNT in *; lia). rewrite lookup_insert_eq in HT'. by injection HT' as <-.
    + rewrite list_lookup_insert_ne by lia. rewrite lookup_insert_ne in HT' by done. by apply H3.
  - by rewrite length_insert.
  - done.
  - intros v' r. rewrite lookup_insert_Some. intros [[<- <-]|[_ HT']]; [done|by eapply H6].
Qed.

Lemma register_ext_ok T s v h name : stubs_ok -> tables_ok T s -> 0x20 <= v <= 0x2f -> T !! v = None -> h <> NULL ->
  exists s', intr_register_ext intr_stubs v h name s = Ret s' /\ tables_ok (<[v := mkReg 0 INTR_OFF h name]> T) s' /\
    i_hw s' = i_hw s /\ i_external s' = i_external s /\ i_level s' = i_level s /\ i_world s' = i_world s.
Proof.
  intros Hst HT Hv Hn Hh. unfold intr_register_ext. rewrite !bool_decide_true by lia. cbn [andb assert_ rbind].
  apply register_ok; unfold INTR_CNT; (done || lia).
Qed.

Lemma register_int_ok T s v dpl l h name : stubs_ok -> tables_ok T s -> 0 <= v < INTR_CNT -> v < 0x20 \/ 0x2f < v -> T !! v = None ->
  0 <= dpl < 4 -> h <> NULL ->
  exists s', intr_register_int intr_stubs v dpl l h name s = Ret s' /\ tables_ok (<[v := mkReg dpl l h name]> T) s' /\
    i_hw s' = i_hw s /\ i_external s' = i_external s /\ i_level s' = i_level s /\ i_world s' = i_world s.
Proof.
  intros Hst HT Hv Hv2 Hn Hd Hh. unfold intr_register_int.
  assert (bool_decide (v < 0x20) || bool_decide (v > 0x2f) = true) as ->.
  { apply orb_true_iff. rewrite !bool_decide_eq_true. lia. }
  cbn [assert_ rbind]. by apply register_ok.
Qed.

(** ** Writes to the controllers *)

Context {C : Pic hw P}.

Definition pics (h : hw) (m sl : chip) : Prop := chip_of h Master = m /\ chip_of h Slave = sl.

Lemma out_master h m sl a0 v m' : pics h m sl -> chip_write a0 v m = Some m' -> 0 <= v < 2 ^ 8 -> pics (pic_outb (0x20 + Z.b2z a0) (u8 v) h) m' sl.
Proof.
  intros [Hm Hs] Hw Hv. rewrite <- Hm in Hw. change 0x20 with (port_of Master). rewrite u8_small by lia. split.
  - by rewrite (pic_write _ Master a0 v m' Hw Hv Master).
  - by rewrite (pic_write _ Master a0 v m' Hw Hv Slave).
Qed.

Lemma out_slave h m sl a0 v sl' : pics h m sl -> chip_write a0 v sl = Some sl' -> 0 <= v < 2 ^ 8 -> pics (pic_outb (0xa0 + Z.b2z a0) (u8 v) h) m sl'.
Proof.
  intros [Hm Hs] Hw Hv. rewrite <- Hs in Hw. change 0xa0 with (port_of Slave). rewrite u8_small by lia. split.
  - by rewrite (pic_write _ Slave a0 v sl' Hw Hv Master).
  - by rewrite (pic_write _ Slave a0 v sl' Hw Hv Slave).
Qed.

Lemma out_other h m sl port v : pics h m sl -> port <> 0x20 -> port <> 0x21 -> port <> 0xa0 -> port <> 0xa1 -> pics (pic_outb port v h) m sl.
Proof. intros [Hm Hs] ? ? ? ?. split; rewrite pic_other; done. Qed.

(** A sequence of writes is one change of the hardware. *)
Lemma outb_hw port v (s : intr) : outb port v s = set_hw (pic_outb port (u8 v) (i_hw s)) s.
Proof. done. Qed.
Lemma outb_set_hw port v h (s : intr) : outb port v (set_hw h s) = set_hw (pic_outb port (u8 v) h) s.
Proof. done. Qed.

(** The controllers as [pic_init] sets them up, with lines [l] and [l'] in service. *)
Definition master_chip (l : list Z) : chip := mkChip Ready 0x20 4 0 l.
Definition slave_chip (l : list Z) : chip := mkChip Ready 0x28 2 0 l.
Definition pics_idle (h : hw) : Prop := pics h (master_chip []) (slave_chip []).

(** As the firmware leaves the controllers. *)
Definition pics_quiet (h : hw) : Prop :=
  forall c, ch_stage (chip_of h c) = Ready /\ ch_serving (chip_of h c) = [].

Lemma pic_init_ok (s : intr) : pics_quiet (i_hw s) -> exists h, pic_init s = set_hw h s /\ pics_idle h.
Proof.
  intros Hq. destruct (Hq Master) as [Hm1 Hm2], (Hq Slave) as [Hs1 Hs2].
  destruct (chip_of (i_hw s) Master) as [mst mb ml mm ms] eqn:EM, (chip_of (i_hw s) Slave) as [sst sb sl sm sv] eqn:ES. cbn in *. subst.
  assert (H0 : pics (i_hw s) (mkChip Ready mb ml mm []) (mkChip Ready sb sl sm [])) by done.
  unfold pic_init. cbv zeta. rewrite (outb_hw 0x21 0xff), !outb_set_hw. eexists. split; [reflexivity|]. unfold pics_idle.
  apply (out_slave _ _ (mkChip Ready 0x28 2 0 []) true); [|done..]. apply (out_master _ (mkChip Ready 0x20 4 0 []) _ true); [|done..].
  apply (out_slave _ _ (mkChip Icw4 0x28 2 0 []) true); [|done..]. apply (out_slave _ _ (mkChip Icw3 0x28 sl 0 []) true); [|done..].
  apply (out_slave _ _ (mkChip Icw2 sb sl 0 []) true); [|done..]. apply (out_slave _ _ (mkChip Ready sb sl 0xff []) false); [|done..].
  apply (out_master _ (mkChip Icw4 0x20 4 0 []) _ true); [|done..]. apply (out_master _ (mkChip Icw3 0x20 ml 0 []) _ true); [|done..].
  apply (out_master _ (mkChip Icw2 mb ml 0 []) _ true); [|done..]. apply (out_master _ (mkChip Ready mb ml 0xff []) _ false); [|done..].
  apply (out_slave _ _ (mkChip Ready sb sl sm []) true); [|done..]. by apply (out_master _ (mkChip Ready mb ml mm []) _ true).
Qed.

(** The end of the interrupt of line [n]. *)
Lemma pic_eoi_ok (s : intr) n : 0 <= n < 16 ->
  pics (i_hw s) (master_chip [if decide (n < 8) then n else 2]) (slave_chip (if decide (n < 8) then [] else [n - 8])) ->
  exists h, pic_end_of_interrupt (0x20 + n) s = Ret (set_hw h s) /\ pics_idle h.
Proof.
  intros Hn Hs. unfold pic_end_of_interrupt. rewrite !(bool_decide_true (0x20 + n >= 0x20)), (bool_decide_true (0x20 + n < 0x30)) by lia. cbn [andb assert_ rbind].
  pose proof (out_master _ _ _ false 0x20 (master_chip []) Hs) as H1. specialize (H1 eq_refl ltac:(lia)). case_decide.
  - rewrite bool_decide_false by lia. eexists. split; [reflexivity|exact H1].
  - rewrite bool_decide_true by lia. rewrite (outb_hw 0x20), outb_set_hw. eexists. split; [reflexivity|]. apply (out_slave _ _ _ false 0x20 (slave_chip []) H1); [done|lia].
Qed.

(** ** Setting up *)

(** The state in which the kernel starts: the arrays are zero and no device is served. *)
Record at_start (s : intr) : Prop := {
  as_idt : length (idt s) = 256%nat;
  as_handlers : intr_handlers s = replicate 256 NULL;
  as_quiet : pics_quiet (i_hw s);
  as_external : i_external s = false
}.

Lemma intr_init_ok s : stubs_ok -> at_start s ->
  exists s', intr_init intr_stubs idt_addr s = Ret s' /\ tables_ok ∅ s' /\ pics_idle (i_hw s') /\
    i_external s' = false /\ i_level s' = i_level s /\ i_world s' = i_world s.
Proof.
  intros Hst [Hi Hh Hq He]. unfold intr_init. destruct (pic_init_ok s Hq) as (h & -> & Hp). cbv zeta.
  destruct (for_up_total (fun i l => length l = 256%nat /\
              forall v, 0 <= v < i -> exists d, l !! Z.to_nat v = Some d /\ gate_of d = Some (gate_for v None))
             (fun i l => let! g := make_intr_gate (intr_stubs i) 0 in aset l i g) (Z.to_nat INTR_CNT) 0 (idt (set_hw h s))) as (l & -> & Hl & Hg).
  { split; [done|]. intros; lia. }
  { intros i l Hir [Hl Hg]. destruct (st_u32 Hst i) as [S1 S2]; [unfold INTR_CNT in *; lia|].
    destruct (make_gate_ok (intr_stubs i) 0 0) as (g & E & Hgo); [done..|lia|lia|]. unfold make_intr_gate. change (14 + 0) with 14 in E. rewrite E. cbn [rbind].
    rewrite aset_in_range by (unfold INTR_CNT in *; lia). eexists. split; [done|]. rewrite length_insert. split; [done|]. intros v Hv.
    destruct (decide (v = i)) as [->|Hne]; [exists g; rewrite list_lookup_insert_eq by (unfold INTR_CNT in *; lia); split; [reflexivity|exact Hgo]|].
    rewrite list_lookup_insert_ne by lia. apply Hg. lia. }
  cbn [rbind]. eexists. split; [reflexivity|]. split; [|split; [exact Hp|split; [exact He|split; reflexivity]]].
  constructor; cbn [idt idtr intr_handlers intr_names set_handlers set_idt]; try done.
  intros v Hv. change (intr_handlers (set_hw h s)) with (intr_handlers s). rewrite Hh, lookup_empty. apply lookup_replicate_2. unfold INTR_CNT in *. lia.
Qed.

Context (a_kill a_page_fault a_syscall_handler a_timer_interrupt a_keyboard_interrupt : Z).

(** The registrations of [main], the first one first. *)
Definition kernel_regs : list (Z * reg) :=
  [(0x20, mkReg 0 INTR_OFF a_timer_interrupt "8254 Timer"); (0x21, mkReg 0 INTR_OFF a_keyboard_interrupt "8042 Keyboard");
   (3, mkReg 3 INTR_ON a_kill "#BP Breakpoint Exception"); (4, mkReg 3 INTR_ON a_kill "#OF Overflow Exception");
   (5, mkReg 3 INTR_ON a_kill "#BR BOUND Range Exceeded Exception"); (0, mkReg 0 INTR_ON a_kill "#DE Divide Error");
   (1, mkReg 0 INTR_ON a_kill "#DB Debug Exception"); (6, mkReg 0 INTR_ON a_kill "#UD Invalid Opcode Exception");
   (7, mkReg 0 INTR_ON a_kill "#NM Device Not Available Exception"); (11, mkReg 0 INTR_ON a_kill "#NP Segment Not Present");
   (12, mkReg 0 INTR_ON a_kill "#SS Stack Fault Exception"); (13, mkReg 0 INTR_ON a_kill "#GP General Protection Exception");
   (16, mkReg 0 INTR_ON a_kill "#MF x87 FPU Floating-Point Error"); (19, mkReg 0 INTR_ON a_kill "#XF SIMD Floating-Point Exception");
   (14, mkReg 0 INTR_OFF a_page_fault "#PF Page-Fault Exception"); (0x30, mkReg 3 INTR_ON a_syscall_handler "syscall")].
Definition with_regs (l : list (Z * reg)) (T : gmap Z reg) : gmap Z reg := fold_left (fun T '(v, r) => <[v := r]> T) l T.
Definition kernel_table : gmap Z reg := with_regs kernel_regs ∅.

Definition handlers_ok : Prop := Forall (fun a => a <> NULL) [a_kill; a_page_fault; a_syscall_handler; a_timer_interrupt; a_keyboard_interrupt].

Ltac reg_step lem :=
  edestruct lem as (? & -> & ? & ? & ? & ? & ?);
  try first [eassumption | by (unfold INTR_CNT; lia) | by rewrite ?lookup_insert_ne by done | done]; cbn [rbind].

Lemma tables_init_ok s : stubs_ok -> handlers_ok -> at_start s ->
  exists s', tables_init intr_stubs idt_addr a_kill a_page_fault a_syscall_handler a_timer_interrupt a_keyboard_interrupt s = Ret s' /\
    tables_ok kernel_table s' /\ pics_idle (i_hw s') /\ i_external s' = false /\ i_level s' = i_level s /\ i_world s' = i_world s.
Proof.
  intros Hst Hh Hs. unfold handlers_ok in Hh. rewrite !Forall_cons in Hh. destruct Hh as (Hn1 & Hn2 & Hn3 & Hn4 & Hn5 & _). unfold tables_init.
  destruct (intr_init_ok s Hst Hs) as (s1 & -> & H1 & Hp & He & Hl & Hw). cbn [rbind]. unfold timer_init.
  cbv zeta. rewrite (outb_hw 0x43), !outb_set_hw. set (s2 := set_hw _ s1).
  assert (Hp2 : pics_idle (i_hw s2)) by (apply out_other; [apply out_other; [apply out_other|..]|..]; done).
  assert (H2 : tables_ok ∅ s2) by (by destruct H1; constructor).
  assert (i_external s2 = false /\ i_level s2 = i_level s /\ i_world s2 = i_world s) as (He2 & Hl2 & Hw2) by done. clearbody s2.
  reg_step register_ext_ok. unfold kbd_init. reg_step register_ext_ok. unfold exception_init.
  reg_step register_int_ok. reg_step register_int_ok. reg_step register_int_ok. reg_step register_int_ok. reg_step register_int_ok.
  reg_step register_int_ok. reg_step register_int_ok. reg_step register_int_ok. reg_step register_int_ok. reg_step register_int_ok.
  reg_step register_int_ok. reg_step register_int_ok. reg_step register_int_ok. unfold syscall_init. reg_step register_int_ok.
  eexists. split; [reflexivity|]. split; [assumption|]. split_and!; congruence.
Qed.
End Tables.
