(* ===== verification/InterruptsRun.v ===== *)
(** * Interrupts from end to end

    From the tables that [main] sets up: which handlers a process can reach from user
    mode ([user_mode_entry]), and that requests of devices are served one after the other
    ([interrupts_served]). *)

From Stdlib Require Import String.
From S2P Require Import Prelude Bitmap Vaddr Palloc Pagedir PagedirProof Paging KList Kernel Disk Segments Interrupts InterruptsProof.
#[local] Open Scope Z_scope.

Section Delivery.
Context {hw W : Type} {P : PicBus hw} (intr_stubs : Z -> Z) (idt_addr gdt_addr : Z).
Context (Hst : stubs_ok intr_stubs) (Hidt : is_u32 idt_addr).
#[local] Abbreviation intr := (@intr hw W).
#[local] Abbreviation tables_ok := (@tables_ok hw W intr_stubs idt_addr).

Lemma idtr_fields : bitfield (make_idtr_operand (8 * INTR_CNT - 1) idt_addr) 0 16 = 2047 /\
  bitfield (make_idtr_operand (8 * INTR_CNT - 1) idt_addr) 16 32 = idt_addr.
Proof using Hidt.
  unfold is_u32 in Hidt. unfold make_idtr_operand, u64.
  rewrite (Z.mod_small (Z.shiftl idt_addr 16)) by (rewrite Z.shiftl_mul_pow2; lia).
  change (8 * INTR_CNT - 1) with 2047. rewrite lor_shift_add by lia. split; bitfields; done.
Qed.

Lemma vector_gate_ok T (s : intr) v : tables_ok T s -> 0 <= v < INTR_CNT -> vector_gate idt_addr s v = Some (gate_for intr_stubs v (T !! v)).
Proof using Hidt.
  intros HT Hv. destruct idtr_fields as [F1 F2]. unfold vector_gate. rewrite (tb_idtr _ _ _ _ HT), F1, F2.
  rewrite !bool_decide_true by (done || (unfold INTR_CNT in Hv; lia)). cbn [andb].
  destruct (tb_idt _ _ _ _ HT v Hv) as (d & -> & Hd). exact Hd.
Qed.

Lemma stub_vec_ok v : 0 <= v < INTR_CNT -> stub_vec intr_stubs (intr_stubs v) = Some v.
Proof using Hst.
  intros Hv. unfold stub_vec.
  assert (list_find (fun v' => intr_stubs v' = intr_stubs v) (seqZ 0 INTR_CNT) = Some (Z.to_nat v, v)) as ->; [|done].
  apply list_find_Some. split_and!; [apply lookup_seqZ; unfold INTR_CNT in *; lia|done|].
  intros j y Hj Hlt E. apply lookup_seqZ in Hj as [-> Hj]. apply (st_inj _ Hst) in E; unfold INTR_CNT in *; lia.
Qed.

(** The level at which the handler of a registration starts. *)
Definition entry_level (o : option reg) (l : intr_level) : intr_level :=
  if o is Some r then if bool_decide (r_level r = INTR_ON) then l else INTR_OFF else INTR_OFF.

Lemma enter_ok T (s : intr) g current cpl v : tables_ok T s -> segments_set gdt_addr g current -> 0 <= v < INTR_CNT -> cpl = 0 \/ cpl = 3 ->
  enter idt_addr gdt_addr g s cpl v =
    Some (mkEntered 0 (if bool_decide (cpl = 3) then Some (SEL_KDSEG, u32 (current + PGSIZE)) else None) (intr_stubs v) (entry_level (T !! v) (i_level s))).
Proof using Hidt.
  intros HT Hg Hv Hc. unfold enter. rewrite (vector_gate_ok T) by done. cbn [mbind option_bind].
  assert (g_sel (gate_for intr_stubs v (T !! v)) = SEL_KCSEG /\ g_offset (gate_for intr_stubs v (T !! v)) = intr_stubs v) as [-> ->]
    by (by destruct (T !! v)).
  rewrite (ss_kcode _ _ _ Hg), (ss_stack _ _ _ Hg). cbn [mbind option_bind sg_dpl sg_base].
  assert ((if g_trap (gate_for intr_stubs v (T !! v)) then i_level s else INTR_OFF) = entry_level (T !! v) (i_level s)) as ->
    by (unfold entry_level; by destruct (T !! v)).
  destruct Hc as [-> | ->]; cbn; done.
Qed.

(** An INT instruction of user mode gets through exactly to the gates of level 3. *)
Lemma delivered_user T (s : intr) v : tables_ok T s -> 0 <= v < INTR_CNT ->
  delivered idt_addr s 3 true v = Some (if bool_decide (r_dpl <$> T !! v = Some 3) then v else 13).
Proof using Hidt.
  intros HT Hv. unfold delivered. rewrite (vector_gate_ok T) by done. cbn [mbind option_bind andb]. destruct (T !! v) as [r|] eqn:E; [|done].
  destruct (tb_reg _ _ _ _ HT v r E) as [Hd _]. cbn. f_equal. destruct (decide (r_dpl r = 3)) as [->|Hne]; [done|].
  rewrite bool_decide_true by lia. by rewrite bool_decide_false by congruence.
Qed.

Lemma delivered_device T (s : intr) cpl v : tables_ok T s -> 0 <= v < INTR_CNT -> delivered idt_addr s cpl false v = Some v.
Proof using Hidt. intros HT Hv. unfold delivered. by rewrite (vector_gate_ok T). Qed.
End Delivery.

(** ** What a process can reach *)

(** The vectors an INT instruction of a process may name, and those whose handlers run
    with the interrupt flag of the interrupted code. *)
Definition user_vectors : list Z := [3; 4; 5; 0x30].
Definition trap_vectors : list Z := [0; 1; 3; 4; 5; 6; 7; 11; 12; 13; 16; 19; 0x30].

Lemma kernel_table_gates k pf sc ti kb v :
  bool_decide (r_dpl <$> kernel_table k pf sc ti kb !! v = Some 3) = bool_decide (v ∈ user_vectors) /\
  (forall l, entry_level (kernel_table k pf sc ti kb !! v) l = if bool_decide (v ∈ trap_vectors) then l else INTR_OFF) /\
  from_option r_handler NULL (kernel_table k pf sc ti kb !! v) =
    if bool_decide (v ∈ trap_vectors) then if bool_decide (v = 0x30) then sc else k
    else if bool_decide (v = 14) then pf else if bool_decide (v = 0x20) then ti else if bool_decide (v = 0x21) then kb else NULL.
Proof.
  unfold kernel_table, with_regs, kernel_regs. cbn [fold_left]. rewrite !lookup_insert, lookup_empty.
  repeat (case_decide; [subst v; done|]).
  assert (Hu : v ∉ user_vectors) by (unfold user_vectors; set_solver).
  assert (Ht : v ∉ trap_vectors) by (unfold trap_vectors; set_solver).
  rewrite (bool_decide_false (v ∈ user_vectors)), (bool_decide_false (v ∈ trap_vectors)) by done.
  rewrite !(bool_decide_false (v = _)) by congruence. done.
Qed.

(** C2. After [tables_init] and the initialisation of the segments, an INT instruction of a
    process gets through for breakpoint, overflow, bound and the system call only, and
    is a general protection exception for every other vector; each exception or
    interrupt in user mode enters the kernel in ring 0, on the stack at the end of the
    page of the running thread, in the stub of its own vector, with interrupts off
    unless it is one of the exceptions that may be interrupted; and the handler in the
    table is the registered one. *)
Theorem user_mode_entry {hw W} {P : PicBus hw} {C : Pic hw P} intr_stubs idt_addr gdt_addr k pf sc ti kb current (s : @intr hw W) (g : segments) :
  stubs_ok intr_stubs -> handlers_ok k pf sc ti kb -> at_start s -> is_u32 idt_addr -> is_u32 gdt_addr ->
  pages_wf (pg (sg_mmu g)) -> bytes_ok (ram (pg (sg_mmu g))) -> PHYS_BASE <= base (kernel_pool (pg (sg_mmu g))) ->
  (0 < free_pages (pg (sg_mmu g)))%nat -> length (gdt g) = 6%nat ->
  exists s' g', tables_init intr_stubs idt_addr k pf sc ti kb s = Ret s' /\
    (let! g := tss_init current g in gdt_init gdt_addr g) = Ret g' /\
    forall thread v, 0 <= v < INTR_CNT -> exists g'', tss_update thread g' = Ret g'' /\
      delivered idt_addr s' 3 true v = Some (if bool_decide (v ∈ user_vectors) then v else 13) /\
      delivered idt_addr s' 3 false v = Some v /\
      enter idt_addr gdt_addr g'' s' 3 v =
        Some (mkEntered 0 (Some (SEL_KDSEG, u32 (thread + PGSIZE))) (intr_stubs v) (if bool_decide (v ∈ trap_vectors) then i_level s else INTR_OFF)) /\
      stub_vec intr_stubs (intr_stubs v) = Some v /\
      aget (intr_handlers s') v = Ret
        (if bool_decide (v ∈ trap_vectors) then if bool_decide (v = 0x30) then sc else k
         else if bool_decide (v = 14) then pf else if bool_decide (v = 0x20) then ti else if bool_decide (v = 0x21) then kb else NULL).
Proof.
  intros Hst Hh Hs Hi Hg Hp Hb Hhi Hf Hl.
  destruct (tables_init_ok intr_stubs idt_addr k pf sc ti kb s Hst Hh Hs) as (s' & E & HT & _ & _ & Elv & _).
  destruct (segments_ready gdt_addr g current Hg Hp Hb Hhi Hf Hl) as (g' & E' & _ & Hup).
  exists s', g'. split; [exact E|]. split; [exact E'|]. intros thread v Hv. destruct (Hup thread) as (g'' & Eu & Hset). exists g''.
  destruct (kernel_table_gates k pf sc ti kb v) as (K1 & K2 & K3). split; [exact Eu|].
  rewrite (delivered_user intr_stubs idt_addr Hi (kernel_table k pf sc ti kb)), K1 by done.
  rewrite (delivered_device intr_stubs idt_addr Hi (kernel_table k pf sc ti kb)) by done.
  rewrite (enter_ok intr_stubs idt_addr gdt_addr Hi (kernel_table k pf sc ti kb) s' g'' thread) by auto.
  rewrite K2, Elv, stub_vec_ok by done. split_and!; try reflexivity.
  apply aget_Ret. split; [lia|]. rewrite (tb_handler _ _ _ _ HT v Hv). by rewrite K3.
Qed.

(** ** Requests of devices *)

Section Serve.
Context {hw W : Type} {P : PicBus hw} {C : Pic hw P} (intr_stubs : Z -> Z) (idt_addr gdt_addr : Z).
#[local] Abbreviation intr := (@intr hw W).
#[local] Abbreviation tables_ok := (@tables_ok hw W intr_stubs idt_addr).

(** The processor, with interrupts on, takes the request of line [n]. *)
Definition request call thread_yield (g : segments) (cpl n : Z) (f : intr_frame) (s : intr) : res intr :=
  let '(v, h) := pic_ack n (i_hw s) in
  interrupt intr_stubs idt_addr call thread_yield gdt_addr g cpl false v f (set_hw h s).

Fixpoint requests call thread_yield (g : segments) (l : list (Z * Z * intr_frame)) (s : intr) : res intr :=
  match l with
  | [] => Ret s
  | (cpl, n, f) :: l => let! s := request call thread_yield g cpl n f s in requests call thread_yield g l s
  end.

(** A function that leaves the tables, the interrupt flag and the controllers alone. *)
Record calm (s s' : intr) : Prop := {
  cm_idt : idt s' = idt s;
  cm_idtr : idtr s' = idtr s;
  cm_handlers : intr_handlers s' = intr_handlers s;
  cm_names : intr_names s' = intr_names s;
  cm_level : i_level s' = i_level s;
  cm_external : i_external s' = i_external s;
  cm_chips : forall c, chip_of (i_hw s') c = chip_of (i_hw s) c
}.

(** [trace] is the sequence of the handlers that ran: a handler for a device returns with
    interrupts off and is recorded; during [thread_yield] other threads may be interrupted. *)
Context (trace : W -> list Z).
Definition handlers_return (call : Z -> intr_frame -> intr -> res intr) : Prop :=
  forall h f s, h <> NULL -> i_level s = INTR_OFF -> i_external s = true ->
    exists s', call h f s = Ret s' /\ calm s s' /\ trace (i_world s') = trace (i_world s) ++ [h].
Definition yield_returns (thread_yield : intr -> res intr) : Prop :=
  forall s, i_level s = INTR_OFF -> i_external s = false -> pics_idle (i_hw s) ->
    exists s' t, thread_yield s = Ret s' /\ calm s s' /\ trace (i_world s') = trace (i_world s) ++ t.

(** Between interrupts. *)
Record waiting (T : gmap Z reg) (s : intr) : Prop := {
  wt_tables : tables_ok T s;
  wt_pics : pics_idle (i_hw s);
  wt_level : i_level s = INTR_ON;
  wt_external : i_external s = false
}.

(** Devices are registered with interrupts off. *)
Definition ext_off (T : gmap Z reg) : Prop := forall v r, 0x20 <= v <= 0x2f -> T !! v = Some r -> r_level r = INTR_OFF.

(** A line with a device, or one of the two that may raise a request without one. *)
Definition line_ok (T : gmap Z reg) (n : Z) : Prop :=
  0 <= n < 16 /\ n <> 2 /\ (is_Some (T !! (0x20 + n)) \/ n = 7 \/ n = 15).

Lemma take_line (h : hw) n : pics_idle h -> 0 <= n < 16 -> n <> 2 ->
  fst (pic_ack n h) = 0x20 + n /\
  pics (snd (pic_ack n h)) (master_chip [if decide (n < 8) then n else 2]) (slave_chip (if decide (n < 8) then [] else [n - 8])).
Proof.
  intros [Hm Hs] Hn H2. destruct (pic_take h n) as [T1 T2]; [by rewrite ?Hm, ?Hs..|]. rewrite Hm, Hs in T1, T2. case_decide.
  - destruct T1 as (E1 & E2 & E3); [lia|done|by unfold open_line; simpl; rewrite Z.bits_0|]. by split.
  - destruct T2 as (E1 & E2 & E3); [lia|done|by unfold open_line; simpl; rewrite Z.bits_0|]. split; [rewrite E1; simpl; lia|by split].
Qed.

Lemma calm_pics s s' m sl : calm s s' -> pics (i_hw s) m sl -> pics (i_hw s') m sl.
Proof. intros Hc [Hm Hs]. split; by rewrite (cm_chips _ _ Hc). Qed.

Lemma calm_tables T s s' : calm s s' -> tables_ok T s -> tables_ok T s'.
Proof.
  intros [C1 C2 C3 C4 _ _ _] [H1 H2 H3 H4 H5 H6].
  constructor; rewrite ?C1, ?C2, ?C3, ?C4; done.
Qed.

(** From the first instruction of [intr_handler] to its return. *)
Lemma intr_handler_ok call thread_yield T s n f : handlers_return call -> yield_returns thread_yield -> tables_ok T s -> line_ok T n ->
  pics (i_hw s) (master_chip [if decide (n < 8) then n else 2]) (slave_chip (if decide (n < 8) then [] else [n - 8])) ->
  i_level s = INTR_OFF -> i_external s = false -> vec_no f = 0x20 + n ->
  exists s' t, intr_handler call thread_yield f s = Ret s' /\ tables_ok T s' /\ pics_idle (i_hw s') /\ i_level s' = INTR_OFF /\ i_external s' = false /\
    trace (i_world s') = trace (i_world s) ++ option_list (r_handler <$> T !! (0x20 + n)) ++ t.
Proof.
  intros Hcall Hy HT (Hn & Hn2 & Hreg) Hp Hl He Hv. unfold intr_handler. rewrite Hv.
  rewrite (bool_decide_true (0x20 + n >= 0x20)), (bool_decide_true (0x20 + n < 0x30)) by lia. cbn [andb].
  rewrite (bool_decide_true (i_level s = INTR_OFF)) by done. unfold intr_context. rewrite He. cbn [assert_ rbind negb].
  set (s1 := set_flags true false s).
  assert (H1 : aget (intr_handlers s1) (0x20 + n) = Ret (from_option r_handler NULL (T !! (0x20 + n)))).
  { apply aget_Ret. split; [lia|]. apply (tb_handler _ _ _ _ HT). unfold INTR_CNT. lia. }
  rewrite H1. cbn [rbind].
  assert (exists s2, (if bool_decide (from_option r_handler NULL (T !! (0x20 + n)) <> NULL) then call (from_option r_handler NULL (T !! (0x20 + n))) f s1
                      else if bool_decide (0x20 + n = 0x27) || bool_decide (0x20 + n = 0x2f) then Ret s1
                      else let! _ := intr_dump_frame f s1 in Panic) = Ret s2 /\ calm s1 s2 /\
                     trace (i_world s2) = trace (i_world s) ++ option_list (r_handler <$> T !! (0x20 + n))) as (s2 & -> & Hc2 & Ht2).
  { destruct (T !! (0x20 + n)) as [r|] eqn:E; cbn [from_option fmap option_fmap option_map option_list].
    - destruct (tb_reg _ _ _ _ HT _ _ E) as [_ Hh]. rewrite bool_decide_true by done. exact (Hcall (r_handler r) f s1 Hh Hl eq_refl).
    - rewrite bool_decide_false by (intros X; by apply X). destruct Hreg as [[? ?]| [-> | ->]]; [done|..];
        (exists s1; split; [reflexivity|]; split; [done|]; by rewrite app_nil_r). }
  cbn [rbind]. pose proof Hc2 as [A1 A2 A3 A4 A5 A6 A7]. rewrite A5, A6. cbn [i_level i_external s1 set_flags]. rewrite Hl.
  cbn [bool_decide decide assert_ rbind]. rewrite (bool_decide_true (INTR_OFF = INTR_OFF)) by done. cbn [assert_ rbind].
  set (s3 := set_flags false (i_yield s2) s2).
  destruct (pic_eoi_ok s3 n Hn) as (h & -> & Hidle); [by apply (calm_pics s1 s2)|]. cbn [rbind].
  assert (HT2 : tables_ok T s2) by (apply (calm_tables T s1 s2 Hc2); by destruct HT; constructor).
  assert (HT3 : tables_ok T (set_hw h s3)) by (by destruct HT2; constructor).
  assert (Hl3 : i_level (set_hw h s3) = INTR_OFF) by (cbn; rewrite A5; exact Hl).
  destruct (i_yield (set_hw h s3)).
  - destruct (Hy (set_hw h s3)) as (s4 & t & -> & Hc4 & Ht4); [done..|]. exists s4, t. split; [reflexivity|].
    split; [by apply (calm_tables T (set_hw h s3))|]. split; [by apply (calm_pics (set_hw h s3))|].
    rewrite (cm_level _ _ Hc4), (cm_external _ _ Hc4), Ht4. split_and!; [done..|]. cbn. by rewrite Ht2, app_assoc.
  - exists (set_hw h s3), []. split_and!; try done. cbn. by rewrite Ht2, app_nil_r.
Qed.

Lemma request_ok call thread_yield T s g current cpl n f : stubs_ok intr_stubs -> is_u32 idt_addr ->
  handlers_return call -> yield_returns thread_yield -> ext_off T -> segments_set gdt_addr g current -> waiting T s -> line_ok T n ->
  cpl = 0 \/ cpl = 3 ->
  exists s' t, request call thread_yield g cpl n f s = Ret s' /\ waiting T s' /\
    trace (i_world s') = trace (i_world s) ++ option_list (r_handler <$> T !! (0x20 + n)) ++ t.
Proof.
  intros Hst Hi Hcall Hy Hoff Hg [HT Hp Hl He] Hn Hc. pose proof Hn as (Hn1 & Hn2 & _). unfold request.
  destruct (take_line (i_hw s) n Hp Hn1 Hn2) as [Ev Hp']. destruct (pic_ack n (i_hw s)) as [v h]. cbn [fst snd] in *. subst v.
  assert (Hv : 0 <= 0x20 + n < INTR_CNT) by (unfold INTR_CNT; lia).
  assert (HT1 : tables_ok T (set_hw h s)) by (by destruct HT; constructor). unfold interrupt.
  rewrite (delivered_device intr_stubs idt_addr Hi T) by done. cbn [of_opt rbind].
  rewrite (enter_ok intr_stubs idt_addr gdt_addr Hi T _ g current) by done. cbn [of_opt rbind en_eip en_level].
  rewrite stub_vec_ok by done. cbn [of_opt rbind].
  assert (entry_level (T !! (0x20 + n)) (i_level (set_hw h s)) = INTR_OFF) as ->.
  { unfold entry_level. destruct (T !! (0x20 + n)) as [r|] eqn:E; [|done]. rewrite bool_decide_false; [done|]. rewrite (Hoff (0x20 + n) r ltac:(lia) E). done. }
  destruct (intr_handler_ok call thread_yield T (set_level INTR_OFF (set_hw h s)) n (with_vec (0x20 + n) f)) as (s' & t & -> & HT' & Hp'' & _ & He' & Ht'); try done.
  { by destruct HT1; constructor. }
  cbn [rbind]. eexists _, t. split; [reflexivity|]. split; [|exact Ht'].
  constructor; try done. by destruct HT'; constructor.
Qed.

Lemma requests_ok call thread_yield T g current l : stubs_ok intr_stubs -> is_u32 idt_addr ->
  handlers_return call -> yield_returns thread_yield -> ext_off T -> segments_set gdt_addr g current ->
  Forall (fun '(cpl, n, f) => line_ok T n /\ (cpl = 0 \/ cpl = 3)) l -> forall s, waiting T s ->
  exists s' t, requests call thread_yield g l s = Ret s' /\ waiting T s' /\ trace (i_world s') = trace (i_world s) ++ t /\
    (l ≫= fun '(_, n, _) => option_list (r_handler <$> T !! (0x20 + n))) `sublist_of` t.
Proof.
  intros Hst Hi Hcall Hy Hoff Hg. induction 1 as [|[[cpl n] f] l [Hn Hc] _ IH]; intros s Hs.
  - exists s, []. split; [reflexivity|]. split; [done|]. by rewrite app_nil_r.
  - cbn [requests]. destruct (request_ok call thread_yield T s g current cpl n f) as (s1 & t1 & -> & Hs1 & Ht1); try done. cbn [rbind].
    destruct (IH s1 Hs1) as (s2 & t2 & -> & Hs2 & Ht2 & Hsub). eexists s2, _. split; [reflexivity|]. split; [done|].
    rewrite Ht2, Ht1, <- !app_assoc. split; [reflexivity|]. cbn [mbind list_bind].
    apply sublist_app; [done|]. by apply sublist_inserts_l.
Qed.

(** The registrations of drivers that come later. *)
Fixpoint register_devices (l : list (Z * Z * string)) (s : intr) : res intr :=
  match l with
  | [] => Ret s
  | (v, h, name) :: l => let! s := intr_register_ext intr_stubs v h name s in register_devices l s
  end.
Definition device_regs (l : list (Z * Z * string)) : list (Z * reg) := (fun '(v, h, name) => (v, mkReg 0 INTR_OFF h name)) <$> l.

Lemma register_devices_ok l : stubs_ok intr_stubs -> forall T s, tables_ok T s -> ext_off T ->
  Forall (fun '(v, h, _) => 0x20 <= v <= 0x2f /\ h <> NULL /\ T !! v = None) l -> NoDup (l.*1.*1) ->
  exists s', register_devices l s = Ret s' /\ tables_ok (with_regs (device_regs l) T) s' /\ ext_off (with_regs (device_regs l) T) /\
    i_hw s' = i_hw s /\ i_external s' = i_external s /\ i_world s' = i_world s.
Proof.
  intros Hst. induction l as [|[[v h] name] l IH]; intros T s HT Hoff Hl Hnd; [by exists s|].
  apply Forall_cons in Hl as [(Hv & Hh & Hno) Hl]. apply NoDup_cons in Hnd as [Hni Hnd]. cbn [register_devices].
  destruct (register_ext_ok intr_stubs idt_addr T s v h name Hst HT Hv Hno Hh) as (s1 & -> & HT1 & Hw1 & He1 & _ & Hwo1). cbn [rbind].
  destruct (IH _ s1 HT1) as (s2 & -> & HT2 & Hoff2 & Hw2 & He2 & Hwo2).
  - intros v' r Hv'. rewrite lookup_insert_Some. intros [[<- <-]|[_ E]]; [done|by eapply Hoff].
  - apply Forall_forall. intros [[v' h'] name'] Hin. rewrite Forall_forall in Hl. destruct (Hl _ Hin) as (A & B & D).
    split_and!; [lia..|done|]. rewrite lookup_insert_ne; [done|]. intros ->. apply Hni. cbn.
    apply list_elem_of_fmap. exists (v', h'). split; [done|]. apply list_elem_of_fmap. by exists (v', h', name').
  - done.
  - exists s2. split_and!; try done; congruence.
Qed.
End Serve.

Lemma kernel_table_devices k pf sc ti kb v : 0x22 <= v <= 0x2f -> kernel_table k pf sc ti kb !! v = None.
Proof.
  intros Hv. unfold kernel_table, with_regs, kernel_regs. cbn [fold_left]. rewrite !lookup_insert_ne by lia. done.
Qed.

Lemma kernel_table_ext_off k pf sc ti kb : ext_off (kernel_table k pf sc ti kb).
Proof.
  intros v r Hv. unfold kernel_table, with_regs, kernel_regs. cbn [fold_left]. rewrite !lookup_insert, lookup_empty.
  repeat (case_decide; [first [lia | by intros [= <-]]|]). done.
Qed.

(** C9. After the set-up of [main] and the registrations of drivers, every series of
    requests on lines with a device, or on the two lines that may raise a request
    without one, is served, in user and in kernel mode: the handlers of the lines run in
    the order of the requests, [intr_handler] fails none of its assertions, and after
    each of them both controllers are told the end of the interrupt, so that the next
    request gets through.  Provided the handlers return ([handlers_return]) and
    [thread_yield] comes back to the interrupted thread ([yield_returns]). *)
Theorem interrupts_served {hw W} {P : PicBus hw} {C : Pic hw P} intr_stubs idt_addr gdt_addr k pf sc ti kb (trace : W -> list Z)
    call thread_yield (s : @intr hw W) (g : segments) current devs l :
  stubs_ok intr_stubs -> handlers_ok k pf sc ti kb -> at_start s -> is_u32 idt_addr -> segments_set gdt_addr g current ->
  handlers_return trace call -> yield_returns trace thread_yield ->
  Forall (fun '(v, h, _) => 0x22 <= v <= 0x2f /\ h <> NULL) devs -> NoDup (devs.*1.*1) ->
  let T := with_regs (device_regs devs) (kernel_table k pf sc ti kb) in
  Forall (fun '(cpl, n, _) => line_ok T n /\ (cpl = 0 \/ cpl = 3)) l ->
  exists s1 s2 t, (let! s := tables_init intr_stubs idt_addr k pf sc ti kb s in register_devices intr_stubs devs s) = Ret s1 /\
    requests intr_stubs idt_addr gdt_addr call thread_yield g l (set_level INTR_ON s1) = Ret s2 /\
    pics_idle (i_hw s2) /\ i_level s2 = INTR_ON /\ i_external s2 = false /\
    trace (i_world s2) = trace (i_world s) ++ t /\
    (l ≫= fun '(_, n, _) => option_list (r_handler <$> T !! (0x20 + n))) `sublist_of` t.
Proof.
  intros Hst Hh Hs Hi Hg Hcall Hy Hdev Hnd T Hl.
  destruct (tables_init_ok intr_stubs idt_addr k pf sc ti kb s Hst Hh Hs) as (s0 & -> & HT & Hp & He & _ & Hw). cbn [rbind].
  destruct (register_devices_ok intr_stubs idt_addr devs Hst (kernel_table k pf sc ti kb) s0 HT) as (s1 & -> & HT1 & Hoff & Ehw & Eext & Ew);
    [apply kernel_table_ext_off| |done|].
  { apply Forall_forall. intros [[v h] name] Hin. rewrite Forall_forall in Hdev. destruct (Hdev _ Hin) as [A B].
    split_and!; [lia..|done|]. by apply kernel_table_devices. }
  assert (Hwait : waiting intr_stubs idt_addr T (set_level INTR_ON s1)).
  { constructor; cbn; try done; [by destruct HT1; constructor|by rewrite Ehw|by rewrite Eext]. }
  destruct (requests_ok intr_stubs idt_addr gdt_addr trace call thread_yield T g current l Hst Hi Hcall Hy Hoff Hg Hl _ Hwait)
    as (s2 & t & E2 & [_ W2 W3 W4] & Ht & Hsub).
  exists s1, s2, t. split; [reflexivity|]. split; [exact E2|]. cbn in Ht. rewrite Ew, Hw in Ht. split_and!; done.
Qed.

(** ** Two controllers that keep the promise *)

Module Sim.
Record chips := mkChips { master : chip; slave : chip }.
Definition write (a0 : bool) (v : Z) (c : chip) : chip := default c (chip_write a0 v c).
#[export] Instance bus : PicBus chips := {
  pic_outb port v h :=
    if bool_decide (port = 0x20) then mkChips (write false v (master h)) (slave h)
    else if bool_decide (port = 0x21) then mkChips (write true v (master h)) (slave h)
    else if bool_decide (port = 0xa0) then mkChips (master h) (write false v (slave h))
    else if bool_decide (port = 0xa1) then mkChips (master h) (write true v (slave h)) else h;
  pic_ack n h :=
    if bool_decide (n < 8) then (ch_base (master h) + n, mkChips (serve n (master h)) (slave h))
    else (ch_base (slave h) + (n - 8), mkChips (serve 2 (master h)) (serve (n - 8) (slave h)))
}.
#[export] Instance promise : Pic chips bus.
Proof.
  refine {| chip_of := fun h c => match c with Master => master h | Slave => slave h end |}.
  - intros h c a0 v ch Hw _ c'. destruct c, a0, c'; cbn in *; unfold write; by rewrite ?Hw.
  - intros h port v c H1 H2 H3 H4. cbn. by rewrite !bool_decide_false by done.
  - intros h n _ _ _ _ _ _. cbn. split.
    + intros Hn _ _. by rewrite bool_decide_true by lia.
    + intros Hn _ _. by rewrite bool_decide_false by lia.
Defined.
End Sim.

Module Demo.
Import Sim.
Definition stubs (v : Z) : Z := 4096 + 16 * v.
Definition chips0 : chips := mkChips (mkChip Ready 8 4 0xb8 []) (mkChip Ready 0x70 2 0x8e []).
Definition start : @intr chips (list Z) :=
  mkIntr (replicate 256 0) 0 (replicate 256 NULL) (replicate 256 EmptyString) false false INTR_OFF 0 [] chips0 [].
Definition segs : segments := mkSegments demo_mmu NULL (replicate 6 0) 0 0.
Definition frame : intr_frame := mkFrame 0 0 0 0 0 0 0 0 0 0 0 0 0 0 0 0 SEL_UCSEG 0 0 SEL_UDSEG.

(** Handlers note their address; that of the timer asks for a yield. *)
Definition call (h : Z) (f : intr_frame) (s : @intr chips (list Z)) : res (@intr chips (list Z)) :=
  Ret (mkIntr (idt s) (idtr s) (intr_handlers s) (intr_names s) (i_external s) (i_yield s || bool_decide (h = 13)) (i_level s) (cr2 s)
         (console s) (i_hw s) (i_world s ++ [h])).
Definition devices : list (Z * Z * string) := [(0x24, 15, "serial"%string); (0x2e, 16, "hd0"%string)].
Definition lines : list (Z * Z * intr_frame) := [(3, 14, frame); (0, 0, frame); (3, 15, frame); (3, 1, frame)].

Lemma stubs_fine : stubs_ok stubs.
Proof.
  split; [intros v Hv|intros v v' Hv Hv']; unfold stubs, is_u32, NULL, INTR_CNT in *; lia.
Qed.
Lemma handlers_fine : handlers_ok 10 11 12 13 14.
Proof. by repeat constructor. Qed.
Lemma start_fine : at_start start.
Proof. constructor; try done. intros []; done. Qed.

Lemma segs_fine : pages_wf (pg (sg_mmu segs)) /\ bytes_ok (ram (pg (sg_mmu segs))) /\ PHYS_BASE <= base (kernel_pool (pg (sg_mmu segs))) /\
  (0 < free_pages (pg (sg_mmu segs)))%nat.
Proof.
  destruct demo_paging as [D1 D2 D3 _ _ _ _ _]. split; [exact D1|]. split; [exact D2|]. split; [exact D3|].
  change (0 < free_pages (pg demo_mmu))%nat. rewrite demo_left. lia.
Qed.
Lemma segs_set : exists g, segments_set 0xc0102000 g 0xc0103000.
Proof.
  destruct segs_fine as (S1 & S2 & S3 & S4).
  destruct (segments_ready 0xc0102000 segs 0xc0103000) as (g & _ & Hg & _); [unfold is_u32; lia|done..|]. by exists g.
Qed.
Lemma call_fine : handlers_return id call.
Proof. intros h f s _ _ _. eexists. split; [reflexivity|]. done. Qed.
Lemma yield_fine : yield_returns (hw := chips) id Ret.
Proof. intros s _ _ _. exists s, []. split; [reflexivity|]. split; [done|]. by rewrite app_nil_r. Qed.

Lemma user_mode_entry_witness :
  exists s' g'', tables_init stubs 0xc0101000 10 11 12 13 14 start = Ret s' /\
    delivered 0xc0101000 s' 3 true 0x30 = Some 0x30 /\ delivered 0xc0101000 s' 3 true 14 = Some 13 /\
    enter 0xc0101000 0xc0102000 g'' s' 3 14 = Some (mkEntered 0 (Some (SEL_KDSEG, 0xc0105000)) (stubs 14) INTR_OFF).
Proof.
  destruct segs_fine as (S1 & S2 & S3 & S4).
  destruct (user_mode_entry stubs 0xc0101000 0xc0102000 10 11 12 13 14 0xc0103000 start segs stubs_fine handlers_fine start_fine
              ltac:(unfold is_u32; lia) ltac:(unfold is_u32; lia) S1 S2 S3 S4 eq_refl) as (s' & g' & E & _ & Hall).
  destruct (Hall 0xc0104000 0x30) as (g1 & _ & D1 & _); [unfold INTR_CNT; lia|].
  destruct (Hall 0xc0104000 14) as (g2 & _ & D2 & _ & D3 & _); [unfold INTR_CNT; lia|].
  exists s', g2. split; [exact E|]. split; [exact D1|]. split; [exact D2|]. exact D3.
Defined.

Lemma interrupts_served_witness :
  exists g s1 s2 t, (let! s := tables_init stubs 0xc0101000 10 11 12 13 14 start in register_devices stubs devices s) = Ret s1 /\
    requests stubs 0xc0101000 0xc0102000 call Ret g lines (set_level INTR_ON s1) = Ret s2 /\
    pics_idle (i_hw s2) /\ i_world s2 = t /\ [16; 13; 14] `sublist_of` t.
Proof.
  destruct segs_set as [g Hg]. exists g.
  destruct (interrupts_served stubs 0xc0101000 0xc0102000 10 11 12 13 14 id call Ret start g 0xc0103000 devices lines) as (s1 & s2 & t & E1 & E2 & Hp & _ & _ & Ht & Hsub).
  - exact stubs_fine.
  - exact handlers_fine.
  - exact start_fine.
  - unfold is_u32; lia.
  - exact Hg.
  - exact call_fine.
  - exact yield_fine.
  - repeat constructor; unfold NULL; lia.
  - apply (bool_decide_unpack _). vm_compute. exact I.
  - repeat (constructor; [split; [unfold line_ok; split_and!; [lia..|]; vm_compute; eauto|lia]|]). constructor.
  - exists s1, s2, t. split; [exact E1|]. split; [exact E2|]. split; [exact Hp|]. split; [exact Ht|]. vm_compute in Hsub. exact Hsub.
Defined.
End Demo.
