(* ===== verification/Fsutil.v ===== *)
(** * filesys/fsutil.c: listing, printing, deleting and transferring files

    The actions of the kernel's command line on files.  [put] and [get] go through the
    scratch disk, here its sectors in order; the counters of the two functions, which
    the code keeps in static variables, are part of the state.  Output is the list of the
    calls of [printf] and [hex_dump], latest first. *)

From Stdlib Require Import String.
From S2P Require Import Prelude Vaddr Cstring CstringProof Stdio CommandLine CommandProof.
From S2P Require Import Bitmap Cache CacheProof Inode InodeView InodeOps InodeIO InodeGrow InodeExpand InodeProof Directory FsCheck FileProps.

Inductive output := Said (format : string) (s : list Z) | Dumped (ofs : Z) (buf : list Z).

Record util := mkUtil {
  u_fs : fs;
  scratch_disk : option (list (list Z)); (* [disk_get (1, 0)] *)
  put_sector : Z;
  get_sector : Z;
  outputs : list output
}.

Definition on_fs (s : fs) (u : util) : util := mkUtil s (scratch_disk u) (put_sector u) (get_sector u) (outputs u).
Definition emit (o : output) (u : util) : util := mkUtil (u_fs u) (scratch_disk u) (put_sector u) (get_sector u) (o :: outputs u).
Definition did_put (n : Z) (u : util) : util := mkUtil (u_fs u) (scratch_disk u) n (get_sector u) (outputs u).
Definition did_get (d : list (list Z)) (n : Z) (u : util) : util := mkUtil (u_fs u) (Some d) (put_sector u) n (outputs u).

(** [disk_read] and [disk_write] on the scratch disk assert that the sector exists. *)
Definition scratch_read (d : list (list Z)) (sec : Z) : res (list Z) :=
  match d !! Z.to_nat sec with Some b => Ret b | None => Panic end.
Definition scratch_write (d : list (list Z)) (sec : Z) (b : list Z) : res (list (list Z)) :=
  ASSERT bool_decide (sec < Z.of_nat (length d));
  Ret (<[Z.to_nat sec := b]> d).

(** Enough rounds to print the largest file. *)
Definition cat_rounds : nat := 2073.

Section Fsutil.
Context (junk zeros : list Z) (oom : Z -> bool).

Definition fsutil_ls (u : util) : res util :=
  let u := emit (Said "Files in the root directory:\n" []) u in
  let! '(s, dir) := dir_open_root junk zeros oom (u_fs u) in
  if bool_decide (dir = NULL) then Panic
  else
    iter dir_rounds
      (fun u =>
         let! '(s, o) := dir_readdir junk oom (u_fs u) dir in
         let u := on_fs s u in
         match o with
         | Some name => Ret (inl (emit (Said "%s\n" name) u))
         | None => Ret (inr (emit (Said "End of listing.\n" []) u))
         end) (on_fs s u).

(** A page or a block of memory for [buffer]; without one the code panics. *)
Definition get_buffer (s : fs) : res fs :=
  let '(s, buffer) := calloc oom s in
  if bool_decide (buffer = NULL) then Panic else Ret s.

Definition cat_round (file : Z) (u : util) : res (util + util) :=
  let! pos := file_tell (u_fs u) file in
  let! '(s, buffer) := file_read junk oom (u_fs u) file PGSIZE in
  let u := on_fs s u in
  if bool_decide (Z.of_nat (List.length buffer) = 0) then Ret (inr u)
  else Ret (inl (emit (Dumped pos buffer) u)).

Definition fsutil_cat (file_name : list Z) (u : util) : res util :=
  let u := emit (Said "Printing '%s' to the console...\n" file_name) u in
  let! '(s, file) := filesys_open junk zeros oom (u_fs u) file_name in
  if bool_decide (file = NULL) then Panic
  else
    let! s := get_buffer s in
    let! u := iter cat_rounds (cat_round file) (on_fs s u) in
    let! s := file_close junk zeros oom (u_fs u) file in
    Ret (on_fs s u).

Definition fsutil_rm (file_name : list Z) (u : util) : res util :=
  let u := emit (Said "Deleting '%s'...\n" file_name) u in
  let! '(s, ok) := filesys_remove junk zeros oom (u_fs u) file_name in
  if ok then Ret (on_fs s u) else Panic.

(** ** Copying in *)

Definition chunk_size (size : Z) : Z := if bool_decide (size > DISK_SECTOR_SIZE) then DISK_SECTOR_SIZE else size.

(** One round of the copying loop: the file system, the counter and the bytes left. *)
Definition put_round (src : list (list Z)) (dst : Z) : fs * Z * Z -> res ((fs * Z * Z) + (fs * Z)) :=
  fun '(s, sector, size) =>
    if bool_decide (size > 0) then
      let chunk := chunk_size size in
      let! buffer := scratch_read src sector in
      let! '(s, n) := file_write junk zeros oom s dst buffer chunk in
      if bool_decide (n <> chunk) then Panic
      else Ret (inl (s, u32 (sector + 1), size - chunk))
    else Ret (inr (s, sector)).

Definition fsutil_put (file_name : list Z) (u : util) : res util :=
  let u := emit (Said "Putting '%s' into the file system...\n" file_name) u in
  let! s := get_buffer (u_fs u) in
  match scratch_disk u with
  | None => Panic
  | Some src =>
      let! buffer := scratch_read src (put_sector u) in
      let sector := u32 (put_sector u + 1) in
      if bool_decide (take 4 buffer <> [80; 85; 84; 0]) then Panic
      else
        let size := s32 (get32 buffer 4) in
        if bool_decide (size < 0) then Panic
        else
          let! '(s, ok) := filesys_create junk zeros oom s file_name size false in
          if negb ok then Panic
          else
            let! '(s, dst) := filesys_open junk zeros oom s file_name in
            if bool_decide (dst = NULL) then Panic
            else
              let! '(s, sector) := iter (S (Z.to_nat size)) (put_round src dst) (s, sector, size) in
              let! s := file_close junk zeros oom s dst in
              Ret (did_put sector (on_fs s u))
  end.

(** ** Copying out *)

Definition get_round (src : Z) : fs * list (list Z) * Z * Z -> res ((fs * list (list Z) * Z * Z) + (fs * list (list Z) * Z)) :=
  fun '(s, dst, sector, size) =>
    if bool_decide (size > 0) then
      let chunk := chunk_size size in
      if bool_decide (sector >= Z.of_nat (List.length dst)) then Panic
      else
        let! '(s, d) := file_read junk oom s src chunk in
        if bool_decide (Z.of_nat (List.length d) <> chunk) then Panic
        else
          let! dst := scratch_write dst sector (d ++ replicate (Z.to_nat (DISK_SECTOR_SIZE - chunk)) 0) in
          Ret (inl (s, dst, u32 (sector + 1), size - chunk))
    else Ret (inr (s, dst, sector)).

Definition fsutil_get (file_name : list Z) (u : util) : res util :=
  let u := emit (Said "Getting '%s' from the file system...\n" file_name) u in
  let! s := get_buffer (u_fs u) in
  let! '(s, src) := filesys_open junk zeros oom s file_name in
  if bool_decide (src = NULL) then Panic
  else
    let! '(s, size) := file_length junk s src in
    match scratch_disk u with
    | None => Panic
    | Some dst =>
        let buffer := put32 (overwrite (replicate (Z.to_nat DISK_SECTOR_SIZE) 0) 0 [71; 69; 84; 0]) 4 size in
        let! dst := scratch_write dst (get_sector u) buffer in
        let! '(s, dst, sector) :=
          iter (S (Z.to_nat size)) (get_round src) (s, dst, u32 (get_sector u + 1), size) in
        let! s := file_close junk zeros oom s src in
        Ret (did_get dst sector (on_fs s u))
    end.

(** The actions as the command line calls them (see [CommandLine.run_fsutil]). *)
Definition fsutil (f : fs_action) (arg : list Z) (u : util) : res util :=
  match f with
  | FLs => fsutil_ls u
  | FCat => fsutil_cat arg u
  | FRm => fsutil_rm arg u
  | FPut => fsutil_put arg u
  | FGet => fsutil_get arg u
  end.
End Fsutil.

(** ** Specification *)

(** The sectors that hold [data]: [n] of them, the last filled up with zeros. *)
Fixpoint pieces (n : nat) (data : list Z) : list (list Z) :=
  match n with O => [] | S n => resize 512 0 data :: pieces n (drop 512 data) end.

Definition blocks (data : list Z) : nat := Z.to_nat (nblk (Z.of_nat (length data))).

(** A file on the scratch disk: a sector with a signature and the length, then the data. *)
Definition archive (sig data : list Z) : list (list Z) :=
  resize 512 0 (sig ++ bytes32 (Z.of_nat (length data))) :: pieces (blocks data) data.

Definition PUT : list Z := [80; 85; 84; 0].
Definition GET : list Z := [71; 69; 84; 0].

(** The open file [f] at position [q], of the file in sector [t]. *)
Record file_at (s : fs) (G : list Z) (f p : Z) (i : inode) (t q : Z) : Prop := {
  fa_inv : inv s [] (t :: G);
  fa_map : t <> FREE_MAP_SECTOR;
  fa_file : files s !! f = Some (mkFile p q false);
  fa_inode : inodes s !! p = Some i;
  fa_sector : sector i = t;
  fa_p : p <> NULL;
  fa_f : f <> NULL
}.

(** What [inode_close] needs: the lock, and another opener when the file was removed. *)
Definition closable (i : inode) : Prop := locked i = false /\ 1 <= iopen_cnt i /\ (iopen_cnt i = 1 -> removed i = false).

(** ** Proofs *)

Lemma length_pieces n : forall data, length (pieces n data) = n.
Proof. induction n; intros data; simpl; auto. Qed.

Lemma blocks_step data : (0 < length data)%nat -> blocks data = S (blocks (drop 512 data)).
Proof. intros H. unfold blocks, nblk. rewrite length_drop. Z.div_mod_to_equations. lia. Qed.

Lemma blocks_pos data : (0 < blocks data)%nat -> (0 < length data)%nat.
Proof. unfold blocks, nblk. intros H. Z.div_mod_to_equations. lia. Qed.

Lemma blocks_nil data : 0%nat = blocks data -> data = [].
Proof. intros H. apply nil_length_inv. unfold blocks, nblk in H. Z.div_mod_to_equations. lia. Qed.

Lemma chunk_min n : chunk_size n = Z.min n 512.
Proof. unfold chunk_size, DISK_SECTOR_SIZE. case_bool_decide; lia. Qed.

(** Changing the position of an open file. *)
Lemma inv_set_file s X G f fl fl' : inv s X G -> files s !! f = Some fl -> f_inode fl' = f_inode fl -> inv (set_file s f fl') X G.
Proof.
  intros Hi Hf He. eapply inv_frame; try done; [by destruct (iv_ready _ _ _ Hi)|].
  intros (fl0 & j & H1 & H2). destruct (decide (free_map_file s = f)) as [E|Hne].
  - exists fl', j. simpl. rewrite E, lookup_insert_eq. rewrite E in H1. split; [done|]. rewrite He. by simplify_eq.
  - exists fl0, j. simpl. by rewrite lookup_insert_ne.
Qed.

Lemma file_at_len s G f p i t q : file_at s G f p i t q -> 0 <= flen (sec (vw s) t) <= 512 * max_blocks /\
  Z.of_nat (length (content (vw s) t)) = flen (sec (vw s) t).
Proof. intros H. pose proof (iv_len _ _ _ (fa_inv _ _ _ _ _ _ _ H) t ltac:(by left)). split; [done|]. apply content_length. lia. Qed.

Lemma file_at_opened s G f p i t q : file_at s G f p i t q -> opened s p i (sec (vw s) t).
Proof. intros [H1 _ _ H3 H4 H5 _]. eapply inv_opened; [done|by left|done..]. Qed.

(** A state with the same open files whose files are consistent, with the position moved. *)
Lemma file_at_step s s' G f p i t q q' : file_at s G f p i t q -> inv s' [] (t :: G) -> rest s' = rest s ->
  file_at (set_file s' f (mkFile p q' false)) G f p i t q'.
Proof.
  intros [H1 H2 H3 H4 H5 H6 H7] Hi Er. unfold rest in Er. injection Er as E1 E2 E3 E4 E5 E6. split; try done; simpl.
  - eapply inv_set_file; [done|by rewrite E4|done].
  - by rewrite lookup_insert_eq.
  - by rewrite E3.
Qed.

Lemma file_at_moves s s' G f p i t q : file_at s G f p i t q -> moves s s' (vw s) ->
  file_at s' G f p i t q /\ content (vw s') t = content (vw s) t.
Proof.
  intros H Hm. pose proof (file_at_step s s' G f p i t q q H (inv_moves _ _ _ _ _ (fa_inv _ _ _ _ _ _ _ H) Hm ltac:(done) ltac:(done)) (mv_rest _ _ _ Hm)) as H'.
  split; [|apply content_agree; intros; apply Hm].
  assert (Ef : files s' !! f = Some (mkFile p q false)).
  { pose proof (mv_rest _ _ _ Hm) as Er. unfold rest in Er. injection Er as _ _ _ E4 _ _. rewrite E4. apply H. }
  replace s' with (set_file s' f (mkFile p q false)); [done|]. unfold set_file. rewrite insert_id by done. by destruct s'.
Qed.

Section Proofs.
Context {junk zeros : list Z} {oom : Z -> bool} `{Hmem : !good_memory junk zeros oom}.
#[local] Set Default Proof Using "All".

Lemma get_buffer_ok s : ready s -> exists s', get_buffer oom s = Ret s' /\ moves s s' (vw s).
Proof.
  intros Hr. destruct (scratch_ok s Hr) as (s' & p & E & Hm & ->). unfold get_buffer, scratch in *. destruct (calloc oom s) as [s1 b].
  destruct (decide (b = NULL)) as [->|Hb]; [done|]. rewrite bool_decide_eq_true_2 in E by done. rewrite bool_decide_eq_false_2 by done.
  exists s1. split; [done|]. by injection E as -> _.
Qed.

Lemma file_length_ok s G f p i t q : file_at s G f p i t q -> exists s',
  file_length junk s f = Ret (s', Z.of_nat (length (content (vw s) t))) /\ moves s s' (vw s).
Proof.
  intros H. destruct (file_at_len _ _ _ _ _ _ _ H) as [_ Hl]. pose proof (file_at_opened _ _ _ _ _ _ _ H) as Ho.
  unfold file_length, get_file. rewrite bool_decide_eq_true_2 by apply H. rewrite (fa_file _ _ _ _ _ _ _ H). cbn [assert_ of_opt rbind f_inode].
  rewrite Hl. eapply length_ok; [apply (fa_inv _ _ _ _ _ _ _ H)|apply Ho|apply Ho].
Qed.

Lemma file_read_ok s G f p i t q size : file_at s G f p i t q -> 0 <= size < 2 ^ 31 -> 0 <= q <= Z.of_nat (length (content (vw s) t)) ->
  let d := take (Z.to_nat size) (drop (Z.to_nat q) (content (vw s) t)) in
  exists s', file_read junk oom s f size = Ret (s', d) /\ file_at s' G f p i t (q + Z.of_nat (length d)) /\
    (forall x, vw s' x = vw s x) /\ content (vw s') t = content (vw s) t.
Proof.
  intros H Hs Hq d. destruct (file_at_len _ _ _ _ _ _ _ H) as [Hl0 Hl]. pose proof (file_at_opened _ _ _ _ _ _ _ H) as Ho.
  assert (Hd : (length d <= length (content (vw s) t) - Z.to_nat q)%nat) by (unfold d; rewrite length_take, length_drop; lia).
  unfold file_read, get_file. rewrite (fa_file _ _ _ _ _ _ _ H). cbn [of_opt rbind f_inode f_pos].
  destruct (read_content s p i t size q (iv_ready _ _ _ (fa_inv _ _ _ _ _ _ _ H)) Ho) as (s' & -> & Hm); [apply H|lia..|]. cbn [rbind]. fold d.
  destruct (file_at_moves _ _ _ _ _ _ _ _ H Hm) as [H' Hc]. unfold advance, get_file. rewrite (fa_file _ _ _ _ _ _ _ H'). cbn [of_opt rbind f_pos f_inode deny_write].
  unfold off_t. unfold max_blocks in Hl0. rewrite bool_decide_eq_true_2 by lia. cbn [rbind]. eexists. split; [done|].
  split; [eapply file_at_step; [exact H'|apply H'|done]|]. split; [apply Hm|exact Hc].
Qed.

(** A write inside a file that is not a directory. *)
Lemma file_write_ok s G f p i t q buf size : file_at s G f p i t q -> deny_write_cnt i = 0 -> locked i = false ->
  sec (vw s) t !!! Z.to_nat f_is_dir = 0 -> 0 <= size <= Z.of_nat (length buf) -> 0 <= q -> q + size <= Z.of_nat (length (content (vw s) t)) ->
  exists s', file_write junk zeros oom s f buf size = Ret (s', size) /\ file_at s' G f p i t (q + size) /\
    content (vw s') t = take (Z.to_nat q) (content (vw s) t) ++ take (Z.to_nat size) buf ++ drop (Z.to_nat (q + size)) (content (vw s) t) /\
    sec (vw s') t !!! Z.to_nat f_is_dir = 0 /\
    (forall g, g ∈ G -> g <> FREE_MAP_SECTOR \/ free_map_file s = NULL -> content (vw s') g = content (vw s) g) /\ free_map_file s' = free_map_file s.
Proof.
  intros H Hdeny Hlk Hnd Hs Hq Hin. destruct (file_at_len _ _ _ _ _ _ _ H) as [Hl0 Hl]. pose proof (file_at_opened _ _ _ _ _ _ _ H) as Ho.
  unfold file_write, get_file. rewrite (fa_file _ _ _ _ _ _ _ H). cbn [of_opt rbind f_inode f_pos]. unfold inode_dir_check.
  destruct (scratch_ok s (iv_ready _ _ _ (fa_inv _ _ _ _ _ _ _ H))) as (s1 & a & -> & Hm1 & _). cbn [rbind].
  destruct (opened_same _ _ _ _ _ Hm1 Ho) as [K1 _ K3 _ _].
  destruct (read_inode s1 p i _ (mv_ready _ _ _ Hm1) K1 K3) as (s2 & E2 & Hm2). unfold get_inode in *. rewrite K1 in *. cbn [of_opt rbind] in *.
  rewrite E2. cbn [rbind]. rewrite Hnd. rewrite bool_decide_eq_false_2 by lia. pose proof (moves_same _ _ _ _ Hm1 Hm2) as Hm.
  destruct (file_at_moves _ _ _ _ _ _ _ _ H Hm) as [H2 Hc2]. destruct (file_at_len _ _ _ _ _ _ _ H2) as [_ Hl2]. rewrite Hc2 in Hl2.
  destruct (write_grows (inode_write_at_ junk zeros oom (write_levels junk zeros oom 1)) s2 G t p i buf size q) as (s' & E & Hw & _); try done; try lia; try apply H2.
  { intros _. apply H. }
  { rewrite Z.max_l by lia. unfold blks. lia. }
  change (inode_write_at junk zeros oom s2 p buf size q = Ret (s', size)) in E. rewrite E. cbn [rbind].
  pose proof (wo_rest _ _ _ _ _ _ _ Hw) as Er. pose proof (rest_fmfile _ _ Er) as Ef. pose proof Er as Er'. unfold rest in Er'. injection Er' as _ _ _ E4 _ _.
  unfold advance, get_file. rewrite E4, (fa_file _ _ _ _ _ _ _ H2). cbn [of_opt rbind f_pos f_inode deny_write]. unfold off_t. unfold max_blocks in Hl0.
  rewrite bool_decide_eq_true_2 by lia. cbn [rbind]. assert (Hv : forall x, vw s2 x = vw s x) by apply Hm.
  assert (Hfm : free_map_file s2 = free_map_file s) by apply rest_fmfile, Hm. eexists. split; [done|].
  split; [eapply file_at_step; [exact H2|apply Hw|done]|]. rewrite <- Hc2. split_and!.
  - apply (content_wrote G t s2 s' buf size q); [lia|done|lia|lia].
  - cbn [vw]. change (vw (set_file s' f _)) with (vw s'). rewrite (wo_head _ _ _ _ _ _ _ Hw) by (unfold f_is_dir; lia). unfold sec. rewrite Hv. exact Hnd.
  - intros g Hg Hne. change (vw (set_file s' f _)) with (vw s'). rewrite (wrote_others G t s2 s' buf size q g); [|apply H2|done..|by rewrite Hfm].
    apply content_agree. intros; apply Hv.
  - simpl. congruence.
Qed.

Lemma inv_forget s s' G f p i t q : file_at s G f p i t q -> moves s s' (vw s) -> forall s'', cd s'' = cd s' -> next s'' = next s' ->
  free_map s'' = free_map s' -> free_map_file s'' = free_map_file s' -> files s'' = delete f (files s') ->
  (forall p', p' <> p -> inodes s'' !! p' = inodes s' !! p') -> inv s'' [] (t :: G).
Proof.
  intros H Hm s'' E1 E2 E3 E4 E5 E6. destruct (file_at_moves _ _ _ _ _ _ _ _ H Hm) as [H' _]. pose proof H' as [I1 I2 I3 I4 I5 I6 I7].
  assert (Hv : vw s'' = vw s') by (unfold vw; by rewrite E1). eapply inv_frame; [exact I1| |done|done| |by rewrite Hv|by rewrite Hv].
  - destruct (iv_ready _ _ _ I1). split; by rewrite ?E1, ?E2.
  - intros (fl & j & F1 & F2 & F3 & F4 & F5). assert (Hp : f_inode fl <> p).
    { intros Ep. rewrite Ep, I4 in F2. by simplify_eq. }
    exists fl, j. rewrite E4, E5, E6 by done. split_and!; try done. rewrite lookup_delete_ne; [done|]. intros Ef. rewrite Ef, F1 in I3. by simplify_eq.
Qed.

Lemma file_close_ok s G f p i t q : file_at s G f p i t q -> closable i -> exists s', file_close junk zeros oom s f = Ret s' /\
  inv s' [] (t :: G) /\ (forall x, vw s' x = vw s x).
Proof.
  intros H (Hlk & Hc1 & Hc2). pose proof H as [H1 H2 H3 H4 H5 H6 H7]. unfold file_close. rewrite bool_decide_eq_true_2 by done.
  unfold file_allow_write. rewrite bool_decide_eq_true_2 by done. unfold get_file at 1. rewrite H3. cbn [assert_ of_opt rbind deny_write].
  unfold get_file at 1. rewrite H3. cbn [of_opt rbind f_inode].
  destruct (close_start s (t :: G) p i H1 H4) as (s2 & Hm & ->); [rewrite H5; by left|done|]. pose proof (moves_inodes _ _ _ Hm) as Ein.
  destruct (decide (iopen_cnt i = 1)) as [Ec|Ec].
  - unfold drop_ref. cbn [iopen_cnt with_iopen]. rewrite bool_decide_eq_true_2 by lia. unfold lock_inode, get_inode. simpl. rewrite lookup_insert_eq.
    cbn [of_opt rbind locked removed with_iopen]. rewrite Hlk, Hc2 by done. cbn [negb assert_ rbind locked with_iopen with_locked].
    unfold unlock_inode, get_inode. simpl. rewrite lookup_insert_eq. cbn [of_opt rbind assert_ locked with_locked].
    eexists. split; [done|]. split; [|intros x; apply Hm]. eapply inv_forget; try done. intros p' Hp'. simpl. by rewrite lookup_delete_ne, !lookup_insert_ne.
  - rewrite drop_ref_shared by done. cbn [rbind]. eexists. split; [done|]. split; [|intros x; apply Hm].
    eapply inv_forget; try done. intros p' Hp'. simpl. by rewrite lookup_insert_ne.
Qed.

(** ** The loops *)

(** One round of [fsutil_get] with [r] left to copy: a sector is written, or the disk is
    full. *)
Lemma get_round_ok s G f p i t q d k : file_at s G f p i t q -> 0 <= q <= Z.of_nat (length (content (vw s) t)) ->
  Z.of_nat (length d) < 2 ^ 32 -> (k <= length d)%nat ->
  let r := drop (Z.to_nat q) (content (vw s) t) in (0 < length r)%nat ->
  if bool_decide (k = length d) then get_round junk oom f (s, d, Z.of_nat k, Z.of_nat (length r)) = Panic
  else exists s' q', get_round junk oom f (s, d, Z.of_nat k, Z.of_nat (length r)) =
         Ret (inl (s', <[k := resize 512 0 r]> d, Z.of_nat (S k), Z.of_nat (length (drop 512 r)))) /\
         file_at s' G f p i t q' /\ 0 <= q' <= Z.of_nat (length (content (vw s) t)) /\ drop (Z.to_nat q') (content (vw s) t) = drop 512 r /\
         (forall x, vw s' x = vw s x) /\ content (vw s') t = content (vw s) t.
Proof.
  intros H Hq Hd Hk r Hr. unfold get_round. rewrite (bool_decide_eq_true_2 (Z.of_nat (length r) > 0)) by lia. rewrite chunk_min.
  case_bool_decide as Ek; [by rewrite bool_decide_eq_true_2 by lia|].
  rewrite (bool_decide_eq_false_2 (Z.of_nat k >= _)) by lia. set (c := Z.min (Z.of_nat (length r)) 512).
  assert (Hlr : Z.of_nat (length r) = Z.of_nat (length (content (vw s) t)) - q) by (unfold r; rewrite length_drop; lia).
  destruct (file_read_ok s G f p i t q c H) as (s1 & -> & H1 & Hv1 & Hc1); [lia|lia|]. cbn [rbind]. fold r in H1 |- *.
  assert (Hlc : Z.of_nat (length (take (Z.to_nat c) r)) = c) by (rewrite length_take; lia). rewrite Hlc in *.
  rewrite (bool_decide_eq_false_2 (c <> c)) by lia. unfold scratch_write. rewrite (bool_decide_eq_true_2 (Z.of_nat k < _)) by lia. cbn [assert_ rbind].
  exists s1, (q + c). split; [|split; [done|split; [lia|split; [|done]]]].
  - rewrite Nat2Z.id, u32_small by lia. repeat f_equal; [|lia|rewrite length_drop; lia].
    rewrite resize_spec. unfold DISK_SECTOR_SIZE. destruct (decide (Z.of_nat (length r) <= 512)); [rewrite !take_ge by lia|]; repeat f_equal; lia.
  - unfold r at 1. rewrite drop_drop. destruct (decide (Z.of_nat (length r) <= 512)); [rewrite !drop_ge by lia; done|f_equal; lia].
Qed.

Lemma get_loop G f p i t : forall n s d k fuel q, file_at s G f p i t q -> 0 <= q <= Z.of_nat (length (content (vw s) t)) ->
  Z.of_nat (length d) < 2 ^ 32 -> (k <= length d)%nat -> (n < fuel)%nat ->
  let r := drop (Z.to_nat q) (content (vw s) t) in n = blocks r ->
  if bool_decide (k + n <= length d)%nat
  then exists s' q', iter fuel (get_round junk oom f) (s, d, Z.of_nat k, Z.of_nat (length r)) = Ret (s', list_inserts k (pieces n r) d, Z.of_nat (k + n)) /\
         file_at s' G f p i t q' /\ (forall x, vw s' x = vw s x)
  else iter fuel (get_round junk oom f) (s, d, Z.of_nat k, Z.of_nat (length r)) = Panic.
Proof.
  induction n as [|n IH]; intros s d k [|fuel] q H Hq Hd Hk Hf r Hn; try lia; cbn [iter].
  - rewrite (blocks_nil r) by done. simpl. rewrite bool_decide_eq_true_2 by lia. exists s, q. rewrite Nat.add_0_r. done.
  - assert (Hr : (0 < length r)%nat) by (eapply blocks_pos; lia). rewrite blocks_step in Hn by done. injection Hn as Hn.
    pose proof (get_round_ok s G f p i t q d k H Hq Hd Hk Hr) as Hs. fold r in Hs. case_bool_decide as Ek.
    { rewrite Hs, bool_decide_eq_false_2 by lia. done. }
    destruct Hs as (s1 & q1 & -> & H1 & Hq1 & Hr1 & Hv1 & Hc1). cbn [rbind].
    specialize (IH s1 (<[k:=resize 512 0 r]> d) (S k) fuel q1 H1). rewrite Hc1, Hr1, length_insert in IH.
    replace (k + S n)%nat with (S k + n)%nat by lia. specialize (IH Hq1 ltac:(lia) ltac:(lia) ltac:(lia) Hn). case_bool_decide; [|exact IH].
    destruct IH as (s' & q' & -> & H' & Hv'). exists s', q'. cbn [pieces list_inserts]. rewrite list_insert_inserts_lt by lia. split; [done|]. split; [done|].
    intros x. by rewrite Hv', Hv1.
Qed.

(** The other files, of which only the free map's may change. *)
Definition others_same (G : list Z) (s s' : fs) : Prop := free_map_file s' = free_map_file s /\
  forall g, g ∈ G -> g <> FREE_MAP_SECTOR \/ free_map_file s = NULL -> content (vw s') g = content (vw s) g.

Lemma others_trans G s1 s2 s3 : others_same G s1 s2 -> others_same G s2 s3 -> others_same G s1 s3.
Proof. intros [E1 H1] [E2 H2]. split; [congruence|]. intros g Hg Hne. rewrite H2, H1; [done..|]. by rewrite E1. Qed.

(** A file that [file_write] writes to. *)
Definition writable (s : fs) (i : inode) (t : Z) : Prop :=
  deny_write_cnt i = 0 /\ locked i = false /\ sec (vw s) t !!! Z.to_nat f_is_dir = 0.

(** One round of [fsutil_put] with [r] left to copy. *)
Lemma put_round_ok s G f p i t q src k r : file_at s G f p i t q -> writable s i t -> 0 <= q ->
  q + Z.of_nat (length r) = Z.of_nat (length (content (vw s) t)) -> Z.of_nat k + 1 < 2 ^ 32 ->
  src !! k = Some (resize 512 0 r) -> (0 < length r)%nat ->
  let c := Z.of_nat (length (take 512 r)) in
  exists s', put_round junk zeros oom src f (s, Z.of_nat k, Z.of_nat (length r)) = Ret (inl (s', Z.of_nat (S k), Z.of_nat (length (drop 512 r)))) /\
    file_at s' G f p i t (q + c) /\ writable s' i t /\ others_same G s s' /\
    content (vw s') t = take (Z.to_nat q) (content (vw s) t) ++ take 512 r ++ drop (Z.to_nat (q + c)) (content (vw s) t).
Proof.
  intros H (W1 & W2 & W3) Hq Hl Hk Hsrc Hr c. unfold put_round. rewrite (bool_decide_eq_true_2 (Z.of_nat (length r) > 0)) by lia. rewrite chunk_min.
  unfold scratch_read. rewrite Nat2Z.id, Hsrc. cbn [rbind]. replace (Z.of_nat (length r) `min` 512) with c by (unfold c; rewrite length_take; lia).
  assert (Hc : c <= Z.of_nat (length r) /\ c <= 512) by (unfold c; rewrite length_take; lia).
  destruct (file_write_ok s G f p i t q (resize 512 0 r) c H W1 W2 W3) as (s' & -> & H' & Hc' & Hd' & Ho & Hf); [rewrite length_resize; lia|lia|lia|].
  cbn [rbind]. rewrite (bool_decide_eq_false_2 (c <> c)) by lia. exists s'. split_and!; try done.
  - rewrite u32_small by lia. do 4 f_equal; [lia|]. unfold c. rewrite length_take, length_drop. lia.
  - rewrite Hc'. do 2 f_equal. rewrite resize_spec. replace (Z.to_nat c) with (length (take 512 r)) by lia. apply take_app_length.
Qed.

Lemma put_loop G f p i t src tl : Z.of_nat (length src) < 2 ^ 32 -> forall n s k fuel q r, file_at s G f p i t q -> writable s i t -> 0 <= q ->
  q + Z.of_nat (length r) = Z.of_nat (length (content (vw s) t)) -> (n < fuel)%nat -> n = blocks r -> drop k src = pieces n r ++ tl ->
  exists s' q', iter fuel (put_round junk zeros oom src f) (s, Z.of_nat k, Z.of_nat (length r)) = Ret (s', Z.of_nat (k + n)) /\
    file_at s' G f p i t q' /\ writable s' i t /\ others_same G s s' /\ content (vw s') t = take (Z.to_nat q) (content (vw s) t) ++ r.
Proof.
  intros Hsrc. induction n as [|n IH]; intros s k [|fuel] q r H Hw Hq Hl Hf Hn Hp; try lia; cbn [iter].
  - apply blocks_nil in Hn as ->. cbn [length] in Hl. exists s, q. rewrite Nat.add_0_r, app_nil_r, take_ge by lia. done.
  - assert (Hr : (0 < length r)%nat) by (eapply blocks_pos; lia). rewrite blocks_step in Hn by done. injection Hn as Hn.
    assert (Hk : src !! k = Some (resize 512 0 r)) by (rewrite <- (Nat.add_0_r k), <- lookup_drop, Hp; done).
    pose proof (lookup_lt_Some _ _ _ Hk) as Hkl.
    destruct (put_round_ok s G f p i t q src k r H Hw Hq Hl ltac:(lia) Hk Hr) as (s1 & -> & H1 & Hw1 & Ho1 & Hc1). cbn [rbind].
    set (c := Z.of_nat (length (take 512 r))) in *. assert (Hc : c + Z.of_nat (length (drop 512 r)) = Z.of_nat (length r)) by (unfold c; rewrite length_take, length_drop; lia).
    assert (Hl1 : length (content (vw s1) t) = length (content (vw s) t)) by (rewrite Hc1, !length_app, length_take, length_drop; lia).
    destruct (IH s1 (S k) fuel (q + c) (drop 512 r) H1 Hw1) as (s' & q' & -> & H' & Hw' & Ho' & Hc'); try lia.
    { rewrite <- Nat.add_1_r, <- drop_drop, Hp. done. }
    exists s', q'. split; [do 2 f_equal; lia|]. split; [done|]. split; [done|]. split; [by eapply others_trans|]. rewrite Hc', Hc1.
    rewrite app_assoc, take_app_le, take_ge by (rewrite !length_app, length_take; lia). by rewrite <- app_assoc, take_drop.
Qed.

(** ** The transfers *)

Lemma header_bytes sig n : length sig = 4%nat -> put32 (overwrite (replicate (Z.to_nat DISK_SECTOR_SIZE) 0) 0 sig) 4 n = resize 512 0 (sig ++ bytes32 n).
Proof. destruct sig as [|a [|b [|c [|d [|]]]]]; try done. Qed.

Lemma header_sig sig n : length sig = 4%nat -> take 4 (resize 512 0 (sig ++ bytes32 n)) = sig.
Proof. destruct sig as [|a [|b [|c [|d [|]]]]]; try done. Qed.

Lemma header_size sig n : length sig = 4%nat -> 0 <= n < 2 ^ 31 -> s32 (get32 (resize 512 0 (sig ++ bytes32 n)) 4) = n.
Proof.
  intros Hs Hn. rewrite <- header_bytes by done. rewrite get32_put32_eq; [apply s32_small; lia|lia| |unfold is_u32; lia].
  rewrite overwrite_length, length_replicate by (rewrite ?length_replicate; unfold DISK_SECTOR_SIZE; lia). unfold DISK_SECTOR_SIZE. lia.
Qed.

(** [fsutil_get] of a file that [filesys_open] opens writes its archive, or finds that the
    scratch disk is too small. *)
Lemma transfer_out u name s0 s G f p i t d : get_buffer oom (u_fs u) = Ret s0 -> filesys_open junk zeros oom s0 name = Ret (s, f) ->
  file_at s G f p i t 0 -> closable i -> scratch_disk u = Some d -> 0 <= get_sector u -> Z.of_nat (length d) < 2 ^ 32 ->
  let A := archive GET (content (vw s) t) in
  if bool_decide (get_sector u + Z.of_nat (length A) <= Z.of_nat (length d))
  then exists u', fsutil_get junk zeros oom name u = Ret u' /\ scratch_disk u' = Some (list_inserts (Z.to_nat (get_sector u)) A d) /\
         get_sector u' = get_sector u + Z.of_nat (length A) /\ put_sector u' = put_sector u /\ inv (u_fs u') [] (t :: G) /\ (forall x, vw (u_fs u') x = vw s x)
  else fsutil_get junk zeros oom name u = Panic.
Proof.
  intros Eb Eo H Hc Hd Hk Hdl. unfold fsutil_get. cbn [u_fs emit]. rewrite Eb. cbn [rbind]. rewrite Eo. cbn [rbind].
  rewrite (bool_decide_eq_false_2 (f = NULL)) by apply H. destruct (file_length_ok _ _ _ _ _ _ _ H) as (s1 & -> & Hm1). cbn [rbind].
  cbn [scratch_disk get_sector emit]. rewrite Hd, header_bytes by done. fold GET. set (C := content (vw s) t) in *. unfold scratch_write.
  unfold archive. cbn [length]. rewrite length_pieces. destruct (decide (get_sector u < Z.of_nat (length d))) as [Hs|Hs].
  2: { rewrite !bool_decide_eq_false_2 by lia. done. }
  rewrite (bool_decide_eq_true_2 (get_sector u < _)) by lia. cbn [assert_ rbind]. rewrite u32_small by lia.
  destruct (file_at_moves _ _ _ _ _ _ _ _ H Hm1) as [H1 Hc1]. fold C in Hc1. set (h := resize 512 0 _).
  pose proof (get_loop G f p i t (blocks C) s1 (<[Z.to_nat (get_sector u) := h]> d) (S (Z.to_nat (get_sector u))) (S (Z.to_nat (Z.of_nat (length C)))) 0 H1) as HL.
  rewrite Hc1, length_insert in HL. cbv zeta in HL. replace (Z.of_nat (S (Z.to_nat (get_sector u)))) with (get_sector u + 1) in HL by lia.
  specialize (HL ltac:(lia) ltac:(lia) ltac:(lia)). change (drop (Z.to_nat 0) C) with C in HL.
  specialize (HL ltac:(unfold blocks, nblk; Z.div_mod_to_equations; lia) eq_refl).
  destruct (decide (get_sector u + Z.of_nat (S (blocks C)) <= Z.of_nat (length d))) as [Hfit|Hfit].
  - rewrite !bool_decide_eq_true_2 in HL |- * by lia. destruct HL as (s2 & q2 & -> & H2 & Hv2). cbn [rbind].
    destruct (file_close_ok _ _ _ _ _ _ _ H2 Hc) as (s3 & -> & Hi3 & Hv3). cbn [rbind]. eexists. split; [done|].
    cbn [scratch_disk get_sector put_sector u_fs did_get on_fs emit list_inserts].
    rewrite list_insert_inserts_lt by lia. split_and!; [done|lia|done|done|]. intros x. by rewrite Hv3, Hv2, (mv_view _ _ _ Hm1).
  - rewrite !bool_decide_eq_false_2 in HL |- * by lia. by rewrite HL.
Qed.

(** [fsutil_put] of an archive on the scratch disk, when [filesys_create] and
    [filesys_open] give it a file of the archive's length. *)
Lemma transfer_in u name s0 s1 s G f p i t src data tl : get_buffer oom (u_fs u) = Ret s0 ->
  filesys_create junk zeros oom s0 name (Z.of_nat (length data)) false = Ret (s1, true) -> filesys_open junk zeros oom s1 name = Ret (s, f) ->
  file_at s G f p i t 0 -> writable s i t -> closable i -> length (content (vw s) t) = length data ->
  scratch_disk u = Some src -> 0 <= put_sector u -> Z.of_nat (length src) < 2 ^ 32 -> drop (Z.to_nat (put_sector u)) src = archive PUT data ++ tl ->
  exists u', fsutil_put junk zeros oom name u = Ret u' /\ content (vw (u_fs u')) t = data /\
    put_sector u' = put_sector u + Z.of_nat (length (archive PUT data)) /\ scratch_disk u' = scratch_disk u /\ get_sector u' = get_sector u /\
    inv (u_fs u') [] (t :: G) /\
    (forall g, g ∈ G -> g <> FREE_MAP_SECTOR \/ free_map_file s = NULL -> content (vw (u_fs u')) g = content (vw s) g).
Proof.
  intros Eb Ec Eo H Hw Hcl Hlen Hd Hk Hsl Hsrc. unfold fsutil_put. cbn [u_fs emit]. rewrite Eb. cbn [rbind scratch_disk put_sector emit]. rewrite Hd.
  destruct (file_at_len _ _ _ _ _ _ _ H) as [Hl0 Hl]. unfold max_blocks in Hl0. set (k := Z.to_nat (put_sector u)) in *.
  assert (Hh : src !! k = Some (resize 512 0 (PUT ++ bytes32 (Z.of_nat (length data))))) by (rewrite <- (Nat.add_0_r k), <- lookup_drop, Hsrc; done).
  pose proof (lookup_lt_Some _ _ _ Hh) as Hkl. unfold scratch_read. fold k. rewrite Hh. cbn [rbind]. rewrite header_sig, header_size by (done || lia).
  rewrite (bool_decide_eq_false_2 (PUT <> _)) by (intros E; by apply E). rewrite (bool_decide_eq_false_2 (_ < 0)) by lia. rewrite Ec. cbn [rbind negb].
  rewrite Eo. cbn [rbind]. rewrite (bool_decide_eq_false_2 (f = NULL)) by apply H. rewrite u32_small by lia.
  replace (put_sector u + 1) with (Z.of_nat (S k)) by lia.
  destruct (put_loop G f p i t src tl Hsl (blocks data) s (S k) (S (Z.to_nat (Z.of_nat (length data)))) 0 data H Hw) as (s' & q' & -> & H' & Hw' & [Hf' Ho'] & Hc'); try lia.
  { unfold blocks, nblk. Z.div_mod_to_equations. lia. }
  { rewrite <- Nat.add_1_r, <- drop_drop, Hsrc. done. }
  cbn [rbind]. destruct (file_close_ok _ _ _ _ _ _ _ H' Hcl) as (s3 & -> & Hi3 & Hv3). cbn [rbind]. eexists. split; [done|].
  cbn [scratch_disk get_sector put_sector u_fs did_put on_fs emit]. unfold archive. cbn [length]. rewrite length_pieces.
  assert (Hcv : forall g, content (vw s3) g = content (vw s') g) by (intros g; by apply content_agree).
  split_and!; [by rewrite Hcv, Hc'|lia|done|done|done|]. intros g Hg Hne. rewrite Hcv. by apply Ho'.
Qed.
End Proofs.

(** ** Printing *)

Definition pgsize : nat := Z.to_nat PGSIZE.
Lemma pgsize_val : Z.of_nat pgsize = 4096.
Proof. done. Qed.

(** The calls of [hex_dump] that print [r], which starts at position [pos] of a file. *)
Fixpoint dumps (n : nat) (pos : Z) (r : list Z) : list output :=
  match n with O => [] | S n => Dumped pos (take pgsize r) :: dumps n (pos + 4096) (drop pgsize r) end.

Definition page_cnt (r : list Z) : nat := Z.to_nat ((Z.of_nat (length r) + 4095) / 4096).

Section Cat.
Context {junk zeros : list Z} {oom : Z -> bool} `{Hmem : !good_memory junk zeros oom}.
#[local] Set Default Proof Using "All".

Lemma cat_round_ok u G f p i t q : file_at (u_fs u) G f p i t q -> 0 <= q <= Z.of_nat (length (content (vw (u_fs u)) t)) ->
  let r := drop (Z.to_nat q) (content (vw (u_fs u)) t) in
  exists s, file_at s G f p i t (q + Z.of_nat (length (take pgsize r))) /\ (forall x, vw s x = vw (u_fs u) x) /\
    cat_round junk oom f u = Ret (if decide (length r = 0%nat) then inr (on_fs s u) else inl (emit (Dumped q (take pgsize r)) (on_fs s u))).
Proof.
  intros H Hq r. unfold cat_round, file_tell, get_file. rewrite bool_decide_eq_true_2 by apply H. rewrite (fa_file _ _ _ _ _ _ _ H). cbn [assert_ of_opt rbind f_pos].
  destruct (file_read_ok (u_fs u) G f p i t q PGSIZE H) as (s & -> & H' & Hv & _); [unfold PGSIZE; lia|lia|]. cbn [rbind]. fold pgsize in H' |- *. pose proof pgsize_val as Hpg.
  fold r in H' |- *. exists s. split; [done|]. split; [done|]. rewrite length_take. case_decide as Hr; [by rewrite bool_decide_eq_true_2 by lia|].
  by rewrite bool_decide_eq_false_2 by lia.
Qed.

Lemma cat_loop G f p i t : forall n u fuel q, file_at (u_fs u) G f p i t q -> 0 <= q <= Z.of_nat (length (content (vw (u_fs u)) t)) ->
  let r := drop (Z.to_nat q) (content (vw (u_fs u)) t) in n = page_cnt r -> (n < fuel)%nat ->
  exists s q' os, iter fuel (cat_round junk oom f) u = Ret (mkUtil s (scratch_disk u) (put_sector u) (get_sector u) os) /\
    os = reverse (dumps n q r) ++ outputs u /\ file_at s G f p i t q' /\ (forall x, vw s x = vw (u_fs u) x).
Proof.
  pose proof pgsize_val as Hpg. induction n as [|n IH]; intros u [|fuel] q H Hq r Hn Hf; try lia; cbn [iter]; destruct (cat_round_ok u G f p i t q H Hq) as (s & Hs & Hv & ->); fold r in Hs |- *;
    cbn [rbind].
  - rewrite decide_True by (unfold page_cnt in Hn; Z.div_mod_to_equations; lia). eexists s, _, _. split; [done|]. done.
  - assert (Hr : (0 < length r)%nat) by (unfold page_cnt in Hn; Z.div_mod_to_equations; lia). rewrite decide_False by lia.
    set (u1 := emit _ _). set (c := Z.of_nat (length (take pgsize r))) in *. assert (Hc : content (vw s) t = content (vw (u_fs u)) t) by (apply content_agree; intros; apply Hv).
    assert (Hlr : Z.of_nat (length r) = Z.of_nat (length (content (vw (u_fs u)) t)) - q) by (unfold r; rewrite length_drop; lia).
    assert (Hcl : c = Z.min 4096 (Z.of_nat (length r))) by (unfold c; rewrite length_take; lia).
    assert (Hd : drop (Z.to_nat (q + c)) (content (vw s) t) = drop pgsize r).
    { rewrite Hc. unfold r. rewrite drop_drop. destruct (decide (Z.of_nat (length r) <= 4096)); [rewrite !drop_ge by lia; done|f_equal; lia]. }
    assert (Hn1 : n = page_cnt (drop pgsize r)) by (unfold page_cnt in *; rewrite length_drop; Z.div_mod_to_equations; lia).
    specialize (IH u1 fuel (q + c) Hs). cbn [u_fs u1 emit on_fs] in IH. rewrite Hd in IH. destruct (IH ltac:(rewrite Hc; lia) Hn1 ltac:(lia)) as (s' & q' & os & E & -> & H' & Hv').
    exists s', q', (reverse (dumps (S n) q r) ++ outputs u). split; [|split; [done|split; [done|by intros x; rewrite Hv', Hv]]]. rewrite E.
    cbn [dumps]. rewrite reverse_cons, <- app_assoc. replace (dumps n (q + c) (drop pgsize r)) with (dumps n (q + 4096) (drop pgsize r)); [done|].
    destruct n; [done|]. replace c with 4096; [done|]. unfold page_cnt in Hn1. rewrite length_drop in Hn1. Z.div_mod_to_equations. lia.
Qed.
End Cat.

(** ** Properties *)

(** [fsutil_cat] of a file that [filesys_open] opens prints its bytes, in order and with
    their positions, page by page, and changes no file. *)
Theorem fsutil_cat_prints junk zeros oom u name s0 G f p i t :
  good_memory junk zeros oom -> filesys_open junk zeros oom (u_fs u) name = Ret (s0, f) -> file_at s0 G f p i t 0 -> closable i ->
  let data := content (vw s0) t in
  exists u', fsutil_cat junk zeros oom name u = Ret u' /\
    outputs u' = reverse (dumps (page_cnt data) 0 data) ++ Said "Printing '%s' to the console...\n" name :: outputs u /\
    inv (u_fs u') [] (t :: G) /\ (forall x, vw (u_fs u') x = vw s0 x).
Proof.
  intros Hmem Eo H Hc data. unfold fsutil_cat. cbn [u_fs emit]. rewrite Eo. cbn [rbind]. rewrite (bool_decide_eq_false_2 (f = NULL)) by apply H.
  destruct (get_buffer_ok s0 (iv_ready _ _ _ (fa_inv _ _ _ _ _ _ _ H))) as (s1 & -> & Hm). cbn [rbind].
  destruct (file_at_moves _ _ _ _ _ _ _ _ H Hm) as [H1 Hc1]. destruct (file_at_len _ _ _ _ _ _ _ H) as [Hl0 Hl]. unfold max_blocks in Hl0. fold data in Hc1, Hl.
  pose proof (cat_loop G f p i t (page_cnt data) (on_fs s1 (emit (Said "Printing '%s' to the console...\n" name) u)) cat_rounds 0 H1) as HL.
  cbn [u_fs on_fs] in HL. rewrite Hc1 in HL. cbv zeta in HL. change (drop (Z.to_nat 0) data) with data in HL.
  destruct (HL ltac:(lia) eq_refl) as (s2 & q2 & os & E & -> & H2 & Hv2); [unfold page_cnt, cat_rounds; Z.div_mod_to_equations; lia|].
  rewrite E. cbn [rbind u_fs]. destruct (file_close_ok _ _ _ _ _ _ _ H2 Hc) as (s3 & -> & Hi3 & Hv3). cbn [rbind]. eexists. split; [done|].
  cbn [u_fs on_fs outputs emit]. split_and!; [done|done|]. intros x. by rewrite Hv3, Hv2, (mv_view _ _ _ Hm).
Qed.

(** C18. [fsutil_get] writes an archive of the file to the scratch disk or panics.  It
    panics when [filesys_open] does not find the file, when there is no scratch disk and
    when the archive does not fit behind the sectors used so far.  Otherwise, for a file
    [f] that [filesys_open] returned in a consistent file system, not the last handle of a
    removed file, it writes "GET", the length and then the bytes of the file, filled up with
    zeros to whole sectors, to the next sectors of the scratch disk, changes no other sector
    of it, moves its counter behind the archive, leaves the counter of [fsutil_put] and
    every file as it was and keeps the file system consistent.  Memory allocations succeed,
    and the sector numbers of the scratch disk fit in 32 bits. *)
Theorem fsutil_get_archives junk zeros oom u name s0 s f :
  good_memory junk zeros oom -> get_buffer oom (u_fs u) = Ret s0 -> filesys_open junk zeros oom s0 name = Ret (s, f) ->
  (f = NULL -> fsutil_get junk zeros oom name u = Panic) /\
  forall G p i t, file_at s G f p i t 0 -> closable i ->
    (scratch_disk u = None -> fsutil_get junk zeros oom name u = Panic) /\
    forall d, scratch_disk u = Some d -> 0 <= get_sector u -> Z.of_nat (length d) < 2 ^ 32 ->
    let A := archive GET (content (vw s) t) in let k := Z.to_nat (get_sector u) in
    if bool_decide (k + length A <= length d)%nat
    then exists u', fsutil_get junk zeros oom name u = Ret u' /\ scratch_disk u' = Some (take k d ++ A ++ drop (k + length A) d) /\
           get_sector u' = get_sector u + Z.of_nat (length A) /\ put_sector u' = put_sector u /\
           inv (u_fs u') [] (t :: G) /\ (forall x, vw (u_fs u') x = vw s x)
    else fsutil_get junk zeros oom name u = Panic.
Proof.
  intros Hmem Eb Eo. split.
  { intros ->. unfold fsutil_get. cbn [u_fs emit]. rewrite Eb. cbn [rbind]. rewrite Eo. done. }
  intros G p i t H Hc. split.
  { intros Hd. unfold fsutil_get. cbn [u_fs emit]. rewrite Eb. cbn [rbind]. rewrite Eo. cbn [rbind]. rewrite (bool_decide_eq_false_2 (f = NULL)) by apply H.
    destruct (file_length_ok _ _ _ _ _ _ _ H) as (s1 & -> & _). cbn [rbind scratch_disk emit]. by rewrite Hd. }
  intros d Hd Hk Hdl A k. pose proof (transfer_out u name s0 s G f p i t d Eb Eo H Hc Hd Hk Hdl) as HT. fold A k in HT. cbv zeta in HT.
  rewrite (bool_decide_ext _ (k + length A <= length d)%nat) in HT by lia. case_bool_decide as Hfit; [|done].
  destruct HT as (u' & E & Ed & HT). exists u'. split; [done|]. split; [|done]. rewrite Ed. f_equal.
  replace d with (take k d ++ take (length A) (drop k d) ++ drop (k + length A) d) at 1 by (by rewrite <- drop_drop, !take_drop).
  replace k with (length (take k d) + 0)%nat at 1 by (rewrite length_take; lia). rewrite list_inserts_app_r. f_equal.
  apply list_inserts_0_r. rewrite length_take, length_drop. lia.
Qed.

(** ** Examples *)
Module Demo.

Definition name_bar : list Z := [98; 97; 114].
Definition bytes : list Z := concat (replicate 200 [7; 8; 9]).

(** The formatted disk, where the open file has got some bytes. *)
Definition filled : fs := Eval vm_compute in
  match file_write demo_junk demo_junk demo_oom booted foo bytes 600 with Ret (s, _) => s | _ => booted end.
Definition taker : util := mkUtil filled (Some (replicate 8 (replicate 512 5))) 0 2 [].
Definition opened : fs * Z := Eval vm_compute in
  match (let! s := get_buffer demo_oom filled in filesys_open demo_junk demo_junk demo_oom s name_foo) with Ret x => x | _ => (filled, 0) end.

(** The disk with the file as it was, to which a new file is added. *)
Definition giver : util := mkUtil booted (Some (archive PUT bytes)) 0 0 [].
Definition created : fs := Eval vm_compute in
  match (let! s := get_buffer demo_oom booted in filesys_create demo_junk demo_junk demo_oom s name_bar 600 false) with Ret (s, _) => s | _ => booted end.
Definition added : fs * Z := Eval vm_compute in
  match filesys_open demo_junk demo_junk demo_oom created name_bar with Ret x => x | _ => (created, 0) end.
Definition inode_ptr (x : fs * Z) : Z := match files x.1 !! x.2 with Some fl => f_inode fl | None => NULL end.
Definition inode_of (x : fs * Z) : inode := default (mkInode 0 0 false 0 false) (inodes x.1 !! inode_ptr x).
Definition added_sector : Z := Eval vm_compute in sector (inode_of added).

Lemma opened_at : file_at opened.1 [FREE_MAP_SECTOR; ROOT_DIR_SECTOR] opened.2 (inode_ptr opened) (inode_of opened) 4 0.
Proof. split; [apply inv_b_ok; vm_compute; reflexivity|discriminate|vm_compute; (reflexivity || discriminate)..]. Qed.

Lemma added_at : file_at added.1 booted_files added.2 (inode_ptr added) (inode_of added) added_sector 0.
Proof. split; [apply inv_b_ok; vm_compute; reflexivity|discriminate|vm_compute; (reflexivity || discriminate)..]. Qed.

Lemma demo_closable x : locked (inode_of x) = false -> (1 <=? iopen_cnt (inode_of x)) = true -> removed (inode_of x) = false -> closable (inode_of x).
Proof. intros H1 H2 H3. split; [done|]. split; [lia|done]. Qed.

Lemma fsutil_get_archives_witness : exists u' d', fsutil_get demo_junk demo_junk demo_oom name_foo taker = Ret u' /\ get_sector u' = 5 /\
  scratch_disk u' = Some d' /\ d' !! 1%nat = Some (replicate 512 5) /\ d' !! 3%nat = Some (take 512 bytes) /\ d' !! 5%nat = Some (replicate 512 5).
Proof.
  assert (Hb : get_buffer demo_oom (u_fs taker) = Ret (with_next filled (next filled + 1024))) by (vm_compute; reflexivity).
  assert (Hd : content (vw opened.1) 4 = bytes) by (vm_compute; reflexivity).
  destruct (fsutil_get_archives demo_junk demo_junk demo_oom taker name_foo _ opened.1 opened.2 demo_memory Hb) as [_ H]; [vm_compute; reflexivity|].
  destruct (H [FREE_MAP_SECTOR; ROOT_DIR_SECTOR] (inode_ptr opened) (inode_of opened) 4 opened_at) as [_ HA]; [apply demo_closable; vm_compute; reflexivity|].
  specialize (HA (replicate 8 (replicate 512 5)) eq_refl ltac:(discriminate) ltac:(vm_compute; reflexivity)). cbv zeta in HA. rewrite Hd in HA.
  rewrite bool_decide_eq_true_2 in HA by (vm_compute; lia). destruct HA as (u' & E & Ed & Eg & _).
  eexists u', _. split; [exact E|]. split; [exact Eg|]. split; [exact Ed|]. split_and!; vm_compute; reflexivity.
Defined.

(** The archive with the other signature goes back in. *)
Lemma transfer_in_demo : exists v', fsutil_put demo_junk demo_junk demo_oom name_bar giver = Ret v' /\ content (vw (u_fs v')) added_sector = bytes.
Proof.
  destruct (transfer_in (Hmem := demo_memory) giver name_bar (with_next booted (next booted + 1024)) created added.1 booted_files added.2 (inode_ptr added) (inode_of added)
    added_sector (archive PUT bytes) bytes []) as (v' & Ev & Hc & _).
  - vm_compute. reflexivity.
  - vm_compute. reflexivity.
  - vm_compute. reflexivity.
  - exact added_at.
  - split; [|split]; vm_compute; reflexivity.
  - apply demo_closable; vm_compute; reflexivity.
  - vm_compute. reflexivity.
  - reflexivity.
  - discriminate.
  - vm_compute. reflexivity.
  - symmetry. apply app_nil_r.
  - exists v'. exact (conj Ev Hc).
Qed.

(** The command line "put bar get bar" with a kernel whose scratch disk holds an archive:
    the file goes in and comes out again over the archive. *)
Definition words : list (list Z) := [chars "put"; name_bar; chars "get"; name_bar].
Definition line : mem :=
  foldr (fun s m => mem_at (demo_lit s) (literal s) ∪ m)
    (mem_at area (packed words) ∪ mem_at (PHYS_BASE + LOADER_ARG_CNT) (count_bytes 4)) constants.

Lemma command_line_transfers :
  match run_command_line demo_lit (fun _ w => Ret w) (fsutil demo_junk demo_junk demo_oom)
          (CommandLine.mkKernel line false false false 100 None [] giver) with
  | Ret (k, false) => scratch_disk (world k) = Some (archive GET bytes)
  | _ => False
  end.
Proof. vm_compute. reflexivity. Qed.

(** Without room on the scratch disk [fsutil_get] panics. *)
Lemma scratch_full : fsutil_get demo_junk demo_junk demo_oom name_foo (mkUtil filled (Some (replicate 2 [])) 0 0 []) = Panic.
Proof. vm_compute. reflexivity. Qed.
End Demo.
