(* ===== verification/SyscallRun.v ===== *)
(** * System calls that return, and one that does not

    Calls whose arguments are in memory run to their end: what is written to a file is what
    is read from it, and a position that is set is the one that is used.  A descriptor that
    is not open stops the machine in three of the calls. *)

From S2P Require Import Prelude Bitmap Vaddr Cstring Stdlibc Cache CacheProof Inode InodeView InodeOps InodeIO InodeGrow InodeExpand InodeProof Directory FsCheck FileProps Fsutil.
From S2P Require Import FsFrame Syscall SyscallProof Descriptors.
#[local] Open Scope sys_scope.

(** ** Arguments in memory *)

(** The word at [a] is in pages of the process that are in frames. *)
Record word_ready (s : task) (a : Z) : Prop := {
  wr_not_null : a <> 0;
  wr_user : forall k, 0 <= k < 4 -> is_user_vaddr (a + k) = true;
  wr_page : forall k, 0 <= k < 4 -> is_Some (pages s !! pg_round_down (a + k));
  wr_frame : pg_round_down a ∈ resident s
}.

(** The state differs in the pages that are in frames only. *)
Definition more_frames (R : gset Z) (s : task) : task := set_memory (pages s) R s.
Record grown (s s' : task) : Prop := { gr_frames : resident s ⊆ resident s'; gr_same : s' = more_frames (resident s') s }.

#[local] Instance grown_preorder : PreOrder grown.
Proof.
  split; [by intros []|]. intros s1 s2 s3 [F1 S1] [F2 S2]. split; [by transitivity (resident s2)|]. rewrite S2 at 1. by rewrite S1.
Qed.

Lemma grown_word s s' a : grown s s' -> user_word s' a = user_word s a.
Proof. intros [_ ->]. done. Qed.
Lemma grown_ready s s' a : grown s s' -> word_ready s a -> word_ready s' a.
Proof. intros [Hr Hs] [H1 H2 H3 H4]. split; [done..| |set_solver]. by rewrite Hs. Qed.
Lemma grown_quiet s s' : grown s s' -> quiet s s'.
Proof. intros [_ ->]. by split. Qed.

Section Run.
Context {pager : Pager}.
Context (junk zeros : list Z) (oom : Z -> bool) (execute : list Z -> Z) (wait : Z -> Z).

Lemma load_byte_runs s a : is_user_vaddr a = true -> is_Some (pages s !! pg_round_down a) ->
  exists s', load_byte junk zeros oom a s = Ret (s', Val (user_byte s a)) /\ grown s s'.
Proof.
  intros Hu [[w page] Hp]. unfold load_byte, sbind, user_access, user_page. rewrite Hu, Hp. simpl. unfold user_byte. rewrite Hp.
  eexists. split; [done|]. split; [set_solver|]. unfold touch, more_frames. simpl. by rewrite insert_id.
Qed.

Lemma load_word_runs s a : word_ready s a -> exists s', load_word junk zeros oom a s = Ret (s', Val (user_word s a)) /\ grown s s'.
Proof.
  intros [_ Hu Hp _].
  assert (forall k s1, 0 <= k < 4 -> grown s s1 -> exists s2, load_byte junk zeros oom (a + k) s1 = Ret (s2, Val (user_byte s (a + k))) /\ grown s s2) as Hk.
  { intros k s1 Hk Hg. destruct (load_byte_runs s1 (a + k)) as (s2 & H & Hg'); [by apply Hu|destruct Hg as [_ ->]; by apply Hp|].
    exists s2. rewrite H, (q_mem s s1) by by apply grown_quiet. split; [done|by transitivity s1]. }
  destruct (Hk 0 s) as (s1 & H1 & G1); [lia|done|]. destruct (Hk 1 s1) as (s2 & H2 & G2); [lia|done|].
  destruct (Hk 2 s2) as (s3 & H3 & G3); [lia|done|]. destruct (Hk 3 s3) as (s4 & H4 & G4); [lia|done|].
  exists s4. split; [|done]. rewrite Z.add_0_r in H1. unfold load_word, sbind. simpl. unfold sbind. rewrite H1. simpl. rewrite H2. simpl.
  replace (a + 1 + 1) with (a + 2) by lia. rewrite H3. simpl. replace (a + 2 + 1) with (a + 3) by lia. rewrite H4. done.
Qed.

Lemma check_runs s a : word_ready s a -> check_address junk zeros oom a s = Ret (s, Val tt).
Proof.
  intros [Hn Hu _ Hf]. unfold check_address. rewrite bool_decide_false by done. specialize (Hu 0 ltac:(lia)). rewrite Z.add_0_r in Hu.
  rewrite Hu. simpl. unfold sbind, get. simpl. by rewrite bool_decide_true.
Qed.

(** A prefix of a call that returns. *)
Lemma sbind_run {A B} (m : sys A) (k : A -> sys B) s s1 a : m s = Ret (s1, Val a) -> sbind m k s = k a s1.
Proof. unfold sbind. by intros ->. Qed.

(** The same memory and the same lock. *)
Record kept (s s' : task) : Prop := {
  ke_pages : pages s' = pages s;
  ke_frames : resident s ⊆ resident s';
  ke_lock : file_lock s' = file_lock s
}.

Lemma kept_word s s' a : kept s s' -> user_word s' a = user_word s a.
Proof. intros [Hp _ _]. unfold user_word, user_byte. by rewrite !Hp. Qed.
Lemma kept_ready s s' a : kept s s' -> word_ready s a -> word_ready s' a.
Proof. intros [Hp Hr _] [H1 H2 H3 H4]. split; [done..| |set_solver]. by rewrite Hp. Qed.
Lemma grown_kept s s' : grown s s' -> kept s s'.
Proof. intros [Hr ->]. by split. Qed.

Lemma handler_runs p s : word_ready s p -> exists s1, grown (set_esp p s) s1 /\
  syscall_handler junk zeros oom execute wait p s = dispatch junk zeros oom execute wait p (user_word s p) s1.
Proof.
  intros Hp. unfold syscall_handler. rewrite (sbind_run _ _ s (set_esp p s) tt) by done.
  assert (word_ready (set_esp p s) p) as Hp' by by destruct Hp.
  rewrite (sbind_run _ _ _ _ _ (check_runs _ _ Hp')). destruct (load_word_runs _ _ Hp') as (s1 & H & Hg).
  exists s1. split; [done|]. by rewrite (sbind_run _ _ _ _ _ H).
Qed.

(** ** Buffers in memory *)

(** [n] bytes at [a] in pages of the process; the first of them is in a frame, which is what
    [check_address] asks for. *)
Record buffer_ready (s : task) (a n : Z) : Prop := {
  br_range : 0 < a < PHYS_BASE;
  br_end : a + n <= PHYS_BASE;
  br_page : forall k, 0 <= k < n -> is_Some (pages s !! pg_round_down (a + k));
  br_frame : pg_round_down a ∈ resident s
}.

(** They can be written. *)
Definition buffer_writable (s : task) (a n : Z) : Prop :=
  forall k, 0 <= k < n -> exists page, pages s !! pg_round_down (a + k) = Some (true, page) /\ length page = 4096%nat.

Fixpoint user_bytes (s : task) (a : Z) (n : nat) : list Z :=
  match n with O => [] | S n => user_byte s a :: user_bytes s (a + 1) n end.

Lemma user_bytes_length s n : forall a, length (user_bytes s a n) = n.
Proof. induction n as [|n IH]; intros a; [done|]. simpl. by rewrite IH. Qed.

Lemma user_bytes_ext s s' n : forall a, (forall b, a <= b < a + Z.of_nat n -> user_byte s' b = user_byte s b) -> user_bytes s' a n = user_bytes s a n.
Proof. induction n as [|n IH]; intros a Hb; [done|]. simpl. rewrite Hb by lia. f_equal. apply IH. intros b Hb'. apply Hb. lia. Qed.

Lemma readable_runs s n : forall a R, (forall k, 0 <= k < Z.of_nat n -> is_user_vaddr (a + k) = true /\ is_Some (pages s !! pg_round_down (a + k))) ->
  exists R', R ⊆ R' /\ readable n a (more_frames R s) = (more_frames R' s, user_bytes s a n).
Proof.
  induction n as [|n IH]; intros a R Hb; [by exists R|]. cbn [readable user_bytes].
  destruct (Hb 0 ltac:(lia)) as [Hu [[w page] Hp]]. rewrite Z.add_0_r in Hu, Hp. unfold user_page. rewrite Hu. change (pages (more_frames R s)) with (pages s). rewrite Hp.
  assert (touch a (w, page) (more_frames R s) = more_frames ({[pg_round_down a]} ∪ R) s) as ->.
  { unfold touch, more_frames. simpl. by rewrite insert_id. }
  destruct (IH (a + 1) ({[pg_round_down a]} ∪ R)) as (R' & HR & ->).
  { intros k Hk. specialize (Hb (k + 1) ltac:(lia)). by replace (a + 1 + k) with (a + (k + 1)) by lia. }
  exists R'. split; [set_solver|]. unfold user_byte. by rewrite Hp.
Qed.

Lemma user_byte_write s a b x page w : 0 <= a < PHYS_BASE -> 0 <= b < 2 ^ 32 -> pages s !! pg_round_down a = Some (w, page) -> length page = 4096%nat ->
  user_byte (touch a (true, <[Z.to_nat (pg_ofs a) := x]> page) s) b = if decide (b = a) then x else user_byte s b.
Proof.
  intros Ha Hb Hp Hl. assert (PHYS_BASE < 2 ^ 32) as HB by done.
  pose proof (pg_ofs_mod a) as Oa. pose proof (pg_ofs_mod b) as Ob. pose proof (Z.mod_pos_bound a 4096 ltac:(lia)). pose proof (Z.mod_pos_bound b 4096 ltac:(lia)).
  unfold user_byte, touch. simpl. destruct (decide (pg_round_down b = pg_round_down a)) as [E|E].
  - rewrite E, lookup_insert_eq, Hp. case_decide as Hd.
    + subst b. apply nth_lookup_Some. apply list_lookup_insert_eq. lia.
    + rewrite !nth_lookup, list_lookup_insert_ne; [done|]. rewrite Oa, Ob. intros Hm. apply Hd.
      rewrite !pg_round_down_eq in E by (unfold is_u32; lia). lia.
  - rewrite lookup_insert_ne by done. rewrite decide_False; [done|]. by intros ->.
Qed.

(** A buffer is filled, and nothing else changes. *)
Record filled (a : Z) (l : list Z) (s s' : task) : Prop := {
  fl_same : s' = set_memory (pages s') (resident s') s;
  fl_dom : forall u, fst <$> pages s' !! u = fst <$> pages s !! u;
  fl_frames : resident s ⊆ resident s';
  fl_bytes : user_bytes s' a (length l) = l;
  fl_other : forall b, 0 <= b < 2 ^ 32 -> b < a \/ a + Z.of_nat (length l) <= b -> user_byte s' b = user_byte s b
}.

Lemma store_byte_runs s a x : 0 <= a < PHYS_BASE -> (exists page, pages s !! pg_round_down a = Some (true, page) /\ length page = 4096%nat) ->
  exists page, pages s !! pg_round_down a = Some (true, page) /\ length page = 4096%nat /\
    store_byte junk zeros oom a x s = Ret (touch a (true, <[Z.to_nat (pg_ofs a) := x]> page) s, Val tt).
Proof.
  intros Ha (page & Hp & Hl). exists page. split_and!; [done..|]. unfold store_byte, sbind, user_access, user_page.
  assert (is_user_vaddr a = true) as -> by (apply bool_decide_eq_true_2; lia). rewrite Hp. simpl. unfold modify, touch. simpl.
  by rewrite insert_insert_eq, (assoc_L (∪)), union_idemp_L.
Qed.

Lemma store_bytes_runs l : forall a s, 0 <= a -> a + Z.of_nat (length l) <= PHYS_BASE -> buffer_writable s a (Z.of_nat (length l)) ->
  exists s', store_bytes junk zeros oom l a s = Ret (s', Val tt) /\ filled a l s s'.
Proof.
  induction l as [|x l IH]; intros a s Ha He Hw.
  { exists s. split; [done|]. split; [by destruct s|done|done|done|done]. }
  cbn [length] in He, Hw. assert (PHYS_BASE < 2 ^ 32) as HB by done.
  destruct (store_byte_runs s a x) as (page & Hp & Hl & Es); [lia|specialize (Hw 0 ltac:(lia)); by rewrite Z.add_0_r in Hw|].
  set (s1 := touch a (true, <[Z.to_nat (pg_ofs a) := x]> page) s) in *.
  assert (forall b, 0 <= b < 2 ^ 32 -> user_byte s1 b = if decide (b = a) then x else user_byte s b) as Hs1
    by (intros b Hb; eapply user_byte_write; [lia|done..]).
  destruct (IH (a + 1) s1) as (s' & Er & [F1 F2 F3 F4 F5]); [lia..| |].
  { intros k Hk. destruct (Hw (k + 1) ltac:(lia)) as (pg & Hpg & Hlp). replace (a + 1 + k) with (a + (k + 1)) by lia. unfold s1, touch. simpl.
    destruct (decide (pg_round_down a = pg_round_down (a + (k + 1)))) as [E|E].
    - rewrite E, lookup_insert_eq. eexists. split; [done|]. by rewrite length_insert.
    - rewrite lookup_insert_ne by done. eauto. }
  exists s'. cbn [store_bytes]. rewrite (sbind_run _ _ _ _ _ Es). split; [done|]. split.
  - rewrite F1. done.
  - intros u. rewrite F2. unfold s1, touch. simpl. destruct (decide (pg_round_down a = u)) as [<-|E]; [by rewrite lookup_insert_eq, Hp|by rewrite lookup_insert_ne].
  - etransitivity; [|exact F3]. unfold s1, touch. simpl. set_solver.
  - cbn [length user_bytes]. rewrite F4, F5, Hs1, decide_True by (done || lia). done.
  - cbn [length]. intros b Hb Hout. rewrite F5, Hs1, decide_False by lia. done.
Qed.

Definition slot_handle (s : task) (n h : Z) (f : file) : Prop :=
  exists o, get_file_by_fd (file_list s) n = Some o /\ o_file o = h /\ h <> NULL /\ files (fsys s) !! h = Some f.

Lemma seek_runs p s h f : word_ready s (p + 4) -> word_ready s (p + 8) -> file_lock s = false ->
  slot_handle s (s32 (user_word s (p + 4))) h f -> 0 <= s32 (user_word s (p + 8)) ->
  exists s', sys_seek junk zeros oom p s = Ret (s', Val tt) /\ kept s s' /\
    slot_handle s' (s32 (user_word s (p + 4))) h (mkFile (f_inode f) (s32 (user_word s (p + 8))) (deny_write f)).
Proof.
  intros H1 H2 Hl Hs Hpos. unfold sys_seek, check_arg. change (p + 4 * 1) with (p + 4). change (p + 4 * 2) with (p + 8).
  rewrite (sbind_run _ _ _ _ _ (check_runs _ _ H1)), (sbind_run _ _ _ _ _ (check_runs _ _ H2)).
  rewrite (sbind_run _ _ s (set_lock true s) tt) by (unfold acquire_file_lock; by rewrite Hl).
  destruct (load_word_runs (set_lock true s) (p + 8)) as (s1 & L1 & G1); [by destruct H2|]. unfold arg. change (p + 4 * 2) with (p + 8).
  rewrite (sbind_run _ _ _ _ _ L1). destruct (load_word_runs s1 (p + 4)) as (s2 & L2 & G2); [eapply grown_ready; [done|by destruct H1]|].
  change (p + 4 * 1) with (p + 4). rewrite (sbind_run _ _ _ _ _ L2).
  assert (grown (set_lock true s) s2) as G by by transitivity s1. rewrite (grown_word _ _ _ G1).
  change (user_word (set_lock true s) (p + 4)) with (user_word s (p + 4)). change (user_word (set_lock true s) (p + 8)) with (user_word s (p + 8)).
  destruct G as [Hr ->]. destruct Hs as (o & Ho & <- & Hn & Hf).
  rewrite (sbind_run _ _ _ (more_frames (resident s2) (set_lock true s)) (o_file o)) by (unfold file_of, sbind, get; simpl; by rewrite Ho).
  unfold sbind, on_fs_, on_fs, file_seek, get_file. simpl. rewrite bool_decide_true by done. simpl.
  rewrite bool_decide_true by lia. simpl. rewrite Hf. simpl. eexists. split; [done|]. split; [by split|].
  exists o. split_and!; [done..|]. simpl. by rewrite lookup_insert_eq.
Qed.

Lemma tell_runs p s h f : word_ready s (p + 4) -> file_lock s = false -> slot_handle s (s32 (user_word s (p + 4))) h f ->
  exists s', sys_tell junk zeros oom p s = Ret (s', Val tt) /\ eax s' = u32 (f_pos f).
Proof.
  intros H1 Hl Hs. unfold sys_tell, check_arg. change (p + 4 * 1) with (p + 4).
  rewrite (sbind_run _ _ _ _ _ (check_runs _ _ H1)).
  rewrite (sbind_run _ _ s (set_lock true s) tt) by (unfold acquire_file_lock; by rewrite Hl).
  destruct (load_word_runs (set_lock true s) (p + 4)) as (s1 & L1 & G1); [by destruct H1|]. unfold arg. change (p + 4 * 1) with (p + 4).
  rewrite (sbind_run _ _ _ _ _ L1). change (user_word (set_lock true s) (p + 4)) with (user_word s (p + 4)).
  destruct G1 as [Hr ->]. destruct Hs as (o & Ho & <- & Hn & Hf).
  rewrite (sbind_run _ _ _ (more_frames (resident s1) (set_lock true s)) (o_file o)) by (unfold file_of, sbind, get; simpl; by rewrite Ho).
  unfold sbind, on_fs, file_tell, get_file. simpl. rewrite bool_decide_true by done. simpl. rewrite Hf. simpl. eexists. by split.
Qed.

(** A position that is set is the position that is read: for a descriptor that is open
    and a position that is not negative both calls return, and [tell] gives what [seek]
    was given, also beyond the end of the file. *)
Theorem seek_tell p q s f : fds_ok s -> file_lock s = false ->
  word_ready s p -> word_ready s (p + 4) -> word_ready s (p + 8) -> word_ready s q -> word_ready s (q + 4) ->
  user_word s p = 10 -> user_word s q = 11 -> user_word s (q + 4) = user_word s (p + 4) ->
  slot s (s32 (user_word s (p + 4))) = Some f -> 0 <= s32 (user_word s (p + 8)) ->
  exists s1 s2, syscall_handler junk zeros oom execute wait p s = Ret (s1, Val tt) /\
    syscall_handler junk zeros oom execute wait q s1 = Ret (s2, Val tt) /\ s32 (eax s2) = s32 (user_word s (p + 8)).
Proof.
  intros Hok Hl P0 P4 P8 Q0 Q4 Hp Hq Hfd Hs Hpos.
  assert (exists h, slot_handle s (s32 (user_word s (p + 4))) h f) as [h Hh].
  { unfold slot in Hs. destruct (get_file_by_fd _ _) as [o|] eqn:Ho; [|done]. exists (o_file o), o. split_and!; [done..| |done].
    by apply (slot_open s _ o Hok Ho). }
  destruct (handler_runs p s P0) as (s1 & G1 & ->). rewrite Hp. cbn [dispatch]. apply grown_kept in G1 as K1.
  assert (forall a, word_ready s a -> word_ready s1 a) as W1 by (intros a Ha; eapply kept_ready; [done|by destruct Ha]).
  assert (forall a, user_word s1 a = user_word s a) as U1 by (intros a; by rewrite (kept_word _ _ a K1)).
  destruct (seek_runs p s1 h f) as (s2 & -> & K2 & Hh2); rewrite ?U1; auto; [by rewrite (ke_lock _ _ K1)|by destruct G1 as [_ ->]|].
  rewrite !U1 in Hh2. assert (forall a, word_ready s a -> word_ready s2 a) as W2 by (intros a Ha; eapply kept_ready; [done|auto]).
  assert (forall a, user_word s2 a = user_word s a) as U2 by (intros a; by rewrite (kept_word _ _ a K2), U1).
  destruct (handler_runs q s2 (W2 _ Q0)) as (s3 & G3 & Hrun). rewrite U2, Hq in Hrun. cbn [dispatch] in Hrun. apply grown_kept in G3 as K3.
  destruct (tell_runs q s3 h (mkFile (f_inode f) (s32 (user_word s (p + 8))) (deny_write f))) as (s4 & Ht & He).
  - eapply kept_ready; [done|]. by destruct (W2 _ Q4).
  - rewrite (ke_lock _ _ K3). simpl. rewrite (ke_lock _ _ K2), (ke_lock _ _ K1). done.
  - rewrite (kept_word _ _ _ K3). change (user_word (set_esp q s2) (q + 4)) with (user_word s2 (q + 4)). rewrite U2, Hfd. by destruct G3 as [_ ->].
  - exists s2, s4. rewrite Hrun, Ht, He. split_and!; [done..|]. simpl. rewrite s32_u32. apply s32_small, s32_range.
Qed.

(** The null pointer is dereferenced with the lock held: the page fault ends the process,
    which asks for the lock again. *)
Lemma null_file_panics n s f {B} (k : Z -> sys B) : file_lock s = true -> get_file_by_fd (file_list s) n = None -> pages s !! 0 = None ->
  dir_close junk zeros oom (fsys s) (cur_dir (fsys s)) = Ret f -> sbind (file_of junk zeros oom n) k s = Panic.
Proof.
  intros Hl Hn H0 Hd. unfold sbind, file_of, get. cbn [sbind]. unfold sbind at 1. simpl. rewrite Hn.
  unfold load_word, load_bytes, load_byte, user_access, user_page, sbind. change (is_user_vaddr 0) with true.
  change (pg_round_down 0) with 0. rewrite H0. cbn [andb]. change (bool_decide (0 >= PHYS_BASE - 2 ^ 23)) with false. cbn [andb].
  unfold exit_process, close_dir, on_fs_, on_fs. rewrite Hd. simpl.
  unfold acquire_file_lock. simpl. by rewrite Hl.
Qed.

(** C40. [filesize], [seek] and [tell] with a descriptor that is not open panic the kernel:
    they use the null pointer while they hold the file lock, and the process that the page
    fault ends asserts that it does not hold it. *)
Theorem bad_descriptor_panics p s f : file_lock s = false -> user_word s p ∈ [7; 10; 11] ->
  word_ready s p -> word_ready s (p + 4) -> word_ready s (p + 8) ->
  get_file_by_fd (file_list s) (s32 (user_word s (p + 4))) = None -> pages s !! 0 = None ->
  dir_close junk zeros oom (fsys s) (cur_dir (fsys s)) = Ret f ->
  syscall_handler junk zeros oom execute wait p s = Panic.
Proof.
  intros Hl Hnr P0 P4 P8 Hn H0 Hd. destruct (handler_runs p s P0) as (s1 & G1 & ->).
  assert (grown (set_esp p s) s1) as [_ E1] by done.
  assert (forall a, word_ready s a -> word_ready s1 a) as W1 by (intros a Ha; eapply grown_ready; [done|by destruct Ha]).
  assert (user_word s1 (p + 4) = user_word s (p + 4)) as U1 by (by rewrite (grown_word _ _ _ G1)).
  assert (file_lock s1 = false) as L1 by by rewrite E1.
  set (s2 := set_lock true s1). assert (acquire_file_lock s1 = Ret (s2, Val tt)) as Ha by (unfold acquire_file_lock; by rewrite L1).
  pose proof (check_runs _ _ (W1 _ P4)) as C4. pose proof (check_runs _ _ (W1 _ P8)) as C8.
  assert (forall B (k : Z -> sys B) s3, grown s2 s3 ->
    sbind (arg junk zeros oom p 1) (fun n => sbind (file_of junk zeros oom (s32 n)) k) s3 = Panic) as Hfail.
  { intros B k s3 G3. destruct (load_word_runs s3 (p + 4)) as (s4 & L4 & G4); [eapply grown_ready; [done|by destruct (W1 _ P4)]|].
    unfold arg. change (p + 4 * 1) with (p + 4). rewrite (sbind_run _ _ _ _ _ L4). rewrite (grown_word _ _ _ G3).
    change (user_word s2 (p + 4)) with (user_word s1 (p + 4)). assert (grown s2 s4) as [_ E4] by by transitivity s3.
    rewrite U1, E4. unfold s2. rewrite E1. by eapply null_file_panics. }
  repeat (apply elem_of_cons in Hnr as [->|Hnr]); [..|by apply elem_of_nil in Hnr]; cbn [dispatch];
    unfold sys_filesize, sys_seek, sys_tell, check_arg; change (p + 4 * 1) with (p + 4); change (p + 4 * 2) with (p + 8);
    rewrite (sbind_run _ _ _ _ _ C4), ?(sbind_run _ _ _ _ _ C8), (sbind_run _ _ _ _ _ Ha); try by apply Hfail.
  destruct (load_word_runs s2 (p + 8)) as (s3 & L3 & G3); [by destruct (W1 _ P8)|]. unfold arg at 1. change (p + 4 * 2) with (p + 8).
  rewrite (sbind_run _ _ _ _ _ L3). by apply Hfail.
Qed.
(** ** Calls on an open file *)

(** Arguments and addresses, in a state that differs from [s] in its frames. *)
Lemma ready_more s R a : word_ready s a -> resident s ⊆ R -> word_ready (more_frames R s) a.
Proof. intros [H1 H2 H3 H4] HR. split; [done..|]. simpl. set_solver. Qed.

Lemma arg_runs s R p i : word_ready s (p + 4 * i) -> resident s ⊆ R -> exists R', resident s ⊆ R' /\
  arg junk zeros oom p i (more_frames R s) = Ret (more_frames R' s, Val (user_word s (p + 4 * i))).
Proof.
  intros Hw HR. destruct (load_word_runs (more_frames R s) (p + 4 * i)) as (s1 & E & [HR' HE]); [by apply ready_more|].
  exists (resident s1). split; [simpl in HR'; set_solver|]. unfold arg. rewrite E. by rewrite HE at 1.
Qed.

Lemma check_arg_runs s R p i : word_ready s (p + 4 * i) -> resident s ⊆ R -> check_arg junk zeros oom p i (more_frames R s) = Ret (more_frames R s, Val tt).
Proof. intros Hw HR. by apply check_runs, ready_more. Qed.

Lemma check_buffer_runs s R a n : buffer_ready s a n -> resident s ⊆ R -> check_address junk zeros oom a (more_frames R s) = Ret (more_frames R s, Val tt).
Proof.
  intros [Ha _ _ Hf] HR. unfold check_address. rewrite bool_decide_false by lia.
  assert (is_user_vaddr a = true) as -> by (apply bool_decide_eq_true_2; lia). unfold sbind, get. simpl. rewrite bool_decide_true; [done|set_solver].
Qed.

Lemma more_frames_self s : s = more_frames (resident s) s.
Proof. by destruct s. Qed.
Lemma run_more {A} (m : sys A) s : m s = m (more_frames (resident s) s).
Proof. f_equal. apply more_frames_self. Qed.

(** The open file of descriptor [n], at position [q] of the file in sector [t]. *)
Record open_at (s : task) (n : Z) (G : list Z) (h p : Z) (i : inode) (t q : Z) : Prop := {
  oa_slot : exists o, get_file_by_fd (file_list s) n = Some o /\ o_file o = h;
  oa_file : file_at (fsys s) G h p i t q
}.

Context {memory : good_memory junk zeros oom}.

Lemma write_runs p s G h ip i t q : word_ready s (p + 4 * 1) -> word_ready s (p + 4 * 2) -> word_ready s (p + 4 * 3) -> file_lock s = false ->
  let n := user_word s (p + 4 * 1) in let buf := user_word s (p + 4 * 2) in let size := user_word s (p + 4 * 3) in
  let data := user_bytes s buf (Z.to_nat size) in let old := content (vw (fsys s)) t in
  n <> 1 -> open_at s (s32 n) G h ip i t q -> writable (fsys s) i t -> buffer_ready s buf size -> 0 <= size < 2 ^ 31 ->
  0 <= q -> q + size <= Z.of_nat (length old) ->
  exists s', sys_write junk zeros oom p s = Ret (s', Val tt) /\ kept s s' /\ open_at s' (s32 n) G h ip i t (q + size) /\ eax s' = size /\
    content (vw (fsys s')) t = take (Z.to_nat q) old ++ data ++ drop (Z.to_nat (q + size)) old /\ others_same G (fsys s) (fsys s').
Proof.
  intros W1 W2 W3 Hl n buf size data old Hn [(o & Ho & <-) Hfa] (D1 & D2 & D3) Hb Hs Hq Hin. rewrite (run_more (sys_write _ _ _ p)). unfold sys_write.
  assert (s32 size = size) as Es by (apply s32_small; lia).
  rewrite (sbind_run _ _ _ _ _ (check_arg_runs s _ p 1 W1 ltac:(done))), (sbind_run _ _ _ _ _ (check_arg_runs s _ p 3 W3 ltac:(done))).
  destruct (arg_runs s (resident s) p 2 W2 ltac:(done)) as (R1 & HR1 & E1). rewrite (sbind_run _ _ _ _ _ E1). fold buf.
  rewrite (sbind_run _ _ _ _ _ (check_buffer_runs s R1 buf size Hb HR1)).
  destruct (arg_runs s R1 p 3 W3 HR1) as (R2 & HR2 & E2). rewrite (sbind_run _ _ _ _ _ E2). fold size.
  destruct (arg_runs s R2 p 1 W1 HR2) as (R3 & HR3 & E3). rewrite (sbind_run _ _ _ _ _ E3). fold n.
  rewrite bool_decide_false by done. rewrite (sbind_run _ _ _ (more_frames R3 s) (more_frames R3 s)) by done.
  change (file_list (more_frames R3 s)) with (file_list s). rewrite Ho.
  rewrite (sbind_run _ _ _ (more_frames R3 (set_lock true s)) tt) by (unfold acquire_file_lock; simpl; by rewrite Hl).
  destruct (readable_runs (set_lock true s) (Z.to_nat size) buf R3) as (R4 & HR4 & E4).
  { intros k Hk. destruct Hb as [B1 B2 B3 _]. split; [apply bool_decide_eq_true_2; lia|apply B3; lia]. }
  assert (user_bytes (set_lock true s) buf (Z.to_nat size) = data) as Ed by (by apply user_bytes_ext). rewrite Ed in E4.
  rewrite Es. rewrite (sbind_run _ _ _ (more_frames R4 (set_lock true s)) data) by (rewrite E4; reflexivity).
  assert (length data = Z.to_nat size) as Hld by apply user_bytes_length.
  destruct (file_write_ok (fsys s) G (o_file o) ip i t q (data ++ replicate (Z.to_nat size - length data) 0) size Hfa D1 D2 D3) as (f & Ew & Hfa' & Hc & _ & Ho' & Hf');
    [rewrite length_app, Hld; lia|lia|exact Hin|].
  rewrite (sbind_run _ _ _ (set_fsys f (more_frames R4 (set_lock true s))) size).
  2:{ unfold on_fs. change (fsys (more_frames R4 (set_lock true s))) with (fsys s). by rewrite Ew. }
  rewrite bool_decide_eq_true_2 by lia. eexists. split; [done|]. split_and!; simpl.
  - split; [done|simpl; set_solver|done].
  - split; [by exists o|exact Hfa'].
  - apply u32_small. lia.
  - rewrite Hc. do 2 f_equal. rewrite <- Hld at 1. by rewrite take_app_length.
  - by split.
Qed.

Lemma seek_at_runs p s G h ip i t q : word_ready s (p + 4 * 1) -> word_ready s (p + 4 * 2) -> file_lock s = false ->
  let n := user_word s (p + 4 * 1) in let pos := s32 (user_word s (p + 4 * 2)) in
  open_at s (s32 n) G h ip i t q -> 0 <= pos ->
  exists s', sys_seek junk zeros oom p s = Ret (s', Val tt) /\ kept s s' /\ open_at s' (s32 n) G h ip i t pos /\
    forall x, vw (fsys s') x = vw (fsys s) x.
Proof.
  intros W1 W2 Hl n pos [(o & Ho & <-) Hfa] Hpos. rewrite (run_more (sys_seek _ _ _ p)). unfold sys_seek.
  rewrite (sbind_run _ _ _ _ _ (check_arg_runs s _ p 1 W1 ltac:(done))), (sbind_run _ _ _ _ _ (check_arg_runs s _ p 2 W2 ltac:(done))).
  rewrite (sbind_run _ _ _ (more_frames (resident s) (set_lock true s)) tt) by (unfold acquire_file_lock; simpl; by rewrite Hl).
  destruct (arg_runs (set_lock true s) (resident s) p 2) as (R1 & HR1 & E1); [by destruct W2|done|]. rewrite (sbind_run _ _ _ _ _ E1).
  destruct (arg_runs (set_lock true s) R1 p 1) as (R2 & HR2 & E2); [by destruct W1|done|]. rewrite (sbind_run _ _ _ _ _ E2).
  change (user_word (set_lock true s)) with (user_word s). fold n pos.
  rewrite (sbind_run _ _ _ (more_frames R2 (set_lock true s)) (o_file o)) by (unfold file_of, sbind, get; simpl; by rewrite Ho).
  unfold sbind, on_fs_, on_fs, file_seek, get_file. simpl. rewrite bool_decide_true by apply Hfa. rewrite bool_decide_true by lia. cbn [assert_ rbind].
  rewrite (fa_file _ _ _ _ _ _ _ Hfa). cbn [of_opt rbind f_inode deny_write]. eexists. split; [done|]. split_and!.
  - by split.
  - split; [by exists o|]. simpl. by eapply (file_at_step (fsys s) (fsys s)); [|apply Hfa|].
  - done.
Qed.

Lemma read_runs p s G h ip i t q : word_ready s (p + 4 * 1) -> word_ready s (p + 4 * 2) -> word_ready s (p + 4 * 3) -> file_lock s = false ->
  let n := user_word s (p + 4 * 1) in let buf := user_word s (p + 4 * 2) in let size := user_word s (p + 4 * 3) in
  let data := take (Z.to_nat size) (drop (Z.to_nat q) (content (vw (fsys s)) t)) in
  n <> 0 -> open_at s (s32 n) G h ip i t q -> buffer_ready s buf size -> buffer_writable s buf size -> 0 <= size < 2 ^ 31 ->
  0 <= q <= Z.of_nat (length (content (vw (fsys s)) t)) ->
  exists s', sys_read junk zeros oom p s = Ret (s', Val tt) /\ file_lock s' = false /\ eax s' = Z.of_nat (length data) /\
    user_bytes s' buf (length data) = data /\
    (forall b, 0 <= b < 2 ^ 32 -> b < buf \/ buf + Z.of_nat (length data) <= b -> user_byte s' b = user_byte s b) /\
    open_at s' (s32 n) G h ip i t (q + Z.of_nat (length data)) /\ forall x, vw (fsys s') x = vw (fsys s) x.
Proof.
  intros W1 W2 W3 Hl n buf size data Hn [(o & Ho & <-) Hfa] Hb Hbw Hs Hq. rewrite (run_more (sys_read _ _ _ p)). unfold sys_read.
  assert (s32 size = size) as Es by (apply s32_small; lia).
  destruct (arg_runs s (resident s) p 2 W2 ltac:(done)) as (R1 & HR1 & E1). rewrite (sbind_run _ _ _ _ _ E1). fold buf.
  rewrite (sbind_run _ _ _ _ _ (check_arg_runs s R1 p 1 W1 HR1)), (sbind_run _ _ _ _ _ (check_buffer_runs s R1 buf size Hb HR1)).
  rewrite (sbind_run _ _ _ _ _ (check_arg_runs s R1 p 3 W3 HR1)).
  destruct (arg_runs s R1 p 1 W1 HR1) as (R2 & HR2 & E2). rewrite (sbind_run _ _ _ _ _ E2). fold n.
  destruct (arg_runs s R2 p 3 W3 HR2) as (R3 & HR3 & E3). rewrite (sbind_run _ _ _ _ _ E3). fold size.
  rewrite bool_decide_false by done. rewrite (sbind_run _ _ _ (more_frames R3 s) (more_frames R3 s)) by done.
  change (file_list (more_frames R3 s)) with (file_list s). rewrite Ho, bool_decide_false by apply Hfa.
  rewrite (sbind_run _ _ _ (more_frames R3 (set_lock true s)) tt) by (unfold acquire_file_lock; simpl; by rewrite Hl). rewrite Es.
  destruct (file_read_ok (fsys s) G (o_file o) ip i t q size Hfa Hs Hq) as (f & Er & Hfa' & Hv & _). fold data in Er, Hfa'.
  set (s1 := set_fsys f (more_frames R3 (set_lock true s))). rewrite (sbind_run _ _ _ s1 data).
  2:{ unfold on_fs. change (fsys (more_frames R3 (set_lock true s))) with (fsys s). by rewrite Er. }
  assert (Z.of_nat (length data) <= size) as Hld by (unfold data; rewrite length_take; lia).
  destruct (store_bytes_runs data buf s1) as (s2 & E4 & [F1 F2 F3 F4 F5]); [destruct Hb; lia|destruct Hb; lia|intros k Hk; apply Hbw; lia|].
  rewrite (sbind_run _ _ _ _ _ E4). unfold sbind, modify, release_file_lock. simpl. assert (file_lock s2 = true) as -> by by rewrite F1. simpl.
  eexists. split; [done|]. split_and!; simpl; try done.
  - apply u32_small. lia.
  - etransitivity; [|exact F4]. by apply user_bytes_ext.
  - split; [exists o; simpl; by rewrite F1|]. simpl. by rewrite F1.
  - intros x. rewrite F1. apply Hv.
Qed.

(** ** Calls one after another *)

Lemma kept_bytes s s' : kept s s' -> forall a, user_byte s' a = user_byte s a.
Proof. intros [Hp _ _] a. unfold user_byte. by rewrite Hp. Qed.
Lemma kept_buffer s s' a n : kept s s' -> buffer_ready s a n -> buffer_ready s' a n.
Proof. intros [Hp Hr _] [B1 B2 B3 B4]. split; [done..| |set_solver]. by rewrite Hp. Qed.
Lemma kept_writable s s' a n : kept s s' -> buffer_writable s a n -> buffer_writable s' a n.
Proof. intros [Hp _ _] Hb. unfold buffer_writable. by rewrite Hp. Qed.
#[local] Instance kept_preorder : PreOrder kept.
Proof. split; [by split|]. intros s1 s2 s3 [? ? ?] [? ? ?]. split; [congruence|set_solver|congruence]. Qed.

Lemma handler_kept p s : word_ready s p -> exists s1, kept s s1 /\ fsys s1 = fsys s /\ file_list s1 = file_list s /\
  syscall_handler junk zeros oom execute wait p s = dispatch junk zeros oom execute wait p (user_word s p) s1.
Proof.
  intros Hp. destruct (handler_runs p s Hp) as (s1 & G & ->). exists s1. split; [apply grown_kept in G; by destruct G|].
  destruct G as [_ ->]. done.
Qed.

(** C6. What a process writes to an open file is what it reads from it.  The process writes
    [size] bytes at its position inside a file that is not a directory and not an
    executable in use, sets the position back and reads [size] bytes into another buffer,
    with the arguments of the calls and the buffers in its memory (the words and the starts
    of the buffers in frames, as [check_address] demands) and memory for the kernel: all
    three calls return, with [size] as the result of [write] and [read], the second buffer
    holds the bytes of the first, all other bytes of the process are unchanged, the file has
    the bytes at that place and is otherwise unchanged, no other file changes, the position
    is behind them and the file lock is free. *)
Theorem write_seek_read w k r s G h ip i t q :
  Forall (word_ready s) [w; w + 4; w + 8; w + 12; k; k + 4; k + 8; r; r + 4; r + 8; r + 12] -> file_lock s = false ->
  user_word s w = 9 -> user_word s k = 10 -> user_word s r = 8 ->
  let n := user_word s (w + 4) in let size := user_word s (w + 12) in
  let src := user_word s (w + 8) in let dst := user_word s (r + 8) in let old := content (vw (fsys s)) t in
  user_word s (k + 4) = n -> user_word s (r + 4) = n -> user_word s (k + 8) = q -> user_word s (r + 12) = size ->
  n <> 0 -> n <> 1 -> open_at s (s32 n) G h ip i t q -> writable (fsys s) i t ->
  buffer_ready s src size -> buffer_ready s dst size -> buffer_writable s dst size ->
  0 <= q -> 0 <= size -> q + size <= Z.of_nat (length old) ->
  exists s1 s2 s3, syscall_handler junk zeros oom execute wait w s = Ret (s1, Val tt) /\
    syscall_handler junk zeros oom execute wait k s1 = Ret (s2, Val tt) /\
    syscall_handler junk zeros oom execute wait r s2 = Ret (s3, Val tt) /\ eax s1 = size /\ eax s3 = size /\
    user_bytes s3 dst (Z.to_nat size) = user_bytes s src (Z.to_nat size) /\
    (forall b, 0 <= b < 2 ^ 32 -> b < dst \/ dst + size <= b -> user_byte s3 b = user_byte s b) /\
    content (vw (fsys s3)) t = take (Z.to_nat q) old ++ user_bytes s src (Z.to_nat size) ++ drop (Z.to_nat (q + size)) old /\
    (forall g, g ∈ G -> g <> FREE_MAP_SECTOR \/ free_map_file (fsys s) = NULL -> content (vw (fsys s3)) g = content (vw (fsys s)) g) /\
    open_at s3 (s32 n) G h ip i t (q + size) /\ file_lock s3 = false.
Proof.
  intros HW Hl Nw Nk Nr n size src dst old Kn Rn Kq Rs Hn0 Hn1 Ho Hwr Bs Bd Bw Hq Hs Hin.
  rewrite !Forall_cons in HW. destruct HW as (W0 & W1 & W2 & W3 & S0 & S1 & S2 & R0 & R1 & R2 & R3 & _).
  assert (Z.of_nat (length old) < 2 ^ 31) as Hlen by (destruct (file_at_len _ _ _ _ _ _ _ (oa_file _ _ _ _ _ _ _ _ Ho)); unfold max_blocks in *; unfold old; lia).
  destruct (handler_kept w s W0) as (a1 & K1 & F1 & L1 & ->). rewrite Nw. cbn [dispatch].
  pose proof (fun x => kept_word _ _ x K1) as U1. pose proof (kept_bytes _ _ K1) as Y1.
  destruct (write_runs w a1 G h ip i t q) as (s1 & -> & K2 & O2 & X2 & C2 & T2).
  1-3: eapply kept_ready; [exact K1|by first [exact W1|exact W2|exact W3]].
  { by rewrite (ke_lock _ _ K1). }
  1-7: rewrite ?U1, ?F1.
  { done. }
  { destruct Ho as [? ?]; split; [by rewrite L1|by rewrite F1]. }
  { done. }
  { by eapply kept_buffer. }
  { change (0 <= size < 2 ^ 31). lia. }
  { done. }
  { done. }
  cbv zeta in O2, X2, C2, T2. rewrite U1 in X2. rewrite !U1 in O2. rewrite !U1, F1 in C2. rewrite F1 in T2. change (w + 4 * 1) with (w + 4) in *. change (w + 4 * 2) with (w + 8) in *. change (w + 4 * 3) with (w + 12) in *.
  fold n size src old in O2, X2, C2, T2. rewrite (user_bytes_ext s a1) in C2 by (intros; apply Y1).
  assert (kept s s1) as K3 by by transitivity a1.
  destruct (handler_kept k s1) as (a2 & K4 & F4 & L4 & Hk); [by eapply kept_ready|].
  assert (kept s a2) as K5 by by transitivity s1. pose proof (fun x => kept_word _ _ x K5) as U5. rewrite (kept_word _ _ _ K3), Nk in Hk. cbn [dispatch] in Hk.
  destruct (seek_at_runs k a2 G h ip i t (q + size)) as (s2 & E2 & K6 & O6 & V6).
  1-2: eapply kept_ready; [exact K5|by first [exact S1|exact S2]].
  { by rewrite (ke_lock _ _ K5). }
  { rewrite U5. change (k + 4 * 1) with (k + 4). rewrite Kn. destruct O2 as [? ?]; split; [by rewrite L4|by rewrite F4]. }
  { rewrite U5. change (k + 4 * 2) with (k + 8). rewrite Kq, s32_small by lia. done. }
  cbv zeta in O6. rewrite !U5 in O6. change (k + 4 * 1) with (k + 4) in O6. change (k + 4 * 2) with (k + 8) in O6. rewrite Kn, Kq, (s32_small q) in O6 by lia. rewrite F4 in V6.
  assert (kept s s2) as K7 by by transitivity a2. rewrite E2 in Hk.
  destruct (handler_kept r s2) as (a3 & K8 & F8 & L8 & Hr); [by eapply kept_ready|].
  assert (kept s a3) as K9 by by transitivity s2. pose proof (fun x => kept_word _ _ x K9) as U9. rewrite (kept_word _ _ _ K7), Nr in Hr. cbn [dispatch] in Hr.
  assert (content (vw (fsys a3)) t = content (vw (fsys s1)) t) as C9 by (rewrite F8; apply content_agree; intros; apply V6).
  set (data := user_bytes s src (Z.to_nat size)) in *. assert (length data = Z.to_nat size) as Hd by apply user_bytes_length.
  assert (take (Z.to_nat size) (drop (Z.to_nat q) (content (vw (fsys a3)) t)) = data) as Hdata.
  { rewrite C9, C2, drop_app_ge, length_take by (rewrite length_take; lia). replace (Z.to_nat q - _)%nat with 0%nat by lia. rewrite drop_0, <- Hd. apply take_app_length. }
  destruct (read_runs r a3 G h ip i t q) as (s3 & E3 & L3 & X3 & B3 & Y3 & O3 & V3).
  1-3: eapply kept_ready; [exact K9|by first [exact R1|exact R2|exact R3]].
  { by rewrite (ke_lock _ _ K9). }
  all: change (r + 4 * 1) with (r + 4) in *; change (r + 4 * 2) with (r + 8) in *; change (r + 4 * 3) with (r + 12) in *; rewrite ?U9, ?Rn, ?Rs.
  { done. }
  { destruct O6 as [? ?]; split; [by rewrite L8|by rewrite F8]. }
  { by eapply kept_buffer. }
  { by eapply kept_writable. }
  { lia. }
  { rewrite C9, C2, !length_app, length_take, length_drop, Hd. lia. }
  cbv zeta in X3, B3, Y3, O3. change (r + 4 * 1) with (r + 4) in *; change (r + 4 * 2) with (r + 8) in *; change (r + 4 * 3) with (r + 12) in *.
  rewrite !U9, ?Rn, ?Rs in X3. rewrite !U9, ?Rn, ?Rs in B3. rewrite !U9, ?Rn, ?Rs in Y3. rewrite !U9, ?Rn, ?Rs in O3. fold dst in B3, Y3. assert (Z.of_nat (length data) = size) as Hz by lia.
  rewrite Hdata, Hz in X3. rewrite Hdata, Hd in B3. rewrite Hdata, Hz in Y3. rewrite Hdata, Hz in O3.
  exists s1, s2, s3. rewrite Hk, Hr, E3. split_and!; try done.
  - intros b Hb Hout. rewrite Y3 by done. apply (kept_bytes _ _ K9).
  - rewrite <- C2, <- C9. apply content_agree. intros; apply V3.
  - intros g Hg Hf. rewrite <- (proj2 T2 g Hg Hf). apply content_agree. intros x _. by rewrite V3, F8, V6.
Qed.

End Run.

(** ** Concrete calls *)

Lemma demo_page x : 0 <= x < 100 -> is_user_vaddr (stack_top + x) = true /\ pg_round_down (stack_top + x) = stack_top.
Proof.
  intros Hx. assert (Forall (fun x => is_user_vaddr (stack_top + x) = true /\ pg_round_down (stack_top + x) = stack_top) (seqZ 0 100)) as H
    by (apply (bool_decide_unpack _); vm_compute; exact I).
  rewrite Forall_forall in H. apply H, elem_of_seqZ. lia.
Qed.

Lemma demo_ready l n ws k : 0 <= k <= 90 -> word_ready (demo_task l n ws) (stack_top + k).
Proof.
  intros Hk. split.
  - unfold stack_top. lia.
  - intros j Hj. rewrite <-Z.add_assoc. apply demo_page. lia.
  - intros j Hj. rewrite <-Z.add_assoc. destruct (demo_page (k + j)) as [_ ->]; [lia|]. cbn [demo_task pages]. rewrite lookup_singleton_eq. eauto.
  - destruct (demo_page k) as [_ ->]; [lia|]. cbn [demo_task resident]. set_solver.
Qed.

(** [seek] to 700 and [tell], the arguments of which follow those of [seek]. *)
Definition seek_foo : task := demo_task [mkOpen foo 2] 3 [10; 2; 700; 11; 2].

Lemma seek_tell_witness : exists s1 s2, demo_handler stack_top seek_foo = Ret (s1, Val tt) /\
  demo_handler (stack_top + 12) s1 = Ret (s2, Val tt) /\ s32 (eax s2) = 700.
Proof.
  destruct (seek_tell demo_junk demo_junk demo_oom (fun _ => -1) (fun _ => -1) stack_top (stack_top + 12) seek_foo (mkFile foo_inode 0 false))
    as (s1 & s2 & H1 & H2 & H3).
  - apply demo_one_file.
  - reflexivity.
  - apply (demo_ready _ _ _ 0). lia.
  - apply demo_ready. lia.
  - apply demo_ready. lia.
  - apply demo_ready. lia.
  - rewrite <-Z.add_assoc. apply demo_ready. lia.
  - vm_compute. reflexivity.
  - vm_compute. reflexivity.
  - vm_compute. reflexivity.
  - vm_compute. reflexivity.
  - vm_compute. discriminate.
  - exists s1, s2. split; [exact H1|]. split; [exact H2|]. rewrite H3. vm_compute. reflexivity.
Defined.

(** [write] of five bytes to the open file, [seek] to its start and [read] into another place. *)
Definition copy_foo : task := demo_task [mkOpen foo 2] 3
  [9; 2; stack_top + 44; 5; 10; 2; 0; 8; 2; stack_top + 60; 5; 0x6c6c6568; 0x6f].
Definition foo_sector : Z := Eval vm_compute in match inodes booted !! foo_inode with Some i => sector i | None => 0 end.
Definition foo_node : inode := Eval vm_compute in default (mkInode 0 0 false 0 false) (inodes booted !! foo_inode).

Lemma foo_open : open_at copy_foo 2 [FREE_MAP_SECTOR; ROOT_DIR_SECTOR] foo foo_inode foo_node foo_sector 0.
Proof.
  split; [exists (mkOpen foo 2); split; reflexivity|].
  split; [apply inv_b_ok; vm_compute; reflexivity|discriminate|vm_compute; (reflexivity || discriminate)..].
Qed.

Lemma demo_buffer l n ws k : 0 <= k <= 90 -> buffer_ready (demo_task l n ws) (stack_top + k) 5.
Proof.
  intros Hk. split.
  - unfold stack_top. change PHYS_BASE with 3221225472. lia.
  - unfold stack_top. change PHYS_BASE with 3221225472. lia.
  - intros j Hj. rewrite <- Z.add_assoc. destruct (demo_page (k + j)) as [_ ->]; [lia|]. cbn [demo_task pages]. rewrite lookup_singleton_eq. eauto.
  - destruct (demo_page k) as [_ ->]; [lia|]. cbn [demo_task resident]. set_solver.
Qed.

Lemma write_seek_read_witness : exists s1 s2 s3, demo_handler stack_top copy_foo = Ret (s1, Val tt) /\
  demo_handler (stack_top + 16) s1 = Ret (s2, Val tt) /\ demo_handler (stack_top + 28) s2 = Ret (s3, Val tt) /\
  user_bytes s3 (stack_top + 60) 5 = [104; 101; 108; 108; 111].
Proof.
  destruct (write_seek_read demo_junk demo_junk demo_oom (fun _ => -1) (fun _ => -1) (memory := demo_memory) stack_top (stack_top + 16) (stack_top + 28) copy_foo
    [FREE_MAP_SECTOR; ROOT_DIR_SECTOR] foo foo_inode foo_node foo_sector 0) as (s1 & s2 & s3 & E1 & E2 & E3 & _ & _ & Hb & _).
  - rewrite !Forall_cons, Forall_nil. split_and!; rewrite <- ?Z.add_assoc; first [exact I|apply demo_ready; lia|apply (demo_ready _ _ _ 0); lia].
  - reflexivity.
  - vm_compute. reflexivity.
  - vm_compute. reflexivity.
  - vm_compute. reflexivity.
  - vm_compute. reflexivity.
  - vm_compute. reflexivity.
  - vm_compute. reflexivity.
  - vm_compute. reflexivity.
  - vm_compute. discriminate.
  - vm_compute. discriminate.
  - exact foo_open.
  - split; [|split]; vm_compute; reflexivity.
  - apply (demo_buffer _ _ _ 44). lia.
  - apply (demo_buffer _ _ _ 60). lia.
  - intros j Hj. change (user_word copy_foo (stack_top + 28 + 8)) with (stack_top + 60). change (user_word copy_foo (stack_top + 12)) with 5 in Hj.
    rewrite <- Z.add_assoc. destruct (demo_page (60 + j)) as [_ ->]; [lia|]. eexists. split; [apply lookup_singleton_eq|]. vm_compute. reflexivity.
  - lia.
  - vm_compute. discriminate.
  - vm_compute. discriminate.
  - exists s1, s2, s3. split; [exact E1|]. split; [exact E2|]. split; [exact E3|]. refine (eq_trans Hb _). vm_compute. reflexivity.
Defined.

(** [tell] of a descriptor that is not open. *)
Definition tell_none : task := demo_task [] 2 [11; 5; 0].

Lemma bad_descriptor_panics_witness : demo_handler stack_top tell_none = Panic.
Proof.
  assert (exists f, dir_close demo_junk demo_junk demo_oom booted (cur_dir booted) = Ret f) as [f Hf] by (vm_compute; eexists; reflexivity).
  apply (bad_descriptor_panics demo_junk demo_junk demo_oom (fun _ => -1) (fun _ => -1) stack_top tell_none f).
  - reflexivity.
  - apply (bool_decide_unpack _). vm_compute. exact I.
  - apply (demo_ready _ _ _ 0). lia.
  - apply demo_ready. lia.
  - apply demo_ready. lia.
  - vm_compute. reflexivity.
  - vm_compute. reflexivity.
  - exact Hf.
Defined.

(** A call with its arguments in a page of the process that is not in a frame ends the
    process: [check_address] takes it for an invalid address. *)
Example swapped_argument_kills :
  match demo_handler stack_top (set_memory (pages open_foo) ∅ open_foo) with Ret (_, Exited st) => st | _ => 0 end = -1.
Proof. vm_compute. reflexivity. Qed.
